(* ===== verification/_CoqProject ===== *)
-Q . S2P
Prelude.v
GoLib.v
GoText.v
Sha256.v
NetIP.v
Domain.v
Addresses.v
AddressesSpec.v
Policy.v
SettingsSpec.v
GoHeap.v
SchedTypes.v
Scheduler.v
SchedOps.v
SchedInv.v
SchedMoves.v
SchedSteps.v
SchedDispatch.v
SchedSchedule.v
SchedRun.v
SchedWorld.v
SchedSpec.v
SchedTheorems.v
StateStore.v
StateSpec.v
StateTheorems.v
Runtime.v
MapSource.v
Rates.v
Performance.v
Cooldown.v
Collectors.v
StaticDedupe.v
TaskRunner.v
TaskRunnerSpec.v
Journal.v
RuntimePatch.v
Hub.v
Overview.v
StreamInv.v
StreamSteps.v
StreamPipe.v
StreamTheorems.v
DeviceCache.v
DeviceCacheInv.v
DeviceCacheSync.v
DeviceCacheSpec.v
DeviceCacheTheorems.v
DeviceCacheReads.v
Password.v
AuthRepo.v
AuthService.v
AuthAdmin.v
AuthLogic.v
AuthTables.v
AuthEscalation.v
AuthSuperAdmin.v
AuthLogin.v
AuthDemo.v
BulkData.v
BulkRepo.v
BulkService.v
BulkJobs.v
BulkLogic.v
BulkStmts.v
BulkSafe.v
BulkProcessor.v
BulkTheorems.v
BulkLive.v
BulkDemo.v
CanvasMap.v
MapStore.v
CanvasRepo.v
LinkStore.v
CanvasService.v
CanvasInv.v
CanvasSafe.v
LinkTheorems.v
CanvasTheorems.v
CanvasDemo.v
