(* ===== verification/Prelude.v ===== *)
(** * A verification of the Theia backend

    Theia is a network monitoring server.  Its Go backend polls devices on a schedule, keeps
    the last known state of every device, and shows that state to browsers as a versioned
    stream, on maps its users save.  This library models the core of the backend and proves what
    it is relied on for.  Names follow the source; paths are relative to [internal/].

    ** The program and its parts

    - A _scheduler_ ([scheduler/]) decides when which device is polled.  Its goroutine moves
      tasks from a due-time heap to ready lanes and from there to a bounded channel read by
      workers; workers answer with completions.  Its limits come from a _policy_
      ([polling/policy.go], [pollingbudget/]) computed from validated _settings_
      ([domain/settings_constraints.go]).
    - Workers run each task once ([worker/]): a collector polls the device within a deadline,
      raw interface counters become rates, a walk that keeps timing out is left out for a while
      ([collector/]), and repeated static results are not written again.  Devices come with
      normalized addresses and ports ([domain/device_normalization.go]).
    - A _state store_ ([state/]) merges the results, judges health with hysteresis, and tells a
      single consumer which devices changed over a bounded channel.
    - The consumer, the broadcast loop of the _pipeline_ ([worker/]), turns store, alerts and
      inventory into normalized snapshots and sparse deltas with a version and a stream, keeps
      a _journal_ of deltas, and hands both to the _hub_ ([ws/]), which keeps a bounded mailbox
      per connected client and recovers clients that fell behind.
    - Most readers see devices and links through a _cache_ ([cache/]) that follows the change
      events of the repositories.
    - _Authentication_ ([service/auth_service.go], [auth_admin_service.go], [security/], with its
      tables in [repository/postgres/]) decides who may do what: logins with lockout, sessions,
      password changes and resets, and the administration of accounts and roles.
    - _Backups_ of device configurations ([service/bulk_backup_run.go], [backup_jobs.go]) run over
      many devices as a durable run: a processor works through its items in batches under a lease
      in the database, while users pause, resume and cancel it and instances die and restart.
    - _Canvas maps_ ([service/canvasmap/], [api/canvas_map_handler.go]) are what users save: the
      devices, links and areas selected from the topology by a filter or one by one, with positions
      and drawn routes.  _Links_ come from users and from discovery
      ([repository/postgres/link_repo.go]) and are put on the maps that show both ends.  The
      scheduler polls the devices on saved maps.

    ** Files

    Foundations.  [Prelude]: results, map reads, record update, tactics, hints and shared
    lemmas.  [GoLib], [GoText], [Sha256], [NetIP], [GoHeap]: what the code uses of the
    Go standard library (wrapping integers, binary64 comparisons, strings, [strconv], FNV,
    RFC 3339, SHA-256, [net/netip], [container/heap]); [GoHeap] is proved against an interface of
    list-like heaps and instantiated by the scheduler.  [GoText] also orders and folds strings.
    [Domain]: devices, poll classes and vocabulary.  [Addresses], [AddressesSpec]
    ([domain/device_normalization.go], [domain/probe_ports.go]) and their theorems.

    Settings.  [Policy] ([domain/settings.go], [settings_constraints.go], [polling/policy.go],
    [pollingbudget/pollingbudget.go]), [SettingsSpec] (their theorems).

    Scheduler.  [SchedTypes] ([types.go], [heap.go], [jitter.go]), [Scheduler] (state, limits,
    counters), [SchedOps] (queueing, dispatch, refresh, completion), [SchedRun] (lifecycle,
    public API, arms of the run loop, health).  The state is the record [Sched]; items live in a
    store addressed by location because heap, lanes and the task index share them.  [SchedInv],
    [SchedMoves], [SchedSteps], [SchedDispatch], [SchedSchedule]: the invariant and its preservation by every operation.  [SchedWorld]: the
    step relation that interleaves the run loop with workers and callers.  [SchedSpec]: the
    abstract view of tasks.  [SchedTheorems]: a small deployment and the theorems.  [MapSource] ([map_membership_source.go]): the inventory filter.

    State store.  [StateStore] ([state/store.go], [state/health.go]), [StateSpec],
    [StateTheorems] (emitters and the consumer as interleaved channel operations, and the
    theorems).

    Overview.  [Runtime] ([worker/runtime_normalizer.go], [worker/snapshot_builder.go]),
    [RuntimePatch] (sparse patches and what they say), [Journal]
    ([worker/overview_journal.go]), [Hub] (mailboxes of [ws/hub.go]), [Overview] (the overview
    part of [worker/pipeline.go], [pipeline_snapshot_broadcaster.go],
    [pipeline_runtime_state.go]), [StreamInv] (pipeline, hub, connections and viewers as one
    step relation, and its invariant), [StreamSteps], [StreamPipe] (every operation keeps it),
    [StreamTheorems].

    Polls.  [Rates] ([collector/rates.go]), [Performance] ([collector/performance.go] and the
    connections it is given), [Cooldown] (its counter-walk policy), [Collectors]
    ([collector/essential.go], [operational.go], the TCP probes and [ToStoreUpdate]),
    [StaticDedupe] (static persistence of the pipeline), [TaskRunner]
    (the worker's [runTask] with its deadlines, panics, SNMP gate and store updates) and
    [TaskRunnerSpec].

    Device and link cache.  [DeviceCache] ([cache/cache.go] and the change feed of the
    repositories), [DeviceCacheInv] (indexes), [DeviceCacheSync] (database, commits,
    publications, lost events and reads as one step relation), [DeviceCacheSpec],
    [DeviceCacheTheorems], [DeviceCacheReads].

    Authentication.  [Password] ([security/password.go]).  [AuthRepo] ([domain/auth.go] and
    the transactions of [auth_repo.go], [auth_login_repo.go],
    [auth_password_change_repo.go], the constraints of the schema and the seeding of roles),
    [AuthService] and [AuthAdmin] (the operations, as programs over the tables: between two calls
    other work may change them, a call may fail or lose its answer).  [AuthLogic]: triples in the
    rely/guarantee style, and the interface [RepoKeeps] through which the operations inherit what
    the transactions respect.  [AuthTables] (the transactions against constraints and history),
    [AuthEscalation], [AuthSuperAdmin], [AuthLogin]: the theorems.  [AuthDemo]: a concrete instance, and two interleavings in which
    administration goes wrong.

    Bulk backups.  [BulkData] ([domain/backup.go] and its tables; programs as trees of
    statements), [BulkRepo] (the statements and transactions of the backup repositories in
    [repository/postgres/]), [BulkService] ([service/bulk_backup_run.go],
    [bulk_backup_selection.go]), [BulkJobs] ([backup_jobs.go], [backup_executor.go], and all
    goroutines together as one step relation).  [BulkLogic], [BulkStmts], [BulkSafe],
    [BulkProcessor]: what each goroutine may do and may rely on while it holds a lease, and that
    each keeps to it.  [BulkTheorems], [BulkLive], [BulkDemo]: the theorems, executions, and the
    races that were found.

    Canvas maps and links.  [CanvasMap] ([domain/canvas_map.go] and the pure part of
    [service/canvasmap/]: projection of a filter, membership, plans), [MapStore] (the tables with
    their keys and cascades, transactions, and the device, area and position repositories),
    [CanvasRepo] ([repository/postgres/canvas_map_*.go] and the migrations of maps), [LinkStore]
    ([link_repo.go]), [CanvasService] (the workflows of [service/canvasmap/] and the handlers of
    [api/canvas_map_handler.go]).  [CanvasInv], [CanvasSafe]: the invariant [consistent] of the
    tables and that every request keeps it.  [LinkTheorems], [CanvasTheorems], [CanvasDemo]: the
    other theorems, and a small network with two maps.

    ** What is shown

    - Scheduler, C1 to C6, C8, C9: every task is in exactly one place and is never polled twice at
      once; in-flight counters are exact; the loop never blocks on its channel; the optimised
      selection picks the task of a plain search and dispatch is work-conserving within all
      limits; completions, refreshes and removals have exactly their intended
      effect (lemmas: so do due tasks; wake-up delay and cadence are exact; a counter leak when a
      refresh changes the scope of a task in flight).
    - State store, C16, C17: a consumer that follows the protocol is never silently behind
      the store, in every interleaving; emission terminates.  Lemmas: the store invariant,
      hysteresis, reachability, staleness and the effect of each kind of update.
    - Device and link cache, C11, C14, C28: in every interleaving of commits, publications, lost
      events and reads the cache is never behind the database without knowing it; without writers
      two reads bring it up to date; lookups agree with plain searches over the cached rows.
    - Authentication.  C30: constraints and history of the tables hold over every sequence of
      operations with any failures and any respectful interference.  C37: an ended session is
      never accepted again.  C27: an administrator without the super-administrator role cannot
      escalate, whatever happens in between.  C18: the bootstrap provides an active super
      administrator, and operations that run one after the other keep one.  C21: at most five
      wrong passwords are compared with an account within fifteen minutes.  C29: a login succeeds
      only with the stored password of an account that may sign in at that moment.  C24: stored
      hashes read back and only the fixed parameters are accepted.
    - Polls.  C12: whatever happens outside and between the steps of a worker, a task is answered
      by exactly one completion and touches the store for its own device only.  C22: a device
      without SNMP is not polled over SNMP until an essential poll gets through.  C13: the
      cooldown of counter walks is a function of the reports alone.  Lemmas: static results reach
      the topology service exactly when they differ from the last one accepted; rates are reported
      between plausible samples only, and an implausible one costs one more sample.
    - Bulk backups, in every interleaving of requests, processors and workers with failing
      statements and dying goroutines.  C10: the tables are consistent and at most one run is
      active.  C15: the lease fences a run.  C20: what is settled stays settled.  C35: the final
      status is truthful.  C26: a processor that is left to work completes its run.  The examples
      of [BulkDemo] show how a run can be left without a processor.
    - Canvas maps and links.  C7: the tables are consistent after any sequence of requests.  C25: a
      membership reads back as it was stored.  C36: a map materialized from a filter shows what the
      filter selects.  C33: isolating the virtual devices of a map succeeds, is complete and
      touches nothing else.  C23: a link that discovery reports again changes nothing.  Lemma: the
      migration at start materializes as the service does.
    - Addresses, C19: normalization yields the normal form (lemmas: it is idempotent for every
      device that has an address of its own; ports survive storing and reading back).
    - Settings and budgets, lemmas: what the settings accept is what the backend reads back; the
      policy is within bounds for every stored value; clamping shares a limit as specified;
      budgets are usable; capacity warnings are exact.
    - Journal, C31, C32: a bounded gap-free chain; a replay equals the deltas missed (lemma: it
      exists whenever the journal reaches back far enough).
    - C34: the inventory filter and its membership gate agree.
    - Overview streams, C38 to C40: whatever a viewer shows at a cursor is the snapshot
      published there; a client with an installed recovery is never left behind; every
      synchronization installs a recovery that leads to the current version.

    ** Conventions, bounds and parameters

    Instants and durations are integers of nanoseconds; [int64] and [uint64] arithmetic wraps
    where the code can reach the boundary.  Floats are IEEE binary64 ([spec_float]).  Loops are
    structural, or bounded by fuel that is shown to be enough: the heap loops by the length of
    the heap ([up_loop_spec], [down_loop_spec]), [dispatch_loop] by the number of ready tasks
    (C4, C6: it never stops for lack of fuel), [moveDue_loop] by the length of the heap
    ([move_due_exact]), the rounds of [processBulkBackupRun] by the unfinished items of the run
    (C26; its safety holds for every number of rounds), [fill_class] by the budget that is left
    ([clamp_fair]), [runes_fuel] by the bytes of the string, [ipv6_loop] by the eight groups of an address, [emitter_run] by the bound of C17.
    Operations under a lock and transactions of the database are functions on the state;
    interleavings of goroutines are step relations.

    What is not in the repository is a parameter with the behaviour used as a named hypothesis:
    [strconv.ParseFloat] and [FormatFloat], Unicode lower-casing, [encoding/json] ([Marshal],
    [marshals], [json_snapshot], [renormalize] with [renormalizes]), [uuid.Parse], random stream
    identifiers (arguments, assumed new in [inputs_ok]), the repositories behind interfaces, and
    the network a poll sees: answers of the SNMP library and of TCP dials ([Net]), what the
    services answer ([TaskEnv]) and what other goroutines do to the shared state between two
    steps of a worker.  For the cache, what a failed or panicking load returns; for authentication,
    Argon2, the Unicode classes, the text of identifiers and the JSON of audit entries
    ([Externals]), clocks, identifiers, randomness, failing calls and interference ([Env]).
    For maps, the collation and the equality of addresses of the database ([Database]), the JSON
    text of filters ([FilterJSON]) and new identifiers ([CloneIDs], assumed new in [fresh_clones]);
    for backups, clocks, failing statements, SSH sessions and export files.
    [once_ok] states what the first broadcast needs when an overview exists already: no hash
    collision, and no record that disappeared.  The viewer of [StreamInv] follows the protocol
    as the frontend does.

    ** Not modelled

    Metrics other than those the scheduler decides by, logging and debug strings; timers
    themselves; the static and Prometheus collectors and the SNMP client; unversioned broadcasts
    and detail subscriptions; the bootstrap writes to clients of the first protocol; recovery
    bookkeeping; listings of the administration pages.  Requests to maps are served one after the
    other: their interleavings are left to the transactions.  The schedule and retention of
    backups, instance backup and restore, topology observations, import of devices, encryption,
    bridge, settings cache, configuration and command-line programs, the other HTTP handlers and
    repositories, which are I/O over libraries and the database; the TypeScript frontend. *)

From Stdlib Require Export ZArith Lia Bool.
From stdpp Require Export base gmap sets list strings fin_maps sorting.

Declare Scope theia_scope.
Delimit Scope theia_scope with theia.
Open Scope Z_scope.

(** Reading a Go map at an absent key yields the zero value of the element type. *)
Definition map_get {K} `{Countable K} (m : gmap K Z) (k : K) : Z := default 0 (m !! k).
Notation "m .[ k ]" := (map_get m k) (at level 1, k at level 200, format "m .[ k ]") : theia_scope.
Open Scope theia_scope.

(** Fallible Go calls return [(value, error)]; only the message of an error is kept. *)
Inductive result (A : Type) : Type :=
| Ok (a : A)
| Err (msg : string).
Arguments Ok {A} _.
Arguments Err {A} _.

Definition result_bind {A B} (r : result A) (f : A → result B) : result B :=
  match r with Ok a => f a | Err e => Err e end.
Notation "'let!' x := r 'in' k" := (result_bind r (λ x, k))
  (at level 10, x name, r at level 100, k at level 200) : theia_scope.

#[export] Instance result_eq_dec {A} `{EqDecision A} : EqDecision (result A).
Proof. solve_decision. Defined.

(** Field update of a record, in the notation [r <| field := v |>]; each record of the
    development declares one instance per mutable field. *)
Class Update {R E : Type} (proj : R → E) := upd : E → R → R.
Notation "r <| f := v |>" := (upd (proj:=f) v r)
  (at level 12, left associativity, f at level 9, v at level 200,
   format "r  <| f  :=  v |>") : theia_scope.

(** ** Tactics of the development *)

(** Case analysis on the scrutinee of every [if] and [match] of the goal. *)
Ltac cases :=
  repeat match goal with
  | |- context [if ?b then _ else _] => destruct b eqn:?
  | |- context [match ?x with _ => _ end] => destruct x eqn:?
  end.

(** Boolean tests of the code turned into the propositions they decide. *)
Ltac to_prop :=
  repeat match goal with
  | H : (_ && _) = true |- _ => apply andb_true_iff in H as [? ?]
  | H : (_ || _) = false |- _ => apply orb_false_iff in H as [? ?]
  | H : negb _ = true |- _ => apply negb_true_iff in H
  | H : negb _ = false |- _ => apply negb_false_iff in H
  | H : (_ <? _) = true |- _ => apply Z.ltb_lt in H
  | H : (_ <? _) = false |- _ => apply Z.ltb_ge in H
  | H : (_ <=? _) = true |- _ => apply Z.leb_le in H
  | H : (_ <=? _) = false |- _ => apply Z.leb_gt in H
  | H : (_ =? _) = true |- _ => apply Z.eqb_eq in H
  | H : (_ =? _) = false |- _ => apply Z.eqb_neq in H
  | H : bool_decide _ = true |- _ => apply bool_decide_eq_true_1 in H
  | H : bool_decide _ = false |- _ => apply bool_decide_eq_false_1 in H
  end.

Ltac crush_cases := intros; cases; to_prop; simplify_eq/=; try lia; try done.

(** Hints that automate the routine side conditions of the components. *)
Create HintDb theia.
#[export] Hint Extern 5 (_ <= _)%Z => lia : theia.
#[export] Hint Extern 5 (_ < _)%Z => lia : theia.

(** ** Machine integers *)

Definition int64_min : Z := - 2 ^ 63.
Definition int64_max : Z := 2 ^ 63 - 1.
Definition int64_wrap (z : Z) : Z := (z + 2 ^ 63) mod 2 ^ 64 - 2 ^ 63.
Definition uint64_wrap (z : Z) : Z := z mod 2 ^ 64.
Definition in_int64 (z : Z) : Prop := int64_min <= z <= int64_max.
Definition in_uint64 (z : Z) : Prop := 0 <= z < 2 ^ 64.

Lemma int64_wrap_range z : in_int64 (int64_wrap z).
Proof.
  unfold in_int64, int64_wrap, int64_min, int64_max.
  pose proof (Z.mod_pos_bound (z + 2 ^ 63) (2 ^ 64)). lia.
Qed.

Lemma int64_wrap_id z : in_int64 z → int64_wrap z = z.
Proof.
  unfold in_int64, int64_wrap, int64_min, int64_max. intros.
  rewrite Z.mod_small; lia.
Qed.

(** ** Lists of lanes *)

Section concat.
Context {A : Type}.
Implicit Types (ls : list (list A)) (q : list A).

Lemma elem_of_concat (x : A) ls : x ∈ concat ls ↔ ∃ q, x ∈ q ∧ q ∈ ls.
Proof.
  rewrite list_elem_of_In, in_concat. setoid_rewrite <- list_elem_of_In. naive_solver.
Qed.

Lemma list_alter_insert (f : list A → list A) (p : nat) q ls :
  ls !! p = Some q → alter f p ls = <[p := f q]> ls.
Proof.
  intros Hp. apply list_eq. intros i. rewrite list_lookup_alter, list_lookup_insert.
  case_decide as E; [|by rewrite decide_False by tauto].
  subst. rewrite decide_True by (split; [done|by eapply lookup_lt_Some]). by rewrite Hp.
Qed.

(** Replacing one lane only exchanges the elements of that lane. *)
Lemma concat_insert_perm (p : nat) q ls (rest := concat (delete p ls)) :
  (p < length ls)%nat → concat (<[p := q]> ls) ≡ₚ q ++ rest.
Proof.
  subst rest. revert p. induction ls as [|x ls IH]; intros [|p] Hp; simpl in *; try lia; [done|].
  rewrite (IH p) by lia. rewrite !app_assoc. by rewrite (Permutation_app_comm x q).
Qed.

Lemma concat_lookup_perm (p : nat) q ls :
  ls !! p = Some q → concat ls ≡ₚ q ++ concat (delete p ls).
Proof.
  intros Hp. rewrite <- (list_insert_id ls p q Hp) at 1. apply concat_insert_perm.
  by eapply lookup_lt_Some.
Qed.
End concat.

Lemma filter_ext_elem {A} (P Q : A → Prop) `{!∀ x, Decision (P x), !∀ x, Decision (Q x)} (l : list A) :
  (∀ x, x ∈ l → P x ↔ Q x) → filter P l = filter Q l.
Proof.
  induction l as [|x l IH]; intros Hl; [done|]. rewrite !filter_cons.
  rewrite IH by (intros; apply Hl; by right). pose proof (Hl x ltac:(by left)). by repeat case_decide; try tauto.
Qed.
