(* ===== verification/GoLib.v ===== *)
(** * The part of the Go standard library the backend relies on

    Strings are byte strings; [bytes] is the same data as a list of integers
    in [0, 255].  Instants are nanoseconds since the zero [time.Time], durations
    are [int64] nanoseconds, floats are IEEE-754 binary64 values ([spec_float]
    at precision 53). *)

From S2P Require Import Prelude.
From Stdlib Require Export SpecFloat.
From Stdlib Require Import DecimalString Ascii.

Abbreviation Time := Z (only parsing).
Abbreviation Duration := Z (only parsing).
Abbreviation bytes := (list Z) (only parsing).
Abbreviation float64 := spec_float (only parsing).

(** ** Bytes and strings *)

Definition byte_of (c : Ascii.ascii) : Z := Z.of_N (Ascii.N_of_ascii c).
Definition ascii_of (b : Z) : Ascii.ascii := Ascii.ascii_of_N (Z.to_N b).

Fixpoint bytes_of (s : string) : bytes :=
  match s with
  | EmptyString => []
  | String c r => byte_of c :: bytes_of r
  end.

Fixpoint string_of (l : bytes) : string :=
  match l with
  | [] => EmptyString
  | b :: r => String (ascii_of b) (string_of r)
  end.

(** The [<] of Go strings: bytewise lexicographic. *)
Definition string_ltb (a b : string) : bool := String.ltb a b.

(** [unicode.IsSpace], on the UTF-8 encodings of the white-space code points. *)
Definition is_space1 (b : Z) : bool := ((9 <=? b) && (b <=? 13)) || (b =? 32).
Definition is_space2 (b c : Z) : bool := (b =? 194) && ((c =? 133) || (c =? 160)).
Definition is_space3 (b c d : Z) : bool :=
  ((b =? 225) && (c =? 154) && (d =? 128))
  || ((b =? 226) && (c =? 128) && (((128 <=? d) && (d <=? 138)) || (d =? 168) || (d =? 169) || (d =? 175)))
  || ((b =? 226) && (c =? 129) && (d =? 159))
  || ((b =? 227) && (c =? 128) && (d =? 128)).

(** Drops leading white space; with [rv] the bytes of each code point are reversed. *)
Fixpoint trim_space_left (rv : bool) (l : bytes) : bytes :=
  match l with
  | [] => []
  | b :: r =>
    if is_space1 b then trim_space_left rv r
    else match r with
    | [] => l
    | c :: r2 =>
      if (if rv then is_space2 c b else is_space2 b c) then trim_space_left rv r2
      else match r2 with
      | [] => l
      | d :: r3 => if (if rv then is_space3 d c b else is_space3 b c d) then trim_space_left rv r3 else l
      end
    end
  end.

Definition trim_space_bytes (l : bytes) : bytes :=
  rev (trim_space_left true (rev (trim_space_left false l))).
(** [strings.TrimSpace] *)
Definition TrimSpace (s : string) : string := string_of (trim_space_bytes (bytes_of s)).

(** [strings.Trim] with a cutset of ASCII bytes. *)
Fixpoint trim_set_left (cut : bytes) (l : bytes) : bytes :=
  match l with
  | b :: r => if existsb (Z.eqb b) cut then trim_set_left cut r else l
  | [] => []
  end.
Definition trim_set (cut : bytes) (l : bytes) : bytes :=
  rev (trim_set_left cut (rev (trim_set_left cut l))).

Definition index_byte (b : Z) (l : bytes) : option nat := fst <$> list_find (λ x, x = b) l.
Definition last_index_byte (b : Z) (l : bytes) : option nat :=
  (λ i, (length l - 1 - i)%nat) <$> index_byte b (rev l).

(** [strings.Join] *)
Fixpoint Join (parts : list string) (sep : string) : string :=
  match parts with
  | [] => ""
  | [p] => p
  | p :: r => (p +:+ sep +:+ Join r sep)%string
  end.

(** ** strconv *)

(** [strconv.Itoa] *)
Definition Itoa (z : Z) : string := NilZero.string_of_int (Z.to_int z).

(** Decimal digits (at least one) with the given sign, within [int64]. *)
Definition atoi_digits (neg : bool) (body : string) : option Z :=
  match NilZero.uint_of_string body with
  | Some u =>
    let z := if neg then - Z.of_uint u else Z.of_uint u in
    if (int64_min <=? z) && (z <=? int64_max) then Some z else None
  | None => None
  end.

(** [strconv.Atoi]: an optional sign, then decimal digits. *)
Definition Atoi (s : string) : option Z :=
  match s with
  | String "-"%char r => atoi_digits true r
  | String "+"%char r => atoi_digits false r
  | _ => atoi_digits false s
  end.

(** [strconv.ParseBool] *)
Definition ParseBool (s : string) : option bool :=
  if existsb (String.eqb s) ["1"; "t"; "T"; "TRUE"; "true"; "True"]%string then Some true
  else if existsb (String.eqb s) ["0"; "f"; "F"; "FALSE"; "false"; "False"]%string then Some false
  else None.

(** ** time *)

Definition Millisecond : Duration := 1000000.
Definition Second : Duration := 1000000000.
Definition Minute : Duration := 60 * Second.
Definition Time_IsZero (t : Time) : bool := t =? 0.
Definition Time_Add (t : Time) (d : Duration) : Time := t + d.
(** [Time.Sub] saturates at the [int64] bounds. *)
Definition Time_Sub (t u : Time) : Duration := Z.max int64_min (Z.min int64_max (t - u)).
Definition Time_After (t u : Time) : bool := u <? t.
Definition Time_Before (t u : Time) : bool := t <? u.
Definition Duration_mul (a b : Z) : Duration := int64_wrap (a * b).
Definition Duration_add (a b : Z) : Duration := int64_wrap (a + b).

(** ** math: binary64 operations *)

Definition f64_of_Z (z : Z) : float64 := binary_normalize 53 1024 z 0 false.
Definition f64_mul (a b : float64) : float64 := SFmul 53 1024 a b.
Definition f64_div (a b : float64) : float64 := SFdiv 53 1024 a b.
Definition f64_add (a b : float64) : float64 := SFadd 53 1024 a b.
Definition f64_sub (a b : float64) : float64 := SFsub 53 1024 a b.
Definition f64_lt (a b : float64) : bool := SFltb a b.
Definition f64_ge (a b : float64) : bool := SFleb b a.
Definition f64_eq (a b : float64) : bool := SFeqb a b.
Definition f64_is_nan (a : float64) : bool := match a with S754_nan => true | _ => false end.
Definition f64_is_inf (a : float64) : bool := match a with S754_infinity _ => true | _ => false end.

(** [math.Max] *)
Definition f64_max (x y : float64) : float64 :=
  match x, y with
  | S754_infinity false, _ | _, S754_infinity false => S754_infinity false
  | S754_nan, _ | _, S754_nan => S754_nan
  | S754_zero sx, S754_zero sy => S754_zero (sx && sy)
  | _, _ => if f64_lt y x then x else y
  end.

(** A decimal literal [m * 10^-k], correctly rounded. *)
Definition f64_lit (m : Z) (k : Z) : float64 := f64_div (f64_of_Z m) (f64_of_Z (10 ^ k)).

(** Conversion to [int64]: truncation toward zero; the unrepresentable cases give the
    smallest integer, as on amd64. *)
Definition f64_trunc (a : float64) : Z :=
  match a with
  | S754_zero _ => 0
  | S754_finite s m e =>
    let q := Z.quot (Z.pos m * 2 ^ Z.max e 0) (2 ^ Z.max (- e) 0) in
    let v := if s then - q else q in
    if (int64_min <=? v) && (v <=? int64_max) then v else int64_min
  | _ => int64_min
  end.

(** [int(math.Ceil(a))] *)
Definition f64_ceil (a : float64) : Z :=
  match a with
  | S754_zero _ => 0
  | S754_finite s m e =>
    let z := if s then - (Z.pos m * 2 ^ Z.max e 0) else Z.pos m * 2 ^ Z.max e 0 in
    let v := - ((- z) / 2 ^ Z.max (- e) 0) in
    if (int64_min <=? v) && (v <=? int64_max) then v else int64_min
  | _ => int64_min
  end.

(** [Duration.Seconds] *)
Definition Seconds (d : Duration) : float64 :=
  f64_add (f64_of_Z (Z.quot d Second)) (f64_div (f64_of_Z (Z.rem d Second)) (f64_of_Z Second)).

(** ** hash/fnv and uuid *)

(** [fnv.New64a] over the bytes written. *)
Definition fnv64a (l : bytes) : Z :=
  foldl (λ h b, uint64_wrap (Z.lxor h b * 1099511628211)) 14695981039346656037 l.

(** [uuid.UUID]: 16 bytes, kept as the big-endian number. *)
Abbreviation UUID := Z (only parsing).
Definition uuid_Nil : UUID := 0.

Definition be_bytes (n : nat) (z : Z) : bytes :=
  map (λ i, (z / 256 ^ Z.of_nat (n - 1 - i)) mod 256) (seq 0 n).

Definition hex_digit (d : Z) : Z := if d <? 10 then 48 + d else 87 + d.
Definition hex_of_bytes (l : bytes) : bytes :=
  flat_map (λ b, [hex_digit (b / 16); hex_digit (b mod 16)]) l.

Definition uuid_bytes (u : UUID) : bytes := be_bytes 16 u.
(** [UUID.String]: lower-case hex in the 8-4-4-4-12 layout. *)
Definition uuid_String (u : UUID) : string :=
  let h := hex_of_bytes (uuid_bytes u) in
  string_of (take 8 h ++ [45] ++ take 4 (drop 8 h) ++ [45] ++ take 4 (drop 12 h)
             ++ [45] ++ take 4 (drop 16 h) ++ [45] ++ drop 20 h).

#[global] Arguments uuid_String _ : simpl never.
#[global] Arguments fnv64a _ : simpl never.
#[global] Arguments int64_wrap _ : simpl never.
