(* ===== verification/GoText.v ===== *)
(** * Text

    More of the packages [strings] and [sort] (case, [Split], prefixes, the order of strings),
    and facts on [strconv.Itoa], [strconv.Atoi], [strings.TrimSpace] and [strings.Split]. *)

From S2P Require Import Prelude GoLib.
From Stdlib Require Import DecimalString DecimalFacts DecimalPos DecimalN DecimalZ Ascii OrderedTypeEx.

(** ** Case, prefixes and order *)

Definition lower_byte (b : Z) : Z := if (65 <=? b) && (b <=? 90) then b + 32 else b.
Definition is_ascii (l : bytes) : bool := forallb (λ b, b <? 128) l.
Definition ascii_lower (s : string) : string := string_of (map lower_byte (bytes_of s)).

(** [strings.ToLower] has an ASCII fast path; beyond ASCII it maps Unicode code points. *)
Definition ToLower (unicode_lower : string → string) (s : string) : string :=
  if is_ascii (bytes_of s) then ascii_lower s else unicode_lower s.

(** [strings.EqualFold(s, word)] for a word of ASCII letters without [k] and [s], the two
    letters that have case variants outside ASCII. *)
Definition EqualFold (s word : string) : bool := String.eqb (ascii_lower s) word.

(** [sort.Strings] *)
Definition string_le (a b : string) : Prop := string_ltb b a = false.
#[export] Instance string_le_dec a b : Decision (string_le a b) := decide (string_ltb b a = false).
Definition sort_Strings (l : list string) : list string := merge_sort string_le l.

Definition Contains (s sub : string) : bool := bool_decide (is_Some (String.index 0 sub s)).
Definition TrimPrefix (s p : string) : string :=
  if String.prefix p s then String.substring (String.length p) (String.length s - String.length p) s else s.

Lemma string_ltb_lt a b : string_ltb a b = true ↔ String_as_OT.lt a b.
Proof.
  unfold string_ltb, String.ltb. rewrite <- String_as_OT.cmp_lt. unfold String_as_OT.cmp.
  destruct (String.compare a b); naive_solver.
Qed.

Lemma string_ltb_irrefl a : string_ltb a a = false.
Proof.
  apply not_true_iff_false. rewrite string_ltb_lt. intros Hlt. by apply String_as_OT.lt_not_eq in Hlt.
Qed.

Lemma string_ltb_trans a b c : string_ltb a b = true → string_ltb b c = true → string_ltb a c = true.
Proof. rewrite !string_ltb_lt. apply String_as_OT.lt_trans. Qed.

Lemma string_ltb_total a b : string_ltb a b = false → string_ltb b a = false → a = b.
Proof.
  unfold string_ltb, String.ltb. rewrite (String.compare_antisym b a).
  destruct (String.compare a b) eqn:E; simpl; try done. intros _ _. by apply String.compare_eq_iff.
Qed.

Lemma string_ltb_asym a b : string_ltb a b = true → string_ltb b a = false.
Proof.
  intros Hab. apply not_true_iff_false. intros Hba.
  pose proof (string_ltb_trans _ _ _ Hab Hba) as H. by rewrite string_ltb_irrefl in H.
Qed.

Lemma string_nlt_trans a b c : string_ltb a b = false → string_ltb b c = false → string_ltb a c = false.
Proof.
  intros Hab Hbc. apply not_true_iff_false. intros Hac.
  destruct (string_ltb b a) eqn:Hba; [|by rewrite (string_ltb_total _ _ Hab Hba), Hbc in Hac].
  rewrite (string_ltb_trans _ _ _ Hba Hac) in Hbc. done.
Qed.

#[export] Instance string_le_total : Total string_le.
Proof. intros a b. unfold string_le. destruct (string_ltb b a) eqn:E; [right; by apply string_ltb_asym|by left]. Qed.
#[export] Instance string_le_trans : Transitive string_le.
Proof. intros a b c Hab Hbc. exact (string_nlt_trans _ _ _ Hbc Hab). Qed.

(** [strings.Split] on a one-byte separator. *)
Fixpoint Split (s : string) (sep : ascii) : list string :=
  match s with
  | EmptyString => [EmptyString]
  | String c r =>
    match Split r sep with
    | [] => [String c EmptyString]
    | p :: ps => if Ascii.eqb c sep then EmptyString :: p :: ps else String c p :: ps
    end
  end.

(** ** Trimming *)

Definition printable (b : Z) : Prop := 33 <= b < 128.

Lemma is_space1_printable b : printable b → is_space1 b = false.
Proof. unfold printable, is_space1. intros. destruct (_ || _) eqn:E; [|done]. apply orb_true_iff in E as [E|E]; to_prop; lia. Qed.

Lemma trim_left_printable rv b l : printable b → Forall (λ b, b < 128) l → trim_space_left rv (b :: l) = b :: l.
Proof.
  intros Hb Hl. simpl. rewrite is_space1_printable by done. unfold printable in Hb.
  destruct l as [|c [|d l]]; [done|..]; inversion Hl as [|? ? Hc Hl']; subst.
  all: replace (if rv then _ else _) with false; [try done|].
  - destruct rv; unfold is_space2; symmetry; apply andb_false_iff; left; apply Z.eqb_neq; lia.
  - inversion Hl' as [|? ? Hd _]; subst. replace (if rv then _ else _) with false; [done|].
    symmetry. destruct rv; unfold is_space3; rewrite !(proj2 (Z.eqb_neq _ _)) by lia; done.
  - destruct rv; unfold is_space2; symmetry; apply andb_false_iff; left; apply Z.eqb_neq; lia.
Qed.

Lemma string_of_bytes_of s : string_of (bytes_of s) = s.
Proof.
  induction s as [|c s IH]; [done|]. simpl. rewrite IH. unfold ascii_of, byte_of.
  by rewrite N2Z.id, Ascii.ascii_N_embedding.
Qed.

Lemma TrimSpace_printable s : Forall printable (bytes_of s) → TrimSpace s = s.
Proof.
  intros Hs. unfold TrimSpace, trim_space_bytes.
  assert (Hid : ∀ rv l, Forall printable l → trim_space_left rv l = l).
  { intros rv [|b l] Hl; [done|]. inversion Hl; subst. apply trim_left_printable; [done|].
    eapply Forall_impl; [done|]. unfold printable. simpl. lia. }
  rewrite (Hid false) by done. rewrite Hid by (by apply Forall_rev). rewrite rev_involutive. apply string_of_bytes_of.
Qed.

(** Trimming twice is trimming once. *)
Definition head_ok (rv : bool) (l : bytes) : bool :=
  match l with
  | [] => true
  | b :: r => negb (is_space1 b) &&
    match r with
    | [] => true
    | c :: r2 => negb (if rv then is_space2 c b else is_space2 b c) &&
      match r2 with [] => true | d :: _ => negb (if rv then is_space3 d c b else is_space3 b c d) end
    end
  end.

Lemma trim_left_ok rv l : head_ok rv l = true → trim_space_left rv l = l.
Proof.
  destruct l as [|b [|c [|d l]]]; cbn [head_ok trim_space_left]; intros Hh; to_prop; [done|..].
  all: repeat match goal with H : ?b = false |- context [if ?b then _ else _] => rewrite H end; done.
Qed.

Lemma trim_left_spec rv l : head_ok rv (trim_space_left rv l) = true ∧ trim_space_left rv l `suffix_of` l.
Proof.
  induction l as [l IH] using (induction_ltof1 _ length).
  assert (Hstep : ∀ p m, l = p ++ m → p ≠ [] → trim_space_left rv l = trim_space_left rv m →
    head_ok rv (trim_space_left rv l) = true ∧ trim_space_left rv l `suffix_of` l).
  { intros p m -> Hp ->. destruct (IH m) as [H1 [q H2]].
    { unfold ltof. rewrite length_app. destruct p; cbn; [done|lia]. }
    split; [done|]. exists (p ++ q). rewrite <- app_assoc. by rewrite <- H2. }
  destruct l as [|b r]; [by split|]. cbn [trim_space_left] in *. destruct (is_space1 b) eqn:E1.
  { exact (Hstep [b] r eq_refl ltac:(done) eq_refl). }
  destruct r as [|c r2]; [by cbn; rewrite E1|].
  destruct (if rv then is_space2 c b else is_space2 b c) eqn:E2.
  { exact (Hstep [b; c] r2 eq_refl ltac:(done) eq_refl). }
  destruct r2 as [|d r3]; [by cbn; rewrite E1, E2|].
  destruct (if rv then is_space3 d c b else is_space3 b c d) eqn:E3; [exact (Hstep [b; c; d] r3 eq_refl ltac:(done) eq_refl)|].
  cbn [head_ok]. by rewrite E1, E2, E3.
Qed.

Lemma head_ok_prefix rv l m : m `prefix_of` l → head_ok rv l = true → head_ok rv m = true.
Proof.
  intros [k ->]. destruct m as [|b [|c [|d m]]]; cbn [head_ok app]; intros Hh; to_prop; [done|..].
  all: repeat match goal with H : ?b = false |- context [?b] => rewrite H end; done.
Qed.

Lemma trim_space_bytes_idem l : trim_space_bytes (trim_space_bytes l) = trim_space_bytes l.
Proof.
  unfold trim_space_bytes. destruct (trim_left_spec false l) as [H1 _]. set (l1 := trim_space_left false l) in *.
  destruct (trim_left_spec true (rev l1)) as [H2 [q Hq]]. set (m := trim_space_left true (rev l1)) in *.
  assert (Hm : head_ok false (rev m) = true).
  { eapply head_ok_prefix; [|exact H1]. exists (rev q). rewrite <- (rev_involutive l1), Hq. apply rev_app_distr. }
  by rewrite (trim_left_ok false (rev m)), rev_involutive, (trim_left_ok true m).
Qed.

Lemma bytes_of_string_of l : Forall (λ b, 0 <= b < 256) l → bytes_of (string_of l) = l.
Proof.
  induction 1 as [|b l Hb _ IH]; [done|]. cbn. rewrite IH. f_equal. unfold byte_of, ascii_of.
  rewrite N_ascii_embedding by lia. by rewrite Z2N.id by lia.
Qed.

Lemma bytes_of_range s : Forall (λ b, 0 <= b < 256) (bytes_of s).
Proof.
  induction s as [|c s IH]; constructor; [|done]. unfold byte_of. pose proof (N_ascii_bounded c). lia.
Qed.

Lemma TrimSpace_idem s : TrimSpace (TrimSpace s) = TrimSpace s.
Proof.
  unfold TrimSpace at 1 2. rewrite bytes_of_string_of, trim_space_bytes_idem; [done|].
  unfold trim_space_bytes. apply Forall_rev. destruct (trim_left_spec true (rev (trim_space_left false (bytes_of s)))) as [_ [q Hq]].
  destruct (trim_left_spec false (bytes_of s)) as [_ [p Hp]]. pose proof (bytes_of_range s) as Hr. rewrite Hp in Hr.
  apply Forall_app in Hr as [_ Hr]. apply Forall_rev in Hr. rewrite Hq in Hr. by apply Forall_app in Hr as [_ Hr].
Qed.

(** ** Decimal numerals *)

Definition digit (b : Z) : Prop := 48 <= b <= 57.

Lemma string_of_uint_digits u : Forall digit (bytes_of (NilEmpty.string_of_uint u)).
Proof. induction u; simpl; constructor; try done; unfold digit, byte_of; simpl; lia. Qed.

Lemma NilZero_digits u : Forall digit (bytes_of (NilZero.string_of_uint u)) ∧ NilZero.string_of_uint u ≠ "".
Proof.
  destruct u; split; try done; try apply string_of_uint_digits.
  simpl. constructor; [unfold digit, byte_of; simpl; lia|constructor].
Qed.

Lemma digits_printable l : Forall digit l → Forall printable l.
Proof. intros Hl. eapply Forall_impl; [done|]. unfold digit, printable. lia. Qed.

Lemma Itoa_printable z : Forall printable (bytes_of (Itoa z)).
Proof.
  unfold Itoa. destruct (Z.to_int z) as [u|u]; simpl.
  - apply digits_printable, NilZero_digits.
  - constructor; [unfold printable, byte_of; simpl; lia|]. apply digits_printable, NilZero_digits.
Qed.

Lemma atoi_digits_uint (neg : bool) (u : Decimal.uint) (z : Z) :
  u ≠ Decimal.Nil → z = (if neg then - Z.of_uint u else Z.of_uint u) → in_int64 z →
  atoi_digits neg (NilZero.string_of_uint u) = Some z.
Proof.
  intros Hu -> [Hlo Hhi]. unfold atoi_digits. rewrite NilZero.usu by done.
  by rewrite (proj2 (Z.leb_le _ _) Hlo), (proj2 (Z.leb_le _ _) Hhi).
Qed.

Lemma Atoi_digits s : Forall digit (bytes_of s) → Atoi s = atoi_digits false s.
Proof.
  destruct s as [|c s]; [done|]. intros Hs. inversion Hs as [|? ? Hc _]; subst. unfold Atoi.
  destruct (decide (c = "-"%char)) as [->|H1]; [unfold digit, byte_of in Hc; simpl in Hc; lia|].
  destruct (decide (c = "+"%char)) as [->|H2]; [unfold digit, byte_of in Hc; simpl in Hc; lia|].
  destruct c as [[] [] [] [] [] [] [] []]; done.
Qed.

Lemma pos_to_uint_nonnil p : Pos.to_uint p ≠ Decimal.Nil.
Proof. intros H. pose proof (DecimalPos.Unsigned.to_uint_nonnil p). done. Qed.

(** Printing and parsing an [int64] is the identity. *)
Lemma Atoi_Itoa z : in_int64 z → Atoi (Itoa z) = Some z.
Proof.
  intros Hz. unfold Itoa. pose proof (DecimalZ.of_to z) as Hof. destruct z as [|p|p]; simpl in *.
  - done.
  - rewrite Atoi_digits by apply NilZero_digits. apply atoi_digits_uint; [apply pos_to_uint_nonnil| |done]. by symmetry.
  - apply atoi_digits_uint; [apply pos_to_uint_nonnil| |done]. by symmetry.
Qed.

Lemma Atoi_TrimSpace_Itoa z : in_int64 z → Atoi (TrimSpace (Itoa z)) = Some z.
Proof. intros Hz. rewrite TrimSpace_printable by apply Itoa_printable. by apply Atoi_Itoa. Qed.

(** ** Lists of fields *)

Lemma Split_no_sep s sep : Forall (λ b, b ≠ byte_of sep) (bytes_of s) → Split s sep = [s].
Proof.
  induction s as [|c s IH]; intros Hs; [done|]. inversion Hs as [|? ? Hc Hs']; subst. cbn. rewrite IH by done.
  destruct (Ascii.eqb_spec c sep) as [->|]; done.
Qed.

Lemma Split_app_sep s r sep : Forall (λ b, b ≠ byte_of sep) (bytes_of s) → Split (s +:+ String sep r) sep = s :: Split r sep.
Proof.
  induction s as [|c s IH]; intros Hs.
  - change ("" +:+ String sep r)%string with (String sep r). cbn. destruct (Split r sep) eqn:E; [|by rewrite Ascii.eqb_refl].
    exfalso. revert E. destruct r as [|d r]; cbn; [done|]. destruct (Split r sep); [done|]. by destruct (Ascii.eqb d sep).
  - inversion Hs as [|? ? Hc Hs']; subst. change (String c s +:+ String sep r)%string with (String c (s +:+ String sep r)).
    cbn. rewrite IH by done. destruct (Ascii.eqb_spec c sep) as [->|]; done.
Qed.

Lemma Split_Join parts sep :
  parts ≠ [] → Forall (λ s, Forall (λ b, b ≠ byte_of sep) (bytes_of s)) parts → Split (Join parts (String sep "")) sep = parts.
Proof.
  intros Hne Hp. induction Hp as [|p parts H1 Hp IH]; [done|]. destruct parts as [|q parts]; [by apply Split_no_sep|].
  change (Join (p :: q :: parts) (String sep "")) with (p +:+ String sep (Join (q :: parts) (String sep "")))%string.
  rewrite Split_app_sep by done. f_equal. by apply IH.
Qed.

Lemma bytes_of_app s t : bytes_of (s +:+ t)%string = bytes_of s ++ bytes_of t.
Proof. induction s as [|c s IH]; [done|]. change (String c s +:+ t)%string with (String c (s +:+ t)). cbn. by rewrite IH. Qed.

Lemma bytes_of_Join_Forall (P : Z → Prop) parts sep :
  Forall P (bytes_of sep) → Forall (λ s, Forall P (bytes_of s)) parts → Forall P (bytes_of (Join parts sep)).
Proof.
  intros Hs Hp. induction Hp as [|p parts H1 Hp IH]; [by apply Forall_nil|]. destruct parts as [|q parts]; [done|].
  change (Join (p :: q :: parts) sep) with (p +:+ sep +:+ Join (q :: parts) sep)%string. rewrite !bytes_of_app, !Forall_app. done.
Qed.

Lemma Itoa_digits z : 0 <= z → Forall digit (bytes_of (Itoa z)) ∧ Itoa z ≠ "".
Proof. intros Hz. unfold Itoa. destruct z as [|p|p]; [|apply NilZero_digits|lia]. split; [|done]. constructor; [done|constructor]. Qed.

(** * time.RFC3339

    [t.UTC().Format(time.RFC3339)] for an instant given in nanoseconds since the zero
    [time.Time] (midnight of January 1 of year 1, UTC). *)


(** Year, month and day of a day number (0 is January 1 of year 1) in the proleptic
    Gregorian calendar: eras of 400 years, years that start in March. *)
Definition civil (days : Z) : Z * Z * Z :=
  let z := days + 306 in
  let era := z / 146097 in
  let doe := z mod 146097 in
  let yoe := (doe - doe / 1460 + doe / 36524 - doe / 146096) / 365 in
  let doy := doe - (365 * yoe + yoe / 4 - yoe / 100) in
  let mp := (5 * doy + 2) / 153 in
  let m := if mp <? 10 then mp + 3 else mp - 9 in
  (yoe + era * 400 + (if m <=? 2 then 1 else 0), m, doy - (153 * mp + 2) / 5 + 1).

Fixpoint zeros (n : nat) : string := match n with O => "" | S n => ("0" +:+ zeros n)%string end.
(** Decimal digits padded with zeros to a width, after the sign. *)
Definition pad_int (width : nat) (z : Z) : string :=
  let digits := Itoa (Z.abs z) in
  let padded := (zeros (width - String.length digits) +:+ digits)%string in
  if z <? 0 then ("-" +:+ padded)%string else padded.

Definition FormatRFC3339 (t : Time) : string :=
  let secs := t / Second in
  let '(y, m, d) := civil (secs / 86400) in
  let s := secs mod 86400 in
  (pad_int 4 y +:+ "-" +:+ pad_int 2 m +:+ "-" +:+ pad_int 2 d +:+ "T"
   +:+ pad_int 2 (s / 3600) +:+ ":" +:+ pad_int 2 (s / 60 mod 60) +:+ ":" +:+ pad_int 2 (s mod 60) +:+ "Z")%string.

(** The Unix epoch, a leap day, and the last second of a century. *)
Example FormatRFC3339_samples :
  (λ s, FormatRFC3339 (s * Second)) <$> [62135596800; 62135596800 + 1709210096; 62135596800 + 946684799; 1] =
  ["1970-01-01T00:00:00Z"; "2024-02-29T12:34:56Z"; "1999-12-31T23:59:59Z"; "0001-01-01T00:00:01Z"]%string.
Proof. vm_compute. reflexivity. Qed.

#[global] Arguments FormatRFC3339 _ : simpl never.
