(* ===== verification/Sha256.v ===== *)
(** * crypto/sha256 *)

From S2P Require Import Prelude GoLib.

Definition K : list Z :=
  [1116352408; 1899447441; 3049323471; 3921009573; 961987163; 1508970993;
   2453635748; 2870763221; 3624381080; 310598401; 607225278; 1426881987;
   1925078388; 2162078206; 2614888103; 3248222580; 3835390401; 4022224774;
   264347078; 604807628; 770255983; 1249150122; 1555081692; 1996064986;
   2554220882; 2821834349; 2952996808; 3210313671; 3336571891; 3584528711;
   113926993; 338241895; 666307205; 773529912; 1294757372; 1396182291;
   1695183700; 1986661051; 2177026350; 2456956037; 2730485921; 2820302411;
   3259730800; 3345764771; 3516065817; 3600352804; 4094571909; 275423344;
   430227734; 506948616; 659060556; 883997877; 958139571; 1322822218;
   1537002063; 1747873779; 1955562222; 2024104815; 2227730452; 2361852424;
   2428436474; 2756734187; 3204031479; 3329325298].
Definition H0 : list Z :=
  [1779033703; 3144134277; 1013904242; 2773480762; 1359893119; 2600822924;
   528734635; 1541459225].
Definition w32 (z : Z) : Z := z mod 2 ^ 32.
Definition rotr (n x : Z) : Z := Z.lor (Z.shiftr x n) (w32 (Z.shiftl x (32 - n))).

Fixpoint schedule (n : nat) (w : list Z) : list Z :=
  match n with
  | O => w
  | S n' =>
    let back i := nth (length w - i) w 0 in
    let w15 := back 15%nat in
    let w2 := back 2%nat in
    let s0 := Z.lxor (Z.lxor (rotr 7 w15) (rotr 18 w15)) (Z.shiftr w15 3) in
    let s1 := Z.lxor (Z.lxor (rotr 17 w2) (rotr 19 w2)) (Z.shiftr w2 10) in
    schedule n' (w ++ [w32 (back 16%nat + s0 + back 7%nat + s1)])
  end.

Definition round (st : list Z) (kw : Z) : list Z :=
  match st with
  | [a; b; c; d; e; f; g; h] =>
    let s1 := Z.lxor (Z.lxor (rotr 6 e) (rotr 11 e)) (rotr 25 e) in
    let ch := Z.lxor (Z.land e f) (Z.land (2 ^ 32 - 1 - e) g) in
    let t1 := w32 (h + s1 + ch + kw) in
    let s0 := Z.lxor (Z.lxor (rotr 2 a) (rotr 13 a)) (rotr 22 a) in
    let maj := Z.lxor (Z.lxor (Z.land a b) (Z.land a c)) (Z.land b c) in
    [w32 (t1 + s0 + maj); a; b; c; w32 (d + t1); e; f; g]
  | _ => st
  end.

Definition block (h : list Z) (w16 : list Z) : list Z :=
  zip_with (λ a b, w32 (a + b)) h (foldl round h (zip_with Z.add K (schedule 48 w16))).

Fixpoint words (n : nat) (l : bytes) : list Z :=
  match n, l with
  | S n', a :: b :: c :: d :: r => (a * 2 ^ 24 + b * 2 ^ 16 + c * 2 ^ 8 + d) :: words n' r
  | _, _ => []
  end.

Fixpoint blocks (n : nat) (h : list Z) (ws : list Z) : list Z :=
  match n with
  | O => h
  | S n' => blocks n' (block h (take 16 ws)) (drop 16 ws)
  end.

Definition pad (l : bytes) : bytes :=
  let n := length l in
  l ++ [128] ++ replicate ((119 - n mod 64) mod 64) 0 ++ be_bytes 8 (8 * Z.of_nat n).

(** [sha256.Sum256] *)
Definition Sum256 (l : bytes) : bytes :=
  let p := pad l in
  flat_map (be_bytes 4) (blocks (length p / 64) H0 (words (length p / 4) p)).

(** The published digest of the three-byte message. *)
Lemma Sum256_abc :
  string_of (hex_of_bytes (Sum256 (bytes_of "abc")))
  = "ba7816bf8f01cfea414140de5dae2223b00361a396177a9cb410ff61f20015ad"%string.
Proof. vm_compute. reflexivity. Qed.
