(* ===== verification/NetIP.v ===== *)
(** * net.SplitHostPort and the net/netip functions used for subnet keys *)

From S2P Require Import Prelude GoLib.

Definition has_byte (b : Z) (l : bytes) : bool := existsb (Z.eqb b) l.

(** [net.SplitHostPort]; only the host is used by the callers. *)
Definition SplitHostPort (hp : bytes) : option (bytes * bytes) :=
  match last_index_byte 58 hp with
  | None => None
  | Some i =>
    let port := drop (S i) hp in
    match hp with
    | 91 :: _ =>
      match index_byte 93 hp with
      | None => None
      | Some e =>
        if bool_decide (S e = i) then
          if has_byte 91 (drop 1 hp) || has_byte 93 (drop (S e) hp) then None
          else Some (take (e - 1) (drop 1 hp), port)
        else None
      end
    | _ =>
      let host := take i hp in
      if has_byte 58 host || has_byte 91 hp || has_byte 93 hp then None else Some (host, port)
    end
  end.

(** [netip.Addr]: an IPv4 address (4 bytes) or an IPv6 one (16 bytes) with its zone. *)
Inductive Addr :=
| Addr4 (b : bytes)
| Addr6 (b : bytes) (zone : bytes).

Definition is_digit (b : Z) : bool := (48 <=? b) && (b <=? 57).

(** [parseIPv4Fields]: the loop over the characters; [prev] is the previous character. *)
Fixpoint ipv4_fields (l : bytes) (prev : option Z) (val digLen : Z) (fields : bytes) : option bytes :=
  match l with
  | [] => if (length fields <? 3)%nat then None else Some (fields ++ [val])
  | c :: r =>
    if is_digit c then
      if (digLen =? 1) && (val =? 0) then None
      else
        let v := val * 10 + (c - 48) in
        if 255 <? v then None else ipv4_fields r (Some c) v (digLen + 1) fields
    else if c =? 46 then
      match prev, r with
      | None, _ => None
      | _, [] => None
      | Some p, _ =>
        if (p =? 46) || (length fields =? 3)%nat then None
        else ipv4_fields r (Some c) 0 0 (fields ++ [val])
      end
    else None
  end.
Definition parseIPv4Fields (l : bytes) : option bytes := ipv4_fields l None 0 0 [].

Definition hex_value (c : Z) : option Z :=
  if is_digit c then Some (c - 48)
  else if (97 <=? c) && (c <=? 102) then Some (c - 87)
  else if (65 <=? c) && (c <=? 70) then Some (c - 55)
  else None.

(** The hex digits of one group: [None] when more than four digits are read. *)
Fixpoint hex_group (l : bytes) (off acc : Z) : option (Z * Z * bytes) :=
  match l with
  | [] => Some (off, acc, [])
  | c :: r =>
    match hex_value c with
    | None => Some (off, acc, l)
    | Some d => if 3 <? off then None else hex_group r (off + 1) (acc * 16 + d)
    end
  end.

(** The group loop of [parseIPv6]: [ip] holds the bytes read so far. *)
Fixpoint ipv6_loop (fuel : nat) (s : bytes) (ip : bytes) (ellipsis : option nat)
  : option (bytes * bytes * option nat) :=
  match fuel with
  | O => Some (s, ip, ellipsis)
  | S fuel' =>
    match hex_group s 0 0 with
    | None => None
    | Some (off, acc, rest) =>
      if off =? 0 then None
      else match rest with
      | 46 :: _ =>
        if (bool_decide (ellipsis = None) && negb (length ip =? 12)%nat) || (12 <? length ip)%nat then None
        else match parseIPv4Fields s with
             | Some f => Some ([], ip ++ f, ellipsis)
             | None => None
             end
      | _ =>
        let ip' := ip ++ [acc / 256; acc mod 256] in
        match rest with
        | [] => Some ([], ip', ellipsis)
        | 58 :: [] => None
        | 58 :: 58 :: r2 =>
          match ellipsis with
          | Some _ => None
          | None =>
            match r2 with
            | [] => Some ([], ip', Some (length ip'))
            | _ => ipv6_loop fuel' r2 ip' (Some (length ip'))
            end
          end
        | 58 :: r1 => ipv6_loop fuel' r1 ip' ellipsis
        | _ => None
        end
      end
    end
  end.

Definition parseIPv6 (input : bytes) : option Addr :=
  let '(s, zone, ok) :=
    match index_byte 37 input with
    | Some i => (take i input, drop (S i) input, negb (bool_decide (drop (S i) input = [])))
    | None => (input, [], true)
    end in
  if negb ok then None
  else
    let '(s, ellipsis) :=
      match s with
      | 58 :: 58 :: r => (r, Some 0%nat)
      | _ => (s, None)
      end in
    if bool_decide (s = [] ∧ ellipsis = Some 0%nat) then Some (Addr6 (replicate 16 0) zone)
    else match ipv6_loop 8 s [] ellipsis with
    | Some ([], ip, ell) =>
      if (length ip <? 16)%nat then
        match ell with
        | None => None
        | Some e => Some (Addr6 (take e ip ++ replicate (16 - length ip) 0 ++ drop e ip) zone)
        end
      else match ell with
        | Some _ => None
        | None => Some (Addr6 ip zone)
        end
    | _ => None
    end.

(** [netip.ParseAddr]: the first ['.'], [':'] or ['%'] decides the family. *)
Fixpoint addr_family (l : bytes) : option Z :=
  match l with
  | [] => None
  | c :: r => if (c =? 46) || (c =? 58) || (c =? 37) then Some c else addr_family r
  end.

Definition ParseAddr (s : bytes) : option Addr :=
  match addr_family s with
  | Some 46 => Addr4 <$> parseIPv4Fields s
  | Some 58 => parseIPv6 s
  | _ => None
  end.

(** ** Formatting *)

Fixpoint groups16 (l : bytes) : list Z :=
  match l with
  | a :: b :: r => (a * 256 + b) :: groups16 r
  | _ => []
  end.

(** Lower-case hex without leading zeros. *)
Definition hex16 (v : Z) : bytes :=
  if 4095 <? v then map hex_digit [v / 4096; (v / 256) mod 16; (v / 16) mod 16; v mod 16]
  else if 255 <? v then map hex_digit [v / 256; (v / 16) mod 16; v mod 16]
  else if 15 <? v then map hex_digit [v / 16; v mod 16]
  else [hex_digit v].

Fixpoint zero_run (l : list Z) : nat :=
  match l with
  | 0 :: r => S (zero_run r)
  | _ => O
  end.

(** The first longest run of at least two zero groups, as (start, end). *)
Definition longest_zero_run (gs : list Z) : option (nat * nat) :=
  foldl (λ best i,
    let l := zero_run (drop i gs) in
    let cur := match best with Some (a, b) => (b - a)%nat | None => 1%nat end in
    if (cur <? l)%nat then Some (i, (i + l)%nat) else best) None (seq 0 8).

Definition join_groups (gs : list Z) : bytes :=
  match gs with
  | [] => []
  | g :: r => hex16 g ++ flat_map (λ x, 58 :: hex16 x) r
  end.

Definition addr6_bytes (b : bytes) : bytes :=
  let gs := groups16 b in
  match longest_zero_run gs with
  | Some (a, e) => join_groups (take a gs) ++ [58; 58] ++ join_groups (drop e gs)
  | None => join_groups gs
  end.

Definition addr4_bytes (b : bytes) : bytes := bytes_of (Join (map Itoa b) ".").

(** [PrefixFrom(addr, bits).Masked().String()] for whole-byte [bits]: the host part is
    cleared and the zone dropped. *)
Definition masked_prefix_String (a : Addr) (bits : Z) : string :=
  let keep := Z.to_nat (bits / 8) in
  let mask (b : bytes) := take keep b ++ replicate (length b - keep) 0 in
  let body := match a with
              | Addr4 b => addr4_bytes (mask b)
              | Addr6 b _ => addr6_bytes (mask b)
              end in
  (string_of body +:+ "/" +:+ Itoa bits)%string.
