(* ===== verification/Domain.v ===== *)
(** * Domain model: devices, poll classes and polling vocabulary

    [internal/domain/device.go], [poll_class.go], the predicates of
    [device_normalization.go] and the vocabulary of [internal/polling/types.go].
    Enumerations read from the database (device type, poll class, metrics source,
    bootstrap state, SNMP version) are open and stay strings; those only produced by
    the process are inductive types with one constructor for the Go zero value. *)

From S2P Require Import Prelude GoLib.

(** ** Process-internal enumerations *)

Inductive TaskKind := TaskKindNone | TaskKindEssential | TaskKindBackground | TaskKindBootstrap.
Inductive Lane :=
| LaneNone | LaneEssential | LaneBackground | LanePerformanceCounterWalks | LaneBootstrap | LaneQuarantine.
Inductive VolatilityClass :=
| VolatilityClassNone | VolatilityClassPerformance | VolatilityClassOperational | VolatilityClassStatic.

#[export] Instance TaskKind_eq_dec : EqDecision TaskKind.
Proof. solve_decision. Defined.
#[export] Instance Lane_eq_dec : EqDecision Lane.
Proof. solve_decision. Defined.
#[export] Instance VolatilityClass_eq_dec : EqDecision VolatilityClass.
Proof. solve_decision. Defined.

Definition TaskKind_string (k : TaskKind) : string :=
  match k with
  | TaskKindNone => ""
  | TaskKindEssential => "essential"
  | TaskKindBackground => "background"
  | TaskKindBootstrap => "bootstrap"
  end.

Definition VolatilityClass_string (v : VolatilityClass) : string :=
  match v with
  | VolatilityClassNone => ""
  | VolatilityClassPerformance => "performance"
  | VolatilityClassOperational => "operational"
  | VolatilityClassStatic => "static"
  end.

Definition TaskKind_code (k : TaskKind) : nat :=
  match k with TaskKindNone => 0 | TaskKindEssential => 1 | TaskKindBackground => 2 | TaskKindBootstrap => 3 end.
Definition TaskKind_decode (n : nat) : option TaskKind :=
  match n with
  | 0 => Some TaskKindNone | 1 => Some TaskKindEssential
  | 2 => Some TaskKindBackground | 3 => Some TaskKindBootstrap | _ => None
  end%nat.
#[export] Instance TaskKind_countable : Countable TaskKind.
Proof. apply (inj_countable TaskKind_code TaskKind_decode). by intros []. Defined.

Definition VolatilityClass_code (v : VolatilityClass) : nat :=
  match v with
  | VolatilityClassNone => 0 | VolatilityClassPerformance => 1
  | VolatilityClassOperational => 2 | VolatilityClassStatic => 3
  end.
Definition VolatilityClass_decode (n : nat) : option VolatilityClass :=
  match n with
  | 0 => Some VolatilityClassNone | 1 => Some VolatilityClassPerformance
  | 2 => Some VolatilityClassOperational | 3 => Some VolatilityClassStatic | _ => None
  end%nat.
#[export] Instance VolatilityClass_countable : Countable VolatilityClass.
Proof. apply (inj_countable VolatilityClass_code VolatilityClass_decode). by intros []. Defined.

(** ** Devices *)

Record SNMPv2cCredentials := { v2c_Community : string }.

Record SNMPv3Credentials := {
  v3_Username : string; v3_AuthProtocol : string; v3_AuthPassword : string;
  v3_PrivProtocol : string; v3_PrivPassword : string; v3_SecurityLevel : string }.

Record SNMPCredentials := {
  creds_Version : string;
  creds_V2c : option SNMPv2cCredentials;
  creds_V3 : option SNMPv3Credentials }.

Record DeviceAddress := {
  addr_ID : UUID; addr_DeviceID : UUID; addr_Address : string; addr_Label : string;
  addr_Role : string; addr_IsPrimary : bool; addr_Priority : Z; addr_ProbePorts : list Z }.

(** The fields of [domain.Interface] read by the modelled packages. *)
Record Interface := {
  if_IfIndex : Z; if_IfName : string; if_IfDescr : string; if_Speed : Z; if_AdminStatus : string; if_OperStatus : string }.

(** The fields of [domain.Device] read by the modelled packages. *)
Record Device := {
  dev_ID : UUID;
  dev_Hostname : string;
  dev_SysName : string;
  dev_IP : string;
  dev_SNMPCredentials : SNMPCredentials;
  dev_DeviceType : string;
  dev_PollClass : string;
  dev_PollIntervalOverride : option Z;
  dev_PollingEnabled : option bool;
  dev_Status : string;
  dev_Managed : bool;
  dev_Interfaces : list Interface;
  dev_Addresses : list DeviceAddress;
  dev_ProbePorts : list Z;
  dev_AreaIDs : list UUID;
  dev_MetricsSource : string;
  dev_TopologyDiscoveryMode : string;
  dev_TopologyBootstrapState : string }.

(** The zero value, read from a map at an absent key. *)
Definition zeroDevice : Device :=
  {| dev_ID := 0; dev_Hostname := ""; dev_SysName := ""; dev_IP := "";
     dev_SNMPCredentials := {| creds_Version := ""; creds_V2c := None; creds_V3 := None |};
     dev_DeviceType := ""; dev_PollClass := ""; dev_PollIntervalOverride := None; dev_PollingEnabled := None;
     dev_Status := ""; dev_Managed := false; dev_Interfaces := []; dev_Addresses := []; dev_ProbePorts := []; dev_AreaIDs := [];
     dev_MetricsSource := ""; dev_TopologyDiscoveryMode := ""; dev_TopologyBootstrapState := "" |}.

(** [device.MetricsSource = src] *)
Definition with_metrics_source (src : string) (d : Device) : Device :=
  {| dev_ID := dev_ID d; dev_Hostname := dev_Hostname d; dev_SysName := dev_SysName d; dev_IP := dev_IP d;
     dev_SNMPCredentials := dev_SNMPCredentials d; dev_DeviceType := dev_DeviceType d;
     dev_PollClass := dev_PollClass d; dev_PollIntervalOverride := dev_PollIntervalOverride d;
     dev_PollingEnabled := dev_PollingEnabled d; dev_Status := dev_Status d; dev_Managed := dev_Managed d;
     dev_Interfaces := dev_Interfaces d; dev_Addresses := dev_Addresses d; dev_ProbePorts := dev_ProbePorts d;
     dev_AreaIDs := dev_AreaIDs d; dev_MetricsSource := src;
     dev_TopologyDiscoveryMode := dev_TopologyDiscoveryMode d;
     dev_TopologyBootstrapState := dev_TopologyBootstrapState d |}.

Definition DeviceTypeRouter : string := "router".
Definition DeviceTypeSwitch : string := "switch".
Definition DeviceTypeAP : string := "ap".
Definition DeviceTypeVirtual : string := "virtual".
Definition DeviceTypeUnknown : string := "unknown".
Definition DeviceStatusUnknown : string := "unknown".
Definition MetricsSourcePrometheus : string := "prometheus".
Definition MetricsSourceSNMP : string := "snmp".
Definition MetricsSourcePrometheusSNMPFallback : string := "prometheus_snmp_fallback".
Definition MetricsSourceNone : string := "none".
Definition SNMPVersionV2c : string := "2c".
Definition SNMPVersionV3 : string := "3".
Definition TopologyDiscoveryModeInherit : string := "inherit".
Definition TopologyDiscoveryModeOff : string := "off".
Definition TopologyDiscoveryModeLLDP : string := "lldp".
Definition TopologyDiscoveryModeLLDPCDP : string := "lldp_cdp".
Definition TopologyDiscoveryModeBootstrapOnce : string := "bootstrap_once".
Definition TopologyBootstrapStateIdle : string := "idle".
Definition TopologyBootstrapStatePending : string := "pending".
Definition TopologyBootstrapStateFollowupScheduled : string := "followup_scheduled".
Definition TopologyBootstrapStateCompleted : string := "completed".

Definition str_in (s : string) (l : list string) : bool := existsb (String.eqb s) l.

Definition NormalizeTopologyDiscoveryMode (mode fallback : string) : string :=
  if str_in mode [TopologyDiscoveryModeInherit; TopologyDiscoveryModeOff; TopologyDiscoveryModeLLDP;
                  TopologyDiscoveryModeLLDPCDP; TopologyDiscoveryModeBootstrapOnce]
  then mode
  else if negb (String.eqb fallback "") then fallback else TopologyDiscoveryModeInherit.

Definition NormalizeTopologyBootstrapState (state : string) : string :=
  if str_in state [TopologyBootstrapStateIdle; TopologyBootstrapStatePending;
                   TopologyBootstrapStateFollowupScheduled; TopologyBootstrapStateCompleted]
  then state else TopologyBootstrapStateIdle.

Definition ResolveTopologyDiscoveryMode (device : option Device) (defaultMode : string) : string :=
  let defaultMode := NormalizeTopologyDiscoveryMode defaultMode TopologyDiscoveryModeLLDPCDP in
  match device with
  | None => defaultMode
  | Some d =>
    let st := NormalizeTopologyBootstrapState (dev_TopologyBootstrapState d) in
    if str_in st [TopologyBootstrapStatePending; TopologyBootstrapStateFollowupScheduled]
    then TopologyDiscoveryModeBootstrapOnce
    else
      let mode := NormalizeTopologyDiscoveryMode (dev_TopologyDiscoveryMode d) TopologyDiscoveryModeInherit in
      let mode := if String.eqb mode TopologyDiscoveryModeInherit then defaultMode else mode in
      if String.eqb mode TopologyDiscoveryModeBootstrapOnce && String.eqb st TopologyBootstrapStateCompleted
      then TopologyDiscoveryModeOff else mode
  end.

Definition DevicePollingEnabled (d : Device) : bool :=
  match dev_PollingEnabled d with None => true | Some b => b end.

Definition IsVirtualWithIPDevice (d : Device) : bool :=
  String.eqb (dev_DeviceType d) DeviceTypeVirtual && negb (String.eqb (TrimSpace (dev_IP d)) "").
Definition IsVirtualNoIPDevice (d : Device) : bool :=
  String.eqb (dev_DeviceType d) DeviceTypeVirtual && String.eqb (TrimSpace (dev_IP d)) "".

(** ** Poll classes *)

Definition PollClassCore : string := "core".
Definition PollClassStandard : string := "standard".
Definition PollClassLow : string := "low".
Definition PollClassCoreInterval : Duration := 30 * Second.
Definition PollClassStandardInterval : Duration := 60 * Second.
Definition PollClassLowInterval : Duration := 300 * Second.
Definition OperationalClassInterval : Duration := 60 * Second.
Definition StaticClassInterval : Duration := 300 * Second.

Definition ClassifyPollClass (deviceType : string) : string :=
  if str_in deviceType [DeviceTypeRouter; DeviceTypeSwitch] then PollClassCore
  else if String.eqb deviceType DeviceTypeAP then PollClassStandard
  else if String.eqb deviceType DeviceTypeVirtual then PollClassLow
  else PollClassStandard.

Definition PollClass_Interval (c : string) : Duration :=
  if String.eqb c PollClassCore then PollClassCoreInterval
  else if String.eqb c PollClassStandard then PollClassStandardInterval
  else if String.eqb c PollClassLow then PollClassLowInterval
  else PollClassStandardInterval.

Lemma PollClass_Interval_cases c :
  PollClass_Interval c ∈ [PollClassCoreInterval; PollClassStandardInterval; PollClassLowInterval].
Proof. unfold PollClass_Interval. cases; set_solver. Qed.
