(* ===== verification/Addresses.v ===== *)
(** * Device addresses and probe ports

    [internal/domain/device_normalization.go] and [internal/domain/probe_ports.go]: the list of
    addresses of a device and its legacy [IP] field are kept in agreement, and lists of ports are
    validated, written to and read from comma-separated settings.  A nil device is left alone by
    the code and is not an argument here.  Lower-casing beyond ASCII is a parameter.
    [sort.SliceStable] is a merge sort: no two addresses compare equal, because their normalized
    values differ. *)

From Stdlib Require Import Ascii.
From S2P Require Import Prelude GoLib GoText Domain.

#[export] Instance upd_addr_DeviceID : Update addr_DeviceID := λ v a,
  {| addr_ID := addr_ID a; addr_DeviceID := v; addr_Address := addr_Address a; addr_Label := addr_Label a;
     addr_Role := addr_Role a; addr_IsPrimary := addr_IsPrimary a; addr_Priority := addr_Priority a; addr_ProbePorts := addr_ProbePorts a |}.
#[export] Instance upd_addr_Address : Update addr_Address := λ v a,
  {| addr_ID := addr_ID a; addr_DeviceID := addr_DeviceID a; addr_Address := v; addr_Label := addr_Label a;
     addr_Role := addr_Role a; addr_IsPrimary := addr_IsPrimary a; addr_Priority := addr_Priority a; addr_ProbePorts := addr_ProbePorts a |}.
#[export] Instance upd_addr_Label : Update addr_Label := λ v a,
  {| addr_ID := addr_ID a; addr_DeviceID := addr_DeviceID a; addr_Address := addr_Address a; addr_Label := v;
     addr_Role := addr_Role a; addr_IsPrimary := addr_IsPrimary a; addr_Priority := addr_Priority a; addr_ProbePorts := addr_ProbePorts a |}.
#[export] Instance upd_addr_Role : Update addr_Role := λ v a,
  {| addr_ID := addr_ID a; addr_DeviceID := addr_DeviceID a; addr_Address := addr_Address a; addr_Label := addr_Label a;
     addr_Role := v; addr_IsPrimary := addr_IsPrimary a; addr_Priority := addr_Priority a; addr_ProbePorts := addr_ProbePorts a |}.
#[export] Instance upd_addr_IsPrimary : Update addr_IsPrimary := λ v a,
  {| addr_ID := addr_ID a; addr_DeviceID := addr_DeviceID a; addr_Address := addr_Address a; addr_Label := addr_Label a;
     addr_Role := addr_Role a; addr_IsPrimary := v; addr_Priority := addr_Priority a; addr_ProbePorts := addr_ProbePorts a |}.
#[export] Instance upd_addr_Priority : Update addr_Priority := λ v a,
  {| addr_ID := addr_ID a; addr_DeviceID := addr_DeviceID a; addr_Address := addr_Address a; addr_Label := addr_Label a;
     addr_Role := addr_Role a; addr_IsPrimary := addr_IsPrimary a; addr_Priority := v; addr_ProbePorts := addr_ProbePorts a |}.

(** [device.IP = ip; device.Addresses = addresses] *)
Definition with_addresses (ip : string) (addresses : list DeviceAddress) (d : Device) : Device :=
  {| dev_ID := dev_ID d; dev_Hostname := dev_Hostname d; dev_SysName := dev_SysName d; dev_IP := ip; dev_SNMPCredentials := dev_SNMPCredentials d;
     dev_DeviceType := dev_DeviceType d; dev_PollClass := dev_PollClass d; dev_PollIntervalOverride := dev_PollIntervalOverride d;
     dev_PollingEnabled := dev_PollingEnabled d; dev_Status := dev_Status d; dev_Managed := dev_Managed d;
     dev_Interfaces := dev_Interfaces d; dev_Addresses := addresses; dev_ProbePorts := dev_ProbePorts d;
     dev_AreaIDs := dev_AreaIDs d; dev_MetricsSource := dev_MetricsSource d;
     dev_TopologyDiscoveryMode := dev_TopologyDiscoveryMode d; dev_TopologyBootstrapState := dev_TopologyBootstrapState d |}.

Definition DeviceAddressRolePrimary : string := "primary".
Definition DeviceAddressRoleManagement : string := "management".
Definition DeviceAddressRoleBackup : string := "backup".
Definition DeviceAddressRoleMonitoring : string := "monitoring".
Definition DeviceAddressRoleOther : string := "other".
Definition known_roles : list string :=
  [DeviceAddressRolePrimary; DeviceAddressRoleManagement; DeviceAddressRoleBackup; DeviceAddressRoleMonitoring; DeviceAddressRoleOther].

Section addresses.
Context (unicode_lower : string → string).

Definition NormalizeDeviceAddressValue (value : string) : string := ToLower unicode_lower (TrimSpace value).

Definition NormalizeDeviceAddressRole (role : string) : string :=
  let r := ToLower unicode_lower (TrimSpace role) in
  if str_in r known_roles then r else DeviceAddressRoleOther.

(** ** Normalization of the list *)

(** [if device.ID != uuid.Nil && address.DeviceID == uuid.Nil { address.DeviceID = device.ID }] *)
Definition own_address (deviceID : UUID) (a : DeviceAddress) : DeviceAddress :=
  if negb (deviceID =? uuid_Nil) && (addr_DeviceID a =? uuid_Nil) then a <| addr_DeviceID := deviceID |> else a.

(** The first loop: blank addresses and repeated ones are dropped. *)
Definition add_address (deviceID : UUID) (acc : gmap string nat * list DeviceAddress) (address : DeviceAddress)
  : gmap string nat * list DeviceAddress :=
  let '(seen, addresses) := acc in
  let address := address <| addr_Address := TrimSpace (addr_Address address) |> in
  if String.eqb (addr_Address address) "" then acc
  else
    let normalized := NormalizeDeviceAddressValue (addr_Address address) in
    match seen !! normalized with
    | Some _ => acc
    | None =>
      let address := address <| addr_Label := TrimSpace (addr_Label address) |> in
      let address := address <| addr_Role := NormalizeDeviceAddressRole (addr_Role address) |> in
      let address := own_address deviceID address in
      (<[normalized := length addresses]> seen, addresses ++ [address])
    end.

Definition make_primary (a : DeviceAddress) : DeviceAddress :=
  a <| addr_IsPrimary := true |> <| addr_Role := DeviceAddressRolePrimary |> <| addr_Priority := 0 |>.
Definition make_secondary (a : DeviceAddress) : DeviceAddress :=
  let a := a <| addr_IsPrimary := false |> in
  if String.eqb (addr_Role a) DeviceAddressRolePrimary then a <| addr_Role := DeviceAddressRoleOther |> else a.

(** The branch for a device with a legacy address: it is found or put in front, and every other
    address becomes a secondary one. *)
Definition place_legacy (deviceID : UUID) (legacyIP : string) (seen : gmap string nat) (addresses : list DeviceAddress) : list DeviceAddress :=
  match seen !! NormalizeDeviceAddressValue legacyIP with
  | Some index => alter (λ a, own_address deviceID (make_primary (a <| addr_Address := legacyIP |>))) index addresses
  | None =>
    {| addr_ID := uuid_Nil; addr_DeviceID := deviceID; addr_Address := legacyIP; addr_Label := "Primary";
       addr_Role := DeviceAddressRolePrimary; addr_IsPrimary := true; addr_Priority := 0; addr_ProbePorts := [] |} :: addresses
  end.
Definition demote_others (legacyIP : string) (a : DeviceAddress) : DeviceAddress :=
  if String.eqb (NormalizeDeviceAddressValue (addr_Address a)) (NormalizeDeviceAddressValue legacyIP) then a else make_secondary a.
Definition install_legacy (deviceID : UUID) (legacyIP : string) (seen : gmap string nat) (addresses : list DeviceAddress) : list DeviceAddress :=
  demote_others legacyIP <$> place_legacy deviceID legacyIP seen addresses.

Definition is_primary (a : DeviceAddress) : bool :=
  addr_IsPrimary a || String.eqb (NormalizeDeviceAddressRole (addr_Role a)) DeviceAddressRolePrimary.

Definition firstPrimaryAddressIndex (addresses : list DeviceAddress) : option nat :=
  fst <$> list_find (λ a, is_primary a = true) addresses.

(** The comparison of [sort.SliceStable]. *)
Definition address_less (a b : DeviceAddress) : bool :=
  if negb (Bool.eqb (addr_IsPrimary a) (addr_IsPrimary b)) then addr_IsPrimary a
  else if negb (addr_Priority a =? addr_Priority b) then addr_Priority a <? addr_Priority b
  else string_ltb (NormalizeDeviceAddressValue (addr_Address a)) (NormalizeDeviceAddressValue (addr_Address b)).
Definition address_le (a b : DeviceAddress) : Prop := address_less b a = false.
#[export] Instance address_le_dec a b : Decision (address_le a b) := decide (address_less b a = false).

(** The last loop, with [primarySeen] and the device's address. *)
Fixpoint settle (deviceID : UUID) (primarySeen : bool) (ip : string) (addresses : list DeviceAddress) : string * list DeviceAddress :=
  match addresses with
  | [] => (ip, [])
  | a :: rest =>
    let a := own_address deviceID a in
    if addr_IsPrimary a && negb primarySeen then
      let '(ip, rest) := settle deviceID true (addr_Address a) rest in (ip, make_primary a :: rest)
    else
      let '(ip, rest) := settle deviceID primarySeen ip rest in (ip, make_secondary a :: rest)
  end.

Definition sort_and_settle (device : Device) (ip : string) (addresses : list DeviceAddress) : Device :=
  let '(ip, addresses) := settle (dev_ID device) false ip (merge_sort address_le addresses) in
  with_addresses ip addresses device.

Definition NormalizeDeviceAddresses (device : Device) : Device :=
  let legacyIP := TrimSpace (dev_IP device) in
  let '(seen, addresses) := foldl (add_address (dev_ID device)) (∅, []) (dev_Addresses device) in
  if negb (String.eqb legacyIP "") then
    sort_and_settle device legacyIP (install_legacy (dev_ID device) legacyIP seen addresses)
  else match addresses with
  | [] => with_addresses legacyIP [] device
  | _ =>
    let primaryIndex := default 0%nat (firstPrimaryAddressIndex addresses) in
    let ip := default "" (addr_Address <$> addresses !! primaryIndex) in
    sort_and_settle device ip (alter make_primary primaryIndex addresses)
  end.

(** ** Readers *)

Definition PrimaryAddress (device : Device) : string :=
  match list_find (λ a, is_primary a && negb (String.eqb (TrimSpace (addr_Address a)) "") = true) (dev_Addresses device) with
  | Some (_, a) => TrimSpace (addr_Address a)
  | None => TrimSpace (dev_IP device)
  end.

(** The loop of [AddressForRole], with the best address so far. *)
Definition better_address (role : string) (acc : string * Z) (a : DeviceAddress) : string * Z :=
  let '(best, bestPriority) := acc in
  if negb (String.eqb (NormalizeDeviceAddressRole (addr_Role a)) role) then acc
  else
    let trimmed := TrimSpace (addr_Address a) in
    if String.eqb trimmed "" then acc
    else if String.eqb best "" || (addr_Priority a <? bestPriority) then (trimmed, addr_Priority a) else acc.

Definition AddressForRole (device : Device) (role : string) : string :=
  let role := NormalizeDeviceAddressRole role in
  if String.eqb role DeviceAddressRolePrimary then PrimaryAddress device
  else (foldl (better_address role) ("", int64_max) (dev_Addresses device)).1.

Definition BackupAddress (device : Device) : string :=
  let backup := AddressForRole device DeviceAddressRoleBackup in
  if negb (String.eqb backup "") then backup
  else
    let management := AddressForRole device DeviceAddressRoleManagement in
    if negb (String.eqb management "") then management else PrimaryAddress device.

(** The loop of [DeviceAddressValues]. *)
Definition add_value (acc : gset string * list string) (a : DeviceAddress) : gset string * list string :=
  let '(seen, values) := acc in
  let trimmed := TrimSpace (addr_Address a) in
  if String.eqb trimmed "" then acc
  else
    let normalized := NormalizeDeviceAddressValue trimmed in
    if bool_decide (normalized ∈ seen) then acc else ({[normalized]} ∪ seen, values ++ [trimmed]).

Definition DeviceAddressValues (device : Device) : list string :=
  let primary := TrimSpace (dev_IP device) in
  let start := if negb (String.eqb primary "") then ({[NormalizeDeviceAddressValue primary]}, [primary]) else (∅, []) in
  (foldl add_value start (dev_Addresses device)).2.

Definition address_equal (a b : DeviceAddress) : bool :=
  String.eqb (NormalizeDeviceAddressValue (addr_Address a)) (NormalizeDeviceAddressValue (addr_Address b))
  && String.eqb (TrimSpace (addr_Label a)) (TrimSpace (addr_Label b))
  && String.eqb (NormalizeDeviceAddressRole (addr_Role a)) (NormalizeDeviceAddressRole (addr_Role b))
  && Bool.eqb (addr_IsPrimary a) (addr_IsPrimary b)
  && (addr_Priority a =? addr_Priority b)
  && bool_decide (addr_ProbePorts a = addr_ProbePorts b).

Fixpoint addresses_equal (first second : list DeviceAddress) : bool :=
  match first, second with
  | a :: first, b :: second => address_equal a b && addresses_equal first second
  | _, _ => true
  end.
Definition DeviceAddressesEqual (first second : list DeviceAddress) : bool :=
  (length first =? length second)%nat && addresses_equal first second.
End addresses.

(** [NormalizeVirtualDevice] and [NormalizeVirtualNoIPDevice]: the device afterwards and whether it changed. *)
Definition with_status (status : string) (d : Device) : Device :=
  {| dev_ID := dev_ID d; dev_Hostname := dev_Hostname d; dev_SysName := dev_SysName d; dev_IP := dev_IP d; dev_SNMPCredentials := dev_SNMPCredentials d;
     dev_DeviceType := dev_DeviceType d; dev_PollClass := dev_PollClass d; dev_PollIntervalOverride := dev_PollIntervalOverride d;
     dev_PollingEnabled := dev_PollingEnabled d; dev_Status := status; dev_Managed := dev_Managed d;
     dev_Interfaces := dev_Interfaces d; dev_Addresses := dev_Addresses d; dev_ProbePorts := dev_ProbePorts d;
     dev_AreaIDs := dev_AreaIDs d; dev_MetricsSource := dev_MetricsSource d;
     dev_TopologyDiscoveryMode := dev_TopologyDiscoveryMode d; dev_TopologyBootstrapState := dev_TopologyBootstrapState d |}.

Definition NormalizeVirtualDevice (device : Device) : Device * bool :=
  if negb (String.eqb (dev_DeviceType device) DeviceTypeVirtual) then (device, false)
  else
    let '(device, changed) :=
      if negb (String.eqb (dev_MetricsSource device) MetricsSourceNone)
      then (with_metrics_source MetricsSourceNone device, true) else (device, false) in
    if IsVirtualNoIPDevice device && negb (String.eqb (dev_Status device) DeviceStatusUnknown)
    then (with_status DeviceStatusUnknown device, true) else (device, changed).

Definition NormalizeVirtualNoIPDevice (device : Device) : Device * bool :=
  if negb (IsVirtualNoIPDevice device) then (device, false)
  else
    let '(device, changed) :=
      if negb (String.eqb (dev_Status device) DeviceStatusUnknown)
      then (with_status DeviceStatusUnknown device, true) else (device, false) in
    if negb (String.eqb (dev_MetricsSource device) MetricsSourceNone)
    then (with_metrics_source MetricsSourceNone device, true) else (device, changed).

Definition NormalizeDeviceNotes (notes : option string) : option string :=
  match notes with
  | None => None
  | Some n => let trimmed := TrimSpace n in if String.eqb trimmed "" then None else Some trimmed
  end.

(** ** Probe ports *)

Definition DefaultNetworkProbePorts : list Z := [22; 8291; 80; 443].

(** [fmt.Errorf("probe port %d must be between 1 and 65535", port)] *)
Definition port_error (port : Z) : string := ("probe port " +:+ Itoa port +:+ " must be between 1 and 65535")%string.

(** The loop, with the set of ports seen. *)
Fixpoint normalize_ports (seen : gset Z) (ports : list Z) : result (list Z) :=
  match ports with
  | [] => Ok []
  | port :: rest =>
    if (port <? 1) || (65535 <? port) then Err (port_error port)
    else if bool_decide (port ∈ seen) then normalize_ports seen rest
    else match normalize_ports ({[port]} ∪ seen) rest with Ok l => Ok (port :: l) | Err e => Err e end
  end.
Definition NormalizeProbePorts (ports : list Z) : result (list Z) := normalize_ports ∅ ports.

(** The loop over the fields; [quoted] is the [%q] form of a field. *)
Fixpoint parse_ports (quoted : string → string) (tokens : list string) : result (list Z) :=
  match tokens with
  | [] => Ok []
  | token :: rest =>
    let token := TrimSpace token in
    if String.eqb token "" then Err "probe ports must not contain empty values"
    else match Atoi token with
    | None => Err ("probe port " +:+ quoted token +:+ " must be a valid integer")%string
    | Some port => match parse_ports quoted rest with Ok l => Ok (port :: l) | Err e => Err e end
    end
  end.

Definition ParseProbePortsCSV (quoted : string → string) (value : string) : result (list Z) :=
  let trimmed := TrimSpace value in
  if String.eqb trimmed "" then Ok []
  else match parse_ports quoted (Split trimmed ","%char) with Ok ports => NormalizeProbePorts ports | Err e => Err e end.

Definition FormatProbePortsCSV (ports : list Z) : string :=
  match NormalizeProbePorts ports with Ok normalized => Join (Itoa <$> normalized) "," | Err _ => "" end.

Fixpoint first_ports (lists : list (list Z)) : list Z :=
  match lists with
  | [] => DefaultNetworkProbePorts
  | ports :: rest =>
    match NormalizeProbePorts ports with
    | Ok (p :: normalized) => p :: normalized
    | _ => first_ports rest
    end
  end.
Definition ResolveProbePorts (addressPorts devicePorts globalPorts : list Z) : list Z := first_ports [addressPorts; devicePorts; globalPorts].

Definition CoerceNetworkProbePortsCSV (quoted : string → string) (value : string) : list Z :=
  match ParseProbePortsCSV quoted value with
  | Ok (p :: ports) => p :: ports
  | _ => DefaultNetworkProbePorts
  end.
