(* ===== verification/AddressesSpec.v ===== *)
(** * Device addresses and probe ports: theorems

    The normal form that [NormalizeDeviceAddresses] establishes, when it is a fixed point, and the
    round trip of port lists. *)

From Stdlib Require Import Ascii.
From S2P Require Import Prelude GoLib GoText Domain Addresses.

#[local] Arguments TrimSpace : simpl never.

Section normal.
Context (unicode_lower : string → string).
Local Abbreviation norm := (NormalizeDeviceAddressValue unicode_lower) (only parsing).
Local Abbreviation N := (NormalizeDeviceAddresses unicode_lower) (only parsing).
Local Abbreviation le := (address_le unicode_lower) (only parsing).

(** The value addresses are compared by. *)
Definition address_key (a : DeviceAddress) : string := norm (addr_Address a).

(** What the first loop does to an address it keeps. *)
Definition clean (deviceID : UUID) (a : DeviceAddress) : Prop :=
  TrimSpace (addr_Address a) = addr_Address a ∧ addr_Address a ≠ "" ∧ TrimSpace (addr_Label a) = addr_Label a ∧
  addr_Role a ∈ known_roles ∧ (deviceID ≠ uuid_Nil → addr_DeviceID a ≠ uuid_Nil).

Definition primary_shape (a : DeviceAddress) : Prop :=
  addr_IsPrimary a = true ∧ addr_Role a = DeviceAddressRolePrimary ∧ addr_Priority a = 0.
Definition secondary_shape (a : DeviceAddress) : Prop :=
  addr_IsPrimary a = false ∧ addr_Role a ≠ DeviceAddressRolePrimary.

(** The normal form: clean and distinct addresses, the primary one first and equal to the address
    of the device, and no other primary one. *)
Definition normal_addresses (deviceID : UUID) (ip : string) (l : list DeviceAddress) : Prop :=
  Forall (clean deviceID) l ∧ NoDup (address_key <$> l) ∧
  match l with
  | [] => ip = ""
  | a :: rest => addr_Address a = ip ∧ primary_shape a ∧ Forall secondary_shape rest
  end.

(** ** Single addresses *)

Lemma norm_trim s : norm (TrimSpace s) = norm s.
Proof. unfold NormalizeDeviceAddressValue. by rewrite TrimSpace_idem. Qed.

Lemma norm_role_known r : NormalizeDeviceAddressRole unicode_lower r ∈ known_roles.
Proof.
  unfold NormalizeDeviceAddressRole. destruct (str_in _ _) eqn:E; [|unfold known_roles; set_solver].
  apply existsb_exists in E as (x & Hx & ->%String.eqb_eq). by apply list_elem_of_In.
Qed.

Lemma norm_role_fix r : r ∈ known_roles → NormalizeDeviceAddressRole unicode_lower r = r.
Proof.
  intros Hr. unfold known_roles in Hr. repeat (apply elem_of_cons in Hr as [->|Hr]; [reflexivity|]). by apply not_elem_of_nil in Hr.
Qed.

Lemma own_address_fix i a : (i ≠ uuid_Nil → addr_DeviceID a ≠ uuid_Nil) → own_address i a = a.
Proof.
  intros Hi. unfold own_address. destruct (i =? uuid_Nil) eqn:E1; [done|]. destruct (addr_DeviceID a =? uuid_Nil) eqn:E2; [|done].
  apply Z.eqb_neq in E1. apply Z.eqb_eq in E2. by destruct (Hi E1).
Qed.

Lemma own_address_owned i a : i ≠ uuid_Nil → addr_DeviceID (own_address i a) ≠ uuid_Nil.
Proof.
  intros Hi. unfold own_address. rewrite (proj2 (Z.eqb_neq i _) Hi). destruct (addr_DeviceID a =? uuid_Nil) eqn:E; cbn; [done|].
  by apply Z.eqb_neq in E.
Qed.

Lemma own_address_key i a : address_key (own_address i a) = address_key a.
Proof. unfold own_address. by destruct (_ && _). Qed.
Lemma make_primary_key a : address_key (make_primary a) = address_key a.
Proof. done. Qed.
Lemma make_secondary_key a : address_key (make_secondary a) = address_key a.
Proof. unfold make_secondary. by destruct (String.eqb _ _). Qed.

Lemma make_primary_fix a : primary_shape a → make_primary a = a.
Proof. destruct a. unfold primary_shape, make_primary. cbn. by intros (-> & -> & ->). Qed.
Lemma make_secondary_fix a : secondary_shape a → make_secondary a = a.
Proof. destruct a. unfold secondary_shape, make_secondary. cbn. intros [-> Hr]. by rewrite (proj2 (String.eqb_neq _ _) Hr). Qed.

Lemma make_secondary_shape a : secondary_shape (make_secondary a).
Proof.
  unfold make_secondary, secondary_shape. cbn. destruct (String.eqb_spec (addr_Role a) DeviceAddressRolePrimary) as [|Hr]; cbn.
  - by split.
  - by split.
Qed.

Lemma clean_own i a : clean i a → clean i (own_address i a).
Proof. intros (? & ? & ? & ? & Hi). rewrite own_address_fix by done. by split_and!. Qed.
Lemma clean_primary i a : clean i a → clean i (make_primary a).
Proof. intros (? & ? & ? & ? & ?). split_and!; try done. unfold make_primary, known_roles. cbn. set_solver. Qed.
Lemma clean_secondary i a : clean i a → clean i (make_secondary a).
Proof.
  intros (? & ? & ? & ? & ?). unfold make_secondary. cbn. destruct (String.eqb _ _); split_and!; try done. unfold known_roles. cbn. set_solver.
Qed.

(** ** The first loop *)

(** [seen] is the index of the addresses kept so far. *)
Definition indexed (seen : gmap string nat) (l : list DeviceAddress) : Prop :=
  ∀ k i, seen !! k = Some i ↔ address_key <$> l !! i = Some k.

Lemma indexed_nodup seen l : indexed seen l → NoDup (address_key <$> l).
Proof.
  intros Hi. apply NoDup_alt. intros i j k Hki Hkj. rewrite list_lookup_fmap in *. apply Hi in Hki, Hkj. congruence.
Qed.

Lemma indexed_snoc seen l a : indexed seen l → seen !! address_key a = None → indexed (<[address_key a := length l]> seen) (l ++ [a]).
Proof.
  intros Hi Hn k i. destruct (decide (k = address_key a)) as [->|Hk].
  - rewrite lookup_insert_eq. split.
    + intros [= <-]. rewrite lookup_app_r, Nat.sub_diag by lia. done.
    + intros H. destruct (decide (i < length l)%nat) as [Hl|Hl].
      * rewrite lookup_app_l in H by done. apply Hi in H. congruence.
      * rewrite lookup_app_r in H by lia. destruct (i - length l)%nat eqn:E; [|done]. f_equal. lia.
  - rewrite lookup_insert_ne by done. rewrite (Hi k i). destruct (decide (i < length l)%nat) as [Hl|Hl].
    + by rewrite lookup_app_l by done.
    + rewrite lookup_ge_None_2, lookup_app_r by lia. destruct (i - length l)%nat eqn:E; cbn; [|done]. split; [done|]. congruence.
Qed.

Lemma indexed_empty : indexed ∅ [].
Proof. intros k i. rewrite lookup_empty. done. Qed.

(** Kept: every value, once, in the form [clean]. *)
Lemma collect_spec deviceID input seen l :
  indexed seen l → Forall (clean deviceID) l →
  let out := foldl (add_address unicode_lower deviceID) (seen, l) input in
  indexed out.1 out.2 ∧ Forall (clean deviceID) out.2 ∧
  ∀ k, k ∈ address_key <$> out.2 ↔ k ∈ address_key <$> l ∨ ∃ a, a ∈ input ∧ TrimSpace (addr_Address a) ≠ "" ∧ address_key a = k.
Proof.
  revert seen l. induction input as [|a input IH]; intros seen l Hi Hc; cbn [foldl].
  { split_and!; [done..|]. intros k. cbn. set_solver. }
  destruct (add_address unicode_lower deviceID (seen, l) a) as [seen' l'] eqn:E.
  assert (Hstep : indexed seen' l' ∧ Forall (clean deviceID) l' ∧
    ∀ k, k ∈ address_key <$> l' ↔ k ∈ address_key <$> l ∨ (TrimSpace (addr_Address a) ≠ "" ∧ address_key a = k)).
  2: { destruct Hstep as (H1 & H2 & H3). destruct (IH seen' l' H1 H2) as (H4 & H5 & H6). split_and!; [done..|].
       intros k. rewrite H6, H3. set_solver. }
  unfold add_address in E. cbn in E. destruct (String.eqb_spec (TrimSpace (addr_Address a)) "") as [Hb|Hb]; [simplify_eq; set_solver|].
  rewrite norm_trim in E. fold (address_key a) in E. destruct (seen !! address_key a) as [i|] eqn:Es; simplify_eq.
  - split_and!; [done..|]. intros k. split; [by left|]. intros [|[_ <-]]; [done|]. apply Hi in Es.
    apply list_elem_of_lookup. exists i. by rewrite list_lookup_fmap.
  - set (b := own_address deviceID _). assert (Hk : address_key b = address_key a).
    { subst b. rewrite own_address_key. unfold address_key. cbn. apply norm_trim. }
    split_and!; [by rewrite <- Hk; apply indexed_snoc; [|rewrite Hk]| |].
    + apply Forall_app. split; [done|]. apply Forall_singleton. split_and!; subst b; unfold own_address; try (by destruct (_ && _); cbn; rewrite ?TrimSpace_idem).
      * destruct (_ && _); apply norm_role_known.
      * apply own_address_owned.
    + intros k. rewrite fmap_app, elem_of_app. cbn. rewrite list_elem_of_singleton, Hk. naive_solver.
Qed.

Lemma collect_fix deviceID input seen l :
  indexed seen l → Forall (clean deviceID) input → NoDup (address_key <$> l ++ input) →
  ∃ seen', foldl (add_address unicode_lower deviceID) (seen, l) input = (seen', l ++ input) ∧ indexed seen' (l ++ input).
Proof.
  revert seen l. induction input as [|a input IH]; intros seen l Hi Hc Hn.
  { exists seen. by rewrite app_nil_r. }
  apply Forall_cons in Hc as [(Ht & Hne & Hl & Hr & Ho) Hc]. cbn [foldl].
  assert (Ea : add_address unicode_lower deviceID (seen, l) a = (<[address_key a := length l]> seen, l ++ [a])).
  { unfold add_address. cbn. rewrite Ht, (proj2 (String.eqb_neq _ _) Hne). fold (address_key a).
    destruct (seen !! address_key a) as [i|] eqn:Es.
    - exfalso. apply Hi in Es. rewrite fmap_app in Hn. apply NoDup_app in Hn as (_ & Hn & _). apply (Hn (address_key a)); [|left].
      apply list_elem_of_lookup. exists i. by rewrite list_lookup_fmap.
    - f_equal. f_equal. f_equal. rewrite Hl, norm_role_fix by done. rewrite own_address_fix by done. by destruct a. }
  rewrite Ea. replace (l ++ a :: input) with ((l ++ [a]) ++ input) in * by (by rewrite <- app_assoc).
  apply IH; [|done|done]. apply indexed_snoc; [done|]. destruct (seen !! address_key a) as [i|] eqn:Es; [|done]. apply Hi in Es.
  rewrite !fmap_app, <- app_assoc in Hn. apply NoDup_app in Hn as (_ & Hn & _). exfalso.
  apply (Hn (address_key a)); [|left]. apply list_elem_of_lookup. exists i. by rewrite list_lookup_fmap.
Qed.

(** ** The order *)

#[local] Instance address_le_total : Total le.
Proof.
  intros a b. unfold address_le, address_less. rewrite (Z.eqb_sym (addr_Priority b)).
  destruct (addr_IsPrimary a), (addr_IsPrimary b), (addr_Priority a =? addr_Priority b) eqn:E; cbn; try (by left); try (by right); to_prop.
  1, 3: destruct (string_le_total (address_key a) (address_key b)); [by left|by right].
  all: destruct (addr_Priority b <? addr_Priority a) eqn:E2; [right; apply Z.ltb_ge; to_prop; lia|by left].
Qed.

(** The order is that of (not primary, priority, key). *)
Lemma address_le_alt a b :
  le a b ↔ (addr_IsPrimary a = true ∧ addr_IsPrimary b = false) ∨
           (addr_IsPrimary a = addr_IsPrimary b ∧ (addr_Priority a < addr_Priority b ∨
              (addr_Priority a = addr_Priority b ∧ string_le (address_key a) (address_key b)))).
Proof.
  unfold address_le, address_less. destruct (Z.eqb_spec (addr_Priority b) (addr_Priority a)) as [->|Hp];
    destruct (addr_IsPrimary a), (addr_IsPrimary b); cbn; rewrite ?Z.ltb_ge; try naive_solver lia.
Qed.

#[local] Instance address_le_trans : Transitive le.
Proof.
  intros a b c. rewrite !address_le_alt. intros [[Ha Hb]|[Ha Hb]] [[Hc Hd]|[Hc Hd]]; [congruence|left; split; congruence..|].
  right. split; [congruence|]. destruct Hb as [Hb|[Hb Hb']], Hd as [Hd|[Hd Hd']]; [left; lia..|].
  right. split; [lia|]. by etransitivity.
Qed.

Lemma sorted_fix l : StronglySorted le l → NoDup (address_key <$> l) → merge_sort le l = l.
Proof.
  intros Hs Hn. eapply (StronglySorted_unique_strong le); [|apply StronglySorted_merge_sort; apply _|done|apply merge_sort_Permutation].
  intros a b Ha Hb Hab Hba. rewrite merge_sort_Permutation in Ha. apply address_le_alt in Hab, Hba.
  assert (Hk : address_key a = address_key b).
  { destruct Hab as [[]|[? [?|[? H1]]]], Hba as [[]|[? [?|[? H2]]]]; try congruence; try lia. exact (string_ltb_total _ _ H2 H1). }
  apply list_elem_of_lookup in Ha as [i Hi], Hb as [j Hj].
  assert (i = j) as ->; [|congruence]. eapply (NoDup_lookup (address_key <$> l)); [done|..]; rewrite list_lookup_fmap.
  - by rewrite Hi.
  - rewrite Hj. cbn. by rewrite Hk.
Qed.

(** A sorted list with a primary address starts with one. *)
Lemma sorted_head l : StronglySorted le l → (∃ a, a ∈ l ∧ addr_IsPrimary a = true) → ∃ h t, l = h :: t ∧ addr_IsPrimary h = true.
Proof.
  intros Hs (a & Ha & Hp). destruct l as [|h t]; [by apply not_elem_of_nil in Ha|]. exists h, t. split; [done|].
  apply elem_of_cons in Ha as [->|Ha]; [done|]. inversion Hs as [|? ? _ Hh]; subst.
  rewrite Forall_forall in Hh. specialize (Hh a Ha). apply address_le_alt in Hh. by destruct Hh as [[? _]|[-> _]].
Qed.

(** ** The last loop *)

Lemma settle_rest deviceID ip l :
  settle deviceID true ip l = (ip, (λ a, make_secondary (own_address deviceID a)) <$> l).
Proof. induction l as [|a l IH]; cbn [settle]; [done|]. by rewrite andb_false_r, IH. Qed.

Lemma settle_head deviceID ip h t :
  addr_IsPrimary h = true →
  settle deviceID false ip (h :: t) =
  (addr_Address h, make_primary (own_address deviceID h) :: ((λ a, make_secondary (own_address deviceID a)) <$> t)).
Proof.
  intros Hh. cbn [settle]. assert (addr_IsPrimary (own_address deviceID h) = true ∧ addr_Address (own_address deviceID h) = addr_Address h) as [-> ->].
  { unfold own_address. by destruct (_ && _). }
  cbn [andb negb]. by rewrite settle_rest.
Qed.

(** Sorting and settling gives the normal form. *)
Lemma sort_and_settle_normal d ip l :
  Forall (clean (dev_ID d)) l → NoDup (address_key <$> l) → (∃ a, a ∈ l ∧ addr_IsPrimary a = true) →
  let d' := sort_and_settle unicode_lower d ip l in
  normal_addresses (dev_ID d) (dev_IP d') (dev_Addresses d') ∧
  address_key <$> dev_Addresses d' ≡ₚ address_key <$> l ∧ d' = with_addresses (dev_IP d') (dev_Addresses d') d.
Proof.
  intros Hc Hn Hp. unfold sort_and_settle. pose proof (merge_sort_Permutation le l) as Hperm.
  destruct (sorted_head (merge_sort le l)) as (h & t & Es & Hh).
  { apply StronglySorted_merge_sort; apply _. }
  { destruct Hp as (a & Ha & Hp). exists a. by rewrite merge_sort_Permutation. }
  rewrite Es, settle_head by done. cbn. rewrite Es in Hperm.
  assert (Hk : address_key <$> (make_primary (own_address (dev_ID d) h) :: ((λ a, make_secondary (own_address (dev_ID d) a)) <$> t)) = address_key <$> h :: t).
  { cbn. rewrite make_primary_key, own_address_key, <- list_fmap_compose. f_equal. apply list_fmap_ext. intros i a _. cbn.
    by rewrite make_secondary_key, own_address_key. }
  rewrite <- Hperm in Hc, Hn. split_and!; [|by cbn in Hk |- *; rewrite Hk, <- Hperm|done].
  apply Forall_cons in Hc as [Hc1 Hc]. split_and!.
  - apply Forall_cons. split; [by apply clean_primary, clean_own|]. apply Forall_fmap. eapply Forall_impl; [exact Hc|].
    intros a Ha. by apply clean_secondary, clean_own.
  - cbn in Hk |- *. by rewrite Hk.
  - cbn. unfold own_address. by destruct (_ && _).
  - done.
  - apply Forall_fmap, Forall_true. intros a. apply make_secondary_shape.
Qed.

Lemma settle_fix deviceID ip h t :
  Forall (clean deviceID) (h :: t) → primary_shape h → Forall secondary_shape t → settle deviceID false ip (h :: t) = (addr_Address h, h :: t).
Proof.
  intros Hc Hh Ht. rewrite settle_head by apply Hh. apply Forall_cons in Hc as [Hc1 Hc]. f_equal. f_equal.
  - rewrite own_address_fix by apply Hc1. by apply make_primary_fix.
  - rewrite <- (list_fmap_id t) at 2. apply list_fmap_ext. intros i a Ha. eapply Forall_lookup_1 in Ht, Hc; [|done..].
    rewrite own_address_fix by apply Hc. by apply make_secondary_fix.
Qed.

(** ** The legacy address *)

Lemma alter_keys f i (l : list DeviceAddress) : (∀ a, l !! i = Some a → address_key (f a) = address_key a) → address_key <$> alter f i l = address_key <$> l.
Proof.
  intros Hf. apply list_eq. intros j. rewrite !list_lookup_fmap. destruct (decide (i = j)) as [->|Hne].
  - rewrite list_lookup_alter_eq. destruct (l !! j) as [a|] eqn:E; cbn; [|done]. by rewrite Hf.
  - by rewrite list_lookup_alter_ne.
Qed.

(** What [install_legacy] makes of the collected addresses. *)
Definition legacy_shape (ip : string) (a : DeviceAddress) : Prop :=
  if decide (address_key a = norm ip) then addr_Address a = ip ∧ primary_shape a else secondary_shape a.

Lemma place_legacy_spec deviceID ip seen l :
  indexed seen l → Forall (clean deviceID) l → TrimSpace ip = ip → ip ≠ "" →
  let out := place_legacy unicode_lower deviceID ip seen l in
  Forall (clean deviceID) out ∧ NoDup (address_key <$> out) ∧
  Forall (λ a, address_key a = norm ip → addr_Address a = ip ∧ primary_shape a) out ∧
  ∀ k, k ∈ address_key <$> out ↔ k ∈ address_key <$> l ∨ norm ip = k.
Proof.
  intros Hi Hc Ht Hne. pose proof (indexed_nodup _ _ Hi) as Hn. unfold place_legacy. destruct (seen !! norm ip) as [i|] eqn:Es; cbn zeta.
  - pose proof (proj1 (Hi _ _) Es) as Hl. rewrite alter_keys.
    2: { intros a Ha. rewrite Ha in Hl. rewrite own_address_key. by injection Hl. }
    split_and!; [|done| |].
    + apply Forall_alter; [done|]. intros a _ (Ha1 & Ha2 & Ha3 & Ha4 & Ha5). apply clean_own, clean_primary. by split_and!.
    + apply Forall_lookup. intros j a Ha Hk'. destruct (decide (i = j)) as [<-|Hij].
      * rewrite list_lookup_alter_eq in Ha. apply fmap_Some in Ha as (b & _ & ->). unfold own_address. by destruct (_ && _).
      * rewrite list_lookup_alter_ne in Ha by done.
        assert (Hj : seen !! norm ip = Some j) by (apply Hi; rewrite Ha; cbn; by rewrite Hk'). congruence.
    + intros k. split; [by left|]. intros [|<-]; [done|]. apply list_elem_of_lookup. exists i. by rewrite list_lookup_fmap.
  - assert (Hnot : norm ip ∉ address_key <$> l).
    { intros [i Hl]%list_elem_of_lookup. rewrite list_lookup_fmap in Hl. apply Hi in Hl. congruence. }
    split_and!.
    + apply Forall_cons. split; [|done]. split_and!; try done. unfold known_roles. cbn. set_solver.
    + cbn. apply NoDup_cons. by split.
    + apply Forall_cons. split; [done|]. apply Forall_forall. intros a Ha Hk. destruct Hnot. rewrite <- Hk. by apply list_elem_of_fmap_2.
    + intros k. cbn. rewrite elem_of_cons. unfold address_key at 1. cbn. naive_solver.
Qed.

Lemma demote_others_key ip a : address_key (demote_others unicode_lower ip a) = address_key a.
Proof. unfold demote_others. destruct (String.eqb _ _); [done|]. apply make_secondary_key. Qed.

Lemma install_legacy_spec deviceID ip seen l :
  indexed seen l → Forall (clean deviceID) l → TrimSpace ip = ip → ip ≠ "" →
  let out := install_legacy unicode_lower deviceID ip seen l in
  Forall (clean deviceID) out ∧ NoDup (address_key <$> out) ∧ Forall (legacy_shape ip) out ∧
  (∀ k, k ∈ address_key <$> out ↔ k ∈ address_key <$> l ∨ norm ip = k).
Proof.
  intros Hi Hc Ht Hne. destruct (place_legacy_spec deviceID ip seen l Hi Hc Ht Hne) as (H1 & H2 & H3 & H4). cbn zeta.
  unfold install_legacy. set (m := place_legacy _ _ _ _ _) in *.
  assert (Hk : address_key <$> (demote_others unicode_lower ip <$> m) = address_key <$> m).
  { rewrite <- list_fmap_compose. apply list_fmap_ext. intros ? a _. apply demote_others_key. }
  rewrite Hk. split_and!; [|done| |done]; apply Forall_fmap.
  - eapply Forall_impl; [exact H1|]. intros a Ha. cbn. unfold demote_others. destruct (String.eqb _ _); [done|]. by apply clean_secondary.
  - eapply Forall_impl; [exact H3|]. intros a Ha. unfold legacy_shape. cbn. rewrite demote_others_key. unfold demote_others. fold (address_key a).
    destruct (String.eqb_spec (address_key a) (norm ip)) as [E|E]; [by rewrite decide_True; [apply Ha|]|].
    rewrite decide_False by done. apply make_secondary_shape.
Qed.

(** ** The whole function *)

(** The values of a device before normalization. *)
Definition known_value (d : Device) (k : string) : Prop :=
  (∃ a, a ∈ dev_Addresses d ∧ TrimSpace (addr_Address a) ≠ "" ∧ address_key a = k) ∨ (TrimSpace (dev_IP d) ≠ "" ∧ norm (dev_IP d) = k).

Lemma normalize_legacy d :
  TrimSpace (dev_IP d) ≠ "" →
  ∃ l, N d = with_addresses (TrimSpace (dev_IP d)) l d ∧ normal_addresses (dev_ID d) (TrimSpace (dev_IP d)) l ∧
       StronglySorted le l ∧ ∀ k, k ∈ address_key <$> l ↔ known_value d k.
Proof.
  intros Hip. unfold NormalizeDeviceAddresses. set (ip := TrimSpace (dev_IP d)) in *.
  destruct (collect_spec (dev_ID d) (dev_Addresses d) ∅ [] indexed_empty ltac:(by apply Forall_nil)) as (H1 & H2 & H3).
  destruct (foldl _ _ _) as [seen l]. rewrite (proj2 (String.eqb_neq _ _) Hip). cbn [negb fst snd] in *.
  destruct (install_legacy_spec (dev_ID d) ip seen l H1 H2 (TrimSpace_idem _) Hip) as (H4 & H5 & H6 & H7).
  set (m := install_legacy _ _ _ _ _) in *. pose proof (merge_sort_Permutation le m) as Hperm.
  assert (Hs : StronglySorted le (merge_sort le m)) by (apply StronglySorted_merge_sort; apply _).
  assert (Hp : ∃ a, a ∈ m ∧ address_key a = norm ip).
  { pose proof (proj2 (H7 (norm ip)) (or_intror eq_refl)) as Hin. apply list_elem_of_fmap in Hin as (a & Hk & Ha). by exists a. }
  destruct (sorted_head _ Hs) as (h & t & Es & Hh).
  { destruct Hp as (a & Ha & Hk). exists a. rewrite Hperm. split; [done|]. rewrite Forall_forall in H6. specialize (H6 a Ha).
    unfold legacy_shape in H6. rewrite decide_True in H6 by done. apply H6. }
  rewrite Es in Hperm, Hs. rewrite <- Hperm in H4, H5, H6. apply Forall_cons in H6 as [H6h H6t]. unfold legacy_shape in H6h.
  destruct (decide (address_key h = norm ip)) as [Ek|]; [|by destruct H6h as [? _]; congruence]. destruct H6h as [Ea Hph].
  assert (Ht : Forall secondary_shape t).
  { cbn in H5. apply NoDup_cons in H5 as [H5 _]. apply Forall_forall. intros a Ha. rewrite Forall_forall in H6t. specialize (H6t a Ha).
    unfold legacy_shape in H6t. rewrite decide_False in H6t; [done|]. intros E. destruct H5. rewrite Ek, <- E. by apply list_elem_of_fmap_2. }
  exists (h :: t). split_and!; [|by split_and!|done|].
  - unfold sort_and_settle. rewrite Es, settle_fix by done. by rewrite Ea.
  - intros k. rewrite Hperm, H7, H3. unfold known_value. unfold ip at 1. rewrite norm_trim. cbn. set_solver.
Qed.

Lemma normalize_no_legacy d :
  TrimSpace (dev_IP d) = "" →
  let d' := N d in
  normal_addresses (dev_ID d) (dev_IP d') (dev_Addresses d') ∧ d' = with_addresses (dev_IP d') (dev_Addresses d') d ∧
  ∀ k, k ∈ address_key <$> dev_Addresses d' ↔ known_value d k.
Proof.
  intros Hip. unfold NormalizeDeviceAddresses.
  destruct (collect_spec (dev_ID d) (dev_Addresses d) ∅ [] indexed_empty ltac:(by apply Forall_nil)) as (H1 & H2 & H3).
  assert (Hv : ∀ k, known_value d k ↔ k ∈ address_key <$> (foldl (add_address unicode_lower (dev_ID d)) (∅, []) (dev_Addresses d)).2).
  { intros k. rewrite H3. unfold known_value. rewrite Hip. cbn. set_solver. }
  clear H3. destruct (foldl _ _ _) as [seen l]. rewrite Hip. cbn [fst snd negb String.eqb] in *.
  destruct l as [|b l]; [split_and!; [by split_and!; [|apply NoDup_nil_2|]|done|intros k; by rewrite Hv]|].
  set (i := default 0%nat (firstPrimaryAddressIndex unicode_lower (b :: l))).
  assert (Hi : is_Some ((b :: l) !! i)).
  { subst i. unfold firstPrimaryAddressIndex. destruct (list_find _ _) as [[j a]|] eqn:E; cbn; [|done].
    apply list_find_Some in E as [E _]. by rewrite E. }
  assert (Hk : address_key <$> alter make_primary i (b :: l) = address_key <$> b :: l) by (apply alter_keys; done).
  destruct (sort_and_settle_normal d (default "" (addr_Address <$> (b :: l) !! i)) (alter make_primary i (b :: l))) as (H4 & H5 & H6).
  - apply Forall_alter; [done|]. intros a _. apply clean_primary.
  - rewrite Hk. by eapply indexed_nodup.
  - destruct Hi as [a Ha]. exists (make_primary a). split; [|done]. apply list_elem_of_lookup. exists i. by rewrite list_lookup_alter_eq, Ha.
  - split_and!; [done..|]. intros k. rewrite Hv, H5, Hk. done.
Qed.


(** ** Fixed points *)

Lemma with_addresses_id d : with_addresses (dev_IP d) (dev_Addresses d) d = d.
Proof. by destruct d. Qed.

Lemma normal_fix d :
  TrimSpace (dev_IP d) = dev_IP d → normal_addresses (dev_ID d) (dev_IP d) (dev_Addresses d) → StronglySorted le (dev_Addresses d) → N d = d.
Proof.
  intros Ht (Hc & Hn & Hl) Hs. unfold NormalizeDeviceAddresses. rewrite Ht.
  destruct (collect_fix (dev_ID d) (dev_Addresses d) ∅ [] indexed_empty Hc Hn) as (seen & -> & Hi). cbn [app] in *.
  transitivity (with_addresses (dev_IP d) (dev_Addresses d) d); [|apply with_addresses_id]. destruct (dev_Addresses d) as [|a rest] eqn:El; [by rewrite Hl|]. destruct Hl as (Ea & Hp & Hr).
  pose proof (proj1 (Forall_cons _ _ _) Hc) as [(_ & Hne & _) _]. rewrite <- Ea, (proj2 (String.eqb_neq _ _) Hne). cbn [negb].
  assert (Hinst : install_legacy unicode_lower (dev_ID d) (addr_Address a) seen (a :: rest) = a :: rest).
  { unfold install_legacy, place_legacy. rewrite (proj2 (Hi _ 0%nat)) by done. cbn in Hn. apply NoDup_cons in Hn as [Hn _].
    apply Forall_cons in Hc as [Hca _]. cbn. f_equal.
    - assert (make_primary (a <| addr_Address := addr_Address a |>) = a) as -> by (transitivity (make_primary a); [by destruct a|by apply make_primary_fix]).
      rewrite own_address_fix by apply Hca. unfold demote_others. by rewrite String.eqb_refl.
    - rewrite <- (list_fmap_id rest) at 2. apply list_fmap_ext. intros i b Hb. unfold demote_others. cbn.
      destruct (String.eqb_spec (norm (addr_Address b)) (norm (addr_Address a))) as [E|_]; [done|].
      apply make_secondary_fix. by eapply Forall_lookup_1 in Hr. }
  rewrite Hinst. unfold sort_and_settle. rewrite sorted_fix by done. by rewrite settle_fix.
Qed.

Lemma normalize_fix d : TrimSpace (dev_IP d) ≠ "" → N (N d) = N d.
Proof.
  intros Hip. destruct (normalize_legacy d Hip) as (l & -> & Hn & Hs & _). apply normal_fix; cbn; [apply TrimSpace_idem|done|done].
Qed.

(** Two addresses marked as primary, and the device has none. *)
Definition demo_address (s : string) (primary : bool) (priority : Z) : DeviceAddress :=
  {| addr_ID := 1; addr_DeviceID := 1; addr_Address := s; addr_Label := ""; addr_Role := "other"; addr_IsPrimary := primary;
     addr_Priority := priority; addr_ProbePorts := [] |}.
Definition two_primaries : Device :=
  with_addresses "" [demo_address "10.0.0.2" true 0; demo_address "10.0.0.3" true 9; demo_address "10.0.0.4" false 1] zeroDevice.

(** Normalizing is idempotent for every device that has an address of its own, and reaches a
    fixed point after two applications for every device.  Once is not always enough: when a
    device without an address of its own has two addresses marked as primary, the second of them
    is demoted after sorting and keeps its place, which the next application corrects. *)
Theorem addresses_idempotent :
  (∀ d, TrimSpace (dev_IP d) ≠ "" → N (N d) = N d) ∧ (∀ d, N (N (N d)) = N (N d)) ∧ N (N two_primaries) ≠ N two_primaries.
Proof.
  split_and!.
  - exact normalize_fix.
  - intros d. destruct (decide (TrimSpace (dev_IP (N d)) = "")) as [E|E]; [|by rewrite normalize_fix].
    assert (dev_Addresses (N d) = [] ∧ dev_IP (N d) = "") as [Hd Hi].
    { assert (Hn : normal_addresses (dev_ID d) (dev_IP (N d)) (dev_Addresses (N d))).
      { destruct (decide (TrimSpace (dev_IP d) = "")) as [Hip|Hip]; [by destruct (normalize_no_legacy d Hip)|].
        by destruct (normalize_legacy d Hip) as (l & -> & ? & _). }
      destruct Hn as (Hc & _ & Hl). destruct (dev_Addresses (N d)) as [|a l]; [done|]. destruct Hl as (Ea & _).
      apply Forall_cons in Hc as [(Ht & Hne & _) _]. by rewrite <- Ea, Ht in E. }
    f_equal. unfold NormalizeDeviceAddresses at 1. rewrite Hd, E. cbn. by rewrite <- Hd, <- Hi, with_addresses_id.
  - vm_compute. intros [=].
Qed.
End normal.

(** ** Probe ports *)

Definition valid_port (p : Z) : Prop := 1 <= p <= 65535.

Lemma port_test p : (p <? 1) || (65535 <? p) = false ↔ valid_port p.
Proof. unfold valid_port. rewrite orb_false_iff, !Z.ltb_ge. lia. Qed.

Lemma normalize_ports_spec seen ports :
  match normalize_ports seen ports with
  | Ok l => Forall valid_port ports ∧ NoDup l ∧ ∀ p, p ∈ l ↔ p ∈ ports ∧ p ∉ seen
  | Err e => ∃ p, p ∈ ports ∧ ¬ valid_port p ∧ e = port_error p
  end.
Proof.
  revert seen. induction ports as [|p ports IH]; intros seen; cbn [normalize_ports].
  { split_and!; [by apply Forall_nil|apply NoDup_nil_2|set_solver]. }
  destruct (_ || _) eqn:E.
  { exists p. split_and!; [left| |done]. rewrite <- port_test. congruence. }
  apply port_test in E. case_bool_decide as Hs; [specialize (IH seen)|specialize (IH ({[p]} ∪ seen))]; destruct (normalize_ports _ ports) as [l|e].
  - destruct IH as (H1 & H2 & H3). split_and!; [by apply Forall_cons|done|set_solver].
  - destruct IH as (q & ? & ?). exists q. split; [by right|done].
  - destruct IH as (H1 & H2 & H3). split_and!; [by apply Forall_cons|apply NoDup_cons; set_solver|].
    intros q. rewrite !elem_of_cons, H3. destruct (decide (q = p)); set_solver.
  - destruct IH as (q & ? & ?). exists q. split; [by right|done].
Qed.

Lemma normalize_ports_fix seen l : Forall valid_port l → NoDup l → (∀ p, p ∈ l → p ∉ seen) → normalize_ports seen l = Ok l.
Proof.
  intros Hv. revert seen. induction Hv as [|p l Hp Hv IH]; intros seen Hn Hd; [done|]. cbn [normalize_ports].
  rewrite (proj2 (port_test p) Hp). rewrite bool_decide_false by (apply Hd; left). apply NoDup_cons in Hn as [Hpl Hn].
  rewrite IH; [done|done|]. set_solver.
Qed.

Lemma parse_ports_Itoa quoted l : Forall valid_port l → parse_ports quoted (Itoa <$> l) = Ok l.
Proof.
  unfold valid_port. induction 1 as [|p l Hp _ IH]; [done|]. rewrite fmap_cons. cbn [parse_ports].
  rewrite TrimSpace_printable by apply Itoa_printable. rewrite (proj2 (String.eqb_neq _ _) (proj2 (Itoa_digits p ltac:(lia)))).
  rewrite Atoi_Itoa by (unfold in_int64, int64_min, int64_max; lia). by rewrite IH.
Qed.

Lemma parse_format quoted p l :
  Forall valid_port (p :: l) → NoDup (p :: l) → ParseProbePortsCSV quoted (Join (Itoa <$> p :: l) ",") = Ok (p :: l).
Proof.
  intros Hv Hn. unfold ParseProbePortsCSV.
  assert (Hd : Forall (λ s, Forall digit (bytes_of s)) (Itoa <$> p :: l)).
  { apply Forall_fmap. eapply Forall_impl; [exact Hv|]. intros q Hq. apply Itoa_digits. unfold valid_port in Hq. lia. }
  rewrite TrimSpace_printable.
  2: { apply bytes_of_Join_Forall; [constructor; [unfold printable, byte_of; cbn; lia|constructor]|].
       eapply Forall_impl; [exact Hd|]. intros s. apply digits_printable. }
  destruct (String.eqb_spec (Join (Itoa <$> p :: l) ",") "") as [E|_].
  { exfalso. pose proof (proj1 (Forall_cons _ _ _) Hv) as [Hp _]. destruct (Itoa_digits p) as [_ Hne]; [unfold valid_port in Hp; lia|].
    destruct l; [done|]. rewrite !fmap_cons in E. cbn [Join] in E. by destruct (Itoa p). }
  change "," with (String ","%char ""). rewrite Split_Join; [|done|].
  - rewrite parse_ports_Itoa by done. apply normalize_ports_fix; [done..|]. set_solver.
  - eapply Forall_impl; [exact Hd|]. intros s Hs. eapply Forall_impl; [exact Hs|]. intros b Hb. unfold digit, byte_of in *. cbn. lia.
Qed.

(** A list the prober can use. *)
Definition usable_ports (l : list Z) : Prop := l ≠ [] ∧ NoDup l ∧ Forall valid_port l.

Lemma default_ports_usable : usable_ports DefaultNetworkProbePorts.
Proof. split_and!; [done|apply (bool_decide_unpack _); by vm_compute|]. repeat constructor; unfold valid_port; lia. Qed.

Lemma normalized_usable ports p l : NormalizeProbePorts ports = Ok (p :: l) → usable_ports (p :: l).
Proof.
  unfold NormalizeProbePorts. intros E. pose proof (normalize_ports_spec ∅ ports) as H. rewrite E in H. destruct H as (H1 & H2 & H3).
  split_and!; [done|done|]. rewrite Forall_forall in *. intros q Hq. apply H1, H3, Hq.
Qed.

Lemma first_ports_usable lists : usable_ports (first_ports lists).
Proof.
  induction lists as [|ports lists IH]; [apply default_ports_usable|]. cbn [first_ports].
  destruct (NormalizeProbePorts ports) as [[|p l]|] eqn:E; [done| |done]. by eapply normalized_usable.
Qed.

(** A list of ports is accepted exactly if all are between 1 and 65535; normalizing keeps
    every port once, and writing it as a setting and reading it back gives the normalized list.
    Whatever is stored, the ports used for probing are a non-empty list of distinct valid ports,
    those of the first of address, device and setting that has any. *)
Theorem probe_ports_roundtrip quoted ports devicePorts value :
  match NormalizeProbePorts ports with
  | Ok normalized => Forall valid_port ports ∧ NoDup normalized ∧ (∀ p, p ∈ normalized ↔ p ∈ ports) ∧
                     ParseProbePortsCSV quoted (FormatProbePortsCSV ports) = Ok normalized ∧
                     (normalized ≠ [] → ResolveProbePorts ports devicePorts (CoerceNetworkProbePortsCSV quoted value) = normalized)
  | Err _ => ¬ Forall valid_port ports ∧ FormatProbePortsCSV ports = ""
  end ∧ usable_ports (CoerceNetworkProbePortsCSV quoted value) ∧
  usable_ports (ResolveProbePorts ports devicePorts (CoerceNetworkProbePortsCSV quoted value)).
Proof.
  split_and!; [| |apply first_ports_usable].
  - unfold FormatProbePortsCSV, ResolveProbePorts. cbn [first_ports]. pose proof (normalize_ports_spec ∅ ports) as H.
    fold (NormalizeProbePorts ports) in H. destruct (NormalizeProbePorts ports) as [l|e] eqn:E.
    + destruct H as (H1 & H2 & H3). split_and!; [done|done|set_solver| |by destruct l].
      destruct l as [|p l]; [done|]. by destruct (normalized_usable _ _ _ E) as (_ & ? & ?); apply parse_format.
    + destruct H as (p & Hp & Hv & _). split; [|done]. rewrite Forall_forall. intros Hall. by apply Hv, Hall.
  - unfold CoerceNetworkProbePortsCSV, ParseProbePortsCSV. destruct (String.eqb _ _); [apply default_ports_usable|].
    destruct (parse_ports _ _) as [l|]; [|apply default_ports_usable].
    destruct (NormalizeProbePorts l) as [[|p l']|] eqn:E; [apply default_ports_usable|by eapply normalized_usable|apply default_ports_usable].
Qed.
