(* ===== verification/Policy.v ===== *)
(** * Runtime settings, polling policy and worker budgets

    [internal/domain/settings.go], [settings_constraints.go], [internal/polling/policy.go] and
    [internal/pollingbudget/pollingbudget.go].
    A settings repository is an optional lookup function: [None] is the nil
    repository, a key mapped to [None] is any error of [Get].  [strconv.ParseFloat]
    is an argument of the definitions that parse a float setting. *)

From S2P Require Import Prelude GoLib Domain.

(** ** Setting keys *)

Definition SettingPollingInterval : string := "polling_interval_seconds".
Definition SettingSNMPWorkerPoolSize : string := "snmp_worker_pool_size".
Definition SettingSNMPWorkerPoolPerformance : string := "snmp_worker_pool_performance_size".
Definition SettingSNMPWorkerPoolOperational : string := "snmp_worker_pool_operational_size".
Definition SettingSNMPWorkerPoolStatic : string := "snmp_worker_pool_static_size".
Definition SettingSNMPTimeout : string := "snmp_timeout_seconds".
Definition SettingSNMPRetries : string := "snmp_retries".
Definition SettingSNMPPerformanceCounterTimeoutMillis : string := "snmp_performance_counter_timeout_ms".
Definition SettingSNMPPerformanceCounterRetries : string := "snmp_performance_counter_retries".
Definition SettingPollingEssentialWorkers : string := "polling_essential_workers".
Definition SettingPollingMaxWorkersPerSite : string := "polling_max_workers_per_site".
Definition SettingPollingMaxWorkersPerSubnet : string := "polling_max_workers_per_subnet".
Definition SettingPollingMaxWorkersPerDevice : string := "polling_max_workers_per_device".
Definition SettingPollingMaxInflightPerProfile : string := "polling_max_inflight_per_snmp_profile".
Definition SettingPollingEssentialTimeoutMillis : string := "polling_essential_timeout_ms".
Definition SettingPollingEssentialRetries : string := "polling_essential_retries".
Definition SettingPollingWebSocketCoalesceMS : string := "polling_websocket_coalesce_ms".
Definition SettingPollingCapacitySafetyMargin : string := "polling_capacity_safety_margin".
Definition SettingPollingForceOverCapacity : string := "polling_force_over_capacity".
Definition SettingInstanceBackupRetentionCount : string := "instance_backup_retention_count".
Definition SettingDeviceBackupRetentionCount : string := "device_backup_retention_count".
Definition SettingBridgePort : string := "bridge_port".

(** ** Constraints *)

Inductive SettingValueType := SettingValueTypeInteger | SettingValueTypeFloat.
#[export] Instance SettingValueType_eq_dec : EqDecision SettingValueType.
Proof. solve_decision. Defined.

Record SettingConstraint := {
  c_Type : SettingValueType;
  c_MinInt : Z; c_MaxInt : Z;
  c_MinFloat : float64; c_MaxFloat : float64;
  c_MinLabel : string; c_MaxLabel : string }.

Definition intConstraint (min max : Z) : SettingConstraint :=
  {| c_Type := SettingValueTypeInteger; c_MinInt := min; c_MaxInt := max;
     c_MinFloat := S754_zero false; c_MaxFloat := S754_zero false;
     c_MinLabel := Itoa min; c_MaxLabel := Itoa max |}.

Definition floatConstraint (min max : float64) (minLabel maxLabel : string) : SettingConstraint :=
  {| c_Type := SettingValueTypeFloat; c_MinInt := 0; c_MaxInt := 0;
     c_MinFloat := min; c_MaxFloat := max; c_MinLabel := minLabel; c_MaxLabel := maxLabel |}.

Definition SettingConstraints : list (string * SettingConstraint) :=
  [(SettingPollingInterval, intConstraint 5 3600);
   (SettingSNMPWorkerPoolSize, intConstraint 1 128);
   (SettingSNMPWorkerPoolPerformance, intConstraint 1 128);
   (SettingSNMPWorkerPoolOperational, intConstraint 1 128);
   (SettingSNMPWorkerPoolStatic, intConstraint 1 128);
   (SettingSNMPTimeout, intConstraint 1 120);
   (SettingSNMPRetries, intConstraint 0 10);
   (SettingSNMPPerformanceCounterTimeoutMillis, intConstraint 100 30000);
   (SettingSNMPPerformanceCounterRetries, intConstraint 0 10);
   (SettingPollingEssentialWorkers, intConstraint 1 256);
   (SettingPollingMaxWorkersPerSite, intConstraint 1 256);
   (SettingPollingMaxWorkersPerSubnet, intConstraint 1 256);
   (SettingPollingMaxWorkersPerDevice, intConstraint 1 32);
   (SettingPollingMaxInflightPerProfile, intConstraint 1 256);
   (SettingPollingEssentialTimeoutMillis, intConstraint 100 30000);
   (SettingPollingEssentialRetries, intConstraint 0 10);
   (SettingPollingWebSocketCoalesceMS, intConstraint 50 5000);
   (SettingPollingCapacitySafetyMargin,
      floatConstraint (f64_of_Z 1) (f64_of_Z 5) "1.0" "5.0");
   (SettingInstanceBackupRetentionCount, intConstraint 1 365);
   (SettingDeviceBackupRetentionCount, intConstraint 1 365);
   (SettingBridgePort, intConstraint 1 65535)].

Fixpoint constraint_lookup (key : string) (l : list (string * SettingConstraint)) : option SettingConstraint :=
  match l with
  | [] => None
  | (k, c) :: r => if String.eqb key k then Some c else constraint_lookup key r
  end.
Definition constraint_of (key : string) : option SettingConstraint := constraint_lookup key SettingConstraints.

Definition RangeString (c : SettingConstraint) : string := (c_MinLabel c +:+ " and " +:+ c_MaxLabel c)%string.

Definition NormalizeConstrainedSetting (ParseFloat : string → option float64) (key value : string) : result string :=
  match constraint_of key with
  | None => Ok value
  | Some c =>
    let trimmed := TrimSpace value in
    match c_Type c with
    | SettingValueTypeInteger =>
      match Atoi trimmed with
      | None => Err (key +:+ " must be a valid integer")%string
      | Some parsed =>
        if (parsed <? c_MinInt c) || (c_MaxInt c <? parsed)
        then Err (key +:+ " must be between " +:+ RangeString c)%string
        else Ok (Itoa parsed)
      end
    | SettingValueTypeFloat =>
      match ParseFloat trimmed with
      | None => Err (key +:+ " must be a valid float")%string
      | Some parsed =>
        if f64_is_nan parsed || f64_is_inf parsed then Err (key +:+ " must be a valid float")%string
        else if f64_lt parsed (c_MinFloat c) || f64_lt (c_MaxFloat c) parsed
        then Err (key +:+ " must be between " +:+ RangeString c)%string
        else Ok trimmed
      end
    end
  end.

Definition CoerceConstrainedInt (key value : string) (fallback : Z) : Z :=
  match Atoi (TrimSpace value) with
  | None => fallback
  | Some parsed =>
    match constraint_of key with
    | None => parsed
    | Some c =>
      if bool_decide (c_Type c = SettingValueTypeInteger) then
        if parsed <? c_MinInt c then c_MinInt c
        else if c_MaxInt c <? parsed then c_MaxInt c
        else parsed
      else parsed
    end
  end.

Definition CoerceConstrainedFloat (ParseFloat : string → option float64) (key value : string) (fallback : float64)
  : float64 :=
  match ParseFloat (TrimSpace value) with
  | None => fallback
  | Some parsed =>
    if f64_is_nan parsed || f64_is_inf parsed then fallback
    else match constraint_of key with
    | None => parsed
    | Some c =>
      if bool_decide (c_Type c = SettingValueTypeFloat) then
        if f64_lt parsed (c_MinFloat c) then c_MinFloat c
        else if f64_lt (c_MaxFloat c) parsed then c_MaxFloat c
        else parsed
      else parsed
    end
  end.

(** ** Reading settings *)

Abbreviation SettingsGetter := (option (string → option string)) (only parsing).

(** [repo.Get(key)] on a possibly nil repository. *)
Definition repo_Get (repo : SettingsGetter) (key : string) : option string :=
  match repo with None => None | Some get => get key end.

Definition intSetting (repo : SettingsGetter) (key : string) (fallback : Z) : Z :=
  match repo_Get repo key with
  | None => fallback
  | Some value => CoerceConstrainedInt key value fallback
  end.

Definition durationMSSetting (repo : SettingsGetter) (key : string) (fallback : Duration) : Duration :=
  Duration_mul (intSetting repo key (Z.quot fallback Millisecond)) Millisecond.

Definition durationSecondsSetting (repo : SettingsGetter) (key : string) (fallback : Duration) : Duration :=
  Duration_mul (intSetting repo key (Z.quot fallback Second)) Second.

Definition floatSetting (ParseFloat : string → option float64) (repo : SettingsGetter) (key : string)
  (fallback : float64) : float64 :=
  match repo_Get repo key with
  | None => fallback
  | Some value => CoerceConstrainedFloat ParseFloat key value fallback
  end.

Definition boolSetting (repo : SettingsGetter) (key : string) (fallback : bool) : bool :=
  match repo_Get repo key with
  | None => fallback
  | Some value => match ParseBool (TrimSpace value) with None => fallback | Some b => b end
  end.

(** * Polling policy and worker budgets

    [internal/polling/policy.go] and [internal/pollingbudget/pollingbudget.go]. *)


(** ** internal/polling *)

Record TimeoutProfile := { tp_Timeout : Duration; tp_Retries : Z }.

Inductive WarningCode :=
| WarningIntervalBelowTimeoutWindow
| WarningEstimatedWorkersExceeded
| WarningBudgetExceedsGlobal.
#[export] Instance WarningCode_eq_dec : EqDecision WarningCode.
Proof. solve_decision. Defined.

Record CapacityWarning := { w_Code : WarningCode; w_Message : string }.

Record Policy := {
  EssentialWorkers : Z;
  MaxWorkersPerSite : Z;
  MaxWorkersPerSubnet : Z;
  MaxWorkersPerDevice : Z;
  MaxInflightPerProfile : Z;
  WebSocketCoalesce : Duration;
  SafetyMargin : float64;
  ForceOverCapacity : bool;
  DegradedRisk : bool;
  Timeouts : Lane → TimeoutProfile }.

Definition with_DegradedRisk (b : bool) (p : Policy) : Policy :=
  {| EssentialWorkers := EssentialWorkers p; MaxWorkersPerSite := MaxWorkersPerSite p;
     MaxWorkersPerSubnet := MaxWorkersPerSubnet p; MaxWorkersPerDevice := MaxWorkersPerDevice p;
     MaxInflightPerProfile := MaxInflightPerProfile p; WebSocketCoalesce := WebSocketCoalesce p;
     SafetyMargin := SafetyMargin p; ForceOverCapacity := ForceOverCapacity p;
     DegradedRisk := b; Timeouts := Timeouts p |}.

Definition EstimateRequiredWorkers (deviceCount : Z) (observedP95 shortestInterval : Duration) (margin : float64) : Z :=
  if (deviceCount <=? 0) || (observedP95 <=? 0) || (shortestInterval <=? 0) then 0
  else
    let margin := if f64_ge (f64_of_Z 0) margin then f64_of_Z 1 else margin in
    let pollsPerSecond := f64_div (f64_of_Z deviceCount) (Seconds shortestInterval) in
    f64_ceil (f64_mul (f64_mul pollsPerSecond (Seconds observedP95)) margin).

(** The policy record assembled from the settings, before any warning is computed. *)
Definition basePolicy (ParseFloat : string → option float64) (repo : SettingsGetter) : Policy :=
  let background := {| tp_Timeout := durationSecondsSetting repo SettingSNMPTimeout (5 * Second);
                       tp_Retries := intSetting repo SettingSNMPRetries 0 |} in
  let walkTimeout := if 2 * Second <? tp_Timeout background then 2 * Second else tp_Timeout background in
  let walks := {| tp_Timeout := durationMSSetting repo SettingSNMPPerformanceCounterTimeoutMillis walkTimeout;
                  tp_Retries := intSetting repo SettingSNMPPerformanceCounterRetries 0 |} in
  {| EssentialWorkers := intSetting repo SettingPollingEssentialWorkers 64;
     MaxWorkersPerSite := intSetting repo SettingPollingMaxWorkersPerSite 16;
     MaxWorkersPerSubnet := intSetting repo SettingPollingMaxWorkersPerSubnet 8;
     MaxWorkersPerDevice := intSetting repo SettingPollingMaxWorkersPerDevice 1;
     MaxInflightPerProfile := intSetting repo SettingPollingMaxInflightPerProfile 16;
     WebSocketCoalesce := durationMSSetting repo SettingPollingWebSocketCoalesceMS (500 * Millisecond);
     SafetyMargin := floatSetting ParseFloat repo SettingPollingCapacitySafetyMargin (f64_lit 15 1);
     ForceOverCapacity := boolSetting repo SettingPollingForceOverCapacity false;
     DegradedRisk := false;
     Timeouts := λ lane, match lane with
       | LaneEssential =>
         {| tp_Timeout := durationMSSetting repo SettingPollingEssentialTimeoutMillis (1200 * Millisecond);
            tp_Retries := intSetting repo SettingPollingEssentialRetries 1 |}
       | LaneBackground => background
       | LanePerformanceCounterWalks => walks
       | LaneBootstrap => {| tp_Timeout := 10 * Second; tp_Retries := 1 |}
       | LaneQuarantine => {| tp_Timeout := Second; tp_Retries := 0 |}
       | LaneNone => {| tp_Timeout := 0; tp_Retries := 0 |}
       end |}.

Definition PolicyFromSettings (ParseFloat : string → option float64) (repo : SettingsGetter) (deviceCount : Z)
  (observedP95 shortestInterval : Duration) : Policy * list CapacityWarning :=
  let policy := basePolicy ParseFloat repo in
  let essential := Timeouts policy LaneEssential in
  let timeoutWindow := Duration_mul (tp_Timeout essential) (tp_Retries essential + 1) in
  let w1 := if (0 <? shortestInterval) && (shortestInterval <=? timeoutWindow)
            then [{| w_Code := WarningIntervalBelowTimeoutWindow;
                     w_Message := "essential polling interval is not greater than timeout multiplied by attempts" |}]
            else [] in
  let requiredWorkers := EstimateRequiredWorkers deviceCount observedP95 shortestInterval (SafetyMargin policy) in
  let exceeded := EssentialWorkers policy <? requiredWorkers in
  let w2 := if exceeded
            then [{| w_Code := WarningEstimatedWorkersExceeded;
                     w_Message := "estimated essential worker demand exceeds configured workers" |}]
            else [] in
  let policy := if exceeded && negb (ForceOverCapacity policy) then with_DegradedRisk true policy else policy in
  let w3 := if (EssentialWorkers policy <? MaxWorkersPerSite policy)
               || (EssentialWorkers policy <? MaxWorkersPerSubnet policy)
               || (EssentialWorkers policy <? MaxInflightPerProfile policy)
            then [{| w_Code := WarningBudgetExceedsGlobal;
                     w_Message := "one or more isolation budgets exceed the global essential worker budget" |}]
            else [] in
  (policy, w1 ++ w2 ++ w3).

(** ** internal/pollingbudget *)

Abbreviation Budgets := (gmap VolatilityClass Z) (only parsing).

Definition defaultWorkerPoolSize : Z := 5.

Definition orderedVolatilityClasses : list VolatilityClass :=
  [VolatilityClassPerformance; VolatilityClassOperational; VolatilityClassStatic].

Definition legacyTotal (repo : SettingsGetter) : Z :=
  match repo_Get repo SettingSNMPWorkerPoolSize with
  | None => defaultWorkerPoolSize
  | Some value =>
    match Atoi (TrimSpace value) with
    | None => defaultWorkerPoolSize
    | Some parsed =>
      if parsed <=? 0 then defaultWorkerPoolSize
      else CoerceConstrainedInt SettingSNMPWorkerPoolSize value defaultWorkerPoolSize
    end
  end.

Definition readPositive (repo : SettingsGetter) (key : string) : option Z :=
  match repo_Get repo key with
  | None => None
  | Some value =>
    match Atoi (TrimSpace value) with
    | None => None
    | Some parsed => if parsed <=? 0 then None else Some (CoerceConstrainedInt key value 0)
    end
  end.

Definition budgets_of (perf oper stat : Z) : Budgets :=
  <[VolatilityClassPerformance := perf]>
    (<[VolatilityClassOperational := oper]> (<[VolatilityClassStatic := stat]> ∅)).

Definition defaultSplit (total : Z) : Budgets :=
  if total <=? 0 then budgets_of defaultWorkerPoolSize 0 0
  else if total =? 1 then budgets_of 1 0 0
  else if total =? 2 then budgets_of 1 1 0
  else budgets_of (total - 2) 1 1.

Definition override_budget (v : VolatilityClass) (o : option Z) (b : Budgets) : Budgets :=
  match o with Some x => <[v := x]> b | None => b end.

Definition Resolve (repo : SettingsGetter) : Budgets :=
  let budgets := defaultSplit (legacyTotal repo) in
  match repo with
  | None => budgets
  | Some _ =>
    override_budget VolatilityClassStatic (readPositive repo SettingSNMPWorkerPoolStatic)
      (override_budget VolatilityClassOperational (readPositive repo SettingSNMPWorkerPoolOperational)
        (override_budget VolatilityClassPerformance (readPositive repo SettingSNMPWorkerPoolPerformance) budgets))
  end.

Definition Sum (budgets : Budgets) : Z :=
  let total := foldl (λ acc v, if 0 <? budgets.[v] then acc + budgets.[v] else acc) 0 orderedVolatilityClasses in
  if total <=? 0 then defaultWorkerPoolSize else total.

Definition Total (repo : SettingsGetter) : Z := Sum (Resolve repo).

(** [for remaining > 0 && clamped[v] < budgets[v] { clamped[v]++; remaining-- }] *)
Fixpoint fill_class (fuel : nat) (v : VolatilityClass) (budget : Z) (st : Budgets * Z) : Budgets * Z :=
  match fuel with
  | O => st
  | S fuel' =>
    let '(clamped, remaining) := st in
    if (0 <? remaining) && (clamped.[v] <? budget)
    then fill_class fuel' v budget (<[v := clamped.[v] + 1]> clamped, remaining - 1)
    else st
  end.

(** The loops of [Clamp] that set entries of the map. *)
Definition copy_budgets (budgets : Budgets) : Budgets :=
  foldl (λ m v, <[v := budgets.[v]]> m) ∅ orderedVolatilityClasses.
Definition zero_budgets (vs : list VolatilityClass) (m : Budgets) : Budgets := foldl (λ m v, <[v := 0]> m) m vs.
Definition give_one (st : Budgets * Z) (v : VolatilityClass) : Budgets * Z :=
  let '(m, remaining) := st in if remaining =? 0 then (m, remaining) else (<[v := 1]> m, remaining - 1).
Definition fill_step (budgets : Budgets) (st : Budgets * Z) (v : VolatilityClass) : Budgets * Z :=
  fill_class (Z.to_nat (snd st)) v budgets.[v] st.

Definition Clamp (budgets : Budgets) (limit : Z) : Budgets :=
  let clamped := copy_budgets budgets in
  if limit <=? 0 then zero_budgets orderedVolatilityClasses clamped
  else if Sum clamped <=? limit then clamped
  else
    let active := filter (λ v, 0 < clamped.[v]) orderedVolatilityClasses in
    let st := foldl give_one (zero_budgets active clamped, limit) active in
    fst (foldl (fill_step budgets) st orderedVolatilityClasses).
