(* ===== verification/SettingsSpec.v ===== *)
(** * What settings, polling policy and worker budgets guarantee

    Properties of [internal/domain/settings_constraints.go], [internal/polling/policy.go]
    and [internal/pollingbudget]. *)

From S2P Require Import Prelude GoLib GoText Domain Policy.

(** ** Constrained settings *)

(** An integer constraint of the table, as a range. *)
Definition int_range (key : string) : option (Z * Z) :=
  match constraint_of key with
  | Some c => if bool_decide (c_Type c = SettingValueTypeInteger) then Some (c_MinInt c, c_MaxInt c) else None
  | None => None
  end.

Lemma constraint_lookup_Forall (P : string * SettingConstraint → Prop) key l c :
  Forall P l → constraint_lookup key l = Some c → P (key, c).
Proof.
  induction 1 as [|[k c'] l Hk _ IH]; [done|]. simpl. destruct (String.eqb_spec key k) as [->|]; [by intros [= ->]|done].
Qed.

(** Every range of the table is inhabited and fits an [int64] with room to spare. *)
Lemma int_range_bounds key lo hi : int_range key = Some (lo, hi) → 0 <= lo <= hi ∧ hi <= 65535.
Proof.
  unfold int_range. destruct (constraint_of key) as [c|] eqn:Hc; [|done]. case_bool_decide; [|done]. intros [= <- <-].
  revert H. pattern (key, c).
  assert (HF : Forall (λ kc, c_Type kc.2 = SettingValueTypeInteger → 0 <= c_MinInt kc.2 <= c_MaxInt kc.2 ∧ c_MaxInt kc.2 <= 65535) SettingConstraints)
    by (unfold SettingConstraints; repeat constructor; simpl; lia).
  exact (constraint_lookup_Forall _ key _ c HF Hc).
Qed.

Lemma coerce_range key value fallback lo hi :
  int_range key = Some (lo, hi) →
  CoerceConstrainedInt key value fallback =
    match Atoi (TrimSpace value) with None => fallback | Some parsed => Z.max lo (Z.min hi parsed) end.
Proof.
  intros Hr. pose proof (int_range_bounds _ _ _ Hr) as Hb. unfold int_range in Hr. unfold CoerceConstrainedInt.
  destruct (Atoi _) as [z|]; [|done]. destruct (constraint_of key) as [c|]; [|done].
  case_bool_decide; [|done]. simplify_eq. crush_cases.
Qed.

Lemma intSetting_range repo key fallback lo hi :
  int_range key = Some (lo, hi) → lo <= fallback <= hi → lo <= intSetting repo key fallback <= hi.
Proof.
  intros Hr Hf. pose proof (int_range_bounds _ _ _ Hr). unfold intSetting. destruct (repo_Get repo key) as [v|]; [|done].
  rewrite (coerce_range _ _ _ _ _ Hr). destruct (Atoi _); lia.
Qed.

Lemma duration_range repo key fallback unit lo hi :
  int_range key = Some (lo, hi) → lo <= Z.quot fallback unit <= hi → 0 < unit <= Second →
  lo * unit <= Duration_mul (intSetting repo key (Z.quot fallback unit)) unit <= hi * unit.
Proof.
  intros Hr Hf Hu. pose proof (intSetting_range repo _ _ _ _ Hr Hf). pose proof (int_range_bounds _ _ _ Hr).
  unfold Duration_mul. rewrite int64_wrap_id; [nia|].
  unfold in_int64, int64_min, int64_max, Second in *. nia.
Qed.

(** What the API accepts and stores is what the backend later reads: the value stored for an
    integer setting is in the range, storing it again changes nothing, and the reader finds
    the number the user typed, whatever its fallback. *)
Lemma normalize_coerce ParseFloat key value stored lo hi :
  int_range key = Some (lo, hi) → NormalizeConstrainedSetting ParseFloat key value = Ok stored →
  ∃ n, Atoi (TrimSpace value) = Some n ∧ lo <= n <= hi ∧
    NormalizeConstrainedSetting ParseFloat key stored = Ok stored ∧
    ∀ fallback, CoerceConstrainedInt key stored fallback = n ∧ CoerceConstrainedInt key value fallback = n.
Proof.
  intros Hr. pose proof (int_range_bounds _ _ _ Hr) as Hb.
  setoid_rewrite (λ v f, coerce_range key v f lo hi Hr). unfold int_range in Hr. unfold NormalizeConstrainedSetting.
  destruct (constraint_of key) as [c|]; [|done]. case_bool_decide as Ht; [|done]. rewrite Ht. simplify_eq.
  destruct (Atoi (TrimSpace value)) as [n|]; [|done]. destruct (_ || _) eqn:E; [done|]. to_prop. intros [= <-].
  exists n. rewrite Atoi_TrimSpace_Itoa by (unfold in_int64, int64_min, int64_max; lia).
  rewrite (proj2 (Z.ltb_ge _ _)), (proj2 (Z.ltb_ge _ _)) by lia. split_and!; try done. intros f. split; lia.
Qed.

(** ** Budgets *)

Lemma map_get_insert_eq {K} `{Countable K} (m : gmap K Z) k v : (<[k := v]> m).[k] = v.
Proof. unfold map_get. by rewrite lookup_insert_eq. Qed.

Lemma map_get_insert_ne {K} `{Countable K} (m : gmap K Z) k k' v : k ≠ k' → (<[k := v]> m).[k'] = m.[k'].
Proof. intros. unfold map_get. by rewrite lookup_insert_ne. Qed.

Ltac get_simpl := repeat (rewrite map_get_insert_eq || rewrite map_get_insert_ne by done).

(** The three budgets as the code reads them. *)
Definition budget3 (b : Budgets) (p o s : Z) : Prop :=
  b.[VolatilityClassPerformance] = p ∧ b.[VolatilityClassOperational] = o ∧ b.[VolatilityClassStatic] = s.

(** What a class that still wants [want] gets out of a rest of [r]. *)
Definition give (r want : Z) : Z := Z.max 0 (Z.min r want).

Lemma fill_class_spec fuel v budget m r :
  0 <= r → (Z.to_nat r <= fuel)%nat →
  let k := give r (budget - m.[v]) in
  ∃ m', fill_class fuel v budget (m, r) = (m', r - k) ∧ m'.[v] = m.[v] + k ∧ ∀ v', v' ≠ v → m'.[v'] = m.[v'].
Proof.
  unfold give. revert m r. induction fuel as [|fuel IH]; intros m r Hr Hf.
  - exists m. assert (r = 0) as -> by lia. simpl. split_and!; [f_equal|..]; try done; lia.
  - simpl. destruct (_ && _) eqn:E.
    + to_prop. destruct (IH (<[v := m.[v] + 1]> m) (r - 1)) as (m' & -> & Hv & Hne); [lia..|].
      exists m'. rewrite map_get_insert_eq in *. split_and!; [f_equal; lia|lia|].
      intros v' Hv'. rewrite Hne by done. by apply map_get_insert_ne.
    + exists m. replace (Z.max 0 _) with 0; [split_and!; [f_equal; lia|lia|done]|].
      apply andb_false_iff in E as [E|E]; to_prop; lia.
Qed.

Lemma fill_all b m r p o s x y z :
  0 <= r → budget3 b p o s → budget3 m x y z →
  let k1 := give r (p - x) in let k2 := give (r - k1) (o - y) in let k3 := give (r - k1 - k2) (s - z) in
  budget3 (fst (foldl (fill_step b) (m, r) orderedVolatilityClasses))
          (x + k1) (y + k2) (z + k3).
Proof.
  intros Hr (Hp & Ho & Hs) (Hx & Hy & Hz) k1 k2 k3. unfold orderedVolatilityClasses, fill_step. cbn [foldl snd].
  destruct (fill_class_spec (Z.to_nat r) VolatilityClassPerformance b.[VolatilityClassPerformance] m r) as (m1 & -> & H1 & N1); [lia..|].
  rewrite Hp, Hx in *. change (give r (p - x)) with k1. change (give r (p - x)) with k1 in H1. cbn [snd].
  assert (0 <= r - k1) by (unfold k1, give; lia).
  destruct (fill_class_spec (Z.to_nat (r - k1)) VolatilityClassOperational b.[VolatilityClassOperational] m1 (r - k1)) as (m2 & -> & H2 & N2); [lia..|].
  rewrite (N1 VolatilityClassOperational), Ho, Hy in * by done. change (give (r - k1) (o - y)) with k2.
  change (give (r - k1) (o - y)) with k2 in H2. cbn [snd]. assert (0 <= r - k1 - k2) by (unfold k2, give; lia).
  destruct (fill_class_spec (Z.to_nat (r - k1 - k2)) VolatilityClassStatic b.[VolatilityClassStatic] m2 (r - k1 - k2)) as (m3 & -> & H3 & N3); [lia..|].
  rewrite (N2 VolatilityClassStatic), (N1 VolatilityClassStatic), Hs, Hz in * by done.
  change (give (r - k1 - k2) (s - z)) with k3 in H3.
  cbn [fst]. split_and!; [rewrite N3, N2 by done; lia|rewrite N3 by done; lia|lia].
Qed.

Lemma fill_all' b m r p o s x y z A B C :
  0 <= r → budget3 b p o s → budget3 m x y z →
  A = x + give r (p - x) → B = y + give (r - give r (p - x)) (o - y) →
  C = z + give (r - give r (p - x) - give (r - give r (p - x)) (o - y)) (s - z) →
  budget3 (fst (foldl (fill_step b) (m, r) orderedVolatilityClasses)) A B C.
Proof. intros Hr Hb Hm -> -> ->. by apply fill_all. Qed.

(** [Clamp] in closed form: every class that asks for workers first gets one, in the order
    performance, operational, static, then the rest goes to the classes in that order. *)
Definition floor1 (r want : Z) : Z := if (0 <? want) && (0 <? r) then 1 else 0.

Definition clamp_values (p o s limit : Z) : Z * Z * Z :=
  let x := floor1 limit p in let y := floor1 (limit - x) o in let z := floor1 (limit - x - y) s in
  let r := limit - x - y - z in
  let k1 := give r (p - x) in let k2 := give (r - k1) (o - y) in let k3 := give (r - k1 - k2) (s - z) in
  (x + k1, y + k2, z + k3).

Lemma copy_budgets_get b p o s : budget3 b p o s → budget3 (copy_budgets b) p o s.
Proof. intros (<- & <- & <-). unfold budget3, copy_budgets, orderedVolatilityClasses. cbn [foldl]. split_and!; by get_simpl. Qed.

Lemma Sum_values b p o s : budget3 b p o s → 0 <= p → 0 <= o → 0 <= s → 0 < p + o + s → Sum b = p + o + s.
Proof.
  intros (Hp & Ho & Hs) ? ? ? ?. unfold Sum, orderedVolatilityClasses. cbn [foldl]. rewrite Hp, Ho, Hs.
  destruct (Z.ltb_spec 0 s), (Z.ltb_spec 0 o), (Z.ltb_spec 0 p); rewrite ?(proj2 (Z.leb_gt _ _)) by lia; lia.
Qed.

Lemma active_values b p o s :
  budget3 b p o s →
  filter (λ v, 0 < b.[v]) orderedVolatilityClasses =
    (if decide (0 < p) then [VolatilityClassPerformance] else []) ++
    (if decide (0 < o) then [VolatilityClassOperational] else []) ++ (if decide (0 < s) then [VolatilityClassStatic] else []).
Proof.
  intros (Hp & Ho & Hs). unfold orderedVolatilityClasses. rewrite !filter_cons, filter_nil, Hp, Ho, Hs. by repeat case_decide.
Qed.

Lemma Clamp_values b limit p o s :
  budget3 b p o s → 0 <= p → 0 <= o → 0 <= s → 0 < limit → limit < p + o + s →
  let '(x, y, z) := clamp_values p o s limit in budget3 (Clamp b limit) x y z.
Proof.
  intros Hb Hp Ho Hs Hl Hsum. unfold Clamp. rewrite (proj2 (Z.leb_gt _ _)) by lia.
  pose proof (copy_budgets_get _ _ _ _ Hb) as Hc. set (c := copy_budgets b) in *.
  rewrite (Sum_values _ _ _ _ Hc), (proj2 (Z.leb_gt _ _)) by lia.
  rewrite (active_values _ _ _ _ Hc).
  unfold clamp_values, floor1, zero_budgets, give_one.
  destruct (decide (0 < p)), (decide (0 < o)), (decide (0 < s)); cbn [foldl app];
    rewrite ?(proj2 (Z.ltb_lt 0 p)), ?(proj2 (Z.ltb_lt 0 o)), ?(proj2 (Z.ltb_lt 0 s)) by lia;
    rewrite ?(proj2 (Z.ltb_ge 0 p)), ?(proj2 (Z.ltb_ge 0 o)), ?(proj2 (Z.ltb_ge 0 s)) by lia; cbn [andb];
    rewrite ?(proj2 (Z.ltb_lt 0 limit)), ?(proj2 (Z.eqb_neq limit 0)) by lia.
  all: repeat match goal with |- context [if ?a - ?k =? 0 then _ else _] => destruct (Z.eqb_spec (a - k) 0) end; try lia.
  all: repeat match goal with |- context [0 <? ?a] => destruct (Z.ltb_spec 0 a); try lia end.
  all: destruct Hc as (C1 & C2 & C3); eapply fill_all'; [|exact Hb|split_and!; get_simpl; reflexivity|..];
    rewrite ?C1, ?C2, ?C3; first [lia | repeat (f_equal; try lia)].
Qed.

(** All workers of a budget. *)
Definition workers (b : Budgets) : Z := foldr (λ v n, b.[v] + n) 0 orderedVolatilityClasses.

Lemma workers_values b p o s : budget3 b p o s → workers b = p + o + s.
Proof. intros (Hp & Ho & Hs). unfold workers, orderedVolatilityClasses. cbn [foldr]. lia. Qed.

Lemma budget3_self b : budget3 b b.[VolatilityClassPerformance] b.[VolatilityClassOperational] b.[VolatilityClassStatic].
Proof. done. Qed.

(** When nothing has to be cut the budget is kept. *)
Lemma Clamp_keeps b limit p o s :
  budget3 b p o s → 0 <= p → 0 <= o → 0 <= s → 0 < limit → p + o + s <= limit → budget3 (Clamp b limit) p o s.
Proof.
  intros Hb Hp Ho Hs Hl Hsum. unfold Clamp. rewrite (proj2 (Z.leb_gt _ _)) by lia.
  pose proof (copy_budgets_get _ _ _ _ Hb) as Hc. destruct (decide (0 < p + o + s)) as [Hpos|Hzero].
  - rewrite (Sum_values _ _ _ _ Hc), (proj2 (Z.leb_le _ _)) by lia. done.
  - destruct (_ <=? limit); [done|]. rewrite (active_values _ _ _ _ Hc).
    rewrite !decide_False by lia. cbn [app foldl zero_budgets].
    eapply fill_all'; [|exact Hb|exact Hc|unfold give; lia..]. lia.
Qed.

Lemma clamp_values_spec p o s limit :
  0 <= p → 0 <= o → 0 <= s → 0 < limit → limit < p + o + s →
  let '(x, y, z) := clamp_values p o s limit in
  0 <= x <= p ∧ 0 <= y <= o ∧ 0 <= z <= s ∧ x + y + z = limit ∧
  (3 <= limit → (0 < p → 0 < x) ∧ (0 < o → 0 < y) ∧ (0 < s → 0 < z)).
Proof.
  intros Hp Ho Hs Hl Hsum. unfold clamp_values, floor1, give.
  destruct (Z.ltb_spec 0 p), (Z.ltb_spec 0 o), (Z.ltb_spec 0 s), (Z.ltb_spec 0 limit); cbn [andb]; try lia.
  all: repeat match goal with |- context [0 <? ?a] => destruct (Z.ltb_spec 0 a) end; lia.
Qed.

Lemma Clamp_spec b limit p o s :
  budget3 b p o s → 0 <= p → 0 <= o → 0 <= s → 0 < limit →
  ∃ x y z, budget3 (Clamp b limit) x y z ∧ 0 <= x <= p ∧ 0 <= y <= o ∧ 0 <= z <= s ∧
    x + y + z = Z.min limit (p + o + s) ∧ (3 <= limit → (0 < p → 0 < x) ∧ (0 < o → 0 < y) ∧ (0 < s → 0 < z)).
Proof.
  intros Hb Hp Ho Hs Hl. destruct (decide (limit < p + o + s)) as [Hcut|Hkeep].
  - pose proof (Clamp_values b limit p o s Hb Hp Ho Hs Hl Hcut) as HC.
    pose proof (clamp_values_spec p o s limit Hp Ho Hs Hl Hcut) as HV.
    destruct (clamp_values p o s limit) as [[x y] z]. exists x, y, z. rewrite Z.min_l by lia. tauto.
  - exists p, o, s. rewrite Z.min_r by lia. split; [apply Clamp_keeps; lia || done|]. lia.
Qed.

(** ** Worker budgets from the settings *)

Lemma legacyTotal_range repo : 1 <= legacyTotal repo <= 128.
Proof.
  unfold legacyTotal, defaultWorkerPoolSize. destruct (repo_Get _ _) as [v|]; [|lia].
  destruct (Atoi (TrimSpace v)) as [n|] eqn:Hn; [|lia]. destruct (_ <=? 0) eqn:E; [lia|]. to_prop.
  rewrite (coerce_range SettingSNMPWorkerPoolSize _ _ 1 128 eq_refl), Hn. lia.
Qed.

Lemma readPositive_range repo key lo hi n :
  int_range key = Some (lo, hi) → 1 <= lo → readPositive repo key = Some n → lo <= n <= hi.
Proof.
  intros Hr Hlo. pose proof (int_range_bounds _ _ _ Hr). unfold readPositive. destruct (repo_Get _ _) as [v|]; [|done].
  destruct (Atoi (TrimSpace v)) as [k|] eqn:Hk; [|done]. destruct (_ <=? 0); [done|]. intros [= <-].
  rewrite (coerce_range _ _ _ _ _ Hr), Hk. lia.
Qed.

Lemma override_get (P : Z → Prop) v v' o b :
  (∀ x, o = Some x → P x) → P b.[v'] → P (override_budget v o b).[v'].
Proof.
  intros Ho Hb. destruct o as [x|]; [|done]. simpl. destruct (decide (v = v')) as [->|Hne].
  - rewrite map_get_insert_eq. by apply Ho.
  - by rewrite map_get_insert_ne.
Qed.

Lemma defaultSplit_range total :
  1 <= total <= 128 →
  ∃ p o s, budget3 (defaultSplit total) p o s ∧ 1 <= p <= 128 ∧ 0 <= o <= 1 ∧ 0 <= s <= 1 ∧ p + o + s = total.
Proof.
  intros Ht. unfold defaultSplit, budgets_of. rewrite (proj2 (Z.leb_gt _ _)) by lia.
  destruct (Z.eqb_spec total 1); [|destruct (Z.eqb_spec total 2)]; eexists _, _, _; (split; [split_and!; get_simpl; reflexivity|lia]).
Qed.

(** The pool-size settings all range over 1..128. *)
Ltac pool_bounds :=
  intros x Hx;
  match type of Hx with readPositive ?r ?k = _ => pose proof (readPositive_range r k 1 128 x eq_refl ltac:(lia) Hx) end; lia.

Lemma Resolve_range repo v : v ∈ orderedVolatilityClasses → 0 <= (Resolve repo).[v] <= 128.
Proof.
  intros Hv. destruct (defaultSplit_range _ (legacyTotal_range repo)) as (p & o & s & (Hp & Ho & Hs) & ?).
  assert (Hd : 0 <= (defaultSplit (legacyTotal repo)).[v] <= 128).
  { repeat (apply elem_of_cons in Hv as [->|Hv]; [lia|]). by apply elem_of_nil in Hv. }
  unfold Resolve. destruct repo as [get|]; [|done].
  do 3 (apply (override_get (λ z, 0 <= z <= 128)); [pool_bounds|]). done.
Qed.

Lemma Resolve_performance repo : 1 <= (Resolve repo).[VolatilityClassPerformance] <= 128.
Proof.
  destruct (defaultSplit_range _ (legacyTotal_range repo)) as (p & o & s & (Hp & Ho & Hs) & ?).
  unfold Resolve. destruct repo as [get|]; [|lia].
  do 3 (apply (override_get (λ z, 1 <= z <= 128)); [pool_bounds|]). lia.
Qed.

(** ** Properties *)

(** What the settings API accepts is what the backend reads back.  A value accepted for
    an integer setting is a number in the range of the table; its stored form is accepted
    again unchanged; and every reader finds that number, whatever its fallback. *)
Theorem setting_round_trip ParseFloat key value stored lo hi :
  int_range key = Some (lo, hi) → NormalizeConstrainedSetting ParseFloat key value = Ok stored →
  ∃ n, Atoi (TrimSpace value) = Some n ∧ lo <= n <= hi ∧
    NormalizeConstrainedSetting ParseFloat key stored = Ok stored ∧
    ∀ repo fallback, repo key = Some stored → intSetting (Some repo) key fallback = n.
Proof.
  intros Hr Hn. destruct (normalize_coerce _ _ _ _ _ _ Hr Hn) as (n & A & B & C & D). exists n. split_and!; try done; try lia.
  intros repo fallback Hk. unfold intSetting. cbn [repo_Get]. rewrite Hk. apply D.
Qed.

Lemma setting_round_trip_witness :
  ∃ n, Atoi (TrimSpace " 0064 ") = Some n ∧ intSetting (Some (λ _, Some "64"%string)) SettingPollingEssentialWorkers 7 = n.
Proof.
  destruct (setting_round_trip (λ _, None) SettingPollingEssentialWorkers " 0064 " "64" 1 256 ltac:(reflexivity) ltac:(vm_compute; reflexivity))
    as (n & A & _ & _ & D). exists n. split; [exact A|]. apply D. reflexivity.
Defined.

(** Whatever is stored in the settings (nothing, garbage, numbers out of range), the
    polling policy stays within the documented bounds: worker limits, timeouts and retries
    of every lane, the coalescing window; no product of a count and a unit overflows. *)
Theorem policy_bounds ParseFloat repo :
  let p := basePolicy ParseFloat repo in
  1 <= EssentialWorkers p <= 256 ∧ 1 <= MaxWorkersPerSite p <= 256 ∧ 1 <= MaxWorkersPerSubnet p <= 256 ∧
  1 <= MaxWorkersPerDevice p <= 32 ∧ 1 <= MaxInflightPerProfile p <= 256 ∧
  50 * Millisecond <= WebSocketCoalesce p <= 5000 * Millisecond ∧
  100 * Millisecond <= tp_Timeout (Timeouts p LaneEssential) <= 30000 * Millisecond ∧
  Second <= tp_Timeout (Timeouts p LaneBackground) <= 120 * Second ∧
  100 * Millisecond <= tp_Timeout (Timeouts p LanePerformanceCounterWalks) <= 30000 * Millisecond ∧
  ∀ lane, 0 <= tp_Retries (Timeouts p lane) <= 10.
Proof.
  assert (Hb : 1 * Second <= durationSecondsSetting repo SettingSNMPTimeout (5 * Second) <= 120 * Second)
    by (apply (duration_range _ _ _ _ 1 120); [reflexivity|done|unfold Second; lia]).
  unfold basePolicy. cbv zeta. cbn [EssentialWorkers MaxWorkersPerSite MaxWorkersPerSubnet MaxWorkersPerDevice MaxInflightPerProfile WebSocketCoalesce Timeouts tp_Timeout tp_Retries].
  do 5 (split; [eapply intSetting_range; [reflexivity|lia]|]). do 2 (split; [eapply duration_range; [reflexivity|done|done]|]).
  split; [lia|]. split.
  - eapply duration_range; [reflexivity| |done].
    destruct (2 * Second <? durationSecondsSetting repo SettingSNMPTimeout (5 * Second)) eqn:E; [done|to_prop].
    unfold Second, Millisecond in *. rewrite Z.quot_div_nonneg by lia. split; [apply Z.div_le_lower_bound|apply Z.div_le_upper_bound]; lia.
  - intros []; cbn [tp_Retries]; try lia; (eapply intSetting_range; [reflexivity|lia]).
Qed.

(** Clamping worker budgets to a limit never grants more than asked, uses exactly the
    limit when more is asked for (and grants everything when not), and with a limit of at
    least three leaves no class that asked for workers without one. *)
Theorem clamp_fair b limit :
  (∀ v, v ∈ orderedVolatilityClasses → 0 <= b.[v]) → 0 < limit →
  (∀ v, v ∈ orderedVolatilityClasses → 0 <= (Clamp b limit).[v] <= b.[v]) ∧
  workers (Clamp b limit) = Z.min limit (workers b) ∧
  (3 <= limit → ∀ v, v ∈ orderedVolatilityClasses → 0 < b.[v] → 0 < (Clamp b limit).[v]).
Proof.
  intros Hb Hl. unfold orderedVolatilityClasses in Hb. rewrite <- Forall_forall, !Forall_cons in Hb. destruct Hb as (Hp & Ho & Hs & _).
  destruct (Clamp_spec b limit _ _ _ (budget3_self b) Hp Ho Hs Hl) as (x & y & z & Hc & Hx & Hy & Hz & Hsum & Hfair).
  rewrite (workers_values _ _ _ _ Hc), (workers_values _ _ _ _ (budget3_self b)). destruct Hc as (C1 & C2 & C3).
  split_and!; [|done|intros H3]; unfold orderedVolatilityClasses; rewrite <- Forall_forall, !Forall_cons, Forall_nil, C1, C2, C3; [tauto|].
  specialize (Hfair H3). tauto.
Qed.

Lemma clamp_fair_witness :
  workers (Clamp (budgets_of 100 20 8) 10) = 10 ∧ 0 < (Clamp (budgets_of 100 20 8) 10).[VolatilityClassStatic].
Proof.
  destruct (clamp_fair (budgets_of 100 20 8) 10) as (_ & A & C).
  - unfold orderedVolatilityClasses. rewrite <- Forall_forall. repeat (apply Forall_cons; split; [vm_compute; discriminate|]). apply Forall_nil. exact I.
  - lia.
  - split; [etransitivity; [exact A|vm_compute; reflexivity]|]. apply C; [lia| |vm_compute; reflexivity].
    unfold orderedVolatilityClasses. right; right; left.
Defined.

(** The worker budgets resolved from the settings are always usable: the performance
    class has between 1 and 128 workers, the other classes at most 128 and never a negative
    number, and the total the pools are built with lies between 1 and 384. *)
Theorem budgets_usable repo :
  1 <= (Resolve repo).[VolatilityClassPerformance] <= 128 ∧
  (∀ v, v ∈ orderedVolatilityClasses → 0 <= (Resolve repo).[v] <= 128) ∧ 1 <= Total repo <= 384.
Proof.
  pose proof (Resolve_performance repo) as Hp. split_and!; [lia|lia|apply Resolve_range|..]; unfold Total.
  all: pose proof (Resolve_range repo VolatilityClassOperational ltac:(by right; left)) as Ho;
    pose proof (Resolve_range repo VolatilityClassStatic ltac:(by right; right; left)) as Hs;
    rewrite (Sum_values _ _ _ _ (budget3_self _)) by lia; lia.
Qed.

(** A small shared pool starves the static class: with the pool size set to 1 or 2 and
    no per-class setting, the split gives the static class no worker at all. *)
Theorem small_pool_starves_static n :
  n = 1 ∨ n = 2 →
  (Resolve (Some (λ key, if String.eqb key SettingSNMPWorkerPoolSize then Some (Itoa n) else None))).[VolatilityClassStatic] = 0.
Proof. intros [->| ->]; vm_compute; reflexivity. Qed.

Lemma small_pool_starves_static_witness :
  (Resolve (Some (λ key, if String.eqb key SettingSNMPWorkerPoolSize then Some (Itoa 2) else None))).[VolatilityClassStatic] = 0.
Proof. apply small_pool_starves_static. right. reflexivity. Defined.

(** Capacity warnings say exactly what is wrong.  The policy is at degraded risk if and
    only if the estimated demand exceeds the essential workers and the operator did not
    force it; each of the three warnings is given if and only if its condition holds. *)
Theorem policy_warnings_exact ParseFloat repo deviceCount observedP95 shortestInterval :
  let base := basePolicy ParseFloat repo in
  let '(p, ws) := PolicyFromSettings ParseFloat repo deviceCount observedP95 shortestInterval in
  let demand := EstimateRequiredWorkers deviceCount observedP95 shortestInterval (SafetyMargin base) in
  let window := Duration_mul (tp_Timeout (Timeouts base LaneEssential)) (tp_Retries (Timeouts base LaneEssential) + 1) in
  (DegradedRisk p = true ↔ EssentialWorkers base < demand ∧ ForceOverCapacity base = false) ∧
  (WarningIntervalBelowTimeoutWindow ∈ (w_Code <$> ws) ↔ 0 < shortestInterval <= window) ∧
  (WarningEstimatedWorkersExceeded ∈ (w_Code <$> ws) ↔ EssentialWorkers base < demand) ∧
  (WarningBudgetExceedsGlobal ∈ (w_Code <$> ws) ↔
     EssentialWorkers base < Z.max (MaxWorkersPerSite base) (Z.max (MaxWorkersPerSubnet base) (MaxInflightPerProfile base))).
Proof.
  intros base. unfold PolicyFromSettings. fold base. set (demand := EstimateRequiredWorkers _ _ _ _).
  assert (Hbase : DegradedRisk base = false) by reflexivity.
  set (window := Duration_mul _ _). set (p := if (EssentialWorkers base <? demand) && negb (ForceOverCapacity base) then with_DegradedRisk true base else base).
  assert (Ep : EssentialWorkers p = EssentialWorkers base ∧ MaxWorkersPerSite p = MaxWorkersPerSite base ∧
    MaxWorkersPerSubnet p = MaxWorkersPerSubnet base ∧ MaxInflightPerProfile p = MaxInflightPerProfile base) by (subst p; by destruct (_ && _)).
  destruct Ep as (-> & -> & -> & ->). rewrite !fmap_app, !elem_of_app.
  assert (Hw : ∀ (b : bool) c c' m, c ∈ (w_Code <$> (if b then [{| w_Code := c'; w_Message := m |}] else [])) ↔ b = true ∧ c = c').
  { intros [] c c' m; simpl; [rewrite list_elem_of_singleton|rewrite elem_of_nil]; naive_solver. }
  rewrite !Hw, orb_true_iff, orb_true_iff, andb_true_iff, !Z.ltb_lt, Z.leb_le. split_and!.
  - subst p. destruct (EssentialWorkers base <? demand) eqn:E1, (ForceOverCapacity base) eqn:E2; to_prop;
      cbn [andb negb DegradedRisk with_DegradedRisk]; rewrite ?Hbase; intuition (done || lia).
  - intuition (done || lia).
  - intuition (done || lia).
  - intuition (done || lia).
Qed.
