(* ===== verification/GoHeap.v ===== *)
(** * container/heap

    The algorithms of Go's [container/heap] over its [heap.Interface], and their
    correctness for every implementation whose [Less] and [Swap] act on a list view
    ordered by a strict weak order.  [i := (j - 1) / 2] on Go integers is the same as
    on [nat] here: at [j = 0] both give [0] and the loop stops on [i == j]. *)

From S2P Require Import Prelude.
#[local] Open Scope nat_scope.

Class HeapInterface (S : Type) := {
  h_Len : S → nat;
  h_Less : S → nat → nat → bool;
  h_Swap : nat → nat → S → S }.

Definition parent (j : nat) : nat := (j - 1) / 2.

Section algorithms.
Context {S : Type} `{HeapInterface S}.

Fixpoint up_loop (fuel : nat) (j : nat) (s : S) : S :=
  match fuel with
  | O => s
  | Datatypes.S fuel' =>
    let i := parent j in
    if (i =? j) || negb (h_Less s j i) then s else up_loop fuel' i (h_Swap i j s)
  end.

(** Each round moves to the parent, so [j + 1] rounds are enough. *)
Definition up (j : nat) (s : S) : S := up_loop (Datatypes.S j) j s.

Fixpoint down_loop (fuel : nat) (i n : nat) (s : S) : S * nat :=
  match fuel with
  | O => (s, i)
  | Datatypes.S fuel' =>
    let j1 := 2 * i + 1 in
    if n <=? j1 then (s, i)
    else
      let j2 := j1 + 1 in
      let j := if (j2 <? n) && h_Less s j2 j1 then j2 else j1 in
      if negb (h_Less s j i) then (s, i) else down_loop fuel' j n (h_Swap i j s)
  end.

(** Each round moves to a child, so [n] rounds are enough. *)
Definition down (i0 n : nat) (s : S) : S * bool :=
  let '(s', i) := down_loop (Datatypes.S n) i0 n s in (s', i0 <? i).

Definition Fix (i : nat) (s : S) : S :=
  let '(s', moved) := down i (h_Len s) s in
  if moved then s' else up i s'.

(** [heap.Remove] up to the final [h.Pop()]: the element is moved to the last slot. *)
Definition RemoveToLast (i : nat) (s : S) : S :=
  let n := h_Len s - 1 in
  if n =? i then s
  else
    let '(s', moved) := down i n (h_Swap i n s) in
    if moved then s' else up i s'.

(** [heap.Pop] up to the final [h.Pop()]. *)
Definition PopToLast (s : S) : S :=
  let n := h_Len s - 1 in
  fst (down 0 n (h_Swap 0 n s)).
End algorithms.

(** ** Strict weak orders and heap order *)

Class StrictWeakOrder {A} (lt : A → A → bool) := {
  swo_irrefl a : lt a a = false;
  swo_nlt_trans a b c : lt a b = false → lt b c = false → lt a c = false;
  swo_asym a b : lt a b = true → lt b a = false }.

Definition lswap {A} (i j : nat) (l : list A) : list A :=
  match l !! i, l !! j with
  | Some a, Some b => <[j := a]> (<[i := b]> l)
  | _, _ => l
  end.

Section lswap.
Context {A : Type}.
Implicit Types l : list A.

Lemma length_lswap i j l : length (lswap i j l) = length l.
Proof. unfold lswap. destruct (l !! i), (l !! j); by rewrite ?length_insert. Qed.

Lemma lswap_lookup i j k l :
  i < length l → j < length l →
  lswap i j l !! k = if decide (k = i) then l !! j else if decide (k = j) then l !! i else l !! k.
Proof.
  intros Hi Hj. unfold lswap.
  destruct (lookup_lt_is_Some_2 l i Hi) as [a Ha], (lookup_lt_is_Some_2 l j Hj) as [b Hb].
  rewrite Ha, Hb. destruct (decide (k = j)) as [->|Hkj].
  - rewrite list_lookup_insert_eq by (rewrite length_insert; lia).
    case_decide; simplify_eq; congruence.
  - rewrite list_lookup_insert_ne by done. case_decide as E.
    + subst. by rewrite list_lookup_insert_eq.
    + by rewrite list_lookup_insert_ne.
Qed.

Lemma lswap_perm i j l : i < length l → j < length l → lswap i j l ≡ₚ l.
Proof.
  intros Hi Hj. apply Permutation_inj. split; [apply length_lswap|].
  exists (λ k, if decide (k = i) then j else if decide (k = j) then i else k). split.
  - intros x y. repeat case_decide; lia.
  - intros k. rewrite lswap_lookup by done. repeat case_decide; congruence.
Qed.
End lswap.

(** ** Correctness against a list view *)

Class HeapView (S : Type) `{HeapInterface S} {A} (lt : A → A → bool)
    (view : S → list A) (ok : S → Prop) := {
  hv_len s : ok s → h_Len s = length (view s);
  hv_less s i j a b : ok s → view s !! i = Some a → view s !! j = Some b → h_Less s i j = lt a b;
  hv_swap_ok s i j : ok s → i < length (view s) → j < length (view s) → ok (h_Swap i j s);
  hv_swap_view s i j : ok s → i < length (view s) → j < length (view s) →
    view (h_Swap i j s) = lswap i j (view s) }.

Section order.
Context {A : Type} (lt : A → A → bool) `{!StrictWeakOrder lt}.
Implicit Types v : list A.

(** The element at [p] does not come after the element at [k]. *)
Definition le_at v (p k : nat) : Prop :=
  ∀ a b, v !! p = Some a → v !! k = Some b → lt b a = false.

(** Heap order among the first [n] slots. *)
Definition heap_upto (n : nat) v : Prop := ∀ k, 0 < k < n → le_at v (parent k) k.

(** Heap order broken at most between [j] and its parent. *)
Definition up_hole (n j : nat) v : Prop :=
  (∀ k, 0 < k < n → k ≠ j → le_at v (parent k) k) ∧
  (∀ k, 0 < k < n → parent k = j → 0 < j → le_at v (parent j) k).

(** Heap order broken at most on the edges of [i]. *)
Definition down_hole (n i : nat) v : Prop :=
  (∀ k, 0 < k < n → k ≠ i → parent k ≠ i → le_at v (parent k) k) ∧
  (∀ k, 0 < k < n → parent k = i → 0 < i → le_at v (parent i) k).

Lemma parent_lt k : 0 < k → parent k < k.
Proof. unfold parent. intros. apply Nat.Div0.div_lt_upper_bound. lia. Qed.

Lemma parent_children k i : 0 < k → parent k = i ↔ k = 2 * i + 1 ∨ k = 2 * i + 2.
Proof.
  unfold parent. intros. pose proof (Nat.div_mod_eq (k - 1) 2).
  pose proof (Nat.mod_upper_bound (k - 1) 2). lia.
Qed.

Lemma le_at_trans v a b c : b < length v → le_at v a b → le_at v b c → le_at v a c.
Proof.
  intros Hb H1 H2 x z Hx Hz. destruct (lookup_lt_is_Some_2 v b Hb) as [y Hy].
  eapply swo_nlt_trans; [eapply H2|eapply H1]; eauto.
Qed.

Lemma le_at_swap v i j p k :
  i < length v → j < length v →
  le_at v (if decide (p = i) then j else if decide (p = j) then i else p)
          (if decide (k = i) then j else if decide (k = j) then i else k) →
  le_at (lswap i j v) p k.
Proof.
  intros Hi Hj Hle a b. rewrite !lswap_lookup by done.
  intros Ha Hb. apply Hle; repeat case_decide; congruence.
Qed.

Lemma up_hole_swap n j v :
  n ≤ length v → 0 < j < n → le_at v j (parent j) →
  up_hole n j v → up_hole n (parent j) (lswap (parent j) j v).
Proof.
  intros Hn Hj Hlt [H1 H2]. pose proof (parent_lt j ltac:(lia)) as Hpj.
  split.
  - intros k Hk Hki. pose proof (parent_lt k ltac:(lia)).
    apply le_at_swap; [lia..|]. repeat case_decide; try lia; simplify_eq; try done.
    + eapply (le_at_trans _ _ (parent j)); [lia|done|].
      replace (parent j) with (parent k) by done. apply H1; lia.
    + apply H2; lia.
    + apply H1; lia.
  - intros k Hk Hpk Hp0. pose proof (parent_lt (parent j) Hp0).
    apply le_at_swap; [lia..|]. repeat case_decide; try lia; simplify_eq.
    + apply H1; lia.
    + eapply (le_at_trans _ _ (parent j)); [lia|apply H1; lia|].
      replace (parent j) with (parent k) by done. apply H1; lia.
Qed.

Lemma down_hole_swap n i j v :
  n ≤ length v → i < n → 0 < j < n → parent j = i → le_at v j i →
  (∀ k, 0 < k < n → parent k = i → le_at v j k) →
  down_hole n i v → down_hole n j (lswap i j v) ∧ le_at (lswap i j v) (parent j) j.
Proof.
  intros Hn Hi Hj Hpj Hlt Hmin [H1 H2].
  pose proof (parent_lt j ltac:(lia)) as Hpj'.
  split; [split|].
  - intros k Hk Hkj Hpk. pose proof (parent_lt k ltac:(lia)).
    apply le_at_swap; [lia..|]. repeat case_decide; try lia; simplify_eq; try done.
    + by apply Hmin.
    + apply H2; lia.
    + apply H1; lia.
  - intros k Hk Hpk _. pose proof (parent_lt k ltac:(lia)).
    apply le_at_swap; [lia..|]. repeat case_decide; try lia; simplify_eq.
    apply H1; lia.
  - rewrite Hpj. apply le_at_swap; [lia..|]. repeat case_decide; try lia; simplify_eq; try done.
Qed.

Lemma heap_upto_head v n a k b :
  heap_upto n v → n ≤ length v → v !! 0 = Some a → k < n → v !! k = Some b → lt b a = false.
Proof.
  intros Hheap Hn Ha. revert b. induction k as [k IH] using lt_wf_ind. intros b Hk Hb.
  destruct (decide (k = 0)) as [->|Hk0]; [simplify_eq; apply swo_irrefl|].
  pose proof (parent_lt k ltac:(lia)) as Hp.
  destruct (lookup_lt_is_Some_2 v (parent k) ltac:(lia)) as [c Hc].
  eapply swo_nlt_trans; [eapply (Hheap k); eauto; lia|]. eapply IH; eauto; lia.
Qed.
End order.

Section correctness.
Context {S A : Type} `{HeapInterface S} (lt : A → A → bool) `{!StrictWeakOrder lt}.
Context (view : S → list A) (ok : S → Prop) `{!HeapView S lt view ok}.
Implicit Types s : S.

(** What every run of the algorithms keeps: the implementation invariant, and the
    elements up to reordering. *)
Definition shuffled (s s' : S) : Prop := ok s' ∧ view s' ≡ₚ view s.

Lemma shuffled_length s s' : shuffled s s' → length (view s') = length (view s).
Proof. intros [_ Hp]. by rewrite Hp. Qed.

Lemma swap_shuffled s i j :
  ok s → i < length (view s) → j < length (view s) → shuffled s (h_Swap i j s).
Proof.
  intros Hok Hi Hj. split; [by apply hv_swap_ok|].
  rewrite hv_swap_view by done. by apply lswap_perm.
Qed.

Lemma shuffled_trans s1 s2 s3 : shuffled s1 s2 → shuffled s2 s3 → shuffled s1 s3.
Proof. intros [_ H12] [? H23]. split; [done|]. by rewrite H23. Qed.

Lemma less_le_at s i j :
  ok s → i < length (view s) → j < length (view s) →
  (h_Less s i j = true → le_at lt (view s) i j) ∧ (h_Less s i j = false → le_at lt (view s) j i).
Proof.
  intros Hok Hi Hj.
  destruct (lookup_lt_is_Some_2 _ i Hi) as [a Ha], (lookup_lt_is_Some_2 _ j Hj) as [b Hb].
  rewrite (hv_less s i j a b) by done.
  split; intros Hl x y Hx Hy; simplify_eq; [by apply swo_asym|done].
Qed.

Lemma up_loop_spec fuel n j s :
  ok s → n ≤ length (view s) → j < n → j < fuel → up_hole lt n j (view s) →
  shuffled s (up_loop fuel j s) ∧ heap_upto lt n (view (up_loop fuel j s)) ∧
  (∀ k, j < k → view (up_loop fuel j s) !! k = view s !! k).
Proof.
  revert j s. induction fuel as [|fuel IH]; intros j s Hok Hn Hj Hf Hhole; [lia|].
  simpl. destruct (decide (j = 0)) as [->|Hj0].
  { simpl. split; [by split|]. split; [|done]. intros k Hk. apply Hhole; lia. }
  pose proof (parent_lt j ltac:(lia)) as Hp.
  destruct (Nat.eqb_spec (parent j) j); [lia|]. simpl.
  destruct (h_Less s j (parent j)) eqn:Hless; simpl.
  - apply less_le_at in Hless; [|done|lia..].
    assert (Hv := hv_swap_view s (parent j) j Hok ltac:(lia) ltac:(lia)).
    destruct (IH (parent j) (h_Swap (parent j) j s)) as (Hs & Hh & Hr).
    + apply hv_swap_ok; [done|lia..].
    + rewrite Hv, length_lswap. lia.
    + lia.
    + lia.
    + rewrite Hv. apply up_hole_swap; [done|lia|lia|done|done].
    + split; [|split; [done|]].
      * eapply shuffled_trans; [|done]. apply swap_shuffled; [done|lia..].
      * intros k Hk. rewrite Hr, Hv by lia. rewrite lswap_lookup by lia. by rewrite !decide_False by lia.
  - apply less_le_at in Hless; [|done|lia..].
    split; [by split|]. split; [|done]. intros k Hk.
    destruct (decide (k = j)) as [->|]; [done|]. apply Hhole; lia.
Qed.

Lemma up_spec n j s :
  ok s → n ≤ length (view s) → j < n → up_hole lt n j (view s) →
  shuffled s (up j s) ∧ heap_upto lt n (view (up j s)) ∧
  (∀ k, j < k → view (up j s) !! k = view s !! k).
Proof. intros. apply up_loop_spec; auto with arith. Qed.

(** The child picked by [down] is minimal among the children of [i]. *)
Lemma down_child_min s i n (j := if (2 * i + 1 + 1 <? n) && h_Less s (2 * i + 1 + 1) (2 * i + 1)
                                 then 2 * i + 1 + 1 else 2 * i + 1) :
  ok s → n ≤ length (view s) → 2 * i + 1 < n →
  0 < j < n ∧ parent j = i ∧ i < j ∧ ∀ k, 0 < k < n → parent k = i → le_at lt (view s) j k.
Proof.
  intros Hok Hn Hc. subst j.
  assert (Hp : ∀ k, 0 < k → parent k = i ↔ k = 2 * i + 1 ∨ k = 2 * i + 2) by (intros; by apply parent_children).
  assert (HL : 2 * i + 1 + 1 < n → _) by (intros; apply (less_le_at s (2 * i + 1 + 1) (2 * i + 1) Hok); lia).
  destruct (Nat.ltb_spec (2 * i + 1 + 1) n); cbn [andb];
    [specialize (HL ltac:(done)); destruct (h_Less s (2 * i + 1 + 1) (2 * i + 1)) eqn:Hl|];
    (split; [lia|split; [apply Hp; lia|split; [lia|]]]);
    intros k Hk Hpk; apply Hp in Hpk as [-> | ->]; try lia;
    try (intros ????; simplify_eq; apply swo_irrefl; fail).
  - by apply HL.
  - replace (2 * i + 2) with (2 * i + 1 + 1) by lia. intros ????; simplify_eq; apply swo_irrefl.
  - replace (2 * i + 2) with (2 * i + 1 + 1) by lia. by apply HL.
Qed.

Lemma down_loop_spec fuel n i s :
  ok s → n ≤ length (view s) → i ≤ n → n ≤ fuel + i →
  down_hole lt n i (view s) → (0 < i → le_at lt (view s) (parent i) i) →
  ∃ s' i', down_loop fuel i n s = (s', i') ∧ i ≤ i' ∧ shuffled s s' ∧ heap_upto lt n (view s') ∧
  (∀ k, n ≤ k → view s' !! k = view s !! k).
Proof.
  revert i s. induction fuel as [|fuel IH]; intros i s Hok Hn Hi Hf Hhole Hup.
  { exists s, i. split_and!; try done. intros k Hk. destruct (decide (k = i)) as [->|]; [apply Hup; lia|].
    apply Hhole; [done..|]. pose proof (parent_lt k). lia. }
  cbn [down_loop]. destruct (Nat.leb_spec n (2 * i + 1)) as [Hc|Hc].
  { exists s, i. split_and!; try done. intros k Hk. destruct (decide (k = i)) as [->|]; [apply Hup; lia|].
    apply Hhole; [done..|]. rewrite parent_children; lia. }
  pose proof (down_child_min s i n Hok Hn Hc) as (Hj & Hpj & Hij & Hmin).
  set (j := if (2 * i + 1 + 1 <? n) && h_Less s (2 * i + 1 + 1) (2 * i + 1)
            then 2 * i + 1 + 1 else 2 * i + 1) in *. clearbody j.
  destruct (less_le_at s j i Hok ltac:(lia) ltac:(lia)) as [HT HF].
  destruct (h_Less s j i) eqn:Hless; simpl; [specialize (HT eq_refl) as Hlt|specialize (HF eq_refl) as Hge].
  - assert (Hv := hv_swap_view s i j Hok ltac:(lia) ltac:(lia)).
    destruct (down_hole_swap lt n i j (view s)) as [Hh' Hup']; [done|lia|done|done|done|done|done|].
    destruct (IH j (h_Swap i j s)) as (s' & i' & -> & ? & ? & ? & Hr).
    + apply hv_swap_ok; [done|lia..].
    + rewrite Hv, length_lswap. lia.
    + lia.
    + lia.
    + by rewrite Hv.
    + by rewrite Hv.
    + exists s', i'. split_and!; [done|lia| |done|].
      * eapply shuffled_trans; [|done]. apply swap_shuffled; [done|lia..].
      * intros k Hk. rewrite Hr, Hv by lia. rewrite lswap_lookup by lia. by rewrite !decide_False by lia.
  - exists s, i. split_and!; try done. intros k Hk.
    destruct (decide (k = i)) as [->|]; [apply Hup; lia|].
    destruct (decide (parent k = i)) as [E|]; [|by apply Hhole].
    rewrite E. eapply (le_at_trans lt _ _ j); [lia|done|by apply Hmin].
Qed.

(** [down] either restores the order (and moves), or leaves a hole for [up]. *)
Lemma down_spec n i s :
  ok s → n ≤ length (view s) → i < n → down_hole lt n i (view s) →
  ∃ s' moved, down i n s = (s', moved) ∧ shuffled s s' ∧
  (if moved then heap_upto lt n (view s') else s' = s ∧ up_hole lt n i (view s)) ∧
  (∀ k, n ≤ k → view s' !! k = view s !! k).
Proof.
  intros Hok Hn Hi Hhole. unfold down. cbn [down_loop].
  destruct (Nat.leb_spec n (2 * i + 1)) as [Hc|Hc].
  { exists s, false. rewrite Nat.ltb_irrefl. split; [done|]. split; [by split|].
    split; [split; [done|split; [|exact (proj2 Hhole)]]|done].
    intros k Hk Hki. apply Hhole; [done..|]. rewrite parent_children; lia. }
  pose proof (down_child_min s i n Hok Hn Hc) as (Hj & Hpj & Hij & Hmin).
  set (j := if (2 * i + 1 + 1 <? n) && h_Less s (2 * i + 1 + 1) (2 * i + 1)
            then 2 * i + 1 + 1 else 2 * i + 1) in *. clearbody j.
  destruct (less_le_at s j i Hok ltac:(lia) ltac:(lia)) as [HT HF].
  destruct (h_Less s j i) eqn:Hless; simpl; [specialize (HT eq_refl) as Hlt|specialize (HF eq_refl) as Hge].
  - assert (Hv := hv_swap_view s i j Hok ltac:(lia) ltac:(lia)).
    destruct (down_hole_swap lt n i j (view s)) as [Hh' Hup']; [done|lia|done|done|done|done|done|].
    destruct (down_loop_spec n n j (h_Swap i j s)) as (s' & i' & -> & ? & ? & ? & Hr).
    + apply hv_swap_ok; [done|lia..].
    + rewrite Hv, length_lswap. lia.
    + lia.
    + lia.
    + by rewrite Hv.
    + by rewrite Hv.
    + exists s', true. destruct (Nat.ltb_spec i i'); [|lia]. split_and!; try done.
      * eapply shuffled_trans; [|done]. apply swap_shuffled; [done|lia..].
      * intros k Hk. rewrite Hr, Hv by lia. rewrite lswap_lookup by lia. by rewrite !decide_False by lia.
  - exists s, false. rewrite Nat.ltb_irrefl. split; [done|]. split; [by split|].
    split; [split; [done|split; [|exact (proj2 Hhole)]]|done].
    intros k Hk Hki. destruct (decide (parent k = i)) as [E|]; [|by apply Hhole].
    rewrite E. eapply (le_at_trans lt _ _ j); [lia|done|by apply Hmin].
Qed.

(** [down] then [up] at the same index repairs any damage on the edges of that index. *)
Lemma down_up_spec n i s :
  ok s → n ≤ length (view s) → i < n → down_hole lt n i (view s) →
  let '(s1, moved) := down i n s in
  let s' := if moved then s1 else up i s1 in
  shuffled s s' ∧ heap_upto lt n (view s') ∧ (∀ k, n ≤ k → view s' !! k = view s !! k).
Proof.
  intros Hok Hn Hi Hhole. destruct (down_spec n i s) as (s1 & moved & -> & Hs & Hm & Hr); [done..|].
  destruct moved; [done|]. destruct Hm as [-> Hup].
  destruct (up_spec n i s) as (? & ? & Hr'); [done..|]. split_and!; [done..|].
  intros k Hk. apply Hr'. lia.
Qed.

Lemma Fix_spec i s :
  ok s → i < length (view s) → down_hole lt (length (view s)) i (view s) →
  shuffled s (Fix i s) ∧ heap_upto lt (length (view s)) (view (Fix i s)).
Proof.
  intros Hok Hi Hhole. unfold Fix. rewrite (hv_len s Hok).
  pose proof (down_up_spec (length (view s)) i s Hok ltac:(lia) Hi Hhole) as Hd.
  destruct (down i (length (view s)) s) as [s1 moved]. by destruct Hd as (? & ? & _).
Qed.

(** A swap of slot [i] with the last slot keeps the order of the others. *)
Lemma swap_last_hole i v :
  i < length v - 1 → heap_upto lt (length v) v → down_hole lt (length v - 1) i (lswap i (length v - 1) v).
Proof.
  intros Hi Hh. split.
  - intros k Hk Hki Hpk. pose proof (parent_lt k ltac:(lia)).
    apply le_at_swap; [lia..|]. repeat case_decide; try lia. apply Hh. lia.
  - intros k Hk Hpk Hi0. pose proof (parent_lt k ltac:(lia)). pose proof (parent_lt i Hi0).
    apply le_at_swap; [lia..|]. repeat case_decide; try lia.
    eapply (le_at_trans lt _ _ i); [lia|apply Hh; lia|]. rewrite <- Hpk. apply Hh. lia.
Qed.

Lemma RemoveToLast_spec i s x :
  ok s → heap_upto lt (length (view s)) (view s) → view s !! i = Some x →
  let s' := RemoveToLast i s in
  shuffled s s' ∧ heap_upto lt (length (view s) - 1) (view s') ∧ last (view s') = Some x.
Proof.
  intros Hok Hh Hx s'. subst s'. unfold RemoveToLast. rewrite (hv_len s Hok).
  pose proof (lookup_lt_Some _ _ _ Hx) as Hi.
  destruct (Nat.eqb_spec (length (view s) - 1) i) as [<-|Hne].
  { split; [by split|]. split; [intros k Hk; apply Hh; lia|]. by rewrite last_lookup, <- Nat.sub_1_r. }
  assert (Hv := hv_swap_view s i (length (view s) - 1) Hok ltac:(lia) ltac:(lia)).
  assert (Hok' := hv_swap_ok s i (length (view s) - 1) Hok ltac:(lia) ltac:(lia)).
  set (n := length (view s) - 1) in *.
  pose proof (down_up_spec n i (h_Swap i n s) Hok') as Hd.
  rewrite Hv, length_lswap in Hd. specialize (Hd ltac:(lia) ltac:(lia)).
  specialize (Hd (swap_last_hole i (view s) ltac:(lia) Hh)).
  destruct (down i n (h_Swap i n s)) as [s1 moved]. destruct Hd as (Hs & Hh' & Hr).
  assert (Hs0 : shuffled s (if moved then s1 else up i s1)).
  { eapply shuffled_trans; [|done]. apply swap_shuffled; [done|lia..]. }
  split_and!; [done|done|]. rewrite last_lookup, (shuffled_length _ _ Hs0), <- Nat.sub_1_r.
  rewrite Hr by lia. rewrite lswap_lookup by lia. case_decide; [lia|]. by rewrite decide_True by lia.
Qed.

Lemma PopToLast_spec s x :
  ok s → heap_upto lt (length (view s)) (view s) → view s !! 0 = Some x →
  let s' := PopToLast s in
  shuffled s s' ∧ heap_upto lt (length (view s) - 1) (view s') ∧ last (view s') = Some x.
Proof.
  intros Hok Hh Hx s'. subst s'. unfold PopToLast. rewrite (hv_len s Hok).
  pose proof (lookup_lt_Some _ _ _ Hx) as Hi.
  assert (Hv := hv_swap_view s 0 (length (view s) - 1) Hok ltac:(lia) ltac:(lia)).
  assert (Hok' := hv_swap_ok s 0 (length (view s) - 1) Hok ltac:(lia) ltac:(lia)).
  set (n := length (view s) - 1) in *.
  assert (Hsw : shuffled s (h_Swap 0 n s)) by (apply swap_shuffled; [done|lia..]).
  assert (Hlast : ∀ s1, shuffled s s1 → view s1 !! n = view (h_Swap 0 n s) !! n → last (view s1) = Some x).
  { intros s1 Hs1 Hr. rewrite last_lookup, (shuffled_length _ _ Hs1), <- Nat.sub_1_r. fold n.
    rewrite Hr, Hv, lswap_lookup by lia. case_decide as E; [by rewrite E|]. by rewrite decide_True by lia. }
  destruct (decide (n = 0)) as [Hn0|Hn0].
  { rewrite Hn0 in *. cbn [down down_loop fst Nat.leb Nat.mul Nat.add]. split_and!; [done| |by apply Hlast].
    intros k Hk. lia. }
  destruct (down_spec n 0 (h_Swap 0 n s)) as (s1 & moved & -> & Hs & Hm & Hr); [done| | | |].
  - rewrite Hv, length_lswap. lia.
  - lia.
  - rewrite Hv. apply swap_last_hole; [lia|done].
  - cbn. assert (Hs1 : shuffled s s1) by (eapply shuffled_trans; done).
    split_and!; [done| |apply Hlast; [done|apply Hr; lia]].
    destruct moved; [done|]. destruct Hm as [-> [Hm _]]. intros k Hk. apply Hm; lia.
Qed.
End correctness.
