(* ===== verification/SchedTypes.v ===== *)
(** * Scheduler vocabulary: tasks, heap items, cadence and jitter

    [internal/scheduler/types.go], [heap.go] (the item and its order) and [jitter.go]. *)

From S2P Require Import Prelude GoLib Domain.

(** ** Tasks *)

Record TaskKey := mkTaskKey {
  key_DeviceID : UUID;
  key_Kind : TaskKind;
  key_VolatilityClass : VolatilityClass }.

#[export] Instance TaskKey_eq_dec : EqDecision TaskKey.
Proof. solve_decision. Defined.
#[export] Instance TaskKey_countable : Countable TaskKey.
Proof.
  apply (inj_countable' (λ k, (key_DeviceID k, key_Kind k, key_VolatilityClass k))
                        (λ '(d, k, v), mkTaskKey d k v)).
  by intros [].
Defined.

Record PollTask := mkPollTask {
  task_Key : TaskKey;
  task_RunID : Z;
  task_Kind : TaskKind;
  task_Lane : Lane;
  task_Device : Device;
  task_PollClass : string;
  task_VolatilityClass : VolatilityClass;
  task_ExpectedInterval : Duration;
  task_DueAt : Time;
  task_DeadlineAt : Time;
  task_QueueLag : Duration;
  task_DeadlineMissed : bool;
  task_SkippedWindows : Z }.

#[export] Instance upd_task_Key : Update task_Key := λ v r, mkPollTask v (task_RunID r) (task_Kind r) (task_Lane r) (task_Device r) (task_PollClass r) (task_VolatilityClass r) (task_ExpectedInterval r) (task_DueAt r) (task_DeadlineAt r) (task_QueueLag r) (task_DeadlineMissed r) (task_SkippedWindows r).
#[export] Instance upd_task_RunID : Update task_RunID := λ v r, mkPollTask (task_Key r) v (task_Kind r) (task_Lane r) (task_Device r) (task_PollClass r) (task_VolatilityClass r) (task_ExpectedInterval r) (task_DueAt r) (task_DeadlineAt r) (task_QueueLag r) (task_DeadlineMissed r) (task_SkippedWindows r).
#[export] Instance upd_task_Kind : Update task_Kind := λ v r, mkPollTask (task_Key r) (task_RunID r) v (task_Lane r) (task_Device r) (task_PollClass r) (task_VolatilityClass r) (task_ExpectedInterval r) (task_DueAt r) (task_DeadlineAt r) (task_QueueLag r) (task_DeadlineMissed r) (task_SkippedWindows r).
#[export] Instance upd_task_Lane : Update task_Lane := λ v r, mkPollTask (task_Key r) (task_RunID r) (task_Kind r) v (task_Device r) (task_PollClass r) (task_VolatilityClass r) (task_ExpectedInterval r) (task_DueAt r) (task_DeadlineAt r) (task_QueueLag r) (task_DeadlineMissed r) (task_SkippedWindows r).
#[export] Instance upd_task_Device : Update task_Device := λ v r, mkPollTask (task_Key r) (task_RunID r) (task_Kind r) (task_Lane r) v (task_PollClass r) (task_VolatilityClass r) (task_ExpectedInterval r) (task_DueAt r) (task_DeadlineAt r) (task_QueueLag r) (task_DeadlineMissed r) (task_SkippedWindows r).
#[export] Instance upd_task_PollClass : Update task_PollClass := λ v r, mkPollTask (task_Key r) (task_RunID r) (task_Kind r) (task_Lane r) (task_Device r) v (task_VolatilityClass r) (task_ExpectedInterval r) (task_DueAt r) (task_DeadlineAt r) (task_QueueLag r) (task_DeadlineMissed r) (task_SkippedWindows r).
#[export] Instance upd_task_VolatilityClass : Update task_VolatilityClass := λ v r, mkPollTask (task_Key r) (task_RunID r) (task_Kind r) (task_Lane r) (task_Device r) (task_PollClass r) v (task_ExpectedInterval r) (task_DueAt r) (task_DeadlineAt r) (task_QueueLag r) (task_DeadlineMissed r) (task_SkippedWindows r).
#[export] Instance upd_task_ExpectedInterval : Update task_ExpectedInterval := λ v r, mkPollTask (task_Key r) (task_RunID r) (task_Kind r) (task_Lane r) (task_Device r) (task_PollClass r) (task_VolatilityClass r) v (task_DueAt r) (task_DeadlineAt r) (task_QueueLag r) (task_DeadlineMissed r) (task_SkippedWindows r).
#[export] Instance upd_task_DueAt : Update task_DueAt := λ v r, mkPollTask (task_Key r) (task_RunID r) (task_Kind r) (task_Lane r) (task_Device r) (task_PollClass r) (task_VolatilityClass r) (task_ExpectedInterval r) v (task_DeadlineAt r) (task_QueueLag r) (task_DeadlineMissed r) (task_SkippedWindows r).
#[export] Instance upd_task_DeadlineAt : Update task_DeadlineAt := λ v r, mkPollTask (task_Key r) (task_RunID r) (task_Kind r) (task_Lane r) (task_Device r) (task_PollClass r) (task_VolatilityClass r) (task_ExpectedInterval r) (task_DueAt r) v (task_QueueLag r) (task_DeadlineMissed r) (task_SkippedWindows r).
#[export] Instance upd_task_QueueLag : Update task_QueueLag := λ v r, mkPollTask (task_Key r) (task_RunID r) (task_Kind r) (task_Lane r) (task_Device r) (task_PollClass r) (task_VolatilityClass r) (task_ExpectedInterval r) (task_DueAt r) (task_DeadlineAt r) v (task_DeadlineMissed r) (task_SkippedWindows r).
#[export] Instance upd_task_DeadlineMissed : Update task_DeadlineMissed := λ v r, mkPollTask (task_Key r) (task_RunID r) (task_Kind r) (task_Lane r) (task_Device r) (task_PollClass r) (task_VolatilityClass r) (task_ExpectedInterval r) (task_DueAt r) (task_DeadlineAt r) (task_QueueLag r) v (task_SkippedWindows r).
#[export] Instance upd_task_SkippedWindows : Update task_SkippedWindows := λ v r, mkPollTask (task_Key r) (task_RunID r) (task_Kind r) (task_Lane r) (task_Device r) (task_PollClass r) (task_VolatilityClass r) (task_ExpectedInterval r) (task_DueAt r) (task_DeadlineAt r) (task_QueueLag r) (task_DeadlineMissed r) v.

Record Completion := {
  comp_RunID : Z;
  comp_Key : TaskKey;
  comp_FinishedAt : Time }.

Definition NewBackgroundTaskKey (deviceID : UUID) (volatility : VolatilityClass) : TaskKey :=
  mkTaskKey deviceID TaskKindBackground volatility.
Definition NewTaskKey (deviceID : UUID) (volatility : VolatilityClass) : TaskKey :=
  NewBackgroundTaskKey deviceID volatility.
Definition NewEssentialTaskKey (deviceID : UUID) : TaskKey :=
  mkTaskKey deviceID TaskKindEssential VolatilityClassNone.
Definition NewBootstrapTaskKey (deviceID : UUID) : TaskKey :=
  mkTaskKey deviceID TaskKindBootstrap VolatilityClassNone.

Definition EffectiveInterval (device : Device) (volatility : VolatilityClass) : Duration :=
  match volatility with
  | VolatilityClassPerformance =>
    match dev_PollIntervalOverride device with
    | Some o => if 0 <? o then Duration_mul o Second else PollClass_Interval (dev_PollClass device)
    | None => PollClass_Interval (dev_PollClass device)
    end
  | VolatilityClassOperational => OperationalClassInterval
  | VolatilityClassStatic => StaticClassInterval
  | VolatilityClassNone => PollClass_Interval (dev_PollClass device)
  end.

Definition EssentialInterval (device : Device) : Duration :=
  EffectiveInterval device VolatilityClassPerformance.

Definition VolatilityPriority (volatility : VolatilityClass) : Z :=
  match volatility with
  | VolatilityClassPerformance => 0
  | VolatilityClassOperational => 1
  | VolatilityClassStatic => 2
  | VolatilityClassNone => 99
  end.

Definition normalizeTask (task : PollTask) : PollTask :=
  let task := if decide (task_Kind task = TaskKindNone) then task <| task_Kind := key_Kind (task_Key task) |> else task in
  let task := if decide (task_Kind task = TaskKindNone) then task <| task_Kind := TaskKindBackground |> else task in
  let task :=
    if decide (task_Lane task = LaneNone) then
      task <| task_Lane := match task_Kind task with
                           | TaskKindEssential => LaneEssential
                           | TaskKindBootstrap => LaneBootstrap
                           | _ => LaneBackground
                           end |>
    else task in
  if decide (task_Kind task = TaskKindBackground ∧ task_VolatilityClass task = VolatilityClassNone)
  then task <| task_VolatilityClass := key_VolatilityClass (task_Key task) |>
  else task.

Definition readyPriority (task : PollTask) : Z :=
  let task := normalizeTask task in
  if decide (task_Kind task = TaskKindEssential) then 0 else VolatilityPriority (task_VolatilityClass task).

Definition heapPriority (task : PollTask) : Z :=
  let task := normalizeTask task in
  if decide (task_Kind task = TaskKindEssential) then -1 else VolatilityPriority (task_VolatilityClass task).

Definition taskVolatilityForMetrics (task : PollTask) : VolatilityClass :=
  let task := normalizeTask task in
  if decide (task_VolatilityClass task = VolatilityClassNone) then VolatilityClassPerformance
  else task_VolatilityClass task.

Definition taskIsBackground (task : PollTask) : bool :=
  bool_decide (task_Kind task = TaskKindBackground) || bool_decide (key_Kind (task_Key task) = TaskKindBackground).

(** ** Heap items *)

(** The object behind a [*heapItem]; the maps, the heap and the queues share pointers to it. *)
Record heapItem := mkHeapItem {
  item_task : PollTask;
  item_dueAt : Time;
  item_dispatchedAt : Time;
  item_runID : Z;
  item_interval : Duration;
  item_queued : bool;
  item_inFlight : bool;
  item_pending : bool;
  item_immediateRerun : bool;
  item_disabled : bool;
  item_skippedWindows : Z;
  item_index : Z }.

#[export] Instance upd_item_task : Update item_task := λ v r, mkHeapItem v (item_dueAt r) (item_dispatchedAt r) (item_runID r) (item_interval r) (item_queued r) (item_inFlight r) (item_pending r) (item_immediateRerun r) (item_disabled r) (item_skippedWindows r) (item_index r).
#[export] Instance upd_item_dueAt : Update item_dueAt := λ v r, mkHeapItem (item_task r) v (item_dispatchedAt r) (item_runID r) (item_interval r) (item_queued r) (item_inFlight r) (item_pending r) (item_immediateRerun r) (item_disabled r) (item_skippedWindows r) (item_index r).
#[export] Instance upd_item_dispatchedAt : Update item_dispatchedAt := λ v r, mkHeapItem (item_task r) (item_dueAt r) v (item_runID r) (item_interval r) (item_queued r) (item_inFlight r) (item_pending r) (item_immediateRerun r) (item_disabled r) (item_skippedWindows r) (item_index r).
#[export] Instance upd_item_runID : Update item_runID := λ v r, mkHeapItem (item_task r) (item_dueAt r) (item_dispatchedAt r) v (item_interval r) (item_queued r) (item_inFlight r) (item_pending r) (item_immediateRerun r) (item_disabled r) (item_skippedWindows r) (item_index r).
#[export] Instance upd_item_interval : Update item_interval := λ v r, mkHeapItem (item_task r) (item_dueAt r) (item_dispatchedAt r) (item_runID r) v (item_queued r) (item_inFlight r) (item_pending r) (item_immediateRerun r) (item_disabled r) (item_skippedWindows r) (item_index r).
#[export] Instance upd_item_queued : Update item_queued := λ v r, mkHeapItem (item_task r) (item_dueAt r) (item_dispatchedAt r) (item_runID r) (item_interval r) v (item_inFlight r) (item_pending r) (item_immediateRerun r) (item_disabled r) (item_skippedWindows r) (item_index r).
#[export] Instance upd_item_inFlight : Update item_inFlight := λ v r, mkHeapItem (item_task r) (item_dueAt r) (item_dispatchedAt r) (item_runID r) (item_interval r) (item_queued r) v (item_pending r) (item_immediateRerun r) (item_disabled r) (item_skippedWindows r) (item_index r).
#[export] Instance upd_item_pending : Update item_pending := λ v r, mkHeapItem (item_task r) (item_dueAt r) (item_dispatchedAt r) (item_runID r) (item_interval r) (item_queued r) (item_inFlight r) v (item_immediateRerun r) (item_disabled r) (item_skippedWindows r) (item_index r).
#[export] Instance upd_item_immediateRerun : Update item_immediateRerun := λ v r, mkHeapItem (item_task r) (item_dueAt r) (item_dispatchedAt r) (item_runID r) (item_interval r) (item_queued r) (item_inFlight r) (item_pending r) v (item_disabled r) (item_skippedWindows r) (item_index r).
#[export] Instance upd_item_disabled : Update item_disabled := λ v r, mkHeapItem (item_task r) (item_dueAt r) (item_dispatchedAt r) (item_runID r) (item_interval r) (item_queued r) (item_inFlight r) (item_pending r) (item_immediateRerun r) v (item_skippedWindows r) (item_index r).
#[export] Instance upd_item_skippedWindows : Update item_skippedWindows := λ v r, mkHeapItem (item_task r) (item_dueAt r) (item_dispatchedAt r) (item_runID r) (item_interval r) (item_queued r) (item_inFlight r) (item_pending r) (item_immediateRerun r) (item_disabled r) v (item_index r).
#[export] Instance upd_item_index : Update item_index := λ v r, mkHeapItem (item_task r) (item_dueAt r) (item_dispatchedAt r) (item_runID r) (item_interval r) (item_queued r) (item_inFlight r) (item_pending r) (item_immediateRerun r) (item_disabled r) (item_skippedWindows r) v.

(** The comparison of [taskHeap.Less], on the two items. *)
Definition item_less (a b : heapItem) : bool :=
  if item_dueAt a =? item_dueAt b then
    let l := heapPriority (item_task a) in
    let r := heapPriority (item_task b) in
    if l =? r then
      string_ltb (uuid_String (key_DeviceID (task_Key (item_task a))))
                 (uuid_String (key_DeviceID (task_Key (item_task b))))
    else l <? r
  else Time_Before (item_dueAt a) (item_dueAt b).

(** ** Jitter and phases *)

Definition initialOffsetForKey (key : TaskKey) (interval : Duration) : Duration :=
  if interval <=? 0 then 0
  else
    let h := fnv64a (uuid_bytes (key_DeviceID key) ++ bytes_of "|" ++ bytes_of (TaskKind_string (key_Kind key))
                     ++ bytes_of "|" ++ bytes_of (VolatilityClass_string (key_VolatilityClass key))) in
    h mod interval.

(** [sample] is the value returned by [rnd.Float64()]; [None] is the nil generator. *)
Definition jitteredNext (lastFire : Time) (interval : Duration) (sample : option float64) : Time :=
  if interval <=? 0 then lastFire
  else match sample with
  | None => Time_Add lastFire interval
  | Some f =>
    let jitterSpan := f64_mul (f64_of_Z interval) (f64_lit 1 1) in
    let sampledDelta := f64_mul (f64_sub (f64_mul f (f64_of_Z 2)) (f64_of_Z 1)) jitterSpan in
    Time_Add lastFire (Duration_add interval (f64_trunc sampledDelta))
  end.

Definition nextPhaseAfter (previousDue : Time) (interval : Duration) (after : Time) : Time :=
  if interval <=? 0 then after
  else if Time_IsZero previousDue then Time_Add after interval
  else
    let next := Time_Add previousDue interval in
    if Time_After next after then next
    else
      let windows := Duration_add (Z.quot (Time_Sub after previousDue) interval) 1 in
      Time_Add previousDue (Duration_mul windows interval).
