(* ===== verification/Scheduler.v ===== *)
(** * The polling scheduler: state and operations

    [internal/scheduler/scheduler.go] and the [taskHeap] methods of [heap.go].  Every
    operation is a function on the scheduler state; what an operation reads from outside
    the scheduler (the clock, the settings, the device source, the random sample, the
    iteration order of a Go map) is an [Env]. *)

From S2P Require Import Prelude GoLib Sha256 NetIP Domain Policy GoHeap SchedTypes.

Abbreviation loc := nat (only parsing).

Record redueRequest := {
  rq_device : Device;
  rq_changedAt : Time;
  rq_taskKind : TaskKind }.

(** Calls to the metrics registry. *)
Inductive Obs :=
| IncSchedulerBackpressure (v : VolatilityClass) (reason : string)
| IncSchedulerScopedBackpressure (kind : string) (v : VolatilityClass) (reason scope scopeID scopeName : string)
| IncPollingDeadlineMiss
| IncSchedulerTaskDispatchForTask (kind : string) (v : VolatilityClass)
| ObserveSchedulerTaskDuration (v : VolatilityClass) (d : Duration)
| RetainDeviceMetrics (devices : list Device)
| SetSchedulerInFlight (n : Z)
| SetPollingEssentialOverloaded (b : bool)
| SetSchedulerReadyDepth (v : VolatilityClass) (n : Z)
| SetSchedulerQueueLag (v : VolatilityClass) (d : Duration)
| SetRuntimeWorkerSettingsEffective (settings : list (string * Z)).

(** The in-flight counters of [Scheduler]: in total, per class, per kind, and per isolation scope (all tasks, then essential tasks only). *)
Record Counters := mkCounters {
  c_inFlight : Z;
  c_byClass : gmap VolatilityClass Z;
  c_byKind : gmap TaskKind Z;
  c_byDevice : gmap string Z;
  c_bySite : gmap string Z;
  c_bySubnet : gmap string Z;
  c_byProfile : gmap string Z;
  c_essByDevice : gmap string Z;
  c_essBySite : gmap string Z;
  c_essBySubnet : gmap string Z;
  c_essByProfile : gmap string Z }.

#[export] Instance upd_c_inFlight : Update c_inFlight := λ v r,
  mkCounters v (c_byClass r) (c_byKind r) (c_byDevice r) (c_bySite r) (c_bySubnet r) (c_byProfile r) (c_essByDevice r) (c_essBySite r) (c_essBySubnet r) (c_essByProfile r).
#[export] Instance upd_c_byClass : Update c_byClass := λ v r,
  mkCounters (c_inFlight r) v (c_byKind r) (c_byDevice r) (c_bySite r) (c_bySubnet r) (c_byProfile r) (c_essByDevice r) (c_essBySite r) (c_essBySubnet r) (c_essByProfile r).
#[export] Instance upd_c_byKind : Update c_byKind := λ v r,
  mkCounters (c_inFlight r) (c_byClass r) v (c_byDevice r) (c_bySite r) (c_bySubnet r) (c_byProfile r) (c_essByDevice r) (c_essBySite r) (c_essBySubnet r) (c_essByProfile r).
#[export] Instance upd_c_byDevice : Update c_byDevice := λ v r,
  mkCounters (c_inFlight r) (c_byClass r) (c_byKind r) v (c_bySite r) (c_bySubnet r) (c_byProfile r) (c_essByDevice r) (c_essBySite r) (c_essBySubnet r) (c_essByProfile r).
#[export] Instance upd_c_bySite : Update c_bySite := λ v r,
  mkCounters (c_inFlight r) (c_byClass r) (c_byKind r) (c_byDevice r) v (c_bySubnet r) (c_byProfile r) (c_essByDevice r) (c_essBySite r) (c_essBySubnet r) (c_essByProfile r).
#[export] Instance upd_c_bySubnet : Update c_bySubnet := λ v r,
  mkCounters (c_inFlight r) (c_byClass r) (c_byKind r) (c_byDevice r) (c_bySite r) v (c_byProfile r) (c_essByDevice r) (c_essBySite r) (c_essBySubnet r) (c_essByProfile r).
#[export] Instance upd_c_byProfile : Update c_byProfile := λ v r,
  mkCounters (c_inFlight r) (c_byClass r) (c_byKind r) (c_byDevice r) (c_bySite r) (c_bySubnet r) v (c_essByDevice r) (c_essBySite r) (c_essBySubnet r) (c_essByProfile r).
#[export] Instance upd_c_essByDevice : Update c_essByDevice := λ v r,
  mkCounters (c_inFlight r) (c_byClass r) (c_byKind r) (c_byDevice r) (c_bySite r) (c_bySubnet r) (c_byProfile r) v (c_essBySite r) (c_essBySubnet r) (c_essByProfile r).
#[export] Instance upd_c_essBySite : Update c_essBySite := λ v r,
  mkCounters (c_inFlight r) (c_byClass r) (c_byKind r) (c_byDevice r) (c_bySite r) (c_bySubnet r) (c_byProfile r) (c_essByDevice r) v (c_essBySubnet r) (c_essByProfile r).
#[export] Instance upd_c_essBySubnet : Update c_essBySubnet := λ v r,
  mkCounters (c_inFlight r) (c_byClass r) (c_byKind r) (c_byDevice r) (c_bySite r) (c_bySubnet r) (c_byProfile r) (c_essByDevice r) (c_essBySite r) v (c_essByProfile r).
#[export] Instance upd_c_essByProfile : Update c_essByProfile := λ v r,
  mkCounters (c_inFlight r) (c_byClass r) (c_byKind r) (c_byDevice r) (c_bySite r) (c_bySubnet r) (c_byProfile r) (c_essByDevice r) (c_essBySite r) (c_essBySubnet r) v.

(** The state of [Scheduler].  Pointers to heap items are locations of [s_store]; a buffered
    channel is the list of its queued values with its capacity; [s_started] is [cancel != nil];
    [s_obs] is the trace of metric calls, latest first. *)
Record Sched := mkSched {
  s_refreshInterval : Duration;
  s_tasks : list PollTask;
  s_tasksCap : Z;
  s_completions : list Completion;
  s_completionsCap : Z;
  s_redueRequests : list redueRequest;
  s_redueCap : Z;
  s_store : gmap loc heapItem;
  s_next : loc;
  s_items : gmap TaskKey loc;
  s_heap : list loc;
  s_ready : list (list loc);
  s_running : bool;
  s_started : bool;
  s_counters : Counters;
  s_runID : Z;
  s_deadlineMissTotal : Z;
  s_lastWarnings : list CapacityWarning;
  s_degradedRisk : bool;
  s_obs : list Obs }.

#[export] Instance upd_s_tasks : Update s_tasks := λ v r,
  mkSched (s_refreshInterval r) v (s_tasksCap r) (s_completions r) (s_completionsCap r) (s_redueRequests r) (s_redueCap r) (s_store r) (s_next r) (s_items r) (s_heap r) (s_ready r) (s_running r) (s_started r) (s_counters r) (s_runID r) (s_deadlineMissTotal r) (s_lastWarnings r) (s_degradedRisk r) (s_obs r).
#[export] Instance upd_s_completions : Update s_completions := λ v r,
  mkSched (s_refreshInterval r) (s_tasks r) (s_tasksCap r) v (s_completionsCap r) (s_redueRequests r) (s_redueCap r) (s_store r) (s_next r) (s_items r) (s_heap r) (s_ready r) (s_running r) (s_started r) (s_counters r) (s_runID r) (s_deadlineMissTotal r) (s_lastWarnings r) (s_degradedRisk r) (s_obs r).
#[export] Instance upd_s_redueRequests : Update s_redueRequests := λ v r,
  mkSched (s_refreshInterval r) (s_tasks r) (s_tasksCap r) (s_completions r) (s_completionsCap r) v (s_redueCap r) (s_store r) (s_next r) (s_items r) (s_heap r) (s_ready r) (s_running r) (s_started r) (s_counters r) (s_runID r) (s_deadlineMissTotal r) (s_lastWarnings r) (s_degradedRisk r) (s_obs r).
#[export] Instance upd_s_store : Update s_store := λ v r,
  mkSched (s_refreshInterval r) (s_tasks r) (s_tasksCap r) (s_completions r) (s_completionsCap r) (s_redueRequests r) (s_redueCap r) v (s_next r) (s_items r) (s_heap r) (s_ready r) (s_running r) (s_started r) (s_counters r) (s_runID r) (s_deadlineMissTotal r) (s_lastWarnings r) (s_degradedRisk r) (s_obs r).
#[export] Instance upd_s_next : Update s_next := λ v r,
  mkSched (s_refreshInterval r) (s_tasks r) (s_tasksCap r) (s_completions r) (s_completionsCap r) (s_redueRequests r) (s_redueCap r) (s_store r) v (s_items r) (s_heap r) (s_ready r) (s_running r) (s_started r) (s_counters r) (s_runID r) (s_deadlineMissTotal r) (s_lastWarnings r) (s_degradedRisk r) (s_obs r).
#[export] Instance upd_s_items : Update s_items := λ v r,
  mkSched (s_refreshInterval r) (s_tasks r) (s_tasksCap r) (s_completions r) (s_completionsCap r) (s_redueRequests r) (s_redueCap r) (s_store r) (s_next r) v (s_heap r) (s_ready r) (s_running r) (s_started r) (s_counters r) (s_runID r) (s_deadlineMissTotal r) (s_lastWarnings r) (s_degradedRisk r) (s_obs r).
#[export] Instance upd_s_heap : Update s_heap := λ v r,
  mkSched (s_refreshInterval r) (s_tasks r) (s_tasksCap r) (s_completions r) (s_completionsCap r) (s_redueRequests r) (s_redueCap r) (s_store r) (s_next r) (s_items r) v (s_ready r) (s_running r) (s_started r) (s_counters r) (s_runID r) (s_deadlineMissTotal r) (s_lastWarnings r) (s_degradedRisk r) (s_obs r).
#[export] Instance upd_s_ready : Update s_ready := λ v r,
  mkSched (s_refreshInterval r) (s_tasks r) (s_tasksCap r) (s_completions r) (s_completionsCap r) (s_redueRequests r) (s_redueCap r) (s_store r) (s_next r) (s_items r) (s_heap r) v (s_running r) (s_started r) (s_counters r) (s_runID r) (s_deadlineMissTotal r) (s_lastWarnings r) (s_degradedRisk r) (s_obs r).
#[export] Instance upd_s_running : Update s_running := λ v r,
  mkSched (s_refreshInterval r) (s_tasks r) (s_tasksCap r) (s_completions r) (s_completionsCap r) (s_redueRequests r) (s_redueCap r) (s_store r) (s_next r) (s_items r) (s_heap r) (s_ready r) v (s_started r) (s_counters r) (s_runID r) (s_deadlineMissTotal r) (s_lastWarnings r) (s_degradedRisk r) (s_obs r).
#[export] Instance upd_s_started : Update s_started := λ v r,
  mkSched (s_refreshInterval r) (s_tasks r) (s_tasksCap r) (s_completions r) (s_completionsCap r) (s_redueRequests r) (s_redueCap r) (s_store r) (s_next r) (s_items r) (s_heap r) (s_ready r) (s_running r) v (s_counters r) (s_runID r) (s_deadlineMissTotal r) (s_lastWarnings r) (s_degradedRisk r) (s_obs r).
#[export] Instance upd_s_counters : Update s_counters := λ v r,
  mkSched (s_refreshInterval r) (s_tasks r) (s_tasksCap r) (s_completions r) (s_completionsCap r) (s_redueRequests r) (s_redueCap r) (s_store r) (s_next r) (s_items r) (s_heap r) (s_ready r) (s_running r) (s_started r) v (s_runID r) (s_deadlineMissTotal r) (s_lastWarnings r) (s_degradedRisk r) (s_obs r).
#[export] Instance upd_s_runID : Update s_runID := λ v r,
  mkSched (s_refreshInterval r) (s_tasks r) (s_tasksCap r) (s_completions r) (s_completionsCap r) (s_redueRequests r) (s_redueCap r) (s_store r) (s_next r) (s_items r) (s_heap r) (s_ready r) (s_running r) (s_started r) (s_counters r) v (s_deadlineMissTotal r) (s_lastWarnings r) (s_degradedRisk r) (s_obs r).
#[export] Instance upd_s_deadlineMissTotal : Update s_deadlineMissTotal := λ v r,
  mkSched (s_refreshInterval r) (s_tasks r) (s_tasksCap r) (s_completions r) (s_completionsCap r) (s_redueRequests r) (s_redueCap r) (s_store r) (s_next r) (s_items r) (s_heap r) (s_ready r) (s_running r) (s_started r) (s_counters r) (s_runID r) v (s_lastWarnings r) (s_degradedRisk r) (s_obs r).
#[export] Instance upd_s_lastWarnings : Update s_lastWarnings := λ v r,
  mkSched (s_refreshInterval r) (s_tasks r) (s_tasksCap r) (s_completions r) (s_completionsCap r) (s_redueRequests r) (s_redueCap r) (s_store r) (s_next r) (s_items r) (s_heap r) (s_ready r) (s_running r) (s_started r) (s_counters r) (s_runID r) (s_deadlineMissTotal r) v (s_degradedRisk r) (s_obs r).
#[export] Instance upd_s_degradedRisk : Update s_degradedRisk := λ v r,
  mkSched (s_refreshInterval r) (s_tasks r) (s_tasksCap r) (s_completions r) (s_completionsCap r) (s_redueRequests r) (s_redueCap r) (s_store r) (s_next r) (s_items r) (s_heap r) (s_ready r) (s_running r) (s_started r) (s_counters r) (s_runID r) (s_deadlineMissTotal r) (s_lastWarnings r) v (s_obs r).
#[export] Instance upd_s_obs : Update s_obs := λ v r,
  mkSched (s_refreshInterval r) (s_tasks r) (s_tasksCap r) (s_completions r) (s_completionsCap r) (s_redueRequests r) (s_redueCap r) (s_store r) (s_next r) (s_items r) (s_heap r) (s_ready r) (s_running r) (s_started r) (s_counters r) (s_runID r) (s_deadlineMissTotal r) (s_lastWarnings r) (s_degradedRisk r) v.

Record Env := {
  env_now : Time;
  env_settings : SettingsGetter;
  env_ParseFloat : string → option float64;
  env_GetDevices : result (list Device);
  env_IncludesDevice : option (UUID → result bool);
  env_sample : option float64;
  env_range : gmap TaskKey loc → list (TaskKey * loc) }.

Definition emit (o : Obs) (s : Sched) : Sched := s <| s_obs := o :: s_obs s |>.
Definition emit_all (os : list Obs) (s : Sched) : Sched := foldl (λ s o, emit o s) s os.

Definition zeroCounters : Counters := mkCounters 0 ∅ ∅ ∅ ∅ ∅ ∅ ∅ ∅ ∅ ∅.

Definition defaultInventoryRefreshInterval : Duration := 30 * Second.
Definition defaultTaskBuffer : Z := 128.

Definition NewScheduler : Sched :=
  mkSched defaultInventoryRefreshInterval [] defaultTaskBuffer [] defaultTaskBuffer [] defaultTaskBuffer
    ∅ 0%nat ∅ [] [[]; []; []] false false zeroCounters 0 0 [] false [].

(** ** Items in memory *)

Definition zeroTask : PollTask :=
  mkPollTask (mkTaskKey 0 TaskKindNone VolatilityClassNone) 0 TaskKindNone LaneNone zeroDevice ""
    VolatilityClassNone 0 0 0 0 false 0.
Definition zeroItem : heapItem := mkHeapItem zeroTask 0 0 0 0 false false false false false 0 0.

Definition item_at (s : Sched) (l : loc) : heapItem := default zeroItem (s_store s !! l).
Definition upd_item (l : loc) (f : heapItem → heapItem) (s : Sched) : Sched :=
  s <| s_store := alter f l (s_store s) |>.
Definition alloc (it : heapItem) (s : Sched) : loc * Sched :=
  (s_next s, s <| s_store := <[s_next s := it]> (s_store s) |> <| s_next := S (s_next s) |>).
Definition items_insert (k : TaskKey) (l : loc) (s : Sched) : Sched := s <| s_items := <[k := l]> (s_items s) |>.
Definition items_delete (k : TaskKey) (s : Sched) : Sched := s <| s_items := delete k (s_items s) |>.

(** ** taskHeap *)

Definition taskHeap_Len (s : Sched) : nat := length (s_heap s).
Definition taskHeap_Less (s : Sched) (i j : nat) : bool :=
  match s_heap s !! i, s_heap s !! j with
  | Some a, Some b => item_less (item_at s a) (item_at s b)
  | _, _ => false
  end.
Definition set_index (i : Z) (it : heapItem) : heapItem := it <| item_index := i |>.
Definition taskHeap_Swap (i j : nat) (s : Sched) : Sched :=
  match s_heap s !! i, s_heap s !! j with
  | Some a, Some b =>
    let s := s <| s_heap := lswap i j (s_heap s) |> in
    upd_item a (set_index (Z.of_nat j)) (upd_item b (set_index (Z.of_nat i)) s)
  | _, _ => s
  end.
Definition taskHeap_Push (l : loc) (s : Sched) : Sched :=
  let s := upd_item l (set_index (Z.of_nat (length (s_heap s)))) s in
  s <| s_heap := s_heap s ++ [l] |>.
Definition taskHeap_Pop (s : Sched) : option (loc * Sched) :=
  match last (s_heap s) with
  | None => None
  | Some l => Some (l, upd_item l (set_index (-1)) s <| s_heap := take (length (s_heap s) - 1) (s_heap s) |>)
  end.

#[export] Instance taskHeap_interface : HeapInterface Sched :=
  {| h_Len := taskHeap_Len; h_Less := taskHeap_Less; h_Swap := taskHeap_Swap |}.

Definition heap_Push (l : loc) (s : Sched) : Sched :=
  let s := taskHeap_Push l s in up (taskHeap_Len s - 1) s.
Definition heap_Pop (s : Sched) : option (loc * Sched) := taskHeap_Pop (PopToLast s).
Definition heap_Remove (i : Z) (s : Sched) : Sched :=
  match taskHeap_Pop (RemoveToLast (Z.to_nat i) s) with Some (_, s') => s' | None => s end.
Definition heap_Fix (i : Z) (s : Sched) : Sched := Fix (Z.to_nat i) s.

(** ** Eligibility *)

Definition shouldScheduleRecurringDevice (d : Device) : bool :=
  dev_Managed d && DevicePollingEnabled d && negb (IsVirtualNoIPDevice d).
Definition shouldScheduleEssentialTask (d : Device) : bool :=
  shouldScheduleRecurringDevice d && negb (IsVirtualWithIPDevice d).
Definition shouldScheduleBootstrapTask (d : Device) : bool :=
  if negb (shouldScheduleRecurringDevice d) then false
  else if String.eqb (dev_DeviceType d) DeviceTypeVirtual then false
  else if String.eqb (TrimSpace (dev_IP d)) "" then false
  else if String.eqb (dev_MetricsSource d) MetricsSourcePrometheus
          || String.eqb (dev_MetricsSource d) MetricsSourceNone then false
  else String.eqb (NormalizeTopologyBootstrapState (dev_TopologyBootstrapState d)) TopologyBootstrapStatePending.

Definition scheduledVolatilityClasses : list VolatilityClass :=
  [VolatilityClassPerformance; VolatilityClassOperational; VolatilityClassStatic].
Definition scheduledBackgroundVolatilityClassesForDevice (d : Device) : list VolatilityClass :=
  if String.eqb (dev_DeviceType d) DeviceTypeVirtual then [VolatilityClassOperational]
  else scheduledVolatilityClasses.

Definition managedDeviceCount (devices : list Device) : Z :=
  foldl (λ n d, if shouldScheduleEssentialTask d then n + 1 else n) 0 devices.
Definition shortestEssentialInterval (devices : list Device) : Duration :=
  foldl (λ shortest d,
    if negb (shouldScheduleEssentialTask d) then shortest
    else
      let interval := EssentialInterval d in
      if interval <=? 0 then shortest
      else if (shortest =? 0) || (interval <? shortest) then interval else shortest) 0 devices.

(** ** Isolation scopes *)

Definition taskSiteKey (areaID : UUID) : string := if areaID =? uuid_Nil then "" else uuid_String areaID.

Definition taskSubnetKey (task : PollTask) : string :=
  let rawIP := trim_space_bytes (bytes_of (dev_IP (task_Device task))) in
  match rawIP with
  | [] => ""
  | _ =>
    let rawIP := match SplitHostPort rawIP with Some (host, _) => host | None => rawIP end in
    let rawIP := trim_set [91; 93] rawIP in
    match ParseAddr rawIP with
    | None => ""
    | Some a => masked_prefix_String a (match a with Addr4 _ => 24 | Addr6 _ _ => 64 end)
    end
  end.

Definition taskDeviceScopeName (d : Device) : string :=
  let hostname := TrimSpace (dev_Hostname d) in
  if negb (String.eqb hostname "") then hostname
  else
    let ip := TrimSpace (dev_IP d) in
    if negb (String.eqb ip "") then ip else uuid_String (dev_ID d).

Definition taskProfileKey (task : PollTask) : string :=
  let creds := dev_SNMPCredentials (task_Device task) in
  if String.eqb (creds_Version creds) SNMPVersionV2c then
    match creds_V2c creds with
    | None => ""
    | Some c => ("2c|" +:+ v2c_Community c)%string
    end
  else if String.eqb (creds_Version creds) SNMPVersionV3 then
    match creds_V3 creds with
    | None => ""
    | Some c => Join ["3"%string; v3_Username c; v3_SecurityLevel c; v3_AuthProtocol c; v3_PrivProtocol c] "|"
    end
  else "".

Definition taskProfileScopeID (profileKey : string) : string :=
  string_of (hex_of_bytes (take 8 (Sum256 (bytes_of profileKey)))).

(** ** In-flight counters *)

Definition incrementCount (counts : gmap string Z) (key : string) : gmap string Z :=
  if String.eqb key "" then counts else <[key := counts.[key] + 1]> counts.
Definition decrementCount (counts : gmap string Z) (key : string) : gmap string Z :=
  if String.eqb key "" then counts
  else if counts.[key] <=? 1 then delete key counts
  else <[key := counts.[key] - 1]> counts.

Definition task_siteKeys (task : PollTask) : list string := map taskSiteKey (dev_AreaIDs (task_Device task)).
Definition task_deviceKey (task : PollTask) : string := uuid_String (dev_ID (task_Device task)).

(** Applies [f] ([incrementCount] or [decrementCount]) to every scope of the task. *)
Definition isolationCounts (f : gmap string Z → string → gmap string Z) (task : PollTask) (c : Counters) : Counters :=
  let task := normalizeTask task in
  let c := c <| c_byDevice := f (c_byDevice c) (task_deviceKey task) |>
             <| c_bySite := foldl f (c_bySite c) (task_siteKeys task) |>
             <| c_bySubnet := f (c_bySubnet c) (taskSubnetKey task) |>
             <| c_byProfile := f (c_byProfile c) (taskProfileKey task) |> in
  if decide (task_Kind task = TaskKindEssential) then
    c <| c_essByDevice := f (c_essByDevice c) (task_deviceKey task) |>
      <| c_essBySite := foldl f (c_essBySite c) (task_siteKeys task) |>
      <| c_essBySubnet := f (c_essBySubnet c) (taskSubnetKey task) |>
      <| c_essByProfile := f (c_essByProfile c) (taskProfileKey task) |>
  else c.
Definition incrementIsolationCounts : PollTask → Counters → Counters := isolationCounts incrementCount.
Definition decrementIsolationCounts : PollTask → Counters → Counters := isolationCounts decrementCount.

Definition incrementInFlight (task : PollTask) (c : Counters) : Counters :=
  let c :=
    if decide (task_Kind task = TaskKindEssential)
    then c <| c_byKind := <[TaskKindEssential := (c_byKind c).[TaskKindEssential] + 1]> (c_byKind c) |>
    else c <| c_byClass := <[task_VolatilityClass task := (c_byClass c).[task_VolatilityClass task] + 1]> (c_byClass c) |> in
  incrementIsolationCounts task c.

Definition decrementInFlight (task : PollTask) (c : Counters) : Counters :=
  let c :=
    if decide (task_Kind task = TaskKindEssential) then
      if 0 <? (c_byKind c).[TaskKindEssential]
      then c <| c_byKind := <[TaskKindEssential := (c_byKind c).[TaskKindEssential] - 1]> (c_byKind c) |>
      else c
    else if 0 <? (c_byClass c).[task_VolatilityClass task]
    then c <| c_byClass := <[task_VolatilityClass task := (c_byClass c).[task_VolatilityClass task] - 1]> (c_byClass c) |>
    else c in
  decrementIsolationCounts task c.

(** ** Limits *)

Definition bufferLimit (s : Sched) : Z :=
  let limit := s_tasksCap s in
  let completionsCap := s_completionsCap s in
  if (limit =? 0) || ((0 <? completionsCap) && (completionsCap <? limit)) then completionsCap else limit.

Definition classBudgets (e : Env) (s : Sched) : Budgets :=
  let budgets := Resolve (env_settings e) in
  let limit := bufferLimit s in
  if 0 <? limit then Clamp budgets limit else budgets.

Definition clampEssentialLimit (limit bufferLimit : Z) : Z :=
  let limit := if (0 <? bufferLimit) && (bufferLimit <? limit) then bufferLimit else limit in
  if limit <=? 0 then 1 else limit.

Definition policy0 (e : Env) : Policy := fst (PolicyFromSettings (env_ParseFloat e) (env_settings e) 0 0 0).

Definition maxEssentialInFlight (e : Env) (s : Sched) : Z :=
  clampEssentialLimit (EssentialWorkers (policy0 e)) (bufferLimit s).

Record dispatchLimitsT := {
  dl_budgets : Budgets;
  dl_policy : Policy;
  dl_essentialLimit : Z;
  dl_globalLimit : Z }.

Definition dispatchLimits (e : Env) (s : Sched) : dispatchLimitsT :=
  let budgets := classBudgets e s in
  let policy := policy0 e in
  let bl := bufferLimit s in
  let essentialLimit := clampEssentialLimit (EssentialWorkers policy) bl in
  let globalLimit := Sum budgets + essentialLimit in
  let globalLimit := if (0 <? bl) && (bl <? globalLimit) then bl else globalLimit in
  {| dl_budgets := budgets; dl_policy := policy;
     dl_essentialLimit := essentialLimit; dl_globalLimit := globalLimit |}.

(** ** Dispatch blocks *)

Record isolationBlockT := mkBlock { b_reason : string; b_scope : string; b_scopeID : string; b_scopeName : string }.
Definition noBlock : isolationBlockT := mkBlock "" "" "" "".

(** The first site of the task that is at its limit. *)
Fixpoint site_block (counts : gmap string Z) (limit : Z) (areas : list UUID) : option string :=
  match areas with
  | [] => None
  | a :: r =>
    let siteKey := taskSiteKey a in
    if String.eqb siteKey "" then site_block counts limit r
    else if limit <=? counts.[siteKey] then Some siteKey else site_block counts limit r
  end.

Definition isolationBlock (c : Counters) (task : PollTask) (policy : Policy) : isolationBlockT :=
  let task := normalizeTask task in
  let ess := bool_decide (task_Kind task = TaskKindEssential) in
  let deviceCounts := if ess then c_essByDevice c else c_byDevice c in
  let siteCounts := if ess then c_essBySite c else c_bySite c in
  let subnetCounts := if ess then c_essBySubnet c else c_bySubnet c in
  let profileCounts := if ess then c_essByProfile c else c_byProfile c in
  let deviceKey := task_deviceKey task in
  let subnetKey := taskSubnetKey task in
  let profileKey := taskProfileKey task in
  if (0 <? MaxWorkersPerDevice policy) && negb (String.eqb deviceKey "")
     && (MaxWorkersPerDevice policy <=? deviceCounts.[deviceKey])
  then mkBlock "device_limit" "device" deviceKey (taskDeviceScopeName (task_Device task))
  else match (if 0 <? MaxWorkersPerSite policy
              then site_block siteCounts (MaxWorkersPerSite policy) (dev_AreaIDs (task_Device task)) else None) with
  | Some siteKey => mkBlock "site_limit" "site" siteKey siteKey
  | None =>
    if (0 <? MaxWorkersPerSubnet policy) && negb (String.eqb subnetKey "")
       && (MaxWorkersPerSubnet policy <=? subnetCounts.[subnetKey])
    then mkBlock "subnet_limit" "subnet" subnetKey subnetKey
    else if (0 <? MaxInflightPerProfile policy) && negb (String.eqb profileKey "")
            && (MaxInflightPerProfile policy <=? profileCounts.[profileKey])
    then let scopeID := taskProfileScopeID profileKey in mkBlock "profile_limit" "snmp_profile" scopeID scopeID
    else noBlock
  end.

Definition dispatchBlockWithLimits (c : Counters) (task : PollTask) (limits : dispatchLimitsT) : isolationBlockT :=
  let task := normalizeTask task in
  if decide (task_Kind task = TaskKindEssential) then
    if dl_essentialLimit limits <=? (c_byKind c).[TaskKindEssential]
    then mkBlock "essential_limit" "" "" ""
    else isolationBlock c task (dl_policy limits)
  else if (dl_budgets limits).[task_VolatilityClass task] <=? (c_byClass c).[task_VolatilityClass task]
  then mkBlock "class_limit" "" "" ""
  else isolationBlock c task (dl_policy limits).

(** ** Scan state of one dispatch pass *)

Abbreviation blockedMetric := (VolatilityClass * string)%type (only parsing).
Abbreviation scopedMetric := (string * VolatilityClass * string * string * string * string)%type (only parsing).

Record dispatchScanState := mkScan {
  sc_classLimited : list bool;
  sc_essentialLimited : bool;
  sc_blockedMetrics : gset blockedMetric;
  sc_scopedMetrics : gset scopedMetric }.

Definition newScanState : dispatchScanState := mkScan [false; false; false] false ∅ ∅.

Definition isKnownBlocked (st : dispatchScanState) (task : PollTask) : bool :=
  let task := normalizeTask task in
  if decide (task_Kind task = TaskKindEssential) then sc_essentialLimited st
  else
    let priority := VolatilityPriority (task_VolatilityClass task) in
    (0 <=? priority) && (priority <? 3) && default false (sc_classLimited st !! Z.to_nat priority).

Definition recordBlockedDispatchMetrics (blocked : gset blockedMetric) (task : PollTask) (reason : string)
  : gset blockedMetric :=
  let task := normalizeTask task in
  if decide (task_Kind task = TaskKindEssential) then
    let blocked := {[(VolatilityClassPerformance, "essential_limit"%string)]} ∪ blocked in
    if String.eqb reason "essential_limit" then blocked
    else {[(VolatilityClassPerformance, ("essential_" +:+ reason)%string)]} ∪ blocked
  else {[(taskVolatilityForMetrics task, reason)]} ∪ blocked.

Definition recordScopedBlockedDispatchMetrics (blocked : gset scopedMetric) (task : PollTask) (block : isolationBlockT)
  : gset scopedMetric :=
  if String.eqb (b_scope block) "" || String.eqb (b_scopeID block) "" then blocked
  else
    let task := normalizeTask task in
    let reason := if decide (task_Kind task = TaskKindEssential)
                  then ("essential_" +:+ b_reason block)%string else b_reason block in
    {[(TaskKind_string (task_Kind task), taskVolatilityForMetrics task, reason,
       b_scope block, b_scopeID block, b_scopeName block)]} ∪ blocked.

Definition recordBlocked (task : PollTask) (block : isolationBlockT) (st : dispatchScanState) : dispatchScanState :=
  let bm := recordBlockedDispatchMetrics (sc_blockedMetrics st) task (b_reason block) in
  let sm := recordScopedBlockedDispatchMetrics (sc_scopedMetrics st) task block in
  let st := mkScan (sc_classLimited st) (sc_essentialLimited st) bm sm in
  let task := normalizeTask task in
  if decide (task_Kind task = TaskKindEssential) then
    if String.eqb (b_reason block) "essential_limit" then mkScan (sc_classLimited st) true bm sm else st
  else if negb (String.eqb (b_reason block) "class_limit") then st
  else
    let priority := VolatilityPriority (task_VolatilityClass task) in
    if (0 <=? priority) && (priority <? 3)
    then mkScan (<[Z.to_nat priority := true]> (sc_classLimited st)) (sc_essentialLimited st) bm sm
    else st.

Definition flushBlockedMetrics (st : dispatchScanState) (s : Sched) : dispatchScanState * Sched :=
  let s := emit_all (map (λ '(v, r), IncSchedulerBackpressure v r) (elements (sc_blockedMetrics st))) s in
  let s := emit_all (map (λ '(k, v, r, sc, id, nm), IncSchedulerScopedBackpressure k v r sc id nm)
                         (elements (sc_scopedMetrics st))) s in
  (mkScan (sc_classLimited st) (sc_essentialLimited st) ∅ ∅, s).
