(* ===== verification/SchedOps.v ===== *)
(** * The polling scheduler: queueing, dispatch, refresh and completion

    The operations of [internal/scheduler/scheduler.go] that move items between the
    due-time heap, the ready lanes and the in-flight set. *)

From S2P Require Import Prelude GoLib Domain Policy GoHeap SchedTypes Scheduler.

(** ** Ready lanes *)

(** The lane of a task, out-of-range priorities falling into the last lane. *)
Definition lane_of (task : PollTask) : nat :=
  let priority := readyPriority task in
  if (priority <? 0) || (3 <=? priority) then 2%nat else Z.to_nat priority.

Definition enqueue_with (put : loc → list loc → list loc) (l : loc) (s : Sched) : Sched :=
  if item_queued (item_at s l) then s
  else
    let s := upd_item l (λ it, it <| item_task := normalizeTask (item_task it) |>) s in
    let lane := lane_of (item_task (item_at s l)) in
    let s := upd_item l (λ it, it <| item_queued := true |>
                                  <| item_task := item_task it <| task_DueAt := item_dueAt it |> |>) s in
    s <| s_ready := alter (put l) lane (s_ready s) |>.

Definition enqueueReady : loc → Sched → Sched := enqueue_with (λ l q, q ++ [l]).
Definition pushReadyFront : loc → Sched → Sched := enqueue_with (λ l q, l :: q).

Definition readyQueuesEmpty (s : Sched) : bool := forallb (λ q : list loc, bool_decide (q = [])) (s_ready s).

(** Removes the first occurrence of [l] from the first lane that holds it. *)
Fixpoint remove_first (l : loc) (q : list loc) : option (list loc) :=
  match q with
  | [] => None
  | x :: r => if bool_decide (x = l) then Some r else (x ::.) <$> remove_first l r
  end.
Fixpoint remove_lanes (l : loc) (lanes : list (list loc)) : option (list (list loc)) :=
  match lanes with
  | [] => None
  | q :: r => match remove_first l q with
              | Some q' => Some (q' :: r)
              | None => (q ::.) <$> remove_lanes l r
              end
  end.
Definition removeReadyItem (l : loc) (s : Sched) : Sched :=
  match remove_lanes l (s_ready s) with
  | Some lanes => upd_item l (λ it, it <| item_queued := false |>) (s <| s_ready := lanes |>)
  | None => s
  end.

(** ** Selecting the next task to dispatch *)

(** Does the pass over [kind] skip this task?  [TaskKindNone] selects recurring background work. *)
Definition kind_skips (kind : TaskKind) (task : PollTask) : bool :=
  match kind with
  | TaskKindNone => bool_decide (task_Kind task = TaskKindEssential) || bool_decide (task_Kind task = TaskKindBootstrap)
  | _ => negb (bool_decide (task_Kind task = kind))
  end.

(** The inner loop over one lane: [pre] are the items already passed over. *)
Fixpoint scan_lane (limits : dispatchLimitsT) (kind : TaskKind) (pre q : list loc)
  (st : dispatchScanState) (s : Sched) : option (loc * list loc) * dispatchScanState * Sched :=
  match q with
  | [] => (None, st, s)
  | l :: r =>
    let s := upd_item l (λ it, it <| item_task := normalizeTask (item_task it) |>) s in
    let task := item_task (item_at s l) in
    if kind_skips kind task then scan_lane limits kind (pre ++ [l]) r st s
    else if isKnownBlocked st task then scan_lane limits kind (pre ++ [l]) r st s
    else
      let block := dispatchBlockWithLimits (s_counters s) task limits in
      if negb (String.eqb (b_reason block) "")
      then scan_lane limits kind (pre ++ [l]) r (recordBlocked task block st) s
      else (Some (l, pre ++ r), st, s)
  end.

Fixpoint scan_lanes (limits : dispatchLimitsT) (kind : TaskKind) (lanes : list nat)
  (st : dispatchScanState) (s : Sched) : option loc * dispatchScanState * Sched :=
  match lanes with
  | [] => (None, st, s)
  | p :: r =>
    match scan_lane limits kind [] (default [] (s_ready s !! p)) st s with
    | (Some (l, q), st, s) =>
      (Some l, st, upd_item l (λ it, it <| item_queued := false |>) (s <| s_ready := <[p := q]> (s_ready s) |>))
    | (None, st, s) => scan_lanes limits kind r st s
    end
  end.

Definition popReadyEligibleKind (limits : dispatchLimitsT) (kind : TaskKind)
  : dispatchScanState → Sched → option loc * dispatchScanState * Sched :=
  scan_lanes limits kind [0; 1; 2]%nat.

Definition popReadyEligible (limits : dispatchLimitsT) (st : dispatchScanState) (s : Sched)
  : option loc * dispatchScanState * Sched :=
  match popReadyEligibleKind limits TaskKindEssential st s with
  | (Some l, st, s) => (Some l, st, s)
  | (None, st, s) =>
    match popReadyEligibleKind limits TaskKindBootstrap st s with
    | (Some l, st, s) => (Some l, st, s)
    | (None, st, s) =>
      match popReadyEligibleKind limits TaskKindNone st s with
      | (Some l, st, s) => (Some l, st, s)
      | (None, st, s) => let '(st, s) := flushBlockedMetrics st s in (None, st, s)
      end
    end
  end.

(** ** Dispatch *)

Inductive stopReason :=
| StopReadyEmpty | StopGlobalLimit | StopNoEligibleTask | StopContextDone
| StopSendBlocked   (* the send on [s.tasks] waits for the consumer, the lock being held *)
| StopOutOfFuel.
#[export] Instance stopReason_eq_dec : EqDecision stopReason.
Proof. solve_decision. Defined.

Definition recordBackpressure (reason : string) (s : Sched) : Sched :=
  emit_all (flat_map (λ v, if bool_decide (default [] (s_ready s !! Z.to_nat (VolatilityPriority v)) = []) then []
                           else [IncSchedulerBackpressure v reason]) scheduledVolatilityClasses) s.

(** The task value sent to the workers for item [it]. *)
Definition dispatch_task (runID : Z) (now : Time) (it : heapItem) : PollTask :=
  let task := normalizeTask (item_task it) in
  let lag := Time_Sub now (item_dueAt it) in
  let deadline := Time_Add (item_dueAt it) (item_interval it) in
  task <| task_RunID := runID |> <| task_DueAt := item_dueAt it |>
       <| task_QueueLag := if lag <? 0 then 0 else lag |>
       <| task_DeadlineAt := deadline |>
       <| task_DeadlineMissed := negb (Time_IsZero deadline) && Time_After now deadline |>
       <| task_SkippedWindows := item_skippedWindows it |>.

(** The successful branch of the select: the item becomes in flight. *)
Definition dispatch_send (now : Time) (l : loc) (task : PollTask) (s : Sched) : Sched :=
  let s := s <| s_tasks := s_tasks s ++ [task] |> in
  let s := upd_item l (λ it, it <| item_inFlight := true |> <| item_dispatchedAt := now |>
                                <| item_runID := s_runID s |> <| item_task := task |>) s in
  let c := s_counters s in
  let c := c <| c_inFlight := c_inFlight c + 1 |> in
  let s := s <| s_counters := incrementInFlight task c |> in
  let s := if bool_decide (task_Kind task = TaskKindEssential) && task_DeadlineMissed task
           then emit IncPollingDeadlineMiss (s <| s_deadlineMissTotal := s_deadlineMissTotal s + 1 |>)
           else s in
  emit (IncSchedulerTaskDispatchForTask (TaskKind_string (task_Kind task)) (taskVolatilityForMetrics task)) s.

(** [ctxDone n] tells whether the [n]-th select takes the [ctx.Done()] branch. *)
Fixpoint dispatch_loop (fuel : nat) (limits : dispatchLimitsT) (now : Time) (ctxDone : nat → bool) (n : nat)
  (st : dispatchScanState) (s : Sched) : stopReason * dispatchScanState * Sched :=
  match fuel with
  | O => (StopOutOfFuel, st, s)
  | S fuel' =>
    if dl_globalLimit limits <=? c_inFlight (s_counters s)
    then (StopGlobalLimit, st, recordBackpressure "global_limit" s)
    else
      match popReadyEligible limits st s with
      | (None, st, s) => (StopNoEligibleTask, st, s)
      | (Some l, st, s) =>
        let it := item_at s l in
        if item_disabled it
        then dispatch_loop fuel' limits now ctxDone n st (items_delete (task_Key (item_task it)) s)
        else
          let task := dispatch_task (s_runID s) now it in
          if ctxDone n then (StopContextDone, st, pushReadyFront l s)
          else if Z.of_nat (length (s_tasks s)) <? s_tasksCap s
          then dispatch_loop fuel' limits now ctxDone (S n) st (dispatch_send now l task s)
          else (StopSendBlocked, st, s)
      end
  end.

Definition ready_count (s : Sched) : nat := length (concat (s_ready s)).

(** Every round of the loop takes one item out of the ready lanes. *)
Definition dispatchReady (e : Env) (now : Time) (ctxDone : nat → bool) (s : Sched) : stopReason * Sched :=
  if readyQueuesEmpty s then (StopReadyEmpty, s)
  else
    let '(r, st, s) := dispatch_loop (S (ready_count s)) (dispatchLimits e s) now ctxDone 0 newScanState s in
    (r, snd (flushBlockedMetrics st s)).

(** ** Due tasks *)

Definition markSkippedWindow (l : loc) (s : Sched) : Sched :=
  if item_pending (item_at s l) then s
  else emit (IncSchedulerBackpressure (taskVolatilityForMetrics (item_task (item_at s l))) "skipped_window")
         (upd_item l (λ it, it <| item_pending := true |> <| item_skippedWindows := item_skippedWindows it + 1 |>) s).

Definition markElapsedInFlightWindows (e : Env) (now : Time) (s : Sched) : Sched :=
  if c_inFlight (s_counters s) <=? 0 then s
  else
    foldl (λ s '(_, l),
      let it := item_at s l in
      if negb (item_inFlight it) || Time_After (item_dueAt it) now then s
      else if (0 <? item_interval it) && Time_Before now (Time_Add (item_dueAt it) (item_interval it)) then s
      else markSkippedWindow l s) s (env_range e (s_items s)).

(** One iteration for the earliest item; [None] when it is not due. *)
Definition moveDue_step (now : Time) (s : Sched) : option Sched :=
  match s_heap s with
  | [] => None
  | next :: _ =>
    if Time_After (item_dueAt (item_at s next)) now then None
    else match heap_Pop s with
    | None => None
    | Some (l, s) =>
      let it := item_at s l in
      Some (if item_disabled it then items_delete (task_Key (item_task it)) s
            else if item_inFlight it then markSkippedWindow l s
            else if item_queued it then markSkippedWindow l s
            else enqueueReady l s)
    end
  end.

Fixpoint moveDue_loop (fuel : nat) (now : Time) (s : Sched) : Sched :=
  match fuel with
  | O => s
  | S fuel' => match moveDue_step now s with None => s | Some s' => moveDue_loop fuel' now s' end
  end.

(** Every round pops one heap item, so the heap length bounds the rounds. *)
Definition moveDueTasksToReady (e : Env) (now : Time) (s : Sched) : Sched :=
  let s := markElapsedInFlightWindows e now s in
  moveDue_loop (length (s_heap s)) now s.

(** ** Scheduling items *)

Definition newTask (key : TaskKey) (kind : TaskKind) (lane : Lane) (device : Device) (volatility : VolatilityClass)
  (interval : Duration) (dueAt : Time) : PollTask :=
  mkPollTask key 0 kind lane device (dev_PollClass device) volatility interval dueAt (Time_Add dueAt interval) 0 false 0.
Definition newItem (task : PollTask) (dueAt : Time) (interval : Duration) : heapItem :=
  mkHeapItem task dueAt 0 0 interval false false false false false 0 (-1).

(** The assignments shared by the update of an existing item, for a due time [dueAt]. *)
Definition refresh_item (key : TaskKey) (kind : TaskKind) (lane : Lane) (device : Device)
  (volatility : VolatilityClass) (interval : Duration) (dueAt : Time) (it : heapItem) : heapItem :=
  it <| item_disabled := false |>
     <| item_task := item_task it <| task_Key := key |> <| task_Kind := kind |> <| task_Lane := lane |>
                       <| task_Device := device |> <| task_PollClass := dev_PollClass device |>
                       <| task_VolatilityClass := volatility |> <| task_ExpectedInterval := interval |>
                       <| task_DueAt := dueAt |> <| task_DeadlineAt := Time_Add dueAt interval |> |>
     <| item_interval := interval |> <| item_dueAt := dueAt |>.

Definition upsertScheduledItem (device : Device) (key : TaskKey) (kind : TaskKind) (lane : Lane)
  (volatility : VolatilityClass) (interval : Duration) (now : Time) (s : Sched) : Sched :=
  match s_items s !! key with
  | Some l => upd_item l (λ it, refresh_item key kind lane device volatility interval (item_dueAt it) it) s
  | None =>
    let dueAt := Time_Add now (initialOffsetForKey key interval) in
    let '(l, s) := alloc (newItem (newTask key kind lane device volatility interval dueAt) dueAt interval) s in
    items_insert key l (heap_Push l s)
  end.

Definition applyBootstrapSchedule (l : loc) (device : Device) (dueAt : Time) (interval : Duration) : Sched → Sched :=
  upd_item l (refresh_item (NewBootstrapTaskKey (dev_ID device)) TaskKindBootstrap LaneBootstrap device
                VolatilityClassStatic interval dueAt).
Definition applyPerformanceRedue (l : loc) (device : Device) (changedAt : Time) (interval : Duration) : Sched → Sched :=
  upd_item l (refresh_item (NewTaskKey (dev_ID device) VolatilityClassPerformance) TaskKindBackground LaneBackground
                device VolatilityClassPerformance interval changedAt).
Definition applyEssentialRedue (l : loc) (device : Device) (changedAt : Time) (interval : Duration) : Sched → Sched :=
  upd_item l (refresh_item (NewEssentialTaskKey (dev_ID device)) TaskKindEssential LaneEssential device
                VolatilityClassNone interval changedAt).

(** Where an item made immediately due goes, by its current position. *)
Definition reposition (l : loc) (s : Sched) : Sched :=
  let it := item_at s l in
  if item_inFlight it then upd_item l (λ it, it <| item_pending := true |> <| item_immediateRerun := true |>) s
  else if item_queued it then pushReadyFront l (removeReadyItem l s)
  else if 0 <=? item_index it then heap_Fix (item_index it) s
  else pushReadyFront l s.

(** A new item placed at the front of its ready lane. *)
Definition add_ready_front (key : TaskKey) (task : PollTask) (dueAt : Time) (interval : Duration) (s : Sched) : Sched :=
  let '(l, s) := alloc (newItem task dueAt interval) s in
  pushReadyFront l (items_insert key l s).

Definition scheduleBootstrapItem (device : Device) (dueAt : Time) (s : Sched) : Sched :=
  let key := NewBootstrapTaskKey (dev_ID device) in
  let interval := StaticClassInterval in
  match s_items s !! key with
  | Some l => reposition l (applyBootstrapSchedule l device dueAt interval s)
  | None => add_ready_front key
      (newTask key TaskKindBootstrap LaneBootstrap device VolatilityClassStatic interval dueAt) dueAt interval s
  end.

Definition see (k : TaskKey) (seen : option (gset TaskKey)) : option (gset TaskKey) := (λ m, {[k]} ∪ m) <$> seen.

Definition scheduleRecurringDeviceLocked (device : Device) (now : Time) (st : Sched * option (gset TaskKey))
  : Sched * option (gset TaskKey) :=
  let '(s, seen) := st in
  let '(s, seen) :=
    if shouldScheduleEssentialTask device then
      let key := NewEssentialTaskKey (dev_ID device) in
      (upsertScheduledItem device key TaskKindEssential LaneEssential VolatilityClassNone
         (EssentialInterval device) now s, see key seen)
    else (s, seen) in
  let '(s, seen) :=
    if shouldScheduleBootstrapTask device then
      let key := NewBootstrapTaskKey (dev_ID device) in
      (match s_items s !! key with
       | Some l => applyBootstrapSchedule l device (item_dueAt (item_at s l)) StaticClassInterval s
       | None => scheduleBootstrapItem device now s
       end, see key seen)
    else (s, seen) in
  foldl (λ '(s, seen) volatility,
    let key := NewBackgroundTaskKey (dev_ID device) volatility in
    (upsertScheduledItem device key TaskKindBackground LaneBackground volatility
       (EffectiveInterval device volatility) now s, see key seen))
    (s, seen) (scheduledBackgroundVolatilityClassesForDevice device).

(** One iteration of the sweep over the items that were not seen. *)
Definition sweep_item (seen : gset TaskKey) (s : Sched) (kl : TaskKey * loc) : Sched :=
  let '(key, l) := kl in
  if decide (key ∈ seen) then s
  else
    let it := item_at s l in
    if item_inFlight it || item_queued it then upd_item l (λ it, it <| item_disabled := true |>) s
    else items_delete key (if 0 <=? item_index it then heap_Remove (item_index it) s else s).

Definition refreshDevices (e : Env) (now : Time) (s : Sched) : result Sched :=
  let! devices := env_GetDevices e in
  let s := emit (RetainDeviceMetrics devices) s in
  let '(s, seen) := foldl (λ st d, if shouldScheduleRecurringDevice d then scheduleRecurringDeviceLocked d now st else st)
                          (s, Some ∅) devices in
  let s := foldl (sweep_item (default ∅ seen)) s (env_range e (s_items s)) in
  let '(policy, warnings) := PolicyFromSettings (env_ParseFloat e) (env_settings e) (managedDeviceCount devices)
                               (300 * Millisecond) (shortestEssentialInterval devices) in
  Ok (s <| s_lastWarnings := warnings |> <| s_degradedRisk := DegradedRisk policy |>).

(** One iteration of the removal of a device's tasks. *)
Definition remove_item (deviceID : UUID) (s : Sched) (kl : TaskKey * loc) : Sched :=
  let '(key, l) := kl in
  if negb (key_DeviceID key =? deviceID) then s
  else
    let s := if item_queued (item_at s l) then removeReadyItem l s else s in
    let s := if 0 <=? item_index (item_at s l) then heap_Remove (item_index (item_at s l)) s else s in
    let s := upd_item l (λ it, it <| item_pending := false |>) s in
    if item_inFlight (item_at s l) then upd_item l (λ it, it <| item_disabled := true |>) s
    else items_delete key s.

Definition removeDeviceTasksLocked (e : Env) (deviceID : UUID) (s : Sched) : Sched :=
  foldl (remove_item deviceID) s (env_range e (s_items s)).

(** ** Completion *)

Definition handleCompletion (e : Env) (c : Completion) (s : Sched) : Sched :=
  match s_items s !! comp_Key c with
  | None => s
  | Some l =>
    let it := item_at s l in
    if negb (item_inFlight it) then s
    else
      let finishedAt := if Time_IsZero (comp_FinishedAt c) then env_now e else comp_FinishedAt c in
      if negb (Time_IsZero (item_dispatchedAt it)) && Time_Before finishedAt (item_dispatchedAt it) then s
      else if negb (comp_RunID c =? item_runID it) then s
      else
        let s := if negb (Time_IsZero (item_dispatchedAt it))
                 then emit (ObserveSchedulerTaskDuration (task_VolatilityClass (item_task it))
                              (Time_Sub finishedAt (item_dispatchedAt it))) s
                 else s in
        let cs := s_counters s in
        let cs := cs <| c_inFlight := c_inFlight cs - 1 |> in
        let s := s <| s_counters := decrementInFlight (item_task it) cs |> in
        let s := upd_item l (λ it, it <| item_inFlight := false |> <| item_dispatchedAt := 0 |> <| item_runID := 0 |>
                                      <| item_task := item_task it <| task_RunID := 0 |> |>) s in
        if item_disabled it then items_delete (comp_Key c) s
        else
          let overdue := (0 <? item_interval it) && Time_After finishedAt (Time_Add (item_dueAt it) (item_interval it)) in
          let s := upd_item l (λ it, it <| item_pending := false |> <| item_immediateRerun := false |>) s in
          if item_immediateRerun it
             || (bool_decide (task_Kind (item_task it) = TaskKindEssential) && (item_pending it || overdue))
          then
            enqueueReady l
              (upd_item l (λ it, it <| item_dueAt := finishedAt |>
                 <| item_task := item_task it <| task_DueAt := finishedAt |>
                                              <| task_DeadlineAt := Time_Add finishedAt (item_interval it) |> |>) s)
          else
            let next := if taskIsBackground (item_task it)
                        then nextPhaseAfter (item_dueAt it) (item_interval it) finishedAt
                        else jitteredNext finishedAt (item_interval it) (env_sample e) in
            heap_Push l
              (upd_item l (λ it, it <| item_dueAt := next |>
                 <| item_task := item_task it <| task_DueAt := next |>
                                              <| task_DeadlineAt := Time_Add next (item_interval it) |> |>
                 <| item_skippedWindows := 0 |>) s)
  end.

(** ** Redue requests *)

Definition sourceIncludesDevice (e : Env) (deviceID : UUID) : bool :=
  match env_IncludesDevice e with
  | None => true
  | Some gate => match gate deviceID with Ok b => b | Err _ => false end
  end.

(** The guards shared by the two redue handlers. *)
Definition redue_admissible (e : Env) (device : Device) : bool :=
  shouldScheduleRecurringDevice device && sourceIncludesDevice e (dev_ID device)
  && negb (String.eqb (dev_DeviceType device) DeviceTypeVirtual).

Definition handleReduePerformanceTask (e : Env) (request : redueRequest) (s : Sched) : Sched :=
  let device := rq_device request in
  if negb (redue_admissible e device) then s
  else
    let changedAt := if Time_IsZero (rq_changedAt request) then env_now e else rq_changedAt request in
    if shouldScheduleBootstrapTask device then scheduleBootstrapItem device changedAt s
    else
      let key := NewTaskKey (dev_ID device) VolatilityClassPerformance in
      let interval := EffectiveInterval device VolatilityClassPerformance in
      match s_items s !! key with
      | Some l => reposition l (applyPerformanceRedue l device changedAt interval s)
      | None => add_ready_front key
          (newTask key TaskKindBackground LaneBackground device VolatilityClassPerformance interval changedAt)
          changedAt interval s
      end.

Definition handleRedueEssentialTask (e : Env) (request : redueRequest) (s : Sched) : Sched :=
  let device := rq_device request in
  if negb (redue_admissible e device) then s
  else
    let changedAt := if Time_IsZero (rq_changedAt request) then env_now e else rq_changedAt request in
    let key := NewEssentialTaskKey (dev_ID device) in
    let interval := EssentialInterval device in
    match s_items s !! key with
    | Some l => reposition l (applyEssentialRedue l device changedAt interval s)
    | None => add_ready_front key
        (newTask key TaskKindEssential LaneEssential device VolatilityClassNone interval changedAt)
        changedAt interval s
    end.

Definition handleRedue (e : Env) (request : redueRequest) (s : Sched) : Sched :=
  match rq_taskKind request with
  | TaskKindEssential => handleRedueEssentialTask e request s
  | _ => handleReduePerformanceTask e request s
  end.
