(* ===== verification/SchedInv.v ===== *)
(** * Structural invariant of the scheduler

    Every scheduled item is in exactly one place: the due-time heap, one ready lane, or
    in flight; the heap indices stored in the items are exact and the heap is ordered.
    [INV F T s] says so with [F] the in-flight items and [T] the items held by the
    operation that is running (empty between operations).  The lemmas of this file are
    the moves between these places; every scheduler operation is a composition of them. *)

From S2P Require Import Prelude GoLib GoText Domain Policy GoHeap SchedTypes Scheduler SchedOps.

(** ** The order of the heap *)

(** What [taskHeap.Less] compares. *)
Definition sort_key (it : heapItem) : Z * Z * string :=
  (item_dueAt it, heapPriority (item_task it), uuid_String (key_DeviceID (task_Key (item_task it)))).

Definition key_lt (a b : Z * Z * string) : bool :=
  let '(ta, pa, ia) := a in
  let '(tb, pb, ib) := b in
  if ta =? tb then if pa =? pb then string_ltb ia ib else pa <? pb else ta <? tb.

Lemma item_less_key_lt a b : item_less a b = key_lt (sort_key a) (sort_key b).
Proof. reflexivity. Qed.

#[export] Instance key_lt_swo : StrictWeakOrder key_lt.
Proof.
  split.
  - intros [[t p] i]. simpl. rewrite !Z.eqb_refl. apply string_ltb_irrefl.
  - intros [[ta pa] ia] [[tb pb] ib] [[tc pc] ic]. simpl.
    destruct (Z.eqb_spec ta tb), (Z.eqb_spec tb tc), (Z.eqb_spec ta tc); try lia;
      rewrite ?Z.ltb_ge; try lia.
    destruct (Z.eqb_spec pa pb), (Z.eqb_spec pb pc), (Z.eqb_spec pa pc); try lia;
      rewrite ?Z.ltb_ge; try lia. apply string_nlt_trans.
  - intros [[ta pa] ia] [[tb pb] ib]. simpl. rewrite (Z.eqb_sym tb ta), (Z.eqb_sym pb pa).
    destruct (Z.eqb_spec ta tb); [destruct (Z.eqb_spec pa pb)|];
      rewrite ?Z.ltb_lt, ?Z.ltb_ge; [apply string_ltb_asym|lia..].
Qed.

(** The heap as the list of its pointers with what they are compared by. *)
Definition heap_view (s : Sched) : list (loc * (Z * Z * string)) :=
  (λ l, (l, sort_key (item_at s l))) <$> s_heap s.
Definition view_lt (a b : loc * (Z * Z * string)) : bool := key_lt a.2 b.2.

#[export] Instance view_lt_swo : StrictWeakOrder view_lt.
Proof.
  split; unfold view_lt; intros.
  - apply swo_irrefl.
  - by eapply swo_nlt_trans.
  - by apply swo_asym.
Qed.

(** ** Frame of the heap operations *)

(** The state without the memory and the heap. *)
Definition erase (s : Sched) : Sched := s <| s_store := ∅ |> <| s_heap := [] |>.

(** [s] is [s0] with the heap reordered and only index fields of the items of [D] changed. *)
Record heap_frame (D : list loc) (s0 s : Sched) : Prop := {
  hf_rest : erase s = erase s0;
  hf_in : ∀ l, l ∈ D → set_index 0 <$> s_store s !! l = set_index 0 <$> s_store s0 !! l;
  hf_out : ∀ l, l ∉ D → s_store s !! l = s_store s0 !! l }.

(** The heap slots hold distinct allocated items that know their index. *)
Definition index_ok (s : Sched) : Prop :=
  NoDup (s_heap s) ∧
  ∀ i l, s_heap s !! i = Some l → ∃ it, s_store s !! l = Some it ∧ item_index it = Z.of_nat i.

Definition heap_ok (D : list loc) (s0 s : Sched) : Prop :=
  heap_frame D s0 s ∧ index_ok s ∧ (∀ l, l ∈ s_heap s → l ∈ D).

Lemma item_at_Some s l it : s_store s !! l = Some it → item_at s l = it.
Proof. unfold item_at. by intros ->. Qed.

Lemma store_upd_item l f s k :
  s_store (upd_item l f s) !! k = if decide (l = k) then f <$> s_store s !! k else s_store s !! k.
Proof. simpl. rewrite lookup_alter. by case_decide; subst. Qed.

Lemma item_at_upd_ne l f s k : l ≠ k → item_at (upd_item l f s) k = item_at s k.
Proof. intros. unfold item_at. rewrite store_upd_item. by rewrite decide_False. Qed.

Lemma item_at_upd_eq l f s it : s_store s !! l = Some it → item_at (upd_item l f s) l = f it.
Proof. intros Hl. unfold item_at. rewrite store_upd_item, decide_True by done. by rewrite Hl. Qed.

Lemma sort_key_set_index i it : sort_key (set_index i it) = sort_key it.
Proof. by destruct it. Qed.

Lemma set_index_set_index i j it : set_index i (set_index j it) = set_index i it.
Proof. by destruct it. Qed.

Lemma sort_key_mod_index (a b : option heapItem) :
  set_index 0 <$> a = set_index 0 <$> b →
  sort_key (default zeroItem a) = sort_key (default zeroItem b).
Proof.
  destruct a as [a|], b as [b|]; simpl; try done. intros E%(inj Some).
  rewrite <- (sort_key_set_index 0 a), <- (sort_key_set_index 0 b). by rewrite E.
Qed.

Lemma heap_view_length s : length (heap_view s) = length (s_heap s).
Proof. apply length_fmap. Qed.

Lemma heap_view_lookup s i : heap_view s !! i = (λ l, (l, sort_key (item_at s l))) <$> s_heap s !! i.
Proof. apply list_lookup_fmap. Qed.

Lemma swap_store s i j a b k :
  s_heap s !! i = Some a → s_heap s !! j = Some b →
  s_store (taskHeap_Swap i j s) !! k =
    if decide (k = a) then set_index (Z.of_nat j) <$> s_store s !! k
    else if decide (k = b) then set_index (Z.of_nat i) <$> s_store s !! k else s_store s !! k.
Proof.
  intros Ha Hb. unfold taskHeap_Swap. rewrite Ha, Hb. rewrite !store_upd_item. simpl.
  repeat case_decide; subst; try done. by destruct (s_store s !! k); simpl; rewrite ?set_index_set_index.
Qed.

Lemma swap_heap s i j a b :
  s_heap s !! i = Some a → s_heap s !! j = Some b → s_heap (taskHeap_Swap i j s) = lswap i j (s_heap s).
Proof. intros Ha Hb. unfold taskHeap_Swap. by rewrite Ha, Hb. Qed.

Lemma swap_mod_index s i j k :
  set_index 0 <$> s_store (taskHeap_Swap i j s) !! k = set_index 0 <$> s_store s !! k.
Proof.
  destruct (s_heap s !! i) as [a|] eqn:Ha, (s_heap s !! j) as [b|] eqn:Hb;
    try by (unfold taskHeap_Swap; rewrite Ha, ?Hb).
  rewrite (swap_store s i j a b) by done. repeat case_decide; try done;
    destruct (s_store s !! k); simpl; by rewrite ?set_index_set_index.
Qed.

Lemma heap_view_swap s i j :
  (i < length (s_heap s))%nat → (j < length (s_heap s))%nat →
  heap_view (taskHeap_Swap i j s) = lswap i j (heap_view s).
Proof.
  intros Hi Hj. destruct (lookup_lt_is_Some_2 _ _ Hi) as [a Ha], (lookup_lt_is_Some_2 _ _ Hj) as [b Hb].
  apply list_eq. intros k.
  rewrite heap_view_lookup, (swap_heap s i j a b), !lswap_lookup, !heap_view_lookup
    by (rewrite ?heap_view_length; done).
  assert (Hk : ∀ l, sort_key (item_at (taskHeap_Swap i j s) l) = sort_key (item_at s l)).
  { intros l. apply sort_key_mod_index, swap_mod_index. }
  assert (Hf : ∀ o : option loc, (λ l, (l, sort_key (item_at (taskHeap_Swap i j s) l))) <$> o
                                 = (λ l, (l, sort_key (item_at s l))) <$> o).
  { intros [l|]; simpl; [by rewrite Hk|done]. }
  rewrite Hf. repeat case_decide; done.
Qed.

Lemma swap_index_ok s i j :
  (i < length (s_heap s))%nat → (j < length (s_heap s))%nat → index_ok s → index_ok (taskHeap_Swap i j s).
Proof.
  intros Hi Hj [Hnd Hix].
  destruct (lookup_lt_is_Some_2 _ _ Hi) as [a Ha], (lookup_lt_is_Some_2 _ _ Hj) as [b Hb].
  split; [rewrite (swap_heap s i j a b), lswap_perm by done; done|].
  intros k l. rewrite (swap_heap s i j a b), lswap_lookup, (swap_store s i j a b) by done.
  assert (Hinj : ∀ k, s_heap s !! k = Some a → k = i) by (intros; by eapply NoDup_lookup).
  assert (Hinj' : ∀ k, s_heap s !! k = Some b → k = j) by (intros; by eapply NoDup_lookup).
  intros Hk. case_decide as Ek.
  - subst k. assert (l = b) as -> by congruence. destruct (Hix j b Hb) as (it & Hit & Hidx). rewrite Hit.
    case_decide as El; [subst; assert (j = i) by (by apply Hinj); subst|rewrite decide_True by done];
      eexists; by split.
  - case_decide as Ek'.
    + subst k. assert (l = a) as -> by congruence. destruct (Hix i a Ha) as (it & Hit & Hidx). rewrite Hit, decide_True by done.
      eexists; by split.
    + destruct (Hix k l Hk) as (it & Hit & Hidx).
      rewrite !decide_False by (intros ->; naive_solver). eauto.
Qed.

#[export] Instance taskHeap_view D s0 : HeapView Sched view_lt heap_view (heap_ok D s0).
Proof.
  split.
  - intros s _. by rewrite heap_view_length.
  - intros s i j a b _. rewrite !heap_view_lookup. simpl. unfold taskHeap_Less.
    destruct (s_heap s !! i), (s_heap s !! j); simpl; intros; by simplify_eq.
  - intros s i j (Hf & Hix & HD). rewrite heap_view_length. intros Hi Hj. simpl.
    destruct (lookup_lt_is_Some_2 _ _ Hi) as [a Ha], (lookup_lt_is_Some_2 _ _ Hj) as [b Hb].
    split_and!; [|by apply swap_index_ok|].
    + split.
      * rewrite <- (hf_rest _ _ _ Hf). unfold taskHeap_Swap. by rewrite Ha, Hb.
      * intros l Hl. rewrite swap_mod_index. by apply (hf_in _ _ _ Hf).
      * intros l Hl. rewrite (swap_store s i j a b) by done.
        assert (l ≠ a) by (intros ->; apply Hl, HD, list_elem_of_lookup; eauto).
        assert (l ≠ b) by (intros ->; apply Hl, HD, list_elem_of_lookup; eauto).
        rewrite !decide_False by done. by apply (hf_out _ _ _ Hf).
    + intros l. rewrite (swap_heap s i j a b), lswap_perm by done. apply HD.
  - intros s i j _. rewrite heap_view_length. intros Hi Hj. by apply heap_view_swap.
Qed.

(** ** The heap operations on the scheduler *)

Definition heap_order (s : Sched) : Prop := heap_upto view_lt (length (s_heap s)) (heap_view s).

Lemma heap_view_fst s : (heap_view s).*1 = s_heap s.
Proof. unfold heap_view. rewrite <- list_fmap_compose. simpl. apply list_fmap_id. Qed.

Lemma heap_frame_refl D s : heap_frame D s s.
Proof. by split. Qed.

Lemma heap_frame_trans D s1 s2 s3 : heap_frame D s1 s2 → heap_frame D s2 s3 → heap_frame D s1 s3.
Proof.
  intros [A1 B1 C1] [A2 B2 C2]. split.
  - by rewrite A2.
  - intros l Hl. by rewrite B2, B1.
  - intros l Hl. by rewrite C2, C1.
Qed.

Lemma heap_frame_weaken D D' s1 s2 : (∀ l, l ∈ D → l ∈ D') → heap_frame D s1 s2 → heap_frame D' s1 s2.
Proof.
  intros Hsub [A B C]. split; [done| |].
  - intros l Hl. destruct (decide (l ∈ D)); [by apply B|by rewrite C].
  - intros l Hl. apply C. naive_solver.
Qed.

Lemma heap_frame_upd_index D l i s : l ∈ D → heap_frame D s (upd_item l (set_index i) s).
Proof.
  intros Hl. split; [done| |].
  - intros k _. rewrite store_upd_item. case_decide; [|done].
    destruct (s_store s !! k); simpl; by rewrite ?set_index_set_index.
  - intros k Hk. rewrite store_upd_item. by rewrite decide_False by naive_solver.
Qed.

Lemma heap_frame_sort_key D s0 s l : heap_frame D s0 s → sort_key (item_at s l) = sort_key (item_at s0 l).
Proof.
  intros [_ B C]. apply sort_key_mod_index. destruct (decide (l ∈ D)); [by apply B|by rewrite C].
Qed.

Lemma shuffled_heap D s0 s s' :
  shuffled heap_view (heap_ok D s0) s s' → heap_frame D s0 s' ∧ index_ok s' ∧ s_heap s' ≡ₚ s_heap s.
Proof.
  intros [(Hf & Hix & _) Hp]. split_and!; [done..|].
  rewrite <- (heap_view_fst s'), <- (heap_view_fst s). by rewrite Hp.
Qed.

Lemma index_ok_heap_ok s : index_ok s → heap_ok (s_heap s) s s.
Proof. intros. split; [apply heap_frame_refl|done]. Qed.

Lemma heap_upto_prefix (n : nat) (v v' : list (loc * (Z * Z * string))) :
  (∀ k, (k < n)%nat → v !! k = v' !! k) → heap_upto view_lt n v → heap_upto view_lt n v'.
Proof.
  intros Hv Hh k Hk a b Ha Hb. pose proof (parent_lt k ltac:(lia)).
  apply (Hh k Hk); by rewrite Hv by lia.
Qed.

Lemma heap_Push_spec l s it :
  index_ok s → heap_order s → l ∉ s_heap s → s_store s !! l = Some it →
  heap_frame (l :: s_heap s) s (heap_Push l s) ∧ index_ok (heap_Push l s) ∧ heap_order (heap_Push l s) ∧
  s_heap (heap_Push l s) ≡ₚ l :: s_heap s.
Proof.
  intros [Hnd Hix] Ho Hl Hit. unfold heap_Push.
  set (s1 := taskHeap_Push l s). set (D := l :: s_heap s).
  assert (Hheap1 : s_heap s1 = s_heap s ++ [l]) by done.
  assert (Hf1 : heap_frame D s s1).
  { destruct (heap_frame_upd_index D l (Z.of_nat (length (s_heap s))) s ltac:(set_solver)) as [A B C]. by split. }
  assert (Hix1 : index_ok s1).
  { split.
    - rewrite Hheap1. apply NoDup_app. split_and!; [done| |apply NoDup_singleton]. set_solver.
    - intros i k. rewrite Hheap1. intros [Hk|[Hi Hk]]%lookup_app_Some.
      + destruct (Hix i k Hk) as (x & Hx & ?). exists x. split; [|done].
        unfold s1, taskHeap_Push. cbn. rewrite lookup_alter_ne; [done|].
        intros ->. apply Hl, list_elem_of_lookup; eauto.
      + apply list_lookup_singleton_Some in Hk as [Hi0 <-].
        exists (set_index (Z.of_nat (length (s_heap s))) it). split; [|simpl; lia].
        unfold s1, taskHeap_Push. cbn. by rewrite lookup_alter_eq, Hit. }
  assert (Hok1 : heap_ok D s s1).
  { split; [done|split; [done|]]. intros k. rewrite Hheap1. set_solver. }
  assert (Hlen1 : length (heap_view s1) = S (length (s_heap s))).
  { rewrite heap_view_length, Hheap1, length_app. simpl. lia. }
  assert (Hpre : ∀ k, (k < length (s_heap s))%nat → heap_view s !! k = heap_view s1 !! k).
  { intros k Hk. rewrite !heap_view_lookup, Hheap1, lookup_app_l by done.
    destruct (s_heap s !! k) as [x|]; simpl; [|done]. by rewrite (heap_frame_sort_key D s s1 x Hf1). }
  assert (Ho1 : heap_upto view_lt (length (s_heap s)) (heap_view s1)) by by eapply heap_upto_prefix.
  assert (Hlen : (taskHeap_Len s1 - 1)%nat = length (s_heap s)).
  { unfold taskHeap_Len. rewrite Hheap1, length_app. simpl. lia. }
  rewrite Hlen.
  destruct (up_spec view_lt heap_view (heap_ok D s) (S (length (s_heap s))) (length (s_heap s)) s1)
    as (Hs & Hh & _); [done|by rewrite Hlen1|lia| |].
  { split; intros k Hk; [intros Hne; apply Ho1; lia|].
    intros Hp. pose proof (parent_lt k ltac:(lia)). lia. }
  apply shuffled_heap in Hs as (? & ? & Hp).
  assert (Hp' : s_heap (up (length (s_heap s)) s1) ≡ₚ l :: s_heap s).
  { rewrite Hp, Hheap1. by rewrite Permutation_app_comm. }
  split_and!; [done..| |done]. unfold heap_order. by rewrite Hp'.
Qed.

(** The tail of [heap.Pop] and [heap.Remove]: drop the last slot. *)
Lemma taskHeap_Pop_spec D s0 s x :
  heap_ok D s0 s → heap_upto view_lt (length (s_heap s) - 1) (heap_view s) → last (heap_view s) = Some x →
  ∃ s', taskHeap_Pop s = Some (x.1, s') ∧ heap_frame D s0 s' ∧ index_ok s' ∧ heap_order s' ∧
    s_heap s ≡ₚ x.1 :: s_heap s' ∧ (∃ it, s_store s' !! x.1 = Some it ∧ item_index it = -1).
Proof.
  intros (Hf & [Hnd Hix] & HD) Hh Hx. unfold taskHeap_Pop. unfold heap_view in Hx. rewrite fmap_last in Hx.
  destruct (last (s_heap s)) as [l|] eqn:Hl; [|done]. simplify_eq/=.
  apply last_Some in Hl as [r Hr]. rewrite Hr in *. rewrite length_app, Nat.add_sub, take_app_length.
  assert (Hlr : l ∉ r) by (apply NoDup_app in Hnd; set_solver).
  assert (HlD : l ∈ D) by (apply HD; set_solver).
  destruct (Hix (length r) l) as (it & Hit & _); [by rewrite lookup_app_r, Nat.sub_diag by lia|].
  eexists. split; [done|].
  assert (Hf' : heap_frame D s (upd_item l (set_index (-1)) s <| s_heap := r |>)).
  { destruct (heap_frame_upd_index D l (-1) s HlD) as [A B C]. by split. }
  split_and!.
  - by eapply heap_frame_trans.
  - split; [by apply NoDup_app in Hnd as (? & _)|]. intros i k Hk. cbn in Hk.
    destruct (Hix i k) as (x & Hx & ?); [by rewrite lookup_app_l by (by eapply lookup_lt_Some)|].
    exists x. split; [|done]. cbn. rewrite lookup_alter_ne; [done|]. intros ->.
    apply Hlr, list_elem_of_lookup; eauto.
  - unfold heap_order. cbn [s_heap upd upd_s_heap]. rewrite length_app in Hh. simpl in Hh. rewrite Nat.add_sub in Hh.
    eapply heap_upto_prefix; [|exact Hh]. intros k Hk. rewrite !heap_view_lookup, Hr, lookup_app_l by done.
    cbn [s_heap upd upd_s_heap]. destruct (r !! k) as [y|]; simpl; [|done].
    by rewrite (heap_frame_sort_key _ _ _ y Hf').
  - cbn. by rewrite Permutation_app_comm.
  - exists (set_index (-1) it). split; [|done]. cbn. by rewrite lookup_alter_eq, Hit.
Qed.

Lemma heap_Pop_spec l r s :
  index_ok s → heap_order s → s_heap s = l :: r →
  ∃ s', heap_Pop s = Some (l, s') ∧ heap_frame (s_heap s) s s' ∧ index_ok s' ∧ heap_order s' ∧
    s_heap s ≡ₚ l :: s_heap s' ∧ (∃ it, s_store s' !! l = Some it ∧ item_index it = -1).
Proof.
  intros Hix Ho Hl.
  destruct (PopToLast_spec view_lt heap_view (heap_ok (s_heap s) s) s (l, sort_key (item_at s l)))
    as (Hs & Hh & Hlast); [by apply index_ok_heap_ok|by rewrite heap_view_length|by rewrite heap_view_lookup, Hl|].
  assert (Hlen := shuffled_length heap_view (heap_ok (s_heap s) s) _ _ Hs). rewrite !heap_view_length in Hlen.
  rewrite heap_view_length, <- Hlen in Hh.
  destruct (taskHeap_Pop_spec _ _ _ _ (proj1 Hs) Hh Hlast) as (s' & E & ? & ? & ? & Hp & ?).
  apply shuffled_heap in Hs as (_ & _ & Hp0).
  exists s'. split_and!; try done. by rewrite <- Hp0.
Qed.

Lemma heap_Remove_spec i l s :
  index_ok s → heap_order s → s_heap s !! i = Some l →
  let s' := heap_Remove (Z.of_nat i) s in
  heap_frame (s_heap s) s s' ∧ index_ok s' ∧ heap_order s' ∧
  s_heap s ≡ₚ l :: s_heap s' ∧ (∃ it, s_store s' !! l = Some it ∧ item_index it = -1).
Proof.
  intros Hix Ho Hl. unfold heap_Remove. rewrite Nat2Z.id.
  destruct (RemoveToLast_spec view_lt heap_view (heap_ok (s_heap s) s) i s (l, sort_key (item_at s l)))
    as (Hs & Hh & Hlast); [by apply index_ok_heap_ok|by rewrite heap_view_length|by rewrite heap_view_lookup, Hl|].
  assert (Hlen := shuffled_length heap_view (heap_ok (s_heap s) s) _ _ Hs). rewrite !heap_view_length in Hlen.
  rewrite heap_view_length, <- Hlen in Hh.
  destruct (taskHeap_Pop_spec _ _ _ _ (proj1 Hs) Hh Hlast) as (s' & -> & ? & ? & ? & Hp & ?).
  apply shuffled_heap in Hs as (_ & _ & Hp0). split_and!; try done. by rewrite <- Hp0.
Qed.

Lemma heap_Fix_spec i s :
  index_ok s → (i < length (s_heap s))%nat → down_hole view_lt (length (s_heap s)) i (heap_view s) →
  let s' := heap_Fix (Z.of_nat i) s in
  heap_frame (s_heap s) s s' ∧ index_ok s' ∧ heap_order s' ∧ s_heap s' ≡ₚ s_heap s.
Proof.
  intros Hix Hi Hhole. unfold heap_Fix. rewrite Nat2Z.id.
  destruct (Fix_spec view_lt heap_view (heap_ok (s_heap s) s) i s) as (Hs & Hh);
    [by apply index_ok_heap_ok|by rewrite heap_view_length..|].
  assert (Hlen := shuffled_length heap_view (heap_ok (s_heap s) s) _ _ Hs). rewrite !heap_view_length in Hlen.
  rewrite heap_view_length, <- Hlen in Hh.
  apply shuffled_heap in Hs as (? & ? & ?). by split_and!.
Qed.
