(* ===== verification/SchedMoves.v ===== *)
(** * Moves of an item between the heap, the ready lanes and the in-flight set

    [INV F T s] and one lemma per elementary move. *)

From S2P Require Import Prelude GoLib Domain Policy GoHeap SchedTypes Scheduler SchedOps SchedInv.

(** ** The invariant *)

(** Device, kind, volatility and lane of a task agree with its key. *)
Definition task_wf (t : PollTask) : Prop :=
  dev_ID (task_Device t) = key_DeviceID (task_Key t) ∧
  match key_Kind (task_Key t) with
  | TaskKindEssential =>
    task_Kind t = TaskKindEssential ∧ task_VolatilityClass t = VolatilityClassNone ∧ task_Lane t = LaneEssential
  | TaskKindBackground =>
    task_Kind t = TaskKindBackground ∧ task_VolatilityClass t = key_VolatilityClass (task_Key t) ∧
    key_VolatilityClass (task_Key t) ≠ VolatilityClassNone ∧ task_Lane t = LaneBackground
  | TaskKindBootstrap =>
    task_Kind t = TaskKindBootstrap ∧ task_VolatilityClass t = VolatilityClassStatic ∧ task_Lane t = LaneBootstrap
  | TaskKindNone => False
  end.

(** Not queued, not in flight, nothing pending. *)
Definition at_rest (it : heapItem) : Prop :=
  item_queued it = false ∧ item_inFlight it = false ∧ item_pending it = false ∧ item_immediateRerun it = false.

Definition in_heap_at (i : nat) (it : heapItem) : Prop :=
  at_rest it ∧ item_disabled it = false ∧ item_index it = Z.of_nat i.
Definition in_lane_at (p : nat) (it : heapItem) : Prop :=
  item_queued it = true ∧ item_inFlight it = false ∧ item_pending it = false ∧ item_immediateRerun it = false ∧
  item_index it = -1 ∧ lane_of (item_task it) = p.
Definition flying (r : Z) (it : heapItem) : Prop :=
  item_queued it = false ∧ item_inFlight it = true ∧ item_index it = -1 ∧ item_runID it = r.
Definition held (it : heapItem) : Prop := at_rest it ∧ item_index it = -1.

Definition item_locs (s : Sched) : list loc := (map_to_list (s_items s)).*2.

(** Everything but the heap order. *)
Record BASE (F T : list loc) (s : Sched) : Prop := {
  inv_items k l : s_items s !! k = Some l →
    ∃ it, s_store s !! l = Some it ∧ task_Key (item_task it) = k ∧ task_wf (item_task it);
  inv_perm : s_heap s ++ concat (s_ready s) ++ F ++ T ≡ₚ item_locs s;
  inv_lanes : length (s_ready s) = 3%nat;
  inv_heap i l : s_heap s !! i = Some l → in_heap_at i (item_at s l);
  inv_ready p q l : s_ready s !! p = Some q → l ∈ q → in_lane_at p (item_at s l);
  inv_flying l : l ∈ F → flying (s_runID s) (item_at s l);
  inv_held l : l ∈ T → held (item_at s l);
  inv_next l : is_Some (s_store s !! l) → (l < s_next s)%nat }.

Record INV (F T : list loc) (s : Sched) : Prop := {
  inv_base :> BASE F T s;
  inv_order : heap_order s }.

(** ** Consequences *)

Lemma elem_of_item_locs s l : l ∈ item_locs s ↔ ∃ k, s_items s !! k = Some l.
Proof.
  unfold item_locs. rewrite list_elem_of_fmap. split.
  - intros ([k l'] & -> & Hk). exists k. by apply elem_of_map_to_list in Hk.
  - intros [k Hk]. exists (k, l). split; [done|]. by apply elem_of_map_to_list.
Qed.

Section inv.
Context {F T : list loc} {s : Sched} (HI : BASE F T s).

Lemma inv_nodup_locs : NoDup (item_locs s).
Proof.
  unfold item_locs. apply NoDup_fmap_2_strong; [|apply NoDup_map_to_list].
  intros [k1 l1] [k2 l2] H1%elem_of_map_to_list H2%elem_of_map_to_list. simpl. intros ->.
  destruct (inv_items _ _ _ HI _ _ H1) as (it & Hit & Hk & _).
  destruct (inv_items _ _ _ HI _ _ H2) as (it' & Hit' & Hk' & _). by simplify_eq.
Qed.

Lemma inv_nodup : NoDup (s_heap s ++ concat (s_ready s) ++ F ++ T).
Proof. rewrite (inv_perm _ _ _ HI). apply inv_nodup_locs. Qed.

Lemma inv_index_ok : index_ok s.
Proof.
  split; [pose proof inv_nodup as H; apply NoDup_app in H; tauto|].
  intros i l Hl. assert (Hin : l ∈ item_locs s).
  { rewrite <- (inv_perm _ _ _ HI). apply elem_of_app. left. apply list_elem_of_lookup. eauto. }
  apply elem_of_item_locs in Hin as [k Hk]. destruct (inv_items _ _ _ HI k l Hk) as (it & Hit & _).
  exists it. split; [done|]. destruct (inv_heap _ _ _ HI i l Hl) as (_ & _ & Hi).
  by rewrite (item_at_Some s l it Hit) in Hi.
Qed.

(** A managed location has a well-formed item registered under its key. *)
Lemma inv_mem l :
  l ∈ s_heap s ++ concat (s_ready s) ++ F ++ T →
  ∃ it, s_store s !! l = Some it ∧ s_items s !! task_Key (item_task it) = Some l ∧ task_wf (item_task it).
Proof.
  rewrite (inv_perm _ _ _ HI), elem_of_item_locs. intros [k Hk].
  destruct (inv_items _ _ _ HI k l Hk) as (it & Hit & Hkey & Hwf). exists it. split_and!; try done. by rewrite Hkey.
Qed.

Lemma inv_heap_elem l : l ∈ s_heap s → ∃ i, in_heap_at i (item_at s l) ∧ s_heap s !! i = Some l.
Proof. intros [i Hi]%list_elem_of_lookup. exists i. split; [by apply (inv_heap _ _ _ HI)|done]. Qed.

Lemma inv_ready_elem l : l ∈ concat (s_ready s) → ∃ p q, s_ready s !! p = Some q ∧ l ∈ q ∧ in_lane_at p (item_at s l).
Proof.
  intros (q & Hl & [p Hp]%list_elem_of_lookup)%elem_of_concat.
  exists p, q. split_and!; try done. by apply (inv_ready _ _ _ HI p q l).
Qed.

(** The place of an item, read off its flags. *)
Lemma inv_place l k :
  s_items s !! k = Some l →
  (∃ i, s_heap s !! i = Some l ∧ in_heap_at i (item_at s l)) ∨
  (∃ p, l ∈ concat (s_ready s) ∧ in_lane_at p (item_at s l)) ∨
  (l ∈ F ∧ flying (s_runID s) (item_at s l)) ∨ (l ∈ T ∧ held (item_at s l)).
Proof.
  intros Hk. assert (Hin : l ∈ item_locs s) by (apply elem_of_item_locs; eauto).
  rewrite <- (inv_perm _ _ _ HI), !elem_of_app in Hin. destruct Hin as [H|[H|[H|H]]].
  - left. destruct (inv_heap_elem l H) as (i & ? & ?). eauto.
  - right; left. destruct (inv_ready_elem l H) as (p & q & _ & _ & ?). eauto.
  - right; right; left. split; [done|]. by apply (inv_flying _ _ _ HI).
  - right; right; right. split; [done|]. by apply (inv_held _ _ _ HI).
Qed.

Lemma inv_disjoint l :
  (l ∈ s_heap s → l ∉ concat (s_ready s) ∧ l ∉ F ∧ l ∉ T) ∧
  (l ∈ concat (s_ready s) → l ∉ s_heap s ∧ l ∉ F ∧ l ∉ T) ∧
  (l ∈ F → l ∉ s_heap s ∧ l ∉ concat (s_ready s) ∧ l ∉ T) ∧
  (l ∈ T → l ∉ s_heap s ∧ l ∉ concat (s_ready s) ∧ l ∉ F).
Proof.
  pose proof inv_nodup as H. rewrite !NoDup_app in H. destruct H as (_ & H1 & _ & H2 & _ & H3 & _).
  specialize (H1 l). specialize (H2 l). specialize (H3 l). rewrite !elem_of_app in H1. rewrite elem_of_app in H2. tauto.
Qed.
End inv.

(** ** Changes that keep every item in place *)

Lemma inv_perm_lists F F' T T' s : F ≡ₚ F' → T ≡ₚ T' → INV F T s → INV F' T' s.
Proof.
  intros HF HT [[] ?]. split; [|done]. split; try done.
  - by rewrite <- HF, <- HT.
  - intros l. rewrite <- HF. auto.
  - intros l. rewrite <- HT. auto.
Qed.

(** An update of an item that changes neither its key nor where it belongs. *)
Record in_place (a b : heapItem) : Prop := {
  ip_key : task_Key (item_task b) = task_Key (item_task a);
  ip_wf : task_wf (item_task a) → task_wf (item_task b);
  ip_queued : item_queued b = item_queued a;
  ip_inFlight : item_inFlight b = item_inFlight a;
  ip_index : item_index b = item_index a;
  ip_rest : item_inFlight a = false → item_pending b = item_pending a ∧ item_immediateRerun b = item_immediateRerun a;
  ip_heap : 0 <= item_index a → item_disabled b = item_disabled a;
  ip_runID : item_inFlight a = true → item_runID b = item_runID a }.

(** What the dispatcher reads of a well-formed task is fixed by its key. *)
Definition key_class (k : TaskKey) : VolatilityClass :=
  match key_Kind k with
  | TaskKindBackground => key_VolatilityClass k
  | TaskKindBootstrap => VolatilityClassStatic
  | _ => VolatilityClassNone
  end.

Lemma task_wf_kind t : task_wf t → task_Kind t = key_Kind (task_Key t) ∧ task_Kind t ≠ TaskKindNone.
Proof. unfold task_wf. destruct (key_Kind (task_Key t)); intuition congruence. Qed.

Lemma task_wf_class t : task_wf t → task_VolatilityClass t = key_class (task_Key t).
Proof. unfold task_wf, key_class. destruct (key_Kind (task_Key t)); intuition congruence. Qed.

Lemma normalizeTask_wf t : task_wf t → normalizeTask t = t.
Proof.
  intros Hwf. destruct (task_wf_kind t Hwf) as [Hk Hn]. unfold normalizeTask.
  rewrite !(decide_False (P := task_Kind t = TaskKindNone)) by done.
  unfold task_wf in Hwf. rewrite <- Hk in Hwf. destruct Hwf as [_ Hwf].
  rewrite !(decide_False (P := task_Lane t = LaneNone)) by (destruct (task_Kind t); intuition congruence).
  rewrite decide_False; [done|]. destruct (task_Kind t); intuition congruence.
Qed.

Lemma readyPriority_wf t :
  task_wf t → readyPriority t = match key_Kind (task_Key t) with
                                | TaskKindEssential => 0
                                | _ => VolatilityPriority (key_class (task_Key t))
                                end.
Proof.
  intros Hwf. unfold readyPriority. rewrite normalizeTask_wf by done.
  destruct (task_wf_kind t Hwf) as [Hk _]. rewrite (task_wf_class t Hwf), Hk.
  by destruct (key_Kind (task_Key t)).
Qed.

Lemma lane_of_wf t t' :
  task_wf t → task_wf t' → task_Key t = task_Key t' → lane_of t = lane_of t'.
Proof. intros H1 H2 E. unfold lane_of. by rewrite (readyPriority_wf t), (readyPriority_wf t'), E. Qed.

Lemma lane_of_lt t : (lane_of t < 3)%nat.
Proof. unfold lane_of. cases; to_prop; lia. Qed.

Lemma in_place_refl a : in_place a a.
Proof. by split. Qed.

Lemma in_place_heap_at i a b : in_place a b → in_heap_at i a → in_heap_at i b.
Proof.
  intros [_ _ Hq Hf Hi Hrest Hh _] ((Hq0 & Hf0 & Hp0 & Hr0) & Hd0 & Hi0).
  destruct (Hrest Hf0) as [Hp Hr]. pose proof (Hh ltac:(lia)) as Hd.
  unfold in_heap_at, at_rest. by rewrite Hq, Hf, Hi, Hp, Hr, Hd.
Qed.

Lemma in_place_lane_at p a b : in_place a b → task_wf (item_task a) → in_lane_at p a → in_lane_at p b.
Proof.
  intros [Hk Hwf Hq Hf Hi Hrest _ _] Ha (Hq0 & Hf0 & Hp0 & Hr0 & Hi0 & Hl0).
  destruct (Hrest Hf0) as [Hp Hr]. unfold in_lane_at. rewrite Hq, Hf, Hi, Hp, Hr, <- Hl0.
  split_and!; try done. by apply lane_of_wf; auto.
Qed.

Lemma in_place_flying r a b : in_place a b → flying r a → flying r b.
Proof. intros [_ _ Hq Hf Hi _ _ Hr] (? & ? & ? & ?). unfold flying. by rewrite Hq, Hf, Hi, Hr. Qed.

Lemma in_place_held a b : in_place a b → held a → held b.
Proof.
  intros [_ _ Hq Hf Hi Hrest _ _] ((Hq0 & Hf0 & Hp0 & Hr0) & Hi0). destruct (Hrest Hf0) as [Hp Hr].
  unfold held, at_rest. by rewrite Hq, Hf, Hi, Hp, Hr.
Qed.

(** The order only depends on the pointers in the heap and what they are compared by. *)
Lemma heap_order_ext s s' :
  s_heap s' = s_heap s → (∀ l, l ∈ s_heap s → sort_key (item_at s' l) = sort_key (item_at s l)) →
  heap_order s → heap_order s'.
Proof.
  intros Eh Hk Ho. unfold heap_order. rewrite Eh. replace (heap_view s') with (heap_view s); [done|].
  unfold heap_view. rewrite Eh. apply list_fmap_ext. intros i l Hl. rewrite Hk; [done|].
  apply list_elem_of_lookup. eauto.
Qed.

(** Every managed item changes in place: the invariant is kept. *)
Lemma base_in_place F T s s' :
  s_items s' = s_items s → s_heap s' = s_heap s → s_ready s' = s_ready s → s_next s' = s_next s → s_runID s' = s_runID s →
  (∀ l it, l ∈ item_locs s → s_store s !! l = Some it → ∃ it', s_store s' !! l = Some it' ∧ in_place it it') →
  (∀ l, is_Some (s_store s' !! l) → is_Some (s_store s !! l)) →
  BASE F T s → BASE F T s'.
Proof.
  intros Ei Eh Er En Eri Hst Hdom HI.
  assert (Hat : ∀ l, l ∈ s_heap s ++ concat (s_ready s) ++ F ++ T →
            in_place (item_at s l) (item_at s' l) ∧ task_wf (item_task (item_at s l))).
  { intros l Hl. destruct (inv_mem HI l Hl) as (it & Hit & _ & Hwf). rewrite (inv_perm _ _ _ HI) in Hl.
    destruct (Hst l it Hl Hit) as (it' & Hit' & Hip).
    by rewrite (item_at_Some s l it Hit), (item_at_Some s' l it' Hit'). }
  split; unfold item_locs; rewrite ?Ei, ?Eh, ?Er, ?En, ?Eri; try apply HI.
  - intros k l Hk. destruct (inv_items _ _ _ HI k l Hk) as (it & Hit & Hkey & Hwf).
    destruct (Hst l it) as (it' & Hit' & Hip); [apply elem_of_item_locs; eauto|done|].
    exists it'. split_and!; [done|by rewrite (ip_key _ _ Hip)|by apply (ip_wf _ _ Hip)].
  - intros i l Hl. eapply in_place_heap_at; [apply Hat|by apply HI].
    apply elem_of_app. left. apply list_elem_of_lookup. eauto.
  - intros p q l Hp Hl. assert (Hin : l ∈ s_heap s ++ concat (s_ready s) ++ F ++ T).
    { rewrite !elem_of_app. right; left. apply elem_of_concat. exists q. split; [done|].
      apply list_elem_of_lookup. eauto. }
    destruct (Hat l Hin) as [? ?]. eapply in_place_lane_at; [done..|]. by eapply (inv_ready _ _ _ HI).
  - intros l Hl. eapply in_place_flying; [apply Hat; rewrite !elem_of_app; tauto|by apply HI].
  - intros l Hl. eapply in_place_held; [apply Hat; rewrite !elem_of_app; tauto|by apply HI].
  - intros l Hl. by apply HI, Hdom.
Qed.

Lemma base_upd_in_place F T s l f :
  (∀ it, s_store s !! l = Some it → l ∈ item_locs s → in_place it (f it)) →
  BASE F T s → BASE F T (upd_item l f s).
Proof.
  intros Hf. apply base_in_place; try done.
  - intros x it Hx Hit. rewrite store_upd_item, Hit. case_decide.
    + subst. exists (f it). split; [done|]. by apply Hf.
    + exists it. split; [done|apply in_place_refl].
  - intros x. rewrite store_upd_item. case_decide; [by rewrite fmap_is_Some|done].
Qed.

Lemma inv_ext F T s s' :
  s_store s' = s_store s → s_next s' = s_next s → s_items s' = s_items s → s_heap s' = s_heap s →
  s_ready s' = s_ready s → s_runID s' = s_runID s → INV F T s → INV F T s'.
Proof.
  intros Es ??? Er ? [HB Ho]. split.
  - apply (base_in_place F T s); try done; rewrite Es; [|done].
    intros l it _ Hit. exists it. split; [done|apply in_place_refl].
  - apply (heap_order_ext s); [done| |done]. intros. unfold item_at. by rewrite Es.
Qed.

Lemma inv_upd_in_place F T s l f :
  (∀ it, s_store s !! l = Some it → l ∈ item_locs s → in_place it (f it) ∧ (0 <= item_index it → sort_key (f it) = sort_key it)) →
  INV F T s → INV F T (upd_item l f s).
Proof.
  intros Hf [HB Ho]. split; [apply base_upd_in_place; [intros; by apply Hf|done]|].
  apply (heap_order_ext s); [done| |done]. intros x Hx. destruct (decide (l = x)) as [<-|Hne].
  - destruct (inv_mem HB l) as (it & Hit & _); [apply elem_of_app; by left|].
    rewrite (item_at_upd_eq _ _ _ _ Hit), (item_at_Some s l it Hit).
    destruct (inv_heap_elem HB l Hx) as (i & (_ & _ & Hi) & _). rewrite (item_at_Some s l it Hit) in Hi.
    apply Hf; [done| |lia]. rewrite <- (inv_perm _ _ _ HB). apply elem_of_app. by left.
  - by rewrite item_at_upd_ne.
Qed.

(** ** Moves outside the heap *)

(** One item [l], not in the heap, changes place; everything else stays. *)
Lemma inv_move F T F' T' s s' l it it' :
  INV F T s → l ∉ s_heap s →
  s_items s' = s_items s → s_heap s' = s_heap s → s_next s' = s_next s → s_runID s' = s_runID s → length (s_ready s') = 3%nat →
  s_store s !! l = Some it → s_store s' !! l = Some it' → (∀ x, x ≠ l → s_store s' !! x = s_store s !! x) →
  task_Key (item_task it') = task_Key (item_task it) → task_wf (item_task it') →
  concat (s_ready s') ++ F' ++ T' ≡ₚ concat (s_ready s) ++ F ++ T →
  (∀ p q x, s_ready s' !! p = Some q → x ∈ q →
     if decide (x = l) then in_lane_at p it' else ∃ q0, s_ready s !! p = Some q0 ∧ x ∈ q0) →
  (∀ x, x ∈ F' → if decide (x = l) then flying (s_runID s) it' else x ∈ F) →
  (∀ x, x ∈ T' → if decide (x = l) then held it' else x ∈ T) →
  INV F' T' s'.
Proof.
  intros HI Hlh Ei Eh En Eri Hlen Hit Hit' Hst Hkey Hwf Hperm Hready HF HT.
  assert (Hat : ∀ x, x ≠ l → item_at s' x = item_at s x) by (intros; unfold item_at; by rewrite Hst).
  pose proof (item_at_Some s' l it' Hit') as Hatl.
  assert (Hne : ∀ i x, s_heap s !! i = Some x → x ≠ l).
  { intros i x Hx ->. apply Hlh, list_elem_of_lookup. eauto. }
  split; [split|]; unfold item_locs; rewrite ?Ei, ?Eh, ?En, ?Eri; try done.
  - intros k x Hk. destruct (inv_items _ _ _ HI k x Hk) as (y & Hy & Hyk & Hywf).
    destruct (decide (x = l)) as [->|Hx]; [|rewrite Hst by done; eauto].
    exists it'. split_and!; [done| |done]. rewrite Hkey. congruence.
  - rewrite Hperm. apply HI.
  - intros i x Hx. rewrite Hat by (by eapply Hne). by apply HI.
  - intros p q x Hp Hx. specialize (Hready p q x Hp Hx). case_decide; [subst x; by rewrite Hatl|].
    destruct Hready as (q0 & ? & ?). rewrite Hat by done. by eapply (inv_ready _ _ _ HI).
  - intros x Hx. specialize (HF x Hx). case_decide; [subst x; by rewrite Hatl|]. rewrite Hat by done. by apply HI.
  - intros x Hx. specialize (HT x Hx). case_decide; [subst x; by rewrite Hatl|]. rewrite Hat by done. by apply HI.
  - intros x [y Hy]. destruct (decide (x = l)) as [->|Hx]; [apply HI; by rewrite Hit|].
    apply HI. rewrite <- Hst by done. by rewrite Hy.
  - apply (heap_order_ext s); [done| |apply HI]. intros x Hx. rewrite Hat; [done|]. by intros ->.
Qed.

(** In flight to held: a completion is accepted. *)
Lemma inv_land F T s l f :
  INV (l :: F) T s →
  (∀ it, s_store s !! l = Some it → flying (s_runID s) it → task_wf (item_task it) →
     held (f it) ∧ task_Key (item_task (f it)) = task_Key (item_task it) ∧ task_wf (item_task (f it))) →
  INV F (l :: T) (upd_item l f s).
Proof.
  intros HI Hf. destruct (inv_mem HI l) as (it & Hit & Hk & Hwf); [rewrite !elem_of_app; set_solver|].
  pose proof (inv_flying _ _ _ HI l ltac:(set_solver)) as Hfl. rewrite (item_at_Some s l it Hit) in Hfl.
  destruct (Hf it Hit Hfl Hwf) as (Hh & Hkey & Hwf').
  destruct (proj1 (proj2 (proj2 (inv_disjoint HI l))) ltac:(set_solver)) as (Hlh & Hlr & HlT).
  assert (HlF : l ∉ F).
  { pose proof (inv_nodup HI) as Hnd. rewrite !NoDup_app in Hnd.
    destruct Hnd as (_ & _ & _ & _ & Hnd & _). by apply NoDup_cons in Hnd as [? _]. }
  eapply (inv_move _ _ _ _ _ _ l it (f it) HI); try done.
  - apply HI.
  - by rewrite store_upd_item, decide_True, Hit.
  - intros x Hx. by rewrite store_upd_item, decide_False.
  - simpl. apply Permutation_app_head. rewrite <- Permutation_middle. done.
  - intros p q x Hp Hx. case_decide; [|eauto]. subst. exfalso. apply Hlr, elem_of_concat.
    exists q. split; [done|]. apply list_elem_of_lookup. eauto.
  - intros x Hx. case_decide; [by subst|set_solver].
  - intros x Hx. case_decide; [done|set_solver].
Qed.

(** Held to in flight: the task is sent to the workers. *)
Lemma inv_launch F T s l f :
  INV F (l :: T) s →
  (∀ it, s_store s !! l = Some it → held it → task_wf (item_task it) →
     flying (s_runID s) (f it) ∧ task_Key (item_task (f it)) = task_Key (item_task it) ∧ task_wf (item_task (f it))) →
  INV (l :: F) T (upd_item l f s).
Proof.
  intros HI Hf. destruct (inv_mem HI l) as (it & Hit & Hk & Hwf); [rewrite !elem_of_app; set_solver|].
  pose proof (inv_held _ _ _ HI l ltac:(set_solver)) as Hh. rewrite (item_at_Some s l it Hit) in Hh.
  destruct (Hf it Hit Hh Hwf) as (Hfl & Hkey & Hwf').
  destruct (proj2 (proj2 (proj2 (inv_disjoint HI l))) ltac:(set_solver)) as (Hlh & Hlr & HlF).
  assert (HlT : l ∉ T).
  { pose proof (inv_nodup HI) as Hnd. rewrite !NoDup_app in Hnd.
    destruct Hnd as (_ & _ & _ & _ & _ & _ & Hnd). by apply NoDup_cons in Hnd as [? _]. }
  eapply (inv_move _ _ _ _ _ _ l it (f it) HI); try done.
  - apply HI.
  - by rewrite store_upd_item, decide_True, Hit.
  - intros x Hx. by rewrite store_upd_item, decide_False.
  - simpl. apply Permutation_app_head. rewrite <- Permutation_middle. done.
  - intros p q x Hp Hx. case_decide; [|eauto]. subst. exfalso. apply Hlr, elem_of_concat.
    exists q. split; [done|]. apply list_elem_of_lookup. eauto.
  - intros x Hx. case_decide; [done|set_solver].
  - intros x Hx. case_decide; [by subst|set_solver].
Qed.

(** Held to ready: [enqueueReady] and [pushReadyFront]. *)
Lemma inv_enqueue put F T s l :
  (∀ q, put l q ≡ₚ l :: q) → INV F (l :: T) s → INV F T (enqueue_with put l s).
Proof.
  intros Hput HI. destruct (inv_mem HI l) as (it & Hit & Hk & Hwf); [rewrite !elem_of_app; set_solver|].
  pose proof (inv_held _ _ _ HI l ltac:(set_solver)) as Hh. rewrite (item_at_Some s l it Hit) in Hh.
  destruct Hh as ((Hq & Hf & Hp & Hr) & Hi).
  destruct (proj2 (proj2 (proj2 (inv_disjoint HI l))) ltac:(set_solver)) as (Hlh & Hlr & HlF).
  assert (HlT : l ∉ T).
  { pose proof (inv_nodup HI) as Hnd. rewrite !NoDup_app in Hnd.
    destruct Hnd as (_ & _ & _ & _ & _ & _ & Hnd). by apply NoDup_cons in Hnd as [? _]. }
  unfold enqueue_with. rewrite (item_at_Some s l it Hit), Hq.
  set (s1 := upd_item l _ s). assert (Hit1 : s_store s1 !! l = Some (it <| item_task := item_task it |>)).
  { unfold s1. rewrite store_upd_item, decide_True, Hit by done. simpl. by rewrite normalizeTask_wf. }
  rewrite (item_at_Some s1 l _ Hit1). simpl item_task.
  set (p := lane_of (item_task it)).
  assert (Hpl : (p < length (s_ready s))%nat) by (rewrite (inv_lanes _ _ _ HI); apply lane_of_lt).
  destruct (lookup_lt_is_Some_2 _ _ Hpl) as [q0 Hq0].
  eapply (inv_move _ _ _ _ _ _ l it (it <| item_queued := true |> <| item_task := item_task it <| task_DueAt := item_dueAt it |> |>) HI);
    try done.
  - cbn. rewrite length_alter. apply HI.
  - cbn -[s1]. rewrite lookup_alter_eq, Hit1. reflexivity.
  - intros x Hx. cbn -[s1]. rewrite lookup_alter_ne by done. unfold s1. by rewrite store_upd_item, decide_False.
  - cbn. rewrite (list_alter_insert _ _ _ _ Hq0), concat_insert_perm by done.
    rewrite (concat_lookup_perm p q0 (s_ready s)) by done. rewrite Hput. simpl.
    rewrite <- !app_assoc. simpl. rewrite <- !Permutation_middle. done.
  - cbn. intros p' q x Hp' Hx. rewrite list_lookup_alter in Hp'. destruct (decide (x = l)) as [Ex|Ex].
    + subst x. case_decide as Ep; [subst p'; unfold in_lane_at; cbn; split_and!; try done; by apply lane_of_wf|].
      exfalso. apply Hlr, elem_of_concat. exists q. split; [done|]. apply list_elem_of_lookup. eauto.
    + case_decide as Ep; [|eauto]. subst p'. rewrite Hq0 in Hp'. simplify_eq/=. exists q0. split; [done|].
      rewrite Hput in Hx. set_solver.
  - intros x Hx. case_decide; [by subst|done].
  - intros x Hx. case_decide; [by subst|set_solver].
Qed.

(** Ready to held: one item is taken out of its lane and loses its [queued] flag. *)
Lemma inv_dequeue F T s l p pre post :
  INV F T s → s_ready s !! p = Some (pre ++ l :: post) →
  INV F (l :: T) (upd_item l (λ it, it <| item_queued := false |>) (s <| s_ready := <[p := pre ++ post]> (s_ready s) |>)).
Proof.
  intros HI Hp. assert (Hlr : l ∈ concat (s_ready s)).
  { apply elem_of_concat. exists (pre ++ l :: post). split; [set_solver|]. apply list_elem_of_lookup. eauto. }
  destruct (inv_mem HI l) as (it & Hit & Hk & Hwf); [rewrite !elem_of_app; set_solver|].
  destruct (proj1 (proj2 (inv_disjoint HI l)) Hlr) as (Hlh & HlF & HlT).
  pose proof (inv_ready _ _ _ HI p _ l Hp ltac:(set_solver)) as Hl. rewrite (item_at_Some s l it Hit) in Hl.
  destruct Hl as (Hq & Hf & Hpd & Hr & Hi & _).
  pose proof (lookup_lt_Some _ _ _ Hp) as Hlt.
  assert (Hnd : NoDup (concat (s_ready s))).
  { pose proof (inv_nodup HI) as Hnd. rewrite !NoDup_app in Hnd. tauto. }
  rewrite (concat_lookup_perm p _ _ Hp), <- app_assoc in Hnd. simpl in Hnd.
  rewrite <- Permutation_middle in Hnd. apply NoDup_cons in Hnd as [Hnd _].
  eapply (inv_move _ _ _ _ _ _ l it (it <| item_queued := false |>) HI); try done.
  - cbn. rewrite length_insert. apply HI.
  - cbn. by rewrite lookup_alter_eq, Hit.
  - intros x Hx. cbn. by rewrite lookup_alter_ne by done.
  - cbn. rewrite concat_insert_perm by done. rewrite (concat_lookup_perm p _ _ Hp).
    rewrite <- !app_assoc. simpl. rewrite <- !Permutation_middle. done.
  - cbn. intros p' q x Hp' Hx. destruct (decide (p = p')) as [<-|Hne].
    + rewrite list_lookup_insert_eq in Hp' by done. simplify_eq. rewrite decide_False.
      * eexists. split; [done|]. set_solver.
      * intros ->. apply Hnd. set_solver.
    + rewrite list_lookup_insert_ne in Hp' by done. rewrite decide_False; [eauto|]. intros ->.
      apply Hnd. rewrite !elem_of_app. right; right. apply elem_of_concat. exists q. split; [done|].
      apply list_elem_of_lookup.
      destruct (decide (p' < p)%nat).
      * exists p'. by rewrite list_lookup_delete_lt.
      * exists (p' - 1)%nat. rewrite list_lookup_delete_ge by lia. by replace (S (p' - 1)) with p' by lia.
  - intros x Hx. case_decide; [by subst|done].
  - intros x Hx. case_decide; [done|set_solver].
Qed.

(** * Moves through the heap, creation and deletion of items

    [SINV F T s] is the structural invariant together with the in-flight counters; one
    lemma per elementary move, to be composed by the operations. *)


(** ** Frames of the heap operations *)

Lemma frame_rest D s s' :
  heap_frame D s s' →
  s_items s' = s_items s ∧ s_ready s' = s_ready s ∧ s_next s' = s_next s ∧ s_counters s' = s_counters s ∧
  s_tasks s' = s_tasks s ∧ s_runID s' = s_runID s ∧ s_tasksCap s' = s_tasksCap s.
Proof.
  intros [E _ _]. unfold erase in E.
  repeat split; [apply (f_equal s_items) in E|apply (f_equal s_ready) in E|apply (f_equal s_next) in E
    |apply (f_equal s_counters) in E|apply (f_equal s_tasks) in E|apply (f_equal s_runID) in E
    |apply (f_equal s_tasksCap) in E]; exact E.
Qed.

Lemma frame_mod_index D s s' l :
  heap_frame D s s' → set_index 0 <$> s_store s' !! l = set_index 0 <$> s_store s !! l.
Proof. intros [_ B C]. destruct (decide (l ∈ D)); [by apply B|by rewrite C]. Qed.

(** Only the index of an item may differ. *)
Lemma frame_item D s s' l it :
  heap_frame D s s' → s_store s !! l = Some it → ∃ i, s_store s' !! l = Some (set_index i it).
Proof.
  intros Hf Hit. pose proof (frame_mod_index D s s' l Hf) as E. rewrite Hit in E.
  destruct (s_store s' !! l) as [it'|]; [|done]. simpl in E. apply (inj Some) in E.
  exists (item_index it'). f_equal. destruct it, it'. unfold set_index, upd, upd_item_index in *. simpl in *. congruence.
Qed.

Lemma frame_item_at D s s' l : heap_frame D s s' → ∃ i, item_at s' l = set_index i (item_at s l).
Proof.
  intros Hf. unfold item_at. destruct (s_store s !! l) as [it|] eqn:Hit.
  - destruct (frame_item D s s' l it Hf Hit) as [i ->]. by exists i.
  - pose proof (frame_mod_index D s s' l Hf) as E. rewrite Hit in E.
    destruct (s_store s' !! l); [done|]. by exists 0.
Qed.

Lemma frame_item_at_out D s s' l : heap_frame D s s' → l ∉ D → item_at s' l = item_at s l.
Proof. intros [_ _ C] Hl. unfold item_at. by rewrite C. Qed.

(** A heap operation that exchanges items with the held list [T] only. *)
Lemma inv_heap_frame D F T T' s s' :
  BASE F T s → heap_frame D s s' → index_ok s' → heap_order s' →
  s_heap s' ++ T' ≡ₚ s_heap s ++ T →
  (∀ l, l ∈ D → l ∈ s_heap s ++ T) →
  (∀ l, l ∈ T' → item_index (item_at s' l) = -1) →
  (∀ l, l ∈ s_heap s' → l ∈ T → item_disabled (item_at s l) = false) →
  INV F T' s'.
Proof.
  intros HI Hf Hix Ho Hp HD HT' Hdis. split; [|done].
  destruct (frame_rest D s s' Hf) as (Ei & Er & En & _ & _ & Eri & _).
  assert (Hrest : ∀ l, l ∈ s_heap s ++ T → at_rest (item_at s l)).
  { intros l [Hl|Hl]%elem_of_app; [|by apply (inv_held _ _ _ HI)].
    destruct (inv_heap_elem HI l Hl) as (i & (? & _) & _). done. }
  assert (Hrest' : ∀ l, l ∈ s_heap s' ++ T' → at_rest (item_at s' l)).
  { intros l Hl. rewrite Hp in Hl. destruct (frame_item_at D s s' l Hf) as [i ->]. by apply Hrest. }
  split; rewrite ?Ei, ?Er, ?En, ?Eri.
  - intros k l Hk. destruct (inv_items _ _ _ HI k l Hk) as (it & Hit & ? & ?).
    destruct (frame_item D s s' l it Hf Hit) as [i ->]. by eexists.
  - unfold item_locs. rewrite Ei. fold (item_locs s). rewrite <- (inv_perm _ _ _ HI).
    rewrite (Permutation_app_comm F T'), (Permutation_app_comm F T), !app_assoc.
    apply Permutation_app_tail. rewrite <- !app_assoc, !(Permutation_app_comm (concat _)), !app_assoc. by rewrite Hp.
  - apply HI.
  - intros i l Hl. destruct Hix as [_ Hix]. destruct (Hix i l Hl) as (it & Hit & Hidx).
    assert (Hin : l ∈ s_heap s') by (apply list_elem_of_lookup; eauto).
    split_and!; [apply Hrest', elem_of_app; by left| |by rewrite (item_at_Some _ _ _ Hit)].
    destruct (frame_item_at D s s' l Hf) as [j ->]. simpl.
    assert (Hin' : l ∈ s_heap s ++ T) by (rewrite <- Hp, elem_of_app; by left).
    apply elem_of_app in Hin' as [Hh|HT]; [|by apply Hdis]. destruct (inv_heap_elem HI l Hh) as (? & (_ & ? & _) & _). done.
  - intros p q l Hq Hl. rewrite (frame_item_at_out D s s' l Hf); [by apply (inv_ready _ _ _ HI p q)|].
    intros HlD. apply HD, elem_of_app in HlD.
    assert (l ∈ concat (s_ready s)) by (apply elem_of_concat; exists q; split; [done|apply list_elem_of_lookup; eauto]).
    pose proof (inv_disjoint HI l). tauto.
  - intros l Hl. rewrite (frame_item_at_out D s s' l Hf); [by apply HI|].
    intros HlD. apply HD, elem_of_app in HlD. pose proof (inv_disjoint HI l). tauto.
  - intros l Hl. split; [apply Hrest', elem_of_app; by right|by apply HT'].
  - intros l Hl. apply (inv_next _ _ _ HI). pose proof (frame_mod_index D s s' l Hf) as E.
    destruct (s_store s !! l); [done|]. destruct Hl as [? Hl]. rewrite Hl in E. done.
Qed.

(** ** Heap moves *)

Lemma inv_Push F T s l :
  INV F (l :: T) s → item_disabled (item_at s l) = false → INV F T (heap_Push l s).
Proof.
  intros HI Hd. destruct (inv_mem HI l) as (it & Hit & _); [rewrite !elem_of_app; set_solver|].
  destruct (proj2 (proj2 (proj2 (inv_disjoint HI l))) ltac:(set_solver)) as (Hlh & _ & _).
  destruct (heap_Push_spec l s it (inv_index_ok HI) (inv_order _ _ _ HI) Hlh Hit) as (Hf & Hix & Ho & Hp).
  pose proof (inv_nodup HI) as Hnd. rewrite !NoDup_app in Hnd. destruct Hnd as (_ & _ & _ & _ & _ & _ & Hnd).
  apply NoDup_cons in Hnd as [HlT _].
  apply (inv_heap_frame (l :: s_heap s) F (l :: T) T s); try done.
  - apply HI.
  - rewrite Hp. by rewrite <- Permutation_middle.
  - set_solver.
  - intros x Hx. rewrite (frame_item_at_out _ _ _ _ Hf).
    + apply (inv_held _ _ _ HI x ltac:(set_solver)).
    + intros [->|Hxh]%elem_of_cons; [done|]. pose proof (inv_disjoint HI x). set_solver.
  - intros x Hx HxT. rewrite Hp in Hx. apply elem_of_cons in Hx as [->|Hx]; [done|].
    pose proof (inv_disjoint HI x). tauto.
Qed.

(** What [heap.Pop] and [heap.Remove] have in common. *)
Lemma inv_take_out F T s s' l :
  INV F T s → heap_frame (s_heap s) s s' → index_ok s' → heap_order s' → s_heap s ≡ₚ l :: s_heap s' →
  (∃ it, s_store s' !! l = Some it ∧ item_index it = -1) →
  INV F (l :: T) s'.
Proof.
  intros HI Hf Hix Ho Hp (it & Hit & Hidx). apply (inv_heap_frame (s_heap s) F T (l :: T) s); try done.
  - apply HI.
  - rewrite Hp. by rewrite <- Permutation_middle.
  - set_solver.
  - intros x [->|Hx]%elem_of_cons; [by rewrite (item_at_Some _ _ _ Hit)|].
    rewrite (frame_item_at_out _ _ _ _ Hf); [by apply (inv_held _ _ _ HI)|].
    intros Hxh. pose proof (inv_disjoint HI x). tauto.
  - intros x Hx HxT. assert (x ∈ s_heap s) by (rewrite Hp; set_solver).
    pose proof (inv_disjoint HI x). tauto.
Qed.

Lemma inv_Pop F T s l r :
  INV F T s → s_heap s = l :: r →
  ∃ s', heap_Pop s = Some (l, s') ∧ INV F (l :: T) s' ∧ heap_frame (s_heap s) s s' ∧ s_heap s ≡ₚ l :: s_heap s'.
Proof.
  intros HI Hl. destruct (heap_Pop_spec l r s (inv_index_ok HI) (inv_order _ _ _ HI) Hl)
    as (s' & E & Hf & Hix & Ho & Hp & Hit).
  exists s'. split_and!; try done. by eapply inv_take_out.
Qed.

Lemma inv_Remove F T s i l :
  INV F T s → s_heap s !! i = Some l →
  INV F (l :: T) (heap_Remove (Z.of_nat i) s) ∧ heap_frame (s_heap s) s (heap_Remove (Z.of_nat i) s).
Proof.
  intros HI Hl. destruct (heap_Remove_spec i l s (inv_index_ok HI) (inv_order _ _ _ HI) Hl) as (Hf & Hix & Ho & Hp & Hit).
  split; [by eapply inv_take_out|done].
Qed.

(** [heap.Fix] after an in-place update of an item of the heap that may change its due time. *)
Lemma inv_upd_Fix F T s i l f :
  INV F T s → s_heap s !! i = Some l → (∀ it, s_store s !! l = Some it → in_place it (f it)) →
  INV F T (heap_Fix (Z.of_nat i) (upd_item l f s)) ∧
  heap_frame (s_heap s) (upd_item l f s) (heap_Fix (Z.of_nat i) (upd_item l f s)).
Proof.
  intros HI Hl Hf. set (s1 := upd_item l f s).
  assert (HB : BASE F T s1) by (apply base_upd_in_place; [auto|apply HI]).
  pose proof (inv_order _ _ _ HI) as Ho.
  assert (Hother : ∀ k, k ≠ i → heap_view s1 !! k = heap_view s !! k).
  { intros k Hk. rewrite !heap_view_lookup. change (s_heap s1) with (s_heap s).
    destruct (s_heap s !! k) as [x|] eqn:Hx; simpl; [|done]. unfold s1. rewrite item_at_upd_ne; [done|].
    intros ->. apply Hk. destruct (inv_index_ok HI) as [Hnd _]. by eapply NoDup_lookup. }
  destruct (heap_Fix_spec i s1 (inv_index_ok HB)) as (Hfr & Hix & Ho' & Hp).
  - by eapply lookup_lt_Some.
  - change (s_heap s1) with (s_heap s). unfold heap_order in Ho. split.
    + intros k Hk Hki Hpi a b. rewrite !Hother by done. by apply Ho.
    + intros k Hk Hpi Hi a b. pose proof (parent_lt i ltac:(lia)) as Hlt.
      assert (Hki : k ≠ i) by (intros ->; lia). rewrite !Hother by lia. intros Ha Hb.
      destruct (lookup_lt_is_Some_2 (heap_view s) i) as [c Hc].
      { rewrite heap_view_length. by eapply lookup_lt_Some. }
      eapply swo_nlt_trans; [|by apply (Ho i ltac:(split; [lia|by eapply lookup_lt_Some]) a c)].
      apply (Ho k Hk); [by rewrite Hpi|done].
  - split; [|done]. apply (inv_heap_frame (s_heap s) F T T s1); try done.
    + by rewrite Hp.
    + intros x Hx. change (s_heap s1) with (s_heap s). set_solver.
    + intros x Hx. rewrite (frame_item_at_out _ _ _ _ Hfr); [by apply (inv_held _ _ _ HB)|].
      intros Hxh. change (s_heap s) with (s_heap s1) in Hxh. pose proof (inv_disjoint HB x). tauto.
    + intros x Hx HxT. rewrite Hp in Hx. pose proof (inv_disjoint HB x). tauto.
Qed.

(** ** Deletion and creation *)

Lemma inv_delete F T s l k :
  INV F (l :: T) s → s_items s !! k = Some l → INV F T (items_delete k s).
Proof.
  intros HI Hk. assert (Hlocs : item_locs s ≡ₚ l :: item_locs (items_delete k s)).
  { unfold item_locs. simpl. by rewrite <- (map_to_list_delete (s_items s) k l Hk). }
  split; [|apply HI]. split; try apply HI.
  - intros k' l' Hk'. simpl in Hk'. apply lookup_delete_Some in Hk' as [_ Hk']. by apply HI.
  - apply (Permutation.Permutation_cons_inv (a := l)). rewrite <- Hlocs, <- (inv_perm _ _ _ HI). simpl.
    rewrite !app_assoc. apply Permutation_middle.
  - intros x Hx. apply (inv_held _ _ _ HI x). set_solver.
Qed.

Lemma inv_new F T s k it (l := s_next s) :
  INV F T s → s_items s !! k = None → task_Key (item_task it) = k → task_wf (item_task it) → held it →
  INV F (l :: T) (items_insert k l (snd (alloc it s))).
Proof.
  intros HI Hk Hkey Hwf Hh. set (s' := items_insert k l (snd (alloc it s))).
  assert (Hfresh : s_store s !! l = None).
  { apply eq_None_not_Some. intros Hs. apply (inv_next _ _ _ HI) in Hs. unfold l in Hs. lia. }
  assert (Hmem : ∀ x, x ∈ s_heap s ++ concat (s_ready s) ++ F ++ T → x ≠ l).
  { intros x Hx ->. destruct (inv_mem HI l Hx) as (y & Hy & _). congruence. }
  assert (Hst : ∀ x, x ≠ l → s_store s' !! x = s_store s !! x) by (intros; by apply lookup_insert_ne).
  assert (Hat : ∀ x, x ∈ s_heap s ++ concat (s_ready s) ++ F ++ T → item_at s' x = item_at s x).
  { intros x Hx. unfold item_at. by rewrite Hst by auto. }
  assert (Hatl : item_at s' l = it) by (apply item_at_Some, lookup_insert_eq).
  split; [split|]; try apply HI.
  - intros k' x Hk'. simpl in Hk'. apply lookup_insert_Some in Hk' as [[<- <-]|[Hne Hk']].
    + exists it. split_and!; try done. apply lookup_insert_eq.
    + destruct (inv_items _ _ _ HI k' x Hk') as (y & Hy & ?). exists y. split; [|done].
      rewrite Hst; [done|]. intros ->. congruence.
  - unfold item_locs. simpl. rewrite map_to_list_insert by done. simpl. fold (item_locs s).
    rewrite <- (inv_perm _ _ _ HI), <- !Permutation_middle. done.
  - intros i x Hx. rewrite Hat; [by apply HI|]. apply elem_of_app. left. apply list_elem_of_lookup. eauto.
  - intros p q x Hq Hx. rewrite Hat; [by apply (inv_ready _ _ _ HI p q)|]. rewrite !elem_of_app. right; left.
    apply elem_of_concat. exists q. split; [done|]. apply list_elem_of_lookup. eauto.
  - intros x Hx. rewrite Hat; [by apply HI|]. rewrite !elem_of_app. tauto.
  - intros x [->|Hx]%elem_of_cons; [by rewrite Hatl|]. rewrite Hat; [by apply HI|]. rewrite !elem_of_app. tauto.
  - intros x Hx. simpl. destruct (decide (x = l)) as [->|Hne]; [unfold l; lia|].
    rewrite Hst in Hx by done. apply HI in Hx. lia.
  - apply (heap_order_ext s); [done| |apply HI]. intros x Hx. rewrite Hat; [done|]. apply elem_of_app. by left.
Qed.

(** [heap.Push] does not look at the map of items. *)
Lemma up_loop_items_insert fuel j k x s :
  up_loop fuel j (items_insert k x s) = items_insert k x (up_loop fuel j s).
Proof.
  revert j s. induction fuel as [|fuel IH]; intros j s; [done|]. cbn [up_loop].
  change (h_Less (items_insert k x s)) with (h_Less s). case_match; [done|].
  rewrite <- IH. f_equal. simpl. unfold taskHeap_Swap. simpl. by repeat case_match.
Qed.

Lemma heap_Push_items_insert l k x s : heap_Push l (items_insert k x s) = items_insert k x (heap_Push l s).
Proof. unfold heap_Push, up. rewrite <- up_loop_items_insert. done. Qed.
