(* ===== verification/SchedSteps.v ===== *)
(** * In-flight counters, and the moves on structure and counters together *)

From S2P Require Import Prelude GoLib Domain Policy GoHeap SchedTypes Scheduler SchedOps SchedInv SchedMoves.

(** ** What the counters count *)

Definition key_of (s : Sched) (l : loc) : TaskKey := task_Key (item_task (item_at s l)).

Definition cnt (f : TaskKey → bool) (ks : list TaskKey) : Z := foldr (λ k n, if f k then n + 1 else n) 0 ks.

Definition is_essential (k : TaskKey) : bool := bool_decide (key_Kind k = TaskKindEssential).
Definition of_class (v : VolatilityClass) (k : TaskKey) : bool := negb (is_essential k) && bool_decide (key_class k = v).
Definition of_device (d : string) (k : TaskKey) : bool := String.eqb (uuid_String (key_DeviceID k)) d.

(** The counters are exact for the in-flight keys [ks]: in total, for essential work, per
    volatility class, and per device (all work, and essential work). *)
Record counts_ok (ks : list TaskKey) (c : Counters) : Prop := {
  co_total : c_inFlight c = Z.of_nat (length ks);
  co_essential : (c_byKind c).[TaskKindEssential] = cnt is_essential ks;
  co_class v : (c_byClass c).[v] = cnt (of_class v) ks;
  co_device d : (c_byDevice c).[d] = cnt (of_device d) ks;
  co_essDevice d : (c_essByDevice c).[d] = cnt (λ k, is_essential k && of_device d k) ks }.

(** Structure, the keys [ks] of the items [F] in flight, and exact counters. *)
Record SINV (ks : list TaskKey) (F T : list loc) (s : Sched) : Prop := {
  sinv_inv :> INV F T s;
  sinv_keys : key_of s <$> F = ks;
  sinv_counts : counts_ok ks (s_counters s) }.

Lemma cnt_perm f ks ks' : ks ≡ₚ ks' → cnt f ks = cnt f ks'.
Proof. induction 1; simpl; repeat case_match; lia. Qed.

Lemma cnt_cons f k ks : cnt f (k :: ks) = cnt f ks + (if f k then 1 else 0).
Proof. simpl. case_match; lia. Qed.

Lemma cnt_nonneg f ks : 0 <= cnt f ks.
Proof. induction ks as [|k ks IH]; simpl; [lia|]. case_match; lia. Qed.

Lemma cnt_le_length f ks : cnt f ks <= Z.of_nat (length ks).
Proof. induction ks as [|k ks IH]; simpl; [lia|]. case_match; lia. Qed.

Lemma counts_ok_perm ks ks' c : ks ≡ₚ ks' → counts_ok ks c → counts_ok ks' c.
Proof.
  intros Hp [A B C D E]. split; intros; [by rewrite <- Hp|by rewrite <- (cnt_perm _ _ _ Hp)..].
Qed.

Lemma sinv_perm ks F F' T s : F ≡ₚ F' → SINV ks F T s → ∃ ks', ks ≡ₚ ks' ∧ SINV ks' F' T s.
Proof.
  intros HF [HI HK HC]. assert (Hp : ks ≡ₚ key_of s <$> F') by (by rewrite <- HK, HF). exists (key_of s <$> F').
  split; [done|]. split; [by eapply inv_perm_lists|done|by eapply counts_ok_perm].
Qed.

(** ** Incrementing and decrementing *)

Lemma get_insert {K} `{Countable K} (m : gmap K Z) k k' v :
  (<[k := v]> m).[k'] = if decide (k = k') then v else m.[k'].
Proof. unfold map_get. rewrite lookup_insert. by case_decide. Qed.

Lemma get_delete {K} `{Countable K} (m : gmap K Z) k k' :
  (delete k m).[k'] = if decide (k = k') then 0 else m.[k'].
Proof. unfold map_get. rewrite lookup_delete. by case_decide. Qed.

Lemma get_incrementCount m k k' :
  k ≠ ""%string → (incrementCount m k).[k'] = m.[k'] + (if decide (k = k') then 1 else 0).
Proof.
  intros Hk. unfold incrementCount. destruct (String.eqb_spec k ""); [done|]. rewrite get_insert.
  case_decide; [subst|]; lia.
Qed.

Lemma get_decrementCount m k k' :
  k ≠ ""%string → 0 < m.[k] → (decrementCount m k).[k'] = m.[k'] - (if decide (k = k') then 1 else 0).
Proof.
  intros Hk Hpos. unfold decrementCount. destruct (String.eqb_spec k ""); [done|].
  destruct (m.[k] <=? 1) eqn:E; to_prop; [rewrite get_delete|rewrite get_insert]; case_decide; subst; lia.
Qed.

Lemma uuid_String_nonempty u : uuid_String u ≠ ""%string.
Proof.
  unfold uuid_String, uuid_bytes, be_bytes. cbn. by destruct u.
Qed.

Lemma of_device_decide d k : of_device d k = bool_decide (uuid_String (key_DeviceID k) = d).
Proof. unfold of_device. destruct (String.eqb_spec (uuid_String (key_DeviceID k)) d); [by rewrite bool_decide_eq_true_2|by rewrite bool_decide_eq_false_2]. Qed.

Lemma isolation_counts f t c (ess := is_essential (task_Key t)) (d := uuid_String (key_DeviceID (task_Key t))) :
  task_wf t →
  let c' := isolationCounts f t c in
  c_inFlight c' = c_inFlight c ∧ c_byKind c' = c_byKind c ∧ c_byClass c' = c_byClass c ∧
  c_byDevice c' = f (c_byDevice c) d ∧
  c_essByDevice c' = if ess then f (c_essByDevice c) d else c_essByDevice c.
Proof.
  intros Hwf. unfold isolationCounts, ess, d, is_essential, task_deviceKey. rewrite normalizeTask_wf by done.
  rewrite (proj1 (task_wf_kind t Hwf)), <- (proj1 Hwf). case_decide as E.
  - by rewrite bool_decide_eq_true_2.
  - by rewrite bool_decide_eq_false_2.
Qed.

(** What a well-formed task says of its key. *)
Lemma wf_essential t (k := task_Key t) :
  task_wf t → task_Kind t = TaskKindEssential → is_essential k = true ∧ ∀ v, of_class v k = false.
Proof.
  intros Hwf Hk. unfold of_class, is_essential. subst k. rewrite <- (proj1 (task_wf_kind t Hwf)).
  by rewrite bool_decide_eq_true_2.
Qed.

Lemma wf_non_essential t (k := task_Key t) :
  task_wf t → task_Kind t ≠ TaskKindEssential →
  is_essential k = false ∧ ∀ v, of_class v k = bool_decide (task_VolatilityClass t = v).
Proof.
  intros Hwf Hk. unfold of_class, is_essential. subst k. rewrite <- (proj1 (task_wf_kind t Hwf)), <- (task_wf_class t Hwf).
  by rewrite bool_decide_eq_false_2.
Qed.

(** Reads every counter off the updated record, for a key whose kind is known. *)
Ltac counter_cases t Hwf f :=
  destruct (decide (task_Kind t = TaskKindEssential)) as [Ek|Ek];
  [destruct (wf_essential t Hwf Ek) as [Hess Hcl]|destruct (wf_non_essential t Hwf Ek) as [Hess Hcl]].

Ltac counter_solve :=
  rewrite ?bool_decide_decide; repeat (case_decide; simplify_eq/=); try done; try lia.

(** A task well-formed for its key moves exactly the counters of that key. *)
Lemma increment_counts ks c t :
  task_wf t → counts_ok ks c →
  counts_ok (task_Key t :: ks) (incrementInFlight t (c <| c_inFlight := c_inFlight c + 1 |>)).
Proof.
  intros Hwf [A B C D E]. pose proof (uuid_String_nonempty (key_DeviceID (task_Key t))) as Hne.
  unfold incrementInFlight, incrementIsolationCounts. counter_cases t Hwf incrementCount.
  all: match goal with |- counts_ok _ (isolationCounts _ _ ?c1) =>
    destruct (isolation_counts incrementCount t c1 Hwf) as (E1 & E2 & E3 & E4 & E5) end.
  all: split; intros; rewrite ?E1, ?E2, ?E3, ?E4, ?E5, ?cnt_cons, ?of_device_decide, ?Hess, ?Hcl;
    clear E1 E2 E3 E4 E5; cbn; rewrite ?get_incrementCount, ?get_insert, ?A, ?B, ?C, ?D, ?E by done; counter_solve.
Qed.

Lemma decrement_counts ks c t :
  task_wf t → counts_ok (task_Key t :: ks) c →
  counts_ok ks (decrementInFlight t (c <| c_inFlight := c_inFlight c - 1 |>)).
Proof.
  intros Hwf [A B C D E]. pose proof (uuid_String_nonempty (key_DeviceID (task_Key t))) as Hne.
  pose proof (cnt_nonneg is_essential ks) as PB. pose proof (λ v, cnt_nonneg (of_class v) ks) as PC.
  pose proof (λ d, cnt_nonneg (of_device d) ks) as PD.
  pose proof (λ d, cnt_nonneg (λ k, is_essential k && of_device d k) ks) as PE.
  assert (C' := λ v, eq_trans (C v) (cnt_cons _ _ _)). assert (D' := λ d, eq_trans (D d) (cnt_cons _ _ _)).
  assert (E' := λ d, eq_trans (E d) (cnt_cons _ _ _)). rewrite cnt_cons in B. clear C D E. cbn beta in *.
  unfold decrementInFlight, decrementIsolationCounts. counter_cases t Hwf decrementCount.
  all: rewrite Hess in *; cbn; rewrite ?B, ?(C' (task_VolatilityClass t)), ?Hcl, ?(bool_decide_eq_true_2 (_ = _)) by done.
  all: destruct (0 <? _) eqn:Hpos; to_prop; [|specialize (PC (task_VolatilityClass t)); lia].
  all: match goal with |- counts_ok _ (isolationCounts _ _ ?c1) =>
    destruct (isolation_counts decrementCount t c1 Hwf) as (E1 & E2 & E3 & E4 & E5) end.
  all: split; intros; rewrite ?E1, ?E2, ?E3, ?E4, ?E5, ?Hess; clear E1 E2 E3 E4 E5; cbn;
    rewrite ?get_decrementCount, ?get_insert, ?A, ?B, ?C', ?D', ?E', ?Hcl, ?Hess, ?of_device_decide; try done.
  all: counter_solve.
  all: rewrite ?D', ?E', ?of_device_decide, ?bool_decide_eq_true_2 by done; simpl; try lia.
  - specialize (PD (uuid_String (key_DeviceID (task_Key t)))). lia.
  - specialize (PE (uuid_String (key_DeviceID (task_Key t)))). lia.
  - specialize (PD (uuid_String (key_DeviceID (task_Key t)))). lia.
Qed.

(** ** The moves, with the counters *)

(** The in-flight keys can be read off the map of items. *)
Lemma keys_kept F T T' s s' :
  BASE F T s → BASE F T' s' →
  (∀ k l, l ∈ F → s_items s !! k = Some l → s_items s' !! k = Some l) → key_of s' <$> F = key_of s <$> F.
Proof.
  intros HB HB' Hit. apply list_fmap_ext. intros i l Hl.
  assert (Hin : l ∈ F) by (apply list_elem_of_lookup; eauto).
  destruct (inv_mem HB l) as (it & Hl1 & Hk & _); [rewrite !elem_of_app; tauto|].
  destruct (inv_items _ _ _ HB' _ _ (Hit _ _ Hin Hk)) as (it' & Hl2 & Hk' & _).
  unfold key_of. by rewrite (item_at_Some _ _ _ Hl1), (item_at_Some _ _ _ Hl2).
Qed.

Lemma sinv_of {ks} F T T' s s' :
  SINV ks F T s → INV F T' s' → s_counters s' = s_counters s →
  (∀ k l, l ∈ F → s_items s !! k = Some l → s_items s' !! k = Some l) → SINV ks F T' s'.
Proof.
  intros [HI HK HC] HI' Ec Hit. split; [done| |by rewrite Ec]. rewrite <- HK. by eapply keys_kept; [apply HI|apply HI'|].
Qed.

(** The same state up to what neither the structure nor the counters depend on. *)
Lemma sinv_ext {ks} F T s s' :
  s_store s' = s_store s → s_next s' = s_next s → s_items s' = s_items s → s_heap s' = s_heap s →
  s_ready s' = s_ready s → s_counters s' = s_counters s → s_runID s' = s_runID s → SINV ks F T s → SINV ks F T s'.
Proof.
  intros E1 E2 E3 E4 E5 E6 E7 HS. apply (sinv_of F T T s); [done| |done|by rewrite E3].
  by apply (inv_ext F T s); [..|apply HS].
Qed.

Lemma sinv_upd {ks} F T s l f :
  (∀ it, s_store s !! l = Some it → l ∈ item_locs s → in_place it (f it) ∧ (0 <= item_index it → sort_key (f it) = sort_key it)) →
  SINV ks F T s → SINV ks F T (upd_item l f s).
Proof. intros Hf HS. apply (sinv_of F T T s); try done. apply inv_upd_in_place; [done|apply HS]. Qed.

Lemma sinv_enqueue {ks} put F T s l :
  (∀ q, put l q ≡ₚ l :: q) → SINV ks F (l :: T) s → SINV ks F T (enqueue_with put l s).
Proof.
  intros Hput HS. apply (sinv_of F (l :: T) T s); [done|by apply inv_enqueue, HS|..];
    unfold enqueue_with; case_match; done.
Qed.

Lemma sinv_enqueueReady {ks} F T s l : SINV ks F (l :: T) s → SINV ks F T (enqueueReady l s).
Proof. apply sinv_enqueue. intros. by rewrite Permutation_app_comm. Qed.

Lemma sinv_pushReadyFront {ks} F T s l : SINV ks F (l :: T) s → SINV ks F T (pushReadyFront l s).
Proof. by apply sinv_enqueue. Qed.

Lemma sinv_dequeue {ks} F T s l p pre post :
  SINV ks F T s → s_ready s !! p = Some (pre ++ l :: post) →
  SINV ks F (l :: T) (upd_item l (λ it, it <| item_queued := false |>) (s <| s_ready := <[p := pre ++ post]> (s_ready s) |>)).
Proof. intros HS Hp. eapply (sinv_of F T); [done|by apply inv_dequeue; [apply HS|]|done..]. Qed.

Lemma sinv_frame {ks} F T T' D s s' : SINV ks F T s → heap_frame D s s' → INV F T' s' → SINV ks F T' s'.
Proof.
  intros HS Hf HI. destruct (frame_rest D s s' Hf) as (Ei & _ & _ & Ec & _).
  apply (sinv_of F T T' s); [done..|by rewrite Ei].
Qed.

Lemma sinv_Push {ks} F T s l :
  SINV ks F (l :: T) s → item_disabled (item_at s l) = false → SINV ks F T (heap_Push l s).
Proof.
  intros HS Hd. destruct (inv_mem HS l) as (it & Hit & _); [rewrite !elem_of_app; set_solver|].
  destruct (proj2 (proj2 (proj2 (inv_disjoint HS l))) ltac:(set_solver)) as (Hlh & _ & _).
  destruct (heap_Push_spec l s it (inv_index_ok HS) (inv_order _ _ _ HS) Hlh Hit) as (Hf & _).
  eapply sinv_frame; [done|done|]. apply inv_Push; [apply HS|done].
Qed.

Lemma sinv_Pop {ks} F T s l r :
  SINV ks F T s → s_heap s = l :: r →
  ∃ s', heap_Pop s = Some (l, s') ∧ SINV ks F (l :: T) s' ∧ heap_frame (s_heap s) s s' ∧ s_heap s ≡ₚ l :: s_heap s'.
Proof.
  intros HS Hl. destruct (inv_Pop F T s l r HS Hl) as (s' & E & HI & Hf & Hp).
  exists s'. split_and!; try done. by eapply sinv_frame.
Qed.

Lemma sinv_Remove {ks} F T s i l :
  SINV ks F T s → s_heap s !! i = Some l →
  SINV ks F (l :: T) (heap_Remove (Z.of_nat i) s) ∧ heap_frame (s_heap s) s (heap_Remove (Z.of_nat i) s).
Proof.
  intros HS Hl. destruct (inv_Remove F T s i l HS Hl) as [HI Hf]. split; [|done]. by eapply sinv_frame.
Qed.

Lemma sinv_upd_Fix {ks} F T s i l f :
  SINV ks F T s → s_heap s !! i = Some l → (∀ it, s_store s !! l = Some it → in_place it (f it)) →
  SINV ks F T (heap_Fix (Z.of_nat i) (upd_item l f s)).
Proof.
  intros HS Hl Hf. destruct (inv_upd_Fix F T s i l f HS Hl Hf) as [HI Hfr].
  destruct (frame_rest _ _ _ Hfr) as (Ei & _ & _ & Ec & _).
  apply (sinv_of F T T s); [done..|by rewrite Ei].
Qed.

Lemma sinv_delete {ks} F T s l k : SINV ks F (l :: T) s → s_items s !! k = Some l → SINV ks F T (items_delete k s).
Proof.
  intros HS Hk. apply (sinv_of F (l :: T) T s); [done|by eapply inv_delete; [apply HS|]|done|].
  intros k' l' HF Hk'. simpl. rewrite lookup_delete_ne; [done|]. intros ->. assert (l' = l) as -> by congruence.
  pose proof (inv_disjoint HS l). set_solver.
Qed.

Lemma sinv_new {ks} F T s k it (l := s_next s) :
  SINV ks F T s → s_items s !! k = None → task_Key (item_task it) = k → task_wf (item_task it) → held it →
  SINV ks F (l :: T) (items_insert k l (snd (alloc it s))).
Proof.
  intros HS Hk Hkey Hwf Hh. apply (sinv_of F T (l :: T) s); [done|by apply inv_new; [apply HS|..]|done|].
  intros k' l' _ Hk'. simpl. rewrite lookup_insert_ne; [done|]. by intros ->; simplify_eq.
Qed.

(** * Every scheduler operation preserves the invariant

    Queueing, dispatch, due times, (re)scheduling, removal and completion, as compositions
    of the moves. *)


(** ** Dispatch and completion of one item *)

Lemma dispatch_task_wf rid now it :
  task_wf (item_task it) →
  task_wf (dispatch_task rid now it) ∧ task_Key (dispatch_task rid now it) = task_Key (item_task it).
Proof. intros Hwf. unfold dispatch_task. by rewrite normalizeTask_wf. Qed.

Lemma sinv_held_item {ks} F T s l :
  SINV ks F (l :: T) s → ∃ it, s_store s !! l = Some it ∧ item_at s l = it ∧ held it ∧ task_wf (item_task it) ∧
    s_items s !! task_Key (item_task it) = Some l.
Proof.
  intros HS. destruct (inv_mem HS l) as (it & Hit & Hk & Hwf); [rewrite !elem_of_app; set_solver|].
  pose proof (inv_held _ _ _ HS l ltac:(set_solver)) as Hh. rewrite (item_at_Some _ _ _ Hit) in Hh.
  exists it. split_and!; try done. by apply item_at_Some.
Qed.

Lemma sinv_send {ks} F T s l now :
  SINV ks F (l :: T) s →
  SINV (key_of s l :: ks) (l :: F) T (dispatch_send now l (dispatch_task (s_runID s) now (item_at s l)) s).
Proof.
  intros HS. destruct (sinv_held_item F T s l HS) as (it & Hit & Hat & Hh & Hwf & Hk). unfold key_of. rewrite Hat.
  destruct (dispatch_task_wf (s_runID s) now it Hwf) as [Hwf' Hkey'].
  set (task := dispatch_task (s_runID s) now it) in *.
  set (f := λ it, it <| item_inFlight := true |> <| item_dispatchedAt := now |>
                     <| item_runID := s_runID s |> <| item_task := task |>).
  assert (HI : INV (l :: F) T (upd_item l f s)).
  { apply inv_launch; [apply HS|]. intros it' Hit' ((? & ? & ? & ?) & ?) _. simplify_eq. by split_and!. }
  assert (HK : key_of (upd_item l f s) <$> l :: F = task_Key (item_task it) :: ks).
  { rewrite fmap_cons. unfold key_of at 1. rewrite (item_at_upd_eq _ _ _ _ Hit).
    change (task_Key (item_task (f it))) with (task_Key task). rewrite Hkey'. f_equal.
    rewrite <- (sinv_keys _ _ _ _ HS). apply list_fmap_ext. intros i x Hx.
    unfold key_of. rewrite item_at_upd_ne; [done|]. intros ->. pose proof (inv_disjoint HS x).
    assert (x ∈ F) by (apply list_elem_of_lookup; eauto). set_solver. }
  assert (HC : counts_ok (task_Key (item_task it) :: ks)
                 (incrementInFlight task (s_counters s <| c_inFlight := c_inFlight (s_counters s) + 1 |>))).
  { rewrite <- Hkey'. apply increment_counts; [done|]. by apply (sinv_counts _ _ _ _ HS). }
  split; [|unfold dispatch_send; by case_match|unfold dispatch_send; by case_match].
  apply (inv_ext _ _ (upd_item l f s)); try done; unfold dispatch_send; by case_match.
Qed.

(** The counters after the in-flight item [l] is accepted as completed. *)
Definition land_counters (l : loc) (s : Sched) : Sched :=
  s <| s_counters := decrementInFlight (item_task (item_at s l))
                       (s_counters s <| c_inFlight := c_inFlight (s_counters s) - 1 |>) |>.

Lemma sinv_land {k ks} F T s l f :
  SINV (k :: ks) (l :: F) T s →
  (∀ it, flying (s_runID s) it → held (f it) ∧ task_Key (item_task (f it)) = task_Key (item_task it) ∧
         (task_wf (item_task it) → task_wf (item_task (f it)))) →
  SINV ks F (l :: T) (upd_item l f (land_counters l s)).
Proof.
  intros HS Hf. set (s1 := upd_item l f s).
  destruct (inv_mem HS l) as (it & Hit & Hk & Hwf); [rewrite !elem_of_app; set_solver|].
  assert (HI : INV F (l :: T) s1).
  { apply inv_land; [apply HS|]. intros it' _ Hfl Hwf'. destruct (Hf it' Hfl) as (? & ? & ?). auto. }
  destruct HS as [HI0 HK HC]. rewrite fmap_cons in HK. injection HK as HK0 HK. unfold key_of in HK0.
  rewrite (item_at_Some _ _ _ Hit) in HK0. split; [by apply (inv_ext _ _ s1)| |].
  - rewrite <- HK. apply list_fmap_ext. intros i x Hx. unfold key_of. rewrite item_at_upd_ne; [done|]. intros ->.
    pose proof (inv_nodup HI0) as Hnd. rewrite !NoDup_app in Hnd. destruct Hnd as (_ & _ & _ & _ & Hnd & _).
    apply NoDup_cons in Hnd as [Hnd _]. apply Hnd, list_elem_of_lookup. eauto.
  - unfold land_counters. cbn [s_counters upd upd_s_counters upd_item upd_s_store].
    rewrite (item_at_Some _ _ _ Hit). apply decrement_counts; [done|]. by rewrite HK0.
Qed.

(** An item that is not registered any more may be written to. *)
Lemma sinv_upd_outside {ks} F T s l f : l ∉ item_locs s → SINV ks F T s → SINV ks F T (upd_item l f s).
Proof. intros Hl. by apply sinv_upd. Qed.

(** A completed item that was disabled meanwhile is dropped. *)
Lemma sinv_land_delete {k0 ks} F T s l f k :
  SINV (k0 :: ks) (l :: F) T s → s_items s !! k = Some l →
  SINV ks F T (items_delete k (upd_item l f (land_counters l s))).
Proof.
  intros HS Hk. destruct (inv_items _ _ _ HS k l Hk) as (it & Hit & _).
  set (g := λ it, it <| item_inFlight := false |> <| item_pending := false |> <| item_immediateRerun := false |>).
  assert (HS1 : SINV ks F T (items_delete k (upd_item l g (land_counters l s)))).
  { eapply sinv_delete; [apply (sinv_land (k:=k0))|]; [done| |done]. intros x (? & ? & ? & ?). by split_and!. }
  assert (Hout : l ∉ item_locs (items_delete k (upd_item l g (land_counters l s)))).
  { intros [k' Hk']%elem_of_item_locs. cbn in Hk'. apply lookup_delete_Some in Hk' as [Hne Hk'].
    destruct (inv_items _ _ _ HS k' l Hk') as (it' & Hit' & Hkey & _).
    destruct (inv_items _ _ _ HS k l Hk) as (it2 & Hit2 & Hkey2 & _). congruence. }
  apply (sinv_upd_outside _ _ _ l (λ _, f it) Hout) in HS1.
  refine (sinv_ext F T _ _ _ _ _ _ _ _ _ HS1);
    cbn [s_next s_runID s_items s_heap s_ready s_counters items_delete upd_item upd upd_s_store upd_s_items]; [|reflexivity..].
  apply map_eq. intros x. cbn [s_store upd_item items_delete upd upd_s_store upd_s_items land_counters upd_s_counters].
  rewrite !lookup_alter. case_decide; [subst x|done]. by rewrite Hit, decide_True.
Qed.

(** ** Skipped windows *)

Lemma sinv_emit {ks} F T o s : SINV ks F T s → SINV ks F T (emit o s).
Proof. by apply sinv_ext. Qed.

Lemma sinv_emit_all {ks} F T os s : SINV ks F T s → SINV ks F T (emit_all os s).
Proof. unfold emit_all. revert s. induction os as [|o os IH]; intros s HS; [done|]. by apply IH, sinv_emit. Qed.

Lemma in_place_flags a b :
  item_task b = item_task a → item_queued b = item_queued a → item_inFlight b = item_inFlight a →
  item_index b = item_index a → item_disabled b = item_disabled a → item_runID b = item_runID a →
  (item_inFlight a = true ∨ item_pending b = item_pending a ∧ item_immediateRerun b = item_immediateRerun a) →
  in_place a b.
Proof. intros E1 E2 E3 E4 E5 E6 E7. split; rewrite ?E1; try done. intros Hf. rewrite Hf in E7. by destruct E7. Qed.

Lemma item_at_inFlight s l : item_inFlight (item_at s l) = true → ∃ it, s_store s !! l = Some it ∧ item_at s l = it.
Proof. unfold item_at. destruct (s_store s !! l); [eauto|done]. Qed.

Lemma sinv_markSkippedWindow {ks} F T s l :
  item_inFlight (item_at s l) = true → SINV ks F T s → SINV ks F T (markSkippedWindow l s).
Proof.
  intros Hf HS. unfold markSkippedWindow. case_match; [done|].
  apply sinv_emit, sinv_upd; [|done]. intros it Hit _. rewrite (item_at_Some _ _ _ Hit) in Hf. split; [apply in_place_flags; auto|done].
Qed.

Lemma sinv_markElapsedInFlightWindows {ks} F T e now s :
  SINV ks F T s → SINV ks F T (markElapsedInFlightWindows e now s).
Proof.
  intros HS. unfold markElapsedInFlightWindows. case_match; [done|]. generalize (env_range e (s_items s)).
  intros kls. revert s HS H. induction kls as [|[k l] kls IH]; intros s HS H; simpl; [done|].
  apply IH; [|repeat case_match; try done; unfold markSkippedWindow; by case_match].
  repeat case_match; try done. to_prop. by apply sinv_markSkippedWindow.
Qed.

(** Marking skipped windows moves nothing. *)
Lemma markElapsed_frame e now s (s' := markElapsedInFlightWindows e now s) :
  s_items s' = s_items s ∧ s_heap s' = s_heap s ∧ s_ready s' = s_ready s ∧ s_counters s' = s_counters s ∧
  ∀ l, sort_key (item_at s' l) = sort_key (item_at s l) ∧ item_task (item_at s' l) = item_task (item_at s l) ∧
       item_dueAt (item_at s' l) = item_dueAt (item_at s l).
Proof.
  subst s'. unfold markElapsedInFlightWindows. case_match; [done|]. clear H. generalize (env_range e (s_items s)).
  intros kls. revert s. induction kls as [|[k l] kls IH]; intros s; simpl; [done|].
  match goal with |- context [foldl _ ?s1 kls] => set (s1' := s1); destruct (IH s1') as (A & B & C & D & E) end.
  rewrite A, B, C, D. assert (Hs1 : s_items s1' = s_items s ∧ s_heap s1' = s_heap s ∧ s_ready s1' = s_ready s ∧
    s_counters s1' = s_counters s ∧ ∀ x, sort_key (item_at s1' x) = sort_key (item_at s x) ∧
      item_task (item_at s1' x) = item_task (item_at s x) ∧ item_dueAt (item_at s1' x) = item_dueAt (item_at s x)).
  { subst s1'. unfold markSkippedWindow. repeat case_match; try done. split_and!; try done.
    intros x. unfold item_at, emit. cbn. rewrite lookup_alter. case_decide; [subst|done]. by destruct (s_store s !! x). }
  destruct Hs1 as (A1 & B1 & C1 & D1 & E1). split_and!; try done.
  intros x. destruct (E x) as (-> & -> & ->). apply E1.
Qed.

(** ** Moving due tasks *)

Lemma enqueue_with_heap put l s : s_heap (enqueue_with put l s) = s_heap s.
Proof. unfold enqueue_with. by case_match. Qed.

Lemma enqueue_with_items put l s : s_items (enqueue_with put l s) = s_items s.
Proof. unfold enqueue_with. by case_match. Qed.

Lemma enqueue_with_item put l s x :
  item_dueAt (item_at (enqueue_with put l s) x) = item_dueAt (item_at s x).
Proof.
  unfold enqueue_with. case_match; [done|]. unfold item_at. cbn.
  destruct (decide (l = x)) as [<-|]; [rewrite !lookup_alter_eq; by destruct (s_store s !! l)|by rewrite !lookup_alter_ne].
Qed.

(** A due head of the heap goes to the back of its lane; nothing else moves. *)
Lemma moveDue_step_spec {ks} F now s l r :
  SINV ks F [] s → s_heap s = l :: r → item_dueAt (item_at s l) <= now →
  ∃ s1, moveDue_step now s = Some (enqueueReady l s1) ∧ SINV ks F [] (enqueueReady l s1) ∧
    heap_frame (s_heap s) s s1 ∧ s_heap s ≡ₚ l :: s_heap s1 ∧ SINV ks F [l] s1.
Proof.
  intros HS Hl Hdue. destruct (sinv_Pop F [] s l r HS Hl) as (s1 & HP & HS1 & Hf & Hp).
  unfold moveDue_step. rewrite Hl, HP.
  assert (Time_After (item_dueAt (item_at s l)) now = false) as -> by (unfold Time_After; lia).
  destruct (inv_heap _ _ _ HS 0 l) as ((Hq & Hfl & _) & Hd & _); [by rewrite Hl|].
  destruct (frame_item_at _ _ _ l Hf) as [i Hi]. rewrite Hi. cbn [set_index upd upd_item_index item_disabled item_inFlight item_queued].
  rewrite Hd, Hfl, Hq. exists s1. split_and!; rewrite <- ?Hl; try done. by apply sinv_enqueueReady.
Qed.

Lemma moveDue_step_None now s :
  match s_heap s with [] => True | l :: _ => now < item_dueAt (item_at s l) end → moveDue_step now s = None.
Proof.
  unfold moveDue_step. destruct (s_heap s) as [|l r]; [done|]. intros H.
  assert (Time_After (item_dueAt (item_at s l)) now = true) as -> by (unfold Time_After; lia). done.
Qed.

Lemma heapPriority_wf t :
  task_wf t → heapPriority t = match key_Kind (task_Key t) with
                               | TaskKindEssential => -1
                               | _ => VolatilityPriority (key_class (task_Key t))
                               end.
Proof.
  intros Hwf. unfold heapPriority. rewrite normalizeTask_wf by done.
  destruct (task_wf_kind t Hwf) as [Hk _]. rewrite (task_wf_class t Hwf), Hk.
  by destruct (key_Kind (task_Key t)).
Qed.

(** What a well-formed item is ordered by follows from its key and due time. *)
Lemma sort_key_wf a b :
  task_wf (item_task a) → task_wf (item_task b) → task_Key (item_task a) = task_Key (item_task b) →
  item_dueAt a = item_dueAt b → sort_key a = sort_key b.
Proof. intros Ha Hb Ek Ed. unfold sort_key. by rewrite (heapPriority_wf _ Ha), (heapPriority_wf _ Hb), Ek, Ed. Qed.

Lemma view_kept F T F' T' s s' l :
  BASE F T s → BASE F' T' s' → s_items s' = s_items s → l ∈ item_locs s →
  item_dueAt (item_at s' l) = item_dueAt (item_at s l) →
  sort_key (item_at s' l) = sort_key (item_at s l) ∧ lane_of (item_task (item_at s' l)) = lane_of (item_task (item_at s l)).
Proof.
  intros HB HB' Ei [k Hk]%elem_of_item_locs. destruct (inv_items _ _ _ HB k l Hk) as (it & Hit & Ekey & Hwf).
  rewrite <- Ei in Hk. destruct (inv_items _ _ _ HB' k l Hk) as (it' & Hit' & Ekey' & Hwf').
  rewrite (item_at_Some _ _ _ Hit), (item_at_Some _ _ _ Hit'). intros Ed.
  split; [apply sort_key_wf|apply lane_of_wf]; congruence.
Qed.

Lemma inv_heap_loc F T s l : BASE F T s → l ∈ s_heap s → l ∈ item_locs s.
Proof. intros HB Hl. rewrite <- (inv_perm _ _ _ HB), !elem_of_app. by left. Qed.

(** The head of the heap has a minimal due time. *)
Lemma heap_head_min F T s l r x :
  INV F T s → s_heap s = l :: r → x ∈ s_heap s → key_lt (sort_key (item_at s x)) (sort_key (item_at s l)) = false.
Proof.
  intros HI Hl [k Hk]%list_elem_of_lookup. pose proof (inv_order _ _ _ HI) as Ho. unfold heap_order in Ho.
  rewrite <- heap_view_length in Ho.
  apply (heap_upto_head view_lt (heap_view s) (length (heap_view s)) (l, sort_key (item_at s l)) k (x, sort_key (item_at s x)) Ho).
  - done.
  - by rewrite heap_view_lookup, Hl.
  - rewrite heap_view_length. by eapply lookup_lt_Some.
  - by rewrite heap_view_lookup, Hk.
Qed.

Lemma key_lt_due a b : key_lt (sort_key a) (sort_key b) = false → item_dueAt b <= item_dueAt a.
Proof. unfold sort_key. simpl. case_match; to_prop; [lia|]. intros. to_prop. lia. Qed.

Lemma enqueueReady_lanes {ks} F T s l p q :
  SINV ks F (l :: T) s → s_ready s !! p = Some q →
  s_ready (enqueueReady l s) !! p = Some (q ++ (if decide (lane_of (item_task (item_at s l)) = p) then [l] else [])).
Proof.
  intros HS Hp. destruct (sinv_held_item F T s l HS) as (it & Hit & Hat & ((Hq & _) & _) & Hwf & _).
  unfold enqueueReady, enqueue_with. rewrite Hat, Hq. cbn [s_ready upd upd_s_ready].
  rewrite (item_at_upd_eq _ _ _ _ Hit). cbn [item_task upd upd_item_task]. rewrite normalizeTask_wf by done.
  cbn [s_ready upd_item upd upd_s_store]. destruct (decide (lane_of (item_task it) = p)) as [Ep|Ep].
  - by rewrite Ep, list_lookup_alter_eq, Hp.
  - by rewrite list_lookup_alter_ne, Hp, app_nil_r.
Qed.

(** [moved] are the items that went from the heap of [s] to the lanes of [s']. *)
Record due_moved (now : Time) (s s' : Sched) (moved : list loc) : Prop := {
  dm_heap : s_heap s ≡ₚ moved ++ s_heap s';
  dm_due l : l ∈ moved → item_dueAt (item_at s l) <= now;
  dm_rest l : l ∈ s_heap s' → now < item_dueAt (item_at s l);
  dm_order : StronglySorted (λ a b, key_lt (sort_key (item_at s b)) (sort_key (item_at s a)) = false) moved;
  dm_lanes p q : s_ready s !! p = Some q →
    s_ready s' !! p = Some (q ++ filter (λ l, lane_of (item_task (item_at s l)) = p) moved) }.

Lemma due_moved_nil {ks} F now s :
  SINV ks F [] s → match s_heap s with [] => True | l :: _ => now < item_dueAt (item_at s l) end → due_moved now s s [].
Proof.
  intros HS Hhead. split; [done|set_solver| |constructor|intros p q Hp; by rewrite filter_nil, app_nil_r].
  intros x Hx. destruct (s_heap s) as [|l r] eqn:Hl; [set_solver|]. rewrite <- Hl in Hx.
  pose proof (key_lt_due _ _ (heap_head_min F [] s l r x HS Hl Hx)). lia.
Qed.

Lemma due_moved_cons {ks} F now s s1 s' l r moved (s2 := enqueueReady l s1) :
  SINV ks F [] s → s_heap s = l :: r → item_dueAt (item_at s l) <= now → heap_frame (s_heap s) s s1 →
  s_heap s ≡ₚ l :: s_heap s1 → SINV ks F [l] s1 → SINV ks F [] s2 →
  due_moved now s2 s' moved → due_moved now s s' (l :: moved).
Proof.
  intros HS Hl Hdue Hf Hp HS1 HS2 [A B C D E]. destruct (frame_rest _ _ _ Hf) as (Ei & Er & _).
  assert (Eh : s_heap s2 = s_heap s1) by apply enqueue_with_heap.
  assert (Ei2 : s_items s2 = s_items s) by (rewrite <- Ei; apply enqueue_with_items).
  assert (Hd : ∀ x, item_dueAt (item_at s2 x) = item_dueAt (item_at s x)).
  { intros x. unfold s2, enqueueReady. rewrite enqueue_with_item. by destruct (frame_item_at _ _ _ x Hf) as [i ->]. }
  assert (Hview := λ x Hx, view_kept F [] F [] s s2 x HS HS2 Ei2 Hx (Hd x)).
  assert (Hloc : ∀ x, x ∈ moved → x ∈ s_heap s) by (intros x Hx; rewrite Hp, <- Eh, A, elem_of_cons, elem_of_app; auto).
  assert (Hll : l ∈ item_locs s) by (apply (inv_heap_loc F [] s l HS); rewrite Hl, elem_of_cons; auto).
  split.
  - rewrite Hp, <- Eh, A. done.
  - intros x [->|Hx]%elem_of_cons; [done|]. rewrite <- Hd. auto.
  - intros x Hx. rewrite <- Hd. auto.
  - constructor; [|apply Forall_forall; intros x Hx%Hloc; by apply (heap_head_min F [] s l r x HS Hl)].
    revert D Hloc. clear -Hview HS. induction 1 as [|a ms D IH HD]; intros Hloc; constructor.
    { apply IH. intros x Hx. apply Hloc. by right. }
    rewrite Forall_forall in *. intros x Hx. specialize (HD x Hx).
    rewrite (proj1 (Hview x (inv_heap_loc F [] s _ HS (Hloc x ltac:(by right))))) in HD.
    by rewrite (proj1 (Hview a (inv_heap_loc F [] s _ HS (Hloc a ltac:(by left))))) in HD.
  - intros p q Hq. rewrite <- Er in Hq. rewrite (E p _ (enqueueReady_lanes F [] s1 l p q HS1 Hq)).
    destruct (frame_item_at _ _ _ l Hf) as [i ->]. cbn [set_index item_task upd upd_item_index].
    rewrite filter_cons, <- app_assoc. do 2 f_equal.
    rewrite (filter_ext_elem _ (λ x, lane_of (item_task (item_at s x)) = p)); [by case_decide|].
    intros x Hx. by rewrite (proj2 (Hview x (inv_heap_loc F [] s _ HS (Hloc x Hx)))).
Qed.

Lemma moveDue_loop_spec {ks} fuel F now s :
  SINV ks F [] s → (length (s_heap s) <= fuel)%nat →
  SINV ks F [] (moveDue_loop fuel now s) ∧ ∃ moved, due_moved now s (moveDue_loop fuel now s) moved.
Proof.
  revert s. induction fuel as [|fuel IH]; intros s HS Hfuel.
  { cbn [moveDue_loop]. split; [done|]. exists []. apply (due_moved_nil (ks:=ks) F); [done|]. by rewrite (nil_length_inv (s_heap s)) by lia. }
  cbn [moveDue_loop].
  assert (Hstop : match s_heap s with [] => True | l :: _ => now < item_dueAt (item_at s l) end ∨
                  ∃ l r, s_heap s = l :: r ∧ item_dueAt (item_at s l) <= now).
  { destruct (s_heap s) as [|l r]; [by left|]. destruct (decide (now < item_dueAt (item_at s l))); [by left|].
    right. exists l, r. split; [done|lia]. }
  destruct Hstop as [Hstop|(l & r & Hl & Hdue)].
  { rewrite moveDue_step_None by done. split; [done|]. exists []. by apply (due_moved_nil (ks:=ks) F). }
  destruct (moveDue_step_spec F now s l r HS Hl Hdue) as (s1 & -> & HS2 & Hf & Hp & HS1).
  destruct (IH (enqueueReady l s1) HS2) as (HS' & moved & Hm).
  { unfold enqueueReady. rewrite enqueue_with_heap. apply Permutation_length in Hp. simpl in *. lia. }
  split; [done|]. exists (l :: moved). by eapply due_moved_cons.
Qed.

Lemma sinv_moveDueTasksToReady {ks} F e now s : SINV ks F [] s → SINV ks F [] (moveDueTasksToReady e now s).
Proof.
  intros HS. apply moveDue_loop_spec; [by apply sinv_markElapsedInFlightWindows|done].
Qed.
