(* ===== verification/SchedDispatch.v ===== *)
(** * Selection and dispatch of ready tasks

    [popReadyEligible] skips tasks through the scan state of one dispatch pass; it selects
    the same task as the plain search of the lanes.  [dispatchReady] keeps the invariant,
    terminates, stops for a stated reason and respects every limit. *)

From S2P Require Import Prelude GoLib Domain Policy GoHeap SchedTypes Scheduler SchedOps SchedInv SchedMoves SchedSteps.

(** ** The reference selection *)

Definition dispatchable (limits : dispatchLimitsT) (s : Sched) (l : loc) : bool :=
  String.eqb (b_reason (dispatchBlockWithLimits (s_counters s) (item_task (item_at s l)) limits)) "".

Definition picks (limits : dispatchLimitsT) (kind : TaskKind) (s : Sched) (l : loc) : bool :=
  negb (kind_skips kind (item_task (item_at s l))) && dispatchable limits s l.

(** Essential work first, then bootstrap, then recurring background work; within a kind the
    lanes in priority order, each first in first out; the first task no limit blocks. *)
Definition reference_pick (limits : dispatchLimitsT) (s : Sched) : option loc :=
  let ready := concat (s_ready s) in
  match List.find (picks limits TaskKindEssential s) ready with
  | Some l => Some l
  | None => match List.find (picks limits TaskKindBootstrap s) ready with
            | Some l => Some l
            | None => List.find (picks limits TaskKindNone s) ready
            end
  end.

(** ** What the scan state knows is true *)

Record known_ok (limits : dispatchLimitsT) (c : Counters) (st : dispatchScanState) : Prop := {
  ko_essential : sc_essentialLimited st = true → dl_essentialLimit limits <= (c_byKind c).[TaskKindEssential];
  ko_class v : sc_classLimited st !! Z.to_nat (VolatilityPriority v) = Some true →
               (dl_budgets limits).[v] <= (c_byClass c).[v];
  ko_length : length (sc_classLimited st) = 3%nat }.

Lemma known_ok_new limits c : known_ok limits c newScanState.
Proof. split; [done| |done]. by intros []. Qed.

(** Counters that only grow keep the knowledge true. *)
Lemma known_ok_mono limits c c' st :
  (c_byKind c).[TaskKindEssential] <= (c_byKind c').[TaskKindEssential] →
  (∀ v, (c_byClass c).[v] <= (c_byClass c').[v]) → known_ok limits c st → known_ok limits c' st.
Proof. intros He Hc [A B C]. split; [|intros v Hv|done]. - intros H. specialize (A H). lia. - specialize (B v Hv). specialize (Hc v). lia. Qed.

Lemma known_blocked limits c st t :
  task_wf t → known_ok limits c st → isKnownBlocked st t = true → b_reason (dispatchBlockWithLimits c t limits) ≠ ""%string.
Proof.
  intros Hwf [A B C]. unfold isKnownBlocked, dispatchBlockWithLimits. rewrite normalizeTask_wf by done.
  destruct (decide (task_Kind t = TaskKindEssential)) as [Hk|Hk]; [intros H%A; by rewrite (proj2 (Z.leb_le _ _) H)|].
  intros H. to_prop. destruct (sc_classLimited st !! _) as [[]|] eqn:E; try done.
  by rewrite (proj2 (Z.leb_le _ _) (B _ E)).
Qed.

Lemma VolatilityPriority_inj v v' :
  VolatilityPriority v < 3 → VolatilityPriority v' < 3 ∨ VolatilityPriority v' = 99 →
  Z.to_nat (VolatilityPriority v) = Z.to_nat (VolatilityPriority v') → v = v'.
Proof. destruct v, v'; simpl; intros; try done; lia. Qed.

Lemma isolationBlock_reason c t p : b_reason (isolationBlock c t p) ≠ "class_limit"%string ∧ b_reason (isolationBlock c t p) ≠ "essential_limit"%string.
Proof. unfold isolationBlock. split; repeat (destruct (_ && _); [done|]); destruct (if 0 <? _ then _ else _); try done; repeat (destruct (_ && _); [done|]); done. Qed.

Lemma known_ok_record limits c st t :
  task_wf t → known_ok limits c st → known_ok limits c (recordBlocked t (dispatchBlockWithLimits c t limits) st).
Proof.
  intros Hwf [A B C]. unfold recordBlocked, dispatchBlockWithLimits. rewrite normalizeTask_wf by done.
  destruct (decide (task_Kind t = TaskKindEssential)) as [Hk|Hk].
  - destruct (_ <=? _) eqn:E; [split; simpl; [intros _; by apply Z.leb_le|exact B|exact C]|].
    destruct (isolationBlock_reason c t (dl_policy limits)) as [_ H].
    by rewrite (proj2 (String.eqb_neq _ _) H).
  - destruct (_ <=? _) eqn:E; [|destruct (isolationBlock_reason c t (dl_policy limits)) as [H _];
      by rewrite (proj2 (String.eqb_neq _ _) H)].
    to_prop. simpl. destruct (_ && _) eqn:E'; [|done]. to_prop. split; simpl; [done| |by rewrite length_insert].
    intros v Hv. destruct (decide (Z.to_nat (VolatilityPriority (task_VolatilityClass t)) = Z.to_nat (VolatilityPriority v))) as [Ep|Ep].
    + assert (task_VolatilityClass t = v) as <-; [|done].
      apply VolatilityPriority_inj; [lia| |done]. destruct v; simpl; lia.
    + rewrite list_lookup_insert_ne in Hv by done. by apply B.
Qed.

(** ** The scan computes the reference selection *)

Lemma upd_item_id l f s : (∀ it, s_store s !! l = Some it → f it = it) → upd_item l f s = s.
Proof.
  intros Hf. unfold upd_item. replace (alter f l (s_store s)) with (s_store s); [by destruct s|].
  apply map_eq. intros x. rewrite lookup_alter. case_decide; [subst x|done].
  destruct (s_store s !! l) as [it|]; simpl; [by rewrite Hf|done].
Qed.

Definition lane_wf (s : Sched) (q : list loc) : Prop := ∀ l, l ∈ q → task_wf (item_task (item_at s l)).

Lemma scan_normalize s l :
  task_wf (item_task (item_at s l)) → upd_item l (λ it, it <| item_task := normalizeTask (item_task it) |>) s = s.
Proof.
  intros Hwf. apply upd_item_id. intros it Hit. rewrite (item_at_Some _ _ _ Hit) in Hwf.
  rewrite normalizeTask_wf by done. by destruct it.
Qed.

Lemma scan_lane_spec limits kind pre q st s :
  lane_wf s q → known_ok limits (s_counters s) st →
  ∃ st', known_ok limits (s_counters s) st' ∧
  match List.find (picks limits kind s) q with
  | None => scan_lane limits kind pre q st s = (None, st', s)
  | Some l => ∃ a b, q = a ++ l :: b ∧ scan_lane limits kind pre q st s = (Some (l, pre ++ a ++ b), st', s)
  end.
Proof.
  revert pre st. induction q as [|l q IH]; intros pre st Hwf Hok; [by exists st|].
  assert (Hl := Hwf l ltac:(by left)). cbn [scan_lane List.find]. rewrite scan_normalize by done.
  unfold picks at 1. unfold dispatchable.
  assert (Hgo : ∀ st, known_ok limits (s_counters s) st → ∃ st', known_ok limits (s_counters s) st' ∧
    match List.find (picks limits kind s) q with
    | None => scan_lane limits kind (pre ++ [l]) q st s = (None, st', s)
    | Some x => ∃ a b, l :: q = a ++ x :: b ∧ scan_lane limits kind (pre ++ [l]) q st s = (Some (x, pre ++ a ++ b), st', s)
    end).
  { intros st1 Hok1. destruct (IH (pre ++ [l]) st1) as (st' & Hok' & H); [intros x Hx; apply Hwf; by right|done|].
    exists st'. split; [done|]. destruct (List.find _ q); [|done]. destruct H as (a & b & -> & ->).
    exists (l :: a), b. by rewrite <- app_assoc. }
  destruct (kind_skips _ _); cbn [negb andb]; [by apply Hgo|]. destruct (isKnownBlocked st _) eqn:Hkb.
  - apply (known_blocked limits (s_counters s)) in Hkb; [|done..]. rewrite (proj2 (String.eqb_neq _ _) Hkb). by apply Hgo.
  - destruct (String.eqb _ ""); cbn [negb]; [|by apply Hgo, known_ok_record]. exists st. split; [done|]. by exists [], q.
Qed.

(** The item [l] is taken out of lane [p], between [a] and [b]. *)
Definition take_ready (p : nat) (a : list loc) (l : loc) (b : list loc) (s : Sched) : Sched :=
  upd_item l (λ it, it <| item_queued := false |>) (s <| s_ready := <[p := a ++ b]> (s_ready s) |>).

Definition lane (s : Sched) (p : nat) : list loc := default [] (s_ready s !! p).

Lemma find_app_match {A} (f : A → bool) l1 l2 :
  List.find f (l1 ++ l2) = match List.find f l1 with Some x => Some x | None => List.find f l2 end.
Proof. induction l1 as [|x l1 IH]; simpl; [done|]. by destruct (f x). Qed.

Lemma scan_lanes_spec limits kind ps st s :
  (∀ p, p ∈ ps → lane_wf s (lane s p)) → known_ok limits (s_counters s) st →
  ∃ st', known_ok limits (s_counters s) st' ∧
  match List.find (picks limits kind s) (concat (map (lane s) ps)) with
  | None => scan_lanes limits kind ps st s = (None, st', s)
  | Some l => ∃ p a b, lane s p = a ++ l :: b ∧ scan_lanes limits kind ps st s = (Some l, st', take_ready p a l b s)
  end.
Proof.
  revert st. induction ps as [|p ps IH]; intros st Hwf Hok; [by exists st|].
  cbn [scan_lanes map concat]. rewrite find_app_match. fold (lane s p).
  destruct (scan_lane_spec limits kind [] (lane s p) st s) as (st1 & Hok1 & H); [apply Hwf; by left|done|].
  destruct (List.find (picks limits kind s) (lane s p)) as [l|].
  - destruct H as (a & b & Hl & ->). exists st1. split; [done|]. by exists p, a, b.
  - rewrite H. apply IH; [|done]. intros x Hx. apply Hwf. by right.
Qed.

Lemma ready_lanes s : length (s_ready s) = 3%nat → map (lane s) [0; 1; 2]%nat = s_ready s.
Proof. unfold lane. by destruct (s_ready s) as [|q0 [|q1 [|q2 [|]]]]. Qed.

Lemma lane_lookup s p a l b : lane s p = a ++ l :: b → s_ready s !! p = Some (a ++ l :: b).
Proof. unfold lane. destruct (s_ready s !! p); simpl; [by intros ->|]. by destruct a. Qed.

Lemma sinv_lane_wf {ks} F T s p : SINV ks F T s → lane_wf s (lane s p).
Proof.
  intros HS l Hl. unfold lane in Hl. destruct (s_ready s !! p) as [q|] eqn:Hq; [|by apply elem_of_nil in Hl].
  destruct (inv_mem HS l) as (it & Hit & _ & Hwf); [|by rewrite (item_at_Some _ _ _ Hit)].
  rewrite !elem_of_app. right; left. apply elem_of_concat. exists q. split; [done|]. apply list_elem_of_lookup. eauto.
Qed.

Lemma emit_all_app os os' s : emit_all os' (emit_all os s) = emit_all (os ++ os') s.
Proof. unfold emit_all. by rewrite foldl_app. Qed.

Lemma flush_known limits c st s :
  known_ok limits c st → known_ok limits c (fst (flushBlockedMetrics st s)) ∧ ∃ os, snd (flushBlockedMetrics st s) = emit_all os s.
Proof. intros [A B C]. split; [by constructor|]. unfold flushBlockedMetrics. rewrite emit_all_app. by eexists. Qed.

(** [popReadyEligible] selects what the reference selects, and takes it out of its lane. *)
Lemma popReadyEligible_spec {ks} F T limits st s :
  SINV ks F T s → known_ok limits (s_counters s) st →
  ∃ st', known_ok limits (s_counters s) st' ∧
  match reference_pick limits s with
  | None => ∃ os, popReadyEligible limits st s = (None, st', emit_all os s)
  | Some l => ∃ p a b, s_ready s !! p = Some (a ++ l :: b) ∧
              popReadyEligible limits st s = (Some l, st', take_ready p a l b s)
  end.
Proof.
  intros HS Hok. assert (Hwf := λ p (_ : p ∈ [0; 1; 2]%nat), sinv_lane_wf F T s p HS).
  unfold popReadyEligible, popReadyEligibleKind, reference_pick.
  assert (Er : concat (s_ready s) = concat (map (lane s) [0; 1; 2]%nat)) by (by rewrite (ready_lanes s (inv_lanes _ _ _ HS))).
  rewrite Er. clear Er. destruct (scan_lanes_spec limits TaskKindEssential _ st s Hwf Hok) as (st1 & Hok1 & H1).
  destruct (List.find (picks limits TaskKindEssential s) _) as [l|].
  { exists st1. split; [done|]. destruct H1 as (p & a & b & Hl & ->). apply lane_lookup in Hl. by exists p, a, b. }
  rewrite H1. destruct (scan_lanes_spec limits TaskKindBootstrap _ st1 s Hwf Hok1) as (st2 & Hok2 & H2).
  destruct (List.find (picks limits TaskKindBootstrap s) _) as [l|].
  { exists st2. split; [done|]. destruct H2 as (p & a & b & Hl & ->). apply lane_lookup in Hl. by exists p, a, b. }
  rewrite H2. destruct (scan_lanes_spec limits TaskKindNone _ st2 s Hwf Hok2) as (st3 & Hok3 & H3).
  destruct (List.find (picks limits TaskKindNone s) _) as [l|].
  { exists st3. split; [done|]. destruct H3 as (p & a & b & Hl & ->). apply lane_lookup in Hl. by exists p, a, b. }
  rewrite H3. destruct (flush_known limits _ st3 s Hok3) as [Hok4 [os E]].
  destruct (flushBlockedMetrics st3 s) as [st4 s4] eqn:Efl. simpl in *. subst s4. exists st4. eauto.
Qed.

(** ** Admission *)

(** The limits a task passed when no reason blocks it, as far as they bound exact counters. *)
Lemma unblocked limits c t (d := uuid_String (key_DeviceID (task_Key t))) (m := MaxWorkersPerDevice (dl_policy limits)) :
  task_wf t → b_reason (dispatchBlockWithLimits c t limits) = ""%string →
  if is_essential (task_Key t)
  then (c_byKind c).[TaskKindEssential] < dl_essentialLimit limits ∧ (0 < m → (c_essByDevice c).[d] < m)
  else (c_byClass c).[key_class (task_Key t)] < (dl_budgets limits).[key_class (task_Key t)] ∧ (0 < m → (c_byDevice c).[d] < m).
Proof.
  intros Hwf. pose proof (uuid_String_nonempty (key_DeviceID (task_Key t))) as Hne.
  unfold dispatchBlockWithLimits, isolationBlock. rewrite !normalizeTask_wf by done.
  unfold task_deviceKey. rewrite (proj1 Hwf), (task_wf_class t Hwf). fold d in Hne |- *. fold m.
  destruct (decide (task_Kind t = TaskKindEssential)) as [Hk|Hk].
  - rewrite (proj1 (wf_essential t Hwf Hk)), bool_decide_eq_true_2 by done. destruct (_ <=? _) eqn:E1; [done|].
    destruct (String.eqb_spec d ""); [done|]. cbn [negb]. destruct (_ && _) eqn:E2; [done|]. intros _. to_prop.
    split; [done|]. intros Hm. apply andb_false_iff in E2 as [E2|E2]; to_prop; [|done].
    apply andb_false_iff in E2 as [E2|E2]; [to_prop; lia|done].
  - rewrite (proj1 (wf_non_essential t Hwf Hk)), bool_decide_eq_false_2 by done. destruct (_ <=? _) eqn:E1; [done|].
    destruct (String.eqb_spec d ""); [done|]. cbn [negb]. destruct (_ && _) eqn:E2; [done|]. intros _. to_prop.
    split; [done|]. intros Hm. apply andb_false_iff in E2 as [E2|E2]; to_prop; [|done].
    apply andb_false_iff in E2 as [E2|E2]; [to_prop; lia|done].
Qed.

(** No limit is exceeded by dispatching from [c0] to [c]. *)
Record within (limits : dispatchLimitsT) (c0 c : Counters) : Prop := {
  w_total : c_inFlight c <= Z.max (c_inFlight c0) (dl_globalLimit limits);
  w_essential : (c_byKind c).[TaskKindEssential] <= Z.max ((c_byKind c0).[TaskKindEssential]) (dl_essentialLimit limits);
  w_class v : (c_byClass c).[v] <= Z.max ((c_byClass c0).[v]) ((dl_budgets limits).[v]);
  w_essDevice d : 0 < MaxWorkersPerDevice (dl_policy limits) →
    (c_essByDevice c).[d] <= Z.max ((c_essByDevice c0).[d]) (MaxWorkersPerDevice (dl_policy limits));
  w_bgDevice d : 0 < MaxWorkersPerDevice (dl_policy limits) →
    (c_byDevice c).[d] - (c_essByDevice c).[d] <=
      Z.max ((c_byDevice c0).[d] - (c_essByDevice c0).[d]) (MaxWorkersPerDevice (dl_policy limits)) }.

Lemma within_refl limits c : within limits c c.
Proof. split; intros; lia. Qed.

Lemma within_trans limits c0 c1 c2 : within limits c0 c1 → within limits c1 c2 → within limits c0 c2.
Proof.
  intros [A B C D E] [A' B' C' D' E']. split; [lia|lia|intros v; specialize (C v); specialize (C' v); lia| |];
    intros d Hm; [specialize (D d Hm); specialize (D' d Hm)|specialize (E d Hm); specialize (E' d Hm)]; lia.
Qed.

(** One more task in flight that passed the limits. *)
Lemma within_send limits ks c c' t :
  task_wf t → counts_ok ks c → counts_ok (task_Key t :: ks) c' →
  c_inFlight c < dl_globalLimit limits → b_reason (dispatchBlockWithLimits c t limits) = ""%string → within limits c c'.
Proof.
  intros Hwf [A B C D E] [A' B' C' D' E'] Hg Hb. pose proof (unblocked limits c t Hwf Hb) as Hu.
  assert (Hpos := λ d, cnt_nonneg (λ k, is_essential k && of_device d k) ks).
  split; [rewrite A', A in *; simpl in *; lia|..].
  - rewrite B', cnt_cons, <- B. case_match; lia.
  - intros v. rewrite C', cnt_cons, <- C. unfold of_class. destruct (is_essential (task_Key t)); cbn [negb andb]; [lia|].
    rewrite bool_decide_decide. case_decide as Ev; [subst v|]; lia.
  - intros d Hm. rewrite E', cnt_cons, <- E. destruct (is_essential (task_Key t)); cbn [andb]; [|lia].
    rewrite of_device_decide, bool_decide_decide. case_decide as Ed; [subst d|]; lia.
  - intros d Hm. rewrite D', E', !cnt_cons, <- D, <- E. specialize (Hpos d). rewrite <- E in Hpos.
    rewrite of_device_decide, bool_decide_decide. destruct (is_essential (task_Key t)); cbn [andb]; case_decide as Ed; try subst d; lia.
Qed.

(** ** The dispatch loop *)

Lemma find_some_elem {A} (f : A → bool) l x : List.find f l = Some x → x ∈ l ∧ f x = true.
Proof. intros H%List.find_some. by rewrite list_elem_of_In. Qed.

Lemma reference_pick_Some limits s l :
  reference_pick limits s = Some l → l ∈ concat (s_ready s) ∧ dispatchable limits s l = true.
Proof.
  assert (H : ∀ k, List.find (picks limits k s) (concat (s_ready s)) = Some l → l ∈ concat (s_ready s) ∧ dispatchable limits s l = true).
  { intros k Hf. apply find_some_elem in Hf as [? Hp]. unfold picks in Hp. by to_prop. }
  unfold reference_pick. destruct (List.find _ _) eqn:E1; [intros; simplify_eq; by eapply H|].
  clear E1. destruct (List.find _ _) eqn:E1; [intros; simplify_eq; by eapply H|apply H].
Qed.

(** Nothing is selected only when every ready task is blocked. *)
Lemma reference_pick_None {ks} F T limits s l :
  SINV ks F T s → reference_pick limits s = None → l ∈ concat (s_ready s) → dispatchable limits s l = false.
Proof.
  intros HS Hp Hl. destruct (inv_mem HS l) as (it & Hit & _ & Hwf); [rewrite !elem_of_app; tauto|].
  destruct (dispatchable limits s l) eqn:Hd; [|done]. exfalso.
  assert (H : ∀ k, List.find (picks limits k s) (concat (s_ready s)) = None → kind_skips k (item_task (item_at s l)) = true).
  { intros k Hf. apply List.find_none with (x := l) in Hf; [|by apply list_elem_of_In]. unfold picks in Hf.
    rewrite Hd, andb_true_r in Hf. by to_prop. }
  unfold reference_pick in Hp. destruct (List.find _ _) eqn:E1 in Hp; [done|].
  destruct (List.find _ _) eqn:E2 in Hp; [done|]. apply H in E1, E2, Hp.
  rewrite (item_at_Some _ _ _ Hit) in *. unfold kind_skips in *. destruct (task_wf_kind _ Hwf).
  destruct (task_Kind (item_task it)); to_prop; try done.
Qed.

Lemma take_ready_count p a l b s :
  s_ready s !! p = Some (a ++ l :: b) → ready_count s = S (ready_count (take_ready p a l b s)).
Proof.
  intros Hp. unfold ready_count. cbn [take_ready upd_item s_ready upd upd_s_store upd_s_ready].
  rewrite (concat_insert_perm p (a ++ b)) by (by eapply lookup_lt_Some). rewrite (concat_lookup_perm p _ _ Hp).
  rewrite !length_app. simpl. lia.
Qed.

(** [ts] are the tasks sent to the workers between [s] and [s'], in order; [T] is what the
    loop still holds. *)
Record dispatched (limits : dispatchLimitsT) (ks : list TaskKey) (F' T : list loc) (ts : list PollTask) (s s' : Sched) : Prop := {
  d_sinv : SINV (rev (task_Key <$> ts) ++ ks) F' T s';
  d_within : within limits (s_counters s) (s_counters s');
  d_tasks : s_tasks s' = s_tasks s ++ ts;
  d_run t : t ∈ ts → task_RunID t = s_runID s;
  d_frame : s_tasksCap s' = s_tasksCap s ∧ s_runID s' = s_runID s ∧ s_started s' = s_started s ∧
            s_completions s' = s_completions s ∧ s_completionsCap s' = s_completionsCap s ∧ s_running s' = s_running s }.

Definition chan_frame (s s' : Sched) : Prop :=
  s_tasksCap s' = s_tasksCap s ∧ s_runID s' = s_runID s ∧ s_started s' = s_started s ∧
  s_completions s' = s_completions s ∧ s_completionsCap s' = s_completionsCap s ∧ s_running s' = s_running s.

Lemma dispatched_step limits ks F' T ts s s1 s' mid :
  within limits (s_counters s) (s_counters s1) → s_tasks s1 = s_tasks s ++ mid →
  (∀ t, t ∈ mid → task_RunID t = s_runID s) → chan_frame s s1 →
  dispatched limits (rev (task_Key <$> mid) ++ ks) F' T ts s1 s' → dispatched limits ks F' T (mid ++ ts) s s'.
Proof.
  intros Hw Ht Hr (F1 & F2 & F3 & F4 & F5 & F6) [A B C D E]. split.
  - by rewrite fmap_app, rev_app_distr, <- app_assoc.
  - by eapply within_trans.
  - by rewrite C, Ht, <- app_assoc.
  - intros t [Hin|Hin]%elem_of_app; [auto|]. rewrite <- F2. auto.
  - rewrite <- F1, <- F2, <- F3, <- F4, <- F5, <- F6. done.
Qed.

Lemma send_frame now l t s :
  s_tasks (dispatch_send now l t s) = s_tasks s ++ [t] ∧ chan_frame s (dispatch_send now l t s) ∧
  s_ready (dispatch_send now l t s) = s_ready s.
Proof. unfold dispatch_send. by destruct (_ && _). Qed.

Lemma send_counters now l t s :
  s_counters (dispatch_send now l t s) = incrementInFlight t (s_counters s <| c_inFlight := c_inFlight (s_counters s) + 1 |>).
Proof. unfold dispatch_send. by destruct (_ && _). Qed.

(** What one round does with the selected item. *)
Lemma send_step {ks} F limits now st p a l b s (s1 := take_ready p a l b s) (t := dispatch_task (s_runID s1) now (item_at s1 l))
  (s2 := dispatch_send now l t s1) :
  SINV ks F [] s → known_ok limits (s_counters s) st → s_ready s !! p = Some (a ++ l :: b) → dispatchable limits s l = true →
  c_inFlight (s_counters s) < dl_globalLimit limits →
  SINV (task_Key t :: ks) (l :: F) [] s2 ∧ known_ok limits (s_counters s2) st ∧ within limits (s_counters s) (s_counters s2).
Proof.
  intros HS Hok Hp Hd Hg. assert (HS1 : SINV ks F [l] s1) by (by apply sinv_dequeue).
  destruct (sinv_held_item F [] s1 l HS1) as (it & Hit & Hat & _ & Hwf & _).
  assert (Hkt : task_Key t = key_of s1 l).
  { unfold t, key_of. rewrite Hat. by rewrite (proj2 (dispatch_task_wf _ _ _ Hwf)). }
  assert (HS2 : SINV (task_Key t :: ks) (l :: F) [] s2) by (rewrite Hkt; by apply sinv_send). split; [done|].
  assert (Hlit : task_wf (item_task (item_at s l)) ∧ task_Key (item_task (item_at s l)) = task_Key t).
  { rewrite Hkt. unfold key_of. rewrite Hat. revert Hit Hwf. unfold s1, take_ready, item_at.
    rewrite store_upd_item, decide_True by done. cbn [s_store upd upd_s_ready].
    destruct (s_store s !! l) as [it0|]; [|done]. intros [= <-] Hwf. by split. }
  destruct Hlit as [Hwfl Hkl]. pose proof (sinv_counts _ _ _ _ HS) as HC. pose proof (sinv_counts _ _ _ _ HS2) as HC2.
  rewrite <- Hkl in HC2.
  split; [|eapply within_send; [exact Hwfl|exact HC|exact HC2|done|by apply String.eqb_eq]].
  destruct HC as [_ B C _ _], HC2 as [_ B2 C2 _ _].
  apply (known_ok_mono limits (s_counters s)); [rewrite B, B2, cnt_cons; case_match; lia| |done].
  intros v. rewrite C, C2, cnt_cons. case_match; lia.
Qed.

Lemma emit_all_frame os s :
  s_counters (emit_all os s) = s_counters s ∧ s_tasks (emit_all os s) = s_tasks s ∧
  chan_frame s (emit_all os s) ∧ s_ready (emit_all os s) = s_ready s ∧ s_store (emit_all os s) = s_store s.
Proof. unfold emit_all. revert s. induction os as [|o os IH]; intros s; [done|]. simpl. apply (IH (emit o s)). Qed.

(** Why the loop stopped, in the state [s'] it left, holding [T]. *)
Definition stop_ok (limits : dispatchLimitsT) (r : stopReason) (T : list loc) (s' : Sched) : Prop :=
  match r with
  | StopGlobalLimit => T = [] ∧ dl_globalLimit limits <= c_inFlight (s_counters s')
  | StopNoEligibleTask => T = [] ∧ reference_pick limits s' = None
  | StopContextDone => T = []
  | StopSendBlocked => c_inFlight (s_counters s') < dl_globalLimit limits ∧ s_tasksCap s' <= Z.of_nat (length (s_tasks s'))
  | StopReadyEmpty | StopOutOfFuel => False
  end.

Definition loop_post (limits : dispatchLimitsT) (ks : list TaskKey) (s : Sched)
  (out : stopReason * dispatchScanState * Sched) : Prop :=
  let '(r, _, s') := out in ∃ ts F' T, dispatched limits ks F' T ts s s' ∧ stop_ok limits r T s'.

Lemma loop_stop {ks} limits F T s r st s' :
  SINV ks F T s' → s_counters s' = s_counters s → s_tasks s' = s_tasks s → chan_frame s s' →
  stop_ok limits r T s' → loop_post limits ks s (r, st, s').
Proof.
  intros HS' Ec Et Hf Hst. exists [], F, T. split; [|done].
  split; [done|rewrite Ec; apply within_refl|by rewrite app_nil_r|by intros t ?%elem_of_nil|done].
Qed.

Lemma loop_continue limits ks mid s s1 out :
  within limits (s_counters s) (s_counters s1) → s_tasks s1 = s_tasks s ++ mid →
  (∀ t, t ∈ mid → task_RunID t = s_runID s) → chan_frame s s1 →
  loop_post limits (rev (task_Key <$> mid) ++ ks) s1 out → loop_post limits ks s out.
Proof.
  intros Hw Ht Hr Hf. destruct out as [[r st] s']. intros (ts & F' & T & Hd & Hst).
  exists (mid ++ ts), F', T. split; [|done]. by eapply dispatched_step.
Qed.

Lemma reference_pick_emit limits os s : reference_pick limits (emit_all os s) = reference_pick limits s.
Proof.
  destruct (emit_all_frame os s) as (E1 & _ & _ & E2 & E3).
  unfold reference_pick, picks, dispatchable, item_at. by rewrite E1, E2, E3.
Qed.

(** The loop returns within its fuel, for one of the stated reasons; only a send that has to
    wait for the workers leaves an item in the hands of the loop. *)
Lemma dispatch_loop_spec {ks} fuel F limits now ctxDone n st s :
  SINV ks F [] s → known_ok limits (s_counters s) st → (ready_count s < fuel)%nat →
  loop_post limits ks s (dispatch_loop fuel limits now ctxDone n st s).
Proof.
  revert ks F n st s. induction fuel as [|fuel IH]; intros ks F n st s HS Hok Hfuel; [lia|]. cbn [dispatch_loop].
  destruct (dl_globalLimit limits <=? c_inFlight (s_counters s)) eqn:Hg; to_prop.
  { assert (Hrb : ∃ os, recordBackpressure "global_limit" s = emit_all os s) by by eexists. destruct Hrb as [os ->].
    apply (loop_stop limits F []); try apply emit_all_frame; [by apply sinv_emit_all|].
    split; [done|]. by rewrite (proj1 (emit_all_frame os s)). }
  destruct (popReadyEligible_spec F [] limits st s HS Hok) as (st1 & Hok1 & Hpick).
  destruct (reference_pick limits s) as [l|] eqn:Href.
  2: { destruct Hpick as [os ->]. apply (loop_stop limits F []); try apply emit_all_frame; [by apply sinv_emit_all|].
       split; [done|]. by rewrite reference_pick_emit. }
  destruct Hpick as (p & a & b & Hp & ->). apply reference_pick_Some in Href as [_ Hd].
  set (s1 := take_ready p a l b s). assert (HS1 : SINV ks F [l] s1) by (by apply sinv_dequeue).
  pose proof (take_ready_count p a l b s Hp) as Hcount. fold s1 in Hcount.
  destruct (sinv_held_item F [] s1 l HS1) as (it & Hit & Hat & _ & Hwf & Hk). cbv zeta.
  destruct (item_disabled (item_at s1 l)).
  { apply (loop_continue limits ks [] s (items_delete (task_Key (item_task (item_at s1 l))) s1));
      [apply within_refl|by rewrite app_nil_r|by intros t ?%elem_of_nil|done|]. rewrite Hat.
    apply (IH ks F); [by eapply sinv_delete|done|]. change (ready_count _) with (ready_count s1). lia. }
  destruct (ctxDone n).
  { apply (loop_stop limits F []); [by apply sinv_pushReadyFront|..];
      try (unfold pushReadyFront, enqueue_with; by case_match). }
  destruct (_ <? _) eqn:Hcap; to_prop; [|by apply (loop_stop limits F [l])].
  destruct (send_step F limits now st1 p a l b s HS Hok1 Hp Hd Hg) as (HS2 & Hok2 & Hw). fold s1 in HS2, Hok2, Hw.
  set (t := dispatch_task (s_runID s1) now (item_at s1 l)) in *.
  destruct (send_frame now l t s1) as (Ft & Fc & Fq).
  apply (loop_continue limits ks [t] s (dispatch_send now l t s1)); [exact Hw|by rewrite Ft| |exact Fc|].
  { intros t' ->%list_elem_of_singleton. done. }
  apply (IH _ (l :: F)); [done..|]. unfold ready_count in *. rewrite Fq. lia.
Qed.

Lemma bufferLimit_cap s : 0 < s_tasksCap s → 0 <= s_completionsCap s → 0 < bufferLimit s <= s_tasksCap s.
Proof.
  unfold bufferLimit. intros H1 H2. destruct (s_tasksCap s =? 0) eqn:E1; to_prop; [lia|]. cbn [orb].
  destruct (_ && _) eqn:E2; to_prop; lia.
Qed.

(** The global limit never exceeds the capacity of the task channel. *)
Lemma globalLimit_cap e s :
  0 < s_tasksCap s → 0 <= s_completionsCap s → dl_globalLimit (dispatchLimits e s) <= s_tasksCap s.
Proof.
  intros H1 H2. pose proof (bufferLimit_cap s H1 H2). cbn [dispatchLimits dl_globalLimit].
  destruct (_ && _) eqn:E; to_prop; [lia|]. apply andb_false_iff in E as [E|E]; to_prop; lia.
Qed.

Lemma ready_empty s : readyQueuesEmpty s = true → concat (s_ready s) = [].
Proof.
  unfold readyQueuesEmpty. intros H. induction (s_ready s) as [|q qs IH]; [done|]. simpl in *. to_prop. subst q. auto.
Qed.

Lemma dispatchReady_spec {ks} F e now ctxDone s :
  SINV ks F [] s →
  let '(r, s') := dispatchReady e now ctxDone s in
  (r = StopReadyEmpty ∧ s' = s ∧ concat (s_ready s) = []) ∨
  ∃ ts F' T, dispatched (dispatchLimits e s) ks F' T ts s s' ∧ stop_ok (dispatchLimits e s) r T s'.
Proof.
  intros HS. unfold dispatchReady. destruct (readyQueuesEmpty s) eqn:He.
  { left. split_and!; try done. by apply ready_empty. }
  pose proof (dispatch_loop_spec (S (ready_count s)) F (dispatchLimits e s) now ctxDone 0 newScanState s HS
                (known_ok_new _ _) ltac:(lia)) as Hl.
  destruct (dispatch_loop _ _ _ _ _ _ _) as [[r st] s']. destruct Hl as (ts & F' & T & [A B C D E] & Hst).
  right. exists ts, F', T. assert (Hfl : ∃ os, snd (flushBlockedMetrics st s') = emit_all os s').
  { unfold flushBlockedMetrics. rewrite emit_all_app. by eexists. }
  destruct Hfl as [os ->]. destruct (emit_all_frame os s') as (E1 & E2 & (F1 & F2 & F3 & F4 & F5 & F6) & _). split.
  - split; rewrite ?E1, ?E2, ?F1, ?F2, ?F3, ?F4, ?F5, ?F6; try done. by apply sinv_emit_all.
  - unfold stop_ok in *. rewrite ?E1, ?E2, ?F1, reference_pick_emit. done.
Qed.
