(* ===== verification/SchedSchedule.v ===== *)
(** * Scheduling, rescheduling, removal and completion preserve the invariant *)

From S2P Require Import Prelude GoLib Domain Policy GoHeap SchedTypes Scheduler SchedOps SchedInv SchedMoves SchedSteps.

(** ** Updating a scheduled item *)

(** The attributes the code gives to the task of [key] agree with it. *)
Definition params_wf (key : TaskKey) (kind : TaskKind) (lane : Lane) (device : Device) (v : VolatilityClass) : Prop :=
  task_wf (newTask key kind lane device v 0 0).

Lemma params_wf_essential d : params_wf (NewEssentialTaskKey (dev_ID d)) TaskKindEssential LaneEssential d VolatilityClassNone.
Proof. done. Qed.
Lemma params_wf_bootstrap d : params_wf (NewBootstrapTaskKey (dev_ID d)) TaskKindBootstrap LaneBootstrap d VolatilityClassStatic.
Proof. done. Qed.
Lemma params_wf_background d v :
  v ≠ VolatilityClassNone → params_wf (NewBackgroundTaskKey (dev_ID d) v) TaskKindBackground LaneBackground d v.
Proof. done. Qed.
#[export] Hint Resolve params_wf_essential params_wf_bootstrap params_wf_background : theia.

Lemma background_classes d v : v ∈ scheduledBackgroundVolatilityClassesForDevice d → v ≠ VolatilityClassNone.
Proof.
  unfold scheduledBackgroundVolatilityClassesForDevice, scheduledVolatilityClasses. case_match; rewrite !elem_of_cons, elem_of_nil;
    intuition congruence.
Qed.

Section schedule.
Context (key : TaskKey) (kind : TaskKind) (lane : Lane) (device : Device) (v : VolatilityClass) (interval : Duration).
Context (Hparams : params_wf key kind lane device v).

Lemma refresh_in_place dueAt it :
  task_Key (item_task it) = key → (0 <= item_index it → item_disabled it = false) →
  in_place it (refresh_item key kind lane device v interval dueAt it).
Proof. intros Hk Hd. split; try done. intros Hi. by rewrite Hd. Qed.

(** A registered item in the heap is not disabled. *)
Lemma registered_item {ks} F T s k l :
  SINV ks F T s → s_items s !! k = Some l →
  ∃ it, s_store s !! l = Some it ∧ task_Key (item_task it) = k ∧ task_wf (item_task it) ∧
    (0 <= item_index it → item_disabled it = false).
Proof.
  intros HS Hl. destruct (inv_items _ _ _ HS k l Hl) as (it & Hit & Hk & Hwf). exists it. split_and!; try done.
  intros Hi. destruct (inv_place HS l k Hl) as [(i & _ & _ & Hd & _)|[(p & _ & _ & _ & _ & _ & Hx & _)|[(_ & _ & _ & Hx & _)|(_ & _ & Hx)]]];
    rewrite (item_at_Some _ _ _ Hit) in *; [done|lia..].
Qed.

Lemma sinv_refresh_same {ks} F T s l :
  SINV ks F T s → s_items s !! key = Some l →
  SINV ks F T (upd_item l (λ it, refresh_item key kind lane device v interval (item_dueAt it) it) s).
Proof.
  intros HS Hl. destruct (registered_item F T s key l HS Hl) as (it & Hit & Hk & Hwf & Hd).
  apply sinv_upd; [|done]. intros it' Hit' _. assert (it' = it) as -> by congruence. split; [by apply refresh_in_place|].
  intros _. by apply sort_key_wf.
Qed.

Lemma newItem_held t dueAt : held (newItem t dueAt interval).
Proof. done. Qed.

Lemma sinv_upsertScheduledItem {ks} F s now :
  SINV ks F [] s → SINV ks F [] (upsertScheduledItem device key kind lane v interval now s).
Proof.
  intros HS. unfold upsertScheduledItem. destruct (s_items s !! key) as [l|] eqn:Hl; [by apply sinv_refresh_same|].
  set (dueAt := Time_Add now _). set (it := newItem (newTask key kind lane device v interval dueAt) dueAt interval).
  cbn [alloc]. rewrite <- heap_Push_items_insert.
  apply sinv_Push; [by apply (sinv_new F [] s key it)|].
  unfold item_at. cbn. by rewrite lookup_insert_eq.
Qed.

Lemma sinv_add_ready_front {ks} F s dueAt :
  SINV ks F [] s → s_items s !! key = None →
  SINV ks F [] (add_ready_front key (newTask key kind lane device v interval dueAt) dueAt interval s).
Proof.
  intros HS Hl. unfold add_ready_front. set (it := newItem _ dueAt interval). cbn [alloc].
  apply sinv_pushReadyFront. by apply (sinv_new F [] s key it).
Qed.
End schedule.

(** ** Taking an item out of the ready lanes *)

Lemma remove_first_spec l q : l ∈ q → ∃ a b, q = a ++ l :: b ∧ remove_first l q = Some (a ++ b).
Proof.
  induction q as [|x q IH]; [by intros ?%elem_of_nil|]. intros Hl. simpl. destruct (decide (x = l)) as [->|Hne].
  - rewrite bool_decide_eq_true_2 by done. by exists [], q.
  - rewrite bool_decide_eq_false_2 by done. apply elem_of_cons in Hl as [->|Hl]; [done|].
    destruct (IH Hl) as (a & b & -> & ->). by exists (x :: a), b.
Qed.

Lemma remove_first_None l q : l ∉ q → remove_first l q = None.
Proof.
  induction q as [|x q IH]; [done|]. rewrite not_elem_of_cons. intros [Hne Hl]. simpl.
  rewrite bool_decide_eq_false_2 by done. by rewrite IH.
Qed.

Lemma remove_lanes_spec l lanes :
  l ∈ concat lanes → ∃ p a b, lanes !! p = Some (a ++ l :: b) ∧ remove_lanes l lanes = Some (<[p := a ++ b]> lanes).
Proof.
  induction lanes as [|q lanes IH]; [by intros ?%elem_of_nil|]. simpl. intros Hl. destruct (decide (l ∈ q)) as [Hq|Hq].
  - destruct (remove_first_spec l q Hq) as (a & b & -> & ->). by exists 0%nat, a, b.
  - rewrite (remove_first_None l q Hq). apply elem_of_app in Hl as [|Hl]; [done|].
    destruct (IH Hl) as (p & a & b & Hp & ->). by exists (S p), a, b.
Qed.

Lemma sinv_removeReadyItem {ks} F T s l :
  SINV ks F T s → l ∈ concat (s_ready s) →
  SINV ks F (l :: T) (removeReadyItem l s) ∧ s_items (removeReadyItem l s) = s_items s ∧
  ∀ it, s_store s !! l = Some it → s_store (removeReadyItem l s) !! l = Some (it <| item_queued := false |>).
Proof.
  intros HS Hl. destruct (remove_lanes_spec l (s_ready s) Hl) as (p & a & b & Hp & E). unfold removeReadyItem.
  rewrite E. split_and!; [by apply sinv_dequeue|done|]. intros it Hit. rewrite store_upd_item, decide_True by done.
  cbn [s_store upd upd_s_ready]. by rewrite Hit.
Qed.

(** ** Making an item immediately due *)

Lemma sinv_redue {ks} F s key kind lane device v interval dueAt l :
  params_wf key kind lane device v → SINV ks F [] s → s_items s !! key = Some l →
  SINV ks F [] (reposition l (upd_item l (refresh_item key kind lane device v interval dueAt) s)).
Proof.
  intros Hp HS Hl. set (f := refresh_item key kind lane device v interval dueAt). set (s1 := upd_item l f s).
  destruct (registered_item F [] s key l HS Hl) as (it & Hit & Hk & Hwf & Hd).
  assert (Hf : ∀ it', s_store s !! l = Some it' → in_place it' (f it')).
  { intros it' Hit'. assert (it' = it) as -> by congruence. by apply refresh_in_place. }
  assert (Hat : item_at s1 l = f it) by (by apply item_at_upd_eq).
  assert (HS1 : item_index it = -1 → SINV ks F [] s1).
  { intros Hi. apply sinv_upd; [|done]. intros it' Hit' _. assert (it' = it) as -> by congruence. split; [auto|lia]. }
  unfold reposition. rewrite Hat. change (item_inFlight (f it)) with (item_inFlight it).
  change (item_queued (f it)) with (item_queued it). change (item_index (f it)) with (item_index it).
  destruct (inv_place HS l key Hl) as [(i & Hi & H)|[(p & Hin & H)|[(HF & H)|(HT & _)]]];
    [| | |by apply elem_of_nil in HT]; rewrite (item_at_Some _ _ _ Hit) in H.
  - destruct H as ((-> & -> & _) & _ & Hidx). rewrite Hidx, (proj2 (Z.leb_le 0 _)) by lia. by apply sinv_upd_Fix.
  - destruct H as (-> & -> & _ & _ & Hidx & _). apply sinv_pushReadyFront, sinv_removeReadyItem; [auto|done].
  - destruct H as (_ & -> & Hidx & _). apply sinv_upd; [|auto]. intros it' Hit' _. unfold s1 in Hit'.
    rewrite store_upd_item, decide_True, Hit in Hit' by done. injection Hit' as <-.
    destruct (inv_flying _ _ _ HS l HF) as (_ & Hfl & _). rewrite (item_at_Some _ _ _ Hit) in Hfl.
    split; [by apply in_place_flags; auto|done].
Qed.

Lemma sinv_scheduleBootstrapItem {ks} F s device dueAt : SINV ks F [] s → SINV ks F [] (scheduleBootstrapItem device dueAt s).
Proof.
  intros HS. unfold scheduleBootstrapItem. destruct (s_items s !! _) as [l|] eqn:Hl.
  - by apply sinv_redue; auto with theia.
  - by apply sinv_add_ready_front; auto with theia.
Qed.

Lemma sinv_bootstrap_same {ks} F s d l :
  SINV ks F [] s → s_items s !! NewBootstrapTaskKey (dev_ID d) = Some l →
  SINV ks F [] (applyBootstrapSchedule l d (item_dueAt (item_at s l)) StaticClassInterval s).
Proof.
  intros HS Hl. destruct (registered_item F [] s _ l HS Hl) as (it & Hit & Hk & Hwf & Hd). apply sinv_upd; [|done].
  intros it' Hit' _. assert (it' = it) as -> by congruence. split; [by apply refresh_in_place; auto with theia|].
  intros _. apply sort_key_wf; [exact (params_wf_bootstrap d)|done|by rewrite Hk|].
  by rewrite (item_at_Some _ _ _ Hit).
Qed.

Lemma sinv_scheduleRecurringDevice {ks} F now device s seen :
  SINV ks F [] s → SINV ks F [] (fst (scheduleRecurringDeviceLocked device now (s, seen))).
Proof.
  intros HS. unfold scheduleRecurringDeviceLocked.
  set (x1 := if shouldScheduleEssentialTask device then _ else _).
  assert (H1 : SINV ks F [] (fst x1)) by (subst x1; case_match; [by apply sinv_upsertScheduledItem; auto with theia|done]).
  destruct x1 as [s1 seen1]. set (x2 := if shouldScheduleBootstrapTask device then _ else _).
  assert (H2 : SINV ks F [] (fst x2)).
  { subst x2. case_match; [|done]. cbn [fst]. destruct (s_items s1 !! _) as [l|] eqn:Hl; [|by apply sinv_scheduleBootstrapItem].
    by apply sinv_bootstrap_same. }
  destruct x2 as [s2 seen2]. cbn [fst] in H2. pose proof (background_classes device) as Hcl. revert s2 seen2 H2 Hcl.
  induction (scheduledBackgroundVolatilityClassesForDevice device) as [|v vs IH]; intros s2 seen2 H2 Hcl; [done|].
  cbn [foldl]. apply IH; [|intros; apply Hcl; by right].
  apply sinv_upsertScheduledItem; [|done]. apply params_wf_background, Hcl. by left.
Qed.

(** ** Sweeping and removing *)

(** The entries still to be visited are registered, each under its own key. *)
Definition entries_ok (s : Sched) (kls : list (TaskKey * loc)) : Prop :=
  NoDup kls.*1 ∧ ∀ k l, (k, l) ∈ kls → s_items s !! k = Some l.

(** A Go map iteration visits every entry once, in any order. *)
Definition range_ok (e : Env) : Prop := ∀ m, env_range e m ≡ₚ map_to_list m.

Lemma range_entries e s : range_ok e → entries_ok s (env_range e (s_items s)).
Proof.
  intros He. split; [rewrite (He (s_items s)); apply NoDup_fst_map_to_list|].
  intros k l. rewrite (He (s_items s)). apply elem_of_map_to_list.
Qed.

Lemma entries_step s s' k l kls :
  (∀ k', k' ≠ k → s_items s' !! k' = s_items s !! k') → entries_ok s ((k, l) :: kls) → entries_ok s' kls.
Proof.
  intros Hs [Hnd Hin]. simpl in Hnd. apply NoDup_cons in Hnd as [Hk Hnd]. split; [done|]. intros k' l' Hkl.
  rewrite Hs; [apply Hin; by right|]. intros ->. apply Hk, list_elem_of_fmap. by exists (k, l').
Qed.

(** Disabling an item that is not in the heap. *)
Lemma sinv_disable {ks} F T s l :
  item_index (item_at s l) = -1 → SINV ks F T s → SINV ks F T (upd_item l (λ it, it <| item_disabled := true |>) s).
Proof.
  intros Hi. apply sinv_upd. intros it Hit _. rewrite (item_at_Some _ _ _ Hit) in Hi.
  split; [|lia]. split; try done. lia.
Qed.

Lemma sinv_sweep_item {ks} F seen s k l :
  SINV ks F [] s → s_items s !! k = Some l →
  SINV ks F [] (sweep_item seen s (k, l)) ∧ ∀ k', k' ≠ k → s_items (sweep_item seen s (k, l)) !! k' = s_items s !! k'.
Proof.
  intros HS Hl. unfold sweep_item. case_decide; [done|].
  destruct (inv_place HS l k Hl) as [(i & Hi & H')|[(p & Hin & H')|[(HF & H')|(HT & _)]]]; [| | |by apply elem_of_nil in HT].
  - destruct H' as ((-> & -> & _) & _ & Hidx). cbn [orb]. rewrite Hidx, (proj2 (Z.leb_le 0 _)) by lia.
    destruct (sinv_Remove F [] s i l HS Hi) as [HR Hf]. destruct (frame_rest _ _ _ Hf) as (Ei & _).
    split; [apply (sinv_delete F [] _ l); [done|by rewrite Ei]|].
    intros k' Hk'. cbn. rewrite lookup_delete_ne by done. by rewrite Ei.
  - destruct H' as (-> & -> & _ & _ & Hidx & _). cbn [orb]. split; [by apply sinv_disable|done].
  - destruct H' as (-> & -> & Hidx & _). cbn [orb]. split; [by apply sinv_disable|done].
Qed.

Lemma sinv_sweep {ks} F seen kls s :
  SINV ks F [] s → entries_ok s kls → SINV ks F [] (foldl (sweep_item seen) s kls).
Proof.
  revert s. induction kls as [|[k l] kls IH]; intros s HS He; [done|]. cbn [foldl].
  destruct (sinv_sweep_item F seen s k l HS) as [HS' Hs']; [apply He; by left|]. apply IH; [done|]. by eapply entries_step.
Qed.

Lemma sinv_schedule_devices {ks} F now devices s seen :
  SINV ks F [] s →
  SINV ks F [] (fst (foldl (λ st d, if shouldScheduleRecurringDevice d then scheduleRecurringDeviceLocked d now st else st) (s, seen) devices)).
Proof.
  revert s seen. induction devices as [|d devices IH]; intros s seen HS; [done|]. cbn [foldl].
  destruct (shouldScheduleRecurringDevice d); [|by apply IH].
  pose proof (sinv_scheduleRecurringDevice F now d s seen HS) as H.
  destruct (scheduleRecurringDeviceLocked d now (s, seen)) as [s1 seen1]. by apply IH.
Qed.

Lemma sinv_refreshDevices {ks} F e now s s' :
  range_ok e → SINV ks F [] s → refreshDevices e now s = Ok s' → SINV ks F [] s'.
Proof.
  intros He HS. unfold refreshDevices. destruct (env_GetDevices e) as [devices|]; [|done]. cbn [result_bind].
  pose proof (sinv_schedule_devices F now devices (emit (RetainDeviceMetrics devices) s) (Some ∅) (sinv_emit _ _ _ _ HS)) as H1.
  destruct (foldl _ _ devices) as [s1 seen1]. cbn [fst] in H1.
  pose proof (sinv_sweep F (default ∅ seen1) _ s1 H1 (range_entries e s1 He)) as H2.
  destruct (PolicyFromSettings _ _ _ _ _) as [policy warnings]. intros [= <-].
  refine (sinv_ext F [] _ _ _ _ _ _ _ _ _ H2); reflexivity.
Qed.

Lemma held_pending {ks} F T s l :
  SINV ks F (l :: T) s → SINV ks F (l :: T) (upd_item l (λ it, it <| item_pending := false |>) s).
Proof.
  intros HS. destruct (sinv_held_item F T s l HS) as (it & Hit & _ & ((? & ? & ? & ?) & ?) & _).
  apply sinv_upd; [|done]. intros it' Hit' _. assert (it' = it) as -> by congruence.
  split; [apply in_place_flags; auto|done].
Qed.

(** Dropping the held item [l] after its pending mark is cleared. *)
Lemma remove_held {ks} F s l k :
  SINV ks F [l] s → s_items s !! k = Some l →
  let s1 := upd_item l (λ it, it <| item_pending := false |>) s in
  item_inFlight (item_at s1 l) = false ∧ SINV ks F [] (items_delete k s1).
Proof.
  intros HS Hk. cbv zeta. destruct (sinv_held_item F [] s l HS) as (it & Hit & _ & ((_ & Hf & _) & _) & _).
  split; [by rewrite (item_at_upd_eq _ _ _ _ Hit)|]. by apply (sinv_delete F [] _ l); [apply held_pending|].
Qed.

Lemma sinv_remove_item {ks} F d s k l :
  SINV ks F [] s → s_items s !! k = Some l →
  SINV ks F [] (remove_item d s (k, l)) ∧ ∀ k', k' ≠ k → s_items (remove_item d s (k, l)) !! k' = s_items s !! k'.
Proof.
  intros HS Hl. unfold remove_item. destruct (negb _); [done|]. cbv zeta.
  destruct (inv_items _ _ _ HS k l Hl) as (it & Hit & _).
  destruct (inv_place HS l k Hl) as [(i & Hi & H')|[(p & Hin & H')|[(HF & H')|(HT & _)]]]; [| | |by apply elem_of_nil in HT].
  - destruct H' as ((-> & _) & _ & Hidx). rewrite Hidx, (proj2 (Z.leb_le 0 _)) by lia.
    destruct (sinv_Remove F [] s i l HS Hi) as [HR Hf]. destruct (frame_rest _ _ _ Hf) as (Ei & _).
    destruct (remove_held F _ l k HR) as [-> HD]; [by rewrite Ei|]. split; [done|].
    intros k' Hk'. cbn. rewrite lookup_delete_ne by done. by rewrite Ei.
  - destruct H' as (-> & _ & _ & _ & Hidx & _). destruct (sinv_removeReadyItem F [] s l HS Hin) as (HR & Ei & Hst).
    rewrite (item_at_Some _ _ _ (Hst it Hit)). rewrite (item_at_Some _ _ _ Hit) in Hidx. cbn [item_index upd upd_item_queued].
    rewrite Hidx. cbn [Z.leb Z.compare]. destruct (remove_held F _ l k HR) as [-> HD]; [by rewrite Ei|]. split; [done|].
    intros k' Hk'. cbn. rewrite lookup_delete_ne by done. by rewrite Ei.
  - destruct H' as (-> & Hfl & Hidx & _). rewrite Hidx. cbn [Z.leb Z.compare].
    rewrite (item_at_Some _ _ _ Hit) in Hfl, Hidx. rewrite (item_at_upd_eq _ _ _ _ Hit). cbn [item_inFlight upd upd_item_pending].
    rewrite Hfl. split; [|done]. apply sinv_disable; [by rewrite (item_at_upd_eq _ _ _ _ Hit)|].
    apply sinv_upd; [|done]. intros it' Hit' _. assert (it' = it) as -> by congruence. split; [apply in_place_flags; auto|done].
Qed.

Lemma sinv_removeDeviceTasks {ks} F e d s : range_ok e → SINV ks F [] s → SINV ks F [] (removeDeviceTasksLocked e d s).
Proof.
  intros He HS. unfold removeDeviceTasksLocked. pose proof (range_entries e s He) as Hkls. revert s HS Hkls.
  generalize (env_range e). intros range s. generalize (range (s_items s)). intros kls. revert s.
  induction kls as [|[k l] kls IH]; intros s HS Hkls; [done|]. cbn [foldl].
  destruct (sinv_remove_item F d s k l HS) as [HS' Hs']; [apply Hkls; by left|]. apply IH; [done|]. by eapply entries_step.
Qed.

(** ** Redue requests *)

Lemma sinv_handleRedue {ks} F e rq s : SINV ks F [] s → SINV ks F [] (handleRedue e rq s).
Proof.
  intros HS. unfold handleRedue, handleRedueEssentialTask, handleReduePerformanceTask.
  assert (HP : SINV ks F [] (handleReduePerformanceTask e rq s)).
  { unfold handleReduePerformanceTask. destruct (negb _); [done|]. cbv zeta.
    destruct (shouldScheduleBootstrapTask _); [by apply sinv_scheduleBootstrapItem|].
    destruct (s_items s !! _) as [l|] eqn:Hl; [by apply sinv_redue|by apply sinv_add_ready_front]. }
  destruct (rq_taskKind rq); try exact HP. destruct (negb _); [done|]. cbv zeta.
  destruct (s_items s !! _) as [l|] eqn:Hl; [by apply sinv_redue|by apply sinv_add_ready_front].
Qed.

(** ** Completion *)

Lemma upd_item_compose l f g s : upd_item l g (upd_item l f s) = upd_item l (λ it, g (f it)) s.
Proof.
  assert (E : alter g l (alter f l (s_store s)) = alter (λ it, g (f it)) l (s_store s));
    [|unfold upd_item, upd, upd_s_store; cbn; by rewrite E].
  apply map_eq. intros x. destruct (decide (l = x)) as [<-|Hne]; [|by rewrite !lookup_alter_ne].
  rewrite !lookup_alter_eq. by destruct (s_store s !! l).
Qed.

(** An accepted completion takes its item out of flight. *)
(** The guards of [handleCompletion]. *)
Definition finished_at (e : Env) (c : Completion) : Time :=
  if Time_IsZero (comp_FinishedAt c) then env_now e else comp_FinishedAt c.
Definition completes (e : Env) (c : Completion) (s : Sched) : bool :=
  match s_items s !! comp_Key c with
  | None => false
  | Some l =>
    let it := item_at s l in
    item_inFlight it && negb (negb (Time_IsZero (item_dispatchedAt it)) && Time_Before (finished_at e c) (item_dispatchedAt it))
    && (comp_RunID c =? item_runID it)
  end.

Lemma handleCompletion_ignored e c s : completes e c s = false → handleCompletion e c s = s.
Proof.
  unfold completes, handleCompletion. fold (finished_at e c). destruct (s_items s !! comp_Key c) as [l|]; [|done].
  destruct (item_inFlight _); [|done]. destruct (negb _ && _); [done|]. by destruct (_ =? _).
Qed.

Lemma sinv_completes {ks} F e c s :
  SINV ks F [] s → completes e c s = true →
  ∃ ks' F', ks ≡ₚ comp_Key c :: ks' ∧ SINV ks' F' [] (handleCompletion e c s) ∧ comp_RunID c = s_runID s.
Proof.
  intros HS. unfold completes, handleCompletion. fold (finished_at e c). destruct (s_items s !! comp_Key c) as [l|] eqn:Hl; [|done].
  cbv zeta. destruct (item_inFlight (item_at s l)) eqn:Hfl; [|done]. destruct (negb _ && _); [done|].
  destruct (comp_RunID c =? _) eqn:Hrun; [intros _|done]. to_prop. cbn [negb]. set (finishedAt := finished_at e c).
  destruct (inv_place HS l _ Hl) as [(i & _ & H')|[(p & _ & H')|[(HF & H')|(HT & _)]]].
  1: by destruct H' as ((_ & ? & _) & _); congruence.
  1: by destruct H' as (_ & ? & _); congruence.
  2: by apply elem_of_nil in HT.
  destruct (elem_of_Permutation F l) as [[F' HF'] _]; [done|].
  destruct (sinv_perm ks F (l :: F') [] s HF' HS) as (ks1 & Hks & HS0).
  assert (Hk1 : ∃ ks', ks1 = comp_Key c :: ks').
  { exists (key_of s <$> F'). rewrite <- (sinv_keys _ _ _ _ HS0), fmap_cons. f_equal.
    destruct (inv_items _ _ _ HS _ _ Hl) as (it & Hit & Hk & _). unfold key_of. by rewrite (item_at_Some _ _ _ Hit). }
  destruct Hk1 as [ks' ->]. exists ks', F'. split; [done|]. split; [|by rewrite Hrun; apply H'].
  set (s0 := if negb _ then emit _ s else s).
  assert (HS1 : SINV (comp_Key c :: ks') (l :: F') [] s0) by (subst s0; case_match; [by apply sinv_emit|done]).
  assert (Eit : item_at s0 l = item_at s l) by (subst s0; by case_match).
  assert (Ek : s_items s0 !! comp_Key c = Some l) by (subst s0; by case_match).
  cbv zeta. rewrite <- Eit. fold (land_counters l s0).
  destruct (item_disabled (item_at s0 l)) eqn:Hdis; [by apply (sinv_land_delete (k0:=comp_Key c))|].
  rewrite !(upd_item_compose l). destruct (_ || _).
  - apply sinv_enqueueReady. apply (sinv_land (k:=comp_Key c)); [done|]. by intros x (? & ? & ? & ?).
  - destruct (inv_items _ _ _ HS1 _ _ Ek) as (it & Hit & _).
    apply sinv_Push; [apply (sinv_land (k:=comp_Key c)); [done|]; by intros x (? & ? & ? & ?)|].
    rewrite (item_at_upd_eq l _ (land_counters l s0) it Hit). by rewrite (item_at_Some _ _ _ Hit) in Hdis.
Qed.

Lemma sinv_handleCompletion {ks} F e c s :
  SINV ks F [] s →
  handleCompletion e c s = s ∨
  ∃ ks' F', ks ≡ₚ comp_Key c :: ks' ∧ SINV ks' F' [] (handleCompletion e c s) ∧ comp_RunID c = s_runID s.
Proof.
  intros HS. destruct (completes e c s) eqn:Hc; [right; by apply (sinv_completes F)|left; by apply handleCompletion_ignored].
Qed.
