(* ===== verification/SchedRun.v ===== *)
(** * The polling scheduler: lifecycle, public API, run loop and health

    The rest of [internal/scheduler/scheduler.go], [internal/polling/health.go], and the
    interleaving of the scheduler goroutine with its callers and the workers. *)

From S2P Require Import Prelude GoLib Domain Policy GoHeap SchedTypes Scheduler SchedOps.

(** ** Queue lag and health *)

Definition min_due (s : Sched) (oldest : Time) (l : loc) : Time :=
  if Time_Before (item_dueAt (item_at s l)) oldest then item_dueAt (item_at s l) else oldest.

Definition queueLag (volatility : VolatilityClass) (now : Time) (s : Sched) : Duration :=
  let priority := VolatilityPriority volatility in
  if (priority <? 0) || (3 <=? priority) then 0
  else match default [] (s_ready s !! Z.to_nat priority) with
  | [] => 0
  | l :: rest =>
    let oldestDue := foldl (min_due s) (item_dueAt (item_at s l)) rest in
    if Time_After oldestDue now then 0 else Time_Sub now oldestDue
  end.

Definition consider (kind : TaskKind) (s : Sched) (oldest : option Time) (l : loc) : option Time :=
  let it := item_at s l in
  if negb (bool_decide (task_Kind (normalizeTask (item_task it)) = kind)) then oldest
  else match oldest with
  | None => Some (item_dueAt it)
  | Some o => if Time_Before (item_dueAt it) o then Some (item_dueAt it) else Some o
  end.

Definition queueLagForKind (e : Env) (kind : TaskKind) (now : Time) (s : Sched) : Duration :=
  let oldest := foldl (consider kind s) None (concat (s_ready s)) in
  let oldest := foldl (λ oldest '(_, l),
    let it := item_at s l in
    if negb (item_inFlight it) then oldest
    else if (0 <? item_interval it) && Time_Before now (Time_Add (item_dueAt it) (item_interval it)) then oldest
    else consider kind s oldest l) oldest (env_range e (s_items s)) in
  match oldest with
  | None => 0
  | Some o => if Time_After o now then 0 else Time_Sub now o
  end.

Record QueueSnapshot := {
  qs_ReadyDepth : Z;
  qs_LagSeconds : float64;
  qs_ActiveWorkers : Z;
  qs_ConfiguredWorkers : Z }.

Record HealthSnapshot := {
  EssentialOverloaded : bool;
  hs_DegradedRisk : bool;
  EssentialQueueLagSeconds : float64;
  DeadlineMissTotal : Z;
  ActiveWorkers : Z;
  ConfiguredWorkers : Z;
  Queues : list (string * QueueSnapshot);
  Warnings : list CapacityWarning }.

Definition HealthSnapshot_Status (h : HealthSnapshot) : string :=
  if EssentialOverloaded h then "overloaded"
  else if hs_DegradedRisk h || (0 <? Z.of_nat (length (Warnings h))) then "degraded-risk"
  else "ok".

Definition ready_depth (v : VolatilityClass) (s : Sched) : Z :=
  let priority := VolatilityPriority v in
  if (0 <=? priority) && (priority <? 3) then Z.of_nat (length (default [] (s_ready s !! Z.to_nat priority))) else 0.

Definition queueSnapshotsLocked (now : Time) (budgets : Budgets) (s : Sched) : list (string * QueueSnapshot) :=
  map (λ v, (VolatilityClass_string v,
             {| qs_ReadyDepth := ready_depth v s; qs_LagSeconds := Seconds (queueLag v now s);
                qs_ActiveWorkers := (c_byClass (s_counters s)).[v]; qs_ConfiguredWorkers := budgets.[v] |}))
      scheduledVolatilityClasses.

Definition pollingEssentialOverloadedLocked (e : Env) (now : Time) (s : Sched) : bool :=
  let lag := queueLagForKind e TaskKindEssential now s in
  let active := (c_byKind (s_counters s)).[TaskKindEssential] in
  (0 <? lag) && (maxEssentialInFlight e s <=? active).

Definition pollingHealthLocked (e : Env) (now : Time) (s : Sched) : HealthSnapshot :=
  let lag := queueLagForKind e TaskKindEssential now s in
  let active := (c_byKind (s_counters s)).[TaskKindEssential] in
  let configured := maxEssentialInFlight e s in
  let budgets := classBudgets e s in
  {| EssentialOverloaded := (0 <? lag) && (configured <=? active);
     hs_DegradedRisk := s_degradedRisk s;
     EssentialQueueLagSeconds := Seconds lag;
     DeadlineMissTotal := s_deadlineMissTotal s;
     ActiveWorkers := active;
     ConfiguredWorkers := configured;
     Queues := queueSnapshotsLocked now budgets s;
     Warnings := s_lastWarnings s |}.
Definition PollingHealth (e : Env) (s : Sched) : HealthSnapshot := pollingHealthLocked e (env_now e) s.

Definition Status (s : Sched) : string := if s_running s then "running" else "stopped".

(** ** Metrics *)

(** The settings reported as effective; [float64] of an integer setting is exact here. *)
Definition effectiveRuntimeWorkerSettings (e : Env) (s : Sched) : list (string * Z) :=
  let budgets := classBudgets e s in
  let policy := policy0 e in
  let essentialTimeout := Timeouts policy LaneEssential in
  [(SettingPollingEssentialWorkers, clampEssentialLimit (EssentialWorkers policy) (bufferLimit s));
   (SettingSNMPWorkerPoolPerformance, budgets.[VolatilityClassPerformance]);
   (SettingSNMPWorkerPoolOperational, budgets.[VolatilityClassOperational]);
   (SettingSNMPWorkerPoolStatic, budgets.[VolatilityClassStatic]);
   (SettingPollingMaxWorkersPerDevice, MaxWorkersPerDevice policy);
   (SettingPollingMaxWorkersPerSite, MaxWorkersPerSite policy);
   (SettingPollingMaxWorkersPerSubnet, MaxWorkersPerSubnet policy);
   (SettingPollingMaxInflightPerProfile, MaxInflightPerProfile policy);
   (SettingPollingWebSocketCoalesceMS, Z.quot (WebSocketCoalesce policy) Millisecond);
   (SettingPollingEssentialTimeoutMillis, Z.quot (tp_Timeout essentialTimeout) Millisecond);
   (SettingPollingEssentialRetries, tp_Retries essentialTimeout)].

Definition recordEffectiveRuntimeWorkerSettingsLocked (e : Env) (s : Sched) : Sched :=
  emit (SetRuntimeWorkerSettingsEffective (effectiveRuntimeWorkerSettings e s)) s.

Definition recordQueueAndInFlightMetricsLocked (e : Env) (now : Time) (s : Sched) : Sched :=
  emit_all ([SetSchedulerInFlight (c_inFlight (s_counters s));
             SetPollingEssentialOverloaded (pollingEssentialOverloadedLocked e now s)]
            ++ flat_map (λ v, [SetSchedulerReadyDepth v (ready_depth v s); SetSchedulerQueueLag v (queueLag v now s)])
                 scheduledVolatilityClasses) s.

Definition recordMetricsLocked (e : Env) (now : Time) (s : Sched) : Sched :=
  recordQueueAndInFlightMetricsLocked e now (recordEffectiveRuntimeWorkerSettingsLocked e s).

Definition nextWakeDelay (now : Time) (s : Sched) : Duration :=
  match s_heap s with
  | [] => s_refreshInterval s
  | l :: _ => let delay := Time_Sub (item_dueAt (item_at s l)) now in if delay <? 0 then 0 else delay
  end.

(** ** Lifecycle *)

(** A failed refresh is logged and leaves the state as it is. *)
Definition tryRefresh (e : Env) (now : Time) (s : Sched) : Sched :=
  match refreshDevices e now s with Ok s' => s' | Err _ => s end.

Definition Start (e : Env) (s : Sched) : result Sched :=
  if s_started s then Err "scheduler: already started"
  else
    let s := s <| s_started := true |> <| s_runID := uint64_wrap (s_runID s + 1) |> <| s_running := true |> in
    Ok (recordMetricsLocked e (env_now e) (tryRefresh e (env_now e) s)).

Definition resetRuntimeState (e : Env) (s : Sched) : Sched :=
  let s := s <| s_items := ∅ |> <| s_heap := [] |> <| s_ready := [[]; []; []] |> <| s_counters := zeroCounters |>
             <| s_deadlineMissTotal := 0 |> <| s_lastWarnings := [] |> <| s_degradedRisk := false |>
             <| s_tasks := [] |> <| s_completions := [] |> <| s_redueRequests := [] |> in
  recordMetricsLocked e (env_now e) s.

(** [Stop] up to the wait for the run loop, and after it. *)
Definition Stop_begin (s : Sched) : Sched := if s_started s then s <| s_running := false |> else s.
Definition Stop_end (e : Env) (s : Sched) : Sched :=
  if s_started s then resetRuntimeState e (s <| s_started := false |>) else s.

(** ** Public API; a send that has to wait is [None] *)

Definition Complete (c : Completion) (s : Sched) : option Sched :=
  if negb (s_running s) then Some s
  else if Z.of_nat (length (s_completions s)) <? s_completionsCap s
  then Some (s <| s_completions := s_completions s ++ [c] |>) else None.

(** The request of a redue call, if it passes the guards. *)
Definition redue_request (e : Env) (kind : TaskKind) (device : Device) (changedAt : Time) (s : Sched) : option redueRequest :=
  if negb (s_running s) then None
  else if negb (shouldScheduleRecurringDevice device) || String.eqb (dev_DeviceType device) DeviceTypeVirtual then None
  else if negb (sourceIncludesDevice e (dev_ID device)) then None
  else
    let changedAt := if Time_IsZero changedAt then env_now e else changedAt in
    Some {| rq_device := device; rq_changedAt := changedAt; rq_taskKind := kind |}.

Definition send_redue (rq : redueRequest) (s : Sched) : option Sched :=
  if Z.of_nat (length (s_redueRequests s)) <? s_redueCap s
  then Some (s <| s_redueRequests := s_redueRequests s ++ [rq] |>) else None.

Definition RedueTask (kind : TaskKind) (e : Env) (device : Device) (changedAt : Time) (s : Sched) : option Sched :=
  match redue_request e kind device changedAt s with None => Some s | Some rq => send_redue rq s end.
Definition ReduePerformanceTask : Env → Device → Time → Sched → option Sched := RedueTask TaskKindBackground.
Definition RedueEssentialTask : Env → Device → Time → Sched → option Sched := RedueTask TaskKindEssential.

Definition ReconcileDeviceTasks (e : Env) (device : Device) (changedAt : Time) (s : Sched) : Sched :=
  let changedAt := if Time_IsZero changedAt then env_now e else changedAt in
  let s := removeDeviceTasksLocked e (dev_ID device) s in
  let s := if sourceIncludesDevice e (dev_ID device) && shouldScheduleRecurringDevice device
           then fst (scheduleRecurringDeviceLocked device changedAt (s, None)) else s in
  recordMetricsLocked e changedAt s.

Definition ScheduleBootstrap (e : Env) (device : Device) (dueAt : Time) (s : Sched) : bool * Sched :=
  if negb (s_running s) then (false, s)
  else if negb (shouldScheduleBootstrapTask device) then (false, s)
  else if negb (sourceIncludesDevice e (dev_ID device)) then (false, s)
  else
    let dueAt := if Time_IsZero dueAt then env_now e else dueAt in
    match send_redue {| rq_device := device; rq_changedAt := dueAt; rq_taskKind := TaskKindBackground |} s with
    | Some s => (true, s)
    | None => (false, emit (IncSchedulerBackpressure VolatilityClassStatic "bootstrap_queue_full") s)
    end.

(** ** The run loop *)

(** The top of one iteration of [run], with the stop reason of the dispatch. *)
Definition run_iteration (e : Env) (ctxDone : nat → bool) (s : Sched) : stopReason * Sched :=
  let now := env_now e in
  let s := moveDueTasksToReady e now s in
  let '(r, s) := dispatchReady e now ctxDone s in
  (r, recordMetricsLocked e now s).

Definition run_refresh (e : Env) (s : Sched) : Sched := recordMetricsLocked e (env_now e) (tryRefresh e (env_now e) s).

Definition run_redue (e : Env) (s : Sched) : option Sched :=
  match s_redueRequests s with
  | [] => None
  | rq :: rest => Some (recordQueueAndInFlightMetricsLocked e (env_now e) (handleRedue e rq (s <| s_redueRequests := rest |>)))
  end.

Definition run_completion (e : Env) (s : Sched) : option Sched :=
  match s_completions s with
  | [] => None
  | c :: rest => Some (recordQueueAndInFlightMetricsLocked e (env_now e) (handleCompletion e c (s <| s_completions := rest |>)))
  end.
