(* ===== verification/SchedWorld.v ===== *)
(** * The scheduler together with its workers

    A world is a scheduler and the tasks its workers hold.  [step] interleaves the run loop,
    the public API and the workers in any order; [reachable] are the worlds it produces
    from [NewScheduler].  Every reachable world satisfies [WINV]. *)

From S2P Require Import Prelude GoLib Domain Policy GoHeap SchedTypes Scheduler SchedOps SchedInv SchedMoves SchedSteps SchedDispatch SchedSchedule SchedRun.

(** ** Operations that leave the channels and the lifecycle alone *)

Definition chans (s : Sched) :=
  (s_tasks s, s_tasksCap s, s_completions s, s_completionsCap s, s_runID s, s_running s, s_started s).

Lemma foldl_chans {A} (f : Sched → A → Sched) l s : (∀ s x, chans (f s x) = chans s) → chans (foldl f s l) = chans s.
Proof. intros Hf. revert s. induction l as [|x l IH]; intros s; [done|]. simpl. by rewrite IH. Qed.

Lemma swap_chans i j s : chans (taskHeap_Swap i j s) = chans s.
Proof. unfold taskHeap_Swap. by repeat case_match. Qed.

Lemma up_loop_chans fuel j s : chans (up_loop fuel j s) = chans s.
Proof.
  revert j s. induction fuel as [|fuel IH]; intros j s; [done|]. cbn [up_loop]. case_match; [done|].
  by rewrite IH, swap_chans.
Qed.

Lemma down_loop_chans fuel i n s : chans (fst (down_loop fuel i n s)) = chans s.
Proof.
  revert i s. induction fuel as [|fuel IH]; intros i s; [done|]. cbn [down_loop]. case_match; [done|].
  destruct (negb _); [done|]. by rewrite IH, swap_chans.
Qed.

Lemma Fix_chans i s : chans (Fix i s) = chans s.
Proof.
  unfold Fix, down. pose proof (down_loop_chans (S (h_Len s)) i (h_Len s) s) as H.
  destruct (down_loop _ _ _ _) as [s' k]. cbn in H. case_match; [done|]. by rewrite <- H; apply up_loop_chans.
Qed.

Lemma RemoveToLast_chans i s : chans (RemoveToLast i s) = chans s.
Proof.
  unfold RemoveToLast, down. case_match; [done|].
  set (s1 := h_Swap i (h_Len s - 1)%nat s). assert (H1 : chans s1 = chans s) by apply swap_chans.
  pose proof (down_loop_chans (S (h_Len s - 1)) i (h_Len s - 1) s1) as H'.
  destruct (down_loop _ _ _ _) as [s' k]. cbn [fst] in H'. rewrite <- H1, <- H'. case_match; [done|]. apply up_loop_chans.
Qed.

Lemma taskHeap_Pop_chans s l s' : taskHeap_Pop s = Some (l, s') → chans s' = chans s.
Proof. unfold taskHeap_Pop. case_match; [|done]. by intros [= _ <-]. Qed.

Lemma heap_Push_chans l s : chans (heap_Push l s) = chans s.
Proof. unfold heap_Push, up. by rewrite up_loop_chans. Qed.

Lemma heap_Pop_chans s l s' : heap_Pop s = Some (l, s') → chans s' = chans s.
Proof.
  unfold heap_Pop. intros ->%taskHeap_Pop_chans. unfold PopToLast, down.
  match goal with |- context [down_loop ?f ?i ?n ?s1] => pose proof (down_loop_chans f i n s1) as H; destruct (down_loop f i n s1) end.
  cbn in *. by rewrite H, swap_chans.
Qed.

Lemma heap_Remove_chans i s : chans (heap_Remove i s) = chans s.
Proof.
  unfold heap_Remove. destruct (taskHeap_Pop _) as [[l s']|] eqn:E; [|done].
  apply taskHeap_Pop_chans in E. by rewrite E, RemoveToLast_chans.
Qed.

Lemma enqueue_with_chans put l s : chans (enqueue_with put l s) = chans s.
Proof. unfold enqueue_with. by case_match. Qed.

Lemma removeReadyItem_chans l s : chans (removeReadyItem l s) = chans s.
Proof. unfold removeReadyItem. by case_match. Qed.

Lemma emit_all_chans os s : chans (emit_all os s) = chans s.
Proof. by apply foldl_chans. Qed.

Lemma markSkippedWindow_chans l s : chans (markSkippedWindow l s) = chans s.
Proof. unfold markSkippedWindow. by case_match. Qed.

Lemma markElapsed_chans e now s : chans (markElapsedInFlightWindows e now s) = chans s.
Proof.
  unfold markElapsedInFlightWindows. case_match; [done|]. apply foldl_chans. intros s1 [k l]. cbv zeta.
  repeat (case_match; [done|]). apply markSkippedWindow_chans.
Qed.

Lemma moveDue_step_chans now s s' : moveDue_step now s = Some s' → chans s' = chans s.
Proof.
  unfold moveDue_step. destruct (s_heap s) as [|h r]; [done|]. destruct (Time_After _ _); [done|].
  destruct (heap_Pop s) as [[l s1]|] eqn:E; [|done]. apply heap_Pop_chans in E. intros [= <-]. rewrite <- E.
  repeat case_match; try done; try apply markSkippedWindow_chans. apply enqueue_with_chans.
Qed.

Lemma moveDue_chans e now s : chans (moveDueTasksToReady e now s) = chans s.
Proof.
  unfold moveDueTasksToReady. rewrite <- (markElapsed_chans e now s). set (s1 := markElapsedInFlightWindows e now s).
  generalize (length (s_heap s1)). intros fuel. generalize s1. clear s1. induction fuel as [|fuel IH]; intros s1; [done|].
  cbn [moveDue_loop]. destruct (moveDue_step now s1) eqn:E; [|done]. rewrite IH. by eapply moveDue_step_chans.
Qed.

Lemma upsert_chans d k kind lane v i now s : chans (upsertScheduledItem d k kind lane v i now s) = chans s.
Proof.
  unfold upsertScheduledItem. case_match; [done|]. cbn [alloc].
  change (chans (items_insert ?kk ?ll ?ss)) with (chans ss). by rewrite heap_Push_chans.
Qed.

Lemma reposition_chans l s : chans (reposition l s) = chans s.
Proof.
  unfold reposition. cbv zeta. repeat case_match; [done|..].
  - unfold pushReadyFront. by rewrite enqueue_with_chans, removeReadyItem_chans.
  - apply Fix_chans.
  - apply enqueue_with_chans.
Qed.

Lemma add_ready_front_chans k t d i s : chans (add_ready_front k t d i s) = chans s.
Proof. unfold add_ready_front, pushReadyFront. cbn [alloc]. by rewrite enqueue_with_chans. Qed.

Lemma scheduleBootstrapItem_chans d due s : chans (scheduleBootstrapItem d due s) = chans s.
Proof. unfold scheduleBootstrapItem. case_match; [by rewrite reposition_chans|by rewrite add_ready_front_chans]. Qed.

Lemma scheduleRecurring_chans d now s seen : chans (fst (scheduleRecurringDeviceLocked d now (s, seen))) = chans s.
Proof.
  unfold scheduleRecurringDeviceLocked.
  set (x1 := if shouldScheduleEssentialTask d then _ else _).
  assert (H1 : chans (fst x1) = chans s) by (subst x1; case_match; [apply upsert_chans|done]).
  destruct x1 as [s1 seen1]. set (x2 := if shouldScheduleBootstrapTask d then _ else _).
  assert (H2 : chans (fst x2) = chans s).
  { rewrite <- H1. subst x2. case_match; [|done]. cbn [fst]. case_match; [done|apply scheduleBootstrapItem_chans]. }
  destruct x2 as [s2 seen2]. cbn [fst] in H2. rewrite <- H2. generalize (scheduledBackgroundVolatilityClassesForDevice d).
  intros vs. clear. revert s2 seen2. induction vs as [|v vs IH]; intros s2 seen2; [done|]. cbn [foldl].
  by rewrite IH, upsert_chans.
Qed.

Lemma sweep_chans seen s kl : chans (sweep_item seen s kl) = chans s.
Proof.
  destruct kl as [k l]. unfold sweep_item. cbv zeta. repeat case_match; try done.
  change (chans (items_delete ?kk ?ss)) with (chans ss). by rewrite heap_Remove_chans.
Qed.

Lemma tryRefresh_chans e now s : chans (tryRefresh e now s) = chans s.
Proof.
  unfold tryRefresh, refreshDevices. destruct (env_GetDevices e) as [devices|]; [|done]. cbn [result_bind].
  assert (H : ∀ s seen, chans (fst (foldl (λ st d, if shouldScheduleRecurringDevice d then scheduleRecurringDeviceLocked d now st else st)
              (s, seen) devices)) = chans s).
  { induction devices as [|d devices IH]; intros s0 seen; [done|]. cbn [foldl]. case_match; [|apply IH].
    pose proof (scheduleRecurring_chans d now s0 seen) as H'. destruct (scheduleRecurringDeviceLocked _ _ _) as [s1 seen1].
    cbn [fst] in H'. by rewrite <- H'. }
  specialize (H (emit (RetainDeviceMetrics devices) s) (Some ∅)). destruct (foldl _ _ devices) as [s1 seen1]. cbn [fst] in H.
  destruct (PolicyFromSettings _ _ _ _ _). cbn -[sweep_item foldl chans].
  transitivity (chans (foldl (sweep_item (default ∅ seen1)) s1 (env_range e (s_items s1)))); [done|].
  rewrite foldl_chans by apply sweep_chans. done.
Qed.

Lemma removeDeviceTasks_chans e d s : chans (removeDeviceTasksLocked e d s) = chans s.
Proof.
  apply foldl_chans. intros s1 [k l]. unfold remove_item. case_match; [done|]. cbv zeta.
  set (s2 := if item_queued _ then _ else _). assert (H2 : chans s2 = chans s1) by (subst s2; case_match; [apply removeReadyItem_chans|done]).
  set (s3 := if 0 <=? _ then _ else _). assert (H3 : chans s3 = chans s2) by (subst s3; case_match; [apply heap_Remove_chans|done]).
  rewrite <- H2, <- H3. by case_match.
Qed.

Lemma handleRedue_chans e rq s : chans (handleRedue e rq s) = chans s.
Proof.
  assert (HP : chans (handleReduePerformanceTask e rq s) = chans s).
  { unfold handleReduePerformanceTask. cbv zeta. destruct (negb _); [done|].
    destruct (shouldScheduleBootstrapTask _); [apply scheduleBootstrapItem_chans|].
    destruct (s_items s !! _); [by rewrite reposition_chans|apply add_ready_front_chans]. }
  unfold handleRedue, handleRedueEssentialTask. destruct (rq_taskKind rq); try exact HP. cbv zeta.
  destruct (negb _); [done|]. destruct (s_items s !! _); [by rewrite reposition_chans|apply add_ready_front_chans].
Qed.

Lemma handleCompletion_chans e c s : chans (handleCompletion e c s) = chans s.
Proof.
  unfold handleCompletion. destruct (s_items s !! _) as [l|]; [|done]. cbv zeta.
  destruct (negb (item_inFlight _)); [done|]. set (finishedAt := if Time_IsZero _ then _ else _).
  destruct (_ && _); [done|]. destruct (negb (comp_RunID c =? _)); [done|].
  set (s0 := if negb _ then emit _ s else s). assert (H0 : chans s0 = chans s) by (subst s0; by destruct (negb _)).
  rewrite <- H0. destruct (item_disabled _); [done|].
  destruct (_ || _); [by unfold enqueueReady; rewrite enqueue_with_chans|by rewrite heap_Push_chans].
Qed.

Lemma recordMetrics_chans e now s : chans (recordMetricsLocked e now s) = chans s.
Proof. unfold recordMetricsLocked, recordQueueAndInFlightMetricsLocked. by rewrite emit_all_chans. Qed.

(** ** Worlds and steps *)

Record World := mkWorld { w_sched : Sched; w_workers : list PollTask }.

(** The completion a worker reports for a task ([pipeline_task_runner.go]). *)
Definition completion_of (t : PollTask) (finishedAt : Time) : Completion :=
  {| comp_RunID := task_RunID t; comp_Key := task_Key t; comp_FinishedAt := finishedAt |}.

(** The run loop takes its steps while it is started; a worker receives a task, keeps it and
    completes it once; the API may be called at any time.  The two [late] steps are sends
    whose test of [running] was made before a [Stop].  The run counter is not wrapped. *)
Inductive step : World → World → Prop :=
| step_start e s s' W :
  range_ok e → s_runID s + 1 < 2 ^ 64 → Start e s = Ok s' → step (mkWorld s W) (mkWorld s' W)
| step_iteration e ctxDone s r s' W :
  range_ok e → s_started s = true → run_iteration e ctxDone s = (r, s') → r ≠ StopSendBlocked →
  step (mkWorld s W) (mkWorld s' W)
| step_refresh e s W :
  range_ok e → s_started s = true → step (mkWorld s W) (mkWorld (run_refresh e s) W)
| step_redue e s s' W : s_started s = true → run_redue e s = Some s' → step (mkWorld s W) (mkWorld s' W)
| step_completion e s s' W : s_started s = true → run_completion e s = Some s' → step (mkWorld s W) (mkWorld s' W)
| step_exit s W : s_started s = true → step (mkWorld s W) (mkWorld (s <| s_running := false |>) W)
| step_receive s t ts W :
  s_tasks s = t :: ts → step (mkWorld s W) (mkWorld (s <| s_tasks := ts |>) (t :: W))
| step_complete s s' t W1 W2 at_ :
  Complete (completion_of t at_) s = Some s' → step (mkWorld s (W1 ++ t :: W2)) (mkWorld s' (W1 ++ W2))
| step_complete_late s t W1 W2 at_ :
  Z.of_nat (length (s_completions s)) < s_completionsCap s →
  step (mkWorld s (W1 ++ t :: W2)) (mkWorld (s <| s_completions := s_completions s ++ [completion_of t at_] |>) (W1 ++ W2))
| step_redue_call kind e d at_ s s' W : RedueTask kind e d at_ s = Some s' → step (mkWorld s W) (mkWorld s' W)
| step_redue_late rq s W :
  Z.of_nat (length (s_redueRequests s)) < s_redueCap s → step (mkWorld s W) (mkWorld (s <| s_redueRequests := s_redueRequests s ++ [rq] |>) W)
| step_bootstrap_call e d at_ s W : step (mkWorld s W) (mkWorld (snd (ScheduleBootstrap e d at_ s)) W)
| step_reconcile e d at_ s W : range_ok e → step (mkWorld s W) (mkWorld (ReconcileDeviceTasks e d at_ s) W)
| step_stop_begin s W : step (mkWorld s W) (mkWorld (Stop_begin s) W)
| step_stop_end e s W : step (mkWorld s W) (mkWorld (Stop_end e s) W).

Inductive reachable : World → Prop :=
| reachable_new : reachable (mkWorld NewScheduler [])
| reachable_step w w' : reachable w → step w w' → reachable w'.

(** ** The invariant of a world *)

Definition in_run (r : Z) (W : list PollTask) : list PollTask := filter (λ t, task_RunID t = r) W.
Definition comp_in_run (r : Z) (cs : list Completion) : list Completion := filter (λ c, comp_RunID c = r) cs.

(** The tasks of the current run that are waiting for a worker, held by one, or reported as complete. *)
Definition live (s : Sched) (W : list PollTask) : list TaskKey :=
  (task_Key <$> s_tasks s) ++ (task_Key <$> in_run (s_runID s) W) ++ (comp_Key <$> comp_in_run (s_runID s) (s_completions s)).

Record WINV_at (ks : list TaskKey) (F : list loc) (s : Sched) (W : list PollTask) : Prop := {
  wi_sinv : SINV ks F [] s;
  wi_caps : s_tasksCap s = defaultTaskBuffer ∧ s_completionsCap s = defaultTaskBuffer;
  wi_bound : Z.of_nat (length ks) <= defaultTaskBuffer;
  wi_tasks t : t ∈ s_tasks s → task_RunID t = s_runID s;
  wi_workers t : t ∈ W → task_RunID t <= s_runID s;
  wi_completions c : c ∈ s_completions s → comp_RunID c <= s_runID s;
  wi_runID : 0 <= s_runID s < 2 ^ 64;
  wi_live : s_started s = true → live s W ⊆+ ks;
  wi_stopped : s_started s = false → F = [] ∧ s_tasks s = [] }.

Definition WINV (w : World) : Prop := ∃ ks F, WINV_at ks F (w_sched w) (w_workers w).

Lemma chans_eq s s' : chans s' = chans s →
  s_tasks s' = s_tasks s ∧ s_tasksCap s' = s_tasksCap s ∧ s_completions s' = s_completions s ∧
  s_completionsCap s' = s_completionsCap s ∧ s_runID s' = s_runID s ∧ s_running s' = s_running s ∧ s_started s' = s_started s.
Proof. unfold chans. intros [= -> -> -> -> -> -> ->]. done. Qed.

(** An operation that keeps the in-flight items and the channels keeps the invariant. *)
Lemma winv_keep s s' W ks F :
  SINV ks F [] s' → chans s' = chans s → WINV_at ks F s W → WINV_at ks F s' W.
Proof.
  intros HS' (E1 & E2 & E3 & E4 & E5 & _ & E7)%chans_eq [A B C D E G H I J].
  split; unfold live in *; rewrite ?E1, ?E2, ?E3, ?E4, ?E5, ?E7; done.
Qed.

Lemma sinv_recordMetrics {ks} F T e now s : SINV ks F T s → SINV ks F T (recordMetricsLocked e now s).
Proof. intros. by apply sinv_emit_all, sinv_emit. Qed.

Lemma sinv_tryRefresh {ks} F e now s : range_ok e → SINV ks F [] s → SINV ks F [] (tryRefresh e now s).
Proof. intros He HS. unfold tryRefresh. destruct (refreshDevices e now s) eqn:E; [by eapply sinv_refreshDevices|done]. Qed.

Lemma sinv_reconcile {ks} F e d at_ s : range_ok e → SINV ks F [] s → SINV ks F [] (ReconcileDeviceTasks e d at_ s).
Proof.
  intros He HS. apply sinv_recordMetrics. pose proof (sinv_removeDeviceTasks F e (dev_ID d) s He HS).
  case_match; [by apply sinv_scheduleRecurringDevice|done].
Qed.

Lemma reconcile_chans e d at_ s : chans (ReconcileDeviceTasks e d at_ s) = chans s.
Proof.
  unfold ReconcileDeviceTasks. rewrite recordMetrics_chans, <- (removeDeviceTasks_chans e (dev_ID d) s).
  case_match; [apply scheduleRecurring_chans|done].
Qed.

(** ** Each kind of step *)

(** Dispatching adds the same keys to the live tasks and to the items in flight. *)
Lemma dispatched_live limits ks F F' T ts s s' W (ks' := rev (task_Key <$> ts) ++ ks) :
  WINV_at ks F s W → s_started s = true → dispatched limits ks F' T ts s s' → live s' W ⊆+ ks'.
Proof.
  intros HW Hst [A B C D (_ & E2 & _ & E4 & _)]. pose proof (wi_live _ _ _ _ HW Hst) as Hl. unfold live in *.
  rewrite C, E2, E4, fmap_app. subst ks'. rewrite (Permutation_app_comm (task_Key <$> s_tasks s)), <- app_assoc.
  apply submseteq_app; [by rewrite <- Permutation_rev|exact Hl].
Qed.

Lemma dispatched_bound limits ks F F' T ts s s' W (ks' := rev (task_Key <$> ts) ++ ks) :
  WINV_at ks F s W → dispatched limits ks F' T ts s s' → dl_globalLimit limits <= defaultTaskBuffer →
  Z.of_nat (length ks') <= defaultTaskBuffer.
Proof.
  intros HW [A B _ _ _] Hg. pose proof (w_total _ _ _ B) as Ht.
  rewrite (co_total _ _ (sinv_counts _ _ _ _ A)), (co_total _ _ (sinv_counts _ _ _ _ (wi_sinv _ _ _ _ HW))) in Ht.
  pose proof (wi_bound _ _ _ _ HW). subst ks'. lia.
Qed.

Lemma winv_dispatched limits ks F F' ts s s' W :
  WINV_at ks F s W → s_started s = true → dispatched limits ks F' [] ts s s' → dl_globalLimit limits <= defaultTaskBuffer →
  WINV_at (rev (task_Key <$> ts) ++ ks) F' s' W.
Proof.
  intros HW Hst Hd Hg. pose proof (dispatched_live _ _ _ _ _ _ _ _ _ HW Hst Hd) as Hl.
  pose proof (dispatched_bound _ _ _ _ _ _ _ _ _ HW Hd Hg) as Hb. destruct Hd as [A B C D (E1 & E2 & E3 & E4 & E5 & E6)].
  destruct HW as [A' B' C' D' G' H' I' J' K']. split; rewrite ?E1, ?E2, ?E3, ?E4, ?E5; try done.
  - intros t. rewrite C. intros [Ht|Ht]%elem_of_app; auto.
  - congruence.
Qed.

(** The send on the task channel never has to wait: the channel holds live tasks only. *)
Lemma send_not_blocked limits ks F F' T ts s s' W :
  WINV_at ks F s W → s_started s = true → dispatched limits ks F' T ts s s' → dl_globalLimit limits <= defaultTaskBuffer →
  c_inFlight (s_counters s') < dl_globalLimit limits → s_tasksCap s' <= Z.of_nat (length (s_tasks s')) → False.
Proof.
  intros HW Hst Hd Hg Hlt Hcap. pose proof (dispatched_live _ _ _ _ _ _ _ _ _ HW Hst Hd) as Hl.
  apply submseteq_length in Hl. unfold live in Hl. rewrite !length_app, length_fmap in Hl.
  destruct Hd as [A _ _ _ (E1 & _)]. rewrite (co_total _ _ (sinv_counts _ _ _ _ A)) in Hlt.
  rewrite E1, (proj1 (wi_caps _ _ _ _ HW)) in Hcap. rewrite length_app in Hlt. lia.
Qed.

Lemma winv_globalLimit ks F s W e : WINV_at ks F s W → dl_globalLimit (dispatchLimits e s) <= defaultTaskBuffer.
Proof.
  intros HW. destruct (wi_caps _ _ _ _ HW) as [E1 E2]. rewrite <- E1. apply globalLimit_cap; rewrite ?E1, ?E2; done.
Qed.

Lemma winv_iteration ks F e ctxDone s r s' W :
  s_started s = true → run_iteration e ctxDone s = (r, s') →
  WINV_at ks F s W → r ≠ StopSendBlocked ∧ r ≠ StopOutOfFuel ∧ ∃ ks' F', WINV_at ks' F' s' W.
Proof.
  intros Hst. unfold run_iteration. intros Hit HW.
  assert (HW1 : WINV_at ks F (moveDueTasksToReady e (env_now e) s) W).
  { eapply winv_keep; [apply sinv_moveDueTasksToReady, HW|apply moveDue_chans|done]. }
  destruct (chans_eq _ _ (moveDue_chans e (env_now e) s)) as (_ & _ & _ & _ & _ & _ & Hst1). rewrite Hst in Hst1.
  revert HW1 Hst1 Hit. generalize (moveDueTasksToReady e (env_now e) s). clear Hst HW. intros s1 HW Hst Hit.
  pose proof (dispatchReady_spec F e (env_now e) ctxDone s1 (wi_sinv _ _ _ _ HW)) as Hd.
  destruct (dispatchReady e (env_now e) ctxDone s1) as [r2 s2]. injection Hit as -> <-.
  pose proof (winv_globalLimit _ _ _ _ e HW) as Hg.
  assert (Hfin : ∀ ks' F', WINV_at ks' F' s2 W → ∃ ks' F', WINV_at ks' F' (recordMetricsLocked e (env_now e) s2) W).
  { intros ks' F' H. exists ks', F'. eapply winv_keep; [apply sinv_recordMetrics, H|apply recordMetrics_chans|done]. }
  destruct Hd as [(-> & -> & _)|(ts & F' & T & Hd & Hstop)]; [split_and!; [done..|by eapply Hfin]|].
  destruct r; simpl in Hstop; try done.
  4: { exfalso. destruct Hstop. by eapply send_not_blocked. }
  1-2: destruct Hstop as [-> _]. 3: subst T. all: split_and!; [done..|]; eapply Hfin; by eapply winv_dispatched.
Qed.

Lemma winv_completion ks F e s s' W :
  run_completion e s = Some s' → WINV_at ks F s W → s_started s = true → ∃ ks' F', WINV_at ks' F' s' W.
Proof.
  unfold run_completion. destruct (s_completions s) as [|c rest] eqn:Hcs; [done|]. intros [= <-] HW Hst.
  set (s1 := s <| s_completions := rest |>). assert (HS1 : SINV ks F [] s1) by (by apply (sinv_ext F [] s), HW).
  assert (Hlive : comp_in_run (s_runID s) (s_completions s) =
    (if decide (comp_RunID c = s_runID s) then [c] else []) ++ comp_in_run (s_runID s) rest).
  { rewrite Hcs. unfold comp_in_run. rewrite filter_cons. by case_decide. }
  assert (HW1 : WINV_at ks F s1 W).
  { destruct HW as [A B C D E G H I J]. split; try done; [intros x Hx; apply G; rewrite Hcs; by right|].
    intros Hs. etransitivity; [|by apply I]. unfold live. rewrite Hlive, fmap_app. cbn [s_tasks s_runID s_completions s1 upd upd_s_completions].
    apply submseteq_app; [done|]. apply submseteq_app; [done|]. by apply submseteq_inserts_l. }
  destruct (chans_eq _ _ (handleCompletion_chans e c s1)) as (E1 & E2 & E3 & E4 & E5 & _ & E7).
  assert (Hfin : ∀ ks' F' s2, WINV_at ks' F' s2 W → WINV_at ks' F' (recordQueueAndInFlightMetricsLocked e (env_now e) s2) W).
  { intros ks' F' s2 H. eapply winv_keep; [apply sinv_emit_all, H|apply emit_all_chans|done]. }
  destruct (sinv_handleCompletion F e c s1 HS1) as [->|(ks' & F' & Hks & HS' & Hrun)]; [exists ks, F; auto|].
  exists ks', F'. apply Hfin. pose proof (wi_live _ _ _ _ HW Hst) as Hl. unfold live in Hl. rewrite Hlive in Hl.
  change (s_runID s1) with (s_runID s) in Hrun. rewrite decide_True in Hl by done.
  destruct HW1 as [A B C D E G H I J]. split; rewrite ?E1, ?E2, ?E3, ?E4, ?E5, ?E7; try done.
  - rewrite Hks in C. simpl in C. lia.
  - intros _. unfold live. rewrite E1, E3, E5. rewrite fmap_app, !app_assoc, <- app_assoc in Hl. cbn [fmap list_fmap app] in Hl.
    rewrite <- Permutation_middle, Hks in Hl. apply submseteq_cons_l in Hl as (k' & Hk' & Hl).
    apply Permutation_cons_inv in Hk'. rewrite Hk'. by rewrite <- app_assoc in Hl.
  - intros Hs. change (s_started s1) with (s_started s) in Hs. congruence.
Qed.

(** With nothing in flight the run counter may change. *)
Lemma sinv_new_run s s' :
  s_store s' = s_store s → s_next s' = s_next s → s_items s' = s_items s → s_heap s' = s_heap s →
  s_ready s' = s_ready s → s_counters s' = s_counters s → SINV [] [] [] s → SINV [] [] [] s'.
Proof.
  intros E1 E2 E3 E4 E5 E6 [HI HK HC]. split; [|done|by rewrite E6].
  assert (HI0 : INV [] [] (s' <| s_runID := s_runID s |>)) by (by apply (inv_ext _ _ s)).
  destruct HI0 as [[] Ho]. split; [split; try done|done]. by intros l ?%elem_of_nil.
Qed.

(** The empty scheduler. *)
Lemma sinv_empty s :
  s_items s = ∅ → s_heap s = [] → s_ready s = [[]; []; []] → s_counters s = zeroCounters →
  (∀ l, is_Some (s_store s !! l) → (l < s_next s)%nat) → SINV [] [] [] s.
Proof.
  intros E1 E2 E3 E4 Hn. split; [|done|rewrite E4; by split].
  split; [|unfold heap_order; rewrite E2; intros k Hk; simpl in Hk; lia].
  split; rewrite ?E2, ?E3; try done.
  - rewrite E1. intros k l. by rewrite lookup_empty.
  - unfold item_locs. by rewrite E1, map_to_list_empty.
  - intros p q l Hq. destruct p as [|[|[|p]]]; try done; simpl in Hq; simplify_eq; by intros ?%elem_of_nil.
  - by intros l ?%elem_of_nil.
  - by intros l ?%elem_of_nil.
Qed.

Lemma filter_none {A} (P : A → Prop) `{!∀ x, Decision (P x)} l : (∀ x, x ∈ l → ¬ P x) → filter P l = [].
Proof.
  intros Hl. induction l as [|x l IH]; [done|]. rewrite filter_cons, decide_False by (apply Hl; by left).
  apply IH. intros y Hy. apply Hl. by right.
Qed.

Lemma stopped_empty ks F s W : WINV_at ks F s W → s_started s = false → ks = [] ∧ F = [] ∧ s_tasks s = [].
Proof.
  intros HW Hst. destruct (wi_stopped _ _ _ _ HW Hst) as [-> Ht]. split; [|done].
  by rewrite <- (sinv_keys _ _ _ _ (wi_sinv _ _ _ _ HW)).
Qed.

Lemma winv_start ks F e s s' W :
  range_ok e → s_runID s + 1 < 2 ^ 64 → Start e s = Ok s' → WINV_at ks F s W → WINV_at [] [] s' W.
Proof.
  intros He Hmax. unfold Start. destruct (s_started s) eqn:Hst; [done|]. intros [= <-] HW.
  destruct (stopped_empty ks F s W HW Hst) as (-> & -> & Ht).
  set (s1 := s <| s_started := true |> <| s_runID := _ |> <| s_running := true |>).
  assert (Hr : s_runID s1 = s_runID s + 1).
  { unfold s1, uint64_wrap. cbn [s_runID upd upd_s_running upd_s_runID upd_s_started]. rewrite Z.mod_small; [done|].
    pose proof (wi_runID _ _ _ _ HW). lia. }
  assert (HW1 : WINV_at [] [] s1 W).
  { destruct HW as [A B C D E G H I J]. split; rewrite ?Hr; try done.
    - by apply (sinv_new_run s).
    - intros t. change (s_tasks s1) with (s_tasks s). by rewrite Ht; intros ?%elem_of_nil.
    - intros t Hin%E. lia.
    - intros c Hin%G. lia.
    - lia.
    - intros _. unfold live, in_run, comp_in_run. change (s_tasks s1) with (s_tasks s).
      change (s_completions s1) with (s_completions s). rewrite Ht, Hr, !filter_none; [done| |].
      + intros c Hin%G. lia.
      + intros t Hin%E. lia. }
  eapply winv_keep; [|by rewrite recordMetrics_chans, tryRefresh_chans|exact HW1].
  apply sinv_recordMetrics, sinv_tryRefresh; [done|apply HW1].
Qed.

Lemma winv_stop_end ks F e s W : WINV_at ks F s W → ∃ ks' F', WINV_at ks' F' (Stop_end e s) W.
Proof.
  intros HW. unfold Stop_end. destruct (s_started s) eqn:Hst; [|eauto]. exists [], [].
  unfold resetRuntimeState. set (s1 := _ <| s_redueRequests := [] |>).
  assert (HS1 : SINV [] [] [] s1) by (apply sinv_empty; try done; apply (inv_next _ _ _ (wi_sinv _ _ _ _ HW))).
  eapply winv_keep; [by apply sinv_recordMetrics|by rewrite recordMetrics_chans|].
  destruct HW as [A B C D E G H I J]. split; try done; by intros x ?%elem_of_nil.
Qed.

Lemma winv_receive ks F s t ts W :
  s_tasks s = t :: ts → WINV_at ks F s W → WINV_at ks F (s <| s_tasks := ts |>) (t :: W).
Proof.
  intros Ht [A B C D E G H I J]. assert (Hr : task_RunID t = s_runID s) by (apply D; rewrite Ht; by left). split; try done.
  - by apply (sinv_ext F [] s).
  - intros x Hx. apply D. rewrite Ht. by right.
  - intros x [->|Hx]%elem_of_cons; [|by apply E]. cbn. lia.
  - intros Hs. etransitivity; [|by apply I]. unfold live, in_run.
    cbn [s_tasks s_runID s_completions upd upd_s_tasks]. rewrite Ht, filter_cons, decide_True by done.
    cbn [fmap list_fmap app]. by rewrite <- Permutation_middle.
  - intros Hs. destruct (J Hs) as [_ Ht']. congruence.
Qed.

(** A worker hands its task over to the completion channel, or drops it. *)
Lemma winv_complete_send ks F s t W1 W2 at_ :
  WINV_at ks F s (W1 ++ t :: W2) →
  WINV_at ks F (s <| s_completions := s_completions s ++ [completion_of t at_] |>) (W1 ++ W2).
Proof.
  intros [A B C D E G H I J]. split; try done.
  - by apply (sinv_ext F [] s).
  - intros x Hx. apply E. set_solver.
  - intros c [Hc| ->%list_elem_of_singleton]%elem_of_app; [by apply G|]. apply (E t). set_solver.
  - intros Hs. etransitivity; [|by apply I]. unfold live, in_run, comp_in_run.
    cbn [s_tasks s_runID s_completions upd upd_s_completions]. apply submseteq_app; [done|].
    rewrite !filter_app, filter_cons, !fmap_app, filter_cons, filter_nil. cbn [comp_RunID completion_of].
    case_decide; cbn [fmap list_fmap app comp_Key completion_of]; [|by rewrite app_nil_r].
    rewrite <- !app_assoc, (Permutation_app_comm (comp_Key <$> _)). cbn [app]. by rewrite <- !Permutation_middle.
Qed.

Lemma winv_drop ks F s t W1 W2 : WINV_at ks F s (W1 ++ t :: W2) → WINV_at ks F s (W1 ++ W2).
Proof.
  intros [A B C D E G H I J]. split; try done; [intros x Hx; apply E; set_solver|].
  intros Hs. etransitivity; [|by apply I]. unfold live, in_run. apply submseteq_app; [done|]. apply submseteq_app; [|done].
  rewrite !filter_app, filter_cons, !fmap_app. apply submseteq_app; [done|]. case_decide; [by apply submseteq_cons|done].
Qed.

(** A change of the lifecycle flags or of the redue queue only. *)
Lemma winv_flags ks F s s' W :
  SINV ks F [] s' → s_tasks s' = s_tasks s → s_tasksCap s' = s_tasksCap s → s_completions s' = s_completions s →
  s_completionsCap s' = s_completionsCap s → s_runID s' = s_runID s → s_started s' = s_started s →
  WINV_at ks F s W → WINV_at ks F s' W.
Proof.
  intros HS' E1 E2 E3 E4 E5 E7 [A B C D E G H I J].
  split; unfold live in *; rewrite ?E1, ?E2, ?E3, ?E4, ?E5, ?E7; done.
Qed.

Lemma winv_send_redue ks F rq s s' W : send_redue rq s = Some s' → WINV_at ks F s W → WINV_at ks F s' W.
Proof.
  unfold send_redue. case_match; [|done]. intros [= <-] HW. apply (winv_flags ks F s); try done.
  by apply (sinv_ext F [] s), HW.
Qed.

Lemma winv_redue ks F e s s' W : run_redue e s = Some s' → WINV_at ks F s W → WINV_at ks F s' W.
Proof.
  unfold run_redue. destruct (s_redueRequests s) as [|rq rest]; [done|]. intros [= <-] HW.
  set (s1 := s <| s_redueRequests := rest |>). assert (HS1 : SINV ks F [] s1) by (by apply (sinv_ext F [] s), HW).
  apply (winv_keep s1); [by apply sinv_emit_all, sinv_handleRedue| |by apply (winv_flags ks F s)].
  unfold recordQueueAndInFlightMetricsLocked. by rewrite emit_all_chans, handleRedue_chans.
Qed.

Lemma winv_running ks F s W b : WINV_at ks F s W → WINV_at ks F (s <| s_running := b |>) W.
Proof. intros HW. apply (winv_flags ks F s); try done. by apply (sinv_ext F [] s), HW. Qed.

Lemma winv_step w w' : WINV w → step w w' → WINV w'.
Proof.
  intros (ks & F & HW) Hstep. destruct Hstep; cbn [w_sched w_workers] in HW; unfold WINV; cbn [w_sched w_workers].
  - exists [], []. by eapply winv_start.
  - by eapply winv_iteration.
  - exists ks, F. unfold run_refresh. apply (winv_keep s); [|by rewrite recordMetrics_chans, tryRefresh_chans|done].
    apply sinv_recordMetrics, sinv_tryRefresh; [done|apply HW].
  - exists ks, F. by eapply winv_redue.
  - by eapply winv_completion.
  - exists ks, F. by apply winv_running.
  - exists ks, F. by apply winv_receive.
  - exists ks, F. unfold Complete in *. destruct (negb _); [|destruct (_ <? _); [|done]]; simplify_eq.
    + by eapply winv_drop.
    + by apply winv_complete_send.
  - exists ks, F. by apply winv_complete_send.
  - exists ks, F. unfold RedueTask in *. destruct (redue_request _ _ _ _ _); [by eapply winv_send_redue|by simplify_eq].
  - exists ks, F. apply (winv_flags ks F s); try done. by apply (sinv_ext F [] s), HW.
  - exists ks, F. unfold ScheduleBootstrap. repeat (destruct (negb _); [done|]). cbv zeta.
    destruct (send_redue _ s) eqn:E; [by eapply winv_send_redue|].
    apply (winv_keep s); [by apply sinv_emit, HW|done|done].
  - exists ks, F. apply (winv_keep s); [apply sinv_reconcile; [done|apply HW]|apply reconcile_chans|done].
  - exists ks, F. unfold Stop_begin. case_match; [by apply winv_running|done].
  - by eapply winv_stop_end.
Qed.

Lemma reachable_winv w : reachable w → WINV w.
Proof.
  induction 1 as [|w w' _ IH Hs]; [|by eapply winv_step]. exists [], [].
  split; try done; try (by intros x ?%elem_of_nil). apply sinv_empty; try done.
  intros l [x Hx]. change ((∅ : gmap loc heapItem) !! l = Some x) in Hx. by apply lookup_empty_Some in Hx.
Qed.

(** The keys in flight are distinct. *)
Lemma sinv_keys_nodup {ks} F T s : SINV ks F T s → NoDup ks.
Proof.
  intros HS. rewrite <- (sinv_keys _ _ _ _ HS). apply NoDup_fmap_2_strong.
  - intros x y Hx Hy E. destruct (inv_mem HS x) as (a & Ha & Hka & _); [rewrite !elem_of_app; tauto|].
    destruct (inv_mem HS y) as (b & Hb & Hkb & _); [rewrite !elem_of_app; tauto|].
    unfold key_of in E. rewrite (item_at_Some _ _ _ Ha), (item_at_Some _ _ _ Hb) in E. rewrite E in Hka. congruence.
  - pose proof (inv_nodup HS) as Hnd. rewrite !NoDup_app in Hnd. tauto.
Qed.
