(* ===== verification/SchedSpec.v ===== *)
(** * Abstract view of the scheduled tasks

    [status s k] is what the rest of the program can observe of the task [k]: whether it is
    scheduled, in flight, queued, and disabled.  Refreshing the inventory and removing a
    device are specified by what they do to every status. *)

From S2P Require Import Prelude GoLib Domain Policy GoHeap SchedTypes Scheduler SchedOps SchedInv SchedMoves SchedSteps SchedSchedule.

Record TaskStatus := mkStatus { st_inFlight : bool; st_queued : bool; st_disabled : bool }.

Definition item_status (it : heapItem) : TaskStatus := mkStatus (item_inFlight it) (item_queued it) (item_disabled it).
Definition status (s : Sched) (k : TaskKey) : option TaskStatus := (λ l, item_status (item_at s l)) <$> s_items s !! k.

(** ** How the elementary updates act on statuses *)

Lemma status_frame D s s' k : heap_frame D s s' → status s' k = status s k.
Proof.
  intros Hf. destruct (frame_rest D s s' Hf) as (Ei & _). unfold status. rewrite Ei.
  destruct (s_items s !! k) as [l|]; simpl; [|done]. by destruct (frame_item_at D s s' l Hf) as [i ->].
Qed.

Lemma registered_inj ks F T s k k' l :
  SINV ks F T s → s_items s !! k = Some l → s_items s !! k' = Some l → k = k'.
Proof.
  intros HS H1 H2. destruct (inv_items _ _ _ HS k l H1) as (a & Ha & Hk & _).
  destruct (inv_items _ _ _ HS k' l H2) as (b & Hb & Hk' & _). congruence.
Qed.

Lemma status_upd ks F T s k l f k' :
  SINV ks F T s → s_items s !! k = Some l →
  status (upd_item l f s) k' =
    if decide (k' = k) then (λ it, item_status (f it)) <$> s_store s !! l else status s k'.
Proof.
  intros HS Hl. destruct (inv_items _ _ _ HS k l Hl) as (it & Hit & _). unfold status.
  change (s_items (upd_item l f s)) with (s_items s). case_decide as E.
  - subst k'. rewrite Hl. simpl. by rewrite (item_at_upd_eq _ _ _ _ Hit), Hit.
  - destruct (s_items s !! k') as [l'|] eqn:Hl'; simpl; [|done]. rewrite item_at_upd_ne; [done|].
    intros ->. by apply E, (registered_inj ks F T s k' k l').
Qed.

Lemma status_delete s k k' : status (items_delete k s) k' = if decide (k' = k) then None else status s k'.
Proof.
  unfold status. cbn [items_delete s_items upd upd_s_items]. case_decide; [subst; by rewrite lookup_delete_eq|].
  by rewrite lookup_delete_ne.
Qed.

Lemma status_new ks F T s k it k' :
  SINV ks F T s → status (items_insert k (s_next s) (snd (alloc it s))) k' =
    if decide (k' = k) then Some (item_status it) else status s k'.
Proof.
  intros HS. unfold status. cbn [items_insert s_items upd upd_s_items alloc snd upd_s_next upd_s_store]. case_decide as E.
  - subst. rewrite lookup_insert_eq. unfold item_at. cbn. by rewrite lookup_insert_eq.
  - rewrite lookup_insert_ne by done. destruct (s_items s !! k') as [l|] eqn:Hl; simpl; [|done].
    destruct (inv_items _ _ _ HS k' l Hl) as (x & Hx & _). unfold item_at. cbn. rewrite lookup_insert_ne; [done|].
    intros <-. pose proof (inv_next _ _ _ HS (s_next s) ltac:(by rewrite Hx)). lia.
Qed.

(** The status of a task that is given to [enqueueReady] or [pushReadyFront]. *)
Lemma status_enqueue ks F T s l put k k' :
  SINV ks F (l :: T) s → s_items s !! k = Some l →
  status (enqueue_with put l s) k' =
    if decide (k' = k) then (λ it, mkStatus (item_inFlight it) true (item_disabled it)) <$> s_store s !! l else status s k'.
Proof.
  intros HS Hl. destruct (sinv_held_item F T s l HS) as (it & Hit & Hat & ((Hq & _) & _) & Hwf & _).
  unfold enqueue_with. rewrite Hat, Hq.
  rewrite upd_item_compose.
  match goal with |- status (upd ?r ?s1) _ = _ => change (status s1 k' = if decide (k' = k)
    then (λ it, mkStatus (item_inFlight it) true (item_disabled it)) <$> s_store s !! l else status s k') end.
  rewrite (status_upd ks F (l :: T) s k l) by done. by rewrite Hit.
Qed.

(** ** Scheduling a device *)

(** The tasks a device should have. *)
Definition device_keys (d : Device) : list TaskKey :=
  (if shouldScheduleEssentialTask d then [NewEssentialTaskKey (dev_ID d)] else []) ++
  (if shouldScheduleBootstrapTask d then [NewBootstrapTaskKey (dev_ID d)] else []) ++
  map (NewBackgroundTaskKey (dev_ID d)) (scheduledBackgroundVolatilityClassesForDevice d).

(** A scheduled task keeps its place and is enabled; a new one waits for its due time, a
    new bootstrap task is ready at once. *)
Definition scheduled (k : TaskKey) (o : option TaskStatus) : option TaskStatus :=
  match o with
  | Some st => Some (mkStatus (st_inFlight st) (st_queued st) false)
  | None => Some (mkStatus false (bool_decide (key_Kind k = TaskKindBootstrap)) false)
  end.

Lemma scheduled_idem k o : scheduled k (scheduled k o) = scheduled k o.
Proof. by destruct o. Qed.

Lemma status_upsert ks F s d k kind lane v i now k' :
  params_wf k kind lane d v → key_Kind k ≠ TaskKindBootstrap → SINV ks F [] s →
  status (upsertScheduledItem d k kind lane v i now s) k' = if decide (k' = k) then scheduled k (status s k) else status s k'.
Proof.
  intros Hp Hb HS. unfold upsertScheduledItem. destruct (s_items s !! k) as [l|] eqn:Hl.
  - rewrite (status_upd ks F [] s k l) by done. case_decide; [|done]. unfold status. rewrite Hl. simpl.
    destruct (inv_items _ _ _ HS k l Hl) as (it & Hit & _). by rewrite Hit, (item_at_Some _ _ _ Hit).
  - set (dueAt := Time_Add now _). set (it := newItem (newTask k kind lane d v i dueAt) dueAt i). cbn [alloc].
    rewrite <- heap_Push_items_insert. set (s1 := items_insert k (s_next s) _).
    assert (HS1 : SINV ks F [s_next s] s1) by (by apply (sinv_new F [] s k it)).
    destruct (sinv_held_item F [] s1 _ HS1) as (x & Hx & _).
    destruct (proj2 (proj2 (proj2 (inv_disjoint HS1 (s_next s)))) ltac:(set_solver)) as (Hlh & _ & _).
    destruct (heap_Push_spec _ s1 x (inv_index_ok HS1) (inv_order _ _ _ HS1) Hlh Hx) as (Hf & _).
    rewrite (status_frame _ _ _ k' Hf). unfold s1.
    pose proof (status_new ks F [] s k it k' HS) as E. cbn [alloc snd] in E. rewrite E. case_decide; [|done].
    unfold status. rewrite Hl. simpl. by rewrite bool_decide_eq_false_2.
Qed.

Lemma status_bootstrap ks F s d now k' (k := NewBootstrapTaskKey (dev_ID d)) :
  SINV ks F [] s →
  status (match s_items s !! k with
          | Some l => applyBootstrapSchedule l d (item_dueAt (item_at s l)) StaticClassInterval s
          | None => scheduleBootstrapItem d now s
          end) k' = if decide (k' = k) then scheduled k (status s k) else status s k'.
Proof.
  intros HS. destruct (s_items s !! k) as [l|] eqn:Hl.
  - unfold applyBootstrapSchedule. rewrite (status_upd ks F [] s k l) by done. case_decide; [|done].
    unfold status. rewrite Hl. simpl. destruct (inv_items _ _ _ HS k l Hl) as (it & Hit & _).
    by rewrite Hit, (item_at_Some _ _ _ Hit).
  - unfold scheduleBootstrapItem. fold k. rewrite Hl. unfold add_ready_front.
    set (it := newItem _ now StaticClassInterval). cbn [alloc].
    set (s1 := items_insert k (s_next s) _).
    assert (HS1 : SINV ks F [s_next s] s1) by (apply (sinv_new F [] s k it); try done; apply params_wf_bootstrap).
    assert (Hk1 : s_items s1 !! k = Some (s_next s)) by apply lookup_insert_eq.
    unfold pushReadyFront. rewrite (status_enqueue ks F [] s1 _ _ k k' HS1 Hk1).
    pose proof (status_new ks F [] s k it k' HS) as E. cbn [alloc snd] in E. fold s1 in E. rewrite E. case_decide; [|done].
    unfold status. rewrite Hl. simpl. unfold s1. cbn. by rewrite lookup_insert_eq.
Qed.

(** Scheduling the tasks [K] on every status. *)
Definition schedule_keys (K : list TaskKey) (f : TaskKey → option TaskStatus) (k : TaskKey) : option TaskStatus :=
  if decide (k ∈ K) then scheduled k (f k) else f k.

Lemma schedule_keys_app K K' f g k :
  g k = schedule_keys K f k → schedule_keys K' g k = schedule_keys (K ++ K') f k.
Proof.
  unfold schedule_keys. intros ->. repeat case_decide; rewrite ?scheduled_idem; try done; set_solver.
Qed.

Lemma schedule_keys_single k0 f k : schedule_keys [k0] f k = if decide (k = k0) then scheduled k0 (f k0) else f k.
Proof. unfold schedule_keys. repeat case_decide; subst; try done; set_solver. Qed.

Definition see_all (K : list TaskKey) (seen : option (gset TaskKey)) : option (gset TaskKey) :=
  (λ m, list_to_set K ∪ m) <$> seen.

Lemma see_all_app K K' seen : see_all K' (see_all K seen) = see_all (K ++ K') seen.
Proof. destruct seen as [m|]; [|done]. unfold see_all. simpl. f_equal. set_solver. Qed.

Lemma see_single k seen : see k seen = see_all [k] seen.
Proof. destruct seen as [m|]; [|done]. unfold see, see_all. simpl. f_equal. set_solver. Qed.

Lemma background_spec ks F d now vs s seen :
  (∀ v, v ∈ vs → v ≠ VolatilityClassNone) → SINV ks F [] s →
  let '(s', seen') := foldl (λ '(s, seen) volatility,
    let key := NewBackgroundTaskKey (dev_ID d) volatility in
    (upsertScheduledItem d key TaskKindBackground LaneBackground volatility
       (EffectiveInterval d volatility) now s, see key seen)) (s, seen) vs in
  (∀ k, status s' k = schedule_keys (map (NewBackgroundTaskKey (dev_ID d)) vs) (status s) k) ∧
  seen' = see_all (map (NewBackgroundTaskKey (dev_ID d)) vs) seen.
Proof.
  revert s seen. induction vs as [|v vs IH]; intros s seen Hv HS.
  { simpl. split; [done|]. destruct seen as [m|]; [|done]. unfold see_all. simpl. f_equal. set_solver. }
  cbn [foldl map]. assert (Hp : params_wf (NewBackgroundTaskKey (dev_ID d) v) TaskKindBackground LaneBackground d v)
    by (apply params_wf_background, Hv; by left).
  pose proof (sinv_upsertScheduledItem _ _ _ _ _ (EffectiveInterval d v) Hp F s now HS) as HS1.
  specialize (IH _ (see (NewBackgroundTaskKey (dev_ID d) v) seen) (λ v Hin, Hv v (list_elem_of_further _ _ _ Hin)) HS1).
  destruct (foldl _ _ vs) as [s' seen']. destruct IH as [IH1 IH2]. split.
  - intros k. rewrite IH1. apply (schedule_keys_app [_]). rewrite schedule_keys_single. by apply (status_upsert ks F).
  - rewrite IH2, see_single. apply (see_all_app [_]).
Qed.

Lemma device_spec ks F d now s seen :
  SINV ks F [] s →
  let '(s', seen') := scheduleRecurringDeviceLocked d now (s, seen) in
  (∀ k, status s' k = schedule_keys (device_keys d) (status s) k) ∧ seen' = see_all (device_keys d) seen.
Proof.
  intros HS. unfold scheduleRecurringDeviceLocked, device_keys.
  set (x1 := if shouldScheduleEssentialTask d then _ else _). set (K1 := if shouldScheduleEssentialTask d then _ else _).
  assert (H1 : SINV ks F [] (fst x1) ∧ (∀ k, status (fst x1) k = schedule_keys K1 (status s) k) ∧ snd x1 = see_all K1 seen).
  { subst x1 K1. case_match; cbn [fst snd].
    - split_and!; [by apply sinv_upsertScheduledItem; auto with theia| |apply see_single].
      intros k. rewrite schedule_keys_single. by apply (status_upsert ks F); auto with theia.
    - split_and!; [done..|]. destruct seen; [|done]. unfold see_all. simpl. f_equal. set_solver. }
  destruct x1 as [s1 seen1]. destruct H1 as (HS1 & Hk1 & Hs1). cbn [fst snd] in *.
  set (x2 := if shouldScheduleBootstrapTask d then _ else _). set (K2 := if shouldScheduleBootstrapTask d then _ else _).
  assert (H2 : SINV ks F [] (fst x2) ∧ (∀ k, status (fst x2) k = schedule_keys K2 (status s1) k) ∧ snd x2 = see_all K2 seen1).
  { subst x2 K2. case_match; cbn [fst snd].
    - split_and!; [|intros k; rewrite schedule_keys_single; by apply (status_bootstrap ks F)|apply see_single].
      destruct (s_items s1 !! _) as [l|] eqn:Hl; [by apply sinv_bootstrap_same|by apply sinv_scheduleBootstrapItem].
    - split_and!; [done..|]. destruct seen1; [|done]. unfold see_all. simpl. f_equal. set_solver. }
  destruct x2 as [s2 seen2]. destruct H2 as (HS2 & Hk2 & Hs2). cbn [fst snd] in *.
  pose proof (background_spec ks F d now _ s2 seen2 (background_classes d) HS2) as H3.
  destruct (foldl _ _ _) as [s3 seen3]. destruct H3 as [Hk3 Hs3]. split.
  - intros k. rewrite Hk3, app_assoc. apply schedule_keys_app. rewrite Hk2. by apply schedule_keys_app.
  - by rewrite Hs3, Hs2, Hs1, !see_all_app, app_assoc.
Qed.

(** ** Refreshing the inventory *)

Definition wanted_keys (devices : list Device) : list TaskKey :=
  flat_map (λ d, if shouldScheduleRecurringDevice d then device_keys d else []) devices.

Lemma devices_spec ks F now devices s seen :
  SINV ks F [] s →
  let '(s', seen') := foldl (λ st d, if shouldScheduleRecurringDevice d then scheduleRecurringDeviceLocked d now st else st)
                        (s, seen) devices in
  (∀ k, status s' k = schedule_keys (wanted_keys devices) (status s) k) ∧ seen' = see_all (wanted_keys devices) seen.
Proof.
  revert s seen. induction devices as [|d devices IH]; intros s seen HS.
  { simpl. split; [done|]. destruct seen; [|done]. unfold see_all. simpl. f_equal. set_solver. }
  cbn [foldl wanted_keys flat_map]. fold (wanted_keys devices). destruct (shouldScheduleRecurringDevice d); [|by apply IH].
  pose proof (device_spec ks F d now s seen HS) as H1. pose proof (sinv_scheduleRecurringDevice F now d s seen HS) as HS1.
  destruct (scheduleRecurringDeviceLocked d now (s, seen)) as [s1 seen1]. destruct H1 as [Hk1 Hs1]. cbn [fst] in HS1.
  specialize (IH s1 seen1 HS1). destruct (foldl _ _ devices) as [s' seen']. destruct IH as [Hk Hs]. split.
  - intros k. rewrite Hk. by apply schedule_keys_app.
  - by rewrite Hs, Hs1, see_all_app.
Qed.

(** A task that is not wanted any more disappears, or is only disabled while it is queued or in flight. *)
Definition retired (o : option TaskStatus) : option TaskStatus :=
  match o with
  | Some st => if st_inFlight st || st_queued st then Some (mkStatus (st_inFlight st) (st_queued st) true) else None
  | None => None
  end.

Lemma status_sweep_item ks F seen s k l k' :
  SINV ks F [] s → s_items s !! k = Some l →
  status (sweep_item seen s (k, l)) k' =
    if decide (k' = k) then if decide (k ∈ seen) then status s k else retired (status s k) else status s k'.
Proof.
  intros HS Hl. unfold sweep_item. destruct (decide (k ∈ seen)); [by case_decide; subst|]. cbv zeta.
  destruct (inv_items _ _ _ HS k l Hl) as (it & Hit & _). rewrite (item_at_Some _ _ _ Hit).
  assert (Hst : status s k = Some (item_status it)) by (unfold status; rewrite Hl; simpl; by rewrite (item_at_Some _ _ _ Hit)).
  rewrite Hst. destruct (item_inFlight it || item_queued it) eqn:Hfq.
  - rewrite (status_upd ks F [] s k l) by done. rewrite Hit. case_decide; [|done]. simpl. by rewrite Hfq.
  - rewrite status_delete. case_decide; [simpl; by rewrite Hfq|]. destruct (0 <=? item_index it) eqn:Hidx; [|done]. to_prop.
    destruct (inv_place HS l k Hl) as [(i & Hi & _ & _ & Hx)|[(p & _ & Hb & _)|[(_ & _ & Hb & _)|(HT & _)]]];
      [|rewrite (item_at_Some _ _ _ Hit) in Hb; congruence..|by apply elem_of_nil in HT].
    rewrite (item_at_Some _ _ _ Hit) in Hx. rewrite Hx.
    destruct (sinv_Remove F [] s i l HS Hi) as [_ Hf]. by apply (status_frame _ _ _ k' Hf).
Qed.

Lemma status_sweep ks F seen kls s k' :
  SINV ks F [] s → entries_ok s kls →
  status (foldl (sweep_item seen) s kls) k' =
    if decide (k' ∈ kls.*1) then if decide (k' ∈ seen) then status s k' else retired (status s k') else status s k'.
Proof.
  revert s. induction kls as [|[k l] kls IH]; intros s HS He; [done|]. cbn [foldl].
  assert (Hl : s_items s !! k = Some l) by (apply He; by left).
  destruct (sinv_sweep_item F seen s k l HS Hl) as [HS' Hs'].
  rewrite IH by (done || by eapply entries_step). rewrite !(status_sweep_item ks F seen s k l) by done.
  destruct He as [Hnd _]. rewrite fmap_cons in Hnd |- *. cbn [fst] in *. apply NoDup_cons in Hnd as [Hk _].
  destruct (decide (k' = k)) as [->|Hne].
  - rewrite (decide_False (P := k ∈ kls.*1)) by done.
    by rewrite (decide_True (P := k ∈ k :: kls.*1)) by (apply elem_of_cons; by left).
  - destruct (decide (k' ∈ kls.*1)).
    + by rewrite (decide_True (P := k' ∈ k :: kls.*1)) by (apply elem_of_cons; by right).
    + by rewrite (decide_False (P := k' ∈ k :: kls.*1)) by (rewrite elem_of_cons; tauto).
Qed.

Lemma refresh_spec ks F e now devices s s' k :
  range_ok e → SINV ks F [] s → env_GetDevices e = Ok devices → refreshDevices e now s = Ok s' →
  status s' k = if decide (k ∈ wanted_keys devices) then scheduled k (status s k) else retired (status s k).
Proof.
  intros He HS Hdev. unfold refreshDevices. rewrite Hdev. cbn [result_bind].
  set (s0 := emit _ s). assert (HS0 : SINV ks F [] s0) by (by apply sinv_emit).
  pose proof (devices_spec ks F now devices s0 (Some ∅) HS0) as H1.
  pose proof (sinv_schedule_devices F now devices s0 (Some ∅) HS0) as HS1.
  destruct (foldl _ _ devices) as [s1 seen]. destruct H1 as [Hk1 ->]. cbn [fst] in HS1.
  set (s2 := foldl (sweep_item _) s1 _). destruct (PolicyFromSettings _ _ _ _ _) as [policy warnings]. intros [= <-].
  transitivity (status s2 k); [done|]. unfold s2. rewrite (status_sweep ks F) by (done || by apply range_entries).
  set (M := default ∅ (see_all (wanted_keys devices) (Some ∅))).
  assert (HM : k ∈ M ↔ k ∈ wanted_keys devices) by (unfold M, see_all; simpl; set_solver).
  rewrite Hk1. unfold schedule_keys. change (status s0 k) with (status s k).
  destruct (decide (k ∈ wanted_keys devices)) as [Hin|Hin], (decide (k ∈ M)) as [HinM|HinM]; try tauto; [by case_decide|].
  case_decide as Hk; [done|]. unfold status. destruct (s_items s !! k) as [l|] eqn:Hl; [|done]. exfalso. apply Hk.
  assert (Hs1 : is_Some (status s1 k)) by (rewrite Hk1; unfold schedule_keys; rewrite decide_False by done;
      change (status s0 k) with (status s k); unfold status; by rewrite Hl).
  unfold status in Hs1. destruct (s_items s1 !! k) as [l1|] eqn:Hl1; [|by destruct Hs1].
  rewrite (He (s_items s1)). apply list_elem_of_fmap. exists (k, l1). split; [done|]. by apply elem_of_map_to_list.
Qed.

(** ** Removing a device *)

(** A removed task disappears at once unless it is in flight; then it is disabled. *)
Definition removed (o : option TaskStatus) : option TaskStatus :=
  match o with
  | Some st => if st_inFlight st then Some (mkStatus true (st_queued st) true) else None
  | None => None
  end.

Lemma status_removeReady ks F s k l x :
  SINV ks F [] s → s_items s !! k = Some l → x ≠ k → status (removeReadyItem l s) x = status s x.
Proof.
  intros HS Hl Hx. unfold removeReadyItem. destruct (remove_lanes l (s_ready s)) as [lanes|]; [|done].
  assert (E : status (upd_item l (λ it, it <| item_queued := false |>) s) x = status s x)
    by (rewrite (status_upd ks F [] s k l) by done; by rewrite decide_False).
  exact E.
Qed.

Lemma status_remove_item ks F d s k l k' :
  SINV ks F [] s → s_items s !! k = Some l →
  status (remove_item d s (k, l)) k' =
    if decide (k' = k ∧ key_DeviceID k = d) then removed (status s k) else status s k'.
Proof.
  intros HS Hl. unfold remove_item. destruct (Z.eqb_spec (key_DeviceID k) d) as [Hd|Hd]; [|by rewrite decide_False by tauto].
  cbn [negb]. destruct (inv_items _ _ _ HS k l Hl) as (it & Hit & _).
  assert (Hst : status s k = Some (item_status it)) by (unfold status; rewrite Hl; simpl; by rewrite (item_at_Some _ _ _ Hit)).
  assert (Hdel : ∀ s1, SINV ks F [l] s1 → s_items s1 = s_items s → (∀ x, x ≠ k → status s1 x = status s x) → item_inFlight it = false →
    status (items_delete k (upd_item l (λ it, it <| item_pending := false |>) s1)) k' =
      if decide (k' = k ∧ key_DeviceID k = d) then removed (Some (item_status it)) else status s k').
  { intros s1 HS1 Ei Hx Hfl. rewrite status_delete, (status_upd ks F [l] s1 k l) by (done || by rewrite Ei).
    simpl. rewrite Hfl. destruct (decide (k' = k)) as [->|Hne]; [by rewrite decide_True|rewrite (decide_False (P := k' = k ∧ _)) by tauto; auto]. }
  rewrite Hst. destruct (inv_place HS l k Hl) as [(i & Hi & H')|[(p & Hin & H')|[(HF & H')|(HT & _)]]]; [| | |by apply elem_of_nil in HT].
  - destruct H' as ((-> & Hfl & _) & _ & Hidx). rewrite Hidx, (proj2 (Z.leb_le 0 _)) by lia.
    destruct (sinv_Remove F [] s i l HS Hi) as [HR Hf]. destruct (frame_rest _ _ _ Hf) as (Ei & _).
    destruct (remove_held F _ l k HR) as [-> _]; [by rewrite Ei|]. rewrite (item_at_Some _ _ _ Hit) in Hfl.
    apply Hdel; try done. intros x _. by apply (status_frame _ _ _ x Hf).
  - destruct H' as (-> & Hfl & _ & _ & Hidx & _). destruct (sinv_removeReadyItem F [] s l HS Hin) as (HR & Ei & Hst').
    rewrite (item_at_Some _ _ _ (Hst' it Hit)). rewrite (item_at_Some _ _ _ Hit) in Hidx, Hfl. cbn [item_index upd upd_item_queued].
    rewrite Hidx. cbn [Z.leb Z.compare]. destruct (remove_held F _ l k HR) as [-> _]; [by rewrite Ei|].
    apply Hdel; try done. intros x Hx. by apply (status_removeReady ks F s k l x).
  - destruct H' as (-> & Hfl & Hidx & _). rewrite Hidx. cbn [Z.leb Z.compare].
    rewrite (item_at_Some _ _ _ Hit) in Hfl. rewrite (item_at_upd_eq _ _ _ _ Hit). cbn [item_inFlight upd upd_item_pending].
    rewrite Hfl, upd_item_compose, (status_upd ks F [] s k l), Hit by done. simpl. rewrite Hfl.
    destruct (decide (k' = k)); [rewrite decide_True by done|by rewrite decide_False by tauto].
    unfold item_status. cbn. by rewrite Hfl.
Qed.

Lemma remove_spec ks F e d s k :
  range_ok e → SINV ks F [] s →
  status (removeDeviceTasksLocked e d s) k = if decide (key_DeviceID k = d) then removed (status s k) else status s k.
Proof.
  intros He HS. unfold removeDeviceTasksLocked.
  assert (Hfold : ∀ kls s, SINV ks F [] s → entries_ok s kls → status (foldl (remove_item d) s kls) k =
    if decide (k ∈ kls.*1 ∧ key_DeviceID k = d) then removed (status s k) else status s k).
  { clear s HS. induction kls as [|[k0 l] kls IH]; intros s HS Hk; [by rewrite decide_False by (intros [?%elem_of_nil _]; done)|].
    cbn [foldl]. assert (Hl : s_items s !! k0 = Some l) by (apply Hk; by left).
    destruct (sinv_remove_item F d s k0 l HS Hl) as [HS' Hs']. rewrite IH by (done || by eapply entries_step).
    rewrite !(status_remove_item ks F d s k0 l) by done. destruct Hk as [Hnd _]. rewrite fmap_cons in Hnd |- *.
    cbn [fst] in *. apply NoDup_cons in Hnd as [Hk0 _].
    destruct (decide (k = k0)) as [->|Hne].
    - rewrite (decide_False (P := k0 ∈ kls.*1 ∧ _)) by tauto.
      destruct (decide (key_DeviceID k0 = d)) as [Hd|Hd].
      + by rewrite (decide_True (P := k0 = k0 ∧ _)), (decide_True (P := k0 ∈ k0 :: kls.*1 ∧ _)) by (rewrite ?elem_of_cons; tauto).
      + by rewrite (decide_False (P := k0 = k0 ∧ _)), (decide_False (P := k0 ∈ k0 :: kls.*1 ∧ _)) by tauto.
    - rewrite !(decide_False (P := k = k0 ∧ _)) by tauto.
      destruct (decide (k ∈ kls.*1 ∧ key_DeviceID k = d)).
      + by rewrite (decide_True (P := k ∈ k0 :: kls.*1 ∧ _)) by (rewrite elem_of_cons; tauto).
      + by rewrite (decide_False (P := k ∈ k0 :: kls.*1 ∧ _)) by (rewrite elem_of_cons; tauto). }
  rewrite Hfold by (done || by apply range_entries). destruct (decide (key_DeviceID k = d)) as [Hd|Hd]; [|by rewrite decide_False by tauto].
  destruct (decide (k ∈ (env_range e (s_items s)).*1 ∧ key_DeviceID k = d)) as [Hk|Hk]; [done|]. unfold status.
  destruct (s_items s !! k) as [l|] eqn:Hl; [|done]. exfalso. apply Hk. split; [|done].
  rewrite (He (s_items s)). apply list_elem_of_fmap. exists (k, l). split; [done|]. by apply elem_of_map_to_list.
Qed.
