(* ===== verification/SchedTheorems.v ===== *)
(** * The scheduler: a small deployment and the theorems

    Two managed routers polled with the default settings: the concrete worlds at which the
    properties of the scheduler are instantiated, then the properties. *)

From S2P Require Import Prelude GoLib Domain Policy SchedTypes Scheduler SchedOps SchedSchedule SchedRun SchedWorld.

Definition router (id : UUID) (ip : string) (areas : list UUID) : Device :=
  {| dev_ID := id; dev_Hostname := "router"; dev_SysName := ""; dev_IP := ip;
     dev_SNMPCredentials := {| creds_Version := SNMPVersionV2c; creds_V2c := Some {| v2c_Community := "public" |}; creds_V3 := None |};
     dev_DeviceType := DeviceTypeRouter; dev_PollClass := PollClassCore; dev_PollIntervalOverride := None;
     dev_PollingEnabled := None; dev_Status := "up"; dev_Managed := true; dev_Interfaces := []; dev_Addresses := []; dev_ProbePorts := [];
     dev_AreaIDs := areas; dev_MetricsSource := MetricsSourceSNMP; dev_TopologyDiscoveryMode := TopologyDiscoveryModeOff;
     dev_TopologyBootstrapState := TopologyBootstrapStateIdle |}.

Definition r1 : Device := router 1 "10.0.0.1" [7].
Definition r2 : Device := router 2 "10.0.0.2" [7].

(** The environment at instant [now] with the given inventory. *)
Definition env_at (now : Time) (devices : list Device) : Env :=
  {| env_now := now; env_settings := None; env_ParseFloat := λ _, None; env_GetDevices := Ok devices;
     env_IncludesDevice := None; env_sample := None; env_range := map_to_list |}.

Lemma env_at_range now devices : range_ok (env_at now devices).
Proof. by intros m. Qed.

Definition t0 : Time := 1000 * Second.
Definition t1 : Time := 2000 * Second.

Definition sched_of (r : result Sched) : Sched := match r with Ok s => s | Err _ => NewScheduler end.

(** Just started; a run-loop iteration later, when everything is due; the workers have taken the first tasks. *)
Definition s_demo0 : Sched := sched_of (Start (env_at t0 [r1; r2]) NewScheduler).
Definition s_demo1 : Sched := snd (run_iteration (env_at t1 [r1; r2]) (λ _, false) s_demo0).
Definition w_demo0 : World := mkWorld s_demo0 [].
Definition w_demo1 : World := mkWorld s_demo1 [].

Lemma demo0_started : s_started s_demo0 = true.
Proof. vm_compute. reflexivity. Qed.

Lemma demo1_started : s_started s_demo1 = true.
Proof. vm_compute. reflexivity. Qed.

Lemma demo0_reachable : reachable w_demo0.
Proof.
  eapply reachable_step; [apply reachable_new|]. eapply (step_start (env_at t0 [r1; r2])); [apply env_at_range|done|].
  vm_compute. reflexivity.
Qed.

Lemma demo1_reachable : reachable w_demo1.
Proof.
  eapply reachable_step; [apply demo0_reachable|].
  eapply (step_iteration (env_at t1 [r1; r2]) (λ _, false) s_demo0 (fst (run_iteration (env_at t1 [r1; r2]) (λ _, false) s_demo0)));
    [apply env_at_range|apply demo0_started| |].
  - unfold s_demo1. by destruct (run_iteration _ _ _).
  - vm_compute. discriminate.
Qed.

(** * What the scheduler guarantees

    The properties of [internal/scheduler] in terms of the reachable worlds of
    [SchedWorld.step]: where tasks are, what is polled at the same time, what is dispatched
    and in which order, what a completion, an inventory refresh and a removal change. *)

From S2P Require Import GoHeap SchedInv SchedMoves SchedSteps SchedDispatch SchedSpec.

(** ** The tasks in flight *)

Definition in_flight_keys (s : Sched) : list TaskKey :=
  (filter (λ kl, item_inFlight (item_at s kl.2) = true) (map_to_list (s_items s))).*1.

Lemma elem_of_in_flight_keys s k :
  k ∈ in_flight_keys s ↔ ∃ l, s_items s !! k = Some l ∧ item_inFlight (item_at s l) = true.
Proof.
  unfold in_flight_keys. rewrite list_elem_of_fmap. setoid_rewrite list_elem_of_filter. split.
  - intros ([k' l] & -> & Hf & Hl%elem_of_map_to_list). eauto.
  - intros (l & Hl & Hf). exists (k, l). by rewrite elem_of_map_to_list.
Qed.

Lemma in_flight_keys_nodup s : NoDup (in_flight_keys s).
Proof.
  unfold in_flight_keys. pose proof (NoDup_fst_map_to_list (s_items s)) as Hnd.
  induction (map_to_list (s_items s)) as [|[k l] kls IH]; [constructor|]. rewrite fmap_cons in Hnd. apply NoDup_cons in Hnd as [Hk Hnd].
  rewrite filter_cons. case_decide; [|by apply IH]. rewrite fmap_cons. apply NoDup_cons. split; [|by apply IH].
  intros Hin. apply Hk. apply list_elem_of_fmap in Hin as (x & -> & [_ Hx]%list_elem_of_filter). apply list_elem_of_fmap. eauto.
Qed.

Lemma in_flight_keys_perm ks F s : SINV ks F [] s → in_flight_keys s ≡ₚ ks.
Proof.
  intros HS. apply NoDup_Permutation; [apply in_flight_keys_nodup|by eapply sinv_keys_nodup|]. intros k.
  rewrite elem_of_in_flight_keys, <- (sinv_keys _ _ _ _ HS), list_elem_of_fmap. split.
  - intros (l & Hl & Hf). exists l. destruct (inv_items _ _ _ HS k l Hl) as (it & Hit & Hk & _).
    split; [unfold key_of; by rewrite (item_at_Some _ _ _ Hit)|].
    destruct (inv_place HS l k Hl) as [(i & _ & H)|[(p & _ & H)|[[H _]|[H%elem_of_nil _]]]]; [..|done|done];
      destruct H as [[? H] ?] || destruct H as (H & ? & ?); unfold at_rest in *; naive_solver congruence.
  - intros (l & -> & Hl). destruct (inv_mem HS l) as (it & Hit & Hk & _); [rewrite !elem_of_app; tauto|].
    exists l. unfold key_of. rewrite (item_at_Some _ _ _ Hit). split; [done|].
    pose proof (inv_flying _ _ _ HS l Hl) as Hf. rewrite (item_at_Some _ _ _ Hit) in Hf. apply Hf.
Qed.

Lemma submseteq_nodup {A} (l k : list A) : l ⊆+ k → NoDup k → NoDup l.
Proof. intros (k' & ->)%submseteq_Permutation Hk. by apply NoDup_app in Hk as [Hk _]. Qed.

Lemma reachable_at w :
  reachable w → ∃ F, WINV_at (key_of (w_sched w) <$> F) F (w_sched w) (w_workers w) ∧
    in_flight_keys (w_sched w) ≡ₚ key_of (w_sched w) <$> F.
Proof.
  intros (ks & F & HW)%reachable_winv. exists F. pose proof (sinv_keys _ _ _ _ (wi_sinv _ _ _ _ HW)) as E. subst ks.
  split; [done|]. by eapply in_flight_keys_perm, wi_sinv.
Qed.

(** ** Where tasks are *)

(** C1: Every task the scheduler knows is in exactly one place.  It is in flight and in no
    queue, or it waits once in the ready lane of its priority, or it waits in the heap at
    the index it records; and the heap and the lanes hold no other item and none twice. *)
Theorem task_places w k l :
  reachable w → s_items (w_sched w) !! k = Some l →
  let s := w_sched w in let it := item_at s l in
  task_Key (item_task it) = k ∧
  match item_inFlight it, item_queued it with
  | true, true => False
  | true, false => l ∉ s_heap s ++ concat (s_ready s) ∧ item_index it = -1
  | false, true => (∃ q, s_ready s !! lane_of (item_task it) = Some q ∧ l ∈ q) ∧ item_index it = -1
  | false, false => ∃ i, s_heap s !! i = Some l ∧ item_index it = Z.of_nat i
  end ∧
  NoDup (s_heap s ++ concat (s_ready s)) ∧ ∀ l', l' ∈ s_heap s ++ concat (s_ready s) → ∃ k', s_items s !! k' = Some l'.
Proof.
  intros (F & HW & _)%reachable_at Hl s it. fold s in HW, Hl. pose proof (wi_sinv _ _ _ _ HW) as HS.
  pose proof (inv_nodup HS) as Hnd. destruct (inv_items _ _ _ HS k l Hl) as (x & Hx & Hk & _).
  assert (Hit : it = x) by (by apply item_at_Some). split; [by rewrite Hit|]. split; [|split].
  - destruct (inv_place HS l k Hl) as [(i & Hi & (H1 & H2 & _ & _) & _ & H3)|[(p & Hr & H)|[(HF & H1 & H2 & H3 & _)|[H%elem_of_nil _]]]]; [..|done].
    + fold it in H1, H2, H3. rewrite H1, H2. eauto.
    + destruct (inv_ready_elem HS l Hr) as (p' & q & Hq & Hlq & H1 & H2 & _ & _ & H5 & H6). fold it in H1, H2, H5, H6.
      rewrite H1, H2, H6. eauto.
    + fold it in H1, H2, H3. rewrite H1, H2. split; [|done]. destruct (inv_disjoint HS l) as (A & B & _).
      rewrite elem_of_app. intros [Hh|Hr]; [specialize (A Hh)|specialize (B Hr)]; tauto.
  - rewrite app_assoc in Hnd. by apply NoDup_app in Hnd as [Hnd _].
  - intros l' Hl'. destruct (inv_mem HS l') as (y & _ & Hy & _); [rewrite !elem_of_app in *; tauto|eauto].
Qed.

Lemma task_places_witness :
  let it := item_at s_demo1 1%nat in item_inFlight it = false ∧ item_queued it = true ∧ item_index it = -1.
Proof.
  pose proof (task_places w_demo1 (task_Key (item_task (item_at s_demo1 1%nat))) 1%nat demo1_reachable
    ltac:(vm_compute; reflexivity)) as (_ & H & _).
  vm_compute in H |- *. split; [reflexivity|]. split; [reflexivity|apply H].
Defined.

(** C2: No task is polled twice at the same time.  Over the task channel, the workers and
    the completion channel together, the tasks of the current run are pairwise different,
    each of them is marked in flight, and there are at most 128 of them. *)
Theorem no_double_poll w :
  reachable w → s_started (w_sched w) = true →
  NoDup (live (w_sched w) (w_workers w)) ∧ live (w_sched w) (w_workers w) ⊆ in_flight_keys (w_sched w) ∧
  Z.of_nat (length (live (w_sched w) (w_workers w))) <= defaultTaskBuffer.
Proof.
  intros (F & HW & HF)%reachable_at Hst. pose proof (wi_live _ _ _ _ HW Hst) as Hl.
  pose proof (wi_bound _ _ _ _ HW) as Hb. pose proof (submseteq_length _ _ Hl). split_and!; [..|lia].
  - eapply submseteq_nodup; [exact Hl|]. by eapply sinv_keys_nodup, HW.
  - intros k Hk. rewrite HF. by eapply elem_of_submseteq.
Qed.

Lemma no_double_poll_witness :
  live s_demo1 [] = [NewEssentialTaskKey 1; NewEssentialTaskKey 2] ∧ NoDup (live s_demo1 []).
Proof.
  split; [vm_compute; reflexivity|]. exact (proj1 (no_double_poll w_demo1 demo1_reachable demo1_started)).
Defined.

(** C3: The in-flight counters the dispatcher compares with its limits are exact: in total,
    for essential work, per volatility class and per device they count the tasks in flight,
    of which there are never more than 128. *)
Theorem counters_exact w :
  reachable w →
  counts_ok (in_flight_keys (w_sched w)) (s_counters (w_sched w)) ∧
  c_inFlight (s_counters (w_sched w)) = Z.of_nat (length (in_flight_keys (w_sched w))) ∧
  0 <= c_inFlight (s_counters (w_sched w)) <= defaultTaskBuffer.
Proof.
  intros (F & HW & HF)%reachable_at. pose proof (sinv_counts _ _ _ _ (wi_sinv _ _ _ _ HW)) as HC.
  apply (counts_ok_perm _ (in_flight_keys (w_sched w))) in HC; [|by symmetry]. pose proof (co_total _ _ HC) as Ht.
  pose proof (wi_bound _ _ _ _ HW) as Hb. rewrite <- HF in Hb. split_and!; [done|done|lia|lia].
Qed.

Lemma counters_exact_witness : c_inFlight (s_counters s_demo1) = 2 ∧ counts_ok (in_flight_keys s_demo1) (s_counters s_demo1).
Proof. split; [vm_compute; reflexivity|]. exact (proj1 (counters_exact w_demo1 demo1_reachable)). Defined.

(** ** Dispatching *)

(** C4: An iteration of the run loop always comes to an end without waiting: the send on the
    task channel finds room, the dispatch loop stops for one of the reasons of the code, and
    afterwards the channel still holds no more tasks than its capacity. *)
Theorem iteration_never_blocks w e ctxDone :
  reachable w → s_started (w_sched w) = true → range_ok e →
  let '(r, s') := run_iteration e ctxDone (w_sched w) in
  r ≠ StopSendBlocked ∧ r ≠ StopOutOfFuel ∧ reachable (mkWorld s' (w_workers w)) ∧
  Z.of_nat (length (s_tasks s')) <= s_tasksCap s'.
Proof.
  intros Hw Hst He. destruct w as [s W]. cbn [w_sched w_workers] in *. destruct (run_iteration e ctxDone s) as [r s'] eqn:Hit.
  destruct (reachable_winv _ Hw) as (ks & F & HW). pose proof (winv_iteration _ _ _ _ _ _ _ _ Hst Hit HW) as (A & B & _).
  assert (Hr : reachable (mkWorld s' W)) by (eapply reachable_step; [done|by eapply step_iteration]).
  split_and!; [done..|]. destruct (reachable_winv _ Hr) as (ks' & F' & HW'). cbn [w_sched w_workers] in HW'.
  rewrite (proj1 (wi_caps _ _ _ _ HW')). destruct (s_started s') eqn:Hst'.
  - pose proof (submseteq_length _ _ (wi_live _ _ _ _ HW' Hst')) as Hl. unfold live in Hl. rewrite !length_app, length_fmap in Hl.
    pose proof (wi_bound _ _ _ _ HW'). lia.
  - rewrite (proj2 (wi_stopped _ _ _ _ HW' Hst')). unfold defaultTaskBuffer. simpl. lia.
Qed.

Lemma iteration_never_blocks_witness :
  fst (run_iteration (env_at t1 [r1; r2]) (λ _, false) s_demo0) ≠ StopSendBlocked.
Proof.
  pose proof (iteration_never_blocks w_demo0 (env_at t1 [r1; r2]) (λ _, false) demo0_reachable demo0_started (env_at_range _ _)) as H.
  change (w_sched w_demo0) with s_demo0 in H. destruct (run_iteration _ _ _) as [r s']. apply H.
Defined.

(** C5: The three-pass scan over the ready lanes, with the knowledge it accumulates to skip
    blocked work, selects exactly the task of the reference order: essential work before
    bootstrap work before recurring background work, by lane, first in first out, the first
    one that no limit blocks.  The selected task leaves its lane and nothing else moves. *)
Theorem pick_refines_reference w limits :
  reachable w →
  let s := w_sched w in
  match reference_pick limits s with
  | None => ∃ st os, popReadyEligible limits newScanState s = (None, st, emit_all os s)
  | Some l => ∃ st p before after, s_ready s !! p = Some (before ++ l :: after) ∧
      popReadyEligible limits newScanState s = (Some l, st, take_ready p before l after s)
  end.
Proof.
  intros (F & HW & _)%reachable_at s.
  destruct (popReadyEligible_spec F [] limits newScanState s (wi_sinv _ _ _ _ HW) (known_ok_new _ _)) as (st & _ & H).
  destruct (reference_pick limits s); [destruct H as (p & a & b & H)|destruct H as (os & H)]; eauto 10.
Qed.

Lemma pick_refines_reference_witness :
  reference_pick (dispatchLimits (env_at t1 [r1; r2]) s_demo1) s_demo1 = None ∧
  fst (fst (popReadyEligible (dispatchLimits (env_at t1 [r1; r2]) s_demo1) newScanState s_demo1)) = None.
Proof.
  assert (H0 : reference_pick (dispatchLimits (env_at t1 [r1; r2]) s_demo1) s_demo1 = None) by (vm_compute; reflexivity).
  split; [exact H0|].
  pose proof (pick_refines_reference w_demo1 (dispatchLimits (env_at t1 [r1; r2]) s_demo1) demo1_reachable) as H.
  change (w_sched w_demo1) with s_demo1 in H. cbv zeta in H. rewrite H0 in H. destruct H as (st & os & ->). reflexivity.
Defined.



(** When the clock passes, exactly the due tasks become ready: the tasks due by [now]
    leave the heap in heap order (due time, then priority, then key) and join the end of
    the lane of their priority; the tasks due later stay in the heap. *)
Theorem move_due_exact w e now :
  reachable w →
  ∃ moved, due_moved now (markElapsedInFlightWindows e now (w_sched w)) (moveDueTasksToReady e now (w_sched w)) moved ∧
    (∀ l, l ∈ moved ↔ l ∈ s_heap (w_sched w) ∧ item_dueAt (item_at (w_sched w) l) <= now).
Proof.
  intros (F & HW & _)%reachable_at. pose proof (wi_sinv _ _ _ _ HW) as HS.
  pose proof (sinv_markElapsedInFlightWindows F [] e now _ HS) as HS1.
  destruct (markElapsed_frame e now (w_sched w)) as (_ & Eh & _ & _ & Ei). unfold moveDueTasksToReady.
  set (s1 := markElapsedInFlightWindows e now (w_sched w)) in *.
  destruct (moveDue_loop_spec (length (s_heap s1)) F now s1 HS1 ltac:(lia)) as (_ & moved & Hm). exists moved. split; [exact Hm|].
  intros l. rewrite <- Eh, (dm_heap _ _ _ _ Hm), elem_of_app. pose proof (proj2 (proj2 (Ei l))) as Hdue. split.
  - intros Hl. rewrite <- Hdue. split; [by left|by apply (dm_due _ _ _ _ Hm)].
  - intros [[Hl|Hl] Hn]; [done|]. pose proof (dm_rest _ _ _ _ Hm l Hl). lia.
Qed.

Lemma move_due_exact_witness :
  ∃ moved : list loc, length (s_heap s_demo0) = 8%nat ∧ ∀ l, l ∈ moved ↔ l ∈ s_heap s_demo0 ∧ item_dueAt (item_at s_demo0 l) <= t1.
Proof.
  destruct (move_due_exact w_demo0 (env_at t1 [r1; r2]) t1 demo0_reachable) as (moved & _ & H). exists moved.
  split; [vm_compute; reflexivity|exact H].
Defined.

(** ** Completions *)

(** C8: A completion report ends exactly the poll it belongs to.  A report for a task that is
    not in flight, of another run, or from before the dispatch changes nothing; any other
    report takes that one task out of flight and no other. *)
Theorem completion_effect w e c :
  reachable w →
  let s := w_sched w in let s' := handleCompletion e c s in
  if completes e c s
  then in_flight_keys s ≡ₚ comp_Key c :: in_flight_keys s' ∧ comp_Key c ∉ in_flight_keys s' ∧ comp_RunID c = s_runID s
  else s' = s.
Proof.
  intros (F & HW & HF)%reachable_at s s'. pose proof (wi_sinv _ _ _ _ HW) as HS. fold s in HS, HF.
  destruct (completes e c s) eqn:Hc; [|by apply handleCompletion_ignored].
  destruct (sinv_completes F e c s HS Hc) as (ks' & F' & Hks & HS' & Hrun).
  pose proof (in_flight_keys_perm _ _ _ HS') as HF'. rewrite HF, Hks. fold s' in HF'. split_and!; [by rewrite HF'| |done].
  pose proof (sinv_keys_nodup _ _ _ HS) as Hnd. rewrite Hks in Hnd. apply NoDup_cons in Hnd as [Hnd _]. by rewrite HF'.
Qed.

Lemma completion_effect_witness :
  let c := completion_of (item_task (item_at s_demo1 0%nat)) (t1 + Second) in
  completes (env_at t1 []) c s_demo1 = true ∧ comp_Key c ∉ in_flight_keys (handleCompletion (env_at t1 []) c s_demo1).
Proof.
  intros c. assert (Hc : completes (env_at t1 []) c s_demo1 = true) by (vm_compute; reflexivity). split; [exact Hc|].
  pose proof (completion_effect w_demo1 (env_at t1 []) c demo1_reachable) as H.
  change (w_sched w_demo1) with s_demo1 in H. cbv zeta in H. rewrite Hc in H. exact (proj1 (proj2 H)).
Defined.

(** ** Inventory *)

(** C9: A refresh makes the schedule follow the inventory.  It succeeds whenever the
    inventory can be read; afterwards every task an admissible device should have is
    scheduled and enabled, keeping its place if it existed; every other task is gone, or
    only disabled while it is queued or in flight. *)
Theorem refresh_follows_inventory w e now devices :
  reachable w → range_ok e → env_GetDevices e = Ok devices →
  ∃ s', refreshDevices e now (w_sched w) = Ok s' ∧
    ∀ k, status s' k = if decide (k ∈ wanted_keys devices) then scheduled k (status (w_sched w) k) else retired (status (w_sched w) k).
Proof.
  intros (F & HW & _)%reachable_at He Hd. pose proof (wi_sinv _ _ _ _ HW) as HS.
  destruct (refreshDevices e now (w_sched w)) as [s'|err] eqn:Hr.
  - exists s'. split; [done|]. intros k. by eapply refresh_spec.
  - exfalso. unfold refreshDevices in Hr. rewrite Hd in Hr. cbn [result_bind] in Hr.
    destruct (foldl _ _ devices) as [s1 seen], (PolicyFromSettings _ _ _ _ _) as [p ws]. done.
Qed.

Lemma refresh_follows_inventory_witness :
  ∃ s', refreshDevices (env_at t1 [r1]) t1 s_demo1 = Ok s' ∧
    status s' (NewEssentialTaskKey 1) = Some (mkStatus true false false) ∧
    status s' (NewEssentialTaskKey 2) = Some (mkStatus true false true) ∧
    status s' (NewBackgroundTaskKey 2 VolatilityClassStatic) = Some (mkStatus false true true).
Proof.
  destruct (refresh_follows_inventory w_demo1 (env_at t1 [r1]) t1 [r1] demo1_reachable (env_at_range _ _) eq_refl) as (s' & Hs & Hk).
  exists s'. split; [exact Hs|]. split_and!; (etransitivity; [exact (Hk _)|vm_compute; reflexivity]).
Defined.

(** Removing a device removes exactly its tasks: tasks of other devices keep their
    status, its own tasks are gone at once, except the one a worker holds, which is disabled
    so that its completion deletes it. *)
Theorem remove_exact w e d :
  reachable w → range_ok e →
  ∀ k, status (removeDeviceTasksLocked e d (w_sched w)) k =
    if decide (key_DeviceID k = d) then removed (status (w_sched w) k) else status (w_sched w) k.
Proof. intros (F & HW & _)%reachable_at He k. by eapply remove_spec, HW. Qed.

Lemma remove_exact_witness :
  status (removeDeviceTasksLocked (env_at t1 []) 1 s_demo1) (NewEssentialTaskKey 1) = Some (mkStatus true false true) ∧
  status (removeDeviceTasksLocked (env_at t1 []) 1 s_demo1) (NewBackgroundTaskKey 1 VolatilityClassStatic) = None ∧
  status (removeDeviceTasksLocked (env_at t1 []) 1 s_demo1) (NewEssentialTaskKey 2) = Some (mkStatus true false false).
Proof.
  pose proof (remove_exact w_demo1 (env_at t1 []) 1 demo1_reachable (env_at_range _ _)) as H.
  change (w_sched w_demo1) with s_demo1 in H.
  split_and!; (etransitivity; [exact (H _)|vm_compute; reflexivity]).
Defined.

(** The run loop sleeps exactly until the earliest task: with tasks in the heap it wakes
    up after a non-negative delay at which some task is due, and no task is due before. *)
Theorem wake_delay_exact w now :
  reachable w → s_heap (w_sched w) ≠ [] →
  (∀ l, l ∈ s_heap (w_sched w) → in_int64 (item_dueAt (item_at (w_sched w) l) - now)) →
  let delay := nextWakeDelay now (w_sched w) in
  0 <= delay ∧ (∀ l, l ∈ s_heap (w_sched w) → 0 < delay → now + delay <= item_dueAt (item_at (w_sched w) l)) ∧
  ∃ l, l ∈ s_heap (w_sched w) ∧ item_dueAt (item_at (w_sched w) l) <= now + delay.
Proof.
  intros (F & HW & _)%reachable_at Hne Hr delay. pose proof (wi_sinv _ _ _ _ HW) as HS. unfold delay, nextWakeDelay.
  destruct (s_heap (w_sched w)) as [|l r] eqn:Hl; [done|]. pose proof (Hr l ltac:(by left)) as Hi.
  assert (Hsub : Time_Sub (item_dueAt (item_at (w_sched w) l)) now = item_dueAt (item_at (w_sched w) l) - now).
  { unfold Time_Sub, in_int64 in *. lia. }
  cbv zeta. rewrite Hsub. assert (Hmin : ∀ x, x ∈ l :: r → item_dueAt (item_at (w_sched w) l) <= item_dueAt (item_at (w_sched w) x)).
  { intros x Hx. rewrite <- Hl in Hx. apply (key_lt_due _ _ (heap_head_min F [] _ l r x HS Hl Hx)). }
  destruct (_ <? 0) eqn:E; to_prop; (split_and!; [lia| |exists l; split; [by left|lia]]).
  - lia.
  - intros x Hx _. specialize (Hmin x Hx). lia.
Qed.

Lemma wake_delay_exact_witness : 0 <= nextWakeDelay t0 s_demo0 ∧ s_heap s_demo0 ≠ [].
Proof.
  assert (Hne : s_heap s_demo0 ≠ []) by (vm_compute; discriminate). split; [|exact Hne].
  refine (proj1 (wake_delay_exact w_demo0 t0 demo0_reachable Hne _)).
  assert (HF : forallb (λ l, (int64_min <=? item_dueAt (item_at s_demo0 l) - t0) && (item_dueAt (item_at s_demo0 l) - t0 <=? int64_max))
    (s_heap s_demo0) = true) by (vm_compute; reflexivity).
  intros l Hl. rewrite forallb_forall in HF. apply list_elem_of_In in Hl. specialize (HF l Hl). to_prop. split; assumption.
Defined.

(** ** Phases *)

(** Recurring background work keeps its phase.  The next due time lies a whole number of
    intervals after the previous one, in the future, and is the first such time: windows
    that elapsed meanwhile are skipped, none is repeated. *)
Theorem next_phase_least previousDue interval after :
  0 < interval → previousDue ≠ 0 → after - previousDue + interval <= int64_max →
  let next := nextPhaseAfter previousDue interval after in
  after < next ∧ ∃ n, 0 < n ∧ next = previousDue + n * interval ∧
  ∀ m, 0 < m → after < previousDue + m * interval → next <= previousDue + m * interval.
Proof.
  intros Hi Hp Hov next. unfold next, nextPhaseAfter, Time_IsZero, Time_Add, Time_After.
  rewrite (proj2 (Z.leb_gt _ _)), (proj2 (Z.eqb_neq _ _)) by lia. destruct (after <? previousDue + interval) eqn:E; to_prop.
  { split; [lia|]. exists 1. split_and!; [lia..|]. intros m Hm _. nia. }
  assert (Hsub : Time_Sub after previousDue = after - previousDue) by (unfold Time_Sub, int64_min, int64_max in *; lia).
  rewrite Hsub. clear Hsub. remember (after - previousDue) as d eqn:Hd. rewrite Z.quot_div_nonneg by lia.
  pose proof (Z.div_mod d interval ltac:(lia)) as Hdm. pose proof (Z.mod_pos_bound d interval Hi) as Hmod.
  pose proof (Z.div_le_lower_bound d interval 1 ltac:(lia) ltac:(lia)) as Hq. remember (d / interval) as q eqn:Hqe. clear Hqe.
  assert (Hqd : q <= d) by nia. unfold Duration_mul, Duration_add.
  rewrite (int64_wrap_id (q + 1)) by (unfold in_int64, int64_min, int64_max in *; lia).
  rewrite int64_wrap_id by (unfold in_int64, int64_min, int64_max in *; nia).
  split; [nia|]. exists (q + 1). split_and!; [lia|lia|]. intros m Hm Hlt. assert (q < m) by nia. nia.
Qed.

Lemma next_phase_least_witness : nextPhaseAfter 100 30 165 = 190 ∧ 165 < nextPhaseAfter 100 30 165.
Proof.
  split; [reflexivity|]. exact (proj1 (next_phase_least 100 30 165 ltac:(lia) ltac:(lia) ltac:(unfold int64_max; lia))).
Defined.

(** The first poll of a task is spread over one interval: the offset derived from the
    task key is at least zero and less than the interval, and zero for no interval. *)
Theorem initial_offset_bound key interval :
  let offset := initialOffsetForKey key interval in
  if 0 <? interval then 0 <= offset < interval else offset = 0.
Proof.
  unfold initialOffsetForKey. destruct (0 <? interval) eqn:E; to_prop.
  - rewrite (proj2 (Z.leb_gt _ _)) by lia. by apply Z.mod_pos_bound.
  - by rewrite (proj2 (Z.leb_le _ _)).
Qed.

(** * Isolation counters

    The per-site, per-subnet and per-profile counters of the scheduler: counting a task in
    and out again is the identity, but the task counted out is the one of the refreshed
    inventory. *)


(** Counter maps never hold a zero. *)
Definition positive (m : gmap string Z) : Prop := map_Forall (λ _ v, 1 <= v) m.

Record counters_positive (c : Counters) : Prop := {
  cp_device : positive (c_byDevice c); cp_site : positive (c_bySite c);
  cp_subnet : positive (c_bySubnet c); cp_profile : positive (c_byProfile c);
  cp_essDevice : positive (c_essByDevice c); cp_essSite : positive (c_essBySite c);
  cp_essSubnet : positive (c_essBySubnet c); cp_essProfile : positive (c_essByProfile c) }.

Lemma positive_get m k : positive m → 0 <= m.[k].
Proof. intros Hm. unfold map_get. destruct (m !! k) as [v|] eqn:E; simpl; [specialize (Hm k v E); simpl in Hm|]; lia. Qed.

Lemma positive_ext m m' : positive m → positive m' → (∀ k, m.[k] = m'.[k]) → m = m'.
Proof.
  intros Hm Hm' He. apply map_eq. intros k. specialize (He k). unfold map_get in He.
  destruct (m !! k) as [v|] eqn:E, (m' !! k) as [v'|] eqn:E'; simpl in He; subst; try done.
  - specialize (Hm k _ E). simpl in Hm. lia.
  - specialize (Hm' k _ E'). simpl in Hm'. lia.
Qed.

(** How often a key that is counted occurs. *)
Definition counted (k : string) (keys : list string) : Z :=
  foldr (λ x n, if decide (x = k ∧ x ≠ "") then n + 1 else n) 0 keys.

Lemma counted_nonneg k keys : 0 <= counted k keys.
Proof. induction keys as [|x keys IH]; simpl; [lia|]. case_decide; lia. Qed.

Lemma increment_positive m x : positive m → positive (incrementCount m x).
Proof.
  intros Hm. unfold incrementCount. destruct (String.eqb x ""); [done|]. intros k v.
  rewrite lookup_insert. case_decide; [|by apply Hm]. intros [= <-]. pose proof (positive_get m x Hm). lia.
Qed.

Lemma decrement_positive m x : positive m → positive (decrementCount m x).
Proof.
  intros Hm. unfold decrementCount. destruct (String.eqb x ""); [done|]. destruct (_ <=? 1) eqn:E; to_prop.
  - by apply map_Forall_delete.
  - intros k v. rewrite lookup_insert. case_decide; [|by apply Hm]. intros [= <-]. lia.
Qed.

Lemma increment_get m x k : (incrementCount m x).[k] = m.[k] + counted k [x].
Proof.
  unfold incrementCount, counted. simpl. destruct (String.eqb_spec x "") as [->|Hx].
  - rewrite decide_False by tauto. lia.
  - rewrite get_insert. case_decide; [subst; rewrite decide_True by done|rewrite decide_False by tauto]; lia.
Qed.

Lemma decrement_get m x k : positive m → (decrementCount m x).[k] = Z.max 0 (m.[k] - counted k [x]).
Proof.
  intros Hm. pose proof (positive_get m k Hm). unfold decrementCount, counted. simpl. destruct (String.eqb_spec x "") as [->|Hx].
  - rewrite decide_False by tauto. lia.
  - destruct (_ <=? 1) eqn:E; to_prop; rewrite ?get_delete, ?get_insert;
      (case_decide; [subst; rewrite decide_True by done|rewrite decide_False by tauto]); lia.
Qed.

Lemma foldl_increment m keys :
  positive m → positive (foldl incrementCount m keys) ∧ ∀ k, (foldl incrementCount m keys).[k] = m.[k] + counted k keys.
Proof.
  revert m. induction keys as [|x keys IH]; intros m Hm; [split; [done|]; intros; simpl; lia|]. cbn [foldl].
  destruct (IH _ (increment_positive m x Hm)) as [Hp Hg]. split; [done|]. intros k. rewrite Hg, increment_get.
  simpl. case_decide; lia.
Qed.

Lemma foldl_decrement m keys :
  positive m →
  positive (foldl decrementCount m keys) ∧ ∀ k, (foldl decrementCount m keys).[k] = Z.max 0 (m.[k] - counted k keys).
Proof.
  revert m. induction keys as [|x keys IH]; intros m Hm; [split; [done|]; intros; simpl; pose proof (positive_get m k Hm); lia|].
  cbn [foldl]. destruct (IH _ (decrement_positive m x Hm)) as [Hp Hg]. split; [done|]. intros k.
  rewrite Hg, decrement_get by done. pose proof (counted_nonneg k keys). simpl. case_decide; lia.
Qed.

Lemma keys_round_trip m keys : positive m → foldl decrementCount (foldl incrementCount m keys) keys = m.
Proof.
  intros Hm. destruct (foldl_increment m keys Hm) as [Hp Hg]. destruct (foldl_decrement _ keys Hp) as [Hp' Hg'].
  apply positive_ext; try done. intros k. rewrite Hg', Hg. pose proof (positive_get m k Hm). lia.
Qed.

Lemma key_round_trip m x : positive m → decrementCount (incrementCount m x) x = m.
Proof. apply (keys_round_trip m [x]). Qed.

(** Counting a task in and the same task out again restores every isolation counter:
    devices, sites (even listed twice), subnets and credential profiles, in total and for
    essential work. *)
Theorem isolation_round_trip task c :
  counters_positive c → decrementIsolationCounts task (incrementIsolationCounts task c) = c.
Proof.
  intros [A B C D E F G H]. unfold decrementIsolationCounts, incrementIsolationCounts, isolationCounts. destruct c. cbn in *.
  case_decide; cbn; rewrite ?keys_round_trip, ?key_round_trip by done; done.
Qed.

Lemma isolation_round_trip_witness :
  decrementIsolationCounts (item_task (item_at s_demo1 0%nat))
    (incrementIsolationCounts (item_task (item_at s_demo1 0%nat)) zeroCounters) = zeroCounters.
Proof. apply isolation_round_trip. split; intros k v; vm_compute; discriminate. Defined.

(** ** A device that changes while it is polled *)

(** Router 1 is moved from site 7 to site 8 while its essential task is in flight; then both polls complete. *)
Definition moved_r1 : Device := router 1 "10.0.0.1" [8].
Definition s_moved : Sched := run_refresh (env_at (t1 + Second) [moved_r1; r2]) s_demo1.
Definition finish_all (s : Sched) : Sched :=
  foldl (λ s t, handleCompletion (env_at (t1 + 2 * Second) []) (completion_of t (t1 + 2 * Second)) s) s (s_tasks s).

(** The site counter leaks when the inventory changes under a poll: the dispatch counts
    the sites of the device as it was, the completion those of the refreshed device.  After
    both polls have completed nothing is in flight, yet site 7 still counts one worker. *)
Theorem isolation_counter_leak :
  c_inFlight (s_counters (finish_all s_moved)) = 0 ∧ (c_bySite (s_counters (finish_all s_moved))).[taskSiteKey 7] = 1 ∧
  (c_bySite (s_counters (finish_all s_demo1))).[taskSiteKey 7] = 0.
Proof. vm_compute. split_and!; reflexivity. Qed.
