(* ===== verification/StateStore.v ===== *)
(** * The live device state store

    [internal/state/health.go] and [internal/state/store.go]: per-metric hysteresis, health
    aggregation, reachability, staleness, and the bounded channel of changes.  A Go map that
    may be [nil] is an empty map: the code only tests its length. *)

From S2P Require Import Prelude GoLib Domain.

(** ** Vocabulary; the [None] constructors are the zero values *)

Inductive HealthStatus := HealthNone | HealthStatusHealthy | HealthStatusWarning | HealthStatusCritical | HealthStatusUnknown.
Inductive ReachabilityStatus := ReachabilityNone | ReachabilityUnknown | ReachabilityUp | ReachabilitySoftDown | ReachabilityHardDown.
Inductive MetricSeverity := MetricSeverityNone | MetricSeverityOK | MetricSeverityWarning | MetricSeverityCritical.
Inductive TriState := TriStateNone | TriStateTrue | TriStateFalse | TriStateUnknown.
Inductive FieldState := FieldStateNone | FieldStateOK | FieldStateMissing | FieldStateError | FieldStateStale.
Inductive PollStatus := PollStatusNone | PollStatusComplete | PollStatusPartial | PollStatusFailed.
Inductive PrimaryHealth :=
| PrimaryHealthNone | PrimaryHealthProbing | PrimaryHealthUpFresh | PrimaryHealthUpStale
| PrimaryHealthSNMPDegraded | PrimaryHealthUnreachable | PrimaryHealthQuarantined.
Inductive RuntimeFlag :=
| FlagDeadlineMissed | FlagOverloaded | FlagBackgroundPending | FlagPartialTelemetry
| FlagDegradedRisk | FlagPersistenceLagging.

#[export] Instance HealthStatus_eq_dec : EqDecision HealthStatus. Proof. solve_decision. Defined.
#[export] Instance ReachabilityStatus_eq_dec : EqDecision ReachabilityStatus. Proof. solve_decision. Defined.
#[export] Instance MetricSeverity_eq_dec : EqDecision MetricSeverity. Proof. solve_decision. Defined.
#[export] Instance TriState_eq_dec : EqDecision TriState. Proof. solve_decision. Defined.
#[export] Instance FieldState_eq_dec : EqDecision FieldState. Proof. solve_decision. Defined.
#[export] Instance PollStatus_eq_dec : EqDecision PollStatus. Proof. solve_decision. Defined.
#[export] Instance PrimaryHealth_eq_dec : EqDecision PrimaryHealth. Proof. solve_decision. Defined.
#[export] Instance RuntimeFlag_eq_dec : EqDecision RuntimeFlag. Proof. solve_decision. Defined.
#[export] Instance RuntimeFlag_countable : Countable RuntimeFlag.
Proof.
  apply (inj_countable'
    (λ f, match f with FlagDeadlineMissed => 0 | FlagOverloaded => 1 | FlagBackgroundPending => 2
          | FlagPartialTelemetry => 3 | FlagDegradedRisk => 4 | FlagPersistenceLagging => 5 end)%nat
    (λ n, match n with O => FlagDeadlineMissed | 1 => FlagOverloaded | 2 => FlagBackgroundPending
          | 3 => FlagPartialTelemetry | 4 => FlagDegradedRisk | _ => FlagPersistenceLagging end%nat)).
  by intros [].
Defined.

Record DeviceMetrics := mkDeviceMetrics {
  dm_DeviceID : UUID;
  dm_CPUPercent : option float64;
  dm_MemPercent : option float64;
  dm_TempCelsius : option float64;
  dm_UptimeSecs : option float64;
  dm_CollectedAt : Time }.

Record LinkMetrics := mkLinkMetrics {
  lm_LinkID : string;
  lm_DeviceID : UUID;
  lm_IfName : string;
  lm_TxBps : option float64;
  lm_RxBps : option float64;
  lm_Utilization : option float64;
  lm_CollectedAt : Time }.

Record NetworkProbeResult := mkProbe { pr_Port : Z; pr_Reachable : bool; pr_Error : string }.
#[export] Instance NetworkProbeResult_eq_dec : EqDecision NetworkProbeResult. Proof. solve_decision. Defined.

Record DeviceState := mkDeviceState {
  ds_Metrics : DeviceMetrics;
  ds_LinkMetrics : list LinkMetrics;
  ds_Health : HealthStatus;
  ds_CPUSeverity : MetricSeverity;
  ds_MemSeverity : MetricSeverity;
  ds_TempSeverity : MetricSeverity;
  ds_Reachability : ReachabilityStatus;
  ds_ConsecutiveFailures : Z;
  ds_PrimaryHealth : PrimaryHealth;
  ds_NetworkReachable : TriState;
  ds_SNMPReachable : TriState;
  ds_NetworkReachabilityResults : list NetworkProbeResult;
  ds_FieldStates : gmap string FieldState;
  ds_RuntimeFlags : gmap RuntimeFlag bool;
  ds_Stale : bool;
  ds_LastPolledAt : Time;
  ds_ExpectedInterval : Duration }.

#[export] Instance upd_ds_Metrics : Update ds_Metrics := λ v r,
  mkDeviceState v (ds_LinkMetrics r) (ds_Health r) (ds_CPUSeverity r) (ds_MemSeverity r) (ds_TempSeverity r) (ds_Reachability r) (ds_ConsecutiveFailures r) (ds_PrimaryHealth r) (ds_NetworkReachable r) (ds_SNMPReachable r) (ds_NetworkReachabilityResults r) (ds_FieldStates r) (ds_RuntimeFlags r) (ds_Stale r) (ds_LastPolledAt r) (ds_ExpectedInterval r).
#[export] Instance upd_ds_LinkMetrics : Update ds_LinkMetrics := λ v r,
  mkDeviceState (ds_Metrics r) v (ds_Health r) (ds_CPUSeverity r) (ds_MemSeverity r) (ds_TempSeverity r) (ds_Reachability r) (ds_ConsecutiveFailures r) (ds_PrimaryHealth r) (ds_NetworkReachable r) (ds_SNMPReachable r) (ds_NetworkReachabilityResults r) (ds_FieldStates r) (ds_RuntimeFlags r) (ds_Stale r) (ds_LastPolledAt r) (ds_ExpectedInterval r).
#[export] Instance upd_ds_Health : Update ds_Health := λ v r,
  mkDeviceState (ds_Metrics r) (ds_LinkMetrics r) v (ds_CPUSeverity r) (ds_MemSeverity r) (ds_TempSeverity r) (ds_Reachability r) (ds_ConsecutiveFailures r) (ds_PrimaryHealth r) (ds_NetworkReachable r) (ds_SNMPReachable r) (ds_NetworkReachabilityResults r) (ds_FieldStates r) (ds_RuntimeFlags r) (ds_Stale r) (ds_LastPolledAt r) (ds_ExpectedInterval r).
#[export] Instance upd_ds_CPUSeverity : Update ds_CPUSeverity := λ v r,
  mkDeviceState (ds_Metrics r) (ds_LinkMetrics r) (ds_Health r) v (ds_MemSeverity r) (ds_TempSeverity r) (ds_Reachability r) (ds_ConsecutiveFailures r) (ds_PrimaryHealth r) (ds_NetworkReachable r) (ds_SNMPReachable r) (ds_NetworkReachabilityResults r) (ds_FieldStates r) (ds_RuntimeFlags r) (ds_Stale r) (ds_LastPolledAt r) (ds_ExpectedInterval r).
#[export] Instance upd_ds_MemSeverity : Update ds_MemSeverity := λ v r,
  mkDeviceState (ds_Metrics r) (ds_LinkMetrics r) (ds_Health r) (ds_CPUSeverity r) v (ds_TempSeverity r) (ds_Reachability r) (ds_ConsecutiveFailures r) (ds_PrimaryHealth r) (ds_NetworkReachable r) (ds_SNMPReachable r) (ds_NetworkReachabilityResults r) (ds_FieldStates r) (ds_RuntimeFlags r) (ds_Stale r) (ds_LastPolledAt r) (ds_ExpectedInterval r).
#[export] Instance upd_ds_TempSeverity : Update ds_TempSeverity := λ v r,
  mkDeviceState (ds_Metrics r) (ds_LinkMetrics r) (ds_Health r) (ds_CPUSeverity r) (ds_MemSeverity r) v (ds_Reachability r) (ds_ConsecutiveFailures r) (ds_PrimaryHealth r) (ds_NetworkReachable r) (ds_SNMPReachable r) (ds_NetworkReachabilityResults r) (ds_FieldStates r) (ds_RuntimeFlags r) (ds_Stale r) (ds_LastPolledAt r) (ds_ExpectedInterval r).
#[export] Instance upd_ds_Reachability : Update ds_Reachability := λ v r,
  mkDeviceState (ds_Metrics r) (ds_LinkMetrics r) (ds_Health r) (ds_CPUSeverity r) (ds_MemSeverity r) (ds_TempSeverity r) v (ds_ConsecutiveFailures r) (ds_PrimaryHealth r) (ds_NetworkReachable r) (ds_SNMPReachable r) (ds_NetworkReachabilityResults r) (ds_FieldStates r) (ds_RuntimeFlags r) (ds_Stale r) (ds_LastPolledAt r) (ds_ExpectedInterval r).
#[export] Instance upd_ds_ConsecutiveFailures : Update ds_ConsecutiveFailures := λ v r,
  mkDeviceState (ds_Metrics r) (ds_LinkMetrics r) (ds_Health r) (ds_CPUSeverity r) (ds_MemSeverity r) (ds_TempSeverity r) (ds_Reachability r) v (ds_PrimaryHealth r) (ds_NetworkReachable r) (ds_SNMPReachable r) (ds_NetworkReachabilityResults r) (ds_FieldStates r) (ds_RuntimeFlags r) (ds_Stale r) (ds_LastPolledAt r) (ds_ExpectedInterval r).
#[export] Instance upd_ds_PrimaryHealth : Update ds_PrimaryHealth := λ v r,
  mkDeviceState (ds_Metrics r) (ds_LinkMetrics r) (ds_Health r) (ds_CPUSeverity r) (ds_MemSeverity r) (ds_TempSeverity r) (ds_Reachability r) (ds_ConsecutiveFailures r) v (ds_NetworkReachable r) (ds_SNMPReachable r) (ds_NetworkReachabilityResults r) (ds_FieldStates r) (ds_RuntimeFlags r) (ds_Stale r) (ds_LastPolledAt r) (ds_ExpectedInterval r).
#[export] Instance upd_ds_NetworkReachable : Update ds_NetworkReachable := λ v r,
  mkDeviceState (ds_Metrics r) (ds_LinkMetrics r) (ds_Health r) (ds_CPUSeverity r) (ds_MemSeverity r) (ds_TempSeverity r) (ds_Reachability r) (ds_ConsecutiveFailures r) (ds_PrimaryHealth r) v (ds_SNMPReachable r) (ds_NetworkReachabilityResults r) (ds_FieldStates r) (ds_RuntimeFlags r) (ds_Stale r) (ds_LastPolledAt r) (ds_ExpectedInterval r).
#[export] Instance upd_ds_SNMPReachable : Update ds_SNMPReachable := λ v r,
  mkDeviceState (ds_Metrics r) (ds_LinkMetrics r) (ds_Health r) (ds_CPUSeverity r) (ds_MemSeverity r) (ds_TempSeverity r) (ds_Reachability r) (ds_ConsecutiveFailures r) (ds_PrimaryHealth r) (ds_NetworkReachable r) v (ds_NetworkReachabilityResults r) (ds_FieldStates r) (ds_RuntimeFlags r) (ds_Stale r) (ds_LastPolledAt r) (ds_ExpectedInterval r).
#[export] Instance upd_ds_NetworkReachabilityResults : Update ds_NetworkReachabilityResults := λ v r,
  mkDeviceState (ds_Metrics r) (ds_LinkMetrics r) (ds_Health r) (ds_CPUSeverity r) (ds_MemSeverity r) (ds_TempSeverity r) (ds_Reachability r) (ds_ConsecutiveFailures r) (ds_PrimaryHealth r) (ds_NetworkReachable r) (ds_SNMPReachable r) v (ds_FieldStates r) (ds_RuntimeFlags r) (ds_Stale r) (ds_LastPolledAt r) (ds_ExpectedInterval r).
#[export] Instance upd_ds_FieldStates : Update ds_FieldStates := λ v r,
  mkDeviceState (ds_Metrics r) (ds_LinkMetrics r) (ds_Health r) (ds_CPUSeverity r) (ds_MemSeverity r) (ds_TempSeverity r) (ds_Reachability r) (ds_ConsecutiveFailures r) (ds_PrimaryHealth r) (ds_NetworkReachable r) (ds_SNMPReachable r) (ds_NetworkReachabilityResults r) v (ds_RuntimeFlags r) (ds_Stale r) (ds_LastPolledAt r) (ds_ExpectedInterval r).
#[export] Instance upd_ds_RuntimeFlags : Update ds_RuntimeFlags := λ v r,
  mkDeviceState (ds_Metrics r) (ds_LinkMetrics r) (ds_Health r) (ds_CPUSeverity r) (ds_MemSeverity r) (ds_TempSeverity r) (ds_Reachability r) (ds_ConsecutiveFailures r) (ds_PrimaryHealth r) (ds_NetworkReachable r) (ds_SNMPReachable r) (ds_NetworkReachabilityResults r) (ds_FieldStates r) v (ds_Stale r) (ds_LastPolledAt r) (ds_ExpectedInterval r).
#[export] Instance upd_ds_Stale : Update ds_Stale := λ v r,
  mkDeviceState (ds_Metrics r) (ds_LinkMetrics r) (ds_Health r) (ds_CPUSeverity r) (ds_MemSeverity r) (ds_TempSeverity r) (ds_Reachability r) (ds_ConsecutiveFailures r) (ds_PrimaryHealth r) (ds_NetworkReachable r) (ds_SNMPReachable r) (ds_NetworkReachabilityResults r) (ds_FieldStates r) (ds_RuntimeFlags r) v (ds_LastPolledAt r) (ds_ExpectedInterval r).
#[export] Instance upd_ds_LastPolledAt : Update ds_LastPolledAt := λ v r,
  mkDeviceState (ds_Metrics r) (ds_LinkMetrics r) (ds_Health r) (ds_CPUSeverity r) (ds_MemSeverity r) (ds_TempSeverity r) (ds_Reachability r) (ds_ConsecutiveFailures r) (ds_PrimaryHealth r) (ds_NetworkReachable r) (ds_SNMPReachable r) (ds_NetworkReachabilityResults r) (ds_FieldStates r) (ds_RuntimeFlags r) (ds_Stale r) v (ds_ExpectedInterval r).
#[export] Instance upd_ds_ExpectedInterval : Update ds_ExpectedInterval := λ v r,
  mkDeviceState (ds_Metrics r) (ds_LinkMetrics r) (ds_Health r) (ds_CPUSeverity r) (ds_MemSeverity r) (ds_TempSeverity r) (ds_Reachability r) (ds_ConsecutiveFailures r) (ds_PrimaryHealth r) (ds_NetworkReachable r) (ds_SNMPReachable r) (ds_NetworkReachabilityResults r) (ds_FieldStates r) (ds_RuntimeFlags r) (ds_Stale r) (ds_LastPolledAt r) v.
#[export] Instance upd_dm_DeviceID : Update dm_DeviceID := λ v r,
  mkDeviceMetrics v (dm_CPUPercent r) (dm_MemPercent r) (dm_TempCelsius r) (dm_UptimeSecs r) (dm_CollectedAt r).
#[export] Instance upd_dm_CPUPercent : Update dm_CPUPercent := λ v r,
  mkDeviceMetrics (dm_DeviceID r) v (dm_MemPercent r) (dm_TempCelsius r) (dm_UptimeSecs r) (dm_CollectedAt r).
#[export] Instance upd_dm_MemPercent : Update dm_MemPercent := λ v r,
  mkDeviceMetrics (dm_DeviceID r) (dm_CPUPercent r) v (dm_TempCelsius r) (dm_UptimeSecs r) (dm_CollectedAt r).
#[export] Instance upd_dm_TempCelsius : Update dm_TempCelsius := λ v r,
  mkDeviceMetrics (dm_DeviceID r) (dm_CPUPercent r) (dm_MemPercent r) v (dm_UptimeSecs r) (dm_CollectedAt r).
#[export] Instance upd_dm_UptimeSecs : Update dm_UptimeSecs := λ v r,
  mkDeviceMetrics (dm_DeviceID r) (dm_CPUPercent r) (dm_MemPercent r) (dm_TempCelsius r) v (dm_CollectedAt r).
#[export] Instance upd_dm_CollectedAt : Update dm_CollectedAt := λ v r,
  mkDeviceMetrics (dm_DeviceID r) (dm_CPUPercent r) (dm_MemPercent r) (dm_TempCelsius r) (dm_UptimeSecs r) v.

Record EssentialUpdate := {
  eu_PollStatus : PollStatus;
  eu_NetworkReachable : TriState;
  eu_NetworkReachabilityResults : list NetworkProbeResult;
  eu_SNMPReachable : TriState;
  eu_Uptime : FieldState;
  eu_CPU : FieldState;
  eu_Memory : FieldState;
  eu_DeadlineMissed : bool;
  eu_Overloaded : bool }.

Record StateUpdate := {
  su_DeviceID : UUID;
  su_VolatilityClass : VolatilityClass;
  su_Metrics : option DeviceMetrics;
  su_LinkMetrics : list LinkMetrics;
  su_PollSuccess : bool;
  su_ExpectedInterval : Duration;
  su_Timestamp : Time;
  su_Essential : option EssentialUpdate }.

Definition zeroMetrics : DeviceMetrics := mkDeviceMetrics uuid_Nil None None None None 0.
Definition zeroDeviceState : DeviceState :=
  mkDeviceState zeroMetrics [] HealthNone MetricSeverityNone MetricSeverityNone MetricSeverityNone ReachabilityNone 0
    PrimaryHealthNone TriStateNone TriStateNone [] ∅ ∅ false 0 0.

(** ** Health *)

Record ThresholdConfig := { WarnRise : float64; WarnFall : float64; CriticalRise : float64; CriticalFall : float64 }.

Definition defaultThreshold : ThresholdConfig :=
  {| WarnRise := f64_of_Z 70; WarnFall := f64_of_Z 60; CriticalRise := f64_of_Z 90; CriticalFall := f64_of_Z 80 |}.

Definition evaluateMetricSeverity (value : float64) (current : MetricSeverity) (threshold : ThresholdConfig) : MetricSeverity :=
  if f64_is_nan value then current
  else match current with
  | MetricSeverityWarning =>
    if f64_ge value (CriticalRise threshold) then MetricSeverityCritical
    else if f64_lt value (WarnFall threshold) then MetricSeverityOK else MetricSeverityWarning
  | MetricSeverityCritical =>
    if f64_lt value (WarnFall threshold) then MetricSeverityOK
    else if f64_lt value (CriticalFall threshold) then MetricSeverityWarning else MetricSeverityCritical
  | _ =>
    if f64_ge value (CriticalRise threshold) then MetricSeverityCritical
    else if f64_ge value (WarnRise threshold) then MetricSeverityWarning else MetricSeverityOK
  end.

(** The loop of [aggregateHealth]: the scan stops at the first critical severity. *)
Fixpoint aggregate_loop (severities : list MetricSeverity) (hasWarning allEmpty : bool) : HealthStatus :=
  match severities with
  | [] => if allEmpty then HealthStatusUnknown else if hasWarning then HealthStatusWarning else HealthStatusHealthy
  | s :: rest =>
    if bool_decide (s = MetricSeverityCritical) then HealthStatusCritical
    else aggregate_loop rest (hasWarning || bool_decide (s = MetricSeverityWarning))
           (allEmpty && bool_decide (s = MetricSeverityNone))
  end.
Definition aggregateHealth (cpu mem temp : MetricSeverity) : HealthStatus := aggregate_loop [cpu; mem; temp] false true.

Definition severity_of (value : option float64) (current : MetricSeverity) : MetricSeverity :=
  match value with Some v => evaluateMetricSeverity v current defaultThreshold | None => current end.

Definition evaluateHealth (state : DeviceState) (metrics : option DeviceMetrics) : DeviceState :=
  let state := match metrics with
    | None => state
    | Some m => state <| ds_CPUSeverity := severity_of (dm_CPUPercent m) (ds_CPUSeverity state) |>
                      <| ds_MemSeverity := severity_of (dm_MemPercent m) (ds_MemSeverity state) |>
                      <| ds_TempSeverity := severity_of (dm_TempCelsius m) (ds_TempSeverity state) |>
    end in
  state <| ds_Health := aggregateHealth (ds_CPUSeverity state) (ds_MemSeverity state) (ds_TempSeverity state) |>.

(** ** Updates of one device *)

(** [if p != nil { dst = clone(p) }] *)
Definition or_keep {A} (v old : option A) : option A := match v with Some _ => v | None => old end.

Definition applyFreshnessMetadata (next : DeviceState) (u : StateUpdate) : DeviceState :=
  let next := next <| ds_LastPolledAt := su_Timestamp u |> in
  let next := if 0 <? su_ExpectedInterval u then next <| ds_ExpectedInterval := su_ExpectedInterval u |> else next in
  next <| ds_Stale := false |>.

Definition isDownReachability (r : ReachabilityStatus) : bool :=
  bool_decide (r = ReachabilitySoftDown) || bool_decide (r = ReachabilityHardDown).

Definition essentialNetworkReachability (e : EssentialUpdate) : TriState :=
  if negb (bool_decide (eu_NetworkReachable e = TriStateUnknown)) then eu_NetworkReachable e
  else match eu_NetworkReachabilityResults e with
  | [] => TriStateUnknown
  | results => if existsb pr_Reachable results then TriStateTrue else TriStateFalse
  end.

Definition mergeEssentialFieldState (observed : FieldState) (existingValue : option float64) : FieldState :=
  match existingValue with
  | Some _ => if bool_decide (observed = FieldStateMissing) then FieldStateOK else observed
  | None => observed
  end.

Definition mergeEssentialFieldStates (prev : gmap string FieldState) (m : DeviceMetrics) (e : EssentialUpdate)
  : gmap string FieldState :=
  <["memory"%string := mergeEssentialFieldState (eu_Memory e) (dm_MemPercent m)]>
  (<["cpu"%string := mergeEssentialFieldState (eu_CPU e) (dm_CPUPercent m)]>
  (<["uptime"%string := mergeEssentialFieldState (eu_Uptime e) (dm_UptimeSecs m)]>
  (prev ∪ <["memory"%string := FieldStateMissing]> (<["cpu"%string := FieldStateMissing]>
          (<["uptime"%string := FieldStateMissing]> ∅))))).

Definition field_get (fields : gmap string FieldState) (key : string) : FieldState := default FieldStateNone (fields !! key).

Definition hasPartialTelemetryFields (fields : gmap string FieldState) : bool :=
  existsb (λ key, negb (bool_decide (field_get fields key = FieldStateOK))) ["uptime"; "cpu"; "memory"]%string.

Definition cloneRuntimeFlags (flags : gmap RuntimeFlag bool) : gmap RuntimeFlag bool :=
  filter (λ kv, kv.2 = true) flags.
Definition setFlag (flags : gmap RuntimeFlag bool) (flag : RuntimeFlag) (enabled : bool) : gmap RuntimeFlag bool :=
  if enabled then <[flag := true]> flags else delete flag flags.

(** The metrics merge of [applyEssentialUpdate]; temperature is not essential telemetry. *)
Definition merge_essential_metrics (id : UUID) (m old : DeviceMetrics) : DeviceMetrics :=
  old <| dm_DeviceID := id |> <| dm_CPUPercent := or_keep (dm_CPUPercent m) (dm_CPUPercent old) |>
      <| dm_MemPercent := or_keep (dm_MemPercent m) (dm_MemPercent old) |>
      <| dm_UptimeSecs := or_keep (dm_UptimeSecs m) (dm_UptimeSecs old) |>
      <| dm_CollectedAt := dm_CollectedAt m |>.

(** The reachability switch at the end of [applyEssentialUpdate]. *)
Definition essential_reachability (networkReachable snmpReachable : TriState) (prev next : DeviceState) : DeviceState :=
  match networkReachable with
  | TriStateTrue =>
    next <| ds_ConsecutiveFailures := 0 |> <| ds_Reachability := ReachabilityUp |>
         <| ds_PrimaryHealth := if bool_decide (snmpReachable = TriStateFalse)
                                then PrimaryHealthSNMPDegraded else PrimaryHealthUpFresh |>
  | TriStateFalse =>
    let failures := ds_ConsecutiveFailures prev + 1 in
    next <| ds_ConsecutiveFailures := failures |>
         <| ds_Reachability := if 3 <=? failures then ReachabilityHardDown else ReachabilitySoftDown |>
         <| ds_PrimaryHealth := PrimaryHealthUnreachable |>
  | _ =>
    if isDownReachability (ds_Reachability prev) then
      let next := next <| ds_ConsecutiveFailures := ds_ConsecutiveFailures prev |>
                       <| ds_Reachability := ds_Reachability prev |> in
      let next := if bool_decide (ds_NetworkReachable prev = TriStateFalse)
                  then next <| ds_NetworkReachable := TriStateFalse |> else next in
      next <| ds_PrimaryHealth := PrimaryHealthUnreachable |>
    else
      next <| ds_ConsecutiveFailures := 0 |>
           <| ds_Reachability := if bool_decide (ds_Reachability prev = ReachabilityUp)
                                 then ReachabilityUp else ReachabilityUnknown |>
           <| ds_PrimaryHealth := if bool_decide (snmpReachable = TriStateFalse)
                                  then PrimaryHealthSNMPDegraded else PrimaryHealthProbing |>
  end.

Definition applyEssentialUpdate (next prev : DeviceState) (u : StateUpdate) (e : EssentialUpdate) : DeviceState :=
  let next := applyFreshnessMetadata next u in
  let networkReachable := essentialNetworkReachability e in
  let next :=
    if negb (bool_decide (networkReachable = TriStateUnknown))
       || (0 <? Z.of_nat (length (eu_NetworkReachabilityResults e)))
    then next <| ds_NetworkReachable := networkReachable |>
              <| ds_NetworkReachabilityResults := eu_NetworkReachabilityResults e |>
    else next in
  let next := next <| ds_SNMPReachable := eu_SNMPReachable e |> in
  let flags := cloneRuntimeFlags (ds_RuntimeFlags prev) in
  let flags := setFlag flags FlagDeadlineMissed (eu_DeadlineMissed e) in
  let flags := setFlag flags FlagOverloaded (eu_Overloaded e) in
  let next := match su_Metrics u with
              | Some m => next <| ds_Metrics := merge_essential_metrics (su_DeviceID u) m (ds_Metrics next) |>
              | None => next
              end in
  let next := next <| ds_FieldStates := mergeEssentialFieldStates (ds_FieldStates prev) (ds_Metrics next) e |> in
  let flags := setFlag flags FlagPartialTelemetry
    (bool_decide (eu_PollStatus e = PollStatusPartial) && hasPartialTelemetryFields (ds_FieldStates next)) in
  let next := next <| ds_RuntimeFlags := flags |> in
  essential_reachability networkReachable (eu_SNMPReachable e) prev next.

Definition applyReachabilityUpdate (next prev : DeviceState) (pollSuccess : bool) : DeviceState :=
  if pollSuccess then next <| ds_Reachability := ReachabilityUp |> <| ds_ConsecutiveFailures := 0 |>
  else
    let failures := ds_ConsecutiveFailures prev + 1 in
    next <| ds_ConsecutiveFailures := failures |>
         <| ds_Reachability := if 3 <=? failures then ReachabilityHardDown else ReachabilitySoftDown |>.

Definition markMetricFieldStates (next : DeviceState) (m : DeviceMetrics) : DeviceState :=
  let set (key : string) (v : option float64) (fields : gmap string FieldState) :=
    match v with Some _ => <[key := FieldStateOK]> fields | None => fields end in
  next <| ds_FieldStates := set "memory"%string (dm_MemPercent m)
            (set "cpu"%string (dm_CPUPercent m) (set "uptime"%string (dm_UptimeSecs m) (ds_FieldStates next))) |>.

Definition applyPerformanceUpdate (next : DeviceState) (u : StateUpdate) : DeviceState :=
  if negb (su_PollSuccess u) then next
  else
    let next := match su_LinkMetrics u with [] => next | lm => next <| ds_LinkMetrics := lm |> end in
    match su_Metrics u with
    | None => next
    | Some m =>
      let old := ds_Metrics next in
      let merged := old <| dm_DeviceID := su_DeviceID u |>
                        <| dm_CPUPercent := or_keep (dm_CPUPercent m) (dm_CPUPercent old) |>
                        <| dm_MemPercent := or_keep (dm_MemPercent m) (dm_MemPercent old) |>
                        <| dm_TempCelsius := or_keep (dm_TempCelsius m) (dm_TempCelsius old) |>
                        <| dm_UptimeSecs := or_keep (dm_UptimeSecs m) (dm_UptimeSecs old) |>
                        <| dm_CollectedAt := dm_CollectedAt m |> in
      let next := markMetricFieldStates (next <| ds_Metrics := merged |>) m in
      evaluateHealth next (Some (ds_Metrics next))
    end.

Definition applySNMPFailureOnlyUpdate (next prev : DeviceState) : DeviceState :=
  let next := next <| ds_SNMPReachable := TriStateFalse |> in
  if isDownReachability (ds_Reachability prev) then
    let next := next <| ds_Reachability := ds_Reachability prev |>
                     <| ds_ConsecutiveFailures := ds_ConsecutiveFailures prev |> in
    let next := if bool_decide (ds_NetworkReachable prev = TriStateFalse)
                then next <| ds_NetworkReachable := TriStateFalse |> else next in
    next <| ds_PrimaryHealth := PrimaryHealthUnreachable |>
  else
    next <| ds_ConsecutiveFailures := 0 |>
         <| ds_Reachability := if bool_decide (ds_Reachability prev = ReachabilityUp)
                               then ReachabilityUp else ReachabilityUnknown |>
         <| ds_PrimaryHealth := PrimaryHealthSNMPDegraded |>.

Definition applyOperationalUpdate (next prev : DeviceState) (u : StateUpdate) : DeviceState :=
  let next := if negb (su_PollSuccess u) then applySNMPFailureOnlyUpdate next prev
              else applyReachabilityUpdate (next <| ds_SNMPReachable := TriStateTrue |>) prev (su_PollSuccess u) in
  let next := match su_Metrics u with
              | Some m => match dm_UptimeSecs m with
                          | Some up => next <| ds_Metrics := ds_Metrics next <| dm_DeviceID := su_DeviceID u |>
                                                                            <| dm_UptimeSecs := Some up |> |>
                          | None => next
                          end
              | None => next
              end in
  if bool_decide (ds_Reachability next = ReachabilityUp) then evaluateHealth next (Some (ds_Metrics next)) else next.

Definition applyStaticUpdate (next : DeviceState) (u : StateUpdate) : DeviceState :=
  match su_Metrics u with
  | Some m =>
    if negb (su_PollSuccess u) then next
    else
      let old := ds_Metrics next in
      let merged := old <| dm_DeviceID := su_DeviceID u |>
                        <| dm_CPUPercent := or_keep (dm_CPUPercent m) (dm_CPUPercent old) |>
                        <| dm_MemPercent := or_keep (dm_MemPercent m) (dm_MemPercent old) |>
                        <| dm_TempCelsius := or_keep (dm_TempCelsius m) (dm_TempCelsius old) |>
                        <| dm_CollectedAt := dm_CollectedAt m |> in
      let next := markMetricFieldStates (next <| ds_Metrics := merged |>) m in
      if bool_decide (ds_Reachability next = ReachabilityUp) then evaluateHealth next (Some (ds_Metrics next)) else next
  | None => next
  end.

Definition applyLegacyUpdate (next prev : DeviceState) (existed : bool) (u : StateUpdate) : DeviceState :=
  let next := applyReachabilityUpdate next prev (su_PollSuccess u) in
  if negb (su_PollSuccess u) then next
  else
    let next := match su_LinkMetrics u with [] => next | lm => next <| ds_LinkMetrics := lm |> end in
    match su_Metrics u with
    | Some m => let next := next <| ds_Metrics := m |> in evaluateHealth next (Some (ds_Metrics next))
    | None =>
      let next := next <| ds_Metrics := zeroMetrics |> <| ds_CPUSeverity := MetricSeverityNone |>
                       <| ds_MemSeverity := MetricSeverityNone |> <| ds_TempSeverity := MetricSeverityNone |>
                       <| ds_Health := HealthStatusUnknown |> in
      if negb existed then next <| ds_ConsecutiveFailures := 0 |> else next
    end.

(** The switch of [Store.Update] over the kinds of update. *)
Definition apply_update (prev : DeviceState) (existed : bool) (u : StateUpdate) : DeviceState :=
  match su_Essential u with
  | Some e => applyEssentialUpdate prev prev u e
  | None =>
    match su_VolatilityClass u with
    | VolatilityClassPerformance => applyPerformanceUpdate (applyFreshnessMetadata prev u) u
    | VolatilityClassOperational => applyOperationalUpdate prev prev u
    | VolatilityClassStatic => applyStaticUpdate prev u
    | VolatilityClassNone => applyLegacyUpdate (applyFreshnessMetadata prev u) prev existed u
    end
  end.

(** The new state of the device computed by [Store.Update]. *)
Definition next_state (prev : option DeviceState) (u : StateUpdate) : DeviceState :=
  let next := apply_update (default zeroDeviceState prev) (bool_decide (is_Some prev)) u in
  if bool_decide (ds_Health next = HealthNone) then next <| ds_Health := HealthStatusUnknown |> else next.

(** ** Change detection *)

Definition floatPtrEqual (a b : option float64) : bool :=
  match a, b with
  | None, None => true
  | Some x, Some y => f64_eq x y
  | _, _ => false
  end.

(** Maps with the same number of keys, every entry of [a] read in [b] (absent keys read as the zero value). *)
Definition map_equal {K V} `{Countable K, EqDecision V} (zero : V) (a b : gmap K V) : bool :=
  (size a =? size b)%nat && forallb (λ kv, bool_decide (default zero (b !! kv.1) = kv.2)) (map_to_list a).
Definition fieldStatesEqual : gmap string FieldState → gmap string FieldState → bool := map_equal FieldStateNone.
Definition runtimeFlagsEqual : gmap RuntimeFlag bool → gmap RuntimeFlag bool → bool := map_equal false.

Definition networkProbeResultEqual (a b : list NetworkProbeResult) : bool := bool_decide (a = b).

Definition link_before (x y : LinkMetrics) : bool :=
  if negb (String.eqb (lm_IfName x) (lm_IfName y)) then string_ltb (lm_IfName x) (lm_IfName y)
  else string_ltb (lm_LinkID x) (lm_LinkID y).

(** [sort.Slice]; entries that compare equal keep their order, as the insertion sort used for short slices does. *)
Fixpoint link_insert (x : LinkMetrics) (l : list LinkMetrics) : list LinkMetrics :=
  match l with
  | [] => [x]
  | y :: r => if link_before x y then x :: l else y :: link_insert x r
  end.
Definition link_sort (l : list LinkMetrics) : list LinkMetrics := foldl (λ acc x, link_insert x acc) [] l.

Definition linkMetricEqual (x y : LinkMetrics) : bool :=
  String.eqb (lm_LinkID x) (lm_LinkID y) && (lm_DeviceID x =? lm_DeviceID y) && String.eqb (lm_IfName x) (lm_IfName y)
  && floatPtrEqual (lm_TxBps x) (lm_TxBps y) && floatPtrEqual (lm_RxBps x) (lm_RxBps y)
  && floatPtrEqual (lm_Utilization x) (lm_Utilization y).

Fixpoint forallb2 {A B} (f : A → B → bool) (l : list A) (k : list B) : bool :=
  match l, k with
  | [], [] => true
  | x :: l, y :: k => f x y && forallb2 f l k
  | _, _ => false
  end.

Definition linkMetricsEqual (a b : list LinkMetrics) : bool :=
  (length a =? length b)%nat && forallb2 linkMetricEqual (link_sort a) (link_sort b).

Definition deviceStateEqual (a b : DeviceState) : bool :=
  bool_decide (ds_Health a = ds_Health b)
  && bool_decide (ds_CPUSeverity a = ds_CPUSeverity b) && bool_decide (ds_MemSeverity a = ds_MemSeverity b)
  && bool_decide (ds_TempSeverity a = ds_TempSeverity b)
  && bool_decide (ds_Reachability a = ds_Reachability b)
  && bool_decide (ds_PrimaryHealth a = ds_PrimaryHealth b)
  && bool_decide (ds_NetworkReachable a = ds_NetworkReachable b) && bool_decide (ds_SNMPReachable a = ds_SNMPReachable b)
  && networkProbeResultEqual (ds_NetworkReachabilityResults a) (ds_NetworkReachabilityResults b)
  && fieldStatesEqual (ds_FieldStates a) (ds_FieldStates b) && runtimeFlagsEqual (ds_RuntimeFlags a) (ds_RuntimeFlags b)
  && (ds_ConsecutiveFailures a =? ds_ConsecutiveFailures b)
  && bool_decide (ds_Stale a = ds_Stale b)
  && (ds_ExpectedInterval a =? ds_ExpectedInterval b)
  && floatPtrEqual (dm_CPUPercent (ds_Metrics a)) (dm_CPUPercent (ds_Metrics b))
  && floatPtrEqual (dm_MemPercent (ds_Metrics a)) (dm_MemPercent (ds_Metrics b))
  && floatPtrEqual (dm_TempCelsius (ds_Metrics a)) (dm_TempCelsius (ds_Metrics b))
  && floatPtrEqual (dm_UptimeSecs (ds_Metrics a)) (dm_UptimeSecs (ds_Metrics b))
  && linkMetricsEqual (ds_LinkMetrics a) (ds_LinkMetrics b).

(** ** The store *)

(** [st_changes] is the buffered channel, oldest batch first; [st_dropped] is the total
    reported to the dropped-changes counter. *)
Record Store := mkStore {
  st_devices : gmap UUID DeviceState;
  st_changes : list (list UUID);
  st_overflowed : bool;
  st_started : bool;
  st_dropped : Z }.

#[export] Instance upd_st_devices : Update st_devices := λ v r,
  mkStore v (st_changes r) (st_overflowed r) (st_started r) (st_dropped r).
#[export] Instance upd_st_changes : Update st_changes := λ v r,
  mkStore (st_devices r) v (st_overflowed r) (st_started r) (st_dropped r).
#[export] Instance upd_st_overflowed : Update st_overflowed := λ v r,
  mkStore (st_devices r) (st_changes r) v (st_started r) (st_dropped r).
#[export] Instance upd_st_started : Update st_started := λ v r,
  mkStore (st_devices r) (st_changes r) (st_overflowed r) v (st_dropped r).
#[export] Instance upd_st_dropped : Update st_dropped := λ v r,
  mkStore (st_devices r) (st_changes r) (st_overflowed r) (st_started r) v.

Definition changesCap : nat := 32.
Definition NewStore : Store := mkStore ∅ [] false false 0.

(** One [add] of [coalesceQueuedChanges]: new identifiers up to the limit, the rest is counted as dropped. *)
Definition coalesce_add (limit : nat) (acc : list UUID * nat) (id : UUID) : list UUID * nat :=
  let '(merged, dropped) := acc in
  if decide (id ∈ merged) then (merged, dropped)
  else if (limit <=? length merged)%nat then (merged, S dropped)
  else (merged ++ [id], dropped).

(** The channel is drained of at most [limit] batches, then the new batch is added. *)
Definition coalesceQueuedChanges (ids : list UUID) (st : Store) : list UUID * nat * Store :=
  let drained := take changesCap (st_changes st) in
  let '(merged, dropped) := foldl (coalesce_add changesCap) ([], 0%nat) (concat drained ++ ids) in
  (merged, dropped, st <| st_changes := drop changesCap (st_changes st) |>).

Definition markChangesOverflowed (dropped : nat) (st : Store) : Store :=
  st <| st_overflowed := true |> <| st_dropped := st_dropped st + Z.of_nat dropped |>.

(** [between] is what other goroutines do to the channel between the drain and the second send. *)
Definition emitChanges (between : list (list UUID) → list (list UUID)) (ids : list UUID) (st : Store) : Store :=
  match ids with
  | [] => st
  | _ =>
    if (length (st_changes st) <? changesCap)%nat then st <| st_changes := st_changes st ++ [ids] |>
    else
      let '(merged, dropped, st) := coalesceQueuedChanges ids st in
      let st := st <| st_changes := between (st_changes st) |> in
      let '(st, dropped) :=
        match merged with
        | [] => (st, dropped)
        | _ => if (length (st_changes st) <? changesCap)%nat
               then (st <| st_changes := st_changes st ++ [merged] |>, dropped)
               else (st, (dropped + length merged)%nat)
        end in
      if (0 <? dropped)%nat then markChangesOverflowed dropped st else st
  end.

(** The critical section of [Store.Update]: the new map and the identifiers to emit after the unlock. *)
Definition Update_locked (u : StateUpdate) (st : Store) : Store * list UUID :=
  if su_DeviceID u =? uuid_Nil then (st, [])
  else
    let prev := st_devices st !! su_DeviceID u in
    let next := next_state prev u in
    let changed := match prev with None => true | Some p => negb (deviceStateEqual p next) end in
    (st <| st_devices := <[su_DeviceID u := next]> (st_devices st) |>, if changed then [su_DeviceID u] else []).
Definition Store_Update (between : list (list UUID) → list (list UUID)) (u : StateUpdate) (st : Store) : Store :=
  let '(st, ids) := Update_locked u st in emitChanges between ids st.

Definition Remove_locked (id : UUID) (st : Store) : Store * list UUID :=
  match st_devices st !! id with
  | None => (st, [])
  | Some _ => (st <| st_devices := delete id (st_devices st) |>, [id])
  end.
Definition Remove (between : list (list UUID) → list (list UUID)) (id : UUID) (st : Store) : Store :=
  let '(st, ids) := Remove_locked id st in emitChanges between ids st.

(** The copies are independent of the store; a copy keeps the flags that are set. *)
Definition cloneDeviceState (ds : DeviceState) : DeviceState := ds <| ds_RuntimeFlags := cloneRuntimeFlags (ds_RuntimeFlags ds) |>.

Definition Snapshot (st : Store) : gmap UUID DeviceState := cloneDeviceState <$> st_devices st.
Definition SnapshotFor (ids : list UUID) (st : Store) : gmap UUID DeviceState :=
  foldl (λ out id,
    if id =? uuid_Nil then out
    else if bool_decide (is_Some (out !! id)) then out
    else match st_devices st !! id with None => out | Some ds => <[id := cloneDeviceState ds]> out end) ∅ ids.
Definition GetDevice (id : UUID) (st : Store) : option DeviceState := cloneDeviceState <$> st_devices st !! id.

Definition ConsumeOverflowed (st : Store) : bool * Store := (st_overflowed st, st <| st_overflowed := false |>).

Definition Start (st : Store) : result Store :=
  if st_started st then Err "state store: already started" else Ok (st <| st_started := true |>).
Definition Stop (st : Store) : Store := if st_started st then st <| st_started := false |> else st.

(** ** Staleness *)

Definition is_stale_due (now : Time) (ds : DeviceState) : bool :=
  negb (ds_Stale ds) && (0 <? ds_ExpectedInterval ds)
  && Time_After now (Time_Add (ds_LastPolledAt ds) (Duration_mul 2 (ds_ExpectedInterval ds))).
Definition stale_state (ds : DeviceState) : DeviceState :=
  let ds := ds <| ds_Stale := true |> in
  if bool_decide (ds_PrimaryHealth ds = PrimaryHealthUpFresh) then ds <| ds_PrimaryHealth := PrimaryHealthUpStale |> else ds.

(** The body of the loop over the devices: the updated map and the newly stale identifiers. *)
Definition stale_visit (now : Time) (acc : gmap UUID DeviceState * list UUID) (kd : UUID * DeviceState)
  : gmap UUID DeviceState * list UUID :=
  let '(devices, newlyStale) := acc in
  let '(id, ds) := kd in
  if is_stale_due now ds then (<[id := stale_state ds]> devices, newlyStale ++ [id]) else (devices, newlyStale).

(** [range] is the order in which the map is visited. *)
Definition markStale_locked (range : gmap UUID DeviceState → list (UUID * DeviceState)) (now : Time) (st : Store)
  : Store * list UUID :=
  let '(devices, newlyStale) := foldl (stale_visit now) (st_devices st, []) (range (st_devices st)) in
  (st <| st_devices := devices |>, newlyStale).
Definition markStale (range : gmap UUID DeviceState → list (UUID * DeviceState))
  (between : list (list UUID) → list (list UUID)) (now : Time) (st : Store) : Store :=
  let '(st, ids) := markStale_locked range now st in emitChanges between ids st.
