(* ===== verification/StateSpec.v ===== *)
(** * Properties of the device state store

    Hysteresis, worst-of aggregation, the reachability invariant, staleness, and the
    accounting of the change channel. *)

From Stdlib Require Import Floats.SpecFloat.
From S2P Require Import Prelude GoLib Domain StateStore.

(** ** The order of floating-point numbers *)

(** Position of a number that is not NaN in the order of [SFcompare]. *)
Definition f64_rank (f : float64) : Z * Z * Z :=
  match f with
  | S754_infinity true => (-2, 0, 0)
  | S754_finite true m e => (-1, - e, Z.neg m)
  | S754_zero _ | S754_nan => (0, 0, 0)
  | S754_finite false m e => (1, e, Z.pos m)
  | S754_infinity false => (2, 0, 0)
  end.

Definition rank_lt (a b : Z * Z * Z) : Prop :=
  let '(a1, a2, a3) := a in let '(b1, b2, b3) := b in
  a1 < b1 ∨ a1 = b1 ∧ (a2 < b2 ∨ a2 = b2 ∧ a3 < b3).

Lemma f64_lt_rank a b :
  f64_is_nan a = false → f64_is_nan b = false → f64_lt a b = true ↔ rank_lt (f64_rank a) (f64_rank b).
Proof.
  unfold f64_lt, SFltb. destruct a as [sa|sa| |sa ma ea], b as [sb|sb| |sb mb eb]; simpl; try done; intros _ _;
    try (destruct sa; simpl); try (destruct sb; simpl);
    try (destruct (Z.compare_spec ea eb); simpl); try change (Pos.compare_cont Eq ma mb) with (Pos.compare ma mb); try (destruct (Pos.compare_spec ma mb); simpl);
    split; intros H'; try done; try lia; subst; exfalso; lia.
Qed.

Lemma f64_ge_rank a b :
  f64_is_nan a = false → f64_is_nan b = false → f64_ge a b = true ↔ ¬ rank_lt (f64_rank a) (f64_rank b).
Proof.
  unfold f64_ge, SFleb. destruct a as [sa|sa| |sa ma ea], b as [sb|sb| |sb mb eb]; simpl; try done; intros _ _;
    try (destruct sa; simpl); try (destruct sb; simpl);
    try (destruct (Z.compare_spec eb ea); simpl); try change (Pos.compare_cont Eq mb ma) with (Pos.compare mb ma); try (destruct (Pos.compare_spec mb ma); simpl);
    split; intros H'; try done; try lia; subst; exfalso; lia.
Qed.

(** ** Hysteresis *)

(** The four levels are numbers, in the order the switch relies on. *)
Record thresholds_ok (t : ThresholdConfig) : Prop := {
  th_nan : f64_is_nan (WarnRise t) = false ∧ f64_is_nan (WarnFall t) = false ∧
           f64_is_nan (CriticalRise t) = false ∧ f64_is_nan (CriticalFall t) = false;
  th_warn : f64_ge (WarnRise t) (WarnFall t) = true;
  th_critical : f64_ge (CriticalRise t) (CriticalFall t) = true;
  th_rise : f64_ge (CriticalRise t) (WarnRise t) = true;
  th_fall : f64_ge (CriticalFall t) (WarnFall t) = true }.

Definition severity_rank (s : MetricSeverity) : Z :=
  match s with MetricSeverityNone => 0 | MetricSeverityOK => 0 | MetricSeverityWarning => 1 | MetricSeverityCritical => 2 end.

(** Every float comparison of the context becomes a fact about ranks. *)
Ltac f64_facts :=
  repeat match goal with
  | H : f64_ge ?a ?b = true |- _ => rewrite f64_ge_rank in H by done
  | H : f64_lt ?a ?b = true |- _ => rewrite f64_lt_rank in H by done
  | H : f64_ge ?a ?b = false |- _ => apply not_true_iff_false in H; rewrite f64_ge_rank in H by done
  | H : f64_lt ?a ?b = false |- _ => apply not_true_iff_false in H; rewrite f64_lt_rank in H by done
  end.
Ltac rank_solve :=
  exfalso; f64_facts; unfold rank_lt in *;
  repeat match goal with H : context [f64_rank ?x] |- _ =>
    let a := fresh in let b := fresh in let c := fresh in destruct (f64_rank x) as [[a b] c] end; lia.

Lemma default_thresholds_ok : thresholds_ok defaultThreshold.
Proof. by split; vm_compute. Qed.

Section hysteresis.
Context (t : ThresholdConfig) (Ht : thresholds_ok t).

Lemma evaluate_idem v c : evaluateMetricSeverity v (evaluateMetricSeverity v c t) t = evaluateMetricSeverity v c t.
Proof.
  destruct Ht as [(N1 & N2 & N3 & N4) H1 H2 H3 H4]. unfold evaluateMetricSeverity at 2 3.
  destruct (f64_is_nan v) eqn:Nv; [unfold evaluateMetricSeverity; by rewrite Nv|].
  destruct c; cases; unfold evaluateMetricSeverity; rewrite Nv; cases; try done; rank_solve.
Qed.

Lemma evaluate_mono v v' c :
  f64_is_nan v = false → f64_is_nan v' = false → f64_ge v' v = true →
  severity_rank (evaluateMetricSeverity v c t) <= severity_rank (evaluateMetricSeverity v' c t).
Proof.
  intros Nv Nv' Hle. destruct Ht as [(N1 & N2 & N3 & N4) H1 H2 H3 H4]. unfold evaluateMetricSeverity. rewrite Nv, Nv'.
  destruct c; cases; simpl; try lia; rank_solve.
Qed.

(** Between the fall and the rise level of a step a severity keeps its value. *)
Lemma evaluate_hold v :
  f64_is_nan v = false →
  (f64_ge v (WarnFall t) = true → f64_lt v (WarnRise t) = true →
     evaluateMetricSeverity v MetricSeverityOK t = MetricSeverityOK ∧
     evaluateMetricSeverity v MetricSeverityWarning t = MetricSeverityWarning) ∧
  (f64_ge v (CriticalFall t) = true → f64_lt v (CriticalRise t) = true →
     evaluateMetricSeverity v MetricSeverityWarning t = MetricSeverityWarning ∧
     evaluateMetricSeverity v MetricSeverityCritical t = MetricSeverityCritical).
Proof.
  intros Nv. destruct Ht as [(N1 & N2 & N3 & N4) H1 H2 H3 H4]. unfold evaluateMetricSeverity. rewrite Nv.
  split; intros Hf Hr; split; cases; try done; rank_solve.
Qed.
End hysteresis.

(** ** Worst-of aggregation *)

Definition health_rank (h : HealthStatus) : Z :=
  match h with HealthStatusCritical => 2 | HealthStatusWarning => 1 | _ => 0 end.

Lemma aggregate_spec cpu mem temp (h := aggregateHealth cpu mem temp) :
  health_rank h = Z.max (severity_rank cpu) (Z.max (severity_rank mem) (severity_rank temp)) ∧
  (h = HealthStatusUnknown ↔ cpu = MetricSeverityNone ∧ mem = MetricSeverityNone ∧ temp = MetricSeverityNone) ∧
  h ≠ HealthNone.
Proof. subst h. destruct cpu, mem, temp; vm_compute; intuition congruence. Qed.

(** ** Reachability and health of a device *)

(** The failure count and the reachability of a device agree. *)
Definition reach_ok (ds : DeviceState) : Prop :=
  match ds_Reachability ds with
  | ReachabilitySoftDown => 1 <= ds_ConsecutiveFailures ds <= 2
  | ReachabilityHardDown => 3 <= ds_ConsecutiveFailures ds
  | _ => ds_ConsecutiveFailures ds = 0
  end.

Lemma reach_nonneg ds : reach_ok ds → 0 <= ds_ConsecutiveFailures ds.
Proof. unfold reach_ok. case_match; lia. Qed.

(** What an update may read of the reachability is kept by updates of other fields. *)
Lemma evaluateHealth_reach ds m :
  ds_Reachability (evaluateHealth ds m) = ds_Reachability ds ∧
  ds_ConsecutiveFailures (evaluateHealth ds m) = ds_ConsecutiveFailures ds.
Proof. by destruct m. Qed.

Lemma applyReachabilityUpdate_ok next prev b : reach_ok prev → reach_ok (applyReachabilityUpdate next prev b).
Proof.
  intros H%reach_nonneg. unfold applyReachabilityUpdate. destruct b; [done|]. unfold reach_ok. cbn.
  destruct (3 <=? _) eqn:E; to_prop; lia.
Qed.

Lemma applySNMPFailureOnly_ok next prev : reach_ok prev → reach_ok (applySNMPFailureOnlyUpdate next prev).
Proof.
  unfold applySNMPFailureOnlyUpdate, isDownReachability, reach_ok. intros H.
  destruct (ds_Reachability prev) eqn:E; cbn; repeat case_bool_decide; cbn; try done.
Qed.

Lemma essential_reachability_ok n sn prev next : reach_ok prev → reach_ok (essential_reachability n sn prev next).
Proof.
  intros H. pose proof (reach_nonneg _ H) as Hn. unfold essential_reachability, isDownReachability, reach_ok in *.
  destruct n; cbn; try done.
  - destruct (ds_Reachability prev); cbn; repeat case_bool_decide; cbn; done.
  - destruct (3 <=? _) eqn:E; to_prop; lia.
  - destruct (ds_Reachability prev); cbn; repeat case_bool_decide; cbn; done.
Qed.

Lemma reach_ok_ext a b :
  ds_Reachability b = ds_Reachability a → ds_ConsecutiveFailures b = ds_ConsecutiveFailures a → reach_ok a → reach_ok b.
Proof. unfold reach_ok. by intros -> ->. Qed.

Lemma freshness_reach ds u :
  ds_Reachability (applyFreshnessMetadata ds u) = ds_Reachability ds ∧
  ds_ConsecutiveFailures (applyFreshnessMetadata ds u) = ds_ConsecutiveFailures ds.
Proof. unfold applyFreshnessMetadata. by destruct (0 <? _). Qed.

Lemma apply_update_reach_ok p existed u : reach_ok p → reach_ok (apply_update p existed u).
Proof.
  intros H. unfold apply_update. destruct (su_Essential u) as [e|]; [by apply essential_reachability_ok|].
  destruct (freshness_reach p u) as [F1 F2]. destruct (su_VolatilityClass u).
  - unfold applyLegacyUpdate. pose proof (applyReachabilityUpdate_ok (applyFreshnessMetadata p u) p (su_PollSuccess u) H) as Hr.
    destruct (su_PollSuccess u); [|done]. cbn [negb]. destruct (su_LinkMetrics u), (su_Metrics u), existed; done.
  - unfold applyPerformanceUpdate. assert (Hf : reach_ok (applyFreshnessMetadata p u)) by (by apply (reach_ok_ext p)).
    destruct (negb _); [done|]. destruct (su_LinkMetrics u), (su_Metrics u); exact Hf.
  - unfold applyOperationalUpdate. set (n := if negb _ then _ else _).
    assert (Hn : reach_ok n) by (subst n; destruct (negb _); [by apply applySNMPFailureOnly_ok|by apply applyReachabilityUpdate_ok]).
    destruct (su_Metrics u) as [m|]; [destruct (dm_UptimeSecs m)|]; destruct (bool_decide _); exact Hn.
  - unfold applyStaticUpdate. destruct (su_Metrics u); [|done]. destruct (negb _); [done|].
    destruct (bool_decide _); exact H.
Qed.

Lemma next_state_reach_ok prev u :
  reach_ok (default zeroDeviceState prev) → reach_ok (next_state prev u).
Proof.
  intros H. unfold next_state. pose proof (apply_update_reach_ok _ (bool_decide (is_Some prev)) u H) as Hn.
  destruct (bool_decide (ds_Health _ = _)); [by eapply reach_ok_ext; [| |exact Hn]|done].
Qed.

Lemma next_state_health prev u : ds_Health (next_state prev u) ≠ HealthNone.
Proof. unfold next_state. by case_bool_decide. Qed.

(** Only flags that are set are stored, so that a copy of a state is the state itself. *)
Definition flags_ok (ds : DeviceState) : Prop := map_Forall (λ _ b, b = true) (ds_RuntimeFlags ds).

Lemma setFlag_true flags f b : map_Forall (λ _ b, b = true) flags → map_Forall (λ _ b, b = true) (setFlag flags f b).
Proof. intros H. destruct b; [by apply map_Forall_insert_2|by apply map_Forall_delete]. Qed.

Lemma cloneRuntimeFlags_true flags : map_Forall (λ _ b, b = true) (cloneRuntimeFlags flags).
Proof. intros k v [_ H]%map_lookup_filter_Some. done. Qed.

Lemma cloneDeviceState_id ds : flags_ok ds → cloneDeviceState ds = ds.
Proof.
  intros H. unfold cloneDeviceState, cloneRuntimeFlags. rewrite (map_filter_id (λ kv, kv.2 = true)); [by destruct ds|].
  intros k v Hk. exact (H k v Hk).
Qed.

Lemma essential_reachability_flags n sn prev next : ds_RuntimeFlags (essential_reachability n sn prev next) = ds_RuntimeFlags next.
Proof. unfold essential_reachability. cbv zeta. by repeat case_match. Qed.

Lemma apply_update_flags p existed u : flags_ok p → flags_ok (apply_update p existed u).
Proof.
  intros H. unfold apply_update. destruct (su_Essential u) as [e|].
  { unfold flags_ok, applyEssentialUpdate. cbv zeta. rewrite essential_reachability_flags. cbn [ds_RuntimeFlags upd upd_ds_RuntimeFlags].
    by do 3 apply setFlag_true; apply cloneRuntimeFlags_true. }
  assert (E : ∀ q, ds_RuntimeFlags q = ds_RuntimeFlags p → flags_ok q) by (intros q Hq; unfold flags_ok; by rewrite Hq).
  apply E. destruct (su_VolatilityClass u).
  - by destruct (su_PollSuccess u) eqn:Hp; unfold applyLegacyUpdate, applyFreshnessMetadata, applyReachabilityUpdate; rewrite Hp; cbn [negb];
      [destruct (su_Metrics u), (su_LinkMetrics u), existed, (0 <? _)|destruct (0 <? su_ExpectedInterval u)].
  - unfold applyPerformanceUpdate, applyFreshnessMetadata. destruct (su_PollSuccess u); cbn [negb]; [|by destruct (0 <? _)].
    by destruct (su_Metrics u), (su_LinkMetrics u), (0 <? _).
  - unfold applyOperationalUpdate. cbv zeta. set (q := if negb _ then _ else _).
    assert (Hq : ds_RuntimeFlags q = ds_RuntimeFlags p).
    { subst q. unfold applySNMPFailureOnlyUpdate, applyReachabilityUpdate. destruct (su_PollSuccess u); cbn [negb]; [done|].
      destruct (isDownReachability _); [|done]. cbv zeta. by destruct (bool_decide _). }
    rewrite <- Hq. clearbody q. destruct (su_Metrics u) as [m|]; [destruct (dm_UptimeSecs m)|]; by destruct (bool_decide _).
  - unfold applyStaticUpdate. destruct (su_Metrics u); [|done]. destruct (su_PollSuccess u); cbn [negb]; [|done]. by destruct (bool_decide _).
Qed.

Lemma next_state_flags prev u : flags_ok (default zeroDeviceState prev) → flags_ok (next_state prev u).
Proof.
  intros H. unfold next_state. pose proof (apply_update_flags _ (bool_decide (is_Some prev)) u H) as Hn.
  by destruct (bool_decide (ds_Health _ = _)).
Qed.

(** ** The store *)

Record device_ok (ds : DeviceState) : Prop := {
  dk_reach : reach_ok ds;
  dk_health : ds_Health ds ≠ HealthNone;
  dk_flags : flags_ok ds }.

Lemma zero_flags_ok : flags_ok zeroDeviceState.
Proof. intros k v. cbn. by rewrite lookup_empty. Qed.

Lemma next_state_ok prev u : (∀ ds, prev = Some ds → device_ok ds) → device_ok (next_state prev u).
Proof.
  intros H. split; [apply next_state_reach_ok|apply next_state_health|apply next_state_flags].
  - destruct prev as [ds|]; [by apply H|done].
  - destruct prev as [ds|]; [by apply H|apply zero_flags_ok].
Qed.

Definition store_ok (st : Store) : Prop :=
  (∀ id ds, st_devices st !! id = Some ds → device_ok ds) ∧ (length (st_changes st) <= changesCap)%nat.

(** ** Accounting of the change channel *)

Lemma coalesce_add_spec limit acc ids :
  (length acc.1 <= limit)%nat →
  let out := foldl (coalesce_add limit) acc ids in
  (length out.1 <= limit)%nat ∧ acc.1 `prefix_of` out.1 ∧ (acc.2 <= out.2)%nat ∧
  (∀ id, id ∈ acc.1 ∨ id ∈ ids → id ∈ out.1 ∨ (0 < out.2)%nat) ∧ (∀ id, id ∈ out.1 → id ∈ acc.1 ∨ id ∈ ids).
Proof.
  revert acc. induction ids as [|x ids IH]; intros [m d] Hlen; cbn [foldl fst snd] in *.
  { split_and!; try done; try lia; [|auto]. intros id [?|?%elem_of_nil]; auto. done. }
  unfold coalesce_add at 2 4 6 8 10. simpl. case_decide as Hin; [|destruct (limit <=? length m)%nat eqn:Hfull].
  - destruct (IH (m, d) Hlen) as (A & B & C & D & E). split_and!; try done; intros id Hid; [apply D|]; set_solver.
  - destruct (IH (m, S d) Hlen) as (A & B & C & D & E). simpl in C. split_and!; try done; [lia| |intros id Hid; set_solver].
    intros id Hid. right. lia.
  - apply Nat.leb_gt in Hfull. destruct (IH (m ++ [x], d)) as (A & B & C & D & E); [simpl; rewrite length_app; simpl; lia|].
    simpl in *. split_and!; try done.
    + etransitivity; [by apply prefix_app_r|done].
    + intros id Hid. apply D. set_solver.
    + intros id Hid. apply E in Hid. set_solver.
Qed.

(** Every queued or new identifier is still announced, or the overflow is reported. *)
Lemma emit_accounts between ids st id :
  (∀ q, q `prefix_of` between q) → (length (st_changes st) <= changesCap)%nat →
  id ∈ concat (st_changes st) ∨ id ∈ ids →
  id ∈ concat (st_changes (emitChanges between ids st)) ∨ st_overflowed (emitChanges between ids st) = true.
Proof.
  intros Hbet Hcap Hid. unfold emitChanges. destruct ids as [|i0 ids0]; [left; set_solver|]. set (ids := i0 :: ids0) in *.
  destruct (_ <? _)%nat eqn:Hlt.
  { left. cbn [st_changes upd upd_st_changes markChangesOverflowed upd_st_overflowed upd_st_dropped]. rewrite concat_app. simpl. rewrite app_nil_r. set_solver. }
  unfold coalesceQueuedChanges. rewrite take_ge, drop_ge by done.
  pose proof (coalesce_add_spec changesCap ([], 0%nat) (concat (st_changes st) ++ ids) ltac:(simpl; lia)) as (A & B & C & D & E).
  destruct (foldl _ _ _) as [merged dropped]. cbn [fst snd] in *. specialize (D id ltac:(set_solver)).
  cbn [st_changes upd upd_st_changes]. set (q := between []).
  destruct merged as [|m0 ms].
  { destruct D as [?%elem_of_nil|D]; [done|]. right. by rewrite (proj2 (Nat.ltb_lt _ _) D). }
  destruct (length q <? changesCap)%nat.
  - destruct D as [D|D]; [left|right; by rewrite (proj2 (Nat.ltb_lt _ _) D)].
    destruct (0 <? dropped)%nat; cbn [st_changes upd upd_st_changes markChangesOverflowed upd_st_overflowed upd_st_dropped]; rewrite concat_app; simpl; rewrite app_nil_r; set_solver.
  - right. rewrite (proj2 (Nat.ltb_lt _ _)) by (simpl; lia). done.
Qed.

Lemma emit_bounded between ids st :
  (∀ q, (length q <= changesCap)%nat → (length (between q) <= changesCap)%nat) → (length (st_changes st) <= changesCap)%nat →
  (length (st_changes (emitChanges between ids st)) <= changesCap)%nat ∧
  st_devices (emitChanges between ids st) = st_devices st.
Proof.
  intros Hbet Hcap. unfold emitChanges. destruct ids as [|i0 ids0]; [done|].
  destruct (_ <? _)%nat eqn:Hlt.
  { apply Nat.ltb_lt in Hlt. cbn. rewrite length_app. simpl. split; [lia|done]. }
  unfold coalesceQueuedChanges. destruct (foldl _ _ _) as [merged dropped]. cbn [st_changes upd upd_st_changes].
  set (q := between (drop changesCap (st_changes st))).
  assert (Hq : (length q <= changesCap)%nat) by (apply Hbet; rewrite length_drop; lia).
  destruct merged as [|m0 ms]; [by destruct (0 <? dropped)%nat|].
  destruct (length q <? changesCap)%nat eqn:Hq'; [|by destruct (0 <? dropped + _)%nat].
  apply Nat.ltb_lt in Hq'. destruct (0 <? dropped)%nat;
    cbn [st_changes upd upd_st_changes markChangesOverflowed upd_st_overflowed upd_st_dropped]; rewrite length_app; simpl;
    (split; [lia|done]).
Qed.

(** What other goroutines may do to the channel: append batches, within its capacity. *)
Definition between_ok (between : list (list UUID) → list (list UUID)) : Prop :=
  (∀ q, q `prefix_of` between q) ∧ (∀ q, (length q <= changesCap)%nat → (length (between q) <= changesCap)%nat).

Lemma store_ok_emit between ids st : between_ok between → store_ok st → store_ok (emitChanges between ids st).
Proof.
  intros [_ Hb] [Hd Hc]. destruct (emit_bounded between ids st Hb Hc) as [H1 H2]. split; [by rewrite H2|done].
Qed.

Lemma store_ok_insert id ds st : store_ok st → device_ok ds → store_ok (st <| st_devices := <[id := ds]> (st_devices st) |>).
Proof. intros [Hd Hc] Hr. split; [|done]. cbn. intros i d [[<- <-]|[_ Hi]]%lookup_insert_Some; [done|by apply (Hd i)]. Qed.

Lemma Update_locked_ok u st : store_ok st → store_ok (Update_locked u st).1.
Proof.
  intros Hst. unfold Update_locked. destruct (_ =? _); [done|]. cbn [fst]. apply store_ok_insert; [done|].
  apply next_state_ok. intros ds. apply Hst.
Qed.

Lemma Remove_locked_ok id st : store_ok st → store_ok (Remove_locked id st).1.
Proof.
  intros [Hd Hc]. unfold Remove_locked. destruct (st_devices st !! id); [|done]. split; [|done].
  cbn. intros i ds [_ Hi]%lookup_delete_Some. by apply (Hd i).
Qed.

(** ** Staleness *)

Definition range_devices_ok (range : gmap UUID DeviceState → list (UUID * DeviceState)) : Prop :=
  ∀ m, range m ≡ₚ map_to_list m.

Lemma stale_fold now (kds : list (UUID * DeviceState)) (devices : gmap UUID DeviceState) (acc : list UUID) :
  NoDup kds.*1 → (∀ id ds, (id, ds) ∈ kds → devices !! id = Some ds) →
  let out := foldl (stale_visit now) (devices, acc) kds in
  out.2 = acc ++ (filter (λ kd, is_stale_due now kd.2 = true) kds).*1 ∧
  ∀ id, out.1 !! id = if decide (id ∈ kds.*1) then (λ ds, if is_stale_due now ds then stale_state ds else ds) <$> devices !! id
                      else devices !! id.
Proof.
  revert devices acc. induction kds as [|[i d] kds IH]; intros devices acc Hnd Hin; [by rewrite app_nil_r|].
  rewrite fmap_cons in Hnd. cbn [fst] in Hnd. apply NoDup_cons in Hnd as [Hi Hnd]. pose proof (Hin i d ltac:(by left)) as Hid.
  cbn [foldl stale_visit]. rewrite filter_cons, fmap_cons. cbn [fst snd].
  assert (Hin' : ∀ dev : gmap UUID DeviceState, (∀ j, j ≠ i → dev !! j = devices !! j) → ∀ id ds, (id, ds) ∈ kds → dev !! id = Some ds).
  { intros dev Hdev id ds Hds. rewrite Hdev; [apply Hin; by right|]. intros ->. apply Hi, list_elem_of_fmap. by exists (i, ds). }
  destruct (is_stale_due now d) eqn:Hdue.
  - rewrite decide_True by done. destruct (IH (<[i := stale_state d]> devices) (acc ++ [i]) Hnd) as [A B].
    { apply Hin'. intros j Hj. by rewrite lookup_insert_ne. }
    split; [rewrite A; by rewrite <- app_assoc|]. intros id. rewrite B. destruct (decide (id = i)) as [->|Hne].
    + rewrite (decide_False (P := i ∈ kds.*1)) by done. rewrite lookup_insert_eq, decide_True by (by left). rewrite Hid. simpl. by rewrite Hdue.
    + rewrite lookup_insert_ne by done. destruct (decide (id ∈ kds.*1));
        [rewrite decide_True by (by right)|rewrite decide_False by (rewrite elem_of_cons; tauto)]; done.
  - rewrite decide_False by done. destruct (IH devices acc Hnd) as [A B]; [by apply Hin'|].
    split; [done|]. intros id. rewrite B. destruct (decide (id = i)) as [->|Hne].
    + rewrite (decide_False (P := i ∈ kds.*1)) by done. rewrite decide_True by (by left). rewrite Hid. simpl. by rewrite Hdue.
    + destruct (decide (id ∈ kds.*1));
        [rewrite decide_True by (by right)|rewrite decide_False by (rewrite elem_of_cons; tauto)]; done.
Qed.

Definition stale_after (now : Time) (ds : DeviceState) : DeviceState := if is_stale_due now ds then stale_state ds else ds.

(** Exactly the devices that are due become stale, and they are the ones emitted. *)
Lemma markStale_locked_spec range now st :
  range_devices_ok range →
  (∀ id, st_devices (markStale_locked range now st).1 !! id = stale_after now <$> st_devices st !! id) ∧
  (∀ id, id ∈ (markStale_locked range now st).2 ↔ ∃ ds, st_devices st !! id = Some ds ∧ is_stale_due now ds = true) ∧
  (markStale_locked range now st).1 = st <| st_devices := st_devices (markStale_locked range now st).1 |>.
Proof.
  intros Hr. unfold markStale_locked. destruct (stale_fold now (range (st_devices st)) (st_devices st) []) as [A B].
  { rewrite (Hr (st_devices st)). apply NoDup_fst_map_to_list. }
  { intros i ds. rewrite (Hr (st_devices st)). apply elem_of_map_to_list. }
  destruct (foldl (stale_visit now) (st_devices st, []) (range (st_devices st))) as [devices newly]. cbn [fst snd] in *.
  split_and!; [intros id..|done].
  - cbn. rewrite B. case_decide as Hid; [done|]. destruct (st_devices st !! id) as [ds|] eqn:E; [|done]. exfalso. apply Hid.
    rewrite (Hr (st_devices st)). apply list_elem_of_fmap. exists (id, ds). split; [done|]. by apply elem_of_map_to_list.
  - rewrite A, app_nil_l, list_elem_of_fmap. setoid_rewrite list_elem_of_filter. setoid_rewrite (Hr (st_devices st)). split.
    + intros ([i d] & -> & Hd & Hi%elem_of_map_to_list). eauto.
    + intros (ds & Hi & Hd). exists (id, ds). by rewrite elem_of_map_to_list.
Qed.

Lemma stale_state_ok ds : device_ok ds → device_ok (stale_state ds).
Proof. intros [A B C]. unfold stale_state. cbv zeta. by case_bool_decide. Qed.

Lemma markStale_locked_ok range now st : range_devices_ok range → store_ok st → store_ok (markStale_locked range now st).1.
Proof.
  intros Hr [Hd Hc]. destruct (markStale_locked_spec range now st Hr) as (A & _ & C). split; [|by rewrite C].
  intros i ds. rewrite A. intros (d & Hdi & ->)%fmap_Some. unfold stale_after.
  destruct (is_stale_due now d); [apply stale_state_ok|]; by apply (Hd i).
Qed.

(** Reading the store gives the stored states. *)
Lemma GetDevice_ok id st : store_ok st → GetDevice id st = st_devices st !! id.
Proof.
  intros [Hd _]. unfold GetDevice. destruct (st_devices st !! id) as [ds|] eqn:E; [|done]. cbn. f_equal.
  apply cloneDeviceState_id, (Hd id ds E).
Qed.

Lemma Snapshot_lookup id st : Snapshot st !! id = GetDevice id st.
Proof. unfold Snapshot. by rewrite lookup_fmap. Qed.
