(* ===== verification/StateTheorems.v ===== *)
(** * Following the state store

    [Store.emitChanges] runs outside the store's lock, so the sends and receives of several
    emitters and of the consumer interleave.  This file models each of them as a sequence
    of channel operations, with a consumer ([broadcastLoop] of
    [worker/pipeline_snapshot_broadcaster.go]) that keeps a copy of the states: it re-reads the devices of every batch it receives, and everything once
    the store reported an overflow. *)

From S2P Require Import Prelude GoLib Domain StateStore StateSpec.

(** ** One emitter

    A call of [emitChanges] in progress: before its first send; draining, with the batches
    drained so far merged; before its second send; about to report dropped changes. *)
Inductive Emitter :=
  | ESend (ids : list UUID)
  | EDrain (n : nat) (merged : list UUID) (dropped : nat) (ids : list UUID)
  | ESecond (merged : list UUID) (dropped : nat)
  | EMark (dropped : nat).

(** The next channel operation of an emitter; [None] when the call returns. *)
Definition emitter_next (em : Emitter) (st : Store) : option Emitter * Store :=
  match em with
  | ESend [] => (None, st)
  | ESend ids =>
    if (length (st_changes st) <? changesCap)%nat then (None, st <| st_changes := st_changes st ++ [ids] |>)
    else (Some (EDrain 0 [] 0 ids), st)
  | EDrain n merged dropped ids =>
    match st_changes st with
    | queued :: rest =>
      if (n <? changesCap)%nat
      then let '(merged, dropped) := foldl (coalesce_add changesCap) (merged, dropped) queued in
           (Some (EDrain (S n) merged dropped ids), st <| st_changes := rest |>)
      else let '(merged, dropped) := foldl (coalesce_add changesCap) (merged, dropped) ids in (Some (ESecond merged dropped), st)
    | [] => let '(merged, dropped) := foldl (coalesce_add changesCap) (merged, dropped) ids in (Some (ESecond merged dropped), st)
    end
  | ESecond [] dropped => (Some (EMark dropped), st)
  | ESecond merged dropped =>
    if (length (st_changes st) <? changesCap)%nat
    then (Some (EMark dropped), st <| st_changes := st_changes st ++ [merged] |>)
    else (Some (EMark (dropped + length merged)), st)
  | EMark dropped => (None, if (0 <? dropped)%nat then markChangesOverflowed dropped st else st)
  end.

(** The emitter alone, until it returns. *)
Fixpoint emitter_run (fuel : nat) (em : Emitter) (st : Store) : option Store :=
  match fuel with
  | O => None
  | S fuel => match emitter_next em st with
              | (None, st) => Some st
              | (Some em, st) => emitter_run fuel em st
              end
  end.

(** ** The system *)

Record Follow := mkFollow {
  fo_store : Store;
  fo_emitters : list Emitter;
  fo_held : list UUID;
  fo_resync : bool;
  fo_view : gmap UUID DeviceState }.

Definition reread (st : Store) (view : gmap UUID DeviceState) (id : UUID) : gmap UUID DeviceState :=
  match GetDevice id st with Some ds => <[id := ds]> view | None => delete id view end.

(** Writers enter their critical section and then emit; the emitters proceed in any order;
    the consumer receives a batch, later re-reads what it holds; it consumes the overflow
    mark and later re-reads everything. *)
Inductive follow_step : Follow → Follow → Prop :=
| fs_update u st es h r v :
  follow_step (mkFollow st es h r v) (mkFollow (Update_locked u st).1 (ESend (Update_locked u st).2 :: es) h r v)
| fs_remove id st es h r v :
  follow_step (mkFollow st es h r v) (mkFollow (Remove_locked id st).1 (ESend (Remove_locked id st).2 :: es) h r v)
| fs_stale range now st es h r v :
  range_devices_ok range →
  follow_step (mkFollow st es h r v)
    (mkFollow (markStale_locked range now st).1 (ESend (markStale_locked range now st).2 :: es) h r v)
| fs_emit em st es1 es2 h r v :
  follow_step (mkFollow st (es1 ++ em :: es2) h r v)
    (mkFollow (emitter_next em st).2 (es1 ++ option_list (emitter_next em st).1 ++ es2) h r v)
| fs_receive batch rest st es h r v :
  st_changes st = batch :: rest → follow_step (mkFollow st es h r v) (mkFollow (st <| st_changes := rest |>) es (h ++ batch) r v)
| fs_reread st es h r v : follow_step (mkFollow st es h r v) (mkFollow st es [] r (foldl (reread st) v h))
| fs_overflow st es h r v :
  follow_step (mkFollow st es h r v)
    (mkFollow (snd (ConsumeOverflowed st)) es h (r || fst (ConsumeOverflowed st)) v)
| fs_resync st es h v : follow_step (mkFollow st es h true v) (mkFollow st es h false (Snapshot st)).

Inductive follow_reachable : Follow → Prop :=
| fr_new : follow_reachable (mkFollow NewStore [] [] false ∅)
| fr_step f f' : follow_reachable f → follow_step f f' → follow_reachable f'.

(** ** Nothing is lost *)

(** Differences [Store.Update] does not announce: the states agree in all the fields that
    [deviceStateEqual] compares. *)
Definition quiet (a b : DeviceState) : Prop := deviceStateEqual a b = true.
Definition in_sync (st : Store) (v : gmap UUID DeviceState) (id : UUID) : Prop :=
  option_Forall2 (rtc quiet) (v !! id) (st_devices st !! id).

(** An emitter still has to announce [id], or will report an overflow. *)
Definition owes (id : UUID) (em : Emitter) : Prop :=
  match em with
  | ESend ids => id ∈ ids
  | EDrain _ merged dropped ids => id ∈ merged ∨ id ∈ ids ∨ (0 < dropped)%nat
  | ESecond merged dropped => id ∈ merged ∨ (0 < dropped)%nat
  | EMark dropped => (0 < dropped)%nat
  end.

Definition drain_ok (em : Emitter) : Prop :=
  match em with EDrain _ merged _ _ => (length merged <= changesCap)%nat | _ => True end.

(** A change of [id] is on its way to the consumer. *)
Definition announced (f : Follow) (id : UUID) : Prop :=
  id ∈ concat (st_changes (fo_store f)) ∨ st_overflowed (fo_store f) = true ∨ id ∈ fo_held f ∨ fo_resync f = true ∨
  Exists (owes id) (fo_emitters f).

Record follow_ok (f : Follow) : Prop := {
  fk_store : store_ok (fo_store f);
  fk_emitters : Forall drain_ok (fo_emitters f);
  fk_sync id : in_sync (fo_store f) (fo_view f) id ∨ announced f id }.

(** Merging a batch keeps every identifier, unless something was dropped. *)
Lemma coalesce_owes merged dropped batch id :
  (length merged <= changesCap)%nat → id ∈ merged ∨ id ∈ batch ∨ (0 < dropped)%nat →
  let '(merged', dropped') := foldl (coalesce_add changesCap) (merged, dropped) batch in
  (length merged' <= changesCap)%nat ∧ (id ∈ merged' ∨ (0 < dropped')%nat).
Proof.
  intros Hl Hid. pose proof (coalesce_add_spec changesCap (merged, dropped) batch Hl) as (A & _ & C & D & _).
  destruct (foldl _ _ _) as [merged' dropped']. cbn [fst snd] in *. split; [done|].
  destruct Hid as [H|[H|H]]; [apply D; auto..|right; lia].
Qed.

Lemma owes_some id em : Exists (owes id) (option_list (Some em)) ↔ owes id em.
Proof. simpl. rewrite Exists_cons, Exists_nil. tauto. Qed.

(** One operation of an emitter keeps the devices and every announcement. *)
Lemma emitter_next_ok em st id :
  store_ok st → drain_ok em →
  let '(em', st') := emitter_next em st in
  store_ok st' ∧ st_devices st' = st_devices st ∧ Forall drain_ok (option_list em') ∧
  (id ∈ concat (st_changes st) ∨ st_overflowed st = true ∨ owes id em →
   id ∈ concat (st_changes st') ∨ st_overflowed st' = true ∨ Exists (owes id) (option_list em')).
Proof.
  intros Hst Hem. pose proof Hst as [Hd Hc]. unfold emitter_next. destruct em as [ids|n merged dropped ids|merged dropped|dropped]; cbn [owes drain_ok] in *.
  - destruct ids as [|i ids]; [split_and!; try done; rewrite elem_of_nil; tauto|]. destruct (_ <? _)%nat eqn:E.
    + apply Nat.ltb_lt in E. split_and!; try done; [split; [done|]; cbn; rewrite length_app; simpl; lia|].
      cbn [st_changes upd upd_st_changes]. rewrite concat_app, elem_of_app. simpl. rewrite app_nil_r. tauto.
    + split_and!; try done; [apply Forall_singleton; simpl; lia|]. rewrite owes_some. simpl. tauto.
  - destruct (st_changes st) as [|queued rest] eqn:Hch; [|destruct (n <? changesCap)%nat].
    1, 3: pose proof (coalesce_owes merged dropped ids id Hem) as Hco; destruct (foldl _ _ _) as [m' d'];
      (split_and!; [done|done|by apply Forall_singleton|]); rewrite owes_some, Hch; cbn [owes]; tauto.
    pose proof (coalesce_owes merged dropped queued id Hem) as Hco.
    pose proof (coalesce_add_spec changesCap (merged, dropped) queued Hem) as (Hlen & _ & Hdr & _).
    destruct (foldl _ _ _) as [m' d']. cbn [fst snd] in *.
    split_and!; try done; [split; [done|]; cbn; simpl in Hc; lia|by apply Forall_singleton|].
    cbn [st_changes upd upd_st_changes concat st_overflowed]. rewrite owes_some, elem_of_app. cbn [owes]. tauto.
  - destruct merged as [|m ms]; [split_and!; try done; [by apply Forall_singleton|]; rewrite owes_some, elem_of_nil; simpl; tauto|].
    destruct (_ <? _)%nat eqn:E; (split_and!; try done; [..|by apply Forall_singleton|]).
    + apply Nat.ltb_lt in E. split; [done|]. cbn. rewrite length_app. simpl. lia.
    + cbn [st_changes upd upd_st_changes]. rewrite concat_app, elem_of_app, owes_some. simpl. rewrite app_nil_r. tauto.
    + rewrite owes_some. simpl. intros [H|[H|H]]; [auto..|]. right; right. lia.
  - destruct (0 <? dropped)%nat eqn:E; [|apply Nat.ltb_ge in E]; (split_and!; try done); cbn; [tauto|].
    intros [H|[H|H]]; [auto..|lia].
Qed.

(** A critical section that changes the devices [ids] only, up to quiet changes, and then emits [ids]. *)
Lemma follow_write st st' ids es h r v :
  store_ok st' → st_changes st' = st_changes st → st_overflowed st' = st_overflowed st →
  (∀ id, id ∉ ids → in_sync st v id → in_sync st' v id) →
  follow_ok (mkFollow st es h r v) → follow_ok (mkFollow st' (ESend ids :: es) h r v).
Proof.
  intros Hst' Ec Eo Hsync [_ He Hs]. split; [done|by apply Forall_cons|]. intros id. specialize (Hs id).
  unfold announced in *. cbn [fo_store fo_view fo_emitters fo_held fo_resync] in *. rewrite Ec, Eo, Exists_cons. cbn [owes].
  destruct (decide (id ∈ ids)); [tauto|]. destruct Hs as [Hs|Hs]; [left; auto|tauto].
Qed.

Lemma follow_update u st es h r v :
  follow_ok (mkFollow st es h r v) → follow_ok (mkFollow (Update_locked u st).1 (ESend (Update_locked u st).2 :: es) h r v).
Proof.
  intros Hf. apply (follow_write st); [apply Update_locked_ok, Hf|unfold Update_locked; by destruct (_ =? _)..| |done].
  unfold Update_locked. destruct (_ =? _); [done|]. cbn [fst snd]. set (next := next_state _ u). intros id Hid Hs. unfold in_sync in *. cbn.
  destruct (decide (id = su_DeviceID u)) as [->|Hne]; [|by rewrite lookup_insert_ne].
  rewrite lookup_insert_eq. destruct (st_devices st !! su_DeviceID u) as [p|] eqn:Hp; [|exfalso; apply Hid; by left].
  destruct (deviceStateEqual p next) eqn:Heq; [|exfalso; apply Hid; by left].
  inversion Hs as [a b Hab Ha|]; subst. constructor. by eapply rtc_r.
Qed.

Lemma follow_remove id st es h r v :
  follow_ok (mkFollow st es h r v) → follow_ok (mkFollow (Remove_locked id st).1 (ESend (Remove_locked id st).2 :: es) h r v).
Proof.
  intros Hf. apply (follow_write st); [apply Remove_locked_ok, Hf|unfold Remove_locked; by destruct (st_devices st !! id)..| |done].
  unfold Remove_locked. destruct (st_devices st !! id) eqn:E; [|done]. cbn [fst snd]. intros i Hi. unfold in_sync. cbn.
  rewrite lookup_delete_ne; [done|]. intros <-. apply Hi. by left.
Qed.

Lemma follow_stale range now st es h r v :
  range_devices_ok range → follow_ok (mkFollow st es h r v) →
  follow_ok (mkFollow (markStale_locked range now st).1 (ESend (markStale_locked range now st).2 :: es) h r v).
Proof.
  intros Hr Hf. destruct (markStale_locked_spec range now st Hr) as (A & B & C).
  apply (follow_write st); [by apply markStale_locked_ok, Hf|by rewrite C..| |done].
  intros id Hid. unfold in_sync. rewrite A. destruct (st_devices st !! id) as [ds|] eqn:E; [|done]. cbn. unfold stale_after.
  destruct (is_stale_due now ds) eqn:Hdue; [|done]. exfalso. apply Hid, B. eauto.
Qed.

Lemma follow_emit em st es1 es2 h r v :
  follow_ok (mkFollow st (es1 ++ em :: es2) h r v) →
  follow_ok (mkFollow (emitter_next em st).2 (es1 ++ option_list (emitter_next em st).1 ++ es2) h r v).
Proof.
  intros [Hst He Hs]. cbn [fo_store fo_emitters] in *. rewrite Forall_app, Forall_cons in He. destruct He as (He1 & Hem & He2).
  pose proof (λ id, emitter_next_ok em st id Hst Hem) as Hn. destruct (emitter_next em st) as [em' st']. cbn [fst snd].
  split; cbn [fo_store fo_emitters].
  - by apply (Hn 0).
  - rewrite !Forall_app. split_and!; try done. by apply (Hn 0).
  - intros id. destruct (Hn id) as (_ & Ed & _ & Ha). specialize (Hs id). unfold announced, in_sync in *.
    cbn [fo_store fo_view fo_emitters fo_held fo_resync] in *. rewrite Ed. rewrite !Exists_app in *. rewrite Exists_cons in Hs. tauto.
Qed.

Lemma foldl_reread st v ids id :
  store_ok st → foldl (reread st) v ids !! id = if decide (id ∈ ids) then st_devices st !! id else v !! id.
Proof.
  intros Hst. revert v. induction ids as [|i ids IH]; intros v; [done|]. cbn [foldl]. rewrite IH. unfold reread at 1.
  rewrite GetDevice_ok by done.
  destruct (decide (id ∈ ids)) as [H|H]; [by rewrite decide_True by (by right)|]. destruct (decide (id = i)) as [->|Hne].
  - rewrite decide_True by (by left). destruct (st_devices st !! i); [apply lookup_insert_eq|apply lookup_delete_eq].
  - rewrite decide_False by (rewrite elem_of_cons; tauto). destruct (st_devices st !! i); [by apply lookup_insert_ne|by apply lookup_delete_ne].
Qed.

Lemma in_sync_refl st v id : v !! id = st_devices st !! id → in_sync st v id.
Proof. unfold in_sync. intros ->. destruct (st_devices st !! id); by constructor. Qed.

Lemma follow_step_ok f f' : follow_ok f → follow_step f f' → follow_ok f'.
Proof.
  intros Hf Hstep. destruct Hstep; [by apply follow_update|by apply follow_remove|by apply follow_stale|by apply follow_emit|..];
    destruct Hf as [Hst He Hs]; split; try done; cbn [fo_store fo_emitters] in *.
  - destruct Hst as [Hd Hc]. split; [done|]. rewrite H in Hc. simpl in Hc. cbn. lia.
  - intros id. specialize (Hs id). unfold announced in *. cbn [fo_store fo_view fo_emitters fo_held fo_resync] in *.
    rewrite H in Hs. cbn [concat] in Hs. rewrite elem_of_app in *. cbn [st_changes upd upd_st_changes]. tauto.
  - intros id. specialize (Hs id). unfold announced in *. cbn [fo_store fo_view fo_emitters fo_held fo_resync] in *.
    destruct (decide (id ∈ h)) as [Hin|Hin]; [left; apply in_sync_refl; by rewrite foldl_reread, decide_True by done|].
    unfold in_sync in *. rewrite foldl_reread, decide_False by done. tauto.
  - intros id. specialize (Hs id). unfold announced in *. cbn [fo_store fo_view fo_emitters fo_held fo_resync] in *.
    destruct (st_overflowed st) eqn:Ho; cbn; rewrite Ho; rewrite ?orb_true_r, ?orb_false_r; [tauto|].
    destruct Hs as [Hs|[Hs|[Hs|Hs]]]; [left; done|tauto|done|tauto].
  - intros id. left. apply in_sync_refl. cbn [fo_view fo_store]. by rewrite Snapshot_lookup, GetDevice_ok.
Qed.

Lemma follow_reachable_ok f : follow_reachable f → follow_ok f.
Proof.
  induction 1 as [|f f' _ IH Hs]; [|by eapply follow_step_ok]. split; [split; [done|simpl; lia]|constructor|].
  intros id. left. by apply in_sync_refl.
Qed.

(** ** An emitter alone is [emitChanges] *)

Lemma drain_run q : ∀ fuel n merged dropped ids st,
  st_changes st = q → (n + length q <= changesCap)%nat →
  emitter_run (S (length q) + fuel) (EDrain n merged dropped ids) st =
  let '(m, d) := foldl (coalesce_add changesCap) (merged, dropped) (concat q ++ ids) in
  emitter_run fuel (ESecond m d) (st <| st_changes := [] |>).
Proof.
  induction q as [|b q IH]; intros fuel n merged dropped ids st Hq Hn; cbn [emitter_run emitter_next Nat.add length]; rewrite Hq.
  - cbn [concat app]. destruct (foldl _ _ _) as [m d]. destruct st. cbn in *. by subst.
  - rewrite (proj2 (Nat.ltb_lt _ _)) by (simpl in Hn; lia). cbn [concat]. rewrite <- app_assoc, foldl_app.
    destruct (foldl _ (merged, dropped) b) as [m d]. exact (IH fuel (S n) m d ids (st <| st_changes := q |>) eq_refl ltac:(simpl in Hn; lia)).
Qed.

Lemma emitter_run_spec ids st :
  (length (st_changes st) <= changesCap)%nat →
  emitter_run (length (st_changes st) + 4) (ESend ids) st = Some (emitChanges (λ q, q) ids st).
Proof.
  intros Hc. replace (length (st_changes st) + 4)%nat with (S (S (length (st_changes st)) + 2)) by lia.
  unfold emitChanges. destruct ids as [|i ids]; [done|]. set (ids' := i :: ids).
  cbn [emitter_run]. unfold emitter_next at 1. cbn [ids']. fold ids'. destruct (_ <? _)%nat eqn:Hfull; [done|].
  rewrite (drain_run (st_changes st) 2 0 [] 0 ids' st) by (done || lia). unfold coalesceQueuedChanges. rewrite take_ge, drop_ge by done.
  destruct (foldl _ _ _) as [m d]. cbn [st_changes upd upd_st_changes length]. destruct m as [|m ms]; [cbn [emitter_run emitter_next]; by destruct (0 <? d)%nat|].
  cbn [emitter_run emitter_next st_changes upd upd_st_changes length]. rewrite (proj2 (Nat.ltb_lt 0 changesCap)) by (unfold changesCap; lia).
  unfold emitter_next. by destruct (0 <? d)%nat.
Qed.

(** * What the state store guarantees *)


(** ** Changes reach the consumer *)

(** C16: No change is lost, whatever the interleaving of writers, emitters and consumer.  At
    every moment, for every device, the consumer's copy is current (up to the differences
    that are not announced), or the change is on its way: in the channel, held by an
    emitter or the consumer, or covered by a reported overflow.  Once everything has been
    delivered, the copy is current for every device. *)
Theorem follower_converges f :
  follow_reachable f →
  (∀ id, in_sync (fo_store f) (fo_view f) id ∨ announced f id) ∧
  (fo_emitters f = [] → st_changes (fo_store f) = [] → st_overflowed (fo_store f) = false → fo_held f = [] → fo_resync f = false →
   ∀ id, in_sync (fo_store f) (fo_view f) id).
Proof.
  intros Hf%follow_reachable_ok. split; [apply Hf|]. intros E1 E2 E3 E4 E5 id. destruct (fk_sync f Hf id) as [H|H]; [done|].
  unfold announced in H. rewrite E1, E2, E3, E4, E5 in H. rewrite Exists_nil in H. cbn in H. rewrite elem_of_nil in H. naive_solver.
Qed.

(** A device is seen for the first time by a legacy update. *)
Definition demo_update : StateUpdate :=
  {| su_DeviceID := 5; su_VolatilityClass := VolatilityClassNone; su_Metrics := None; su_LinkMetrics := [];
     su_PollSuccess := true; su_ExpectedInterval := 30 * Second; su_Timestamp := 1000 * Second; su_Essential := None |}.
Definition demo_written : Follow := mkFollow (Update_locked demo_update NewStore).1 [ESend [5]] [] false ∅.
Definition demo_emitted : Follow :=
  mkFollow (emitter_next (ESend [5]) (fo_store demo_written)).2 (option_list (emitter_next (ESend [5]) (fo_store demo_written)).1) [] false ∅.

Lemma demo_emitted_reachable : follow_reachable demo_emitted.
Proof.
  eapply fr_step; [eapply fr_step; [apply fr_new|apply (fs_update demo_update)]|].
  refine (eq_rect _ (λ f, follow_step _ f) (fs_emit (ESend [5]) (Update_locked demo_update NewStore).1 [] [] [] false ∅) _ _).
  unfold demo_emitted. cbn [app]. by rewrite app_nil_r.
Qed.

Lemma follower_converges_witness :
  announced demo_emitted 5 ∧ ∀ id, in_sync (fo_store demo_emitted) ∅ id ∨ announced demo_emitted id.
Proof.
  split; [left; vm_compute; left|]. exact (proj1 (follower_converges demo_emitted demo_emitted_reachable)).
Defined.



(** ** Health *)

(** Severity has hysteresis.  Re-evaluating the same value changes nothing; a higher
    value never gives a lower severity; between the fall and the rise level of a step the
    severity keeps its value, so a metric that hovers there does not flap. *)
Theorem severity_hysteresis t v v' c :
  thresholds_ok t → f64_is_nan v = false → f64_is_nan v' = false →
  evaluateMetricSeverity v (evaluateMetricSeverity v c t) t = evaluateMetricSeverity v c t ∧
  (f64_ge v' v = true → severity_rank (evaluateMetricSeverity v c t) <= severity_rank (evaluateMetricSeverity v' c t)) ∧
  (f64_ge v (WarnFall t) = true → f64_lt v (WarnRise t) = true →
     evaluateMetricSeverity v MetricSeverityOK t = MetricSeverityOK ∧
     evaluateMetricSeverity v MetricSeverityWarning t = MetricSeverityWarning) ∧
  (f64_ge v (CriticalFall t) = true → f64_lt v (CriticalRise t) = true →
     evaluateMetricSeverity v MetricSeverityWarning t = MetricSeverityWarning ∧
     evaluateMetricSeverity v MetricSeverityCritical t = MetricSeverityCritical).
Proof.
  intros Ht Nv Nv'. split_and!; [by apply evaluate_idem|by apply evaluate_mono|by apply evaluate_hold..].
Qed.

Lemma severity_hysteresis_witness :
  evaluateMetricSeverity (f64_of_Z 65) MetricSeverityWarning defaultThreshold = MetricSeverityWarning ∧
  evaluateMetricSeverity (f64_of_Z 65) MetricSeverityOK defaultThreshold = MetricSeverityOK.
Proof.
  destruct (severity_hysteresis defaultThreshold (f64_of_Z 65) (f64_of_Z 65) MetricSeverityOK default_thresholds_ok
    ltac:(vm_compute; reflexivity) ltac:(vm_compute; reflexivity)) as (_ & _ & H & _).
  destruct (H ltac:(vm_compute; reflexivity) ltac:(vm_compute; reflexivity)). split; assumption.
Defined.

(** The health of a device is the worst of its three severities; it is unknown exactly
    when no metric has been evaluated. *)
Theorem health_worst_of cpu mem temp :
  let h := aggregateHealth cpu mem temp in
  health_rank h = Z.max (severity_rank cpu) (Z.max (severity_rank mem) (severity_rank temp)) ∧
  (h = HealthStatusUnknown ↔ cpu = MetricSeverityNone ∧ mem = MetricSeverityNone ∧ temp = MetricSeverityNone) ∧ h ≠ HealthNone.
Proof. apply aggregate_spec. Qed.

(** ** Reachability *)

(** In every reachable store the reachability agrees with the failure count (soft down
    for one or two consecutive failures, hard down from three on, otherwise none), every
    stored device has a health, and the channel holds at most its capacity. *)
Theorem store_invariant f id ds :
  follow_reachable f → st_devices (fo_store f) !! id = Some ds →
  reach_ok ds ∧ ds_Health ds ≠ HealthNone ∧ (length (st_changes (fo_store f)) <= changesCap)%nat.
Proof. intros Hf%follow_reachable_ok Hid. destruct (fk_store f Hf) as [Hd Hc]. destruct (Hd id ds Hid) as [A B _]. done. Qed.

Lemma store_invariant_witness :
  ∃ ds, st_devices (fo_store demo_emitted) !! 5 = Some ds ∧ reach_ok ds ∧ ds_Reachability ds = ReachabilityUp.
Proof.
  eexists. assert (H : st_devices (fo_store demo_emitted) !! 5 = Some _) by reflexivity. split; [exact H|].
  split; [exact (proj1 (store_invariant demo_emitted 5 _ demo_emitted_reachable H))|reflexivity].
Defined.

(** An essential poll that found the network down, or up. *)
Definition probed (reach : TriState) (u : StateUpdate) : Prop :=
  ∃ e, su_Essential u = Some e ∧ essentialNetworkReachability e = reach.

Definition poll_all (us : list StateUpdate) (prev : DeviceState) : DeviceState :=
  foldl (λ p u, next_state (Some p) u) prev us.

Definition same_health (a b : DeviceState) : Prop :=
  ds_Health b = ds_Health a ∧ ds_CPUSeverity b = ds_CPUSeverity a ∧ ds_MemSeverity b = ds_MemSeverity a ∧ ds_TempSeverity b = ds_TempSeverity a.

Lemma essential_frame next prev u e : same_health next (applyEssentialUpdate next prev u e).
Proof.
  assert (Hr : ∀ a b x y, same_health x y → same_health x (essential_reachability a b prev y)).
  { intros a b x y Hx. unfold essential_reachability. cbv zeta. by repeat case_match. }
  unfold applyEssentialUpdate. cbv zeta. apply Hr. unfold applyFreshnessMetadata. cbv zeta. by repeat case_match.
Qed.

Lemma down_step prev u :
  ds_Health prev ≠ HealthNone → probed TriStateFalse u →
  let next := next_state (Some prev) u in
  ds_ConsecutiveFailures next = ds_ConsecutiveFailures prev + 1 ∧ same_health prev next ∧
  ds_Reachability next = (if 3 <=? ds_ConsecutiveFailures prev + 1 then ReachabilityHardDown else ReachabilitySoftDown).
Proof.
  intros Hh (e & He & Hn) next. subst next. unfold next_state. cbn [from_option id default]. unfold apply_update. rewrite He.
  pose proof (essential_frame prev prev u e) as Hf.
  assert (Hn' : bool_decide (ds_Health (applyEssentialUpdate prev prev u e) = HealthNone) = false).
  { apply bool_decide_eq_false_2. by rewrite (proj1 Hf). }
  rewrite Hn'. unfold applyEssentialUpdate in *. cbv zeta in *. rewrite Hn in *. split_and!; [done|exact Hf|done].
Qed.

(** Failed essential polls escalate and keep the last known health: after [n] polls in a
    row that found the network down the device has [n] more failures, is hard down from the
    third on and soft down before, and its health and severities are those from before. *)
Theorem failures_escalate prev us :
  ds_Health prev ≠ HealthNone → us ≠ [] → Forall (probed TriStateFalse) us →
  let last := poll_all us prev in let n := ds_ConsecutiveFailures prev + Z.of_nat (length us) in
  ds_ConsecutiveFailures last = n ∧ same_health prev last ∧
  ds_Reachability last = (if 3 <=? n then ReachabilityHardDown else ReachabilitySoftDown).
Proof.
  intros Hh Hne Hus. revert prev Hh. induction Hus as [|u us Hu Hus IH]; intros prev Hh last n; [done|].
  destruct (down_step prev u Hh Hu) as (A & B & C). unfold last, poll_all in *. cbn [foldl].
  destruct us as [|u' us]; [simpl in n; subst n; cbn [foldl]; by rewrite A, C|].
  specialize (IH ltac:(done) (next_state (Some prev) u) ltac:(by rewrite (proj1 B))). cbv zeta in IH. rewrite A in IH.
  subst n. replace (ds_ConsecutiveFailures prev + Z.of_nat (length (u :: u' :: us)))
    with (ds_ConsecutiveFailures prev + 1 + Z.of_nat (length (u' :: us))) by (simpl; lia).
  destruct IH as (D & E & F). split_and!; [done| |done]. unfold same_health in *. intuition congruence.
Qed.

(** A failed probe of both ports. *)
Definition demo_down : StateUpdate :=
  {| su_DeviceID := 5; su_VolatilityClass := VolatilityClassNone; su_Metrics := None; su_LinkMetrics := [];
     su_PollSuccess := false; su_ExpectedInterval := 30 * Second; su_Timestamp := 2000 * Second;
     su_Essential := Some {| eu_PollStatus := PollStatusFailed; eu_NetworkReachable := TriStateUnknown;
       eu_NetworkReachabilityResults := [mkProbe 22 false "timeout"; mkProbe 80 false "timeout"]; eu_SNMPReachable := TriStateFalse;
       eu_Uptime := FieldStateMissing; eu_CPU := FieldStateMissing; eu_Memory := FieldStateMissing;
       eu_DeadlineMissed := false; eu_Overloaded := false |} |}.
Definition demo_ds : DeviceState := next_state None demo_update.

Lemma failures_escalate_witness : ds_Reachability (poll_all [demo_down; demo_down; demo_down] demo_ds) = ReachabilityHardDown.
Proof.
  assert (Hp : probed TriStateFalse demo_down) by (eexists; split; reflexivity).
  destruct (failures_escalate demo_ds [demo_down; demo_down; demo_down] ltac:(vm_compute; discriminate)
    ltac:(discriminate) ltac:(repeat (apply Forall_cons; split; [exact Hp|]); apply Forall_nil; exact I)) as (_ & _ & H). exact H.
Defined.

(** Losing SNMP alone never takes a device down: an operational poll that fails leaves a
    device that was not down at no failures and not down, and marks it as degraded. *)
Theorem snmp_loss_is_not_down prev u :
  su_Essential u = None → su_VolatilityClass u = VolatilityClassOperational → su_PollSuccess u = false →
  isDownReachability (ds_Reachability prev) = false →
  let next := next_state (Some prev) u in
  isDownReachability (ds_Reachability next) = false ∧ ds_ConsecutiveFailures next = 0 ∧
  ds_SNMPReachable next = TriStateFalse ∧ ds_PrimaryHealth next = PrimaryHealthSNMPDegraded.
Proof.
  intros He Hv Hp Hd. unfold next_state. cbn [from_option id default]. unfold apply_update. rewrite He, Hv.
  set (n := applyOperationalUpdate prev prev u).
  assert (Hn : isDownReachability (ds_Reachability n) = false ∧ ds_ConsecutiveFailures n = 0 ∧
    ds_SNMPReachable n = TriStateFalse ∧ ds_PrimaryHealth n = PrimaryHealthSNMPDegraded).
  { subst n. unfold applyOperationalUpdate, applySNMPFailureOnlyUpdate. rewrite Hp, Hd. cbn [negb]. cbv zeta.
    assert (Hr : isDownReachability (if bool_decide (ds_Reachability prev = ReachabilityUp) then ReachabilityUp else ReachabilityUnknown) = false)
      by (by case_bool_decide).
    destruct (su_Metrics u) as [m|]; [destruct (dm_UptimeSecs m)|]; destruct (bool_decide (ds_Reachability _ = _)); done. }
  by destruct (bool_decide _).
Qed.

Definition demo_snmp_loss : StateUpdate :=
  {| su_DeviceID := 5; su_VolatilityClass := VolatilityClassOperational; su_Metrics := None; su_LinkMetrics := [];
     su_PollSuccess := false; su_ExpectedInterval := 60 * Second; su_Timestamp := 2000 * Second; su_Essential := None |}.

Lemma snmp_loss_is_not_down_witness : ds_PrimaryHealth (next_state (Some demo_ds) demo_snmp_loss) = PrimaryHealthSNMPDegraded.
Proof.
  exact (proj2 (proj2 (proj2 (snmp_loss_is_not_down demo_ds demo_snmp_loss eq_refl eq_refl eq_refl ltac:(vm_compute; reflexivity))))).
Defined.

(** A performance result re-evaluates the health of a device that is hard down: with a
    CPU load of 95 percent the health of a device that failed three probes turns critical,
    although it is not reachable. *)
Theorem performance_health_while_down :
  let down := poll_all [demo_down; demo_down; demo_down] demo_ds in
  let hot := {| su_DeviceID := 5; su_VolatilityClass := VolatilityClassPerformance;
                su_Metrics := Some (mkDeviceMetrics 5 (Some (f64_of_Z 95)) None None None (2100 * Second)); su_LinkMetrics := [];
                su_PollSuccess := true; su_ExpectedInterval := 30 * Second; su_Timestamp := 2100 * Second; su_Essential := None |} in
  ds_Reachability (next_state (Some down) hot) = ReachabilityHardDown ∧ ds_Health down = HealthStatusUnknown ∧
  ds_Health (next_state (Some down) hot) = HealthStatusCritical.
Proof. vm_compute. split_and!; reflexivity. Qed.

(** ** Staleness *)

(** A staleness tick marks exactly the devices whose last poll is more than two expected
    intervals ago, announces exactly those, and leaves every other device as it is. *)
Theorem staleness_exact range now st :
  range_devices_ok range →
  let '(st', ids) := markStale_locked range now st in
  (∀ id, st_devices st' !! id = stale_after now <$> st_devices st !! id) ∧
  (∀ id, id ∈ ids ↔ ∃ ds, st_devices st !! id = Some ds ∧ is_stale_due now ds = true).
Proof.
  intros Hr. destruct (markStale_locked_spec range now st Hr) as (A & B & _). by destruct (markStale_locked range now st).
Qed.

Lemma staleness_exact_witness :
  5 ∈ (markStale_locked map_to_list (2000 * Second) (Update_locked demo_update NewStore).1).2.
Proof.
  pose proof (staleness_exact map_to_list (2000 * Second) (Update_locked demo_update NewStore).1 (λ m, Permutation_refl _)) as H.
  destruct (markStale_locked _ _ _) as [st' ids]. apply (proj2 H). eexists. split; [reflexivity|vm_compute; reflexivity].
Defined.
