(* ===== verification/Runtime.v ===== *)
(** * The runtime overview: what clients see of a device and of a link

    [internal/worker/runtime_normalizer.go] and the snapshot part of
    [internal/worker/snapshot_builder.go]: the state of the store, the alerts and the
    Prometheus status become one normalized record per device and per link.  The compatibility
    maps of a snapshot are derived from it and never sent; they are left out.  Lower-casing
    beyond ASCII ([strings.ToLower]) is the parameter [unicode_lower]; the fold of the three
    words compared with [strings.EqualFold] does not go beyond ASCII. *)

From S2P Require Import Prelude GoLib GoText Domain StateStore.

(** ** Data *)

Record AlertState := {
  al_DeviceID : UUID; al_Instance : string; al_Severity : string; al_AlertName : string; al_State : string; al_Summary : string }.

(** The fields of [domain.Link] that are read. *)
Record Link := {
  lk_ID : UUID; lk_SourceDeviceID : UUID; lk_SourceIfName : string; lk_TargetDeviceID : UUID; lk_TargetIfName : string;
  lk_CreatedAt : Time }.

Record PrometheusStatusPayload := { ps_Enabled : bool; ps_Available : bool; ps_Error : string }.

(** A [nil] slice of flags is [None]. *)
Record DeviceRuntimeDTO := mkDeviceDTO {
  rt_DeviceID : string;
  rt_OperationalStatus : string;
  rt_PrimaryHealth : string;
  rt_RuntimeFlags : option (list string);
  rt_FieldStates : gmap string string;
  rt_NetworkReachable : string;
  rt_SNMPReachable : string;
  rt_Reachability : string;
  rt_Health : string;
  rt_Freshness : string;
  rt_PrimaryReason : string;
  rt_MetricsStatus : string;
  rt_MetricsReason : string;
  rt_AlertStatus : string;
  rt_FiringAlertCount : Z;
  rt_LastCollectedAt : option string;
  rt_LastPolledAt : option string;
  rt_ExpectedPollIntervalSeconds : option float64;
  rt_CPUPercent : option float64;
  rt_MemPercent : option float64;
  rt_TempCelsius : option float64;
  rt_UptimeSecs : option float64;
  rt_CollectedAt : string;
  rt_Stale : option bool }.

Record LinkRuntimeDTO := mkLinkDTO {
  lr_LinkID : string;
  lr_SourceDeviceID : string;
  lr_TargetDeviceID : string;
  lr_SourceIfName : string;
  lr_TargetIfName : string;
  lr_MetricsStatus : string;
  lr_MetricsReason : string;
  lr_LastCollectedAt : option string;
  lr_TxBps : option float64;
  lr_RxBps : option float64;
  lr_Utilization : option float64;
  lr_DeviceID : string;
  lr_IfName : string;
  lr_CollectedAt : string }.

(** The zero values, read from a map at an absent key. *)
Definition zeroDeviceDTO : DeviceRuntimeDTO :=
  mkDeviceDTO "" "" "" None ∅ "" "" "" "" "" "" "" "" "" 0 None None None None None None None "" None.
Definition zeroLinkDTO : LinkRuntimeDTO := mkLinkDTO "" "" "" "" "" "" "" None None None None "" "" "".

Record SnapshotPayload := mkSnapshot {
  sn_Devices : gmap string DeviceRuntimeDTO;
  sn_Links : gmap string LinkRuntimeDTO }.
Definition EmptySnapshot : SnapshotPayload := mkSnapshot ∅ ∅.

(** ** Copies *)

(** [cloneDeviceRuntimeDTO]: a missing list of flags becomes an empty one. *)
Definition cloneDeviceRuntimeDTO (r : DeviceRuntimeDTO) : DeviceRuntimeDTO :=
  mkDeviceDTO (rt_DeviceID r) (rt_OperationalStatus r) (rt_PrimaryHealth r) (Some (default [] (rt_RuntimeFlags r))) (rt_FieldStates r)
    (rt_NetworkReachable r) (rt_SNMPReachable r) (rt_Reachability r) (rt_Health r) (rt_Freshness r) (rt_PrimaryReason r)
    (rt_MetricsStatus r) (rt_MetricsReason r) (rt_AlertStatus r) (rt_FiringAlertCount r) (rt_LastCollectedAt r) (rt_LastPolledAt r)
    (rt_ExpectedPollIntervalSeconds r) (rt_CPUPercent r) (rt_MemPercent r) (rt_TempCelsius r) (rt_UptimeSecs r)
    (rt_CollectedAt r) (rt_Stale r).

Definition CloneSnapshot (s : option SnapshotPayload) : SnapshotPayload :=
  match s with
  | None => EmptySnapshot
  | Some s => mkSnapshot (cloneDeviceRuntimeDTO <$> sn_Devices s) (sn_Links s)
  end.

(** ** The words of the wire format *)

Definition HealthStatus_string (h : HealthStatus) : string :=
  match h with
  | HealthNone => "" | HealthStatusHealthy => "healthy" | HealthStatusWarning => "warning"
  | HealthStatusCritical => "critical" | HealthStatusUnknown => "unknown"
  end.
Definition TriState_string (t : TriState) : string :=
  match t with TriStateNone => "" | TriStateTrue => "true" | TriStateFalse => "false" | TriStateUnknown => "unknown" end.
Definition FieldState_string (f : FieldState) : string :=
  match f with
  | FieldStateNone => "" | FieldStateOK => "ok" | FieldStateMissing => "missing" | FieldStateError => "error"
  | FieldStateStale => "stale"
  end.
Definition PrimaryHealth_string (p : PrimaryHealth) : string :=
  match p with
  | PrimaryHealthNone => "" | PrimaryHealthProbing => "probing" | PrimaryHealthUpFresh => "up_fresh"
  | PrimaryHealthUpStale => "up_stale" | PrimaryHealthSNMPDegraded => "snmp_degraded"
  | PrimaryHealthUnreachable => "unreachable" | PrimaryHealthQuarantined => "quarantined"
  end.
Definition RuntimeFlag_string (f : RuntimeFlag) : string :=
  match f with
  | FlagDeadlineMissed => "deadline_missed" | FlagOverloaded => "overloaded"
  | FlagBackgroundPending => "background_pending" | FlagPartialTelemetry => "partial_telemetry"
  | FlagDegradedRisk => "degraded_risk" | FlagPersistenceLagging => "persistence_lagging"
  end.
Inductive AlertStatus := AlertStatusNormal | AlertStatusDegraded | AlertStatusDown.
#[export] Instance AlertStatus_eq_dec : EqDecision AlertStatus. Proof. solve_decision. Defined.
Definition AlertStatus_string (a : AlertStatus) : string :=
  match a with AlertStatusNormal => "normal" | AlertStatusDegraded => "degraded" | AlertStatusDown => "down" end.

Definition reason_ok : string := "ok".
Definition reason_awaiting_poll : string := "awaiting_poll".
Definition reason_stale : string := "stale".
Definition reason_device_unreachable : string := "device_unreachable".
Definition reason_upstream_unavailable : string := "upstream_unavailable".
Definition reason_no_data : string := "no_data".
Definition reason_unmonitored : string := "unmonitored".
Definition reason_unsupported : string := "unsupported".

(** ** Normalization of a device *)

Definition deviceMetricCount (m : DeviceMetrics) : Z :=
  (if dm_CPUPercent m then 1 else 0) + (if dm_MemPercent m then 1 else 0) + (if dm_UptimeSecs m then 1 else 0).

Definition deviceDependsOnPrometheus (d : Device) : bool :=
  let src := if String.eqb (dev_MetricsSource d) "" then MetricsSourcePrometheus else dev_MetricsSource d in
  String.eqb src MetricsSourcePrometheus || String.eqb src MetricsSourcePrometheusSNMPFallback.

Definition isUnsupportedDevice (d : Device) : bool :=
  String.eqb (dev_MetricsSource d) MetricsSourceNone && negb (String.eqb (dev_DeviceType d) DeviceTypeVirtual).

Definition isPrometheusBlocked (d : Device) (ds : DeviceState) (prom : PrometheusStatusPayload) : bool :=
  if negb (deviceDependsOnPrometheus d) || negb (ps_Enabled prom) || ps_Available prom then false
  else deviceMetricCount (ds_Metrics ds) =? 0.

Definition normalizeDeviceFreshness (ds : DeviceState) : string :=
  if Time_IsZero (ds_LastPolledAt ds) && Time_IsZero (dm_CollectedAt (ds_Metrics ds)) then "awaiting_poll"
  else if ds_Stale ds then "stale" else "fresh".

Definition normalizeDeviceReachability (ds : DeviceState) : string :=
  match ds_Reachability ds with
  | ReachabilityUp => "up" | ReachabilitySoftDown => "soft_down" | ReachabilityHardDown => "hard_down" | _ => "unknown"
  end.

Definition primaryHealthForDTO (ds : DeviceState) : PrimaryHealth :=
  if negb (bool_decide (ds_PrimaryHealth ds = PrimaryHealthNone)) then ds_PrimaryHealth ds
  else if ds_Stale ds then PrimaryHealthUpStale
  else match ds_Reachability ds with
  | ReachabilityUp => PrimaryHealthUpFresh
  | ReachabilitySoftDown => PrimaryHealthSNMPDegraded
  | ReachabilityHardDown => PrimaryHealthUnreachable
  | _ => PrimaryHealthProbing
  end.

Definition runtimeFlagsForDTO (flags : gmap RuntimeFlag bool) : list string :=
  sort_Strings (omap (λ '(flag, enabled), if (enabled : bool) then Some (RuntimeFlag_string flag) else None) (map_to_list flags)).

Definition fieldStatesForDTO (fields : gmap string FieldState) : gmap string string :=
  let out := <["uptime" := FieldState_string FieldStateMissing]>
               (<["cpu" := FieldState_string FieldStateMissing]>
                  {[ "memory" := FieldState_string FieldStateMissing ]}) in
  (FieldState_string <$> fields) ∪ out.

Definition reachabilityEvidenceForDTO (value : TriState) : TriState :=
  if bool_decide (value = TriStateNone) then TriStateUnknown else value.

Definition normalizeDevicePrimaryReason (d : Device) (ds : DeviceState) (prom : PrometheusStatusPayload) (freshness : string) : string :=
  if isUnsupportedDevice d then reason_unsupported
  else if isPrometheusBlocked d ds prom then reason_upstream_unavailable
  else if bool_decide (ds_Reachability ds = ReachabilityHardDown) then reason_device_unreachable
  else if String.eqb freshness "awaiting_poll" then reason_awaiting_poll
  else if String.eqb freshness "stale" then reason_stale
  else reason_ok.

Definition normalizeOperationalStatus (d : Device) (ds : DeviceState) (freshness primaryReason : string) : string :=
  if String.eqb primaryReason reason_unsupported || String.eqb primaryReason reason_upstream_unavailable then "unknown"
  else match ds_Reachability ds with
  | ReachabilityUp => "up"
  | ReachabilitySoftDown => "probing"
  | ReachabilityHardDown => "down"
  | _ => if String.eqb freshness "awaiting_poll" then "probing" else "unknown"
  end.

Definition normalizeDeviceMetricsStatus (d : Device) (ds : DeviceState) (prom : PrometheusStatusPayload) (freshness : string)
  : string * string :=
  if isUnsupportedDevice d then ("unavailable", reason_unsupported)%string
  else if isPrometheusBlocked d ds prom then ("unavailable", reason_upstream_unavailable)%string
  else if bool_decide (ds_Reachability ds = ReachabilityHardDown) then ("unavailable", reason_device_unreachable)%string
  else if String.eqb freshness "stale" then ("unavailable", reason_stale)%string
  else
    let metricCount := deviceMetricCount (ds_Metrics ds) in
    if metricCount =? 0 then
      if String.eqb freshness "awaiting_poll" then ("unavailable", reason_awaiting_poll)%string
      else ("unavailable", reason_no_data)%string
    else if metricCount <? 3 then ("partial", reason_ok)%string
    else ("available", reason_ok)%string.

(** The loop of [summarizeAlerts]. *)
Definition alert_step (acc : AlertStatus * Z) (alert : AlertState) : AlertStatus * Z :=
  let '(status, firingCount) := acc in
  if negb (EqualFold (al_State alert) "firing") then acc
  else
    (if EqualFold (al_Severity alert) "critical" then AlertStatusDown
     else if negb (bool_decide (status = AlertStatusDown)) then AlertStatusDegraded else status, firingCount + 1).
Definition summarizeAlerts (alerts : list AlertState) : AlertStatus * Z := foldl alert_step (AlertStatusNormal, 0) alerts.

Definition timestampPtr (t : Time) : option string := if Time_IsZero t then None else Some (FormatRFC3339 t).
Definition stringValue (v : option string) : string := default "" v.
Definition durationSecondsPtr (d : Duration) : option float64 := if d <=? 0 then None else Some (Seconds d).
Definition staleCompatibilityPtr (freshness : string) : option bool := Some (String.eqb freshness "stale").

(** [if health == "" { health = "unknown" }] *)
Definition health_word (ds : DeviceState) : string :=
  if bool_decide (ds_Health ds = HealthNone) then HealthStatus_string HealthStatusUnknown else HealthStatus_string (ds_Health ds).

Definition normalizeVirtualWithIPDeviceRuntimeDTO (d : Device) (ds : DeviceState) (alerts : list AlertState) : DeviceRuntimeDTO :=
  let d := with_metrics_source MetricsSourceNone d in
  let ds := ds <| ds_Metrics := zeroMetrics |> in
  let freshness := normalizeDeviceFreshness ds in
  let primaryReason := normalizeDevicePrimaryReason d ds {| ps_Enabled := false; ps_Available := false; ps_Error := "" |} freshness in
  let '(alertStatus, firingAlertCount) := summarizeAlerts alerts in
  {| rt_DeviceID := uuid_String (dev_ID d);
     rt_OperationalStatus := normalizeOperationalStatus d ds freshness primaryReason;
     rt_PrimaryHealth := PrimaryHealth_string (primaryHealthForDTO ds);
     rt_RuntimeFlags := Some (runtimeFlagsForDTO (ds_RuntimeFlags ds));
     rt_FieldStates := fieldStatesForDTO ∅;
     rt_NetworkReachable := TriState_string (reachabilityEvidenceForDTO (ds_NetworkReachable ds));
     rt_SNMPReachable := TriState_string TriStateUnknown;
     rt_Reachability := normalizeDeviceReachability ds;
     rt_Health := health_word ds;
     rt_Freshness := freshness;
     rt_PrimaryReason := primaryReason;
     rt_MetricsStatus := "unmonitored";
     rt_MetricsReason := reason_unmonitored;
     rt_AlertStatus := AlertStatus_string alertStatus;
     rt_FiringAlertCount := firingAlertCount;
     rt_LastCollectedAt := None;
     rt_LastPolledAt := timestampPtr (ds_LastPolledAt ds);
     rt_ExpectedPollIntervalSeconds := durationSecondsPtr (ds_ExpectedInterval ds);
     rt_CPUPercent := None; rt_MemPercent := None; rt_TempCelsius := None; rt_UptimeSecs := None;
     rt_CollectedAt := "";
     rt_Stale := staleCompatibilityPtr freshness |}.

Definition unmonitoredDTO (d : Device) : DeviceRuntimeDTO :=
  {| rt_DeviceID := uuid_String (dev_ID d);
     rt_OperationalStatus := "unmonitored";
     rt_PrimaryHealth := PrimaryHealth_string PrimaryHealthProbing;
     rt_RuntimeFlags := Some [];
     rt_FieldStates := fieldStatesForDTO ∅;
     rt_NetworkReachable := TriState_string TriStateUnknown;
     rt_SNMPReachable := TriState_string TriStateUnknown;
     rt_Reachability := "unmonitored";
     rt_Health := HealthStatus_string HealthStatusUnknown;
     rt_Freshness := "unmonitored";
     rt_PrimaryReason := reason_unmonitored;
     rt_MetricsStatus := "unmonitored";
     rt_MetricsReason := reason_unmonitored;
     rt_AlertStatus := AlertStatus_string AlertStatusNormal;
     rt_FiringAlertCount := 0;
     rt_LastCollectedAt := None; rt_LastPolledAt := None; rt_ExpectedPollIntervalSeconds := None;
     rt_CPUPercent := None; rt_MemPercent := None; rt_TempCelsius := None; rt_UptimeSecs := None;
     rt_CollectedAt := ""; rt_Stale := None |}.

Definition normalizeDeviceRuntimeDTO (d : Device) (ds : DeviceState) (alerts : list AlertState) (prom : PrometheusStatusPayload)
  : DeviceRuntimeDTO :=
  if IsVirtualNoIPDevice d then unmonitoredDTO d
  else if IsVirtualWithIPDevice d then normalizeVirtualWithIPDeviceRuntimeDTO d ds alerts
  else
    let freshness := normalizeDeviceFreshness ds in
    let primaryReason := normalizeDevicePrimaryReason d ds prom freshness in
    let '(metricsStatus, metricsReason) := normalizeDeviceMetricsStatus d ds prom freshness in
    let '(alertStatus, firingAlertCount) := summarizeAlerts alerts in
    let m := ds_Metrics ds in
    {| rt_DeviceID := uuid_String (dev_ID d);
       rt_OperationalStatus := normalizeOperationalStatus d ds freshness primaryReason;
       rt_PrimaryHealth := PrimaryHealth_string (primaryHealthForDTO ds);
       rt_RuntimeFlags := Some (runtimeFlagsForDTO (ds_RuntimeFlags ds));
       rt_FieldStates := fieldStatesForDTO (ds_FieldStates ds);
       rt_NetworkReachable := TriState_string (reachabilityEvidenceForDTO (ds_NetworkReachable ds));
       rt_SNMPReachable := TriState_string (reachabilityEvidenceForDTO (ds_SNMPReachable ds));
       rt_Reachability := normalizeDeviceReachability ds;
       rt_Health := health_word ds;
       rt_Freshness := freshness;
       rt_PrimaryReason := primaryReason;
       rt_MetricsStatus := metricsStatus;
       rt_MetricsReason := metricsReason;
       rt_AlertStatus := AlertStatus_string alertStatus;
       rt_FiringAlertCount := firingAlertCount;
       rt_LastCollectedAt := timestampPtr (dm_CollectedAt m);
       rt_LastPolledAt := timestampPtr (ds_LastPolledAt ds);
       rt_ExpectedPollIntervalSeconds := durationSecondsPtr (ds_ExpectedInterval ds);
       rt_CPUPercent := dm_CPUPercent m;
       rt_MemPercent := dm_MemPercent m;
       rt_TempCelsius := dm_TempCelsius m;
       rt_UptimeSecs := dm_UptimeSecs m;
       rt_CollectedAt := stringValue (timestampPtr (dm_CollectedAt m));
       rt_Stale := staleCompatibilityPtr freshness |}.

(** ** Normalization of a link *)

(** The reasons a link takes over from its devices, first match first. *)
Fixpoint inherited_reason (reasons : list string) : string * string :=
  match reasons with
  | [] => ("unavailable", reason_no_data)%string
  | reason :: rest =>
    if str_in reason [reason_upstream_unavailable; reason_device_unreachable; reason_stale; reason_awaiting_poll;
                      reason_unmonitored; reason_unsupported]
    then ("unavailable"%string, reason) else inherited_reason rest
  end.

Definition linkMetricCount (m : LinkMetrics) : Z :=
  (if lm_TxBps m then 1 else 0) + (if lm_RxBps m then 1 else 0) + (if lm_Utilization m then 1 else 0).

Definition normalizeLinkMetricsStatus (metric : option LinkMetrics) (source target : DeviceRuntimeDTO) : string * string :=
  let inherited := inherited_reason [rt_PrimaryReason source; rt_PrimaryReason target; rt_MetricsReason source; rt_MetricsReason target] in
  match metric with
  | Some m =>
    let count := linkMetricCount m in
    if count =? 3 then ("available", reason_ok)%string
    else if 0 <? count then ("partial", reason_ok)%string
    else inherited
  | None => inherited
  end.

Definition normalizeLinkRuntimeDTO (link : Link) (metric : option LinkMetrics) (source target : DeviceRuntimeDTO) : LinkRuntimeDTO :=
  let '(metricsStatus, metricsReason) := normalizeLinkMetricsStatus metric source target in
  let lastCollectedAt := metric ≫= λ m, timestampPtr (lm_CollectedAt m) in
  let sourceID := uuid_String (lk_SourceDeviceID link) in
  {| lr_LinkID := uuid_String (lk_ID link);
     lr_SourceDeviceID := sourceID;
     lr_TargetDeviceID := uuid_String (lk_TargetDeviceID link);
     lr_SourceIfName := lk_SourceIfName link;
     lr_TargetIfName := lk_TargetIfName link;
     lr_MetricsStatus := metricsStatus;
     lr_MetricsReason := metricsReason;
     lr_LastCollectedAt := lastCollectedAt;
     lr_TxBps := metric ≫= lm_TxBps;
     lr_RxBps := metric ≫= lm_RxBps;
     lr_Utilization := metric ≫= lm_Utilization;
     lr_DeviceID := match metric with
                    | Some m => if lm_DeviceID m =? uuid_Nil then sourceID else uuid_String (lm_DeviceID m)
                    | None => sourceID
                    end;
     lr_IfName := match metric with
                  | Some m => if String.eqb (lm_IfName m) "" then lk_SourceIfName link else lm_IfName m
                  | None => lk_SourceIfName link
                  end;
     lr_CollectedAt := stringValue lastCollectedAt |}.

Section builder.
Context (unicode_lower : string → string).

Definition normalizeInterfaceName (name : string) : string := ToLower unicode_lower (TrimSpace name).

Definition sameInterface (d : Device) (observedIfName linkIfName : string) : bool :=
  let observed := normalizeInterfaceName observedIfName in
  let linkName := normalizeInterfaceName linkIfName in
  if String.eqb observed "" || String.eqb linkName "" then false
  else if String.eqb observed linkName then true
  else existsb (λ iface,
    let ifaceName := normalizeInterfaceName (if_IfName iface) in
    let ifaceDescr := normalizeInterfaceName (if_IfDescr iface) in
    (String.eqb observed ifaceName || String.eqb observed ifaceDescr)
    && (String.eqb linkName ifaceName || String.eqb linkName ifaceDescr)) (dev_Interfaces d).

(** The identifier of the first link at whose end the interface is; the empty string if there is none. *)
Fixpoint matchLinkID (d : Device) (links : list Link) (metricIfName : string) : string :=
  match links with
  | [] => ""
  | link :: rest =>
    if (lk_SourceDeviceID link =? dev_ID d) && sameInterface d metricIfName (lk_SourceIfName link) then uuid_String (lk_ID link)
    else if (lk_TargetDeviceID link =? dev_ID d) && sameInterface d metricIfName (lk_TargetIfName link) then uuid_String (lk_ID link)
    else matchLinkID d rest metricIfName
  end.

Definition interfaceSpeed (d : Device) (observedIfName : string) : Z :=
  let observed := normalizeInterfaceName observedIfName in
  match list_find (λ iface, String.eqb observed (normalizeInterfaceName (if_IfName iface))
                            || String.eqb observed (normalizeInterfaceName (if_IfDescr iface))) (dev_Interfaces d) with
  | Some (_, iface) => if_Speed iface
  | None => 0
  end.

Definition computeUtilization (d : Device) (observedIfName : string) (metric : LinkMetrics) : option float64 :=
  let speed := interfaceSpeed d observedIfName in
  if speed <=? 0 then lm_Utilization metric
  else
    let maxRate := match lm_TxBps metric, lm_RxBps metric with
      | Some tx, Some rx => Some (if f64_lt tx rx then rx else tx)
      | Some tx, None => Some tx
      | None, rx => rx
      end in
    (λ r, f64_max (f64_of_Z 0) (f64_div r (f64_of_Z speed))) <$> maxRate.

Definition buildDeviceLinkMetrics (d : Device) (links : list Link) (metrics : list LinkMetrics) : list LinkMetrics :=
  omap (λ metric,
    let linkID := matchLinkID d links (lm_IfName metric) in
    if String.eqb linkID "" then None
    else Some (mkLinkMetrics linkID (dev_ID d) (lm_IfName metric) (lm_TxBps metric) (lm_RxBps metric)
                 (match computeUtilization d (lm_IfName metric) metric with
                  | Some u => Some u
                  | None => lm_Utilization metric
                  end) (lm_CollectedAt metric))) metrics.

(** The first metric of the source device for the link, or else the first one of the target device. *)
Definition selectNormalizedLinkMetric (link : Link) (source target : Device) (sourceMetrics targetMetrics : list LinkMetrics)
  : option LinkMetrics :=
  let candidate d metrics :=
    snd <$> list_find (λ c, lm_LinkID c = uuid_String (lk_ID link)) (buildDeviceLinkMetrics d [link] metrics) in
  match candidate source sourceMetrics with
  | Some m => Some m
  | None => candidate target targetMetrics
  end.

Definition buildPipelineSnapshot (devices : list Device) (links : list Link) (states : gmap UUID DeviceState)
  (alerts : gmap UUID (list AlertState)) (prom : PrometheusStatusPayload) : SnapshotPayload :=
  let state_of id := default zeroDeviceState (states !! id) in
  let '(byID, deviceDTOs) := foldl (λ '(byID, dtos) d,
      (<[dev_ID d := d]> byID,
       <[uuid_String (dev_ID d) := normalizeDeviceRuntimeDTO d (state_of (dev_ID d)) (default [] (alerts !! dev_ID d)) prom]> dtos))
    ((∅ : gmap UUID Device), (∅ : gmap string DeviceRuntimeDTO)) devices in
  let device_of id := default zeroDevice (byID !! id) in
  let dto_of id := default zeroDeviceDTO (deviceDTOs !! uuid_String id) in
  let linkDTOs := foldl (λ dtos link,
      let metric := selectNormalizedLinkMetric link (device_of (lk_SourceDeviceID link)) (device_of (lk_TargetDeviceID link))
                      (ds_LinkMetrics (state_of (lk_SourceDeviceID link))) (ds_LinkMetrics (state_of (lk_TargetDeviceID link))) in
      <[uuid_String (lk_ID link) :=
          normalizeLinkRuntimeDTO link metric (dto_of (lk_SourceDeviceID link)) (dto_of (lk_TargetDeviceID link))]> dtos)
    (∅ : gmap string LinkRuntimeDTO) links in
  mkSnapshot deviceDTOs linkDTOs.
End builder.
