(* ===== verification/MapSource.v ===== *)
(** * The saved-map device source

    [internal/scheduler/map_membership_source.go]: recurring polling only sees devices
    that belong to at least one saved map.  The repositories are interfaces: a record of
    their operations, with [None] for the optional [ListMemberDeviceIDs]. *)

From S2P Require Import Prelude GoLib Domain Scheduler SchedOps.

Record canvasMapMembershipSource := {
  repo_List : result (list UUID);
  repo_GetMembership : UUID → result (list UUID);
  repo_ListMemberDeviceIDs : option (result (list UUID)) }.

Record savedMapDeviceSource := {
  src_GetDevices : result (list Device);
  src_mapRepo : option canvasMapMembershipSource }.

(** [memberIDs[id] = struct{}{}] for every [id] that is not [uuid.Nil] *)
Definition add_members (memberIDs : gset UUID) (ids : list UUID) : gset UUID :=
  foldl (λ m id, if negb (id =? uuid_Nil) then {[id]} ∪ m else m) memberIDs ids.

Fixpoint collect_members (repo : canvasMapMembershipSource) (maps : list UUID) (memberIDs : gset UUID) : result (gset UUID) :=
  match maps with
  | [] => Ok memberIDs
  | m :: maps =>
    match repo_GetMembership repo m with
    | Err err => Err ("loading saved map membership " +:+ uuid_String m +:+ ": " +:+ err)%string
    | Ok ids => collect_members repo maps (add_members memberIDs ids)
    end
  end.

Definition savedMapMemberIDs (repo : canvasMapMembershipSource) : result (gset UUID) :=
  match repo_ListMemberDeviceIDs repo with
  | Some r => let! ids := r in Ok (add_members ∅ ids)
  | None => let! maps := repo_List repo in collect_members repo maps ∅
  end.

Definition GetDevices (s : savedMapDeviceSource) : result (list Device) :=
  let! devices := src_GetDevices s in
  match src_mapRepo s with
  | None => Ok devices
  | Some repo =>
    let! memberIDs := savedMapMemberIDs repo in
    if bool_decide (memberIDs = ∅) || bool_decide (length devices = 0%nat) then Ok []
    else Ok (foldl (λ filtered d, if bool_decide (dev_ID d ∈ memberIDs) then filtered ++ [d] else filtered) [] devices)
  end.

Definition IncludesDevice (s : savedMapDeviceSource) (id : UUID) : result bool :=
  match src_mapRepo s with
  | None => Ok true
  | Some repo => let! memberIDs := savedMapMemberIDs repo in Ok (bool_decide (id ∈ memberIDs))
  end.

(** [NewSavedMapDeviceSource] as the device source of the scheduler. *)
Definition with_source (s : savedMapDeviceSource) (e : Env) : Env :=
  {| env_now := env_now e; env_settings := env_settings e; env_ParseFloat := env_ParseFloat e;
     env_GetDevices := GetDevices s; env_IncludesDevice := Some (IncludesDevice s);
     env_sample := env_sample e; env_range := env_range e |}.

(** ** Membership *)

Lemma elem_of_add_members memberIDs ids x :
  x ∈ add_members memberIDs ids ↔ x ∈ memberIDs ∨ x ∈ ids ∧ x ≠ uuid_Nil.
Proof.
  unfold add_members. revert memberIDs. induction ids as [|i ids IH]; intros memberIDs; simpl; [set_solver|].
  rewrite IH. destruct (i =? uuid_Nil) eqn:E; to_prop; simpl; rewrite elem_of_cons; [naive_solver|].
  rewrite elem_of_union, elem_of_singleton. naive_solver.
Qed.

Lemma collect_members_Ok repo maps memberIDs r :
  collect_members repo maps memberIDs = Ok r →
  ∀ x, x ∈ r ↔ x ∈ memberIDs ∨ x ≠ uuid_Nil ∧ ∃ m ids, m ∈ maps ∧ repo_GetMembership repo m = Ok ids ∧ x ∈ ids.
Proof.
  revert memberIDs. induction maps as [|m maps IH]; intros memberIDs; simpl.
  - intros [= <-] x. set_solver.
  - destruct (repo_GetMembership repo m) as [ids|] eqn:Hm; [|done]. intros Hr x. rewrite (IH _ Hr), elem_of_add_members.
    setoid_rewrite elem_of_cons. split; [intros [[Hx|[Hx Hn]]|(Hn & m' & ids' & Hm' & Hg & Hx)]|intros [Hx|(Hn & m' & ids' & [->|Hm'] & Hg & Hx)]].
    + by left.
    + right. split; [done|]. exists m, ids. tauto.
    + right. split; [done|]. exists m', ids'. tauto.
    + tauto.
    + left. right. split; [congruence|done].
    + right. split; [done|]. exists m', ids'. tauto.
Qed.

(** What it means to be on a saved map. *)
Definition on_saved_map (repo : canvasMapMembershipSource) (x : UUID) : Prop :=
  x ≠ uuid_Nil ∧
  match repo_ListMemberDeviceIDs repo with
  | Some r => ∃ ids, r = Ok ids ∧ x ∈ ids
  | None => ∃ maps m ids, repo_List repo = Ok maps ∧ m ∈ maps ∧ repo_GetMembership repo m = Ok ids ∧ x ∈ ids
  end.

Lemma savedMapMemberIDs_Ok repo r : savedMapMemberIDs repo = Ok r → ∀ x, x ∈ r ↔ on_saved_map repo x.
Proof.
  unfold savedMapMemberIDs, on_saved_map. intros Hr x. destruct (repo_ListMemberDeviceIDs repo) as [[ids|]|]; simpl in Hr; try done.
  - injection Hr as <-. rewrite elem_of_add_members. set_solver.
  - destruct (repo_List repo) as [maps|]; simpl in Hr; [|done]. rewrite (collect_members_Ok _ _ _ _ Hr). set_solver.
Qed.

Lemma filter_loop (memberIDs : gset UUID) acc devices :
  foldl (λ filtered d, if bool_decide (dev_ID d ∈ memberIDs) then filtered ++ [d] else filtered) acc devices =
  acc ++ filter (λ d, dev_ID d ∈ memberIDs) devices.
Proof.
  revert acc. induction devices as [|d devices IH]; intros acc; simpl; [by rewrite app_nil_r|]. rewrite IH, filter_cons.
  case_bool_decide; [rewrite decide_True by done; by rewrite <- app_assoc|by rewrite decide_False].
Qed.

Lemma filter_members (memberIDs : gset UUID) (devices : list Device) :
  (if bool_decide (memberIDs = ∅) || bool_decide (length devices = 0%nat) then Ok []
   else Ok (foldl (λ filtered d, if bool_decide (dev_ID d ∈ memberIDs) then filtered ++ [d] else filtered) [] devices))
  = Ok (filter (λ d, dev_ID d ∈ memberIDs) devices).
Proof.
  destruct (_ || _) eqn:E; [|by rewrite filter_loop]. f_equal. apply orb_true_iff in E as [E|E]; to_prop.
  - subst. induction devices as [|d devices IH]; [done|]. rewrite filter_cons, decide_False; [done|set_solver].
  - by destruct devices.
Qed.

(** ** Properties *)

(** C34: The source and its membership gate agree, and both mean the saved maps.  When the
    member list and the inventory can be read, the devices the scheduler sees are those of
    the inventory, in order, for which [IncludesDevice] answers yes, which are those with a
    non-nil identifier on a saved map; when the member list cannot be read, both fail, and
    the gate as used by the scheduler excludes the device. *)
Theorem saved_map_membership devices repo e :
  let src := {| src_GetDevices := Ok devices; src_mapRepo := Some repo |} in
  match savedMapMemberIDs repo with
  | Ok members =>
    GetDevices src = Ok (filter (λ d, IncludesDevice src (dev_ID d) = Ok true) devices) ∧
    (∀ id, IncludesDevice src id = Ok (bool_decide (id ∈ members)) ∧ (id ∈ members ↔ on_saved_map repo id))
  | Err err => GetDevices src = Err err ∧ ∀ id, IncludesDevice src id = Err err ∧ sourceIncludesDevice (with_source src e) id = false
  end.
Proof.
  intros src. destruct (savedMapMemberIDs repo) as [members|err] eqn:Hm.
  - assert (Hi : ∀ id, IncludesDevice src id = Ok (bool_decide (id ∈ members))) by (intros id; unfold IncludesDevice; simpl; by rewrite Hm).
    split.
    + unfold GetDevices. simpl. rewrite Hm. simpl. rewrite filter_members. f_equal. apply filter_ext_elem. intros d _. rewrite Hi.
      split; [intros H; by rewrite bool_decide_eq_true_2|]. intros [= H]. by apply bool_decide_eq_true_1 in H.
    + intros id. split; [done|by apply savedMapMemberIDs_Ok].
  - split; [unfold GetDevices; simpl; by rewrite Hm|]. intros id.
    assert (Hi : IncludesDevice src id = Err err) by (unfold IncludesDevice; simpl; by rewrite Hm). split; [done|].
    unfold sourceIncludesDevice, with_source. cbn [env_IncludesDevice]. by rewrite Hi.
Qed.
