(* ===== verification/Rates.v ===== *)
(** * Throughput from interface counters

    [internal/collector/rates.go]: raw octet counters become per-interface rates against
    the baseline of the previous sample; an implausible sample (time going backwards, a
    counter reset, an unknown speed, a rate above the line speed) puts the interface in
    warm-up, so that the next sample is a baseline only. *)

From S2P Require Import Prelude GoLib StateStore.

Record InterfaceCounterSnapshot := mkCounter {
  ic_IfName : string;
  ic_InOctets : Z;
  ic_OutOctets : Z;
  ic_SpeedBps : Z }.

Record CounterBaseline := mkBaseline {
  cb_InOctets : Z;
  cb_OutOctets : Z;
  cb_SampledAt : Time;
  cb_NeedsWarmup : bool }.

Definition warmupBaseline (b : CounterBaseline) : CounterBaseline :=
  mkBaseline (cb_InOctets b) (cb_OutOctets b) (cb_SampledAt b) true.

Definition cloneCounterBaselines (previous : gmap string CounterBaseline) : gmap string CounterBaseline := previous.

(** [float64(current-previous) * 8.0 / dt], the subtraction on [uint64] *)
Definition bps (current previous : Z) (dt : float64) : float64 :=
  f64_div (f64_mul (f64_of_Z (uint64_wrap (current - previous))) (f64_of_Z 8)) dt.

(** One iteration of the loop: the baseline to keep and the metrics to append. *)
Definition sample (previous : gmap string CounterBaseline) (collectedAt : Time) (counter : InterfaceCounterSnapshot)
  : CounterBaseline * option LinkMetrics :=
  let baseline := mkBaseline (ic_InOctets counter) (ic_OutOctets counter) collectedAt false in
  match previous !! ic_IfName counter with
  | None => (baseline, None)
  | Some prev =>
    if cb_NeedsWarmup prev then (baseline, None)
    else if negb (Time_After collectedAt (cb_SampledAt prev)) then (warmupBaseline baseline, None)
    else if (ic_InOctets counter <? cb_InOctets prev) || (ic_OutOctets counter <? cb_OutOctets prev)
    then (warmupBaseline baseline, None)
    else if ic_SpeedBps counter <=? 0 then (warmupBaseline baseline, None)
    else
      let dt := Seconds (Time_Sub collectedAt (cb_SampledAt prev)) in
      let rxBps := bps (ic_InOctets counter) (cb_InOctets prev) dt in
      let txBps := bps (ic_OutOctets counter) (cb_OutOctets prev) dt in
      if f64_lt (f64_mul (f64_of_Z (ic_SpeedBps counter)) (f64_lit 11 1)) (f64_max txBps rxBps)
      then (warmupBaseline baseline, None)
      else (baseline, Some (mkLinkMetrics "" uuid_Nil (ic_IfName counter) (Some txBps) (Some rxBps) None collectedAt))
  end.

Definition rates_step (previous : gmap string CounterBaseline) (collectedAt : Time)
  (acc : list LinkMetrics * gmap string CounterBaseline) (counter : InterfaceCounterSnapshot)
  : list LinkMetrics * gmap string CounterBaseline :=
  let '(metrics, next) := acc in
  let '(baseline, m) := sample previous collectedAt counter in
  (metrics ++ option_list m, <[ic_IfName counter := baseline]> next).

Definition ComputeCounterRates (current : list InterfaceCounterSnapshot) (previous : gmap string CounterBaseline)
  (collectedAt : Time) (expectedInterval : Duration) : list LinkMetrics * gmap string CounterBaseline :=
  foldl (rates_step previous collectedAt) ([], cloneCounterBaselines previous) current.

(** ** The pass over all interfaces *)

Definition next_step (previous : gmap string CounterBaseline) (at_ : Time) (n : gmap string CounterBaseline)
  (c : InterfaceCounterSnapshot) : gmap string CounterBaseline := <[ic_IfName c := (sample previous at_ c).1]> n.

Lemma rates_fold previous at_ current metrics next :
  foldl (rates_step previous at_) (metrics, next) current =
  (metrics ++ omap (λ c, (sample previous at_ c).2) current, foldl (next_step previous at_) next current).
Proof.
  revert metrics next. induction current as [|c current IH]; intros metrics next; [by rewrite app_nil_r|].
  cbn [foldl]. unfold rates_step at 2, next_step at 2. destruct (sample previous at_ c) as [b m] eqn:E. rewrite IH. simpl. rewrite E. simpl.
  destruct m as [m|]; simpl; by rewrite <- app_assoc.
Qed.

(** The baseline an interface has after the pass is that of its last sample. *)
Lemma rates_next previous at_ current (next : gmap string CounterBaseline) name :
  foldl (next_step previous at_) next current !! name =
  match last (filter (λ c, ic_IfName c = name) current) with
  | Some c => Some (sample previous at_ c).1
  | None => next !! name
  end.
Proof.
  revert next. induction current as [|c current IH] using rev_ind; intros next; [done|].
  rewrite foldl_app, filter_app, filter_cons. simpl. unfold next_step at 1. destruct (decide (ic_IfName c = name)) as [<-|Hne].
  - by rewrite lookup_insert_eq, filter_nil, last_snoc.
  - rewrite lookup_insert_ne, filter_nil, app_nil_r by done. apply IH.
Qed.

(** A rate is only ever reported against a usable baseline. *)
Lemma sample_emits previous at_ c b m :
  sample previous at_ c = (b, Some m) →
  ∃ prev, previous !! ic_IfName c = Some prev ∧ cb_NeedsWarmup prev = false ∧ cb_SampledAt prev < at_ ∧
    cb_InOctets prev <= ic_InOctets c ∧ cb_OutOctets prev <= ic_OutOctets c ∧ 0 < ic_SpeedBps c ∧
    lm_IfName m = ic_IfName c ∧ lm_CollectedAt m = at_ ∧
    lm_RxBps m = Some (bps (ic_InOctets c) (cb_InOctets prev) (Seconds (Time_Sub at_ (cb_SampledAt prev)))) ∧
    lm_TxBps m = Some (bps (ic_OutOctets c) (cb_OutOctets prev) (Seconds (Time_Sub at_ (cb_SampledAt prev)))) ∧
    b = mkBaseline (ic_InOctets c) (ic_OutOctets c) at_ false.
Proof.
  unfold sample, Time_After. destruct (previous !! ic_IfName c) as [prev|]; [|done].
  destruct (cb_NeedsWarmup prev) eqn:Hw; [discriminate|]. destruct (negb _) eqn:Ht; [discriminate|].
  destruct (_ || _) eqn:Hc; [discriminate|]. destruct (ic_SpeedBps c <=? 0) eqn:Hs; [discriminate|].
  cbv zeta. destruct (f64_lt _ _); [discriminate|]. intros [= <- <-]. to_prop. exists prev.
  repeat (split; [first [reflexivity|assumption|lia]|]). reflexivity.
Qed.

(** ** Properties *)

(** One pass turns the samples into rates and baselines independently of each other.
    The metrics are those of the samples in order, each computed against the previous
    baselines; an interface that was sampled gets the baseline of its last sample, every
    other interface keeps the one it had. *)
Theorem rates_pass current previous at_ expected :
  let '(metrics, next) := ComputeCounterRates current previous at_ expected in
  metrics = omap (λ c, (sample previous at_ c).2) current ∧
  ∀ name, next !! name = match last (filter (λ c, ic_IfName c = name) current) with
                         | Some c => Some (sample previous at_ c).1
                         | None => previous !! name
                         end.
Proof.
  unfold ComputeCounterRates, cloneCounterBaselines. rewrite rates_fold. split; [done|]. intros name. apply rates_next.
Qed.

(** A rate is reported only between two plausible samples: the interface has a baseline
    that is not in warm-up and strictly older, neither counter went backwards and the speed
    is known; the reported rates are the octet differences times eight over the elapsed
    seconds, and this sample is the next baseline. *)
Theorem rate_only_if_plausible current previous at_ expected m :
  m ∈ (ComputeCounterRates current previous at_ expected).1 →
  ∃ c prev, c ∈ current ∧ lm_IfName m = ic_IfName c ∧ previous !! ic_IfName c = Some prev ∧
    cb_NeedsWarmup prev = false ∧ cb_SampledAt prev < at_ ∧
    cb_InOctets prev <= ic_InOctets c ∧ cb_OutOctets prev <= ic_OutOctets c ∧ 0 < ic_SpeedBps c ∧
    lm_RxBps m = Some (bps (ic_InOctets c) (cb_InOctets prev) (Seconds (Time_Sub at_ (cb_SampledAt prev)))) ∧
    lm_TxBps m = Some (bps (ic_OutOctets c) (cb_OutOctets prev) (Seconds (Time_Sub at_ (cb_SampledAt prev)))).
Proof.
  unfold ComputeCounterRates. rewrite rates_fold. cbn [fst app]. intros (c & Hc & Hm)%list_elem_of_omap.
  destruct (sample previous at_ c) as [b o] eqn:Hs. cbn in Hm. subst o.
  destruct (sample_emits _ _ _ _ _ Hs) as (prev & A & B & C & D & E & F & G & _ & I & J & _). exists c, prev.
  repeat (split; [assumption|]). assumption.
Qed.

Lemma rate_only_if_plausible_witness :
  let prev := {[ "eth0"%string := mkBaseline 1000 2000 (100 * Second) false ]} in
  ∃ m c, (ComputeCounterRates [mkCounter "eth0" 2250 2000 1000000] prev (110 * Second) 0).1 = [m] ∧ lm_IfName m = ic_IfName c.
Proof.
  intros prev. set (out := (ComputeCounterRates [mkCounter "eth0" 2250 2000 1000000] prev (110 * Second) 0).1).
  assert (Ho : ∃ m, out = [m]) by (eexists; vm_compute; reflexivity). destruct Ho as [m Hm].
  destruct (rate_only_if_plausible [mkCounter "eth0" 2250 2000 1000000] prev (110 * Second) 0 m) as (c & p & _ & H & _).
  { fold out. rewrite Hm. by left. }
  exists m, c. split; [exact Hm|exact H].
Defined.

(** An implausible sample costs exactly one more sample.  If a pass puts an interface in
    warm-up, the next pass that samples it once reports no rate for it and takes the sample
    as a fresh baseline, against which the pass after that computes again. *)
Theorem warmup_recovers previous at1 at2 c1 c2 :
  ic_IfName c1 = ic_IfName c2 → cb_NeedsWarmup (sample previous at1 c1).1 = true →
  let next := (ComputeCounterRates [c1] previous at1 0).2 in
  ComputeCounterRates [c2] next at2 0 =
    ([], <[ic_IfName c2 := mkBaseline (ic_InOctets c2) (ic_OutOctets c2) at2 false]> next).
Proof.
  intros Hn Hw next. subst next. unfold ComputeCounterRates, cloneCounterBaselines. cbn [foldl]. unfold rates_step at 2.
  destruct (sample previous at1 c1) as [b o] eqn:Hs. cbn [fst snd] in *. unfold rates_step, sample. rewrite Hn, lookup_insert_eq, Hw. done.
Qed.

Lemma warmup_recovers_witness :
  let prev := {[ "eth0"%string := mkBaseline 1000 2000 (100 * Second) false ]} in
  let next := (ComputeCounterRates [mkCounter "eth0" 10 20 1000000] prev (110 * Second) 0).2 in
  (ComputeCounterRates [mkCounter "eth0" 30 40 1000000] next (120 * Second) 0).1 = [].
Proof.
  intros prev next. subst next.
  rewrite (warmup_recovers prev (110 * Second) (120 * Second) (mkCounter "eth0" 10 20 1000000) (mkCounter "eth0" 30 40 1000000)
    eq_refl ltac:(vm_compute; reflexivity)). reflexivity.
Defined.
