(* ===== verification/Performance.v ===== *)
(** * The performance collector

    [internal/collector/performance.go] and the result types of [results.go]: octet counters of
    the interfaces known of a device, by two SNMP table walks, unless the walks of the device
    are in cooldown.  The loops over a map visit it in the order of [map_to_list], and equal
    names are sorted stably; Go leaves both orders open.  The SNMP library is a parameter: what the client factory, the connection
    and each walk answer ([Net]).  [CounterWalkCooldownPolicy] is the interface the collector
    expects of its caller.  Timeout and retries are part of what the factory was asked;
    instrumentation is left out. *)

From S2P Require Import Prelude GoLib GoText Domain StateStore Runtime Rates.

(** ** What the SNMP library answers *)

Inductive PduValue := PUint64 (v : Z) | PUint (v : Z) | PUint32 (v : Z) | PInt (v : Z) | PInt64 (v : Z) | POther.
Record SnmpPDU := mkPDU { pdu_Name : string; pdu_Value : PduValue }.

(** Fields read by [snmp.PollEssentialMetrics]; a nil field is [None]. *)
Record EssentialMetricField := mkMetricField { mf_Value : option float64; mf_State : string; mf_Error : string }.
Record EssentialMetricsResult := mkEssentialMetrics {
  em_Uptime : option EssentialMetricField; em_CPU : option EssentialMetricField; em_Memory : option EssentialMetricField }.

(** A connection: the error of [Connect], the error of the context after it, the values visited by
    the walk of a table with the error it ends in, the metrics [snmp.PollEssentialMetrics] reads,
    and the uptime and interface states [snmp.PollOperationalStatusWithInterfaces] reads. *)
Record Conn := {
  cn_Connect : option string;
  cn_ctxErr : option string;
  cn_walk : string → list SnmpPDU * option string;
  cn_essential : EssentialMetricsResult;
  cn_operational : result (option float64 * gmap string string) }.

(** The error of the context, and the result of the client factory ([Ok None] is a nil client). *)
Record Net := { nt_ctxErr : option string; nt_newClient : result (option Conn) }.

(** The collector, by which of its fields are not nil. *)
Record PerformanceCollector := { pc_registry : bool; pc_newClient : bool }.
Definition NewPerformanceCollector : option PerformanceCollector := Some {| pc_registry := true; pc_newClient := true |}.

(** [errors.Is] is not needed: an error is its text. *)
Abbreviation error := (option string) (only parsing).

(** ** Results *)

Record PerformanceResult := mkPerformance {
  pf_DeviceID : UUID;
  pf_Metrics : DeviceMetrics;
  pf_Counters : list InterfaceCounterSnapshot;
  pf_CollectedAt : Time;
  pf_Err : error }.

#[export] Instance upd_pf_Counters : Update pf_Counters := λ v r,
  mkPerformance (pf_DeviceID r) (pf_Metrics r) v (pf_CollectedAt r) (pf_Err r).
#[export] Instance upd_pf_Err : Update pf_Err := λ v r,
  mkPerformance (pf_DeviceID r) (pf_Metrics r) (pf_Counters r) (pf_CollectedAt r) v.

(** ** The cooldown of counter walks, as the collector sees it *)

Class CounterWalkCooldownPolicy (P : Type) := {
  ShouldSkipCounterWalk : UUID → string → Time → P → bool;
  RecordCounterWalkResult : UUID → string → string → Time → Duration → P → P }.

Section collector.
Context (unicode_lower : string → string) {P : Type} `{CounterWalkCooldownPolicy P}.

Definition classifySNMPCollectorResult (err : error) : string :=
  match err with
  | None => "success"
  | Some text =>
    let lower := ToLower unicode_lower text in
    if Contains lower "timeout" || Contains lower "deadline exceeded" then "timeout" else "error"
  end.

(** ** Interfaces *)

(** The name of an interface with an index: [IfName], else [IfDescr]; [None] if the loop skips it. *)
Definition interface_name (i : Interface) : option string :=
  if if_IfIndex i <=? 0 then None
  else
    let name := TrimSpace (if_IfName i) in
    let name := if String.eqb name "" then TrimSpace (if_IfDescr i) else name in
    if String.eqb name "" then None else Some name.

Definition performanceInterfaceNamesByIndex (interfaces : list Interface) : gmap Z string :=
  foldl (λ m i, match interface_name i with Some name => <[if_IfIndex i := name]> m | None => m end) ∅ interfaces.

Definition hasCachedInterfaceIndexes (interfaces : list Interface) : bool :=
  existsb (λ i, negb (if_IfIndex i <=? 0)
                && (negb (String.eqb (TrimSpace (if_IfName i)) "") || negb (String.eqb (TrimSpace (if_IfDescr i)) ""))) interfaces.

Definition indexInterfaceSpeeds (interfaces : list Interface) : gmap string Z * gmap string Z :=
  (foldl (λ m i, <[if_IfName i := if_Speed i]> m) ∅ interfaces, foldl (λ m i, <[if_IfDescr i := if_Speed i]> m) ∅ interfaces).

Definition lookupInterfaceSpeed (ifName : string) (speedByName speedByDescr : gmap string Z) : Z :=
  match speedByName !! ifName with
  | Some speed => speed
  | None => match speedByDescr !! ifName with Some speed => speed | None => 0 end
  end.

(** ** Walks *)

Definition OidIfHCInOctets : string := ".1.3.6.1.2.1.31.1.1.1.6".
Definition OidIfHCOutOctets : string := ".1.3.6.1.2.1.31.1.1.1.10".
Definition performanceIfHCInOctetsWalkOperation : string := "if_hc_in_octets_walk".
Definition performanceIfHCOutOctetsWalkOperation : string := "if_hc_out_octets_walk".

(** OID and operation. *)
Definition performanceCounterWalks : list (string * string) :=
  [(OidIfHCInOctets, performanceIfHCInOctetsWalkOperation); (OidIfHCOutOctets, performanceIfHCOutOctetsWalkOperation)].

(** [-1] if the name is not one index below the prefix. *)
Definition performanceLastOIDIndex (oid prefix : string) : Z :=
  let suffix := TrimPrefix oid (prefix +:+ ".") in
  if String.eqb suffix oid || Contains suffix "." then -1
  else match Atoi suffix with Some idx => idx | None => -1 end.

Definition performanceUint64FromPDU (pdu : SnmpPDU) : Z :=
  match pdu_Value pdu with
  | PUint64 v | PUint v | PUint32 v => v
  | PInt v | PInt64 v => if 0 <=? v then v else 0
  | POther => 0
  end.

(** The visitor of a walk. *)
Definition visit_pdu (oid : string) (target : gmap Z Z) (pdu : SnmpPDU) : gmap Z Z :=
  let idx := performanceLastOIDIndex (pdu_Name pdu) oid in
  if 0 <=? idx then <[idx := performanceUint64FromPDU pdu]> target else target.

Definition shouldSkipPerformanceCounterWalks (policy : option P) (deviceID : UUID) (walks : list (string * string)) (now : Time) : bool :=
  match policy with
  | None => false
  | Some p => existsb (λ w, ShouldSkipCounterWalk deviceID w.2 now p) walks
  end.

Definition record_walk (device : Device) (interval : Duration) (now : Time) (outcome operation : string) (policy : option P) : option P :=
  RecordCounterWalkResult (dev_ID device) operation outcome now interval <$> policy.

(** One walk: the octets read, the first error, the policy. *)
Definition walk_step (conn : Conn) (device : Device) (interval : Duration) (now : Time)
  (acc : gmap Z Z * gmap Z Z * error * option P) (walk : string * string) : gmap Z Z * gmap Z Z * error * option P :=
  let '(inOctets, outOctets, firstErr, policy) := acc in
  let '(oid, operation) := walk in
  let '(pdus, err) := cn_walk conn oid in
  let isOut := String.eqb operation performanceIfHCOutOctetsWalkOperation in
  let target := foldl (visit_pdu oid) (if isOut then outOctets else inOctets) pdus in
  let policy := record_walk device interval now (classifySNMPCollectorResult err) operation policy in
  let firstErr := match firstErr, err with
    | None, Some text => Some ("walking " +:+ operation +:+ ": " +:+ text)%string
    | _, _ => firstErr
    end in
  if isOut then (inOctets, target, firstErr, policy) else (target, outOctets, firstErr, policy).

Record InterfaceCounter := mkInterfaceCounter { ifc_IfIndex : Z; ifc_IfName : string; ifc_InOctets : Z; ifc_OutOctets : Z }.

(** The counters, whether the walks were skipped, the error, and the policy afterwards. *)
Definition pollInterfaceCountersWithOptions (conn : Conn) (device : Device) (interval : Duration) (now : Time) (policy : option P)
  : list InterfaceCounter * bool * error * option P :=
  let walks := performanceCounterWalks in
  if shouldSkipPerformanceCounterWalks policy (dev_ID device) walks now
  then ([], true, None, foldl (λ p w, record_walk device interval now "skipped_cooldown" w.2 p) policy walks)
  else
    let ifNames := performanceInterfaceNamesByIndex (dev_Interfaces device) in
    let '(inOctets, outOctets, firstErr, policy) := foldl (walk_step conn device interval now) (∅, ∅, None, policy) walks in
    match firstErr with
    | Some _ => ([], false, firstErr, policy)
    | None =>
      (omap (λ '(idx, name),
         if bool_decide (is_Some (inOctets !! idx)) || bool_decide (is_Some (outOctets !! idx))
         then Some (mkInterfaceCounter idx name (default 0 (inOctets !! idx)) (default 0 (outOctets !! idx))) else None)
         (map_to_list ifNames), false, None, policy)
    end.

(** ** The poll *)

Definition performanceResultHasNoSNMPData (r : PerformanceResult) : bool :=
  bool_decide (dm_CPUPercent (pf_Metrics r) = None) && bool_decide (dm_MemPercent (pf_Metrics r) = None)
  && bool_decide (dm_UptimeSecs (pf_Metrics r) = None) && bool_decide (dm_TempCelsius (pf_Metrics r) = None)
  && (length (pf_Counters r) =? 0)%nat.

(** [sort.Slice] by [IfName]. *)
Definition counter_le (a b : InterfaceCounterSnapshot) : Prop := string_le (ic_IfName a) (ic_IfName b).
#[export] Instance counter_le_dec a b : Decision (counter_le a b) := string_le_dec (ic_IfName a) (ic_IfName b).

(** The part of the poll on an open connection. *)
Definition poll_counters (conn : Conn) (device : Device) (interval : Duration) (result : PerformanceResult) (policy : option P)
  : PerformanceResult * option P :=
  let hasInterfaceCounters := hasCachedInterfaceIndexes (dev_Interfaces device) in
  let '(result, counterWalkSkipped, policy) :=
    if hasInterfaceCounters then
      let '(speedByName, speedByDescr) := indexInterfaceSpeeds (dev_Interfaces device) in
      let '(counters, skipped, counterErr, policy) :=
        pollInterfaceCountersWithOptions conn device interval (pf_CollectedAt result) policy in
      let result := match counterErr with Some _ => result <| pf_Err := counterErr |> | None => result end in
      (result <| pf_Counters := (λ c, mkCounter (ifc_IfName c) (ifc_InOctets c) (ifc_OutOctets c)
                                        (lookupInterfaceSpeed (ifc_IfName c) speedByName speedByDescr)) <$> counters |>, skipped, policy)
    else (result, false, policy) in
  let result := result <| pf_Counters := merge_sort counter_le (pf_Counters result) |> in
  (if hasInterfaceCounters && negb counterWalkSkipped && bool_decide (pf_Err result = None) && performanceResultHasNoSNMPData result
   then result <| pf_Err := Some "performance poll returned no SNMP data" |> else result, policy).

Definition PollWithOptions (c : option PerformanceCollector) (net : Net) (collectedAt : Time) (device : Device) (interval : Duration) (policy : option P)
  : PerformanceResult * option P :=
  let result := mkPerformance (dev_ID device) (mkDeviceMetrics (dev_ID device) None None None None collectedAt) [] collectedAt None in
  let failed e := (result <| pf_Err := Some e |>, policy) in
  match nt_ctxErr net, c with
  | Some e, _ => failed e
  | None, None => failed "performance collector is nil"
  | None, Some c =>
    if negb (pc_registry c) then failed "performance collector registry is nil"
    else if negb (pc_newClient c) then failed "performance collector SNMP client factory is nil"
    else match nt_newClient net with
    | Err e => failed ("create SNMP client: " +:+ e)%string
    | Ok None => failed "create SNMP client: nil client"
    | Ok (Some conn) =>
      match cn_Connect conn, cn_ctxErr conn with
      | Some e, _ => failed ("connect SNMP client: " +:+ e)%string
      | None, Some e => failed e
      | None, None => poll_counters conn device interval result policy
      end
    end
  end.
End collector.
