(* ===== verification/Cooldown.v ===== *)
(** * The cooldown of counter walks

    The policy of [internal/worker/pipeline_runtime_state.go] that the performance collector
    asks before it walks the counter tables of a device: after two timeouts in a row a walk is
    left out for a while, twice as long after every further timeout.  It implements the
    collector's interface; the theorem states it without its state, as a function of the
    results reported so far.  The clock used for a missing time is an argument. *)

From S2P Require Import Prelude GoLib Domain StateStore Runtime Rates Performance.

Record counterWalkCooldownState := mkCooldown {
  cw_ConsecutiveTimeouts : Z;
  cw_BackoffLevel : Z;
  cw_CooldownUntil : Time;
  cw_LastAttemptAt : Time;
  cw_LastSuccessAt : Time;
  cw_LastResult : string }.

Definition zeroCooldown : counterWalkCooldownState := mkCooldown 0 0 0 0 0 "".

Abbreviation Cooldowns := (gmap UUID (gmap string counterWalkCooldownState)) (only parsing).

Definition minCooldown : Duration := Minute.
Definition maxCooldown : Duration := 30 * Minute.

(** [for i := 0; i < backoffLevel; i++ { if duration >= maxCooldown/2 { duration = maxCooldown; break }; duration *= 2 }] *)
Fixpoint double_loop (level : nat) (duration : Duration) : Duration :=
  match level with
  | O => duration
  | S level => if Z.quot maxCooldown 2 <=? duration then maxCooldown else double_loop level (Duration_mul duration 2)
  end.

Definition counterWalkCooldownDuration (expectedInterval : Duration) (backoffLevel : Z) : Duration :=
  let expectedInterval := if expectedInterval <=? 0 then minCooldown else expectedInterval in
  let duration := double_loop (Z.to_nat backoffLevel) expectedInterval in
  if duration <? minCooldown then minCooldown
  else if maxCooldown <? duration then maxCooldown
  else duration.

(** [now] or, if it is zero, the clock. *)
Definition or_clock (clock now : Time) : Time := if Time_IsZero now then clock else now.

Definition should_skip (clock : Time) (deviceID : UUID) (operation : string) (now : Time) (s : Cooldowns) : bool :=
  if (deviceID =? uuid_Nil) || String.eqb operation "" then false
  else
    let now := or_clock clock now in
    let operations := default ∅ (s !! deviceID) in
    if (size operations =? 0)%nat then false
    else
      let state := default zeroCooldown (operations !! operation) in
      negb (Time_IsZero (cw_CooldownUntil state)) && Time_Before now (cw_CooldownUntil state).

Definition clearCounterWalkCooldownLocked (deviceID : UUID) (operation : string) (s : Cooldowns) : Cooldowns :=
  let operations := default ∅ (s !! deviceID) in
  if (size operations =? 0)%nat then s
  else
    let operations := delete operation operations in
    if (size operations =? 0)%nat then delete deviceID s else <[deviceID := operations]> s.

(** The state after one more timeout. *)
Definition record_timeout (now : Time) (expectedInterval : Duration) (state : counterWalkCooldownState) : counterWalkCooldownState :=
  let timeouts := cw_ConsecutiveTimeouts state + 1 in
  let '(until, level) :=
    if 2 <=? timeouts
    then (Time_Add now (counterWalkCooldownDuration expectedInterval (cw_BackoffLevel state)), cw_BackoffLevel state + 1)
    else (cw_CooldownUntil state, cw_BackoffLevel state) in
  mkCooldown timeouts level until now (cw_LastSuccessAt state) "timeout".

Definition record_result (clock : Time) (deviceID : UUID) (operation result : string) (now : Time) (expectedInterval : Duration)
  (s : Cooldowns) : Cooldowns :=
  if (deviceID =? uuid_Nil) || String.eqb operation "" then s
  else if String.eqb result "skipped_cooldown" then s
  else
    let now := or_clock clock now in
    if String.eqb result "success" then clearCounterWalkCooldownLocked deviceID operation s
    else if String.eqb result "timeout" then
      let operations := default ∅ (s !! deviceID) in
      <[deviceID := <[operation := record_timeout now expectedInterval (default zeroCooldown (operations !! operation))]> operations]> s
    else clearCounterWalkCooldownLocked deviceID operation s.

(** The runtime state as the collector's policy. *)
#[export] Instance runtime_cooldown (clock : Time) : CounterWalkCooldownPolicy Cooldowns := {
  ShouldSkipCounterWalk := should_skip clock;
  RecordCounterWalkResult := record_result clock }.

(** ** The duration *)

Definition clamp (d : Duration) : Duration := Z.max minCooldown (Z.min maxCooldown d).

Lemma double_loop_clamp level d : 0 < d → clamp (double_loop level d) = clamp (d * 2 ^ Z.of_nat level).
Proof.
  revert d. induction level as [|level IH]; intros d Hd; cbn [double_loop]; [by rewrite Z.mul_1_r|].
  rewrite Nat2Z.inj_succ, Z.pow_succ_r by lia. pose proof (Z.pow_pos_nonneg 2 (Z.of_nat level)) as Hp.
  change (Z.quot maxCooldown 2) with 900000000000. destruct (_ <=? _) eqn:E; to_prop.
  - unfold clamp, maxCooldown, minCooldown, Minute, Second in *. nia.
  - unfold Duration_mul. rewrite int64_wrap_id by (unfold in_int64, int64_min, int64_max; lia). rewrite IH by lia. f_equal. lia.
Qed.

(** The interval the doubling starts from. *)
Definition base_interval (e : Duration) : Duration := if e <=? 0 then minCooldown else e.

Lemma cooldown_duration e level : 0 <= level → counterWalkCooldownDuration e level = clamp (base_interval e * 2 ^ level).
Proof.
  intros Hl. unfold counterWalkCooldownDuration. fold (base_interval e). set (d := double_loop _ _).
  assert (Hd : clamp d = clamp (base_interval e * 2 ^ level)).
  { assert (0 < base_interval e) by (unfold base_interval, minCooldown, Minute, Second; destruct (e <=? 0) eqn:E; to_prop; lia).
    subst d. rewrite double_loop_clamp by done. by rewrite Z2Nat.id. }
  rewrite <- Hd. unfold clamp. destruct (d <? minCooldown) eqn:E1; [|destruct (maxCooldown <? d) eqn:E2]; to_prop;
    unfold minCooldown, maxCooldown, Minute, Second in *; lia.
Qed.

(** ** The policy as a function of the reported results *)

Record Report := mkReport { rp_device : UUID; rp_operation : string; rp_result : string; rp_now : Time; rp_interval : Duration }.

Definition replay_reports (clock : Time) (reports : list Report) : Cooldowns :=
  foldl (λ s r, record_result clock (rp_device r) (rp_operation r) (rp_result r) (rp_now r) (rp_interval r) s) ∅ reports.

(** The timeouts of a walk since its last other result, the latest first; a walk that was left
    out does not count. *)
Definition streak_step (d : UUID) (op : string) (streak : list Report) (r : Report) : list Report :=
  if negb (rp_device r =? d) || negb (String.eqb (rp_operation r) op) || String.eqb (rp_result r) "skipped_cooldown" then streak
  else if String.eqb (rp_result r) "timeout" then r :: streak else [].
Definition streak (d : UUID) (op : string) (reports : list Report) : list Report := foldl (streak_step d op) [] reports.

(** Until when the walk is left out. *)
Definition cooldown_end (streak : list Report) : option Time :=
  match streak with
  | last :: _ :: older => Some (rp_now last + clamp (base_interval (rp_interval last) * 2 ^ Z.of_nat (length older)))
  | _ => None
  end.

(** The stored state agrees with the streak. *)
Definition agrees (streak : list Report) (state : option counterWalkCooldownState) : Prop :=
  match streak with
  | [] => state = None
  | _ => ∃ st, state = Some st ∧ cw_ConsecutiveTimeouts st = Z.of_nat (length streak) ∧
           cw_BackoffLevel st = Z.of_nat (length streak) - 1 ∧ cw_CooldownUntil st = default 0 (cooldown_end streak)
  end.

Definition stored (s : Cooldowns) (d : UUID) (op : string) : option counterWalkCooldownState := s !! d ≫= λ m, m !! op.

Lemma stored_default s d op : default ∅ (s !! d) !! op = stored s d op.
Proof. unfold stored. by destruct (s !! d). Qed.

Lemma stored_clear s d op d' op' :
  stored (clearCounterWalkCooldownLocked d op s) d' op' = if decide (d' = d ∧ op' = op) then None else stored s d' op'.
Proof.
  unfold clearCounterWalkCooldownLocked. destruct (size _ =? 0)%nat eqn:E.
  { apply Nat.eqb_eq, map_size_empty_iff in E. destruct (decide _) as [[-> ->]|]; [|done]. by rewrite <- stored_default, E. }
  destruct (size (delete _ _) =? 0)%nat eqn:E2; [apply Nat.eqb_eq, map_size_empty_iff in E2|].
  - unfold stored at 1. destruct (decide (d' = d)) as [->|Hne].
    + rewrite lookup_delete_eq. cbn. destruct (decide _) as [|Hn]; [done|]. rewrite <- stored_default.
      assert (op' ≠ op) by naive_solver. by rewrite <- (lookup_delete_ne _ op), E2.
    + rewrite lookup_delete_ne by done. destruct (decide _) as [[-> ->]|]; done.
  - unfold stored at 1. destruct (decide (d' = d)) as [->|Hne].
    + rewrite lookup_insert_eq. cbn. destruct (decide _) as [[_ ->]|Hn]; [apply lookup_delete_eq|].
      rewrite lookup_delete_ne by naive_solver. apply stored_default.
    + rewrite lookup_insert_ne by done. destruct (decide _) as [[-> ->]|]; done.
Qed.

Lemma stored_insert s d op v d' op' :
  stored (<[d := <[op := v]> (default ∅ (s !! d))]> s) d' op' = if decide (d' = d ∧ op' = op) then Some v else stored s d' op'.
Proof.
  unfold stored at 1. destruct (decide (d' = d)) as [->|Hne].
  - rewrite lookup_insert_eq. cbn. destruct (decide _) as [[_ ->]|Hn]; [apply lookup_insert_eq|].
    rewrite lookup_insert_ne by naive_solver. apply stored_default.
  - rewrite lookup_insert_ne by done. destruct (decide _) as [[-> ->]|]; done.
Qed.

Lemma record_timeout_agrees r st state :
  agrees st state → agrees (r :: st) (Some (record_timeout (rp_now r) (rp_interval r) (default zeroCooldown state))).
Proof.
  intros Ha. exists (record_timeout (rp_now r) (rp_interval r) (default zeroCooldown state)). split; [done|].
  destruct st as [|r' st]; cbn [agrees] in Ha; [by subst|]. destruct Ha as (st0 & -> & Hn & Hl & _).
  unfold record_timeout. cbn [from_option id default] in *. cbn [length] in *. rewrite Hn, Hl.
  destruct (2 <=? _) eqn:E; to_prop; [|lia]. cbn. split_and!; [lia|lia|].
  rewrite cooldown_duration by lia. unfold Time_Add. do 4 f_equal. lia.
Qed.

Lemma record_agrees clock d op r s st :
  d ≠ uuid_Nil → op ≠ "" → 0 < rp_now r → agrees st (stored s d op) →
  agrees (streak_step d op st r)
    (stored (record_result clock (rp_device r) (rp_operation r) (rp_result r) (rp_now r) (rp_interval r) s) d op).
Proof.
  intros Hd Hop Ht Ha. unfold streak_step, record_result.
  destruct (Z.eqb_spec (rp_device r) d) as [Ed|Ed]; [destruct (String.eqb_spec (rp_operation r) op) as [Eo|Eo]|]; cbn [negb orb].
  - rewrite Ed, Eo, (proj2 (Z.eqb_neq _ _) Hd), (proj2 (String.eqb_neq _ _) Hop). cbn [orb].
    destruct (String.eqb_spec (rp_result r) "skipped_cooldown"); [done|]. unfold or_clock, Time_IsZero. rewrite (proj2 (Z.eqb_neq _ _)) by lia.
    destruct (String.eqb_spec (rp_result r) "success") as [->|]; cbn [String.eqb Ascii.eqb Bool.eqb].
    + rewrite stored_clear, decide_True by done. done.
    + destruct (String.eqb_spec (rp_result r) "timeout").
      * rewrite stored_insert, decide_True by done. rewrite stored_default. by apply record_timeout_agrees.
      * rewrite stored_clear, decide_True by done. done.
  - cases; rewrite ?stored_clear, ?stored_insert, ?decide_False by naive_solver; done.
  - cases; rewrite ?stored_clear, ?stored_insert, ?decide_False by naive_solver; done.
Qed.

Lemma replay_agrees clock d op reports :
  d ≠ uuid_Nil → op ≠ "" → Forall (λ r, 0 < rp_now r) reports →
  agrees (streak d op reports) (stored (replay_reports clock reports) d op).
Proof.
  intros Hd Hop Hall. unfold streak, replay_reports.
  assert (Ha : agrees [] (stored ∅ d op)) by (cbn; unfold stored; by rewrite lookup_empty). revert Ha.
  generalize (∅ : Cooldowns), (@nil Report). induction Hall as [|r reports Hr _ IH]; intros s st Ha; [done|].
  cbn [foldl]. apply IH. by apply record_agrees.
Qed.

Lemma streak_times d op reports : Forall (λ r, 0 < rp_now r) reports → Forall (λ r, 0 < rp_now r) (streak d op reports).
Proof.
  intros Hall. unfold streak. assert (Hs : Forall (λ r, 0 < rp_now r) (@nil Report)) by by apply Forall_nil. revert Hs.
  generalize (@nil Report). induction Hall as [|r reports Hr _ IH]; intros st Hs; [done|]. cbn [foldl]. apply IH.
  unfold streak_step. destruct (_ || _); [done|]. destruct (String.eqb _ _); [by apply Forall_cons|by apply Forall_nil].
Qed.

(** ** What the cooldown guarantees *)

(** C13: The policy needs no memory but the reports: a walk of a device is left out at [now] if
    and only if its latest results are two or more timeouts in a row and [now] lies before the
    latest of them plus the expected interval, doubled for every timeout beyond the second and
    kept between one and thirty minutes.  Walks that were left out, and reports about other
    devices or other walks, change nothing; any other result ends the cooldown. *)
Theorem cooldown_exact clock d op reports now :
  d ≠ uuid_Nil → op ≠ "" → Forall (λ r, 0 < rp_now r) reports → 0 < now →
  ShouldSkipCounterWalk (CounterWalkCooldownPolicy := runtime_cooldown clock) d op now (replay_reports clock reports) =
  match cooldown_end (streak d op reports) with Some until => now <? until | None => false end.
Proof.
  intros Hd Hop Hall Hnow. pose proof (replay_agrees clock d op reports Hd Hop Hall) as Ha. pose proof (streak_times d op reports Hall) as Hs.
  cbn [ShouldSkipCounterWalk runtime_cooldown]. unfold should_skip, or_clock.
  rewrite (proj2 (Z.eqb_neq _ _) Hd), (proj2 (String.eqb_neq _ _) Hop). cbn [orb].
  assert (Time_IsZero now = false) as -> by (apply Z.eqb_neq; lia). rewrite stored_default. set (s := replay_reports clock reports) in *. destruct (size _ =? 0)%nat eqn:E.
  { apply Nat.eqb_eq, map_size_empty_iff in E. rewrite <- stored_default, E, lookup_empty in Ha.
    destruct (streak d op reports); [done|]. by destruct Ha as (? & ? & _). }
  destruct (streak d op reports) as [|r1 [|r2 older]]; cbn [agrees] in Ha; [by rewrite Ha|..]; destruct Ha as (st & -> & _ & _ & Hu);
    cbn in Hu |- *; rewrite Hu; [done|].
  apply Forall_cons in Hs as [Hr1 _]. unfold Time_IsZero, Time_Before, clamp, minCooldown, maxCooldown, Minute, Second in *.
  rewrite (proj2 (Z.eqb_neq _ _)) by lia. done.
Qed.

Definition demo_reports : list Report :=
  [mkReport 7 "if_hc_in_octets_walk" "timeout" 100 (30 * Second); mkReport 7 "if_hc_in_octets_walk" "timeout" 200 (30 * Second);
   mkReport 7 "if_hc_in_octets_walk" "timeout" (300 * Second) (2 * Minute); mkReport 7 "if_hc_in_octets_walk" "skipped_cooldown" (310 * Second) 0].

Lemma cooldown_exact_witness :
  should_skip 0 7 "if_hc_in_octets_walk" (539 * Second) (replay_reports 0 demo_reports) = true ∧
  should_skip 0 7 "if_hc_in_octets_walk" (540 * Second) (replay_reports 0 demo_reports) = false.
Proof.
  assert (Hall : Forall (λ r, 0 < rp_now r) demo_reports) by (repeat (apply Forall_cons; split; [cbn; unfold Second; lia|]); by apply Forall_nil).
  split.
  - etransitivity; [apply (cooldown_exact 0 7 "if_hc_in_octets_walk" demo_reports (539 * Second)); [discriminate|discriminate|exact Hall|]|].
    + unfold Second; lia.
    + vm_compute; reflexivity.
  - etransitivity; [apply (cooldown_exact 0 7 "if_hc_in_octets_walk" demo_reports (540 * Second)); [discriminate|discriminate|exact Hall|]|].
    + unfold Second; lia.
    + vm_compute; reflexivity.
Defined.
