(* ===== verification/Collectors.v ===== *)
(** * The essential and operational collectors, and results as store updates

    [internal/collector/essential.go], [operational.go] and [results.go]: one SNMP session per
    poll, evidence from TCP probes when it fails, and the conversion of each result into an update
    of the state store; and the TCP probes of [internal/service/virtual_reachability.go].  The SNMP
    library ([Net]), a TCP dial and the state of the context before each dial are parameters.  A
    collector is built by its constructor, so the checks of its fields for nil are left out. *)

From S2P Require Import Prelude GoLib GoText Domain Addresses StateStore Rates Performance.

(** ** Results *)

Record EssentialResult := mkEssential {
  er_DeviceID : UUID;
  er_PollStatus : PollStatus;
  er_NetworkReachable : TriState;
  er_NetworkReachabilityResults : list NetworkProbeResult;
  er_SNMPReachable : TriState;
  er_Uptime : FieldState;
  er_CPU : FieldState;
  er_Memory : FieldState;
  er_UptimeSecs : option float64;
  er_CPUPercent : option float64;
  er_MemPercent : option float64;
  er_CollectedAt : Time;
  er_Err : option string }.

#[export] Instance upd_er_PollStatus : Update er_PollStatus := λ v r, mkEssential (er_DeviceID r) v (er_NetworkReachable r) (er_NetworkReachabilityResults r) (er_SNMPReachable r) (er_Uptime r) (er_CPU r) (er_Memory r) (er_UptimeSecs r) (er_CPUPercent r) (er_MemPercent r) (er_CollectedAt r) (er_Err r).
#[export] Instance upd_er_NetworkReachable : Update er_NetworkReachable := λ v r, mkEssential (er_DeviceID r) (er_PollStatus r) v (er_NetworkReachabilityResults r) (er_SNMPReachable r) (er_Uptime r) (er_CPU r) (er_Memory r) (er_UptimeSecs r) (er_CPUPercent r) (er_MemPercent r) (er_CollectedAt r) (er_Err r).
#[export] Instance upd_er_Results : Update er_NetworkReachabilityResults := λ v r, mkEssential (er_DeviceID r) (er_PollStatus r) (er_NetworkReachable r) v (er_SNMPReachable r) (er_Uptime r) (er_CPU r) (er_Memory r) (er_UptimeSecs r) (er_CPUPercent r) (er_MemPercent r) (er_CollectedAt r) (er_Err r).
#[export] Instance upd_er_SNMPReachable : Update er_SNMPReachable := λ v r, mkEssential (er_DeviceID r) (er_PollStatus r) (er_NetworkReachable r) (er_NetworkReachabilityResults r) v (er_Uptime r) (er_CPU r) (er_Memory r) (er_UptimeSecs r) (er_CPUPercent r) (er_MemPercent r) (er_CollectedAt r) (er_Err r).
#[export] Instance upd_er_Err : Update er_Err := λ v r, mkEssential (er_DeviceID r) (er_PollStatus r) (er_NetworkReachable r) (er_NetworkReachabilityResults r) (er_SNMPReachable r) (er_Uptime r) (er_CPU r) (er_Memory r) (er_UptimeSecs r) (er_CPUPercent r) (er_MemPercent r) (er_CollectedAt r) v.

Record OperationalResult := mkOperational {
  or_DeviceID : UUID;
  or_Reachable : bool;
  or_UptimeSecs : option float64;
  or_InterfaceStatuses : gmap string string;
  or_CollectedAt : Time;
  or_Err : option string }.

(** ** The essential poll *)

(** [net.JoinHostPort] *)
Definition JoinHostPort (host port : string) : string :=
  if Contains host ":" || Contains host "%" then ("[" +:+ host +:+ "]:" +:+ port)%string else (host +:+ ":" +:+ port)%string.

Section essential.
(** The error of the context before a port is dialled, and the error of dialling an address. *)
Context (ctxErr : Z → option string) (dial : string → Duration → option string).

(** The loop over the ports: [inl] is what the function returns at once, [inr] the last error. *)
Fixpoint dial_ports (target : string) (timeout : Duration) (ports : list Z) (lastErr : option string) : option string + option string :=
  match ports with
  | [] => inr lastErr
  | port :: rest =>
    match ctxErr port with
    | Some e => inl (Some e)
    | None =>
      match dial (JoinHostPort target (Itoa port)) timeout with
      | None => inl None
      | Some e => dial_ports target timeout rest (Some e)
      end
    end
  end.

Definition probeEssentialTCPReachability (target : string) (timeout : Duration) (ports : list Z) : option string :=
  let target := TrimSpace target in
  if String.eqb target "" then Some "network probe target is empty"
  else
    let timeout := if timeout <=? 0 then Second else timeout in
    match dial_ports target timeout (ResolveProbePorts [] [] ports) None with
    | inl r => r
    | inr (Some e) => Some e
    | inr None => Some "network probe failed"
    end.

Definition ProbeTCPReachability (target : string) (timeout : Duration) (ports : list Z) : option string :=
  let target := TrimSpace target in
  if String.eqb target "" then Some "reachability probe requires a target"
  else
    let timeout := if timeout <=? 0 then 5 * Second else timeout in
    match dial_ports target timeout (ResolveProbePorts [] [] ports) None with
    | inl r => r
    | inr (Some e) => Some ("reachability probe failed for " +:+ target +:+ ": " +:+ e)%string
    | inr None => Some ("reachability probe failed for " +:+ target)%string
    end.
Definition ProbeVirtualReachability (ip : string) (timeout : Duration) (ports : list Z) : option string := ProbeTCPReachability ip timeout ports.

Definition probe_entry (target : string) (timeout : Duration) (port : Z) : NetworkProbeResult :=
  match probeEssentialTCPReachability target timeout [port] with
  | None => mkProbe port true ""
  | Some e => mkProbe port false e
  end.

Definition probeNetworkPorts (target : string) (timeout : Duration) (probePorts : list Z) : list NetworkProbeResult :=
  probe_entry target timeout <$> ResolveProbePorts [] [] probePorts.

Definition networkReachabilityEvidence (results : list NetworkProbeResult) : TriState :=
  match results with
  | [] => TriStateUnknown
  | _ => if existsb pr_Reachable results then TriStateTrue else TriStateFalse
  end.

Definition captureNetworkReachability (target : string) (timeout : Duration) (probePorts : list Z) (r : EssentialResult) : EssentialResult :=
  let results := probeNetworkPorts target timeout probePorts in
  r <| er_NetworkReachabilityResults := results |> <| er_NetworkReachable := networkReachabilityEvidence results |>.

Definition markSNMPFailureNetworkEvidence (target : string) (timeout : Duration) (probePorts : list Z) (r : EssentialResult) : EssentialResult :=
  captureNetworkReachability target timeout probePorts (r <| er_SNMPReachable := TriStateFalse |>).

Definition essentialFieldOK (field : option EssentialMetricField) : bool :=
  match field with Some f => String.eqb (mf_State f) "ok" | None => false end.
Definition essentialMetricsHaveSuccessfulRead (m : EssentialMetricsResult) : bool :=
  essentialFieldOK (em_Uptime m) || essentialFieldOK (em_CPU m) || essentialFieldOK (em_Memory m).

Fixpoint first_failure (fields : list (option EssentialMetricField)) : string :=
  match fields with
  | [] => "essential SNMP read returned no data"
  | Some f :: rest =>
    if String.eqb (mf_State f) "error" && negb (String.eqb (mf_Error f) "")
    then ("essential SNMP read: " +:+ mf_Error f)%string else first_failure rest
  | None :: rest => first_failure rest
  end.
Definition essentialMetricsFailure (m : EssentialMetricsResult) : string := first_failure [em_Uptime m; em_CPU m; em_Memory m].

Definition convertEssentialField (field : option EssentialMetricField) : FieldState * option float64 :=
  match field with
  | None => (FieldStateMissing, None)
  | Some f =>
    if String.eqb (mf_State f) "ok" then (FieldStateOK, mf_Value f)
    else if String.eqb (mf_State f) "error" then (FieldStateError, None)
    else (FieldStateMissing, None)
  end.

Definition essentialPollStatus (r : EssentialResult) : PollStatus :=
  if negb (bool_decide (er_SNMPReachable r = TriStateTrue)) then PollStatusFailed
  else if bool_decide (er_Uptime r = FieldStateOK) && bool_decide (er_CPU r = FieldStateOK) && bool_decide (er_Memory r = FieldStateOK)
  then PollStatusComplete else PollStatusPartial.

(** The part of the poll on an open connection. *)
Definition read_essential (metrics : EssentialMetricsResult) (device : Device) (timeout : Duration) (probePorts : list Z) (r : EssentialResult)
  : EssentialResult :=
  let '(uptime, uptimeSecs) := convertEssentialField (em_Uptime metrics) in
  let '(cpu, cpuPercent) := convertEssentialField (em_CPU metrics) in
  let '(memory, memPercent) := convertEssentialField (em_Memory metrics) in
  let r := mkEssential (er_DeviceID r) (er_PollStatus r) (er_NetworkReachable r) (er_NetworkReachabilityResults r) (er_SNMPReachable r)
             uptime cpu memory uptimeSecs cpuPercent memPercent (er_CollectedAt r) (er_Err r) in
  if negb (essentialMetricsHaveSuccessfulRead metrics) then
    markSNMPFailureNetworkEvidence (dev_IP device) timeout probePorts r
      <| er_PollStatus := PollStatusFailed |> <| er_Err := Some (essentialMetricsFailure metrics) |>
  else
    let r := r <| er_SNMPReachable := TriStateTrue |> in
    let r := captureNetworkReachability (dev_IP device) timeout probePorts r in
    r <| er_PollStatus := essentialPollStatus r |>.

Definition essential_start (device : Device) (collectedAt : Time) : EssentialResult :=
  mkEssential (dev_ID device) PollStatusFailed TriStateUnknown [] TriStateUnknown FieldStateMissing FieldStateMissing FieldStateMissing
    None None None collectedAt None.

Definition Essential_Poll (net : Net) (collectedAt : Time) (device : Device) (timeout : Duration) (probePorts : list Z) : EssentialResult :=
  let r := essential_start device collectedAt in
  match nt_ctxErr net with
  | Some e => r <| er_Err := Some e |>
  | None =>
    match nt_newClient net with
    | Err e => r <| er_Err := Some ("create SNMP client: " +:+ e)%string |> <| er_SNMPReachable := TriStateFalse |>
    | Ok None => r <| er_Err := Some "create SNMP client: nil client" |> <| er_SNMPReachable := TriStateFalse |>
    | Ok (Some conn) =>
      match cn_Connect conn, cn_ctxErr conn with
      | Some e, _ => markSNMPFailureNetworkEvidence (dev_IP device) timeout probePorts (r <| er_Err := Some ("connect SNMP client: " +:+ e)%string |>)
      | None, Some e => r <| er_Err := Some e |>
      | None, None => read_essential (cn_essential conn) device timeout probePorts r
      end
    end
  end.
End essential.

(** ** The operational poll *)

Definition Operational_Poll (net : Net) (collectedAt : Time) (device : Device) : OperationalResult :=
  let failed e := mkOperational (dev_ID device) false None ∅ collectedAt (Some e) in
  match nt_ctxErr net with
  | Some e => failed e
  | None =>
    match nt_newClient net with
    | Err e => failed ("create SNMP client: " +:+ e)%string
    | Ok None => failed "create SNMP client: nil client"
    | Ok (Some conn) =>
      match cn_Connect conn, cn_ctxErr conn, cn_operational conn with
      | Some e, _, _ => failed ("connect SNMP client: " +:+ e)%string
      | None, Some e, _ => failed e
      | None, None, Err e => failed ("poll operational status: " +:+ e)%string
      | None, None, Ok (uptimeSecs, statuses) => mkOperational (dev_ID device) true uptimeSecs statuses collectedAt None
      end
    end
  end.

(** ** Store updates *)

Definition toMetrics (r : EssentialResult) : option DeviceMetrics :=
  if negb (bool_decide (er_SNMPReachable r = TriStateTrue)) then None
  else Some (mkDeviceMetrics (er_DeviceID r) (er_CPUPercent r) (er_MemPercent r) None (er_UptimeSecs r) (er_CollectedAt r)).

Definition Essential_ToStoreUpdate (r : EssentialResult) (expectedInterval : Duration) (deadlineMissed overloaded : bool) : StateUpdate :=
  {| su_DeviceID := er_DeviceID r; su_VolatilityClass := VolatilityClassPerformance; su_Metrics := toMetrics r; su_LinkMetrics := [];
     su_PollSuccess := bool_decide (er_SNMPReachable r = TriStateTrue); su_ExpectedInterval := expectedInterval;
     su_Timestamp := er_CollectedAt r;
     su_Essential := Some {| eu_PollStatus := er_PollStatus r; eu_NetworkReachable := er_NetworkReachable r;
       eu_NetworkReachabilityResults := er_NetworkReachabilityResults r; eu_SNMPReachable := er_SNMPReachable r;
       eu_Uptime := er_Uptime r; eu_CPU := er_CPU r; eu_Memory := er_Memory r; eu_DeadlineMissed := deadlineMissed;
       eu_Overloaded := overloaded |} |}.

Definition Performance_ToStoreUpdate (r : PerformanceResult) (expectedInterval : Duration) : StateUpdate :=
  let pollSuccess := bool_decide (pf_Err r = None) in
  {| su_DeviceID := pf_DeviceID r; su_VolatilityClass := VolatilityClassPerformance;
     su_Metrics := if pollSuccess then Some (mkDeviceMetrics (pf_DeviceID r) (dm_CPUPercent (pf_Metrics r)) (dm_MemPercent (pf_Metrics r))
                     (dm_TempCelsius (pf_Metrics r)) (dm_UptimeSecs (pf_Metrics r)) (pf_CollectedAt r)) else None;
     su_LinkMetrics := []; su_PollSuccess := pollSuccess; su_ExpectedInterval := expectedInterval; su_Timestamp := pf_CollectedAt r;
     su_Essential := None |}.

Definition Operational_ToStoreUpdate (r : OperationalResult) (expectedInterval : Duration) : StateUpdate :=
  {| su_DeviceID := or_DeviceID r; su_VolatilityClass := VolatilityClassOperational;
     su_Metrics := match or_UptimeSecs r with
                   | Some u => Some (mkDeviceMetrics (or_DeviceID r) None None None (Some u) (or_CollectedAt r))
                   | None => None
                   end;
     su_LinkMetrics := []; su_PollSuccess := or_Reachable r; su_ExpectedInterval := expectedInterval; su_Timestamp := or_CollectedAt r;
     su_Essential := None |}.
