(* ===== verification/StaticDedupe.v ===== *)
(** * Persistence of static discovery

    The part of [internal/worker/pipeline_task_runner.go] that decides whether the inventory and
    the neighbours a static poll found are written to the database: a fingerprint of the result is
    compared with that of the last one written for the device.  [encoding/json] is a parameter,
    the topology service is a function from the input to its answer, and the locked sections of
    one call follow each other.  [sort.Slice] is a merge sort. *)

From S2P Require Import Prelude GoLib GoText Sha256 Domain StateStore.

(** ** Data *)

Record NeighborInfo := mkNeighbor {
  nb_RemoteChassisID : string; nb_RemotePortID : string; nb_RemoteSysName : string;
  nb_LocalIfIndex : Z; nb_LocalIfName : string; nb_Protocol : string }.

Record NeighborDiscoveryFailure := mkFailure { nf_Protocol : string; nf_OID : string; nf_Critical : bool; nf_Error : string }.

Record StaticResult := mkStatic {
  sr_DeviceID : UUID;
  sr_Metrics : DeviceMetrics;
  sr_SysName : string;
  sr_SysDescr : string;
  sr_SysObjectID : string;
  sr_HardwareModel : string;
  sr_OSVersion : string;
  sr_Vendor : string;
  sr_DeviceType : string;
  sr_Interfaces : list Interface;
  sr_Neighbors : list NeighborInfo;
  sr_NeighborDiscoveryProtocols : list string;
  sr_NeighborDiscoveryFailures : list NeighborDiscoveryFailure;
  sr_CollectedAt : Time;
  sr_Err : option string }.

(** What is passed to the topology service. *)
Record StaticDiscoveryInput := mkInput {
  in_Result : StaticResult;
  in_SkipTopologyMaterialization : bool;
  in_DeferTopologyMaterialization : bool }.

(** The fields of its answer that are read. *)
Record StaticPersistenceResult := mkPersisted {
  sp_TopologyChanged : bool; sp_TopologyMaterialized : bool; sp_LinksCreated : Z; sp_UnresolvedNeighbors : Z }.
Definition zeroPersisted : StaticPersistenceResult := mkPersisted false false 0 0.

Record staticPersistenceCacheEntry := mkCacheEntry {
  ce_fingerprint : string;
  ce_topologyFingerprint : string;
  ce_persistedAt : Time;
  ce_topologyMaterializedAt : Time;
  ce_topologyUnresolvedNeighbors : Z }.
Definition zeroCacheEntry : staticPersistenceCacheEntry := mkCacheEntry "" "" 0 0 0.

Record staticDiscoveryInterfaceFingerprint := mkInterfaceFingerprint {
  fi_IfIndex : Z; fi_IfName : string; fi_IfDescr : string; fi_Speed : Z; fi_AdminStatus : string; fi_OperStatus : string }.

Record staticDiscoveryFingerprintPayload := mkPayload {
  fp_SysName : string; fp_SysDescr : string; fp_SysObjectID : string; fp_HardwareModel : string; fp_OSVersion : string;
  fp_Vendor : string; fp_DeviceType : string;
  fp_Interfaces : list staticDiscoveryInterfaceFingerprint;
  fp_Neighbors : list NeighborInfo;
  fp_Protocols : list string;
  fp_Failures : list NeighborDiscoveryFailure }.

Record staticDiscoveryTopologyFingerprintPayload := mkTopologyPayload {
  ft_Neighbors : list NeighborInfo;
  ft_Protocols : list string;
  ft_Failures : list (string * string * bool) }.

(** ** Lexicographic comparisons *)

(** [if a != b { return a < b }; rest] *)
Definition then_Z (a b : Z) (rest : bool) : bool := if negb (a =? b) then a <? b else rest.
Definition then_string (a b : string) (rest : bool) : bool := if negb (String.eqb a b) then string_ltb a b else rest.
Definition then_bool (a b : bool) (rest : bool) : bool := if negb (Bool.eqb a b) then negb a && b else rest.

Definition interface_less (a b : staticDiscoveryInterfaceFingerprint) : bool :=
  then_Z (fi_IfIndex a) (fi_IfIndex b) (then_string (fi_IfName a) (fi_IfName b) (string_ltb (fi_IfDescr a) (fi_IfDescr b))).
Definition neighbor_less (a b : NeighborInfo) : bool :=
  then_string (nb_Protocol a) (nb_Protocol b) (then_Z (nb_LocalIfIndex a) (nb_LocalIfIndex b)
    (then_string (nb_LocalIfName a) (nb_LocalIfName b) (then_string (nb_RemoteSysName a) (nb_RemoteSysName b)
      (then_string (nb_RemoteChassisID a) (nb_RemoteChassisID b) (string_ltb (nb_RemotePortID a) (nb_RemotePortID b)))))).
Definition failure_less (a b : NeighborDiscoveryFailure) : bool :=
  then_string (nf_Protocol a) (nf_Protocol b) (then_string (nf_OID a) (nf_OID b)
    (then_bool (nf_Critical a) (nf_Critical b) (string_ltb (nf_Error a) (nf_Error b)))).
Definition failure_fingerprint_less (a b : string * string * bool) : bool :=
  then_string a.1.1 b.1.1 (then_string a.1.2 b.1.2 (then_bool a.2 b.2 false)).

(** Sorting by a comparison [less]. *)
Definition sort_Slice {A} (less : A → A → bool) (l : list A) : list A :=
  merge_sort (λ a b, less b a = false) (H:=λ a b, decide (less b a = false)) l.

Section fingerprints.
Context (unicode_lower : string → string).
Context (marshal_static : staticDiscoveryFingerprintPayload → option bytes).
Context (marshal_topology : staticDiscoveryTopologyFingerprintPayload → option bytes).

(** ** Interfaces *)

Definition normalizedStaticDiscoveryInterfaceName (name : string) : string := ToLower unicode_lower (TrimSpace name).

Definition staticDiscoveryInterfaceIdentityKeys (i : Interface) : list string :=
  (if 0 <? if_IfIndex i then ["index:" +:+ Itoa (if_IfIndex i)]%string else [])
  ++ (let key := normalizedStaticDiscoveryInterfaceName (if_IfName i) in if String.eqb key "" then [] else ["name:" +:+ key]%string)
  ++ (let key := normalizedStaticDiscoveryInterfaceName (if_IfDescr i) in if String.eqb key "" then [] else ["name:" +:+ key]%string).

Definition nonblank (s : string) : bool := negb (String.eqb (TrimSpace s) "").

Definition canonicalStaticDiscoveryInterface (existing observed : Interface) : Interface :=
  {| if_IfIndex := if negb (if_IfIndex observed =? 0) then if_IfIndex observed else if_IfIndex existing;
     if_IfName := if nonblank (if_IfName observed) then if_IfName observed else if_IfName existing;
     if_IfDescr := if nonblank (if_IfDescr observed) then if_IfDescr observed else if_IfDescr existing;
     if_Speed := if 0 <? if_Speed observed then if_Speed observed else if_Speed existing;
     if_AdminStatus := if nonblank (if_AdminStatus observed) then if_AdminStatus observed else if_AdminStatus existing;
     if_OperStatus := if nonblank (if_OperStatus observed) then if_OperStatus observed else if_OperStatus existing |}.

(** Keys keep the first index they were seen at. *)
Definition add_keys (index : nat) (indexByKey : gmap string nat) (keys : list string) : gmap string nat :=
  foldl (λ m key, match m !! key with Some _ => m | None => <[key := index]> m end) indexByKey keys.

Fixpoint index_interfaces (index : nat) (indexByKey : gmap string nat) (l : list Interface) : gmap string nat :=
  match l with
  | [] => indexByKey
  | i :: rest => index_interfaces (S index) (add_keys index indexByKey (staticDiscoveryInterfaceIdentityKeys i)) rest
  end.

Fixpoint match_index (indexByKey : gmap string nat) (keys : list string) : option nat :=
  match keys with
  | [] => None
  | key :: rest => match indexByKey !! key with Some i => Some i | None => match_index indexByKey rest end
  end.

Definition merge_observed (acc : list Interface * gmap string nat) (observed : Interface) : list Interface * gmap string nat :=
  let '(merged, indexByKey) := acc in
  match match_index indexByKey (staticDiscoveryInterfaceIdentityKeys observed) with
  | Some i =>
    match merged !! i with
    | Some existing =>
      let c := canonicalStaticDiscoveryInterface existing observed in
      (<[i := c]> merged, add_keys i indexByKey (staticDiscoveryInterfaceIdentityKeys c))
    | None => acc (* not reached: indices are below the length *)
    end
  | None => (merged ++ [observed], add_keys (length merged) indexByKey (staticDiscoveryInterfaceIdentityKeys observed))
  end.

Definition canonicalStaticDiscoveryInterfaces (existing observed : list Interface) : list Interface :=
  match existing, observed with
  | [], _ => observed
  | _, [] => existing
  | _, _ => (foldl merge_observed (existing, index_interfaces 0 ∅ existing) observed).1
  end.

Definition staticDiscoveryInterfaceFingerprints (existing observed : list Interface) : list staticDiscoveryInterfaceFingerprint :=
  sort_Slice interface_less
    ((λ i, mkInterfaceFingerprint (if_IfIndex i) (TrimSpace (if_IfName i)) (TrimSpace (if_IfDescr i)) (if_Speed i)
             (TrimSpace (if_AdminStatus i)) (TrimSpace (if_OperStatus i))) <$> canonicalStaticDiscoveryInterfaces existing observed).

(** ** Fingerprints *)

Definition staticDiscoveryNeighborFingerprints (neighbors : list NeighborInfo) : list NeighborInfo :=
  sort_Slice neighbor_less
    ((λ n, mkNeighbor (TrimSpace (nb_RemoteChassisID n)) (TrimSpace (nb_RemotePortID n)) (TrimSpace (nb_RemoteSysName n))
             (nb_LocalIfIndex n) (TrimSpace (nb_LocalIfName n)) (nb_Protocol n)) <$> neighbors).

Definition staticDiscoveryNeighborFailureFingerprints (failures : list NeighborDiscoveryFailure) : list (string * string * bool) :=
  sort_Slice failure_fingerprint_less ((λ f, (nf_Protocol f, TrimSpace (nf_OID f), nf_Critical f)) <$> failures).

(** [hex.EncodeToString(sha256.Sum256(encoded))], or empty if encoding failed. *)
Definition digest (encoded : option bytes) : string :=
  match encoded with Some raw => string_of (hex_of_bytes (Sum256 raw)) | None => "" end.

Definition staticDiscoveryFingerprint (device : Device) (r : StaticResult) : string :=
  digest (marshal_static (mkPayload (TrimSpace (sr_SysName r)) (TrimSpace (sr_SysDescr r)) (TrimSpace (sr_SysObjectID r))
    (TrimSpace (sr_HardwareModel r)) (TrimSpace (sr_OSVersion r)) (TrimSpace (sr_Vendor r)) (sr_DeviceType r)
    (staticDiscoveryInterfaceFingerprints (dev_Interfaces device) (sr_Interfaces r))
    (staticDiscoveryNeighborFingerprints (sr_Neighbors r))
    (sort_Slice string_ltb (sr_NeighborDiscoveryProtocols r))
    (sort_Slice failure_less (sr_NeighborDiscoveryFailures r)))).

Definition staticDiscoveryTopologyFingerprint (r : StaticResult) : string :=
  digest (marshal_topology (mkTopologyPayload (staticDiscoveryNeighborFingerprints (sr_Neighbors r))
    (sort_Slice string_ltb (sr_NeighborDiscoveryProtocols r))
    (staticDiscoveryNeighborFailureFingerprints (sr_NeighborDiscoveryFailures r)))).

(** ** The decision *)

(** The cache, whether a topology notification is waiting (the channel has room for one), and the
    calls of the topology service. *)
Record Persistence := mkPersistence {
  ps_cache : gmap UUID staticPersistenceCacheEntry;
  ps_notified : bool;
  ps_calls : list (UUID * StaticDiscoveryInput) }.

Definition staticPersistenceRequiresBootstrapFollowup (device : Device) : bool :=
  str_in (NormalizeTopologyBootstrapState (dev_TopologyBootstrapState device))
    [TopologyBootstrapStatePending; TopologyBootstrapStateFollowupScheduled].

Definition shouldPersistStaticDiscovery (deviceID : UUID) (fingerprint : string) (p : Persistence) : bool :=
  if (deviceID =? uuid_Nil) || String.eqb fingerprint "" then true
  else match ps_cache p !! deviceID with
  | None => true
  | Some entry => negb (String.eqb (ce_fingerprint entry) fingerprint) || Time_IsZero (ce_persistedAt entry)
  end.

Definition staticTopologyFingerprintUnchanged (deviceID : UUID) (topologyFingerprint : string) (p : Persistence) : bool :=
  if (deviceID =? uuid_Nil) || String.eqb topologyFingerprint "" then false
  else match ps_cache p !! deviceID with
  | None => false
  | Some entry =>
    negb (negb (String.eqb (ce_topologyFingerprint entry) topologyFingerprint) || Time_IsZero (ce_topologyMaterializedAt entry)
          || (0 <? ce_topologyUnresolvedNeighbors entry))
  end.

Definition remember_entry (now : Time) (fingerprint topologyFingerprint : string) (r : StaticPersistenceResult) (entry : staticPersistenceCacheEntry)
  : staticPersistenceCacheEntry :=
  if sp_TopologyMaterialized r then mkCacheEntry fingerprint topologyFingerprint now now (sp_UnresolvedNeighbors r)
  else if negb (String.eqb (ce_topologyFingerprint entry) topologyFingerprint) then mkCacheEntry fingerprint topologyFingerprint now 0 0
  else mkCacheEntry fingerprint (ce_topologyFingerprint entry) now (ce_topologyMaterializedAt entry) (ce_topologyUnresolvedNeighbors entry).

Definition rememberStaticDiscoveryPersistence (now : Time) (deviceID : UUID) (fingerprint topologyFingerprint : string)
  (r : StaticPersistenceResult) (p : Persistence) : Persistence :=
  if (deviceID =? uuid_Nil) || String.eqb fingerprint "" then p
  else mkPersistence (<[deviceID := remember_entry now fingerprint topologyFingerprint r (default zeroCacheEntry (ps_cache p !! deviceID))]> (ps_cache p))
         (ps_notified p) (ps_calls p).

Definition clearStaticPersistenceDedupe (deviceID : UUID) (p : Persistence) : Persistence :=
  if deviceID =? uuid_Nil then p else mkPersistence (delete deviceID (ps_cache p)) (ps_notified p) (ps_calls p).

(** [hasService] and [hasNotify] say whether the topology service and the channel exist. *)
Definition persistStaticDiscoveryWithPolicy (hasService hasNotify : bool) (apply : UUID → StaticDiscoveryInput → result StaticPersistenceResult)
  (now : Time) (device : Device) (r : StaticResult) (force deferTopologyMaterialization : bool) (p : Persistence)
  : result StaticPersistenceResult * Persistence :=
  if negb hasService then (Err "topology persistence is unavailable", p)
  else
    let force := force || staticPersistenceRequiresBootstrapFollowup device in
    let fingerprint := staticDiscoveryFingerprint device r in
    let topologyFingerprint := staticDiscoveryTopologyFingerprint r in
    if negb force && negb (shouldPersistStaticDiscovery (dev_ID device) fingerprint p) then (Ok zeroPersisted, p)
    else
      let skip := negb force && staticTopologyFingerprintUnchanged (dev_ID device) topologyFingerprint p in
      let input := mkInput r skip deferTopologyMaterialization in
      let p := mkPersistence (ps_cache p) (ps_notified p) (ps_calls p ++ [(dev_ID device, input)]) in
      match apply (dev_ID device) input with
      | Err e => (Err e, p)
      | Ok persisted =>
        let p := rememberStaticDiscoveryPersistence now (dev_ID device) fingerprint topologyFingerprint persisted p in
        (Ok persisted, if sp_TopologyChanged persisted && hasNotify then mkPersistence (ps_cache p) true (ps_calls p) else p)
      end.

Definition persistStaticDiscovery hasService hasNotify apply now device r p :=
  persistStaticDiscoveryWithPolicy hasService hasNotify apply now device r false false p.
Definition persistStaticDiscoveryForced hasService hasNotify apply now device r p :=
  persistStaticDiscoveryWithPolicy hasService hasNotify apply now device r true false p.
Definition persistStaticDiscoveryDeferred hasService hasNotify apply now device r p :=
  persistStaticDiscoveryWithPolicy hasService hasNotify apply now device r true true p.
End fingerprints.

(** * Persistence of static discovery: theorems

    The cache of the task runner against two maps that say what it is for, and the fingerprint of
    interfaces that the inventory already has. *)


#[local] Arguments Time_IsZero : simpl never.

Section dedupe.
Context (unicode_lower : string → string).
Context (marshal_static : staticDiscoveryFingerprintPayload → option bytes).
Context (marshal_topology : staticDiscoveryTopologyFingerprintPayload → option bytes).

(** ** A series of results *)

(** One static result that a worker hands over, with the answer of the topology service. *)
Record PersistEvent := mkEvent {
  pe_device : Device; pe_result : StaticResult; pe_force : bool; pe_defer : bool; pe_now : Time;
  pe_answer : result StaticPersistenceResult }.

Definition run_persist (p : Persistence) (events : list PersistEvent) : Persistence :=
  foldl (λ p e, (persistStaticDiscoveryWithPolicy unicode_lower marshal_static marshal_topology true true (λ _ _, pe_answer e)
    (pe_now e) (pe_device e) (pe_result e) (pe_force e) (pe_defer e) p).2) p events.

Definition event_fp (e : PersistEvent) : string := staticDiscoveryFingerprint unicode_lower marshal_static (pe_device e) (pe_result e).
Definition event_topology (e : PersistEvent) : string := staticDiscoveryTopologyFingerprint marshal_topology (pe_result e).

(** ** What the cache is for *)

(** Per device, the fingerprint of the result in the database, and that of its topology if all its
    neighbours are known there. *)
Record Written := mkWritten { wr_result : gmap UUID string; wr_topology : gmap UUID string }.

Definition has (m : gmap UUID string) (id : UUID) (fp : string) : bool := negb (String.eqb fp "") && bool_decide (m !! id = Some fp).

Definition spec_forced (e : PersistEvent) : bool := pe_force e || staticPersistenceRequiresBootstrapFollowup (pe_device e).

Definition spec_topology (e : PersistEvent) (r : StaticPersistenceResult) (m : gmap UUID string) : gmap UUID string :=
  let id := dev_ID (pe_device e) in
  if sp_TopologyMaterialized r then if 0 <? sp_UnresolvedNeighbors r then delete id m else <[id := event_topology e]> m
  else if bool_decide (m !! id = Some (event_topology e)) then m else delete id m.

(** The calls that should be made: a result is written unless it is the one written last or the
    write is forced, and its topology is left out if it is the known one. *)
Definition spec_step (acc : Written * list (UUID * StaticDiscoveryInput)) (e : PersistEvent) : Written * list (UUID * StaticDiscoveryInput) :=
  let '(w, calls) := acc in
  let id := dev_ID (pe_device e) in
  if negb (spec_forced e) && has (wr_result w) id (event_fp e) then acc
  else
    let skip := negb (spec_forced e) && has (wr_topology w) id (event_topology e) in
    (match pe_answer e with
     | Ok r => if String.eqb (event_fp e) "" then w else mkWritten (<[id := event_fp e]> (wr_result w)) (spec_topology e r (wr_topology w))
     | Err _ => w
     end, calls ++ [(id, mkInput (pe_result e) skip (pe_defer e))]).

(** The cache holds what [Written] says. *)
Definition holds (p : Persistence) (w : Written) : Prop :=
  ∀ id, wr_result w !! id = (ps_cache p !! id ≫= λ c, if Time_IsZero (ce_persistedAt c) then None else Some (ce_fingerprint c)) ∧
        wr_topology w !! id = (ps_cache p !! id ≫= λ c,
          if Time_IsZero (ce_topologyMaterializedAt c) || (0 <? ce_topologyUnresolvedNeighbors c) then None else Some (ce_topologyFingerprint c)).

Lemma should_persist_has p w id fp :
  holds p w → id ≠ uuid_Nil → shouldPersistStaticDiscovery id fp p = negb (has (wr_result w) id fp).
Proof.
  intros Hh Hid. unfold shouldPersistStaticDiscovery, has. rewrite (proj2 (Z.eqb_neq _ _) Hid). cbn [orb].
  destruct (String.eqb fp "") eqn:E; [done|]. cbn [negb andb]. rewrite (proj1 (Hh id)).
  destruct (ps_cache p !! id) as [c|]; cbn; [|done]. destruct (Time_IsZero _); [by rewrite orb_true_r|]. rewrite orb_false_r.
  case_bool_decide as Hc; [injection Hc as ->; by rewrite String.eqb_refl|].
  destruct (String.eqb_spec (ce_fingerprint c) fp); [congruence|done].
Qed.

Lemma topology_unchanged_has p w id fp :
  holds p w → id ≠ uuid_Nil → staticTopologyFingerprintUnchanged id fp p = has (wr_topology w) id fp.
Proof.
  intros Hh Hid. unfold staticTopologyFingerprintUnchanged, has. rewrite (proj2 (Z.eqb_neq _ _) Hid). cbn [orb].
  destruct (String.eqb fp "") eqn:E; [done|]. cbn [negb andb]. rewrite (proj2 (Hh id)).
  destruct (ps_cache p !! id) as [c|]; cbn; [|done]. destruct (String.eqb_spec (ce_topologyFingerprint c) fp) as [->|Hne]; cbn [negb orb].
  - destruct (_ || _); cbn; [done|]. by rewrite bool_decide_true.
  - rewrite bool_decide_false; [done|]. destruct (_ || _); congruence.
Qed.

Lemma remember_entry_written now fp tfp r c :
  ce_persistedAt (remember_entry now fp tfp r c) = now ∧ ce_fingerprint (remember_entry now fp tfp r c) = fp.
Proof. unfold remember_entry. destruct (sp_TopologyMaterialized r); [done|]. by destruct (negb _). Qed.

Lemma remember_holds p w e r :
  holds p w → dev_ID (pe_device e) ≠ uuid_Nil → 0 < pe_now e → event_fp e ≠ "" →
  holds (rememberStaticDiscoveryPersistence (pe_now e) (dev_ID (pe_device e)) (event_fp e) (event_topology e) r p)
    (mkWritten (<[dev_ID (pe_device e) := event_fp e]> (wr_result w)) (spec_topology e r (wr_topology w))).
Proof.
  intros Hh Hid Ht Hfp id. unfold rememberStaticDiscoveryPersistence. rewrite (proj2 (Z.eqb_neq _ _) Hid), (proj2 (String.eqb_neq _ _) Hfp). cbn.
  assert (Hz : Time_IsZero (pe_now e) = false) by (apply Z.eqb_neq; lia). destruct (Hh id) as [H1 H2].
  destruct (decide (id = dev_ID (pe_device e))) as [->|Hne].
  - rewrite !lookup_insert_eq. cbn. split; [destruct (remember_entry_written (pe_now e) (event_fp e) (event_topology e) r (default zeroCacheEntry (ps_cache p !! dev_ID (pe_device e)))) as [-> ->]; by rewrite Hz|].
    unfold remember_entry, spec_topology. destruct (sp_TopologyMaterialized r); cbn.
    { rewrite Hz. cbn. destruct (0 <? sp_UnresolvedNeighbors r); [by rewrite lookup_delete_eq|by rewrite lookup_insert_eq]. }
    destruct (ps_cache p !! dev_ID (pe_device e)) as [c|] eqn:Ec; cbn in *.
    + destruct (String.eqb_spec (ce_topologyFingerprint c) (event_topology e)) as [Et|Et]; cbn.
      * case_bool_decide as Hb; [by rewrite H2|]. rewrite lookup_delete_eq. destruct (_ || _); [done|]. congruence.
      * rewrite bool_decide_false; [by rewrite lookup_delete_eq|]. rewrite H2. destruct (_ || _); congruence.
    + rewrite bool_decide_false by congruence. rewrite lookup_delete_eq. by destruct (event_topology e).
  - rewrite !lookup_insert_ne by done. split; [done|]. rewrite <- H2. unfold spec_topology.
    cases; rewrite ?lookup_delete_ne, ?lookup_insert_ne by done; done.
Qed.

Lemma persist_step_spec p w e calls :
  holds p w → ps_calls p = calls → dev_ID (pe_device e) ≠ uuid_Nil → 0 < pe_now e →
  let p' := run_persist p [e] in
  let '(w', calls') := spec_step (w, calls) e in
  holds p' w' ∧ ps_calls p' = calls'.
Proof.
  intros Hh Hc Hid Ht. unfold run_persist, spec_step. cbn [foldl]. unfold persistStaticDiscoveryWithPolicy. cbn [negb].
  fold (spec_forced e) (event_fp e) (event_topology e). rewrite (should_persist_has p w), negb_involutive, (topology_unchanged_has p w) by done.
  destruct (negb (spec_forced e) && has (wr_result w) _ (event_fp e)); cbn [snd]; [done|].
  set (input := mkInput _ _ _). set (p1 := mkPersistence _ _ _). assert (H1 : holds p1 w) by exact Hh.
  destruct (pe_answer e) as [r|]; cbn [snd]; [|by rewrite <- Hc].
  destruct (String.eqb_spec (event_fp e) "") as [E|E].
  - assert (rememberStaticDiscoveryPersistence (pe_now e) (dev_ID (pe_device e)) (event_fp e) (event_topology e) r p1 = p1) as ->.
    { unfold rememberStaticDiscoveryPersistence. by rewrite E, orb_true_r. }
    rewrite <- Hc. by destruct (sp_TopologyChanged r && true).
  - pose proof (remember_holds p1 w e r H1 Hid Ht E) as H2.
    assert (Hcalls : ps_calls (rememberStaticDiscoveryPersistence (pe_now e) (dev_ID (pe_device e)) (event_fp e) (event_topology e) r p1) = ps_calls p1).
    { unfold rememberStaticDiscoveryPersistence. by destruct (_ || _). }
    destruct (sp_TopologyChanged r && true); cbn [ps_calls]; rewrite ?Hcalls; (split; [exact H2|by rewrite <- Hc]).
Qed.

Lemma run_persist_spec events p w calls :
  holds p w → ps_calls p = calls → Forall (λ e, dev_ID (pe_device e) ≠ uuid_Nil ∧ 0 < pe_now e) events →
  let '(w', calls') := foldl spec_step (w, calls) events in
  holds (run_persist p events) w' ∧ ps_calls (run_persist p events) = calls'.
Proof.
  intros Hh Hc Hall. revert p w calls Hh Hc. induction Hall as [|e events [Hid Ht] _ IH]; intros p w calls Hh Hc; [done|].
  pose proof (persist_step_spec p w e calls Hh Hc Hid Ht) as Hs. cbn zeta in Hs.
  change (run_persist p (e :: events)) with (run_persist (run_persist p [e]) events). cbn [foldl].
  destruct (spec_step (w, calls) e) as [w' calls']. destruct Hs. by apply IH.
Qed.

(** Whatever series of static results the workers hand over, the topology service is called
    exactly for those that are forced (a bootstrap, or one still to be followed up) or differ, by
    fingerprint, from the last result written successfully for the device; a failed write is
    repeated.  It is told to leave the links alone exactly if the write is not forced and the
    neighbours are, by fingerprint, those whose links are in the database with none unresolved. *)
Theorem dedupe_exact events :
  Forall (λ e, dev_ID (pe_device e) ≠ uuid_Nil ∧ 0 < pe_now e) events →
  ps_calls (run_persist (mkPersistence ∅ false []) events) = (foldl spec_step (mkWritten ∅ ∅, []) events).2.
Proof.
  intros Hall. pose proof (run_persist_spec events (mkPersistence ∅ false []) (mkWritten ∅ ∅) []) as H.
  destruct (foldl spec_step _ _) as [w' calls']. apply H; [|done|done]. intros id. cbn. by rewrite !lookup_empty.
Qed.
End dedupe.

(** ** A series of five results *)

Definition demo_result (name : string) : StaticResult :=
  mkStatic 7 zeroMetrics name "" "" "" "" "" "router" [] [] [] [] 1 None.
Definition demo_device : Device :=
  {| dev_ID := 7; dev_Hostname := ""; dev_SysName := ""; dev_IP := "10.0.0.7"; dev_SNMPCredentials := dev_SNMPCredentials zeroDevice;
     dev_DeviceType := "router"; dev_PollClass := ""; dev_PollIntervalOverride := None; dev_PollingEnabled := None; dev_Status := "";
     dev_Managed := true; dev_Interfaces := []; dev_Addresses := []; dev_ProbePorts := []; dev_AreaIDs := []; dev_MetricsSource := "";
     dev_TopologyDiscoveryMode := ""; dev_TopologyBootstrapState := "" |}.
Definition demo_events : list PersistEvent :=
  let ok := Ok (mkPersisted false true 0 0) in
  [mkEvent demo_device (demo_result "a") false false 1 ok; mkEvent demo_device (demo_result "a") false false 2 ok;
   mkEvent demo_device (demo_result "b") false false 3 (Err "down"); mkEvent demo_device (demo_result "b") false false 4 ok;
   mkEvent demo_device (demo_result "b") true true 5 ok].

Lemma dedupe_exact_witness :
  let marshal := λ p, Some (bytes_of (fp_SysName p)) in
  (λ c, (sr_SysName (in_Result c.2), in_SkipTopologyMaterialization c.2)) <$>
    ps_calls (run_persist id marshal (λ _, Some []) (mkPersistence ∅ false []) demo_events)
  = [("a", false); ("b", true); ("b", true); ("b", false)].
Proof.
  intros marshal. rewrite (dedupe_exact id marshal (λ _, Some []) demo_events).
  - vm_compute. reflexivity.
  - repeat (apply Forall_cons; split; [split; [discriminate|reflexivity]|]). apply Forall_nil. exact I.
Defined.
