(* ===== verification/TaskRunner.v ===== *)
(** * The task runner of the pipeline

    [internal/worker/pipeline_task_runner.go] with the per-device state of
    [pipeline_runtime_state.go]: what a worker does with one task of the scheduler.  It asks the
    collector of the task, turns the result into updates of the state store, keeps counter
    baselines, cooldowns and Prometheus host names, persists static discoveries, and tells the
    scheduler that the task is done.

    What other goroutines do between two locked sections is the argument [gap], a function on the
    whole state for every such point.  What the outside answers during the task is the record
    [TaskEnv].  The state store is not nil (the pipeline is built with one); messages to
    subscribers of device details and metrics are left out. *)

From S2P Require Import Prelude GoLib GoText Domain Addresses Policy SchedTypes StateStore Runtime Rates Performance Cooldown Collectors StaticDedupe.

(** ** State *)

(** [service.DeviceImportTopologyBootstrapOutcome] *)
Record BootstrapOutcome := mkOutcome {
  bo_DiscoveryErr : option string; bo_PersistenceErr : option string; bo_NeighborCount : Z; bo_ProtocolIssues : Z;
  bo_LinksCreated : Z; bo_UnresolvedNeighbors : Z; bo_CompletedAt : Time }.

Record Runner := mkRunner {
  rn_store : Store;
  rn_prevCounters : gmap UUID (gmap string CounterBaseline);
  rn_cooldowns : Cooldowns;
  rn_hostnames : gmap UUID string;
  rn_hostnameObservedAt : gmap UUID Time;
  rn_persistence : Persistence;
  rn_completions : list Completion;
  rn_outcomes : list (UUID * UUID * BootstrapOutcome) }.

#[export] Instance upd_rn_store : Update rn_store := λ v r, mkRunner v (rn_prevCounters r) (rn_cooldowns r) (rn_hostnames r) (rn_hostnameObservedAt r) (rn_persistence r) (rn_completions r) (rn_outcomes r).
#[export] Instance upd_rn_prevCounters : Update rn_prevCounters := λ v r, mkRunner (rn_store r) v (rn_cooldowns r) (rn_hostnames r) (rn_hostnameObservedAt r) (rn_persistence r) (rn_completions r) (rn_outcomes r).
#[export] Instance upd_rn_cooldowns : Update rn_cooldowns := λ v r, mkRunner (rn_store r) (rn_prevCounters r) v (rn_hostnames r) (rn_hostnameObservedAt r) (rn_persistence r) (rn_completions r) (rn_outcomes r).
#[export] Instance upd_rn_hostnames : Update rn_hostnames := λ v r, mkRunner (rn_store r) (rn_prevCounters r) (rn_cooldowns r) v (rn_hostnameObservedAt r) (rn_persistence r) (rn_completions r) (rn_outcomes r).
#[export] Instance upd_rn_hostnameObservedAt : Update rn_hostnameObservedAt := λ v r, mkRunner (rn_store r) (rn_prevCounters r) (rn_cooldowns r) (rn_hostnames r) v (rn_persistence r) (rn_completions r) (rn_outcomes r).
#[export] Instance upd_rn_persistence : Update rn_persistence := λ v r, mkRunner (rn_store r) (rn_prevCounters r) (rn_cooldowns r) (rn_hostnames r) (rn_hostnameObservedAt r) v (rn_completions r) (rn_outcomes r).
#[export] Instance upd_rn_completions : Update rn_completions := λ v r, mkRunner (rn_store r) (rn_prevCounters r) (rn_cooldowns r) (rn_hostnames r) (rn_hostnameObservedAt r) (rn_persistence r) v (rn_outcomes r).
#[export] Instance upd_rn_outcomes : Update rn_outcomes := λ v r, mkRunner (rn_store r) (rn_prevCounters r) (rn_cooldowns r) (rn_hostnames r) (rn_hostnameObservedAt r) (rn_persistence r) (rn_completions r) v.

(** Which parts the pipeline was built with. *)
Record PipelineConfig := {
  cf_scheduler : bool; cf_essential : bool; cf_performance : option PerformanceCollector; cf_operational : bool; cf_static : bool;
  cf_prometheus : bool; cf_topologyService : bool; cf_topologyNotify : bool; cf_cache : bool; cf_settings : option (string → option string) }.

(** What the outside answers during one task. *)
Record TaskEnv := {
  te_now : Time;                                                          (* time.Now during the task *)
  te_finished : Time;                                                     (* time.Now at its end *)
  te_clock : Time;                                                        (* the clocks of the runtime state and the static cache *)
  te_collectedAt : Time;                                                  (* the clock of the collector *)
  te_net : Net;                                                           (* SNMP *)
  te_ctxErr : Z → option string;                                          (* ctx.Err() before a port is dialled *)
  te_dial : string → Duration → option string;                            (* a TCP connection *)
  te_static : Device → string → StaticResult;                             (* the static collector *)
  te_overloaded : bool;                                                   (* PollingHealth().EssentialOverloaded *)
  te_promEnabled : bool;                                                  (* GetPrometheusStatus().Enabled *)
  te_hostname : result string;                                            (* CollectDeviceHostname *)
  te_enrichment : result (string * option bool);                          (* CollectDeviceEnrichment: host name, probe *)
  te_cached : result (option Device);                                     (* cache.GetDeviceByID *)
  te_apply : UUID → StaticDiscoveryInput → result StaticPersistenceResult; (* the topology service *)
  te_tracked : option UUID;                                               (* the import run that tracks the bootstrap *)
  te_between : list (list UUID) → list (list UUID) }.                     (* the consumer of the store's changes *)

Section runner.
Context (unicode_lower : string → string) (ParseFloat : string → option float64) (quoted : string → string).
Context (marshal_static : staticDiscoveryFingerprintPayload → option bytes).
Context (marshal_topology : staticDiscoveryTopologyFingerprintPayload → option bytes).
Context (cf : PipelineConfig).

(** ** Settings *)

Definition SettingNetworkProbePorts : string := "network_probe_ports".
Definition SettingTopologyDiscoveryDefaultMode : string := "topology_discovery_default_mode".

(** The fallback for a lane without a profile is not reached: every lane used has one. *)
Definition timeoutProfile (lane : Lane) : TimeoutProfile :=
  Timeouts (PolicyFromSettings ParseFloat (cf_settings cf) 0 (300 * Millisecond) 0).1 lane.

Definition globalNetworkProbePorts : list Z :=
  match repo_Get (cf_settings cf) SettingNetworkProbePorts with
  | None => CoerceNetworkProbePortsCSV quoted ""
  | Some value => CoerceNetworkProbePortsCSV quoted (TrimSpace value)
  end.

Definition primaryAddressProbePorts (device : Device) : list Z :=
  let primary := PrimaryAddress unicode_lower device in
  if String.eqb primary "" then []
  else
    let normalizedPrimary := NormalizeDeviceAddressValue unicode_lower primary in
    match list_find (λ a, negb (String.eqb normalizedPrimary "")
                          && String.eqb (NormalizeDeviceAddressValue unicode_lower (addr_Address a)) normalizedPrimary = true) (dev_Addresses device) with
    | Some (_, a) => addr_ProbePorts a
    | None => []
    end.

Definition networkProbePorts (device : Device) : list Z :=
  ResolveProbePorts (primaryAddressProbePorts device) (dev_ProbePorts device) globalNetworkProbePorts.

Definition defaultTopologyDiscoveryMode : string :=
  match repo_Get (cf_settings cf) SettingTopologyDiscoveryDefaultMode with
  | Some value => NormalizeTopologyDiscoveryMode value TopologyDiscoveryModeLLDPCDP
  | None => TopologyDiscoveryModeLLDPCDP
  end.

Definition resolvedTopologyDiscoveryMode (device : Device) : string :=
  let mode := NormalizeTopologyDiscoveryMode (dev_TopologyDiscoveryMode device) TopologyDiscoveryModeInherit in
  if String.eqb mode TopologyDiscoveryModeInherit then defaultTopologyDiscoveryMode else mode.

Definition topologyDiscoveryMode (device : Device) : string :=
  let mode := resolvedTopologyDiscoveryMode device in
  if String.eqb mode TopologyDiscoveryModeBootstrapOnce then TopologyDiscoveryModeOff else mode.

Definition bootstrapTopologyDiscoveryMode (device : Device) : string :=
  ResolveTopologyDiscoveryMode (Some device) defaultTopologyDiscoveryMode.

Definition deferBootstrapTopologyMaterialization (device : Device) (tracked : bool) : bool :=
  tracked || String.eqb (NormalizeTopologyDiscoveryMode (dev_TopologyDiscoveryMode device) TopologyDiscoveryModeOff) TopologyDiscoveryModeBootstrapOnce.

(** ** Steps *)

Definition completionTime (clock collectedAt : Time) : Time := if Time_IsZero collectedAt then clock else collectedAt.

Definition store_update (env : TaskEnv) (u : StateUpdate) (r : Runner) : Runner := r <| rn_store := Store_Update (te_between env) u (rn_store r) |>.

Definition knownSNMPUnreachable (deviceID : UUID) (r : Runner) : bool :=
  if deviceID =? uuid_Nil then false
  else match GetDevice deviceID (rn_store r) with
  | Some ds => bool_decide (ds_SNMPReachable ds = TriStateFalse)
  | None => false
  end.

Definition recordPrometheusHostname (clock : Time) (deviceID : UUID) (hostname : string) (r : Runner) : Runner :=
  if String.eqb hostname "" then r
  else r <| rn_hostnames := <[deviceID := hostname]> (rn_hostnames r) |> <| rn_hostnameObservedAt := <[deviceID := clock]> (rn_hostnameObservedAt r) |>.

Definition sameStaticPollIdentity (taskDevice cached : Device) : bool :=
  if negb (dev_ID taskDevice =? dev_ID cached) then false
  else
    let taskIP := TrimSpace (dev_IP taskDevice) in
    let cachedIP := TrimSpace (dev_IP cached) in
    negb (negb (String.eqb taskIP "") && negb (String.eqb cachedIP "") && negb (String.eqb taskIP cachedIP)).

(** [device.Interfaces = interfaces] *)
Definition with_interfaces (interfaces : list Interface) (d : Device) : Device :=
  {| dev_ID := dev_ID d; dev_Hostname := dev_Hostname d; dev_SysName := dev_SysName d; dev_IP := dev_IP d; dev_SNMPCredentials := dev_SNMPCredentials d;
     dev_DeviceType := dev_DeviceType d; dev_PollClass := dev_PollClass d; dev_PollIntervalOverride := dev_PollIntervalOverride d;
     dev_PollingEnabled := dev_PollingEnabled d; dev_Status := dev_Status d; dev_Managed := dev_Managed d;
     dev_Interfaces := interfaces; dev_Addresses := dev_Addresses d; dev_ProbePorts := dev_ProbePorts d;
     dev_AreaIDs := dev_AreaIDs d; dev_MetricsSource := dev_MetricsSource d;
     dev_TopologyDiscoveryMode := dev_TopologyDiscoveryMode d; dev_TopologyBootstrapState := dev_TopologyBootstrapState d |}.

Definition staticPollDevice (env : TaskEnv) (device : Device) : Device :=
  if negb (cf_cache cf) || (dev_ID device =? uuid_Nil) || (0 <? Z.of_nat (length (dev_Interfaces device))) then device
  else match te_cached env with
  | Ok (Some cached) =>
    if (length (dev_Interfaces cached) =? 0)%nat || negb (sameStaticPollIdentity device cached) then device
    else with_interfaces (dev_Interfaces cached) device
  | _ => device
  end.

Definition staticResultMetrics (r : StaticResult) : option DeviceMetrics :=
  match sr_Err r with Some _ => None | None => Some (sr_Metrics r) end.

Definition static_update (deviceID : UUID) (r : StaticResult) (interval : Duration) (at_ : Time) : StateUpdate :=
  {| su_DeviceID := deviceID; su_VolatilityClass := VolatilityClassStatic; su_Metrics := staticResultMetrics r; su_LinkMetrics := [];
     su_PollSuccess := bool_decide (sr_Err r = None); su_ExpectedInterval := interval; su_Timestamp := at_; su_Essential := None |}.

Definition persist (env : TaskEnv) (device : Device) (result : StaticResult) (force defer : bool) (r : Runner)
  : Prelude.result StaticPersistenceResult * Runner :=
  let '(answer, p) := persistStaticDiscoveryWithPolicy unicode_lower marshal_static marshal_topology (cf_topologyService cf) (cf_topologyNotify cf)
    (te_apply env) (te_clock env) device result force defer (rn_persistence r) in
  (answer, r <| rn_persistence := p |>).

Definition bootstrap_completed (tracked : option UUID) (deviceID : UUID) (o : BootstrapOutcome) (r : Runner) : Runner :=
  match tracked with
  | Some runID => r <| rn_outcomes := rn_outcomes r ++ [(runID, deviceID, o)] |>
  | None => r
  end.

(** ** The kinds of task *)

Definition run_essential (env : TaskEnv) (gap : nat → Runner → Runner) (task : PollTask) (r : Runner) : Runner :=
  if negb (cf_essential cf) then r
  else
    let profile := timeoutProfile LaneEssential in
    let result := Essential_Poll (te_ctxErr env) (te_dial env) (te_net env) (te_collectedAt env) (task_Device task) (tp_Timeout profile) (networkProbePorts (task_Device task)) in
    let overloaded := task_DeadlineMissed task && te_overloaded env in
    store_update env (Essential_ToStoreUpdate result (task_ExpectedInterval task) (task_DeadlineMissed task) overloaded) (gap 0%nat r).

Definition bootstrap_persist (env : TaskEnv) (gap : nat → Runner → Runner) (device : Device) (result : StaticResult) (finishedAt : Time) (r : Runner) : Runner :=
  let neighbors := Z.of_nat (length (sr_Neighbors result)) in
  let issues := Z.of_nat (length (sr_NeighborDiscoveryFailures result)) in
  let done err perr links unresolved := bootstrap_completed (te_tracked env) (dev_ID device) (mkOutcome err perr neighbors issues links unresolved finishedAt) in
  match sr_Err result with
  | Some e => done (Some e) None 0 0 r
  | None =>
    if negb (cf_topologyService cf) then done None (Some "topology persistence is unavailable") 0 0 r
    else
      let defer := deferBootstrapTopologyMaterialization device (bool_decide (is_Some (te_tracked env))) in
      let '(answer, r) := persist env device result true defer (gap 2%nat r) in
      match answer with
      | Ok persisted => done None None (sp_LinksCreated persisted) (sp_UnresolvedNeighbors persisted) r
      | Err e => done None (Some e) 0 0 r
      end
  end.

Definition run_bootstrap (env : TaskEnv) (gap : nat → Runner → Runner) (task : PollTask) (r : Runner) : Runner :=
  if negb (cf_static cf) then r
  else
    let device := task_Device task in
    if bool_decide (is_Some (te_tracked env)) && knownSNMPUnreachable (dev_ID device) r
    then bootstrap_completed (te_tracked env) (dev_ID device)
           (mkOutcome (Some "SNMP was already marked unreachable by essential polling") None 0 0 0 0 (te_now env)) r
    else
      let result := te_static env device (bootstrapTopologyDiscoveryMode device) in
      let finishedAt := completionTime (te_now env) (sr_CollectedAt result) in
      let r := store_update env (static_update (dev_ID device) result (task_ExpectedInterval task) finishedAt) (gap 1%nat r) in
      bootstrap_persist env gap device result finishedAt r.

(** The updates of a virtual device: reachability, and freshness for the overview. *)
Definition virtualReachabilityStoreUpdate (task : PollTask) (result : OperationalResult) (now : Time) : StateUpdate :=
  {| su_DeviceID := dev_ID (task_Device task); su_VolatilityClass := VolatilityClassOperational; su_Metrics := None; su_LinkMetrics := [];
     su_PollSuccess := or_Reachable result; su_ExpectedInterval := task_ExpectedInterval task;
     su_Timestamp := completionTime now (or_CollectedAt result);
     su_Essential := Some {| eu_PollStatus := if or_Reachable result then PollStatusComplete else PollStatusFailed;
       eu_NetworkReachable := if or_Reachable result then TriStateTrue else TriStateFalse; eu_NetworkReachabilityResults := [];
       eu_SNMPReachable := TriStateUnknown; eu_Uptime := FieldStateMissing; eu_CPU := FieldStateMissing; eu_Memory := FieldStateMissing;
       eu_DeadlineMissed := false; eu_Overloaded := false |} |}.

Definition virtual_updates (env : TaskEnv) (gap : nat → Runner → Runner) (task : PollTask) (result : OperationalResult) (success : bool) (r : Runner) : Runner :=
  let r := store_update env (virtualReachabilityStoreUpdate task result (te_now env)) (gap 4%nat r) in
  store_update env
    {| su_DeviceID := dev_ID (task_Device task); su_VolatilityClass := VolatilityClassPerformance; su_Metrics := None; su_LinkMetrics := [];
       su_PollSuccess := success; su_ExpectedInterval := task_ExpectedInterval task;
       su_Timestamp := completionTime (te_now env) (or_CollectedAt result); su_Essential := None |} (gap 5%nat r).

Definition virtual_probe (env : TaskEnv) (gap : nat → Runner → Runner) (task : PollTask) (r : Runner) : Runner :=
  let device := task_Device task in
  let err := ProbeVirtualReachability (te_ctxErr env) (te_dial env) (dev_IP device) (tp_Timeout (timeoutProfile LaneBackground)) (networkProbePorts device) in
  virtual_updates env gap task (mkOperational (dev_ID device) (bool_decide (err = None)) None ∅ (te_now env) err) (bool_decide (err = None)) r.

Definition runVirtualOperationalTask (env : TaskEnv) (gap : nat → Runner → Runner) (task : PollTask) (r : Runner) : Runner :=
  let device := task_Device task in
  if cf_prometheus cf && te_promEnabled env then
    match te_enrichment env with
    | Err _ => virtual_probe env gap task r
    | Ok (hostname, probeReachable) =>
      let r := recordPrometheusHostname (te_clock env) (dev_ID device) hostname (gap 3%nat r) in
      match probeReachable with
      | Some reachable => virtual_updates env gap task (mkOperational (dev_ID device) reachable None ∅ (te_now env) None) true r
      | None => virtual_probe env gap task r
      end
    end
  else virtual_probe env gap task r.

Definition runVirtualTask (env : TaskEnv) (gap : nat → Runner → Runner) (task : PollTask) (r : Runner) : Runner :=
  if IsVirtualNoIPDevice (task_Device task) then r
  else match task_VolatilityClass task with
  | VolatilityClassOperational => runVirtualOperationalTask env gap task r
  | _ => r
  end.

(** Rates against the baseline kept for the device. *)
Definition counter_rates (env : TaskEnv) (task : PollTask) (result : PerformanceResult) (r : Runner) : list LinkMetrics * Runner :=
  let id := dev_ID (task_Device task) in
  match pf_Counters result with
  | [] => ([], r)
  | counters =>
    let '(linkMetrics, next) := ComputeCounterRates counters (default ∅ (rn_prevCounters r !! id))
      (completionTime (te_now env) (pf_CollectedAt result)) (task_ExpectedInterval task) in
    (linkMetrics, r <| rn_prevCounters := <[id := next]> (rn_prevCounters r) |>)
  end.

(** [update.LinkMetrics = linkMetrics] *)
Definition with_links (links : list LinkMetrics) (u : StateUpdate) : StateUpdate :=
  {| su_DeviceID := su_DeviceID u; su_VolatilityClass := su_VolatilityClass u; su_Metrics := su_Metrics u; su_LinkMetrics := links;
     su_PollSuccess := su_PollSuccess u; su_ExpectedInterval := su_ExpectedInterval u; su_Timestamp := su_Timestamp u; su_Essential := su_Essential u |}.

(** The poll and its reports to the cooldown policy, which no other task of the device uses. *)
Definition poll_performance (env : TaskEnv) (task : PollTask) (r : Runner) : PerformanceResult * Runner :=
  let '(result, policy) := PollWithOptions unicode_lower (H:=runtime_cooldown (te_clock env)) (cf_performance cf) (te_net env) (te_collectedAt env)
    (task_Device task) (task_ExpectedInterval task) (Some (rn_cooldowns r)) in
  (result, r <| rn_cooldowns := default (rn_cooldowns r) policy |>).

Definition run_performance (env : TaskEnv) (gap : nat → Runner → Runner) (task : PollTask) (r : Runner) : Runner :=
  match cf_performance cf with
  | None => r
  | Some _ =>
    let id := dev_ID (task_Device task) in
    if knownSNMPUnreachable id r then r
    else
      let '(result, r) := poll_performance env task (gap 6%nat r) in
      let update := Performance_ToStoreUpdate result (task_ExpectedInterval task) in
      match pf_Err result with
      | Some _ => store_update env update (gap 9%nat r)
      | None =>
        let r := if cf_prometheus cf && te_promEnabled env
                 then match te_hostname env with Ok hostname => recordPrometheusHostname (te_clock env) id hostname (gap 7%nat r) | Err _ => r end
                 else r in
        let '(links, r) := counter_rates env task result (gap 8%nat r) in
        store_update env (with_links links update) (gap 9%nat r)
      end
  end.

Definition run_operational (env : TaskEnv) (gap : nat → Runner → Runner) (task : PollTask) (r : Runner) : Runner :=
  if negb (cf_operational cf) then r
  else if knownSNMPUnreachable (dev_ID (task_Device task)) r then r
  else
    let result := Operational_Poll (te_net env) (te_collectedAt env) (task_Device task) in
    store_update env (Operational_ToStoreUpdate result (task_ExpectedInterval task)) (gap 10%nat r).

Definition run_static (env : TaskEnv) (gap : nat → Runner → Runner) (task : PollTask) (r : Runner) : Runner :=
  if negb (cf_static cf) then r
  else
    let device := staticPollDevice env (task_Device task) in
    let result := te_static env device (topologyDiscoveryMode device) in
    let r := store_update env
      (static_update (dev_ID device) result (task_ExpectedInterval task) (completionTime (te_now env) (sr_CollectedAt result))) (gap 11%nat r) in
    if bool_decide (is_Some (sr_Err result)) || negb (cf_topologyService cf) then r
    else (persist env device result false false (gap 12%nat r)).2.

(** The body of [runTask]. *)
Definition task_body (env : TaskEnv) (gap : nat → Runner → Runner) (task : PollTask) (r : Runner) : Runner :=
  match task_Kind task with
  | TaskKindEssential => run_essential env gap task r
  | TaskKindBootstrap => run_bootstrap env gap task r
  | _ =>
    if String.eqb (dev_DeviceType (task_Device task)) DeviceTypeVirtual then runVirtualTask env gap task r
    else match task_VolatilityClass task with
    | VolatilityClassPerformance => run_performance env gap task r
    | VolatilityClassOperational => run_operational env gap task r
    | VolatilityClassStatic => run_static env gap task r
    | VolatilityClassNone => r
    end
  end.

(** The deferred call. *)
Definition complete_task (env : TaskEnv) (task : PollTask) (r : Runner) : Runner :=
  if cf_scheduler cf
  then r <| rn_completions := rn_completions r ++ [{| comp_RunID := task_RunID task; comp_Key := task_Key task; comp_FinishedAt := te_finished env |}] |>
  else r.

Definition runTask (env : TaskEnv) (gap : nat → Runner → Runner) (task : PollTask) (r : Runner) : Runner :=
  complete_task env task (gap 13%nat (task_body env gap task r)).

(** ** Host names and reset of a device *)

Definition clearPrometheusHostnames (r : Runner) : Runner := r <| rn_hostnames := ∅ |> <| rn_hostnameObservedAt := ∅ |>.

Definition prometheusEnrichmentRetention : Duration := 30 * Second.
Definition prunePrometheusHostnames (clock : Time) (r : Runner) : Runner :=
  let cutoff := Time_Add clock (- prometheusEnrichmentRetention) in
  foldl (λ r kv, if Time_After kv.2 cutoff then r
                 else r <| rn_hostnameObservedAt := delete kv.1 (rn_hostnameObservedAt r) |> <| rn_hostnames := delete kv.1 (rn_hostnames r) |>)
    r (map_to_list (rn_hostnameObservedAt r)).

Definition ResetDeviceRuntime (env : TaskEnv) (deviceID : UUID) (r : Runner) : Runner :=
  if deviceID =? uuid_Nil then r
  else
    let r := r <| rn_persistence := clearStaticPersistenceDedupe deviceID (rn_persistence r) |> in
    let r := r <| rn_prevCounters := delete deviceID (rn_prevCounters r) |> <| rn_cooldowns := delete deviceID (rn_cooldowns r) |>
               <| rn_hostnames := delete deviceID (rn_hostnames r) |> <| rn_hostnameObservedAt := delete deviceID (rn_hostnameObservedAt r) |> in
    r <| rn_store := Remove (te_between env) deviceID (rn_store r) |>.
End runner.
