(* ===== verification/TaskRunnerSpec.v ===== *)
(** * The task runner: theorems

    A worker answers every task exactly once and touches only the device of the task, whatever
    runs between its steps; and the essential poll alone opens and closes SNMP polling of a
    device. *)

From S2P Require Import Prelude GoLib GoText Domain Addresses Policy SchedTypes Scheduler StateStore Runtime Rates Performance Cooldown Collectors StaticDedupe TaskRunner.

(** ** What is kept of a device *)

Definition device_view (d : UUID) (r : Runner) :=
  (st_devices (rn_store r) !! d, rn_prevCounters r !! d, rn_cooldowns r !! d, rn_hostnames r !! d, rn_hostnameObservedAt r !! d,
   ps_cache (rn_persistence r) !! d).

Lemma emit_devices between ids st : st_devices (emitChanges between ids st) = st_devices st.
Proof. unfold emitChanges, coalesceQueuedChanges, markChangesOverflowed. repeat (case_match; simplify_eq/=; try done). Qed.

Lemma update_devices between u st :
  st_devices (Store_Update between u st) =
  if su_DeviceID u =? uuid_Nil then st_devices st
  else <[su_DeviceID u := next_state (st_devices st !! su_DeviceID u) u]> (st_devices st).
Proof. unfold Store_Update, Update_locked. destruct (_ =? _); rewrite emit_devices; done. Qed.

Lemma store_update_view env u d r : d ≠ su_DeviceID u → device_view d (store_update env u r) = device_view d r.
Proof.
  intros Hd. unfold device_view, store_update. cbn. rewrite update_devices. destruct (_ =? _); [done|]. by rewrite lookup_insert_ne.
Qed.

Lemma hostname_view clock i h d r : d ≠ i → device_view d (recordPrometheusHostname clock i h r) = device_view d r.
Proof. intros Hd. unfold recordPrometheusHostname, device_view. destruct (String.eqb _ _); [done|]. cbn. by rewrite !lookup_insert_ne. Qed.

(** ** Results name the device that was polled *)

Lemma essential_device ctxErr dial net at_ dev timeout ports : er_DeviceID (Essential_Poll ctxErr dial net at_ dev timeout ports) = dev_ID dev.
Proof.
  unfold Essential_Poll. destruct (nt_ctxErr net); [done|]. destruct (nt_newClient net) as [[conn|]|]; [|done..].
  destruct (cn_Connect conn); [done|]. destruct (cn_ctxErr conn); [done|]. unfold read_essential.
  destruct (convertEssentialField (em_Uptime _)), (convertEssentialField (em_CPU _)), (convertEssentialField (em_Memory _)). by destruct (negb _).
Qed.

Lemma operational_device net at_ dev : or_DeviceID (Operational_Poll net at_ dev) = dev_ID dev.
Proof.
  unfold Operational_Poll. destruct (nt_ctxErr net); [done|]. destruct (nt_newClient net) as [[conn|]|]; [|done..].
  destruct (cn_Connect conn), (cn_ctxErr conn), (cn_operational conn) as [[??]|]; done.
Qed.

(** ** Cooldowns of other devices *)

Lemma record_result_other clock i op res now interval (s : Cooldowns) d : d ≠ i → record_result clock i op res now interval s !! d = s !! d.
Proof.
  intros Hd. unfold record_result, clearCounterWalkCooldownLocked. cases; rewrite ?lookup_insert_ne, ?lookup_delete_ne by done; done.
Qed.

Section runner.
Context (unicode_lower : string → string) (ParseFloat : string → option float64) (quoted : string → string).
Context (marshal_static : staticDiscoveryFingerprintPayload → option bytes).
Context (marshal_topology : staticDiscoveryTopologyFingerprintPayload → option bytes).
Context (cf : PipelineConfig).

(** The policy [p'] has the cooldowns of [d] that [p] has. *)
Definition keeps (d : UUID) (p p' : option Cooldowns) : Prop :=
  match p with Some s => ∃ s', p' = Some s' ∧ s' !! d = s !! d | None => p' = None end.

#[local] Instance keeps_refl d : Reflexive (keeps d).
Proof. intros [s|]; [by exists s|done]. Qed.
#[local] Instance keeps_trans d : Transitive (keeps d).
Proof. intros [s|] p q; [intros (s' & -> & H1) (s'' & -> & H2); exists s''; split; [done|congruence]|by intros ->]. Qed.

Lemma record_walk_keeps clock device interval now outcome op p d :
  d ≠ dev_ID device → keeps d p (record_walk (H:=runtime_cooldown clock) device interval now outcome op p).
Proof. intros Hd. unfold record_walk. destruct p as [s|]; [|done]. eexists. split; [done|]. by apply record_result_other. Qed.

Lemma walk_step_keeps clock conn device interval now walks acc d :
  d ≠ dev_ID device → keeps d acc.2 (foldl (walk_step unicode_lower (H:=runtime_cooldown clock) conn device interval now) acc walks).2.
Proof.
  intros Hd. revert acc. induction walks as [|w walks IH]; intros acc; [done|]. cbn [foldl]. etransitivity; [|apply IH].
  destruct acc as [[[ins outs] err] p], w as [oid op]. unfold walk_step. destruct (cn_walk conn oid) as [pdus e].
  destruct (String.eqb _ _); cbn [snd]; by apply record_walk_keeps.
Qed.

Lemma poll_walks_keeps clock conn device interval now p d :
  d ≠ dev_ID device → keeps d p (pollInterfaceCountersWithOptions unicode_lower (H:=runtime_cooldown clock) conn device interval now p).2.
Proof.
  intros Hd. unfold pollInterfaceCountersWithOptions. destruct (shouldSkipPerformanceCounterWalks _ _ _ _); cbn [snd].
  - unfold performanceCounterWalks. cbn [foldl]. etransitivity; by apply record_walk_keeps.
  - pose proof (walk_step_keeps clock conn device interval now performanceCounterWalks (∅, ∅, None, p) d Hd) as Hw.
    destruct (foldl _ _ _) as [[[ins outs] [e|]] p']; exact Hw.
Qed.

Lemma poll_counters_keeps clock conn device interval result p d :
  d ≠ dev_ID device →
  pf_DeviceID (poll_counters unicode_lower (H:=runtime_cooldown clock) conn device interval result p).1 = pf_DeviceID result ∧
  keeps d p (poll_counters unicode_lower (H:=runtime_cooldown clock) conn device interval result p).2.
Proof.
  intros Hd. unfold poll_counters. destruct (hasCachedInterfaceIndexes _); [|by destruct (_ && _)].
  destruct (indexInterfaceSpeeds _) as [byName byDescr]. pose proof (poll_walks_keeps clock conn device interval (pf_CollectedAt result) p d Hd) as Hw.
  destruct (pollInterfaceCountersWithOptions _ _ _ _ _ _) as [[[counters skipped] err] p']. cbn [snd] in *. split; [|exact Hw].
  destruct err; by destruct (_ && _).
Qed.

Lemma poll_device c net at_ device interval clock p d :
  d ≠ dev_ID device →
  pf_DeviceID (PollWithOptions unicode_lower (H:=runtime_cooldown clock) c net at_ device interval p).1 = dev_ID device ∧
  keeps d p (PollWithOptions unicode_lower (H:=runtime_cooldown clock) c net at_ device interval p).2.
Proof.
  intros Hd. unfold PollWithOptions. destruct (nt_ctxErr net), c as [c|]; [done..| |done].
  destruct (negb (pc_registry c)), (negb (pc_newClient c)); [done..|].
  destruct (nt_newClient net) as [[conn|]|]; [|done..]. destruct (cn_Connect conn), (cn_ctxErr conn); [done..|]. by apply poll_counters_keeps.
Qed.

(** ** What a task leaves alone *)

(** An observation of the state that no step on device [i] changes. *)
Record frame {A} (i : UUID) (obs : Runner → A) : Prop := {
  fr_store : ∀ env u r, su_DeviceID u = i → obs (store_update env u r) = obs r;
  fr_host : ∀ clock h r, obs (recordPrometheusHostname clock i h r) = obs r;
  fr_counters : ∀ m r, obs (r <| rn_prevCounters := <[i := m]> (rn_prevCounters r) |>) = obs r;
  fr_cooldowns : ∀ s r, (∀ d, d ≠ i → s !! d = rn_cooldowns r !! d) → obs (r <| rn_cooldowns := s |>) = obs r;
  fr_persist : ∀ p r, (∀ d, d ≠ i → ps_cache p !! d = ps_cache (rn_persistence r) !! d) → obs (r <| rn_persistence := p |>) = obs r;
  fr_outcomes : ∀ l r, obs (r <| rn_outcomes := l |>) = obs r }.

Lemma poll_performance_spec env task r :
  pf_DeviceID (poll_performance unicode_lower cf env task r).1 = dev_ID (task_Device task) ∧
  ∃ s, (poll_performance unicode_lower cf env task r).2 = (r <| rn_cooldowns := s |>) ∧
       ∀ d, d ≠ dev_ID (task_Device task) → s !! d = rn_cooldowns r !! d.
Proof.
  unfold poll_performance.
  pose proof (poll_device (cf_performance cf) (te_net env) (te_collectedAt env) (task_Device task) (task_ExpectedInterval task)
    (te_clock env) (Some (rn_cooldowns r))) as H.
  destruct (PollWithOptions _ _ _ _ _ _ _) as [result policy]. cbn [fst snd] in *.
  split; [destruct (H (dev_ID (task_Device task) + 1)); [lia|done]|].
  eexists. split; [done|]. intros d Hd. by destruct (H d Hd) as [_ (s' & -> & ?)].
Qed.

Lemma persist_cache hasService hasNotify apply now device res force defer p d :
  d ≠ dev_ID device →
  ps_cache (persistStaticDiscoveryWithPolicy unicode_lower marshal_static marshal_topology hasService hasNotify apply now device res force defer p).2 !! d
  = ps_cache p !! d.
Proof.
  intros Hd. unfold persistStaticDiscoveryWithPolicy. destruct (negb hasService); [done|]. destruct (_ && _); [done|].
  destruct (apply _ _) as [ok|]; [|done]. cbn [snd]. unfold rememberStaticDiscoveryPersistence.
  destruct (_ || _), (_ && _); cbn; rewrite ?lookup_insert_ne by done; done.
Qed.

Section frames.
Context {A : Type} (task : PollTask) (obs : Runner → A) (gap : nat → Runner → Runner) (env : TaskEnv).
Context (Hf : frame (dev_ID (task_Device task)) obs) (Hg : ∀ n r, obs (gap n r) = obs r).
Local Abbreviation i := (dev_ID (task_Device task)) (only parsing).

Lemma persist_frame device res force defer r :
  dev_ID device = i → obs (persist unicode_lower marshal_static marshal_topology cf env device res force defer r).2 = obs r.
Proof.
  intros Hd. unfold persist.
  pose proof (persist_cache (cf_topologyService cf) (cf_topologyNotify cf) (te_apply env) (te_clock env) device res force defer (rn_persistence r)) as Hp.
  destruct (persistStaticDiscoveryWithPolicy _ _ _ _ _ _ _ _ _ _ _ _) as [answer p]. cbn [snd] in *. apply (fr_persist _ _ Hf). by rewrite <- Hd.
Qed.

Lemma outcome_frame tracked d o r : obs (bootstrap_completed tracked d o r) = obs r.
Proof. destruct tracked; [apply (fr_outcomes _ _ Hf)|done]. Qed.

Lemma run_bootstrap_frame r : obs (run_bootstrap unicode_lower marshal_static marshal_topology cf env gap task r) = obs r.
Proof.
  unfold run_bootstrap. destruct (negb _); [done|]. destruct (_ && _); [apply outcome_frame|]. unfold bootstrap_persist.
  set (result := te_static _ _ _). set (r1 := store_update _ _ _). assert (H1 : obs r1 = obs r) by (subst r1; by rewrite (fr_store _ _ Hf), Hg).
  destruct (sr_Err result); [by rewrite outcome_frame|]. destruct (negb _); [by rewrite outcome_frame|].
  pose proof (persist_frame (task_Device task) result true
    (deferBootstrapTopologyMaterialization (task_Device task) (bool_decide (is_Some (te_tracked env)))) (gap 2%nat r1) eq_refl) as H2.
  destruct (persist _ _ _ _ _ _ _ _ _ _) as [[ok|e] r2]; cbn [snd] in H2; by rewrite outcome_frame, H2, Hg.
Qed.

Lemma virtual_frame r : obs (runVirtualTask unicode_lower ParseFloat quoted cf env gap task r) = obs r.
Proof.
  assert (Hu : ∀ res ok r, obs (virtual_updates env gap task res ok r) = obs r).
  { intros res ok r0. unfold virtual_updates. by rewrite (fr_store _ _ Hf), Hg, (fr_store _ _ Hf), Hg. }
  unfold runVirtualTask, runVirtualOperationalTask, virtual_probe. destruct (IsVirtualNoIPDevice _); [done|].
  destruct (task_VolatilityClass task); try done. destruct (_ && _); [|apply Hu].
  destruct (te_enrichment env) as [[h [b|]]|]; by rewrite Hu, ?(fr_host _ _ Hf), ?Hg.
Qed.

Lemma run_performance_frame r : obs (run_performance unicode_lower cf env gap task r) = obs r.
Proof.
  unfold run_performance. destruct (cf_performance cf); [|done]. destruct (knownSNMPUnreachable _ _); [done|].
  destruct (poll_performance_spec env task (gap 6%nat r)) as [H1 (s & H2 & H3)].
  destruct (poll_performance _ _ _ _ _) as [result r1]. cbn [fst snd] in *. subst r1.
  assert (Hr : obs (gap 6%nat r <| rn_cooldowns := s |>) = obs r) by (by rewrite (fr_cooldowns _ _ Hf), Hg).
  destruct (pf_Err result); [by rewrite (fr_store _ _ Hf), Hg|]. set (r2 := if _ && _ then _ else _).
  assert (Hr2 : obs r2 = obs r).
  { subst r2. destruct (_ && _); [|done]. destruct (te_hostname env); [|done]. by rewrite (fr_host _ _ Hf), Hg. }
  unfold counter_rates. destruct (pf_Counters result); [by rewrite (fr_store _ _ Hf), Hg, Hg|].
  destruct (ComputeCounterRates _ _ _ _) as [links next]. by rewrite (fr_store _ _ Hf), Hg, (fr_counters _ _ Hf), Hg.
Qed.

Lemma static_device device : dev_ID (staticPollDevice cf env device) = dev_ID device.
Proof. unfold staticPollDevice. destruct (_ || _); [done|]. destruct (te_cached env) as [[c|]|]; [|done..]. by destruct (_ || _). Qed.

Lemma task_body_frame r : obs (task_body unicode_lower ParseFloat quoted marshal_static marshal_topology cf env gap task r) = obs r.
Proof.
  assert (Hess : obs (run_essential unicode_lower ParseFloat quoted cf env gap task r) = obs r).
  { unfold run_essential. destruct (negb _); [done|]. rewrite (fr_store _ _ Hf), Hg; [done|]. apply essential_device. }
  assert (Hop : obs (run_operational cf env gap task r) = obs r).
  { unfold run_operational. destruct (negb _); [done|]. destruct (knownSNMPUnreachable _ _); [done|].
    rewrite (fr_store _ _ Hf), Hg; [done|]. apply operational_device. }
  assert (Hst : obs (run_static unicode_lower marshal_static marshal_topology cf env gap task r) = obs r).
  { unfold run_static. destruct (negb _); [done|]. pose proof (static_device (task_Device task)) as Hd.
    destruct (_ || _); [by rewrite (fr_store _ _ Hf), Hg|]. rewrite persist_frame by done. by rewrite Hg, (fr_store _ _ Hf), Hg. }
  pose proof (run_bootstrap_frame r). pose proof (virtual_frame r). pose proof (run_performance_frame r).
  unfold task_body. destruct (task_Kind task); try done; (destruct (String.eqb _ _); [done|]; by destruct (task_VolatilityClass task)).
Qed.
End frames.

(** ** One answer, one device *)

(** The completions reported for a run of a task. *)
Definition own_completions (task : PollTask) (r : Runner) : nat :=
  length (filter (λ c, comp_Key c = task_Key task ∧ comp_RunID c = task_RunID task) (rn_completions r)).

Lemma view_frame i d : d ≠ i → frame i (device_view d).
Proof.
  intros Hd. split; intros; unfold device_view; cbn.
  - by apply store_update_view; congruence.
  - by apply hostname_view.
  - by rewrite lookup_insert_ne.
  - by rewrite H.
  - by rewrite H.
  - done.
Qed.

Lemma completions_frame i task : frame i (own_completions task).
Proof. split; intros; try done. unfold recordPrometheusHostname. by destruct (String.eqb _ _). Qed.

Local Abbreviation run := (runTask unicode_lower ParseFloat quoted marshal_static marshal_topology cf) (only parsing).

(** C12: Whatever happens outside and whatever other goroutines do between the steps of a worker,
    a task is answered with exactly one completion carrying its key and its run, on every path
    through [runTask]; and of a device other than the one of the task nothing changes: not its
    state in the store, its counter baselines, its cooldowns, its host name or its entry in the
    static cache. *)
Theorem task_answered_once env gap task r :
  cf_scheduler cf = true → (∀ n r, own_completions task (gap n r) = own_completions task r) →
  own_completions task (run env gap task r) = S (own_completions task r) ∧
  ∀ d, d ≠ dev_ID (task_Device task) → (∀ n r, device_view d (gap n r) = device_view d r) → device_view d (run env gap task r) = device_view d r.
Proof.
  intros Hs Hc. unfold runTask, complete_task. rewrite Hs. set (r1 := task_body _ _ _ _ _ _ env gap task r). split.
  - assert (H1 : own_completions task (gap 13%nat r1) = own_completions task r).
    { rewrite Hc. apply (task_body_frame task _ gap env (completions_frame _ task) Hc). }
    rewrite <- H1. unfold own_completions. cbn. rewrite filter_app, filter_cons_True, length_app by done. cbn. lia.
  - intros d Hd Hg. transitivity (device_view d (gap 13%nat r1)); [done|]. rewrite Hg.
    apply (task_body_frame task _ gap env (view_frame _ d Hd) Hg).
Qed.

(** ** The gate in front of SNMP *)

Lemma known_unreachable d r :
  d ≠ uuid_Nil →
  knownSNMPUnreachable d r = match st_devices (rn_store r) !! d with Some ds => bool_decide (ds_SNMPReachable ds = TriStateFalse) | None => false end.
Proof.
  intros Hd. unfold knownSNMPUnreachable, GetDevice. rewrite (proj2 (Z.eqb_neq _ _) Hd). by destruct (st_devices (rn_store r) !! d).
Qed.

Lemma next_state_snmp_essential prev u e : su_Essential u = Some e → ds_SNMPReachable (next_state prev u) = eu_SNMPReachable e.
Proof.
  intros He. unfold next_state, apply_update. rewrite He. set (p := default _ prev).
  assert (H : ds_SNMPReachable (applyEssentialUpdate p p u e) = eu_SNMPReachable e).
  { unfold applyEssentialUpdate, essential_reachability. cases; done. }
  by destruct (bool_decide _).
Qed.

Lemma evaluateHealth_snmp st m : ds_SNMPReachable (evaluateHealth st m) = ds_SNMPReachable st.
Proof. unfold evaluateHealth. by destruct m. Qed.

Lemma next_state_snmp_other prev u :
  su_Essential u = None → su_VolatilityClass u = VolatilityClassPerformance ∨ su_VolatilityClass u = VolatilityClassStatic →
  ds_SNMPReachable (next_state prev u) = ds_SNMPReachable (default zeroDeviceState prev).
Proof.
  intros He Hv. unfold next_state, apply_update. rewrite He. set (p := default _ prev).
  assert (Hfresh : ds_SNMPReachable (applyFreshnessMetadata p u) = ds_SNMPReachable p) by (unfold applyFreshnessMetadata; by destruct (0 <? _)).
  assert (H : ds_SNMPReachable (match su_VolatilityClass u with
    | VolatilityClassPerformance => applyPerformanceUpdate (applyFreshnessMetadata p u) u
    | VolatilityClassStatic => applyStaticUpdate p u | _ => p end) = ds_SNMPReachable p).
  { destruct Hv as [-> | ->]; unfold applyPerformanceUpdate, applyStaticUpdate; cases; rewrite ?evaluateHealth_snmp; done. }
  destruct Hv as [Hv|Hv]; rewrite Hv in H |- *; by destruct (bool_decide _).
Qed.

(** What polling keeps of a device besides its state, with the gate. *)
Definition gate_view (d : UUID) (r : Runner) :=
  (knownSNMPUnreachable d r, rn_prevCounters r !! d, rn_cooldowns r !! d, rn_hostnames r !! d).

Lemma gate_static d env id res interval at_ r :
  d ≠ uuid_Nil → knownSNMPUnreachable d r = true → gate_view d (store_update env (static_update id res interval at_) r) = gate_view d r.
Proof.
  intros Hd Hk. unfold gate_view. f_equal. f_equal. f_equal. rewrite !known_unreachable in * by done.
  unfold store_update. cbn. rewrite update_devices. cbn. destruct (Z.eqb_spec id uuid_Nil) as [|Hi]; [done|].
  destruct (decide (d = id)) as [->|Hne]; [|by rewrite lookup_insert_ne]. rewrite lookup_insert_eq.
  rewrite next_state_snmp_other by (auto; by right). by destruct (st_devices (rn_store r) !! id).
Qed.

Lemma gate_persist d env device res force defer r :
  gate_view d (persist unicode_lower marshal_static marshal_topology cf env device res force defer r).2 = gate_view d r.
Proof. unfold persist. by destruct (persistStaticDiscoveryWithPolicy _ _ _ _ _ _ _ _ _ _ _ _). Qed.

Lemma gate_outcome d tracked i o r : gate_view d (bootstrap_completed tracked i o r) = gate_view d r.
Proof. by destruct tracked. Qed.

(** A task that may run while the gate is closed: of another device, or neither the essential
    poll nor the probe of a virtual device. *)
Definition keeps_gate (d : UUID) (task : PollTask) : Prop :=
  dev_ID (task_Device task) ≠ d ∨ (task_Kind task ≠ TaskKindEssential ∧ dev_DeviceType (task_Device task) ≠ DeviceTypeVirtual).

Local Abbreviation nogap := (λ (_ : nat) (r : Runner), r) (only parsing).

Lemma gate_step d env task r :
  d ≠ uuid_Nil → knownSNMPUnreachable d r = true → keeps_gate d task → gate_view d (run env nogap task r) = gate_view d r.
Proof.
  intros Hd Hk Ht. unfold runTask, complete_task. set (r1 := task_body _ _ _ _ _ _ env _ task r).
  assert (H : gate_view d r1 = gate_view d r); [|by destruct (cf_scheduler cf)].
  subst r1. destruct (decide (d = dev_ID (task_Device task))) as [Ed|Hne].
  - destruct Ht as [Ht|[Hkind Htype]]; [done|]. unfold task_body. rewrite (proj2 (String.eqb_neq _ _) Htype).
    assert (Hb : gate_view d (run_bootstrap unicode_lower marshal_static marshal_topology cf env nogap task r) = gate_view d r).
    { unfold run_bootstrap, bootstrap_persist. destruct (negb _); [done|]. destruct (_ && _); [apply gate_outcome|].
      destruct (sr_Err _); [by rewrite gate_outcome, gate_static|]. destruct (negb _); [by rewrite gate_outcome, gate_static|].
      pose proof (gate_persist d env (task_Device task) (te_static env (task_Device task) (bootstrapTopologyDiscoveryMode cf (task_Device task))) true
        (deferBootstrapTopologyMaterialization (task_Device task) (bool_decide (is_Some (te_tracked env))))) as Hp.
      set (r0 := store_update _ _ r). specialize (Hp r0).
      destruct (persist _ _ _ _ _ _ _ _ _ _) as [[ok|e] r2]; cbn [snd] in Hp; rewrite gate_outcome, Hp; by apply gate_static. }
    assert (Hs : gate_view d (run_static unicode_lower marshal_static marshal_topology cf env nogap task r) = gate_view d r).
    { unfold run_static. destruct (negb _); [done|]. destruct (_ || _); [by apply gate_static|]. rewrite gate_persist. by apply gate_static. }
    assert (Hp : run_performance unicode_lower cf env nogap task r = r).
    { unfold run_performance. rewrite <- Ed, Hk. by destruct (cf_performance cf). }
    assert (Ho : run_operational cf env nogap task r = r) by (unfold run_operational; rewrite <- Ed, Hk; by destruct (negb _)).
    destruct (task_Kind task), (task_VolatilityClass task); try done; by rewrite ?Hp, ?Ho.
  - pose proof (task_body_frame task (device_view d) nogap env (view_frame _ d Hne) (λ _ _, eq_refl) r) as Hv.
    unfold device_view in Hv. injection Hv as H1 H2 H3 H4 _ _. unfold gate_view. rewrite !known_unreachable by done. by rewrite H1, H2, H3, H4.
Qed.

(** Tasks one after the other. *)
Definition run_all (tasks : list (TaskEnv * PollTask)) (r : Runner) : Runner := foldl (λ r et, run et.1 nogap et.2 r) r tasks.

(** What an essential poll learns about SNMP. *)
Definition snmp_evidence (net : Net) : TriState :=
  match nt_ctxErr net, nt_newClient net with
  | Some _, _ => TriStateUnknown
  | None, Ok (Some conn) =>
    match cn_Connect conn, cn_ctxErr conn with
    | Some _, _ => TriStateFalse
    | None, Some _ => TriStateUnknown
    | None, None => if essentialMetricsHaveSuccessfulRead (cn_essential conn) then TriStateTrue else TriStateFalse
    end
  | None, _ => TriStateFalse
  end.

Lemma essential_snmp ctxErr dial net at_ dev timeout ports :
  er_SNMPReachable (Essential_Poll ctxErr dial net at_ dev timeout ports) = snmp_evidence net.
Proof.
  unfold Essential_Poll, snmp_evidence. destruct (nt_ctxErr net); [done|]. destruct (nt_newClient net) as [[conn|]|]; [|done..].
  destruct (cn_Connect conn); [done|]. destruct (cn_ctxErr conn); [done|]. unfold read_essential.
  destruct (convertEssentialField (em_Uptime _)), (convertEssentialField (em_CPU _)), (convertEssentialField (em_Memory _)).
  by destruct (essentialMetricsHaveSuccessfulRead (cn_essential conn)).
Qed.

End runner.

(** ** A device that stops answering *)

Definition demo_router : Device :=
  {| dev_ID := 7; dev_Hostname := ""; dev_SysName := ""; dev_IP := "10.0.0.7"; dev_SNMPCredentials := dev_SNMPCredentials zeroDevice;
     dev_DeviceType := "router"; dev_PollClass := ""; dev_PollIntervalOverride := None; dev_PollingEnabled := None; dev_Status := "";
     dev_Managed := true; dev_Interfaces := []; dev_Addresses := []; dev_ProbePorts := []; dev_AreaIDs := []; dev_MetricsSource := "";
     dev_TopologyDiscoveryMode := ""; dev_TopologyBootstrapState := "" |}.
Definition demo_pipeline : PipelineConfig :=
  {| cf_scheduler := true; cf_essential := true; cf_performance := NewPerformanceCollector; cf_operational := true; cf_static := true;
     cf_prometheus := false; cf_topologyService := true; cf_topologyNotify := true; cf_cache := false; cf_settings := None |}.
Definition demo_env (connect : option string) : TaskEnv :=
  {| te_now := 10; te_finished := 11; te_clock := 10; te_collectedAt := 10;
     te_net := {| nt_ctxErr := None; nt_newClient := Ok (Some {| cn_Connect := connect; cn_ctxErr := None; cn_walk := λ _, ([], None);
       cn_essential := mkEssentialMetrics (Some (mkMetricField None "ok" "")) None None; cn_operational := Err "timeout" |}) |};
     te_ctxErr := λ _, None; te_dial := λ _ _, Some "refused"; te_static := λ _ _, mkStatic 7 zeroMetrics "" "" "" "" "" "" "" [] [] [] [] 10 None;
     te_overloaded := false; te_promEnabled := false; te_hostname := Err ""; te_enrichment := Err ""; te_cached := Ok None;
     te_apply := λ _ _, Ok zeroPersisted; te_tracked := None; te_between := λ q, q |}.
Definition demo_task (kind : TaskKind) (class : VolatilityClass) : PollTask :=
  mkPollTask (mkTaskKey 7 kind class) 3 kind LaneEssential demo_router "core" class 30 0 0 0 false 0.
Definition demo_runner : Runner := mkRunner NewStore ∅ ∅ ∅ ∅ (mkPersistence ∅ false []) [] [].
Definition demo_run := runTask id (λ _, None) id (λ _, None) (λ _, None) demo_pipeline.

Lemma task_answered_once_witness :
  let task := demo_task TaskKindEssential VolatilityClassPerformance in
  own_completions task (demo_run (demo_env None) (λ _ r, r) task demo_runner) = 1%nat ∧
  device_view 8 (demo_run (demo_env None) (λ _ r, r) task demo_runner) = device_view 8 demo_runner.
Proof.
  intros task. pose proof (task_answered_once id (λ _, None) id (λ _, None) (λ _, None) demo_pipeline (demo_env None) (λ _ r, r) task demo_runner
    eq_refl (λ _ _, eq_refl)) as [H1 H2].
  split; [exact H1|]. apply H2; [discriminate|reflexivity].
Defined.

