(* ===== verification/Journal.v ===== *)
(** * The overview journal

    [internal/worker/overview_journal.go]: a bounded journal of runtime deltas from which a
    client that missed some versions is brought up to date by one compacted delta.

    A patch value ([any]) is one of the dynamic types the type switch of
    [cloneOverviewJournalValue] names, or a value of some other type ([GOther]).  What
    [encoding/json] does is a parameter: [Marshal] is the result of [json.Marshal] on a
    delta ([None] for an error, otherwise the length of the text), [renormalize] the value
    that encoding and decoding (with [UseNumber]) gives for a value of another type. *)

From S2P Require Import Prelude GoLib.

Section journal.
(** Values of types the switch does not name. *)
Context {Other : Type}.

Inductive Scalar :=
  | SNil | SBool (b : bool) | SString (s : string) | SInt (z : Z) | SFloat (f : float64) | SNumber (text : string).

(** A [nil] slice or map is [None]; the entries of a nested map are listed. *)
Inductive GoAny :=
  | GScalar (x : Scalar)
  | GBytes (b : option bytes)
  | GStrings (l : option (list string))
  | GStringMap (m : option (list (string * string)))
  | GSlice (l : option (list GoAny))
  | GMap (m : option (list (string * GoAny)))
  | GOther (x : Other).

Abbreviation Patch := (gmap string GoAny) (only parsing).

Record RuntimeDeltaPayload := mkDelta {
  rd_Devices : option (gmap string (option Patch));
  rd_Links : option (gmap string (option Patch)) }.

Definition EmptyRuntimeDeltaPayload : RuntimeDeltaPayload := mkDelta (Some ∅) (Some ∅).

Context (Marshal : RuntimeDeltaPayload → option Z).
Context (renormalize : Other → option GoAny).

(** ** Alias-free copies *)

Definition normalizeOverviewJournalJSONValue (x : Other) : option GoAny := renormalize x.

Fixpoint cloneOverviewJournalValue (value : GoAny) : option GoAny :=
  match value with
  | GScalar x => Some (GScalar x)
  | GBytes b => Some (GBytes b)
  | GStrings l => Some (GStrings l)
  | GStringMap m => Some (GStringMap m)
  | GSlice None => Some (GSlice None)
  | GSlice (Some l) =>
    let fix go l := match l with
      | [] => Some []
      | v :: l => match cloneOverviewJournalValue v with
                  | None => None
                  | Some v' => match go l with None => None | Some l' => Some (v' :: l') end
                  end
      end in
    GSlice ∘ Some <$> go l
  | GMap None => Some (GMap None)
  | GMap (Some m) =>
    let fix go m := match m with
      | [] => Some []
      | (k, v) :: m => match cloneOverviewJournalValue v with
                       | None => None
                       | Some v' => match go m with None => None | Some m' => Some ((k, v') :: m') end
                       end
      end in
    GMap ∘ Some <$> go m
  | GOther x => normalizeOverviewJournalJSONValue x
  end.

(** [for key, value := range m { c, err := clone(value); if err != nil { return err }; cloned[key] = c }] *)
Definition clone_map {A} (clone : A → option A) (m : gmap string A) : option (gmap string A) :=
  list_to_map <$> mapM (λ kv, (λ v, (kv.1, v)) <$> clone kv.2) (map_to_list m).

(** A [nil] map is copied to a [nil] map. *)
Definition clone_nilable {A} (clone : A → option A) (m : option A) : option (option A) :=
  match m with None => Some None | Some m => Some <$> clone m end.

Definition cloneOverviewJournalPatch (patch : option Patch) : option (option Patch) :=
  clone_nilable (clone_map cloneOverviewJournalValue) patch.

Definition cloneOverviewJournalDelta (delta : option RuntimeDeltaPayload) : option (RuntimeDeltaPayload * Z) :=
  let delta := default EmptyRuntimeDeltaPayload delta in
  match Marshal delta with
  | None => None
  | Some _ =>
    match clone_nilable (clone_map cloneOverviewJournalPatch) (rd_Devices delta) with
    | None => None
    | Some devices =>
      match clone_nilable (clone_map cloneOverviewJournalPatch) (rd_Links delta) with
      | None => None
      | Some links =>
        let cloned := mkDelta devices links in
        match Marshal cloned with None => None | Some size => Some (cloned, size) end
      end
    end
  end.

Record overviewJournalEntry := mkEntry {
  je_baseVersion : Z;
  je_version : Z;
  je_delta : RuntimeDeltaPayload;
  je_sizeBytes : Z }.

Record overviewJournal := mkJournal {
  j_capacity : Z;
  j_maxBytes : Z;
  j_sizeBytes : Z;
  j_entries : list overviewJournalEntry }.

Definition newOverviewJournal (capacity maxBytes : Z) : overviewJournal := mkJournal capacity maxBytes 0 [].

Definition Reset (j : overviewJournal) : overviewJournal := mkJournal (j_capacity j) (j_maxBytes j) 0 [].

(** The eviction loop: oldest entries go while the journal is over one of its bounds. *)
Fixpoint evict (capacity maxBytes : Z) (sizeBytes : Z) (entries : list overviewJournalEntry)
  : Z * list overviewJournalEntry :=
  match entries with
  | [] => (sizeBytes, [])
  | e :: rest =>
    if (capacity <? Z.of_nat (length entries)) || (maxBytes <? sizeBytes)
    then evict capacity maxBytes (sizeBytes - je_sizeBytes e) rest
    else (sizeBytes, entries)
  end.

(** An append that does not continue the newest entry starts a new journal. *)
Definition continue_from (baseVersion : Z) (j : overviewJournal) : overviewJournal :=
  match last (j_entries j) with
  | Some e => if negb (je_version e =? baseVersion) then Reset j else j
  | None => j
  end.

Definition Append (baseVersion version : Z) (delta : option RuntimeDeltaPayload) (j : overviewJournal) : overviewJournal :=
  if (version <=? baseVersion) || negb (uint64_wrap (version - baseVersion) =? 1) then Reset j
  else
    let j := continue_from baseVersion j in
    match cloneOverviewJournalDelta delta with
    | None => Reset j
    | Some (cloned, sizeBytes) =>
      if (j_maxBytes j <? sizeBytes) || (j_capacity j <=? 0) then Reset j
      else
        let entry := mkEntry baseVersion version cloned sizeBytes in
        let '(size, entries) := evict (j_capacity j) (j_maxBytes j) (j_sizeBytes j + sizeBytes) (j_entries j ++ [entry]) in
        mkJournal (j_capacity j) (j_maxBytes j) size entries
    end.

(** [for entityID, sourcePatch := range source]: every field of every source patch overwrites the destination. *)
Definition mergeOverviewJournalPatches (destination : gmap string Patch) (source : option (gmap string (option Patch)))
  : gmap string Patch :=
  union_with (λ d s, Some (s ∪ d)) destination (default ∅ <$> default ∅ source).

(** The loop of [Replay] over the entries, with the compacted devices and links so far. *)
Fixpoint replay_loop (fromVersion targetVersion expectedBase : Z) (devices links : gmap string Patch)
  (entries : list overviewJournalEntry) : option RuntimeDeltaPayload :=
  match entries with
  | [] => None
  | e :: rest =>
    if je_version e <=? fromVersion then replay_loop fromVersion targetVersion expectedBase devices links rest
    else if negb (je_baseVersion e =? expectedBase) || (targetVersion <? je_version e) then None
    else
      let devices := mergeOverviewJournalPatches devices (rd_Devices (je_delta e)) in
      let links := mergeOverviewJournalPatches links (rd_Links (je_delta e)) in
      let expectedBase := je_version e in
      if expectedBase =? targetVersion
      then fst <$> cloneOverviewJournalDelta (Some (mkDelta (Some (Some <$> devices)) (Some (Some <$> links))))
      else replay_loop fromVersion targetVersion expectedBase devices links rest
  end.

Definition Replay (fromVersion targetVersion : Z) (j : overviewJournal) : option RuntimeDeltaPayload :=
  if targetVersion <=? fromVersion then None
  else replay_loop fromVersion targetVersion fromVersion ∅ ∅ (j_entries j).

(** ** Copies are alias free

    A [plain] value contains no value of a foreign type: copying it is the identity, and
    every copy is plain. *)

Fixpoint plain (value : GoAny) : Prop :=
  match value with
  | GOther _ => False
  | GSlice (Some l) => (fix go l := match l with [] => True | v :: l => plain v ∧ go l end) l
  | GMap (Some m) => (fix go m := match m with [] => True | kv :: m => plain kv.2 ∧ go m end) m
  | _ => True
  end.

Lemma clone_value_plain (v : GoAny) : plain v → cloneOverviewJournalValue v = Some v.
Proof.
  revert v. fix IH 1. intros [x|b|l|m|[l|]|[m|]|x] Hv; simpl in *; try done.
  - induction l as [|v l IHl]; [done|]. destruct Hv as [Hv Hl]. rewrite (IH v Hv).
    specialize (IHl Hl). destruct (_ l) as [l'|]; simplify_eq/=; by simplify_option_eq.
  - induction m as [|[k v] m IHm]; [done|]. destruct Hv as [Hv Hm]. rewrite (IH v Hv).
    specialize (IHm Hm). destruct (_ m) as [m'|]; simplify_eq/=; by simplify_option_eq.
Qed.

Definition renormalizes : Prop := ∀ x v, renormalize x = Some v → plain v.

Lemma clone_value_result (v v' : GoAny) : renormalizes → cloneOverviewJournalValue v = Some v' → plain v'.
Proof.
  intros HR. revert v v'. fix IH 1. intros [x|b|l|m|[l|]|[m|]|x] v' Hv; simpl in *; simplify_eq/=; try done.
  - apply fmap_Some in Hv as (l' & Hl & ->). simpl. revert l' Hl. induction l as [|v l IHl]; intros l' Hl; simplify_eq/=; [done|].
    destruct (cloneOverviewJournalValue v) as [w|] eqn:Hw; [|done]. destruct (_ l) as [k|] eqn:Hk; [|done]. simplify_eq.
    split; [apply (IH v w Hw)|by apply IHl].
  - apply fmap_Some in Hv as (l' & Hl & ->). simpl. revert l' Hl. induction m as [|[k v] m IHl]; intros l' Hl; simplify_eq/=; [done|].
    destruct (cloneOverviewJournalValue v) as [w|] eqn:Hw; [|done]. destruct (_ m) as [k'|] eqn:Hk; [|done]. simplify_eq.
    split; [apply (IH v w Hw)|by apply IHl].
  - by apply (HR x).
Qed.

Lemma clone_map_id {A} (clone : A → option A) (m : gmap string A) :
  map_Forall (λ _ v, clone v = Some v) m → clone_map clone m = Some m.
Proof.
  intros Hm. unfold clone_map. assert (HF : Forall (λ kv, clone kv.2 = Some kv.2) (map_to_list m)).
  { apply Forall_forall. intros [k v] Hkv%elem_of_map_to_list. by apply (Hm k). }
  replace (mapM _ (map_to_list m)) with (Some (map_to_list m)); [simpl; f_equal; apply list_to_map_to_list|].
  induction HF as [|[k v] l Hkv _ IH]; [done|]. simpl in *. rewrite Hkv. simpl. by rewrite <- IH.
Qed.

Lemma clone_map_result {A} (clone : A → option A) (P : A → Prop) (m m' : gmap string A) :
  (∀ v v', clone v = Some v' → P v') → clone_map clone m = Some m' → map_Forall (λ _ v, P v) m'.
Proof.
  intros HP (l & Hl & ->)%fmap_Some k v Hv%elem_of_list_to_map_2. apply mapM_Some_1 in Hl.
  apply list_elem_of_lookup in Hv as [i Hi]. destruct (Forall2_lookup_r _ _ _ _ _ Hl Hi) as ([k' x] & _ & Hx).
  apply fmap_Some in Hx as (y & Hy & [= -> ->]). by apply (HP x).
Qed.

Definition plain_patch (p : option Patch) : Prop := from_option (map_Forall (λ _ v, plain v)) True p.
Definition plain_patches (m : option (gmap string (option Patch))) : Prop :=
  from_option (map_Forall (λ _ p, plain_patch p)) True m.
Definition plain_delta (d : RuntimeDeltaPayload) : Prop := plain_patches (rd_Devices d) ∧ plain_patches (rd_Links d).

Lemma clone_patch_plain (p : option Patch) : plain_patch p → cloneOverviewJournalPatch p = Some p.
Proof.
  destruct p as [p|]; [|done]. intros Hp. unfold cloneOverviewJournalPatch. simpl. rewrite clone_map_id; [done|].
  intros k v Hv. apply clone_value_plain. by apply (Hp k).
Qed.

Lemma clone_patches_plain m : plain_patches m → clone_nilable (clone_map cloneOverviewJournalPatch) m = Some m.
Proof.
  destruct m as [m|]; [|done]. intros Hm. simpl. rewrite clone_map_id; [done|].
  intros k v Hv. apply clone_patch_plain. by apply (Hm k).
Qed.

Lemma clone_patch_result p p' : renormalizes → cloneOverviewJournalPatch p = Some p' → plain_patch p'.
Proof.
  intros HR. destruct p as [p|]; [|by intros [= <-]]. intros (q & Hq & ->)%fmap_Some. simpl.
  apply (clone_map_result _ _ _ _ (λ v v', clone_value_result v v' HR) Hq).
Qed.

Lemma clone_patches_result m m' :
  renormalizes → clone_nilable (clone_map cloneOverviewJournalPatch) m = Some m' → plain_patches m'.
Proof.
  intros HR. destruct m as [m|]; [|by intros [= <-]]. intros (q & Hq & ->)%fmap_Some. simpl.
  apply (clone_map_result _ _ _ _ (λ v v', clone_patch_result v v' HR) Hq).
Qed.

Lemma clone_delta_plain d :
  plain_delta d → cloneOverviewJournalDelta (Some d) = (λ size, (d, size)) <$> Marshal d.
Proof.
  intros [HD HL]. unfold cloneOverviewJournalDelta. cbn [from_option id]. rewrite clone_patches_plain, clone_patches_plain by done.
  destruct d as [D L]. simpl. by destruct (Marshal _).
Qed.

Lemma clone_delta_result d d' size :
  renormalizes → cloneOverviewJournalDelta d = Some (d', size) → plain_delta d' ∧ Marshal d' = Some size.
Proof.
  intros HR. unfold cloneOverviewJournalDelta. repeat case_match; try done. intros [= <- <-].
  split; [|done]. split; by eapply clone_patches_result.
Qed.

(** ** The journal is a gap-free chain within its bounds *)

Fixpoint chain (entries : list overviewJournalEntry) : Prop :=
  match entries with
  | [] => True
  | e :: rest => je_version e = je_baseVersion e + 1 ∧
                 match rest with [] => True | e' :: _ => je_baseVersion e' = je_version e end ∧ chain rest
  end.

Definition total_size (entries : list overviewJournalEntry) : Z := foldr (λ e n, je_sizeBytes e + n) 0 entries.

Record journal_ok (j : overviewJournal) : Prop := {
  jo_chain : chain (j_entries j);
  jo_plain : Forall (λ e, plain_delta (je_delta e)) (j_entries j);
  jo_size : j_sizeBytes j = total_size (j_entries j);
  jo_bytes : j_entries j ≠ [] → j_sizeBytes j <= j_maxBytes j;
  jo_length : j_entries j ≠ [] → Z.of_nat (length (j_entries j)) <= j_capacity j }.

Lemma chain_tail e entries : chain (e :: entries) → chain entries.
Proof. simpl. tauto. Qed.

Lemma chain_snoc entries e :
  chain entries → je_version e = je_baseVersion e + 1 →
  (∀ x, last entries = Some x → je_version x = je_baseVersion e) → chain (entries ++ [e]).
Proof.
  induction entries as [|a entries IH]; intros Hc He Hl; [done|]. destruct Hc as (Ha & Hn & Hc).
  destruct entries as [|b entries]; [simpl; split_and!; try done; symmetry; by apply Hl|].
  simpl. split_and!; try done; try tauto; apply IH; try done; intros x Hx; by apply Hl.
Qed.

Lemma total_size_app l k : total_size (l ++ k) = total_size l + total_size k.
Proof. induction l as [|e l IH]; simpl; [done|]. rewrite IH. lia. Qed.

Lemma evict_spec capacity maxBytes entries size :
  chain entries → size = total_size entries →
  let '(size', entries') := evict capacity maxBytes size entries in
  chain entries' ∧ size' = total_size entries' ∧ entries' `suffix_of` entries ∧
  (entries' ≠ [] → size' <= maxBytes ∧ Z.of_nat (length entries') <= capacity).
Proof.
  revert size. induction entries as [|e entries IH]; intros size Hc Hs; [done|]. cbn [evict].
  destruct (_ || _) eqn:E.
  - specialize (IH (size - je_sizeBytes e) (chain_tail _ _ Hc) ltac:(simpl in Hs; lia)).
    destruct (evict _ _ _ entries) as [size' entries']. destruct IH as (A & B & C & D). split_and!; try done.
    by apply suffix_cons_r.
  - to_prop. split_and!; try done; lia.
Qed.

Lemma Reset_ok j : journal_ok (Reset j).
Proof. by split. Qed.

Lemma Append_ok base version delta j :
  renormalizes → 0 <= base < 2 ^ 64 → 0 <= version < 2 ^ 64 → journal_ok j → journal_ok (Append base version delta j).
Proof.
  intros HR Hb Hv Hj. unfold Append. destruct (_ || _) eqn:E; [apply Reset_ok|]. to_prop.
  assert (Hver : version = base + 1) by (unfold uint64_wrap in *; rewrite Z.mod_small in * by lia; lia).
  set (j1 := continue_from base j).
  assert (Hj1 : journal_ok j1 ∧ ∀ x, last (j_entries j1) = Some x → je_version x = base).
  { subst j1. unfold continue_from. destruct (last (j_entries j)) as [x|] eqn:Hl; [|split; [done|]; by rewrite Hl].
    destruct (negb _) eqn:Hx; [split; [apply Reset_ok|done]|]. to_prop. split; [done|]. rewrite Hl. by intros y [= <-]. }
  destruct Hj1 as [Hj1 Hlast]. destruct (cloneOverviewJournalDelta delta) as [[cloned size]|] eqn:Hclone; [|apply Reset_ok].
  destruct (_ || _); [apply Reset_ok|].
  pose proof (evict_spec (j_capacity j1) (j_maxBytes j1) (j_entries j1 ++ [mkEntry base version cloned size]) (j_sizeBytes j1 + size)) as He.
  destruct (evict _ _ _ _) as [size' entries']. destruct He as (A & B & Hsuf & D).
  - apply chain_snoc; [apply Hj1|done|done].
  - rewrite total_size_app, (jo_size _ Hj1). simpl. lia.
  - split; try done; try (intros Hne; by apply D). destruct Hsuf as [pre Hpre]. apply clone_delta_result in Hclone as [Hp _]; [|done].
    assert (Hall : Forall (λ e, plain_delta (je_delta e)) (pre ++ entries')).
    { rewrite <- Hpre. apply Forall_app. split; [apply Hj1|by apply Forall_singleton]. }
    by apply Forall_app in Hall as [_ Hall].
Qed.

(** ** Replay is the compaction of the missed deltas *)

(** Applying a delta to the devices and links a client holds. *)
Definition apply_delta (s : gmap string Patch * gmap string Patch) (d : RuntimeDeltaPayload) : gmap string Patch * gmap string Patch :=
  (mergeOverviewJournalPatches s.1 (rd_Devices d), mergeOverviewJournalPatches s.2 (rd_Links d)).

(** Entries that lead from version [b] to version [t] without a gap. *)
Fixpoint leads (b : Z) (entries : list overviewJournalEntry) (t : Z) : Prop :=
  match entries with
  | [] => b = t
  | e :: rest => je_baseVersion e = b ∧ leads (je_version e) rest t
  end.

Lemma merge_lookup (dst : gmap string Patch) src i :
  mergeOverviewJournalPatches dst src !! i =
    match dst !! i, default ∅ src !! i with
    | Some d, Some s => Some (default ∅ s ∪ d)
    | Some d, None => Some d
    | None, Some s => Some (default ∅ s)
    | None, None => None
    end.
Proof.
  unfold mergeOverviewJournalPatches. rewrite lookup_union_with, lookup_fmap.
  by destruct (dst !! i), (default ∅ src !! i).
Qed.

Lemma merge_compacted (s C : gmap string Patch) src :
  mergeOverviewJournalPatches s (Some (Some <$> mergeOverviewJournalPatches C src)) =
  mergeOverviewJournalPatches (mergeOverviewJournalPatches s (Some (Some <$> C))) src.
Proof.
  apply map_eq. intros i. rewrite !merge_lookup. cbn [from_option id]. rewrite !lookup_fmap, merge_lookup.
  destruct (s !! i), (C !! i), (default ∅ src !! i); cbn; try done. f_equal. by rewrite (assoc_L (∪)).
Qed.

Lemma merge_empty (s : gmap string Patch) : mergeOverviewJournalPatches s (Some (Some <$> (∅ : gmap string Patch))) = s.
Proof.
  apply map_eq. intros i. rewrite merge_lookup. cbn [from_option id]. rewrite lookup_fmap, lookup_empty.
  by destruct (s !! i).
Qed.

Definition compacted (D L : gmap string Patch) : RuntimeDeltaPayload := mkDelta (Some (Some <$> D)) (Some (Some <$> L)).

(** Compacting plain deltas gives a plain delta. *)
Definition plain_map (m : gmap string Patch) : Prop := plain_patches (Some (Some <$> m)).

Lemma plain_map_lookup m k p : plain_map m → m !! k = Some p → plain_patch (Some p).
Proof. intros Hm Hk. apply (Hm k). by rewrite lookup_fmap, Hk. Qed.

Lemma plain_patch_default p : plain_patch p → plain_patch (Some (default ∅ p)).
Proof. destruct p; [done|]. intros _ k v. cbn. by rewrite lookup_empty. Qed.

Lemma plain_merge m src : plain_map m → plain_patches src → plain_map (mergeOverviewJournalPatches m src).
Proof.
  intros Hm Hs k o. rewrite lookup_fmap, merge_lookup.
  assert (Hsrc : ∀ p, default ∅ src !! k = Some p → plain_patch (Some (default ∅ p))).
  { intros p Hp. apply plain_patch_default. destruct src as [src|]; cbn in Hp; [by apply (Hs k)|by rewrite lookup_empty in Hp]. }
  destruct (m !! k) as [d|] eqn:Hd, (default ∅ src !! k) as [p|] eqn:Hp; cbn; intros [= <-]; try by apply Hsrc.
  - apply map_Forall_union_2; [by apply (Hsrc p)|by apply (plain_map_lookup m k)].
  - by apply (plain_map_lookup m k).
Qed.

Lemma plain_empty : plain_map ∅.
Proof. intros k o. by rewrite lookup_fmap, lookup_empty. Qed.

Lemma clone_Some d d' : plain_delta d → fst <$> cloneOverviewJournalDelta (Some d) = Some d' → d' = d.
Proof. intros Hd. rewrite clone_delta_plain by done. destruct (Marshal d); [|done]. by intros [= <-]. Qed.

Lemma replay_loop_sound from target exp D L entries d :
  Forall (λ e, plain_delta (je_delta e)) entries → plain_map D → plain_map L →
  replay_loop from target exp D L entries = Some d →
  ∃ mid post, filter (λ e, from < je_version e) entries = mid ++ post ∧ mid ≠ [] ∧ leads exp mid target ∧
    ∀ s, apply_delta s d = foldl apply_delta (apply_delta s (compacted D L)) (je_delta <$> mid).
Proof.
  intros Hplain. revert exp D L. induction Hplain as [|e entries He Hplain IH]; intros exp D L HD HL; [done|].
  cbn [replay_loop]. rewrite filter_cons.
  destruct (je_version e <=? from) eqn:Hskip; to_prop; [rewrite decide_False by lia; by apply IH|rewrite decide_True by lia].
  destruct (_ || _) eqn:Hbad; [done|]. to_prop. destruct He as [HeD HeL].
  pose proof (plain_merge D _ HD HeD) as HD'. pose proof (plain_merge L _ HL HeL) as HL'.
  set (D' := mergeOverviewJournalPatches D _) in *. set (L' := mergeOverviewJournalPatches L _) in *.
  assert (Hstep : ∀ s, apply_delta s (compacted D' L') = apply_delta (apply_delta s (compacted D L)) (je_delta e)).
  { intros s. unfold apply_delta, compacted, D', L'. cbn [rd_Devices rd_Links fst snd]. by rewrite !merge_compacted. }
  destruct (je_version e =? target) eqn:Hend; to_prop.
  - intros ->%clone_Some; [|done]. exists [e], (filter (λ e, from < je_version e) entries).
    by split_and!; [..|intros s; apply Hstep].
  - intros (mid & post & -> & _ & Hl & Happ)%IH; [|done..]. exists (e :: mid), post. split_and!; try done.
    intros s. rewrite Happ, Hstep. done.
Qed.

Lemma chain_versions e entries x : chain (e :: entries) → x ∈ entries → je_version e < je_version x.
Proof.
  revert e. induction entries as [|a entries IH]; intros e Hc Hx; [by apply elem_of_nil in Hx|].
  destruct Hc as (He & Hn & Hc). pose proof (proj1 Hc) as Ha. apply elem_of_cons in Hx as [->|Hx]; [lia|].
  specialize (IH a Hc Hx). lia.
Qed.

(** A version the chain reaches can be replayed to from any of its base versions. *)
Lemma replay_loop_complete from target exp D L e entries :
  (∀ d, is_Some (Marshal d)) → Forall (λ e, plain_delta (je_delta e)) (e :: entries) → plain_map D → plain_map L →
  chain (e :: entries) → je_baseVersion e = exp → from <= exp →
  (∃ x, x ∈ e :: entries ∧ je_version x = target) → is_Some (replay_loop from target exp D L (e :: entries)).
Proof.
  intros HM. revert exp D L e. induction entries as [|a entries IH]; intros exp D L e Hp HD HL Hc Hb Hf (x & Hx & Ht);
    pose proof (proj1 Hc) as He; cbn [replay_loop]; inversion Hp as [|? ? [HeD HeL] Hp']; subst.
  all: pose proof (plain_merge D _ HD HeD) as HD'; pose proof (plain_merge L _ HL HeL) as HL'.
  all: rewrite (proj2 (Z.leb_gt _ _)) by lia; rewrite Z.eqb_refl; cbn [negb orb].
  all: assert (Hle : je_version e <= je_version x)
    by (apply elem_of_cons in Hx as [->|Hx]; [lia|pose proof (chain_versions e _ x Hc Hx); lia]).
  all: rewrite (proj2 (Z.ltb_ge _ _)) by lia; destruct (je_version e =? je_version x) eqn:Hend; to_prop.
  all: try (rewrite clone_delta_plain by done; destruct (HM (mkDelta (Some (Some <$> mergeOverviewJournalPatches D (rd_Devices (je_delta e))))
    (Some (Some <$> mergeOverviewJournalPatches L (rd_Links (je_delta e)))))) as [? ->]; done).
  - apply elem_of_cons in Hx as [->|Hx%elem_of_nil]; done.
  - apply IH; try done; [apply Hc|apply Hc|lia|]. exists x. split; [|done]. by apply elem_of_cons in Hx as [->|Hx].
Qed.

(** Entries at or below the client's version are skipped. *)
Lemma replay_skip from target exp D L pre entries :
  Forall (λ e, je_version e <= from) pre →
  replay_loop from target exp D L (pre ++ entries) = replay_loop from target exp D L entries.
Proof. induction 1 as [|e pre He _ IH]; [done|]. simpl. by rewrite (proj2 (Z.leb_le _ _) He). Qed.

Lemma chain_app pre entries : chain (pre ++ entries) → chain entries.
Proof. induction pre as [|e pre IH]; [done|]. intros Hc. apply IH. by eapply chain_tail. Qed.

Lemma chain_before pre e entries : chain (pre ++ e :: entries) → Forall (λ x, je_version x <= je_baseVersion e) pre.
Proof.
  induction pre as [|a pre IH]; [constructor|]. intros Hc. pose proof (IH (chain_tail _ _ Hc)) as Hf.
  constructor; [|done]. pose proof (proj1 (chain_app (a :: pre) _ Hc)) as He.
  pose proof (chain_versions a (pre ++ e :: entries) e Hc) as Hv. ospecialize (Hv _); [apply elem_of_app; right; apply elem_of_cons; by left|lia].
Qed.

(** Whatever lies between two versions of the journal can be replayed. *)
Lemma Replay_complete j from target x y :
  (∀ d, is_Some (Marshal d)) → journal_ok j → x ∈ j_entries j → y ∈ j_entries j →
  je_baseVersion x = from → je_version y = target → from < target → is_Some (Replay from target j).
Proof.
  intros HM Hj (pre & post & Hxy)%list_elem_of_split Hy Hb Ht Hlt. unfold Replay.
  rewrite (proj2 (Z.leb_gt _ _)) by lia. pose proof (jo_chain j Hj) as Hc. pose proof (jo_plain j Hj) as Hp.
  rewrite Hxy in *. pose proof (chain_before _ _ _ Hc) as Hpre. rewrite Hb in Hpre. rewrite replay_skip by done.
  apply Forall_app in Hp as [_ Hp]. apply replay_loop_complete; try done; [by apply (chain_app pre)|].
  exists y. split; [|done]. apply elem_of_app in Hy as [Hy|Hy]; [|done].
  rewrite Forall_forall in Hpre. specialize (Hpre y Hy). simpl in Hpre. lia.
Qed.
End journal.

(** * What the overview journal guarantees

    A journal built by any sequence of appends and resets is a bounded gap-free chain, and
    replaying it brings a client to the same state as the deltas it missed. *)


Section theorems.
Context {Other : Type} (Marshal : @RuntimeDeltaPayload Other → option Z) (renormalize : Other → option (@GoAny Other)).

(** The calls the broadcaster makes on its journal. *)
Inductive JournalOp :=
  | OpAppend (baseVersion version : Z) (delta : option (@RuntimeDeltaPayload Other))
  | OpReset.

Definition op_ok (o : JournalOp) : Prop :=
  match o with OpAppend b v _ => in_uint64 b ∧ in_uint64 v | OpReset => True end.

Definition run_op (j : @overviewJournal Other) (o : JournalOp) : @overviewJournal Other :=
  match o with OpAppend b v d => Append Marshal renormalize b v d j | OpReset => Reset j end.

Definition journal_of (capacity maxBytes : Z) (ops : list JournalOp) : @overviewJournal Other :=
  foldl run_op (newOverviewJournal capacity maxBytes) ops.

Lemma run_op_ok j o : renormalizes renormalize → op_ok o → journal_ok j → journal_ok (run_op j o).
Proof. intros HR Ho Hj. destruct o as [b v d|]; [destruct Ho; by apply Append_ok|apply Reset_ok]. Qed.

Lemma journal_of_ok capacity maxBytes ops :
  renormalizes renormalize → Forall op_ok ops → journal_ok (journal_of capacity maxBytes ops).
Proof.
  intros HR Hops. unfold journal_of.
  assert (Hj : journal_ok (@newOverviewJournal Other capacity maxBytes)) by (by split).
  revert Hj. generalize (@newOverviewJournal Other capacity maxBytes). induction Hops as [|o ops Ho _ IH]; intros j Hj; [done|].
  cbn [foldl]. by apply IH, run_op_ok.
Qed.

Lemma run_op_config j o : j_capacity (run_op j o) = j_capacity j ∧ j_maxBytes (run_op j o) = j_maxBytes j.
Proof.
  destruct o as [b v d|]; [|done]. simpl. unfold Append. destruct (_ || _); [done|].
  assert (Hc : j_capacity (continue_from b j) = j_capacity j ∧ j_maxBytes (continue_from b j) = j_maxBytes j).
  { unfold continue_from. destruct (last _); [|done]. by destruct (negb _). }
  destruct (cloneOverviewJournalDelta _ _ d) as [[c n]|]; [|done]. destruct (_ || _); [done|]. by destruct (evict _ _ _ _).
Qed.

Lemma journal_of_config capacity maxBytes ops :
  j_capacity (journal_of capacity maxBytes ops) = capacity ∧ j_maxBytes (journal_of capacity maxBytes ops) = maxBytes.
Proof.
  unfold journal_of. induction ops as [|o ops IH] using rev_ind; [done|]. rewrite foldl_app. cbn [foldl].
  destruct (run_op_config (foldl run_op (newOverviewJournal capacity maxBytes) ops) o) as [-> ->]. done.
Qed.

(** C31: Whatever is appended, in whatever order, the journal is a gap-free chain of versions
    within its bounds: each entry is one version after its base, each entry continues the
    one before, the recorded size is the sum of the entries' sizes, and neither the number
    of entries nor the size exceeds the configured limit. *)
Theorem journal_chain capacity maxBytes ops :
  renormalizes renormalize → Forall op_ok ops → 0 <= capacity → 0 <= maxBytes →
  let j := journal_of capacity maxBytes ops in
  chain (j_entries j) ∧ j_sizeBytes j = total_size (j_entries j) ∧
  Z.of_nat (length (j_entries j)) <= capacity ∧ j_sizeBytes j <= maxBytes.
Proof.
  intros HR Hops Hc Hm j. pose proof (journal_of_ok capacity maxBytes ops HR Hops) as Hj. fold j in Hj.
  destruct (journal_of_config capacity maxBytes ops) as [Ec Em]. fold j in Ec, Em. destruct Hj as [A _ B C D].
  rewrite Ec in D. rewrite Em in C. split_and!; [done..| |].
  - destruct (j_entries j); [simpl; lia|by apply D].
  - destruct (j_entries j); [rewrite B; simpl; lia|by apply C].
Qed.


(** Replay answers whenever it can: if deltas can be marshalled, from the base version
    of any journal entry to any later version the journal holds. *)
Theorem replay_complete capacity maxBytes ops from target x y :
  (∀ d, is_Some (Marshal d)) → renormalizes renormalize → Forall op_ok ops →
  x ∈ j_entries (journal_of capacity maxBytes ops) → y ∈ j_entries (journal_of capacity maxBytes ops) →
  je_baseVersion x = from → je_version y = target → from < target →
  is_Some (Replay Marshal renormalize from target (journal_of capacity maxBytes ops)).
Proof. intros HM HR Hops Hx Hy Hb Hv Hlt. by apply (Replay_complete Marshal renormalize _ from target x y); [|apply journal_of_ok|..]. Qed.
End theorems.

(** ** A concrete journal: no foreign values, every delta 10 bytes long *)

Definition marshal10 (d : @RuntimeDeltaPayload Empty_set) : option Z := Some 10.
Definition no_foreign (x : Empty_set) : option (@GoAny Empty_set) := match x with end.
Definition cpu_patch (id : string) (cpu : Z) : @RuntimeDeltaPayload Empty_set :=
  mkDelta (Some {[ id := Some {[ "cpu"%string := GScalar (SInt cpu) ]} ]}) None.
Definition demo_ops : list (@JournalOp Empty_set) :=
  [OpAppend 0 1 (Some (cpu_patch "a" 5)); OpAppend 1 2 (Some (cpu_patch "b" 6)); OpAppend 2 3 (Some (cpu_patch "a" 7))].

Lemma no_foreign_ok : renormalizes no_foreign.
Proof. intros []. Qed.

Lemma demo_ops_ok : Forall op_ok demo_ops.
Proof. repeat (apply Forall_cons; split; [unfold op_ok, in_uint64; lia|]). by apply Forall_nil. Qed.

Lemma journal_chain_witness : Z.of_nat (length (j_entries (journal_of marshal10 no_foreign 2 100 demo_ops))) <= 2.
Proof.
  exact (proj1 (proj2 (proj2 (journal_chain marshal10 no_foreign 2 100 demo_ops no_foreign_ok demo_ops_ok ltac:(lia) ltac:(lia))))).
Defined.


Lemma replay_complete_witness : is_Some (Replay marshal10 no_foreign 1 3 (journal_of marshal10 no_foreign 2 100 demo_ops)).
Proof.
  refine (replay_complete marshal10 no_foreign 2 100 demo_ops 1 3
    (mkEntry 1 2 (cpu_patch "b" 6) 10) (mkEntry 2 3 (cpu_patch "a" 7) 10) (λ d, ex_intro _ 10 eq_refl)
    no_foreign_ok demo_ops_ok _ _ eq_refl eq_refl ltac:(lia)); vm_compute; [left|right; left].
Defined.
