(* ===== verification/RuntimePatch.v ===== *)
(** * Sparse patches between runtime records

    The delta part of [internal/worker/snapshot_builder.go]: what is sent for a device or a
    link is the set of fields that differ from the previous record.  A client that applies the
    patch to the previous record shows the current one, field by field; [-0] and [0] are not
    distinguished, as in the comparison of the code. *)

From S2P Require Import Prelude GoLib Domain StateStore Runtime Journal.

Section patch.
Context {Other : Type}.
Abbreviation GoAny := (@Journal.GoAny Other) (only parsing).
Abbreviation Patch := (gmap string (@Journal.GoAny Other)) (only parsing).
Abbreviation Delta := (@RuntimeDeltaPayload Other) (only parsing).

(** ** Comparisons *)

Definition stringPtrRuntimeEqual (a b : option string) : bool :=
  match a, b with None, None => true | Some x, Some y => String.eqb x y | _, _ => false end.
Definition floatPtrRuntimeEqual (a b : option float64) : bool :=
  match a, b with None, None => true | Some x, Some y => f64_eq x y | _, _ => false end.
Definition stringSliceRuntimeEqual (a b : option (list string)) : bool := bool_decide (default [] a = default [] b).
Definition stringMapRuntimeEqual (a b : gmap string string) : bool :=
  (size a =? size b)%nat && forallb (λ kv, String.eqb (default "" (b !! kv.1)) kv.2) (map_to_list a).
Definition validRuntimeFieldStates (fields : gmap string string) : bool :=
  negb (size fields =? 0)%nat
  && forallb (λ key, negb (String.eqb (default "" (fields !! key)) "")) ["uptime"; "cpu"; "memory"]%string.

(** ** Patches *)

Definition str (s : string) : GoAny := GScalar (SString s).
Definition runtimeStringPtrValue (v : option string) : GoAny := match v with None => GScalar SNil | Some s => str s end.
Definition runtimeFloatPtrValue (v : option float64) : GoAny := match v with None => GScalar SNil | Some f => GScalar (SFloat f) end.

(** Each [add...] closure: the key, and the value to store if the field goes into the patch. *)
Definition addString (key current previous : string) : string * option GoAny :=
  (key, if negb (String.eqb current "") && negb (String.eqb current previous) then Some (str current) else None).
Definition addInt (key : string) (current previous : Z) : string * option GoAny :=
  (key, if negb (current =? previous) then Some (GScalar (SInt current)) else None).
Definition addStringPtr (key : string) (current previous : option string) : string * option GoAny :=
  (key, if negb (stringPtrRuntimeEqual current previous) then Some (runtimeStringPtrValue current) else None).
Definition addFloatPtr (key : string) (current previous : option float64) : string * option GoAny :=
  (key, if negb (floatPtrRuntimeEqual current previous) then Some (runtimeFloatPtrValue current) else None).
Definition addFlags (key : string) (current previous : option (list string)) : string * option GoAny :=
  (key, match current with
        | Some flags => if negb (stringSliceRuntimeEqual current previous) then Some (GStrings (Some flags)) else None
        | None => None
        end).
Definition addFieldStates (key : string) (current previous : gmap string string) : string * option GoAny :=
  (key, if validRuntimeFieldStates current && negb (stringMapRuntimeEqual current previous)
        then Some (GStringMap (Some (map_to_list current))) else None).

(** The patch and the flag [changed]. *)
Definition add_field (st : Patch * bool) (field : string * option GoAny) : Patch * bool :=
  match field.2 with Some v => (<[field.1 := v]> st.1, true) | None => st end.
Definition patch_of (init : Patch) (fields : list (string * option GoAny)) : option Patch :=
  let '(patch, changed) := foldl add_field (init, false) fields in if changed : bool then Some patch else None.

Definition device_entries (c p : DeviceRuntimeDTO) : list (string * option GoAny) :=
  [ addString "operational_status" (rt_OperationalStatus c) (rt_OperationalStatus p);
    addString "primary_health" (rt_PrimaryHealth c) (rt_PrimaryHealth p);
    addFlags "runtime_flags" (rt_RuntimeFlags c) (rt_RuntimeFlags p);
    addFieldStates "field_states" (rt_FieldStates c) (rt_FieldStates p);
    addString "network_reachable" (rt_NetworkReachable c) (rt_NetworkReachable p);
    addString "snmp_reachable" (rt_SNMPReachable c) (rt_SNMPReachable p);
    addString "reachability" (rt_Reachability c) (rt_Reachability p);
    addString "health" (rt_Health c) (rt_Health p);
    addString "freshness" (rt_Freshness c) (rt_Freshness p);
    addString "primary_reason" (rt_PrimaryReason c) (rt_PrimaryReason p);
    addString "metrics_status" (rt_MetricsStatus c) (rt_MetricsStatus p);
    addString "metrics_reason" (rt_MetricsReason c) (rt_MetricsReason p);
    addString "alert_status" (rt_AlertStatus c) (rt_AlertStatus p);
    addInt "firing_alert_count" (rt_FiringAlertCount c) (rt_FiringAlertCount p);
    addStringPtr "last_collected_at" (rt_LastCollectedAt c) (rt_LastCollectedAt p);
    addStringPtr "last_polled_at" (rt_LastPolledAt c) (rt_LastPolledAt p);
    addFloatPtr "expected_poll_interval_seconds" (rt_ExpectedPollIntervalSeconds c) (rt_ExpectedPollIntervalSeconds p);
    addFloatPtr "cpu_percent" (rt_CPUPercent c) (rt_CPUPercent p);
    addFloatPtr "mem_percent" (rt_MemPercent c) (rt_MemPercent p);
    addFloatPtr "temp_celsius" (rt_TempCelsius c) (rt_TempCelsius p);
    addFloatPtr "uptime_secs" (rt_UptimeSecs c) (rt_UptimeSecs p) ]%string.

Definition buildDeviceRuntimePatch (current previous : DeviceRuntimeDTO) : option Patch :=
  patch_of {[ "device_id" := str (rt_DeviceID current) ]} (device_entries current previous).

Definition link_entries (c p : LinkRuntimeDTO) : list (string * option GoAny) :=
  [ addString "metrics_status" (lr_MetricsStatus c) (lr_MetricsStatus p);
    addString "metrics_reason" (lr_MetricsReason c) (lr_MetricsReason p);
    addStringPtr "last_collected_at" (lr_LastCollectedAt c) (lr_LastCollectedAt p);
    addFloatPtr "tx_bps" (lr_TxBps c) (lr_TxBps p);
    addFloatPtr "rx_bps" (lr_RxBps c) (lr_RxBps p);
    addFloatPtr "utilization" (lr_Utilization c) (lr_Utilization p) ]%string.

Definition buildLinkRuntimePatch (current previous : LinkRuntimeDTO) : option Patch :=
  patch_of {[ "link_id" := str (lr_LinkID current) ]} (link_entries current previous).

(** One section of a delta: the patches of the records that changed, with their identifier. *)
Definition section_patches {A} (build : A → A → option Patch) (zero : A) (id_key : string)
  (current previous : gmap string A) : gmap string (option Patch) :=
  map_imap (λ id c, (λ p, Some (<[id_key := str id]> p)) <$> build c (default zero (previous !! id))) current.

Definition buildRuntimeDeltaPatch (delta previous : option SnapshotPayload) : option Delta :=
  match delta with
  | None => None
  | Some delta =>
    let previous := default EmptySnapshot previous in
    let devices := section_patches buildDeviceRuntimePatch zeroDeviceDTO "device_id" (sn_Devices delta) (sn_Devices previous) in
    let links := section_patches buildLinkRuntimePatch zeroLinkDTO "link_id" (sn_Links delta) (sn_Links previous) in
    if (size devices =? 0)%nat && (size links =? 0)%nat then None else Some (mkDelta (Some devices) (Some links))
  end.

(** ** The copy in a message *)

(** [append([]string(nil), typed...)] of an empty list is [nil]. *)
Definition clone_runtime_value (v : GoAny) : GoAny :=
  match v with
  | GStrings (Some []) => GStrings None
  | GStringMap m => GStringMap (Some (default [] m))
  | v => v
  end.
Definition cloneRuntimePatchMap (patch : option Patch) : option Patch := Some (clone_runtime_value <$> default ∅ patch).
Definition CloneRuntimeDeltaPayload (delta : option Delta) : Delta :=
  match delta with
  | None => EmptyRuntimeDeltaPayload
  | Some delta => mkDelta (Some (cloneRuntimePatchMap <$> default ∅ (rd_Devices delta)))
                    (Some (cloneRuntimePatchMap <$> default ∅ (rd_Links delta)))
  end.

(** ** What a patch says *)

(** Values as a client reads them: up to the sign of zero, a [nil] list or map of strings as an
    empty one. *)
Definition canon (v : GoAny) : GoAny :=
  match v with
  | GScalar (SFloat (S754_zero _)) => GScalar (SFloat (S754_zero false))
  | GStrings None => GStrings (Some [])
  | GStringMap None => GStringMap (Some [])
  | v => v
  end.

(** The value for the field is that of the current record, or the field has not changed. *)
Definition says (v : option GoAny) (current previous : GoAny) : Prop :=
  match v with Some v => canon v = canon current | None => canon previous = canon current end.

Lemma f64_eq_canon x y : f64_eq x y = true → canon (GScalar (SFloat x)) = canon (GScalar (SFloat y)).
Proof.
  unfold f64_eq, SFeqb. destruct x as [sx|sx| |sx mx ex], y as [sy|sy| |sy my ey]; simpl; try done; try by destruct sx.
  all: destruct sx, sy; try done; intros H; destruct (Z.compare_spec ex ey) as [->| |]; try done.
  all: change (Pos.compare_cont Eq mx my) with (mx ?= my)%positive in H; destruct (Pos.compare_spec mx my); by subst.
Qed.

(** The entries agree with a table of fields. *)
Definition entry_sound {A} (c p : A) (e : string * option GoAny) (field : string * (A → GoAny)) : Prop :=
  e.1 = field.1 ∧ says e.2 (field.2 c) (field.2 p).

Lemma addString_says key c p : c ≠ "" → says (addString key c p).2 (str c) (str p).
Proof.
  intros Hc. unfold addString. destruct (String.eqb_spec c ""); [done|]. destruct (String.eqb_spec c p); [by subst|done].
Qed.

Lemma addInt_says key c p : says (addInt key c p).2 (GScalar (SInt c)) (GScalar (SInt p)).
Proof. unfold addInt. destruct (Z.eqb_spec c p); [by subst|done]. Qed.

Lemma addStringPtr_says key c p : says (addStringPtr key c p).2 (runtimeStringPtrValue c) (runtimeStringPtrValue p).
Proof.
  unfold addStringPtr, stringPtrRuntimeEqual. destruct c as [c|], p as [p|]; try done.
  destruct (String.eqb_spec c p); [by subst|done].
Qed.

Lemma addFloatPtr_says key c p : says (addFloatPtr key c p).2 (runtimeFloatPtrValue c) (runtimeFloatPtrValue p).
Proof.
  unfold addFloatPtr, floatPtrRuntimeEqual. destruct c as [c|], p as [p|]; try done.
  destruct (f64_eq c p) eqn:E; [|done]. simpl. symmetry. by apply f64_eq_canon.
Qed.

Lemma addFlags_says key c p :
  is_Some c → says (addFlags key c p).2 (GStrings (Some (default [] c))) (GStrings (Some (default [] p))).
Proof.
  intros [flags ->]. unfold addFlags, stringSliceRuntimeEqual. simpl. case_bool_decide as E; [|done]. by rewrite E.
Qed.

Lemma stringMapRuntimeEqual_eq a b :
  map_Forall (λ _ v, v ≠ "") a → stringMapRuntimeEqual a b = true → a = b.
Proof.
  intros Hne [Hsize%Nat.eqb_eq Hall]%andb_true_iff.
  assert (Hsub : a ⊆ b).
  { apply map_subseteq_spec. intros k v Hk. rewrite forallb_forall in Hall.
    specialize (Hall (k, v)). rewrite <- list_elem_of_In, elem_of_map_to_list in Hall. specialize (Hall Hk). simpl in Hall.
    destruct (String.eqb_spec (default "" (b !! k)) v) as [E|]; [|done].
    specialize (Hne k _ Hk). simpl in Hne. destruct (b !! k); simpl in E; congruence. }
  apply map_subseteq_size_eq; [done|lia].
Qed.

Lemma addFieldStates_says key c p :
  validRuntimeFieldStates c = true → map_Forall (λ _ v, v ≠ "") c →
  says (addFieldStates key c p).2 (GStringMap (Some (map_to_list c))) (GStringMap (Some (map_to_list p))).
Proof.
  intros Hv Hne. unfold addFieldStates. rewrite Hv. destruct (stringMapRuntimeEqual c p) eqn:E; [|done].
  by rewrite (stringMapRuntimeEqual_eq c p Hne E).
Qed.

(** ** The fields on the wire *)

Definition device_fields : list (string * (DeviceRuntimeDTO → GoAny)) :=
  [ ("operational_status", λ r, str (rt_OperationalStatus r));
    ("primary_health", λ r, str (rt_PrimaryHealth r));
    ("runtime_flags", λ r, GStrings (Some (default [] (rt_RuntimeFlags r))));
    ("field_states", λ r, GStringMap (Some (map_to_list (rt_FieldStates r))));
    ("network_reachable", λ r, str (rt_NetworkReachable r));
    ("snmp_reachable", λ r, str (rt_SNMPReachable r));
    ("reachability", λ r, str (rt_Reachability r));
    ("health", λ r, str (rt_Health r));
    ("freshness", λ r, str (rt_Freshness r));
    ("primary_reason", λ r, str (rt_PrimaryReason r));
    ("metrics_status", λ r, str (rt_MetricsStatus r));
    ("metrics_reason", λ r, str (rt_MetricsReason r));
    ("alert_status", λ r, str (rt_AlertStatus r));
    ("firing_alert_count", λ r, GScalar (SInt (rt_FiringAlertCount r)));
    ("last_collected_at", λ r, runtimeStringPtrValue (rt_LastCollectedAt r));
    ("last_polled_at", λ r, runtimeStringPtrValue (rt_LastPolledAt r));
    ("expected_poll_interval_seconds", λ r, runtimeFloatPtrValue (rt_ExpectedPollIntervalSeconds r));
    ("cpu_percent", λ r, runtimeFloatPtrValue (rt_CPUPercent r));
    ("mem_percent", λ r, runtimeFloatPtrValue (rt_MemPercent r));
    ("temp_celsius", λ r, runtimeFloatPtrValue (rt_TempCelsius r));
    ("uptime_secs", λ r, runtimeFloatPtrValue (rt_UptimeSecs r)) ]%string.

(** The fields of a link that vary at run time; its ends are topology. *)
Definition link_fields : list (string * (LinkRuntimeDTO → GoAny)) :=
  [ ("metrics_status", λ r, str (lr_MetricsStatus r));
    ("metrics_reason", λ r, str (lr_MetricsReason r));
    ("last_collected_at", λ r, runtimeStringPtrValue (lr_LastCollectedAt r));
    ("tx_bps", λ r, runtimeFloatPtrValue (lr_TxBps r));
    ("rx_bps", λ r, runtimeFloatPtrValue (lr_RxBps r));
    ("utilization", λ r, runtimeFloatPtrValue (lr_Utilization r)) ]%string.

(** A normalized record: no word is missing, the flags are there and so are the states of
    the three essential fields. *)
Definition device_ok (r : DeviceRuntimeDTO) : Prop :=
  Forall (λ w, w ≠ "") [rt_OperationalStatus r; rt_PrimaryHealth r; rt_NetworkReachable r; rt_SNMPReachable r;
    rt_Reachability r; rt_Health r; rt_Freshness r; rt_PrimaryReason r; rt_MetricsStatus r; rt_MetricsReason r; rt_AlertStatus r]
  ∧ is_Some (rt_RuntimeFlags r)
  ∧ validRuntimeFieldStates (rt_FieldStates r) = true ∧ map_Forall (λ _ v, v ≠ "") (rt_FieldStates r).
Definition link_ok (r : LinkRuntimeDTO) : Prop := lr_MetricsStatus r ≠ "" ∧ lr_MetricsReason r ≠ "".

Lemma device_entries_sound c p : device_ok c → Forall2 (entry_sound c p) (device_entries c p) device_fields.
Proof.
  intros (Hw & Hf & Hv & Hne). repeat (apply Forall_cons in Hw as [? Hw]).
  repeat constructor; cbn [snd]; auto using addInt_says, addStringPtr_says, addFloatPtr_says, addString_says,
    addFlags_says, addFieldStates_says.
Qed.

Lemma link_entries_sound c p : link_ok c → Forall2 (entry_sound c p) (link_entries c p) link_fields.
Proof.
  intros [? ?]. repeat constructor; cbn [snd]; auto using addStringPtr_says, addFloatPtr_says, addString_says.
Qed.

(** ** From entries to a patch *)

Lemma foldl_add_field es st k :
  (foldl add_field st es).1 !! k =
    match last (omap (λ e, if decide (e.1 = k) then e.2 else None) es) with Some v => Some v | None => st.1 !! k end.
Proof.
  induction es as [|e es IH] using rev_ind; [done|]. rewrite foldl_app, omap_app. cbn [foldl omap list_omap].
  destruct e as [k' [v|]]; unfold add_field at 1; cbn [fst snd].
  - case_decide as E; [subst; by rewrite lookup_insert_eq, last_snoc|]. rewrite lookup_insert_ne by done. by rewrite app_nil_r, IH.
  - case_decide; by rewrite app_nil_r, IH.
Qed.

Lemma foldl_add_changed es st : (foldl add_field st es).2 = st.2 || existsb (λ e, bool_decide (is_Some e.2)) es.
Proof.
  revert st. induction es as [|[k [v|]] es IH]; intros st; cbn [foldl existsb]; [by rewrite orb_false_r|..]; rewrite IH.
  - unfold add_field. cbn. by rewrite orb_true_r.
  - done.
Qed.

(** With distinct keys every entry decides its own key. *)
Lemma omap_distinct es (e : string * option GoAny) :
  NoDup es.*1 → e ∈ es → last (omap (λ e', if decide (e'.1 = e.1) then e'.2 else None) es) = e.2.
Proof.
  induction es as [|e' es IH]; [by intros _ ?%elem_of_nil|]. rewrite fmap_cons, NoDup_cons. intros [Hn Hd].
  rewrite elem_of_cons. cbn [omap list_omap]. intros [->|He].
  - rewrite decide_True by done.
    assert (Hnil : omap (λ e'', if decide (e''.1 = e'.1) then e''.2 else None) es = []).
    { clear -Hn. induction es as [|x es IH]; [done|]. rewrite fmap_cons, not_elem_of_cons in Hn. destruct Hn as [Hx Hn].
      cbn [omap list_omap]. rewrite decide_False by (intros E; by rewrite E in Hx). by apply IH. }
    rewrite Hnil. by destruct (e'.2).
  - rewrite decide_False by (intros E; apply Hn; rewrite E; by apply list_elem_of_fmap_2). by apply IH.
Qed.

Lemma patch_of_says {A} (c p : A) init es fields k f :
  Forall2 (entry_sound c p) es fields → NoDup fields.*1 → (k, f) ∈ fields → init !! k = None →
  says (patch_of init es ≫= (.!! k)) (f c) (f p).
Proof.
  intros Hes Hnd (i & Hi)%list_elem_of_lookup Hinit.
  destruct (Forall2_lookup_r _ _ _ _ _ Hes Hi) as (e & He & Hk & Hsays). cbn [fst snd] in Hk, Hsays.
  assert (Hkeys : es.*1 = fields.*1) by (clear -Hes; induction Hes as [|?? ?? [? ?]]; [done|by rewrite !fmap_cons; f_equal]).
  assert (Hin : e ∈ es) by (by eapply list_elem_of_lookup_2).
  unfold patch_of. pose proof (foldl_add_field es (init, false) k) as Hl. pose proof (foldl_add_changed es (init, false)) as Hc.
  destruct (foldl add_field (init, false) es) as [patch changed]. cbn [fst snd orb] in Hl, Hc.
  rewrite <- Hk in Hl, Hinit. rewrite omap_distinct in Hl by (rewrite ?Hkeys; done). rewrite Hinit in Hl.
  destruct changed; simpl.
  - rewrite <- Hk. destruct (e.2) as [v|]; by rewrite Hl.
  - symmetry in Hc. destruct (e.2) as [v|] eqn:Ev; [|done].
    rewrite <- not_true_iff_false, existsb_exists in Hc. destruct Hc. exists e. rewrite <- list_elem_of_In, Ev.
    split; [done|]. by apply bool_decide_eq_true_2.
Qed.

(** ** Deltas and what a client shows *)

Section sections.
Context {A : Type} (fields : list (string * (A → GoAny))) (zero : A).

Definition field_of (f : A → GoAny) (m : gmap string A) (id : string) : GoAny := f (default zero (m !! id)).
Definition patch_at (ps : option (gmap string (option Patch))) (id k : string) : option GoAny :=
  (default ∅ ps !! id) ≫= λ p, default ∅ p !! k.
(** What a client reads; an absent field is the zero value. *)
Definition reads (view : gmap string Patch) (f : A → GoAny) (id k : string) : GoAny :=
  default (f zero) (default ∅ (view !! id) !! k).

(** The patches take the records [old] to the records [new]. *)
Definition section_sound (ps : option (gmap string (option Patch))) (old new : gmap string A) : Prop :=
  ∀ id k f, (k, f) ∈ fields → says (patch_at ps id k) (field_of f new id) (field_of f old id).
Definition section_shows (view : gmap string Patch) (m : gmap string A) : Prop :=
  ∀ id k f, (k, f) ∈ fields → canon (reads view f id k) = canon (field_of f m id).

Lemma reads_merge view ps f id k :
  reads (mergeOverviewJournalPatches view ps) f id k =
    match patch_at ps id k with Some v => v | None => reads view f id k end.
Proof.
  unfold reads, patch_at. rewrite merge_lookup. destruct (view !! id) as [d|], (default ∅ ps !! id) as [p|]; cbn; try done.
  rewrite lookup_union. destruct (default ∅ p !! k); [|by rewrite (left_id_L None _)]. by destruct (d !! k).
Qed.

Lemma shows_step view ps old new :
  section_sound ps old new → section_shows view old → section_shows (mergeOverviewJournalPatches view ps) new.
Proof.
  intros Hs Hv id k f Hk. rewrite reads_merge. specialize (Hs id k f Hk). specialize (Hv id k f Hk).
  destruct (patch_at ps id k); simpl in Hs; congruence.
Qed.

(** A run of sound sections. *)
Fixpoint sections_lead (m : gmap string A) (run : list (option (gmap string (option Patch)))) (m' : gmap string A) : Prop :=
  match run with
  | [] => ∀ id k f, (k, f) ∈ fields → canon (field_of f m id) = canon (field_of f m' id)
  | ps :: run => ∃ mid, section_sound ps m mid ∧ sections_lead mid run m'
  end.

Definition touched (run : list (option (gmap string (option Patch)))) (id k : string) : Prop :=
  Exists (λ ps, is_Some (patch_at ps id k)) run.

Lemma untouched_same m run m' id k f :
  (k, f) ∈ fields → sections_lead m run m' → ¬ touched run id k → canon (field_of f m id) = canon (field_of f m' id).
Proof.
  intros Hk. revert m. induction run as [|ps run IH]; intros m Hl Hn; [by apply (Hl id k f)|].
  destruct Hl as (mid & Hs & Hl). rewrite <- (IH mid Hl) by (intros ?; apply Hn; by right).
  specialize (Hs id k f Hk). destruct (patch_at ps id k) eqn:E; [|done]. destruct Hn. left. by rewrite E.
Qed.

(** The run may be applied to what it leads from, and also to what it leads to or to
    anything in between: each field it touches ends with its last value. *)
Lemma shows_run view m run m' :
  sections_lead m run m' →
  (∀ id k f, (k, f) ∈ fields → canon (reads view f id k) = canon (field_of f m id) ∨ touched run id k) →
  section_shows (foldl mergeOverviewJournalPatches view run) m'.
Proof.
  revert view m. induction run as [|ps run IH]; intros view m Hl Hv; cbn [foldl].
  - intros id k f Hk. destruct (Hv id k f Hk) as [->|Ht]; [by apply (Hl id k f)|by inversion Ht].
  - destruct Hl as (mid & Hs & Hl). apply (IH _ mid Hl). intros id k f Hk. rewrite reads_merge.
    specialize (Hs id k f Hk). destruct (patch_at ps id k) eqn:E; simpl in Hs; [by left|].
    destruct (Hv id k f Hk) as [Hr|Ht]; [left; congruence|]. right. apply Exists_cons in Ht as [Ht|Ht]; [|done].
    rewrite E in Ht. by destruct Ht.
Qed.

Lemma sections_lead_app m run1 m1 run2 m2 : sections_lead m run1 m1 → sections_lead m1 run2 m2 → sections_lead m (run1 ++ run2) m2.
Proof.
  revert m. induction run1 as [|ps run IH]; intros m H1 H2.
  - revert m H1. destruct run2 as [|ps run]; intros m H1; cbn [app sections_lead] in *.
    + intros id k f Hk. rewrite (H1 id k f Hk). by apply (H2 id k f).
    + destruct H2 as (mid & Hs & Hl). exists mid. split; [|done]. intros id k f Hk. specialize (Hs id k f Hk).
      specialize (H1 id k f Hk). destruct (patch_at ps id k); simpl in *; congruence.
  - destruct H1 as (mid & Hs & Hl). exists mid. split; [done|by apply IH].
Qed.

(** Applying a run to a view of its middle. *)
Lemma shows_overlap view m run1 mid run2 m' :
  sections_lead m run1 mid → sections_lead mid run2 m' → section_shows view mid →
  section_shows (foldl mergeOverviewJournalPatches view (run1 ++ run2)) m'.
Proof.
  intros H1 H2 Hv. apply (shows_run view m); [by apply (sections_lead_app m run1 mid)|].
  intros id k f Hk. destruct (decide (Exists (λ ps, is_Some (patch_at ps id k)) run1)) as [Ht|Ht]; [right; by apply Exists_app; left|].
  left. rewrite (untouched_same m run1 mid id k f Hk H1 Ht). by apply (Hv id k f).
Qed.
End sections.

(** The patches of one section take the previous records to the previous records overwritten
    by the current ones. *)
Lemma section_patches_sound {A} (fields : list (string * (A → GoAny))) (entries : A → A → list (string * option GoAny))
  (zero : A) (id_key : string) (id_of : A → string) (copy : A → A) (cur prev : gmap string A) :
  NoDup fields.*1 → id_key ∉ fields.*1 → (∀ k f r, (k, f) ∈ fields → f (copy r) = f r) →
  map_Forall (λ _ c, ∀ p, Forall2 (entry_sound c p) (entries c p) fields) cur →
  section_sound fields zero
    (Some (section_patches (λ c p, patch_of {[ id_key := str (id_of c) ]} (entries c p)) zero id_key cur prev))
    prev ((copy <$> cur) ∪ prev).
Proof.
  intros Hnd Hid Hcopy Hes i k f Hk. unfold patch_at, section_patches, field_of. cbn [from_option id].
  rewrite map_lookup_imap, lookup_union, lookup_fmap.
  assert (Hne : id_key ≠ k) by (intros ->; apply Hid; by apply (list_elem_of_fmap_2 fst _ (k, f))).
  destruct (cur !! i) as [c|] eqn:Hc; cbn; [|by rewrite (left_id_L None _)].
  rewrite union_Some_l. cbn. rewrite (Hcopy k f c Hk).
  pose proof (patch_of_says c (default zero (prev !! i)) {[ id_key := str (id_of c) ]} _ fields k f
    (Hes i c Hc _) Hnd Hk ltac:(by apply lookup_singleton_ne)) as Hs.
  destruct (patch_of _ _) as [p|]; cbn in Hs |- *; [|done]. by rewrite lookup_insert_ne.
Qed.

Definition delta_sound (d : Delta) (old new : SnapshotPayload) : Prop :=
  section_sound device_fields zeroDeviceDTO (rd_Devices d) (sn_Devices old) (sn_Devices new)
  ∧ section_sound link_fields zeroLinkDTO (rd_Links d) (sn_Links old) (sn_Links new).

(** What a client has: the fields of every device and of every link. *)
Abbreviation View := (gmap string Patch * gmap string Patch)%type (only parsing).
Definition shows (view : View) (s : SnapshotPayload) : Prop :=
  section_shows device_fields zeroDeviceDTO view.1 (sn_Devices s) ∧ section_shows link_fields zeroLinkDTO view.2 (sn_Links s).

Lemma delta_shows view d old new : delta_sound d old new → shows view old → shows (apply_delta view d) new.
Proof. intros [? ?] [? ?]. split; by eapply shows_step. Qed.

(** The copy of a delta means the same. *)
Lemma clone_value_canon v : canon (clone_runtime_value v) = canon v.
Proof. by destruct v as [| |[[|]|]|[]| | |]. Qed.

Lemma patch_at_clone ps i k :
  patch_at (Some (cloneRuntimePatchMap <$> default ∅ ps)) i k = clone_runtime_value <$> patch_at ps i k.
Proof.
  unfold patch_at. cbn [from_option id]. rewrite lookup_fmap. destruct (default ∅ ps !! i) as [p|]; [|done].
  cbn. by rewrite lookup_fmap.
Qed.

Lemma clone_section_sound {A} (fields : list (string * (A → GoAny))) zero ps old new :
  section_sound fields zero ps old new → section_sound fields zero (Some (cloneRuntimePatchMap <$> default ∅ ps)) old new.
Proof.
  intros H i k f Hk. specialize (H i k f Hk). rewrite patch_at_clone. destruct (patch_at ps i k); [|done]. cbn in *.
  by rewrite clone_value_canon.
Qed.

Lemma clone_section_shows {A} (fields : list (string * (A → GoAny))) zero view ps m :
  section_shows fields zero (mergeOverviewJournalPatches view ps) m →
  section_shows fields zero (mergeOverviewJournalPatches view (Some (cloneRuntimePatchMap <$> default ∅ ps))) m.
Proof.
  intros H i k f Hk. specialize (H i k f Hk). rewrite reads_merge in *. rewrite patch_at_clone. destruct (patch_at ps i k); [|done].
  cbn in *. by rewrite clone_value_canon.
Qed.

Lemma clone_delta_sound d old new : delta_sound d old new → delta_sound (CloneRuntimeDeltaPayload (Some d)) old new.
Proof. intros [? ?]. split; by apply clone_section_sound. Qed.

Lemma clone_delta_shows view d s : shows (apply_delta view d) s → shows (apply_delta view (CloneRuntimeDeltaPayload (Some d))) s.
Proof. intros [? ?]. split; by apply clone_section_shows. Qed.

(** Cleared flags are an empty list in the patch and [nil], hence [null], in the message. *)
Lemma cleared_flags_sent_as_nil :
  let current := mkSnapshot {[ "d"%string := mkDeviceDTO "d" "up" "" (Some []) ∅ "" "" "" "" "" "" "" "" "" 0 None None None None None None None "" None ]} ∅ in
  let flagged := mkSnapshot {[ "d"%string := mkDeviceDTO "d" "" "" (Some ["partial_telemetry"%string]) ∅ "" "" "" "" "" "" "" "" "" 0
                                               None None None None None None None "" None ]} ∅ in
  ∃ d, buildRuntimeDeltaPatch (Some current) (Some flagged) = Some d ∧
    patch_at (rd_Devices d) "d" "runtime_flags" = Some (GStrings (Some [])) ∧
    patch_at (rd_Devices (CloneRuntimeDeltaPayload (Some d))) "d" "runtime_flags" = Some (GStrings None).
Proof. cbv zeta. eexists. split; [reflexivity|]. by split. Qed.

(** A run of deltas. *)
Definition deltas_lead (s : SnapshotPayload) (run : list Delta) (s' : SnapshotPayload) : Prop :=
  sections_lead device_fields zeroDeviceDTO (sn_Devices s) (rd_Devices <$> run) (sn_Devices s')
  ∧ sections_lead link_fields zeroLinkDTO (sn_Links s) (rd_Links <$> run) (sn_Links s').

Lemma foldl_apply_delta view (run : list Delta) :
  foldl apply_delta view run =
    (foldl mergeOverviewJournalPatches view.1 (rd_Devices <$> run), foldl mergeOverviewJournalPatches view.2 (rd_Links <$> run)).
Proof. revert view. induction run as [|d run IH]; intros [D L]; [done|]. cbn [foldl fmap list_fmap]. by rewrite IH. Qed.

Lemma deltas_lead_nil s : deltas_lead s [] s.
Proof. by split. Qed.

Lemma deltas_lead_cons s d mid run s' : delta_sound d s mid → deltas_lead mid run s' → deltas_lead s (d :: run) s'.
Proof. intros [? ?] [? ?]. split; by eexists. Qed.

(** A client that has seen the first part of the run already is brought to its end as well. *)
Lemma deltas_overlap view s run1 mid run2 s' :
  deltas_lead s run1 mid → deltas_lead mid run2 s' → shows view mid → shows (foldl apply_delta view (run1 ++ run2)) s'.
Proof.
  intros [HD1 HL1] [HD2 HL2] [HD HL]. rewrite foldl_apply_delta, !fmap_app. split; by eapply shows_overlap.
Qed.

(** ** The delta of a dirty flush *)

(** [cloneDeviceRuntimeForSnapshot]: an empty list of flags becomes [nil]. *)
Definition cloneDeviceRuntimeForSnapshot (r : DeviceRuntimeDTO) : DeviceRuntimeDTO :=
  mkDeviceDTO (rt_DeviceID r) (rt_OperationalStatus r) (rt_PrimaryHealth r)
    (match rt_RuntimeFlags r with Some [] => None | flags => flags end) (rt_FieldStates r)
    (rt_NetworkReachable r) (rt_SNMPReachable r) (rt_Reachability r) (rt_Health r) (rt_Freshness r) (rt_PrimaryReason r)
    (rt_MetricsStatus r) (rt_MetricsReason r) (rt_AlertStatus r) (rt_FiringAlertCount r) (rt_LastCollectedAt r) (rt_LastPolledAt r)
    (rt_ExpectedPollIntervalSeconds r) (rt_CPUPercent r) (rt_MemPercent r) (rt_TempCelsius r) (rt_UptimeSecs r)
    (rt_CollectedAt r) (rt_Stale r).

(** The snapshot part of [applySnapshotDeltaToRuntime]: the records of the delta overwrite those of the base. *)
Definition apply_snapshot_delta (base delta : SnapshotPayload) : SnapshotPayload :=
  mkSnapshot ((cloneDeviceRuntimeForSnapshot <$> sn_Devices delta) ∪ sn_Devices base) (sn_Links delta ∪ sn_Links base).

Definition snapshot_ok (s : SnapshotPayload) : Prop :=
  map_Forall (λ _ r, device_ok r) (sn_Devices s) ∧ map_Forall (λ _ r, link_ok r) (sn_Links s).

Lemma device_fields_nodup : NoDup device_fields.*1 ∧ "device_id" ∉ device_fields.*1.
Proof. split; apply (bool_decide_unpack _); vm_compute; done. Qed.

Lemma link_fields_nodup : NoDup link_fields.*1 ∧ "link_id" ∉ link_fields.*1.
Proof. split; apply (bool_decide_unpack _); vm_compute; done. Qed.

Lemma clone_same_fields k f r : (k, f) ∈ device_fields → f (cloneDeviceRuntimeForSnapshot r) = f r.
Proof.
  intros Hk. unfold device_fields in Hk. rewrite !elem_of_cons in Hk.
  destruct_or! Hk; try (by apply elem_of_nil in Hk); inversion Hk; subst; try reflexivity.
  cbn. by destruct (rt_RuntimeFlags r) as [[|]|].
Qed.

(** The two sections of [buildRuntimeDeltaPatch]. *)
Definition delta_patches (delta previous : SnapshotPayload) : Delta :=
  mkDelta (Some (section_patches buildDeviceRuntimePatch zeroDeviceDTO "device_id" (sn_Devices delta) (sn_Devices previous)))
    (Some (section_patches buildLinkRuntimePatch zeroLinkDTO "link_id" (sn_Links delta) (sn_Links previous))).

Lemma delta_patches_sound delta previous :
  snapshot_ok delta → delta_sound (delta_patches delta previous) previous (apply_snapshot_delta previous delta).
Proof.
  intros [HD HL]. split; cbn [delta_patches rd_Devices rd_Links apply_snapshot_delta sn_Devices sn_Links].
  - eapply (section_patches_sound device_fields device_entries zeroDeviceDTO "device_id" rt_DeviceID).
    + apply device_fields_nodup.
    + apply device_fields_nodup.
    + intros. by eapply clone_same_fields.
    + intros id c Hc p. apply device_entries_sound. by apply (HD id).
  - rewrite <- (map_fmap_id (sn_Links delta)) at 2.
    eapply (section_patches_sound link_fields link_entries zeroLinkDTO "link_id" lr_LinkID _ (sn_Links delta) (sn_Links previous)).
    + apply link_fields_nodup.
    + apply link_fields_nodup.
    + done.
    + intros id c Hc p. apply link_entries_sound. by apply (HL id).
Qed.

Lemma build_sound delta previous d :
  snapshot_ok delta → buildRuntimeDeltaPatch (Some delta) (Some previous) = Some d →
  delta_sound d previous (apply_snapshot_delta previous delta).
Proof.
  intros Hok. unfold buildRuntimeDeltaPatch. cbn [from_option id]. destruct (_ && _); [done|]. intros [= <-].
  by apply delta_patches_sound.
Qed.

(** Without a patch nothing has changed. *)
Lemma build_none delta previous :
  snapshot_ok delta → buildRuntimeDeltaPatch (Some delta) (Some previous) = None →
  deltas_lead previous [] (apply_snapshot_delta previous delta).
Proof.
  intros Hok. unfold buildRuntimeDeltaPatch. cbn [from_option id]. destruct (_ && _) eqn:E; [|done]. intros _.
  apply andb_true_iff in E as [ED%Nat.eqb_eq EL%Nat.eqb_eq]. apply map_size_empty_iff in ED, EL.
  destruct (delta_patches_sound delta previous Hok) as [HD HL]. cbn [delta_patches rd_Devices rd_Links] in HD, HL. rewrite ED in HD.
  rewrite EL in HL. split; intros i k f Hk; [specialize (HD i k f Hk)|specialize (HL i k f Hk)]; unfold patch_at in *; cbn in *.
  - by rewrite lookup_empty in HD.
  - by rewrite lookup_empty in HL.
Qed.

(** The values of a patch are of the types the journal copies without encoding them. *)
Definition plain_entry (e : string * option GoAny) : Prop := from_option plain True e.2.

Lemma patch_of_plain init es p :
  map_Forall (λ _ v, plain v) init → Forall plain_entry es → patch_of init es = Some p → map_Forall (λ _ v, plain v) p.
Proof.
  intros Hi He. unfold patch_of. assert (Hfold : map_Forall (λ _ v, plain v) (foldl add_field (init, false) es).1).
  { generalize false. revert init Hi. induction He as [|[k [v|]] es He _ IH]; intros init Hi b; cbn [foldl]; [done| |by apply IH].
    unfold add_field at 2. cbn [fst snd]. apply IH. by apply map_Forall_insert_2. }
  destruct (foldl _ _ _) as [q []]; [|done]. by intros [= <-].
Qed.

Ltac plain_entries := repeat constructor; unfold plain_entry, addString, addInt, addStringPtr, addFloatPtr, addFlags, addFieldStates,
  runtimeStringPtrValue, runtimeFloatPtrValue; cbn; cases; done.

Lemma section_patches_plain {A} (build : A → A → option Patch) zero id_key (cur prev : gmap string A) :
  (∀ c p q, build c p = Some q → map_Forall (λ _ v, plain v) q) →
  plain_patches (Some (section_patches build zero id_key cur prev)).
Proof.
  intros Hb id o. unfold section_patches. rewrite map_lookup_imap. destruct (cur !! id) as [c|]; [|done]. cbn.
  destruct (build _ _) as [q|] eqn:E; [|done]. intros [= <-]. cbn. apply map_Forall_insert_2; [done|by eapply Hb].
Qed.

Lemma build_plain delta previous d : buildRuntimeDeltaPatch delta previous = Some d → plain_delta d.
Proof.
  unfold buildRuntimeDeltaPatch. destruct delta as [delta|]; [|done]. cbn. destruct (_ && _); [done|]. intros [= <-].
  split; apply section_patches_plain; intros c p q Hq; refine (patch_of_plain _ _ q _ _ Hq); try by apply map_Forall_singleton.
  - plain_entries.
  - plain_entries.
Qed.

(** ** Normalized records *)

(** The store holds no field state without a value. *)
Definition fields_known (ds : DeviceState) : Prop := map_Forall (λ _ f, f ≠ FieldStateNone) (ds_FieldStates ds).

Lemma fieldStates_ok fields :
  map_Forall (λ _ f, f ≠ FieldStateNone) fields →
  validRuntimeFieldStates (fieldStatesForDTO fields) = true ∧ map_Forall (λ _ v, v ≠ "") (fieldStatesForDTO fields).
Proof.
  intros Hf. assert (Hne : map_Forall (λ _ v, v ≠ "") (fieldStatesForDTO fields)).
  { apply map_Forall_union_2; [|by repeat (apply map_Forall_insert_2; [done|]); apply map_Forall_empty].
    intros k v. rewrite lookup_fmap. intros (f & Hk & ->)%fmap_Some. specialize (Hf k f Hk). by destruct f. }
  split; [|done]. assert (Hget : ∀ k, k ∈ ["uptime"; "cpu"; "memory"]%string → is_Some (fieldStatesForDTO fields !! k)).
  { intros k Hk. unfold fieldStatesForDTO. rewrite lookup_union_is_Some. right.
    rewrite !elem_of_cons in Hk. destruct_or! Hk; subst; try by apply elem_of_nil in Hk.
    all: rewrite ?lookup_insert_eq, ?lookup_insert_ne, ?lookup_singleton_eq by done; eauto. }
  apply andb_true_iff. split.
  - apply negb_true_iff, Nat.eqb_neq. intros E%map_size_empty_inv. destruct (Hget "uptime" ltac:(set_solver)) as [v Hv]. by rewrite E in Hv.
  - apply forallb_forall. intros k Hk. rewrite <- list_elem_of_In in Hk. destruct (Hget k Hk) as [v Hv]. rewrite Hv. cbn.
    apply negb_true_iff, String.eqb_neq. by apply (Hne k).
Qed.

Lemma reason_words d ds prom :
  normalizeDevicePrimaryReason d ds prom (normalizeDeviceFreshness ds) ≠ "" ∧
  (normalizeDeviceMetricsStatus d ds prom (normalizeDeviceFreshness ds)).1 ≠ "" ∧
  (normalizeDeviceMetricsStatus d ds prom (normalizeDeviceFreshness ds)).2 ≠ "".
Proof. unfold normalizeDevicePrimaryReason, normalizeDeviceMetricsStatus. split_and!; cases; done. Qed.

Lemma state_words ds :
  normalizeDeviceFreshness ds ≠ "" ∧ normalizeDeviceReachability ds ≠ "" ∧ health_word ds ≠ "" ∧
  PrimaryHealth_string (primaryHealthForDTO ds) ≠ "" ∧ (∀ d reason, normalizeOperationalStatus d ds (normalizeDeviceFreshness ds) reason ≠ "") ∧
  (∀ t, TriState_string (reachabilityEvidenceForDTO t) ≠ "") ∧ ∀ a, AlertStatus_string a ≠ "".
Proof.
  unfold normalizeDeviceFreshness, normalizeDeviceReachability, health_word, primaryHealthForDTO, normalizeOperationalStatus,
    reachabilityEvidenceForDTO. split_and!; intros; [by cases|by cases| | |by cases| |by destruct a].
  - by destruct (ds_Health ds).
  - destruct (ds_PrimaryHealth ds), (ds_Stale ds), (ds_Reachability ds); done.
  - by destruct t.
Qed.

Lemma normalizeDevice_ok d ds alerts prom : fields_known ds → device_ok (normalizeDeviceRuntimeDTO d ds alerts prom).
Proof.
  intros Hf. unfold normalizeDeviceRuntimeDTO. destruct (IsVirtualNoIPDevice d); [|destruct (IsVirtualWithIPDevice d)].
  - split_and!; try (by repeat constructor); by apply fieldStates_ok.
  - unfold normalizeVirtualWithIPDeviceRuntimeDTO.
    destruct (reason_words (with_metrics_source MetricsSourceNone d) (ds <| ds_Metrics := zeroMetrics |>)
      {| ps_Enabled := false; ps_Available := false; ps_Error := "" |}) as (Hr & _ & _).
    destruct (state_words (ds <| ds_Metrics := zeroMetrics |>)) as (? & ? & ? & ? & ? & ? & ?).
    destruct (summarizeAlerts alerts). split_and!; [repeat (apply Forall_cons; split); try done; try apply Forall_nil; match goal with H : _ |- _ => apply H end|done|by apply fieldStates_ok..].
  - destruct (reason_words d ds prom) as (Hr & H1 & H2). destruct (state_words ds) as (? & ? & ? & ? & ? & ? & ?).
    destruct (normalizeDeviceMetricsStatus _ _ _ _), (summarizeAlerts alerts).
    split_and!; [repeat (apply Forall_cons; split); try done; try apply Forall_nil; match goal with H : _ |- _ => apply H end|done|by apply fieldStates_ok..].
Qed.

Lemma inherited_words reasons : (inherited_reason reasons).1 ≠ "" ∧ (inherited_reason reasons).2 ≠ "".
Proof.
  induction reasons as [|r rest IH]; [done|]. cbn [inherited_reason]. destruct (str_in r _) eqn:E; [|done].
  split; [done|]. cbn [snd]. by intros ->.
Qed.

Lemma normalizeLink_ok link metric source target : link_ok (normalizeLinkRuntimeDTO link metric source target).
Proof.
  unfold normalizeLinkRuntimeDTO, normalizeLinkMetricsStatus.
  pose proof (inherited_words [rt_PrimaryReason source; rt_PrimaryReason target; rt_MetricsReason source; rt_MetricsReason target]) as [H1 H2].
  destruct (inherited_reason _) as [status reason]. destruct metric as [m|]; [|done].
  destruct (_ =? 3); [done|]. by destruct (0 <? _).
Qed.

(** Everything the builder produces is normalized. *)
Lemma buildPipelineSnapshot_ok unicode_lower devices links states alerts prom :
  map_Forall (λ _ ds, fields_known ds) states → snapshot_ok (buildPipelineSnapshot unicode_lower devices links states alerts prom).
Proof.
  intros Hs. unfold buildPipelineSnapshot.
  assert (HD : ∀ acc, map_Forall (λ _ r, device_ok r) acc.2 →
    map_Forall (λ _ r, device_ok r) (foldl (λ '(byID, dtos) d, (<[dev_ID d := d]> byID,
       <[uuid_String (dev_ID d) := normalizeDeviceRuntimeDTO d (default zeroDeviceState (states !! dev_ID d))
           (default [] (alerts !! dev_ID d)) prom]> dtos)) (acc : gmap UUID Device * gmap string DeviceRuntimeDTO) devices).2).
  { induction devices as [|d devices IH]; intros [byID dtos] Hacc; [done|]. cbn [foldl]. apply IH. cbn.
    apply map_Forall_insert_2; [|done]. apply normalizeDevice_ok. destruct (states !! dev_ID d) eqn:E; [by apply (Hs (dev_ID d))|done]. }
  specialize (HD (∅, ∅) ltac:(by apply map_Forall_empty)). destruct (foldl _ (∅, ∅) devices) as [byID dtos].
  split; cbn [sn_Devices sn_Links]; [done|].
  match goal with |- map_Forall _ (foldl ?f ∅ links) => generalize (map_Forall_empty (λ (_ : string) r, link_ok r)); generalize (∅ : gmap string LinkRuntimeDTO) end.
  induction links as [|l links IH]; intros acc Hacc; [done|]. cbn [foldl]. apply IH.
  apply map_Forall_insert_2; [apply normalizeLink_ok|done].
Qed.
End patch.
