(* ===== verification/Hub.v ===== *)
(** * Overview streams of the websocket hub

    The part of [internal/ws/hub.go] that keeps one bounded mailbox of overview messages per
    client: queueing of deltas, the mark for a mailbox that overflowed, the atomic replacement
    of a mailbox by a recovery batch, acknowledgements and their ceiling, and the handshake.
    A mailbox holds messages instead of their JSON text; [marshals] says which messages
    [json.Marshal] accepts.  Methods that hold [client.mu] are functions on the client.
    [replaceOverviewStreamPrepared] retries until the state it validated is the state it locks,
    so it is one atomic function here.  The unversioned broadcasts (alerts, health, status),
    the pumps and the connection itself are not part of the model. *)

From S2P Require Import Prelude GoLib Runtime Journal RuntimePatch.

Section hub.
Context {Other : Type}.
Abbreviation Delta := (@RuntimeDeltaPayload Other) (only parsing).

(** ** Data *)

Record RuntimeCursor := mkCursor { cur_StreamID : string; cur_Version : Z; cur_Known : bool }.
#[export] Instance RuntimeCursor_eq_dec : EqDecision RuntimeCursor. Proof. solve_decision. Defined.
Definition zeroCursor : RuntimeCursor := mkCursor "" 0 false.

(** [OverviewSyncMode]; [ModeNone] is the zero value. *)
Inductive OverviewSyncMode := ModeNone | ModeCurrent | ModeReplay | ModeSnapshot.
#[export] Instance OverviewSyncMode_eq_dec : EqDecision OverviewSyncMode. Proof. solve_decision. Defined.

Inductive Message :=
  | MResyncRequired (reason : string) (targetVersion : Z) (streamID : string)
  | MSnapshot (version : Z) (streamID identity : string) (snapshot : SnapshotPayload)
  | MRuntimeReplay (fromVersion version : Z) (streamID : string) (delta : Delta)
  | MReady (version alertVersion : Z) (identity streamID : string) (mode : OverviewSyncMode)
  | MRuntimeDelta (baseVersion version : Z) (streamID : string) (delta : Delta).

(** Messages own copies of what they carry. *)
Definition NewStreamRuntimeDeltaMessage (delta : option Delta) (baseVersion version : Z) (streamID : string) : Message :=
  MRuntimeDelta baseVersion version streamID (CloneRuntimeDeltaPayload delta).
Definition NewRuntimeReplayMessage (delta : option Delta) (fromVersion version : Z) (streamID : string) : Message :=
  MRuntimeReplay fromVersion version streamID (CloneRuntimeDeltaPayload delta).
Definition NewStreamReadyMessage (runtimeVersion alertVersion : Z) (runtimeIdentity streamID : string) (syncMode : OverviewSyncMode) : Message :=
  MReady runtimeVersion alertVersion runtimeIdentity streamID syncMode.

Record OverviewSyncBatch := mkBatch {
  b_Reason : string;
  b_Mode : OverviewSyncMode;
  b_RuntimeStreamID : string;
  b_TargetVersion : Z;
  b_RuntimeIdentity : string;
  b_ReplayCursor : RuntimeCursor;
  b_Replay : option Delta;
  b_Snapshot : option SnapshotPayload;
  b_AlertVersion : Z }.

Record overviewRecoveryState := mkRecovery { rs_streamID : string; rs_targetVersion : Z; rs_mode : OverviewSyncMode }.

Record Client := mkClient {
  cl_closed : bool;
  cl_overviewSend : list Message;
  cl_needsResync : bool;
  cl_overviewEpoch : Z;
  cl_overviewRecoveryGen : Z;
  cl_bootstrapRecoveryGen : Z;
  cl_usesHTTPRuntimeBootstrap : bool;
  cl_bootstrapping : bool;
  cl_runtimeProtocol : Z;
  cl_ackedRuntimeCursor : RuntimeCursor;
  cl_runtimeAckCeiling : RuntimeCursor;
  cl_pendingOverviewRecovery : option overviewRecoveryState;
  cl_pendingRuntimeHelloEcho : option (Z * RuntimeCursor) }.

#[export] Instance upd_cl_closed : Update cl_closed := λ v r,
  mkClient v (cl_overviewSend r) (cl_needsResync r) (cl_overviewEpoch r) (cl_overviewRecoveryGen r) (cl_bootstrapRecoveryGen r) (cl_usesHTTPRuntimeBootstrap r) (cl_bootstrapping r) (cl_runtimeProtocol r) (cl_ackedRuntimeCursor r) (cl_runtimeAckCeiling r) (cl_pendingOverviewRecovery r) (cl_pendingRuntimeHelloEcho r).
#[export] Instance upd_cl_overviewSend : Update cl_overviewSend := λ v r,
  mkClient (cl_closed r) v (cl_needsResync r) (cl_overviewEpoch r) (cl_overviewRecoveryGen r) (cl_bootstrapRecoveryGen r) (cl_usesHTTPRuntimeBootstrap r) (cl_bootstrapping r) (cl_runtimeProtocol r) (cl_ackedRuntimeCursor r) (cl_runtimeAckCeiling r) (cl_pendingOverviewRecovery r) (cl_pendingRuntimeHelloEcho r).
#[export] Instance upd_cl_needsResync : Update cl_needsResync := λ v r,
  mkClient (cl_closed r) (cl_overviewSend r) v (cl_overviewEpoch r) (cl_overviewRecoveryGen r) (cl_bootstrapRecoveryGen r) (cl_usesHTTPRuntimeBootstrap r) (cl_bootstrapping r) (cl_runtimeProtocol r) (cl_ackedRuntimeCursor r) (cl_runtimeAckCeiling r) (cl_pendingOverviewRecovery r) (cl_pendingRuntimeHelloEcho r).
#[export] Instance upd_cl_overviewEpoch : Update cl_overviewEpoch := λ v r,
  mkClient (cl_closed r) (cl_overviewSend r) (cl_needsResync r) v (cl_overviewRecoveryGen r) (cl_bootstrapRecoveryGen r) (cl_usesHTTPRuntimeBootstrap r) (cl_bootstrapping r) (cl_runtimeProtocol r) (cl_ackedRuntimeCursor r) (cl_runtimeAckCeiling r) (cl_pendingOverviewRecovery r) (cl_pendingRuntimeHelloEcho r).
#[export] Instance upd_cl_overviewRecoveryGen : Update cl_overviewRecoveryGen := λ v r,
  mkClient (cl_closed r) (cl_overviewSend r) (cl_needsResync r) (cl_overviewEpoch r) v (cl_bootstrapRecoveryGen r) (cl_usesHTTPRuntimeBootstrap r) (cl_bootstrapping r) (cl_runtimeProtocol r) (cl_ackedRuntimeCursor r) (cl_runtimeAckCeiling r) (cl_pendingOverviewRecovery r) (cl_pendingRuntimeHelloEcho r).
#[export] Instance upd_cl_bootstrapRecoveryGen : Update cl_bootstrapRecoveryGen := λ v r,
  mkClient (cl_closed r) (cl_overviewSend r) (cl_needsResync r) (cl_overviewEpoch r) (cl_overviewRecoveryGen r) v (cl_usesHTTPRuntimeBootstrap r) (cl_bootstrapping r) (cl_runtimeProtocol r) (cl_ackedRuntimeCursor r) (cl_runtimeAckCeiling r) (cl_pendingOverviewRecovery r) (cl_pendingRuntimeHelloEcho r).
#[export] Instance upd_cl_usesHTTPRuntimeBootstrap : Update cl_usesHTTPRuntimeBootstrap := λ v r,
  mkClient (cl_closed r) (cl_overviewSend r) (cl_needsResync r) (cl_overviewEpoch r) (cl_overviewRecoveryGen r) (cl_bootstrapRecoveryGen r) v (cl_bootstrapping r) (cl_runtimeProtocol r) (cl_ackedRuntimeCursor r) (cl_runtimeAckCeiling r) (cl_pendingOverviewRecovery r) (cl_pendingRuntimeHelloEcho r).
#[export] Instance upd_cl_bootstrapping : Update cl_bootstrapping := λ v r,
  mkClient (cl_closed r) (cl_overviewSend r) (cl_needsResync r) (cl_overviewEpoch r) (cl_overviewRecoveryGen r) (cl_bootstrapRecoveryGen r) (cl_usesHTTPRuntimeBootstrap r) v (cl_runtimeProtocol r) (cl_ackedRuntimeCursor r) (cl_runtimeAckCeiling r) (cl_pendingOverviewRecovery r) (cl_pendingRuntimeHelloEcho r).
#[export] Instance upd_cl_runtimeProtocol : Update cl_runtimeProtocol := λ v r,
  mkClient (cl_closed r) (cl_overviewSend r) (cl_needsResync r) (cl_overviewEpoch r) (cl_overviewRecoveryGen r) (cl_bootstrapRecoveryGen r) (cl_usesHTTPRuntimeBootstrap r) (cl_bootstrapping r) v (cl_ackedRuntimeCursor r) (cl_runtimeAckCeiling r) (cl_pendingOverviewRecovery r) (cl_pendingRuntimeHelloEcho r).
#[export] Instance upd_cl_ackedRuntimeCursor : Update cl_ackedRuntimeCursor := λ v r,
  mkClient (cl_closed r) (cl_overviewSend r) (cl_needsResync r) (cl_overviewEpoch r) (cl_overviewRecoveryGen r) (cl_bootstrapRecoveryGen r) (cl_usesHTTPRuntimeBootstrap r) (cl_bootstrapping r) (cl_runtimeProtocol r) v (cl_runtimeAckCeiling r) (cl_pendingOverviewRecovery r) (cl_pendingRuntimeHelloEcho r).
#[export] Instance upd_cl_runtimeAckCeiling : Update cl_runtimeAckCeiling := λ v r,
  mkClient (cl_closed r) (cl_overviewSend r) (cl_needsResync r) (cl_overviewEpoch r) (cl_overviewRecoveryGen r) (cl_bootstrapRecoveryGen r) (cl_usesHTTPRuntimeBootstrap r) (cl_bootstrapping r) (cl_runtimeProtocol r) (cl_ackedRuntimeCursor r) v (cl_pendingOverviewRecovery r) (cl_pendingRuntimeHelloEcho r).
#[export] Instance upd_cl_pendingOverviewRecovery : Update cl_pendingOverviewRecovery := λ v r,
  mkClient (cl_closed r) (cl_overviewSend r) (cl_needsResync r) (cl_overviewEpoch r) (cl_overviewRecoveryGen r) (cl_bootstrapRecoveryGen r) (cl_usesHTTPRuntimeBootstrap r) (cl_bootstrapping r) (cl_runtimeProtocol r) (cl_ackedRuntimeCursor r) (cl_runtimeAckCeiling r) v (cl_pendingRuntimeHelloEcho r).
#[export] Instance upd_cl_pendingRuntimeHelloEcho : Update cl_pendingRuntimeHelloEcho := λ v r,
  mkClient (cl_closed r) (cl_overviewSend r) (cl_needsResync r) (cl_overviewEpoch r) (cl_overviewRecoveryGen r) (cl_bootstrapRecoveryGen r) (cl_usesHTTPRuntimeBootstrap r) (cl_bootstrapping r) (cl_runtimeProtocol r) (cl_ackedRuntimeCursor r) (cl_runtimeAckCeiling r) (cl_pendingOverviewRecovery r) v.

Definition RuntimeStreamProtocolVersion : Z := 2.
Definition overviewBufferSize : nat := 32.

(** The client [ServeHTTP] creates. *)
Definition newClient : Client :=
  mkClient false [] false 0 0 0 false true 0 zeroCursor zeroCursor None None.

Context (marshals : Message → bool).

(** ** Acknowledgement ceiling *)

Definition installRuntimeAckCeilingLocked (streamID : string) (version : Z) (c : Client) : Client :=
  if String.eqb streamID "" then c <| cl_runtimeAckCeiling := zeroCursor |>
  else
    let c := c <| cl_runtimeAckCeiling := mkCursor streamID version true |> in
    let current := cl_ackedRuntimeCursor c in
    if cur_Known current && String.eqb (cur_StreamID current) streamID && (version <? cur_Version current)
    then c <| cl_ackedRuntimeCursor := zeroCursor |> else c.

Definition advanceRuntimeAckCeilingLocked (streamID : string) (version : Z) (c : Client) : Client :=
  if String.eqb streamID "" then c
  else
    let current := cl_runtimeAckCeiling c in
    if cur_Known current && String.eqb (cur_StreamID current) streamID && (version <=? cur_Version current) then c
    else c <| cl_runtimeAckCeiling := mkCursor streamID version true |>.

Definition sanitizeRuntimeCursorForCeilingLocked (cursor : RuntimeCursor) (c : Client) : RuntimeCursor :=
  let ceiling := cl_runtimeAckCeiling c in
  if cur_Known ceiling && String.eqb (cur_StreamID cursor) (cur_StreamID ceiling) && (cur_Version ceiling <? cur_Version cursor)
  then zeroCursor else cursor.

Definition runtimeAckWithinCeilingLocked (cursor : RuntimeCursor) (c : Client) : bool :=
  let ceiling := cl_runtimeAckCeiling c in
  cur_Known ceiling && String.eqb (cur_StreamID cursor) (cur_StreamID ceiling) && (cur_Version cursor <=? cur_Version ceiling).

(** ** Queueing deltas *)

Definition markOverviewRecoveryPendingLocked (streamID : string) (targetVersion : Z) (c : Client) : Client :=
  c <| cl_overviewSend := [] |>
    <| cl_overviewEpoch := cl_overviewEpoch c + 1 |>
    <| cl_needsResync := true |>
    <| cl_pendingOverviewRecovery := Some (mkRecovery streamID targetVersion ModeNone) |>.

(** The send at the end: queued if there is room, otherwise the mailbox overflowed. *)
Definition send_delta (payload : Message) (streamID : string) (version : Z) (c : Client) : bool * Client :=
  if (length (cl_overviewSend c) <? overviewBufferSize)%nat
  then (false, advanceRuntimeAckCeilingLocked streamID version
                 (c <| cl_overviewSend := cl_overviewSend c ++ [payload] |> <| cl_overviewEpoch := cl_overviewEpoch c + 1 |>))
  else (true, markOverviewRecoveryPendingLocked streamID version c).

(** [true] if the mailbox must be replaced. *)
Definition enqueueOverviewStreamDelta (payload : Message) (streamID : string) (baseVersion version : Z) (c : Client)
  : bool * Client :=
  if cl_closed c then (false, c)
  else match cl_pendingOverviewRecovery c with
  | Some pending =>
    if bool_decide (rs_mode pending = ModeNone) then (true, c)
    else if negb (String.eqb (rs_streamID pending) "") && negb (String.eqb streamID "")
            && negb (String.eqb (rs_streamID pending) streamID)
    then (true, markOverviewRecoveryPendingLocked streamID version c)
    else if baseVersion <? rs_targetVersion pending then (false, c)
    else send_delta payload streamID version c
  | None =>
    if cl_needsResync c then (true, markOverviewRecoveryPendingLocked streamID version c)
    else send_delta payload streamID version c
  end.

(** ** Recovery batches *)

Definition overviewSyncClientStateMatchesBatch (batch : OverviewSyncBatch) (c : Client) : bool :=
  match b_Mode batch with
  | ModeCurrent => bool_decide (cl_ackedRuntimeCursor c = mkCursor (b_RuntimeStreamID batch) (b_TargetVersion batch) true)
  | ModeReplay => (RuntimeStreamProtocolVersion <=? cl_runtimeProtocol c) && cur_Known (b_ReplayCursor batch)
                  && bool_decide (cl_ackedRuntimeCursor c = b_ReplayCursor batch)
  | _ => true
  end.

Definition overviewSyncStateMessage (batch : OverviewSyncBatch) : option Message :=
  match b_Mode batch with
  | ModeReplay =>
    match b_Replay batch with
    | Some replay =>
      if negb (cur_Known (b_ReplayCursor batch)) || negb (String.eqb (cur_StreamID (b_ReplayCursor batch)) (b_RuntimeStreamID batch))
         || (b_TargetVersion batch <=? cur_Version (b_ReplayCursor batch))
      then None
      else Some (NewRuntimeReplayMessage (Some replay) (cur_Version (b_ReplayCursor batch)) (b_TargetVersion batch) (b_RuntimeStreamID batch))
    | None => None
    end
  | ModeSnapshot =>
    (λ s, MSnapshot (b_TargetVersion batch) (b_RuntimeStreamID batch) (b_RuntimeIdentity batch) (CloneSnapshot (Some s))) <$> b_Snapshot batch
  | _ => None
  end.

Definition newOverviewResyncMessage (batch : OverviewSyncBatch) : Message :=
  MResyncRequired (b_Reason batch) (b_TargetVersion batch) (b_RuntimeStreamID batch).

(** The messages of the batch; [None] for an error. *)
Definition prepareOverviewSyncBatch (batch : OverviewSyncBatch) : option (list Message) :=
  let ready := NewStreamReadyMessage (b_TargetVersion batch) (b_AlertVersion batch) (b_RuntimeIdentity batch) (b_RuntimeStreamID batch) (b_Mode batch) in
  let messages := match b_Mode batch with
    | ModeCurrent => Some [ready]
    | ModeReplay | ModeSnapshot => (λ m, [newOverviewResyncMessage batch; m; ready]) <$> overviewSyncStateMessage batch
    | ModeNone => None
    end in
  match messages with
  | Some l => if forallb marshals l then Some l else None
  | None => None
  end.

Definition replaceOverviewStreamPrepared (batch : OverviewSyncBatch) (payloads : list Message) (c : Client) : bool * Client :=
  if (overviewBufferSize <? length payloads)%nat then (false, c)
  else if negb (overviewSyncClientStateMatchesBatch batch c) then (false, c)
  else if cl_closed c then (false, c)
  else if match cl_pendingOverviewRecovery c with Some pending => b_TargetVersion batch <? rs_targetVersion pending | None => false end
  then (false, c)
  else
    let c := c <| cl_overviewSend := [] |>
               <| cl_overviewEpoch := cl_overviewEpoch c + 1 |>
               <| cl_overviewRecoveryGen := cl_overviewRecoveryGen c + 1 |>
               <| cl_pendingOverviewRecovery := Some (mkRecovery (b_RuntimeStreamID batch) (b_TargetVersion batch) (b_Mode batch)) |>
               <| cl_needsResync := negb (bool_decide (b_Mode batch = ModeCurrent)) |>
               <| cl_overviewSend := payloads |> in
    (true, installRuntimeAckCeilingLocked (b_RuntimeStreamID batch) (b_TargetVersion batch) c).

Definition ReplaceOverviewStream (batch : OverviewSyncBatch) (c : Client) : bool * Client :=
  if negb (overviewSyncClientStateMatchesBatch batch c) then (false, c)
  else match prepareOverviewSyncBatch batch with
  | None => (false, c)
  | Some payloads => replaceOverviewStreamPrepared batch payloads c
  end.

(** ** Acknowledgements and handshake *)

(** [true] if the pipeline's callback is told. *)
Definition acceptRuntimeAck (cursor : RuntimeCursor) (c : Client) : bool * Client :=
  if negb (cur_Known cursor) then (false, c)
  else if negb (runtimeAckWithinCeilingLocked cursor c) then (false, c)
  else
    let current := cl_ackedRuntimeCursor c in
    let sameStreamAdvance :=
      cur_Known current && String.eqb (cur_StreamID cursor) (cur_StreamID current) && (cur_Version current <? cur_Version cursor) in
    let reached := match cl_pendingOverviewRecovery c with
      | Some pending => String.eqb (rs_streamID pending) (cur_StreamID cursor) && (rs_targetVersion pending <=? cur_Version cursor)
      | None => false
      end in
    let pendingRecoveryCompletion := reached &&
      (negb (cur_Known current) || negb (String.eqb (cur_StreamID cursor) (cur_StreamID current)) || (cur_Version current <=? cur_Version cursor)) in
    if negb sameStreamAdvance && negb pendingRecoveryCompletion then (false, c)
    else
      let c := c <| cl_ackedRuntimeCursor := cursor |> in
      (true, if reached then c <| cl_pendingOverviewRecovery := None |> <| cl_needsResync := false |> else c).

Definition initializeRuntimeHelloLocked (protocol : Z) (cursor : RuntimeCursor) (c : Client) : Client :=
  let c := c <| cl_usesHTTPRuntimeBootstrap := true |> <| cl_runtimeProtocol := protocol |> in
  if cur_Known cursor then c <| cl_ackedRuntimeCursor := sanitizeRuntimeCursorForCeilingLocked cursor c |> else c.

Definition initializeRuntimeQueryHello (protocol : Z) (cursor : RuntimeCursor) (c : Client) : Client :=
  let c := initializeRuntimeHelloLocked protocol cursor c in
  if RuntimeStreamProtocolVersion <=? protocol then c <| cl_pendingRuntimeHelloEcho := Some (protocol, cursor) |> else c.

Definition consumeRuntimeQueryHelloEchoLocked (protocol : Z) (cursor : RuntimeCursor) (c : Client) : bool * Client :=
  (match cl_pendingRuntimeHelloEcho c with
   | Some (p, cur) => (p =? protocol) && bool_decide (cur = cursor)
   | None => false
   end, c <| cl_pendingRuntimeHelloEcho := None |>).

(** [acceptHello] of a client whose handler has a runtime synchronization function: [true] if
    the client asks to be synchronized from its cursor. *)
Definition acceptHello (protocol : Z) (cursor : RuntimeCursor) (c : Client) : bool * Client :=
  let bootstrapping := cl_bootstrapping c in
  let '(echo, c) := consumeRuntimeQueryHelloEchoLocked protocol cursor c in
  let c := if bootstrapping then initializeRuntimeHelloLocked protocol cursor c
           else c <| cl_usesHTTPRuntimeBootstrap := true |> <| cl_runtimeProtocol := protocol |> in
  (negb echo && negb bootstrapping, c).

(** [acceptRuntimeResume] likewise. *)
Definition acceptRuntimeResume (c : Client) : bool := negb (cl_bootstrapping c).

Definition beginBootstrapSnapshotSelection (c : Client) : Client :=
  c <| cl_bootstrapRecoveryGen := cl_overviewRecoveryGen c |>.

(** The state change of [markBootstrapSnapshotSelected]; its result is the updated selection. *)
Definition markBootstrapSnapshotSelected (c : Client) : Client := c <| cl_bootstrapping := false |>.

Definition canReceiveOverviewBroadcast (c : Client) : bool :=
  let completeRecoveryInstalled := negb (cl_overviewRecoveryGen c =? cl_bootstrapRecoveryGen c) in
  negb (cl_closed c) && (negb (cl_bootstrapping c) || completeRecoveryInstalled).

(** ** The hub: clients by identity *)

Abbreviation Hub := (gmap nat Client) (only parsing).

Definition addClient (id : nat) (c : Client) (h : Hub) : Hub := <[id := c]> h.

(** The removed client is closed: its channels accept nothing any more. *)
Definition removeClient (id : nat) (h : Hub) : Hub := delete id h.

Definition HasOverviewClients (h : Hub) : bool := existsb (λ p, canReceiveOverviewBroadcast p.2) (map_to_list h).

(** The loop runs one method per client, each on its own client: the new clients and those
    whose method answered [true]. *)
Definition for_clients (f : Client → bool * Client) (h : Hub) : list nat * Hub :=
  ((filter (λ p, (f p.2).1 = true) (map_to_list h)).*1, (λ c, (f c).2) <$> h).

(** The clients whose mailbox must be replaced. *)
Definition BroadcastOverviewStreamDelta (delta : Delta) (baseVersion version : Z) (streamID : string) (h : Hub) : list nat * Hub :=
  let payload := NewStreamRuntimeDeltaMessage (Some delta) baseVersion version streamID in
  if negb (HasOverviewClients h) || negb (marshals payload) then ([], h)
  else for_clients (λ c, if canReceiveOverviewBroadcast c
                         then enqueueOverviewStreamDelta payload streamID baseVersion version c else (false, c)) h.

(** Every client of the hub, whether it receives broadcasts or not. *)
Definition ReplaceOverviewStreams (batch : OverviewSyncBatch) (h : Hub) : list nat * Hub :=
  match prepareOverviewSyncBatch batch with
  | None => ([], h)
  | Some payloads => for_clients (replaceOverviewStreamPrepared batch payloads) h
  end.
End hub.
