(* ===== verification/Overview.v ===== *)
(** * The overview pipeline

    The overview part of [internal/worker/pipeline.go], [pipeline_snapshot_broadcaster.go],
    [pipeline_runtime_state.go] and the hashing part of [snapshot_builder.go]: building full
    snapshots and dirty deltas, versioning, journaling, publishing to the clients of the hub and
    synchronizing one client.  Each operation runs under [overviewBuildMu].  What an operation
    reads from the cache and from the state store is an [Inputs]; a new stream identifier
    ([uuid.NewString]) is an argument.  [strconv.FormatFloat], [json.Marshal] and [uuid.Parse]
    are parameters.  Metrics, recovery bookkeeping for metrics, and the unversioned broadcasts
    are left out; callbacks are not blocked (the pipeline is running). *)

From S2P Require Import Prelude GoLib GoText Sha256 Domain StateStore Runtime Journal RuntimePatch Hub.

Section overview.
Context {Other : Type}.
Abbreviation Delta := (@RuntimeDeltaPayload Other) (only parsing).
Abbreviation Client := (@Hub.Client Other) (only parsing).
Context (unicode_lower : string → string) (FormatFloat : float64 → string) (uuid_Parse : string → option UUID).
Context (json_snapshot : SnapshotPayload → option (list Z)) (marshals : @Message Other → bool).
Context (Marshal : Delta → option Z) (renormalize : Other → option (@GoAny Other)).

(** ** Identities *)

Definition RuntimeIdentityForSnapshot (s : option SnapshotPayload) : string :=
  match json_snapshot (CloneSnapshot s) with
  | None => ""
  | Some raw => ("rt-sha256:" +:+ string_of (hex_of_bytes (Sum256 raw)))%string
  end.

(** ** Hashes *)

Record sectionHashes := mkHashes { sh_devices : gmap string Z; sh_links : gmap string Z }.

Definition computeSectionHash (data : string) : Z := fnv64a (bytes_of data).
Definition formatFloatPtr (v : option float64) : string := match v with None => "nil" | Some f => FormatFloat f end.
Definition formatStringPtr (v : option string) : string := default "nil" v.
Definition fieldStateHashPart (fields : gmap string string) : string :=
  Join [default "" (fields !! "uptime"); default "" (fields !! "cpu"); default "" (fields !! "memory")]%string ",".

Definition computeDeviceRuntimeHashes (r : DeviceRuntimeDTO) : Z :=
  computeSectionHash (Join
    [rt_DeviceID r; rt_OperationalStatus r; rt_PrimaryHealth r; Join (default [] (rt_RuntimeFlags r)) ","; fieldStateHashPart (rt_FieldStates r);
     rt_NetworkReachable r; rt_SNMPReachable r; rt_Reachability r; rt_Health r; rt_Freshness r; rt_PrimaryReason r; rt_MetricsStatus r;
     rt_MetricsReason r; rt_AlertStatus r; Itoa (rt_FiringAlertCount r); formatStringPtr (rt_LastCollectedAt r);
     formatStringPtr (rt_LastPolledAt r); formatFloatPtr (rt_ExpectedPollIntervalSeconds r); formatFloatPtr (rt_CPUPercent r);
     formatFloatPtr (rt_MemPercent r); formatFloatPtr (rt_TempCelsius r); formatFloatPtr (rt_UptimeSecs r)] "|").

Definition computeLinkRuntimeHash (r : LinkRuntimeDTO) : Z :=
  computeSectionHash (Join
    [lr_LinkID r; lr_SourceDeviceID r; lr_TargetDeviceID r; lr_SourceIfName r; lr_TargetIfName r; lr_MetricsStatus r; lr_MetricsReason r;
     formatStringPtr (lr_LastCollectedAt r); formatFloatPtr (lr_TxBps r); formatFloatPtr (lr_RxBps r); formatFloatPtr (lr_Utilization r)] "|").

Definition computeSnapshotHashes (s : SnapshotPayload) : sectionHashes :=
  mkHashes (computeDeviceRuntimeHashes <$> sn_Devices s) (computeLinkRuntimeHash <$> sn_Links s).

(** The records whose hash is new or has changed. *)
Definition changed_records {A} (records : gmap string A) (current previous : gmap string Z) : gmap string A :=
  filter (λ p, previous !! p.1 ≠ current !! p.1) records.

Definition buildDelta (current : SnapshotPayload) (currentHashes previousHashes : sectionHashes) : option SnapshotPayload :=
  let devices := changed_records (sn_Devices current) (sh_devices currentHashes) (sh_devices previousHashes) in
  let links := changed_records (sn_Links current) (sh_links currentHashes) (sh_links previousHashes) in
  if (size devices =? 0)%nat && (size links =? 0)%nat then None else Some (mkSnapshot devices links).

(** ** State *)

Record pipelineRuntimeState := mkRuntime {
  rtm_lastSnapshot : option SnapshotPayload;
  rtm_overviewVersion : Z;
  rtm_overviewStreamID : string;
  rtm_overviewJournal : @overviewJournal Other;
  rtm_topologyVersion : Z;
  rtm_alertVersion : Z;
  rtm_promStatus : PrometheusStatusPayload;
  rtm_alerts : gmap UUID (list AlertState);
  rtm_previousAlertRuntime : gmap UUID DeviceRuntimeDTO;
  rtm_prevHashes : option sectionHashes }.

(** The runtime state and the clients of the hub. *)
Record Pipeline := mkPipeline { pl_runtime : pipelineRuntimeState; pl_hub : gmap nat Client }.

(** What a build reads: the inventory from the cache, the states from the store. *)
Record Inputs := mkInputs {
  in_devices : result (list Device);
  in_links : result (list Link);
  in_states : gmap UUID DeviceState }.

Definition overviewJournalCapacity : Z := 512.
Definition overviewJournalMaxBytes : Z := Z.shiftl 16 20.

Definition newPipelineRuntimeState (initialPromStatus : PrometheusStatusPayload) (streamID : string) : pipelineRuntimeState :=
  mkRuntime (Some EmptySnapshot) 0 streamID (newOverviewJournal overviewJournalCapacity overviewJournalMaxBytes) 0 0
    initialPromStatus ∅ ∅ None.

#[export] Instance upd_rtm_lastSnapshot : Update rtm_lastSnapshot := λ v r,
  mkRuntime v (rtm_overviewVersion r) (rtm_overviewStreamID r) (rtm_overviewJournal r) (rtm_topologyVersion r) (rtm_alertVersion r) (rtm_promStatus r) (rtm_alerts r) (rtm_previousAlertRuntime r) (rtm_prevHashes r).
#[export] Instance upd_rtm_overviewVersion : Update rtm_overviewVersion := λ v r,
  mkRuntime (rtm_lastSnapshot r) v (rtm_overviewStreamID r) (rtm_overviewJournal r) (rtm_topologyVersion r) (rtm_alertVersion r) (rtm_promStatus r) (rtm_alerts r) (rtm_previousAlertRuntime r) (rtm_prevHashes r).
#[export] Instance upd_rtm_overviewStreamID : Update rtm_overviewStreamID := λ v r,
  mkRuntime (rtm_lastSnapshot r) (rtm_overviewVersion r) v (rtm_overviewJournal r) (rtm_topologyVersion r) (rtm_alertVersion r) (rtm_promStatus r) (rtm_alerts r) (rtm_previousAlertRuntime r) (rtm_prevHashes r).
#[export] Instance upd_rtm_overviewJournal : Update rtm_overviewJournal := λ v r,
  mkRuntime (rtm_lastSnapshot r) (rtm_overviewVersion r) (rtm_overviewStreamID r) v (rtm_topologyVersion r) (rtm_alertVersion r) (rtm_promStatus r) (rtm_alerts r) (rtm_previousAlertRuntime r) (rtm_prevHashes r).
#[export] Instance upd_rtm_topologyVersion : Update rtm_topologyVersion := λ v r,
  mkRuntime (rtm_lastSnapshot r) (rtm_overviewVersion r) (rtm_overviewStreamID r) (rtm_overviewJournal r) v (rtm_alertVersion r) (rtm_promStatus r) (rtm_alerts r) (rtm_previousAlertRuntime r) (rtm_prevHashes r).
#[export] Instance upd_rtm_alertVersion : Update rtm_alertVersion := λ v r,
  mkRuntime (rtm_lastSnapshot r) (rtm_overviewVersion r) (rtm_overviewStreamID r) (rtm_overviewJournal r) (rtm_topologyVersion r) v (rtm_promStatus r) (rtm_alerts r) (rtm_previousAlertRuntime r) (rtm_prevHashes r).
#[export] Instance upd_rtm_promStatus : Update rtm_promStatus := λ v r,
  mkRuntime (rtm_lastSnapshot r) (rtm_overviewVersion r) (rtm_overviewStreamID r) (rtm_overviewJournal r) (rtm_topologyVersion r) (rtm_alertVersion r) v (rtm_alerts r) (rtm_previousAlertRuntime r) (rtm_prevHashes r).
#[export] Instance upd_rtm_alerts : Update rtm_alerts := λ v r,
  mkRuntime (rtm_lastSnapshot r) (rtm_overviewVersion r) (rtm_overviewStreamID r) (rtm_overviewJournal r) (rtm_topologyVersion r) (rtm_alertVersion r) (rtm_promStatus r) v (rtm_previousAlertRuntime r) (rtm_prevHashes r).
#[export] Instance upd_rtm_previousAlertRuntime : Update rtm_previousAlertRuntime := λ v r,
  mkRuntime (rtm_lastSnapshot r) (rtm_overviewVersion r) (rtm_overviewStreamID r) (rtm_overviewJournal r) (rtm_topologyVersion r) (rtm_alertVersion r) (rtm_promStatus r) (rtm_alerts r) v (rtm_prevHashes r).
#[export] Instance upd_rtm_prevHashes : Update rtm_prevHashes := λ v r,
  mkRuntime (rtm_lastSnapshot r) (rtm_overviewVersion r) (rtm_overviewStreamID r) (rtm_overviewJournal r) (rtm_topologyVersion r) (rtm_alertVersion r) (rtm_promStatus r) (rtm_alerts r) (rtm_previousAlertRuntime r) v.

(** [overviewVersion++] *)
Definition next_version (v : Z) : Z := uint64_wrap (v + 1).

(** ** Alerts that show in the overview *)

Definition alertStatesAffectRuntime (alerts : list AlertState) : bool :=
  let '(status, firingCount) := summarizeAlerts alerts in (0 <? firingCount) || negb (bool_decide (status = AlertStatusNormal)).

Definition deviceRuntimeHadAlertEffect (r : DeviceRuntimeDTO) : bool :=
  if 0 <? rt_FiringAlertCount r then true
  else negb (String.eqb (rt_AlertStatus r) "") && negb (EqualFold (rt_AlertStatus r) (AlertStatus_string AlertStatusNormal)).

Definition addCurrentAlertRuntimeDeviceIDs (alerts : gmap UUID (list AlertState)) : gset UUID :=
  dom (filter (λ p, p.1 ≠ uuid_Nil ∧ alertStatesAffectRuntime p.2 = true) alerts).

(** The identifiers under which a snapshot shows an alert. *)
Definition alert_ids (devices : gmap string DeviceRuntimeDTO) : list (UUID * DeviceRuntimeDTO) :=
  omap (λ '(id, r), if deviceRuntimeHadAlertEffect r
                    then match uuid_Parse id with
                         | Some u => if u =? uuid_Nil then None else Some (u, r)
                         | None => None
                         end
                    else None) (map_to_list devices).

Definition addPreviousAlertRuntimeDeviceIDs (s : option SnapshotPayload) : gset UUID :=
  match s with None => ∅ | Some s => list_to_set (alert_ids (sn_Devices s)).*1 end.

(** Only the identifier and the alert fields are kept. *)
Definition alert_summary (r : DeviceRuntimeDTO) : DeviceRuntimeDTO :=
  mkDeviceDTO (rt_DeviceID r) "" "" None ∅ "" "" "" "" "" "" "" "" (rt_AlertStatus r) (rt_FiringAlertCount r)
    None None None None None None None "" None.
Definition alertRuntimeSummaryFromSnapshot (s : option SnapshotPayload) : gmap UUID DeviceRuntimeDTO :=
  match s with None => ∅ | Some s => list_to_map ((λ p, (p.1, alert_summary p.2)) <$> alert_ids (sn_Devices s)) end.

Definition addPreviousAlertRuntimeSummaryDeviceIDs (summary : gmap UUID DeviceRuntimeDTO) : gset UUID :=
  dom (filter (λ p, p.1 ≠ uuid_Nil ∧ deviceRuntimeHadAlertEffect p.2 = true) summary).

Definition alertRuntimeFieldsChanged (current previous : DeviceRuntimeDTO) : bool :=
  negb (String.eqb (rt_AlertStatus current) (rt_AlertStatus previous)) || negb (rt_FiringAlertCount current =? rt_FiringAlertCount previous).

(** ** Building *)

Definition buildFullOverviewSnapshot (i : Inputs) (r : pipelineRuntimeState) : result SnapshotPayload :=
  let! devices := in_devices i in
  let! links := in_links i in
  Ok (buildPipelineSnapshot unicode_lower devices links (in_states i) (rtm_alerts r) (rtm_promStatus r)).

Definition filterDevicesByID (devices : list Device) (ids : gset UUID) : list Device := filter (λ d, dev_ID d ∈ ids) devices.
Definition filterLinksByDeviceID (links : list Link) (ids : gset UUID) : list Link :=
  filter (λ l, lk_SourceDeviceID l ∈ ids ∨ lk_TargetDeviceID l ∈ ids) links.
Definition snapshotPayloadEmpty (s : option SnapshotPayload) : bool :=
  match s with None => true | Some s => (size (sn_Devices s) =? 0)%nat && (size (sn_Links s) =? 0)%nat end.

(** [SnapshotFor] of the identifiers other than nil. *)
Definition states_for (ids : gset UUID) (states : gmap UUID DeviceState) : gmap UUID DeviceState :=
  filter (λ p, p.1 ∈ ids ∧ p.1 ≠ uuid_Nil) states.

(** The records of a snapshot for the identifiers. *)
Definition records_of (ids : list UUID) (devices : gmap string DeviceRuntimeDTO) : gmap string DeviceRuntimeDTO :=
  list_to_map (omap (λ id, (λ r, (uuid_String id, r)) <$> devices !! uuid_String id) ids).

(** Whether the alerts of a device changed what is shown of it. *)
Definition alert_changed (partial : SnapshotPayload) (previousHashes : option sectionHashes)
  (previousAlertRuntime : gmap UUID DeviceRuntimeDTO) (id : UUID) : bool :=
  let deviceID := uuid_String id in
  match sh_devices (computeSnapshotHashes partial) !! deviceID with
  | None => false
  | Some currentHash =>
    match previousHashes with
    | None => alertRuntimeFieldsChanged (default zeroDeviceDTO (sn_Devices partial !! deviceID))
                (default zeroDeviceDTO (previousAlertRuntime !! id))
    | Some h => negb (bool_decide (sh_devices h !! deviceID = Some currentHash))
    end
  end.

(** The identifiers whose alerts were shown before, and whether there is a base to compare with. *)
Definition previous_alert_ids (dirtyDevices : gset UUID) (r : pipelineRuntimeState) : gset UUID * bool :=
  match rtm_lastSnapshot r with
  | Some s => (addPreviousAlertRuntimeDeviceIDs (Some s), true)
  | None =>
    if decide (dirtyDevices = ∅)
    then let ids := addPreviousAlertRuntimeSummaryDeviceIDs (rtm_previousAlertRuntime r) in (ids, negb (bool_decide (ids = ∅)))
    else (∅, false)
  end.

(** The delta ([None] if nothing changed), and whether a full snapshot is required instead. *)
Definition buildDirtyOverviewDelta (i : Inputs) (dirtyDevices : gset UUID) (alertsDirty : bool) (r : pipelineRuntimeState)
  : result (option SnapshotPayload * bool) :=
  if bool_decide (dirtyDevices = ∅) && negb alertsDirty then Ok (None, false)
  else
    let! devices := in_devices i in
    let! links := in_links i in
    let '(previousAlertIDs, available) := if alertsDirty then previous_alert_ids dirtyDevices r else (∅, true) in
    if alertsDirty && negb available then Ok (None, true)
    else
      let previousHashes := match rtm_prevHashes r with
        | Some h => Some h
        | None => if alertsDirty then computeSnapshotHashes <$> rtm_lastSnapshot r else None
        end in
      let filteredDevices := filterDevicesByID devices dirtyDevices in
      let filteredLinks := filterLinksByDeviceID links dirtyDevices in
      let hasDevices := negb (length filteredDevices =? 0)%nat in
      let contextIDs := if hasDevices
        then dirtyDevices ∪ list_to_set ((lk_SourceDeviceID <$> filteredLinks) ++ (lk_TargetDeviceID <$> filteredLinks)) else ∅ in
      let alertDeviceIDs := if alertsDirty then addCurrentAlertRuntimeDeviceIDs (rtm_alerts r) ∪ previousAlertIDs else ∅ in
      let contextIDs := contextIDs ∪ alertDeviceIDs in
      if decide (contextIDs = ∅) then Ok (None, false)
      else
        let partial := buildPipelineSnapshot unicode_lower (filterDevicesByID devices contextIDs) filteredLinks
                         (states_for contextIDs (in_states i)) (rtm_alerts r) (rtm_promStatus r) in
        let dirty := if hasDevices then records_of (elements dirtyDevices) (sn_Devices partial) else ∅ in
        let alerted := if alertsDirty
          then records_of (filter (λ id, alert_changed partial previousHashes (rtm_previousAlertRuntime r) id = true) (elements alertDeviceIDs))
                 (sn_Devices partial)
          else ∅ in
        let delta := mkSnapshot (alerted ∪ dirty) (if hasDevices then sn_Links partial else ∅) in
        if snapshotPayloadEmpty (Some delta) then Ok (None, false) else Ok (Some delta, false).

(** With a base snapshot that is gone, the previous alert fields of the devices of the delta. *)
Definition previousAlertRuntimePatchBase (delta : SnapshotPayload) (summary : gmap UUID DeviceRuntimeDTO) : option SnapshotPayload :=
  let devices := map_imap (λ id r,
    match uuid_Parse id with
    | Some u => if u =? uuid_Nil then None else
      (λ a, mkDeviceDTO (rt_DeviceID r) (rt_OperationalStatus r) (rt_PrimaryHealth r) (rt_RuntimeFlags r) (rt_FieldStates r)
        (rt_NetworkReachable r) (rt_SNMPReachable r) (rt_Reachability r) (rt_Health r) (rt_Freshness r) (rt_PrimaryReason r)
        (rt_MetricsStatus r) (rt_MetricsReason r) (rt_AlertStatus a) (rt_FiringAlertCount a) (rt_LastCollectedAt r) (rt_LastPolledAt r)
        (rt_ExpectedPollIntervalSeconds r) (rt_CPUPercent r) (rt_MemPercent r) (rt_TempCelsius r) (rt_UptimeSecs r)
        (rt_CollectedAt r) (rt_Stale r)) <$> summary !! u
    | None => None
    end) (sn_Devices delta) in
  if (size summary =? 0)%nat || (size devices =? 0)%nat then None else Some (mkSnapshot devices ∅).

Definition applySnapshotDeltaToRuntime (base : option SnapshotPayload) (hashes : option sectionHashes) (delta : SnapshotPayload)
  : SnapshotPayload * sectionHashes :=
  let base := default EmptySnapshot base in
  let hashes := match hashes with Some h => h | None => computeSnapshotHashes base end in
  let values := cloneDeviceRuntimeForSnapshot <$> sn_Devices delta in
  (apply_snapshot_delta base delta,
   mkHashes ((computeDeviceRuntimeHashes <$> values) ∪ sh_devices hashes) ((computeLinkRuntimeHash <$> sn_Links delta) ∪ sh_links hashes)).

(** ** Publishing *)

Record RuntimeOverviewState := mkOverview { os_Snapshot : SnapshotPayload; os_Version : Z; os_StreamID : string }.

(** [CloneSnapshot(p.runtime.lastSnapshot)] with its version and stream. *)
Definition current_state (r : pipelineRuntimeState) : RuntimeOverviewState :=
  mkOverview (CloneSnapshot (rtm_lastSnapshot r)) (rtm_overviewVersion r) (rtm_overviewStreamID r).

Definition replaceOverviewClientsWithSnapshotLocked (state : RuntimeOverviewState) (reason : string) (p : Pipeline) : Pipeline :=
  let batch := mkBatch reason ModeSnapshot (os_StreamID state) (os_Version state) (RuntimeIdentityForSnapshot (Some (os_Snapshot state)))
    zeroCursor None (Some (CloneSnapshot (Some (os_Snapshot state)))) (rtm_alertVersion (pl_runtime p)) in
  mkPipeline (pl_runtime p) (ReplaceOverviewStreams marshals batch (pl_hub p)).2.

(** A new snapshot starts a new stream with an empty journal. *)
Definition publish_snapshot (snapshot : SnapshotPayload) (streamID : string) (r : pipelineRuntimeState) : pipelineRuntimeState :=
  r <| rtm_lastSnapshot := Some snapshot |>
    <| rtm_prevHashes := Some (computeSnapshotHashes snapshot) |>
    <| rtm_overviewVersion := next_version (rtm_overviewVersion r) |>
    <| rtm_overviewStreamID := streamID |>
    <| rtm_overviewJournal := Reset (rtm_overviewJournal r) |>.

Definition ResyncReasonClientResync : string := "client_resync_scheduled".
Definition ResyncReasonStateChangesDrop : string := "state_changes_dropped".

Definition getOrBuildOverviewStateLocked (i : Inputs) (newID : string) (p : Pipeline) : RuntimeOverviewState * Pipeline :=
  let r := pl_runtime p in
  match rtm_prevHashes r with
  | Some _ => (current_state r, p)
  | None =>
    match buildFullOverviewSnapshot i r with
    | Err _ => (current_state r, p)
    | Ok snapshot =>
      let r := publish_snapshot snapshot newID r in
      let p := mkPipeline r (pl_hub p) in
      let state := current_state r in
      (state, if HasOverviewClients (pl_hub p)
              then replaceOverviewClientsWithSnapshotLocked state ResyncReasonClientResync p else p)
    end
  end.

(** The mode selected for a client: current, replay from its cursor, or a full snapshot. *)
Definition select_batch (reason : string) (state : RuntimeOverviewState) (cursor : RuntimeCursor) (protocol : Z) (r : pipelineRuntimeState)
  : @OverviewSyncBatch Other :=
  let make mode replayCursor replay snapshot :=
    mkBatch reason mode (os_StreamID state) (os_Version state) (RuntimeIdentityForSnapshot (Some (os_Snapshot state)))
      replayCursor replay snapshot (rtm_alertVersion r) in
  let full := make ModeSnapshot zeroCursor None (Some (CloneSnapshot (Some (os_Snapshot state)))) in
  let same := cur_Known cursor && String.eqb (cur_StreamID cursor) (os_StreamID state) in
  if same && (cur_Version cursor =? os_Version state) then make ModeCurrent zeroCursor None None
  else if (RuntimeStreamProtocolVersion <=? protocol) && same && (cur_Version cursor <? os_Version state)
  then match Replay Marshal renormalize (cur_Version cursor) (os_Version state) (rtm_overviewJournal r) with
       | Some replay => make ModeReplay cursor (Some replay) None
       | None => full
       end
  else full.

(** The batch the code falls back to when the selected one could not be installed. *)
Definition fallback_batch (state : RuntimeOverviewState) (b : @OverviewSyncBatch Other) : @OverviewSyncBatch Other :=
  mkBatch (b_Reason b) ModeSnapshot (b_RuntimeStreamID b) (b_TargetVersion b) (b_RuntimeIdentity b) zeroCursor None
    (Some (CloneSnapshot (Some (os_Snapshot state)))) (b_AlertVersion b).

Definition install_batch (state : RuntimeOverviewState) (batch : @OverviewSyncBatch Other) (c : Client) : Client :=
  match ReplaceOverviewStream marshals batch c with
  | (true, c) => c
  | (false, c) =>
    if bool_decide (b_Mode batch = ModeReplay) || bool_decide (b_Mode batch = ModeCurrent)
    then (ReplaceOverviewStream marshals (fallback_batch state batch) c).2 else c
  end.

Definition syncOverviewClientLocked (i : Inputs) (newID : string) (id : nat) (cursor : RuntimeCursor) (reason : string) (p : Pipeline)
  : Pipeline :=
  let '(state, p) := getOrBuildOverviewStateLocked i newID p in
  let reason := if String.eqb reason "" then ResyncReasonClientResync else reason in
  match pl_hub p !! id with
  | None => p
  | Some c =>
    let batch := select_batch reason state cursor (cl_runtimeProtocol c) (pl_runtime p) in
    mkPipeline (pl_runtime p) (<[id := install_batch state batch c]> (pl_hub p))
  end.

Definition syncOverflowedOverviewClientsLocked (i : Inputs) (newID : string) (clients : list nat) (reason : string) (p : Pipeline) : Pipeline :=
  foldl (λ p id, match pl_hub p !! id with
                 | Some c => syncOverviewClientLocked i newID id (cl_ackedRuntimeCursor c) reason p
                 | None => p
                 end) p clients.

Definition broadcastTopologyInvalidationLocked (p : Pipeline) : Pipeline :=
  let r := pl_runtime p in
  mkPipeline (r <| rtm_prevHashes := None |> <| rtm_topologyVersion := uint64_wrap (rtm_topologyVersion r + 1) |>) (pl_hub p).

Definition broadcastFullSnapshotWithResyncLocked (i : Inputs) (newID resyncReason : string) (topologyChanged : bool) (p : Pipeline)
  : result Pipeline :=
  let! snapshot := buildFullOverviewSnapshot i (pl_runtime p) in
  let r := publish_snapshot snapshot newID (pl_runtime p) in
  let r := r <| rtm_previousAlertRuntime := alertRuntimeSummaryFromSnapshot (Some snapshot) |> in
  let p := replaceOverviewClientsWithSnapshotLocked (mkOverview snapshot (rtm_overviewVersion r) (rtm_overviewStreamID r)) resyncReason
             (mkPipeline r (pl_hub p)) in
  Ok (if topologyChanged then broadcastTopologyInvalidationLocked p else p).

(** The same with the reason of an ordinary resynchronization. *)
Definition broadcastFullSnapshotLocked (i : Inputs) (newID : string) (topologyChanged : bool) (p : Pipeline) : result Pipeline :=
  broadcastFullSnapshotWithResyncLocked i newID ResyncReasonClientResync topologyChanged p.

Definition markOverviewRuntimeBaseStale (p : Pipeline) : Pipeline :=
  mkPipeline (pl_runtime p <| rtm_prevHashes := None |>) (pl_hub p).
Definition skipOverviewWorkWithoutClientsLocked (p : Pipeline) : bool * Pipeline :=
  if HasOverviewClients (pl_hub p) then (false, p) else (true, markOverviewRuntimeBaseStale p).

(** ** The flush of the broadcast loop *)

(** The end of [broadcastDirty]: the delta becomes a patch against the last snapshot, the next
    version, a journal entry and a message; clients whose mailbox overflowed are synchronized. *)
Definition publish_delta (i : Inputs) (newID : string) (delta : SnapshotPayload) (alertsDirty : bool) (p : Pipeline) : Pipeline :=
  let r := pl_runtime p in
  let previous := match rtm_lastSnapshot r with
    | Some s => Some s
    | None => if alertsDirty then previousAlertRuntimePatchBase delta (rtm_previousAlertRuntime r) else None
    end in
  match buildRuntimeDeltaPatch (Some delta) previous with
  | None => p
  | Some patch =>
    let baseVersion := rtm_overviewVersion r in
    let version := next_version baseVersion in
    let '(merged, currentHashes) := applySnapshotDeltaToRuntime (rtm_lastSnapshot r) (rtm_prevHashes r) delta in
    let r := r <| rtm_lastSnapshot := Some merged |>
               <| rtm_prevHashes := Some currentHashes |>
               <| rtm_previousAlertRuntime := alertRuntimeSummaryFromSnapshot (Some merged) |>
               <| rtm_overviewVersion := version |>
               <| rtm_overviewJournal := Append Marshal renormalize baseVersion version (Some patch) (rtm_overviewJournal r) |> in
    let '(overflowed, hub) := BroadcastOverviewStreamDelta marshals patch baseVersion version (rtm_overviewStreamID r) (pl_hub p) in
    syncOverflowedOverviewClientsLocked i newID overflowed ResyncReasonClientResync (mkPipeline r hub)
  end.

(** [resyncRequired] is the answer of [ConsumeOverflowed] on the state store. *)
Definition broadcastDirty (i : Inputs) (newID : string) (resyncRequired : bool) (dirtyDevices : gset UUID)
  (alertsDirty topologyDirty forceFull : bool) (p : Pipeline) : result Pipeline :=
  if resyncRequired then
    let '(skip, p) := skipOverviewWorkWithoutClientsLocked p in
    if skip then Ok (if topologyDirty then broadcastTopologyInvalidationLocked p else p)
    else broadcastFullSnapshotWithResyncLocked i newID ResyncReasonStateChangesDrop topologyDirty p
  else if topologyDirty then Ok (broadcastTopologyInvalidationLocked p)
  else if forceFull then
    let '(skip, p) := skipOverviewWorkWithoutClientsLocked p in
    if skip then Ok p else broadcastFullSnapshotLocked i newID false p
  else if bool_decide (dirtyDevices = ∅) && negb alertsDirty then Ok p
  else
    let '(skip, p) := skipOverviewWorkWithoutClientsLocked p in
    if skip then Ok p
    else
      let r := pl_runtime p in
      if bool_decide (rtm_prevHashes r = None) || snapshotPayloadEmpty (rtm_lastSnapshot r)
      then broadcastFullSnapshotLocked i newID false p
      else
        let! built := buildDirtyOverviewDelta i dirtyDevices alertsDirty r in
        match built with
        | (_, true) => broadcastFullSnapshotLocked i newID false p
        | (None, false) => Ok p
        | (Some delta, false) => Ok (publish_delta i newID delta alertsDirty p)
        end.

(** The first broadcast of a run; [drainedTopology] tells whether a topology notification was
    waiting. *)
Definition broadcastOnce (i : Inputs) (newID : string) (drainedTopology : bool) (p : Pipeline) : Pipeline :=
  match in_devices i with
  | Err _ => p
  | Ok devices =>
    let links := match in_links i with Ok links => links | Err _ => [] end in
    let r := pl_runtime p in
    let previousSnapshot := CloneSnapshot (rtm_lastSnapshot r) in
    let snapshot := buildPipelineSnapshot unicode_lower devices links (in_states i) (rtm_alerts r) (rtm_promStatus r) in
    let currentHashes := computeSnapshotHashes snapshot in
    let r' := r <| rtm_lastSnapshot := Some snapshot |> <| rtm_prevHashes := Some currentHashes |>
                <| rtm_previousAlertRuntime := alertRuntimeSummaryFromSnapshot (Some snapshot) |> in
    let p := match rtm_prevHashes r with
      | None =>
        let r' := r' <| rtm_overviewVersion := next_version (rtm_overviewVersion r) |> <| rtm_overviewStreamID := newID |>
                     <| rtm_overviewJournal := Reset (rtm_overviewJournal r) |> in
        replaceOverviewClientsWithSnapshotLocked (mkOverview snapshot (rtm_overviewVersion r') newID) ResyncReasonClientResync
          (mkPipeline r' (pl_hub p))
      | Some previousHashes =>
        match buildRuntimeDeltaPatch (buildDelta snapshot currentHashes previousHashes) (Some previousSnapshot) with
        | None => mkPipeline r' (pl_hub p)
        | Some patch =>
          let baseVersion := rtm_overviewVersion r in
          let version := next_version baseVersion in
          let r' := r' <| rtm_overviewVersion := version |>
                       <| rtm_overviewJournal := Append Marshal renormalize baseVersion version (Some patch) (rtm_overviewJournal r) |> in
          let '(overflowed, hub) := BroadcastOverviewStreamDelta marshals patch baseVersion version (rtm_overviewStreamID r') (pl_hub p) in
          syncOverflowedOverviewClientsLocked i newID overflowed ResyncReasonClientResync (mkPipeline r' hub)
        end
      end in
    if drainedTopology then broadcastTopologyInvalidationLocked p else p
  end.
End overview.
