(* ===== verification/StreamInv.v ===== *)
(** * Overview streams end to end

    The pipeline and the hub together with the viewers at the other end of the connections.
    A viewer follows the protocol of the stream (the comments of [ws/messages.go], implemented
    by the frontend in [hooks/websocket/runtimeState.ts] and [runtimeRecovery.ts]): it takes a
    snapshot that is not older than what it has, applies a delta of its stream exactly at its
    base version and a replay anywhere in its range, and acknowledges only cursors it has
    reached.  Messages travel in order from the mailbox over the network.  [wd_history] records,
    for every version the pipeline ever published, its stream and its snapshot. *)

From S2P Require Import Prelude GoLib Domain StateStore Runtime Journal RuntimePatch Hub Overview.

Section stream.
Context {Other : Type}.
Abbreviation Delta := (@RuntimeDeltaPayload Other) (only parsing).
Abbreviation Client := (@Hub.Client Other) (only parsing).
Abbreviation Message := (@Hub.Message Other) (only parsing).
Abbreviation Pipeline := (@Overview.Pipeline Other) (only parsing).
Abbreviation View := (gmap string (gmap string (@GoAny Other)) * gmap string (gmap string (@GoAny Other)))%type (only parsing).
Context (unicode_lower : string → string) (FormatFloat : float64 → string) (uuid_Parse : string → option UUID).
Context (json_snapshot : SnapshotPayload → option (list Z)) (marshals : Message → bool).
Context (Marshal : Delta → option Z) (renormalize : Other → option (@GoAny Other)).

(** ** Viewers *)

(** A record as the fields it has on the wire. *)
Definition wire_record {A} (fields : list (string * (A → @GoAny Other))) (r : A) : gmap string (@GoAny Other) :=
  list_to_map ((λ kf, (kf.1, kf.2 r)) <$> fields).
Definition wire (s : SnapshotPayload) : View :=
  (wire_record device_fields <$> sn_Devices s, wire_record link_fields <$> sn_Links s).

Record Viewer := mkViewer {
  vw_net : list Message;
  vw_cursor : RuntimeCursor;
  vw_view : View;
  vw_claims : list RuntimeCursor }.

(** What the viewer holds after one message. *)
Definition receive (held : RuntimeCursor * View) (m : Message) : RuntimeCursor * View :=
  let '(cursor, view) := held in
  match m with
  | MSnapshot version streamID _ snapshot =>
    if cur_Known cursor && (version <? cur_Version cursor) then held else (mkCursor streamID version true, wire snapshot)
  | MRuntimeDelta baseVersion version streamID delta =>
    if cur_Known cursor && String.eqb (cur_StreamID cursor) streamID && (cur_Version cursor =? baseVersion)
    then (mkCursor streamID version true, apply_delta view delta) else held
  | MRuntimeReplay fromVersion version streamID delta =>
    if cur_Known cursor && String.eqb (cur_StreamID cursor) streamID && (fromVersion <=? cur_Version cursor)
       && (cur_Version cursor <? version)
    then (mkCursor streamID version true, apply_delta view delta) else held
  | MResyncRequired _ _ _ | MReady _ _ _ _ _ => held
  end.

(** ** The world *)

Record World := mkWorld {
  wd_pipeline : Pipeline;
  wd_viewers : gmap nat Viewer;
  wd_history : gmap Z (string * SnapshotPayload) }.

Abbreviation runtime_of w := (pl_runtime (wd_pipeline w)) (only parsing).
Abbreviation hub_of w := (pl_hub (wd_pipeline w)) (only parsing).

(** The version the pipeline has, with its stream and snapshot, unless it was published before. *)
Definition record_version (p : Pipeline) (h : gmap Z (string * SnapshotPayload)) : gmap Z (string * SnapshotPayload) :=
  let r := pl_runtime p in
  match h !! rtm_overviewVersion r with
  | Some _ => h
  | None => <[rtm_overviewVersion r := (rtm_overviewStreamID r, default EmptySnapshot (rtm_lastSnapshot r))]> h
  end.

Definition publish (p : Pipeline) (w : World) : World := mkWorld p (wd_viewers w) (record_version p (wd_history w)).
Definition with_client (id : nat) (c : Client) (w : World) : World :=
  mkWorld (mkPipeline (runtime_of w) (<[id := c]> (hub_of w))) (wd_viewers w) (wd_history w).
Definition with_viewer (id : nat) (v : Viewer) (w : World) : World :=
  mkWorld (wd_pipeline w) (<[id := v]> (wd_viewers w)) (wd_history w).

Definition world0 (prom : PrometheusStatusPayload) (streamID : string) : World :=
  let r := newPipelineRuntimeState prom streamID in
  mkWorld (mkPipeline r ∅) ∅ {[ 0 := (streamID, EmptySnapshot) ]}.

(** The states of the store have a value for every field, and the stream identifier is new;
    there are fewer than 2^64 versions. *)
Definition inputs_ok (i : Inputs) (newID : string) (w : World) : Prop :=
  map_Forall (λ _ ds, fields_known ds) (in_states i) ∧ (∀ v st s, wd_history w !! v = Some (st, s) → st ≠ newID) ∧
  rtm_overviewVersion (runtime_of w) + 1 < 2 ^ 64.

(** The precondition of the first broadcast when there is a base already: records with the same
    hash agree, and no record has disappeared. *)
Definition section_faithful {A} (fields : list (string * (A → @GoAny Other))) (zero : A) (hash : A → Z) (new last : gmap string A)
  (hashes : gmap string Z) : Prop :=
  (∀ id c, new !! id = Some c → hashes !! id = Some (hash c) →
     ∀ k f, (k, f) ∈ fields → canon (f c) = canon (field_of zero f last id)) ∧
  (∀ id, is_Some (last !! id) → is_Some (new !! id)).
Definition once_ok (i : Inputs) (p : Pipeline) : Prop :=
  ∀ h devices last, rtm_prevHashes (pl_runtime p) = Some h → in_devices i = Ok devices → rtm_lastSnapshot (pl_runtime p) = Some last →
  let new := buildPipelineSnapshot unicode_lower devices (match in_links i with Ok l => l | Err _ => [] end) (in_states i)
               (rtm_alerts (pl_runtime p)) (rtm_promStatus (pl_runtime p)) in
  section_faithful device_fields zeroDeviceDTO (computeDeviceRuntimeHashes FormatFloat) (sn_Devices new) (sn_Devices last) (sh_devices h) ∧
  section_faithful link_fields zeroLinkDTO (computeLinkRuntimeHash FormatFloat) (sn_Links new) (sn_Links last) (sh_links h).

(** What a viewer may claim to have: nothing, or a cursor it has held. *)
Definition claimed (v : Viewer) (cursor : RuntimeCursor) : Prop := cur_Known cursor = false ∨ cursor ∈ vw_claims v.

(** What a viewer brings along from before is a published version. *)
Definition holds_published (h : gmap Z (string * SnapshotPayload)) (cursor : RuntimeCursor) (view : View) : Prop :=
  cur_Known cursor = true → ∃ s, h !! cur_Version cursor = Some (cur_StreamID cursor, s) ∧ shows view s.

Inductive step (w : World) : World → Prop :=
| SDirty i newID resync dirty alertsDirty topologyDirty forceFull p :
    inputs_ok i newID w →
    broadcastDirty unicode_lower FormatFloat uuid_Parse json_snapshot marshals Marshal renormalize i newID resync dirty
      alertsDirty topologyDirty forceFull (wd_pipeline w) = Ok p →
    step w (publish p w)
| SOnce i newID drained :
    inputs_ok i newID w → once_ok i (wd_pipeline w) →
    step w (publish (broadcastOnce unicode_lower FormatFloat uuid_Parse json_snapshot marshals Marshal renormalize i newID drained
                       (wd_pipeline w)) w)
| SGet i newID :
    inputs_ok i newID w →
    step w (publish (getOrBuildOverviewStateLocked unicode_lower FormatFloat json_snapshot marshals i newID (wd_pipeline w)).2 w)
| SSync i newID id cursor reason :
    inputs_ok i newID w →
    step w (publish (syncOverviewClientLocked unicode_lower FormatFloat json_snapshot marshals Marshal renormalize i newID id cursor reason
                       (wd_pipeline w)) w)
| SAlerts alerts alertVersion prom :
    step w (mkWorld (mkPipeline (runtime_of w <| rtm_alerts := alerts |> <| rtm_alertVersion := alertVersion |> <| rtm_promStatus := prom |>)
                       (hub_of w)) (wd_viewers w) (wd_history w))
| SConnect id protocol cursor view :
    wd_viewers w !! id = None → holds_published (wd_history w) cursor view →
    step w (with_viewer id (mkViewer [] cursor view [cursor])
             (with_client id (beginBootstrapSnapshotSelection (initializeRuntimeQueryHello protocol cursor newClient)) w))
| SConnectSilent id cursor view :
    wd_viewers w !! id = None → holds_published (wd_history w) cursor view →
    step w (with_viewer id (mkViewer [] cursor view [cursor]) (with_client id (beginBootstrapSnapshotSelection newClient) w))
| SHello id v c protocol cursor :
    wd_viewers w !! id = Some v → hub_of w !! id = Some c → claimed v cursor →
    step w (with_client id (acceptHello protocol cursor c).2 w)
| SAck id v c cursor :
    wd_viewers w !! id = Some v → hub_of w !! id = Some c → claimed v cursor →
    step w (with_client id (acceptRuntimeAck cursor c).2 w)
| SBootstrapped id c : hub_of w !! id = Some c → step w (with_client id (markBootstrapSnapshotSelected c) w)
| SWrite id v c m rest :
    wd_viewers w !! id = Some v → hub_of w !! id = Some c → cl_overviewSend c = m :: rest →
    step w (with_viewer id (mkViewer (vw_net v ++ [m]) (vw_cursor v) (vw_view v) (vw_claims v))
             (with_client id (c <| cl_overviewSend := rest |>) w))
| SReceive id v m rest cursor view :
    wd_viewers w !! id = Some v → vw_net v = m :: rest → receive (vw_cursor v, vw_view v) m = (cursor, view) →
    step w (with_viewer id (mkViewer rest cursor view (cursor :: vw_claims v)) w)
| SDisconnect id :
    step w (mkWorld (mkPipeline (runtime_of w) (removeClient id (hub_of w))) (delete id (wd_viewers w)) (wd_history w)).

Inductive reachable : World → Prop :=
| reachable_init prom streamID : reachable (world0 prom streamID)
| reachable_step w w' : reachable w → step w w' → reachable w'.
End stream.

(** * What holds of every message, cursor and mailbox of the overview streams

    [msg_sound]: what a message says about the history of published versions.  [runtime_ok]: the
    pipeline's own state agrees with the history.  [client_ok]: a client's claims are true, and
    draining its connection brings its viewer to the current version. *)


Section inv.
Context {Other : Type}.
Abbreviation Delta := (@RuntimeDeltaPayload Other) (only parsing).
Abbreviation Client := (@Hub.Client Other) (only parsing).
Abbreviation Message := (@Hub.Message Other) (only parsing).
Abbreviation Viewer := (@StreamInv.Viewer Other) (only parsing).
Abbreviation View := (gmap string (gmap string (@GoAny Other)) * gmap string (gmap string (@GoAny Other)))%type (only parsing).
Abbreviation History := (gmap Z (string * SnapshotPayload)) (only parsing).
Abbreviation Runtime := (@pipelineRuntimeState Other) (only parsing).

(** ** Snapshots with the same fields *)

Definition same_fields (s s' : SnapshotPayload) : Prop := @deltas_lead Other s [] s'.

Lemma same_fields_refl s : same_fields s s.
Proof. apply deltas_lead_nil. Qed.

Lemma same_fields_trans s1 s2 s3 : same_fields s1 s2 → same_fields s2 s3 → same_fields s1 s3.
Proof. intros [HD HL] [HD' HL']. split; intros id k f Hk; [rewrite (HD id k f Hk)|rewrite (HL id k f Hk)]; eauto. Qed.

Lemma same_fields_sym s s' : same_fields s s' → same_fields s' s.
Proof. intros [HD HL]. split; intros id k f Hk; symmetry; eauto. Qed.

Lemma shows_same (view : View) s s' : same_fields s s' → shows view s → shows view s'.
Proof. intros [HD HL] [HD' HL']. split; intros id k f Hk; [rewrite <- (HD id k f Hk)|rewrite <- (HL id k f Hk)]; eauto. Qed.

Lemma delta_sound_same (d : Delta) old old' new new' :
  same_fields old old' → same_fields new new' → delta_sound d old' new → delta_sound d old new'.
Proof.
  intros [HD HL] [HD' HL'] [HdD HdL]. split; intros id k f Hk.
  - specialize (HdD id k f Hk). specialize (HD id k f Hk). specialize (HD' id k f Hk).
    destruct (patch_at _ _ _); simpl in *; congruence.
  - specialize (HdL id k f Hk). specialize (HL id k f Hk). specialize (HL' id k f Hk).
    destruct (patch_at _ _ _); simpl in *; congruence.
Qed.

Lemma wire_section_shows {A} (fields : list (string * (A → @GoAny Other))) (zero : A) (m : gmap string A) :
  NoDup fields.*1 → section_shows fields zero (wire_record fields <$> m) m.
Proof.
  intros Hnd id k f Hk. unfold reads, field_of. rewrite lookup_fmap. destruct (m !! id) as [r|]; cbn; [|by rewrite lookup_empty].
  unfold wire_record. rewrite (elem_of_list_to_map_1 _ k (f r)); [done| |].
  - rewrite <- list_fmap_compose. done.
  - apply list_elem_of_fmap. by exists (k, f).
Qed.

Lemma wire_shows s : shows (@wire Other s) s.
Proof. split; apply wire_section_shows; [apply device_fields_nodup|apply link_fields_nodup]. Qed.

Lemma clone_same s : same_fields s (CloneSnapshot (Some s)).
Proof.
  split; intros id k f Hk; unfold field_of; cbn [CloneSnapshot sn_Devices sn_Links]; [|done].
  rewrite lookup_fmap. destruct (sn_Devices s !! id) as [r|]; [|done]. cbn.
  unfold device_fields in Hk. rewrite !elem_of_cons in Hk.
  destruct_or! Hk; try (by apply elem_of_nil in Hk); inversion Hk; subst; reflexivity.
Qed.

(** ** Messages *)

Definition msg_sound (h : History) (m : Message) : Prop :=
  match m with
  | MSnapshot version st _ s => ∃ s0, h !! version = Some (st, s0) ∧ same_fields s0 s
  | MRuntimeDelta base version st d =>
    base < version ∧ ∃ s0 s1, h !! base = Some (st, s0) ∧ h !! version = Some (st, s1) ∧ delta_sound d s0 s1
  | MRuntimeReplay from version st d =>
    from < version ∧ ∃ s, h !! version = Some (st, s) ∧
      ∀ u, from <= u < version → ∃ su, h !! u = Some (st, su) ∧ ∀ view, shows view su → shows (apply_delta view d) s
  | _ => True
  end.

Lemma msg_sound_mono h h' m : h ⊆ h' → msg_sound h m → msg_sound h' m.
Proof.
  intros Hh. destruct m as [|v st i s|f v st d| |b v st d]; cbn; try done.
  - intros (s0 & H0 & ?). exists s0. split; [by apply (lookup_weaken h)|done].
  - intros (? & s & Hs & Hu). split; [done|]. exists s. split; [by apply (lookup_weaken h)|].
    intros u Hr. destruct (Hu u Hr) as (su & Hsu & ?). exists su. split; [by apply (lookup_weaken h)|done].
  - intros (? & s0 & s1 & H0 & H1 & ?). split; [done|]. exists s0, s1. split_and!; [by apply (lookup_weaken h)..|done].
Qed.

Lemma holds_mono h h' cursor (view : View) : h ⊆ h' → holds_published h cursor view → holds_published h' cursor view.
Proof. intros Hh Hp Hk. destruct (Hp Hk) as (s & Hs & ?). exists s. split; [by apply (lookup_weaken h)|done]. Qed.

(** A viewer only moves forward. *)
Definition no_older (a b : RuntimeCursor) : Prop := cur_Known a = true → cur_Known b = true ∧ cur_Version a <= cur_Version b.

Lemma no_older_refl a : no_older a a.
Proof. by intros. Qed.

Lemma no_older_trans a b c : no_older a b → no_older b c → no_older a c.
Proof. intros H1 H2 Ha. destruct (H1 Ha) as [Hb ?]. destruct (H2 Hb). split; [done|lia]. Qed.

(** What a viewer holds stays a published version, whatever sound message it receives. *)
Lemma receive_sound h held m :
  msg_sound h m → holds_published h held.1 held.2 →
  holds_published h (receive held m).1 (receive held m).2 ∧ no_older held.1 (receive held m).1.
Proof.
  destruct held as [cursor view]. intros Hm Hp. cbn [fst snd] in Hp.
  destruct m as [r t st|v st i s|f v st d|v a i st mo|b v st d]; cbn [receive]; try (by split; [done|apply no_older_refl]).
  - destruct (cur_Known cursor && _) eqn:E; [by split; [|apply no_older_refl]|].
    destruct Hm as (s0 & H0 & Hs). split; cbn.
    + intros _. exists s0. split; [done|]. apply (shows_same _ s); [by apply same_fields_sym|apply wire_shows].
    + intros Hk. rewrite Hk in E. cbn in *. to_prop. by split.
  - destruct (_ && _) eqn:E; [|by split; [|apply no_older_refl]]. to_prop.
    match goal with H : (_ =? _)%string = true |- _ => apply String.eqb_eq in H; rename H into Est end.
    destruct Hm as (Hlt & s & Hs & Hu). destruct (Hp ltac:(done)) as (s0 & Hs0 & Hv).
    destruct (Hu (cur_Version cursor)) as (su & Hsu & Happ); [lia|]. rewrite Hs0 in Hsu. simplify_eq.
    split; cbn; [|by intros _; split; [done|cbn; lia]]. intros _. exists s. split; [done|by apply Happ].
  - destruct (_ && _) eqn:E; [|by split; [|apply no_older_refl]]. to_prop.
    match goal with H : (_ =? _)%string = true |- _ => apply String.eqb_eq in H; rename H into Est end.
    destruct Hm as (Hlt & s0 & s1 & Hs0 & Hs1 & Hd). destruct (Hp ltac:(done)) as (s & Hs & Hv). subst b. rewrite Hs0 in Hs. simplify_eq.
    split; cbn; [|by intros _; split; [done|cbn; lia]]. intros _. exists s1. split; [done|by apply (delta_shows _ _ s)].
Qed.

Lemma receive_all h held ms :
  Forall (msg_sound h) ms → holds_published h held.1 held.2 →
  holds_published h (foldl receive held ms).1 (foldl receive held ms).2 ∧ no_older held.1 (foldl receive held ms).1.
Proof.
  intros Hms. revert held. induction Hms as [|m ms Hm _ IH]; intros held Hp; cbn [foldl]; [by split; [|apply no_older_refl]|].
  destruct (receive_sound h held m Hm Hp) as [Hp' Ho]. destruct (IH _ Hp') as [? ?]. split; [done|by eapply no_older_trans].
Qed.

(** ** The pipeline's state and the history *)

Definition entry_ok (h : History) (st : string) (e : @overviewJournalEntry Other) : Prop :=
  ∃ s0 s1, h !! je_baseVersion e = Some (st, s0) ∧ h !! je_version e = Some (st, s1) ∧ delta_sound (je_delta e) s0 s1.

Record runtime_ok (h : History) (r : Runtime) : Prop := {
  ro_version : 0 <= rtm_overviewVersion r < 2 ^ 64;
  ro_last : ∃ s s0, rtm_lastSnapshot r = Some s ∧ h !! rtm_overviewVersion r = Some (rtm_overviewStreamID r, s0) ∧ same_fields s0 s;
  ro_hist : ∀ u e, h !! u = Some e → u <= rtm_overviewVersion r;
  ro_stream : ∀ u s, h !! u = Some (rtm_overviewStreamID r, s) → ∀ u', u <= u' <= rtm_overviewVersion r →
    ∃ s', h !! u' = Some (rtm_overviewStreamID r, s');
  ro_journal : journal_ok (rtm_overviewJournal r);
  ro_entries : Forall (entry_ok h (rtm_overviewStreamID r)) (j_entries (rtm_overviewJournal r)) }.

Lemma entry_ok_mono h h' st e : h ⊆ h' → entry_ok h st e → entry_ok h' st e.
Proof. intros Hh (s0 & s1 & ? & ? & ?). exists s0, s1. split_and!; [by apply (lookup_weaken h)..|done]. Qed.

Lemma chain_steps (entries : list (@overviewJournalEntry Other)) e :
  chain entries → e ∈ entries → je_version e = je_baseVersion e + 1.
Proof.
  induction entries as [|x entries IH]; [by intros _ ?%elem_of_nil|]. intros Hc [->|He]%elem_of_cons; [apply Hc|].
  apply IH; [by eapply chain_tail|done].
Qed.

(** A run of unit steps passes through every version in between. *)
Lemma leads_split from (run : list (@overviewJournalEntry Other)) target u :
  leads from run target → Forall (λ e, je_version e = je_baseVersion e + 1) run → from <= u <= target →
  ∃ run1 run2, run = run1 ++ run2 ∧ leads from run1 u ∧ leads u run2 target.
Proof.
  intros Hl Hs. revert from Hl. induction Hs as [|e run He _ IH]; intros from Hl Hu; cbn [leads] in Hl.
  - exists [], []. subst. split_and!; cbn; try done; lia.
  - destruct Hl as [Hb Hl]. destruct (decide (u = from)) as [->|Hne].
    + exists [], (e :: run). by split_and!.
    + destruct (IH _ Hl) as (run1 & run2 & -> & H1 & H2); [lia|]. by exists (e :: run1), run2.
Qed.

Lemma entries_lead h st from (run : list (@overviewJournalEntry Other)) target s :
  leads from run target → Forall (entry_ok h st) run → h !! from = Some (st, s) →
  ∃ s', h !! target = Some (st, s') ∧ deltas_lead s (je_delta <$> run) s'.
Proof.
  intros Hl Hok. revert from s Hl. induction Hok as [|e run He _ IH]; intros from s Hl Hs; cbn [leads] in Hl.
  - subst. exists s. split; [done|apply deltas_lead_nil].
  - destruct Hl as [<- Hl]. destruct He as (s0 & s1 & H0 & H1 & Hd). rewrite H0 in Hs. simplify_eq.
    destruct (IH _ _ Hl H1) as (s' & Hs' & Hlead). exists s'. split; [done|by apply (deltas_lead_cons s _ s1)].
Qed.

Context (Marshal : Delta → option Z) (renormalize : Other → option (@GoAny Other)).
Hypothesis HR : renormalizes renormalize.

(** A replay is a sound message from any version in its range. *)
Lemma replay_message h r from d s :
  runtime_ok h r → h !! from = Some (rtm_overviewStreamID r, s) →
  Replay Marshal renormalize from (rtm_overviewVersion r) (rtm_overviewJournal r) = Some d →
  msg_sound h (NewRuntimeReplayMessage (Some d) from (rtm_overviewVersion r) (rtm_overviewStreamID r)).
Proof.
  intros Hr Hfrom. unfold Replay. destruct (_ <=? _) eqn:Hlt; [done|]. to_prop. intros Hrep.
  pose proof (ro_journal h r Hr) as Hj. pose proof (ro_entries h r Hr) as He.
  destruct (replay_loop_sound Marshal renormalize _ _ _ ∅ ∅ _ d (jo_plain _ Hj) plain_empty plain_empty Hrep)
    as (mid & post & Hf & _ & Hl & Happ).
  assert (Hmid : ∀ e, e ∈ mid → e ∈ j_entries (rtm_overviewJournal r)).
  { intros e Hin. assert (Hin' : e ∈ mid ++ post) by (apply elem_of_app; by left). rewrite <- Hf in Hin'.
    by apply list_elem_of_filter in Hin' as [_ ?]. }
  assert (Hok : Forall (entry_ok h (rtm_overviewStreamID r)) mid).
  { apply Forall_forall. intros e Hin. rewrite Forall_forall in He. by apply He, Hmid. }
  assert (Hstep : Forall (λ e, je_version e = je_baseVersion e + 1) mid).
  { apply Forall_forall. intros e Hin. apply (chain_steps (j_entries (rtm_overviewJournal r))); [apply Hj|by apply Hmid]. }
  split; [lia|]. destruct (entries_lead h _ from mid _ s Hl Hok Hfrom) as (sv & Hsv & _). exists sv. split; [done|].
  intros u Hu. destruct (leads_split from mid _ u Hl Hstep) as (run1 & run2 & -> & H1 & H2); [lia|].
  apply Forall_app in Hok as [Hok1 Hok2].
  destruct (entries_lead h _ from run1 u s H1 Hok1 Hfrom) as (su & Hsu & L1).
  destruct (entries_lead h _ u run2 _ su H2 Hok2 Hsu) as (sv' & Hsv' & L2). rewrite Hsv in Hsv'. simplify_eq.
  exists su. split; [done|]. intros view Hview. apply clone_delta_shows. rewrite Happ.
  assert (Hid : apply_delta view (compacted ∅ ∅) = view).
  { unfold apply_delta, compacted. destruct view. cbn [rd_Devices rd_Links fst snd]. by rewrite !merge_empty. }
  rewrite Hid, fmap_app. by apply (deltas_overlap view s _ su).
Qed.

(** ** New versions *)

Lemma version_unused h r : runtime_ok h r → rtm_overviewVersion r + 1 < 2 ^ 64 →
  next_version (rtm_overviewVersion r) = rtm_overviewVersion r + 1 ∧ h !! (rtm_overviewVersion r + 1) = None.
Proof.
  intros Hr Hb. pose proof (ro_version h r Hr). split; [apply Z.mod_small; lia|].
  destruct (h !! _) as [e|] eqn:E; [|done]. pose proof (ro_hist h r Hr _ _ E). lia.
Qed.

(** The entries of the journal after an append. *)
Lemma Append_entries base version d j e :
  plain_delta d → e ∈ j_entries (Append Marshal renormalize base version (Some d) j) →
  e ∈ j_entries j ∨ (je_baseVersion e = base ∧ je_version e = version ∧ je_delta e = d).
Proof.
  intros Hd. unfold Append. destruct (_ || _); [by intros ?%elem_of_nil|]. rewrite clone_delta_plain by done.
  destruct (Marshal d) as [size|]; cbn [fmap option_fmap option_map]; [|by intros ?%elem_of_nil].
  destruct (_ || _); [by intros ?%elem_of_nil|]. set (j' := continue_from base j).
  assert (Hsub : ∀ x, x ∈ j_entries j' → x ∈ j_entries j).
  { intros x. subst j'. unfold continue_from. destruct (last _); [|done]. destruct (negb _); [by intros ?%elem_of_nil|done]. }
  assert (Hev : ∀ c m sz (l : list (@overviewJournalEntry Other)) x, x ∈ (evict c m sz l).2 → x ∈ l).
  { intros c m sz l x. revert sz. induction l as [|y l IH]; intros sz; cbn [evict]; [done|].
    destruct (_ || _); [|done]. intros Hx. right. by apply (IH _ Hx). }
  pose proof (Hev (j_capacity j') (j_maxBytes j') (j_sizeBytes j' + size) (j_entries j' ++ [mkEntry base version d size]) e) as He.
  destruct (evict _ _ _ _) as [sz l]. cbn [j_entries snd] in *. intros Hin. specialize (He Hin).
  apply elem_of_app in He as [He|He]; [left; by apply Hsub|right]. apply list_elem_of_singleton in He. by subst.
Qed.

Lemma runtime_new_stream h r r' s newID :
  runtime_ok h r → rtm_overviewVersion r + 1 < 2 ^ 64 → (∀ v st s, h !! v = Some (st, s) → st ≠ newID) →
  rtm_lastSnapshot r' = Some s → rtm_overviewVersion r' = next_version (rtm_overviewVersion r) → rtm_overviewStreamID r' = newID →
  rtm_overviewJournal r' = Reset (rtm_overviewJournal r) →
  runtime_ok (<[rtm_overviewVersion r' := (newID, s)]> h) r'.
Proof.
  intros Hr Hb Hfresh Hs Hv Hst Hj. destruct (version_unused h r Hr Hb) as [Hn Hnone]. rewrite Hn in Hv.
  pose proof (ro_version h r Hr) as Hver. pose proof (ro_hist h r Hr) as Hhist.
  assert (Hold : ∀ u e, h !! u = Some e → u < rtm_overviewVersion r').
  { intros u e Hu. specialize (Hhist u e Hu). lia. }
  split; rewrite ?Hst; [lia| | | |rewrite Hj; apply Reset_ok|rewrite Hj; apply Forall_nil_2].
  - exists s, s. split_and!; [done|apply lookup_insert_eq|apply same_fields_refl].
  - intros u e [[<- _]|[_ Hu]]%lookup_insert_Some; [lia|]. specialize (Hold u e Hu). lia.
  - intros u x [[<- _]|[_ Hu]]%lookup_insert_Some u' Hu'; [|by destruct (Hfresh u newID x Hu)].
    assert (u' = rtm_overviewVersion r') as -> by lia. exists s. apply lookup_insert_eq.
Qed.

Lemma runtime_next_version h r r' s s' patch :
  runtime_ok h r → rtm_overviewVersion r + 1 < 2 ^ 64 → rtm_lastSnapshot r = Some s → plain_delta patch → delta_sound patch s s' →
  rtm_lastSnapshot r' = Some s' → rtm_overviewVersion r' = next_version (rtm_overviewVersion r) →
  rtm_overviewStreamID r' = rtm_overviewStreamID r →
  rtm_overviewJournal r' = Append Marshal renormalize (rtm_overviewVersion r) (rtm_overviewVersion r') (Some patch) (rtm_overviewJournal r) →
  let h' := <[rtm_overviewVersion r' := (rtm_overviewStreamID r', s')]> h in
  runtime_ok h' r' ∧ msg_sound h' (NewStreamRuntimeDeltaMessage (Some patch) (rtm_overviewVersion r) (rtm_overviewVersion r') (rtm_overviewStreamID r')).
Proof.
  intros Hr Hb Hs Hp Hd Hs' Hv Hst Hj h'. destruct (version_unused h r Hr Hb) as [Hn Hnone]. rewrite Hn in Hv.
  pose proof (ro_version h r Hr) as Hver. destruct (ro_last h r Hr) as (s1 & s0 & Hs1 & H0 & Hsame). rewrite Hs in Hs1. simplify_eq.
  assert (Hsub : h ⊆ h') by (subst h'; rewrite Hv; by apply insert_subseteq).
  assert (Hnew : h' !! rtm_overviewVersion r' = Some (rtm_overviewStreamID r', s')) by apply lookup_insert_eq.
  assert (Hsound : delta_sound patch s0 s') by (by apply (delta_sound_same patch s0 s1 s' s'); [|apply same_fields_refl|]).
  assert (Hbase : h' !! rtm_overviewVersion r = Some (rtm_overviewStreamID r', s0)) by (rewrite Hst; by apply (lookup_weaken h)).
  split; [|split; [lia|]; exists s0, s'; split_and!; [done|done|by apply clone_delta_sound]].
  split; [lia| | | | |].
  - exists s', s'. split_and!; [done|done|apply same_fields_refl].
  - intros u e [[<- _]|[_ Hu]]%lookup_insert_Some; [lia|]. pose proof (ro_hist h r Hr u e Hu). lia.
  - intros u x [[<- _]|[_ Hu]]%lookup_insert_Some u' Hu'.
    + assert (u' = rtm_overviewVersion r') as -> by lia. by exists s'.
    + destruct (decide (u' = rtm_overviewVersion r')) as [->|Hne]; [by exists s'|]. rewrite Hst in Hu.
      destruct (ro_stream h r Hr u x Hu u') as (x' & Hx'); [lia|]. exists x'. rewrite Hst. by apply (lookup_weaken h).
  - rewrite Hj. apply Append_ok; [done|lia|lia|by apply (ro_journal h)].
  - rewrite Hj. apply Forall_forall. intros e He. apply Append_entries in He as [He|(He1 & He2 & He3)]; [|exists s0, s'; by rewrite He1, He2, He3|done].
    rewrite Hst. apply (entry_ok_mono h); [done|]. pose proof (ro_entries h r Hr) as Hents. rewrite Forall_forall in Hents. by apply Hents.
Qed.

(** ** Clients and their viewers *)

Context (marshals : Message → bool).
Definition all_marshal : Prop := ∀ m, marshals m = true.

Definition viewer_ok (h : History) (v : Viewer) : Prop :=
  Forall (msg_sound h) (vw_net v) ∧ holds_published h (vw_cursor v) (vw_view v) ∧
  ∀ cl, cl ∈ vw_claims v → cur_Known cl = true → no_older cl (vw_cursor v) ∧ ∃ s, h !! cur_Version cl = Some (cur_StreamID cl, s).

(** Where the viewer will be once everything on its way has arrived. *)
Definition reaches (v : Viewer) (mail : list Message) : RuntimeCursor :=
  (foldl receive (vw_cursor v, vw_view v) (vw_net v ++ mail)).1.

Definition here (r : Runtime) : RuntimeCursor := mkCursor (rtm_overviewStreamID r) (rtm_overviewVersion r) true.
Definition installed (c : Client) : Prop := cl_overviewRecoveryGen c ≠ cl_bootstrapRecoveryGen c.

Record client_weak (h : History) (version : Z) (c : Client) (v : Viewer) : Prop := {
  cw_open : cl_closed c = false;
  cw_mail : Forall (msg_sound h) (cl_overviewSend c);
  cw_acked : cur_Known (cl_ackedRuntimeCursor c) = true → cl_ackedRuntimeCursor c ∈ vw_claims v;
  cw_pending : ∀ p, cl_pendingOverviewRecovery c = Some p → rs_targetVersion p <= version;
  cw_gen : cl_bootstrapRecoveryGen c <= cl_overviewRecoveryGen c }.

Definition client_ok (h : History) (r : Runtime) (c : Client) (v : Viewer) : Prop :=
  client_weak h (rtm_overviewVersion r) c v ∧ (all_marshal → installed c → reaches v (cl_overviewSend c) = here r).

Lemma viewer_ok_mono h h' v : h ⊆ h' → viewer_ok h v → viewer_ok h' v.
Proof.
  intros Hh (Hn & Hp & Hc). split_and!; [|by eapply holds_mono|].
  - eapply Forall_impl; [exact Hn|]. intros. by eapply msg_sound_mono.
  - intros cl Hcl Hk. destruct (Hc cl Hcl Hk) as (? & s & ?). split; [done|]. exists s. by apply (lookup_weaken h).
Qed.

Lemma client_weak_mono h h' version version' c v :
  h ⊆ h' → version <= version' → client_weak h version c v → client_weak h' version' c v.
Proof.
  intros Hh Hv [A B C D E]. split; try done.
  - eapply Forall_impl; [exact B|]. intros. by eapply msg_sound_mono.
  - intros p Hp. specialize (D p Hp). lia.
Qed.

(** After some sound messages the viewer is at a published version, no older than before. *)
Lemma reaches_published h r v mail :
  runtime_ok h r → viewer_ok h v → Forall (msg_sound h) mail →
  no_older (vw_cursor v) (reaches v mail) ∧
  (cur_Known (reaches v mail) = true → cur_Version (reaches v mail) <= rtm_overviewVersion r ∧
     ∃ s, h !! cur_Version (reaches v mail) = Some (cur_StreamID (reaches v mail), s)).
Proof.
  intros Hr (Hn & Hp & _) Hm.
  destruct (receive_all h (vw_cursor v, vw_view v) (vw_net v ++ mail)) as [Hp' Ho]; [by apply Forall_app|done|].
  split; [done|]. intros Hk. destruct (Hp' Hk) as (s & Hs & _). split; [by apply (ro_hist h r Hr _ _ Hs)|by exists s].
Qed.

Lemma reaches_app v mail mail' :
  reaches v (mail ++ mail') = (foldl receive (foldl receive (vw_cursor v, vw_view v) (vw_net v ++ mail)) mail').1.
Proof. unfold reaches. by rewrite app_assoc, foldl_app. Qed.

(** A cursor at the newest version of the history is the current one. *)
Lemma at_current h r cursor s :
  runtime_ok h r → cur_Known cursor = true → h !! cur_Version cursor = Some (cur_StreamID cursor, s) →
  rtm_overviewVersion r <= cur_Version cursor → cursor = here r.
Proof.
  intros Hr Hk Hs Hle. pose proof (ro_hist h r Hr _ _ Hs) as Hle'.
  destruct (ro_last h r Hr) as (? & s0 & _ & H0 & _). destruct cursor as [st ver k]. cbn in *.
  assert (ver = rtm_overviewVersion r) as -> by lia. rewrite H0 in Hs. unfold here. congruence.
Qed.

(** A snapshot of the current version always arrives. *)
Lemma reaches_snapshot h r v mail reason target identity s ready :
  runtime_ok h r → viewer_ok h v → Forall (msg_sound h) mail → (∀ held, receive held ready = held) →
  reaches v (mail ++ [MResyncRequired reason target (rtm_overviewStreamID r);
                      MSnapshot (rtm_overviewVersion r) (rtm_overviewStreamID r) identity s; ready]) = here r.
Proof.
  intros Hr Hv Hm Hready. destruct (reaches_published h r v mail Hr Hv Hm) as [_ Hb]. rewrite reaches_app. cbn [foldl]. rewrite Hready.
  unfold reaches in Hb. destruct (foldl receive _ _) as [cursor view]. cbn [fst receive] in *.
  destruct (cur_Known cursor) eqn:Hk; cbn [andb]; [|done]. destruct (Hb eq_refl) as [Hle _].
  by rewrite (proj2 (Z.ltb_ge _ _) Hle).
Qed.

(** A viewer that claims to be current is current. *)
Lemma reaches_current h r v mail :
  runtime_ok h r → viewer_ok h v → Forall (msg_sound h) mail → here r ∈ vw_claims v → reaches v mail = here r.
Proof.
  intros Hr Hv Hm Hcl. destruct (reaches_published h r v mail Hr Hv Hm) as [Ho Hb]. destruct Hv as (_ & _ & Hc).
  destruct (Hc _ Hcl eq_refl) as [Ho' _]. destruct (no_older_trans _ _ _ Ho' Ho eq_refl) as [Hk Hle].
  destruct (Hb Hk) as (_ & s & Hs). by apply (at_current h r _ s).
Qed.

(** A viewer that claims an older version of the stream is brought up to date by a replay from there. *)
Lemma reaches_replay h r v mail cursor d ready reason target :
  runtime_ok h r → viewer_ok h v → Forall (msg_sound h) mail → (∀ held, receive held ready = held) →
  cursor ∈ vw_claims v → cur_Known cursor = true → cur_StreamID cursor = rtm_overviewStreamID r →
  reaches v (mail ++ [MResyncRequired reason target (rtm_overviewStreamID r);
                      MRuntimeReplay (cur_Version cursor) (rtm_overviewVersion r) (rtm_overviewStreamID r) d; ready]) = here r.
Proof.
  intros Hr Hv Hm Hready Hcl Hk Hst. destruct (reaches_published h r v mail Hr Hv Hm) as [Ho Hb]. destruct Hv as (_ & _ & Hc).
  destruct (Hc _ Hcl Hk) as (Ho' & s & Hs). destruct (no_older_trans _ _ _ Ho' Ho Hk) as [Hk' Hle].
  destruct (Hb Hk') as (Hle' & s' & Hs'). rewrite Hst in Hs.
  destruct (ro_stream h r Hr _ s Hs (cur_Version (reaches v mail))) as (s2 & Hs2); [lia|].
  rewrite reaches_app. cbn [foldl]. rewrite Hready. unfold reaches in *. destruct (foldl receive _ _) as [now view].
  cbn [fst receive] in *. rewrite Hs' in Hs2. injection Hs2 as Est <-.
  rewrite Hk', Est, String.eqb_refl. cbn [andb]. rewrite (proj2 (Z.leb_le _ _) Hle). cbn [andb].
  destruct (cur_Version now <? rtm_overviewVersion r) eqn:E; [done|]. to_prop. cbn [fst].
  by apply (at_current h r now s').
Qed.
End inv.
