(* ===== verification/StreamSteps.v ===== *)
(** * Every operation of the hub keeps the overview streams sound

    The operations of the hub: replacing a mailbox, synchronizing a client, queueing a delta,
    replacing all mailboxes by a snapshot. *)

From S2P Require Import Prelude GoLib Domain StateStore Runtime Journal RuntimePatch Hub Overview StreamInv.

Section steps.
Context {Other : Type}.
Abbreviation Delta := (@RuntimeDeltaPayload Other) (only parsing).
Abbreviation Client := (@Hub.Client Other) (only parsing).
Abbreviation Message := (@Hub.Message Other) (only parsing).
Abbreviation Batch := (@OverviewSyncBatch Other) (only parsing).
Abbreviation Viewer := (@StreamInv.Viewer Other) (only parsing).
Abbreviation History := (gmap Z (string * SnapshotPayload)) (only parsing).
Abbreviation Runtime := (@pipelineRuntimeState Other) (only parsing).
Abbreviation Pipeline := (@Overview.Pipeline Other) (only parsing).
Context (unicode_lower : string → string) (FormatFloat : float64 → string) (uuid_Parse : string → option UUID).
Context (json_snapshot : SnapshotPayload → option (list Z)) (marshals : Message → bool).
Context (Marshal : Delta → option Z) (renormalize : Other → option (@GoAny Other)).
Hypothesis HR : renormalizes renormalize.

(** ** Replacing a mailbox *)

Lemma install_ceiling st version (c : Client) :
  let c' := installRuntimeAckCeilingLocked st version c in
  cl_overviewSend c' = cl_overviewSend c ∧ cl_closed c' = cl_closed c ∧
  (cl_ackedRuntimeCursor c' = cl_ackedRuntimeCursor c ∨ cl_ackedRuntimeCursor c' = zeroCursor) ∧
  cl_pendingOverviewRecovery c' = cl_pendingOverviewRecovery c ∧ cl_overviewRecoveryGen c' = cl_overviewRecoveryGen c ∧
  cl_bootstrapRecoveryGen c' = cl_bootstrapRecoveryGen c.
Proof. unfold installRuntimeAckCeilingLocked. destruct (String.eqb st ""); [by auto 10|]. destruct (_ && _); by auto 10. Qed.

Lemma replace_false (batch : Batch) payloads c :
  (replaceOverviewStreamPrepared batch payloads c).1 = false → (replaceOverviewStreamPrepared batch payloads c).2 = c.
Proof. unfold replaceOverviewStreamPrepared. by repeat case_match. Qed.

(** A replacement whose messages lead the viewer to the current version. *)
Lemma replace_ok h r (batch : Batch) payloads c v version :
  client_weak h version c v → b_TargetVersion batch = rtm_overviewVersion r →
  (overviewSyncClientStateMatchesBatch batch c = true → Forall (msg_sound h) payloads ∧ reaches v payloads = here r) →
  (replaceOverviewStreamPrepared batch payloads c).1 = true →
  client_ok marshals h r (replaceOverviewStreamPrepared batch payloads c).2 v.
Proof.
  intros [Ho Hm Ha Hp Hg] Ht Hreach. unfold replaceOverviewStreamPrepared.
  destruct (_ <? _)%nat; [done|]. destruct (overviewSyncClientStateMatchesBatch batch c) eqn:E; [|done]. cbn [negb].
  destruct (cl_closed c) eqn:Hcl; [done|]. destruct (match cl_pendingOverviewRecovery c with Some _ => _ | None => _ end); [done|].
  cbv zeta. intros _. cbn [snd]. destruct (Hreach eq_refl) as [Hs Hhere].
  match goal with |- client_ok _ _ _ (installRuntimeAckCeilingLocked ?st ?ver ?c1) _ =>
    destruct (install_ceiling st ver c1) as (E1 & E2 & E3 & E4 & E5 & E6); set (c' := installRuntimeAckCeilingLocked st ver c1) in * end.
  cbn in E1, E2, E3, E4, E5, E6. split.
  - split; rewrite ?E1, ?E2, ?E4, ?E5, ?E6; try done; try lia.
    + destruct E3 as [-> | ->]; [done|]. by intros [=].
    + intros p [= <-]. cbn. lia.
  - intros _ _. by rewrite E1.
Qed.

Lemma replace_succeeds h version (batch : Batch) payloads c v :
  client_weak h version c v → version <= b_TargetVersion batch → (length payloads <= overviewBufferSize)%nat →
  overviewSyncClientStateMatchesBatch batch c = true → (replaceOverviewStreamPrepared batch payloads c).1 = true.
Proof.
  intros [Ho Hm Ha Hp Hg] Hv Hlen Hmatch. unfold replaceOverviewStreamPrepared.
  rewrite (proj2 (Nat.ltb_ge _ _) Hlen), Hmatch, Ho. cbn [negb].
  destruct (cl_pendingOverviewRecovery c) as [p|]; [|done]. specialize (Hp p eq_refl). by rewrite (proj2 (Z.ltb_ge _ _)) by lia.
Qed.

(** ** Synchronizing one client *)

(** The state a synchronization works with: the current version. *)
Definition state_ok (h : History) (r : Runtime) (state : RuntimeOverviewState) : Prop :=
  os_Version state = rtm_overviewVersion r ∧ os_StreamID state = rtm_overviewStreamID r ∧
  ∃ s0, h !! rtm_overviewVersion r = Some (rtm_overviewStreamID r, s0) ∧ same_fields (Other := Other) s0 (os_Snapshot state).

Lemma current_state_ok h r : runtime_ok h r → state_ok h r (current_state r).
Proof.
  intros Hr. destruct (ro_last h r Hr) as (s & s0 & Hs & H0 & Hsame). split_and!; [done..|]. exists s0. split; [done|].
  cbn. rewrite Hs. by apply (same_fields_trans s0 s); [|apply clone_same].
Qed.

(** A batch for the current version whose messages, if any, are sound and lead there. *)
Definition batch_good (h : History) (r : Runtime) (v : Viewer) (c : Client) (b : Batch) : Prop :=
  b_TargetVersion b = rtm_overviewVersion r ∧
  ∀ payloads, prepareOverviewSyncBatch marshals b = Some payloads →
    (length payloads <= overviewBufferSize)%nat ∧
    (overviewSyncClientStateMatchesBatch b c = true → Forall (msg_sound h) payloads ∧ reaches v payloads = here r).

Lemma ReplaceOverviewStream_ok h r (b : Batch) c v version :
  client_weak h version c v → batch_good h r v c b →
  let res := ReplaceOverviewStream marshals b c in
  (res.1 = true → client_ok marshals h r res.2 v) ∧ (res.1 = false → res.2 = c).
Proof.
  intros Hc [Ht Hb]. cbv zeta. unfold ReplaceOverviewStream. destruct (negb _); [done|].
  destruct (prepareOverviewSyncBatch marshals b) as [payloads|] eqn:E; [|done]. destruct (Hb _ eq_refl) as (Hl & Hr).
  split; [apply (replace_ok h r _ _ _ _ version); auto|apply replace_false].
Qed.

Definition snapshot_batch (h : History) (r : Runtime) (b : Batch) : Prop :=
  b_Mode b = ModeSnapshot ∧ b_TargetVersion b = rtm_overviewVersion r ∧ b_RuntimeStreamID b = rtm_overviewStreamID r ∧
  ∃ s s0, b_Snapshot b = Some s ∧ h !! rtm_overviewVersion r = Some (rtm_overviewStreamID r, s0) ∧ same_fields (Other := Other) s0 s.

Lemma snapshot_batch_good h r v c b :
  runtime_ok h r → viewer_ok h v → snapshot_batch h r b → batch_good h r v c b.
Proof.
  intros Hr Hv (Hm & Ht & Hst & s & s0 & Hs & H0 & Hsame). split; [done|]. intros payloads.
  unfold prepareOverviewSyncBatch, overviewSyncStateMessage, NewRuntimeReplayMessage, NewStreamReadyMessage. rewrite Hm, Hs. cbn [fmap option_fmap option_map].
  destruct (forallb _ _); [|done]. intros [= <-]. unfold newOverviewResyncMessage. rewrite Ht, Hst.
  split; [cbn; unfold overviewBufferSize; lia|]. intros _. split.
  - repeat (apply Forall_cons; split); try done; try by apply Forall_nil.
    exists s0. split; [done|]. by apply (same_fields_trans s0 s); [|apply clone_same].
  - apply (reaches_snapshot h r v []); [done|done|by apply Forall_nil|by intros []].
Qed.

(** With messages that can be marshalled, a snapshot is always installed. *)
Lemma snapshot_batch_installs h r v c b :
  client_weak h (rtm_overviewVersion r) c v → snapshot_batch h r b → all_marshal marshals → (ReplaceOverviewStream marshals b c).1 = true.
Proof.
  intros Hc (Hm & Ht & Hst & s & s0 & Hs & _) HM. unfold ReplaceOverviewStream.
  assert (Hmatch : overviewSyncClientStateMatchesBatch b c = true) by (unfold overviewSyncClientStateMatchesBatch; by rewrite Hm).
  rewrite Hmatch. cbn [negb]. unfold prepareOverviewSyncBatch, overviewSyncStateMessage, NewRuntimeReplayMessage, NewStreamReadyMessage. rewrite Hm, Hs. cbn [fmap option_fmap option_map].
  cbn [forallb]. rewrite !HM. cbn [andb]. apply (replace_succeeds h (rtm_overviewVersion r) _ _ _ v); [done|lia| |done].
  cbn. unfold overviewBufferSize. lia.
Qed.

Lemma select_batch_good h r state reason cursor protocol c v :
  runtime_ok h r → viewer_ok h v → client_weak h (rtm_overviewVersion r) c v → state_ok h r state →
  batch_good h r v c (select_batch json_snapshot Marshal renormalize reason state cursor protocol r) ∧
  snapshot_batch h r (fallback_batch state (select_batch json_snapshot Marshal renormalize reason state cursor protocol r)) ∧
  (b_Mode (select_batch json_snapshot Marshal renormalize reason state cursor protocol r) = ModeSnapshot →
     snapshot_batch h r (select_batch json_snapshot Marshal renormalize reason state cursor protocol r)).
Proof.
  intros Hr Hv Hc (Hver & Hst & s0 & H0 & Hsame).
  assert (Hsame' : same_fields (Other := Other) s0 (CloneSnapshot (Some (os_Snapshot state))))
    by (by apply (same_fields_trans s0 (os_Snapshot state)); [|apply clone_same]).
  unfold select_batch. set (full := mkBatch reason ModeSnapshot _ _ _ _ _ _ _).
  assert (Hfull : snapshot_batch h r full).
  { subst full. split_and!; cbn; [done..|]. by exists (CloneSnapshot (Some (os_Snapshot state))), s0. }
  destruct (cur_Known cursor && _ && (cur_Version cursor =? _)) eqn:E1; [|destruct (_ && (cur_Known cursor && _) && _) eqn:E2].
  - split_and!; [split; [done|]| |done].
    + intros payloads. unfold prepareOverviewSyncBatch. cbn [b_Mode]. destruct (forallb _ _); [|done]. intros [= <-].
      split; [cbn; unfold overviewBufferSize; lia|].
      unfold overviewSyncClientStateMatchesBatch. cbn [b_Mode b_RuntimeStreamID b_TargetVersion]. intros Hm. to_prop.
      rewrite Hver, Hst in Hm. split; [by apply Forall_singleton|]. apply (reaches_current h r); [done|done|by apply Forall_singleton|].
      pose proof (cw_acked _ _ _ _ Hc) as Ha. rewrite Hm in Ha. by apply Ha.
    + split_and!; cbn; [done..|]. by exists (CloneSnapshot (Some (os_Snapshot state))), s0.
  - destruct (Replay _ _ _ _ _) as [d|] eqn:Hrep; [|by split_and!; [apply snapshot_batch_good|..]].
    split_and!; [split; [done|]| |done].
    + intros payloads. unfold prepareOverviewSyncBatch, overviewSyncStateMessage, NewRuntimeReplayMessage, NewStreamReadyMessage. cbn [b_Mode b_Replay b_ReplayCursor b_TargetVersion b_RuntimeStreamID].
      destruct (_ || _); [done|]. cbn [fmap option_fmap option_map]. destruct (forallb _ _); [|done]. intros [= <-].
      split; [cbn; unfold overviewBufferSize; lia|]. unfold newOverviewResyncMessage, overviewSyncClientStateMatchesBatch.
      cbn [b_Mode b_Reason b_ReplayCursor b_TargetVersion b_RuntimeStreamID]. intros Hm. apply andb_true_iff in Hm as [_ Hm]. to_prop.
      match goal with H : (_ =? _)%string = true |- _ => apply String.eqb_eq in H; rename H into Est end.
      rewrite Hver, Hst in *. pose proof (cw_acked _ _ _ _ Hc) as Ha. rewrite Hm in Ha. specialize (Ha ltac:(done)).
      destruct Hv as (Hv1 & Hv2 & Hv3). destruct (Hv3 cursor Ha ltac:(done)) as (_ & s1 & Hs1). rewrite Est in Hs1.
      pose proof (replay_message Marshal renormalize h r (cur_Version cursor) d s1 Hr Hs1 Hrep) as Hsound. split.
      * by repeat (apply Forall_cons; split).
      * apply (reaches_replay h r v []); try done; by intros [].
    + split_and!; cbn; [done..|]. by exists (CloneSnapshot (Some (os_Snapshot state))), s0.
  - by split_and!; [apply snapshot_batch_good|..].
Qed.

Lemma install_batch_ok h r state batch c v :
  runtime_ok h r → viewer_ok h v → client_weak h (rtm_overviewVersion r) c v →
  batch_good h r v c batch → snapshot_batch h r (fallback_batch state batch) →
  (b_Mode batch = ModeSnapshot → snapshot_batch h r batch) → b_Mode batch ≠ ModeNone →
  client_weak h (rtm_overviewVersion r) (install_batch marshals state batch c) v ∧
  (all_marshal marshals → client_ok marshals h r (install_batch marshals state batch c) v).
Proof.
  intros Hr Hv Hc Hgood Hfall Hsnap Hnone. unfold install_batch.
  destruct (ReplaceOverviewStream_ok h r batch c v _ Hc Hgood) as [Ht Hf].
  destruct (ReplaceOverviewStream marshals batch c) as [[] c1] eqn:E; cbn [fst snd] in *.
  { specialize (Ht eq_refl). split; [apply Ht|done]. }
  specialize (Hf eq_refl). subst c1.
  destruct (ReplaceOverviewStream_ok h r (fallback_batch state batch) c v _ Hc (snapshot_batch_good h r v c _ Hr Hv Hfall)) as [Ht' Hf'].
  destruct (bool_decide _ || bool_decide _) eqn:Em.
  - split; [|intros HM; by apply Ht', (snapshot_batch_installs h r v)].
    destruct (ReplaceOverviewStream marshals (fallback_batch state batch) c) as [[] c1]; cbn [fst snd] in *; [by apply Ht'|].
    by rewrite Hf'.
  - split; [done|]. intros HM. assert (b_Mode batch = ModeSnapshot) as Hms by (destruct (b_Mode batch); naive_solver).
    pose proof (snapshot_batch_installs h r v c batch Hc (Hsnap Hms) HM) as Hi. by rewrite E in Hi.
Qed.

(** A synchronized client is sound, and with messages that can be marshalled it is brought to the current version. *)
Lemma sync_client h r state reason cursor protocol c v :
  runtime_ok h r → viewer_ok h v → client_weak h (rtm_overviewVersion r) c v → state_ok h r state →
  let c' := install_batch marshals state (select_batch json_snapshot Marshal renormalize reason state cursor protocol r) c in
  client_weak h (rtm_overviewVersion r) c' v ∧ (all_marshal marshals → client_ok marshals h r c' v).
Proof.
  intros Hr Hv Hc Hs. destruct (select_batch_good h r state reason cursor protocol c v Hr Hv Hc Hs) as (H1 & H2 & H3).
  apply install_batch_ok; try done. unfold select_batch. by repeat case_match.
Qed.

(** ** Queueing a delta *)

Lemma advance_ceiling st version (c : Client) :
  let c' := advanceRuntimeAckCeilingLocked st version c in
  cl_overviewSend c' = cl_overviewSend c ∧ cl_closed c' = cl_closed c ∧ cl_ackedRuntimeCursor c' = cl_ackedRuntimeCursor c ∧
  cl_pendingOverviewRecovery c' = cl_pendingOverviewRecovery c ∧ cl_overviewRecoveryGen c' = cl_overviewRecoveryGen c ∧
  cl_bootstrapRecoveryGen c' = cl_bootstrapRecoveryGen c.
Proof. unfold advanceRuntimeAckCeilingLocked. by repeat case_match. Qed.

Lemma mark_weak h st version (c : Client) v :
  client_weak h version c v → client_weak h version (markOverviewRecoveryPendingLocked st version c) v.
Proof. intros [Ho Hm Ha Hp Hg]. split; try done. intros p [= <-]. by cbn. Qed.

(** The delta from [r] to [r'] is queued, or the mailbox must be replaced. *)
Lemma send_ok h (r r' : Runtime) d c v :
  client_weak h (rtm_overviewVersion r') c v → rtm_overviewStreamID r' = rtm_overviewStreamID r →
  msg_sound h (MRuntimeDelta (rtm_overviewVersion r) (rtm_overviewVersion r') (rtm_overviewStreamID r') d) →
  (all_marshal marshals → installed c → reaches v (cl_overviewSend c) = here r) →
  let res := send_delta (MRuntimeDelta (rtm_overviewVersion r) (rtm_overviewVersion r') (rtm_overviewStreamID r') d)
               (rtm_overviewStreamID r') (rtm_overviewVersion r') c in
  client_weak h (rtm_overviewVersion r') res.2 v ∧ (res.1 = false → client_ok marshals h r' res.2 v).
Proof.
  intros Hc Hst Hm Hreach. cbv zeta. unfold send_delta. destruct (_ <? _)%nat; cbn [fst snd]; [|split; [by apply mark_weak|done]].
  match goal with |- client_weak _ _ (advanceRuntimeAckCeilingLocked ?st ?ver ?c1) _ ∧ _ =>
    destruct (advance_ceiling st ver c1) as (E1 & E2 & E3 & E4 & E5 & E6); set (c' := advanceRuntimeAckCeilingLocked st ver c1) in * end.
  cbn in E1, E2, E3, E4, E5, E6. destruct Hc as [Ho Hmail Ha Hp Hg].
  assert (Hw : client_weak h (rtm_overviewVersion r') c' v).
  { split; rewrite ?E1, ?E2, ?E3, ?E4, ?E5, ?E6; try done. apply Forall_app. by split; [|apply Forall_singleton]. }
  split; [done|]. intros _. split; [done|]. intros HM Hi. unfold installed in Hi. rewrite E5, E6 in Hi. specialize (Hreach HM Hi).
  rewrite E1, reaches_app. cbn [foldl]. unfold reaches in Hreach. destruct (foldl receive _ _) as [cursor view]. cbn [fst] in Hreach.
  subst cursor. unfold here. cbn [receive cur_Known cur_StreamID cur_Version andb]. by rewrite Hst, String.eqb_refl, Z.eqb_refl.
Qed.

Lemma enqueue_ok h (r r' : Runtime) d c v :
  client_weak h (rtm_overviewVersion r) c v → rtm_overviewVersion r <= rtm_overviewVersion r' →
  rtm_overviewStreamID r' = rtm_overviewStreamID r →
  msg_sound h (MRuntimeDelta (rtm_overviewVersion r) (rtm_overviewVersion r') (rtm_overviewStreamID r') d) →
  (all_marshal marshals → installed c → reaches v (cl_overviewSend c) = here r) →
  let res := enqueueOverviewStreamDelta (MRuntimeDelta (rtm_overviewVersion r) (rtm_overviewVersion r') (rtm_overviewStreamID r') d)
               (rtm_overviewStreamID r') (rtm_overviewVersion r) (rtm_overviewVersion r') c in
  client_weak h (rtm_overviewVersion r') res.2 v ∧ (res.1 = false → client_ok marshals h r' res.2 v).
Proof.
  intros Hc Hle Hst Hm Hreach. cbv zeta. pose proof Hc as [Ho _ _ Hp _].
  assert (Hc' : client_weak h (rtm_overviewVersion r') c v) by (by apply (client_weak_mono h h (rtm_overviewVersion r))).
  unfold enqueueOverviewStreamDelta. rewrite Ho. destruct (cl_pendingOverviewRecovery c) as [p|].
  - destruct (bool_decide _); [done|]. destruct (_ && _); [split; [by apply mark_weak|done]|].
    specialize (Hp p eq_refl). rewrite (proj2 (Z.ltb_ge _ _)) by lia. by apply (send_ok h r r').
  - destruct (cl_needsResync c); [split; [by apply mark_weak|done]|]. by apply (send_ok h r r').
Qed.

(** A replaced mailbox is a complete recovery. *)
Lemma replaced_installed (b : Batch) c :
  cl_bootstrapRecoveryGen c <= cl_overviewRecoveryGen c → (ReplaceOverviewStream marshals b c).1 = true →
  installed (ReplaceOverviewStream marshals b c).2.
Proof.
  intros Hg. unfold ReplaceOverviewStream. destruct (negb _); [done|]. destruct (prepareOverviewSyncBatch _ _); [|done].
  unfold replaceOverviewStreamPrepared. repeat (case_match; [done|]). intros _. cbn [snd].
  match goal with |- installed (installRuntimeAckCeilingLocked ?st ?ver ?c1) =>
    destruct (install_ceiling st ver c1) as (_ & _ & _ & _ & E5 & E6) end.
  unfold installed. rewrite E5, E6. cbn. lia.
Qed.

Lemma sync_installed h r state reason cursor protocol c v :
  runtime_ok h r → viewer_ok h v → client_weak h (rtm_overviewVersion r) c v → state_ok h r state → all_marshal marshals →
  installed (install_batch marshals state (select_batch json_snapshot Marshal renormalize reason state cursor protocol r) c).
Proof.
  intros Hr Hv Hc Hs HM. destruct (select_batch_good h r state reason cursor protocol c v Hr Hv Hc Hs) as (_ & H2 & H3).
  assert (Hnone : b_Mode (select_batch json_snapshot Marshal renormalize reason state cursor protocol r) ≠ ModeNone)
    by (unfold select_batch; by repeat case_match).
  set (batch := select_batch _ _ _ _ _ _ _ _) in *. pose proof (cw_gen _ _ _ _ Hc) as Hg. unfold install_batch.
  pose proof (replaced_installed batch c Hg) as Hi.
  destruct (ReplaceOverviewStream marshals batch c) as [[] c1] eqn:E; [by apply Hi|].
  assert (c1 = c) as ->.
  { unfold ReplaceOverviewStream in E. destruct (negb _); [by simplify_eq|]. destruct (prepareOverviewSyncBatch _ _) as [ps|]; [|by simplify_eq].
    pose proof (replace_false batch ps c) as Hf. rewrite E in Hf. by apply Hf. }
  destruct (bool_decide _ || bool_decide _) eqn:Em; [by apply replaced_installed, (snapshot_batch_installs h r v)|].
  assert (b_Mode batch = ModeSnapshot) as Hms by (destruct (b_Mode batch); naive_solver).
  pose proof (snapshot_batch_installs h r v c batch Hc (H3 Hms) HM) as Hsi. by rewrite E in Hsi.
Qed.

(** ** All clients of the hub *)

Definition each (P : Client → Viewer → Prop) (hub : gmap nat Client) (vs : gmap nat Viewer) : Prop :=
  ∀ id, option_Forall2 P (hub !! id) (vs !! id).
Definition weak_all (h : History) (r : Runtime) := each (λ c v, viewer_ok h v ∧ client_weak h (rtm_overviewVersion r) c v).
Definition ok_all (h : History) (r : Runtime) := each (λ c v, viewer_ok h v ∧ client_ok marshals h r c v).

(** The runtime state agrees with the history, and so do all clients. *)
Definition pipe_ok (h : History) (vs : gmap nat Viewer) (p : Pipeline) : Prop :=
  runtime_ok h (pl_runtime p) ∧ ok_all h (pl_runtime p) (pl_hub p) vs.

Lemma each_impl (P Q : Client → Viewer → Prop) hub vs : (∀ c v, P c v → Q c v) → each P hub vs → each Q hub vs.
Proof. intros HPQ HP id. specialize (HP id). destruct HP; constructor; auto. Qed.

Lemma each_fmap (P Q : Client → Viewer → Prop) f hub vs : (∀ c v, P c v → Q (f c) v) → each P hub vs → each Q (f <$> hub) vs.
Proof. intros HPQ HP id. specialize (HP id). rewrite lookup_fmap. destruct HP; constructor; auto. Qed.

Lemma each_insert (P : Client → Viewer → Prop) hub vs id c v :
  vs !! id = Some v → P c v → each P hub vs → each P (<[id := c]> hub) vs.
Proof.
  intros Hv HP Hall id'. destruct (decide (id' = id)) as [->|Hne]; [|by rewrite lookup_insert_ne].
  rewrite lookup_insert_eq, Hv. by constructor.
Qed.

Lemma each_lookup (P : Client → Viewer → Prop) hub vs id c : each P hub vs → hub !! id = Some c → ∃ v, vs !! id = Some v ∧ P c v.
Proof. intros HP Hc. specialize (HP id). rewrite Hc in HP. inversion HP; eauto. Qed.

Lemma ok_weak h r hub vs : ok_all h r hub vs → weak_all h r hub vs.
Proof. apply each_impl. intros c v [? [? _]]. done. Qed.

Lemma weak_mono h h' (r r' : Runtime) hub vs :
  h ⊆ h' → rtm_overviewVersion r <= rtm_overviewVersion r' → weak_all h r hub vs → weak_all h' r' hub vs.
Proof.
  intros Hh Hle. apply each_impl. intros c v [? ?]. split; [by eapply viewer_ok_mono|by eapply client_weak_mono].
Qed.

(** An open client with an installed recovery receives broadcasts. *)
Lemma installed_receives (c : Client) : cl_closed c = false → installed c → canReceiveOverviewBroadcast c = true.
Proof.
  intros Ho Hi. unfold canReceiveOverviewBroadcast. rewrite Ho. cbn [negb andb].
  destruct (Z.eqb_spec (cl_overviewRecoveryGen c) (cl_bootstrapRecoveryGen c)); [done|]. by rewrite orb_true_r.
Qed.

Lemma has_clients (hub : gmap nat Client) id c : hub !! id = Some c → canReceiveOverviewBroadcast c = true → HasOverviewClients hub = true.
Proof.
  intros Hc Hr. unfold HasOverviewClients. apply existsb_exists. exists (id, c). split; [|done].
  by apply list_elem_of_In, elem_of_map_to_list.
Qed.

(** Without overview clients nothing has to be said about where a viewer gets. *)
Lemma no_clients_ok h r hub vs : HasOverviewClients hub = false → weak_all h r hub vs → ok_all h r hub vs.
Proof.
  intros Hno Hw id. specialize (Hw id). destruct (hub !! id) as [c|] eqn:Hc; [|inversion Hw; constructor].
  inversion Hw as [? v [Hv Hcw] |]; subst. constructor. split; [done|]. split; [done|]. intros _ Hi.
  assert (Hh := has_clients hub id c Hc (installed_receives c (cw_open _ _ _ _ Hcw) Hi)). congruence.
Qed.

(** A snapshot for every client. *)
Lemma replace_clients h r batch hub vs :
  runtime_ok h r → snapshot_batch h r batch → weak_all h r hub vs → ok_all h r (ReplaceOverviewStreams marshals batch hub).2 vs.
Proof.
  intros Hr Hb Hall. unfold ReplaceOverviewStreams. destruct (prepareOverviewSyncBatch marshals batch) as [payloads|] eqn:E.
  - cbn [for_clients snd]. eapply each_fmap; [|exact Hall]. intros c v [Hv Hc]. split; [done|].
    destruct (snapshot_batch_good h r v c batch Hr Hv Hb) as [Ht Hgood]. destruct (Hgood _ E) as [Hl Hs].
    assert (Hmatch : overviewSyncClientStateMatchesBatch batch c = true)
      by (destruct Hb as (Hm & _); unfold overviewSyncClientStateMatchesBatch; by rewrite Hm).
    apply (replace_ok h r batch payloads c v (rtm_overviewVersion r)); try done.
    apply (replace_succeeds h (rtm_overviewVersion r) batch payloads c v); try done. lia.
  - eapply each_impl; [|exact Hall]. intros c v [Hv Hc]. split; [done|]. split; [done|]. intros HM. exfalso.
    destruct Hb as (Hm & _ & _ & s & _ & Hs & _). unfold prepareOverviewSyncBatch, overviewSyncStateMessage in E.
    rewrite Hm, Hs in E. cbn in E. by rewrite !HM in E.
Qed.

Lemma replace_with_snapshot_ok h vs state reason p :
  runtime_ok h (pl_runtime p) → state_ok h (pl_runtime p) state → weak_all h (pl_runtime p) (pl_hub p) vs →
  pipe_ok h vs (replaceOverviewClientsWithSnapshotLocked json_snapshot marshals state reason p).
Proof.
  intros Hr (Hver & Hst & s0 & H0 & Hsame) Hall. split; [done|]. apply replace_clients; try done.
  split_and!; cbn; try done. exists (CloneSnapshot (Some (os_Snapshot state))), s0. split_and!; try done.
  by apply (same_fields_trans s0 (os_Snapshot state)); [|apply clone_same].
Qed.
End steps.
