(* ===== verification/StreamPipe.v ===== *)
(** * Every operation of the overview pipeline keeps the streams sound

    Publishing a snapshot or a delta, synchronizing a client, the flush of the broadcast loop. *)

From S2P Require Import Prelude GoLib Domain StateStore Runtime Journal RuntimePatch Hub Overview StreamInv StreamSteps.

Section pipeline.
Context {Other : Type}.
Abbreviation Delta := (@RuntimeDeltaPayload Other) (only parsing).
Abbreviation Client := (@Hub.Client Other) (only parsing).
Abbreviation Message := (@Hub.Message Other) (only parsing).
Abbreviation Viewer := (@StreamInv.Viewer Other) (only parsing).
Abbreviation History := (gmap Z (string * SnapshotPayload)) (only parsing).
Abbreviation Runtime := (@pipelineRuntimeState Other) (only parsing).
Abbreviation Pipeline := (@Overview.Pipeline Other) (only parsing).
Context (unicode_lower : string → string) (FormatFloat : float64 → string) (uuid_Parse : string → option UUID).
Context (json_snapshot : SnapshotPayload → option (list Z)) (marshals : Message → bool).
Context (Marshal : Delta → option Z) (renormalize : Other → option (@GoAny Other)).
Hypothesis HR : renormalizes renormalize.
Context (h : History) (vs : gmap nat Viewer).

(** ** Recording versions *)

Lemma record_new p : h !! rtm_overviewVersion (pl_runtime p) = None →
  record_version p h = <[rtm_overviewVersion (pl_runtime p) :=
    (rtm_overviewStreamID (pl_runtime p), default EmptySnapshot (rtm_lastSnapshot (pl_runtime (Other := Other) p)))]> h.
Proof. unfold record_version. by intros ->. Qed.

Lemma record_known p : is_Some (h !! rtm_overviewVersion (pl_runtime (Other := Other) p)) → record_version p h = h.
Proof. unfold record_version. by intros [? ->]. Qed.

(** A state with the same version, stream, snapshot and journal. *)
Lemma runtime_ok_ext (r r' : Runtime) :
  rtm_lastSnapshot r' = rtm_lastSnapshot r → rtm_overviewVersion r' = rtm_overviewVersion r →
  rtm_overviewStreamID r' = rtm_overviewStreamID r → rtm_overviewJournal r' = rtm_overviewJournal r → runtime_ok h r → runtime_ok h r'.
Proof. intros E1 E2 E3 E4 [A B C D E F]. split; rewrite ?E1, ?E2, ?E3, ?E4; done. Qed.

Lemma ok_all_ext (r r' : Runtime) hub :
  rtm_overviewVersion r' = rtm_overviewVersion r → rtm_overviewStreamID r' = rtm_overviewStreamID r →
  ok_all marshals h r hub vs → ok_all marshals h r' hub vs.
Proof.
  intros E1 E2. apply each_impl. intros c v [Hv [Hc Hr]]. split; [done|]. split; [by rewrite E1|]. intros HM Hi.
  unfold here. rewrite E1, E2. by apply Hr.
Qed.

Definition fresh (newID : string) (p : Pipeline) : Prop :=
  (∀ v st s, h !! v = Some (st, s) → st ≠ newID) ∧ rtm_overviewVersion (pl_runtime p) + 1 < 2 ^ 64.

(** A new stream. *)
Lemma new_stream_ok p r' hub s newID :
  pipe_ok marshals h vs p → fresh newID p → rtm_lastSnapshot r' = Some s →
  rtm_overviewVersion r' = next_version (rtm_overviewVersion (pl_runtime p)) → rtm_overviewStreamID r' = newID →
  rtm_overviewJournal r' = Reset (rtm_overviewJournal (pl_runtime p)) →
  let h' := record_version (mkPipeline r' hub) h in
  runtime_ok h' r' ∧ weak_all h' r' (pl_hub p) vs ∧ state_ok h' r' (mkOverview s (rtm_overviewVersion r') newID).
Proof.
  intros [Hr Hall] [Hfresh Hb] Hs Hv Hst Hj. destruct (version_unused h _ Hr Hb) as [Hn Hnone].
  assert (Hnone' : h !! rtm_overviewVersion r' = None) by (by rewrite Hv, Hn).
  cbv zeta. rewrite record_new by done. cbn [pl_runtime]. rewrite Hs, Hst. cbn [from_option id].
  split_and!.
  - by apply (runtime_new_stream h (pl_runtime p) r' s newID).
  - apply (weak_mono h _ (pl_runtime p)); [by apply insert_subseteq|lia|by eapply ok_weak].
  - split_and!; cbn; [done..|]. exists s. rewrite Hst, lookup_insert_eq. split; [done|apply same_fields_refl].
Qed.

(** ** Reading the overview, synchronizing a client *)

Lemma get_ok i newID p :
  pipe_ok marshals h vs p → fresh newID p →
  let res := getOrBuildOverviewStateLocked unicode_lower FormatFloat json_snapshot marshals i newID p in
  let h' := record_version res.2 h in
  pipe_ok marshals h' vs res.2 ∧ state_ok h' (pl_runtime res.2) res.1.
Proof.
  intros Hp Hf. cbv zeta. unfold getOrBuildOverviewStateLocked.
  assert (Hsame : pipe_ok marshals (record_version p h) vs p ∧ state_ok (record_version p h) (pl_runtime p) (current_state (pl_runtime p))).
  { destruct Hp as [Hr Hall]. rewrite record_known by (destruct (ro_last h _ Hr) as (? & ? & _ & -> & _); done).
    split; [by split|by apply current_state_ok]. }
  destruct (rtm_prevHashes _); [exact Hsame|]. destruct (buildFullOverviewSnapshot _ _ _) as [snapshot|]; [|exact Hsame]. clear Hsame.
  destruct (new_stream_ok p (publish_snapshot FormatFloat snapshot newID (pl_runtime p)) (pl_hub p) snapshot newID Hp Hf)
    as (H1 & H2 & H3); [done..|].
  cbn [pl_hub]. set (r' := publish_snapshot _ _ _ _) in *. assert (Hcur := current_state_ok _ _ H1). cbn [snd fst].
  destruct (HasOverviewClients (pl_hub p)) eqn:E.
  - change (record_version (replaceOverviewClientsWithSnapshotLocked json_snapshot marshals (current_state r') ResyncReasonClientResync
        (mkPipeline r' (pl_hub p))) h) with (record_version (mkPipeline r' (pl_hub p)) h).
    split; [|done]. by apply replace_with_snapshot_ok.
  - split; [|done]. split; [done|]. by apply no_clients_ok.
Qed.

Lemma sync_with_state id cursor protocol reason state p :
  pipe_ok marshals h vs p → state_ok h (pl_runtime p) state → ∀ c, pl_hub p !! id = Some c →
  pipe_ok marshals h vs (mkPipeline (pl_runtime p)
    (<[id := install_batch marshals state (select_batch json_snapshot Marshal renormalize reason state cursor protocol (pl_runtime p)) c]> (pl_hub p))).
Proof.
  intros [Hr Hall] Hs c Hc. split; [done|]. destruct (each_lookup _ _ _ _ _ Hall Hc) as (v & Hv & Hvok & Hcw & _).
  apply (each_insert _ _ _ _ _ v); [done| |done]. split; [done|].
  destruct (sync_client json_snapshot marshals Marshal renormalize h (pl_runtime p) state reason cursor protocol c v Hr Hvok Hcw Hs) as [H1 H2].
  split; [done|]. intros HM. by apply (H2 HM).
Qed.
End pipeline.

Section flush.
Context {Other : Type}.
Abbreviation Delta := (@RuntimeDeltaPayload Other) (only parsing).
Abbreviation Client := (@Hub.Client Other) (only parsing).
Abbreviation Message := (@Hub.Message Other) (only parsing).
Abbreviation Viewer := (@StreamInv.Viewer Other) (only parsing).
Abbreviation History := (gmap Z (string * SnapshotPayload)) (only parsing).
Abbreviation Runtime := (@pipelineRuntimeState Other) (only parsing).
Abbreviation Pipeline := (@Overview.Pipeline Other) (only parsing).
Context (unicode_lower : string → string) (FormatFloat : float64 → string) (uuid_Parse : string → option UUID).
Context (json_snapshot : SnapshotPayload → option (list Z)) (marshals : Message → bool).
Context (Marshal : Delta → option Z) (renormalize : Other → option (@GoAny Other)).
Hypothesis HR : renormalizes renormalize.
Context (h : History) (vs : gmap nat Viewer).

Lemma sync_ok i newID id cursor reason p :
  pipe_ok marshals h vs p → fresh h newID p →
  let p' := syncOverviewClientLocked unicode_lower FormatFloat json_snapshot marshals Marshal renormalize i newID id cursor reason p in
  pipe_ok marshals (record_version p' h) vs p'.
Proof.
  intros Hp Hf. cbv zeta. unfold syncOverviewClientLocked.
  destruct (get_ok unicode_lower FormatFloat json_snapshot marshals h vs i newID p Hp Hf) as [H1 H2].
  destruct (getOrBuildOverviewStateLocked _ _ _ _ _ _ _) as [state p1]. cbn [fst snd] in H1, H2.
  destruct (pl_hub p1 !! id) as [c|] eqn:E; [|done].
  match goal with |- pipe_ok _ (record_version ?q h) _ _ => change (record_version q h) with (record_version p1 h) end.
  by apply sync_with_state.
Qed.

(** ** Publishing a delta *)

(** After a broadcast every client is sound, and those not reported are brought to the new version. *)
Definition all_but (r : Runtime) (ids : list nat) (hub : gmap nat Client) : Prop :=
  weak_all h r hub vs ∧ ∀ id c v, hub !! id = Some c → vs !! id = Some v → id ∉ ids → client_ok marshals h r c v.

Lemma reported (f : Client → bool * Client) hub id c :
  hub !! id = Some c → id ∉ (for_clients f hub).1 → (f c).1 = false.
Proof.
  intros Hc Hid. destruct (f c).1 eqn:E; [|done]. destruct Hid. cbn [for_clients fst]. apply (list_elem_of_fmap_2 fst _ (id, c)).
  apply list_elem_of_filter. split; [done|by apply elem_of_map_to_list].
Qed.

Lemma broadcast_ok (r r' : Runtime) d hub :
  ok_all marshals h r hub vs → rtm_overviewVersion r <= rtm_overviewVersion r' → rtm_overviewStreamID r' = rtm_overviewStreamID r →
  msg_sound h (NewStreamRuntimeDeltaMessage (Some d) (rtm_overviewVersion r) (rtm_overviewVersion r') (rtm_overviewStreamID r')) →
  let res := BroadcastOverviewStreamDelta marshals d (rtm_overviewVersion r) (rtm_overviewVersion r') (rtm_overviewStreamID r') hub in
  all_but r' res.1 res.2.
Proof.
  intros Hall Hle Hst Hm. cbv zeta. unfold BroadcastOverviewStreamDelta.
  assert (Hweak : weak_all h r' hub vs) by (apply (weak_mono h h r); [done|done|by eapply ok_weak]).
  destruct (negb (HasOverviewClients hub) || _) eqn:E; cbn [fst snd].
  - split; [done|]. intros id c v Hc Hv _. destruct (each_lookup _ _ _ _ _ Hweak Hc) as (v' & Hv' & _ & Hcw).
    rewrite Hv in Hv'. injection Hv' as <-. split; [done|]. intros HM Hi.
    rewrite (has_clients hub id c Hc (installed_receives c (cw_open _ _ _ _ Hcw) Hi)), HM in E. done.
  - clear E. set (f := λ c : Client, if canReceiveOverviewBroadcast c then _ else _).
    assert (Hf : ∀ c v, client_ok marshals h r c v → client_weak h (rtm_overviewVersion r') (f c).2 v ∧
                   ((f c).1 = false → client_ok marshals h r' (f c).2 v)).
    { intros c v [Hcw Hcr]. subst f. cbn beta. destruct (canReceiveOverviewBroadcast c) eqn:Ecan.
      - by apply (enqueue_ok marshals h r r').
      - assert (Hcw' : client_weak h (rtm_overviewVersion r') c v) by (by apply (client_weak_mono h h (rtm_overviewVersion r))).
        split; [done|]. intros _. split; [done|]. intros _ Hi.
        rewrite (installed_receives c (cw_open _ _ _ _ Hcw) Hi) in Ecan. done. }
    split.
    + cbn [for_clients snd]. eapply each_fmap; [|exact Hall]. intros c v [Hv Hc]. by destruct (Hf c v Hc).
    + intros id c' v Hc' Hv Hid. cbn [for_clients snd] in Hc'. rewrite lookup_fmap in Hc'.
      destruct (hub !! id) as [c|] eqn:Hc; [|done]. injection Hc' as <-.
      destruct (each_lookup _ _ _ _ _ Hall Hc) as (v' & Hv' & _ & Hok). rewrite Hv in Hv'. injection Hv' as <-.
      apply Hf; [done|]. by apply (reported f hub id c).
Qed.

(** Synchronizing the reported clients completes the broadcast. *)
Lemma sync_overflowed_ok i newID ids reason p :
  runtime_ok h (pl_runtime p) → is_Some (rtm_prevHashes (pl_runtime p)) → all_but (pl_runtime p) ids (pl_hub p) →
  let p' := syncOverflowedOverviewClientsLocked unicode_lower FormatFloat json_snapshot marshals Marshal renormalize i newID ids reason p in
  pl_runtime p' = pl_runtime p ∧ pipe_ok marshals h vs p'.
Proof.
  intros Hr [hashes Hh]. cbv zeta. unfold syncOverflowedOverviewClientsLocked. revert p Hr Hh.
  induction ids as [|id ids IH]; intros p Hr Hh [Hweak Hrest]; cbn [foldl].
  { split; [done|]. split; [done|]. intros id. specialize (Hweak id).
    destruct (pl_hub p !! id) as [c|] eqn:Hc, (vs !! id) as [v|] eqn:Hv; inversion Hweak; constructor. split; [naive_solver|].
    apply (Hrest id); try done. apply not_elem_of_nil. }
  destruct (pl_hub p !! id) as [c|] eqn:Hc.
  2: { apply IH; [done..|]. split; [done|]. intros id' c v Hc' Hv' Hid. apply (Hrest id'); try done.
       apply not_elem_of_cons. split; [congruence|done]. }
  destruct (each_lookup _ _ _ _ _ Hweak Hc) as (v & Hv & Hvok & Hcw).
  unfold syncOverviewClientLocked, getOrBuildOverviewStateLocked. rewrite Hh. cbn [fst snd]. rewrite Hc.
  match goal with |- context [install_batch marshals ?st ?b c] =>
    set (state := st) in *; assert (Hcl : client_ok marshals h (pl_runtime p) (install_batch marshals st b c) v) end.
  { destruct (sync_client json_snapshot marshals Marshal renormalize h (pl_runtime p) state
      (if String.eqb reason "" then ResyncReasonClientResync else reason) (cl_ackedRuntimeCursor c) (cl_runtimeProtocol c) c v
      Hr Hvok Hcw (current_state_ok h _ Hr)) as [H1 H2]. split; [done|]. intros HM. by apply (H2 HM). }
  match goal with |- context [mkPipeline (pl_runtime p) ?hub'] => apply (IH (mkPipeline (pl_runtime p) hub')); [done..|] end. cbn.
  split.
  - apply (each_insert _ _ _ _ _ v); [done| |done]. split; [done|apply Hcl].
  - intros id' c' v' Hc' Hv' Hid. destruct (decide (id' = id)) as [->|Hne].
    + rewrite lookup_insert_eq in Hc'. rewrite Hv in Hv'. by simplify_eq.
    + rewrite lookup_insert_ne in Hc' by done. apply (Hrest id'); try done. by apply not_elem_of_cons.
Qed.
End flush.

Section loop.
Context {Other : Type}.
Abbreviation Delta := (@RuntimeDeltaPayload Other) (only parsing).
Abbreviation Message := (@Hub.Message Other) (only parsing).
Abbreviation Viewer := (@StreamInv.Viewer Other) (only parsing).
Abbreviation History := (gmap Z (string * SnapshotPayload)) (only parsing).
Abbreviation Runtime := (@pipelineRuntimeState Other) (only parsing).
Abbreviation Pipeline := (@Overview.Pipeline Other) (only parsing).
Context (unicode_lower : string → string) (FormatFloat : float64 → string) (uuid_Parse : string → option UUID).
Context (json_snapshot : SnapshotPayload → option (list Z)) (marshals : Message → bool).
Context (Marshal : Delta → option Z) (renormalize : Other → option (@GoAny Other)).
Hypothesis HR : renormalizes renormalize.
Context (h : History) (vs : gmap nat Viewer).

Lemma ok_all_mono h' (r : Runtime) hub : h ⊆ h' → ok_all marshals h r hub vs → ok_all marshals h' r hub vs.
Proof.
  intros Hh. apply each_impl. intros c v [Hv [Hc Hr]]. split; [by eapply viewer_ok_mono|]. split; [by eapply client_weak_mono|done].
Qed.

(** The next version of the stream: journaled, broadcast, and the reported clients synchronized. *)
Lemma next_version_ok i newID p r' s s' patch :
  pipe_ok marshals h vs p → rtm_overviewVersion (pl_runtime p) + 1 < 2 ^ 64 →
  rtm_lastSnapshot (pl_runtime p) = Some s → plain_delta patch → delta_sound patch s s' →
  rtm_lastSnapshot r' = Some s' → rtm_overviewVersion r' = next_version (rtm_overviewVersion (pl_runtime p)) →
  rtm_overviewStreamID r' = rtm_overviewStreamID (pl_runtime p) → is_Some (rtm_prevHashes r') →
  rtm_overviewJournal r' = Append Marshal renormalize (rtm_overviewVersion (pl_runtime p)) (rtm_overviewVersion r') (Some patch)
    (rtm_overviewJournal (pl_runtime p)) →
  let res := BroadcastOverviewStreamDelta marshals patch (rtm_overviewVersion (pl_runtime p)) (rtm_overviewVersion r')
               (rtm_overviewStreamID r') (pl_hub p) in
  let p' := syncOverflowedOverviewClientsLocked unicode_lower FormatFloat json_snapshot marshals Marshal renormalize i newID res.1
              ResyncReasonClientResync (mkPipeline r' res.2) in
  pipe_ok marshals (record_version p' h) vs p'.
Proof.
  intros [Hr Hall] Hb Hs Hp Hd Hs' Hv Hst Hh Hj. cbv zeta. destruct (version_unused h _ Hr Hb) as [Hn Hnone].
  destruct (runtime_next_version Marshal renormalize HR h (pl_runtime p) r' s s' patch Hr Hb Hs Hp Hd Hs' Hv Hst Hj) as [Hr' Hm].
  set (h' := <[_ := _]> h) in *. assert (Hsub : h ⊆ h') by (apply insert_subseteq; by rewrite Hv, Hn).
  set (res := BroadcastOverviewStreamDelta _ _ _ _ _ _).
  assert (Hbut : all_but marshals h' vs r' res.1 res.2).
  { apply broadcast_ok; [by apply ok_all_mono|lia|done|done]. }
  destruct (sync_overflowed_ok unicode_lower FormatFloat json_snapshot marshals Marshal renormalize h' vs i newID res.1
    ResyncReasonClientResync (mkPipeline r' res.2) Hr' Hh Hbut) as [Hrt Hok].
  set (p' := syncOverflowedOverviewClientsLocked _ _ _ _ _ _ _ _ _ _ _) in *. cbn [pl_runtime] in Hrt.
  assert (record_version p' h = h') as ->; [|done].
  rewrite record_new by (by rewrite Hrt, Hv, Hn). by rewrite Hrt, Hs'.
Qed.

Lemma publish_delta_ok i newID delta alertsDirty p :
  pipe_ok marshals h vs p → rtm_overviewVersion (pl_runtime p) + 1 < 2 ^ 64 → snapshot_ok delta →
  let p' := publish_delta unicode_lower FormatFloat uuid_Parse json_snapshot marshals Marshal renormalize i newID delta alertsDirty p in
  pipe_ok marshals (record_version p' h) vs p'.
Proof.
  intros Hp Hb Hok. cbv zeta. pose proof Hp as [Hr _]. destruct (ro_last h _ Hr) as (s & s0 & Hs & H0 & _).
  unfold publish_delta. rewrite Hs. destruct (buildRuntimeDeltaPatch (Some delta) (Some s)) as [patch|] eqn:E.
  2: { rewrite record_known; [done|]. by rewrite H0. }
  unfold applySnapshotDeltaToRuntime. cbn [from_option id]. set (hashes := mkHashes _ _).
  set (r' := pl_runtime p <| rtm_lastSnapshot := _ |> <| rtm_prevHashes := _ |> <| rtm_previousAlertRuntime := _ |>
    <| rtm_overviewVersion := _ |> <| rtm_overviewJournal := _ |>).
  pose proof (next_version_ok i newID p r' s (apply_snapshot_delta s delta) patch Hp Hb Hs (build_plain _ _ _ E) (build_sound _ _ _ Hok E)
    eq_refl eq_refl eq_refl (ex_intro _ _ eq_refl) eq_refl) as Hnext. cbv zeta in Hnext.
  change (rtm_overviewStreamID r') with (rtm_overviewStreamID (pl_runtime p)) in *.
  by destruct (BroadcastOverviewStreamDelta _ _ _ _ _ _).
Qed.

(** ** The flush *)

Lemma records_of_sub (P : DeviceRuntimeDTO → Prop) ids devices :
  map_Forall (λ _ r, P r) devices → map_Forall (λ _ r, P r) (records_of ids devices).
Proof.
  intros Hall k r Hk. apply elem_of_list_to_map_2, list_elem_of_omap in Hk as (u & _ & Hu).
  destruct (devices !! uuid_String u) as [r'|] eqn:E; [|done]. cbn in Hu. injection Hu as _ <-. by apply (Hall _ _ E).
Qed.

Lemma dirty_delta_ok i dirtyDevices alertsDirty (r : Runtime) delta full :
  map_Forall (λ _ ds, fields_known ds) (in_states i) →
  buildDirtyOverviewDelta unicode_lower FormatFloat uuid_Parse i dirtyDevices alertsDirty r = Ok (Some delta, full) → snapshot_ok delta.
Proof.
  intros Hs. unfold buildDirtyOverviewDelta. destruct (bool_decide _ && _); [done|].
  destruct (in_devices i) as [devices|]; [|done]. destruct (in_links i) as [links|]; [|done]. cbn [result_bind].
  destruct (if alertsDirty then _ else _) as [previousAlertIDs available]. destruct (alertsDirty && _); [done|].
  destruct (decide _); [done|]. destruct (snapshotPayloadEmpty _); [done|]. intros [= <- _].
  match goal with |- context [buildPipelineSnapshot ?u ?d ?l ?st ?a ?pr] =>
    assert (Hp : snapshot_ok (buildPipelineSnapshot u d l st a pr)); [|set (partial := buildPipelineSnapshot u d l st a pr) in *] end.
  { apply buildPipelineSnapshot_ok. intros id ds. unfold states_for. rewrite map_lookup_filter_Some. intros [Hd _]. by apply (Hs id). }
  destruct Hp as [HD HL]. split; cbn [sn_Devices sn_Links].
  - apply map_Forall_union_2; [destruct alertsDirty|destruct (negb _)]; try apply map_Forall_empty; by apply records_of_sub.
  - destruct (negb _); [done|apply map_Forall_empty].
Qed.

(** Operations that leave version, stream, snapshot and journal alone. *)
Lemma stale_ok r' p :
  rtm_lastSnapshot r' = rtm_lastSnapshot (pl_runtime p) → rtm_overviewVersion r' = rtm_overviewVersion (pl_runtime p) →
  rtm_overviewStreamID r' = rtm_overviewStreamID (pl_runtime p) → rtm_overviewJournal r' = rtm_overviewJournal (pl_runtime p) →
  pipe_ok marshals (record_version p h) vs p →
  pipe_ok marshals (record_version (mkPipeline r' (pl_hub p)) h) vs (mkPipeline r' (pl_hub p)).
Proof.
  intros E1 E2 E3 E4 [Hr Hall].
  assert (record_version (mkPipeline r' (pl_hub p)) h = record_version p h) as ->.
  { unfold record_version. cbn [pl_runtime]. by rewrite E1, E2, E3. }
  split; [by apply (runtime_ok_ext _ (pl_runtime p))|by apply (ok_all_ext _ _ _ (pl_runtime p))].
Qed.

Lemma invalidate_ok p :
  pipe_ok marshals (record_version p h) vs p →
  pipe_ok marshals (record_version (broadcastTopologyInvalidationLocked p) h) vs (broadcastTopologyInvalidationLocked p).
Proof. by apply stale_ok. Qed.

Lemma full_snapshot_ok i newID reason topologyChanged p p' :
  pipe_ok marshals h vs p → fresh h newID p →
  broadcastFullSnapshotWithResyncLocked unicode_lower FormatFloat uuid_Parse json_snapshot marshals i newID reason topologyChanged p = Ok p' →
  pipe_ok marshals (record_version p' h) vs p'.
Proof.
  intros Hp Hf. unfold broadcastFullSnapshotWithResyncLocked. destruct (buildFullOverviewSnapshot _ _ _) as [snapshot|]; [|done].
  cbn [result_bind]. set (r' := publish_snapshot _ _ _ _ <| _ := _ |>). intros [= <-].
  destruct (new_stream_ok marshals h vs p r' (pl_hub p) snapshot newID Hp Hf) as (H1 & H2 & H3); [done..|].
  match goal with |- context [if topologyChanged then _ else ?q] => assert (Hq : pipe_ok marshals (record_version q h) vs q) end.
  { by apply replace_with_snapshot_ok. }
  destruct topologyChanged; [by apply invalidate_ok|exact Hq].
Qed.

Lemma unchanged_ok p : pipe_ok marshals h vs p → pipe_ok marshals (record_version p h) vs p.
Proof. intros Hp. rewrite record_known; [done|]. destruct Hp as [Hr _]. by destruct (ro_last h _ Hr) as (? & ? & _ & -> & _). Qed.

Lemma skip_ok p :
  pipe_ok marshals h vs p →
  let res := skipOverviewWorkWithoutClientsLocked p in
  (res.1 = true → pipe_ok marshals (record_version res.2 h) vs res.2) ∧ (res.1 = false → res.2 = p).
Proof.
  intros Hp. unfold skipOverviewWorkWithoutClientsLocked. destruct (HasOverviewClients _); [done|]. split; [|done]. intros _.
  by apply stale_ok, unchanged_ok.
Qed.

Lemma dirty_ok i newID resync dirty alertsDirty topologyDirty forceFull p p' :
  pipe_ok marshals h vs p → fresh h newID p → map_Forall (λ _ ds, fields_known ds) (in_states i) →
  broadcastDirty unicode_lower FormatFloat uuid_Parse json_snapshot marshals Marshal renormalize i newID resync dirty alertsDirty
    topologyDirty forceFull p = Ok p' →
  pipe_ok marshals (record_version p' h) vs p'.
Proof.
  intros Hp Hf Hs. pose proof (skip_ok p Hp) as Hskip. unfold broadcastDirty.
  destruct (skipOverviewWorkWithoutClientsLocked p) as [skip q]. cbn [fst snd] in Hskip. destruct Hskip as [Ht Hn].
  destruct resync.
  { destruct skip; [intros [= <-]; destruct topologyDirty; [by apply invalidate_ok, Ht|by apply Ht]|].
    rewrite (Hn eq_refl). by apply full_snapshot_ok. }
  destruct topologyDirty; [intros [= <-]; by apply invalidate_ok, unchanged_ok|].
  destruct forceFull.
  { destruct skip; [intros [= <-]; by apply Ht|]. rewrite (Hn eq_refl). by apply full_snapshot_ok. }
  destruct (bool_decide _ && _); [intros [= <-]; by apply unchanged_ok|].
  destruct skip; [intros [= <-]; by apply Ht|]. rewrite (Hn eq_refl).
  destruct (_ || _); [by apply full_snapshot_ok|].
  destruct (buildDirtyOverviewDelta _ _ _ _ _ _ _) as [[[delta|] []]|] eqn:E; cbn [result_bind]; try done; try by apply full_snapshot_ok.
  - intros [= <-]. apply publish_delta_ok; [done|apply Hf|]. by eapply dirty_delta_ok.
  - intros [= <-]. by apply unchanged_ok.
Qed.

(** ** The first broadcast *)

Lemma section_once {A} (fields : list (string * (A → @GoAny Other))) zero hash copy (new last prev : gmap string A) hashes :
  (∀ k f r, (k, f) ∈ fields → f (copy r) = f r) → section_faithful fields zero hash new last hashes →
  (∀ id k f, (k, f) ∈ fields → canon (field_of zero f last id) = canon (field_of zero f prev id)) →
  ∀ id k f, (k, f) ∈ fields →
    canon (field_of zero f ((copy <$> changed_records new (hash <$> new) hashes) ∪ prev) id) = canon (field_of zero f new id).
Proof.
  intros Hcopy [Hsame Hgone] Hprev i k f Hk. unfold field_of at 1. rewrite lookup_union, lookup_fmap.
  unfold changed_records. destruct (new !! i) as [c|] eqn:Hc.
  - destruct (decide (hashes !! i = Some (hash c))) as [Hh|Hh].
    + rewrite (map_lookup_filter_None_2 _ _ i).
      2: { right. intros x Hx. cbn. rewrite lookup_fmap, Hc, Hh. naive_solver. }
      cbn [fmap option_fmap option_map]. rewrite (left_id_L None _).
      rewrite <- (Hprev i k f Hk : _ = canon (f (default zero (prev !! i)))), <- (Hsame i c Hc Hh k f Hk). unfold field_of. by rewrite Hc.
    + rewrite (map_lookup_filter_Some_2 _ _ i c); [|done|cbn; by rewrite lookup_fmap, Hc].
      cbn [fmap option_fmap option_map]. rewrite union_Some_l. cbn. rewrite (Hcopy k f c Hk). unfold field_of. by rewrite Hc.
  - rewrite map_lookup_filter, Hc. cbn. rewrite (left_id_L None _).
    rewrite <- (Hprev i k f Hk : _ = canon (f (default zero (prev !! i)))). unfold field_of. rewrite Hc.
    destruct (last !! i) eqn:E; [|done]. destruct (Hgone i); [by rewrite E|congruence].
Qed.

Lemma once_delta new last hashes :
  snapshot_ok new →
  section_faithful (Other := Other) device_fields zeroDeviceDTO (computeDeviceRuntimeHashes FormatFloat) (sn_Devices new) (sn_Devices last) (sh_devices hashes) →
  section_faithful (Other := Other) link_fields zeroLinkDTO (computeLinkRuntimeHash FormatFloat) (sn_Links new) (sn_Links last) (sh_links hashes) →
  match buildRuntimeDeltaPatch (buildDelta new (computeSnapshotHashes FormatFloat new) hashes) (Some (CloneSnapshot (Some last))) with
  | Some patch => @delta_sound Other patch last new
  | None => same_fields (Other := Other) last new
  end.
Proof.
  intros [HD HL] HfD HfL. unfold buildDelta. cbn [computeSnapshotHashes sh_devices sh_links].
  set (devices := changed_records (sn_Devices new) _ _). set (links := changed_records (sn_Links new) _ _). set (prev := CloneSnapshot (Some last)).
  assert (Hprev : same_fields (Other := Other) last prev) by apply clone_same.
  assert (Hnew : same_fields (Other := Other) (apply_snapshot_delta prev (mkSnapshot devices links)) new).
  { destruct Hprev as [HpD HpL]. split; cbn [apply_snapshot_delta sn_Devices sn_Links].
    - intros i k f Hk. eapply section_once; [|exact HfD|exact HpD|exact Hk]. intros. by eapply clone_same_fields.
    - rewrite <- (map_fmap_id links). intros i k f Hk. eapply section_once; [done|exact HfL|exact HpL|exact Hk]. }
  assert (Hok : snapshot_ok (mkSnapshot devices links)).
  { split; intros i r [Hi _]%map_lookup_filter_Some; [by apply (HD i)|by apply (HL i)]. }
  destruct ((size devices =? 0)%nat && (size links =? 0)%nat) eqn:E.
  - cbn [buildRuntimeDeltaPatch]. apply andb_true_iff in E as [ED%Nat.eqb_eq EL%Nat.eqb_eq]. apply map_size_empty_iff in ED, EL.
    rewrite ED, EL in Hnew. unfold apply_snapshot_delta in Hnew. cbn [sn_Devices sn_Links] in Hnew.
    rewrite fmap_empty, !(left_id_L ∅ _) in Hnew. by apply (same_fields_trans last prev); [|destruct prev].
  - destruct (buildRuntimeDeltaPatch (Some (mkSnapshot devices links)) (Some prev)) as [patch|] eqn:Eb.
    + by apply (delta_sound_same patch last prev _ new Hprev Hnew), build_sound.
    + apply (same_fields_trans last prev); [done|]. by apply (same_fields_trans prev (apply_snapshot_delta prev (mkSnapshot devices links)));
        [apply build_none|].
Qed.

Lemma once_step_ok i newID drained p :
  pipe_ok marshals h vs p → fresh h newID p → map_Forall (λ _ ds, fields_known ds) (in_states i) →
  once_ok unicode_lower FormatFloat i p →
  let p' := broadcastOnce unicode_lower FormatFloat uuid_Parse json_snapshot marshals Marshal renormalize i newID drained p in
  pipe_ok marshals (record_version p' h) vs p'.
Proof.
  intros Hp Hf Hs Honce. cbv zeta. unfold broadcastOnce. destruct (in_devices i) as [devices|] eqn:Hi; [|by apply unchanged_ok].
  cbv zeta. set (new := buildPipelineSnapshot _ _ _ _ _ _).
  assert (Hok : snapshot_ok new) by (by apply buildPipelineSnapshot_ok).
  match goal with |- context [if drained then broadcastTopologyInvalidationLocked ?q else ?q] =>
    assert (Hq : pipe_ok marshals (record_version q h) vs q); [|destruct drained; [by apply invalidate_ok|exact Hq]] end.
  pose proof Hp as [Hr Hall]. destruct (ro_last h _ Hr) as (last & s0 & Hlast & H0 & Hsame).
  destruct (rtm_prevHashes (pl_runtime p)) as [hashes|] eqn:Hh.
  - destruct (Honce hashes devices last Hh Hi Hlast) as [HD HL]. pose proof (once_delta new last hashes Hok HD HL) as Hd.
    rewrite Hlast. destruct (buildRuntimeDeltaPatch _ _) as [patch|] eqn:E.
    + set (r' := pl_runtime p <| rtm_lastSnapshot := _ |> <| rtm_prevHashes := _ |> <| rtm_previousAlertRuntime := _ |>
        <| rtm_overviewVersion := _ |> <| rtm_overviewJournal := _ |>).
      pose proof (next_version_ok i newID p r' last new patch Hp (proj2 Hf) Hlast (build_plain _ _ _ E) Hd
        eq_refl eq_refl eq_refl (ex_intro _ _ eq_refl) eq_refl) as Hnext. cbv zeta in Hnext.
      change (rtm_overviewStreamID r') with (rtm_overviewStreamID (pl_runtime p)) in *.
      by destruct (BroadcastOverviewStreamDelta _ _ _ _ _ _).
    + rewrite record_known by (by eexists; exact H0). split; [|by apply (ok_all_ext _ _ _ (pl_runtime p))].
      destruct Hr as [A _ C D F G]. split; try done. exists new, s0. split_and!; [done|done|by apply (same_fields_trans s0 last)].
  - set (r' := pl_runtime p <| rtm_lastSnapshot := _ |> <| rtm_prevHashes := _ |> <| rtm_previousAlertRuntime := _ |>
        <| rtm_overviewVersion := _ |> <| rtm_overviewStreamID := _ |> <| rtm_overviewJournal := _ |>).
    destruct (new_stream_ok marshals h vs p r' (pl_hub p) new newID Hp Hf) as (H1 & H2 & H3); [done..|].
    by apply replace_with_snapshot_ok.
Qed.
End loop.
