(* ===== verification/StreamTheorems.v ===== *)
(** * The overview streams: theorems

    The invariant of the pipeline, the hub, the connections and the viewers, kept by every step,
    and what it says about the viewers. *)

From S2P Require Import Prelude GoLib Domain StateStore Runtime Journal RuntimePatch Hub Overview StreamInv StreamSteps StreamPipe.

Section world.
Context {Other : Type}.
Abbreviation Delta := (@RuntimeDeltaPayload Other) (only parsing).
Abbreviation Client := (@Hub.Client Other) (only parsing).
Abbreviation Message := (@Hub.Message Other) (only parsing).
Abbreviation Viewer := (@StreamInv.Viewer Other) (only parsing).
Abbreviation World := (@StreamInv.World Other) (only parsing).
Context (unicode_lower : string → string) (FormatFloat : float64 → string) (uuid_Parse : string → option UUID).
Context (json_snapshot : SnapshotPayload → option (list Z)) (marshals : Message → bool).
Context (Marshal : Delta → option Z) (renormalize : Other → option (@GoAny Other)).
Abbreviation step := (StreamInv.step unicode_lower FormatFloat uuid_Parse json_snapshot marshals Marshal renormalize) (only parsing).
Abbreviation reachable := (StreamInv.reachable unicode_lower FormatFloat uuid_Parse json_snapshot marshals Marshal renormalize) (only parsing).

Definition world_ok (w : World) : Prop := pipe_ok marshals (wd_history w) (wd_viewers w) (wd_pipeline w).

(** ** Steps of one connection *)

(** A change of a client that leaves its mailbox alone. *)
Lemma client_ok_ext h r (c c' : Client) v :
  cl_closed c' = cl_closed c → cl_overviewSend c' = cl_overviewSend c → cl_overviewRecoveryGen c' = cl_overviewRecoveryGen c →
  cl_bootstrapRecoveryGen c' = cl_bootstrapRecoveryGen c →
  (cl_ackedRuntimeCursor c' = cl_ackedRuntimeCursor c ∨ claimed v (cl_ackedRuntimeCursor c')) →
  (cl_pendingOverviewRecovery c' = cl_pendingOverviewRecovery c ∨ cl_pendingOverviewRecovery c' = None) →
  client_ok marshals h r c v → client_ok marshals h r c' v.
Proof.
  intros E1 E2 E3 E4 E5 E6 [[A B C D E] Hr]. split; [split|]; rewrite ?E1, ?E2, ?E3, ?E4; try done.
  - destruct E5 as [-> | [-> | ?]]; done.
  - destruct E6 as [-> | ->]; done.
  - unfold installed. by rewrite E3, E4.
Qed.

Lemma sanitize_cases cursor (c : Client) :
  sanitizeRuntimeCursorForCeilingLocked cursor c = cursor ∨ sanitizeRuntimeCursorForCeilingLocked cursor c = zeroCursor.
Proof. unfold sanitizeRuntimeCursorForCeilingLocked. destruct (_ && _); auto. Qed.

Lemma sanitize_claimed (v : Viewer) cursor (c : Client) : claimed v cursor → claimed v (sanitizeRuntimeCursorForCeilingLocked cursor c).
Proof. intros. destruct (sanitize_cases cursor c) as [-> | ->]; [done|by left]. Qed.

Lemma hello_ok h r protocol cursor (c : Client) v :
  claimed v cursor → client_ok marshals h r c v → client_ok marshals h r (acceptHello protocol cursor c).2 v.
Proof.
  intros Hcl. unfold acceptHello, consumeRuntimeQueryHelloEchoLocked, initializeRuntimeHelloLocked. cbn [snd].
  destruct (cl_bootstrapping c); [|apply client_ok_ext; auto]. destruct (cur_Known cursor); apply client_ok_ext; auto.
  right. by apply sanitize_claimed.
Qed.

Lemma ack_ok h r cursor (c : Client) v :
  claimed v cursor → client_ok marshals h r c v → client_ok marshals h r (acceptRuntimeAck cursor c).2 v.
Proof.
  intros Hcl Hc. unfold acceptRuntimeAck. destruct (negb (cur_Known cursor)); [done|]. destruct (negb (runtimeAckWithinCeilingLocked _ _)); [done|].
  cbv zeta. destruct (negb _ && negb _); [done|]. cbn [snd].
  destruct (match cl_pendingOverviewRecovery c with Some _ => _ | None => _ end); by apply (client_ok_ext h r c); auto.
Qed.

Lemma new_viewer_ok h cursor view : holds_published h cursor view → viewer_ok (Other := Other) h (mkViewer [] cursor view [cursor]).
Proof.
  intros Hp. split_and!; [by apply Forall_nil|done|].
  intros cl Hin Hk. apply list_elem_of_singleton in Hin. subst cl. split; [apply no_older_refl|].
  destruct (Hp Hk) as (s & Hs & _). by exists s.
Qed.

Lemma silent_ok h r cursor view :
  client_ok marshals h r (beginBootstrapSnapshotSelection newClient) (mkViewer [] cursor view [cursor]).
Proof. split; [by split; try done; apply Forall_nil|by intros _ []]. Qed.

Lemma connect_ok h r protocol cursor view :
  client_ok marshals h r (beginBootstrapSnapshotSelection (initializeRuntimeQueryHello protocol cursor newClient)) (mkViewer [] cursor view [cursor]).
Proof.
  unfold initializeRuntimeQueryHello, initializeRuntimeHelloLocked. split.
  - split; destruct (cur_Known cursor), (RuntimeStreamProtocolVersion <=? protocol); cbn; try done; try by apply Forall_nil.
    all: intros _; by apply list_elem_of_singleton.
  - intros _ []. by destruct (cur_Known cursor), (RuntimeStreamProtocolVersion <=? protocol).
Qed.

Lemma write_ok h r (c : Client) (v : Viewer) m rest :
  cl_overviewSend c = m :: rest → viewer_ok h v → client_ok marshals h r c v →
  viewer_ok h (mkViewer (vw_net v ++ [m]) (vw_cursor v) (vw_view v) (vw_claims v)) ∧
  client_ok marshals h r (c <| cl_overviewSend := rest |>) (mkViewer (vw_net v ++ [m]) (vw_cursor v) (vw_view v) (vw_claims v)).
Proof.
  intros Hm (Hn & Hp & Hcl) [[A B C D E] Hr]. rewrite Hm in B. apply Forall_cons in B as [Hm1 Hrest]. split.
  - split_and!; [|done|done]. apply Forall_app. split; [done|by apply Forall_singleton].
  - split; [done|]. intros HM Hi. specialize (Hr HM Hi). unfold reaches in *. rewrite Hm in Hr. cbn. by rewrite <- app_assoc.
Qed.

Lemma receive_ok h r (c : Client) (v : Viewer) m rest cursor view :
  vw_net v = m :: rest → receive (vw_cursor v, vw_view v) m = (cursor, view) → viewer_ok h v → client_ok marshals h r c v →
  viewer_ok h (mkViewer rest cursor view (cursor :: vw_claims v)) ∧ client_ok marshals h r c (mkViewer rest cursor view (cursor :: vw_claims v)).
Proof.
  intros Hm Hrec (Hn & Hp & Hcl) [[A B C D E] Hr]. rewrite Hm in Hn. apply Forall_cons in Hn as [Hm1 Hrest].
  destruct (receive_sound h (vw_cursor v, vw_view v) m Hm1 Hp) as [Hp' Ho]. rewrite Hrec in Hp', Ho. cbn [fst snd] in Hp', Ho. split.
  - split_and!; [done|done|]. intros cl [->|Hin]%elem_of_cons Hk; cbn [vw_cursor].
    + split; [apply no_older_refl|]. destruct (Hp' Hk) as (s & Hs & _). by exists s.
    + destruct (Hcl cl Hin Hk) as [Ho' Hs]. split; [by eapply no_older_trans|done].
  - split; [split; try done; intros Hk; cbn; apply elem_of_cons; right; by apply C|].
    intros HM Hi. rewrite <- (Hr HM Hi). unfold reaches. rewrite Hm. cbn [vw_cursor vw_view vw_net app foldl]. by rewrite Hrec.
Qed.

(** ** The invariant *)

Lemma each_both (P : Client → Viewer → Prop) hub vs id c v : P c v → each P hub vs → each P (<[id := c]> hub) (<[id := v]> vs).
Proof.
  intros HP Hall id'. destruct (decide (id' = id)) as [->|Hne]; [rewrite !lookup_insert_eq; by constructor|by rewrite !lookup_insert_ne].
Qed.

Lemma each_viewer (P : Client → Viewer → Prop) hub vs id c v :
  hub !! id = Some c → P c v → each P hub vs → each P hub (<[id := v]> vs).
Proof. intros Hc HP Hall. rewrite <- (insert_id hub id c Hc). by apply each_both. Qed.

Lemma each_delete (P : Client → Viewer → Prop) hub vs id : each P hub vs → each P (delete id hub) (delete id vs).
Proof.
  intros Hall id'. destruct (decide (id' = id)) as [->|Hne]; [rewrite !lookup_delete_eq; constructor|by rewrite !lookup_delete_ne].
Qed.

Lemma world0_ok prom streamID : world_ok (world0 prom streamID).
Proof.
  split; [|intros id; cbn; rewrite !lookup_empty; constructor]. split; cbn; [lia| | | |by split|apply Forall_nil_2].
  - exists EmptySnapshot, EmptySnapshot. split_and!; [done|done|apply same_fields_refl].
  - intros u e [<- _]%lookup_singleton_Some. lia.
  - intros u s [<- _]%lookup_singleton_Some u' Hu'. assert (u' = 0) as -> by lia. by exists EmptySnapshot.
Qed.

Hypothesis HR : renormalizes renormalize.

Lemma step_ok w w' : step w w' → world_ok w → world_ok w'.
Proof.
  intros Hstep Hw. pose proof Hw as [Hr Hall]. destruct Hstep as
    [i newID resync dirty alertsDirty topologyDirty forceFull p [Hs Hf] Hp|i newID drained [Hs Hf] Honce|i newID [Hs Hf]
    |i newID id cursor reason [Hs Hf]|alerts alertVersion prom|id protocol cursor view _ Hpub|id cursor view _ Hpub|id v c protocol cursor Hv Hc Hcl
    |id v c cursor Hv Hc Hcl|id c Hc|id v c m rest Hv Hc Hm|id v m rest cursor view Hv Hm Hrec|id].
  - by eapply dirty_ok.
  - by apply once_step_ok.
  - by apply get_ok.
  - by apply sync_ok.
  - split; [by apply (runtime_ok_ext _ (pl_runtime (wd_pipeline w)))|by apply (ok_all_ext _ _ _ (pl_runtime (wd_pipeline w)))].
  - split; [done|]. apply each_both; [split; [by apply new_viewer_ok|by apply connect_ok]|done].
  - split; [done|]. apply each_both; [split; [by apply new_viewer_ok|by apply silent_ok]|done].
  - destruct (each_lookup _ _ _ _ _ Hall Hc) as (v' & Hv' & Hvok & Hcok). rewrite Hv in Hv'. injection Hv' as <-.
    split; [done|]. apply (each_insert _ _ _ _ _ v); [done| |done]. split; [done|by apply hello_ok].
  - destruct (each_lookup _ _ _ _ _ Hall Hc) as (v' & Hv' & Hvok & Hcok). rewrite Hv in Hv'. injection Hv' as <-.
    split; [done|]. apply (each_insert _ _ _ _ _ v); [done| |done]. split; [done|by apply ack_ok].
  - destruct (each_lookup _ _ _ _ _ Hall Hc) as (v & Hv & Hvok & Hcok).
    split; [done|]. apply (each_insert _ _ _ _ _ v); [done| |done]. split; [done|]. by apply (client_ok_ext _ _ c); auto.
  - destruct (each_lookup _ _ _ _ _ Hall Hc) as (v' & Hv' & Hvok & Hcok). rewrite Hv in Hv'. injection Hv' as <-.
    split; [done|]. apply each_both; [by apply write_ok|done].
  - pose proof (Hall id) as Hid. rewrite Hv in Hid. inversion Hid as [c ? [Hvok Hcok] Hc|]; subst. symmetry in Hc.
    split; [done|]. apply (each_viewer _ _ _ _ c); [done| |done]. by apply (receive_ok _ _ c v m).
  - split; [done|]. by apply each_delete.
Qed.

Lemma reachable_ok w : reachable w → world_ok w.
Proof. induction 1 as [|w w' _ IH Hstep]; [apply world0_ok|by apply (step_ok w)]. Qed.

Lemma viewer_of w id v : world_ok w → wd_viewers w !! id = Some v →
  ∃ c, pl_hub (wd_pipeline w) !! id = Some c ∧ viewer_ok (wd_history w) v ∧ client_ok marshals (wd_history w) (pl_runtime (wd_pipeline w)) c v.
Proof. intros [_ Hall] Hv. specialize (Hall id). rewrite Hv in Hall. inversion Hall as [c ? [? ?] Hc|]; subst. by exists c. Qed.

(** A viewer at the current version shows the last snapshot. *)
Lemma shows_last w (v : Viewer) mail :
  world_ok w → viewer_ok (wd_history w) v → Forall (msg_sound (wd_history w)) mail →
  reaches v mail = here (pl_runtime (wd_pipeline w)) →
  ∃ s, rtm_lastSnapshot (pl_runtime (wd_pipeline w)) = Some s ∧ shows (foldl receive (vw_cursor v, vw_view v) (vw_net v ++ mail)).2 s.
Proof.
  intros [Hr _] (Hn & Hp & _) Hm Hreach. unfold reaches in Hreach.
  destruct (receive_all (wd_history w) (vw_cursor v, vw_view v) (vw_net v ++ mail)) as [Hheld _]; [by apply Forall_app|done|].
  rewrite Hreach in Hheld. destruct (Hheld eq_refl) as (s0 & Hs0 & Hshow).
  destruct (ro_last _ _ Hr) as (s & s1 & Hs & Hs1 & Hsame). cbn in Hs0. rewrite Hs0 in Hs1. simplify_eq.
  exists s. split; [done|]. by apply (shows_same _ s1).
Qed.

(** ** What viewers see *)



(** C40: A synchronization of a connected client from any cursor whatsoever, known or not,
    stale, ahead or of another stream, always installs a complete recovery when messages can be
    encoded: its mailbox then takes the viewer to the current version, whether the recovery
    chosen is current, replay or snapshot, and whether it had to fall back. *)
Theorem sync_recovers w i newID id v cursor reason :
  reachable w → all_marshal marshals → inputs_ok i newID w → wd_viewers w !! id = Some v →
  let p' := syncOverviewClientLocked unicode_lower FormatFloat json_snapshot marshals Marshal renormalize i newID id cursor reason (wd_pipeline w) in
  ∃ c', pl_hub p' !! id = Some c' ∧ installed c' ∧ cl_closed c' = false ∧
    let held := foldl receive (vw_cursor v, vw_view v) (vw_net v ++ cl_overviewSend c') in
    held.1 = here (pl_runtime p') ∧ ∃ s, rtm_lastSnapshot (pl_runtime p') = Some s ∧ shows held.2 s.
Proof.
  intros Hw HM [Hs Hf] Hv. cbv zeta. pose proof (reachable_ok w Hw) as Hok.
  pose proof (sync_ok unicode_lower FormatFloat json_snapshot marshals Marshal renormalize _ _ i newID id cursor reason _ Hok Hf) as Hok'.
  set (p' := syncOverviewClientLocked _ _ _ _ _ _ _ _ _ _ _ _) in *.
  set (w' := publish p' w). change (world_ok w') in Hok'.
  destruct (viewer_of w' id v Hok' Hv) as (c' & Hc' & Hvok & Hcw & Hreach). exists c'.
  assert (Hi : installed c').
  { destruct (get_ok unicode_lower FormatFloat json_snapshot marshals _ _ i newID _ Hok Hf) as [H1 H2].
    cbn in Hc'. subst p' w'. unfold syncOverviewClientLocked in Hc'. destruct (getOrBuildOverviewStateLocked _ _ _ _ _ _ _) as [state p1].
    cbn [fst snd] in H1, H2. destruct H1 as [Hr1 Hall1]. pose proof (Hall1 id) as Hid. rewrite Hv in Hid.
    inversion Hid as [c1 ? [Hvok1 [Hcw1 _]] Hc1|]; subst. rewrite <- Hc1 in Hc'. cbn in Hc'. rewrite lookup_insert_eq in Hc'.
    injection Hc' as <-. by eapply sync_installed. }
  specialize (Hreach HM Hi). split_and!; [done|done|apply Hcw|done|]. by apply (shows_last w'); [| |apply Hcw|].
Qed.
End world.

(** ** A run with one client: connection, first synchronization, delivery, a flush after a change *)

Definition demo_format (f : float64) : string := "0".
Definition demo_parse (s : string) : option UUID := None.
Definition demo_json (s : SnapshotPayload) : option (list Z) := Some [].
Definition demo_marshals (m : @Message Empty_set) : bool := true.

Abbreviation demo_world := (@World Empty_set) (only parsing).
Abbreviation demo_reachable := (reachable (λ s, s) demo_format demo_parse demo_json demo_marshals marshal10 no_foreign) (only parsing).

Definition demo_device : Device :=
  {| dev_ID := 7; dev_Hostname := "r1"; dev_SysName := ""; dev_IP := "10.0.0.1"; dev_SNMPCredentials := dev_SNMPCredentials zeroDevice;
     dev_DeviceType := ""; dev_PollClass := ""; dev_PollIntervalOverride := None; dev_PollingEnabled := None;
     dev_Status := ""; dev_Managed := true; dev_Interfaces := []; dev_Addresses := []; dev_ProbePorts := []; dev_AreaIDs := [];
     dev_MetricsSource := ""; dev_TopologyDiscoveryMode := ""; dev_TopologyBootstrapState := "" |}.
Definition demo_inputs (health : HealthStatus) : Inputs :=
  mkInputs (Ok [demo_device]) (Ok []) {[ 7 := zeroDeviceState <| ds_Health := health |> ]}.

Definition demo_sync (w : demo_world) : demo_world :=
  publish (syncOverviewClientLocked (λ s, s) demo_format demo_json demo_marshals marshal10 no_foreign (demo_inputs HealthNone) "s1" 0%nat
    zeroCursor "" (wd_pipeline w)) w.
Definition demo_flush (w : demo_world) : demo_world :=
  match broadcastDirty (λ s, s) demo_format demo_parse demo_json demo_marshals marshal10 no_foreign (demo_inputs HealthStatusCritical) "s2" false {[ 7 ]}
          false false false (wd_pipeline w) with
  | Ok p => publish p w
  | Err _ => w
  end.
Definition demo_write (w : demo_world) : demo_world :=
  match wd_viewers w !! 0%nat, pl_hub (wd_pipeline w) !! 0%nat with
  | Some v, Some c =>
    match cl_overviewSend c with
    | m :: rest => with_viewer 0%nat (mkViewer (vw_net v ++ [m]) (vw_cursor v) (vw_view v) (vw_claims v))
                     (with_client 0%nat (c <| cl_overviewSend := rest |>) w)
    | [] => w
    end
  | _, _ => w
  end.
Definition demo_receive (w : demo_world) : demo_world :=
  match wd_viewers w !! 0%nat with
  | Some v =>
    match vw_net v with
    | m :: rest => let held := receive (vw_cursor v, vw_view v) m in
                   with_viewer 0%nat (mkViewer rest held.1 held.2 (held.1 :: vw_claims v)) w
    | [] => w
    end
  | None => w
  end.

(** The viewer acknowledges where it is. *)
Definition demo_ack (w : demo_world) : demo_world :=
  match wd_viewers w !! 0%nat, pl_hub (wd_pipeline w) !! 0%nat with
  | Some v, Some c => if decide (vw_cursor v ∈ vw_claims v) then with_client 0%nat (acceptRuntimeAck (vw_cursor v) c).2 w else w
  | _, _ => w
  end.

Definition viewing0 : demo_world :=
  with_viewer 0%nat (mkViewer [] zeroCursor (∅, ∅) [zeroCursor])
    (with_client 0%nat (beginBootstrapSnapshotSelection (initializeRuntimeQueryHello 2 zeroCursor newClient))
       (world0 {| ps_Enabled := true; ps_Available := true; ps_Error := "" |} "s0")).
Definition viewing1 : demo_world := demo_ack (demo_receive (demo_receive (demo_write (demo_write (demo_sync viewing0))))).
Definition viewing2 : demo_world := demo_flush viewing1.

Lemma demo_write_reachable w : demo_reachable w → demo_reachable (demo_write w).
Proof.
  intros Hw. unfold demo_write. destruct (wd_viewers w !! _) eqn:Hv; [|done]. destruct (pl_hub _ !! _) eqn:Hc; [|done].
  destruct (cl_overviewSend _) eqn:Hm; [done|]. eapply reachable_step; [exact Hw|]. by apply SWrite.
Qed.

Lemma demo_receive_reachable w : demo_reachable w → demo_reachable (demo_receive w).
Proof.
  intros Hw. unfold demo_receive. destruct (wd_viewers w !! _) as [v|] eqn:Hv; [|done]. destruct (vw_net v) as [|m rest] eqn:Hm; [done|].
  eapply reachable_step; [exact Hw|]. eapply SReceive; [exact Hv|exact Hm|apply surjective_pairing].
Qed.

Lemma demo_ack_reachable w : demo_reachable w → demo_reachable (demo_ack w).
Proof.
  intros Hw. unfold demo_ack. destruct (wd_viewers w !! _) as [v|] eqn:Hv; [|done]. destruct (pl_hub _ !! _) eqn:Hc; [|done].
  destruct (decide _) as [Hin|]; [|done]. eapply reachable_step; [exact Hw|]. eapply SAck; [exact Hv|exact Hc|by right].
Qed.

Lemma demo_inputs_ok health newID (w : demo_world) :
  bool_decide (map_Forall (λ _ e, e.1 ≠ newID) (wd_history w)) = true →
  (rtm_overviewVersion (pl_runtime (wd_pipeline w)) + 1 <? 2 ^ 64) = true → inputs_ok (demo_inputs health) newID w.
Proof.
  intros Hf Hb. apply bool_decide_eq_true in Hf. split_and!.
  - apply map_Forall_singleton. by apply map_Forall_empty.
  - intros v st s Hs. exact (Hf v _ Hs).
  - by apply Z.ltb_lt.
Qed.

Lemma viewing1_reachable : demo_reachable viewing1.
Proof.
  apply demo_ack_reachable, demo_receive_reachable, demo_receive_reachable, demo_write_reachable, demo_write_reachable.
  apply (reachable_step _ _ _ _ _ _ _ viewing0).
  - eapply reachable_step; [apply reachable_init|]. by apply SConnect.
  - apply SSync, demo_inputs_ok; vm_compute; reflexivity.
Qed.

Lemma viewing2_reachable : demo_reachable viewing2.
Proof.
  unfold viewing2, demo_flush. destruct (broadcastDirty _ _ _ _ _ _ _ _ _ _ _ _ _ _) as [p|] eqn:Hp; [|apply viewing1_reachable].
  eapply reachable_step; [apply viewing1_reachable|]. eapply SDirty; [|exact Hp]. apply demo_inputs_ok; vm_compute; reflexivity.
Qed.

Definition demo_client : @Client Empty_set := default newClient (pl_hub (wd_pipeline viewing2) !! 0%nat).
Definition demo_viewer : @Viewer Empty_set := default (mkViewer [] zeroCursor (∅, ∅) []) (wd_viewers viewing2 !! 0%nat).



(** A replay from version 1 takes the viewer to version 2. *)
Definition demo_recovered : @Pipeline Empty_set :=
  syncOverviewClientLocked (λ s, s) demo_format demo_json demo_marshals marshal10 no_foreign (demo_inputs HealthNone) "s3" 0%nat
    (mkCursor "s1" 1 true) "" (wd_pipeline viewing2).

Lemma sync_recovers_witness :
  ∃ c', pl_hub demo_recovered !! 0%nat = Some c' ∧ installed c' ∧ cl_pendingOverviewRecovery c' = Some (mkRecovery "s1" 2 ModeReplay) ∧
    cur_Version (foldl receive (vw_cursor demo_viewer, vw_view demo_viewer) (vw_net demo_viewer ++ cl_overviewSend c')).1 = 2.
Proof.
  destruct (sync_recovers (λ s, s) demo_format demo_parse demo_json demo_marshals marshal10 no_foreign no_foreign_ok viewing2
    (demo_inputs HealthNone) "s3" 0%nat demo_viewer (mkCursor "s1" 1 true) "" viewing2_reachable (λ m, eq_refl)) as (c' & Hc & Hi & _ & Hh & _).
  - apply demo_inputs_ok; vm_compute; reflexivity.
  - vm_compute. reflexivity.
  - exists c'. split; [exact Hc|]. split; [exact Hi|]. split; [vm_compute in Hc; injection Hc as <-; reflexivity|].
    rewrite Hh. vm_compute. reflexivity.
Defined.
