(* ===== verification/DeviceCache.v ===== *)
(** * The device and link cache

    [internal/cache/cache.go] with the change feeds of the repositories it reads
    ([publishChange] and the subscriptions of [internal/repository/postgres/device_repo.go] and
    [link_repo.go]).  Devices and links are kept in memory; a write to the database is followed
    by an event on a bounded channel per subscriber, or by a repair flag when a channel is full.

    A read of the cache holds the lock except while it loads rows.  [prepareLocked] is the code
    run by one reader when nothing else happens; [DeviceCacheSync] cuts the same pieces
    ([prepare_begin], [drain_one], [after_snapshot], [after_changes]) into steps that interleave
    with writers.  What the repositories answer to the loads is an argument ([TableReads]); a
    load can fail or panic.  Loops over maps take the order as an argument where it shows. *)

From S2P Require Import Prelude GoLib GoText Domain Runtime.

(** ** Change events and their feed *)

Inductive ChangeKind := ChangeKindCreated | ChangeKindUpdated | ChangeKindDeleted.
#[export] Instance ChangeKind_eq_dec : EqDecision ChangeKind.
Proof. solve_decision. Defined.

(** [domain.DeviceChangeEvent] and [domain.LinkChangeEvent] *)
Record ChangeEvent := mkEvent { ev_Kind : ChangeKind; ev_ID : UUID }.
#[export] Instance ChangeEvent_eq_dec : EqDecision ChangeEvent.
Proof. solve_decision. Defined.

Record Chan := mkChan { ch_cap : nat; ch_queue : list ChangeEvent }.

(** The change feed of a repository: the channels of its subscribers and the repair flag they share. *)
Record ChangeFeed := mkFeed { fd_subscribers : list Chan; fd_repairPending : bool }.

(** The channel made by [SubscribeDeviceChanges] and [SubscribeLinkChanges] is named by its position. *)
Definition Subscribe (buffer : nat) (f : ChangeFeed) : nat * ChangeFeed :=
  let buffer := match buffer with O => 256%nat | _ => buffer end in
  (length (fd_subscribers f), mkFeed (fd_subscribers f ++ [mkChan buffer []]) (fd_repairPending f)).

(** [DrainDeviceRepair], [DrainLinkRepair] *)
Definition DrainRepair (f : ChangeFeed) : bool * ChangeFeed := (fd_repairPending f, mkFeed (fd_subscribers f) false).

(** A non-blocking send to one subscriber. *)
Definition offer (event : ChangeEvent) (c : Chan) : Chan * bool :=
  if (length (ch_queue c) <? ch_cap c)%nat then (mkChan (ch_cap c) (ch_queue c ++ [event]), false) else (c, true).

Definition publishChange (event : ChangeEvent) (f : ChangeFeed) : ChangeFeed :=
  mkFeed (map (λ c, (offer event c).1) (fd_subscribers f))
         (foldl (λ repair c, if (offer event c).2 then true else repair) (fd_repairPending f) (fd_subscribers f)).

(** [case event := <-ch: ... default:] on the channel at a position *)
Definition receive (i : nat) (f : ChangeFeed) : option (ChangeEvent * ChangeFeed) :=
  match fd_subscribers f !! i with
  | Some (mkChan cap (event :: q)) => Some (event, mkFeed (<[i := mkChan cap q]> (fd_subscribers f)) (fd_repairPending f))
  | _ => None
  end.

(** ** State *)

Record linkEndpointKey := mkEndpointKey { ek_source : UUID; ek_sourceIfName : string; ek_target : UUID; ek_targetIfName : string }.
#[export] Instance linkEndpointKey_eq_dec : EqDecision linkEndpointKey.
Proof. solve_decision. Defined.
#[export] Instance linkEndpointKey_countable : Countable linkEndpointKey.
Proof.
  apply (inj_countable' (λ k, (ek_source k, ek_sourceIfName k, ek_target k, ek_targetIfName k))
                        (λ '(a, b, c, d), mkEndpointKey a b c d)). by intros [].
Defined.

(** [None] is a nil channel, and a nil repair function. *)
Record DeviceLinkCache := mkCache {
  dc_refreshing : bool;
  dc_devicesByID : gmap UUID Device;
  dc_devicesBySysName : gmap string UUID;
  dc_linksByID : gmap UUID Link;
  dc_linksByEndpoint : gmap linkEndpointKey UUID;
  dc_linksByDevice : gmap UUID (gset UUID);
  dc_devices : list Device;
  dc_links : list Link;
  dc_devicesDirty : bool;
  dc_linksDirty : bool;
  dc_loaded : bool;
  dc_needsFullReload : bool;
  dc_deviceChanges : option nat;
  dc_linkChanges : option nat;
  dc_useIncremental : bool }.

#[export] Instance upd_dc_refreshing : Update dc_refreshing := λ v r, mkCache v (dc_devicesByID r) (dc_devicesBySysName r) (dc_linksByID r) (dc_linksByEndpoint r) (dc_linksByDevice r) (dc_devices r) (dc_links r) (dc_devicesDirty r) (dc_linksDirty r) (dc_loaded r) (dc_needsFullReload r) (dc_deviceChanges r) (dc_linkChanges r) (dc_useIncremental r).
#[export] Instance upd_dc_devicesByID : Update dc_devicesByID := λ v r, mkCache (dc_refreshing r) v (dc_devicesBySysName r) (dc_linksByID r) (dc_linksByEndpoint r) (dc_linksByDevice r) (dc_devices r) (dc_links r) (dc_devicesDirty r) (dc_linksDirty r) (dc_loaded r) (dc_needsFullReload r) (dc_deviceChanges r) (dc_linkChanges r) (dc_useIncremental r).
#[export] Instance upd_dc_devicesBySysName : Update dc_devicesBySysName := λ v r, mkCache (dc_refreshing r) (dc_devicesByID r) v (dc_linksByID r) (dc_linksByEndpoint r) (dc_linksByDevice r) (dc_devices r) (dc_links r) (dc_devicesDirty r) (dc_linksDirty r) (dc_loaded r) (dc_needsFullReload r) (dc_deviceChanges r) (dc_linkChanges r) (dc_useIncremental r).
#[export] Instance upd_dc_linksByID : Update dc_linksByID := λ v r, mkCache (dc_refreshing r) (dc_devicesByID r) (dc_devicesBySysName r) v (dc_linksByEndpoint r) (dc_linksByDevice r) (dc_devices r) (dc_links r) (dc_devicesDirty r) (dc_linksDirty r) (dc_loaded r) (dc_needsFullReload r) (dc_deviceChanges r) (dc_linkChanges r) (dc_useIncremental r).
#[export] Instance upd_dc_linksByEndpoint : Update dc_linksByEndpoint := λ v r, mkCache (dc_refreshing r) (dc_devicesByID r) (dc_devicesBySysName r) (dc_linksByID r) v (dc_linksByDevice r) (dc_devices r) (dc_links r) (dc_devicesDirty r) (dc_linksDirty r) (dc_loaded r) (dc_needsFullReload r) (dc_deviceChanges r) (dc_linkChanges r) (dc_useIncremental r).
#[export] Instance upd_dc_linksByDevice : Update dc_linksByDevice := λ v r, mkCache (dc_refreshing r) (dc_devicesByID r) (dc_devicesBySysName r) (dc_linksByID r) (dc_linksByEndpoint r) v (dc_devices r) (dc_links r) (dc_devicesDirty r) (dc_linksDirty r) (dc_loaded r) (dc_needsFullReload r) (dc_deviceChanges r) (dc_linkChanges r) (dc_useIncremental r).
#[export] Instance upd_dc_devices : Update dc_devices := λ v r, mkCache (dc_refreshing r) (dc_devicesByID r) (dc_devicesBySysName r) (dc_linksByID r) (dc_linksByEndpoint r) (dc_linksByDevice r) v (dc_links r) (dc_devicesDirty r) (dc_linksDirty r) (dc_loaded r) (dc_needsFullReload r) (dc_deviceChanges r) (dc_linkChanges r) (dc_useIncremental r).
#[export] Instance upd_dc_links : Update dc_links := λ v r, mkCache (dc_refreshing r) (dc_devicesByID r) (dc_devicesBySysName r) (dc_linksByID r) (dc_linksByEndpoint r) (dc_linksByDevice r) (dc_devices r) v (dc_devicesDirty r) (dc_linksDirty r) (dc_loaded r) (dc_needsFullReload r) (dc_deviceChanges r) (dc_linkChanges r) (dc_useIncremental r).
#[export] Instance upd_dc_devicesDirty : Update dc_devicesDirty := λ v r, mkCache (dc_refreshing r) (dc_devicesByID r) (dc_devicesBySysName r) (dc_linksByID r) (dc_linksByEndpoint r) (dc_linksByDevice r) (dc_devices r) (dc_links r) v (dc_linksDirty r) (dc_loaded r) (dc_needsFullReload r) (dc_deviceChanges r) (dc_linkChanges r) (dc_useIncremental r).
#[export] Instance upd_dc_linksDirty : Update dc_linksDirty := λ v r, mkCache (dc_refreshing r) (dc_devicesByID r) (dc_devicesBySysName r) (dc_linksByID r) (dc_linksByEndpoint r) (dc_linksByDevice r) (dc_devices r) (dc_links r) (dc_devicesDirty r) v (dc_loaded r) (dc_needsFullReload r) (dc_deviceChanges r) (dc_linkChanges r) (dc_useIncremental r).
#[export] Instance upd_dc_loaded : Update dc_loaded := λ v r, mkCache (dc_refreshing r) (dc_devicesByID r) (dc_devicesBySysName r) (dc_linksByID r) (dc_linksByEndpoint r) (dc_linksByDevice r) (dc_devices r) (dc_links r) (dc_devicesDirty r) (dc_linksDirty r) v (dc_needsFullReload r) (dc_deviceChanges r) (dc_linkChanges r) (dc_useIncremental r).
#[export] Instance upd_dc_needsFullReload : Update dc_needsFullReload := λ v r, mkCache (dc_refreshing r) (dc_devicesByID r) (dc_devicesBySysName r) (dc_linksByID r) (dc_linksByEndpoint r) (dc_linksByDevice r) (dc_devices r) (dc_links r) (dc_devicesDirty r) (dc_linksDirty r) (dc_loaded r) v (dc_deviceChanges r) (dc_linkChanges r) (dc_useIncremental r).

(** What else the reader shares with the outside: both feeds and the signals in [invalidateCh]. *)
Record Feeds := mkFeeds { fs_devices : ChangeFeed; fs_links : ChangeFeed; fs_invalidations : nat }.

(** ** What the repositories answer *)

Inductive outcome (A : Type) : Type := Returned (a : A) | Failed (msg : string) | Panicked.
Arguments Returned {A} _.
Arguments Failed {A} _.
Arguments Panicked {A}.

Definition outcome_bind {A B} (o : outcome A) (f : A → outcome B) : outcome B :=
  match o with Returned a => f a | Failed e => Failed e | Panicked => Panicked end.

(** The reads of one repository during one load; [GetByIDs] is optional, and [GetByID] may answer nil. *)
Record TableReads (A : Type) := mkReads {
  tr_GetAll : outcome (list A);
  tr_GetByID : UUID → outcome (option A);
  tr_GetByIDs : option (list UUID → outcome (list A)) }.
Arguments tr_GetAll {A} _.
Arguments tr_GetByID {A} _ _.
Arguments tr_GetByIDs {A} _.

Abbreviation Batch := (gmap UUID ChangeEvent) (only parsing).
(** An order in which a [range] loop visits a map. *)
Definition Range := Batch → list (UUID * ChangeEvent).

Definition TrimSuffix (s suffix : string) : string :=
  let n := (String.length s - String.length suffix)%nat in
  if (String.length suffix <=? String.length s)%nat && String.eqb (String.substring n (String.length suffix) s) suffix
  then String.substring 0 n s else s.

Section cache.
Context (unicode_lower : string → string).

Definition NormalizeSysNameLookup (sysName : string) : string :=
  let normalized := ToLower unicode_lower (TrimSpace sysName) in
  let normalized := TrimSuffix normalized "." in
  match String.index 0 "." normalized with
  | Some idx => String.substring 0 idx normalized
  | None => normalized
  end.

Definition normalizeInterfaceName (value : string) : string := ToLower unicode_lower (TrimSpace value).

Definition makeLinkEndpointKey (l : Link) : linkEndpointKey :=
  mkEndpointKey (lk_SourceDeviceID l) (normalizeInterfaceName (lk_SourceIfName l)) (lk_TargetDeviceID l) (normalizeInterfaceName (lk_TargetIfName l)).

(** ** Updates of the maps and indexes *)

Definition index_sysName (d : Device) (m : gmap string UUID) : gmap string UUID :=
  let normalized := NormalizeSysNameLookup (dev_SysName d) in
  if String.eqb normalized "" then m else <[normalized := dev_ID d]> m.
Definition unindex_sysName (d : Device) (m : gmap string UUID) : gmap string UUID :=
  let normalized := NormalizeSysNameLookup (dev_SysName d) in
  if String.eqb normalized "" then m else delete normalized m.

Definition upsertDeviceLocked (d : Device) (c : DeviceLinkCache) : DeviceLinkCache :=
  let c := match dc_devicesByID c !! dev_ID d with
    | Some existing => c <| dc_devicesBySysName := unindex_sysName existing (dc_devicesBySysName c) |>
    | None => c
    end in
  c <| dc_devicesByID := <[dev_ID d := d]> (dc_devicesByID c) |>
    <| dc_devicesBySysName := index_sysName d (dc_devicesBySysName c) |>
    <| dc_devicesDirty := true |>.

Definition deleteDeviceLocked (id : UUID) (c : DeviceLinkCache) : DeviceLinkCache :=
  match dc_devicesByID c !! id with
  | None => c
  | Some existing =>
      c <| dc_devicesByID := delete id (dc_devicesByID c) |>
        <| dc_devicesBySysName := unindex_sysName existing (dc_devicesBySysName c) |>
        <| dc_devicesDirty := true |>
  end.

Definition index_endpoint (link id : UUID) (m : gmap UUID (gset UUID)) : gmap UUID (gset UUID) :=
  <[id := {[link]} ∪ default ∅ (m !! id)]> m.
Definition unindex_endpoint (link id : UUID) (m : gmap UUID (gset UUID)) : gmap UUID (gset UUID) :=
  let rest := default ∅ (m !! id) ∖ {[link]} in
  if bool_decide (rest = ∅) then delete id m else <[id := rest]> m.

Definition endpoints (l : Link) : list UUID := [lk_SourceDeviceID l; lk_TargetDeviceID l].
Definition indexLinkEndpointsLocked (l : Link) (m : gmap UUID (gset UUID)) : gmap UUID (gset UUID) :=
  foldl (λ m id, index_endpoint (lk_ID l) id m) m (endpoints l).
Definition unindexLinkEndpointsLocked (l : Link) (m : gmap UUID (gset UUID)) : gmap UUID (gset UUID) :=
  foldl (λ m id, unindex_endpoint (lk_ID l) id m) m (endpoints l).

Definition upsertLinkLocked (l : Link) (c : DeviceLinkCache) : DeviceLinkCache :=
  let c := match dc_linksByID c !! lk_ID l with
    | Some existing =>
        c <| dc_linksByDevice := unindexLinkEndpointsLocked existing (dc_linksByDevice c) |>
          <| dc_linksByEndpoint := delete (makeLinkEndpointKey existing) (dc_linksByEndpoint c) |>
    | None => c
    end in
  c <| dc_linksByID := <[lk_ID l := l]> (dc_linksByID c) |>
    <| dc_linksByEndpoint := <[makeLinkEndpointKey l := lk_ID l]> (dc_linksByEndpoint c) |>
    <| dc_linksByDevice := indexLinkEndpointsLocked l (dc_linksByDevice c) |>
    <| dc_linksDirty := true |>.

Definition deleteLinkLocked (id : UUID) (c : DeviceLinkCache) : DeviceLinkCache :=
  match dc_linksByID c !! id with
  | None => c
  | Some existing =>
      c <| dc_linksByDevice := unindexLinkEndpointsLocked existing (dc_linksByDevice c) |>
        <| dc_linksByID := delete id (dc_linksByID c) |>
        <| dc_linksByEndpoint := delete (makeLinkEndpointKey existing) (dc_linksByEndpoint c) |>
        <| dc_linksDirty := true |>
  end.

(** ** Loads *)

(** The rows a batch asks for: [deviceIDs] and [linkIDs]. *)
Definition changed_ids (batch : list (UUID * ChangeEvent)) : list UUID :=
  (filter (λ p, ev_Kind p.2 ≠ ChangeKindDeleted) batch).*1.

Definition missing {A} (what : string) (id : UUID) : outcome A := Failed ("changed " +:+ what +:+ " " +:+ uuid_String id +:+ " is missing")%string.

Fixpoint load_each {A} (what : string) (r : TableReads A) (ids : list UUID) (loaded : gmap UUID A) : outcome (gmap UUID A) :=
  match ids with
  | [] => Returned loaded
  | id :: ids =>
      outcome_bind (tr_GetByID r id) (λ row,
      match row with
      | None => missing what id
      | Some a => load_each what r ids (<[id := a]> loaded)
      end)
  end.

Definition load_batch {A} (what : string) (id_of : A → UUID) (get : list UUID → outcome (list A)) (ids : list UUID) : outcome (gmap UUID A) :=
  outcome_bind (get ids) (λ fetched,
  let loaded := foldl (λ m a, <[id_of a := a]> m) (∅ : gmap UUID A) fetched in
  match list_find (λ id, loaded !! id = None) ids with
  | Some (_, id) => missing what id
  | None => Returned loaded
  end).

Definition load_rows {A} (what : string) (id_of : A → UUID) (r : TableReads A) (ids : list UUID) : outcome (gmap UUID A) :=
  match tr_GetByIDs r with
  | Some get => if (1 <? length ids)%nat then load_batch what id_of get ids else load_each what r ids ∅
  | None => load_each what r ids ∅
  end.

Definition loadChanges (dr : TableReads Device) (lr : TableReads Link) (devices links : list (UUID * ChangeEvent))
    : outcome (gmap UUID Device * gmap UUID Link) :=
  outcome_bind (load_rows "device" dev_ID dr (changed_ids devices)) (λ loadedDevices,
  outcome_bind (load_rows "link" lk_ID lr (changed_ids links)) (λ loadedLinks,
  Returned (loadedDevices, loadedLinks))).

Definition loadSnapshot (dr : TableReads Device) (lr : TableReads Link) : outcome (list Device * list Link) :=
  outcome_bind (tr_GetAll dr) (λ devices, outcome_bind (tr_GetAll lr) (λ links, Returned (devices, links))).

(** ** Refresh *)

Definition beginRefreshLocked (c : DeviceLinkCache) : DeviceLinkCache := c <| dc_refreshing := true |>.
Definition finish (c : DeviceLinkCache) : DeviceLinkCache := c <| dc_refreshing := false |>.

(** The maps, lists and flags a full reload installs. *)
Definition install_snapshot (devices : list Device) (links : list Link) (c : DeviceLinkCache) : DeviceLinkCache :=
  c <| dc_devicesByID := foldl (λ m d, <[dev_ID d := d]> m) ∅ devices |>
    <| dc_devicesBySysName := foldl (λ m d, index_sysName d m) ∅ devices |>
    <| dc_linksByDevice := foldl (λ m l, indexLinkEndpointsLocked l m) ∅ links |>
    <| dc_linksByID := foldl (λ m l, <[lk_ID l := l]> m) ∅ links |>
    <| dc_linksByEndpoint := foldl (λ m l, <[makeLinkEndpointKey l := lk_ID l]> m) ∅ links |>
    <| dc_devices := devices |> <| dc_links := links |>
    <| dc_devicesDirty := false |> <| dc_linksDirty := false |>
    <| dc_loaded := true |> <| dc_needsFullReload := false |>.

(** What follows the loads of [reloadLocked], the deferred [relockAfterRead] and [finish] included. *)
Definition after_snapshot (o : outcome (list Device * list Link)) (c : DeviceLinkCache) : DeviceLinkCache * outcome unit :=
  match o with
  | Returned (devices, links) => (finish (install_snapshot devices links c), Returned tt)
  | Failed e => (finish c, Failed e)
  | Panicked => (finish (c <| dc_needsFullReload := true |>), Panicked)
  end.

Definition reloadLocked (dr : TableReads Device) (lr : TableReads Link) (c : DeviceLinkCache) : DeviceLinkCache * outcome unit :=
  after_snapshot (loadSnapshot dr lr) (beginRefreshLocked c).

Definition apply_device (loaded : gmap UUID Device) (c : DeviceLinkCache) (p : UUID * ChangeEvent) : DeviceLinkCache :=
  if decide (ev_Kind p.2 = ChangeKindDeleted) then deleteDeviceLocked p.1 c
  else match loaded !! p.1 with Some d => upsertDeviceLocked d c | None => c end.
Definition apply_link (loaded : gmap UUID Link) (c : DeviceLinkCache) (p : UUID * ChangeEvent) : DeviceLinkCache :=
  if decide (ev_Kind p.2 = ChangeKindDeleted) then deleteLinkLocked p.1 c
  else match loaded !! p.1 with Some l => upsertLinkLocked l c | None => c end.

(** What follows the loads of [applyPendingIncrementalChangesLocked]. *)
Definition after_changes (devices links : list (UUID * ChangeEvent)) (o : outcome (gmap UUID Device * gmap UUID Link))
    (c : DeviceLinkCache) : DeviceLinkCache * outcome unit :=
  match o with
  | Returned (loadedDevices, loadedLinks) =>
      (finish (foldl (apply_link loadedLinks) (foldl (apply_device loadedDevices) c devices) links), Returned tt)
  | Failed e => (finish c, Failed e)
  | Panicked => (finish (c <| dc_needsFullReload := true |>), Panicked)
  end.

(** One iteration of a drain loop: [None] when the loop ends. *)
Definition drain_one (ch : option nat) (f : ChangeFeed) (batch : Batch) : option (ChangeFeed * Batch) :=
  match ch with
  | None => None
  | Some i => (λ '(event, f), (f, <[ev_ID event := event]> batch)) <$> receive i f
  end.

Fixpoint drain (n : nat) (ch : option nat) (f : ChangeFeed) (batch : Batch) : ChangeFeed * Batch :=
  match n with
  | O => (f, batch)
  | S n => match drain_one ch f batch with
    | None => (f, batch)
    | Some (f, batch) => drain n ch f batch
    end
  end.

Definition drain_limit : nat := 512.

Definition applyPendingIncrementalChangesLocked (dr : TableReads Device) (lr : TableReads Link) (load_order apply_order : Range)
    (c : DeviceLinkCache) (fs : Feeds) : DeviceLinkCache * Feeds * outcome unit :=
  let '(fd, devices) := drain drain_limit (dc_deviceChanges c) (fs_devices fs) ∅ in
  let '(fl, links) := drain drain_limit (dc_linkChanges c) (fs_links fs) ∅ in
  let fs := mkFeeds fd fl (fs_invalidations fs) in
  if bool_decide (devices = ∅) && bool_decide (links = ∅) then (c, fs, Returned tt)
  else
    let '(c, o) := after_changes (apply_order devices) (apply_order links)
                     (loadChanges dr lr (load_order devices) (load_order links)) (beginRefreshLocked c) in
    (c, fs, o).

Definition drainInvalidations (c : DeviceLinkCache) (fs : Feeds) : DeviceLinkCache * Feeds :=
  (if (0 <? fs_invalidations fs)%nat then c <| dc_needsFullReload := true |> else c, mkFeeds (fs_devices fs) (fs_links fs) 0).

(** [if c.deviceRepair != nil && c.deviceRepair()]: the function is set together with the channel. *)
Definition check_repair (ch : option nat) (f : ChangeFeed) (c : DeviceLinkCache) : DeviceLinkCache * ChangeFeed :=
  match ch with
  | None => (c, f)
  | Some _ => let '(repair, f) := DrainRepair f in (if repair then c <| dc_needsFullReload := true |> else c, f)
  end.

Definition check_sources (c : DeviceLinkCache) (fs : Feeds) : DeviceLinkCache * Feeds :=
  if dc_useIncremental c then
    let '(c, fd) := check_repair (dc_deviceChanges c) (fs_devices fs) c in
    let '(c, fl) := check_repair (dc_linkChanges c) (fs_links fs) c in
    (c, mkFeeds fd fl (fs_invalidations fs))
  else drainInvalidations c fs.

(** What a reader does after it took the lock: return, wait for the refresh of another reader,
    load everything, or apply changes. *)
Inductive Next := NReturn | NWait | NReload | NApply.
Definition prepare_begin (c : DeviceLinkCache) (fs : Feeds) : DeviceLinkCache * Feeds * Next :=
  if dc_refreshing c then (c, fs, if dc_loaded c then NReturn else NWait)
  else
    let '(c, fs) := check_sources c fs in
    if negb (dc_loaded c) || dc_needsFullReload c then (c, fs, NReload)
    else if negb (dc_useIncremental c) then (c, fs, NReturn) else (c, fs, NApply).

(** An error of the incremental changes asks for a reload. *)
Definition demand_reload (c : DeviceLinkCache) : DeviceLinkCache := c <| dc_needsFullReload := true |>.

(** The reads of the first and of the second load of one call; [None]: the reader waits. *)
Record Reads := mkPrepareReads { rd_devices : nat → TableReads Device; rd_links : nat → TableReads Link; rd_load : Range; rd_apply : Range }.

Definition prepareLocked (rd : Reads) (c : DeviceLinkCache) (fs : Feeds) : DeviceLinkCache * Feeds * option (outcome unit) :=
  let '(c, fs, next) := prepare_begin c fs in
  match next with
  | NReturn => (c, fs, Some (Returned tt))
  | NWait => (c, fs, None)
  | NReload =>
      let '(c, o) := reloadLocked (rd_devices rd 0) (rd_links rd 0) c in
      match o with
      | Returned tt =>
          if dc_useIncremental c then
            let '(c, fs, o) := applyPendingIncrementalChangesLocked (rd_devices rd 1) (rd_links rd 1) (rd_load rd) (rd_apply rd) c fs in
            match o with
            | Failed e => (demand_reload c, fs, Some (Failed e))
            | _ => (c, fs, Some o)
            end
          else (c, fs, Some (Returned tt))
      | _ => (c, fs, Some o)
      end
  | NApply =>
      let '(c, fs, o) := applyPendingIncrementalChangesLocked (rd_devices rd 0) (rd_links rd 0) (rd_load rd) (rd_apply rd) c fs in
      match o with
      | Failed _ => let '(c, o) := reloadLocked (rd_devices rd 1) (rd_links rd 1) (demand_reload c) in (c, fs, Some o)
      | _ => (c, fs, Some o)
      end
  end.

(** ** Reads of the cache *)

Definition device_less (a b : Device) : bool :=
  if negb (String.eqb (dev_Hostname a) (dev_Hostname b)) then string_ltb (dev_Hostname a) (dev_Hostname b)
  else string_ltb (uuid_String (dev_ID a)) (uuid_String (dev_ID b)).
Definition link_less (a b : Link) : bool :=
  if negb (lk_CreatedAt a =? lk_CreatedAt b) then lk_CreatedAt a <? lk_CreatedAt b
  else string_ltb (uuid_String (lk_ID a)) (uuid_String (lk_ID b)).
Definition sort_Slice {A} (less : A → A → bool) (l : list A) : list A :=
  merge_sort (λ a b, less b a = false) (H:=λ a b, decide (less b a = false)) l.

Definition buildSortedDevices (m : gmap UUID Device) : list Device := sort_Slice device_less (map_to_list m).*2.
Definition buildSortedLinks (m : gmap UUID Link) : list Link := sort_Slice link_less (map_to_list m).*2.

Definition read_devices (c : DeviceLinkCache) : DeviceLinkCache * list Device :=
  let c := if dc_devicesDirty c then c <| dc_devices := buildSortedDevices (dc_devicesByID c) |> <| dc_devicesDirty := false |> else c in
  (c, dc_devices c).
Definition read_links (c : DeviceLinkCache) : DeviceLinkCache * list Link :=
  let c := if dc_linksDirty c then c <| dc_links := buildSortedLinks (dc_linksByID c) |> <| dc_linksDirty := false |> else c in
  (c, dc_links c).
Definition read_device_by_id (id : UUID) (c : DeviceLinkCache) : option Device := dc_devicesByID c !! id.
Definition read_device_by_sysName (sysName : string) (c : DeviceLinkCache) : option Device :=
  id ← dc_devicesBySysName c !! NormalizeSysNameLookup sysName; dc_devicesByID c !! id.
Definition read_link_by_id (id : UUID) (c : DeviceLinkCache) : option Link := dc_linksByID c !! id.
Definition read_link_by_endpoints (source : UUID) (sourceIfName : string) (target : UUID) (targetIfName : string) (c : DeviceLinkCache) : option Link :=
  id ← dc_linksByEndpoint c !! makeLinkEndpointKey {| lk_ID := uuid_Nil; lk_SourceDeviceID := source; lk_SourceIfName := sourceIfName;
                                                     lk_TargetDeviceID := target; lk_TargetIfName := targetIfName; lk_CreatedAt := 0 |};
  dc_linksByID c !! id.

Definition zeroLink : Link := {| lk_ID := uuid_Nil; lk_SourceDeviceID := uuid_Nil; lk_SourceIfName := ""; lk_TargetDeviceID := uuid_Nil; lk_TargetIfName := ""; lk_CreatedAt := 0 |}.

Definition add_endpoint (c : DeviceLinkCache) (m : gmap UUID Device) (id : UUID) : gmap UUID Device :=
  match dc_devicesByID c !! id with Some d => <[id := d]> m | None => m end.
Definition read_topology (id : UUID) (c : DeviceLinkCache) : gmap UUID Device * list Link :=
  let devices := add_endpoint c ∅ id in
  let links := map (λ l, default zeroLink (dc_linksByID c !! l)) (elements (default ∅ (dc_linksByDevice c !! id))) in
  (foldl (λ m l, foldl (add_endpoint c) m (endpoints l)) devices links, sort_Slice link_less links).

(** The getters: [prepareLocked], then a read under the same lock. *)
Definition get {A} (read : DeviceLinkCache → DeviceLinkCache * A) (rd : Reads) (c : DeviceLinkCache) (fs : Feeds)
    : DeviceLinkCache * Feeds * option (outcome A) :=
  let '(c, fs, o) := prepareLocked rd c fs in
  match o with
  | Some (Returned tt) => let '(c, a) := read c in (c, fs, Some (Returned a))
  | Some (Failed e) => (c, fs, Some (Failed e))
  | Some Panicked => (c, fs, Some Panicked)
  | None => (c, fs, None)
  end.

Definition GetDevices := get read_devices.
Definition GetLinks := get read_links.
Definition GetDeviceByID (id : UUID) := get (λ c, (c, read_device_by_id id c)).
Definition GetDeviceBySysName (sysName : string) := get (λ c, (c, read_device_by_sysName sysName c)).
Definition GetLinkByID (id : UUID) := get (λ c, (c, read_link_by_id id c)).
Definition GetLinkByEndpointPair (source : UUID) (sourceIfName : string) (target : UUID) (targetIfName : string) :=
  get (λ c, (c, read_link_by_endpoints source sourceIfName target targetIfName c)).
Definition GetDeviceTopology (id : UUID) := get (λ c, (c, read_topology id c)).
End cache.

(** ** Construction *)

(** [None] is a repository that publishes no changes. *)
Definition subscribe_to (f : option ChangeFeed) : option nat * option ChangeFeed :=
  match f with
  | Some f => let '(i, f) := Subscribe 256 f in (Some i, Some f)
  | None => (None, None)
  end.

Definition NewDeviceLinkCache (devices links : option ChangeFeed) : DeviceLinkCache * option ChangeFeed * option ChangeFeed :=
  let '(d, devices) := subscribe_to devices in
  let '(l, links) := subscribe_to links in
  (mkCache false ∅ ∅ ∅ ∅ ∅ [] [] true true false true d l (bool_decide (is_Some d) || bool_decide (is_Some l)), devices, links).
