(* ===== verification/DeviceCacheInv.v ===== *)
(** * The maps and indexes of the device and link cache

    The invariant [indexed] of the maps of [DeviceLinkCache], kept by every update: rows are
    filed under their id, an entry of a name or endpoint index leads to a row with that name or
    those endpoints, and the links of a device are exactly its incident links. *)

From S2P Require Import Prelude GoLib GoText Domain Runtime DeviceCache.

Section indexes.
Context (unicode_lower : string → string).
Notation NSL := (NormalizeSysNameLookup unicode_lower).
Notation key := (makeLinkEndpointKey unicode_lower).
Implicit Types (c : DeviceLinkCache) (d : Device) (l : Link).

(** ** Links by device *)

Definition links_at (m : gmap UUID (gset UUID)) (id : UUID) : gset UUID := default ∅ (m !! id).
Definition no_empty (m : gmap UUID (gset UUID)) : Prop := ∀ id, m !! id ≠ Some ∅.

Lemma links_at_index x link id m : links_at (index_endpoint link id m) x = if decide (x = id) then {[link]} ∪ links_at m x else links_at m x.
Proof. unfold links_at, index_endpoint. case_decide; subst; [by rewrite lookup_insert_eq|by rewrite lookup_insert_ne]. Qed.

Lemma links_at_unindex x link id m : links_at (unindex_endpoint link id m) x = if decide (x = id) then links_at m x ∖ {[link]} else links_at m x.
Proof.
  unfold links_at, unindex_endpoint. case_bool_decide as E; case_decide; subst.
  - by rewrite lookup_delete_eq, E.
  - by rewrite lookup_delete_ne.
  - by rewrite lookup_insert_eq.
  - by rewrite lookup_insert_ne.
Qed.

Lemma no_empty_index link id m : no_empty m → no_empty (index_endpoint link id m).
Proof.
  intros Hm x. unfold index_endpoint. destruct (decide (x = id)) as [->|].
  - rewrite lookup_insert_eq. intros [= E]. set_solver.
  - rewrite lookup_insert_ne by done. apply Hm.
Qed.

Lemma no_empty_unindex link id m : no_empty m → no_empty (unindex_endpoint link id m).
Proof.
  intros Hm x. unfold unindex_endpoint. case_bool_decide; destruct (decide (x = id)) as [->|];
    rewrite ?lookup_delete_eq, ?lookup_insert_eq, ?lookup_delete_ne, ?lookup_insert_ne by done; try done; try apply Hm. congruence.
Qed.

Lemma elem_indexLink l m x id : x ∈ links_at (indexLinkEndpointsLocked l m) id ↔ x ∈ links_at m id ∨ (x = lk_ID l ∧ id ∈ endpoints l).
Proof.
  unfold indexLinkEndpointsLocked, endpoints. simpl. rewrite !links_at_index. repeat case_decide; subst; set_solver.
Qed.

Lemma elem_unindexLink l m x id : x ∈ links_at (unindexLinkEndpointsLocked l m) id ↔ x ∈ links_at m id ∧ ¬ (x = lk_ID l ∧ id ∈ endpoints l).
Proof.
  unfold unindexLinkEndpointsLocked, endpoints. simpl. rewrite !links_at_unindex. repeat case_decide; subst; set_solver.
Qed.

Lemma no_empty_indexLink l m : no_empty m → no_empty (indexLinkEndpointsLocked l m).
Proof. intros. by do 2 apply no_empty_index. Qed.
Lemma no_empty_unindexLink l m : no_empty m → no_empty (unindexLinkEndpointsLocked l m).
Proof. intros. by do 2 apply no_empty_unindex. Qed.

#[local] Arguments indexLinkEndpointsLocked : simpl never.
#[local] Arguments unindexLinkEndpointsLocked : simpl never.

(** ** The invariant *)

Definition filed {A} (id_of : A → UUID) (rows : gmap UUID A) : Prop := ∀ id a, rows !! id = Some a → id_of a = id.
Definition incident (links : gmap UUID Link) (id x : UUID) : Prop := ∃ l, links !! x = Some l ∧ id ∈ endpoints l.

Record indexed c : Prop := {
  ix_devices : filed dev_ID (dc_devicesByID c);
  ix_links : filed lk_ID (dc_linksByID c);
  ix_names : ∀ n id, dc_devicesBySysName c !! n = Some id → n ≠ "" ∧ ∃ d, dc_devicesByID c !! id = Some d ∧ NSL (dev_SysName d) = n;
  ix_endpoints : ∀ k id, dc_linksByEndpoint c !! k = Some id → ∃ l, dc_linksByID c !! id = Some l ∧ key l = k;
  ix_incident : ∀ id x, x ∈ links_at (dc_linksByDevice c) id ↔ incident (dc_linksByID c) id x;
  ix_no_empty : no_empty (dc_linksByDevice c) }.

(** Only the maps and the two indexes count. *)
Definition same_maps c c' : Prop :=
  dc_devicesByID c = dc_devicesByID c' ∧ dc_devicesBySysName c = dc_devicesBySysName c' ∧ dc_linksByID c = dc_linksByID c' ∧
  dc_linksByEndpoint c = dc_linksByEndpoint c' ∧ dc_linksByDevice c = dc_linksByDevice c'.

Lemma indexed_same c c' : same_maps c c' → indexed c → indexed c'.
Proof. intros (E1 & E2 & E3 & E4 & E5) [H1 H2 H3 H4 H5 H6]. split; rewrite <- ?E1, <- ?E2, <- ?E3, <- ?E4, <- ?E5; done. Qed.

Lemma filed_insert {A} (id_of : A → UUID) (rows : gmap UUID A) a : filed id_of rows → filed id_of (<[id_of a := a]> rows).
Proof. intros H id b. rewrite lookup_insert_Some. naive_solver. Qed.

Lemma filed_delete {A} (id_of : A → UUID) (rows : gmap UUID A) i : filed id_of rows → filed id_of (delete i rows).
Proof. intros H id b. rewrite lookup_delete_Some. naive_solver. Qed.

Lemma unindex_sysName_Some d names n id :
  unindex_sysName unicode_lower d names !! n = Some id → names !! n = Some id ∧ (n ≠ "" → n ≠ NSL (dev_SysName d)).
Proof.
  unfold unindex_sysName. destruct (String.eqb_spec (NSL (dev_SysName d)) ""); [naive_solver congruence|].
  rewrite lookup_delete_Some. naive_solver.
Qed.

Lemma index_sysName_Some d names n id :
  index_sysName unicode_lower d names !! n = Some id →
  (n = NSL (dev_SysName d) ∧ n ≠ "" ∧ id = dev_ID d) ∨ names !! n = Some id.
Proof.
  unfold index_sysName. destruct (String.eqb_spec (NSL (dev_SysName d)) ""); [tauto|].
  rewrite lookup_insert_Some. naive_solver.
Qed.

Lemma upsertDevice_indexed d c : indexed c → indexed (upsertDeviceLocked unicode_lower d c).
Proof.
  intros [H1 H2 H3 H4 H5 H6]. split; unfold upsertDeviceLocked; destruct (dc_devicesByID c !! dev_ID d) as [e|] eqn:Ee; cbn; try done.
  1,2: by apply filed_insert.
  - intros n id [(-> & Hn & ->)|Hn]%index_sysName_Some; [by rewrite lookup_insert_eq; eauto|].
    apply unindex_sysName_Some in Hn as [Hn Hne]. destruct (H3 _ _ Hn) as [Hn0 (d' & Hd & En)]. split; [done|].
    destruct (decide (id = dev_ID d)) as [->|]; [|exists d'; by rewrite lookup_insert_ne]. destruct (Hne Hn0). congruence.
  - intros n id [(-> & Hn & ->)|Hn]%index_sysName_Some; [by rewrite lookup_insert_eq; eauto|].
    destruct (H3 _ _ Hn) as [Hn0 (d' & Hd & En)]. split; [done|]. exists d'. rewrite lookup_insert_ne by congruence. done.
Qed.

Lemma deleteDevice_indexed id c : indexed c → indexed (deleteDeviceLocked unicode_lower id c).
Proof.
  intros Hc. unfold deleteDeviceLocked. destruct (dc_devicesByID c !! id) as [e|] eqn:Ee; [|done].
  destruct Hc as [H1 H2 H3 H4 H5 H6]. split; cbn; try done.
  - by apply filed_delete.
  - intros n i [Hn Hne]%unindex_sysName_Some. destruct (H3 _ _ Hn) as [Hn0 (d' & Hd & En)]. split; [done|].
    exists d'. split; [|done]. rewrite lookup_delete_ne; [done|]. intros ->. destruct (Hne Hn0). congruence.
Qed.

Lemma incident_insert (links : gmap UUID Link) l id x :
  incident (<[lk_ID l := l]> links) id x ↔ (x = lk_ID l ∧ id ∈ endpoints l) ∨ (x ≠ lk_ID l ∧ incident links id x).
Proof.
  unfold incident. destruct (decide (x = lk_ID l)) as [->|]; [rewrite lookup_insert_eq|rewrite lookup_insert_ne by done]; naive_solver.
Qed.

Lemma incident_delete (links : gmap UUID Link) i id x : incident (delete i links) id x ↔ x ≠ i ∧ incident links id x.
Proof.
  unfold incident. destruct (decide (x = i)) as [->|]; [rewrite lookup_delete_eq|rewrite lookup_delete_ne by done]; naive_solver.
Qed.

(** Without the row at [e], a link is incident in the index exactly if it is in the map. *)
Lemma unindex_incident c e id x :
  indexed c → dc_linksByID c !! lk_ID e = Some e →
  x ∈ links_at (unindexLinkEndpointsLocked e (dc_linksByDevice c)) id ↔ x ≠ lk_ID e ∧ incident (dc_linksByID c) id x.
Proof.
  intros [] He. rewrite elem_unindexLink, ix_incident0. split.
  - intros [Hi Hn]. split; [|done]. intros ->. destruct Hi as (l & Hl & ?). naive_solver congruence.
  - naive_solver.
Qed.

Lemma upsertLink_indexed l c : indexed c → indexed (upsertLinkLocked unicode_lower l c).
Proof.
  intros Hc. pose proof Hc as [H1 H2 H3 H4 H5 H6].
  unfold upsertLinkLocked; destruct (dc_linksByID c !! lk_ID l) as [e|] eqn:Ee; split; cbn; try done.
  1,5: by apply filed_insert.
  - intros k id [[<- <-]|[Hk [Hk' Hid]%lookup_delete_Some]]%lookup_insert_Some; [exists l; by rewrite lookup_insert_eq|].
    destruct (H4 _ _ Hid) as (l' & Hl' & El). exists l'. split; [|done]. rewrite lookup_insert_ne; [done|]. congruence.
  - intros id x. rewrite elem_indexLink, incident_insert. pose proof (H2 _ _ Ee) as Eid.
    rewrite unindex_incident by (rewrite ?Eid; done). rewrite Eid. tauto.
  - by apply no_empty_indexLink, no_empty_unindexLink.
  - intros k id [[<- <-]|[Hk Hid]]%lookup_insert_Some; [exists l; by rewrite lookup_insert_eq|].
    destruct (H4 _ _ Hid) as (l' & Hl' & El). exists l'. split; [|done]. rewrite lookup_insert_ne; [done|]. congruence.
  - intros id x. rewrite elem_indexLink, incident_insert, H5. split; [|tauto].
    intros [Hi|?]; [|tauto]. right. split; [|done]. intros ->. destruct Hi as (? & ? & _). congruence.
  - by apply no_empty_indexLink.
Qed.

Lemma deleteLink_indexed id c : indexed c → indexed (deleteLinkLocked unicode_lower id c).
Proof.
  intros Hc. pose proof Hc as [H1 H2 H3 H4 H5 H6]. unfold deleteLinkLocked.
  destruct (dc_linksByID c !! id) as [e|] eqn:Ee; [|done]. pose proof (H2 _ _ Ee) as Eid. split; cbn; try done.
  - by apply filed_delete.
  - intros k i [Hk Hi]%lookup_delete_Some. destruct (H4 _ _ Hi) as (l' & Hl' & El). exists l'. split; [|done].
    rewrite lookup_delete_ne; [done|]. congruence.
  - intros i x. rewrite unindex_incident, incident_delete by (rewrite ?Eid; done). by rewrite Eid.
  - by apply no_empty_unindexLink.
Qed.

Lemma apply_device_indexed loaded c p : indexed c → indexed (apply_device unicode_lower loaded c p).
Proof. unfold apply_device. cases; auto using deleteDevice_indexed, upsertDevice_indexed. Qed.
Lemma apply_link_indexed loaded c p : indexed c → indexed (apply_link unicode_lower loaded c p).
Proof. unfold apply_link. cases; auto using deleteLink_indexed, upsertLink_indexed. Qed.

Lemma apply_changes_indexed loadedD loadedL devices links c :
  indexed c → indexed (foldl (apply_link unicode_lower loadedL) (foldl (apply_device unicode_lower loadedD) c devices) links).
Proof.
  intros Hc. assert (Hd : indexed (foldl (apply_device unicode_lower loadedD) c devices)).
  { revert c Hc. induction devices; intros; [done|]. simpl. eauto using apply_device_indexed. }
  revert Hd. generalize (foldl (apply_device unicode_lower loadedD) c devices). induction links; intros; [done|].
  simpl. eauto using apply_link_indexed.
Qed.

(** ** A full reload *)

Definition rows_of {A} (id_of : A → UUID) (rows : list A) : gmap UUID A := foldl (λ m a, <[id_of a := a]> m) ∅ rows.

Lemma rows_of_app {A} (id_of : A → UUID) (l : list A) a : rows_of id_of (l ++ [a]) = <[id_of a := a]> (rows_of id_of l).
Proof. unfold rows_of. by rewrite foldl_app. Qed.

Lemma rows_of_Some {A} (id_of : A → UUID) (l : list A) id a : rows_of id_of l !! id = Some a → a ∈ l ∧ id_of a = id.
Proof.
  induction l as [|b l IH] using rev_ind; [done|]. rewrite rows_of_app, lookup_insert_Some. set_solver.
Qed.

Lemma rows_of_is_Some {A} (id_of : A → UUID) (l : list A) a : a ∈ l → is_Some (rows_of id_of l !! id_of a).
Proof.
  induction l as [|b l IH] using rev_ind; [by intros ?%not_elem_of_nil|]. intros Ha. rewrite rows_of_app, lookup_insert_is_Some'.
  set_solver.
Qed.

Lemma rows_of_elem {A} (id_of : A → UUID) (l : list A) a : NoDup (id_of <$> l) → a ∈ l → rows_of id_of l !! id_of a = Some a.
Proof.
  intros Hn Ha. destruct (rows_of_is_Some id_of l a Ha) as [b Hb]. destruct (rows_of_Some _ _ _ _ Hb) as [Hl E].
  rewrite Hb. f_equal. apply list_elem_of_lookup in Ha as [i Hi], Hl as [j Hj].
  assert (i = j) as -> by (apply (NoDup_lookup (id_of <$> l) i j (id_of a) Hn); rewrite list_lookup_fmap, ?Hi, ?Hj; simpl; congruence). congruence.
Qed.

Lemma filed_ids {A} (id_of : A → UUID) (m : gmap UUID A) : filed id_of m → id_of <$> (map_to_list m).*2 = (map_to_list m).*1.
Proof.
  intros Hm. rewrite <- list_fmap_compose. apply list_fmap_ext. intros _ [id a] Hp%list_elem_of_lookup_2.
  apply elem_of_map_to_list in Hp. simpl. by apply Hm.
Qed.

Lemma filed_NoDup {A} (id_of : A → UUID) (m : gmap UUID A) : filed id_of m → NoDup (id_of <$> (map_to_list m).*2).
Proof. intros Hm. rewrite filed_ids by done. apply (NoDup_fst_map_to_list (M:=gmap UUID)). Qed.

Lemma rows_of_filed {A} (id_of : A → UUID) (l : list A) : filed id_of (rows_of id_of l).
Proof. by intros id a [_ ?]%rows_of_Some. Qed.

Lemma values_perm {A} (id_of : A → UUID) (l : list A) : NoDup (id_of <$> l) → l ≡ₚ (map_to_list (rows_of id_of l)).*2.
Proof.
  intros Hn. apply NoDup_Permutation.
  - by apply NoDup_fmap_1 in Hn.
  - apply (NoDup_fmap_1 id_of), filed_NoDup, rows_of_filed.
  - intros a. rewrite list_elem_of_fmap. split.
    + intros Ha. exists (id_of a, a). split; [done|]. by apply elem_of_map_to_list, rows_of_elem.
    + intros ([id b] & -> & Hp%elem_of_map_to_list). by apply rows_of_Some in Hp as [? _].
Qed.

Lemma names_Some (ds : list Device) names n id :
  foldl (λ m d, index_sysName unicode_lower d m) names ds !! n = Some id →
  (n ≠ "" ∧ ∃ d, d ∈ ds ∧ dev_ID d = id ∧ NSL (dev_SysName d) = n) ∨ names !! n = Some id.
Proof.
  revert names. induction ds as [|d ds IH]; intros names; [by right|]. simpl. intros [?|[?|?]%index_sysName_Some]%IH; set_solver.
Qed.

Lemma names_complete (ds : list Device) names n :
  n ≠ "" → (∃ d, d ∈ ds ∧ NSL (dev_SysName d) = n) ∨ is_Some (names !! n) →
  is_Some (foldl (λ m d, index_sysName unicode_lower d m) names ds !! n).
Proof.
  intros Hn. revert names. induction ds as [|d ds IH]; intros names H; [set_solver|]. simpl. apply IH.
  assert (Hi : NSL (dev_SysName d) = n ∨ is_Some (names !! n) → is_Some (index_sysName unicode_lower d names !! n)).
  { unfold index_sysName. destruct (String.eqb_spec (NSL (dev_SysName d)) ""); [naive_solver congruence|]. rewrite lookup_insert_is_Some'. tauto. }
  set_solver.
Qed.

Lemma endpoint_keys_Some (ls : list Link) (keys : gmap linkEndpointKey UUID) k id :
  foldl (λ m l, <[key l := lk_ID l]> m) keys ls !! k = Some id → (∃ l, l ∈ ls ∧ lk_ID l = id ∧ key l = k) ∨ keys !! k = Some id.
Proof.
  revert keys. induction ls as [|l ls IH]; intros keys; [by right|]. simpl. intros [?|[?|?]%lookup_insert_Some]%IH; set_solver.
Qed.

Lemma incident_links (ls : list Link) m id x :
  x ∈ links_at (foldl (λ m l, indexLinkEndpointsLocked l m) m ls) id ↔ x ∈ links_at m id ∨ ∃ l, l ∈ ls ∧ lk_ID l = x ∧ id ∈ endpoints l.
Proof.
  revert m. induction ls as [|l ls IH]; intros m; [set_solver|]. simpl. rewrite IH, elem_indexLink. set_solver.
Qed.

Lemma no_empty_links (ls : list Link) m : no_empty m → no_empty (foldl (λ m l, indexLinkEndpointsLocked l m) m ls).
Proof. revert m. induction ls; intros m Hm; [done|]. simpl. auto using no_empty_indexLink. Qed.

Lemma install_indexed ds ls c : NoDup (dev_ID <$> ds) → NoDup (lk_ID <$> ls) → indexed (install_snapshot unicode_lower ds ls c).
Proof.
  intros Hd Hl. split; cbn; fold (rows_of dev_ID ds); fold (rows_of lk_ID ls).
  - apply rows_of_filed.
  - apply rows_of_filed.
  - intros n id [(Hn & d & Hin & <- & E)|?]%names_Some; [|done]. split; [done|]. exists d. by rewrite rows_of_elem.
  - intros k id [(l & Hin & <- & E)|?]%endpoint_keys_Some; [|done]. exists l. by rewrite rows_of_elem.
  - intros id x. rewrite incident_links. unfold incident. split.
    + intros [?|(l & Hin & <- & He)]; [set_solver|]. exists l. by rewrite rows_of_elem.
    + intros (l & [Hin E]%rows_of_Some & He). right. eauto.
  - apply no_empty_links. by intros id.
Qed.
End indexes.
