(* ===== verification/DeviceCacheSync.v ===== *)
(** * The device and link cache among its writers

    A step relation that interleaves the reader that refreshes the cache with commits to the
    database, the publication of their events, other subscribers and other readers.  A load of
    the reader is one phase during which rows may change: what it reads of a row is only known
    to be current if the row was not written during the load ([reads_ok]).

    Commits follow the repositories: ids are not used twice ([uuid.New]), and every committed
    row is followed by an event, in any order and with any delay. *)

From S2P Require Import Prelude GoLib GoText Domain Runtime DeviceCache DeviceCacheInv.

(** ** One table of the database and its feed *)

Record Table (A : Type) := mkTable {
  tb_rows : gmap UUID A;
  tb_used : gset UUID;                    (* ids that have ever been given to a row *)
  tb_unpublished : list ChangeEvent;      (* events of commits whose writer has not published yet *)
  tb_feed : ChangeFeed;
  tb_touched : gset UUID }.               (* rows written since the load of the reader began *)
Arguments mkTable {A}. Arguments tb_rows {A}. Arguments tb_used {A}. Arguments tb_unpublished {A}.
Arguments tb_feed {A}. Arguments tb_touched {A}.

Definition commit {A} (kind : ChangeKind) (id : UUID) (row : option A) (t : Table A) : Table A :=
  mkTable (partial_alter (λ _, row) id (tb_rows t)) ({[id]} ∪ tb_used t) (mkEvent kind id :: tb_unpublished t) (tb_feed t)
          ({[id]} ∪ tb_touched t).

Definition with_feed {A} (f : ChangeFeed) (t : Table A) : Table A := mkTable (tb_rows t) (tb_used t) (tb_unpublished t) f (tb_touched t).
Definition start_load {A} (t : Table A) : Table A := mkTable (tb_rows t) (tb_used t) (tb_unpublished t) (tb_feed t) ∅.

(** What happens to a table without the reader; [i] is the channel of the cache. *)
Inductive writes {A} (id_of : A → UUID) (i : nat) (t : Table A) : Table A → Prop :=
| wr_create id a : id ∉ tb_used t → id_of a = id → writes id_of i t (commit ChangeKindCreated id (Some a) t)
| wr_update id a : is_Some (tb_rows t !! id) → id_of a = id → writes id_of i t (commit ChangeKindUpdated id (Some a) t)
| wr_delete id : is_Some (tb_rows t !! id) → writes id_of i t (commit ChangeKindDeleted id None t)
| wr_publish l1 event l2 : tb_unpublished t = l1 ++ event :: l2 →
    writes id_of i t (mkTable (tb_rows t) (tb_used t) (l1 ++ l2) (publishChange event (tb_feed t)) (tb_touched t))
| wr_other j event f : j ≠ i → receive j (tb_feed t) = Some (event, f) → writes id_of i t (with_feed f t)
| wr_subscribe n : writes id_of i t (with_feed (Subscribe n (tb_feed t)).2 t).

(** What the answers to a load say about the table at its end. *)
Record reads_ok {A} (id_of : A → UUID) (t : Table A) (r : TableReads A) : Prop := {
  ro_all : ∀ l, tr_GetAll r = Returned l → NoDup (id_of <$> l) ∧ ∀ a, id_of a ∉ tb_touched t → a ∈ l ↔ tb_rows t !! id_of a = Some a;
  ro_one : ∀ id a, tr_GetByID r id = Returned (Some a) → id_of a = id ∧ (id ∉ tb_touched t → tb_rows t !! id = Some a);
  ro_some : ∀ get ids l a, tr_GetByIDs r = Some get → get ids = Returned l → a ∈ l → id_of a ∉ tb_touched t → tb_rows t !! id_of a = Some a }.

(** ** The reader *)

Inductive After := AfterReload | Incremental.
Inductive PC :=
| Idle
| DrainDevices (k : After) (n : nat) (devices : Batch)
| DrainLinks (k : After) (n : nat) (devices links : Batch)
| LoadingChanges (k : After) (devices links : Batch)
| LoadingSnapshot (first : bool).

Record World := mkWorld { w_devices : Table Device; w_links : Table Link; w_invalidations : nat; w_cache : DeviceLinkCache; w_pc : PC }.
Definition feeds (w : World) : Feeds := mkFeeds (tb_feed (w_devices w)) (tb_feed (w_links w)) (w_invalidations w).

(** The world after the reader changed the cache and took from the feeds. *)
Definition with_reader (c : DeviceLinkCache) (fs : Feeds) (pc : PC) (w : World) : World :=
  mkWorld (with_feed (fs_devices fs) (w_devices w)) (with_feed (fs_links fs) (w_links w)) (fs_invalidations fs) c pc.
Definition with_load (pc : PC) (w : World) : World :=
  mkWorld (start_load (w_devices w)) (start_load (w_links w)) (w_invalidations w) (beginRefreshLocked (w_cache w)) pc.

Definition is_range (r : Range) : Prop := ∀ m, r m ≡ₚ map_to_list m.

Section world.
Context (unicode_lower : string → string).

(** [prepareLocked], cut where writers or other readers can intervene. *)
Inductive reader : World → World → Prop :=
| re_return w c fs : w_pc w = Idle → prepare_begin (w_cache w) (feeds w) = (c, fs, NReturn) → reader w (with_reader c fs Idle w)
| re_reload w c fs : w_pc w = Idle → prepare_begin (w_cache w) (feeds w) = (c, fs, NReload) →
    reader w (with_load (LoadingSnapshot true) (with_reader c fs Idle w))
| re_apply w c fs : w_pc w = Idle → prepare_begin (w_cache w) (feeds w) = (c, fs, NApply) →
    reader w (with_reader c fs (DrainDevices Incremental drain_limit ∅) w)
| re_device w k n devices f devices' : w_pc w = DrainDevices k (S n) devices →
    drain_one (dc_deviceChanges (w_cache w)) (tb_feed (w_devices w)) devices = Some (f, devices') →
    reader w (mkWorld (with_feed f (w_devices w)) (w_links w) (w_invalidations w) (w_cache w) (DrainDevices k n devices'))
| re_devices_end w k n devices : w_pc w = DrainDevices k n devices →
    n = 0%nat ∨ drain_one (dc_deviceChanges (w_cache w)) (tb_feed (w_devices w)) devices = None →
    reader w (mkWorld (w_devices w) (w_links w) (w_invalidations w) (w_cache w) (DrainLinks k drain_limit devices ∅))
| re_link w k n devices links f links' : w_pc w = DrainLinks k (S n) devices links →
    drain_one (dc_linkChanges (w_cache w)) (tb_feed (w_links w)) links = Some (f, links') →
    reader w (mkWorld (w_devices w) (with_feed f (w_links w)) (w_invalidations w) (w_cache w) (DrainLinks k n devices links'))
| re_links_end w k n devices links : w_pc w = DrainLinks k n devices links →
    n = 0%nat ∨ drain_one (dc_linkChanges (w_cache w)) (tb_feed (w_links w)) links = None →
    reader w (if bool_decide (devices = ∅) && bool_decide (links = ∅)
              then mkWorld (w_devices w) (w_links w) (w_invalidations w) (w_cache w) Idle
              else with_load (LoadingChanges k devices links) w)
| re_snapshot w first dr lr c o : w_pc w = LoadingSnapshot first →
    reads_ok dev_ID (w_devices w) dr → reads_ok lk_ID (w_links w) lr →
    after_snapshot unicode_lower (loadSnapshot dr lr) (w_cache w) = (c, o) →
    reader w (with_reader c (feeds w)
      (match o with Returned _ => if first && dc_useIncremental c then DrainDevices AfterReload drain_limit ∅ else Idle | _ => Idle end) w)
| re_changes w k devices links r1 r2 dr lr c o : w_pc w = LoadingChanges k devices links → is_range r1 → is_range r2 →
    reads_ok dev_ID (w_devices w) dr → reads_ok lk_ID (w_links w) lr →
    after_changes unicode_lower (r2 devices) (r2 links) (loadChanges dr lr (r1 devices) (r1 links)) (w_cache w) = (c, o) →
    reader w (match o, k with
              | Failed _, AfterReload => with_reader (demand_reload c) (feeds w) Idle w
              | Failed _, Incremental => with_load (LoadingSnapshot false) (with_reader (demand_reload c) (feeds w) Idle w)
              | _, _ => with_reader c (feeds w) Idle w
              end).

(** Readers that find a complete snapshot build the sorted lists. *)
Definition lock_free (pc : PC) : bool := match pc with DrainDevices _ _ _ | DrainLinks _ _ _ _ => false | _ => true end.

Inductive step : World → World → Prop :=
| st_devices w t i : dc_deviceChanges (w_cache w) = Some i → writes dev_ID i (w_devices w) t →
    step w (mkWorld t (w_links w) (w_invalidations w) (w_cache w) (w_pc w))
| st_links w t i : dc_linkChanges (w_cache w) = Some i → writes lk_ID i (w_links w) t →
    step w (mkWorld (w_devices w) t (w_invalidations w) (w_cache w) (w_pc w))
| st_signal w n : step w (mkWorld (w_devices w) (w_links w) n (w_cache w) (w_pc w))
| st_read_devices w : lock_free (w_pc w) = true → dc_loaded (w_cache w) = true →
    step w (mkWorld (w_devices w) (w_links w) (w_invalidations w) (read_devices (w_cache w)).1 (w_pc w))
| st_read_links w : lock_free (w_pc w) = true → dc_loaded (w_cache w) = true →
    step w (mkWorld (w_devices w) (w_links w) (w_invalidations w) (read_links (w_cache w)).1 (w_pc w))
| st_reader w w' : reader w w' → step w w'.

(** The server starts with any database; the cache is built on feeds that may have subscribers. *)
Inductive initial : World → Prop :=
| initial_world devices links c fd fl n :
    tb_unpublished devices = [] → tb_unpublished links = [] →
    filed dev_ID (tb_rows devices) → filed lk_ID (tb_rows links) →
    dom (tb_rows devices) ⊆ tb_used devices → dom (tb_rows links) ⊆ tb_used links →
    NewDeviceLinkCache (Some (tb_feed devices)) (Some (tb_feed links)) = (c, Some fd, Some fl) →
    initial (mkWorld (with_feed fd devices) (with_feed fl links) n c Idle).

Definition reachable (w : World) : Prop := ∃ w0, initial w0 ∧ rtc step w0 w.
End world.

(** * One table and its cached rows

    The invariant [table_ok] between a table of the database, its feed and the rows the cache
    holds of it: a cached row is the row of the table, or an event that will have it loaded is
    on its way, or was taken and is being applied, or everything will be reloaded.  It is kept
    by every step of the relation above. *)


(** ** The feed *)

Definition queue (i : nat) (f : ChangeFeed) : list ChangeEvent :=
  match fd_subscribers f !! i with Some c => ch_queue c | None => [] end.
Definition subscribed (i : nat) (f : ChangeFeed) : Prop :=
  ∃ q, fd_subscribers f !! i = Some (mkChan 256 q) ∧ (length q <= 256)%nat.

Lemma repair_fold event cs b : foldl (λ repair c, if (offer event c).2 then true else repair) b cs = b || existsb (λ c, (offer event c).2) cs.
Proof. revert b. induction cs as [|c cs IH]; intros b; simpl; [by rewrite orb_false_r|]. rewrite IH. destruct (offer event c).2, b; done. Qed.

(** A published event reaches the channel, or the repair flag is up; no earlier event is lost. *)
Lemma publish_queue i event f :
  subscribed i f →
  subscribed i (publishChange event f) ∧ (fd_repairPending f = true → fd_repairPending (publishChange event f) = true) ∧
  (queue i (publishChange event f) = queue i f ++ [event] ∨ queue i (publishChange event f) = queue i f ∧ fd_repairPending (publishChange event f) = true).
Proof.
  intros (q & Hq & Hl). unfold publishChange, queue, subscribed. cbn [fd_subscribers fd_repairPending].
  rewrite repair_fold, !list_lookup_fmap, Hq. simpl. split_and!.
  - unfold offer. simpl. case_match eqn:E; [|eauto]. eexists. split; [done|]. apply Nat.ltb_lt in E. rewrite length_app. simpl. lia.
  - by intros ->.
  - destruct (length q <? 256)%nat eqn:E; [left; unfold offer; simpl; by rewrite E|right].
    split; [unfold offer; simpl; by rewrite E|]. apply orb_true_iff. right. apply existsb_exists. exists (mkChan 256 q).
    split; [by apply list_elem_of_lookup_2, list_elem_of_In in Hq|]. unfold offer. simpl. by rewrite E.
Qed.

Lemma receive_queue i event f f' :
  subscribed i f → receive i f = Some (event, f') → subscribed i f' ∧ queue i f = event :: queue i f' ∧ fd_repairPending f' = fd_repairPending f.
Proof.
  intros (q & Hq & Hl). unfold receive, queue. rewrite Hq. destruct q as [|e q]; [done|]. intros [= <- <-]. cbn.
  assert (Hi : (i < length (fd_subscribers f))%nat) by by eapply lookup_lt_Some.
  rewrite list_lookup_insert_eq by done. split_and!; try done. exists q. cbn. rewrite list_lookup_insert_eq by done. simpl in Hl. split; [done|lia].
Qed.

Lemma receive_other i j event f f' : i ≠ j → receive j f = Some (event, f') → fd_subscribers f' !! i = fd_subscribers f !! i ∧ fd_repairPending f' = fd_repairPending f.
Proof.
  intros Hij. unfold receive. destruct (fd_subscribers f !! j) as [[cap [|e q]]|]; try done. intros [= <- <-]. cbn. by rewrite list_lookup_insert_ne.
Qed.

Lemma receive_None i f : subscribed i f → receive i f = None → queue i f = [].
Proof. intros (q & Hq & _). unfold receive, queue. rewrite Hq. by destruct q. Qed.

(** ** The invariant *)

Section table.
Context {A : Type} (id_of : A → UUID) (i : nat).
Implicit Types (t : Table A) (cached : gmap UUID A) (batch : Batch).

Definition events t : list ChangeEvent := tb_unpublished t ++ queue i (tb_feed t).
Definition pending t (id : UUID) : Prop := id ∈ ev_ID <$> events t ∨ fd_repairPending (tb_feed t) = true.

Record table_ok t cached (stale loading : bool) batch : Prop := {
  tk_filed : filed id_of (tb_rows t);
  tk_used : dom (tb_rows t) ⊆ tb_used t;
  tk_chan : subscribed i (tb_feed t);
  tk_deleted : ∀ ev, ev ∈ events t ∨ batch !! ev_ID ev = Some ev → ev_Kind ev = ChangeKindDeleted → ev_ID ev ∈ tb_used t ∧ tb_rows t !! ev_ID ev = None;
  tk_batch : ∀ id ev, batch !! id = Some ev → ev_ID ev = id;
  tk_touched : loading = true → ∀ id, id ∈ tb_touched t → pending t id;
  tk_synced : stale = false → ∀ id, cached !! id = tb_rows t !! id ∨ pending t id ∨ is_Some (batch !! id) }.

Lemma table_ok_weaken t cached stale loading batch :
  table_ok t cached stale loading batch → table_ok t cached stale false batch.
Proof. intros []. by split. Qed.

Lemma table_ok_stale t cached cached' stale loading batch :
  table_ok t cached stale loading batch → table_ok t cached' true false ∅.
Proof.
  intros []. split; try done. intros ev [He|?]; [|done]. apply tk_deleted0. by left.
Qed.

(** Nothing is pending, drained or flagged: the cached rows are the table. *)
Lemma table_ok_settled t cached loading :
  table_ok t cached false loading ∅ → events t = [] → fd_repairPending (tb_feed t) = false → cached = tb_rows t.
Proof.
  intros [] He Hr. apply map_eq. intros id. destruct (tk_synced0 eq_refl id) as [?|[[H|H]|[? H]]]; [done|..]; [|congruence|done].
  rewrite He in H. by apply not_elem_of_nil in H.
Qed.

Lemma start_load_ok t cached stale loading batch : table_ok t cached stale loading batch → table_ok (start_load t) cached stale true batch.
Proof. intros []. by split. Qed.

(** ** Writers *)

Lemma pending_commit kind id row t x : pending t x → pending (commit kind id row t) x.
Proof. unfold pending, events. cbn. set_solver. Qed.

Lemma commit_ok kind id row t cached stale loading batch :
  table_ok t cached stale loading batch →
  match row with Some a => id_of a = id ∧ kind ≠ ChangeKindDeleted ∧ (id ∈ tb_used t → is_Some (tb_rows t !! id)) | None => kind = ChangeKindDeleted end →
  table_ok (commit kind id row t) cached stale loading batch.
Proof.
  intros [] Hrow.
  assert (Hid : pending (commit kind id row t) id) by (left; unfold events; cbn; set_solver).
  assert (Hother : ∀ x, x ≠ id → tb_rows (commit kind id row t) !! x = tb_rows t !! x) by (intros; cbn; by rewrite lookup_partial_alter_ne).
  assert (Hhere : tb_rows (commit kind id row t) !! id = row) by (cbn; by rewrite lookup_partial_alter_eq).
  split; [| |done| |done| |].
  - intros x a. destruct (decide (x = id)) as [->|]; [rewrite Hhere; intros ->; tauto|rewrite Hother by done; apply tk_filed0].
  - intros x [a Ha]%elem_of_dom. cbn. destruct (decide (x = id)) as [->|]; [set_solver|]. rewrite Hother in Ha by done.
    apply elem_of_union_r, tk_used0. by apply elem_of_dom.
  - intros ev He Hk. destruct (decide (ev_ID ev = id)) as [E|].
    + split; [cbn; set_solver|]. rewrite E, Hhere. destruct row as [a|]; [|done]. exfalso. destruct Hrow as (_ & Hkind & Hused).
      assert (Hold : ev ∈ events t ∨ batch !! ev_ID ev = Some ev).
      { destruct He as [He|?]; [|by right]. left. unfold events in *. cbn in He. apply elem_of_cons in He as [->|?]; done. }
      destruct (tk_deleted0 ev Hold Hk) as [Hu Hn]. rewrite E in Hu, Hn. destruct (Hused Hu). congruence.
    + rewrite Hother by done. destruct (tk_deleted0 ev) as [Hu Hn]; [|done|]; [|cbn; set_solver].
      destruct He as [He|?]; [|by right]. left. unfold events in *. cbn in He. apply elem_of_cons in He as [->|?]; done.
  - intros Hl x Hx. cbn in Hx. apply elem_of_union in Hx as [->%elem_of_singleton|Hx]; [done|]. by apply pending_commit, tk_touched0.
  - intros Hs x. destruct (decide (x = id)) as [->|]; [tauto|]. rewrite Hother by done.
    destruct (tk_synced0 Hs x) as [?|[?|?]]; [tauto| |tauto]. right. left. by apply pending_commit.
Qed.

(** A step of the feed that loses nothing. *)
Lemma feed_ok t t' cached stale loading batch :
  table_ok t cached stale loading batch →
  tb_rows t' = tb_rows t → tb_used t' = tb_used t → tb_touched t' = tb_touched t → subscribed i (tb_feed t') →
  (∀ x, pending t x → pending t' x) → (∀ ev, ev ∈ events t' → ev ∈ events t) →
  table_ok t' cached stale loading batch.
Proof.
  intros [] E1 E2 E3 Hs Hp He. split; rewrite ?E1, ?E2, ?E3; try done.
  - intros ev [?|?] Hk; apply tk_deleted0; auto.
  - intros Hl x Hx. auto.
  - intros Hst x. destruct (tk_synced0 Hst x) as [?|[?|?]]; auto.
Qed.

Lemma writes_ok t t' cached stale loading batch :
  writes id_of i t t' → table_ok t cached stale loading batch → table_ok t' cached stale loading batch.
Proof.
  intros [id a Hu Ha|id a Hs Ha|id Hs|l1 event l2 E|j event f Hj E|n] Ht.
  - apply commit_ok; [done|]. split_and!; done.
  - apply commit_ok; [done|]. split_and!; done.
  - by apply commit_ok.
  - destruct (publish_queue i event (tb_feed t)) as (H1 & H2 & H3); [by apply Ht|]. eapply feed_ok; [done..| |].
    + intros x. unfold pending, events. cbn. rewrite E. destruct H3 as [->|[-> Hr]]; [|tauto].
      intros [Hx|?]; [left|right; auto]. revert Hx. rewrite !fmap_app, fmap_cons. set_solver.
    + intros ev. unfold events. cbn. rewrite E. destruct H3 as [->|[-> _]]; set_solver.
  - destruct (receive_other i j event (tb_feed t) f) as [E1 E2]; [done..|].
    assert (Eq : queue i f = queue i (tb_feed t)) by (unfold queue; by rewrite E1).
    eapply feed_ok; [done..| | |]; unfold pending, events; cbn; rewrite ?Eq, ?E2; try done.
    unfold subscribed. rewrite E1. apply Ht.
  - destruct (tk_chan _ _ _ _ _ Ht) as (q & Hq & Hl).
    assert (E1 : (fd_subscribers (tb_feed t) ++ [mkChan match n with O => 256%nat | _ => n end []]) !! i = Some (mkChan 256 q)) by by apply lookup_app_l_Some.
    assert (Eq : queue i (Subscribe n (tb_feed t)).2 = queue i (tb_feed t)) by (unfold queue; cbn; by rewrite E1, Hq).
    cbn in Eq. eapply feed_ok; [done..| | |]; unfold pending, events; cbn; rewrite ?Eq; try done. exists q. by rewrite <- E1.
Qed.

(** ** The reader takes events *)

Lemma drain_one_ok t cached stale loading batch f batch' :
  table_ok t cached stale loading batch → drain_one (Some i) (tb_feed t) batch = Some (f, batch') →
  table_ok (with_feed f t) cached stale false batch' ∧ queue i (tb_feed t) ≠ [].
Proof.
  intros Ht E. unfold drain_one in E. destruct (receive i (tb_feed t)) as [[event f']|] eqn:Er; [|done]. injection E as <- <-.
  destruct (receive_queue i event (tb_feed t) f') as (Hs & Eq & Erep); [by apply Ht|done|]. split; [|by rewrite Eq].
  destruct Ht. split; try done.
  - intros ev He Hk. apply tk_deleted0; [|done]. unfold events in *. cbn in He. rewrite Eq.
    destruct He as [He|[[_ ->]|[_ He]]%lookup_insert_Some]; [set_solver|set_solver|by right].
  - intros id ev. rewrite lookup_insert_Some. naive_solver.
  - intros Hst id. destruct (tk_synced0 Hst id) as [?|[[Hp|Hp]|Hb]]; [by left|..]; right.
    + unfold events in Hp. rewrite Eq, fmap_app, fmap_cons in Hp. unfold pending, events. cbn. rewrite lookup_insert_is_Some', fmap_app. set_solver.
    + left. right. cbn. by rewrite Erep.
    + right. rewrite lookup_insert_is_Some'. by right.
Qed.

(** [DrainDeviceRepair] and the flag that follows it. *)
Lemma check_repair_ok t cached stale loading batch :
  table_ok t cached stale loading batch → table_ok (with_feed (DrainRepair (tb_feed t)).2 t) cached (stale || fd_repairPending (tb_feed t)) false batch.
Proof.
  intros []. split; try done. intros Hst id. apply orb_false_iff in Hst as [Hst Hr]. destruct (tk_synced0 Hst id) as [?|[[?|?]|?]]; [tauto|..|tauto].
  - right. left. by left.
  - congruence.
Qed.

(** ** The reader loads *)

Lemma snapshot_ok t cached stale r l :
  table_ok t cached stale true ∅ → reads_ok id_of t r → tr_GetAll r = Returned l → table_ok t (rows_of id_of l) false false ∅.
Proof.
  intros [] [Hall _ _] E. destruct (Hall l E) as [Hn Hl]. split; try done. intros _ id.
  destruct (decide (id ∈ tb_touched t)) as [Ht|Ht]; [right; left; auto|left].
  destruct (rows_of id_of l !! id) as [a|] eqn:Ea.
  - apply rows_of_Some in Ea as [Ha <-]. symmetry. by apply Hl.
  - destruct (tb_rows t !! id) as [a|] eqn:Er; [|done]. pose proof (tk_filed0 _ _ Er) as <-.
    rewrite rows_of_elem in Ea; [done|done|]. by apply Hl.
Qed.

Definition rows_ok t (ids : list UUID) (loaded : gmap UUID A) : Prop :=
  (∀ id, id ∈ ids → is_Some (loaded !! id)) ∧
  ∀ id a, loaded !! id = Some a → id_of a = id ∧ (id ∉ tb_touched t → tb_rows t !! id = Some a).

Lemma load_each_ok what t r ids loaded0 loaded :
  reads_ok id_of t r → rows_ok t [] loaded0 → load_each what r ids loaded0 = Returned loaded →
  rows_ok t ids loaded ∧ ∀ id, is_Some (loaded0 !! id) → is_Some (loaded !! id).
Proof.
  intros Hr. revert loaded0. induction ids as [|id ids IH]; intros loaded0 [Hi Hl]; simpl; [by intros [= <-]|].
  destruct (tr_GetByID r id) as [[a|]| |] eqn:E; try done. simpl. intros Hload.
  destruct (ro_one _ _ _ Hr _ _ E) as [Ea Hrow]. apply IH in Hload as [[Hi' Hl'] Hmono].
  - split; [split; [|done]|].
    + intros x [->|Hx]%elem_of_cons; [|auto]. apply Hmono. by rewrite lookup_insert_eq.
    + intros x Hx. apply Hmono. rewrite lookup_insert_is_Some'. by right.
  - split; [set_solver|]. intros x b [[<- <-]|[? ?]]%lookup_insert_Some; auto.
Qed.

Lemma load_rows_ok what t r ids loaded :
  reads_ok id_of t r → load_rows what id_of r ids = Returned loaded → rows_ok t ids loaded.
Proof.
  intros Hr. assert (H0 : rows_ok t [] ∅) by (split; [set_solver|done]).
  assert (Heach : load_each what r ids ∅ = Returned loaded → rows_ok t ids loaded) by (intros; by eapply load_each_ok).
  unfold load_rows. destruct (tr_GetByIDs r) as [get|] eqn:Eg; [|done]. case_match; [|done]. clear Heach. unfold load_batch. destruct (get ids) as [l| |] eqn:El; try done. simpl.
  fold (rows_of id_of l). destruct (list_find _ ids) as [[? ?]|] eqn:Ef; [done|]. intros [= <-]. split.
  - intros id Hid. apply list_find_None in Ef. rewrite Forall_forall in Ef. specialize (Ef id Hid). destruct (rows_of id_of l !! id); [eauto|done].
  - intros id a [Ha <-]%rows_of_Some. split; [done|]. eapply ro_some; eauto.
Qed.

(** ** The reader applies what it loaded *)

Definition apply_row (loaded cached : gmap UUID A) (p : UUID * ChangeEvent) : gmap UUID A :=
  if decide (ev_Kind p.2 = ChangeKindDeleted) then delete p.1 cached
  else match loaded !! p.1 with Some a => <[id_of a := a]> cached | None => cached end.

Lemma apply_rows_lookup t ids loaded (l : list (UUID * ChangeEvent)) cached id :
  rows_ok t ids loaded → (∀ x, x ∈ changed_ids l → x ∈ ids) → NoDup l.*1 →
  foldl (apply_row loaded) cached l !! id =
    match list_find (λ p, p.1 = id) l with
    | Some (_, p) => if decide (ev_Kind p.2 = ChangeKindDeleted) then None else loaded !! id
    | None => cached !! id
    end.
Proof.
  intros [Hi Hl]. revert cached. induction l as [|p l IH]; intros cached Hids Hn; [done|]. simpl in Hn |- *.
  apply NoDup_cons in Hn as [Hp Hn].
  assert (Hids' : ∀ x, x ∈ changed_ids l → x ∈ ids).
  { intros x Hx. apply Hids. unfold changed_ids in *. rewrite filter_cons. case_decide; [by right|done]. }
  rewrite (IH _ Hids' Hn). destruct (decide (p.1 = id)) as [<-|Hne].
  - destruct (list_find (λ q, q.1 = p.1) l) as [[j q]|] eqn:Ef.
    { apply list_find_Some in Ef as (Hj & Hq & _). destruct Hp. rewrite <- Hq. apply list_elem_of_fmap_2. by eapply list_elem_of_lookup_2. }
    unfold apply_row. case_decide as Hk; [by rewrite lookup_delete_eq|].
    destruct (Hi p.1) as [a Ha]; [apply Hids; unfold changed_ids; rewrite filter_cons_True by done; by left|].
    rewrite Ha. destruct (Hl _ _ Ha) as [E _]. by rewrite E, lookup_insert_eq.
  - destruct (list_find (λ q, q.1 = id) l) as [[j q]|]; simpl; [done|].
    unfold apply_row. case_decide; [by rewrite lookup_delete_ne|]. destruct (loaded !! p.1) as [a|] eqn:Ha; [|done].
    destruct (Hl _ _ Ha) as [E _]. by rewrite lookup_insert_ne by congruence.
Qed.

Lemma range_find (r : Range) batch id :
  is_range r → (list_find (λ p, p.1 = id) (r batch) = None ∧ batch !! id = None) ∨
               ∃ j ev, list_find (λ p, p.1 = id) (r batch) = Some (j, (id, ev)) ∧ batch !! id = Some ev.
Proof.
  intros Hr. destruct (list_find _ (r batch)) as [[j [x ev]]|] eqn:E; [right|left].
  - apply list_find_Some in E as (Hj & Hx & _). simpl in Hx. subst. exists j, ev. split; [done|].
    apply elem_of_map_to_list. rewrite <- (Hr batch). by eapply list_elem_of_lookup_2.
  - split; [done|]. apply list_find_None in E. rewrite Forall_forall in E. destruct (batch !! id) as [ev|] eqn:Eb; [|done].
    destruct (E (id, ev)); [|done]. rewrite (Hr batch). by apply elem_of_map_to_list.
Qed.

Lemma changes_ok t cached stale what r loaded (r1 r2 : Range) batch :
  is_range r1 → is_range r2 → table_ok t cached stale true batch → reads_ok id_of t r →
  load_rows what id_of r (changed_ids (r1 batch)) = Returned loaded →
  table_ok t (foldl (apply_row loaded) cached (r2 batch)) stale false ∅.
Proof.
  intros H1 H2 Ht Hr Hload. pose proof (load_rows_ok _ _ _ _ _ Hr Hload) as Hrows.
  assert (Hids : ∀ x, x ∈ changed_ids (r2 batch) → x ∈ changed_ids (r1 batch)).
  { intros x. unfold changed_ids. by rewrite (H1 batch), (H2 batch). }
  assert (Hn : NoDup (r2 batch).*1) by (rewrite (H2 batch); apply NoDup_fst_map_to_list).
  destruct Ht. split; try done.
  { intros ev [He|?]; [|done]. apply tk_deleted0. by left. }
  intros Hst id. rewrite (apply_rows_lookup t _ loaded _ _ _ Hrows Hids Hn).
  destruct (range_find r2 batch id H2) as [[-> Eb]|(j & ev & -> & Eb)].
  { destruct (tk_synced0 Hst id) as [?|[?|[? ?]]]; [tauto|tauto|congruence]. }
  simpl. pose proof (tk_batch0 _ _ Eb) as Eid. case_decide as Hk.
  - left. destruct (tk_deleted0 ev) as [_ Hnone]; [right; by rewrite Eid|done|]. congruence.
  - destruct (decide (id ∈ tb_touched t)) as [Htt|Htt]; [right; left; auto|left].
    destruct (proj1 Hrows id) as [a Ha].
    { unfold changed_ids. rewrite (H1 batch). apply list_elem_of_fmap. exists (id, ev). split; [done|].
      apply list_elem_of_filter. split; [done|]. by apply elem_of_map_to_list. }
    rewrite Ha. symmetry. by apply (proj2 Hrows id a Ha).
Qed.
End table.
