(* ===== verification/DeviceCacheSpec.v ===== *)
(** * The device and link cache: theorems

    The invariant of the world of [DeviceCacheSync], and what follows for readers: the cache is
    never behind the database without knowing it, and two reads without writers in between
    return exactly the database. *)

From S2P Require Import Prelude GoLib GoText Domain Runtime DeviceCache DeviceCacheInv DeviceCacheSync.

Section spec.
Context (unicode_lower : string → string).
Notation step := (step unicode_lower).
Notation reader := (reader unicode_lower).
Notation indexed := (indexed unicode_lower).
Implicit Types (w : World) (c : DeviceLinkCache).

(** ** The invariant *)

Definition stale c : bool := negb (dc_loaded c) || dc_needsFullReload c.
Definition listed c : Prop :=
  dc_loaded c = true →
  (dc_devicesDirty c = false → dc_devices c ≡ₚ (map_to_list (dc_devicesByID c)).*2) ∧
  (dc_linksDirty c = false → dc_links c ≡ₚ (map_to_list (dc_linksByID c)).*2).

Definition loading (pc : PC) : bool := match pc with LoadingChanges _ _ _ | LoadingSnapshot _ => true | _ => false end.
Definition device_batch (pc : PC) : Batch :=
  match pc with DrainDevices _ _ b | DrainLinks _ _ b _ | LoadingChanges _ b _ => b | _ => ∅ end.
Definition link_batch (pc : PC) : Batch := match pc with DrainLinks _ _ _ b | LoadingChanges _ _ b => b | _ => ∅ end.

Record inv (i j : nat) w : Prop := {
  in_devices : table_ok dev_ID i (w_devices w) (dc_devicesByID (w_cache w)) (stale (w_cache w)) (loading (w_pc w)) (device_batch (w_pc w));
  in_links : table_ok lk_ID j (w_links w) (dc_linksByID (w_cache w)) (stale (w_cache w)) (loading (w_pc w)) (link_batch (w_pc w));
  in_deviceChanges : dc_deviceChanges (w_cache w) = Some i;
  in_linkChanges : dc_linkChanges (w_cache w) = Some j;
  in_incremental : dc_useIncremental (w_cache w) = true;
  in_refreshing : dc_refreshing (w_cache w) = loading (w_pc w);
  in_indexed : indexed (w_cache w);
  in_listed : listed (w_cache w) }.

(** The parts of [inv] that did not change. *)
Ltac inv_split :=
  split; cbn; try done;
  try match goal with H : DeviceCacheInv.indexed ?u ?c |- DeviceCacheInv.indexed _ _ => by apply (indexed_same u c) end.


(** The fields that updates of rows leave alone. *)
Definition flags c := (dc_refreshing c, dc_loaded c, dc_needsFullReload c, dc_deviceChanges c, dc_linkChanges c, dc_useIncremental c).

Lemma apply_device_fields loaded c p :
  let c' := apply_device unicode_lower loaded c p in
  dc_devicesByID c' = apply_row dev_ID loaded (dc_devicesByID c) p ∧ dc_linksByID c' = dc_linksByID c ∧
  dc_links c' = dc_links c ∧ dc_linksDirty c' = dc_linksDirty c ∧ flags c' = flags c ∧ (listed c → listed c').
Proof.
  unfold apply_device, apply_row, upsertDeviceLocked, deleteDeviceLocked. case_decide; simpl.
  - destruct (dc_devicesByID c !! p.1) eqn:E; cbn; [|by rewrite delete_id]. split_and!; try done. intros Hl Hld. split; [done|by apply Hl].
  - destruct (loaded !! p.1) as [d|]; [|done]. destruct (dc_devicesByID c !! dev_ID d); cbn; split_and!; try done; intros Hl Hld; (split; [done|by apply Hl]).
Qed.

Lemma apply_link_fields loaded c p :
  let c' := apply_link unicode_lower loaded c p in
  dc_linksByID c' = apply_row lk_ID loaded (dc_linksByID c) p ∧ dc_devicesByID c' = dc_devicesByID c ∧ flags c' = flags c ∧ (listed c → listed c').
Proof.
  unfold apply_link, apply_row, upsertLinkLocked, deleteLinkLocked. case_decide; simpl.
  - destruct (dc_linksByID c !! p.1) eqn:E; cbn; [|by rewrite delete_id]. split_and!; try done. intros Hl Hld. split; [by apply Hl|done].
  - destruct (loaded !! p.1) as [l|]; [|done]. destruct (dc_linksByID c !! lk_ID l); cbn; split_and!; try done; intros Hl Hld; (split; [by apply Hl|done]).
Qed.

Lemma apply_devices_fields loaded l c :
  let c' := foldl (apply_device unicode_lower loaded) c l in
  dc_devicesByID c' = foldl (apply_row dev_ID loaded) (dc_devicesByID c) l ∧ dc_linksByID c' = dc_linksByID c ∧ flags c' = flags c ∧ (listed c → listed c').
Proof.
  revert c. induction l as [|p l IH]; intros c; [done|]. simpl. destruct (apply_device_fields loaded c p) as (E1 & E2 & _ & _ & E3 & E4).
  destruct (IH (apply_device unicode_lower loaded c p)) as (F1 & F2 & F3 & F4). rewrite E1 in F1. split_and!; try congruence. auto.
Qed.

Lemma apply_links_fields loaded l c :
  let c' := foldl (apply_link unicode_lower loaded) c l in
  dc_linksByID c' = foldl (apply_row lk_ID loaded) (dc_linksByID c) l ∧ dc_devicesByID c' = dc_devicesByID c ∧ flags c' = flags c ∧ (listed c → listed c').
Proof.
  revert c. induction l as [|p l IH]; intros c; [done|]. simpl. destruct (apply_link_fields loaded c p) as (E1 & E2 & E3 & E4).
  destruct (IH (apply_link unicode_lower loaded c p)) as (F1 & F2 & F3 & F4). rewrite E1 in F1. split_and!; try congruence. auto.
Qed.

(** ** Steps of the reader *)

Lemma check_sources_spec i j c fs c' fs' :
  dc_deviceChanges c = Some i → dc_linkChanges c = Some j → dc_useIncremental c = true → check_sources c fs = (c', fs') →
  fs' = mkFeeds (DrainRepair (fs_devices fs)).2 (DrainRepair (fs_links fs)).2 (fs_invalidations fs) ∧
  c' = if fd_repairPending (fs_devices fs) || fd_repairPending (fs_links fs) then c <| dc_needsFullReload := true |> else c.
Proof.
  intros Hi Hj Hu. unfold check_sources, check_repair. rewrite Hu, Hi. simpl.
  destruct (fd_repairPending (fs_devices fs)); cbn; rewrite Hj; simpl; intros [= <- <-]; split; try done; by destruct (fd_repairPending (fs_links fs)), c.
Qed.

Lemma table_ok_more {A} (id_of : A → UUID) i t cached (s s' l : bool) b :
  (s = true → s' = true) → table_ok id_of i t cached s l b → table_ok id_of i t cached s' l b.
Proof. intros Hs []. split; try done. intros ->. apply tk_synced. by destruct s; [discriminate Hs|]. Qed.

Lemma begin_inv i j w c fs next :
  inv i j w → w_pc w = Idle → prepare_begin (w_cache w) (feeds w) = (c, fs, next) →
  inv i j (with_reader c fs Idle w) ∧ (next = NReload ∧ stale c = true ∨ next = NApply ∧ stale c = false).
Proof.
  intros [] Hpc. rewrite Hpc in *. unfold prepare_begin. rewrite in_refreshing0. simpl.
  destruct (check_sources (w_cache w) (feeds w)) as [c0 fs0] eqn:E.
  destruct (check_sources_spec i j _ _ _ _ in_deviceChanges0 in_linkChanges0 in_incremental0 E) as [-> Ec0].
  assert (Hinv : inv i j (with_reader c0 (mkFeeds (DrainRepair (fs_devices (feeds w))).2 (DrainRepair (fs_links (feeds w))).2 (fs_invalidations (feeds w))) Idle w)).
  { apply check_repair_ok in in_devices0, in_links0. cbn in *.
    destruct (fd_repairPending (tb_feed (w_devices w)) || fd_repairPending (tb_feed (w_links w))) eqn:Er; subst c0.
    - inv_split; (eapply table_ok_more; [|done]); unfold stale; cbn; by rewrite orb_true_r.
    - apply orb_false_iff in Er as [E1 E2]. rewrite E1, orb_false_r in in_devices0. rewrite E2, orb_false_r in in_links0. by split. }
  assert (Hu : dc_useIncremental c0 = true) by by (subst c0; case_match).
  fold (stale c0). rewrite Hu. destruct (stale c0) eqn:Es; intros [= <- <- <-]; tauto.
Qed.

Lemma load_inv i j w pc :
  inv i j w → loading (w_pc w) = false → loading pc = true → device_batch pc = device_batch (w_pc w) → link_batch pc = link_batch (w_pc w) →
  inv i j (with_load pc w).
Proof.
  intros [] Hl Hl' Ed El. inv_split; rewrite ?Hl', ?Ed, ?El; try done; by eapply start_load_ok.
Qed.

Lemma same_table {A} (t : Table A) : with_feed (tb_feed t) t = t.
Proof. by destruct t. Qed.
Lemma same_feeds c pc w : with_reader c (feeds w) pc w = mkWorld (w_devices w) (w_links w) (w_invalidations w) c pc.
Proof. unfold with_reader. cbn. by rewrite !same_table. Qed.

(** Forgetting what was drained or loaded is safe once a reload is demanded. *)
Lemma forget_inv i j w c pc :
  inv i j w → stale c = true → same_maps (w_cache w) c → flags c = (loading pc, dc_loaded c, dc_needsFullReload c, Some i, Some j, true) →
  loading pc = false → device_batch pc = ∅ → link_batch pc = ∅ → listed c → inv i j (mkWorld (w_devices w) (w_links w) (w_invalidations w) c pc).
Proof.
  intros [] Hs Hm Hf Hl Hd Hb Hli. unfold flags in Hf. rewrite Hl in Hf. simplify_eq.
  inv_split; rewrite ?Hd, ?Hb, ?Hl, ?Hs; try congruence; by eapply table_ok_stale.
Qed.

Lemma finish_inv i j w pc :
  inv i j w → loading (w_pc w) = true → loading pc = false → device_batch pc = device_batch (w_pc w) → link_batch pc = link_batch (w_pc w) →
  inv i j (mkWorld (w_devices w) (w_links w) (w_invalidations w) (finish (w_cache w)) pc).
Proof.
  intros [] Hl Hl' Ed El. rewrite Hl in *.
  inv_split; rewrite ?Hl', ?Ed, ?El; try done; by eapply table_ok_weaken.
Qed.

Lemma snapshot_inv i j w first dr lr c o pc :
  inv i j w → w_pc w = LoadingSnapshot first → reads_ok dev_ID (w_devices w) dr → reads_ok lk_ID (w_links w) lr →
  after_snapshot unicode_lower (loadSnapshot dr lr) (w_cache w) = (c, o) →
  loading pc = false → device_batch pc = ∅ → link_batch pc = ∅ → inv i j (with_reader c (feeds w) pc w).
Proof.
  intros Hinv Hpc Hdr Hlr E Hp1 Hp2 Hp3. rewrite same_feeds. pose proof Hinv as [Hd Hl Hi Hj Hu Hr Hx Hli]. rewrite Hpc in *.
  unfold loadSnapshot in E. destruct (tr_GetAll dr) as [ds| |] eqn:Ed; simpl in E; [destruct (tr_GetAll lr) as [ls| |] eqn:El; simpl in E|..];
    injection E as <- <-.
  - destruct (ro_all _ _ _ Hdr _ Ed) as [Hnd _], (ro_all _ _ _ Hlr _ El) as [Hnl _].
    split; cbn; rewrite ?Hp1, ?Hp2, ?Hp3; try done.
    + by eapply snapshot_ok.
    + by eapply snapshot_ok.
    + eapply indexed_same; [|by apply (install_indexed unicode_lower ds ls (w_cache w))]. done.
    + intros _. split; intros _; by apply values_perm.
  - apply finish_inv; rewrite ?Hpc; done.
  - eapply forget_inv; try done; unfold stale, flags; cbn; rewrite ?Hi, ?Hj, ?Hu, ?Hp1, ?orb_true_r; done.
  - apply finish_inv; rewrite ?Hpc; done.
  - eapply forget_inv; try done; unfold stale, flags; cbn; rewrite ?Hi, ?Hj, ?Hu, ?Hp1, ?orb_true_r; done.
Qed.

Lemma changes_inv i j w k devices links r1 r2 dr lr c o :
  inv i j w → w_pc w = LoadingChanges k devices links → is_range r1 → is_range r2 →
  reads_ok dev_ID (w_devices w) dr → reads_ok lk_ID (w_links w) lr →
  after_changes unicode_lower (r2 devices) (r2 links) (loadChanges dr lr (r1 devices) (r1 links)) (w_cache w) = (c, o) →
  match o with
  | Failed _ => inv i j (with_reader (demand_reload c) (feeds w) Idle w)
  | _ => inv i j (with_reader c (feeds w) Idle w)
  end.
Proof.
  intros Hinv Hpc H1 H2 Hdr Hlr E. rewrite !same_feeds. pose proof Hinv as [Hd Hl Hi Hj Hu Hr Hx Hli]. rewrite Hpc in *. simpl in *.
  assert (Hforget : ∀ c', c' = finish (demand_reload (w_cache w)) → inv i j (mkWorld (w_devices w) (w_links w) (w_invalidations w) c' Idle)).
  { intros c' ->. eapply forget_inv; try done; unfold stale, flags; cbn; by rewrite ?Hi, ?Hj, ?Hu, ?orb_true_r. }
  unfold loadChanges in E. destruct (load_rows "device" dev_ID dr (changed_ids (r1 devices))) as [ld| |] eqn:Ed; simpl in E;
    [destruct (load_rows "link" lk_ID lr (changed_ids (r1 links))) as [ll| |] eqn:El; simpl in E|..]; injection E as <- <-; try by apply Hforget.
  destruct (apply_devices_fields ld (r2 devices) (w_cache w)) as (D1 & D2 & D3 & D4).
  set (c1 := foldl (apply_device unicode_lower ld) (w_cache w) (r2 devices)) in *.
  destruct (apply_links_fields ll (r2 links) c1) as (L1 & L2 & L3 & L4). rewrite D3 in L3.
  assert (Hc2 : indexed (foldl (apply_link unicode_lower ll) c1 (r2 links))) by by apply apply_changes_indexed.
  set (c2 := foldl (apply_link unicode_lower ll) c1 (r2 links)) in *. unfold flags in L3. injection L3 as F1 F2 F3 F4 F5 F6.
  assert (Hst : stale (finish c2) = stale (w_cache w)) by (unfold stale; cbn; by rewrite F2, F3).
  split; cbn [w_devices w_links w_cache w_pc loading device_batch link_batch]; try done; rewrite ?Hst; cbn; try congruence.
  - rewrite L2, D1. exact (changes_ok dev_ID i _ _ _ _ _ _ r1 r2 devices H1 H2 Hd Hdr Ed).
  - rewrite L1, D2. exact (changes_ok lk_ID j _ _ _ _ _ _ r1 r2 links H1 H2 Hl Hlr El).
  - by apply (indexed_same unicode_lower c2).
  - intros Hld. by apply L4; [apply D4|].
Qed.

Lemma drain_inv i j w pc (t : Table Device) (u : Table Link) :
  inv i j w → loading (w_pc w) = false → loading pc = false →
  table_ok dev_ID i t (dc_devicesByID (w_cache w)) (stale (w_cache w)) false (device_batch pc) →
  table_ok lk_ID j u (dc_linksByID (w_cache w)) (stale (w_cache w)) false (link_batch pc) →
  inv i j (mkWorld t u (w_invalidations w) (w_cache w) pc).
Proof. intros [] Hl Hl' ? ?. rewrite Hl in *. by split; cbn; rewrite ?Hl'. Qed.

Lemma reader_inv i j w w' : reader w w' → inv i j w → inv i j w'.
Proof.
  intros [w0 c fs Hpc E|w0 c fs Hpc E|w0 c fs Hpc E|w0 k n ds f ds' Hpc E|w0 k n ds Hpc E|w0 k n ds ls f ls' Hpc E|w0 k n ds ls Hpc E|
          w0 first dr lr c o Hpc Hd Hl E|w0 k ds ls r1 r2 dr lr c o Hpc H1 H2 Hd Hl E] Hw.
  - by destruct (begin_inv _ _ _ _ _ _ Hw Hpc E) as [? _].
  - destruct (begin_inv _ _ _ _ _ _ Hw Hpc E) as [? _]. by apply load_inv.
  - destruct (begin_inv _ _ _ _ _ _ Hw Hpc E) as [[] _]. by split.
  - pose proof Hw as []. rewrite in_deviceChanges0 in E. rewrite Hpc in *. apply (drain_inv i j w0 _ _ _ Hw); [by rewrite Hpc|done| |done].
    by eapply drain_one_ok.
  - pose proof Hw as []. rewrite Hpc in *. by apply (drain_inv i j w0 _ _ _ Hw); rewrite ?Hpc.
  - pose proof Hw as []. rewrite in_linkChanges0 in E. rewrite Hpc in *. apply (drain_inv i j w0 _ _ _ Hw); [by rewrite Hpc|done|done|].
    by eapply drain_one_ok.
  - case_match eqn:Eb.
    + apply andb_true_iff in Eb as [->%bool_decide_eq_true_1 ->%bool_decide_eq_true_1]. pose proof Hw as []. rewrite Hpc in *.
      by apply (drain_inv i j w0 _ _ _ Hw); rewrite ?Hpc.
    + by apply load_inv; rewrite ?Hpc.
  - eapply snapshot_inv; [done..| | |]; by repeat case_match.
  - pose proof (changes_inv _ _ _ _ _ _ _ _ _ _ _ _ Hw Hpc H1 H2 Hd Hl E) as H. destruct o, k; try done. by apply load_inv.
Qed.

Lemma read_lists_ok c : dc_loaded c = true → listed c → listed (read_devices c).1 ∧ listed (read_links c).1.
Proof.
  intros Hl [Hd Hk]; [done|]. unfold read_devices, read_links, listed. split; case_match; cbn; intros _;
    split; try done; intros _; auto; apply merge_sort_Permutation.
Qed.

Lemma step_inv i j w w' : step w w' → inv i j w → inv i j w'.
Proof.
  intros [w0 t i' Hi Hw|w0 t j' Hj Hw|w0 n|w0 Hf Hl|w0 Hf Hl|w0 w1 Hr] H; [..|by eapply reader_inv]; pose proof H as [].
  - assert (i' = i) as -> by congruence. split; try done. cbn. by eapply writes_ok.
  - assert (j' = j) as -> by congruence. split; try done. cbn. by eapply writes_ok.
  - by split.
  - pose proof (read_lists_ok _ Hl in_listed0) as [Hr _]. unfold read_devices in *. destruct (dc_devicesDirty (w_cache w0)); inv_split.
  - pose proof (read_lists_ok _ Hl in_listed0) as [_ Hr]. unfold read_links in *. destruct (dc_linksDirty (w_cache w0)); inv_split.
Qed.

Lemma subscribe_ok {A} (id_of : A → UUID) (t : Table A) cached s :
  tb_unpublished t = [] → filed id_of (tb_rows t) → dom (tb_rows t) ⊆ tb_used t → s = true →
  table_ok id_of (length (fd_subscribers (tb_feed t))) (with_feed (Subscribe 256 (tb_feed t)).2 t) cached s false ∅.
Proof.
  intros Hu Hf Hd ->. assert (E : ∀ x : Chan, (fd_subscribers (tb_feed t) ++ [x]) !! length (fd_subscribers (tb_feed t)) = Some x).
  { intros x. by rewrite lookup_app_r, Nat.sub_diag. }
  split; try done.
  - exists []. cbn. rewrite E. split; [done|simpl; lia].
  - intros ev [He|?]; [|done]. unfold events, queue in He. cbn in He. rewrite E, Hu in He. by apply not_elem_of_nil in He.
Qed.

Lemma initial_inv w : initial w → ∃ i j, inv i j w.
Proof.
  intros [devices links c fd fl n U1 U2 F1 F2 D1 D2 E]. injection E as <- <- <-. eexists _, _.
  split; cbn; try done; try (by apply subscribe_ok). split; try done; cbn.
  intros id x. unfold links_at, incident. cbn. rewrite lookup_empty. set_solver.
Qed.

Lemma reachable_inv w : reachable unicode_lower w → ∃ i j, inv i j w.
Proof.
  intros (w0 & H0 & Hs). destruct (initial_inv w0 H0) as (i & j & Hi). exists i, j. clear H0.
  induction Hs as [|w0 w1 w2 H01 _ IH]; [done|]. apply IH. by eapply step_inv.
Qed.
End spec.
