(* ===== verification/DeviceCacheTheorems.v ===== *)
(** * The device and link cache: what readers get

    [prepareLocked] is a run of the reader of [DeviceCacheSync] ([prepare_run]); without
    writers in between it drains both feeds, and the invariant leaves no difference to the
    database.  The lookups by name and topology are compared with plain searches. *)

From S2P Require Import Prelude GoLib GoText Domain Runtime DeviceCache DeviceCacheInv DeviceCacheSync DeviceCacheSpec.

Section theorems.
Context (unicode_lower : string → string).
Notation reader := (reader unicode_lower).
Notation inv := (inv unicode_lower).
Notation prepareLocked := (prepareLocked unicode_lower).
Implicit Types (w : World) (c : DeviceLinkCache).

(** ** A call of [prepareLocked] as a run *)

Definition same_db w w' : Prop :=
  tb_rows (w_devices w') = tb_rows (w_devices w) ∧ tb_rows (w_links w') = tb_rows (w_links w) ∧
  tb_unpublished (w_devices w') = tb_unpublished (w_devices w) ∧ tb_unpublished (w_links w') = tb_unpublished (w_links w).

Lemma same_db_trans w1 w2 w3 : same_db w1 w2 → same_db w2 w3 → same_db w1 w3.
Proof. unfold same_db. naive_solver congruence. Qed.

(** Answers of a database that nobody writes to: they are current, full reads succeed, nothing panics. *)
Record quiet_reads {A} (id_of : A → UUID) (t : Table A) (r : TableReads A) : Prop := {
  qr_ok : reads_ok id_of (start_load t) r;
  qr_all : ∃ l, tr_GetAll r = Returned l;
  qr_one : ∀ id, tr_GetByID r id ≠ Panicked;
  qr_some : ∀ get ids, tr_GetByIDs r = Some get → get ids ≠ Panicked }.

Record quiet w (rd : Reads) : Prop := {
  qu_devices : ∀ n, quiet_reads dev_ID (w_devices w) (rd_devices rd n);
  qu_links : ∀ n, quiet_reads lk_ID (w_links w) (rd_links rd n);
  qu_load : is_range (rd_load rd);
  qu_apply : is_range (rd_apply rd) }.

Lemma reads_ok_start {A} (id_of : A → UUID) (t t' : Table A) r :
  tb_rows t' = tb_rows t → tb_touched t' = ∅ → reads_ok id_of (start_load t) r → reads_ok id_of t' r.
Proof. intros Er Et [H1 H2 H3]. split; rewrite Er, Et; done. Qed.

Lemma quiet_reads_same {A} (id_of : A → UUID) (t t' : Table A) r : tb_rows t' = tb_rows t → quiet_reads id_of t r → quiet_reads id_of t' r.
Proof. intros E []. split; try done. by apply (reads_ok_start id_of t). Qed.

Lemma quiet_same w w' rd : same_db w w' → quiet w rd → quiet w' rd.
Proof.
  intros (E1 & E2 & _) []. split; try done; intros n; by eapply quiet_reads_same.
Qed.

Lemma drain_devices_run n w k ds f ds' :
  w_pc w = DrainDevices k n ds → drain n (dc_deviceChanges (w_cache w)) (tb_feed (w_devices w)) ds = (f, ds') →
  rtc reader w (mkWorld (with_feed f (w_devices w)) (w_links w) (w_invalidations w) (w_cache w) (DrainLinks k drain_limit ds' ∅)).
Proof.
  revert w ds. induction n as [|n IH]; intros w ds Hpc E; simpl in E.
  - injection E as <- <-. apply rtc_once. rewrite same_table. apply re_devices_end with O; auto.
  - destruct (drain_one _ _ ds) as [[f0 ds0]|] eqn:E0.
    + eapply rtc_l; [by eapply re_device|].
      exact (IH (mkWorld (with_feed f0 (w_devices w)) (w_links w) (w_invalidations w) (w_cache w) (DrainDevices k n ds0)) ds0 eq_refl E).
    + injection E as <- <-. apply rtc_once. rewrite same_table. eapply re_devices_end; eauto.
Qed.

Definition after_drain k (ds ls : Batch) w : World :=
  if bool_decide (ds = ∅) && bool_decide (ls = ∅) then mkWorld (w_devices w) (w_links w) (w_invalidations w) (w_cache w) Idle
  else with_load (LoadingChanges k ds ls) w.

Lemma drain_links_run n w k ds ls f ls' :
  w_pc w = DrainLinks k n ds ls → drain n (dc_linkChanges (w_cache w)) (tb_feed (w_links w)) ls = (f, ls') →
  rtc reader w (after_drain k ds ls' (mkWorld (w_devices w) (with_feed f (w_links w)) (w_invalidations w) (w_cache w) Idle)).
Proof.
  revert w ls. induction n as [|n IH]; intros w ls Hpc E; simpl in E.
  - injection E as <- <-. apply rtc_once. rewrite same_table. apply (re_links_end _ w k O); auto.
  - destruct (drain_one _ _ ls) as [[f0 ls0]|] eqn:E0.
    + eapply rtc_l; [by eapply re_link|].
      exact (IH (mkWorld (w_devices w) (with_feed f0 (w_links w)) (w_invalidations w) (w_cache w) (DrainLinks k n ds ls0)) ls0 eq_refl E).
    + injection E as <- <-. apply rtc_once. rewrite same_table. apply (re_links_end _ w k (S n)); auto.
Qed.

(** Where the reader is after [applyPendingIncrementalChangesLocked] returned [o]. *)
Definition applied k c (o : outcome unit) w : Prop :=
  match o, k with
  | Failed _, AfterReload => w_cache w = demand_reload c ∧ w_pc w = Idle
  | Failed _, Incremental => w_cache w = beginRefreshLocked (demand_reload c) ∧ w_pc w = LoadingSnapshot false ∧
      tb_touched (w_devices w) = ∅ ∧ tb_touched (w_links w) = ∅
  | _, _ => w_cache w = c ∧ w_pc w = Idle
  end.

Lemma apply_run w k rd n c fs o :
  w_pc w = DrainDevices k drain_limit ∅ → quiet w rd →
  applyPendingIncrementalChangesLocked unicode_lower (rd_devices rd n) (rd_links rd n) (rd_load rd) (rd_apply rd) (w_cache w) (feeds w) = (c, fs, o) →
  ∃ w', rtc reader w w' ∧ same_db w w' ∧ feeds w' = fs ∧ applied k c o w'.
Proof.
  intros Hpc Hq E. unfold applyPendingIncrementalChangesLocked in E. cbn [fs_devices fs_links feeds] in E.
  destruct (drain drain_limit (dc_deviceChanges (w_cache w)) (tb_feed (w_devices w)) ∅) as [fd ds] eqn:Ed.
  destruct (drain drain_limit (dc_linkChanges (w_cache w)) (tb_feed (w_links w)) ∅) as [fl ls] eqn:El.
  pose proof (drain_devices_run _ _ _ _ _ _ Hpc Ed) as Hrun1.
  match type of Hrun1 with rtc _ _ ?w1 => pose proof (drain_links_run _ w1 _ _ _ _ _ eq_refl El) as Hrun2 end.
  assert (Hrun := rtc_trans _ _ _ Hrun1 Hrun2). clear Hrun1 Hrun2. unfold after_drain in Hrun.
  cbn [w_devices w_links w_invalidations w_cache] in Hrun. destruct (bool_decide (ds = ∅) && bool_decide (ls = ∅)).
  - injection E as <- <- <-. eexists. split; [exact Hrun|]. by split_and!.
  - destruct (after_changes _ _ _ _ _) as [c0 o0] eqn:Ea in E. injection E as <- <- <-.
    match type of Hrun with rtc _ _ ?w2 => pose proof (re_changes unicode_lower w2 k ds ls (rd_load rd) (rd_apply rd) (rd_devices rd n) (rd_links rd n)
      c0 o0 eq_refl (qu_load _ _ Hq) (qu_apply _ _ Hq)) as Hlast end.
    eexists. split; [eapply rtc_r; [exact Hrun|apply Hlast; [..|exact Ea]]|].
    + by apply (reads_ok_start dev_ID (w_devices w)); [..|apply Hq].
    + by apply (reads_ok_start lk_ID (w_links w)); [..|apply Hq].
    + by destruct o0, k.
Qed.

Lemma reload_run w first rd n c o :
  w_pc w = LoadingSnapshot first → quiet w rd → tb_touched (w_devices w) = ∅ → tb_touched (w_links w) = ∅ →
  after_snapshot unicode_lower (loadSnapshot (rd_devices rd n) (rd_links rd n)) (w_cache w) = (c, o) →
  reader w (with_reader c (feeds w)
    (match o with Returned _ => if first && dc_useIncremental c then DrainDevices AfterReload drain_limit ∅ else Idle | _ => Idle end) w).
Proof.
  intros Hpc Hq Hd Hl E. eapply re_snapshot; [done|..|done].
  - by apply (reads_ok_start dev_ID (w_devices w)); [..|apply Hq].
  - by apply (reads_ok_start lk_ID (w_links w)); [..|apply Hq].
Qed.

Definition ended w c fs w' : Prop := rtc reader w w' ∧ same_db w w' ∧ feeds w' = fs ∧ w_cache w' = c ∧ w_pc w' = Idle.

Lemma feeds_with_reader c fs pc w : feeds (with_reader c fs pc w) = fs.
Proof. by destruct fs. Qed.

Lemma ended_with_reader w c fs w0 : rtc reader w (with_reader c fs Idle w0) → same_db w w0 → ∃ w', ended w c fs w'.
Proof. intros Hr Hdb. exists (with_reader c fs Idle w0). unfold ended. rewrite feeds_with_reader. done. Qed.

Lemma fallback_run w w1 rd n c fs c1 o :
  rtc reader w w1 → same_db w w1 → feeds w1 = fs → quiet w rd → w_cache w1 = beginRefreshLocked (demand_reload c) →
  w_pc w1 = LoadingSnapshot false → tb_touched (w_devices w1) = ∅ → tb_touched (w_links w1) = ∅ →
  reloadLocked unicode_lower (rd_devices rd n) (rd_links rd n) (demand_reload c) = (c1, o) → ∃ w', ended w c1 fs w'.
Proof.
  intros Hr Hdb <- Hq Ec Hpc H1 H2 E. unfold reloadLocked in E. rewrite <- Ec in E.
  pose proof (reload_run w1 false rd n c1 o Hpc (quiet_same _ _ _ Hdb Hq) H1 H2 E) as H3.
  apply (ended_with_reader w c1 (feeds w1) w1); [|done]. eapply rtc_r; [done|]. by destruct o.
Qed.

Lemma prepare_run w rd c fs o :
  w_pc w = Idle → dc_useIncremental (w_cache w) = true → quiet w rd →
  prepareLocked rd (w_cache w) (feeds w) = (c, fs, Some o) → ∃ w', ended w c fs w'.
Proof.
  intros Hpc Hu Hq E. unfold DeviceCache.prepareLocked in E.
  destruct (prepare_begin (w_cache w) (feeds w)) as [[c0 fs0] next] eqn:Eb. destruct next; [..|].
  - injection E as <- <- <-. apply (ended_with_reader w c0 fs0 w); [|done]. apply rtc_once. by apply re_return.
  - done.
  - pose proof (re_reload unicode_lower w c0 fs0 Hpc Eb) as H1. unfold reloadLocked in E.
    destruct (after_snapshot _ _ _) as [c1 o1] eqn:Es in E. set (w1 := with_load _ _) in H1.
    assert (Hq1 : quiet w1 rd) by by apply (quiet_same w).
    assert (H12 := rtc_l _ _ _ _ H1 (rtc_once _ _ (reload_run w1 true rd 0 c1 o1 eq_refl Hq1 eq_refl eq_refl Es))). clear H1.
    assert (Hf1 : feeds w1 = fs0) by by destruct fs0. rewrite Hf1 in H12.
    destruct o1 as [[]|e|]; [|by injection E as <- <- <-; apply (ended_with_reader w c1 fs0 w1)..].
    simpl in H12. destruct (dc_useIncremental c1); [|by injection E as <- <- <-; apply (ended_with_reader w c1 fs0 w1)].
    set (w2 := with_reader c1 fs0 _ w1) in H12. assert (Hf2 : feeds w2 = fs0) by apply feeds_with_reader.
    destruct (applyPendingIncrementalChangesLocked _ _ _ _ _ c1 fs0) as [[c2 fs2] o2] eqn:Ea in E. rewrite <- Hf2 in Ea.
    destruct (apply_run w2 AfterReload rd 1 c2 fs2 o2 eq_refl (quiet_same w w2 rd ltac:(done) Hq) Ea) as (w3 & H3 & D3 & F3 & A3).
    exists w3. split; [by eapply rtc_trans|]. split; [by apply (same_db_trans w w2 w3)|].
    destruct o2 as [[]|e|]; injection E as <- <- <-; simpl in A3; tauto.
  - pose proof (re_apply unicode_lower w c0 fs0 Hpc Eb) as H1. set (w1 := with_reader c0 fs0 _ w) in H1.
    assert (Hf1 : feeds w1 = fs0) by apply feeds_with_reader.
    destruct (applyPendingIncrementalChangesLocked _ _ _ _ _ c0 fs0) as [[c2 fs2] o2] eqn:Ea in E. rewrite <- Hf1 in Ea.
    destruct (apply_run w1 Incremental rd 0 c2 fs2 o2 eq_refl (quiet_same w w1 rd ltac:(done) Hq) Ea) as (w2 & H2 & D2 & F2 & A2).
    assert (H12 := rtc_l _ _ _ _ H1 H2). assert (D12 : same_db w w2) by by apply (same_db_trans w w1 w2).
    destruct o2 as [[]|e|]; simpl in A2; [injection E as <- <- <-; by exists w2| |injection E as <- <- <-; by exists w2].
    destruct A2 as (A1 & A2 & A3 & A4). destruct (reloadLocked _ _ _ _) as [c3 o3] eqn:Er in E. injection E as <- <- <-.
    by eapply fallback_run.
Qed.

(** ** Without writers *)

Lemma drain_empties n i f batch f' batch' :
  subscribed i f → (length (queue i f) <= n)%nat → drain n (Some i) f batch = (f', batch') →
  queue i f' = [] ∧ subscribed i f' ∧ fd_repairPending f' = fd_repairPending f ∧ (queue i f = [] → batch' = batch).
Proof.
  revert f batch. induction n as [|n IH]; intros f batch Hs Hl E; simpl in E.
  - injection E as <- <-. destruct (queue i f) eqn:Eq; simpl in Hl; [done|lia].
  - destruct (receive i f) as [[event f0]|] eqn:Er; simpl in E.
    + destruct (receive_queue i event f f0 Hs Er) as (Hs0 & Eq & Erep). rewrite Eq in Hl. simpl in Hl.
      destruct (IH f0 _ Hs0 ltac:(lia) E) as (H1 & H2 & H3 & _). split_and!; try congruence.
    + injection E as <- <-. split_and!; try done. by eapply receive_None.
Qed.

Lemma queue_receive i f : queue i f = [] → receive i f = None.
Proof. unfold queue, receive. by destruct (fd_subscribers f !! i) as [[cap [|e q]]|]. Qed.

Definition drained i j (fs : Feeds) : Prop := queue i (fs_devices fs) = [] ∧ queue j (fs_links fs) = [].
Definition unflagged (fs : Feeds) : Prop := fd_repairPending (fs_devices fs) = false ∧ fd_repairPending (fs_links fs) = false.
Definition both_subscribed i j (fs : Feeds) : Prop := subscribed i (fs_devices fs) ∧ subscribed j (fs_links fs).
Definition ready i j c : Prop :=
  dc_refreshing c = false ∧ dc_deviceChanges c = Some i ∧ dc_linkChanges c = Some j ∧ dc_useIncremental c = true.

Lemma load_each_returns {A} (id_of : A → UUID) what t (r : TableReads A) ids loaded : quiet_reads id_of t r → load_each what r ids loaded ≠ Panicked.
Proof.
  intros []. revert loaded. induction ids as [|id ids IH]; intros loaded; simpl; [done|].
  pose proof (qr_one0 id). destruct (tr_GetByID r id) as [[a|]| |]; simpl; done.
Qed.

Lemma load_rows_returns {A} (id_of : A → UUID) what t (r : TableReads A) ids : quiet_reads id_of t r → load_rows what id_of r ids ≠ Panicked.
Proof.
  intros H. pose proof (load_each_returns id_of what t r ids ∅ H). unfold load_rows. destruct (tr_GetByIDs r) as [get|] eqn:E; [|done].
  case_match; [|done]. unfold load_batch. pose proof (qr_some _ _ _ H get ids E). destruct (get ids); simpl; [|done|done].
  by destruct (list_find _ ids) as [[? ?]|].
Qed.

Lemma apply_quiet i j w rd n c fs c' fs' o :
  quiet w rd → ready i j c → both_subscribed i j fs →
  applyPendingIncrementalChangesLocked unicode_lower (rd_devices rd n) (rd_links rd n) (rd_load rd) (rd_apply rd) c fs = (c', fs', o) →
  drained i j fs' ∧ both_subscribed i j fs' ∧ (unflagged fs → unflagged fs') ∧ ready i j c' ∧ stale c' = stale c ∧ o ≠ Panicked ∧
  (drained i j fs → o = Returned tt).
Proof.
  intros Hq (R1 & R2 & R3 & R4) [Hsd Hsl] E. unfold applyPendingIncrementalChangesLocked in E. rewrite R2, R3 in E.
  destruct (drain drain_limit (Some i) (fs_devices fs) ∅) as [fd ds] eqn:Ed.
  destruct (drain drain_limit (Some j) (fs_links fs) ∅) as [fl ls] eqn:El.
  assert (Hlim : ∀ k f, subscribed k f → (length (queue k f) <= drain_limit)%nat).
  { intros k f (q & Eq & Hlen). unfold queue. rewrite Eq. simpl. unfold drain_limit. lia. }
  destruct (drain_empties _ _ _ _ _ _ Hsd (Hlim _ _ Hsd) Ed) as (D1 & D2 & D3 & D4).
  destruct (drain_empties _ _ _ _ _ _ Hsl (Hlim _ _ Hsl) El) as (L1 & L2 & L3 & L4).
  assert (Hun : unflagged fs → fd_repairPending fd = false ∧ fd_repairPending fl = false) by (unfold unflagged; by rewrite D3, L3).
  destruct (bool_decide (ds = ∅) && bool_decide (ls = ∅)) eqn:Ee; [by injection E as <- <- <-|].
  assert (Hne : ¬ drained i j fs) by (intros [Hd Hl]; rewrite (D4 Hd), (L4 Hl) in Ee; by rewrite !bool_decide_eq_true_2 in Ee).
  destruct (after_changes _ _ _ _ _) as [c0 o0] eqn:Ea in E. injection E as <- <- <-.
  unfold loadChanges in Ea. pose proof (load_rows_returns dev_ID "device" _ _ (changed_ids (rd_load rd ds)) (qu_devices _ _ Hq n)).
  pose proof (load_rows_returns lk_ID "link" _ _ (changed_ids (rd_load rd ls)) (qu_links _ _ Hq n)).
  destruct (load_rows "device" _ _ _) as [ld| |]; simpl in Ea; [destruct (load_rows "link" _ _ _) as [ll| |]; simpl in Ea|..]; try done;
    injection Ea as <- <-; split_and!; try done.
  all: destruct (apply_devices_fields unicode_lower ld (rd_apply rd ds) (beginRefreshLocked c)) as (_ & _ & F & _).
  all: destruct (apply_links_fields unicode_lower ll (rd_apply rd ls) (foldl (apply_device unicode_lower ld) (beginRefreshLocked c) (rd_apply rd ds))) as (_ & _ & G & _).
  all: rewrite F in G; injection G as ? G2 G3 ? ? ?.
  - unfold ready. cbn. split_and!; congruence.
  - unfold stale. cbn. by rewrite G2, G3.
Qed.

Lemma reload_quiet w rd n c : quiet w rd →
  ∃ c', reloadLocked unicode_lower (rd_devices rd n) (rd_links rd n) c = (c', Returned tt) ∧ stale c' = false ∧
        (∀ i j, ready i j c → ready i j c').
Proof.
  intros []. destruct (qr_all _ _ _ (qu_devices0 n)) as [ds Ed], (qr_all _ _ _ (qu_links0 n)) as [ls El].
  unfold reloadLocked, loadSnapshot. rewrite Ed, El. simpl. eexists. split; [done|]. split; [done|].
  intros i j (? & ? & ? & ?). unfold ready. by split_and!.
Qed.

Lemma prepare_quiet i j w rd c fs :
  quiet w rd → ready i j c → both_subscribed i j fs →
  ∃ c' fs' o, prepareLocked rd c fs = (c', fs', Some o) ∧ drained i j fs' ∧ unflagged fs' ∧ both_subscribed i j fs' ∧ ready i j c' ∧
    (o = Returned tt ∧ stale c' = false ∨ ∃ e, o = Failed e) ∧ (drained i j fs → o = Returned tt).
Proof.
  intros Hq Hr Hs. pose proof Hr as (R1 & R2 & R3 & R4). unfold DeviceCache.prepareLocked, prepare_begin. rewrite R1.
  destruct (check_sources c fs) as [c0 fs0] eqn:Ec. destruct (check_sources_spec i j _ _ _ _ R2 R3 R4 Ec) as [-> Ec0].
  set (fs0 := mkFeeds _ _ _). assert (Hs0 : both_subscribed i j fs0) by done. assert (Hu0 : unflagged fs0) by done.
  assert (Hd0 : drained i j fs → drained i j fs0) by done. clearbody fs0.
  assert (Hr0 : ready i j c0) by (subst c0; by case_match). pose proof Hr0 as (_ & _ & _ & U0). fold (stale c0).
  destruct (stale c0) eqn:Est.
  - destruct (reload_quiet w rd 0 c0 Hq) as (c1 & -> & Hst & Hr1). simpl. specialize (Hr1 i j Hr0). pose proof Hr1 as (_ & _ & _ & ->).
    destruct (applyPendingIncrementalChangesLocked _ _ _ _ _ c1 fs0) as [[c2 fs2] o2] eqn:Ea.
    destruct (apply_quiet i j w rd 1 _ _ _ _ _ Hq Hr1 Hs0 Ea) as (A1 & A2 & A3 & A4 & A5 & A6 & A7).
    destruct o2 as [[]|e|]; [| |done].
    + eexists _, _, _. split; [done|]. split_and!; auto. left. by rewrite A5.
    + eexists _, _, _. split; [done|]. split_and!; eauto.
  - rewrite U0. simpl. destruct (applyPendingIncrementalChangesLocked _ _ _ _ _ c0 fs0) as [[c2 fs2] o2] eqn:Ea.
    destruct (apply_quiet i j w rd 0 _ _ _ _ _ Hq Hr0 Hs0 Ea) as (A1 & A2 & A3 & A4 & A5 & A6 & A7).
    destruct o2 as [[]|e|]; [| |done].
    + eexists _, _, _. split; [done|]. split_and!; auto. left. by rewrite A5.
    + destruct (reload_quiet w rd 1 (demand_reload c2) Hq) as (c3 & -> & Hst & Hr3).
      eexists _, _, _. split; [done|]. split_and!; auto; by apply Hr3.
Qed.

(** ** What a reader can rely on *)

(** An event of the row is on its way to the cache, or its feed asks for a repair. *)
Definition announced {A} (ch : option nat) (t : Table A) (id : UUID) : Prop :=
  match ch with Some i => pending i t id | None => False end.
Definition channel (ch : option nat) (f : ChangeFeed) : list ChangeEvent := match ch with Some i => queue i f | None => [] end.
(** Nothing is announced. *)
Definition quiet_table {A} (ch : option nat) (t : Table A) : Prop :=
  tb_unpublished t = [] ∧ channel ch (tb_feed t) = [] ∧ fd_repairPending (tb_feed t) = false.

Lemma settled_equal i j w :
  inv i j w → w_pc w = Idle → stale (w_cache w) = false → quiet_table (Some i) (w_devices w) → quiet_table (Some j) (w_links w) →
  dc_devicesByID (w_cache w) = tb_rows (w_devices w) ∧ dc_linksByID (w_cache w) = tb_rows (w_links w).
Proof.
  intros [] Hpc Hst (U1 & Q1 & F1) (U2 & Q2 & F2). rewrite Hpc, Hst in *. simpl in *.
  split; eapply table_ok_settled; try done; unfold events; [by rewrite U1, Q1|by rewrite U2, Q2].
Qed.


Lemma inv_ready i j w : inv i j w → w_pc w = Idle → ready i j (w_cache w) ∧ both_subscribed i j (feeds w).
Proof.
  intros [] Hpc. rewrite Hpc in *. split; [by unfold ready|]. split; [by eapply tk_chan, in_devices|by eapply tk_chan, in_links].
Qed.

Lemma rtc_inv i j w w' : rtc reader w w' → inv i j w → inv i j w'.
Proof. induction 1; eauto using reader_inv. Qed.

(** One call of [GetDevices] without writers. *)
Lemma quiet_get i j w rd :
  inv i j w → w_pc w = Idle → tb_unpublished (w_devices w) = [] → tb_unpublished (w_links w) = [] → quiet w rd →
  ∃ w' o, GetDevices unicode_lower rd (w_cache w) (feeds w) = (w_cache w', feeds w', Some o) ∧
    inv i j w' ∧ w_pc w' = Idle ∧ same_db w w' ∧ drained i j (feeds w') ∧ o ≠ Panicked ∧
    (drained i j (feeds w) → ∃ ds, o = Returned ds) ∧
    ∀ ds, o = Returned ds → ds ≡ₚ (map_to_list (tb_rows (w_devices w))).*2 ∧
      dc_devicesByID (w_cache w') = tb_rows (w_devices w) ∧ dc_linksByID (w_cache w') = tb_rows (w_links w).
Proof.
  intros Hw Hpc U1 U2 Hq. destruct (inv_ready i j w Hw Hpc) as [Hr Hs].
  destruct (prepare_quiet i j w rd _ _ Hq Hr Hs) as (c & fs & o & E & [D1 D2] & [F1 F2] & _ & _ & Ho & Hd).
  destruct (prepare_run w rd c fs o Hpc (in_incremental _ _ _ _ Hw) Hq E) as (w1 & Hrun & Hdb & <- & <- & Hpc1).
  pose proof (rtc_inv i j w w1 Hrun Hw) as Hw1. destruct Hdb as (R1 & R2 & V1 & V2). unfold GetDevices, get. rewrite E.
  destruct Ho as [[-> Hst]|[e ->]]; cycle 1.
  { exists w1, (Failed e). split_and!; try done. intros H. by specialize (Hd H). }
  destruct (settled_equal i j w1 Hw1 Hpc1 Hst) as [E1 E2]; [split_and!; try done; congruence..|].
  assert (Hl : dc_loaded (w_cache w1) = true) by (unfold stale in Hst; by destruct (dc_loaded (w_cache w1))).
  set (w2 := mkWorld (w_devices w1) (w_links w1) (w_invalidations w1) (read_devices (w_cache w1)).1 (w_pc w1)).
  assert (Hw2 : inv i j w2) by (eapply step_inv; [apply st_read_devices; by rewrite ?Hpc1|done]).
  assert (Hds : (read_devices (w_cache w1)).2 ≡ₚ (map_to_list (tb_rows (w_devices w))).*2).
  { rewrite <- R1, <- E1. unfold read_devices. cbn. case_match; cbn; [apply merge_sort_Permutation|]. by apply (in_listed _ _ _ _ Hw1). }
  exists w2, (Returned (read_devices (w_cache w1)).2). destruct (read_devices (w_cache w1)) as [c2 ds] eqn:Erd.
  assert (Em : dc_devicesByID c2 = dc_devicesByID (w_cache w1) ∧ dc_linksByID c2 = dc_linksByID (w_cache w1)).
  { unfold read_devices in Erd. injection Erd as <- _. by case_match. }
  split_and!; try done; [by eauto|]. intros ds' [= <-]. split_and!; [done|..]; cbn; destruct Em; congruence.
Qed.

End theorems.
