(* ===== verification/DeviceCacheReads.v ===== *)
(** * The device and link cache: lookups

    Lookups by topology, name and endpoints against the rows of the cache, and a small
    deployment that shows the hypotheses of the theorems can hold. *)

From S2P Require Import Prelude GoLib GoText Domain Runtime DeviceCache DeviceCacheInv DeviceCacheSync DeviceCacheSpec DeviceCacheTheorems.

(** ** The order of links *)

Definition link_le (a b : Link) : Prop := link_less b a = false.
#[export] Instance link_le_dec a b : Decision (link_le a b) := decide (link_less b a = false).

Lemma link_le_alt a b :
  link_le a b ↔ lk_CreatedAt a < lk_CreatedAt b ∨ lk_CreatedAt a = lk_CreatedAt b ∧ string_le (uuid_String (lk_ID a)) (uuid_String (lk_ID b)).
Proof.
  unfold link_le, link_less, string_le. destruct (Z.eqb_spec (lk_CreatedAt b) (lk_CreatedAt a)); simpl; [|rewrite Z.ltb_ge]; intuition lia.
Qed.

#[export] Instance link_le_total : Total link_le.
Proof.
  intros a b. rewrite !link_le_alt. destruct (string_le_total (uuid_String (lk_ID a)) (uuid_String (lk_ID b)));
    destruct (Z.lt_trichotomy (lk_CreatedAt a) (lk_CreatedAt b)) as [?|[?|?]]; auto.
Qed.
#[export] Instance link_le_trans : Transitive link_le.
Proof.
  intros a b c. rewrite !link_le_alt. intros [?|[? H1]] [?|[? H2]]; [left; lia..|]. right. split; [congruence|]. by etrans.
Qed.

Section lookups.
Context (unicode_lower : string → string).
Notation indexed := (indexed unicode_lower).
Implicit Types (c : DeviceLinkCache).

(** ** Topology of a device *)

Definition copies c (m : gmap UUID Device) : Prop := ∀ x d, m !! x = Some d → dc_devicesByID c !! x = Some d.

Lemma add_endpoint_lookup c m id x d :
  add_endpoint c m id !! x = Some d ↔ (x = id ∧ dc_devicesByID c !! id = Some d) ∨ (m !! x = Some d ∧ (x = id → dc_devicesByID c !! id = None)).
Proof.
  unfold add_endpoint. destruct (dc_devicesByID c !! id) as [e|]; rewrite ?lookup_insert_Some; naive_solver.
Qed.

(** Endpoints are copied from the cache, so the order of the copies does not matter. *)
Lemma add_endpoint_copies c ids m :
  copies c m → ∀ x d, foldl (add_endpoint c) m ids !! x = Some d ↔ dc_devicesByID c !! x = Some d ∧ (is_Some (m !! x) ∨ x ∈ ids).
Proof.
  revert m. induction ids as [|id ids IH]; intros m Hm x d; simpl.
  - split; [intros H; split; [by apply Hm|eauto]|]. intros [Hx [[e He]|?%not_elem_of_nil]]; [|done]. rewrite He. rewrite <- Hx. symmetry. by apply Hm.
  - rewrite IH by (intros y e [[-> ?]|[? _]]%add_endpoint_lookup; auto). unfold is_Some. setoid_rewrite add_endpoint_lookup.
    rewrite elem_of_cons. split; [naive_solver|]. intros [Hx [[e He]|[->|?]]]; [|naive_solver..].
    split; [done|]. left. destruct (decide (x = id)) as [->|]; [exists d; by left|exists e; right; naive_solver].
Qed.

Lemma topology_devices c links m :
  copies c m → ∀ x d, foldl (λ m l, foldl (add_endpoint c) m (endpoints l)) m links !! x = Some d ↔
         dc_devicesByID c !! x = Some d ∧ (is_Some (m !! x) ∨ ∃ l, l ∈ links ∧ x ∈ endpoints l).
Proof.
  revert m. induction links as [|l links IH]; intros m Hm x d; cbn [foldl].
  - pose proof (add_endpoint_copies c [] m Hm x d) as E. simpl in E. rewrite E. set_solver.
  - rewrite IH by (intros y e; rewrite (add_endpoint_copies c _ m Hm); tauto).
    unfold is_Some at 1. setoid_rewrite (add_endpoint_copies c _ m Hm). setoid_rewrite elem_of_cons. naive_solver.
Qed.

Lemma incident_rows c id :
  indexed c →
  map (λ l, default zeroLink (dc_linksByID c !! l)) (elements (links_at (dc_linksByDevice c) id)) ≡ₚ
  filter (λ l, id ∈ endpoints l) (map_to_list (dc_linksByID c)).*2.
Proof.
  intros Hc. set (f := λ l, default zeroLink (dc_linksByID c !! l)).
  assert (Hf : ∀ x, x ∈ elements (links_at (dc_linksByDevice c) id) → ∃ l, dc_linksByID c !! x = Some l ∧ f x = l ∧ lk_ID l = x ∧ id ∈ endpoints l).
  { intros x Hx%elem_of_elements. apply (ix_incident _ _ Hc) in Hx as (l & Hl & He). exists l. unfold f. rewrite Hl.
    split_and!; try done. by apply (ix_links _ _ Hc). }
  apply NoDup_Permutation.
  - apply NoDup_fmap_2_strong; [|apply NoDup_elements]. intros x y (lx & _ & Ex & <- & _)%Hf (ly & _ & Ey & <- & _)%Hf. congruence.
  - apply NoDup_filter, (NoDup_fmap_2_strong snd); [|apply NoDup_map_to_list].
    intros [x lx] [y ly] Hx%elem_of_map_to_list Hy%elem_of_map_to_list. simpl. intros <-.
    by rewrite <- (ix_links _ _ Hc _ _ Hx), <- (ix_links _ _ Hc _ _ Hy).
  - intros l. rewrite list_elem_of_filter, !list_elem_of_fmap. split.
    + intros (x & -> & Hx). destruct (Hf x Hx) as (l & Hl & -> & _ & He). split; [done|]. exists (x, l). by rewrite elem_of_map_to_list.
    + intros (He & [x l'] & -> & Hx%elem_of_map_to_list). exists x. unfold f. rewrite Hx. split; [done|].
      apply elem_of_elements, (ix_incident _ _ Hc). by exists l'.
Qed.

End lookups.

(** ** A small deployment *)

(** A database that answers from its rows. *)
Definition rows_reads {A} (rows : gmap UUID A) : TableReads A :=
  mkReads A (Returned (map_to_list rows).*2) (λ id, Returned (rows !! id)) (Some (λ ids, Returned (omap (λ id, rows !! id) ids))).

Lemma rows_reads_quiet {A} (id_of : A → UUID) (t : Table A) : filed id_of (tb_rows t) → quiet_reads id_of t (rows_reads (tb_rows t)).
Proof.
  intros Hf. split; [split|by eexists|done|by intros get ids [= <-]]; cbn.
  - intros l [= <-]. split; [by apply filed_NoDup|]. intros a _. rewrite list_elem_of_fmap. split.
    + intros ([id b] & -> & Hp%elem_of_map_to_list). simpl. by rewrite (Hf _ _ Hp).
    + intros Ha. exists (id_of a, a). by rewrite elem_of_map_to_list.
  - intros id a [= Ha]. auto.
  - intros get ids l a [= <-] [= <-] (id & _ & Ha)%list_elem_of_omap _. by rewrite (Hf _ _ Ha).
Qed.

Definition demo_device (id : UUID) (name : string) : Device :=
  {| dev_ID := id; dev_Hostname := name; dev_SysName := name; dev_IP := ""; dev_SNMPCredentials := dev_SNMPCredentials zeroDevice;
     dev_DeviceType := ""; dev_PollClass := ""; dev_PollIntervalOverride := None; dev_PollingEnabled := None; dev_Status := "";
     dev_Managed := false; dev_Interfaces := []; dev_Addresses := []; dev_ProbePorts := []; dev_AreaIDs := []; dev_MetricsSource := "";
     dev_TopologyDiscoveryMode := ""; dev_TopologyBootstrapState := "" |}.
Definition demo_link : Link :=
  {| lk_ID := 9; lk_SourceDeviceID := 1; lk_SourceIfName := "ether1"; lk_TargetDeviceID := 2; lk_TargetIfName := "ether2"; lk_CreatedAt := 5 |}.
Definition demo_table {A} (id_of : A → UUID) (l : list A) : Table A :=
  mkTable (rows_of id_of l) (dom (rows_of id_of l)) [] (mkFeed [mkChan 256 []] false) ∅.
Definition demo_devices : Table Device := demo_table dev_ID [demo_device 1 "edge.example.net"; demo_device 2 "core"].
Definition demo_links : Table Link := demo_table lk_ID [demo_link].

(** The feeds have one other subscriber; the cache is new. *)
Definition demo_world : World :=
  match NewDeviceLinkCache (Some (tb_feed demo_devices)) (Some (tb_feed demo_links)) with
  | (c, Some fd, Some fl) => mkWorld (with_feed fd demo_devices) (with_feed fl demo_links) 0 c Idle
  | (c, _, _) => mkWorld demo_devices demo_links 0 c Idle
  end.
Definition demo_reads : Reads :=
  mkPrepareReads (λ _, rows_reads (tb_rows demo_devices)) (λ _, rows_reads (tb_rows demo_links)) map_to_list map_to_list.

Lemma demo_reachable : reachable id demo_world.
Proof.
  exists demo_world. split; [|done].
  apply (initial_world demo_devices demo_links _ (Subscribe 256 (tb_feed demo_devices)).2 (Subscribe 256 (tb_feed demo_links)).2 0); try done; apply rows_of_filed.
Qed.

Lemma demo_quiet : quiet demo_world demo_reads.
Proof.
  split.
  - intros n. apply (rows_reads_quiet dev_ID (w_devices demo_world)), rows_of_filed.
  - intros n. apply (rows_reads_quiet lk_ID (w_links demo_world)), rows_of_filed.
  - by intros m.
  - by intros m.
Qed.




(** The first read of the deployment. *)
Example demo_first_read :
  (GetDevices id demo_reads (w_cache demo_world) (feeds demo_world)).2 = Some (Returned [demo_device 2 "core"; demo_device 1 "edge.example.net"]).
Proof. vm_compute. reflexivity. Qed.

(** *** An index entry that is lost

    [upsertDeviceLocked] removes the entry of the old name of a device without looking whether
    the name belongs to another device by now.  When device 1 gives up a name and device 2 takes
    it, and both changes are applied in one batch in the order 2, 1, the name leads nowhere
    afterwards, though names were unique in the database at all times. *)
Example sysName_entry_lost :
  let c := (GetDevices id demo_reads (w_cache demo_world) (feeds demo_world)).1.1 in
  let renamed := rows_of dev_ID [demo_device 1 "spare"; demo_device 2 "edge"] in
  let c' := foldl (apply_device id renamed) c [(2, mkEvent ChangeKindUpdated 2); (1, mkEvent ChangeKindUpdated 1)] in
  dc_devicesByID c' = renamed ∧ read_device_by_sysName id "edge" c' = None.
Proof. vm_compute. split; reflexivity. Qed.
