(* ===== verification/Password.v ===== *)
(** * Passwords and tokens

    [internal/security/password.go]: the password policy, the stored form of Argon2id hashes with
    its strict parser, and keyed hashes of bearer tokens.  Argon2 itself (a third-party package)
    is a parameter; HMAC-SHA256, base64, [strconv.ParseUint] and the decoding of UTF-8 are
    modelled, the Unicode classes of code points are a parameter.  Random bytes are arguments. *)

From Stdlib Require Import DecimalString Ascii.
From S2P Require Import Prelude GoLib GoText Sha256.

(** ** encoding/base64, without padding *)

Definition b64_std : string := "ABCDEFGHIJKLMNOPQRSTUVWXYZabcdefghijklmnopqrstuvwxyz0123456789+/".
Definition b64_url : string := "ABCDEFGHIJKLMNOPQRSTUVWXYZabcdefghijklmnopqrstuvwxyz0123456789-_".

Section base64.
Context (alphabet : string).

Definition b64_char (v : Z) : Z := nth (Z.to_nat v) (bytes_of alphabet) 0.
Fixpoint b64_encode (l : bytes) : bytes :=
  match l with
  | a :: b :: c :: r => b64_char (a / 4) :: b64_char (a mod 4 * 16 + b / 16) :: b64_char (b mod 16 * 4 + c / 64) :: b64_char (c mod 64) :: b64_encode r
  | [a; b] => [b64_char (a / 4); b64_char (a mod 4 * 16 + b / 16); b64_char (b mod 16 * 4)]
  | [a] => [b64_char (a / 4); b64_char (a mod 4 * 16)]
  | [] => []
  end.

Definition b64_value (c : Z) : option Z := (λ p : nat * Z, Z.of_nat p.1) <$> list_find (λ b, b = c) (bytes_of alphabet).

(** Four characters give three bytes; surplus bits of a short last group are dropped. *)
Fixpoint b64_groups (l : bytes) : option bytes :=
  match l with
  | a :: b :: c :: d :: r =>
      a ← b64_value a; b ← b64_value b; c ← b64_value c; d ← b64_value d; rest ← b64_groups r;
      Some (a * 4 + b / 16 :: b mod 16 * 16 + c / 4 :: c mod 4 * 64 + d :: rest)
  | [a; b; c] => a ← b64_value a; b ← b64_value b; c ← b64_value c; Some [a * 4 + b / 16; b mod 16 * 16 + c / 4]
  | [a; b] => a ← b64_value a; b ← b64_value b; Some [a * 4 + b / 16]
  | [_] => None
  | [] => Some []
  end.

(** [DecodeString]: line ends are ignored. *)
Definition b64_decode (l : bytes) : option bytes := b64_groups (filter (λ b, b ≠ 10 ∧ b ≠ 13) l).
End base64.

(** ** Tokens *)

Definition hmac_sha256 (key msg : bytes) : bytes :=
  let key := if (64 <? length key)%nat then Sum256 key else key in
  let key := key ++ replicate (64 - length key) 0 in
  Sum256 (map (Z.lxor 92) key ++ Sum256 (map (Z.lxor 54) key ++ msg)).

Definition HashToken (token : string) (secret : bytes) : string :=
  ("hmac-sha256:" +:+ string_of (b64_encode b64_url (hmac_sha256 secret (bytes_of token))))%string.

(** [GenerateToken] from 32 random bytes; [None]: no randomness. *)
Definition GenerateToken (raw : option bytes) : option string := (λ raw, string_of (b64_encode b64_url raw)) <$> raw.

(** ** Password policy *)

(** One step of a [range] loop over a string: the code point and its width; an invalid byte
    counts as one replacement character. *)
Definition decode_rune (l : bytes) : Z * nat :=
  let bad := (65533, 1%nat) in
  let cont lo hi b := (lo <=? b) && (b <=? hi) in
  match l with
  | [] => (65533, 0%nat)
  | b0 :: r =>
      if b0 <? 128 then (b0, 1%nat)
      else if cont 194 223 b0 then
        match r with b1 :: _ => if cont 128 191 b1 then (b0 mod 32 * 64 + b1 mod 64, 2%nat) else bad | _ => bad end
      else if cont 224 239 b0 then
        let lo := if b0 =? 224 then 160 else 128 in
        let hi := if b0 =? 237 then 159 else 191 in
        match r with
        | b1 :: b2 :: _ => if cont lo hi b1 && cont 128 191 b2 then (b0 mod 16 * 4096 + b1 mod 64 * 64 + b2 mod 64, 3%nat) else bad
        | _ => bad
        end
      else if cont 240 244 b0 then
        let lo := if b0 =? 240 then 144 else 128 in
        let hi := if b0 =? 244 then 143 else 191 in
        match r with
        | b1 :: b2 :: b3 :: _ =>
            if cont lo hi b1 && cont 128 191 b2 && cont 128 191 b3
            then (b0 mod 8 * 262144 + b1 mod 64 * 4096 + b2 mod 64 * 64 + b3 mod 64, 4%nat) else bad
        | _ => bad
        end
      else bad
  end.

Fixpoint runes_fuel (n : nat) (l : bytes) : list Z :=
  match n, l with
  | S n, _ :: _ => let '(r, w) := decode_rune l in r :: runes_fuel n (drop w l)
  | _, _ => []
  end.
(** [[]rune(s)] *)
Definition runes (s : string) : list Z := let l := bytes_of s in runes_fuel (length l) l.

Record UnicodeClasses := { IsUpper : Z → bool; IsLower : Z → bool; IsDigit : Z → bool; IsPunct : Z → bool; IsSymbol : Z → bool }.

Definition passwordMinLength : Z := 10.
Definition passwordMaxLength : Z := 24.

Record Seen := mkSeen { hasUpper : bool; hasLower : bool; hasNumber : bool; hasSpecial : bool }.
Definition see_rune (u : UnicodeClasses) (s : Seen) (r : Z) : Seen :=
  if IsUpper u r then mkSeen true (hasLower s) (hasNumber s) (hasSpecial s)
  else if IsLower u r then mkSeen (hasUpper s) true (hasNumber s) (hasSpecial s)
  else if IsDigit u r then mkSeen (hasUpper s) (hasLower s) true (hasSpecial s)
  else if IsPunct u r || IsSymbol u r then mkSeen (hasUpper s) (hasLower s) (hasNumber s) true
  else s.

(** [true]: the password is accepted; every error is the same sentinel. *)
Definition ValidatePasswordPolicy (u : UnicodeClasses) (password : string) : bool :=
  let trimmed := runes (TrimSpace password) in
  let characterCount := Z.of_nat (length trimmed) in
  if (characterCount <? passwordMinLength) || (passwordMaxLength <? characterCount) then false
  else
    let s := foldl (see_rune u) (mkSeen false false false false) trimmed in
    if negb (hasUpper s) then false
    else if negb (hasLower s) then false
    else if negb (hasNumber s) then false
    else hasSpecial s.

(** ** Stored hashes *)

Definition argon2idMemory : Z := 65536.
Definition argon2idIterations : Z := 3.
Definition argon2idParallelism : Z := 4.
Definition argon2idSaltLength : Z := 16.
Definition argon2idKeyLength : Z := 32.

Record argon2idParams := mkParams { ap_memory : Z; ap_iterations : Z; ap_parallelism : Z }.

(** [strings.Cut] at the first separator *)
Fixpoint Cut (s : string) (sep : Ascii.ascii) : option (string * string) :=
  match s with
  | EmptyString => None
  | String c r => if Ascii.eqb c sep then Some (""%string, r) else (λ p : string * string, (String c p.1, p.2)) <$> Cut r sep
  end.

(** [strconv.ParseUint(value, 10, 32)] *)
Definition ParseUint32 (s : string) : option Z :=
  match NilZero.uint_of_string s with
  | Some u => let z := Z.of_uint u in if z <=? 2 ^ 32 - 1 then Some z else None
  | None => None
  end.

Definition parse_param (values : gmap string Z) (part : string) : option (gmap string Z) :=
  '(key, value) ← Cut part "="%char;
  if negb (existsb (String.eqb key) ["m"; "t"; "p"]%string) then None
  else if bool_decide (is_Some (values !! key)) then None
  else parsed ← ParseUint32 value; if parsed =? 0 then None else Some (<[key := parsed]> values).

Fixpoint parse_params (values : gmap string Z) (parts : list string) : option (gmap string Z) :=
  match parts with
  | [] => Some values
  | part :: parts => values ← parse_param values part; parse_params values parts
  end.

Definition parseArgon2idParams (raw : string) : option argon2idParams :=
  values ← parse_params ∅ (Split raw ","%char);
  if negb (size values =? 3)%nat then None
  else
    memory ← values !! "m"%string; iterations ← values !! "t"%string; parallelism ← values !! "p"%string;
    if 255 <? parallelism then None else Some (mkParams memory iterations parallelism).

Section argon2.
(** [argon2.Version] and [argon2.IDKey password salt params keyLen] *)
Context (argon2_Version : Z) (IDKey : bytes → bytes → argon2idParams → Z → bytes).

Definition fixed_params : argon2idParams := mkParams argon2idMemory argon2idIterations argon2idParallelism.

(** The hash for 16 bytes of salt. *)
Definition HashPassword (salt : bytes) (password : string) : string :=
  let hash := IDKey (bytes_of password) salt fixed_params argon2idKeyLength in
  ("$argon2id$v=" +:+ Itoa argon2_Version +:+ "$m=" +:+ Itoa argon2idMemory +:+ ",t=" +:+ Itoa argon2idIterations +:+ ",p=" +:+ Itoa argon2idParallelism
   +:+ "$" +:+ string_of (b64_encode b64_std salt) +:+ "$" +:+ string_of (b64_encode b64_std hash))%string.

Definition parseArgon2idHash (encodedHash : string) : option (argon2idParams * bytes * bytes) :=
  match Split encodedHash "$"%char with
  | [p0; p1; p2; p3; p4; p5] =>
      if negb (String.eqb p0 "") || negb (String.eqb p1 "argon2id") then None
      else if negb (String.eqb p2 ("v=" +:+ Itoa argon2_Version)) then None
      else
        params ← parseArgon2idParams p3;
        if negb (ap_memory params =? argon2idMemory) || negb (ap_iterations params =? argon2idIterations)
           || negb (ap_parallelism params =? argon2idParallelism) then None
        else
          salt ← b64_decode b64_std (bytes_of p4);
          hash ← b64_decode b64_std (bytes_of p5);
          if negb (Z.of_nat (length salt) =? argon2idSaltLength) || negb (Z.of_nat (length hash) =? argon2idKeyLength) then None
          else Some (params, salt, hash)
  | _ => None
  end.

(** [None]: the stored hash is not valid. *)
Definition VerifyPassword (password encodedHash : string) : option bool :=
  '(params, salt, expectedHash) ← parseArgon2idHash encodedHash;
  Some (bool_decide (IDKey (bytes_of password) salt params (Z.of_nat (length expectedHash)) = expectedHash)).
End argon2.

(** * Passwords and tokens: theorems

    Stored hashes can be read back and verify exactly the passwords with the same Argon2 output,
    weaker parameters are refused, and the password policy is what its message says. *)

From Stdlib Require Import DecimalString Ascii.

Definition is_byte (b : Z) : Prop := 0 <= b < 256.

(** ** base64 *)

Definition plain_char (c : Z) : Prop := c ≠ 36 ∧ c ≠ 10 ∧ c ≠ 13.

Lemma b64_std_table : Forall (λ n, b64_value b64_std (b64_char b64_std (Z.of_nat n)) = Some (Z.of_nat n) ∧ is_byte (b64_char b64_std (Z.of_nat n))
  ∧ plain_char (b64_char b64_std (Z.of_nat n))) (seq 0 64).
Proof. unfold is_byte, plain_char. repeat constructor; vm_compute; congruence. Qed.

Lemma b64_std_char v : 0 <= v < 64 →
  b64_value b64_std (b64_char b64_std v) = Some v ∧ is_byte (b64_char b64_std v) ∧ plain_char (b64_char b64_std v).
Proof.
  intros Hv. pose proof b64_std_table as Ht. rewrite Forall_forall in Ht. specialize (Ht (Z.to_nat v)).
  rewrite Z2Nat.id in Ht by lia. apply Ht. apply elem_of_seq. lia.
Qed.

(** Induction on a list in groups of three, with the short last groups. *)
Lemma list_ind3 {A} (P : list A → Prop) :
  P [] → (∀ a, P [a]) → (∀ a b, P [a; b]) → (∀ a b c l, P l → P (a :: b :: c :: l)) → ∀ l, P l.
Proof.
  intros H0 H1 H2 H3. fix IH 1. intros [|a [|b [|c l]]]; [done|done|done|]. apply H3, IH.
Qed.

Ltac b64_range := Z.to_euclidean_division_equations; lia.

Lemma b64_encode_plain l : Forall is_byte l → Forall (λ c, is_byte c ∧ plain_char c) (b64_encode b64_std l).
Proof.
  induction l using list_ind3; intros Hl; repeat (apply Forall_cons in Hl as [? Hl]); unfold is_byte in *; simpl;
    repeat (apply Forall_cons; split); auto; apply b64_std_char; b64_range.
Qed.

Lemma b64_groups_encode l : Forall is_byte l → b64_groups b64_std (b64_encode b64_std l) = Some l.
Proof.
  induction l as [|a|a b|a b c l IH] using list_ind3; intros Hl; repeat (apply Forall_cons in Hl as [? Hl]); unfold is_byte in *; simpl; [done|..].
  - rewrite !(λ v H, proj1 (b64_std_char v H)) by b64_range. simpl. do 2 f_equal. b64_range.
  - rewrite !(λ v H, proj1 (b64_std_char v H)) by b64_range. simpl. repeat f_equal; b64_range.
  - rewrite !(λ v H, proj1 (b64_std_char v H)) by b64_range. simpl. rewrite IH by done. simpl. repeat f_equal; b64_range.
Qed.

Lemma filter_keeps {A} (P : A → Prop) `{!∀ x, Decision (P x)} (l : list A) : Forall P l → filter P l = l.
Proof. induction 1; [done|]. rewrite filter_cons_True by done. by f_equal. Qed.

Lemma b64_round_trip l : Forall is_byte l → b64_decode b64_std (b64_encode b64_std l) = Some l.
Proof.
  intros Hl. unfold b64_decode. rewrite filter_keeps; [by apply b64_groups_encode|].
  eapply Forall_impl; [by apply b64_encode_plain|]. intros c [_ (? & ? & ?)]. done.
Qed.

Lemma string_bytes l : Forall is_byte l → bytes_of (string_of l) = l.
Proof. apply bytes_of_string_of. Qed.

(** ** Stored hashes *)

Section argon2.
Context (argon2_Version : Z) (IDKey : bytes → bytes → argon2idParams → Z → bytes).
(** [argon2.IDKey] returns as many bytes as asked for. *)
Hypothesis IDKey_length : ∀ p s params n, 0 <= n → Z.of_nat (length (IDKey p s params n)) = n ∧ Forall is_byte (IDKey p s params n).
Hypothesis Version_plain : 0 <= argon2_Version.
Notation HashPassword := (HashPassword argon2_Version IDKey).
Notation VerifyPassword := (VerifyPassword argon2_Version IDKey).
Notation parse := (parseArgon2idHash argon2_Version).

Lemma no_dollar (P : Z → Prop) l : (∀ b, P b → b ≠ 36) → Forall P l → Forall (λ b, b ≠ byte_of "$"%char) l.
Proof. intros HP Hl. eapply Forall_impl; [exact Hl|exact HP]. Qed.

Lemma version_no_dollar : Forall (λ b, b ≠ byte_of "$"%char) (bytes_of ("v=" +:+ Itoa argon2_Version)).
Proof.
  rewrite bytes_of_app. apply Forall_app. split; [repeat constructor; vm_compute; congruence|].
  eapply (no_dollar digit); [unfold digit; lia|]. by apply Itoa_digits.
Qed.

(** What [HashPassword] prints is what the parser reads. *)
Lemma parse_hash salt p :
  Forall is_byte salt → length salt = 16%nat →
  parse (HashPassword salt p) = Some (fixed_params, salt, IDKey (bytes_of p) salt fixed_params argon2idKeyLength).
Proof.
  intros Hs Hlen. destruct (IDKey_length (bytes_of p) salt fixed_params argon2idKeyLength) as [Hkl Hkb]; [done|].
  set (key := IDKey (bytes_of p) salt fixed_params argon2idKeyLength) in *.
  pose proof (b64_encode_plain salt Hs) as Ps. pose proof (b64_encode_plain key Hkb) as Pk.
  assert (Bs : bytes_of (string_of (b64_encode b64_std salt)) = b64_encode b64_std salt).
  { apply string_bytes. eapply Forall_impl; [exact Ps|]. by intros ? [? _]. }
  assert (Bk : bytes_of (string_of (b64_encode b64_std key)) = b64_encode b64_std key).
  { apply string_bytes. eapply Forall_impl; [exact Pk|]. by intros ? [? _]. }
  assert (E : Split (HashPassword salt p) "$"%char
              = [""; "argon2id"; "v=" +:+ Itoa argon2_Version; "m=65536,t=3,p=4"; string_of (b64_encode b64_std salt); string_of (b64_encode b64_std key)]%string).
  { etrans; [|apply (Split_Join _ "$"%char); [done|]]; [reflexivity|].
    assert (Hd : ∀ l, Forall (λ c, is_byte c ∧ plain_char c) l → Forall (λ b, b ≠ byte_of "$"%char) l).
    { intros l. apply no_dollar. by intros ? [_ [? _]]. }
    assert (Hc : ∀ s, forallb (λ b, negb (b =? 36)) (bytes_of s) = true → Forall (λ b, b ≠ byte_of "$"%char) (bytes_of s)).
    { intros s Hb. apply Forall_forall. intros b Hin%list_elem_of_In. apply (proj1 (forallb_forall _ _) Hb) in Hin.
      apply negb_true_iff, Z.eqb_neq in Hin. exact Hin. }
    do 2 (apply Forall_cons; split; [by apply Hc|]). apply Forall_cons; split; [apply version_no_dollar|]. apply Forall_cons; split; [by apply Hc|].
    apply Forall_cons; split; [rewrite Bs; by apply Hd|]. apply Forall_cons; split; [rewrite Bk; by apply Hd|by apply Forall_nil]. }
  assert (Hp : parseArgon2idParams "m=65536,t=3,p=4" = Some fixed_params) by (vm_compute; reflexivity).
  unfold parseArgon2idHash. rewrite E, Bs, Bk, !String.eqb_refl, !b64_round_trip, Hp by done. simpl. by rewrite Hlen, Hkl.
Qed.

End argon2.

(** A stand-in with the output length of Argon2. *)
Definition demo_IDKey (p s : bytes) (_ : argon2idParams) (n : Z) : bytes := map (λ i, (nth i p 0 + nth i s 0) mod 256) (seq 0 (Z.to_nat n)).
Definition demo_salt : bytes := map Z.of_nat (seq 0 16).

Lemma demo_IDKey_length p s params n : 0 <= n → Z.of_nat (length (demo_IDKey p s params n)) = n ∧ Forall is_byte (demo_IDKey p s params n).
Proof.
  intros Hn. unfold demo_IDKey. rewrite length_map, length_seq. split; [lia|].
  apply Forall_fmap, Forall_forall. intros i _. unfold is_byte. simpl. apply Z.mod_pos_bound. lia.
Qed.

Lemma demo_salt_bytes : Forall is_byte demo_salt.
Proof. unfold is_byte. repeat constructor; simpl; lia. Qed.


(** ** The policy *)

Definition special (u : UnicodeClasses) (r : Z) : bool := IsPunct u r || IsSymbol u r.
(** The class a code point counts for: the first that applies. *)
Definition counts_upper u r := IsUpper u r = true.
Definition counts_lower u r := IsUpper u r = false ∧ IsLower u r = true.
Definition counts_number u r := IsUpper u r = false ∧ IsLower u r = false ∧ IsDigit u r = true.
Definition counts_special u r := IsUpper u r = false ∧ IsLower u r = false ∧ IsDigit u r = false ∧ special u r = true.

Lemma see_runes u l s :
  let t := foldl (see_rune u) s l in
  (hasUpper t = true ↔ hasUpper s = true ∨ Exists (counts_upper u) l) ∧ (hasLower t = true ↔ hasLower s = true ∨ Exists (counts_lower u) l) ∧
  (hasNumber t = true ↔ hasNumber s = true ∨ Exists (counts_number u) l) ∧ (hasSpecial t = true ↔ hasSpecial s = true ∨ Exists (counts_special u) l).
Proof.
  revert s. induction l as [|r l IH]; intros s; simpl; [rewrite !Exists_nil; tauto|].
  destruct (IH (see_rune u s r)) as (E1 & E2 & E3 & E4). rewrite E1, E2, E3, E4, !Exists_cons.
  unfold see_rune, counts_upper, counts_lower, counts_number, counts_special, special.
  destruct (IsUpper u r), (IsLower u r), (IsDigit u r), (IsPunct u r), (IsSymbol u r); simpl; intuition congruence.
Qed.

(** The policy is what its message says: 10 to 24 characters after trimming, with an upper-case
    letter, a lower-case letter, a number and a special character. *)
Lemma password_policy_exact u password :
  let l := runes (TrimSpace password) in
  ValidatePasswordPolicy u password = true ↔
  10 <= Z.of_nat (length l) <= 24 ∧ Exists (counts_upper u) l ∧ Exists (counts_lower u) l ∧ Exists (counts_number u) l ∧ Exists (counts_special u) l.
Proof.
  intros l. unfold ValidatePasswordPolicy. fold l. destruct (see_runes u l (mkSeen false false false false)) as (E1 & E2 & E3 & E4).
  simpl in *. set (t := foldl (see_rune u) _ l) in *. unfold passwordMinLength, passwordMaxLength.
  destruct (Z.ltb_spec (Z.of_nat (length l)) 10), (Z.ltb_spec 24 (Z.of_nat (length l))); simpl; [split; [done|lia]..|].
  destruct (hasUpper t), (hasLower t), (hasNumber t), (hasSpecial t); simpl; intuition (congruence || lia).
Qed.
