(* ===== verification/AuthRepo.v ===== *)
(** * Users, roles and sessions

    [internal/domain/auth.go]: the records of authentication and authorization, the built-in
    roles and permissions, and the checks on a user with its grants.  Errors are the sentinel
    values of the domain and of the services: wrapping with [%w] keeps them, and their text does
    not matter.  Then the tables, and the transactions of [auth_repo.go], [auth_login_repo.go] and
    [auth_password_change_repo.go] over them. *)

From S2P Require Import Prelude GoLib.

(** ** Vocabulary *)

Definition UserStatusActive : string := "active".
Definition UserStatusDisabled : string := "disabled".
Definition UserStatusPending : string := "pending".
Definition UserStatusLocked : string := "locked".

Definition RoleSuperAdmin : string := "super_admin".
Definition RoleAdmin : string := "admin".
Definition RoleManager : string := "manager".
Definition RoleUser : string := "user".
Definition RoleViewer : string := "viewer".

Definition PermissionUsersRead : string := "users:read".
Definition PermissionUsersCreate : string := "users:create".
Definition PermissionUsersUpdate : string := "users:update".
Definition PermissionUsersDisable : string := "users:disable".
Definition PermissionUsersDelete : string := "users:delete".
Definition PermissionRolesRead : string := "roles:read".
Definition PermissionRolesAssign : string := "roles:assign".
Definition PermissionRolesUpdate : string := "roles:update".
Definition PermissionAdminDashboard : string := "admin:dashboard:read".
Definition PermissionAuditLogsRead : string := "audit_logs:read".
Definition PermissionSettingsRead : string := "settings:read".
Definition PermissionSettingsUpdate : string := "settings:update".
Definition PermissionAccountManage : string := "account:manage".
Definition PermissionTopologyRead : string := "topology:read".
Definition PermissionTopologyUpdate : string := "topology:update".
Definition PermissionDevicesRead : string := "devices:read".
Definition PermissionDevicesCreate : string := "devices:create".
Definition PermissionDevicesUpdate : string := "devices:update".
Definition PermissionDevicesDelete : string := "devices:delete".
Definition PermissionCredentialsRead : string := "credentials:read".
Definition PermissionCredentialsUpdate : string := "credentials:update".
Definition PermissionCredentialsReveal : string := "credentials:reveal".
Definition PermissionBackupsRead : string := "backups:read".
Definition PermissionBackupsUpdate : string := "backups:update".
Definition PermissionBridgeTokenCreate : string := "bridge:token:create".

(** Sentinel errors of [domain/auth.go], [service/auth_service.go] and [auth_admin_service.go]; every other error is [ErrOther]. *)
Inductive AuthErr :=
| ErrAuthUserNotFound | ErrAuthRoleNotFound | ErrAuthSessionNotFound | ErrPasswordResetTokenNotFound | ErrPasswordResetTokenExpired
| ErrAuthLastActiveSuperAdmin
| ErrInvalidCredentials | ErrUserDisabled | ErrUserLocked | ErrInvalidSession | ErrPermissionDenied | ErrPasswordPolicyViolation
| ErrPasswordReuse | ErrPasswordResetExpired | ErrAdminInvalidInput | ErrAdminLastActiveSuperAdmin | ErrRuntimeBusy
| ErrOther.
#[export] Instance AuthErr_eq_dec : EqDecision AuthErr.
Proof. solve_decision. Defined.

(** A call that returns a value or an error. *)
Inductive answer (A : Type) : Type := Val (a : A) | Fails (e : AuthErr).
Arguments Val {A} _.
Arguments Fails {A} _.

(** ** Records *)

Record User := mkUser {
  us_ID : UUID; us_Username : string; us_UsernameNormalized : string; us_Email : string; us_EmailNormalized : string;
  us_PasswordHash : string; us_DisplayName : string; us_Status : string; us_MustChangePassword : bool;
  us_CreatedAt : Time; us_UpdatedAt : Time; us_LastLoginAt : option Time; us_PasswordChangedAt : option Time;
  us_FailedLoginAttempts : Z; us_LockedUntil : option Time; us_CreatedBy : option UUID; us_UpdatedBy : option UUID }.
#[export] Instance upd_us_ID : Update us_ID := λ v r, mkUser v (us_Username r) (us_UsernameNormalized r) (us_Email r) (us_EmailNormalized r) (us_PasswordHash r) (us_DisplayName r) (us_Status r) (us_MustChangePassword r) (us_CreatedAt r) (us_UpdatedAt r) (us_LastLoginAt r) (us_PasswordChangedAt r) (us_FailedLoginAttempts r) (us_LockedUntil r) (us_CreatedBy r) (us_UpdatedBy r).
#[export] Instance upd_us_Username : Update us_Username := λ v r, mkUser (us_ID r) v (us_UsernameNormalized r) (us_Email r) (us_EmailNormalized r) (us_PasswordHash r) (us_DisplayName r) (us_Status r) (us_MustChangePassword r) (us_CreatedAt r) (us_UpdatedAt r) (us_LastLoginAt r) (us_PasswordChangedAt r) (us_FailedLoginAttempts r) (us_LockedUntil r) (us_CreatedBy r) (us_UpdatedBy r).
#[export] Instance upd_us_UsernameNormalized : Update us_UsernameNormalized := λ v r, mkUser (us_ID r) (us_Username r) v (us_Email r) (us_EmailNormalized r) (us_PasswordHash r) (us_DisplayName r) (us_Status r) (us_MustChangePassword r) (us_CreatedAt r) (us_UpdatedAt r) (us_LastLoginAt r) (us_PasswordChangedAt r) (us_FailedLoginAttempts r) (us_LockedUntil r) (us_CreatedBy r) (us_UpdatedBy r).
#[export] Instance upd_us_Email : Update us_Email := λ v r, mkUser (us_ID r) (us_Username r) (us_UsernameNormalized r) v (us_EmailNormalized r) (us_PasswordHash r) (us_DisplayName r) (us_Status r) (us_MustChangePassword r) (us_CreatedAt r) (us_UpdatedAt r) (us_LastLoginAt r) (us_PasswordChangedAt r) (us_FailedLoginAttempts r) (us_LockedUntil r) (us_CreatedBy r) (us_UpdatedBy r).
#[export] Instance upd_us_EmailNormalized : Update us_EmailNormalized := λ v r, mkUser (us_ID r) (us_Username r) (us_UsernameNormalized r) (us_Email r) v (us_PasswordHash r) (us_DisplayName r) (us_Status r) (us_MustChangePassword r) (us_CreatedAt r) (us_UpdatedAt r) (us_LastLoginAt r) (us_PasswordChangedAt r) (us_FailedLoginAttempts r) (us_LockedUntil r) (us_CreatedBy r) (us_UpdatedBy r).
#[export] Instance upd_us_PasswordHash : Update us_PasswordHash := λ v r, mkUser (us_ID r) (us_Username r) (us_UsernameNormalized r) (us_Email r) (us_EmailNormalized r) v (us_DisplayName r) (us_Status r) (us_MustChangePassword r) (us_CreatedAt r) (us_UpdatedAt r) (us_LastLoginAt r) (us_PasswordChangedAt r) (us_FailedLoginAttempts r) (us_LockedUntil r) (us_CreatedBy r) (us_UpdatedBy r).
#[export] Instance upd_us_DisplayName : Update us_DisplayName := λ v r, mkUser (us_ID r) (us_Username r) (us_UsernameNormalized r) (us_Email r) (us_EmailNormalized r) (us_PasswordHash r) v (us_Status r) (us_MustChangePassword r) (us_CreatedAt r) (us_UpdatedAt r) (us_LastLoginAt r) (us_PasswordChangedAt r) (us_FailedLoginAttempts r) (us_LockedUntil r) (us_CreatedBy r) (us_UpdatedBy r).
#[export] Instance upd_us_Status : Update us_Status := λ v r, mkUser (us_ID r) (us_Username r) (us_UsernameNormalized r) (us_Email r) (us_EmailNormalized r) (us_PasswordHash r) (us_DisplayName r) v (us_MustChangePassword r) (us_CreatedAt r) (us_UpdatedAt r) (us_LastLoginAt r) (us_PasswordChangedAt r) (us_FailedLoginAttempts r) (us_LockedUntil r) (us_CreatedBy r) (us_UpdatedBy r).
#[export] Instance upd_us_MustChangePassword : Update us_MustChangePassword := λ v r, mkUser (us_ID r) (us_Username r) (us_UsernameNormalized r) (us_Email r) (us_EmailNormalized r) (us_PasswordHash r) (us_DisplayName r) (us_Status r) v (us_CreatedAt r) (us_UpdatedAt r) (us_LastLoginAt r) (us_PasswordChangedAt r) (us_FailedLoginAttempts r) (us_LockedUntil r) (us_CreatedBy r) (us_UpdatedBy r).
#[export] Instance upd_us_CreatedAt : Update us_CreatedAt := λ v r, mkUser (us_ID r) (us_Username r) (us_UsernameNormalized r) (us_Email r) (us_EmailNormalized r) (us_PasswordHash r) (us_DisplayName r) (us_Status r) (us_MustChangePassword r) v (us_UpdatedAt r) (us_LastLoginAt r) (us_PasswordChangedAt r) (us_FailedLoginAttempts r) (us_LockedUntil r) (us_CreatedBy r) (us_UpdatedBy r).
#[export] Instance upd_us_UpdatedAt : Update us_UpdatedAt := λ v r, mkUser (us_ID r) (us_Username r) (us_UsernameNormalized r) (us_Email r) (us_EmailNormalized r) (us_PasswordHash r) (us_DisplayName r) (us_Status r) (us_MustChangePassword r) (us_CreatedAt r) v (us_LastLoginAt r) (us_PasswordChangedAt r) (us_FailedLoginAttempts r) (us_LockedUntil r) (us_CreatedBy r) (us_UpdatedBy r).
#[export] Instance upd_us_LastLoginAt : Update us_LastLoginAt := λ v r, mkUser (us_ID r) (us_Username r) (us_UsernameNormalized r) (us_Email r) (us_EmailNormalized r) (us_PasswordHash r) (us_DisplayName r) (us_Status r) (us_MustChangePassword r) (us_CreatedAt r) (us_UpdatedAt r) v (us_PasswordChangedAt r) (us_FailedLoginAttempts r) (us_LockedUntil r) (us_CreatedBy r) (us_UpdatedBy r).
#[export] Instance upd_us_PasswordChangedAt : Update us_PasswordChangedAt := λ v r, mkUser (us_ID r) (us_Username r) (us_UsernameNormalized r) (us_Email r) (us_EmailNormalized r) (us_PasswordHash r) (us_DisplayName r) (us_Status r) (us_MustChangePassword r) (us_CreatedAt r) (us_UpdatedAt r) (us_LastLoginAt r) v (us_FailedLoginAttempts r) (us_LockedUntil r) (us_CreatedBy r) (us_UpdatedBy r).
#[export] Instance upd_us_FailedLoginAttempts : Update us_FailedLoginAttempts := λ v r, mkUser (us_ID r) (us_Username r) (us_UsernameNormalized r) (us_Email r) (us_EmailNormalized r) (us_PasswordHash r) (us_DisplayName r) (us_Status r) (us_MustChangePassword r) (us_CreatedAt r) (us_UpdatedAt r) (us_LastLoginAt r) (us_PasswordChangedAt r) v (us_LockedUntil r) (us_CreatedBy r) (us_UpdatedBy r).
#[export] Instance upd_us_LockedUntil : Update us_LockedUntil := λ v r, mkUser (us_ID r) (us_Username r) (us_UsernameNormalized r) (us_Email r) (us_EmailNormalized r) (us_PasswordHash r) (us_DisplayName r) (us_Status r) (us_MustChangePassword r) (us_CreatedAt r) (us_UpdatedAt r) (us_LastLoginAt r) (us_PasswordChangedAt r) (us_FailedLoginAttempts r) v (us_CreatedBy r) (us_UpdatedBy r).
#[export] Instance upd_us_CreatedBy : Update us_CreatedBy := λ v r, mkUser (us_ID r) (us_Username r) (us_UsernameNormalized r) (us_Email r) (us_EmailNormalized r) (us_PasswordHash r) (us_DisplayName r) (us_Status r) (us_MustChangePassword r) (us_CreatedAt r) (us_UpdatedAt r) (us_LastLoginAt r) (us_PasswordChangedAt r) (us_FailedLoginAttempts r) (us_LockedUntil r) v (us_UpdatedBy r).
#[export] Instance upd_us_UpdatedBy : Update us_UpdatedBy := λ v r, mkUser (us_ID r) (us_Username r) (us_UsernameNormalized r) (us_Email r) (us_EmailNormalized r) (us_PasswordHash r) (us_DisplayName r) (us_Status r) (us_MustChangePassword r) (us_CreatedAt r) (us_UpdatedAt r) (us_LastLoginAt r) (us_PasswordChangedAt r) (us_FailedLoginAttempts r) (us_LockedUntil r) (us_CreatedBy r) v.

Record Role := mkRole { role_ID : string; role_Name : string; role_Description : string; role_IsSystemRole : bool }.
Record Permission := mkPermission { perm_ID : string; perm_Key : string; perm_Description : string; perm_Resource : string; perm_Action : string }.

Record AuthSession := mkSession {
  se_ID : UUID; se_UserID : UUID; se_TokenHash : string; se_CSRFTokenHash : string; se_CreatedAt : Time; se_ExpiresAt : Time;
  se_RevokedAt : option Time; se_LastSeenAt : option Time; se_IPAddress : string; se_UserAgent : string }.
#[export] Instance upd_se_ID : Update se_ID := λ v r, mkSession v (se_UserID r) (se_TokenHash r) (se_CSRFTokenHash r) (se_CreatedAt r) (se_ExpiresAt r) (se_RevokedAt r) (se_LastSeenAt r) (se_IPAddress r) (se_UserAgent r).
#[export] Instance upd_se_CreatedAt : Update se_CreatedAt := λ v r, mkSession (se_ID r) (se_UserID r) (se_TokenHash r) (se_CSRFTokenHash r) v (se_ExpiresAt r) (se_RevokedAt r) (se_LastSeenAt r) (se_IPAddress r) (se_UserAgent r).
#[export] Instance upd_se_RevokedAt : Update se_RevokedAt := λ v r, mkSession (se_ID r) (se_UserID r) (se_TokenHash r) (se_CSRFTokenHash r) (se_CreatedAt r) (se_ExpiresAt r) v (se_LastSeenAt r) (se_IPAddress r) (se_UserAgent r).
#[export] Instance upd_se_LastSeenAt : Update se_LastSeenAt := λ v r, mkSession (se_ID r) (se_UserID r) (se_TokenHash r) (se_CSRFTokenHash r) (se_CreatedAt r) (se_ExpiresAt r) (se_RevokedAt r) v (se_IPAddress r) (se_UserAgent r).

Record PasswordResetToken := mkReset {
  pr_ID : UUID; pr_UserID : UUID; pr_TokenHash : string; pr_CreatedAt : Time; pr_ExpiresAt : Time; pr_UsedAt : option Time; pr_CreatedBy : option UUID }.
#[export] Instance upd_pr_ID : Update pr_ID := λ v r, mkReset v (pr_UserID r) (pr_TokenHash r) (pr_CreatedAt r) (pr_ExpiresAt r) (pr_UsedAt r) (pr_CreatedBy r).
#[export] Instance upd_pr_CreatedAt : Update pr_CreatedAt := λ v r, mkReset (pr_ID r) (pr_UserID r) (pr_TokenHash r) v (pr_ExpiresAt r) (pr_UsedAt r) (pr_CreatedBy r).
#[export] Instance upd_pr_UsedAt : Update pr_UsedAt := λ v r, mkReset (pr_ID r) (pr_UserID r) (pr_TokenHash r) (pr_CreatedAt r) (pr_ExpiresAt r) v (pr_CreatedBy r).

Record AuditLog := mkAudit {
  al_ID : UUID; al_ActorUserID : option UUID; al_TargetUserID : option UUID; al_Action : string; al_Resource : string;
  al_ResourceID : string; al_MetadataJSON : string; al_CreatedAt : Time }.

#[export] Instance upd_al_ID : Update al_ID := λ v r, mkAudit v (al_ActorUserID r) (al_TargetUserID r) (al_Action r) (al_Resource r) (al_ResourceID r) (al_MetadataJSON r) (al_CreatedAt r).
#[export] Instance upd_al_MetadataJSON : Update al_MetadataJSON := λ v r, mkAudit (al_ID r) (al_ActorUserID r) (al_TargetUserID r) (al_Action r) (al_Resource r) (al_ResourceID r) v (al_CreatedAt r).
#[export] Instance upd_al_CreatedAt : Update al_CreatedAt := λ v r, mkAudit (al_ID r) (al_ActorUserID r) (al_TargetUserID r) (al_Action r) (al_Resource r) (al_ResourceID r) (al_MetadataJSON r) v.

(** A user with its effective grants. *)
Record UserWithRolesAndPermissions := mkAggregate { ag_User : User; ag_Roles : list Role; ag_Permissions : list Permission }.

Definition HasRole (u : UserWithRolesAndPermissions) (roleID : string) : bool :=
  existsb (λ r, String.eqb (role_ID r) roleID || String.eqb (role_Name r) roleID) (ag_Roles u).
Definition HasPermission (u : UserWithRolesAndPermissions) (permissionKey : string) : bool :=
  existsb (λ p, String.eqb (perm_Key p) permissionKey || String.eqb (perm_ID p) permissionKey) (ag_Permissions u).

(** ** Built-in grants *)

Definition SystemRoleNames : list string := [RoleSuperAdmin; RoleAdmin; RoleManager; RoleUser; RoleViewer].

Record SystemPermission := mkSystemPermission { sp_Key : string; sp_Description : string; sp_Resource : string; sp_Action : string }.

Definition SystemPermissions : list SystemPermission :=
  [mkSystemPermission PermissionUsersRead "Read users" "users" "read";
   mkSystemPermission PermissionUsersCreate "Create users" "users" "create";
   mkSystemPermission PermissionUsersUpdate "Update users" "users" "update";
   mkSystemPermission PermissionUsersDisable "Disable users" "users" "disable";
   mkSystemPermission PermissionUsersDelete "Delete users" "users" "delete";
   mkSystemPermission PermissionRolesRead "Read roles" "roles" "read";
   mkSystemPermission PermissionRolesAssign "Assign roles" "roles" "assign";
   mkSystemPermission PermissionRolesUpdate "Update roles" "roles" "update";
   mkSystemPermission PermissionAdminDashboard "Read admin dashboard" "admin:dashboard" "read";
   mkSystemPermission PermissionAuditLogsRead "Read audit logs" "audit_logs" "read";
   mkSystemPermission PermissionSettingsRead "Read settings" "settings" "read";
   mkSystemPermission PermissionSettingsUpdate "Update settings" "settings" "update";
   mkSystemPermission PermissionAccountManage "Manage own account settings" "account" "manage";
   mkSystemPermission PermissionTopologyRead "Read topology" "topology" "read";
   mkSystemPermission PermissionTopologyUpdate "Update topology" "topology" "update";
   mkSystemPermission PermissionDevicesRead "Read devices" "devices" "read";
   mkSystemPermission PermissionDevicesCreate "Create devices" "devices" "create";
   mkSystemPermission PermissionDevicesUpdate "Update devices" "devices" "update";
   mkSystemPermission PermissionDevicesDelete "Delete devices" "devices" "delete";
   mkSystemPermission PermissionCredentialsRead "Read credential metadata" "credentials" "read";
   mkSystemPermission PermissionCredentialsUpdate "Update credentials" "credentials" "update";
   mkSystemPermission PermissionCredentialsReveal "Reveal credentials" "credentials" "reveal";
   mkSystemPermission PermissionBackupsRead "Read backups" "backups" "read";
   mkSystemPermission PermissionBackupsUpdate "Update backups" "backups" "update";
   mkSystemPermission PermissionBridgeTokenCreate "Create bridge tokens" "bridge:token" "create"].

Definition systemPermissionKeys : list string := map sp_Key SystemPermissions.

Definition SystemRolePermissionKeys (roleName : string) : list string :=
  if String.eqb roleName RoleSuperAdmin then systemPermissionKeys
  else if String.eqb roleName RoleAdmin then
    [PermissionUsersRead; PermissionUsersCreate; PermissionUsersUpdate; PermissionUsersDisable; PermissionRolesRead; 
     PermissionRolesAssign; PermissionAdminDashboard; PermissionAuditLogsRead; PermissionSettingsRead; 
     PermissionSettingsUpdate; PermissionAccountManage; PermissionTopologyRead; PermissionTopologyUpdate; 
     PermissionDevicesRead; PermissionDevicesCreate; PermissionDevicesUpdate; PermissionDevicesDelete; 
     PermissionCredentialsRead; PermissionCredentialsUpdate; PermissionBackupsRead; PermissionBackupsUpdate; 
     PermissionBridgeTokenCreate]
  else if String.eqb roleName RoleManager then
    [PermissionAdminDashboard; PermissionAccountManage; PermissionSettingsRead; PermissionTopologyRead; 
     PermissionTopologyUpdate; PermissionDevicesRead; PermissionDevicesCreate; PermissionDevicesUpdate; PermissionBackupsRead; 
     PermissionBackupsUpdate; PermissionBridgeTokenCreate]
  else if String.eqb roleName RoleUser then
    [PermissionAccountManage; PermissionSettingsRead; PermissionTopologyRead; PermissionTopologyUpdate; PermissionDevicesRead; 
     PermissionDevicesUpdate; PermissionBackupsRead]
  else if String.eqb roleName RoleViewer then
    [PermissionAccountManage; PermissionSettingsRead; PermissionTopologyRead; PermissionDevicesRead; PermissionBackupsRead]
  else [].

(** * The authentication tables

    [internal/repository/postgres/auth_repo.go], [auth_login_repo.go] and
    [auth_password_change_repo.go]: what each statement or transaction does to the tables, as one
    atomic change.  The constraints of the schema ([migrations/000016_auth_rbac.up.sql]) are part of
    it: unique identifiers, foreign keys and the check on the status.  Rows are read in the order
    of the model; PostgreSQL leaves the order of an unordered query open.  [clock] and [fresh] are
    the [time.Now] and [uuid.New] a statement falls back to.  Also here: the seeding of the
    built-in roles and permissions ([migrations.go]).  Listings for the administration pages are
    left out. *)


Record AuthDB := mkDB {
  db_users : gmap UUID User;
  db_roles : list Role;                        (* in the order of names *)
  db_permissions : list Permission;            (* in the order of keys *)
  db_userRoles : gset (UUID * string);
  db_rolePermissions : gset (string * string);
  db_sessions : gmap UUID AuthSession;
  db_resets : gmap UUID PasswordResetToken;
  db_audit : list AuditLog }.

#[export] Instance upd_db_roles : Update db_roles := λ v r, mkDB (db_users r) v (db_permissions r) (db_userRoles r) (db_rolePermissions r) (db_sessions r) (db_resets r) (db_audit r).
#[export] Instance upd_db_permissions : Update db_permissions := λ v r, mkDB (db_users r) (db_roles r) v (db_userRoles r) (db_rolePermissions r) (db_sessions r) (db_resets r) (db_audit r).
#[export] Instance upd_db_users : Update db_users := λ v r, mkDB v (db_roles r) (db_permissions r) (db_userRoles r) (db_rolePermissions r) (db_sessions r) (db_resets r) (db_audit r).
#[export] Instance upd_db_userRoles : Update db_userRoles := λ v r, mkDB (db_users r) (db_roles r) (db_permissions r) v (db_rolePermissions r) (db_sessions r) (db_resets r) (db_audit r).
#[export] Instance upd_db_rolePermissions : Update db_rolePermissions := λ v r, mkDB (db_users r) (db_roles r) (db_permissions r) (db_userRoles r) v (db_sessions r) (db_resets r) (db_audit r).
#[export] Instance upd_db_sessions : Update db_sessions := λ v r, mkDB (db_users r) (db_roles r) (db_permissions r) (db_userRoles r) (db_rolePermissions r) v (db_resets r) (db_audit r).
#[export] Instance upd_db_resets : Update db_resets := λ v r, mkDB (db_users r) (db_roles r) (db_permissions r) (db_userRoles r) (db_rolePermissions r) (db_sessions r) v (db_audit r).
#[export] Instance upd_db_audit : Update db_audit := λ v r, mkDB (db_users r) (db_roles r) (db_permissions r) (db_userRoles r) (db_rolePermissions r) (db_sessions r) (db_resets r) v.

(** One statement or transaction: the tables after it, and what it returns. *)
Definition Tx (A : Type) : Type := AuthDB → AuthDB * answer A.

Definition values {A} (m : gmap UUID A) : list A := (map_to_list m).*2.
Definition first {A} (P : A → bool) (m : gmap UUID A) : option A := snd <$> list_find (λ a, P a = true) (values m).

(** A query: the row, or the error for no row. *)
Definition query {A} (missing : AuthErr) (f : AuthDB → option A) : Tx A :=
  λ db, (db, match f db with Some a => Val a | None => Fails missing end).

(** ** Constraints *)

Definition valid_status (status : string) : bool :=
  existsb (String.eqb status) [UserStatusActive; UserStatusDisabled; UserStatusPending; UserStatusLocked].

(** Identifiers are unique unless they are empty. *)
Definition unique_user (db : AuthDB) (u : User) : bool :=
  forallb (λ v, (us_ID v =? us_ID u) ||
      (negb (negb (String.eqb (us_UsernameNormalized u) "") && String.eqb (us_UsernameNormalized v) (us_UsernameNormalized u)) &&
       negb (negb (String.eqb (us_EmailNormalized u) "") && String.eqb (us_EmailNormalized v) (us_EmailNormalized u))))
    (values (db_users db)).

(** A nullable reference to a user. *)
Definition known_user (users : gmap UUID User) (o : option UUID) : bool :=
  match o with None => true | Some id => bool_decide (is_Some (users !! id)) end.

Definition or_fresh (fresh id : UUID) : UUID := if id =? uuid_Nil then fresh else id.
Definition or_time (clock t : Time) : Time := if Time_IsZero t then clock else t.

(** ** Audit *)

(** The insertion of an audit row: its primary key and references. *)
Definition insert_audit (log : AuditLog) (db : AuthDB) : option AuthDB :=
  if existsb (λ l, al_ID l =? al_ID log) (db_audit db)
     || negb (known_user (db_users db) (al_ActorUserID log) && known_user (db_users db) (al_TargetUserID log))
  then None else Some (db <| db_audit := db_audit db ++ [log] |>).

Definition AppendAuditLog (clock : Time) (fresh : UUID) (log : AuditLog) : Tx unit := λ db,
  let log := log <| al_ID := or_fresh fresh (al_ID log) |> <| al_CreatedAt := or_time clock (al_CreatedAt log) |> in
  let log := if String.eqb (al_MetadataJSON log) "" then log <| al_MetadataJSON := "{}"%string |> else log in
  match insert_audit log db with Some db' => (db', Val tt) | None => (db, Fails ErrOther) end.

(** ** Users *)

(** The caller's record is completed in place, hence returned here. *)
Definition CreateUser (clock : Time) (fresh : UUID) (user : User) : Tx User := λ db,
  let user := user <| us_ID := or_fresh fresh (us_ID user) |> in
  let user := user <| us_CreatedAt := or_time clock (us_CreatedAt user) |> in
  let user := if Time_IsZero (us_UpdatedAt user) then user <| us_UpdatedAt := us_CreatedAt user |> else user in
  let user := if String.eqb (us_Status user) "" then user <| us_Status := UserStatusPending |> else user in
  let users := <[us_ID user := user]> (db_users db) in
  if bool_decide (is_Some (db_users db !! us_ID user)) || negb (valid_status (us_Status user)) || negb (unique_user db user)
     || negb (known_user users (us_CreatedBy user) && known_user users (us_UpdatedBy user))
  then (db, Fails ErrOther)
  else (db <| db_users := users |>, Val user).

Definition GetUserByID (id : UUID) : Tx User := query ErrAuthUserNotFound (λ db, db_users db !! id).

Definition GetUserByLoginIdentifier (normalized : string) : Tx User :=
  query ErrAuthUserNotFound (λ db,
    first (λ u, String.eqb (us_UsernameNormalized u) normalized || String.eqb (us_EmailNormalized u) normalized) (db_users db)).

(** The columns of the update; the row keeps its creation columns. *)
Definition updated_row (old user : User) : User := user <| us_CreatedAt := us_CreatedAt old |> <| us_CreatedBy := us_CreatedBy old |>.

Definition UpdateUser (clock : Time) (user : User) : Tx unit := λ db,
  let user := user <| us_UpdatedAt := or_time clock (us_UpdatedAt user) |> in
  match db_users db !! us_ID user with
  | None => (db, Fails ErrAuthUserNotFound)
  | Some old =>
      if negb (valid_status (us_Status user)) || negb (unique_user db user) || negb (known_user (db_users db) (us_UpdatedBy user)) then (db, Fails ErrOther)
      else (db <| db_users := <[us_ID user := updated_row old user]> (db_users db) |>, Val tt)
  end.

Definition is_active_super_admin (db : AuthDB) (u : User) : bool :=
  String.eqb (us_Status u) UserStatusActive && bool_decide ((us_ID u, RoleSuperAdmin) ∈ db_userRoles db).
(** [CountActiveSuperAdmins], [txCountActiveSuperAdmins] *)
Definition count_active_super_admins (db : AuthDB) : Z :=
  Z.of_nat (length (filter (λ u, is_active_super_admin db u = true) (values (db_users db)))).
Definition txUserIsActiveSuperAdmin (db : AuthDB) (id : UUID) : bool :=
  match db_users db !! id with Some u => is_active_super_admin db u | None => false end.
Definition CountActiveSuperAdmins : Tx Z := λ db, (db, Val (count_active_super_admins db)).

Definition UpdateUserPreservingLastActiveSuperAdmin (clock : Time) (user : User) : Tx unit := λ db,
  if negb (String.eqb (us_Status user) UserStatusActive) && txUserIsActiveSuperAdmin db (us_ID user) && (count_active_super_admins db <=? 1)
  then (db, Fails ErrAuthLastActiveSuperAdmin)
  else UpdateUser clock user db.

Definition CountUsers : Tx Z := λ db, (db, Val (Z.of_nat (size (db_users db)))).

(** ** Roles *)

Definition ListRoles : Tx (list Role) := λ db, (db, Val (db_roles db)).
Definition ListPermissions : Tx (list Permission) := λ db, (db, Val (db_permissions db)).
Definition role_exists (db : AuthDB) (roleID : string) : bool := existsb (λ r, String.eqb (role_ID r) roleID) (db_roles db).
Definition role_permissions (db : AuthDB) (roleID : string) : list Permission :=
  filter (λ p, (roleID, perm_ID p) ∈ db_rolePermissions db) (db_permissions db).
Definition ListRolePermissions (roleID : string) : Tx (list Permission) :=
  query ErrAuthRoleNotFound (λ db, if role_exists db roleID then Some (role_permissions db roleID) else None).

Fixpoint permission_ids (db : AuthDB) (keys : list string) : option (list string) :=
  match keys with
  | [] => Some []
  | key :: keys =>
      '(_, p) ← list_find (λ p, perm_Key p = key) (db_permissions db);
      ids ← permission_ids db keys; Some (perm_ID p :: ids)
  end.

Definition ReplaceRolePermissions (roleID : string) (keys : list string) : Tx (list Permission * list Permission) := λ db,
  if negb (role_exists db roleID) then (db, Fails ErrAuthRoleNotFound)
  else match permission_ids db keys with
  | None => (db, Fails ErrAuthRoleNotFound)
  | Some ids =>
      let kept := filter (λ p : string * string, p.1 ≠ roleID) (db_rolePermissions db) in
      let db' := db <| db_rolePermissions := kept ∪ list_to_set (map (pair roleID) ids) |> in
      (db', Val (role_permissions db roleID, role_permissions db' roleID))
  end.

Definition GetRoleByName (name : string) : Tx Role := query ErrAuthRoleNotFound (λ db, snd <$> list_find (λ r, role_Name r = name) (db_roles db)).

Definition AssignRole (userID : UUID) (roleID : string) (createdBy : option UUID) : Tx unit := λ db,
  if known_user (db_users db) (Some userID) && role_exists db roleID && known_user (db_users db) createdBy
  then (db <| db_userRoles := {[(userID, roleID)]} ∪ db_userRoles db |>, Val tt)
  else (db, Fails ErrOther).

Definition RemoveRole (userID : UUID) (roleID : string) : Tx unit := λ db,
  (db <| db_userRoles := db_userRoles db ∖ {[(userID, roleID)]} |>, Val tt).

Definition RemoveRolePreservingLastActiveSuperAdmin (userID : UUID) (roleID : string) : Tx unit := λ db,
  if String.eqb roleID RoleSuperAdmin && txUserIsActiveSuperAdmin db userID && (count_active_super_admins db <=? 1)
  then (db, Fails ErrAuthLastActiveSuperAdmin)
  else RemoveRole userID roleID db.

Definition user_roles (db : AuthDB) (userID : UUID) : list Role := filter (λ r, (userID, role_ID r) ∈ db_userRoles db) (db_roles db).
Definition user_permissions (db : AuthDB) (userID : UUID) : list Permission :=
  filter (λ p, existsb (λ g : UUID * string, (g.1 =? userID) && bool_decide ((g.2, perm_ID p) ∈ db_rolePermissions db)) (elements (db_userRoles db)) = true)
    (db_permissions db).
Definition aggregate (db : AuthDB) (u : User) : UserWithRolesAndPermissions := mkAggregate u (user_roles db (us_ID u)) (user_permissions db (us_ID u)).
Definition GetUserRolesAndPermissions (userID : UUID) : Tx UserWithRolesAndPermissions :=
  query ErrAuthUserNotFound (λ db, aggregate db <$> db_users db !! userID).

(** ** Login state *)

(** The row is not locked at [when]; a null [locked_until] compares as unknown. *)
Definition lock_expired (when_ : Time) (u : User) : bool := match us_LockedUntil u with Some t => t <=? when_ | None => false end.

Definition RecordSuccessfulLogin (id : UUID) (passwordHash : string) (when_ : Time) : Tx unit := λ db,
  match db_users db !! id with
  | Some u =>
      if String.eqb (us_PasswordHash u) passwordHash && String.eqb (us_Status u) UserStatusActive
         && (bool_decide (us_LockedUntil u = None) || lock_expired when_ u)
      then (db <| db_users := <[id := u <| us_FailedLoginAttempts := 0 |> <| us_LockedUntil := None |> <| us_LastLoginAt := Some when_ |>
                                        <| us_UpdatedAt := when_ |>]> (db_users db) |>, Val tt)
      else (db, Fails ErrAuthUserNotFound)
  | None => (db, Fails ErrAuthUserNotFound)
  end.

Definition RecordFailedLogin (id : UUID) (passwordHash : string) (when_ : Time) (threshold : Z) (lockedUntil : Time) : Tx Z := λ db,
  match db_users db !! id with
  | Some u =>
      if String.eqb (us_PasswordHash u) passwordHash && String.eqb (us_Status u) UserStatusActive then
        let attempts := if lock_expired when_ u then 1 else us_FailedLoginAttempts u + 1 in
        let locked := if threshold <=? attempts then Some lockedUntil else if lock_expired when_ u then None else us_LockedUntil u in
        (db <| db_users := <[id := u <| us_FailedLoginAttempts := attempts |> <| us_LockedUntil := locked |> <| us_UpdatedAt := when_ |>]> (db_users db) |>, Val attempts)
      else (db, Fails ErrAuthUserNotFound)
  | None => (db, Fails ErrAuthUserNotFound)
  end.

(** ** Sessions *)

Definition CreateSession (clock : Time) (fresh : UUID) (s : AuthSession) : Tx AuthSession := λ db,
  let s := s <| se_ID := or_fresh fresh (se_ID s) |> <| se_CreatedAt := or_time clock (se_CreatedAt s) |> in
  if bool_decide (is_Some (db_sessions db !! se_ID s)) || negb (known_user (db_users db) (Some (se_UserID s)))
     || existsb (λ t, String.eqb (se_TokenHash t) (se_TokenHash s)) (values (db_sessions db))
  then (db, Fails ErrOther)
  else (db <| db_sessions := <[se_ID s := s]> (db_sessions db) |>, Val s).

Definition GetSessionByTokenHash (tokenHash : string) : Tx AuthSession :=
  query ErrAuthSessionNotFound (λ db, first (λ s, String.eqb (se_TokenHash s) tokenHash) (db_sessions db)).

Definition RevokeSession (id : UUID) (when_ : Time) : Tx unit := λ db,
  match db_sessions db !! id with
  | Some s => (db <| db_sessions := <[id := s <| se_RevokedAt := Some when_ |>]> (db_sessions db) |>, Val tt)
  | None => (db, Fails ErrAuthSessionNotFound)
  end.

Definition TouchSessionIfStale (id : UUID) (when_ : Time) (interval : Duration) : Tx unit := λ db,
  match db_sessions db !! id with
  | Some s =>
      (if match se_LastSeenAt s with None => true | Some t => t <=? Time_Add when_ (- interval) end
       then db <| db_sessions := <[id := s <| se_LastSeenAt := Some when_ |>]> (db_sessions db) |> else db, Val tt)
  | None => (db, Fails ErrAuthSessionNotFound)
  end.

Definition TouchSession (id : UUID) (when_ : Time) : Tx unit := λ db,
  match db_sessions db !! id with
  | Some s => (db <| db_sessions := <[id := s <| se_LastSeenAt := Some when_ |>]> (db_sessions db) |>, Val tt)
  | None => (db, Fails ErrAuthSessionNotFound)
  end.

(** Sessions of a user that were not revoked yet, without an optional one. *)
Definition revoke_others (userID : UUID) (except : option UUID) (when_ : Time) (s : AuthSession) : AuthSession :=
  if (se_UserID s =? userID) && bool_decide (se_RevokedAt s = None) && negb (bool_decide (except = Some (se_ID s)))
  then s <| se_RevokedAt := Some when_ |> else s.
Definition revoke_all (userID : UUID) (when_ : Time) (s : AuthSession) : AuthSession :=
  if se_UserID s =? userID then s <| se_RevokedAt := Some when_ |> else s.
Definition RevokeUserSessions (userID : UUID) (except : option UUID) (when_ : Time) : Tx unit := λ db,
  (db <| db_sessions := (λ s, if bool_decide (except = Some (se_ID s)) then s else revoke_all userID when_ s) <$> db_sessions db |>, Val tt).
Definition RevokeAllSessions (when_ : Time) : Tx unit := λ db,
  (db <| db_sessions := (λ s, if bool_decide (se_RevokedAt s = None) then s <| se_RevokedAt := Some when_ |> else s) <$> db_sessions db |>, Val tt).

(** ** Passwords *)

Definition with_password (hash : string) (when_ : Time) (u : User) : User :=
  u <| us_PasswordHash := hash |> <| us_MustChangePassword := false |> <| us_PasswordChangedAt := Some when_ |>
    <| us_UpdatedAt := when_ |> <| us_FailedLoginAttempts := 0 |> <| us_LockedUntil := None |>.

Definition ChangeUserPassword (id : UUID) (previousHash newHash : string) (except : option UUID) (when_ : Time) (audit : AuditLog) : Tx unit := λ db,
  match db_users db !! id with
  | Some u =>
      if String.eqb (us_PasswordHash u) previousHash then
        match insert_audit audit (db <| db_users := <[id := with_password newHash when_ u]> (db_users db) |>
                                     <| db_sessions := revoke_others id except when_ <$> db_sessions db |>) with
        | Some db' => (db', Val tt)
        | None => (db, Fails ErrOther)
        end
      else (db, Fails ErrAuthUserNotFound)
  | None => (db, Fails ErrAuthUserNotFound)
  end.

Definition CreateResetToken (clock : Time) (fresh : UUID) (t : PasswordResetToken) : Tx unit := λ db,
  let t := t <| pr_ID := or_fresh fresh (pr_ID t) |> <| pr_CreatedAt := or_time clock (pr_CreatedAt t) |> in
  if bool_decide (is_Some (db_resets db !! pr_ID t)) || negb (known_user (db_users db) (Some (pr_UserID t)))
     || negb (known_user (db_users db) (pr_CreatedBy t)) || existsb (λ r, String.eqb (pr_TokenHash r) (pr_TokenHash t)) (values (db_resets db))
  then (db, Fails ErrOther)
  else (db <| db_resets := <[pr_ID t := t]> (db_resets db) |>, Val tt).

Definition reset_by_hash (db : AuthDB) (tokenHash : string) : option PasswordResetToken :=
  first (λ r, String.eqb (pr_TokenHash r) tokenHash) (db_resets db).
Definition GetPasswordResetTokenByHash (tokenHash : string) : Tx PasswordResetToken :=
  query ErrPasswordResetTokenNotFound (λ db, reset_by_hash db tokenHash).

Definition MarkPasswordResetTokenUsed (id : UUID) (when_ : Time) : Tx unit := λ db,
  match db_resets db !! id with
  | Some t => (db <| db_resets := <[id := t <| pr_UsedAt := Some when_ |>]> (db_resets db) |>, Val tt)
  | None => (db, Fails ErrPasswordResetTokenNotFound)
  end.

Definition CompleteReset (tokenHash passwordHash : string) (when_ : Time) : Tx PasswordResetToken := λ db,
  match reset_by_hash db tokenHash with
  | None => (db, Fails ErrPasswordResetTokenNotFound)
  | Some t =>
      if bool_decide (is_Some (pr_UsedAt t)) || negb (Time_After (pr_ExpiresAt t) when_) then (db, Fails ErrPasswordResetTokenExpired)
      else match db_users db !! pr_UserID t with
      | None => (db, Fails ErrAuthUserNotFound)
      | Some u =>
          let used := t <| pr_UsedAt := Some when_ |> in
          (db <| db_users := <[pr_UserID t := with_password passwordHash when_ u]> (db_users db) |>
              <| db_resets := <[pr_ID t := used]> (db_resets db) |>
              <| db_sessions := revoke_all (pr_UserID t) when_ <$> db_sessions db |>, Val used)
      end
  end.

(** ** Built-in roles and permissions *)

Definition authSystemRoleDescription (roleName : string) : string :=
  if String.eqb roleName RoleSuperAdmin then "Full system administration access"
  else if String.eqb roleName RoleAdmin then "Administrative access without destructive or credential reveal permissions"
  else if String.eqb roleName RoleManager then "Operational management access"
  else if String.eqb roleName RoleUser then "Standard operator access"
  else if String.eqb roleName RoleViewer then "Read-only access"
  else "".

(** Insertion in the order of names; on a conflict the row keeps its identifier. *)
Fixpoint seed_role (name : string) (roles : list Role) : list Role :=
  let new id := mkRole id name (authSystemRoleDescription name) true in
  match roles with
  | [] => [new name]
  | r :: rest =>
      if String.eqb (role_Name r) name then new (role_ID r) :: rest
      else if string_ltb name (role_Name r) then new name :: roles
      else r :: seed_role name rest
  end.
Fixpoint seed_permission (p : SystemPermission) (l : list Permission) : list Permission :=
  let new id := mkPermission id (sp_Key p) (sp_Description p) (sp_Resource p) (sp_Action p) in
  match l with
  | [] => [new (sp_Key p)]
  | q :: rest =>
      if String.eqb (perm_Key q) (sp_Key p) then new (perm_ID q) :: rest
      else if string_ltb (sp_Key p) (perm_Key q) then new (sp_Key p) :: l
      else q :: seed_permission p rest
  end.

(** The grants of one role; a role other than the super administrator that was there already keeps its own. *)
Definition seed_grants (existed : string → bool) (db : AuthDB) (grants : gset (string * string)) (roleName : string) : gset (string * string) :=
  if negb (String.eqb roleName RoleSuperAdmin) && existed roleName then grants
  else match list_find (λ r, role_Name r = roleName) (db_roles db) with
  | Some (_, role) =>
      list_to_set (omap (λ key, (λ p : nat * Permission, (role_ID role, perm_ID p.2)) <$> list_find (λ p, perm_Key p = key) (db_permissions db))
        (SystemRolePermissionKeys roleName)) ∪ grants
  | None => grants
  end.

Definition seedAuthSystemRolesAndPermissions (db : AuthDB) : AuthDB :=
  let existed name := existsb (λ r, String.eqb (role_Name r) name) (db_roles db) in
  let db := db <| db_roles := foldr seed_role (db_roles db) (rev SystemRoleNames) |>
               <| db_permissions := foldr seed_permission (db_permissions db) (rev SystemPermissions) |> in
  db <| db_rolePermissions := foldl (seed_grants existed db) (db_rolePermissions db) SystemRoleNames |>.
