(* ===== verification/AuthService.v ===== *)
(** * The authentication service

    [internal/service/auth_service.go] and the password admission of [work_admission.go].  An
    operation is a program over the tables: between any two of its repository calls other work may
    change them, and any call may fail without effect or fail after its effect.  The environment
    decides both, and supplies clocks, identifiers and random bytes.  The state records every
    effect of the operation's own calls as a pair of tables, the password hashes it verified and
    the delays it slept. *)

From S2P Require Import Prelude GoLib GoText Sha256 Password AuthRepo.

(** ** Programs *)

Inductive Fault := Completes | Refused | Unacknowledged.

Record Env := mkEnv {
  ev_fault : nat → Fault;
  ev_gap : nat → AuthDB → AuthDB;
  ev_now : nat → Time;                      (* the service's clock *)
  ev_clock : nat → Time;                    (* [time.Now] in the repository *)
  ev_uuid : nat → UUID;
  ev_random : nat → nat → option bytes;     (* so many random bytes *)
  ev_cancelled : nat → bool;                (* the request's context *)
  ev_inflight : nat → Z }.                  (* other password operations in progress *)

Record St := mkSt { st_tick : nat; st_db : AuthDB; st_steps : list (AuthDB * AuthDB); st_verified : list string; st_slept : list Duration }.

Definition M (A : Type) : Type := Env → St → St * answer A.

#[export] Instance M_ret : MRet M := λ A a e s, (s, Val a).
#[export] Instance M_bind : MBind M := λ A B k m e s, let '(s, r) := m e s in match r with Val a => k a e s | Fails err => (s, Fails err) end.
Definition fail {A} (err : AuthErr) : M A := λ e s, (s, Fails err).
(** The error becomes a value the program looks at. *)
Definition attempt {A} (m : M A) : M (answer A) := λ e s, let '(s, r) := m e s in (s, Val r).
Definition remap {A} (f : AuthErr → AuthErr) (m : M A) : M A :=
  λ e s, let '(s, r) := m e s in (s, match r with Val a => Val a | Fails err => Fails (f err) end).
Definition is_err (err err' to : AuthErr) : AuthErr := if decide (err' = err) then to else err'.

(** Reads one input of the environment. *)
Definition input {A} (f : Env → nat → A) : M A := λ e s, (mkSt (S (st_tick s)) (st_db s) (st_steps s) (st_verified s) (st_slept s), Val (f e (st_tick s))).
Definition now : M Time := input ev_now.
Definition uuid_New : M UUID := input ev_uuid.

(** One repository call. *)
Definition call_with {A} (f : Time → UUID → Tx A) : M A := λ e s,
  let n := st_tick s in
  let db := ev_gap e n (st_db s) in
  let '(db', r) := f (ev_clock e n) (ev_uuid e n) db in
  let after := match ev_fault e n with Refused => db | _ => db' end in
  (mkSt (S n) after (st_steps s ++ [(db, after)]) (st_verified s) (st_slept s),
   match ev_fault e n with Completes => r | _ => Fails ErrOther end).
Definition call {A} (f : Tx A) : M A := call_with (λ _ _, f).

Definition sleep (d : Duration) : M unit := λ e s, (mkSt (st_tick s) (st_db s) (st_steps s) (st_verified s) (st_slept s ++ [d]), Val tt).

Definition random_token : M string :=
  raw ← input (λ e n, ev_random e n 32%nat); match GenerateToken raw with Some t => mret t | None => fail ErrOther end.

(** What the service takes from other packages. *)
Inductive MetaValue := MetaString (s : string) | MetaStrings (l : list string).
Class Externals := {
  argon2_Version : Z;
  argon2_IDKey : bytes → bytes → argon2idParams → Z → bytes;
  unicode_classes : UnicodeClasses;
  unicode_lower : string → string;
  uuid_String : UUID → string;
  json_Marshal : list (string * MetaValue) → option string }.

(** ** Configuration *)

Definition Hour : Duration := 60 * Minute.
Definition defaultAuthSessionTTL : Duration := 12 * Hour.
Definition defaultSessionTouchInterval : Duration := Minute.
Definition defaultPasswordResetTTL : Duration := 30 * Minute.
Definition defaultFailedLoginThreshold : Z := 5.
Definition defaultFailedLoginDelayAfter : Z := 3.
Definition defaultFailedLoginDelay : Duration := 750 * Millisecond.
Definition defaultFailedLoginLock : Duration := 15 * Minute.
Definition defaultPasswordConcurrency : Z := 4.

(** The repositories only as present or nil. *)
Record AuthServiceConfig := mkAuthServiceConfig {
  cf_MaxConcurrentPasswordOperations : Z; cf_Users : bool; cf_Roles : bool; cf_Sessions : bool; cf_PasswordResets : bool; cf_AuditLogs : bool;
  cf_SessionSecret : bytes; cf_SessionTTL : Duration; cf_PasswordResetTTL : Duration }.

Record AuthService := mkAuthService {
  sv_passwordConcurrency : Z; sv_sessionSecret : bytes; sv_dummyPasswordHash : string; sv_sessionTTL : Duration; sv_passwordResetTTL : Duration;
  sv_failedThreshold : Z; sv_failedDelayAfter : Z; sv_failedDelay : Duration; sv_failedLockDuration : Duration }.

Record LoginInput := mkLoginInput { li_Identifier : string; li_Password : string; li_IPAddress : string; li_UserAgent : string }.
Record AuthenticatedSession := mkAuthenticatedSession {
  as_ID : UUID; as_UserID : UUID; as_CreatedAt : Time; as_ExpiresAt : Time; as_LastSeenAt : option Time; as_IPAddress : string; as_UserAgent : string }.
Record LoginResult := mkLoginResult {
  lr_User : UserWithRolesAndPermissions; lr_Session : AuthenticatedSession; lr_SessionToken : string; lr_CSRFToken : string; lr_ExpiresAt : Time }.
Record AuthenticatedUser := mkAuthenticatedUser {
  au_tokenHash : string; au_csrfTokenHash : string; au_User : UserWithRolesAndPermissions; au_Session : AuthenticatedSession }.
Record PasswordChangeInput := mkPasswordChangeInput {
  pc_UserID : UUID; pc_CurrentSessionID : option UUID; pc_CurrentPassword : string; pc_NewPassword : string }.
Record PasswordResetCreateInput := mkPasswordResetCreateInput { pi_UserID : UUID; pi_CreatedBy : option UUID }.
Record PasswordResetTokenResult := mkPasswordResetTokenResult { pt_Token : string; pt_ExpiresAt : Time }.
Record PasswordResetCompleteInput := mkPasswordResetCompleteInput { px_Token : string; px_NewPassword : string }.

(** JSON texts of the audit metadata. *)
Definition dq : string := string_of [34].
Definition reason (why : string) : string := ("{" +:+ dq +:+ "reason" +:+ dq +:+ ":" +:+ dq +:+ why +:+ dq +:+ "}")%string.

Definition authenticatedSessionFromDomain (s : AuthSession) : AuthenticatedSession :=
  mkAuthenticatedSession (se_ID s) (se_UserID s) (se_CreatedAt s) (se_ExpiresAt s) (se_LastSeenAt s) (se_IPAddress s) (se_UserAgent s).

Section service.
Context `{!Externals}.

Definition normalizeLoginIdentifier (value : string) : string := ToLower unicode_lower (TrimSpace value).

(** [security.HashPassword] with fresh salt *)
Definition hash_password (password : string) : M string :=
  salt ← input (λ e n, ev_random e n 16%nat);
  match salt with Some salt => mret (HashPassword argon2_Version argon2_IDKey salt password) | None => fail ErrOther end.

Definition NewAuthService (config : AuthServiceConfig) (salt : option bytes) : option AuthService :=
  if negb (cf_Users config) then None
  else if negb (cf_Roles config) then None
  else if negb (cf_Sessions config) then None
  else if negb (cf_PasswordResets config) then None
  else if negb (cf_AuditLogs config) then None
  else if (length (cf_SessionSecret config) =? 0)%nat then None
  else
    salt ← salt;
    let dummyPasswordHash := HashPassword argon2_Version argon2_IDKey salt "dummy auth password verifier" in
    let sessionTTL := if cf_SessionTTL config <=? 0 then defaultAuthSessionTTL else cf_SessionTTL config in
    let passwordResetTTL := if cf_PasswordResetTTL config <=? 0 then defaultPasswordResetTTL else cf_PasswordResetTTL config in
    Some (mkAuthService (cf_MaxConcurrentPasswordOperations config) (cf_SessionSecret config) dummyPasswordHash sessionTTL passwordResetTTL
      defaultFailedLoginThreshold defaultFailedLoginDelayAfter defaultFailedLoginDelay defaultFailedLoginLock).

Context (sv : AuthService).

(** The [verifyPassword] field: [security.VerifyPassword]; [None] is an error. *)
Definition verifyPassword (password hash : string) : M (option bool) := λ e s,
  (mkSt (st_tick s) (st_db s) (st_steps s) (st_verified s ++ [hash]) (st_slept s), Val (VerifyPassword argon2_Version argon2_IDKey password hash)).

Definition runDummyPasswordVerification (password : string) : M unit := verifyPassword password (sv_dummyPasswordHash sv);; mret tt.

Definition appendAuditLog (actorUserID targetUserID : option UUID) (action resource resourceID metadataJSON : string) : M unit :=
  let metadataJSON := if String.eqb metadataJSON "" then "{}"%string else metadataJSON in
  id ← uuid_New; t ← now;
  call_with (λ clock fresh, AppendAuditLog clock fresh (mkAudit id actorUserID targetUserID action resource resourceID metadataJSON t)).

(** [ctx.Err()], then a slot of the semaphore or none; the slot is given back at the end of the operation. *)
Definition ctx_Err : M unit := cancelled ← input ev_cancelled; if cancelled : bool then fail ErrOther else mret tt.
Definition admitPasswordWork : M unit :=
  ctx_Err;;
  inflight ← input ev_inflight;
  let limit := if sv_passwordConcurrency sv <=? 0 then defaultPasswordConcurrency else sv_passwordConcurrency sv in
  if inflight <? limit then mret tt else fail ErrRuntimeBusy.

(** ** Account checks *)

Definition ensureAggregateCanAuthenticate (user : User) : M unit :=
  if String.eqb (us_Status user) UserStatusDisabled || String.eqb (us_Status user) UserStatusPending then fail ErrUserDisabled
  else if String.eqb (us_Status user) UserStatusLocked then fail ErrUserLocked
  else match us_LockedUntil user with
  | Some until => t ← now; if Time_After until t then fail ErrUserLocked else mret tt
  | None => mret tt
  end.

Definition rejectInactiveOrLocked (user : User) : M unit :=
  r ← attempt (ensureAggregateCanAuthenticate user);
  match r with
  | Fails err =>
      attempt (appendAuditLog None (Some (us_ID user)) "auth.login_failed" "auth" (uuid_String (us_ID user)) (reason "account_unavailable"));;
      fail err
  | Val _ => mret tt
  end.

Definition resetExpiredLockState (user : User) : M User :=
  match us_LockedUntil user with
  | Some until => t ← now; mret (if Time_After until t then user else user <| us_LockedUntil := None |> <| us_FailedLoginAttempts := 0 |>)
  | None => mret user
  end.

Definition recordFailedLogin (user : User) : M unit :=
  t ← now;
  attempts ← remap (λ err, is_err ErrAuthUserNotFound err ErrInvalidCredentials)
    (call (RecordFailedLogin (us_ID user) (us_PasswordHash user) t (sv_failedThreshold sv) (Time_Add t (sv_failedLockDuration sv))));
  (if (sv_failedDelayAfter sv <=? attempts) && (0 <? sv_failedDelay sv) then sleep (sv_failedDelay sv) else mret tt);;
  appendAuditLog None (Some (us_ID user)) "auth.login_failed" "auth" (uuid_String (us_ID user)) (reason "invalid_credentials").

(** ** Bootstrap *)

Definition ensureBootstrapUser (t : Time) : M (User * bool) :=
  found ← attempt (call (GetUserByLoginIdentifier (normalizeLoginIdentifier "administrator")));
  match found with
  | Val user => mret (user, false)
  | Fails ErrAuthUserNotFound =>
      passwordHash ← hash_password "theia";
      id ← uuid_New;
      let user := mkUser id "administrator" (normalizeLoginIdentifier "administrator") "administrator@theia.local" (normalizeLoginIdentifier "administrator@theia.local")
        passwordHash "Administrator" UserStatusActive true t t None None 0 None None None in
      user ← call_with (λ clock fresh, CreateUser clock fresh user);
      mret (user, true)
  | Fails err => fail err
  end.

(** The user is [None] when there is an active super administrator already. *)
Definition EnsureBootstrapSuperAdmin : M (option User * bool) :=
  count ← call CountActiveSuperAdmins;
  if 0 <? count then mret (None, false)
  else
    t ← now;
    '(user, created) ← ensureBootstrapUser t;
    '(user, repaired) ←
      (if negb (String.eqb (us_Status user) UserStatusActive) || bool_decide (is_Some (us_LockedUntil user)) then
        let user := user <| us_Status := UserStatusActive |> <| us_MustChangePassword := true |> <| us_FailedLoginAttempts := 0 |>
                         <| us_LockedUntil := None |> <| us_UpdatedAt := t |> in
        call_with (λ clock _, UpdateUser clock user);;
        mret (user, true)
      else mret (user, created));
    aggregate ← call (GetUserRolesAndPermissions (us_ID user));
    repaired ←
      (if negb (HasRole aggregate RoleSuperAdmin) then call (AssignRole (us_ID user) RoleSuperAdmin None);; mret true else mret repaired);
    (if repaired : bool then
      let action := if created : bool then "auth.bootstrap_super_admin_created"%string else "auth.bootstrap_super_admin_repaired"%string in
      appendAuditLog None (Some (us_ID user)) action "auth" (uuid_String (us_ID user)) "{}"
    else mret tt);;
    mret (Some user, created).

(** ** Sessions *)

Definition Login (input : LoginInput) : M LoginResult :=
  admitPasswordWork;;
  let normalized := normalizeLoginIdentifier (li_Identifier input) in
  let unknown : M LoginResult :=
    runDummyPasswordVerification (li_Password input);;
    attempt (appendAuditLog None None "auth.login_failed" "auth" "" (reason "invalid_credentials"));;
    fail ErrInvalidCredentials in
  if String.eqb normalized "" then unknown
  else
  found ← attempt (call (GetUserByLoginIdentifier normalized));
  match found with
  | Fails ErrAuthUserNotFound => unknown
  | Fails err => fail err
  | Val user =>
    user ← resetExpiredLockState user;
    rejected ← attempt (rejectInactiveOrLocked user);
    match rejected with
    | Fails err => runDummyPasswordVerification (li_Password input);; fail err
    | Val _ =>
      ok ← verifyPassword (li_Password input) (us_PasswordHash user);
      if negb (bool_decide (ok = Some true)) then
        recordFailedLogin user;; fail ErrInvalidCredentials
      else
        t ← now;
        remap (λ err, is_err ErrAuthUserNotFound err ErrInvalidCredentials) (call (RecordSuccessfulLogin (us_ID user) (us_PasswordHash user) t));;
        aggregate ← call (GetUserRolesAndPermissions (us_ID user));
        sessionToken ← random_token;
        csrfToken ← random_token;
        id ← uuid_New;
        let session := mkSession id (us_ID user) (HashToken sessionToken (sv_sessionSecret sv)) (HashToken csrfToken (sv_sessionSecret sv))
          t (Time_Add t (sv_sessionTTL sv)) None None (li_IPAddress input) (li_UserAgent input) in
        session ← call_with (λ clock fresh, CreateSession clock fresh session);
        appendAuditLog (Some (us_ID user)) (Some (us_ID user)) "auth.login" "auth" (uuid_String (us_ID user)) "{}";;
        mret (mkLoginResult aggregate (authenticatedSessionFromDomain session) sessionToken csrfToken (se_ExpiresAt session))
    end
  end.

Definition CurrentUser (rawSessionToken : string) : M AuthenticatedUser :=
  let rawSessionToken := TrimSpace rawSessionToken in
  if String.eqb rawSessionToken "" then fail ErrInvalidSession
  else
    session ← remap (λ err, is_err ErrAuthSessionNotFound err ErrInvalidSession)
      (call (GetSessionByTokenHash (HashToken rawSessionToken (sv_sessionSecret sv))));
    t ← now;
    if bool_decide (is_Some (se_RevokedAt session)) || negb (Time_After (se_ExpiresAt session) t) then fail ErrInvalidSession
    else
      aggregate ← call (GetUserRolesAndPermissions (se_UserID session));
      ensureAggregateCanAuthenticate (ag_User aggregate);;
      session ←
        (if match se_LastSeenAt session with None => true | Some seen => defaultSessionTouchInterval <=? Time_Sub t seen end then
          call (TouchSessionIfStale (se_ID session) t defaultSessionTouchInterval);;
          mret (session <| se_LastSeenAt := Some t |>)
        else mret session);
      mret (mkAuthenticatedUser (se_TokenHash session) (se_CSRFTokenHash session) aggregate (authenticatedSessionFromDomain session)).

Definition ValidateAuthenticatedCSRF (user : option AuthenticatedUser) (rawSessionToken rawCSRFToken : string) : M unit :=
  ctx_Err;;
  let rawSessionToken := TrimSpace rawSessionToken in
  let rawCSRFToken := TrimSpace rawCSRFToken in
  match user with
  | None => fail ErrInvalidSession
  | Some user =>
      if String.eqb (au_tokenHash user) "" || String.eqb (au_csrfTokenHash user) "" || String.eqb rawSessionToken "" || String.eqb rawCSRFToken ""
      then fail ErrInvalidSession
      else
        t ← now;
        if negb (Time_After (as_ExpiresAt (au_Session user)) t) then fail ErrInvalidSession
        else if negb (String.eqb (HashToken rawSessionToken (sv_sessionSecret sv)) (au_tokenHash user))
             || negb (String.eqb (HashToken rawCSRFToken (sv_sessionSecret sv)) (au_csrfTokenHash user)) then fail ErrInvalidSession
        else mret tt
  end.

Definition ValidateCSRF (rawSessionToken rawCSRFToken : string) : M unit :=
  let rawSessionToken := TrimSpace rawSessionToken in
  let rawCSRFToken := TrimSpace rawCSRFToken in
  if String.eqb rawSessionToken "" || String.eqb rawCSRFToken "" then fail ErrInvalidSession
  else
    session ← remap (λ err, is_err ErrAuthSessionNotFound err ErrInvalidSession)
      (call (GetSessionByTokenHash (HashToken rawSessionToken (sv_sessionSecret sv))));
    t ← now;
    if bool_decide (is_Some (se_RevokedAt session)) || negb (Time_After (se_ExpiresAt session) t) then fail ErrInvalidSession
    else if negb (String.eqb (HashToken rawCSRFToken (sv_sessionSecret sv)) (se_CSRFTokenHash session)) then fail ErrInvalidSession
    else mret tt.

Definition Logout (rawSessionToken : string) : M unit :=
  session ← remap (λ err, is_err ErrAuthSessionNotFound err ErrInvalidSession)
    (call (GetSessionByTokenHash (HashToken (TrimSpace rawSessionToken) (sv_sessionSecret sv))));
  t ← now;
  call (RevokeSession (se_ID session) t).

(** ** Passwords *)

Definition ChangePassword (input : PasswordChangeInput) : M unit :=
  admitPasswordWork;;
  user ← call (GetUserByID (pc_UserID input));
  ok ← verifyPassword (pc_CurrentPassword input) (us_PasswordHash user);
  if negb (bool_decide (ok = Some true)) then fail ErrInvalidCredentials
  else if negb (ValidatePasswordPolicy unicode_classes (pc_NewPassword input)) then fail ErrPasswordPolicyViolation
  else
    samePassword ← verifyPassword (pc_NewPassword input) (us_PasswordHash user);
    match samePassword with
    | None => fail ErrOther
    | Some true => fail ErrPasswordReuse
    | Some false =>
        t ← now;
        passwordHash ← hash_password (pc_NewPassword input);
        id ← uuid_New;
        let audit := mkAudit id (Some (us_ID user)) (Some (us_ID user)) "auth.password_changed" "auth" (uuid_String (us_ID user)) "{}" t in
        remap (λ err, is_err ErrAuthUserNotFound err ErrInvalidCredentials)
          (call (ChangeUserPassword (us_ID user) (us_PasswordHash user) passwordHash (pc_CurrentSessionID input) t audit))
    end.

Definition CreatePasswordResetToken (input : PasswordResetCreateInput) : M PasswordResetTokenResult :=
  user ← call (GetUserByID (pi_UserID input));
  ensureAggregateCanAuthenticate user;;
  rawToken ← random_token;
  t ← now;
  id ← uuid_New;
  let reset := mkReset id (us_ID user) (HashToken rawToken (sv_sessionSecret sv)) t (Time_Add t (sv_passwordResetTTL sv)) None (pi_CreatedBy input) in
  call_with (λ clock fresh, CreateResetToken clock fresh reset);;
  appendAuditLog (pi_CreatedBy input) (Some (us_ID user)) "auth.password_reset_token_created" "auth" (uuid_String (us_ID user)) "{}";;
  mret (mkPasswordResetTokenResult rawToken (pr_ExpiresAt reset)).

Definition CompletePasswordReset (input : PasswordResetCompleteInput) : M unit :=
  admitPasswordWork;;
  if negb (ValidatePasswordPolicy unicode_classes (px_NewPassword input)) then fail ErrPasswordPolicyViolation
  else
    t ← now;
    let tokenHash := HashToken (TrimSpace (px_Token input)) (sv_sessionSecret sv) in
    reset ← remap (λ err, is_err ErrPasswordResetTokenNotFound err ErrInvalidCredentials) (call (GetPasswordResetTokenByHash tokenHash));
    if bool_decide (is_Some (pr_UsedAt reset)) || negb (Time_After (pr_ExpiresAt reset) t) then fail ErrPasswordResetExpired
    else
      user ← call (GetUserByID (pr_UserID reset));
      samePassword ← verifyPassword (px_NewPassword input) (us_PasswordHash user);
      match samePassword with
      | None => fail ErrOther
      | Some true => fail ErrPasswordReuse
      | Some false =>
          passwordHash ← hash_password (px_NewPassword input);
          reset ← remap (λ err, is_err ErrPasswordResetTokenExpired (is_err ErrPasswordResetTokenNotFound err ErrInvalidCredentials) ErrPasswordResetExpired)
            (call (CompleteReset tokenHash passwordHash t));
          appendAuditLog (pr_CreatedBy reset) (Some (pr_UserID reset)) "auth.password_reset_completed" "auth" (uuid_String (pr_UserID reset)) "{}"
      end.

(** ** Grants *)

Definition user_HasRole (u : option AuthenticatedUser) (roleID : string) : bool := match u with Some u => HasRole (au_User u) roleID | None => false end.
Definition user_HasPermission (u : option AuthenticatedUser) (key : string) : bool := match u with Some u => HasPermission (au_User u) key | None => false end.
Definition RequirePermission (u : option AuthenticatedUser) (key : string) : M unit := if user_HasPermission u key then mret tt else fail ErrPermissionDenied.
Definition RequireRole (u : option AuthenticatedUser) (roleID : string) : M unit := if user_HasRole u roleID then mret tt else fail ErrPermissionDenied.
End service.
