(* ===== verification/AuthAdmin.v ===== *)
(** * Administration of users and roles

    [internal/service/auth_admin_service.go]: the operations an administrator runs on accounts,
    roles and permissions, with the escalation guards.  The actor is the authenticated user of the
    request, with the grants its session was loaded with.  Read-only listings are left out. *)

From S2P Require Import Prelude GoLib GoText Password AuthRepo AuthService.

Record AdminCreateUserInput := mkAdminCreateUserInput {
  ac_Username : string; ac_Email : string; ac_DisplayName : string; ac_Password : string; ac_MustChangePassword : bool; ac_Roles : list string }.
Record AdminUpdateUserInput := mkAdminUpdateUserInput {
  ad_UserID : UUID; ad_Username : option string; ad_Email : option string; ad_DisplayName : option string; ad_Status : option string }.
Record AdminUserStatusInput := mkAdminUserStatusInput { ast_UserID : UUID; ast_Status : string }.
Record AdminUserRoleInput := mkAdminUserRoleInput { ar_UserID : UUID; ar_RoleID : string }.
(** [None]: the permissions are nil. *)
Record AdminRolePermissionsInput := mkAdminRolePermissionsInput { ap_RoleID : string; ap_Permissions : option (list string) }.
Record AdminRole := mkAdminRole { adr_Role : Role; adr_PermissionKeys : list string }.

Definition adminUpdateTouchesProfile (i : AdminUpdateUserInput) : bool :=
  bool_decide (is_Some (ad_Username i)) || bool_decide (is_Some (ad_Email i)) || bool_decide (is_Some (ad_DisplayName i)).
Definition actorIsSuperAdmin (actor : option AuthenticatedUser) : bool := user_HasRole actor RoleSuperAdmin.
Definition actorIsTarget (actor : option AuthenticatedUser) (target : UUID) : bool :=
  match actor with Some a => us_ID (ag_User (au_User a)) =? target | None => false end.
Definition actorUserID (actor : option AuthenticatedUser) : option UUID :=
  match actor with Some a => let id := us_ID (ag_User (au_User a)) in if id =? uuid_Nil then None else Some id | None => None end.
Definition validUserStatus (status : string) : bool :=
  existsb (String.eqb status) [UserStatusActive; UserStatusDisabled; UserStatusPending; UserStatusLocked].
Definition permissionKeysFromPermissions (l : list Permission) : list string := map perm_Key l.
Definition stringSetDifference (left right : list string) : list string := filter (λ v, v ∉ right) left.
Definition mapAdminLastActiveSuperAdminError (err : AuthErr) : AuthErr :=
  if bool_decide (err = ErrAuthLastActiveSuperAdmin) || bool_decide (err = ErrAdminLastActiveSuperAdmin) then ErrAdminLastActiveSuperAdmin else err.
Definition normalizeLimit (limit : Z) : Z := if limit <=? 0 then 100 else if 500 <? limit then 500 else limit.

Section admin.
Context `{!Externals} (sv : AuthService).

Definition auditMetadata (values : list (string * MetaValue)) : string :=
  match values with [] => "{}" | _ => match json_Marshal values with Some s => s | None => "{}" end end.

(** ** Validation *)

Definition validateAdminRoleID (actor : option AuthenticatedUser) (roleID : string) : M string :=
  let roleID := TrimSpace roleID in
  if String.eqb roleID "" then fail ErrAdminInvalidInput
  else if String.eqb roleID RoleSuperAdmin && negb (actorIsSuperAdmin actor) then fail ErrPermissionDenied
  else
    roles ← call ListRoles;
    match list_find (λ r, role_ID r = roleID ∨ role_Name r = roleID) roles with
    | Some (_, role) => mret (role_ID role)
    | None => fail ErrAuthRoleNotFound
    end.

Fixpoint validate_roles (actor : option AuthenticatedUser) (roleIDs out : list string) : M (list string) :=
  match roleIDs with
  | [] => mret out
  | roleID :: rest =>
      validated ← validateAdminRoleID actor roleID;
      validate_roles actor rest (if decide (validated ∈ out) then out else out ++ [validated])
  end.
Definition validateAdminRoleIDs (actor : option AuthenticatedUser) (roleIDs : list string) : M (list string) := validate_roles actor roleIDs [].

Definition roleByID (roleID : string) : M Role :=
  roles ← call ListRoles;
  match list_find (λ r, role_ID r = roleID) roles with Some (_, role) => mret role | None => fail ErrAuthRoleNotFound end.

Fixpoint normalize_keys (known raw out : list string) : option (list string) :=
  match raw with
  | [] => Some out
  | value :: rest =>
      let key := TrimSpace value in
      if String.eqb key "" then None
      else if negb (bool_decide (key ∈ known)) then None
      else normalize_keys known rest (if decide (key ∈ out) then out else out ++ [key])
  end.
Definition normalizeAdminRolePermissionKeys (raw : list string) : M (list string) :=
  known ← call ListPermissions;
  match normalize_keys (map perm_Key known) raw [] with Some keys => mret keys | None => fail ErrAdminInvalidInput end.

Definition ensureNotLastActiveSuperAdmin : M unit :=
  count ← call CountActiveSuperAdmins; if count <=? 1 then fail ErrAdminLastActiveSuperAdmin else mret tt.

Definition canChangeAdminUserStatus (actor : option AuthenticatedUser) (target : UserWithRolesAndPermissions) (status : string) : M unit :=
  if negb (validUserStatus status) then fail ErrAdminInvalidInput
  else if HasRole target RoleSuperAdmin && negb (actorIsSuperAdmin actor) then fail ErrPermissionDenied
  else if actorIsTarget actor (us_ID (ag_User target)) && negb (String.eqb status UserStatusActive) then
    (if String.eqb (us_Status (ag_User target)) UserStatusActive && HasRole target RoleSuperAdmin then ensureNotLastActiveSuperAdmin else mret tt);;
    fail ErrPermissionDenied
  else mret tt.

Definition updateAdminUser (current : UserWithRolesAndPermissions) (next : User) : M unit :=
  if String.eqb (us_Status (ag_User current)) UserStatusActive && negb (String.eqb (us_Status next) UserStatusActive) && HasRole current RoleSuperAdmin
  then remap mapAdminLastActiveSuperAdminError (call_with (λ clock _, UpdateUserPreservingLastActiveSuperAdmin clock next))
  else call_with (λ clock _, UpdateUser clock next).

Definition removeAdminUserRole (target : UserWithRolesAndPermissions) (roleID : string) : M unit :=
  if String.eqb roleID RoleSuperAdmin && String.eqb (us_Status (ag_User target)) UserStatusActive && HasRole target RoleSuperAdmin
  then remap mapAdminLastActiveSuperAdminError (call (RemoveRolePreservingLastActiveSuperAdmin (us_ID (ag_User target)) roleID))
  else call (RemoveRole (us_ID (ag_User target)) roleID).

(** ** Accounts *)

Fixpoint assign_all (id : UUID) (roleIDs : list string) (by_ : option UUID) : M unit :=
  match roleIDs with [] => mret tt | roleID :: rest => call (AssignRole id roleID by_);; assign_all id rest by_ end.

Definition CreateAdminUser (actor : option AuthenticatedUser) (i : AdminCreateUserInput) : M UserWithRolesAndPermissions :=
  RequirePermission actor PermissionUsersCreate;;
  (if (0 <? length (ac_Roles i))%nat then RequirePermission actor PermissionRolesAssign else mret tt);;
  let username := TrimSpace (ac_Username i) in
  let email := TrimSpace (ac_Email i) in
  let displayName := TrimSpace (ac_DisplayName i) in
  if String.eqb username "" || String.eqb email "" || String.eqb (TrimSpace (ac_Password i)) "" then fail ErrAdminInvalidInput
  else if negb (ac_MustChangePassword i) && negb (ValidatePasswordPolicy unicode_classes (ac_Password i)) then fail ErrPasswordPolicyViolation
  else
    roleIDs ← validateAdminRoleIDs actor (ac_Roles i);
    passwordHash ← hash_password (ac_Password i);
    t ← now;
    let actorID := actorUserID actor in
    id ← uuid_New;
    let user := mkUser id username (normalizeLoginIdentifier username) email (normalizeLoginIdentifier email) passwordHash displayName UserStatusActive
      (ac_MustChangePassword i) t t None None 0 None actorID actorID in
    user ← call_with (λ clock fresh, CreateUser clock fresh user);
    assign_all (us_ID user) roleIDs actorID;;
    appendAuditLog actorID (Some (us_ID user)) "admin.user_created" "auth_user" (uuid_String (us_ID user)) (auditMetadata [("roles"%string, MetaStrings roleIDs)]);;
    call (GetUserRolesAndPermissions (us_ID user)).

Definition GetAdminUser (actor : option AuthenticatedUser) (userID : UUID) : M UserWithRolesAndPermissions :=
  RequirePermission actor PermissionUsersRead;; call (GetUserRolesAndPermissions userID).

(** A name field: absent, or trimmed and not empty. *)
Definition set_name (field : string) (value : option string) (set : string → User → User) (p : User * list string) : M (User * list string) :=
  match value with
  | None => mret p
  | Some raw =>
      let v := TrimSpace raw in
      if String.eqb v "" then fail ErrAdminInvalidInput else mret (set v p.1, p.2 ++ [field])
  end.

Definition UpdateAdminUser (actor : option AuthenticatedUser) (i : AdminUpdateUserInput) : M UserWithRolesAndPermissions :=
  RequirePermission actor PermissionUsersUpdate;;
  target ← call (GetUserRolesAndPermissions (ad_UserID i));
  if HasRole target RoleSuperAdmin && negb (actorIsSuperAdmin actor) && adminUpdateTouchesProfile i then fail ErrPermissionDenied
  else
    p ← set_name "username" (ad_Username i) (λ v u, u <| us_Username := v |> <| us_UsernameNormalized := normalizeLoginIdentifier v |>) (ag_User target, []);
    p ← set_name "email" (ad_Email i) (λ v u, u <| us_Email := v |> <| us_EmailNormalized := normalizeLoginIdentifier v |>) p;
    let p := match ad_DisplayName i with Some v => (p.1 <| us_DisplayName := TrimSpace v |>, p.2 ++ ["display_name"%string]) | None => p end in
    p ← match ad_Status i with
        | Some status => canChangeAdminUserStatus actor target status;; mret (p.1 <| us_Status := status |>, p.2 ++ ["status"%string])
        | None => mret p
        end;
    let changed := p.2 in
    if (length changed =? 0)%nat then mret target
    else
      t ← now;
      let user := p.1 <| us_UpdatedAt := t |> <| us_UpdatedBy := actorUserID actor |> in
      updateAdminUser target user;;
      appendAuditLog (actorUserID actor) (Some (us_ID user)) "admin.user_updated" "auth_user" (uuid_String (us_ID user))
        (auditMetadata [("fields"%string, MetaStrings changed)]);;
      call (GetUserRolesAndPermissions (us_ID user)).

Definition SetAdminUserStatus (actor : option AuthenticatedUser) (i : AdminUserStatusInput) : M UserWithRolesAndPermissions :=
  RequirePermission actor PermissionUsersUpdate;;
  (if negb (String.eqb (ast_Status i) UserStatusActive) then RequirePermission actor PermissionUsersDisable else mret tt);;
  target ← call (GetUserRolesAndPermissions (ast_UserID i));
  canChangeAdminUserStatus actor target (ast_Status i);;
  t ← now;
  let user := ag_User target <| us_Status := ast_Status i |> <| us_UpdatedAt := t |> <| us_UpdatedBy := actorUserID actor |> in
  updateAdminUser target user;;
  appendAuditLog (actorUserID actor) (Some (us_ID user)) "admin.user_status_changed" "auth_user" (uuid_String (us_ID user))
    (auditMetadata [("status"%string, MetaString (ast_Status i))]);;
  call (GetUserRolesAndPermissions (us_ID user)).

(** ** Roles *)

Definition AssignAdminUserRole (actor : option AuthenticatedUser) (i : AdminUserRoleInput) : M UserWithRolesAndPermissions :=
  RequirePermission actor PermissionRolesAssign;;
  roleID ← validateAdminRoleID actor (ar_RoleID i);
  if actorIsTarget actor (ar_UserID i) then fail ErrPermissionDenied
  else
    target ← call (GetUserRolesAndPermissions (ar_UserID i));
    if HasRole target RoleSuperAdmin && negb (actorIsSuperAdmin actor) then fail ErrPermissionDenied
    else
      call (AssignRole (ar_UserID i) roleID (actorUserID actor));;
      appendAuditLog (actorUserID actor) (Some (ar_UserID i)) "admin.user_role_assigned" "auth_user" (uuid_String (ar_UserID i))
        (auditMetadata [("role_id"%string, MetaString roleID)]);;
      call (GetUserRolesAndPermissions (ar_UserID i)).

Definition RemoveAdminUserRole (actor : option AuthenticatedUser) (i : AdminUserRoleInput) : M UserWithRolesAndPermissions :=
  RequirePermission actor PermissionRolesAssign;;
  roleID ← validateAdminRoleID actor (ar_RoleID i);
  target ← call (GetUserRolesAndPermissions (ar_UserID i));
  if actorIsTarget actor (ar_UserID i) then
    (if String.eqb roleID RoleSuperAdmin && String.eqb (us_Status (ag_User target)) UserStatusActive && HasRole target RoleSuperAdmin
     then ensureNotLastActiveSuperAdmin else mret tt);;
    fail ErrPermissionDenied
  else if (String.eqb roleID RoleSuperAdmin || HasRole target RoleSuperAdmin) && negb (actorIsSuperAdmin actor) then fail ErrPermissionDenied
  else
    removeAdminUserRole target roleID;;
    appendAuditLog (actorUserID actor) (Some (ar_UserID i)) "admin.user_role_removed" "auth_user" (uuid_String (ar_UserID i))
      (auditMetadata [("role_id"%string, MetaString roleID)]);;
    call (GetUserRolesAndPermissions (ar_UserID i)).

Definition CreateAdminPasswordResetToken (actor : option AuthenticatedUser) (userID : UUID) : M PasswordResetTokenResult :=
  RequirePermission actor PermissionUsersUpdate;;
  if actorIsTarget actor userID then fail ErrPermissionDenied
  else
    target ← call (GetUserRolesAndPermissions userID);
    if HasRole target RoleSuperAdmin && negb (actorIsSuperAdmin actor) then fail ErrPermissionDenied
    else CreatePasswordResetToken sv (mkPasswordResetCreateInput userID (actorUserID actor)).

Fixpoint list_admin_roles (roles : list Role) : M (list AdminRole) :=
  match roles with
  | [] => mret []
  | role :: rest =>
      permissions ← call (ListRolePermissions (role_ID role));
      out ← list_admin_roles rest;
      mret (mkAdminRole role (permissionKeysFromPermissions permissions) :: out)
  end.
Definition ListAdminRoles (actor : option AuthenticatedUser) : M (list AdminRole) :=
  RequirePermission actor PermissionRolesRead;; roles ← call ListRoles; list_admin_roles roles.

Definition UpdateAdminRolePermissions (actor : option AuthenticatedUser) (i : AdminRolePermissionsInput) : M AdminRole :=
  RequirePermission actor PermissionRolesUpdate;;
  let roleID := TrimSpace (ap_RoleID i) in
  if String.eqb roleID "" then fail ErrAdminInvalidInput
  else if String.eqb roleID RoleSuperAdmin then fail ErrPermissionDenied
  else
    role ← roleByID roleID;
    match ap_Permissions i with
    | None => fail ErrAdminInvalidInput
    | Some raw =>
        permissionKeys ← normalizeAdminRolePermissionKeys raw;
        '(old, new) ← call (ReplaceRolePermissions (role_ID role) permissionKeys);
        let oldKeys := permissionKeysFromPermissions old in
        let newKeys := permissionKeysFromPermissions new in
        match json_Marshal [("added_permissions"%string, MetaStrings (stringSetDifference newKeys oldKeys));
                            ("removed_permissions"%string, MetaStrings (stringSetDifference oldKeys newKeys));
                            ("old_permissions"%string, MetaStrings oldKeys); ("new_permissions"%string, MetaStrings newKeys)] with
        | None => fail ErrOther
        | Some metadata =>
            appendAuditLog (actorUserID actor) None "role.permissions_updated" "role" (role_ID role) metadata;;
            mret (mkAdminRole role newKeys)
        end
    end.

Definition ListAdminPermissions (actor : option AuthenticatedUser) : M (list Permission) :=
  RequirePermission actor PermissionRolesRead;; call ListPermissions.
End admin.
