(* ===== verification/AuthLogic.v ===== *)
(** * Reasoning about programs over the authentication tables

    A triple in the rely/guarantee style: from tables that satisfy [P], whatever other work does in
    between (it keeps the assertions), every own effect is related by [G], and the answer and the
    tables at the end satisfy [Q].  Also here: the operations of the service as one type, and what
    other work may do. *)

From S2P Require Import Prelude GoLib GoText Sha256 Password AuthRepo AuthService AuthAdmin.

(** ** Triples *)

Section triples.
Context (e : Env) (G : AuthDB → AuthDB → Prop).

Definition triple {A} (P : AuthDB → Prop) (m : M A) (Q : answer A → AuthDB → Prop) : Prop :=
  ∀ s, P (st_db s) → Q (m e s).2 (st_db (m e s).1) ∧ ∃ l, st_steps (m e s).1 = st_steps s ++ l ∧ Forall (λ p, G p.1 p.2) l.

(** An assertion other work keeps. *)
Definition stable (P : AuthDB → Prop) : Prop := ∀ n db, P db → P (ev_gap e n db).

Lemma triple_quiet {A} (P : AuthDB → Prop) (m : M A) Q :
  (∀ s, P (st_db s) → st_steps (m e s).1 = st_steps s ∧ st_db (m e s).1 = st_db s ∧ Q (m e s).2 (st_db s)) → triple P m Q.
Proof. intros H s HP. destruct (H s HP) as (H1 & H2 & H3). rewrite H2. split; [done|]. exists []. by rewrite app_nil_r. Qed.

Lemma triple_ret {A} P (a : A) (Q : answer A → AuthDB → Prop) : (∀ db, P db → Q (Val a) db) → triple P (mret a) Q.
Proof. intros HQ. apply triple_quiet. intros s HP. split_and!; [done|done|by apply HQ]. Qed.

Lemma triple_fail {A} P err (Q : answer A → AuthDB → Prop) : (∀ db, P db → Q (Fails err) db) → triple P (fail err) Q.
Proof. intros HQ. apply triple_quiet. intros s HP. split_and!; [done|done|by apply HQ]. Qed.

Lemma triple_input {A} P (f : Env → nat → A) (Q : answer A → AuthDB → Prop) : (∀ n db, P db → Q (Val (f e n)) db) → triple P (input f) Q.
Proof. intros HQ. apply triple_quiet. intros s HP. split_and!; [done|done|by apply HQ]. Qed.

Lemma triple_verify `{!Externals} P p h (Q : answer (option bool) → AuthDB → Prop) :
  (∀ db, P db → Q (Val (VerifyPassword argon2_Version argon2_IDKey p h)) db) → triple P (verifyPassword p h) Q.
Proof. intros HQ. apply triple_quiet. intros s HP. split_and!; [done|done|by apply HQ]. Qed.

Lemma triple_sleep P d (Q : answer unit → AuthDB → Prop) : (∀ db, P db → Q (Val tt) db) → triple P (sleep d) Q.
Proof. intros HQ. apply triple_quiet. intros s HP. split_and!; [done|done|by apply HQ]. Qed.

(** The middle assertion speaks of both outcomes. *)
Lemma triple_bind {A B} P (m : M A) (k : A → M B) (R : answer A → AuthDB → Prop) Q :
  triple P m R → (∀ a, triple (R (Val a)) (k a) Q) → (∀ err db, R (Fails err) db → Q (Fails err) db) → triple P (m ≫= k) Q.
Proof.
  intros Hm Hk Hf s HP. destruct (Hm s HP) as (HR & l & El & Hl). unfold mbind, M_bind.
  destruct (m e s) as [s1 [a|err]]; simpl in *; [|by eauto].
  destruct (Hk a s1 HR) as (HQ & l' & El' & Hl'). split; [done|]. exists (l ++ l'). rewrite El', El, app_assoc. split; [done|]. by apply Forall_app.
Qed.

Lemma triple_attempt {A} P (m : M A) Q : triple P m (λ r, Q (Val r)) → triple P (attempt m) Q.
Proof. intros H s HP. specialize (H s HP). unfold attempt. by destruct (m e s) as [s1 r]. Qed.

Lemma triple_remap {A} P (f : AuthErr → AuthErr) (m : M A) Q :
  triple P m (λ r, Q (match r with Val a => Val a | Fails err => Fails (f err) end)) → triple P (remap f m) Q.
Proof. intros H s HP. specialize (H s HP). unfold remap. by destruct (m e s) as [s1 r]. Qed.

Lemma triple_weaken {A} (P P' : AuthDB → Prop) (m : M A) (Q Q' : answer A → AuthDB → Prop) :
  triple P m Q → (∀ db, P' db → P db) → (∀ r db, Q r db → Q' r db) → triple P' m Q'.
Proof. intros H HP HQ s Hs. destruct (H s (HP _ Hs)) as [Hq Hl]. by eauto. Qed.

(** A repository call: no effect, or its effect with its answer or with a lost answer. *)
Lemma triple_call {A} (P : AuthDB → Prop) (f : Time → UUID → Tx A) (Q : answer A → AuthDB → Prop) :
  stable P →
  (∀ db, P db → G db db ∧ Q (Fails ErrOther) db) →
  (∀ clock fresh db, P db → G db (f clock fresh db).1 ∧ Q (f clock fresh db).2 (f clock fresh db).1 ∧ Q (Fails ErrOther) (f clock fresh db).1) →
  triple P (call_with f) Q.
Proof.
  intros Hst H0 H1 s HP. specialize (Hst (st_tick s) _ HP). unfold call_with.
  destruct (H0 _ Hst) as [G0 Q0]. destruct (H1 (ev_clock e (st_tick s)) (ev_uuid e (st_tick s)) _ Hst) as (G1 & Q1 & Q2).
  destruct (f _ _ _) as [db' r]. cbn in *. destruct (ev_fault e (st_tick s)); cbn; (split; [done|]); eexists; (split; [done|]); by apply Forall_singleton.
Qed.
End triples.

(** ** Invariants *)

(** The invariant holds throughout, and a result satisfies [F]. *)
Section keeps.
Context (e : Env) (G : AuthDB → AuthDB → Prop) (Inv : AuthDB → Prop).
Context (stable_Inv : stable e Inv) (refl_G : ∀ db, Inv db → G db db).

Definition keeps {A} (m : M A) (F : A → Prop) : Prop := triple e G Inv m (λ r db, Inv db ∧ ∀ a, r = Val a → F a).

(** A transaction that respects guarantee and invariant. *)
Definition tx_keeps {A} (f : Tx A) (F : A → Prop) : Prop := ∀ db, Inv db → G db (f db).1 ∧ Inv (f db).1 ∧ ∀ a, (f db).2 = Val a → F a.

Lemma keeps_ret {A} (a : A) (F : A → Prop) : F a → keeps (mret a) F.
Proof. intros H. apply triple_ret. intros db HI. split; [done|]. by intros ? [= <-]. Qed.
Lemma keeps_fail {A} err (F : A → Prop) : keeps (fail err) F.
Proof. apply triple_fail. by intros db HI. Qed.
Lemma keeps_input {A} (f : Env → nat → A) : keeps (input f) (λ a, ∃ n, a = f e n).
Proof. apply triple_input. intros n db HI. split; [done|]. intros ? [= <-]. by eauto. Qed.
Lemma keeps_verify `{!Externals} p h : keeps (verifyPassword p h) (λ r, r = VerifyPassword argon2_Version argon2_IDKey p h).
Proof. apply triple_verify. intros db HI. split; [done|]. by intros ? [= <-]. Qed.
Lemma keeps_sleep d : keeps (sleep d) (λ _, True).
Proof. apply triple_sleep. done. Qed.
Lemma keeps_bind {A B} (m : M A) (k : A → M B) (F : A → Prop) (F' : B → Prop) : keeps m F → (∀ a, F a → keeps (k a) F') → keeps (m ≫= k) F'.
Proof.
  intros Hm Hk. eapply triple_bind; [exact Hm| |naive_solver]. intros a s [HI Ha]. by apply (Hk a (Ha a eq_refl)).
Qed.
Lemma keeps_weaken {A} (m : M A) (F F' : A → Prop) : keeps m F → (∀ a, F a → F' a) → keeps m F'.
Proof. intros H HF. eapply triple_weaken; [exact H|done|]. naive_solver. Qed.
Lemma keeps_attempt {A} (m : M A) (F : A → Prop) : keeps m F → keeps (attempt m) (λ r, ∀ a, r = Val a → F a).
Proof. intros H. apply triple_attempt. eapply triple_weaken; [exact H|done|]. naive_solver. Qed.
Lemma keeps_remap {A} f (m : M A) (F : A → Prop) : keeps m F → keeps (remap f m) F.
Proof. intros H. apply triple_remap. eapply triple_weaken; [exact H|done|]. intros [a|err] db [HI HF]; naive_solver. Qed.
Lemma keeps_call_with {A} (f : Time → UUID → Tx A) (F : A → Prop) : (∀ clock fresh, tx_keeps (f clock fresh) F) → keeps (call_with f) F.
Proof.
  intros H. apply triple_call; [done|by split; [apply refl_G|]|]. intros clock fresh db HI. destruct (H clock fresh db HI) as (HG & HI' & HF). done.
Qed.
Lemma keeps_call {A} (f : Tx A) (F : A → Prop) : tx_keeps f F → keeps (call f) F.
Proof. intros H. apply keeps_call_with. by intros _ _. Qed.
Lemma keeps_query {A} missing (f : AuthDB → option A) (F : A → Prop) : (∀ db a, Inv db → f db = Some a → F a) → tx_keeps (query missing f) F.
Proof.
  intros H db HI. unfold query. simpl. split_and!; [by apply refl_G|done|]. intros a Ha. destruct (f db) as [a'|] eqn:E; [|done].
  injection Ha as <-. by eapply H.
Qed.
Lemma tx_keeps_weaken {A} (f : Tx A) (F F' : A → Prop) : tx_keeps f F → (∀ a, F a → F' a) → tx_keeps f F'.
Proof. intros H HF db HI. destruct (H db HI) as (? & ? & ?). naive_solver. Qed.
Lemma tx_keeps_trivial {A} (f : Tx A) (F : A → Prop) : tx_keeps f F → tx_keeps f (λ _, True).
Proof. intros H. by eapply tx_keeps_weaken. Qed.

(** A prefix that keeps the invariant, then a triple. *)
Lemma keeps_then {A B} (m : M A) (k : A → M B) (F : A → Prop) Q :
  keeps m F → (∀ a, F a → triple e G Inv (k a) Q) → (∀ err db, Inv db → Q (Fails err) db) → triple e G Inv (m ≫= k) Q.
Proof. intros Hm Hk Hf. eapply triple_bind; [exact Hm| |naive_solver]. intros a s [HI Ha]. by apply (Hk a (Ha a eq_refl)). Qed.

(** From the whole run: own effects and the invariant at the end. *)
Lemma keeps_run {A} (m : M A) F s :
  keeps m F → Inv (st_db s) → Inv (st_db (m e s).1) ∧ ∃ l, st_steps (m e s).1 = st_steps s ++ l ∧ Forall (λ p, G p.1 p.2) l.
Proof. intros H HI. destruct (H s HI) as [[HI' _] Hl]. done. Qed.
End keeps.

(** ** Undisturbed runs *)

(** No other work runs in between. *)
Definition sequential (e : Env) : Prop := ∀ n db, ev_gap e n db = db.

(** No other work and no failures. *)
Definition quiet (e : Env) : Prop := sequential e ∧ ∀ n, ev_fault e n = Completes.

(** Triples over the whole state of a run. *)

Section run.
Context (e : Env).
Definition runs {A} (P : St → Prop) (m : M A) (Q : answer A → St → Prop) : Prop := ∀ s, P s → Q (m e s).2 (m e s).1.

Lemma runs_bind {A B} P (m : M A) (k : A → M B) (R : answer A → St → Prop) Q :
  runs P m R → (∀ a, runs (R (Val a)) (k a) Q) → (∀ err s, R (Fails err) s → Q (Fails err) s) → runs P (m ≫= k) Q.
Proof.
  intros Hm Hk Hf s HP. specialize (Hm s HP). unfold mbind, M_bind. destruct (m e s) as [s1 [a|err]]; simpl in *; [by apply (Hk a)|by apply Hf].
Qed.
Lemma runs_attempt {A} P (m : M A) Q : runs P m (λ r, Q (Val r)) → runs P (attempt m) Q.
Proof. intros H s HP. specialize (H s HP). unfold attempt. by destruct (m e s). Qed.
Lemma runs_remap {A} P f (m : M A) Q : runs P m (λ r, Q (match r with Val a => Val a | Fails err => Fails (f err) end)) → runs P (remap f m) Q.
Proof. intros H s HP. specialize (H s HP). unfold remap. by destruct (m e s). Qed.
Lemma runs_weaken {A} (P P' : St → Prop) (m : M A) (Q Q' : answer A → St → Prop) : runs P m Q → (∀ s, P' s → P s) → (∀ r s, Q r s → Q' r s) → runs P' m Q'.
Proof. intros H HP HQ s Hs. apply HQ, H, HP, Hs. Qed.
Lemma runs_pure {A} (φ : Prop) (P : St → Prop) (m : M A) Q : (φ → runs P m Q) → runs (λ s, φ ∧ P s) m Q.
Proof. intros H s [Hφ HP]. by apply H. Qed.
Lemma runs_fact {A} (φ : Prop) (P : St → Prop) (m : M A) Q : (∀ s, P s → φ) → (φ → runs P m Q) → runs P m Q.
Proof. intros Hφ H s HP. by apply H; [eapply Hφ|]. Qed.
Lemma runs_exists {A X} (P : X → St → Prop) (m : M A) Q : (∀ x, runs (P x) m Q) → runs (λ s, ∃ x, P x s) m Q.
Proof. intros H s [x HP]. by eapply H. Qed.
Lemma runs_call {A} (P : St → Prop) (f : Time → UUID → Tx A) (Q : answer A → St → Prop) :
  quiet e → (∀ s clock fresh steps, P s → Q (f clock fresh (st_db s)).2 (mkSt (S (st_tick s)) (f clock fresh (st_db s)).1 steps (st_verified s) (st_slept s))) →
  runs P (call_with f) Q.
Proof.
  intros [Hg Hf] H s HP. unfold call_with. rewrite Hg, Hf. specialize (λ steps, H s (ev_clock e (st_tick s)) (ev_uuid e (st_tick s)) steps HP).
  destruct (f _ _ _) as [db' r]. apply H.
Qed.
End run.

(** ** Operations *)

Inductive AuthOp :=
| OpBootstrap
| OpLogin (i : LoginInput)
| OpCurrentUser (token : string)
| OpValidateAuthenticatedCSRF (u : option AuthenticatedUser) (token csrf : string)
| OpValidateCSRF (token csrf : string)
| OpLogout (token : string)
| OpChangePassword (i : PasswordChangeInput)
| OpCreatePasswordResetToken (i : PasswordResetCreateInput)
| OpCompletePasswordReset (i : PasswordResetCompleteInput)
| OpCreateAdminUser (actor : option AuthenticatedUser) (i : AdminCreateUserInput)
| OpGetAdminUser (actor : option AuthenticatedUser) (id : UUID)
| OpUpdateAdminUser (actor : option AuthenticatedUser) (i : AdminUpdateUserInput)
| OpSetAdminUserStatus (actor : option AuthenticatedUser) (i : AdminUserStatusInput)
| OpAssignAdminUserRole (actor : option AuthenticatedUser) (i : AdminUserRoleInput)
| OpRemoveAdminUserRole (actor : option AuthenticatedUser) (i : AdminUserRoleInput)
| OpCreateAdminPasswordResetToken (actor : option AuthenticatedUser) (id : UUID)
| OpListAdminRoles (actor : option AuthenticatedUser)
| OpUpdateAdminRolePermissions (actor : option AuthenticatedUser) (i : AdminRolePermissionsInput)
| OpListAdminPermissions (actor : option AuthenticatedUser).

Definition discard {A} (m : M A) : M unit := m;; mret tt.

Section ops.
Context `{!Externals} (sv : AuthService).

Definition run_op (op : AuthOp) : M unit :=
  match op with
  | OpBootstrap => discard EnsureBootstrapSuperAdmin
  | OpLogin i => discard (Login sv i)
  | OpCurrentUser token => discard (CurrentUser sv token)
  | OpValidateAuthenticatedCSRF u token csrf => ValidateAuthenticatedCSRF sv u token csrf
  | OpValidateCSRF token csrf => ValidateCSRF sv token csrf
  | OpLogout token => Logout sv token
  | OpChangePassword i => ChangePassword sv i
  | OpCreatePasswordResetToken i => discard (CreatePasswordResetToken sv i)
  | OpCompletePasswordReset i => CompletePasswordReset sv i
  | OpCreateAdminUser actor i => discard (CreateAdminUser actor i)
  | OpGetAdminUser actor id => discard (GetAdminUser actor id)
  | OpUpdateAdminUser actor i => discard (UpdateAdminUser actor i)
  | OpSetAdminUserStatus actor i => discard (SetAdminUserStatus actor i)
  | OpAssignAdminUserRole actor i => discard (AssignAdminUserRole actor i)
  | OpRemoveAdminUserRole actor i => discard (RemoveAdminUserRole actor i)
  | OpCreateAdminPasswordResetToken actor id => discard (CreateAdminPasswordResetToken sv actor id)
  | OpListAdminRoles actor => discard (ListAdminRoles actor)
  | OpUpdateAdminRolePermissions actor i => discard (UpdateAdminRolePermissions actor i)
  | OpListAdminPermissions actor => discard (ListAdminPermissions actor)
  end.

(** Operations one after the other; each runs in an environment of its own. *)
Definition start (db : AuthDB) : St := mkSt 0 db [] [] [].
Definition run_ops (db : AuthDB) (ops : list (Env * AuthOp)) : AuthDB := foldl (λ db p, st_db (run_op p.2 p.1 (start db)).1) db ops.
End ops.

(** ** What the repository promises to the service *)

(** The transactions that neither overwrite an account nor withdraw a role respect a guarantee and an invariant. *)
Class RepoBasic (G : AuthDB → AuthDB → Prop) (Inv : AuthDB → Prop) : Prop := {
  rk_refl db : Inv db → G db db;
  rk_CreateUser clock fresh u : tx_keeps G Inv (CreateUser clock fresh u) (λ _, True);
  rk_AssignRole id r by_ : tx_keeps G Inv (AssignRole id r by_) (λ _, True);
  rk_ReplaceRolePermissions r keys : tx_keeps G Inv (ReplaceRolePermissions r keys) (λ _, True);
  rk_RecordSuccessfulLogin id h t : tx_keeps G Inv (RecordSuccessfulLogin id h t) (λ _, True);
  rk_RecordFailedLogin id h t n l : tx_keeps G Inv (RecordFailedLogin id h t n l) (λ _, True);
  rk_CreateSession clock fresh s : tx_keeps G Inv (CreateSession clock fresh s) (λ _, True);
  rk_RevokeSession id t : tx_keeps G Inv (RevokeSession id t) (λ _, True);
  rk_TouchSessionIfStale id t d : tx_keeps G Inv (TouchSessionIfStale id t d) (λ _, True);
  rk_ChangeUserPassword id h h' x t a : tx_keeps G Inv (ChangeUserPassword id h h' x t a) (λ _, True);
  rk_CreateResetToken clock fresh r : tx_keeps G Inv (CreateResetToken clock fresh r) (λ _, True);
  rk_CompleteReset h p t : tx_keeps G Inv (CompleteReset h p t) (λ _, True);
  rk_AppendAuditLog clock fresh l : tx_keeps G Inv (AppendAuditLog clock fresh l) (λ _, True) }.
(** Every transaction does. *)
Class RepoKeeps (G : AuthDB → AuthDB → Prop) (Inv : AuthDB → Prop) : Prop := {
  #[global] rk_basic :: RepoBasic G Inv;
  rk_UpdateUser clock u : tx_keeps G Inv (UpdateUser clock u) (λ _, True);
  rk_RemoveRole id r : tx_keeps G Inv (RemoveRole id r) (λ _, True) }.

Create HintDb repo discriminated.
Create HintDb prog discriminated.
#[export] Hint Resolve rk_basic : repo prog.
#[export] Hint Resolve rk_CreateUser rk_UpdateUser rk_AssignRole rk_RemoveRole rk_ReplaceRolePermissions rk_RecordSuccessfulLogin rk_RecordFailedLogin
  rk_CreateSession rk_RevokeSession rk_TouchSessionIfStale rk_ChangeUserPassword rk_CreateResetToken rk_CompleteReset rk_AppendAuditLog : repo.

Ltac keeps_leaf :=
  first [ apply keeps_ret; exact I | apply keeps_fail
        | eapply keeps_weaken; [first [apply keeps_input | apply keeps_verify | apply keeps_sleep]|done] ].
(** Walks through a program when results do not matter: binds, branches, calls. *)
Ltac keeps_step :=
  lazymatch goal with
  | |- keeps _ _ _ (mbind _ _) _ => apply (keeps_bind _ _ _ _ _ (λ _, True)); [|intros]
  | |- keeps _ _ _ (remap _ _) _ => apply keeps_remap
  | |- keeps _ _ _ (attempt _) _ => eapply keeps_weaken; [apply (keeps_attempt _ _ _ _ (λ _, True))|done]
  | |- keeps _ _ _ (call_with _) _ => apply keeps_call_with; [eassumption|first [eassumption|apply rk_refl]|intros]
  | |- keeps _ _ _ (call _) _ => apply keeps_call; [eassumption|first [eassumption|apply rk_refl]|]
  | |- keeps _ _ _ (match ?x with _ => _ end) _ => destruct x
  | |- keeps _ _ _ _ _ => keeps_leaf
  end.

Lemma guarded_update_keeps {G Inv} `{!RepoKeeps G Inv} clock u : tx_keeps G Inv (UpdateUserPreservingLastActiveSuperAdmin clock u) (λ _, True).
Proof. intros db HI. unfold UpdateUserPreservingLastActiveSuperAdmin. case_match; [split_and!; [by apply rk_refl|done|done]|by apply rk_UpdateUser]. Qed.
Lemma guarded_remove_keeps {G Inv} `{!RepoKeeps G Inv} id r : tx_keeps G Inv (RemoveRolePreservingLastActiveSuperAdmin id r) (λ _, True).
Proof. intros db HI. unfold RemoveRolePreservingLastActiveSuperAdmin. case_match; [split_and!; [by apply rk_refl|done|done]|by apply rk_RemoveRole]. Qed.
Lemma query_keeps {G Inv} `{!RepoBasic G Inv} {A} missing (f : AuthDB → option A) : tx_keeps G Inv (query missing f) (λ _, True).
Proof. apply keeps_query; [apply rk_refl|done]. Qed.
Lemma read_keeps {G Inv} `{!RepoBasic G Inv} {A} (f : AuthDB → A) : tx_keeps G Inv (λ db, (db, Val (f db))) (λ _, True).
Proof. intros db HI. split_and!; [by apply rk_refl|done|done]. Qed.

Ltac tx_leaf := first [solve [auto with repo] | apply query_keeps | apply read_keeps | apply guarded_update_keeps | apply guarded_remove_keeps ].
Ltac keeps_go := repeat first [progress keeps_step | progress tx_leaf | solve [eauto 3 with prog]].

Section basic_ops_keep.
Context `{!Externals} (sv : AuthService) (e : Env) (G : AuthDB → AuthDB → Prop) (Inv : AuthDB → Prop) `{!RepoBasic G Inv} (stable_Inv : stable e Inv).
Local Abbreviation K m := (keeps e G Inv m (λ _, True)) (only parsing).

Lemma appendAuditLog_keeps a b c d f g : K (appendAuditLog a b c d f g).
Proof. unfold appendAuditLog. keeps_go. Qed.
Hint Resolve appendAuditLog_keeps : prog.
Lemma ctx_Err_keeps : K ctx_Err.
Proof. unfold ctx_Err. keeps_go. Qed.
Hint Resolve ctx_Err_keeps : prog.
Lemma admit_keeps : K (admitPasswordWork sv).
Proof. unfold admitPasswordWork. keeps_go. Qed.
Lemma dummy_keeps p : K (runDummyPasswordVerification sv p).
Proof. unfold runDummyPasswordVerification. keeps_go. Qed.
Lemma hash_password_keeps p : K (hash_password p).
Proof. unfold hash_password. keeps_go. Qed.
Lemma random_token_keeps : K random_token.
Proof. unfold random_token. keeps_go. Qed.
Lemma can_authenticate_keeps u : K (ensureAggregateCanAuthenticate u).
Proof. unfold ensureAggregateCanAuthenticate. keeps_go. Qed.
Hint Resolve admit_keeps dummy_keeps hash_password_keeps random_token_keeps can_authenticate_keeps : prog.
Lemma reject_keeps u : K (rejectInactiveOrLocked u).
Proof. unfold rejectInactiveOrLocked. keeps_go. Qed.
Lemma reset_lock_keeps u : K (resetExpiredLockState u).
Proof. unfold resetExpiredLockState. keeps_go. Qed.
Lemma recordFailed_keeps u : K (recordFailedLogin sv u).
Proof. unfold recordFailedLogin. keeps_go. Qed.
Lemma bootstrap_user_keeps t : K (ensureBootstrapUser t).
Proof. unfold ensureBootstrapUser. keeps_go. Qed.
Hint Resolve reject_keeps reset_lock_keeps recordFailed_keeps bootstrap_user_keeps : prog.
Lemma login_keeps i : K (Login sv i).
Proof. unfold Login. keeps_go. Qed.
Lemma currentUser_keeps t : K (CurrentUser sv t).
Proof. unfold CurrentUser. keeps_go. Qed.
Lemma logout_keeps t : K (Logout sv t).
Proof. unfold Logout. keeps_go. Qed.
Lemma change_password_keeps i : K (ChangePassword sv i).
Proof. unfold ChangePassword. keeps_go. Qed.
Lemma create_reset_keeps i : K (CreatePasswordResetToken sv i).
Proof. unfold CreatePasswordResetToken. keeps_go. Qed.
Lemma complete_reset_keeps i : K (CompletePasswordReset sv i).
Proof. unfold CompletePasswordReset. keeps_go. Qed.
Hint Resolve login_keeps currentUser_keeps logout_keeps change_password_keeps create_reset_keeps complete_reset_keeps : prog.

Lemma require_keeps actor key : K (RequirePermission actor key).
Proof. unfold RequirePermission. keeps_go. Qed.
Lemma validate_role_keeps actor r : K (validateAdminRoleID actor r).
Proof. unfold validateAdminRoleID. keeps_go. Qed.
Hint Resolve require_keeps validate_role_keeps : prog.
Lemma validate_roles_keeps actor l out : K (validate_roles actor l out).
Proof. revert out. induction l as [|r l IH]; intros out; simpl; [keeps_go|]. keeps_step; [by apply validate_role_keeps|]. apply IH. Qed.
Lemma role_by_id_keeps r : K (roleByID r).
Proof. unfold roleByID. keeps_go. Qed.
Lemma normalize_keys_keeps l : K (normalizeAdminRolePermissionKeys l).
Proof. unfold normalizeAdminRolePermissionKeys. keeps_go. Qed.
Lemma not_last_keeps : K ensureNotLastActiveSuperAdmin.
Proof. unfold ensureNotLastActiveSuperAdmin. keeps_go. Qed.
Hint Resolve role_by_id_keeps normalize_keys_keeps not_last_keeps : prog.
Lemma can_change_keeps actor t st : K (canChangeAdminUserStatus actor t st).
Proof. unfold canChangeAdminUserStatus. keeps_go. Qed.
Lemma assign_all_keeps id l by_ : K (assign_all id l by_).
Proof. induction l as [|r l IH]; simpl; keeps_go. Qed.
Lemma set_name_keeps f v g p : K (set_name f v g p).
Proof. unfold set_name. keeps_go. Qed.
Lemma list_admin_roles_keeps l : K (list_admin_roles l).
Proof. induction l as [|r l IH]; simpl; keeps_go. Qed.
Hint Resolve can_change_keeps assign_all_keeps set_name_keeps list_admin_roles_keeps : prog.


(** Operations that only use basic transactions. *)
Definition basic_op (op : AuthOp) : Prop :=
  match op with OpBootstrap | OpUpdateAdminUser _ _ | OpSetAdminUserStatus _ _ | OpRemoveAdminUserRole _ _ => False | _ => True end.
Lemma basic_ops_keep op : basic_op op → K (run_op sv op).
Proof.
  destruct op; intros []; unfold run_op, discard, ValidateAuthenticatedCSRF, ValidateCSRF, CreateAdminUser, validateAdminRoleIDs, GetAdminUser,
    AssignAdminUserRole, CreateAdminPasswordResetToken, ListAdminRoles, UpdateAdminRolePermissions, ListAdminPermissions;
  keeps_go; by apply validate_roles_keeps.
Qed.
End basic_ops_keep.

#[export] Hint Resolve appendAuditLog_keeps bootstrap_user_keeps require_keeps validate_role_keeps not_last_keeps can_change_keeps set_name_keeps : prog.

Section ops_keep.
Context `{!Externals} (sv : AuthService) (e : Env) (G : AuthDB → AuthDB → Prop) (Inv : AuthDB → Prop) `{!RepoKeeps G Inv} (stable_Inv : stable e Inv).
Local Abbreviation K m := (keeps e G Inv m (λ _, True)) (only parsing).

Lemma bootstrap_keeps : K EnsureBootstrapSuperAdmin.
Proof. unfold EnsureBootstrapSuperAdmin. keeps_go. Qed.
Lemma update_admin_keeps c u : K (updateAdminUser c u).
Proof. unfold updateAdminUser. keeps_go. Qed.
Lemma remove_admin_role_keeps t r : K (removeAdminUserRole t r).
Proof. unfold removeAdminUserRole. keeps_go. Qed.
Hint Resolve bootstrap_keeps update_admin_keeps remove_admin_role_keeps : prog.

(** Every operation respects what the transactions respect, in every environment whose other work keeps the invariant. *)
Lemma ops_keep op : K (run_op sv op).
Proof.
  destruct op; try (by apply (basic_ops_keep sv e G Inv)); unfold run_op, discard, UpdateAdminUser, SetAdminUserStatus, RemoveAdminUserRole; keeps_go.
Qed.
End ops_keep.
