(* ===== verification/AuthTables.v ===== *)
(** * The authentication tables stay consistent

    The schema's constraints as an invariant of the tables, the history every row respects, and
    that every transaction of the repository respects both. *)

From S2P Require Import Prelude GoLib GoText AuthRepo AuthService AuthAdmin AuthLogic.

#[local] Arguments unique_user : simpl never.
#[local] Arguments known_user : simpl never.
#[local] Arguments valid_status : simpl never.
#[local] Arguments role_exists : simpl never.

(** ** Constraints *)

Definition known (users : gmap UUID User) (o : option UUID) : Prop := ∀ id, o = Some id → is_Some (users !! id).

Definition user_ok (users : gmap UUID User) (id : UUID) (u : User) : Prop :=
  us_ID u = id ∧ valid_status (us_Status u) = true ∧ known users (us_CreatedBy u) ∧ known users (us_UpdatedBy u).

(** No two rows share an identifier that is not empty. *)
Definition distinct {A} (key : A → string) (m : gmap UUID A) : Prop :=
  ∀ i j a b, m !! i = Some a → m !! j = Some b → key a ≠ ""%string → key a = key b → i = j.

Record WF (db : AuthDB) : Prop := {
  wf_users : map_Forall (user_ok (db_users db)) (db_users db);
  wf_usernames : distinct us_UsernameNormalized (db_users db);
  wf_emails : distinct us_EmailNormalized (db_users db);
  wf_roles : NoDup (role_ID <$> db_roles db) ∧ NoDup (role_Name <$> db_roles db);
  wf_permissions : NoDup (perm_ID <$> db_permissions db) ∧ NoDup (perm_Key <$> db_permissions db);
  wf_userRoles id r : (id, r) ∈ db_userRoles db → is_Some (db_users db !! id) ∧ role_exists db r = true;
  wf_rolePermissions r p : (r, p) ∈ db_rolePermissions db → role_exists db r = true ∧ p ∈ perm_ID <$> db_permissions db;
  wf_sessions : map_Forall (λ id s, se_ID s = id ∧ is_Some (db_users db !! se_UserID s)) (db_sessions db);
  wf_session_tokens : distinct se_TokenHash (db_sessions db);
  wf_resets : map_Forall (λ id t, pr_ID t = id ∧ is_Some (db_users db !! pr_UserID t) ∧ known (db_users db) (pr_CreatedBy t)) (db_resets db);
  wf_reset_tokens : distinct pr_TokenHash (db_resets db);
  wf_audit : Forall (λ l, known (db_users db) (al_ActorUserID l) ∧ known (db_users db) (al_TargetUserID l)) (db_audit db);
  wf_audit_ids : NoDup (al_ID <$> db_audit db) }.

(** ** History *)

(** What a row of a session or reset token may become: it keeps its identity, and revocation and use are final. *)
Definition session_follows (s s' : AuthSession) : Prop :=
  se_ID s' = se_ID s ∧ se_UserID s' = se_UserID s ∧ se_TokenHash s' = se_TokenHash s ∧ se_CSRFTokenHash s' = se_CSRFTokenHash s ∧
  se_CreatedAt s' = se_CreatedAt s ∧ se_ExpiresAt s' = se_ExpiresAt s ∧ (is_Some (se_RevokedAt s) → is_Some (se_RevokedAt s')).
Definition reset_follows (t t' : PasswordResetToken) : Prop :=
  pr_ID t' = pr_ID t ∧ pr_UserID t' = pr_UserID t ∧ pr_TokenHash t' = pr_TokenHash t ∧ pr_CreatedAt t' = pr_CreatedAt t ∧
  pr_ExpiresAt t' = pr_ExpiresAt t ∧ pr_CreatedBy t' = pr_CreatedBy t ∧ (is_Some (pr_UsedAt t) → is_Some (pr_UsedAt t')).
Definition user_follows (u u' : User) : Prop := us_ID u' = us_ID u ∧ us_CreatedAt u' = us_CreatedAt u ∧ us_CreatedBy u' = us_CreatedBy u.

Definition rows_follow {A} (R : A → A → Prop) (m m' : gmap UUID A) : Prop := ∀ id a, m !! id = Some a → ∃ a', m' !! id = Some a' ∧ R a a'.

Record history (db db' : AuthDB) : Prop := {
  hi_users : rows_follow user_follows (db_users db) (db_users db');
  hi_sessions : rows_follow session_follows (db_sessions db) (db_sessions db');
  hi_resets : rows_follow reset_follows (db_resets db) (db_resets db');
  hi_roles : db_roles db' = db_roles db;
  hi_permissions : db_permissions db' = db_permissions db;
  hi_audit : db_audit db `prefix_of` db_audit db' }.

#[export] Instance session_follows_order : PreOrder session_follows.
Proof. split; [done|]. intros a b c. unfold session_follows. naive_solver congruence. Qed.
#[export] Instance reset_follows_order : PreOrder reset_follows.
Proof. split; [done|]. intros a b c. unfold reset_follows. naive_solver congruence. Qed.
#[export] Instance user_follows_order : PreOrder user_follows.
Proof. split; [done|]. intros a b c. unfold user_follows. naive_solver congruence. Qed.
#[export] Instance rows_follow_order {A} (R : A → A → Prop) `{!PreOrder R} : PreOrder (rows_follow R).
Proof.
  split; [intros m id a Ha; by exists a|]. intros m1 m2 m3 H12 H23 id a Ha.
  destruct (H12 id a Ha) as (b & Hb & Hab). destruct (H23 id b Hb) as (c & Hc & Hbc). exists c. split; [done|by etrans].
Qed.
#[export] Instance history_order : PreOrder history.
Proof. split; [intros db; by split|]. intros x y z [] []. split; [by etrans..|congruence|congruence|by etrans]. Qed.

(** ** Rows *)

Lemma rows_insert {A} (R : A → A → Prop) `{!PreOrder R} m id a : (∀ b, m !! id = Some b → R b a) → rows_follow R m (<[id := a]> m).
Proof.
  intros H j b Hb. destruct (decide (j = id)) as [->|]; [exists a; rewrite lookup_insert_eq; by auto|].
  exists b. by rewrite lookup_insert_ne.
Qed.
Lemma rows_map {A} (R : A → A → Prop) (f : A → A) m : (∀ a, R a (f a)) → rows_follow R m (f <$> m).
Proof. intros H id a Ha. exists (f a). by rewrite lookup_fmap, Ha. Qed.

Lemma known_insert users id u o : known users o → known (<[id := u]> users) o.
Proof. intros H j Hj. destruct (decide (j = id)) as [->|]; [rewrite lookup_insert_eq; by eauto|]. rewrite lookup_insert_ne by done. by apply H. Qed.
Lemma known_userP users o : known_user users o = true ↔ known users o.
Proof.
  unfold known_user, known. destruct o as [id|]; [rewrite bool_decide_eq_true; naive_solver|]. by split.
Qed.
Lemma is_Some_insert {A} (m : gmap UUID A) i j a : is_Some (m !! j) → is_Some (<[i := a]> m !! j).
Proof. destruct (decide (i = j)) as [->|]; [rewrite lookup_insert_eq; by eauto|by rewrite lookup_insert_ne]. Qed.

Lemma elem_of_values {A} (m : gmap UUID A) a : a ∈ values m ↔ ∃ id, m !! id = Some a.
Proof.
  unfold values. rewrite list_elem_of_fmap. split; [intros ([id b] & -> & Hb%elem_of_map_to_list); by exists id|].
  intros [id Ha]. exists (id, a). split; [done|]. by apply elem_of_map_to_list.
Qed.
Lemma first_spec {A} (P : A → bool) (m : gmap UUID A) a : first P m = Some a → (∃ id, m !! id = Some a) ∧ P a = true.
Proof.
  unfold first. destruct (list_find _ _) as [[i b]|] eqn:E; [|done]. apply list_find_Some in E as (E & HP & _). simpl. intros [= <-].
  split; [|done]. apply elem_of_values. by eapply list_elem_of_lookup_2.
Qed.
Lemma first_None {A} (P : A → bool) (m : gmap UUID A) : first P m = None → ∀ id a, m !! id = Some a → P a = false.
Proof.
  unfold first. destruct (list_find _ _) as [[i b]|] eqn:E; [done|]. intros _ id a Ha.
  eapply list_find_None, Forall_forall in E; [|apply elem_of_values; by exists id]. by apply not_true_is_false.
Qed.
Lemma existsb_values {A} (f : A → bool) (m : gmap UUID A) : existsb f (values m) = false ↔ ∀ id a, m !! id = Some a → f a = false.
Proof.
  rewrite <- not_true_iff_false, existsb_exists. split.
  - intros H id a Ha. apply not_true_is_false. intros Hf. apply H. exists a. split; [|done]. apply list_elem_of_In, elem_of_values. by eauto.
  - intros H (a & Hin & Hf). apply list_elem_of_In, elem_of_values in Hin as [id Ha]. by rewrite (H id a Ha) in Hf.
Qed.

(** A row with a fresh key, or with the key of the row it replaces. *)
Lemma distinct_insert {A} (key : A → string) (m : gmap UUID A) id a :
  distinct key m → (∀ j b, m !! j = Some b → j ≠ id → key a ≠ ""%string → key b ≠ key a) → distinct key (<[id := a]> m).
Proof.
  intros Hd Hn i j x y. destruct (decide (i = id)) as [->|Hi], (decide (j = id)) as [->|Hj];
    rewrite ?lookup_insert_eq, ?lookup_insert_ne by done; intros Hx Hy Hk E; simplify_eq; try done.
  - destruct (Hn j y Hy Hj Hk). done.
  - exfalso. apply (Hn i x Hx Hi); [congruence|done].
  - by eapply Hd.
Qed.
Lemma distinct_update {A} (key : A → string) (m : gmap UUID A) id a b :
  distinct key m → m !! id = Some b → key a = key b → distinct key (<[id := a]> m).
Proof. intros Hd Hb E. apply distinct_insert; [done|]. intros j c Hc Hj Hk Ec. apply Hj. eapply Hd; [exact Hc|exact Hb|congruence|congruence]. Qed.
Lemma distinct_map {A} (key : A → string) (f : A → A) (m : gmap UUID A) : (∀ a, key (f a) = key a) → distinct key m → distinct key (f <$> m).
Proof.
  intros Hf Hd i j a b. rewrite !lookup_fmap, !fmap_Some. intros (x & Hx & ->) (y & Hy & ->). rewrite !Hf. by apply Hd.
Qed.

Lemma unique_userP db u :
  unique_user db u = true →
  (∀ j v, db_users db !! j = Some v → us_ID v ≠ us_ID u → us_UsernameNormalized u ≠ ""%string → us_UsernameNormalized v ≠ us_UsernameNormalized u) ∧
  (∀ j v, db_users db !! j = Some v → us_ID v ≠ us_ID u → us_EmailNormalized u ≠ ""%string → us_EmailNormalized v ≠ us_EmailNormalized u).
Proof.
  unfold unique_user. rewrite forallb_forall. intros H.
  assert (H' : ∀ j v, db_users db !! j = Some v → us_ID v ≠ us_ID u →
    (us_UsernameNormalized u ≠ ""%string → us_UsernameNormalized v ≠ us_UsernameNormalized u) ∧
    (us_EmailNormalized u ≠ ""%string → us_EmailNormalized v ≠ us_EmailNormalized u)).
  { intros j v Hv Hn. specialize (H v). rewrite <- list_elem_of_In, elem_of_values in H. specialize (H (ex_intro _ j Hv)).
    destruct (Z.eqb_spec (us_ID v) (us_ID u)); [done|]. simpl in H. apply andb_prop in H as [H1 H2].
    destruct (String.eqb_spec (us_UsernameNormalized u) ""), (String.eqb_spec (us_UsernameNormalized v) (us_UsernameNormalized u)),
      (String.eqb_spec (us_EmailNormalized u) ""), (String.eqb_spec (us_EmailNormalized v) (us_EmailNormalized u)); done. }
  split; intros j v Hv Hn; by apply (H' j v).
Qed.

(** ** Changes of one table *)

Definition good (db db' : AuthDB) : Prop := history db db' ∧ WF db'.

Lemma good_refl db : WF db → good db db.
Proof. by split. Qed.
Lemma good_trans db1 db2 db3 : good db1 db2 → (WF db2 → good db2 db3) → good db1 db3.
Proof. intros [H12 W2] H. destruct (H W2) as [H23 W3]. split; [by etrans|done]. Qed.

Lemma rows_Some {A} (R : A → A → Prop) m m' id : rows_follow R m m' → is_Some (m !! id) → is_Some (m' !! id).
Proof. intros H [a Ha]. destruct (H id a Ha) as (b & Hb & _). by exists b. Qed.
Lemma rows_known (R : User → User → Prop) m m' o : rows_follow R m m' → known m o → known m' o.
Proof. intros H Hk id Hid. eapply rows_Some; [exact H|by apply Hk]. Qed.

Lemma good_users db users :
  WF db → map_Forall (user_ok users) users → distinct us_UsernameNormalized users → distinct us_EmailNormalized users →
  rows_follow user_follows (db_users db) users → good db (db <| db_users := users |>).
Proof.
  intros [] Hu Hn He Hf. split; [by split|]. split; simpl; try done.
  - intros id r Hr. destruct (wf_userRoles0 id r Hr). split; [by eapply rows_Some|done].
  - eapply map_Forall_impl; [exact wf_sessions0|]. intros id s [? ?]. split; [done|by eapply rows_Some].
  - eapply map_Forall_impl; [exact wf_resets0|]. intros id t (? & ? & ?). split_and!; [done|by eapply rows_Some|by eapply rows_known].
  - eapply Forall_impl; [exact wf_audit0|]. intros l [? ?]. split; by eapply rows_known.
Qed.

(** A row is added or replaced. *)
Lemma good_user db id u :
  WF db → user_ok (<[id := u]> (db_users db)) id u → (∀ old, db_users db !! id = Some old → user_follows old u) →
  distinct us_UsernameNormalized (<[id := u]> (db_users db)) → distinct us_EmailNormalized (<[id := u]> (db_users db)) →
  good db (db <| db_users := <[id := u]> (db_users db) |>).
Proof.
  intros W Hok Hold Hn He. apply good_users; [done| |done|done|apply rows_insert; [apply _|done]].
  apply map_Forall_lookup. intros j v. destruct (decide (j = id)) as [->|Hj]; [rewrite lookup_insert_eq; by intros [= <-]|].
  rewrite lookup_insert_ne by done. intros Hv. destruct (wf_users _ W j v Hv) as (? & ? & ? & ?). split_and!; [done|done|by apply known_insert..].
Qed.

(** The login columns of a row change. *)
Lemma good_row db id old u :
  WF db → db_users db !! id = Some old → user_follows old u → us_UsernameNormalized u = us_UsernameNormalized old →
  us_EmailNormalized u = us_EmailNormalized old → us_Status u = us_Status old → us_UpdatedBy u = us_UpdatedBy old →
  good db (db <| db_users := <[id := u]> (db_users db) |>).
Proof.
  intros W Hold Hf En Ee Es Eu. destruct (wf_users _ W id old Hold) as (Hid & Hv & Hc & Hu). destruct Hf as (Hi & Hca & Hcb).
  apply good_user; [done| | | |].
  - split_and!; [congruence|by rewrite Es|rewrite Hcb; by apply known_insert|rewrite Eu; by apply known_insert].
  - intros o Ho. rewrite Hold in Ho. by simplify_eq.
  - eapply distinct_update; [apply W|exact Hold|done].
  - eapply distinct_update; [apply W|exact Hold|done].
Qed.

Lemma good_sessions db sessions :
  WF db → map_Forall (λ id s, se_ID s = id ∧ is_Some (db_users db !! se_UserID s)) sessions → distinct se_TokenHash sessions →
  rows_follow session_follows (db_sessions db) sessions → good db (db <| db_sessions := sessions |>).
Proof. intros [] Hs Hd Hf. split; by split. Qed.
Lemma good_session db id old s : WF db → db_sessions db !! id = Some old → session_follows old s → good db (db <| db_sessions := <[id := s]> (db_sessions db) |>).
Proof.
  intros W Hold Hf. destruct (wf_sessions _ W id old Hold) as [Hi Hu]. pose proof Hf as (Ei & Eu & Et & _). apply good_sessions; [done| | |].
  - apply map_Forall_insert_2; [|apply W]. split; [congruence|by rewrite Eu].
  - eapply distinct_update; [apply W|exact Hold|done].
  - apply rows_insert; [apply _|]. intros b Hb. rewrite Hold in Hb. by simplify_eq.
Qed.
Lemma good_sessions_map db f : WF db → (∀ s, session_follows s (f s)) → good db (db <| db_sessions := f <$> db_sessions db |>).
Proof.
  intros W Hf. apply good_sessions; [done| | |by apply rows_map].
  - intros id s. rewrite lookup_fmap, fmap_Some. intros (s0 & Hs & ->). destruct (Hf s0) as (Ei & Eu & _). rewrite Ei, Eu. by apply (wf_sessions _ W id s0).
  - apply distinct_map; [|apply W]. intros s. apply (Hf s).
Qed.

Lemma good_resets db resets :
  WF db → map_Forall (λ id t, pr_ID t = id ∧ is_Some (db_users db !! pr_UserID t) ∧ known (db_users db) (pr_CreatedBy t)) resets →
  distinct pr_TokenHash resets → rows_follow reset_follows (db_resets db) resets → good db (db <| db_resets := resets |>).
Proof. intros [] Hs Hd Hf. split; by split. Qed.
Lemma good_reset db id old t : WF db → db_resets db !! id = Some old → reset_follows old t → good db (db <| db_resets := <[id := t]> (db_resets db) |>).
Proof.
  intros W Hold Hf. destruct (wf_resets _ W id old Hold) as (Hi & Hu & Hc). pose proof Hf as (Ei & Eu & Et & _ & _ & Ec & _). apply good_resets; [done| | |].
  - apply map_Forall_insert_2; [|apply W]. split_and!; [congruence|by rewrite Eu|by rewrite Ec].
  - eapply distinct_update; [apply W|exact Hold|done].
  - apply rows_insert; [apply _|]. intros b Hb. rewrite Hold in Hb. by simplify_eq.
Qed.

Lemma good_insert_audit log db db' : WF db → insert_audit log db = Some db' → good db db'.
Proof.
  intros W. unfold insert_audit. case_match eqn:E; [done|]. intros [= <-]. apply orb_false_elim in E as [Hid E]. apply negb_false_iff, andb_prop in E as [Ha Ht].
  apply known_userP in Ha, Ht. destruct W. split; [split; simpl; try done; by apply prefix_app_r|]. split; simpl; try done.
  - apply Forall_app. split; [done|]. by apply Forall_singleton.
  - rewrite fmap_app. apply NoDup_app. split_and!; [done| |apply NoDup_singleton].
    intros x Hx ->%list_elem_of_singleton. apply list_elem_of_fmap in Hx as (l & El & Hl). apply not_true_iff_false in Hid. apply Hid.
    apply existsb_exists. exists l. split; [by apply list_elem_of_In|]. rewrite El. apply Z.eqb_refl.
Qed.

(** An audit row changes nothing else. *)
Lemma insert_audit_only log db db' : insert_audit log db = Some db' → db' = db <| db_audit := db_audit db ++ [log] |>.
Proof. unfold insert_audit. case_match; [done|]. by intros [= <-]. Qed.

(** ** Transactions *)

Lemma CreateUser_good clock fresh u db : WF db → good db (CreateUser clock fresh u db).1.
Proof.
  intros W. unfold CreateUser. set (u1 := u <| us_ID := _ |>). set (u2 := u1 <| us_CreatedAt := _ |>). set (u3 := if Time_IsZero _ then _ else _).
  set (u4 := if String.eqb _ _ then _ else _). simpl. case_match eqn:E; [by apply good_refl|]. simpl.
  apply orb_false_elim in E as [E Ek]. apply orb_false_elim in E as [E Eu]. apply orb_false_elim in E as [En Es].
  apply bool_decide_eq_false, eq_None_not_Some in En. apply negb_false_iff in Es, Eu, Ek. apply andb_prop in Ek as [Kc Ku]. apply known_userP in Kc, Ku.
  destruct (unique_userP _ _ Eu) as [Hn He].
  assert (Hids : ∀ j v, db_users db !! j = Some v → j ≠ us_ID u4 → us_ID v ≠ us_ID u4).
  { intros j v Hv Hj. destruct (wf_users _ W j v Hv) as (-> & _). done. }
  apply good_user; [done|by split_and!|intros old Ho; congruence| |].
  - apply distinct_insert; [apply W|]. intros j v Hv Hj Hk. by apply (Hn j); [|apply (Hids j)|].
  - apply distinct_insert; [apply W|]. intros j v Hv Hj Hk. by apply (He j); [|apply (Hids j)|].
Qed.

Lemma UpdateUser_good clock u db : WF db → good db (UpdateUser clock u db).1.
Proof.
  intros W. unfold UpdateUser. set (u1 := u <| us_UpdatedAt := _ |>). simpl. destruct (db_users db !! us_ID u) as [old|] eqn:Hold; [|by apply good_refl].
  case_match eqn:E; [by apply good_refl|]. simpl. apply orb_false_elim in E as [E Ek]. apply orb_false_elim in E as [Es Eu].
  apply negb_false_iff in Es, Eu, Ek. apply known_userP in Ek. destruct (unique_userP _ _ Eu) as [Hn He]. destruct (wf_users _ W _ old Hold) as (Hi & _ & Hc & _).
  assert (Hids : ∀ j v, db_users db !! j = Some v → j ≠ us_ID u → us_ID v ≠ us_ID u).
  { intros j v Hv Hj. destruct (wf_users _ W j v Hv) as (-> & _). done. }
  apply good_user; [done| | | |].
  - split_and!; [done|done|by apply known_insert..].
  - intros o Ho. rewrite Hold in Ho. simplify_eq. by split_and!.
  - apply distinct_insert; [apply W|]. intros j v Hv Hj Hk. by apply (Hn j); [|apply (Hids j)|].
  - apply distinct_insert; [apply W|]. intros j v Hv Hj Hk. by apply (He j); [|apply (Hids j)|].
Qed.

Lemma grants_good db grants :
  WF db → (∀ id r, (id, r) ∈ grants → is_Some (db_users db !! id) ∧ role_exists db r = true) → good db (db <| db_userRoles := grants |>).
Proof. intros [] Hg. split; by split. Qed.

Lemma AssignRole_good id r by_ db : WF db → good db (AssignRole id r by_ db).1.
Proof.
  intros W. unfold AssignRole. case_match eqn:E; [|by apply good_refl]. apply andb_prop in E as [E _]. apply andb_prop in E as [Ei Er].
  apply grants_good; [done|]. intros j s. rewrite elem_of_union, elem_of_singleton. intros [[= -> ->]|Hin]; [|by apply W].
  apply known_userP in Ei. split; [by apply Ei|done].
Qed.
Lemma RemoveRole_good id r db : WF db → good db (RemoveRole id r db).1.
Proof. intros W. apply grants_good; [done|]. intros j s [Hin _]%elem_of_difference. by apply W. Qed.

Lemma permission_ids_known db keys ids : permission_ids db keys = Some ids → ∀ p, p ∈ ids → p ∈ perm_ID <$> db_permissions db.
Proof.
  revert ids. induction keys as [|key keys IH]; simpl; [intros ids [= <-] p Hp; by apply not_elem_of_nil in Hp|]. intros ids.
  destruct (list_find _ _) as [[i q]|] eqn:Eq; [|done]. simpl. destruct (permission_ids db keys) as [ids'|]; [|done]. intros [= <-] p.
  rewrite elem_of_cons. intros [->|Hp]; [|by eapply IH]. apply list_find_Some in Eq as (Hl & _). apply list_elem_of_fmap_2. by eapply list_elem_of_lookup_2.
Qed.
Lemma ReplaceRolePermissions_good r keys db : WF db → good db (ReplaceRolePermissions r keys db).1.
Proof.
  intros W. unfold ReplaceRolePermissions. destruct (role_exists db r) eqn:Er; [|by apply good_refl]. simpl.
  destruct (permission_ids db keys) as [ids|] eqn:Ei; [|by apply good_refl]. simpl. pose proof (permission_ids_known _ _ _ Ei) as Hk.
  pose proof W as []. split; [by split|]. split; simpl; try done. intros s p [Hin|Hin]%elem_of_union.
  - apply elem_of_filter in Hin as [_ Hin]. by apply wf_rolePermissions0.
  - apply elem_of_list_to_set, list_elem_of_fmap in Hin as (q & [= -> ->] & Hq). split; [done|by apply Hk].
Qed.

Lemma RecordSuccessfulLogin_good id h t db : WF db → good db (RecordSuccessfulLogin id h t db).1.
Proof.
  intros W. unfold RecordSuccessfulLogin. destruct (db_users db !! id) as [u|] eqn:Hu; [|by apply good_refl]. case_match; [|by apply good_refl].
  by eapply good_row.
Qed.
Lemma RecordFailedLogin_good id h t n l db : WF db → good db (RecordFailedLogin id h t n l db).1.
Proof.
  intros W. unfold RecordFailedLogin. destruct (db_users db !! id) as [u|] eqn:Hu; [|by apply good_refl]. case_match; [|by apply good_refl].
  by eapply good_row.
Qed.

Lemma CreateSession_good clock fresh s db : WF db → good db (CreateSession clock fresh s db).1.
Proof.
  intros W. unfold CreateSession. set (s1 := s <| se_ID := _ |> <| se_CreatedAt := _ |>). case_match eqn:E; [by apply good_refl|]. simpl.
  apply orb_false_elim in E as [E Et]. apply orb_false_elim in E as [En Eu]. apply bool_decide_eq_false, eq_None_not_Some in En.
  apply negb_false_iff, known_userP in Eu. pose proof (proj1 (existsb_values _ _) Et) as Hd. apply good_sessions; [done| | |].
  - apply map_Forall_insert_2; [|apply W]. split; [done|by apply Eu].
  - apply distinct_insert; [apply W|]. intros j b Hb _ _. specialize (Hd j b Hb). by apply String.eqb_neq in Hd.
  - apply rows_insert; [apply _|]. intros b Hb. by pose proof (eq_trans (eq_sym En) Hb).
Qed.
Lemma RevokeSession_good id t db : WF db → good db (RevokeSession id t db).1.
Proof.
  intros W. unfold RevokeSession. destruct (db_sessions db !! id) as [s|] eqn:Hs; [|by apply good_refl]. eapply good_session; [done|done|].
  by split_and!.
Qed.
Lemma TouchSessionIfStale_good id t d db : WF db → good db (TouchSessionIfStale id t d db).1.
Proof.
  intros W. unfold TouchSessionIfStale. destruct (db_sessions db !! id) as [s|] eqn:Hs; [|by apply good_refl]. simpl. case_match; [|by apply good_refl].
  by eapply good_session.
Qed.

Lemma revoke_others_follows id x t s : session_follows s (revoke_others id x t s).
Proof. unfold revoke_others. case_match; [|done]. by split_and!. Qed.
Lemma revoke_all_follows id t s : session_follows s (revoke_all id t s).
Proof. unfold revoke_all. case_match; [|done]. by split_and!. Qed.

Lemma ChangeUserPassword_good id h h' x t a db : WF db → good db (ChangeUserPassword id h h' x t a db).1.
Proof.
  intros W. unfold ChangeUserPassword. destruct (db_users db !! id) as [u|] eqn:Hu; [|by apply good_refl]. case_match; [|by apply good_refl].
  destruct (insert_audit _ _) as [db'|] eqn:Ea; [|by apply good_refl]. simpl.
  eapply (good_trans _ (db <| db_users := <[id := with_password h' t u]> (db_users db) |>)); [by eapply good_row|intros W1].
  eapply good_trans; [exact (good_sessions_map _ (revoke_others id x t) W1 (revoke_others_follows id x t))|intros W2]. by eapply good_insert_audit.
Qed.

Lemma CreateResetToken_good clock fresh r db : WF db → good db (CreateResetToken clock fresh r db).1.
Proof.
  intros W. unfold CreateResetToken. set (r1 := r <| pr_ID := _ |> <| pr_CreatedAt := _ |>). case_match eqn:E; [by apply good_refl|]. simpl.
  apply orb_false_elim in E as [E Et]. apply orb_false_elim in E as [E Ec]. apply orb_false_elim in E as [En Eu]. apply bool_decide_eq_false, eq_None_not_Some in En.
  apply negb_false_iff, known_userP in Eu, Ec. pose proof (proj1 (existsb_values _ _) Et) as Hd. apply good_resets; [done| | |].
  - apply map_Forall_insert_2; [|apply W]. split_and!; [done|by apply Eu|done].
  - apply distinct_insert; [apply W|]. intros j b Hb _ _. specialize (Hd j b Hb). by apply String.eqb_neq in Hd.
  - apply rows_insert; [apply _|]. intros b Hb. by pose proof (eq_trans (eq_sym En) Hb).
Qed.

(** The token found by its hash is the row of its identifier. *)
Lemma reset_by_hash_row db h t : WF db → reset_by_hash db h = Some t → db_resets db !! pr_ID t = Some t ∧ pr_TokenHash t = h.
Proof.
  intros W Ht. apply first_spec in Ht as [[id Hid] Eh]. destruct (wf_resets _ W id t Hid) as (Hi & _). rewrite Hi. split; [done|]. by apply String.eqb_eq.
Qed.
Lemma CompleteReset_good h p t db : WF db → good db (CompleteReset h p t db).1.
Proof.
  intros W. unfold CompleteReset. destruct (reset_by_hash db h) as [r|] eqn:Hr; [|by apply good_refl]. case_match; [by apply good_refl|].
  destruct (db_users db !! pr_UserID r) as [u|] eqn:Hu; [|by apply good_refl]. simpl. apply reset_by_hash_row in Hr as [Hr _]; [|done].
  eapply (good_trans _ (db <| db_users := <[pr_UserID r := with_password p t u]> (db_users db) |>)); [by eapply good_row|intros W1].
  eapply good_trans; [eapply (good_reset _ _ r (r <| pr_UsedAt := Some t |>)); [done|exact Hr|by split_and!]|intros W2].
  exact (good_sessions_map _ (revoke_all (pr_UserID r) t) W2 (revoke_all_follows (pr_UserID r) t)).
Qed.
Lemma AppendAuditLog_good clock fresh l db : WF db → good db (AppendAuditLog clock fresh l db).1.
Proof. intros W. unfold AppendAuditLog. destruct (insert_audit _ _) as [db'|] eqn:E; [by eapply good_insert_audit|by apply good_refl]. Qed.

#[export] Instance repo_keeps_tables : RepoKeeps history WF.
Proof.
  assert (K : ∀ A (f : Tx A), (∀ db, WF db → good db (f db).1) → tx_keeps history WF f (λ _, True)).
  { intros A f H db W. destruct (H db W). done. }
  split; [split; [done|..]|..]; intros; apply K; intros db W;
    eauto using CreateUser_good, UpdateUser_good, AssignRole_good, RemoveRole_good, ReplaceRolePermissions_good, RecordSuccessfulLogin_good, RecordFailedLogin_good,
      CreateSession_good, RevokeSession_good, TouchSessionIfStale_good, ChangeUserPassword_good, CreateResetToken_good, CompleteReset_good, AppendAuditLog_good.
Qed.

(** A role that is assigned is seen on the aggregate. *)
Lemma HasRole_granted db u id roleID : WF db → db_users db !! id = Some u → (id, roleID) ∈ db_userRoles db → HasRole (aggregate db u) roleID = true.
Proof.
  intros W Hu Hin. destruct (wf_users _ W id u Hu) as (Eid & _). destruct (wf_userRoles _ W _ _ Hin) as [_ He].
  unfold role_exists in He. apply existsb_exists in He as (r & Hl & Er%String.eqb_eq). unfold HasRole, aggregate, user_roles. simpl. rewrite Eid.
  apply existsb_exists. exists r. split; [|rewrite Er; by rewrite String.eqb_refl]. apply list_elem_of_In, list_elem_of_filter. rewrite Er.
  split; [done|by apply list_elem_of_In].
Qed.
