(* ===== verification/AuthEscalation.v ===== *)
(** * Consistency and history of the authentication tables: theorems

    Over any sequence of operations, with any failures and with other work in between, the tables
    stay consistent and rows keep their history; a session that was ended stays ended; and an
    administrator cannot escalate. *)

From S2P Require Import Prelude GoLib GoText Password AuthRepo AuthService AuthAdmin AuthLogic AuthTables.

#[local] Arguments HashToken : simpl never.
#[local] Arguments TrimSpace : simpl never.

(** Other work respects constraints and history, as every transaction of the repository does. *)
Definition fair (e : Env) : Prop := ∀ n db, WF db → good db (ev_gap e n db).

(** The tables of a new instance. *)
Definition empty_db : AuthDB := mkDB ∅ [] [] ∅ ∅ ∅ ∅ [].
Definition seeded_db : AuthDB := seedAuthSystemRolesAndPermissions empty_db.

Lemma seeded_grants : forallb (λ g : string * string, role_exists seeded_db g.1 && bool_decide (g.2 ∈ perm_ID <$> db_permissions seeded_db))
  (elements (db_rolePermissions seeded_db)) = true.
Proof. vm_compute. reflexivity. Qed.
Lemma seeded_distinct : bool_decide (NoDup (role_ID <$> db_roles seeded_db)) && bool_decide (NoDup (role_Name <$> db_roles seeded_db))
  && bool_decide (NoDup (perm_ID <$> db_permissions seeded_db)) && bool_decide (NoDup (perm_Key <$> db_permissions seeded_db)) = true.
Proof. vm_compute. reflexivity. Qed.

Lemma distinct_empty {A} (key : A → string) : distinct key ∅.
Proof. intros i j a b Ha. by rewrite lookup_empty in Ha. Qed.

Lemma seeded_rest : db_users seeded_db = ∅ ∧ db_userRoles seeded_db = ∅ ∧ db_sessions seeded_db = ∅ ∧ db_resets seeded_db = ∅ ∧ db_audit seeded_db = [].
Proof. repeat split. Qed.

Lemma seeded_WF : WF seeded_db.
Proof.
  pose proof seeded_distinct as Hd. apply andb_prop in Hd as [Hd H4%bool_decide_eq_true]. apply andb_prop in Hd as [Hd H3%bool_decide_eq_true].
  apply andb_prop in Hd as [H1%bool_decide_eq_true H2%bool_decide_eq_true]. pose proof seeded_grants as Hg. rewrite forallb_forall in Hg.
  destruct seeded_rest as (Eu & Er & Es & Et & Ea). revert H1 H2 H3 H4 Hg Eu Er Es Et Ea. generalize seeded_db. intros db H1 H2 H3 H4 Hg Eu Er Es Et Ea.
  split; rewrite ?Eu, ?Er, ?Es, ?Et, ?Ea; try apply map_Forall_empty; try apply distinct_empty; try done; try apply NoDup_nil_2.
  intros r p Hin. specialize (Hg (r, p)). rewrite <- list_elem_of_In, elem_of_elements in Hg. specialize (Hg Hin).
  apply andb_prop in Hg as [? ?%bool_decide_eq_true]. done.
Qed.

(** Constraints and history since some tables. *)
#[export] Instance repo_keeps_since db0 : RepoKeeps history (good db0).
Proof.
  assert (K : ∀ A (f : Tx A), tx_keeps history WF f (λ _, True) → tx_keeps history (good db0) f (λ _, True)).
  { intros A f H db [Hh W]. destruct (H db W) as (Hs & W' & _). split_and!; [done| |done]. split; [by etrans|done]. }
  split; [split; [done|..]|..]; intros; apply K; apply _ || apply repo_keeps_tables.
Qed.

Lemma fair_stable e db0 : fair e → stable e (good db0).
Proof. intros Hf n db [Hh W]. destruct (Hf n db W) as [Hh' W']. split; [by etrans|done]. Qed.

Section theorems.
Context `{!Externals} (sv : AuthService).

Lemma run_ops_good db ops : WF db → Forall (λ p, fair p.1) ops → good db (run_ops sv db ops).
Proof.
  revert db. induction ops as [|[e op] ops IH]; intros db W; [by intros _; apply good_refl|]. intros [Hf Hfs]%Forall_cons. simpl in *.
  assert (good db (st_db (run_op sv op e (start db)).1)) as [Hh W'].
  { eapply (keeps_run e history (good db) (run_op sv op) (λ _, True) (start db)); [apply ops_keep; [apply _|by apply fair_stable]|by apply good_refl]. }
  eapply good_trans; [by split|]. intros _. by apply IH.
Qed.

(** ** Ended sessions *)

(** An operation that, when it succeeds, ends a session. *)
Definition ends (db : AuthDB) (op : AuthOp) (s : AuthSession) : Prop :=
  match op with
  | OpLogout token => se_TokenHash s = HashToken (TrimSpace token) (sv_sessionSecret sv)
  | OpChangePassword i => se_UserID s = pc_UserID i ∧ pc_CurrentSessionID i ≠ Some (se_ID s)
  | OpCompletePasswordReset i =>
      ∃ t, db_resets db !! pr_ID t = Some t ∧ pr_TokenHash t = HashToken (TrimSpace (px_Token i)) (sv_sessionSecret sv) ∧ pr_UserID t = se_UserID s
  | _ => False
  end.

Definition revoked_in (sid : UUID) (db : AuthDB) : Prop := ∃ s, db_sessions db !! sid = Some s ∧ is_Some (se_RevokedAt s).

Lemma HashToken_nonempty token secret : HashToken token secret ≠ ""%string.
Proof. done. Qed.

(** Lookups by the hash of a token find the row that is known to have it. *)
Lemma session_by_hash db0 db sid s : good db0 db → db_sessions db0 !! sid = Some s → ∀ token s',
  se_TokenHash s = HashToken token (sv_sessionSecret sv) → first (λ s, String.eqb (se_TokenHash s) (HashToken token (sv_sessionSecret sv))) (db_sessions db) = Some s' →
  db_sessions db !! sid = Some s' ∧ session_follows s s'.
Proof.
  intros [Hh W] Hs token s' Et Hf. apply first_spec in Hf as [[i Hi] Eh%String.eqb_eq]. destruct (hi_sessions _ _ Hh sid s Hs) as (s2 & Hs2 & Hfol).
  assert (i = sid) as ->; [|by rewrite Hs2 in Hi; simplify_eq].
  pose proof Hfol as (_ & _ & E2 & _). eapply (wf_session_tokens _ W); [exact Hi|exact Hs2|rewrite Eh; apply HashToken_nonempty|congruence].
Qed.

Lemma revoked_later sid db db' : history db db' → revoked_in sid db → revoked_in sid db'.
Proof. intros Hh (s & Hs & Hr). destruct (hi_sessions _ _ Hh sid s Hs) as (s' & Hs' & (_ & _ & _ & _ & _ & _ & Hk)). exists s'. by auto. Qed.

Section one_run.
Context (e : Env) (db : AuthDB) (sid : UUID) (s : AuthSession) (W : WF db) (Hs : db_sessions db !! sid = Some s) (Hfair : fair e).
Local Abbreviation Ends r db' := (good db db' ∧ (r = Val tt → revoked_in sid db')) (only parsing).
Let stab : stable e (good db) := fair_stable e db Hfair.

(** A transaction that revokes the session when it answers. *)
Lemma call_ends {A} (f : Tx A) :
  tx_keeps history WF f (λ _, True) → (∀ db' a, good db db' → (f db').2 = Val a → revoked_in sid (f db').1) →
  triple e history (good db) (call f) (λ r db', good db db' ∧ ∀ a, r = Val a → revoked_in sid db').
Proof.
  intros Hk Hr. apply triple_call; [done|by intros db' Hg|]. intros _ _ db' Hg. pose proof Hg as [Hh W']. destruct (Hk db' W') as (Hh' & W2 & _).
  assert (good db (f db').1) by (split; [by etrans|done]).
  split; [done|]. split; (split; [done|]); [intros a Ha; by eapply Hr|done].
Qed.

Ltac then_true := eapply (keeps_then _ _ _ _ _ (λ _, True)); [|intros ? _|by intros ? ? ?].
Ltac then_input := eapply keeps_then; [apply keeps_input|intros ? _|by intros ? ? ?].
Lemma Ends_fail : ∀ (err : AuthErr) (db' : AuthDB), good db db' → Ends (Fails err) db'.
Proof. done. Qed.

Lemma sid_of_row : se_ID s = sid.
Proof. by destruct (wf_sessions _ W sid s Hs). Qed.
(** The row at a later moment, before the transaction. *)
Lemma row_later db' : good db db' → ∃ s', db_sessions db' !! sid = Some s' ∧ session_follows s s' ∧ se_ID s' = sid.
Proof. intros [Hh W']. destruct (hi_sessions _ _ Hh sid s Hs) as (s' & Hs' & Hf). exists s'. split_and!; [done|done|]. by destruct (wf_sessions _ W' sid s' Hs'). Qed.

Lemma Logout_ends token : ends db (OpLogout token) s → triple e history (good db) (Logout sv token) (λ r db', Ends r db').
Proof.
  intros Et. unfold Logout. eapply (keeps_then _ _ _ _ _ (λ s', se_ID s' = sid)); [|intros s' Hid|by apply Ends_fail].
  - apply keeps_remap, keeps_call; [done|done|]. apply keeps_query; [done|]. intros db' s' Hg Hf.
    destruct (session_by_hash db db' sid s Hg Hs _ _ Et Hf) as [_ (Ei & _)]. rewrite Ei. apply sid_of_row.
  - then_input. eapply triple_weaken; [apply call_ends; [apply rk_RevokeSession|]|done|naive_solver].
    intros db' u Hg. rewrite Hid. destruct (row_later db' Hg) as (s2 & Hs2 & _). unfold RevokeSession. rewrite Hs2. intros _. simpl.
    exists (s2 <| se_RevokedAt := Some a |>). split; [apply lookup_insert_eq|by eexists].
Qed.

Lemma ChangePassword_ends i : ends db (OpChangePassword i) s → triple e history (good db) (ChangePassword sv i) (λ r db', Ends r db').
Proof.
  intros [Eu Ex]. unfold ChangePassword. then_true; [by apply admit_keeps|].
  eapply (keeps_then _ _ _ _ _ (λ u, us_ID u = pc_UserID i)); [|intros u Hu|by apply Ends_fail].
  { apply keeps_call; [done|done|]. apply keeps_query; [done|]. intros db' u [_ W'] Hl. by destruct (wf_users _ W' _ u Hl). }
  eapply keeps_then; [apply keeps_verify|intros ok _|by apply Ends_fail]. case_match; [by apply triple_fail|]. case_match; [by apply triple_fail|].
  eapply keeps_then; [apply keeps_verify|intros [[]|] _|by apply Ends_fail]; [by apply triple_fail| |by apply triple_fail].
  then_input. then_true; [by apply hash_password_keeps; apply _|]. then_input. apply triple_remap.
  eapply triple_weaken; [apply call_ends; [apply rk_ChangeUserPassword|]|done|intros [[]|] db' [? Hv]; (split; [done|]); naive_solver].
  intros db' [] Hg. destruct (row_later db' Hg) as (s2 & Hs2 & Hf & Hi2). unfold ChangeUserPassword. case_match eqn:El; [|done].
  case_match; [|done]. destruct (insert_audit _ _) as [db2|] eqn:Ea; [|done]. intros _. apply insert_audit_only in Ea as ->. simpl.
  exists (revoke_others (us_ID u) (pc_CurrentSessionID i) a0 s2). split; [simpl; by rewrite lookup_fmap, Hs2|].
  unfold revoke_others. destruct Hf as (_ & E2 & _). rewrite Hu, E2, Eu, Z.eqb_refl, (bool_decide_eq_false_2 (pc_CurrentSessionID i = _)) by (rewrite Hi2, <- sid_of_row; done).
  rewrite andb_true_r. simpl. destruct (bool_decide_reflect (se_RevokedAt s2 = None)); [by eexists|]. by apply not_eq_None_Some.
Qed.

(** What history keeps stays true over a program of the service. *)
Lemma keeps_after {A} (m : M A) (R : AuthDB → Prop) :
  (∀ db1, keeps e history (good db1) m (λ _, True)) → (∀ db1 db2, history db1 db2 → R db1 → R db2) →
  triple e history (λ db', good db db' ∧ R db') m (λ _ db', good db db' ∧ R db').
Proof.
  intros Hk HR st [Hg HRst]. destruct (Hk (st_db st) st) as [[[Hh W'] _] Hl]; [apply good_refl; apply Hg|]. split; [|done].
  split; [|by eapply HR]. eapply good_trans; [exact Hg|]. by intros _.
Qed.

(** A reset token at a later moment is found by its hash. *)
Lemma reset_later db' t t' : good db db' → db_resets db !! pr_ID t = Some t → reset_by_hash db' (pr_TokenHash t) = Some t' → pr_TokenHash t ≠ ""%string → pr_UserID t' = pr_UserID t.
Proof.
  intros [Hh W'] Ht Hf Hne. apply reset_by_hash_row in Hf as [Hr Eh]; [|done]. destruct (hi_resets _ _ Hh _ t Ht) as (t2 & Ht2 & (E1 & E2 & E3 & _)).
  assert (pr_ID t' = pr_ID t) as E by (eapply (wf_reset_tokens _ W'); [exact Hr|exact Ht2|congruence|congruence]). rewrite E, Ht2 in Hr. by simplify_eq.
Qed.

Lemma CompletePasswordReset_ends i : ends db (OpCompletePasswordReset i) s → triple e history (good db) (CompletePasswordReset sv i) (λ r db', Ends r db').
Proof.
  intros (t & Ht & Eh & Eu). unfold CompletePasswordReset. then_true; [by apply admit_keeps|]. case_match; [by apply triple_fail|]. then_input.
  then_true; [apply keeps_remap, keeps_call; [done|done|by apply query_keeps; apply _]|]. case_match; [by apply triple_fail|].
  then_true; [apply keeps_call; [done|done|by apply query_keeps; apply _]|].
  eapply keeps_then; [apply keeps_verify|intros [[]|] _|by apply Ends_fail]; [by apply triple_fail| |by apply triple_fail].
  then_true; [by apply hash_password_keeps; apply _|].
  eapply (triple_bind _ _ _ _ _ (λ r db', good db db' ∧ ∀ a, r = Val a → revoked_in sid db')); [apply triple_remap| |naive_solver].
  - eapply triple_weaken; [apply call_ends; [apply rk_CompleteReset|]|done|intros [|] db' [? Hv]; (split; [done|]); naive_solver].
    intros db' a' Hg. destruct (row_later db' Hg) as (s2 & Hs2 & Hf & Hi2). unfold CompleteReset. destruct (reset_by_hash db' _) as [t'|] eqn:Er; [|done].
    case_match; [done|]. destruct (db_users db' !! _); [|done]. intros _. simpl. rewrite <- Eh in Er. apply reset_later in Er; [|done|done|rewrite Eh; apply HashToken_nonempty].
    exists (revoke_all (pr_UserID t') a0 s2). split; [simpl; by rewrite lookup_fmap, Hs2|]. destruct Hf as (_ & E2 & _). unfold revoke_all. by rewrite E2, Er, Eu, Z.eqb_refl.
  - intros reset. eapply triple_weaken; [apply (keeps_after _ (revoked_in sid))|naive_solver|naive_solver].
    + intros db1. apply appendAuditLog_keeps; [apply _|by apply fair_stable].
    + intros db1 db2. apply revoked_later.
Qed.

(** A successful operation that ends the session leaves it revoked. *)
Lemma op_ends op : ends db op s → (run_op sv op e (start db)).2 = Val tt → good db (st_db (run_op sv op e (start db)).1) ∧ revoked_in sid (st_db (run_op sv op e (start db)).1).
Proof.
  intros He. assert (triple e history (good db) (run_op sv op) (λ r db', Ends r db')) as Ht.
  { destruct op; try done; simpl in *; [by apply Logout_ends|by apply ChangePassword_ends|by apply CompletePasswordReset_ends]. }
  destruct (Ht (start db) (good_refl db W)) as [[Hg Hr] _]. by auto.
Qed.
End one_run.

(** A revoked session is refused at any later moment. *)
Lemma revoked_refused e db sid s token :
  fair e → WF db → db_sessions db !! sid = Some s → is_Some (se_RevokedAt s) → se_TokenHash s = HashToken (TrimSpace token) (sv_sessionSecret sv) →
  ∀ u, (CurrentUser sv token e (start db)).2 ≠ Val u.
Proof.
  intros Hf W Hs Hr Et. pose proof (fair_stable e db Hf) as stab.
  assert (triple e history (good db) (CurrentUser sv token) (λ r _, ∀ u, r ≠ Val u)) as Ht; [|by apply (Ht (start db)), good_refl].
  unfold CurrentUser. case_match; [by apply triple_fail|].
  eapply (keeps_then _ _ _ _ _ (λ s' : AuthSession, is_Some (se_RevokedAt s'))); [|intros s' Hr'|done].
  - apply keeps_remap, keeps_call; [done|done|]. apply keeps_query; [done|]. intros db' s' Hg Hq.
    destruct (session_by_hash db db' sid s Hg Hs _ _ Et Hq) as [_ (_ & _ & _ & _ & _ & _ & Hk)]. by apply Hk.
  - eapply keeps_then; [apply keeps_input|intros t _|done]. rewrite bool_decide_eq_true_2 by done. by apply triple_fail.
Qed.

(** C30: the authentication tables stay consistent.  The constraints of the schema (identifiers,
    normalized names and token hashes unique, statuses valid, references to existing users, roles
    and permissions) hold after the seeding of a new instance and after any sequence of operations,
    whichever calls fail or lose their answer and whatever else runs in between, as long as that
    respects the same rules.  Over such a sequence no row of a user, session, reset token or audit
    entry disappears, sessions and tokens keep their owner, hash and expiry, and a session once
    revoked or a token once used stays so. *)
Theorem tables_consistent db ops :
  WF seeded_db ∧ (WF db → Forall (λ p, fair p.1) ops → WF (run_ops sv db ops) ∧ history db (run_ops sv db ops)).
Proof. split; [apply seeded_WF|]. intros W Hf. destruct (run_ops_good db ops W Hf). done. Qed.

(** C37: an ended session stays ended.  After a logout with its token, a password change from
    another session or a password reset of its user has succeeded, a session that existed before
    is refused forever: whatever operations follow, whatever fails and whatever runs in between,
    its token never authenticates again. *)
Theorem ended_session_refused db e op sid s ops e' token :
  WF db → fair e → Forall (λ p, fair p.1) ops → fair e' → db_sessions db !! sid = Some s → ends db op s → (run_op sv op e (start db)).2 = Val tt →
  HashToken (TrimSpace token) (sv_sessionSecret sv) = se_TokenHash s →
  ∃ err, (CurrentUser sv token e' (start (run_ops sv db ((e, op) :: ops)))).2 = Fails err.
Proof.
  intros W Hf Hfs Hf' Hs He Hv Et. destruct (op_ends e db sid s W Hs Hf op He Hv) as [[Hh1 W1] (s1 & Hs1 & Hr1)]. simpl.
  set (db1 := st_db (run_op sv op e (start db)).1) in *. destruct (run_ops_good db1 ops W1 Hfs) as [Hh2 W2].
  destruct (hi_sessions _ _ Hh1 sid s Hs) as (s1' & Hs1' & (_ & _ & E1 & _)). assert (s1' = s1) as -> by congruence.
  destruct (hi_sessions _ _ Hh2 sid s1 Hs1) as (s2 & Hs2 & (_ & _ & E2 & _ & _ & _ & Hk)).
  assert (∀ u, (CurrentUser sv token e' (start (run_ops sv db1 ops))).2 ≠ Val u) as Hn by (eapply revoked_refused; [done|exact W2|exact Hs2|by apply Hk|congruence]).
  destruct (CurrentUser _ _ _ _) as [s' [u|err]]; [by destruct (Hn u)|by exists err].
Qed.
End theorems.

(** * Administrators cannot escalate

    Whatever an administrator without the super-administrator role asks for, and whatever happens
    in between, it neither grants nor removes that role, nor touches the account of a super
    administrator, nor its own roles. *)


#[local] Arguments HashToken : simpl never.
#[local] Arguments TrimSpace : simpl never.
#[local] Arguments HasRole : simpl never.
#[local] Arguments actorIsSuperAdmin : simpl never.

(** Operations run for an actor. *)
Definition asked_by (actor : AuthenticatedUser) (op : AuthOp) : Prop :=
  match op with
  | OpCreateAdminUser a _ | OpGetAdminUser a _ | OpUpdateAdminUser a _ | OpSetAdminUserStatus a _ | OpAssignAdminUserRole a _
  | OpRemoveAdminUserRole a _ | OpCreateAdminPasswordResetToken a _ | OpListAdminRoles a | OpUpdateAdminRolePermissions a _ | OpListAdminPermissions a => a = Some actor
  | _ => False
  end.

(** As seeded: the role of that name is the role of that identifier. *)
Definition seeded_names (db : AuthDB) : Prop := ∀ r, r ∈ db_roles db → role_Name r = RoleSuperAdmin ↔ role_ID r = RoleSuperAdmin.

(** What an effect leaves alone: who is a super administrator and what the role may do, the own
    roles of [me], the account, roles and reset tokens of the super administrator [uid], and all
    sessions. *)
Record no_escalation (me uid : UUID) (db db' : AuthDB) : Prop := {
  ne_super id : (id, RoleSuperAdmin) ∈ db_userRoles db' ↔ (id, RoleSuperAdmin) ∈ db_userRoles db;
  ne_permissions p : (RoleSuperAdmin, p) ∈ db_rolePermissions db' ↔ (RoleSuperAdmin, p) ∈ db_rolePermissions db;
  ne_own r : (me, r) ∈ db_userRoles db' ↔ (me, r) ∈ db_userRoles db;
  ne_roles r : (uid, r) ∈ db_userRoles db' ↔ (uid, r) ∈ db_userRoles db;
  ne_account : db_users db' !! uid = db_users db !! uid;
  ne_resets id t : db_resets db' !! id = Some t → pr_UserID t = uid → db_resets db !! id = Some t;
  ne_sessions : db_sessions db' = db_sessions db }.

(** Consistent tables in which [uid] is a super administrator and [me] exists. *)
Record protected (me uid : UUID) (db : AuthDB) : Prop := {
  pt_WF : WF db;
  pt_names : seeded_names db;
  pt_super : (uid, RoleSuperAdmin) ∈ db_userRoles db;
  pt_me : is_Some (db_users db !! me) }.

Section escalation.
Context `{!Externals} (sv : AuthService) (e : Env) (a : AuthenticatedUser) (uid : UUID).
Context (Hactor : actorIsSuperAdmin (Some a) = false).
Local Abbreviation me := (us_ID (ag_User (au_User a))) (only parsing).
Local Abbreviation Inv := (protected me uid) (only parsing).
Local Abbreviation G := (no_escalation me uid) (only parsing).
Context (stab : stable e Inv).

#[export] Instance no_escalation_refl : Reflexive G.
Proof. by split. Qed.

Lemma uid_row db : Inv db → is_Some (db_users db !! uid).
Proof. intros []. by destruct (wf_userRoles _ pt_WF0 _ _ pt_super0). Qed.

Lemma tx_safe {A} (f : Tx A) (F : A → Prop) :
  tx_keeps history WF f (λ _, True) → (∀ db, Inv db → G db (f db).1 ∧ ∀ a, (f db).2 = Val a → F a) → tx_keeps G Inv f F.
Proof.
  intros Hk Hf db HI. destruct (Hf db HI) as [HG HF]. pose proof HI as [W Hn Hs Hm]. destruct (Hk db W) as (Hh & W' & _). split_and!; [done| |done].
  split; [done|intros r; rewrite (hi_roles _ _ Hh); apply Hn|by apply HG|by eapply rows_Some; [apply Hh|]].
Qed.

Lemma query_safe {A} missing (f : AuthDB → option A) (F : A → Prop) : (∀ db a, Inv db → f db = Some a → F a) → tx_keeps G Inv (query missing f) F.
Proof. intros H1. by apply keeps_query. Qed.
Lemma read_safe {A} (f : AuthDB → A) (F : A → Prop) : (∀ db, Inv db → F (f db)) → tx_keeps G Inv (λ db, (db, Val (f db))) F.
Proof. intros H1 db HI. split_and!; [done|done|]. simpl. intros x [= <-]. by apply H1. Qed.

(** ** Transactions *)

Lemma audit_safe clock fresh l : tx_keeps G Inv (AppendAuditLog clock fresh l) (λ _, True).
Proof.
  apply tx_safe; [apply rk_AppendAuditLog|]. intros db HI. split; [|done]. unfold AppendAuditLog.
  destruct (insert_audit _ _) as [db'|] eqn:E; [|done]. apply insert_audit_only in E as ->. by split.
Qed.
Lemma create_user_safe clock fresh u : tx_keeps G Inv (CreateUser clock fresh u) (λ u', us_ID u' ≠ me ∧ us_ID u' ≠ uid).
Proof.
  apply tx_safe; [apply rk_CreateUser|]. intros db HI. unfold CreateUser. set (u4 := if String.eqb _ _ then _ else _). simpl. case_match eqn:E; [done|].
  apply orb_false_elim in E as [E _]. apply orb_false_elim in E as [E _]. apply orb_false_elim in E as [E _]. apply bool_decide_eq_false, eq_None_not_Some in E.
  assert (us_ID u4 ≠ uid) by (intros Eq; destruct (uid_row db HI); congruence). assert (us_ID u4 ≠ me) by (intros Eq; destruct (pt_me _ _ _ HI); congruence).
  split; [|simpl; by intros x [= <-]]. split; try done. simpl. by rewrite lookup_insert_ne.
Qed.
Lemma update_user_safe clock u : us_ID u ≠ uid → tx_keeps G Inv (UpdateUser clock u) (λ _, True).
Proof.
  intros Hu. apply tx_safe; [apply rk_UpdateUser|]. intros db HI. split; [|done]. unfold UpdateUser. simpl. destruct (db_users db !! us_ID u); [|done].
  case_match; [done|]. split; try done. simpl. by rewrite lookup_insert_ne.
Qed.
Lemma assign_safe id r by_ : r ≠ RoleSuperAdmin → id ≠ me → id ≠ uid → tx_keeps G Inv (AssignRole id r by_) (λ _, True).
Proof.
  intros Hr Hm Hu. apply tx_safe; [apply rk_AssignRole|]. intros db HI. split; [|done]. unfold AssignRole. case_match; [|done]. split; try done; simpl; set_solver.
Qed.
Lemma remove_safe id r : r ≠ RoleSuperAdmin → id ≠ me → id ≠ uid → tx_keeps G Inv (RemoveRole id r) (λ _, True).
Proof. intros Hr Hm Hu. apply tx_safe; [apply rk_RemoveRole|]. intros db HI. split; [|done]. split; try done; simpl; set_solver. Qed.
Lemma replace_safe r keys : r ≠ RoleSuperAdmin → tx_keeps G Inv (ReplaceRolePermissions r keys) (λ _, True).
Proof.
  intros Hr. apply tx_safe; [apply rk_ReplaceRolePermissions|]. intros db HI. split; [|done]. unfold ReplaceRolePermissions. case_match; [done|].
  destruct (permission_ids db keys); [|done]. split; try done. simpl. intros p. rewrite elem_of_union, elem_of_filter, elem_of_list_to_set, list_elem_of_fmap. naive_solver.
Qed.
Lemma reset_safe clock fresh t : pr_UserID t ≠ uid → tx_keeps G Inv (CreateResetToken clock fresh t) (λ _, True).
Proof.
  intros Ht. apply tx_safe; [apply rk_CreateResetToken|]. intros db HI. split; [|done]. unfold CreateResetToken. simpl. case_match; [done|]. split; try done. simpl.
  intros id t' Hl Hu. destruct (decide (id = or_fresh fresh (pr_ID t))) as [->|Hid]; [|by rewrite lookup_insert_ne in Hl].
  rewrite lookup_insert_eq in Hl. injection Hl as <-. done.
Qed.

(** ** Reads *)

(** The super administrator is seen as one. *)
Lemma target_safe id : tx_keeps G Inv (GetUserRolesAndPermissions id) (λ t, us_ID (ag_User t) = id ∧ (id = uid → HasRole t RoleSuperAdmin = true)).
Proof.
  apply query_safe. intros db t HI Ht. destruct (db_users db !! id) as [u|] eqn:Hu; [|done]. injection Ht as <-. simpl.
  destruct (wf_users _ (pt_WF _ _ _ HI) id u Hu) as (Eid & _). split; [done|]. intros ->. by eapply HasRole_granted; [apply HI| |apply HI].
Qed.
Lemma user_safe id : tx_keeps G Inv (GetUserByID id) (λ u, us_ID u = id).
Proof. apply query_safe. intros db u HI Hu. by destruct (wf_users _ (pt_WF _ _ _ HI) id u Hu). Qed.

Lemma validated_safe r : keeps e G Inv (validateAdminRoleID (Some a) r) (λ r, r ≠ RoleSuperAdmin).
Proof.
  unfold validateAdminRoleID. case_match; [apply keeps_fail|]. rewrite Hactor, andb_true_r. destruct (String.eqb_spec (TrimSpace r) RoleSuperAdmin) as [|Hr]; [apply keeps_fail|].
  eapply (keeps_bind _ _ _ _ _ (λ roles, ∀ x, x ∈ roles → role_Name x = RoleSuperAdmin ↔ role_ID x = RoleSuperAdmin)).
  - apply keeps_call; [done|done|]. apply read_safe. intros db HI. apply HI.
  - intros roles Hn. destruct (list_find _ roles) as [[i x]|] eqn:Ex; [|apply keeps_fail]. apply keeps_ret. apply list_find_Some in Ex as (Hl & Hx & _).
    specialize (Hn x (list_elem_of_lookup_2 _ _ _ Hl)). intros Ex. destruct Hx as [Hx|Hx]; [congruence|]. apply Hr. rewrite <- Hx. by apply Hn.
Qed.

Lemma validated_list_safe l out : Forall (λ r, r ≠ RoleSuperAdmin) out →
  keeps e G Inv (validate_roles (Some a) l out) (Forall (λ r, r ≠ RoleSuperAdmin)).
Proof.
  revert out. induction l as [|r l IH]; intros out Ho; simpl; [by apply keeps_ret|]. eapply keeps_bind; [apply validated_safe|]. intros r' Hr'. apply IH.
  case_decide; [done|]. apply Forall_app. split; [done|by apply Forall_singleton].
Qed.

(** ** Programs *)

Ltac safe_step :=
  lazymatch goal with
  | |- keeps _ _ _ (mbind _ _) _ => apply (keeps_bind _ _ _ _ _ (λ _, True)); [|intros ? _]
  | |- keeps _ _ _ (match ?x with _ => _ end) _ => destruct x eqn:?
  | |- keeps _ _ _ (call_with _) _ => apply keeps_call_with; [done|done|intros]
  | |- keeps _ _ _ (call _) _ => apply keeps_call; [done|done|]
  | |- keeps _ _ _ _ _ => keeps_leaf
  end.
Ltac safe_go := repeat first [progress safe_step | by apply audit_safe | by eapply tx_keeps_trivial, target_safe | by eapply tx_keeps_trivial, user_safe | by apply read_safe | by apply query_safe].

Lemma appendAuditLog_safe x1 x2 x3 x4 x5 x6 : keeps e G Inv (appendAuditLog x1 x2 x3 x4 x5 x6) (λ _, True).
Proof. unfold appendAuditLog. safe_go. Qed.
(** An audit entry and the new state of the account end most operations. *)
Lemma finish_safe x1 x2 x3 x4 x5 x6 id : keeps e G Inv (appendAuditLog x1 x2 x3 x4 x5 x6;; call (GetUserRolesAndPermissions id)) (λ _, True).
Proof. safe_step; [apply appendAuditLog_safe|]. safe_go. Qed.
Lemma require_safe key : keeps e G Inv (RequirePermission (Some a) key) (λ _, True).
Proof. unfold RequirePermission. safe_go. Qed.
Lemma hash_safe p : keeps e G Inv (hash_password p) (λ _, True).
Proof. unfold hash_password. safe_go. Qed.
Lemma not_last_safe : keeps e G Inv ensureNotLastActiveSuperAdmin (λ _, True).
Proof. unfold ensureNotLastActiveSuperAdmin. safe_go. Qed.
Lemma can_authenticate_safe u : keeps e G Inv (ensureAggregateCanAuthenticate u) (λ _, True).
Proof. unfold ensureAggregateCanAuthenticate. safe_go. Qed.

Lemma assign_all_safe id l by_ : Forall (λ r, r ≠ RoleSuperAdmin) l → id ≠ me → id ≠ uid → keeps e G Inv (assign_all id l by_) (λ _, True).
Proof. intros Hl Hm Hu. induction Hl as [|r l Hr Hl IH]; simpl; [by apply keeps_ret|]. safe_step; [|exact IH]. apply keeps_call; [done|done|]. by apply assign_safe. Qed.

Lemma CreateAdminUser_safe i : keeps e G Inv (CreateAdminUser (Some a) i) (λ _, True).
Proof.
  unfold CreateAdminUser, validateAdminRoleIDs. safe_step; [apply require_safe|]. safe_step; [case_match; [apply require_safe|safe_go]|].
  case_match; [apply keeps_fail|]. case_match; [apply keeps_fail|].
  eapply keeps_bind; [by apply validated_list_safe|intros roles Hr]. safe_step; [apply hash_safe|]. do 2 (safe_step; [safe_go|]).
  eapply keeps_bind; [apply keeps_call_with; [done|done|intros; apply create_user_safe]|intros u [Hm Hu]].
  safe_step; [by apply assign_all_safe|]. apply finish_safe.
Qed.

(** The status check passes only for an account that is not protected. *)
Lemma can_change_safe t status : (us_ID (ag_User t) = uid → HasRole t RoleSuperAdmin = true) →
  keeps e G Inv (canChangeAdminUserStatus (Some a) t status) (λ _, us_ID (ag_User t) ≠ uid).
Proof.
  intros Ht. unfold canChangeAdminUserStatus. case_match; [apply keeps_fail|]. rewrite Hactor, andb_true_r. destruct (HasRole t RoleSuperAdmin) eqn:Hr; [apply keeps_fail|].
  rewrite andb_false_r. case_match; [safe_step; [safe_go|apply keeps_fail]|]. apply keeps_ret. intros E. by specialize (Ht E).
Qed.
Lemma update_admin_safe t u : us_ID u ≠ uid → keeps e G Inv (updateAdminUser t u) (λ _, True).
Proof.
  intros Hu. unfold updateAdminUser. case_match.
  - apply keeps_remap, keeps_call_with; [done|done|]. intros clock _ db HI. unfold UpdateUserPreservingLastActiveSuperAdmin.
    case_match; [by split_and!|by apply update_user_safe].
  - apply keeps_call_with; [done|done|]. intros clock _. by apply update_user_safe.
Qed.

Lemma SetAdminUserStatus_safe i : keeps e G Inv (SetAdminUserStatus (Some a) i) (λ _, True).
Proof.
  unfold SetAdminUserStatus. safe_step; [apply require_safe|]. safe_step; [case_match; [apply require_safe|safe_go]|].
  eapply keeps_bind; [apply keeps_call; [done|done|apply target_safe]|intros t [Eid Ht]]. rewrite <- Eid in Ht.
  eapply keeps_bind; [by apply can_change_safe|intros ok Hu]. safe_step; [safe_go|]. safe_step; [by apply update_admin_safe|]. apply finish_safe.
Qed.

(** Profile fields keep the identifier of the row. *)
Lemma set_name_safe field v g id p : (∀ w u, us_ID (g w u) = us_ID u) → us_ID p.1 = id →
  keeps e G Inv (set_name field v g p) (λ q, us_ID q.1 = id ∧ (v = None → q = p)).
Proof. intros Hg Hp. unfold set_name. destruct v as [raw|]; [|by apply keeps_ret]. case_match; [apply keeps_fail|]. apply keeps_ret. simpl. by rewrite Hg. Qed.

Lemma UpdateAdminUser_safe i : keeps e G Inv (UpdateAdminUser (Some a) i) (λ _, True).
Proof.
  unfold UpdateAdminUser. safe_step; [apply require_safe|].
  eapply keeps_bind; [apply keeps_call; [done|done|apply target_safe]|intros t [Eid Ht]]. rewrite <- Eid in Ht.
  case_match eqn:Hd; [apply keeps_fail|]. rewrite Hactor, andb_true_r in Hd.
  eapply keeps_bind; [by apply (set_name_safe _ _ _ (us_ID (ag_User t)))|intros p1 [E1 N1]].
  eapply keeps_bind; [by apply (set_name_safe _ _ _ (us_ID (ag_User t)))|intros p2 [E2 N2]].
  set (p3 := match ad_DisplayName i with Some v => _ | None => _ end).
  assert (us_ID p3.1 = us_ID (ag_User t)) as E3 by (unfold p3; by destruct (ad_DisplayName i)).
  eapply (keeps_bind _ _ _ _ _ (λ q, us_ID q.1 = us_ID (ag_User t) ∧ (us_ID (ag_User t) = uid → q.2 = []))).
  - destruct (ad_Status i) as [status|].
    + eapply keeps_bind; [by apply can_change_safe|intros ok Hu]. apply keeps_ret. by split.
    + apply keeps_ret. split; [done|]. intros Hu. rewrite (Ht Hu) in Hd. unfold adminUpdateTouchesProfile in Hd. simpl in Hd.
      destruct (ad_Username i), (ad_Email i), (ad_DisplayName i); try done. unfold p3. by rewrite (N2 eq_refl), (N1 eq_refl).
  - intros p4 [E4 H4]. case_match eqn:Hl; [by apply keeps_ret|]. safe_step; [safe_go|]. safe_step; [|apply finish_safe].
    apply update_admin_safe. simpl. rewrite E4. intros Hu. by rewrite (H4 Hu) in Hl.
Qed.

Lemma AssignAdminUserRole_safe i : keeps e G Inv (AssignAdminUserRole (Some a) i) (λ _, True).
Proof.
  unfold AssignAdminUserRole. safe_step; [apply require_safe|]. eapply keeps_bind; [apply validated_safe|intros r Hr]. simpl.
  destruct (Z.eqb_spec me (ar_UserID i)) as [|Hm]; [apply keeps_fail|].
  eapply keeps_bind; [apply keeps_call; [done|done|apply target_safe]|intros t [Eid Ht]]. rewrite Hactor, andb_true_r. case_match eqn:Hd; [apply keeps_fail|].
  safe_step; [|apply finish_safe]. apply keeps_call; [done|done|]. apply assign_safe; [done|done|by intros E%Ht].
Qed.

Lemma RemoveAdminUserRole_safe i : keeps e G Inv (RemoveAdminUserRole (Some a) i) (λ _, True).
Proof.
  unfold RemoveAdminUserRole. safe_step; [apply require_safe|]. eapply keeps_bind; [apply validated_safe|intros r Hr].
  eapply keeps_bind; [apply keeps_call; [done|done|apply target_safe]|intros t [Eid Ht]]. simpl.
  destruct (Z.eqb_spec me (ar_UserID i)) as [|Hm]; [safe_step; [case_match; [apply not_last_safe|safe_go]|apply keeps_fail]|].
  rewrite Hactor, andb_true_r. destruct (String.eqb_spec r RoleSuperAdmin) as [|_]; [done|]. simpl. case_match eqn:Hd; [apply keeps_fail|].
  safe_step; [|apply finish_safe]. unfold removeAdminUserRole. destruct (String.eqb_spec r RoleSuperAdmin) as [|_]; [done|]. simpl.
  apply keeps_call; [done|done|]. rewrite Eid. apply remove_safe; [done|done|by intros E%Ht].
Qed.

Lemma CreateAdminPasswordResetToken_safe id : keeps e G Inv (CreateAdminPasswordResetToken sv (Some a) id) (λ _, True).
Proof.
  unfold CreateAdminPasswordResetToken, CreatePasswordResetToken. safe_step; [apply require_safe|]. simpl. case_match; [apply keeps_fail|].
  eapply keeps_bind; [apply keeps_call; [done|done|apply target_safe]|intros t [Eid Ht]]. rewrite Hactor, andb_true_r. case_match eqn:Hd; [apply keeps_fail|].
  eapply keeps_bind; [apply keeps_call; [done|done|apply user_safe]|intros u Hu]. safe_step; [apply can_authenticate_safe|].
  safe_step; [unfold random_token; safe_go|]. do 2 (safe_step; [safe_go|]).
  safe_step; [|safe_step; [apply appendAuditLog_safe|by apply keeps_ret]].
  apply keeps_call_with; [done|done|]. intros clock fresh. apply reset_safe. simpl. rewrite Hu. by intros E%Ht.
Qed.

Lemma list_admin_roles_safe l : keeps e G Inv (list_admin_roles l) (λ _, True).
Proof. induction l as [|r l IH]; simpl; [by apply keeps_ret|]. safe_step; [safe_go|]. safe_step; [exact IH|safe_go]. Qed.

Lemma UpdateAdminRolePermissions_safe i : keeps e G Inv (UpdateAdminRolePermissions (Some a) i) (λ _, True).
Proof.
  unfold UpdateAdminRolePermissions. safe_step; [apply require_safe|]. case_match; [apply keeps_fail|].
  destruct (String.eqb_spec (TrimSpace (ap_RoleID i)) RoleSuperAdmin) as [|Hr]; [apply keeps_fail|].
  eapply (keeps_bind _ _ _ _ _ (λ r : Role, role_ID r ≠ RoleSuperAdmin)); [|intros r Hne].
  - unfold roleByID. safe_step; [safe_go|]. destruct (list_find _ _) as [[k r]|] eqn:Ef; [|apply keeps_fail]. apply keeps_ret.
    apply list_find_Some in Ef as (_ & -> & _). done.
  - destruct (ap_Permissions i); [|apply keeps_fail]. safe_step; [unfold normalizeAdminRolePermissionKeys; safe_go|].
    apply (keeps_bind _ _ _ _ _ (λ _, True)); [apply keeps_call; [done|done|by apply replace_safe]|intros [old new] _]. case_match; [|apply keeps_fail].
    safe_step; [apply appendAuditLog_safe|by apply keeps_ret].
Qed.

Lemma asked_safe op : asked_by a op → keeps e G Inv (run_op sv op) (λ _, True).
Proof.
  destruct op; simpl; try done; intros ->; unfold discard; (safe_step; [|by apply keeps_ret]).
  - apply CreateAdminUser_safe.
  - unfold GetAdminUser. safe_step; [apply require_safe|safe_go].
  - apply UpdateAdminUser_safe.
  - apply SetAdminUserStatus_safe.
  - apply AssignAdminUserRole_safe.
  - apply RemoveAdminUserRole_safe.
  - apply CreateAdminPasswordResetToken_safe.
  - unfold ListAdminRoles. safe_step; [apply require_safe|]. safe_step; [safe_go|apply list_admin_roles_safe].
  - apply UpdateAdminRolePermissions_safe.
  - unfold ListAdminPermissions. safe_step; [apply require_safe|safe_go].
Qed.
End escalation.

(** C27: an administrator without the super-administrator role cannot escalate.  Whatever
    administration operation it asks for, whichever repository calls fail or lose their answer and
    whatever else happens between them, no effect of the operation grants or removes the
    super-administrator role, changes what that role may do, changes the roles of the
    administrator itself, changes the account or the roles of a user that is a super administrator
    throughout, issues a password reset for such a user, or touches a session.  (The built-in role
    is seeded with its name as its identifier.) *)
Theorem admin_cannot_escalate `{!Externals} sv e a uid op s :
  actorIsSuperAdmin (Some a) = false → asked_by a op → stable e (protected (us_ID (ag_User (au_User a))) uid) →
  protected (us_ID (ag_User (au_User a))) uid (st_db s) →
  ∃ l, st_steps (run_op sv op e s).1 = st_steps s ++ l ∧ Forall (λ p, no_escalation (us_ID (ag_User (au_User a))) uid p.1 p.2) l.
Proof. intros Ha Hop Hst Hs. by eapply keeps_run; [apply asked_safe|]. Qed.
