(* ===== verification/AuthSuperAdmin.v ===== *)
(** * There is always an active super administrator

    Operations that run one after the other, with any failures, never lose the last active super
    administrator, and the bootstrap provides one. *)

From S2P Require Import Prelude GoLib GoText Password AuthRepo AuthService AuthAdmin AuthLogic AuthTables AuthEscalation.

#[local] Arguments HashToken : simpl never.
#[local] Arguments TrimSpace : simpl never.
#[local] Arguments HasRole : simpl never.
#[local] Arguments unique_user : simpl never.

(** ** Active super administrators *)

Definition active_super (db : AuthDB) (id : UUID) : Prop :=
  (∃ u, db_users db !! id = Some u ∧ us_Status u = UserStatusActive) ∧ (id, RoleSuperAdmin) ∈ db_userRoles db.
Definition has_super (db : AuthDB) : Prop := ∃ id, active_super db id.

Lemma active_superP db id u : WF db → db_users db !! id = Some u → is_active_super_admin db u = true ↔ active_super db id.
Proof.
  intros W Hu. destruct (wf_users _ W id u Hu) as (Eid & _). unfold is_active_super_admin, active_super. rewrite Eid, andb_true_iff, String.eqb_eq, bool_decide_eq_true.
  split; [intros [? ?]; by eauto|]. intros [(v & Hv & ?) ?]. rewrite Hu in Hv. by simplify_eq.
Qed.
Lemma txUserP db id : WF db → txUserIsActiveSuperAdmin db id = true ↔ active_super db id.
Proof.
  intros W. unfold txUserIsActiveSuperAdmin. destruct (db_users db !! id) as [u|] eqn:Hu; [by apply active_superP|]. split; [done|]. intros [(u & Hu' & _) _]. congruence.
Qed.

(** The users the count counts. *)
Lemma counted db u : WF db → u ∈ filter (λ u, is_active_super_admin db u = true) (values (db_users db)) ↔ db_users db !! us_ID u = Some u ∧ active_super db (us_ID u).
Proof.
  intros W. rewrite list_elem_of_filter, elem_of_values. split.
  - intros [Ha [id Hu]]. destruct (wf_users _ W id u Hu) as (Eid & _). rewrite Eid. split; [done|]. by apply (active_superP db id u).
  - intros [Hu Ha]. split; [by eapply active_superP|by eauto].
Qed.

Lemma count_positive db : WF db → 0 < count_active_super_admins db ↔ has_super db.
Proof.
  intros W. unfold count_active_super_admins. split.
  - intros Hc. destruct (filter _ _) as [|u l] eqn:E; [done|]. exists (us_ID u). apply (counted db u W). rewrite E. left.
  - intros [id Ha]. pose proof Ha as [(u & Hu & _) _]. destruct (wf_users _ W id u Hu) as (Eid & _).
    assert (u ∈ filter (λ u, is_active_super_admin db u = true) (values (db_users db))) as Hin by (apply counted; [done|by rewrite Eid]).
    destruct (filter _ _); [by apply not_elem_of_nil in Hin|]. simpl. lia.
Qed.

(** More than one: some other than [id]. *)
Lemma count_two db id : WF db → 1 < count_active_super_admins db → ∃ id', id' ≠ id ∧ active_super db id'.
Proof.
  intros W Hc. unfold count_active_super_admins in Hc. pose proof (counted db) as Hin.
  assert (NoDup (us_ID <$> filter (λ u, is_active_super_admin db u = true) (values (db_users db)))) as Hnd.
  { apply NoDup_fmap_2_strong; [|apply NoDup_filter; unfold values].
    - intros x y Hx%Hin Hy%Hin E; [|done|done]. destruct Hx as [Hx _], Hy as [Hy _]. rewrite E in Hx. congruence.
    - apply NoDup_fmap_2_strong; [|apply NoDup_map_to_list]. intros [i x] [j y] Hx%elem_of_map_to_list Hy%elem_of_map_to_list. simpl. intros ->.
      destruct (wf_users _ W i y Hx) as (<- & _), (wf_users _ W j y Hy) as (<- & _). done. }
  destruct (filter _ _) as [|u [|v l]] eqn:E; simpl in Hc; [lia|lia|].
  assert (us_ID u ≠ us_ID v). { simpl in Hnd. apply NoDup_cons in Hnd as [Hn _]. intros Eq. apply Hn. rewrite Eq. left. }
  assert (active_super db (us_ID u)) by (apply (Hin u W); rewrite ?E; left). assert (active_super db (us_ID v)) by (apply (Hin v W); rewrite ?E; right; left).
  destruct (decide (us_ID u = id)); [exists (us_ID v)|exists (us_ID u)]; split; congruence || done.
Qed.

(** ** Transactions *)

Definition supervised (db : AuthDB) : Prop := WF db ∧ has_super db.

(** Users keep their status and no grant of the role is lost. *)
Lemma super_kept db db' :
  (∀ id u, db_users db !! id = Some u → us_Status u = UserStatusActive → ∃ u', db_users db' !! id = Some u' ∧ us_Status u' = UserStatusActive) →
  (∀ id, (id, RoleSuperAdmin) ∈ db_userRoles db → (id, RoleSuperAdmin) ∈ db_userRoles db') → has_super db → has_super db'.
Proof. intros Hu Hr (id & (u & Hl & Hs) & Hin). destruct (Hu id u Hl Hs) as (u' & ? & ?). exists id. split; [by eauto|by apply Hr]. Qed.

(** One row changes; its status stays, or another super administrator is there. *)
Lemma super_row db id u users' :
  users' = <[id := u]> (db_users db) → (us_Status u = UserStatusActive ∨ ¬ active_super db id ∨ ∃ id', id' ≠ id ∧ active_super db id') →
  has_super db → has_super (db <| db_users := users' |>).
Proof.
  intros -> Hor [w Hw].
  assert (∀ id', id' ≠ id → active_super db id' → has_super (db <| db_users := <[id := u]> (db_users db) |>)) as Hother.
  { intros id' Hne [(v & Hv & Hs) Hin]. exists id'. split; [|done]. exists v. simpl. by rewrite lookup_insert_ne. }
  destruct (decide (w = id)) as [->|Hne]; [|by apply (Hother w)]. destruct Hor as [Hs|[Hn|(id' & Hne & Ha)]]; [|done|by apply (Hother id')].
  exists id. split; [|apply Hw]. exists u. simpl. by rewrite lookup_insert_eq.
Qed.

Lemma tx_super {A} (f : Tx A) :
  tx_keeps history WF f (λ _, True) → (∀ db, WF db → has_super db → has_super (f db).1) → tx_keeps (λ _ _, True) supervised f (λ _, True).
Proof. intros Hk Hf db [W Hs]. destruct (Hk db W) as (_ & W' & _). split_and!; [done| |done]. split; [done|by apply Hf]. Qed.

Lemma UpdateUser_super clock u db :
  WF db → (us_Status u = UserStatusActive ∨ ¬ active_super db (us_ID u) ∨ ∃ id', id' ≠ us_ID u ∧ active_super db id') → has_super db → has_super (UpdateUser clock u db).1.
Proof.
  intros W Hor Hs. unfold UpdateUser. simpl. destruct (db_users db !! us_ID u) as [old|]; [|done]. case_match; [done|]. by eapply super_row.
Qed.
Lemma UpdateUserPreserving_super clock u db : WF db → has_super db → has_super (UpdateUserPreservingLastActiveSuperAdmin clock u db).1.
Proof.
  intros W Hs. unfold UpdateUserPreservingLastActiveSuperAdmin. case_match eqn:E; [done|]. apply UpdateUser_super; [done| |done].
  destruct (String.eqb_spec (us_Status u) UserStatusActive) as [|_]; [by left|]. right. simpl in E. destruct (txUserIsActiveSuperAdmin db (us_ID u)) eqn:Et.
  - right. apply count_two; [done|]. simpl in E. lia.
  - left. intros Ha%txUserP; [|done]. congruence.
Qed.
Lemma RemoveRole_super id r db :
  WF db → (r ≠ RoleSuperAdmin ∨ ¬ active_super db id ∨ ∃ id', id' ≠ id ∧ active_super db id') → has_super db → has_super (RemoveRole id r db).1.
Proof.
  intros W Hor [w Hw]. assert (∀ id', active_super db id' → (id', RoleSuperAdmin) ≠ (id, r) → has_super (RemoveRole id r db).1) as Hother.
  { intros id' [Hu Hin] Hne. exists id'. split; [done|]. simpl. set_solver. }
  destruct (decide (w = id)) as [->|Hne]; [|apply (Hother w); congruence]. destruct Hor as [Hr|[Hn|(id' & Hne & Ha)]]; [|done|apply (Hother id'); congruence].
  apply (Hother id); congruence.
Qed.
Lemma RemoveRolePreserving_super id r db : WF db → has_super db → has_super (RemoveRolePreservingLastActiveSuperAdmin id r db).1.
Proof.
  intros W Hs. unfold RemoveRolePreservingLastActiveSuperAdmin. case_match eqn:E; [done|]. apply RemoveRole_super; [done| |done].
  destruct (String.eqb_spec r RoleSuperAdmin) as [_|]; [|by left]. right. simpl in E. destruct (txUserIsActiveSuperAdmin db id) eqn:Et.
  - right. apply count_two; [done|]. simpl in E. lia.
  - left. intros Ha%txUserP; [|done]. congruence.
Qed.
Lemma insert_audit_super log db db' : insert_audit log db = Some db' → has_super db → has_super db'.
Proof. intros ->%insert_audit_only. by apply super_kept; [by eauto|]. Qed.

Lemma CreateUser_super clock fresh u db : has_super db → has_super (CreateUser clock fresh u db).1.
Proof.
  unfold CreateUser. simpl. case_match eqn:E; [done|]. apply orb_false_elim in E as [E _]. apply orb_false_elim in E as [E _]. apply orb_false_elim in E as [E _].
  apply bool_decide_eq_false, eq_None_not_Some in E. simpl. apply super_kept; [|done]. intros id v Hv Hs. exists v. simpl. rewrite lookup_insert_ne; [done|].
  intros Eq. rewrite Eq, Hv in E. done.
Qed.
(** A change of the login columns or the password of one row. *)
Lemma super_same_status db db' id u u' :
  db_users db !! id = Some u → us_Status u' = us_Status u → db_users db' = <[id := u']> (db_users db) → db_userRoles db' = db_userRoles db → has_super db → has_super db'.
Proof.
  intros Hu Es Eu Er. apply super_kept; [|by rewrite Er]. intros j v Hv Hs. rewrite Eu. destruct (decide (id = j)) as [->|Hne].
  - exists u'. rewrite lookup_insert_eq. split; [done|]. congruence.
  - exists v. by rewrite lookup_insert_ne.
Qed.
Lemma super_other_tables db db' : db_users db' = db_users db → db_userRoles db' = db_userRoles db → has_super db → has_super db'.
Proof. intros Eu Er. apply super_kept; rewrite ?Eu, ?Er; by eauto. Qed.

Ltac same_row Hu := eapply (super_same_status _ _ _ _ _ Hu); [|reflexivity|reflexivity|eassumption]; done.

#[export] Instance repo_basic_super : RepoBasic (λ _ _, True) supervised.
Proof.
  split; [done|..]; intros; apply tx_super; try apply repo_keeps_tables; intros db W Hs.
  - by apply CreateUser_super.
  - unfold AssignRole. case_match; [|done]. simpl. revert Hs. apply super_kept; [by eauto|]. simpl. set_solver.
  - unfold ReplaceRolePermissions. case_match; [done|]. destruct (permission_ids db keys); [|done]. by apply (super_other_tables db).
  - unfold RecordSuccessfulLogin. destruct (db_users db !! id) eqn:Hu; [|done]. case_match; [|done]. same_row Hu.
  - unfold RecordFailedLogin. destruct (db_users db !! id) eqn:Hu; [|done]. case_match; [|done]. same_row Hu.
  - unfold CreateSession. simpl. case_match; [done|]. by apply (super_other_tables db).
  - unfold RevokeSession. case_match; [|done]. by apply (super_other_tables db).
  - unfold TouchSessionIfStale. case_match; [|done]. simpl. case_match; [|done]. by apply (super_other_tables db).
  - unfold ChangeUserPassword. destruct (db_users db !! id) eqn:Hu; [|done]. case_match; [|done]. destruct (insert_audit _ _) eqn:Ea; [|done].
    eapply insert_audit_super; [exact Ea|]. same_row Hu.
  - unfold CreateResetToken. simpl. case_match; [done|]. by apply (super_other_tables db).
  - unfold CompleteReset. case_match; [|done]. case_match; [done|]. destruct (db_users db !! _) eqn:Hu; [|done]. same_row Hu.
  - unfold AppendAuditLog. destruct (insert_audit _ _) eqn:Ea; [by eapply insert_audit_super|done].
Qed.

(** ** Programs that overwrite an account or withdraw a role *)

Section sequential.
Context `{!Externals} (sv : AuthService) (e : Env) (Hseq : sequential e).
Local Abbreviation T := (λ _ _ : AuthDB, True) (only parsing).
Local Abbreviation Keeps m := (keeps e T supervised m (λ _, True)) (only parsing).

Lemma seq_stable P : stable e P.
Proof. intros n db HP. by rewrite Hseq. Qed.
Hint Resolve seq_stable : core.

(** Reads leave the tables as they are, so what was read still holds. *)
Section reading.
Context (db : AuthDB) (W : WF db) (Hs : has_super db).
Local Abbreviation Reads m F := (keeps e T (eq db) m F) (only parsing).
Local Abbreviation End m := (triple e T (eq db) m (λ _ db', supervised db')) (only parsing).

Lemma read_call {A} (f : Tx A) (F : A → Prop) : (f db).1 = db → (∀ a, (f db).2 = Val a → F a) → Reads (call f) F.
Proof. intros E H1. apply keeps_call; [auto|done|]. intros db' <-. by rewrite E. Qed.
Lemma read_fail {A} err : End (fail (A:=A) err).
Proof. apply triple_fail. by intros ? <-. Qed.
Lemma read_then {A B} (m : M A) (k : A → M B) F : Reads m F → (∀ a, F a → End (k a)) → End (m ≫= k).
Proof. intros Hm Hk. eapply keeps_then; [exact Hm|exact Hk|]. by intros err ? <-. Qed.

Lemma target_read id : Reads (call (GetUserRolesAndPermissions id)) (λ t, ∃ u, db_users db !! id = Some u ∧ t = aggregate db u).
Proof. apply read_call; [done|]. intros t. simpl. destruct (db_users db !! id) as [u|]; [|done]. intros [= <-]. by eauto. Qed.
Lemma require_read actor key : Reads (RequirePermission actor key) (λ _, True).
Proof. unfold RequirePermission. case_match; [by apply keeps_ret|apply keeps_fail]. Qed.
Lemma not_last_read : Reads ensureNotLastActiveSuperAdmin (λ _, True).
Proof. unfold ensureNotLastActiveSuperAdmin. eapply (keeps_bind _ _ _ _ _ (λ _, True)); [by apply read_call|]. intros c _. case_match; [apply keeps_fail|by apply keeps_ret]. Qed.
Lemma can_change_read actor t st : Reads (canChangeAdminUserStatus actor t st) (λ _, True).
Proof.
  unfold canChangeAdminUserStatus. case_match; [apply keeps_fail|]. case_match; [apply keeps_fail|]. case_match; [|by apply keeps_ret].
  eapply (keeps_bind _ _ _ _ _ (λ _, True)); [case_match; [apply not_last_read|by apply keeps_ret]|]. intros ? _. apply keeps_fail.
Qed.
Lemma validate_read actor r : Reads (validateAdminRoleID actor r) (λ _, True).
Proof.
  unfold validateAdminRoleID. case_match; [apply keeps_fail|]. case_match; [apply keeps_fail|]. eapply (keeps_bind _ _ _ _ _ (λ _, True)); [by apply read_call|].
  intros l _. case_match; [case_match; by apply keeps_ret|apply keeps_fail].
Qed.

(** One effect from the tables that were read. *)
Lemma write_call {A} (f : Time → UUID → Tx A) :
  (∀ clock fresh, tx_keeps history WF (f clock fresh) (λ _, True)) → (∀ clock fresh, has_super (f clock fresh db).1) → End (call_with f).
Proof.
  intros Hk Hf. apply triple_call; [auto|by intros ? <-|]. intros clock fresh ? <-. destruct (Hk clock fresh db W) as (_ & W' & _). split; [done|].
  split; by split.
Qed.
(** The rest keeps what the effect established. *)
Lemma write_then {A B} (m : M A) (k : A → M B) : End m → (∀ a, Keeps (k a)) → End (m ≫= k).
Proof.
  intros Hm Hk. eapply triple_bind; [exact Hm| |done]. intros x. eapply triple_weaken; [apply Hk|done|]. by intros ? ? [? _].
Qed.

(** An account that is not seen as an active super administrator is not one. *)
Lemma not_super u id : db_users db !! id = Some u → us_Status u ≠ UserStatusActive ∨ HasRole (aggregate db u) RoleSuperAdmin = false → ¬ active_super db id.
Proof.
  intros Hu Hor [(v & Hv & Hst) Hin]. assert (v = u) as -> by congruence. destruct Hor as [|Hr]; [done|]. by rewrite (HasRole_granted db u id) in Hr.
Qed.

Lemma updateAdminUser_seq u id next : db_users db !! id = Some u → us_ID next = id → End (updateAdminUser (aggregate db u) next).
Proof.
  intros Hu Eid. unfold updateAdminUser. simpl. case_match eqn:E.
  - apply triple_remap. eapply triple_weaken; [apply write_call|done|done].
    + intros. by apply guarded_update_keeps; apply _.
    + intros clock _. by apply UpdateUserPreserving_super.
  - apply write_call; [intros; apply rk_UpdateUser|]. intros clock _. apply UpdateUser_super; [done| |done].
    destruct (String.eqb_spec (us_Status next) UserStatusActive); [by left|]. right; left. rewrite Eid. eapply not_super; [done|].
    destruct (String.eqb_spec (us_Status u) UserStatusActive); [|by left]. right. by simpl in E.
Qed.
Lemma removeAdminUserRole_seq u id r : db_users db !! id = Some u → End (removeAdminUserRole (aggregate db u) r).
Proof.
  intros Hu. destruct (wf_users _ W id u Hu) as (Eid & _). unfold removeAdminUserRole. simpl. case_match eqn:E.
  - apply triple_remap. eapply triple_weaken; [apply write_call|done|done].
    + intros. by apply guarded_remove_keeps; apply _.
    + intros _ _. by apply RemoveRolePreserving_super.
  - apply write_call; [intros; apply rk_RemoveRole|]. intros _ _. apply RemoveRole_super; [done| |done].
    destruct (String.eqb_spec r RoleSuperAdmin); [|by left]. right; left. rewrite Eid. eapply not_super; [done|].
    destruct (String.eqb_spec (us_Status u) UserStatusActive); [|by left]. right. by simpl in E.
Qed.

Lemma finish_keeps x1 x2 x3 x4 x5 x6 id : Keeps (appendAuditLog x1 x2 x3 x4 x5 x6;; call (GetUserRolesAndPermissions id)).
Proof.
  apply (keeps_bind _ _ _ _ _ (λ _, True)); [apply appendAuditLog_keeps; [apply _|auto]|]. intros ? _. apply keeps_call; [auto|done|]. apply query_keeps.
Qed.

Lemma SetAdminUserStatus_seq actor i : End (SetAdminUserStatus actor i).
Proof.
  unfold SetAdminUserStatus. eapply read_then; [apply require_read|intros ? _]. eapply (read_then _ _ (λ _, True)); [case_match; [apply require_read|by apply keeps_ret]|intros ? _].
  eapply read_then; [apply target_read|intros t (u & Hu & ->)]. eapply read_then; [apply can_change_read|intros ? _].
  eapply read_then; [apply keeps_input|intros t _]. apply write_then; [|intros; apply finish_keeps]. eapply updateAdminUser_seq; [exact Hu|]. simpl.
  by destruct (wf_users _ W _ u Hu).
Qed.

Lemma set_name_read field v g id p : (∀ w u, us_ID (g w u) = us_ID u) → us_ID p.1 = id → Reads (set_name field v g p) (λ q, us_ID q.1 = id).
Proof. intros Hg Hp. unfold set_name. destruct v; [|by apply keeps_ret]. case_match; [apply keeps_fail|]. apply keeps_ret. simpl. by rewrite Hg. Qed.

Lemma UpdateAdminUser_seq actor i : End (UpdateAdminUser actor i).
Proof.
  unfold UpdateAdminUser. eapply read_then; [apply require_read|intros ? _]. eapply read_then; [apply target_read|intros t (u & Hu & ->)].
  destruct (wf_users _ W _ u Hu) as (Eid & _). case_match; [apply read_fail|]. simpl.
  eapply read_then; [by apply (set_name_read _ _ _ (ad_UserID i))|intros p1 E1]. eapply read_then; [by apply (set_name_read _ _ _ (ad_UserID i))|intros p2 E2].
  set (p3 := match ad_DisplayName i with Some v => _ | None => _ end).
  assert (us_ID p3.1 = ad_UserID i) as E3 by (unfold p3; by destruct (ad_DisplayName i)).
  eapply (read_then _ _ (λ q, us_ID q.1 = ad_UserID i)).
  - destruct (ad_Status i) as [status|]; [|by apply keeps_ret]. eapply keeps_bind; [apply can_change_read|]. intros ? _. by apply keeps_ret.
  - intros p4 E4. case_match; [apply triple_ret; by intros ? <-|]. eapply read_then; [apply keeps_input|intros t _].
    apply write_then; [|intros; apply finish_keeps]. by eapply updateAdminUser_seq.
Qed.

Lemma RemoveAdminUserRole_seq actor i : End (RemoveAdminUserRole actor i).
Proof.
  unfold RemoveAdminUserRole. eapply read_then; [apply require_read|intros ? _]. eapply read_then; [apply validate_read|intros r _].
  eapply read_then; [apply target_read|intros t (u & Hu & ->)]. case_match.
  { eapply (read_then _ _ (λ _, True)); [case_match; [apply not_last_read|by apply keeps_ret]|intros ? _]. apply read_fail. }
  case_match; [apply read_fail|]. apply write_then; [|intros; apply finish_keeps]. by eapply removeAdminUserRole_seq.
Qed.

(** The bootstrap does nothing then. *)
Lemma bootstrap_seq : End EnsureBootstrapSuperAdmin.
Proof.
  unfold EnsureBootstrapSuperAdmin. eapply (read_then _ _ (λ c, 0 < c)).
  - apply read_call; [done|]. intros c [= <-]. by apply count_positive.
  - intros c Hc. rewrite (proj2 (Z.ltb_lt 0 c) Hc). apply triple_ret. by intros ? <-.
Qed.
End reading.

Lemma op_supervised op db : supervised db → supervised (st_db (run_op sv op e (start db)).1).
Proof.
  intros [W Hs]. assert (∀ A (m : M A), triple e T (eq db) m (λ _ db', supervised db') → triple e T (eq db) (discard m) (λ _ db', supervised db')) as Hd.
  { intros A m Hm. unfold discard. apply write_then; [done|]. intros ?. by apply keeps_ret. }
  destruct op; try (by apply (keeps_run e T supervised (run_op sv _) (λ _, True) (start db)); [apply basic_ops_keep; [apply _|auto|done]|]).
  - by apply (Hd _ _ (bootstrap_seq db W Hs) (start db)).
  - by apply (Hd _ _ (UpdateAdminUser_seq db W Hs actor i) (start db)).
  - by apply (Hd _ _ (SetAdminUserStatus_seq db W Hs actor i) (start db)).
  - by apply (Hd _ _ (RemoveAdminUserRole_seq db W Hs actor i) (start db)).
Qed.
End sequential.

(** * The bootstrap account: theorems

    On a started instance there is an active super administrator: the bootstrap provides one, and
    later operations keep one. *)


#[local] Arguments TrimSpace : simpl never.
#[local] Arguments HasRole : simpl never.
#[local] Arguments unique_user : simpl never.
#[local] Arguments valid_status : simpl never.
#[local] Arguments known_user : simpl never.
#[local] Arguments role_exists : simpl never.
#[local] Arguments normalizeLoginIdentifier : simpl never.

(** A row of consistent tables does not collide with the others. *)
Lemma unique_row db id u v :
  WF db → db_users db !! id = Some u → us_ID v = id → us_UsernameNormalized v = us_UsernameNormalized u → us_EmailNormalized v = us_EmailNormalized u → unique_user db v = true.
Proof.
  intros W Hu Ei En Ee. unfold unique_user. apply forallb_forall. intros x Hx%list_elem_of_In. apply elem_of_values in Hx as [j Hj].
  destruct (wf_users _ W j x Hj) as (Ej & _). destruct (Z.eqb_spec (us_ID x) (us_ID v)) as [|Hne]; [done|]. simpl. rewrite En, Ee.
  apply andb_true_intro. split; apply negb_true_iff, andb_false_iff.
  - destruct (String.eqb_spec (us_UsernameNormalized u) ""); [by left|right]. apply String.eqb_neq. intros E. apply Hne. rewrite Ej, Ei.
    eapply (wf_usernames _ W j id x u); [done|done|congruence|done].
  - destruct (String.eqb_spec (us_EmailNormalized u) ""); [by left|right]. apply String.eqb_neq. intros E. apply Hne. rewrite Ej, Ei.
    eapply (wf_emails _ W j id x u); [done|done|congruence|done].
Qed.

Section bootstrap.
Context `{!Externals} (e : Env).

Definition admin_name : string := normalizeLoginIdentifier "administrator".
Definition admin_email : string := normalizeLoginIdentifier "administrator@theia.local".

(** Tables with the built-in role; the identifiers of the environment are not used for audit entries yet. *)
Record base (db : AuthDB) : Prop := {
  ba_WF : WF db;
  ba_role : role_exists db RoleSuperAdmin = true;
  ba_names : seeded_names db;
  ba_fresh n : ev_uuid e n ∉ al_ID <$> db_audit db }.

(** What the bootstrap needs: randomness, identifiers that are new, and that no one else has the address of the account. *)
Record bootable (db : AuthDB) : Prop := {
  bo_quiet : quiet e;
  bo_random n k : is_Some (ev_random e n k);
  bo_uuid n : ev_uuid e n ≠ uuid_Nil ∧ db_users db !! ev_uuid e n = None;
  bo_base : base db;
  bo_email id u : db_users db !! id = Some u → us_EmailNormalized u = admin_email → us_UsernameNormalized u = admin_name ∨ us_EmailNormalized u = admin_name }.

Context (db : AuthDB) (Hdb : bootable db).
Let Hq : quiet e := bo_quiet db Hdb.

(** Nothing was written yet. *)
Local Abbreviation Same := (λ s, st_db s = db) (only parsing).
(** The account is there, as the program sees it. *)
Definition present (p : User * bool) (s : St) : Prop := base (st_db s) ∧ db_users (st_db s) !! us_ID p.1 = Some p.1.
Definition active (id : UUID) (s : St) : Prop := base (st_db s) ∧ ∃ u, db_users (st_db s) !! id = Some u ∧ us_Status u = UserStatusActive.
Definition done_ (id : UUID) (s : St) : Prop := base (st_db s) ∧ active_super (st_db s) id.

Lemma base_users db' db'' : base db' → good db' db'' → db_audit db'' = db_audit db' → base db''.
Proof.
  intros [] [Hh W] Ea. split; [done| | |by rewrite Ea].
  - unfold role_exists. by rewrite (hi_roles _ _ Hh).
  - unfold seeded_names. by rewrite (hi_roles _ _ Hh).
Qed.

Lemma absent_admin : first (λ u, String.eqb (us_UsernameNormalized u) admin_name || String.eqb (us_EmailNormalized u) admin_name) (db_users db) = None →
  ∀ v, us_UsernameNormalized v = admin_name → us_EmailNormalized v = admin_email → unique_user db v = true.
Proof.
  intros Hf v En Ee. apply forallb_forall. intros x Hx%list_elem_of_In. apply elem_of_values in Hx as [j Hj].
  pose proof (first_None _ _ Hf j x Hj) as Hn. apply orb_false_elim in Hn as [Hn1 Hn2]. cbv beta. rewrite En, Ee, Hn1, andb_false_r. simpl.
  destruct (String.eqb_spec (us_EmailNormalized x) admin_email) as [E|]; [|by rewrite ?andb_false_r, orb_true_r].
  apply String.eqb_neq in Hn1, Hn2. by destruct (bo_email db Hdb j x Hj E).
Qed.

Lemma bootstrap_user_runs t : runs e Same (ensureBootstrapUser t) (λ r s, ∃ p, r = Val p ∧ present p s).
Proof.
  unfold ensureBootstrapUser. fold admin_name admin_email. pose proof (bo_base db Hdb) as Hb.
  set (found := first (λ u, String.eqb (us_UsernameNormalized u) admin_name || String.eqb (us_EmailNormalized u) admin_name) (db_users db)).
  eapply (runs_bind _ _ _ _ (λ r s, r = Val (match found with Some u => Val u | None => Fails ErrAuthUserNotFound end) ∧ st_db s = db)); [| |by intros err s [? _]].
  { apply runs_attempt, runs_call; [done|]. intros s _ _ steps ->. by split. }
  intros r. apply runs_pure. intros [= ->]. destruct found as [u|] eqn:Ef; unfold found in Ef.
  { intros s Hs. eexists. split; [done|]. split; simpl; rewrite Hs; [done|]. apply first_spec in Ef as [[id Hid] _]. by destruct (wf_users _ (ba_WF _ Hb) id u Hid) as (-> & _). }
  eapply (runs_bind _ _ _ _ (λ r s, ∃ h, r = Val h ∧ st_db s = db)); [|intros h; apply runs_exists; intros h'; apply runs_pure; intros _|by intros err s (? & ? & _)].
  { unfold hash_password. intros s Hs. destruct (bo_random db Hdb (st_tick s) 16) as [salt E]. unfold mbind, M_bind, input. simpl. rewrite E. simpl. by eauto. }
  eapply (runs_bind _ _ _ _ (λ r s, ∃ n, r = Val (ev_uuid e n) ∧ st_db s = db)); [|intros id; apply runs_exists; intros n; apply runs_pure; intros [= ->]|by intros err s (? & ? & _)].
  { intros s Hs. by eexists. }
  destruct (bo_uuid db Hdb n) as [Hnil Hfree]. set (u := mkUser _ _ _ _ _ _ _ _ _ _ _ _ _ _ _ _ _).
  eapply (runs_bind _ _ _ _ (λ r s, ∃ v, r = Val v ∧ present (v, true) s)); [|intros v s (v' & [= <-] & Hp); by eexists|by intros err s (? & ? & _)].
  apply runs_call; [done|]. intros s clock fresh steps ->. pose proof (CreateUser_good clock fresh u db (ba_WF _ Hb)) as Hg. revert Hg.
  unfold CreateUser, or_fresh. simpl. rewrite (proj2 (Z.eqb_neq _ _) Hnil). set (v := if Time_IsZero _ then _ else _).
  assert (us_ID v = ev_uuid e n ∧ us_Status v = UserStatusActive ∧ us_CreatedBy v = None ∧ us_UpdatedBy v = None ∧ us_UsernameNormalized v = admin_name ∧ us_EmailNormalized v = admin_email)
    as (E1 & E2 & E3 & E4 & E5 & E6) by (unfold v; case_match; done).
  rewrite E2. simpl. rewrite E1, E2, E3, E4, Hfree, (absent_admin Ef v E5 E6), bool_decide_eq_false_2 by (by intros []). simpl. intros Hg.
  exists v. split; [done|]. split; [by apply (base_users db)|]. simpl. rewrite E1. apply lookup_insert_eq.
Qed.

(** The account is made active, when it is not. *)
Lemma activate_runs t p : runs e (present p)
  (let '(user, created) := p in
   if negb (String.eqb (us_Status user) UserStatusActive) || bool_decide (is_Some (us_LockedUntil user)) then
     let user := user <| us_Status := UserStatusActive |> <| us_MustChangePassword := true |> <| us_FailedLoginAttempts := 0 |> <| us_LockedUntil := None |> <| us_UpdatedAt := t |> in
     call_with (λ clock _, UpdateUser clock user);; mret (user, true)
   else mret (user, created)) (λ r s, ∃ q, r = Val q ∧ us_ID q.1 = us_ID p.1 ∧ active (us_ID p.1) s).
Proof.
  destruct p as [u created]. case_match eqn:E.
  - set (u' := u <| us_Status := _ |> <| us_MustChangePassword := _ |> <| us_FailedLoginAttempts := _ |> <| us_LockedUntil := _ |> <| us_UpdatedAt := _ |>).
    eapply (runs_bind _ _ _ _ (λ r s, r = Val tt ∧ active (us_ID u) s)); [|intros []; intros s [_ Ha]; by eexists|by intros err s [? _]].
    apply runs_call; [done|]. intros s clock _ steps [Hb Hu]. simpl in Hu. pose proof (UpdateUser_good clock u' _ (ba_WF _ Hb)) as Hg. revert Hg.
    unfold UpdateUser. simpl. rewrite Hu. destruct (wf_users _ (ba_WF _ Hb) _ u Hu) as (_ & _ & _ & Hk).
    match goal with |- context [unique_user ?d ?v] => rewrite (unique_row d (us_ID u) u v (ba_WF _ Hb) Hu eq_refl eq_refl eq_refl) end.
    rewrite (proj2 (known_userP _ _) Hk). simpl. intros Hg. split; [done|].
    split; [by apply (base_users (st_db s))|]. eexists. split; [apply lookup_insert_eq|done].
  - intros s [Hb Hu]. eexists. split; [done|]. split; [done|]. split; [done|]. exists u. split; [done|]. apply orb_false_elim in E as [E _].
    by apply negb_false_iff, String.eqb_eq in E.
Qed.

Lemma HasRole_super db' u id : base db' → db_users db' !! id = Some u → us_Status u = UserStatusActive → HasRole (aggregate db' u) RoleSuperAdmin = true → active_super db' id.
Proof.
  intros Hb Hu Hs Hr. destruct (wf_users _ (ba_WF _ Hb) id u Hu) as (Eid & _). split; [by eauto|]. apply existsb_exists in Hr as (r & Hin%list_elem_of_In & Hor).
  unfold aggregate, user_roles in Hin. simpl in Hin. apply list_elem_of_filter in Hin as [Hg Hl]. rewrite Eid in Hg.
  apply orb_true_iff in Hor as [Hor|Hor]; apply String.eqb_eq in Hor; [by rewrite <- Hor|]. apply (ba_names _ Hb r Hl) in Hor. by rewrite <- Hor.
Qed.

Definition seen (id : UUID) (g : UserWithRolesAndPermissions) (s : St) : Prop :=
  ∃ u, g = aggregate (st_db s) u ∧ base (st_db s) ∧ db_users (st_db s) !! id = Some u ∧ us_Status u = UserStatusActive.
Lemma seen_runs id : runs e (active id) (call (GetUserRolesAndPermissions id)) (λ r s, ∃ g, r = Val g ∧ seen id g s).
Proof.
  apply runs_call; [done|]. intros s _ _ steps [Hb (u & Hu & Hs)]. unfold GetUserRolesAndPermissions, query. simpl. rewrite Hu. eexists. split; [done|]. by exists u.
Qed.

(** The role is assigned, when it is not there. *)
Lemma grant_runs id g repaired : runs e (seen id g)
  (if negb (HasRole g RoleSuperAdmin) then call (AssignRole id RoleSuperAdmin None);; mret true else mret repaired) (λ r s, ∃ b, r = Val b ∧ done_ id s).
Proof.
  apply runs_exists. intros u. case_match eqn:Hr.
  - eapply (runs_bind _ _ _ _ (λ r s, r = Val tt ∧ done_ id s)); [|intros []; intros s [_ Hd]; by eexists|by intros err s [? _]].
    apply runs_call; [done|]. intros s _ _ steps (_ & Hb & Hu & Hs). pose proof (AssignRole_good id RoleSuperAdmin None _ (ba_WF _ Hb)) as Hg. revert Hg.
    unfold AssignRole. rewrite (proj2 (known_userP _ (Some id))), (ba_role _ Hb) by (intros j [= <-]; by eexists). simpl. intros Hg. split; [done|].
    split; [by apply (base_users (st_db s))|]. split; [by exists u|]. simpl. set_solver.
  - intros s (-> & Hb & Hu & Hs). eexists. split; [done|]. split; [done|]. eapply HasRole_super; [done|exact Hu|done|by apply negb_false_iff].
Qed.

Lemma boot_audit_runs id action resourceID : runs e (done_ id) (appendAuditLog None (Some id) action "auth" resourceID "{}") (λ r s, r = Val tt ∧ WF (st_db s) ∧ has_super (st_db s)).
Proof.
  unfold appendAuditLog. eapply (runs_bind _ _ _ _ (λ r s, ∃ n, r = Val (ev_uuid e n) ∧ done_ id s)); [|intros i; apply runs_exists; intros n; apply runs_pure; intros [= ->]|by intros err s (? & ? & _)].
  { intros s Hs. by eexists. }
  eapply (runs_bind _ _ _ _ (λ r s, ∃ t, r = Val t ∧ done_ id s)); [intros s Hs; by eexists|intros t; apply runs_exists; intros t'; apply runs_pure; intros _|by intros err s (? & ? & _)].
  apply runs_call; [done|]. intros s clock fresh steps [Hb Ha]. destruct (bo_uuid db Hdb n) as [Hnil _].
  pose proof (AppendAuditLog_good clock fresh (mkAudit (ev_uuid e n) None (Some id) action "auth" resourceID "{}" t) _ (ba_WF _ Hb)) as Hg. revert Hg.
  unfold AppendAuditLog, or_fresh. simpl. rewrite (proj2 (Z.eqb_neq _ _) Hnil). destruct (insert_audit _ _) as [db'|] eqn:E.
  - apply insert_audit_only in E as ->. simpl. intros [_ W']. split; [done|]. split; [done|]. by exists id.
  - exfalso. unfold insert_audit in E. simpl in E. case_match eqn:Ec; [|done]. destruct Ha as [(u & Hu & _) _].
    rewrite (proj2 (known_userP _ (Some id))) in Ec by (intros j [= <-]; by eexists). simpl in Ec. rewrite orb_false_r in Ec.
    apply existsb_exists in Ec as (l & Hl%list_elem_of_In & El%Z.eqb_eq). apply (ba_fresh _ Hb n). rewrite <- El. by apply list_elem_of_fmap_2.
Qed.

Lemma bootstrap_runs : runs e Same EnsureBootstrapSuperAdmin (λ r s, ∃ v, r = Val v ∧ WF (st_db s) ∧ has_super (st_db s)).
Proof.
  unfold EnsureBootstrapSuperAdmin. pose proof (bo_base db Hdb) as Hb.
  eapply (runs_bind _ _ _ _ (λ r s, r = Val (count_active_super_admins db) ∧ st_db s = db)); [|intros c; apply runs_pure; intros [= ->]|by intros err s [? _]].
  { apply runs_call; [done|]. intros s _ _ steps ->. done. }
  destruct (Z.ltb_spec 0 (count_active_super_admins db)) as [Hc|_].
  { intros s Hs. eexists. split; [done|]. simpl. rewrite Hs. split; [apply Hb|]. apply count_positive; [apply Hb|done]. }
  eapply (runs_bind _ _ _ _ (λ r s, ∃ t, r = Val t ∧ st_db s = db)); [intros s Hs; by eexists|intros t; apply runs_exists; intros t'; apply runs_pure; intros _|by intros err s (? & ? & _)].
  eapply runs_bind; [apply bootstrap_user_runs|intros [u created]; apply runs_exists; intros p; apply runs_pure; intros [= <-]|by intros err s (? & ? & _)].
  eapply runs_bind; [apply (activate_runs t (u, created))|intros [u' repaired]; apply runs_exists; intros q; apply runs_pure; intros [= <-]|by intros err s (? & ? & _)].
  apply runs_pure. simpl. intros Eid. rewrite Eid.
  eapply runs_bind; [apply seen_runs|intros g; apply runs_exists; intros g'; apply runs_pure; intros [= <-]|by intros err s (? & ? & _)].
  eapply runs_bind; [apply grant_runs|intros again; apply runs_exists; intros b; apply runs_pure; intros [= <-]|by intros err s (? & ? & _)].
  eapply (runs_bind _ _ _ _ (λ r s, r = Val tt ∧ WF (st_db s) ∧ has_super (st_db s))); [|intros []; intros s [_ Hd]; by eexists|by intros err s [? _]].
  destruct again; [apply boot_audit_runs|]. intros s [Hb' Ha]. split; [done|]. split; [apply Hb'|by exists (us_ID u)].
Qed.
End bootstrap.

(** C18: there is always an active super administrator.  The bootstrap at startup provides one
    whatever state the accounts are in (none, disabled, locked, without the role), as long as the
    database works, the address of the account is not taken by another user and the identifiers
    generated are new.  From then on every operation, run one after the other, keeps one, whichever
    of its calls fail or lose their answer: disabling or demoting the last active super
    administrator is refused. *)
Theorem super_admin_remains `{!Externals} sv e db ops :
  bootable e db → Forall (λ p, sequential p.1) ops →
  (∃ v, (EnsureBootstrapSuperAdmin e (start db)).2 = Val v) ∧
  supervised (st_db (EnsureBootstrapSuperAdmin e (start db)).1) ∧
  supervised (run_ops sv db ((e, OpBootstrap) :: ops)).
Proof.
  intros Hb Hops. destruct (bootstrap_runs e db Hb (start db) eq_refl) as (v & Hv & Hs). split; [by exists v|]. split; [done|]. simpl.
  assert (supervised (st_db (discard EnsureBootstrapSuperAdmin e (start db)).1)) as Hd.
  { unfold discard, mbind, M_bind. destruct (EnsureBootstrapSuperAdmin e (start db)) as [s r]. simpl in *. by subst r. }
  revert Hd. generalize (st_db (discard EnsureBootstrapSuperAdmin e (start db)).1). clear Hb Hs Hv. unfold run_ops.
  induction Hops as [|[e' op] ops Hseq Hops IH]; intros db' Hs; simpl; [done|]. apply IH. by apply op_supervised.
Qed.
