(* ===== verification/AuthLogin.v ===== *)
(** * Logins and the lockout of guessed passwords

    In any fifteen minutes at most five wrong passwords are compared with the hash of an account,
    however many logins are tried; and a login succeeds only with the stored password. *)

From S2P Require Import Prelude GoLib GoText Password AuthRepo AuthService AuthAdmin AuthLogic AuthTables AuthEscalation AuthSuperAdmin.

#[local] Arguments HashToken : simpl never.
#[local] Arguments TrimSpace : simpl never.
#[local] Arguments normalizeLoginIdentifier : simpl never.

(** The clock of the service goes forward, within a window. *)
Definition in_window (from until : Time) (e : Env) : Prop := (∀ n, from <= ev_now e n < until) ∧ ∀ n m, (n <= m)%nat → ev_now e n <= ev_now e m.

(** ** One attempt *)

Definition matches (normalized : string) (u : User) : bool := String.eqb (us_UsernameNormalized u) normalized || String.eqb (us_EmailNormalized u) normalized.
(** The identifier means the account, and no other. *)
Definition resolves (users : gmap UUID User) (normalized : string) (id : UUID) : Prop :=
  normalized ≠ ""%string ∧ ∀ j u, users !! j = Some u → matches normalized u = true ↔ j = id.

(** The account after a wrong password at [t]. *)
Definition failed_row (sv : AuthService) (t : Time) (u : User) : User :=
  let attempts := if lock_expired t u then 1 else us_FailedLoginAttempts u + 1 in
  let locked := if sv_failedThreshold sv <=? attempts then Some (Time_Add t (sv_failedLockDuration sv)) else if lock_expired t u then None else us_LockedUntil u in
  u <| us_FailedLoginAttempts := attempts |> <| us_LockedUntil := locked |> <| us_UpdatedAt := t |>.
Definition locked_at (t : Time) (u : User) : Prop := ∃ until, us_LockedUntil u = Some until ∧ t < until.

Section attempt.
Context `{!Externals} (sv : AuthService) (e : Env) (Hq : quiet e) (from until : Time) (Hw : in_window from until e).
Context (users : gmap UUID User) (id : UUID) (u : User) (Hu : users !! id = Some u) (Hid : us_ID u = id) (Hst : valid_status (us_Status u) = true).

(** So far nothing was compared and the accounts are as they were. *)
Local Abbreviation Start := (λ s, db_users (st_db s) = users ∧ st_verified s = []) (only parsing).
Local Abbreviation Same r s := (db_users (st_db s) = users ∧ (st_verified s = [] ∨ st_verified s = [sv_dummyPasswordHash sv])) (only parsing).

Definition outcome (s : St) : Prop :=
  Same tt s ∨ (st_verified s = [us_PasswordHash u] ∧ ∃ t, from <= t < until ∧ ¬ locked_at t u ∧ us_Status u = UserStatusActive ∧
    (db_users (st_db s) = <[id := failed_row sv t u]> users)).

(** Reads of the environment and audit entries do not matter. *)
Definition inert {A} (m : M A) : Prop := ∀ s, db_users (st_db (m e s).1) = db_users (st_db s) ∧ st_verified (m e s).1 = st_verified s ∧ (st_tick s <= st_tick (m e s).1)%nat.

Lemma inert_input {A} (f : Env → nat → A) : inert (input f).
Proof. intros s. unfold input. simpl. split_and!; [done|done|lia]. Qed.
Lemma inert_ret {A} (a : A) : inert (mret a).
Proof. intros s. split_and!; [done|done|simpl; lia]. Qed.
Lemma inert_fail {A} err : inert (fail (A:=A) err).
Proof. intros s. split_and!; [done|done|simpl; lia]. Qed.
Lemma inert_sleep d : inert (sleep d).
Proof. intros s. split_and!; [done|done|simpl; lia]. Qed.
Lemma inert_bind {A B} (m : M A) (k : A → M B) : inert m → (∀ a, inert (k a)) → inert (m ≫= k).
Proof.
  intros Hm Hk s. destruct (Hm s) as (E1 & E2 & E3). unfold mbind, M_bind. destruct (m e s) as [s1 [a|err]]; simpl in *; [|done].
  destruct (Hk a s1) as (F1 & F2 & F3). split_and!; [congruence|congruence|lia].
Qed.
Lemma inert_attempt {A} (m : M A) : inert m → inert (attempt m).
Proof. intros Hm s. specialize (Hm s). unfold attempt. by destruct (m e s). Qed.
Lemma inert_audit x1 x2 x3 x4 x5 x6 : inert (appendAuditLog x1 x2 x3 x4 x5 x6).
Proof.
  unfold appendAuditLog. apply inert_bind; [apply inert_input|intros i]. apply inert_bind; [apply inert_input|intros t]. intros s.
  unfold call_with. destruct Hq as [Hg Hf]. rewrite Hg, Hf. unfold AppendAuditLog. destruct (insert_audit _ _) eqn:E; simpl; [|split_and!; [done|done|lia]].
  apply insert_audit_only in E as ->. split_and!; [done|done|lia].
Qed.
Lemma inert_runs {A} (m : M A) (P : gmap UUID User → list string → Prop) :
  inert m → runs e (λ s, P (db_users (st_db s)) (st_verified s)) m (λ _ s, P (db_users (st_db s)) (st_verified s)).
Proof. intros Hm s HP. destruct (Hm s) as (-> & -> & _). done. Qed.
Lemma inert_can_authenticate v : inert (ensureAggregateCanAuthenticate v).
Proof.
  unfold ensureAggregateCanAuthenticate. case_match; [apply inert_fail|]. case_match; [apply inert_fail|]. destruct (us_LockedUntil v); [|apply inert_ret].
  apply inert_bind; [apply inert_input|intros t]. case_match; [apply inert_fail|apply inert_ret].
Qed.

Definition start_state (s : St) : Prop := db_users (st_db s) = users ∧ st_verified s = [].
(** The copy of the row the program works on, after an expired lock was cleared. *)
Definition copy_of (v : User) (s : St) : Prop :=
  start_state s ∧ us_ID v = id ∧ us_PasswordHash v = us_PasswordHash u ∧ us_Status v = us_Status u ∧
  (us_LockedUntil v = us_LockedUntil u ∨ us_LockedUntil v = None ∧ ∃ n, (n <= st_tick s)%nat ∧ ¬ locked_at (ev_now e n) u).
Definition admitted (s : St) : Prop := start_state s ∧ us_Status u = UserStatusActive ∧ ∃ n, (n <= st_tick s)%nat ∧ ¬ locked_at (ev_now e n) u.

Lemma start_outcome s : start_state s → outcome s.
Proof. intros [? ?]. left. by auto. Qed.
Lemma start_inert {A} (m : M A) : inert m → runs e start_state m (λ _, start_state).
Proof. intros Hm s [E1 E2]. destruct (Hm s) as (F1 & F2 & _). split; congruence. Qed.

Lemma find_account normalized : resolves users normalized id →
  runs e start_state (attempt (call (GetUserByLoginIdentifier normalized))) (λ r s, r = Val (Val u) ∧ start_state s).
Proof.
  intros [_ Hr]. apply runs_attempt, runs_call; [done|]. intros s _ _ steps [Eu Ev]. simpl. split; [|done]. rewrite Eu.
  destruct (first _ users) as [v|] eqn:Ef.
  - apply first_spec in Ef as [[j Hj] Hm]. apply (Hr j v Hj) in Hm as ->. rewrite Hu in Hj. by simplify_eq.
  - pose proof (first_None _ _ Ef id u Hu) as Hn. pose proof (proj2 (Hr id u Hu) eq_refl) as Hm. unfold matches in Hm. simpl in Hn. congruence.
Qed.

Lemma reset_copy : runs e start_state (resetExpiredLockState u) (λ r s, ∃ v, r = Val v ∧ copy_of v s).
Proof.
  unfold resetExpiredLockState. intros s Hs. destruct (us_LockedUntil u) as [l|] eqn:El; simpl.
  - destruct (Time_After l (ev_now e (st_tick s))) eqn:Ea; simpl; (eexists; split; [done|]).
    + split_and!; [done|done|done|done|]. by left.
    + split_and!; [done|done|done|done|]. right. split; [done|]. exists (st_tick s). simpl. split; [lia|]. intros (l' & E & Hl).
      assert (l' = l) by congruence. unfold Time_After in Ea. lia.
  - eexists. split; [done|]. split_and!; [done|done|done|done|by left].
Qed.

Lemma accepted v : runs e (copy_of v) (attempt (rejectInactiveOrLocked v)) (λ r s, ∃ r', r = Val r' ∧ start_state s ∧ (r' = Val tt → admitted s)).
Proof.
  apply runs_attempt. unfold rejectInactiveOrLocked. eapply (runs_bind _ _ _ _ (λ r s, ∃ r', r = Val r' ∧ start_state s ∧ (r' = Val tt → admitted s))).
  - apply runs_attempt. intros s (Hs & Hi & Hh & Es & Hl). eexists. split; [done|]. split; [by apply (start_inert _ (inert_can_authenticate v))|].
    unfold ensureAggregateCanAuthenticate. rewrite Es. unfold admitted. case_match eqn:E1; [done|]. case_match eqn:E2; [done|].
    assert (us_Status u = UserStatusActive) as Eact.
    { unfold valid_status in Hst. simpl in Hst. apply orb_false_elim in E1 as [E1 E3]. rewrite E1, E2, E3, !orb_false_r in Hst. by apply String.eqb_eq. }
    destruct (us_LockedUntil v) as [l|] eqn:El; unfold mbind, M_bind, now, input; simpl.
    + destruct (Time_After l (ev_now e (st_tick s))) eqn:Ea; simpl; [done|]. intros _. split_and!; [done|done|]. exists (st_tick s). split; [lia|].
      destruct Hl as [Hl|[]]; [|done]. intros (l' & E & Hl'). rewrite <- Hl in E. simplify_eq. unfold Time_After in Ea. lia.
    + intros _. split_and!; [done|done|]. destruct Hl as [Hl|[_ Hn]]; [|done]. exists (st_tick s). split; [lia|]. intros (l' & E & _). congruence.
  - intros r' s (r2 & [= <-] & Hs & Ha). destruct r' as [[]|err]; [by eexists|]. unfold mbind, M_bind.
    pose proof (start_inert _ (inert_attempt _ (inert_audit None (Some (us_ID v)) "auth.login_failed" "auth" (uuid_String (us_ID v)) (reason "account_unavailable"))) s Hs) as Hs'.
    destruct (attempt _ e s) as [s' [a|]]; simpl in *; by eexists.
  - intros err s (? & ? & _). done.
Qed.

(** After the comparison: the failure is recorded on the row. *)
Definition compared (s : St) : Prop :=
  db_users (st_db s) = users ∧ st_verified s = [us_PasswordHash u] ∧ us_Status u = UserStatusActive ∧ ∃ n, (n <= st_tick s)%nat ∧ ¬ locked_at (ev_now e n) u.
Definition counted_once (s : St) : Prop :=
  st_verified s = [us_PasswordHash u] ∧ ∃ t, from <= t < until ∧ ¬ locked_at t u ∧ us_Status u = UserStatusActive ∧
    db_users (st_db s) = <[id := failed_row sv t u]> users.

Lemma counted_inert {A} (m : M A) : inert m → runs e counted_once m (λ _, counted_once).
Proof. intros Hm s (Ev & t & ? & ? & ? & Eu). destruct (Hm s) as (F1 & F2 & _). split; [congruence|]. exists t. split_and!; congruence || done || lia. Qed.

Lemma recordFailed_counted v : us_ID v = id → us_PasswordHash v = us_PasswordHash u → runs e compared (recordFailedLogin sv v) (λ _, counted_once).
Proof.
  intros Ei Eh. unfold recordFailedLogin.
  eapply (runs_bind _ _ _ _ (λ r s, ∃ t, r = Val t ∧ from <= t < until ∧ compared s ∧ ¬ locked_at t u)); [|intros t|by intros err s (? & ? & _)].
  - intros s (Eu & Ev & Ea & n & Hn & Hl). exists (ev_now e (st_tick s)). destruct Hw as [Hin Hmono]. specialize (Hmono n (st_tick s) Hn).
    split_and!; [done|apply Hin..| |].
    + split_and!; [done|done|done|]. exists n. simpl. split; [lia|done].
    + intros (l & E & Hlt). apply Hl. exists l. split; [done|lia].
  - eapply (runs_bind _ _ _ _ (λ r, counted_once)); [|intros attempts|done].
    + apply runs_remap, runs_call; [done|]. intros s _ _ steps (t' & [= <-] & Ht & (Eu & Ev & Ea & _) & Hl).
      unfold RecordFailedLogin. rewrite Eu, Ei, Hu, Eh, String.eqb_refl, Ea. simpl. split; [done|]. exists t. split_and!; [lia|lia|done|done|done].
    + eapply (runs_bind _ _ _ _ (λ r, counted_once)); [|intros _; apply counted_inert, inert_audit|done]. apply counted_inert. case_match; [apply inert_sleep|apply inert_ret].
Qed.

Lemma login_attempt i :
  resolves users (normalizeLoginIdentifier (li_Identifier i)) id → VerifyPassword argon2_Version argon2_IDKey (li_Password i) (us_PasswordHash u) ≠ Some true →
  runs e start_state (Login sv i) (λ _ s, outcome s).
Proof.
  intros Hr Hp. unfold Login. eapply (runs_bind _ _ _ _ (λ _, start_state)); [apply start_inert|intros _|intros; by apply start_outcome].
  { unfold admitPasswordWork, ctx_Err. apply inert_bind; [apply inert_bind; [apply inert_input|intros []; [apply inert_fail|apply inert_ret]]|intros _].
    apply inert_bind; [apply inert_input|intros k]. case_match; [apply inert_ret|apply inert_fail]. }
  rewrite (proj2 (String.eqb_neq _ _) (proj1 Hr)).
  eapply runs_bind; [by apply find_account|intros found; apply runs_pure; intros [= ->]|intros err s [? _]; done].
  eapply runs_bind; [by apply reset_copy|intros v; apply runs_exists; intros v'; apply runs_pure; intros [= <-]|intros err s (? & ? & _); done].
  eapply (runs_fact _ (us_ID v = id ∧ us_PasswordHash v = us_PasswordHash u)); [by intros s (_ & ? & ? & _)|intros [Ei Eh]].
  eapply runs_bind; [by apply accepted|intros r; apply runs_exists; intros r'; apply runs_pure; intros [= <-]|intros err s (? & ? & _); done].
  destruct r as [[]|err].
  - eapply (runs_bind _ _ _ _ (λ r s, r = Val (VerifyPassword argon2_Version argon2_IDKey (li_Password i) (us_PasswordHash v)) ∧ compared s)).
    + intros s [[Eu Ev] Ha]. destruct (Ha eq_refl) as (_ & Est & Hn). split; [done|]. split_and!; [done| |done|done]. simpl. by rewrite Ev, Eh.
    + intros ok. apply runs_pure. intros [= ->]. rewrite Eh, bool_decide_eq_false_2 by done. simpl.
      eapply runs_bind; [by apply recordFailed_counted|intros _ s Hs; by right|intros err s Hs; by right].
    + by intros err s [? _].
  - eapply (runs_bind _ _ _ _ (λ _ s, db_users (st_db s) = users ∧ st_verified s = [sv_dummyPasswordHash sv])); [|intros _ s [? ?]; left; by auto|intros err' s [? ?]; left; by auto].
    intros s [[Eu Ev] _]. simpl. by rewrite Ev.
Qed.
End attempt.

(** ** Many attempts *)

Section tries.
Context `{!Externals} (sv : AuthService).

(** The hashes that passwords were compared with, over logins one after the other. *)
Fixpoint login_tries (db : AuthDB) (tries : list (Env * LoginInput)) : list string :=
  match tries with
  | [] => []
  | (e, i) :: rest => let s := (Login sv i e (start db)).1 in st_verified s ++ login_tries (st_db s) rest
  end.
Definition comparisons (h : string) (l : list string) : Z := Z.of_nat (length (filter (λ x, x = h) l)).

(** Comparisons an account can still get before [until]. *)
Definition budget (until : Time) (u : User) : Z :=
  match us_LockedUntil u with
  | Some l => if until <=? l then 0 else sv_failedThreshold sv
  | None => Z.max 1 (sv_failedThreshold sv - us_FailedLoginAttempts u)
  end.

Context (Hth : 2 <= sv_failedThreshold sv) (from until : Time) (Hlen : until <= from + sv_failedLockDuration sv).

Lemma budget_spent t u : from <= t < until → ¬ locked_at t u → budget until (failed_row sv t u) + 1 <= budget until u ∧ 0 <= budget until (failed_row sv t u).
Proof.
  intros Ht Hl. unfold budget, failed_row, lock_expired, Time_Add. simpl. destruct (us_LockedUntil u) as [l|] eqn:El; simpl.
  - assert (l <= t) as Hlt. { destruct (Z.le_gt_cases l t); [done|]. destruct Hl. exists l. split; [done|lia]. }
    rewrite (proj2 (Z.leb_le l t) Hlt). simpl. rewrite (proj2 (Z.leb_gt (sv_failedThreshold sv) 1)), (proj2 (Z.leb_gt until l)) by lia. lia.
  - destruct (Z.leb_spec (sv_failedThreshold sv) (us_FailedLoginAttempts u + 1)); simpl; [|lia]. rewrite (proj2 (Z.leb_le until _)) by lia. lia.
Qed.

Lemma resolves_failed users normalized id u t : users !! id = Some u → resolves users normalized id → resolves (<[id := failed_row sv t u]> users) normalized id.
Proof.
  intros Hu [Hn Hr]. split; [done|]. intros j v. destruct (decide (j = id)) as [->|Hj]; [|rewrite lookup_insert_ne by done; apply Hr].
  rewrite lookup_insert_eq. intros [= <-]. exact (Hr id u Hu).
Qed.

(** A try at the account with a wrong password. *)
Definition guess (users : gmap UUID User) (id : UUID) (h : string) (p : Env * LoginInput) : Prop :=
  quiet p.1 ∧ in_window from until p.1 ∧ resolves users (normalizeLoginIdentifier (li_Identifier p.2)) id ∧
  VerifyPassword argon2_Version argon2_IDKey (li_Password p.2) h ≠ Some true.

Lemma guesses_budget tries db id u :
  db_users db !! id = Some u → us_ID u = id → valid_status (us_Status u) = true → sv_dummyPasswordHash sv ≠ us_PasswordHash u →
  Forall (guess (db_users db) id (us_PasswordHash u)) tries → 0 <= budget until u →
  comparisons (us_PasswordHash u) (login_tries db tries) <= budget until u.
Proof.
  revert db u. induction tries as [|[e i] tries IH]; intros db u Hu Hid Hst Hd; [done|]. intros [(Hq & Hw & Hr & Hp) Hrest]%Forall_cons Hb. simpl.
  pose proof (login_attempt sv e Hq from until Hw (db_users db) id u Hu Hid Hst i Hr Hp (start db) (conj eq_refl eq_refl)) as Ho.
  unfold comparisons. rewrite filter_app, length_app, Nat2Z.inj_add. fold (comparisons (us_PasswordHash u) (login_tries (st_db (Login sv i e (start db)).1) tries)).
  destruct Ho as [[Eu Ev]|(Ev & t & Ht & Hl & _ & Eu)].
  - assert (length (filter (λ x, x = us_PasswordHash u) (st_verified (Login sv i e (start db)).1)) = 0%nat) as ->.
    { destruct Ev as [->| ->]; [done|]. by rewrite filter_cons_False. }
    apply IH; rewrite ?Eu; done.
  - rewrite Ev, filter_cons_True by done. destruct (budget_spent t u Ht Hl) as [Hs Hb'].
    assert (comparisons (us_PasswordHash (failed_row sv t u)) (login_tries (st_db (Login sv i e (start db)).1) tries) <= budget until (failed_row sv t u)) as Hc.
    { apply (IH _ (failed_row sv t u)); [by rewrite Eu, lookup_insert_eq|done|done|done| |done].
      eapply Forall_impl; [exact Hrest|]. intros p (? & ? & ? & ?). split_and!; [done|done|rewrite Eu; by apply resolves_failed|done]. }
    simpl in *. change (us_PasswordHash (failed_row sv t u)) with (us_PasswordHash u) in Hc. lia.
Qed.
End tries.


(** * Logins: theorems

    A login succeeds only for an account whose stored hash is, at one moment during the login, the
    one the password was compared with, and that may sign in at that moment. *)


#[local] Arguments HashToken : simpl never.
#[local] Arguments TrimSpace : simpl never.
#[local] Arguments normalizeLoginIdentifier : simpl never.

(** ** Inversion of runs that return *)

Lemma bind_Val {A B} (m : M A) (k : A → M B) e s s' b : (m ≫= k) e s = (s', Val b) → ∃ a s1, m e s = (s1, Val a) ∧ k a e s1 = (s', Val b).
Proof. unfold mbind, M_bind. destruct (m e s) as [s1 [a|err]]; [by eauto|done]. Qed.
Lemma attempt_Val {A} (m : M A) e s s' r : attempt m e s = (s', Val r) → m e s = (s', r).
Proof. unfold attempt. destruct (m e s). by intros [= -> ->]. Qed.
Lemma remap_Val {A} f (m : M A) e s s' a : remap f m e s = (s', Val a) → m e s = (s', Val a).
Proof. unfold remap. destruct (m e s) as [s1 [b|err]]; by intros [= -> ->]. Qed.

(** A call that returns took effect. *)
Lemma call_Val {A} (f : Time → UUID → Tx A) e s s' a :
  call_with f e s = (s', Val a) → ∃ clock fresh before after, f clock fresh before = (after, Val a) ∧ st_steps s' = st_steps s ++ [(before, after)].
Proof.
  unfold call_with. destruct (f _ _ _) as [db' r] eqn:E. destruct (ev_fault e (st_tick s)); intros Hc; [|done..]. injection Hc as <- ->.
  do 4 eexists. split; [exact E|done].
Qed.

Lemma plain_call_Val {A} (f : Tx A) e s s' a : call f e s = (s', Val a) → ∃ before after, f before = (after, Val a) ∧ st_steps s' = st_steps s ++ [(before, after)].
Proof. unfold call. intros (_ & _ & b & b' & E)%call_Val. by exists b, b'. Qed.

(** Own effects are only added. *)
Definition extends (s s' : St) : Prop := ∃ l, st_steps s' = st_steps s ++ l.
#[export] Instance extends_order : PreOrder extends.
Proof.
  split; [intros s; exists []; by rewrite app_nil_r|]. intros s1 s2 s3 [l E1] [l' E2]. exists (l ++ l'). by rewrite E2, E1, app_assoc.
Qed.
Lemma extends_elem s s' p : extends s s' → p ∈ st_steps s → p ∈ st_steps s'.
Proof. intros [l ->] Hp. apply elem_of_app. by left. Qed.

#[export] Instance repo_trivial : RepoKeeps (λ _ _, True) (λ _, True).
Proof. split; [split|..]; done. Qed.

Section login.
Context `{!Externals} (sv : AuthService) (e : Env).

Lemma keeps_extends {A} (m : M A) F s s' r : keeps e (λ _ _, True) (λ _, True) m F → m e s = (s', r) → extends s s'.
Proof. intros Hk E. destruct (keeps_run _ _ _ _ _ s Hk I) as [_ (l & El & _)]. exists l. by rewrite E in El. Qed.
Lemma stable_True : stable e (λ _, True).
Proof. done. Qed.

Lemma bind_extends {A B} (m : M A) (k : A → M B) F s s' b :
  (m ≫= k) e s = (s', Val b) → keeps e (λ _ _, True) (λ _, True) m F → ∃ a s1, extends s s1 ∧ k a e s1 = (s', Val b).
Proof. intros (a & s1 & E1 & E2)%bind_Val Hk. exists a, s1. split; [by eapply keeps_extends|done]. Qed.

(** ** What a successful login did *)

(** The account may sign in at [t] with the password that was compared. *)
Definition may_sign_in (db : AuthDB) (id : UUID) (h : string) (t : Time) : Prop :=
  ∃ u, db_users db !! id = Some u ∧ us_PasswordHash u = h ∧ us_Status u = UserStatusActive ∧ ∀ l, us_LockedUntil u = Some l → l <= t.

Lemma success_may id h t db db' : RecordSuccessfulLogin id h t db = (db', Val tt) → may_sign_in db id h t.
Proof.
  unfold RecordSuccessfulLogin. destruct (db_users db !! id) as [u|] eqn:Hu; [|done]. case_match eqn:E; [|done]. intros _. exists u.
  apply andb_prop in E as [E Hl]. apply andb_prop in E as [Eh Es]. apply String.eqb_eq in Eh, Es. split_and!; [done|done|done|]. intros l El.
  unfold lock_expired in Hl. rewrite El in Hl. rewrite bool_decide_eq_false_2 in Hl by done. simpl in Hl. lia.
Qed.

(** The session a login leaves. *)
Definition session_for (r : LoginResult) (id : UUID) (t : Time) (db : AuthDB) : Prop :=
  ∃ s, db_sessions db !! se_ID s = Some s ∧ se_UserID s = id ∧ se_TokenHash s = HashToken (lr_SessionToken r) (sv_sessionSecret sv) ∧
    se_CSRFTokenHash s = HashToken (lr_CSRFToken r) (sv_sessionSecret sv) ∧ se_ExpiresAt s = lr_ExpiresAt r ∧ lr_ExpiresAt r = Time_Add t (sv_sessionTTL sv) ∧ se_RevokedAt s = None.

Lemma created_session clock fresh n b3 a3 r id h1 h2 t x :
  CreateSession clock fresh n b3 = (a3, Val x) → n = mkSession (se_ID n) id h1 h2 t (Time_Add t (sv_sessionTTL sv)) None None (se_IPAddress n) (se_UserAgent n) →
  h1 = HashToken (lr_SessionToken r) (sv_sessionSecret sv) → h2 = HashToken (lr_CSRFToken r) (sv_sessionSecret sv) → lr_ExpiresAt r = Time_Add t (sv_sessionTTL sv) →
  session_for r id t a3 ∧ se_ExpiresAt x = Time_Add t (sv_sessionTTL sv).
Proof.
  intros Hc En -> -> Ee. unfold CreateSession in Hc. case_match; [done|]. injection Hc as <- <-. rewrite En. simpl. split; [|done].
  eexists. split; [apply lookup_insert_eq|]. simpl. by rewrite Ee.
Qed.

Lemma find_row normalized db u : (GetUserByLoginIdentifier normalized db).2 = Val u → ∃ j, db_users db !! j = Some u ∧ matches normalized u = true.
Proof.
  unfold GetUserByLoginIdentifier, query. simpl. destruct (first _ _) as [v|] eqn:Ef; [|done]. intros [= ->]. apply first_spec in Ef as [[j Hj] Hm]. by exists j.
Qed.

(** An expired lock is cleared on the copy only. *)
Lemma reset_lock_copy u s s' v : resetExpiredLockState u e s = (s', Val v) → extends s s' ∧ us_ID v = us_ID u ∧ us_PasswordHash v = us_PasswordHash u.
Proof.
  unfold resetExpiredLockState. destruct (us_LockedUntil u) as [l|]; [|intros [= <- <-]; split; [by exists []; rewrite app_nil_r|done]].
  unfold mbind, M_bind, now, input. simpl. intros [= <- <-]. split; [by exists []; rewrite app_nil_r|]. by case_match.
Qed.

(** From the verified password on. *)
Lemma login_tail i v s s' r :
  (t ← now;
   remap (λ err, is_err ErrAuthUserNotFound err ErrInvalidCredentials) (call (RecordSuccessfulLogin (us_ID v) (us_PasswordHash v) t));;
   aggregate ← call (GetUserRolesAndPermissions (us_ID v));
   sessionToken ← random_token;
   csrfToken ← random_token;
   id ← uuid_New;
   let session := mkSession id (us_ID v) (HashToken sessionToken (sv_sessionSecret sv)) (HashToken csrfToken (sv_sessionSecret sv))
     t (Time_Add t (sv_sessionTTL sv)) None None (li_IPAddress i) (li_UserAgent i) in
   session ← call_with (λ clock fresh, CreateSession clock fresh session);
   appendAuditLog (Some (us_ID v)) (Some (us_ID v)) "auth.login" "auth" (uuid_String (us_ID v)) "{}";;
   mret (mkLoginResult aggregate (authenticatedSessionFromDomain session) sessionToken csrfToken (se_ExpiresAt session))) e s = (s', Val r) →
  extends s s' ∧ ∃ t b1 a1 b2 u2 b3 a3, (b1, a1) ∈ st_steps s' ∧ may_sign_in b1 (us_ID v) (us_PasswordHash v) t ∧
    (b2, b2) ∈ st_steps s' ∧ db_users b2 !! us_ID v = Some u2 ∧ lr_User r = aggregate b2 u2 ∧ (b3, a3) ∈ st_steps s' ∧ session_for r (us_ID v) t a3.
Proof.
  intros E. eapply bind_extends in E as (t & s1 & X1 & E); [|apply keeps_input]. apply bind_Val in E as ([] & s2 & E2%remap_Val & E). apply plain_call_Val in E2 as (b1 & a1 & Er & Es2).
  apply bind_Val in E as (g & s3 & E3 & E). apply plain_call_Val in E3 as (b2 & a2 & Eg & Es3).
  unfold GetUserRolesAndPermissions, query in Eg. injection Eg as <- Eg. destruct (db_users b2 !! us_ID v) as [u2|] eqn:Hu2; [|done]. simpl in Eg. injection Eg as <-.
  apply (bind_extends _ _ (λ _, True)) in E as (tok & s4 & X4 & E); [|by apply random_token_keeps; apply _].
  apply (bind_extends _ _ (λ _, True)) in E as (csrf & s5 & X5 & E); [|by apply random_token_keeps; apply _].
  eapply bind_extends in E as (id & s6 & X6 & E); [|apply keeps_input]. apply bind_Val in E as (x & s7 & E7 & E).
  apply call_Val in E7 as (clock & fresh & b3 & a3 & Ec & Es7).
  apply (bind_extends _ _ (λ _, True)) in E as ([] & s8 & X8 & E); [|by apply appendAuditLog_keeps].
  assert (E' : s8 = s' ∧ r = mkLoginResult (aggregate b2 u2) (authenticatedSessionFromDomain x) tok csrf (se_ExpiresAt x)) by (unfold mret, M_ret in E; by simplify_eq).
  destruct E' as [<- Er']. assert (X26 : extends s3 s8) by (etrans; [exact X4|]; etrans; [exact X5|]; etrans; [exact X6|]; etrans; [by exists [(b3, a3)]|exact X8]).
  assert (Hx : session_for r (us_ID v) t a3).
  { destruct (created_session _ _ _ _ _ (mkLoginResult (aggregate b2 u2) (authenticatedSessionFromDomain x) tok csrf (Time_Add t (sv_sessionTTL sv))) _ _ _ t x Ec eq_refl eq_refl eq_refl eq_refl)
      as [Hs Ex]. subst r. unfold session_for in *. simpl in *. by rewrite Ex. }
  split; [etrans; [exact X1|]; etrans; [by exists [(b1, a1)]|]; etrans; [by exists [(b2, b2)]|exact X26]|].
  exists t, b1, a1, b2, u2, b3, a3. split_and!; [|by eapply success_may| |done|by subst r| |done].
  - eapply extends_elem; [exact X26|]. rewrite Es3, Es2. set_solver.
  - eapply extends_elem; [exact X26|]. rewrite Es3. set_solver.
  - eapply extends_elem; [exact X8|]. rewrite Es7. set_solver.
Qed.

End login.
