(* ===== verification/AuthDemo.v ===== *)
(** * Authentication: a concrete instance

    A service with stand-ins for the external functions, an instance with two accounts, the
    theorems at work on it, and two interleavings in which administration goes wrong. *)

From S2P Require Import Prelude GoLib GoText Password AuthRepo AuthService AuthAdmin AuthLogic AuthTables AuthEscalation AuthSuperAdmin AuthLogin.

Definition ascii_classes : UnicodeClasses :=
  {| IsUpper r := (65 <=? r) && (r <=? 90); IsLower r := (97 <=? r) && (r <=? 122); IsDigit r := (48 <=? r) && (r <=? 57);
     IsPunct r := (33 <=? r) && (r <=? 47); IsSymbol r := false |}.

#[export] Instance demo_externals : Externals :=
  {| argon2_Version := 19; argon2_IDKey := demo_IDKey; unicode_classes := ascii_classes; unicode_lower := λ s, s; uuid_String := Itoa; json_Marshal := λ _, Some "{}"%string |}.

Definition demo_config : AuthServiceConfig := mkAuthServiceConfig 0 true true true true true [1; 2; 3] 0 0.
Definition demo_auth : AuthService := default (mkAuthService 0 [] "" 0 0 0 0 0 0) (NewAuthService demo_config (Some demo_salt)).

(** Undisturbed, at one moment; identifiers and randomness follow from the base. *)
Definition demo_env (base t : Z) : Env :=
  mkEnv (λ _, Completes) (λ _ db, db) (λ _, t) (λ _, t) (λ n, base + Z.of_nat n) (λ n k, Some (map (λ i, (base + Z.of_nat n + Z.of_nat i) mod 256) (seq 0 k))) (λ _, false) (λ _, 0).
(** The same with other work before one call. *)
Definition disturbed (base t : Z) (at_ : nat) (work : AuthDB → AuthDB) : Env :=
  let e := demo_env base t in mkEnv (ev_fault e) (λ n db, if (n =? at_)%nat then work db else db) (ev_now e) (ev_clock e) (ev_uuid e) (ev_random e) (ev_cancelled e) (ev_inflight e).

(** The bootstrapped instance, its administrator, and an account it created. *)
Definition demo_db1 : AuthDB := run_ops demo_auth seeded_db [(demo_env 100 Hour, OpBootstrap)].
Definition named (db : AuthDB) (name : string) : User :=
  default (mkUser 0 "" "" "" "" "" "" "" false 0 0 None None 0 None None None) (first (λ u, String.eqb (us_Username u) name) (db_users db)).
Definition as_actor (db : AuthDB) (u : User) : AuthenticatedUser := mkAuthenticatedUser "" "" (aggregate db u) (mkAuthenticatedSession 0 (us_ID u) 0 0 None "" "").
Definition root_actor : AuthenticatedUser := as_actor demo_db1 (named demo_db1 "administrator").
Definition demo_ops : list (Env * AuthOp) :=
  [(demo_env 100 Hour, OpBootstrap);
   (demo_env 200 Hour, OpCreateAdminUser (Some root_actor) (mkAdminCreateUserInput "ops" "ops@example.org" "Ops" "Secret-Word-1" false ["admin"%string]))].
Definition demo_db2 : AuthDB := run_ops demo_auth seeded_db demo_ops.
Definition root_user : User := named demo_db2 "administrator".
Definition ops_user : User := named demo_db2 "ops".
Definition ops_actor : AuthenticatedUser := as_actor demo_db2 ops_user.

Lemma demo_fair base t : fair (demo_env base t).
Proof. intros n db W. by apply good_refl. Qed.

Example demo_accounts : us_Username root_user = "administrator"%string ∧ us_Username ops_user = "ops"%string ∧ size (db_users demo_db2) = 2%nat ∧
  count_active_super_admins demo_db2 = 1 ∧ length (db_audit demo_db2) = 2%nat.
Proof. vm_compute. repeat split. Qed.

Lemma demo_service : NewAuthService demo_config (Some demo_salt) = Some demo_auth.
Proof. reflexivity. Qed.
Lemma demo_fairs : Forall (λ p : Env * AuthOp, fair p.1) demo_ops.
Proof. repeat (apply Forall_cons; split; [apply demo_fair|]). apply Forall_nil_2. Qed.
Lemma demo_WF : WF demo_db2.
Proof. apply (run_ops_good demo_auth seeded_db demo_ops seeded_WF demo_fairs). Qed.

(** ** The theorems at work *)

Lemma tables_consistent_witness : WF demo_db2 ∧ history seeded_db demo_db2.
Proof. exact (proj2 (tables_consistent demo_auth seeded_db demo_ops) seeded_WF demo_fairs). Defined.

Definition check_names (db : AuthDB) : bool := forallb (λ r, Bool.eqb (String.eqb (role_Name r) RoleSuperAdmin) (String.eqb (role_ID r) RoleSuperAdmin)) (db_roles db).
Lemma check_names_spec db : check_names db = true → seeded_names db.
Proof.
  unfold check_names. rewrite forallb_forall. intros H r Hr%list_elem_of_In. specialize (H r Hr). apply Bool.eqb_prop in H.
  rewrite <- !String.eqb_eq, H. done.
Qed.

Lemma seeded_bootable : bootable (demo_env 100 Hour) seeded_db.
Proof.
  destruct seeded_rest as (Eu & _ & _ & _ & Ea). split.
  - split; [by intros n db|by intros n].
  - intros n k. by eexists.
  - intros n. rewrite Eu. split; [simpl; unfold uuid_Nil; lia|apply lookup_empty].
  - split; [apply seeded_WF|vm_compute; reflexivity|apply check_names_spec; vm_compute; reflexivity|]. intros n. rewrite Ea. apply not_elem_of_nil.
  - intros id u. rewrite Eu. by rewrite lookup_empty.
Qed.
Lemma demo_sequential : Forall (λ p : Env * AuthOp, sequential p.1) (drop 1 demo_ops).
Proof. apply Forall_cons_2; [by intros n db|apply Forall_nil_2]. Qed.
Lemma super_admin_remains_witness : supervised demo_db2.
Proof. exact (proj2 (proj2 (super_admin_remains demo_auth (demo_env 100 Hour) seeded_db (drop 1 demo_ops) seeded_bootable demo_sequential))). Defined.

Lemma demo_protected : protected (us_ID ops_user) (us_ID root_user) demo_db2.
Proof.
  split; [exact demo_WF|apply check_names_spec; vm_compute; reflexivity| |].
  - apply (bool_decide_unpack _). vm_compute. exact I.
  - apply (bool_decide_unpack _). vm_compute. exact I.
Qed.
Definition demo_demotion : AuthOp := OpRemoveAdminUserRole (Some ops_actor) (mkAdminUserRoleInput (us_ID root_user) "admin").
Lemma admin_cannot_escalate_witness :
  ∃ l, st_steps (run_op demo_auth demo_demotion (demo_env 300 Hour) (start demo_db2)).1 = [] ++ l ∧
    Forall (λ p, no_escalation (us_ID (ag_User (au_User ops_actor))) (us_ID root_user) p.1 p.2) l.
Proof.
  apply (admin_cannot_escalate demo_auth (demo_env 300 Hour) ops_actor (us_ID root_user) demo_demotion (start demo_db2)).
  - vm_compute. reflexivity.
  - reflexivity.
  - by intros n db.
  - exact demo_protected.
Defined.

(** The administrator signs in. *)
Definition demo_login_input : LoginInput := mkLoginInput " Administrator " "theia" "10.0.0.1" "browser".
Local Abbreviation demo_login := (Login demo_auth demo_login_input (demo_env 400 Hour) (start demo_db2)) (only parsing).
Definition returned {A} (p : St * answer A) (d : A) : A := match p.2 with Val a => a | Fails _ => d end.
Definition returns {A} (p : St * answer A) : bool := match p.2 with Val _ => true | Fails _ => false end.
Lemma returned_eq {A} (p : St * answer A) d : returns p = true → p = (p.1, Val (returned p d)).
Proof. by destruct p as [s [a|err]]. Qed.
Definition no_result : LoginResult := mkLoginResult (aggregate demo_db2 root_user) (mkAuthenticatedSession 0 0 0 0 None "" "") "" "" 0.
Definition demo_result : LoginResult := returned demo_login no_result.
Lemma demo_login_ok : returns demo_login = true.
Proof. vm_compute. reflexivity. Qed.
Lemma demo_login_returns : demo_login = (demo_login.1, Val demo_result).
Proof. exact (returned_eq demo_login no_result demo_login_ok). Qed.

(** Seven wrong guesses within a quarter of an hour. *)
Definition demo_guesses : list (Env * LoginInput) := map (λ n, (demo_env (500 + 20 * Z.of_nat n) (Hour + Z.of_nat n * Minute), mkLoginInput "ops" "guess" "" "")) (seq 0 7).
Definition check_resolves (users : gmap UUID User) (normalized : string) (id : UUID) : bool :=
  negb (String.eqb normalized "") && forallb (λ p : UUID * User, Bool.eqb (matches normalized p.2) (p.1 =? id)) (map_to_list users).
Lemma check_resolves_spec users normalized id : check_resolves users normalized id = true → resolves users normalized id.
Proof.
  unfold check_resolves. intros [Hn%negb_true_iff%String.eqb_neq Hf]%andb_prop. split; [done|]. intros j u Hj%elem_of_map_to_list%list_elem_of_In.
  rewrite forallb_forall in Hf. specialize (Hf _ Hj). apply Bool.eqb_prop in Hf. simpl in Hf. by rewrite Hf, Z.eqb_eq.
Qed.
Lemma ops_row : db_users demo_db2 !! us_ID ops_user = Some ops_user.
Proof. vm_compute. reflexivity. Qed.
Lemma demo_guess n : (n < 7)%nat →
  guess Hour (Hour + 15 * Minute) (db_users demo_db2) (us_ID ops_user) (us_PasswordHash ops_user) (demo_env (500 + 20 * Z.of_nat n) (Hour + Z.of_nat n * Minute), mkLoginInput "ops" "guess" "" "").
Proof.
  intros Hn. split; [split; [by intros m db|by intros m]|]. split; [split; [|by intros m k _]|].
  - intros m. simpl. unfold Minute, Second. lia.
  - split; [apply check_resolves_spec; vm_compute; reflexivity|vm_compute; discriminate].
Qed.
(** The bound is reached. *)
Example guesses_made : comparisons (us_PasswordHash ops_user) (login_tries demo_auth demo_db2 demo_guesses) = 5.
Proof. vm_compute. reflexivity. Qed.

(** The administrator signs out, and its token is worth nothing any more. *)
Definition demo_db3 : AuthDB := run_ops demo_auth demo_db2 [(demo_env 400 Hour, OpLogin demo_login_input)].
Definition demo_token : string := lr_SessionToken demo_result.
Definition demo_session : AuthSession :=
  default (mkSession 0 0 "" "" 0 0 None None "" "") (first (λ s, String.eqb (se_TokenHash s) (HashToken demo_token (sv_sessionSecret demo_auth))) (db_sessions demo_db3)).
Definition demo_logout : AuthOp := OpLogout demo_token.
Lemma demo_WF3 : WF demo_db3.
Proof. apply (run_ops_good demo_auth demo_db2 _ demo_WF). apply Forall_cons_2; [apply demo_fair|apply Forall_nil_2]. Qed.
Lemma demo_session_row : db_sessions demo_db3 !! se_ID demo_session = Some demo_session.
Proof. vm_compute. reflexivity. Qed.
Lemma demo_session_hash : se_TokenHash demo_session = HashToken (TrimSpace demo_token) (sv_sessionSecret demo_auth).
Proof. vm_compute. reflexivity. Qed.
Lemma demo_logout_returns : (run_op demo_auth demo_logout (demo_env 600 Hour) (start demo_db3)).2 = Val tt.
Proof. vm_compute. reflexivity. Qed.
Lemma ended_session_refused_witness :
  ∃ err, (CurrentUser demo_auth demo_token (demo_env 700 Hour) (start (run_ops demo_auth demo_db3 [(demo_env 600 Hour, demo_logout)]))).2 = Fails err.
Proof.
  apply (ended_session_refused demo_auth demo_db3 (demo_env 600 Hour) demo_logout (se_ID demo_session) demo_session [] (demo_env 700 Hour) demo_token
    demo_WF3 (demo_fair _ _) (Forall_nil_2 _) (demo_fair _ _) demo_session_row demo_session_hash demo_logout_returns (eq_sym demo_session_hash)).
Defined.
(** Before, it was accepted. *)
Example demo_session_accepted : returns (CurrentUser demo_auth demo_token (demo_env 700 Hour) (start demo_db3)) = true.
Proof. vm_compute. reflexivity. Qed.

(** ** Interleavings that go wrong *)

(** An administrator renames an account while its owner changes the password: the whole row as it
    was read is written back, and the old password is valid again. *)
Definition owner_changes_password (db : AuthDB) : AuthDB :=
  run_ops demo_auth db [(demo_env 800 Hour, OpChangePassword (mkPasswordChangeInput (us_ID ops_user) None "Secret-Word-1" "Another-Word-2"))].
Definition rename : AuthOp := OpUpdateAdminUser (Some root_actor) (mkAdminUpdateUserInput (us_ID ops_user) None None (Some "Operations"%string) None).
Definition verifies (db : AuthDB) (password : string) : bool :=
  bool_decide (VerifyPassword argon2_Version argon2_IDKey password (us_PasswordHash (named db "ops")) = Some true).
Example stale_write_restores_password :
  let db := st_db (run_op demo_auth rename (disturbed 900 Hour 2 owner_changes_password) (start demo_db2)).1 in
  verifies (owner_changes_password demo_db2) "Another-Word-2" = true ∧ verifies (owner_changes_password demo_db2) "Secret-Word-1" = false ∧
  verifies db "Another-Word-2" = false ∧ verifies db "Secret-Word-1" = true.
Proof. vm_compute. repeat split. Qed.

(** The super administrator disables an account; in between the account was made a super
    administrator and the first one gave up the role, which was allowed as there were two.  The
    account was no super administrator when it was read, so the last one goes. *)
Definition hand_over (db : AuthDB) : AuthDB :=
  let db := run_ops demo_auth db [(demo_env 1000 Hour, OpAssignAdminUserRole (Some root_actor) (mkAdminUserRoleInput (us_ID ops_user) "super_admin"))] in
  run_ops demo_auth db [(demo_env 1100 Hour, OpRemoveAdminUserRole (Some (as_actor db (named db "ops"))) (mkAdminUserRoleInput (us_ID root_user) "super_admin"))].
Definition disable_ops : AuthOp := OpSetAdminUserStatus (Some root_actor) (mkAdminUserStatusInput (us_ID ops_user) UserStatusDisabled).
Example last_super_admin_lost :
  count_active_super_admins (hand_over demo_db2) = 1 ∧
  count_active_super_admins (st_db (run_op demo_auth disable_ops (disturbed 1200 Hour 2 hand_over) (start demo_db2)).1) = 0.
Proof. vm_compute. repeat split. Qed.
