(* ===== verification/BulkData.v ===== *)
(** * Backup jobs and durable bulk runs: the records

    [internal/domain/backup.go] and the tables behind it ([migrations/000019] to [000022]): backup
    jobs, bulk runs with the lease of their processor, and the items of a run, one per device.
    The status columns of runs and items are constrained to the values below by the schema, so
    they are enumerations here; the empty status, which [CreateRun] would replace by a default, has
    no counterpart, since its caller always sets one. *)

From S2P Require Import Prelude GoLib Domain.

(** ** Statuses *)

Inductive BackupStatus := BackupStatusPending | BackupStatusRunning | BackupStatusSuccess | BackupStatusFailed.

Inductive BulkBackupRunStatus :=
| BulkBackupRunStatusRunning | BulkBackupRunStatusPausing | BulkBackupRunStatusPaused | BulkBackupRunStatusCancelling
| BulkBackupRunStatusSuccess | BulkBackupRunStatusPartial | BulkBackupRunStatusFailed | BulkBackupRunStatusCancelled.

Inductive BulkBackupRunItemStatus :=
| BulkBackupRunItemStatusChecking | BulkBackupRunItemStatusSkipped | BulkBackupRunItemStatusActive
| BulkBackupRunItemStatusQueued | BulkBackupRunItemStatusRunning | BulkBackupRunItemStatusSuccess
| BulkBackupRunItemStatusFailed | BulkBackupRunItemStatusCancelled.

#[export] Instance BackupStatus_eq_dec : EqDecision BackupStatus.
Proof. solve_decision. Defined.
#[export] Instance BulkBackupRunStatus_eq_dec : EqDecision BulkBackupRunStatus.
Proof. solve_decision. Defined.
#[export] Instance BulkBackupRunItemStatus_eq_dec : EqDecision BulkBackupRunItemStatus.
Proof. solve_decision. Defined.

(** [bulkRunTerminal] and [bulkRunItemTerminal] of the service; the statements of the repository spell the same lists out. *)
Definition bulkRunTerminal (status : BulkBackupRunStatus) : bool :=
  match status with
  | BulkBackupRunStatusSuccess | BulkBackupRunStatusPartial | BulkBackupRunStatusFailed | BulkBackupRunStatusCancelled => true
  | _ => false
  end.

Definition bulkRunItemTerminal (status : BulkBackupRunItemStatus) : bool :=
  match status with
  | BulkBackupRunItemStatusSkipped | BulkBackupRunItemStatusSuccess | BulkBackupRunItemStatusFailed | BulkBackupRunItemStatusCancelled => true
  | _ => false
  end.

(** ** Records *)

(** [Files] is loaded separately and left out. *)
Record BackupJob := mkJob {
  bj_ID : UUID;
  bj_DeviceID : UUID;
  bj_Status : BackupStatus;
  bj_ErrorMessage : string;
  bj_CreatedAt : Time }.
#[export] Instance upd_bj_Status : Update bj_Status := λ v r, mkJob (bj_ID r) (bj_DeviceID r) v (bj_ErrorMessage r) (bj_CreatedAt r).
#[export] Instance upd_bj_ErrorMessage : Update bj_ErrorMessage := λ v r, mkJob (bj_ID r) (bj_DeviceID r) (bj_Status r) v (bj_CreatedAt r).
#[export] Instance upd_bj_CreatedAt : Update bj_CreatedAt := λ v r, mkJob (bj_ID r) (bj_DeviceID r) (bj_Status r) (bj_ErrorMessage r) v.

Record BulkBackupRunItem := mkItem {
  bi_ID : UUID;
  bi_RunID : UUID;
  bi_DeviceID : UUID;
  bi_DeviceName : string;
  bi_Status : BulkBackupRunItemStatus;
  bi_Reason : string;
  bi_BackupJobID : option UUID;
  bi_FileCount : Z;
  bi_ByteCount : Z;
  bi_CreatedAt : Time;
  bi_UpdatedAt : Time;
  bi_CompletedAt : option Time }.
#[export] Instance upd_bi_ID : Update bi_ID := λ v r, mkItem v (bi_RunID r) (bi_DeviceID r) (bi_DeviceName r) (bi_Status r) (bi_Reason r) (bi_BackupJobID r) (bi_FileCount r) (bi_ByteCount r) (bi_CreatedAt r) (bi_UpdatedAt r) (bi_CompletedAt r).
#[export] Instance upd_bi_RunID : Update bi_RunID := λ v r, mkItem (bi_ID r) v (bi_DeviceID r) (bi_DeviceName r) (bi_Status r) (bi_Reason r) (bi_BackupJobID r) (bi_FileCount r) (bi_ByteCount r) (bi_CreatedAt r) (bi_UpdatedAt r) (bi_CompletedAt r).
#[export] Instance upd_bi_DeviceID : Update bi_DeviceID := λ v r, mkItem (bi_ID r) (bi_RunID r) v (bi_DeviceName r) (bi_Status r) (bi_Reason r) (bi_BackupJobID r) (bi_FileCount r) (bi_ByteCount r) (bi_CreatedAt r) (bi_UpdatedAt r) (bi_CompletedAt r).
#[export] Instance upd_bi_DeviceName : Update bi_DeviceName := λ v r, mkItem (bi_ID r) (bi_RunID r) (bi_DeviceID r) v (bi_Status r) (bi_Reason r) (bi_BackupJobID r) (bi_FileCount r) (bi_ByteCount r) (bi_CreatedAt r) (bi_UpdatedAt r) (bi_CompletedAt r).
#[export] Instance upd_bi_Status : Update bi_Status := λ v r, mkItem (bi_ID r) (bi_RunID r) (bi_DeviceID r) (bi_DeviceName r) v (bi_Reason r) (bi_BackupJobID r) (bi_FileCount r) (bi_ByteCount r) (bi_CreatedAt r) (bi_UpdatedAt r) (bi_CompletedAt r).
#[export] Instance upd_bi_Reason : Update bi_Reason := λ v r, mkItem (bi_ID r) (bi_RunID r) (bi_DeviceID r) (bi_DeviceName r) (bi_Status r) v (bi_BackupJobID r) (bi_FileCount r) (bi_ByteCount r) (bi_CreatedAt r) (bi_UpdatedAt r) (bi_CompletedAt r).
#[export] Instance upd_bi_BackupJobID : Update bi_BackupJobID := λ v r, mkItem (bi_ID r) (bi_RunID r) (bi_DeviceID r) (bi_DeviceName r) (bi_Status r) (bi_Reason r) v (bi_FileCount r) (bi_ByteCount r) (bi_CreatedAt r) (bi_UpdatedAt r) (bi_CompletedAt r).
#[export] Instance upd_bi_FileCount : Update bi_FileCount := λ v r, mkItem (bi_ID r) (bi_RunID r) (bi_DeviceID r) (bi_DeviceName r) (bi_Status r) (bi_Reason r) (bi_BackupJobID r) v (bi_ByteCount r) (bi_CreatedAt r) (bi_UpdatedAt r) (bi_CompletedAt r).
#[export] Instance upd_bi_ByteCount : Update bi_ByteCount := λ v r, mkItem (bi_ID r) (bi_RunID r) (bi_DeviceID r) (bi_DeviceName r) (bi_Status r) (bi_Reason r) (bi_BackupJobID r) (bi_FileCount r) v (bi_CreatedAt r) (bi_UpdatedAt r) (bi_CompletedAt r).
#[export] Instance upd_bi_CreatedAt : Update bi_CreatedAt := λ v r, mkItem (bi_ID r) (bi_RunID r) (bi_DeviceID r) (bi_DeviceName r) (bi_Status r) (bi_Reason r) (bi_BackupJobID r) (bi_FileCount r) (bi_ByteCount r) v (bi_UpdatedAt r) (bi_CompletedAt r).
#[export] Instance upd_bi_UpdatedAt : Update bi_UpdatedAt := λ v r, mkItem (bi_ID r) (bi_RunID r) (bi_DeviceID r) (bi_DeviceName r) (bi_Status r) (bi_Reason r) (bi_BackupJobID r) (bi_FileCount r) (bi_ByteCount r) (bi_CreatedAt r) v (bi_CompletedAt r).
#[export] Instance upd_bi_CompletedAt : Update bi_CompletedAt := λ v r, mkItem (bi_ID r) (bi_RunID r) (bi_DeviceID r) (bi_DeviceName r) (bi_Status r) (bi_Reason r) (bi_BackupJobID r) (bi_FileCount r) (bi_ByteCount r) (bi_CreatedAt r) (bi_UpdatedAt r) v.

Record BulkBackupRun := mkRun {
  br_ID : UUID;
  br_Status : BulkBackupRunStatus;
  br_BatchSize : Z;
  br_TotalCount : Z;
  br_QueuedCount : Z;
  br_SuccessCount : Z;
  br_FailedCount : Z;
  br_SkippedCount : Z;
  br_CancelledCount : Z;
  br_FileCount : Z;
  br_ByteCount : Z;
  br_ErrorMessage : string;
  br_CancelRequested : bool;
  br_CreatedBy : string;
  br_CreatedAt : Time;
  br_StartedAt : option Time;
  br_CompletedAt : option Time;
  br_Items : list BulkBackupRunItem }.
#[export] Instance upd_br_ID : Update br_ID := λ v r, mkRun v (br_Status r) (br_BatchSize r) (br_TotalCount r) (br_QueuedCount r) (br_SuccessCount r) (br_FailedCount r) (br_SkippedCount r) (br_CancelledCount r) (br_FileCount r) (br_ByteCount r) (br_ErrorMessage r) (br_CancelRequested r) (br_CreatedBy r) (br_CreatedAt r) (br_StartedAt r) (br_CompletedAt r) (br_Items r).
#[export] Instance upd_br_Status : Update br_Status := λ v r, mkRun (br_ID r) v (br_BatchSize r) (br_TotalCount r) (br_QueuedCount r) (br_SuccessCount r) (br_FailedCount r) (br_SkippedCount r) (br_CancelledCount r) (br_FileCount r) (br_ByteCount r) (br_ErrorMessage r) (br_CancelRequested r) (br_CreatedBy r) (br_CreatedAt r) (br_StartedAt r) (br_CompletedAt r) (br_Items r).
#[export] Instance upd_br_BatchSize : Update br_BatchSize := λ v r, mkRun (br_ID r) (br_Status r) v (br_TotalCount r) (br_QueuedCount r) (br_SuccessCount r) (br_FailedCount r) (br_SkippedCount r) (br_CancelledCount r) (br_FileCount r) (br_ByteCount r) (br_ErrorMessage r) (br_CancelRequested r) (br_CreatedBy r) (br_CreatedAt r) (br_StartedAt r) (br_CompletedAt r) (br_Items r).
#[export] Instance upd_br_TotalCount : Update br_TotalCount := λ v r, mkRun (br_ID r) (br_Status r) (br_BatchSize r) v (br_QueuedCount r) (br_SuccessCount r) (br_FailedCount r) (br_SkippedCount r) (br_CancelledCount r) (br_FileCount r) (br_ByteCount r) (br_ErrorMessage r) (br_CancelRequested r) (br_CreatedBy r) (br_CreatedAt r) (br_StartedAt r) (br_CompletedAt r) (br_Items r).
#[export] Instance upd_br_QueuedCount : Update br_QueuedCount := λ v r, mkRun (br_ID r) (br_Status r) (br_BatchSize r) (br_TotalCount r) v (br_SuccessCount r) (br_FailedCount r) (br_SkippedCount r) (br_CancelledCount r) (br_FileCount r) (br_ByteCount r) (br_ErrorMessage r) (br_CancelRequested r) (br_CreatedBy r) (br_CreatedAt r) (br_StartedAt r) (br_CompletedAt r) (br_Items r).
#[export] Instance upd_br_SuccessCount : Update br_SuccessCount := λ v r, mkRun (br_ID r) (br_Status r) (br_BatchSize r) (br_TotalCount r) (br_QueuedCount r) v (br_FailedCount r) (br_SkippedCount r) (br_CancelledCount r) (br_FileCount r) (br_ByteCount r) (br_ErrorMessage r) (br_CancelRequested r) (br_CreatedBy r) (br_CreatedAt r) (br_StartedAt r) (br_CompletedAt r) (br_Items r).
#[export] Instance upd_br_FailedCount : Update br_FailedCount := λ v r, mkRun (br_ID r) (br_Status r) (br_BatchSize r) (br_TotalCount r) (br_QueuedCount r) (br_SuccessCount r) v (br_SkippedCount r) (br_CancelledCount r) (br_FileCount r) (br_ByteCount r) (br_ErrorMessage r) (br_CancelRequested r) (br_CreatedBy r) (br_CreatedAt r) (br_StartedAt r) (br_CompletedAt r) (br_Items r).
#[export] Instance upd_br_SkippedCount : Update br_SkippedCount := λ v r, mkRun (br_ID r) (br_Status r) (br_BatchSize r) (br_TotalCount r) (br_QueuedCount r) (br_SuccessCount r) (br_FailedCount r) v (br_CancelledCount r) (br_FileCount r) (br_ByteCount r) (br_ErrorMessage r) (br_CancelRequested r) (br_CreatedBy r) (br_CreatedAt r) (br_StartedAt r) (br_CompletedAt r) (br_Items r).
#[export] Instance upd_br_CancelledCount : Update br_CancelledCount := λ v r, mkRun (br_ID r) (br_Status r) (br_BatchSize r) (br_TotalCount r) (br_QueuedCount r) (br_SuccessCount r) (br_FailedCount r) (br_SkippedCount r) v (br_FileCount r) (br_ByteCount r) (br_ErrorMessage r) (br_CancelRequested r) (br_CreatedBy r) (br_CreatedAt r) (br_StartedAt r) (br_CompletedAt r) (br_Items r).
#[export] Instance upd_br_FileCount : Update br_FileCount := λ v r, mkRun (br_ID r) (br_Status r) (br_BatchSize r) (br_TotalCount r) (br_QueuedCount r) (br_SuccessCount r) (br_FailedCount r) (br_SkippedCount r) (br_CancelledCount r) v (br_ByteCount r) (br_ErrorMessage r) (br_CancelRequested r) (br_CreatedBy r) (br_CreatedAt r) (br_StartedAt r) (br_CompletedAt r) (br_Items r).
#[export] Instance upd_br_ByteCount : Update br_ByteCount := λ v r, mkRun (br_ID r) (br_Status r) (br_BatchSize r) (br_TotalCount r) (br_QueuedCount r) (br_SuccessCount r) (br_FailedCount r) (br_SkippedCount r) (br_CancelledCount r) (br_FileCount r) v (br_ErrorMessage r) (br_CancelRequested r) (br_CreatedBy r) (br_CreatedAt r) (br_StartedAt r) (br_CompletedAt r) (br_Items r).
#[export] Instance upd_br_ErrorMessage : Update br_ErrorMessage := λ v r, mkRun (br_ID r) (br_Status r) (br_BatchSize r) (br_TotalCount r) (br_QueuedCount r) (br_SuccessCount r) (br_FailedCount r) (br_SkippedCount r) (br_CancelledCount r) (br_FileCount r) (br_ByteCount r) v (br_CancelRequested r) (br_CreatedBy r) (br_CreatedAt r) (br_StartedAt r) (br_CompletedAt r) (br_Items r).
#[export] Instance upd_br_CancelRequested : Update br_CancelRequested := λ v r, mkRun (br_ID r) (br_Status r) (br_BatchSize r) (br_TotalCount r) (br_QueuedCount r) (br_SuccessCount r) (br_FailedCount r) (br_SkippedCount r) (br_CancelledCount r) (br_FileCount r) (br_ByteCount r) (br_ErrorMessage r) v (br_CreatedBy r) (br_CreatedAt r) (br_StartedAt r) (br_CompletedAt r) (br_Items r).
#[export] Instance upd_br_CreatedBy : Update br_CreatedBy := λ v r, mkRun (br_ID r) (br_Status r) (br_BatchSize r) (br_TotalCount r) (br_QueuedCount r) (br_SuccessCount r) (br_FailedCount r) (br_SkippedCount r) (br_CancelledCount r) (br_FileCount r) (br_ByteCount r) (br_ErrorMessage r) (br_CancelRequested r) v (br_CreatedAt r) (br_StartedAt r) (br_CompletedAt r) (br_Items r).
#[export] Instance upd_br_CreatedAt : Update br_CreatedAt := λ v r, mkRun (br_ID r) (br_Status r) (br_BatchSize r) (br_TotalCount r) (br_QueuedCount r) (br_SuccessCount r) (br_FailedCount r) (br_SkippedCount r) (br_CancelledCount r) (br_FileCount r) (br_ByteCount r) (br_ErrorMessage r) (br_CancelRequested r) (br_CreatedBy r) v (br_StartedAt r) (br_CompletedAt r) (br_Items r).
#[export] Instance upd_br_StartedAt : Update br_StartedAt := λ v r, mkRun (br_ID r) (br_Status r) (br_BatchSize r) (br_TotalCount r) (br_QueuedCount r) (br_SuccessCount r) (br_FailedCount r) (br_SkippedCount r) (br_CancelledCount r) (br_FileCount r) (br_ByteCount r) (br_ErrorMessage r) (br_CancelRequested r) (br_CreatedBy r) (br_CreatedAt r) v (br_CompletedAt r) (br_Items r).
#[export] Instance upd_br_CompletedAt : Update br_CompletedAt := λ v r, mkRun (br_ID r) (br_Status r) (br_BatchSize r) (br_TotalCount r) (br_QueuedCount r) (br_SuccessCount r) (br_FailedCount r) (br_SkippedCount r) (br_CancelledCount r) (br_FileCount r) (br_ByteCount r) (br_ErrorMessage r) (br_CancelRequested r) (br_CreatedBy r) (br_CreatedAt r) (br_StartedAt r) v (br_Items r).
#[export] Instance upd_br_Items : Update br_Items := λ v r, mkRun (br_ID r) (br_Status r) (br_BatchSize r) (br_TotalCount r) (br_QueuedCount r) (br_SuccessCount r) (br_FailedCount r) (br_SkippedCount r) (br_CancelledCount r) (br_FileCount r) (br_ByteCount r) (br_ErrorMessage r) (br_CancelRequested r) (br_CreatedBy r) (br_CreatedAt r) (br_StartedAt r) (br_CompletedAt r) v.

(** A row of [backup_bulk_runs]: the run without its items, and the lease of its processor. *)
Record RunRow := mkRow {
  rr_run : BulkBackupRun;
  rr_owner : string;
  rr_lease : option Time }.
#[export] Instance upd_rr_run : Update rr_run := λ v r, mkRow v (rr_owner r) (rr_lease r).
#[export] Instance upd_rr_owner : Update rr_owner := λ v r, mkRow (rr_run r) v (rr_lease r).
#[export] Instance upd_rr_lease : Update rr_lease := λ v r, mkRow (rr_run r) (rr_owner r) v.

(** The three tables. *)
Record BulkDB := mkBulkDB {
  bk_runs : gmap UUID RunRow;
  bk_items : gmap UUID BulkBackupRunItem;
  bk_jobs : gmap UUID BackupJob }.
#[export] Instance upd_bk_runs : Update bk_runs := λ v r, mkBulkDB v (bk_items r) (bk_jobs r).
#[export] Instance upd_bk_items : Update bk_items := λ v r, mkBulkDB (bk_runs r) v (bk_jobs r).
#[export] Instance upd_bk_jobs : Update bk_jobs := λ v r, mkBulkDB (bk_runs r) (bk_items r) v.

(** What the bulk run reads of a device beside the record of [Domain]: its tags and its vendor. *)
Record BackupDevice := { bd_device : Device; bd_tags : gmap string string; bd_vendor : string }.

Definition DeviceStatusDown : string := "down".

(** ** Errors *)

Definition ErrBulkBackupProcessorLeaseLost : string := "bulk backup processor lease lost".
Definition ErrBulkBackupRunAlreadyActive : string := "bulk backup run already active".
Definition ErrBackupJobActive : string := "backup job is active".
Definition ErrBackupJobReferencedByActiveBulkRun : string := "backup job is referenced by an active bulk backup run".

(** The unique index on the active runs, as the driver reports its violation. *)
Definition backup_bulk_runs_one_active : string := "backup_bulk_runs_one_active".

(** * Programs over the backup tables

    The goroutines of the backup service as trees of what they do to the outside: a statement or
    transaction on the tables, a question to something else (the clock, the device inventory, the
    network, the caller's context), or the start of another goroutine.  Everything between two
    nodes is pure, so a system of goroutines is interleaved at the nodes, as PostgreSQL interleaves
    the transactions of its clients. *)


(** A statement or transaction at the instant [NOW()]: the tables after it and its result.  An
    error rolls it back, so the tables of an error are those before. *)
Definition Stmt (A : Type) : Type := Time → BulkDB → BulkDB * result A.

(** What the modelled code reads of [domain.CredentialProfile]. *)
Record CredentialProfile := { cp_Port : Z }.

(** [queuedDeviceBackup]; the backup configuration of the vendor is carried through to the executor only. *)
Record queuedDeviceBackup := mkQueued { qb_device : BackupDevice; qb_profile : CredentialProfile; qb_jobID : UUID }.

(** [domain.BackupFileTotals] *)
Record BackupFileTotals := { ft_FileCount : Z; ft_ByteCount : Z }.

(** Questions outside the tables. *)
Inductive question :=
| QNow                                        (* time.Now().UTC() *)
| QUUID                                       (* uuid.New() *)
| QContext                                    (* contextError(ctx) *)
| QTick                                       (* the ticker, or the deadline of the wait *)
| QDevices                                    (* deviceRepo.GetAll *)
| QDevice (id : UUID)                         (* deviceRepo.GetByID *)
| QProfile (id : UUID)                        (* credentialProfileRepo.GetBackupProfileForDevice *)
| QSupported (vendor : string)                (* vendorRegistry.ResolveBackupConfig(vendor).Supported *)
| QReachable (device : BackupDevice) (port : Z) (* ssh.CheckReachable(domain.BackupAddress(device), port) *)
| QTotals (ids : list UUID)                   (* the grouped read of the file table *)
| QSlot                                       (* a slot of the backup admission *)
| QDeviceLock (id : UUID)                     (* lockBackupDevice *)
| QExports (job : UUID)                       (* the SSH session and the files it leaves *)
| QDeletable (job : UUID).                    (* the file records of a job and the checks of their paths *)

Definition reply (q : question) : Type :=
  match q with
  | QNow => Time
  | QUUID => UUID
  | QContext | QTick => option string
  | QDevices => result (list BackupDevice)
  | QDevice _ => result BackupDevice
  | QProfile _ => result CredentialProfile
  | QSupported _ => bool
  | QReachable _ _ => option string
  | QTotals _ => result (gmap UUID BackupFileTotals)
  | QSlot | QDeviceLock _ | QDeletable _ => option string
  | QExports _ => result string
  end.

(** Goroutines the service starts. *)
Inductive task :=
| TProcess (runID : UUID) (recover : bool)    (* go s.processBulkBackupRun(id[, true]) *)
| TBackup (reserved : bool) (b : queuedDeviceBackup). (* s.runFullBackup in a worker, or with the slot of a manual backup *)

Inductive prog (A : Type) : Type :=
| Ret (a : A)
| Sql {B : Type} (f : Stmt B) (k : result B → prog A)
| Ask (q : question) (k : reply q → prog A)
| Go (t : task) (k : prog A).
Arguments Ret {A} _.
Arguments Sql {A B} _ _.
Arguments Ask {A} _ _.
Arguments Go {A} _ _.

Fixpoint pbind {A B} (p : prog A) (h : A → prog B) : prog B :=
  match p with
  | Ret a => h a
  | Sql f k => Sql f (λ r, pbind (k r) h)
  | Ask q k => Ask q (λ r, pbind (k r) h)
  | Go t k => Go t (pbind k h)
  end.

Definition sql {A} (f : Stmt A) : prog (result A) := Sql f Ret.
Definition ask (q : question) : prog (reply q) := Ask q Ret.
Definition go (t : task) : prog unit := Go t (Ret tt).

(** Sequencing; with [let?] an error ends the function with that error. *)
Declare Scope bulk_scope.
Delimit Scope bulk_scope with bulk.
Notation "'let*' x := p 'in' q" := (pbind p (λ x, q)) (at level 200, x pattern, p at level 100, q at level 200) : bulk_scope.
Notation "'let?' x := p 'in' q" := (pbind p (λ r, match r with Ok x => q | Err e => Ret (Err e) end))
  (at level 200, x name, p at level 100, q at level 200) : bulk_scope.

(** [for _, x := range l { body x }] *)
Fixpoint pfor {A} (l : list A) (body : A → prog unit) : prog unit :=
  match l with
  | [] => Ret tt
  | x :: r => pbind (body x) (λ _, pfor r body)
  end.

(** The loop that appends what its body keeps. *)
Fixpoint pcollect {A B} (l : list A) (body : A → prog (option B)) : prog (list B) :=
  match l with
  | [] => Ret []
  | x :: r => pbind (body x) (λ o, pbind (pcollect r body) (λ bs, Ret (match o with Some b => b :: bs | None => bs end)))
  end.
