(* ===== verification/BulkRepo.v ===== *)
(** * The tables of backup jobs and bulk runs

    [internal/repository/postgres/bulk_backup_run_repo.go], [bulk_processor_repo.go],
    [bulk_batch_reconcile.go], [bulk_backup_job_repo.go] and [backup_job_repo.go]: each statement or
    transaction as one atomic change, with the guards of its [WHERE] clauses and the constraints of
    the schema.  A method that issues several statements outside a transaction is a program of
    several nodes.  Rows equal under an [ORDER BY] come in the order of their identifiers. *)

From S2P Require Import Prelude GoLib Domain BulkData.
Open Scope bulk_scope.

(** ** The scope of a processor *)

(** [BulkBackupRunRepo]: the scope [ForProcessor] gives it; the empty owner is the unscoped repository. *)
Record BulkBackupRunRepo := { processorRunID : UUID; processorOwner : string }.

Definition NewBulkBackupRunRepo : BulkBackupRunRepo := {| processorRunID := uuid_Nil; processorOwner := "" |}.
Definition ForProcessor (runID : UUID) (owner : string) : BulkBackupRunRepo := {| processorRunID := runID; processorOwner := owner |}.

Definition lease_after (now : Time) (lease : option Time) : bool := match lease with Some t => now <? t | None => false end.

(** The error of the ownership check, if it fails. *)
Definition lockProcessor (r : BulkBackupRunRepo) (runID : UUID) (now : Time) (d : BulkDB) : option string :=
  if String.eqb (processorOwner r) "" then None
  else if negb (runID =? processorRunID r) then Some ErrBulkBackupProcessorLeaseLost
  else match bk_runs d !! runID with
  | Some row => if String.eqb (rr_owner row) (processorOwner r) && lease_after now (rr_lease row) then None else Some ErrBulkBackupProcessorLeaseLost
  | None => Some ErrBulkBackupProcessorLeaseLost
  end.

Definition execProcessorMutation {A} (r : BulkBackupRunRepo) (runID : UUID) (f : Stmt A) : Stmt A :=
  λ now d, match lockProcessor r runID now d with Some e => (d, Err e) | None => f now d end.

(** [UPDATE backup_bulk_runs SET .. WHERE id = ? AND guard]: the rows affected. *)
Definition update_run (id : UUID) (guard : RunRow → bool) (set : RunRow → RunRow) : Stmt Z :=
  λ _ d, match bk_runs d !! id with
  | Some row => if guard row then (d <| bk_runs := <[id := set row]> (bk_runs d) |>, Ok 1) else (d, Ok 0)
  | None => (d, Ok 0)
  end.

Definition set_status (status : BulkBackupRunStatus) (row : RunRow) : RunRow := row <| rr_run := (rr_run row) <| br_Status := status |> |>.
Definition has_status (status : BulkBackupRunStatus) (row : RunRow) : bool := bool_decide (br_Status (rr_run row) = status).
Definition not_cancelled (row : RunRow) : bool := negb (br_CancelRequested (rr_run row)).

(** ** Reading runs *)

Definition values {A} (m : gmap UUID A) : list A := (map_to_list m).*2.

(** [ORDER BY created_at, id] *)
Definition item_le (a b : BulkBackupRunItem) : Prop := bi_CreatedAt a < bi_CreatedAt b ∨ bi_CreatedAt a = bi_CreatedAt b ∧ bi_ID a <= bi_ID b.
#[export] Instance item_le_dec : RelDecision item_le.
Proof. intros a b. unfold item_le. apply _. Defined.
Definition run_le (a b : BulkBackupRun) : Prop := br_CreatedAt a < br_CreatedAt b ∨ br_CreatedAt a = br_CreatedAt b ∧ br_ID a <= br_ID b.
#[export] Instance run_le_dec : RelDecision run_le.
Proof. intros a b. unfold run_le. apply _. Defined.

Definition items_of (runID : UUID) (d : BulkDB) : list BulkBackupRunItem := values (filter (λ p, bi_RunID p.2 = runID) (bk_items d)).

Definition ListRunItems (runID : UUID) : Stmt (list BulkBackupRunItem) := λ _ d, (d, Ok (merge_sort item_le (items_of runID d))).

Definition select_run (id : UUID) : Stmt (option BulkBackupRun) := λ _ d, (d, Ok (rr_run <$> bk_runs d !! id)).
Definition runs_where (P : BulkBackupRunStatus → bool) (d : BulkDB) : list BulkBackupRun :=
  merge_sort run_le (filter (λ r, P (br_Status r) = true) (rr_run <$> values (bk_runs d))).

Definition run_active (status : BulkBackupRunStatus) : bool :=
  match status with
  | BulkBackupRunStatusRunning | BulkBackupRunStatusPausing | BulkBackupRunStatusPaused | BulkBackupRunStatusCancelling => true
  | _ => false
  end.
Definition run_resumable (status : BulkBackupRunStatus) : bool :=
  match status with BulkBackupRunStatusRunning | BulkBackupRunStatusPausing | BulkBackupRunStatusCancelling => true | _ => false end.

(** The rest of the three readers: the items of the run found. *)
Definition with_items (r : result (option BulkBackupRun)) : prog (result (option BulkBackupRun)) :=
  match r with
  | Ok (Some run) => let? items := sql (ListRunItems (br_ID run)) in Ret (Ok (Some (run <| br_Items := items |>)))
  | _ => Ret r
  end.

Definition GetRun (id : UUID) : prog (result (option BulkBackupRun)) := let* r := sql (select_run id) in with_items r.
Definition GetLatestRun : prog (result (option BulkBackupRun)) :=
  let* r := sql (λ _ d, (d, Ok (last (runs_where (λ _, true) d)))) in with_items r.
Definition GetActiveRun : prog (result (option BulkBackupRun)) :=
  let* r := sql (λ _ d, (d, Ok (head (runs_where run_active d)))) in with_items r.

(** The loop that fills the items in. *)
Fixpoint fill_items (runs : list BulkBackupRun) : prog (result (list BulkBackupRun)) :=
  match runs with
  | [] => Ret (Ok [])
  | run :: rest =>
    let? items := sql (ListRunItems (br_ID run)) in
    let? runs := fill_items rest in
    Ret (Ok (run <| br_Items := items |> :: runs))
  end.
Definition ListResumableRuns : prog (result (list BulkBackupRun)) :=
  let? runs := sql (λ _ d, (d, Ok (runs_where run_resumable d))) in
  fill_items runs.

(** The [EXISTS] of a job referenced by unfinished work. *)
Definition references (jobID : UUID) (d : BulkDB) (i : BulkBackupRunItem) : bool :=
  bool_decide (bi_BackupJobID i = Some jobID) && negb (bulkRunItemTerminal (bi_Status i)) &&
  match bk_runs d !! bi_RunID i with Some row => run_active (br_Status (rr_run row)) | None => false end.
Definition BackupJobReferencedByActiveRunContext (jobID : UUID) : Stmt bool :=
  λ _ d, (d, Ok (existsb (references jobID d) (values (bk_items d)))).

(** ** Creating a run *)

(** One row of the [INSERT] loop: the primary key, [UNIQUE (run_id, device_id)], and the defaults before it. *)
Definition default_item (clock : Time) (fresh runID : UUID) (item : BulkBackupRunItem) : BulkBackupRunItem :=
  let item := if bi_ID item =? uuid_Nil then item <| bi_ID := fresh |> else item in
  let item := item <| bi_RunID := runID |> in
  let item := if Time_IsZero (bi_CreatedAt item) then item <| bi_CreatedAt := clock |> else item in
  if Time_IsZero (bi_UpdatedAt item) then item <| bi_UpdatedAt := bi_CreatedAt item |> else item.

Definition insert_item (items : gmap UUID BulkBackupRunItem) (item : BulkBackupRunItem) : option (gmap UUID BulkBackupRunItem) :=
  match items !! bi_ID item with
  | Some _ => None
  | None =>
    if existsb (λ j, (bi_RunID j =? bi_RunID item) && (bi_DeviceID j =? bi_DeviceID item)) (values items) then None
    else Some (<[bi_ID item := item]> items)
  end.

(** A reference to a job must name an existing one. *)
Definition known_job (d : BulkDB) (o : option UUID) : bool := match o with Some j => bool_decide (is_Some (bk_jobs d !! j)) | None => true end.

Fixpoint insert_items (items : gmap UUID BulkBackupRunItem) (new : list BulkBackupRunItem) : option (gmap UUID BulkBackupRunItem) :=
  match new with
  | [] => Some items
  | i :: rest => match insert_item items i with Some items => insert_items items rest | None => None end
  end.

Definition default_run (clock : Time) (fresh : UUID) (run : BulkBackupRun) (count : nat) : BulkBackupRun :=
  let run := if br_ID run =? uuid_Nil then run <| br_ID := fresh |> else run in
  let run := if br_BatchSize run <=? 0 then run <| br_BatchSize := 10 |> else run in
  let run := if Time_IsZero (br_CreatedAt run) then run <| br_CreatedAt := clock |> else run in
  let run := match br_StartedAt run with None => run <| br_StartedAt := Some (br_CreatedAt run) |> | Some _ => run end in
  run <| br_TotalCount := Z.of_nat count |>.

(** [clock] and [fresh] are the [time.Now] and the [uuid.New] the defaults fall back to. *)
Definition CreateRun (clock : Time) (fresh : nat → UUID) (run : BulkBackupRun) (items : list BulkBackupRunItem) : Stmt BulkBackupRun :=
  λ _ d,
    let run := default_run clock (fresh O) run (length items) in
    let items := imap (λ i item, default_item (br_CreatedAt run) (fresh (S i)) (br_ID run) item) items in
    if bool_decide (is_Some (bk_runs d !! br_ID run)) then (d, Err "duplicate run")
    else if run_active (br_Status run) && existsb (λ row, run_active (br_Status (rr_run row))) (values (bk_runs d)) then (d, Err backup_bulk_runs_one_active)
    else if negb (forallb (λ i, known_job d (bi_BackupJobID i)) items) then (d, Err "foreign key")
    else match insert_items (bk_items d) items with
    | None => (d, Err "duplicate item")
    | Some rows =>
      (d <| bk_runs := <[br_ID run := mkRow (run <| br_Items := [] |>) "" None]> (bk_runs d) |> <| bk_items := rows |>,
       Ok (run <| br_Items := items |>))
    end.

(** ** Changing a run *)

(** The [SET] list of [UpdateRun]; [created_at] and the lease stay. *)
Definition write_run (run : BulkBackupRun) (row : RunRow) : RunRow :=
  let old := rr_run row in
  row <| rr_run := mkRun (br_ID old) (br_Status run) (br_BatchSize run) (br_TotalCount run) (br_QueuedCount run) (br_SuccessCount run)
    (br_FailedCount run) (br_SkippedCount run) (br_CancelledCount run) (br_FileCount old) (br_ByteCount old) (br_ErrorMessage run)
    (br_CancelRequested old || br_CancelRequested run) (br_CreatedBy run) (br_CreatedAt old) (br_StartedAt run) (br_CompletedAt run) (br_Items old) |>.

Definition update_run_stmt (r : BulkBackupRunRepo) (run : BulkBackupRun) : Stmt Z :=
  execProcessorMutation r (br_ID run)
    (update_run (br_ID run) (λ row, negb (bulkRunTerminal (br_Status (rr_run row))) || has_status (br_Status run) row) (write_run run)).

Definition UpdateRun (r : BulkBackupRunRepo) (run : BulkBackupRun) : prog (result unit) :=
  let? n := sql (update_run_stmt r run) in
  if n =? 0 then
    let? existing := GetRun (br_ID run) in
    match existing with Some _ => Ret (Ok tt) | None => Ret (Err "bulk backup run not found") end
  else Ret (Ok tt).

Definition RequestBulkRunPause (runID : UUID) : Stmt Z :=
  update_run runID (λ row, has_status BulkBackupRunStatusRunning row && not_cancelled row) (set_status BulkBackupRunStatusPausing).

Definition RequestBulkRunResume (runID : UUID) : prog (result bool) :=
  let? n := sql (update_run runID (λ row, has_status BulkBackupRunStatusPaused row && not_cancelled row) (set_status BulkBackupRunStatusRunning)) in
  if 0 <? n then Ret (Ok true) else
    let? _n := sql (update_run runID (λ row, has_status BulkBackupRunStatusPausing row && not_cancelled row) (set_status BulkBackupRunStatusRunning)) in
    Ret (Ok false).

Definition request_cancel (row : RunRow) : RunRow := row <| rr_run := (rr_run row) <| br_CancelRequested := true |> |>.

Definition RequestBulkRunCancel (runID : UUID) : prog (result bool) :=
  let? n := sql (update_run runID (has_status BulkBackupRunStatusPaused) (λ row, request_cancel (set_status BulkBackupRunStatusCancelling row))) in
  if 0 <? n then Ret (Ok true) else
    let? _n := sql (update_run runID (λ row, run_resumable (br_Status (rr_run row)))
      (λ row, request_cancel (if has_status BulkBackupRunStatusRunning row || has_status BulkBackupRunStatusPausing row
                              then set_status BulkBackupRunStatusCancelling row else row))) in
    Ret (Ok false).

(** ** The lease *)

Definition TryAcquireBulkRunProcessor (runID : UUID) (owner : string) (leaseUntil : Time) : Stmt Z :=
  λ now d, update_run runID
    (λ row, run_resumable (br_Status (rr_run row)) &&
       (String.eqb (rr_owner row) "" || match rr_lease row with None => true | Some t => t <? now end))
    (λ row, row <| rr_owner := owner |> <| rr_lease := Some leaseUntil |>) now d.

Definition RefreshBulkRunProcessorContext (runID : UUID) (owner : string) (leaseUntil : Time) : Stmt unit :=
  λ now d,
    match update_run runID (λ row, String.eqb (rr_owner row) owner && lease_after now (rr_lease row)) (λ row, row <| rr_lease := Some leaseUntil |>) now d with
    | (d', Ok n) => if n =? 0 then (d', Err ErrBulkBackupProcessorLeaseLost) else (d', Ok tt)
    | (d', Err e) => (d', Err e)
    end.

Definition ReleaseBulkRunProcessor (runID : UUID) (owner : string) : Stmt Z :=
  update_run runID (λ row, String.eqb (rr_owner row) owner) (λ row, row <| rr_owner := "" |> <| rr_lease := None |>).

(** ** Items *)

(** [UPDATE backup_bulk_run_items SET .. WHERE id = ? AND guard] *)
Definition update_item (id : UUID) (guard : BulkBackupRunItem → bool) (set : BulkBackupRunItem → BulkBackupRunItem) : Stmt Z :=
  λ _ d, match bk_items d !! id with
  | Some i => if guard i then (d <| bk_items := <[id := set i]> (bk_items d) |>, Ok 1) else (d, Ok 0)
  | None => (d, Ok 0)
  end.

Definition claim_item (now : Time) (i : BulkBackupRunItem) : BulkBackupRunItem :=
  i <| bi_Status := BulkBackupRunItemStatusActive |> <| bi_Reason := "" |> <| bi_BackupJobID := None |> <| bi_UpdatedAt := now |> <| bi_CompletedAt := None |>.

Definition claim_stmt (r : BulkBackupRunRepo) (runID itemID : UUID) (clock : Time) : Stmt Z :=
  execProcessorMutation r runID
    (update_item itemID (λ i, (bi_RunID i =? runID) && bool_decide (bi_Status i = BulkBackupRunItemStatusChecking)) (claim_item clock)).

(** The claimed row, read back; [None] when there was nothing to claim. *)
Definition ClaimBulkRunItem (r : BulkBackupRunRepo) (runID itemID : UUID) : prog (result (option BulkBackupRunItem)) :=
  let* now := ask QNow in
  let? n := sql (claim_stmt r runID itemID now) in
  if n =? 0 then Ret (Ok None) else
    let? item := sql (λ _ d, (d, match bk_items d !! itemID with
                               | Some i => if bi_RunID i =? runID then Ok i else Err "no rows"
                               | None => Err "no rows" end)) in
    Ret (Ok (Some item)).

(** The [SET] list of [UpdateRunItem]. *)
Definition write_item (item : BulkBackupRunItem) (old : BulkBackupRunItem) : BulkBackupRunItem :=
  old <| bi_DeviceName := bi_DeviceName item |> <| bi_Status := bi_Status item |> <| bi_Reason := bi_Reason item |>
      <| bi_BackupJobID := bi_BackupJobID item |> <| bi_UpdatedAt := bi_UpdatedAt item |> <| bi_CompletedAt := bi_CompletedAt item |>.

Definition update_item_stmt (r : BulkBackupRunRepo) (item : BulkBackupRunItem) : Stmt unit :=
  execProcessorMutation r (bi_RunID item) (λ now d,
    match update_item (bi_ID item) (λ _, true) (write_item item) now d with
    | (d', Ok n) => if n =? 0 then (d, Err "bulk backup run item not found") else if known_job d (bi_BackupJobID item) then (d', Ok tt) else (d, Err "foreign key")
    | (_, Err e) => (d, Err e)
    end).

Definition UpdateRunItem (r : BulkBackupRunRepo) (item : BulkBackupRunItem) : prog (result unit) :=
  if Time_IsZero (bi_UpdatedAt item) then let* now := ask QNow in sql (update_item_stmt r (item <| bi_UpdatedAt := now |>))
  else sql (update_item_stmt r item).

(** ** Counters *)

Definition count_status (P : BulkBackupRunItemStatus → bool) (items : list BulkBackupRunItem) : Z :=
  Z.of_nat (length (filter (λ i, P (bi_Status i) = true) items)).
Definition is_item_status (s t : BulkBackupRunItemStatus) : bool := bool_decide (t = s).
Definition item_in_progress (s : BulkBackupRunItemStatus) : bool :=
  match s with BulkBackupRunItemStatusActive | BulkBackupRunItemStatusQueued | BulkBackupRunItemStatusRunning => true | _ => false end.

(** [bulkCountersSQL] *)
Definition count_run (items : list BulkBackupRunItem) (row : RunRow) : RunRow :=
  row <| rr_run := (rr_run row) <| br_TotalCount := Z.of_nat (length items) |>
    <| br_QueuedCount := count_status item_in_progress items |>
    <| br_SuccessCount := count_status (is_item_status BulkBackupRunItemStatusSuccess) items |>
    <| br_FailedCount := count_status (is_item_status BulkBackupRunItemStatusFailed) items |>
    <| br_SkippedCount := count_status (is_item_status BulkBackupRunItemStatusSkipped) items |>
    <| br_CancelledCount := count_status (is_item_status BulkBackupRunItemStatusCancelled) items |> |>.
Definition bulkCountersSQL (runID : UUID) : Stmt Z := λ now d, update_run runID (λ _, true) (count_run (items_of runID d)) now d.

Definition RecalculateRunCounters (r : BulkBackupRunRepo) (runID : UUID) : prog (result (option BulkBackupRun)) :=
  let? _n := sql (execProcessorMutation r runID (bulkCountersSQL runID)) in
  GetRun runID.

Definition FinishBulkRun (r : BulkBackupRunRepo) (runID : UUID) (status : BulkBackupRunStatus) (completedAt : Time) : Stmt Z :=
  execProcessorMutation r runID
    (update_run runID (λ row, negb (bulkRunTerminal (br_Status (rr_run row))))
      (λ row, set_status status row <| rr_run := (rr_run (set_status status row)) <| br_CompletedAt := Some completedAt |> |>)).

(** ** Transactions of a processor *)

(** [UPDATE backup_bulk_run_items SET .. WHERE guard], over all rows. *)
Definition update_items (f : BulkBackupRunItem → BulkBackupRunItem) (d : BulkDB) : BulkDB := d <| bk_items := f <$> bk_items d |>.

(** The item after its job: the [CASE]s of the reconciling statement. *)
Definition item_status_of (status : BackupStatus) : BulkBackupRunItemStatus :=
  match status with
  | BackupStatusPending => BulkBackupRunItemStatusQueued
  | BackupStatusRunning => BulkBackupRunItemStatusRunning
  | BackupStatusSuccess => BulkBackupRunItemStatusSuccess
  | BackupStatusFailed => BulkBackupRunItemStatusFailed
  end.
Definition next_item (d : BulkDB) (i : BulkBackupRunItem) : option (BulkBackupRunItemStatus * string) :=
  match (bi_BackupJobID i ≫= λ j, bk_jobs d !! j) with
  | None => Some (BulkBackupRunItemStatusFailed, "backup job disappeared")
  | Some j => match bj_Status j with BackupStatusPending => None | s => Some (item_status_of s, bj_ErrorMessage j) end
  end.
Definition in_batch (runID : UUID) (ids : list UUID) (i : BulkBackupRunItem) : bool := (bi_RunID i =? runID) && existsb (Z.eqb (bi_ID i)) ids.
Definition reconciles (d : BulkDB) (runID : UUID) (ids : list UUID) (i : BulkBackupRunItem) : option (BulkBackupRunItemStatus * string) :=
  if in_batch runID ids i && item_in_progress (bi_Status i) then
    match next_item d i with
    | Some (status, reason) => if bool_decide (bi_Status i = status) then None else Some (status, reason)
    | None => None
    end
  else None.
Definition reconcile_item (now : Time) (d : BulkDB) (runID : UUID) (ids : list UUID) (i : BulkBackupRunItem) : BulkBackupRunItem :=
  match reconciles d runID ids i with
  | Some (status, reason) =>
    i <| bi_Status := status |> <| bi_Reason := if bool_decide (status = BulkBackupRunItemStatusFailed) then reason else "" |>
      <| bi_UpdatedAt := now |> <| bi_CompletedAt := if bulkRunItemTerminal status then Some now else None |>
  | None => i
  end.

Definition ReconcileBulkRunBatchContext (r : BulkBackupRunRepo) (runID : UUID) (ids : list UUID) : Stmt bool :=
  λ now d,
    match ids with
    | [] => (d, Ok true)
    | _ =>
      match lockProcessor r runID now d with
      | Some e => (d, Err e)
      | None =>
        let changed := existsb (λ i, bool_decide (is_Some (reconciles d runID ids i))) (values (bk_items d)) in
        let d1 := update_items (reconcile_item now d runID ids) d in
        let d2 := if changed then (bulkCountersSQL runID now d1).1 else d1 in
        let batch := filter (λ i, in_batch runID ids i = true) (values (bk_items d2)) in
        let remaining := count_status (λ s, negb (bulkRunItemTerminal s)) batch in
        if negb (Z.of_nat (length batch) =? Z.of_nat (length ids)) then (d, Err "bulk batch items disappeared")
        else (d2, Ok (remaining =? 0))
      end
    end.

(** [CreateBulkRunJob]: the job and its attachment, or neither. *)
Definition CreateBulkRunJob (r : BulkBackupRunRepo) (item : BulkBackupRunItem) (job : BackupJob) (clock : Time) : Stmt unit :=
  λ now d,
    match lockProcessor r (bi_RunID item) now d with
    | Some e => (d, Err e)
    | None =>
      if bool_decide (is_Some (bk_jobs d !! bj_ID job)) then (d, Err "creating bulk job")
      else
        let d1 := d <| bk_jobs := <[bj_ID job := job <| bj_CreatedAt := clock |>]> (bk_jobs d) |> in
        match update_item (bi_ID item)
                (λ i, (bi_RunID i =? bi_RunID item) && (bi_DeviceID i =? bj_DeviceID job) &&
                      bool_decide (bi_Status i = BulkBackupRunItemStatusActive) && bool_decide (bi_BackupJobID i = None))
                (λ i, i <| bi_BackupJobID := Some (bj_ID job) |> <| bi_DeviceName := bi_DeviceName item |> <| bi_UpdatedAt := clock |>) now d1 with
        | (d2, Ok n) => if n =? 1 then (d2, Ok tt) else (d, Err "bulk item is no longer claimable")
        | (_, Err e) => (d, Err e)
        end
    end.

(** [RecoverBulkRun]: jobs, items and the run, in one transaction. *)
Definition unfinished_of (runID : UUID) (i : BulkBackupRunItem) : bool := (bi_RunID i =? runID) && negb (bulkRunItemTerminal (bi_Status i)).
Definition interrupt_job (runID : UUID) (d : BulkDB) (id : UUID) (j : BackupJob) : BackupJob :=
  if bool_decide (bj_Status j ∈ [BackupStatusPending; BackupStatusRunning]) &&
     existsb (λ i, unfinished_of runID i && bool_decide (bi_BackupJobID i = Some id)) (values (bk_items d))
  then j <| bj_Status := BackupStatusFailed |> <| bj_ErrorMessage := "interrupted by server restart" |> else j.
Definition reset_item (now : Time) (runID : UUID) (i : BulkBackupRunItem) : BulkBackupRunItem :=
  if unfinished_of runID i then
    i <| bi_Status := BulkBackupRunItemStatusChecking |> <| bi_Reason := "" |> <| bi_BackupJobID := None |> <| bi_CompletedAt := None |> <| bi_UpdatedAt := now |>
  else i.
Definition recover_run (row : RunRow) : RunRow :=
  if has_status BulkBackupRunStatusPausing row
  then row <| rr_run := (rr_run row) <| br_Status := BulkBackupRunStatusPaused |> <| br_CancelRequested := false |> |> else row.

Definition RecoverBulkRun (r : BulkBackupRunRepo) (runID : UUID) : Stmt unit :=
  λ now d,
    if String.eqb (processorOwner r) "" then (d, Err ErrBulkBackupProcessorLeaseLost)
    else match lockProcessor r runID now d with
    | Some e => (d, Err e)
    | None =>
      let d1 := d <| bk_jobs := map_imap (λ id j, Some (interrupt_job runID d id j)) (bk_jobs d) |> in
      let d2 := update_items (reset_item now runID) d1 in
      ((update_run runID (λ _, true) recover_run now d2).1, Ok tt)
    end.

(** ** Jobs *)

Definition BackupJob_GetByID (id : UUID) : Stmt (option BackupJob) := λ _ d, (d, Ok (bk_jobs d !! id)).

(** [jobRepo.Create] *)
Definition BackupJob_Create (clock : Time) (fresh : UUID) (job : BackupJob) : Stmt unit :=
  λ _ d,
    let id := if bj_ID job =? uuid_Nil then fresh else bj_ID job in
    let created := if Time_IsZero (bj_CreatedAt job) then clock else bj_CreatedAt job in
    if bool_decide (is_Some (bk_jobs d !! id)) then (d, Err "duplicate job")
    else (d <| bk_jobs := <[id := mkJob id (bj_DeviceID job) (bj_Status job) (bj_ErrorMessage job) created]> (bk_jobs d) |>, Ok tt).

Definition BackupJob_Update (job : BackupJob) : Stmt unit :=
  λ _ d, match bk_jobs d !! bj_ID job with
  | Some j => (d <| bk_jobs := <[bj_ID job := j <| bj_Status := bj_Status job |> <| bj_ErrorMessage := bj_ErrorMessage job |>]> (bk_jobs d) |>, Ok tt)
  | None => (d, Err "backup job not found")
  end.

(** Deleting jobs sets the references of items to them to [NULL] ([ON DELETE SET NULL]). *)
Definition unreference (gone : UUID → bool) (i : BulkBackupRunItem) : BulkBackupRunItem :=
  match bi_BackupJobID i with Some j => if gone j then i <| bi_BackupJobID := None |> else i | None => i end.
Definition delete_jobs (P : BackupJob → bool) (d : BulkDB) : BulkDB :=
  d <| bk_jobs := filter (λ p, P p.2 = false) (bk_jobs d) |>
    <| bk_items := unreference (λ j, match bk_jobs d !! j with Some job => P job | None => false end) <$> bk_items d |>.

Definition BackupJob_Delete (id : UUID) : Stmt unit :=
  λ _ d, match bk_jobs d !! id with
  | Some _ => (delete_jobs (λ j, bj_ID j =? id) d, Ok tt)
  | None => (d, Err "backup job not found")
  end.
Definition BackupJob_DeleteByDeviceID (deviceID : UUID) : Stmt unit := λ _ d, (delete_jobs (λ j, bj_DeviceID j =? deviceID) d, Ok tt).
Definition BackupJob_DeleteFailedOlderThan (cutoff : Time) : Stmt unit :=
  λ _ d, (delete_jobs (λ j, bool_decide (bj_Status j = BackupStatusFailed) && (bj_CreatedAt j <? cutoff)) d, Ok tt).
