(* ===== verification/BulkService.v ===== *)
(** * Bulk backup runs

    [internal/service/bulk_backup_run.go] and [bulk_backup_selection.go]: starting, pausing,
    resuming and cancelling a durable run, and the processor that works through its items under a
    lease.  The service is the one over PostgreSQL: each type assertion on the repository picks the
    method of [BulkRepo].  The repositories are configured; metrics and logging are left out, and an
    error that is only logged is dropped here too. *)

From S2P Require Import Prelude GoLib Domain BulkData BulkRepo.
Open Scope bulk_scope.

Definition defaultBulkBackupWorkerCount : Z := 4.
Definition defaultBulkBackupRunBatchSize : Z := 10.
Definition bulkBackupRunProcessorLeaseTTL : Duration := 2 * Minute.

(** ** Selecting devices *)

Definition bulkBackupDeviceName (device : BackupDevice) : string :=
  let name := default "" (bd_tags device !! "display_name") in
  let name := if String.eqb name "" then dev_SysName (bd_device device) else name in
  if String.eqb name "" then dev_IP (bd_device device) else name.

(** The loop of [dedupeUUIDs]. *)
Fixpoint dedupe_loop (seen : gset UUID) (ids : list UUID) : list UUID :=
  match ids with
  | [] => []
  | id :: rest => if bool_decide (id ∈ seen) then dedupe_loop seen rest else id :: dedupe_loop ({[id]} ∪ seen) rest
  end.
Definition dedupeUUIDs (ids : list UUID) : list UUID := if (length ids <=? 1)%nat then ids else dedupe_loop ∅ ids.

Definition ErrDeviceNotFound : string := "device not found".

(** The loop over the requested devices: a device that is gone is passed over. *)
Fixpoint fetch_devices (ids : list UUID) : prog (result (list BackupDevice)) :=
  match ids with
  | [] => Ret (Ok [])
  | id :: rest =>
    let* cancelled := ask QContext in
    match cancelled with
    | Some e => Ret (Err e)
    | None =>
      let* found := ask (QDevice id) in
      match found with
      | Err e => if String.eqb e ErrDeviceNotFound then fetch_devices rest else Ret (Err e)
      | Ok device => let? devices := fetch_devices rest in Ret (Ok (device :: devices))
      end
    end
  end.

Definition bulkBackupRunDevices (requestedDeviceIDs : list UUID) : prog (result (list BackupDevice)) :=
  match requestedDeviceIDs with
  | [] => let* cancelled := ask QContext in match cancelled with Some e => Ret (Err e) | None => ask QDevices end
  | _ => fetch_devices (dedupeUUIDs requestedDeviceIDs)
  end.

(** ** Reporting *)

Definition item_totals (totals : gmap UUID BackupFileTotals) (item : BulkBackupRunItem) : BulkBackupRunItem :=
  match bi_BackupJobID item ≫= (totals !!.) with
  | Some t => item <| bi_FileCount := ft_FileCount t |> <| bi_ByteCount := ft_ByteCount t |>
  | None => item <| bi_FileCount := 0 |> <| bi_ByteCount := 0 |>
  end.

Definition sum_int64 {A} (f : A → Z) (l : list A) : Z := foldl (λ n a, int64_wrap (n + f a)) 0 l.

Definition hydrateBulkBackupRunFileTotals (run : option BulkBackupRun) : prog (result (option BulkBackupRun)) :=
  match run with
  | None => Ret (Ok None)
  | Some run =>
    let? totals := ask (QTotals (omap bi_BackupJobID (br_Items run))) in
    let items := item_totals totals <$> br_Items run in
    Ret (Ok (Some (run <| br_Items := items |> <| br_FileCount := sum_int64 bi_FileCount items |> <| br_ByteCount := sum_int64 bi_ByteCount items |>)))
  end.

Definition getBulkBackupRunWithFileTotals (id : UUID) : prog (result (option BulkBackupRun)) :=
  let? run := GetRun id in hydrateBulkBackupRunFileTotals run.

(** A request whose context is already done. *)
Definition in_context {A} (p : prog (result A)) : prog (result A) :=
  let* cancelled := ask QContext in match cancelled with Some e => Ret (Err e) | None => p end.

Definition GetBulkBackupRun (id : UUID) : prog (result (option BulkBackupRun)) := in_context (getBulkBackupRunWithFileTotals id).
Definition GetLatestBulkBackupRun : prog (result (option BulkBackupRun)) :=
  in_context (let? run := GetLatestRun in hydrateBulkBackupRunFileTotals run).

(** ** Requests *)

Definition newItem (runID id : UUID) (now : Time) (device : BackupDevice) : BulkBackupRunItem :=
  let down := String.eqb (dev_Status (bd_device device)) DeviceStatusDown in
  mkItem id runID (dev_ID (bd_device device)) (bulkBackupDeviceName device)
    (if down then BulkBackupRunItemStatusSkipped else BulkBackupRunItemStatusChecking) (if down then "device offline" else "") None 0 0
    now now (if down then Some now else None).

Fixpoint newItems (runID : UUID) (now : Time) (devices : list BackupDevice) : prog (list BulkBackupRunItem) :=
  match devices with
  | [] => Ret []
  | d :: rest => let* id := ask QUUID in let* items := newItems runID now rest in Ret (newItem runID id now d :: items)
  end.

Definition newRun (id : UUID) (createdBy : string) (now : Time) : BulkBackupRun :=
  mkRun id BulkBackupRunStatusRunning defaultBulkBackupRunBatchSize 0 0 0 0 0 0 0 0 "" false createdBy now (Some now) None [].

Definition isBulkBackupRunActiveConstraintError (e : string) : bool := String.eqb e backup_bulk_runs_one_active.

(** The run and the error, either of which may be absent; [fresh] stands for the defaults of [CreateRun], which a run made here does not reach. *)
Definition StartBulkBackupRun (fresh : nat → UUID) (requestedDeviceIDs : list UUID) (createdBy : string) : prog (option BulkBackupRun * option string) :=
  let* active := GetActiveRun in
  match active with
  | Err e => Ret (None, Some e)
  | Ok (Some run) =>
    let* hydrated := hydrateBulkBackupRunFileTotals (Some run) in
    match hydrated with Err e => Ret (None, Some e) | Ok r => Ret (r, Some ErrBulkBackupRunAlreadyActive) end
  | Ok None =>
    let* selected := bulkBackupRunDevices requestedDeviceIDs in
    match selected with
    | Err e => Ret (None, Some e)
    | Ok devices =>
      let* now := ask QNow in
      let* id := ask QUUID in
      let run := newRun id createdBy now in
      let* items := newItems id now devices in
      let* created := sql (CreateRun now fresh run items) in
      match created with
      | Err e =>
        if isBulkBackupRunActiveConstraintError e then
          let* active := GetActiveRun in
          match active with
          | Ok (Some run) =>
            let* hydrated := hydrateBulkBackupRunFileTotals (Some run) in
            match hydrated with Ok r => Ret (r, Some ErrBulkBackupRunAlreadyActive) | Err _ => Ret (None, Some ErrBulkBackupRunAlreadyActive) end
          | _ => Ret (None, Some ErrBulkBackupRunAlreadyActive)
          end
        else Ret (None, Some e)
      | Ok _ =>
        let* counted := RecalculateRunCounters NewBulkBackupRunRepo id in
        match counted with
        | Err e => Ret (None, Some e)
        | Ok _ =>
          let* _ := go (TProcess id false) in
          let* r := getBulkBackupRunWithFileTotals id in
          match r with Ok run => Ret (run, None) | Err e => Ret (None, Some e) end
        end
      end
    end
  end.

Definition CancelBulkBackupRun (id : UUID) : prog (result (option BulkBackupRun)) :=
  in_context (
    let? run := GetRun id in
    match run with
    | None => Ret (Ok None)
    | Some _ =>
      let? shouldStart := RequestBulkRunCancel id in
      let* _ := (if shouldStart : bool then go (TProcess id false) else Ret tt) in
      getBulkBackupRunWithFileTotals id
    end).

Definition PauseBulkBackupRun (id : UUID) : prog (result (option BulkBackupRun)) :=
  in_context (
    let? run := GetRun id in
    match run with
    | None => Ret (Ok None)
    | Some _ =>
      let? _n := sql (RequestBulkRunPause id) in
      getBulkBackupRunWithFileTotals id
    end).

Definition ResumeBulkBackupRun (id : UUID) : prog (result (option BulkBackupRun)) :=
  in_context (
    let? run := GetRun id in
    match run with
    | None => Ret (Ok None)
    | Some _ =>
      let? shouldStart := RequestBulkRunResume id in
      let* _ := (if shouldStart : bool then go (TProcess id false) else Ret tt) in
      getBulkBackupRunWithFileTotals id
    end).

(** At startup: the interrupted runs, until the context is done. *)
Fixpoint resume_runs (runs : list BulkBackupRun) : prog unit :=
  match runs with
  | [] => Ret tt
  | run :: rest =>
    let* cancelled := ask QContext in
    match cancelled with
    | Some _ => Ret tt
    | None => let* _ := go (TProcess (br_ID run) true) in resume_runs rest
    end
  end.
Definition ResumeBulkBackupRuns : prog unit :=
  let* runs := ListResumableRuns in
  match runs with Ok runs => resume_runs runs | Err _ => Ret tt end.

(** ** The processor *)

Definition nextBulkRunBatch (items : list BulkBackupRunItem) (batchSize : Z) : list BulkBackupRunItem :=
  let batchSize := if batchSize <=? 0 then defaultBulkBackupRunBatchSize else batchSize in
  take (Z.to_nat batchSize) (filter (λ i, bulkRunItemTerminal (bi_Status i) = false) items).

Definition runningBulkRunItems (items : list BulkBackupRunItem) : list BulkBackupRunItem :=
  filter (λ i, bi_Status i = BulkBackupRunItemStatusActive ∨ bi_Status i = BulkBackupRunItemStatusRunning) items.

Section processor.
Context (repo : BulkBackupRunRepo).

Definition recalculateBulkRunCounters (runID : UUID) : prog unit := let* _ := RecalculateRunCounters repo runID in Ret tt.

Definition completed_item (item : BulkBackupRunItem) (status : BulkBackupRunItemStatus) (reason : string) (jobID : option UUID) (now : Time) : BulkBackupRunItem :=
  item <| bi_Status := status |> <| bi_Reason := reason |> <| bi_BackupJobID := jobID |> <| bi_UpdatedAt := now |> <| bi_CompletedAt := Some now |>.

Definition completeBulkRunItem (item : BulkBackupRunItem) (status : BulkBackupRunItemStatus) (reason : string) (jobID : option UUID) : prog (result unit) :=
  let* now := ask QNow in
  let? _u := UpdateRunItem repo (completed_item item status reason jobID now) in
  let* _ := recalculateBulkRunCounters (bi_RunID item) in
  Ret (Ok tt).

(** A completion whose error the caller drops. *)
Definition complete (item : BulkBackupRunItem) (status : BulkBackupRunItemStatus) (reason : string) : prog unit :=
  let* _ := completeBulkRunItem item status reason None in Ret tt.

Definition refreshBulkRunProcessor (runID : UUID) (owner : string) : prog (result unit) :=
  if String.eqb owner "" then Ret (Ok tt)
  else let* now := ask QNow in sql (RefreshBulkRunProcessorContext runID owner (now + bulkBackupRunProcessorLeaseTTL)).

Definition claimBulkRunBatch (items : list BulkBackupRunItem) : prog (list BulkBackupRunItem) :=
  let* claimed := pcollect items (λ item,
    let* r := ClaimBulkRunItem repo (bi_RunID item) (bi_ID item) in
    Ret (match r with Ok o => o | Err _ => None end)) in
  let* _ := match claimed with i :: _ => recalculateBulkRunCounters (bi_RunID i) | [] => Ret tt end in
  Ret claimed.

(** The checks of one claimed item: it is completed at once, or becomes a candidate. *)
Definition check_item (item : BulkBackupRunItem) : prog (option (BulkBackupRunItem * queuedDeviceBackup)) :=
  let* found := ask (QDevice (bi_DeviceID item)) in
  match found with
  | Err e => let* _ := complete item BulkBackupRunItemStatusFailed (String.append "getting device: " e) in Ret None
  | Ok device =>
    if String.eqb (dev_Status (bd_device device)) DeviceStatusDown then
      let* _ := complete item BulkBackupRunItemStatusSkipped "device offline" in Ret None
    else
      let item := item <| bi_DeviceName := bulkBackupDeviceName device |> in
      let* profile := ask (QProfile (dev_ID (bd_device device))) in
      match profile with
      | Err _ => let* _ := complete item BulkBackupRunItemStatusSkipped "no credential profile assigned" in Ret None
      | Ok profile =>
        let* supported := ask (QSupported (bd_vendor device)) in
        if negb supported then let* _ := complete item BulkBackupRunItemStatusSkipped "backup not supported for vendor" in Ret None
        else Ret (Some (item, mkQueued device profile uuid_Nil))
      end
  end.

(** [checkBulkBackupReachability]: a slot per backup; the workers only bound how many probes run at a time. *)
Fixpoint checkBulkBackupReachability (backups : list queuedDeviceBackup) : prog (list (option string)) :=
  match backups with
  | [] => Ret []
  | b :: rest =>
    let* r := ask (QReachable (qb_device b) (cp_Port (qb_profile b))) in
    let* rs := checkBulkBackupReachability rest in
    Ret (r :: rs)
  end.

(** The job of one candidate: created and attached (with the run to recount), or the item is completed. *)
Definition queue_item (c : (BulkBackupRunItem * queuedDeviceBackup) * option string) : prog (option (queuedDeviceBackup * UUID)) :=
  let '((item, backup), unreachable) := c in
  match unreachable with
  | Some _ => let* _ := complete item BulkBackupRunItemStatusSkipped "device unreachable" in Ret None
  | None =>
    let* id := ask QUUID in
    let* now := ask QNow in
    let job := mkJob id (dev_ID (bd_device (qb_device backup))) BackupStatusPending "" 0 in
    let item := item <| bi_Status := BulkBackupRunItemStatusActive |> <| bi_UpdatedAt := now |> <| bi_CompletedAt := None |> in
    let* clock := ask QNow in
    let* r := sql (CreateBulkRunJob repo item job clock) in
    match r with
    | Err e => let* _ := complete item BulkBackupRunItemStatusFailed (String.append "failed to create or attach job: " e) in Ret None
    | Ok _ => Ret (Some (mkQueued (qb_device backup) (qb_profile backup) id, bi_RunID item))
    end
  end.

Definition prepareBulkRunBatch (items : list BulkBackupRunItem) : prog (list queuedDeviceBackup) :=
  let* activeItems := claimBulkRunBatch items in
  let* candidates := pcollect activeItems check_item in
  let* reachability := checkBulkBackupReachability (snd <$> candidates) in
  let* queued := pcollect (zip candidates reachability) queue_item in
  let* _ := match last queued with Some (_, runID) => if runID =? uuid_Nil then Ret tt else recalculateBulkRunCounters runID | None => Ret tt end in
  Ret (fst <$> queued).

(** [startBulkBackupWorkers]: every queued backup is executed; the pool of four workers only bounds how many run at a time. *)
Definition startBulkBackupWorkers (queued : list queuedDeviceBackup) : prog unit := pfor queued (λ b, go (TBackup false b)).

(** The deadline of a batch, and the ticks of half a second before it. *)
Definition batch_deadline (batch : list BulkBackupRunItem) : Duration :=
  (Z.of_nat (length batch) + defaultBulkBackupWorkerCount - 1) / defaultBulkBackupWorkerCount * (5 * Minute) + Minute.
Definition batch_ticks (batch : list BulkBackupRunItem) : nat := Z.to_nat (batch_deadline batch / (500 * Millisecond)).

Fixpoint wait_loop (ticks : nat) (runID : UUID) (ids : list UUID) (owner : string) (nextRefresh : Time) : prog (result unit) :=
  match ticks with
  | O => Ret (Err "context deadline exceeded")
  | S ticks =>
    let* done := ask QTick in
    match done with
    | Some e => Ret (Err e)
    | None =>
      let* now := ask QNow in
      let? nextRefresh := (if now <? nextRefresh then Ret (Ok nextRefresh)
                           else let? _u := refreshBulkRunProcessor runID owner in
                                let* now := ask QNow in Ret (Ok (now + bulkBackupRunProcessorLeaseTTL / 3))) in
      let? complete := sql (ReconcileBulkRunBatchContext repo runID ids) in
      if complete : bool then Ret (Ok tt) else wait_loop ticks runID ids owner nextRefresh
    end
  end.

Definition waitForBulkRunBatch (runID : UUID) (batch : list BulkBackupRunItem) (owner : string) : prog (result unit) :=
  let* now := ask QNow in
  wait_loop (batch_ticks batch) runID (bi_ID <$> batch) owner now.

Definition cancelPendingBulkRunItems (runID : UUID) (items : list BulkBackupRunItem) : prog unit :=
  let* _ := pfor items (λ item,
    if bulkRunItemTerminal (bi_Status item) || bool_decide (bi_Status item = BulkBackupRunItemStatusActive)
       || bool_decide (bi_Status item = BulkBackupRunItemStatusRunning) then Ret tt
    else complete item BulkBackupRunItemStatusCancelled "bulk backup cancelled") in
  recalculateBulkRunCounters runID.

(** The status a run ends with. *)
Definition final_status (run : BulkBackupRun) : BulkBackupRunStatus :=
  if br_CancelRequested run || (0 <? br_CancelledCount run) then
    if (0 <? br_SuccessCount run) || (0 <? br_FailedCount run) || (0 <? br_SkippedCount run) then BulkBackupRunStatusPartial else BulkBackupRunStatusCancelled
  else if (0 <? br_TotalCount run) && (br_SuccessCount run =? br_TotalCount run) then BulkBackupRunStatusSuccess
  else if (0 <? br_SuccessCount run) || (0 <? br_SkippedCount run) then BulkBackupRunStatusPartial
  else BulkBackupRunStatusFailed.

Definition finishBulkBackupRun (runID : UUID) : prog unit :=
  let* counted := RecalculateRunCounters repo runID in
  match counted with
  | Ok (Some run) =>
    let* now := ask QNow in
    let* _ := sql (FinishBulkRun repo runID (final_status run) now) in
    Ret tt
  | _ => Ret tt
  end.

(** [processAcquiredBulkRun] for at most [fuel] rounds; [false] when it is cut short. *)
Fixpoint processAcquiredBulkRun (fuel : nat) (runID : UUID) (owner : string) : prog bool :=
  match fuel with
  | O => Ret false
  | S fuel =>
    let* refreshed := refreshBulkRunProcessor runID owner in
    match refreshed with
    | Err _ => Ret true
    | Ok _ =>
      let* found := GetRun runID in
      match found with
      | Err _ | Ok None => Ret true
      | Ok (Some run) =>
        if bulkRunTerminal (br_Status run) then Ret true
        else if bool_decide (br_Status run = BulkBackupRunStatusPaused) then Ret true
        else if bool_decide (br_Status run = BulkBackupRunStatusPausing) then
          let* again := GetRun runID in
          match again with
          | Err _ => Ret true
          | Ok None => processAcquiredBulkRun fuel runID owner
          | Ok (Some latest) =>
            if negb (bool_decide (br_Status latest = BulkBackupRunStatusPausing)) then processAcquiredBulkRun fuel runID owner
            else let* _ := UpdateRun repo (latest <| br_Status := BulkBackupRunStatusPaused |>) in Ret true
          end
        else if br_CancelRequested run then
          let* _ := cancelPendingBulkRunItems (br_ID run) (br_Items run) in
          let* refreshed := GetRun runID in
          match refreshed with
          | Err _ | Ok None => Ret true
          | Ok (Some refreshed) =>
            match runningBulkRunItems (br_Items refreshed) with
            | [] => let* _ := finishBulkBackupRun (br_ID run) in Ret true
            | active =>
              let* waited := waitForBulkRunBatch (br_ID run) active owner in
              match waited with Err _ => Ret true | Ok _ => processAcquiredBulkRun fuel runID owner end
            end
          end
        else
          match nextBulkRunBatch (br_Items run) (br_BatchSize run) with
          | [] => let* _ := finishBulkBackupRun (br_ID run) in Ret true
          | items =>
            let* queued := prepareBulkRunBatch items in
            let* _ := startBulkBackupWorkers queued in
            let* waited := waitForBulkRunBatch (br_ID run) items owner in
            match waited with Err _ => Ret true | Ok _ => processAcquiredBulkRun fuel runID owner end
          end
      end
    end
  end.
End processor.

(** [processorOwner] is the [uuid.NewString] of the goroutine. *)
Definition processBulkBackupRun (fuel : nat) (processorOwner : string) (runID : UUID) (recoverInterrupted : bool) : prog unit :=
  let* now := ask QNow in
  let* acquired := sql (TryAcquireBulkRunProcessor runID processorOwner (now + bulkBackupRunProcessorLeaseTTL)) in
  match acquired with
  | Err _ => Ret tt
  | Ok n =>
    if n =? 0 then Ret tt
    else
      let repo := ForProcessor runID processorOwner in
      let* recovered := (if recoverInterrupted then sql (RecoverBulkRun repo runID) else Ret (Ok tt)) in
      let* ended := (match recovered with Err _ => Ret true | Ok _ => processAcquiredBulkRun repo fuel runID processorOwner end) in
      if ended : bool then let* _ := sql (ReleaseBulkRunProcessor runID processorOwner) in Ret tt else Ret tt
  end.
