(* ===== verification/BulkJobs.v ===== *)
(** * Backup jobs

    [internal/service/backup_jobs.go] and the job transitions of [backup_executor.go]: one device
    backed up by hand or as part of a run, and the deletion of a job.  The SSH session, the export
    files and the checks of their paths on disk are answers of the environment. *)

From S2P Require Import Prelude GoLib Domain BulkData BulkRepo BulkService.
Open Scope bulk_scope.

Definition updateJobStatus (jobID : UUID) (status : BackupStatus) (errMsg : string) : prog (result unit) :=
  let? job := sql (BackupJob_GetByID jobID) in
  match job with
  | None => Ret (Err "backup job not found")
  | Some job => sql (BackupJob_Update (job <| bj_Status := status |> <| bj_ErrorMessage := errMsg |>))
  end.

Definition failJob (jobID : UUID) (errMsg : string) : prog unit :=
  let* _ := updateJobStatus jobID BackupStatusFailed errMsg in Ret tt.

Definition runFullBackupContext (deviceID jobID : UUID) : prog unit :=
  let* locked := ask (QDeviceLock deviceID) in
  match locked with
  | Some e => failJob jobID e
  | None =>
    let* started := updateJobStatus jobID BackupStatusRunning "" in
    match started with
    | Err _ => Ret tt
    | Ok _ =>
      let* exported := ask (QExports jobID) in
      match exported with
      | Err e => failJob jobID e
      | Ok warnings => let* _ := updateJobStatus jobID BackupStatusSuccess warnings in Ret tt
      end
    end
  end.

(** [runFullBackup] waits for a slot; [runFullBackupReserved] has one. *)
Definition runFullBackup (deviceID jobID : UUID) : prog unit :=
  let* slot := ask QSlot in
  match slot with
  | Some e => failJob jobID e
  | None => runFullBackupContext deviceID jobID
  end.

Definition TriggerBackup (deviceID : UUID) : prog (result BackupJob) :=
  let* slot := ask QSlot in
  match slot with
  | Some e => Ret (Err e)
  | None =>
    let? device := ask (QDevice deviceID) in
    let? profile := ask (QProfile (dev_ID (bd_device device))) in
    let* supported := ask (QSupported (bd_vendor device)) in
    if negb supported then Ret (Err "backup not supported for vendor")
    else
      let* unreachable := ask (QReachable device (cp_Port profile)) in
      match unreachable with
      | Some e => Ret (Err e)
      | None =>
        let* id := ask QUUID in
        let* now := ask QNow in
        let job := mkJob id deviceID BackupStatusPending "" 0 in
        let? _u := sql (BackupJob_Create now id job) in
        let* _ := go (TBackup true (mkQueued device profile id)) in
        Ret (Ok job)
      end
  end.

Definition DeleteBackupJob (id : UUID) : prog (result unit) :=
  in_context (
    let? job := sql (BackupJob_GetByID id) in
    match job with
    | None => Ret (Err "backup job not found")
    | Some job =>
      if bool_decide (bj_Status job = BackupStatusPending) || bool_decide (bj_Status job = BackupStatusRunning) then Ret (Err ErrBackupJobActive)
      else
        let? referenced := sql (BackupJobReferencedByActiveRunContext id) in
        if referenced : bool then Ret (Err ErrBackupJobReferencedByActiveBulkRun)
        else
          let* files := ask (QDeletable id) in
          match files with
          | Some e => Ret (Err e)
          | None => in_context (sql (BackupJob_Delete id))
          end
    end).

(** * Goroutines over the backup tables

    The whole service at work: any number of requests, processors and backup workers, interleaved
    at their statements.  A statement succeeds, fails without effect, or commits while its answer
    is lost; a goroutine can die at any point, as all do when the process restarts.  Processors of
    several instances of the program are goroutines like any other. *)

Open Scope bulk_scope.

Inductive outcome := Done | Fault | Lost.

Inductive request :=
| RStart (fresh : nat → UUID) (devices : list UUID) (createdBy : string)
| RCancel (id : UUID)
| RPause (id : UUID)
| RResume (id : UUID)
| RGet (id : UUID)
| RLatest
| RStartup                                     (* ResumeBulkBackupRuns, when the program starts *)
| RTrigger (device : UUID)
| RDeleteJob (job : UUID)
| RDeviceDeleted (device : UUID)               (* the cascade of a deleted device *)
| RPurge (cutoff : Time).                      (* retention of failed jobs *)

Definition ignoring {A} (p : prog A) : prog unit := pbind p (λ _, Ret tt).

Definition request_prog (r : request) : prog unit :=
  match r with
  | RStart fresh ids by_ => ignoring (StartBulkBackupRun fresh ids by_)
  | RCancel id => ignoring (CancelBulkBackupRun id)
  | RPause id => ignoring (PauseBulkBackupRun id)
  | RResume id => ignoring (ResumeBulkBackupRun id)
  | RGet id => ignoring (GetBulkBackupRun id)
  | RLatest => ignoring GetLatestBulkBackupRun
  | RStartup => ResumeBulkBackupRuns
  | RTrigger id => ignoring (TriggerBackup id)
  | RDeleteJob id => ignoring (DeleteBackupJob id)
  | RDeviceDeleted id => ignoring (sql (BackupJob_DeleteByDeviceID id))
  | RPurge cutoff => ignoring (sql (BackupJob_DeleteFailedOlderThan cutoff))
  end.

Definition task_prog (fuel : nat) (owner : string) (t : task) : prog unit :=
  match t with
  | TProcess id recover => processBulkBackupRun fuel owner id recover
  | TBackup reserved b =>
    (if reserved : bool then runFullBackupContext else runFullBackup) (dev_ID (bd_device (qb_device b))) (qb_jobID b)
  end.

(** A goroutine with its name: the owner string of a processor, or empty for a request. *)
Abbreviation thread := (string * prog unit)%type (only parsing).

Record sys := mkSys { sy_db : BulkDB; sy_threads : list thread; sy_used : gset string }.

Inductive choice :=
| CStep (i : nat) (now : Time) (o : outcome) (answers : ∀ q, reply q) (owner : string) (fuel : nat)
| CRequest (r : request)
| CDie (i : nat).

(** One node of a goroutine: the tables, its rest, and the goroutine it starts. *)
Definition step_prog (d : BulkDB) (p : prog unit) (now : Time) (o : outcome) (answers : ∀ q, reply q) : option (BulkDB * prog unit * option task) :=
  match p with
  | Ret _ => None
  | Sql f k =>
    let '(d', r) := f now d in
    Some (match o with
          | Done => (d', k r, None)
          | Fault => (d, k (Err "connection failed"), None)
          | Lost => (d', k (Err "connection lost"), None)
          end)
  | Ask q k => Some (d, k (answers q), None)
  | Go t k => Some (d, k, Some t)
  end.

Definition exec (c : choice) (s : sys) : option sys :=
  match c with
  | CRequest r => Some (mkSys (sy_db s) (sy_threads s ++ [(""%string, request_prog r)]) (sy_used s))
  | CDie i => Some (mkSys (sy_db s) (delete i (sy_threads s)) (sy_used s))
  | CStep i now o answers owner fuel =>
    match sy_threads s !! i with
    | None => None
    | Some (tid, p) =>
      match step_prog (sy_db s) p now o answers with
      | None => None
      | Some (d, p', None) => Some (mkSys d (<[i := (tid, p')]> (sy_threads s)) (sy_used s))
      | Some (d, p', Some t) =>
        if String.eqb owner "" || bool_decide (owner ∈ sy_used s) then None
        else Some (mkSys d (<[i := (tid, p')]> (sy_threads s) ++ [(owner, task_prog fuel owner t)]) ({[owner]} ∪ sy_used s))
      end
    end
  end.

Definition sys0 : sys := mkSys (mkBulkDB ∅ ∅ ∅) [] ∅.

Definition step (s s' : sys) : Prop := ∃ c, exec c s = Some s'.
Definition reachable (s : sys) : Prop := rtc step sys0 s.
