(* ===== verification/BulkLogic.v ===== *)
(** * Reasoning about goroutines over the backup tables

    What a statement of one goroutine may change, what the others may rely on while it holds a
    lease, and a weakest precondition for programs under that interference.  A goroutine is named
    by the owner string of its lease; the empty name holds none. *)

From S2P Require Import Prelude GoLib Domain BulkData BulkRepo BulkService BulkJobs.

(** ** Vocabulary *)

(** Both sides of a row that only lost its reference to a deleted job. *)
Definition same_item (i i' : BulkBackupRunItem) : Prop := i' = i ∨ i' = i <| bi_BackupJobID := None |>.

Definition status_of (row : RunRow) : BulkBackupRunStatus := br_Status (rr_run row).
Definition flag_of (row : RunRow) : bool := br_CancelRequested (rr_run row).
Definition counters (row : RunRow) : Z * Z * Z * Z * Z :=
  let r := rr_run row in (br_TotalCount r, br_SuccessCount r, br_FailedCount r, br_SkippedCount r, br_CancelledCount r).
Definition counts (items : list BulkBackupRunItem) : Z * Z * Z * Z * Z :=
  (Z.of_nat (length items), count_status (is_item_status BulkBackupRunItemStatusSuccess) items,
   count_status (is_item_status BulkBackupRunItemStatusFailed) items, count_status (is_item_status BulkBackupRunItemStatusSkipped) items,
   count_status (is_item_status BulkBackupRunItemStatusCancelled) items).

(** The status a run with these items ends with, cancelled or not. *)
Definition verdict (cancelled : bool) (items : list BulkBackupRunItem) : BulkBackupRunStatus :=
  let '(total, success, failed, skipped, cancelledCount) := counts items in
  if cancelled || (0 <? cancelledCount) then
    if (0 <? success) || (0 <? failed) || (0 <? skipped) then BulkBackupRunStatusPartial else BulkBackupRunStatusCancelled
  else if (0 <? total) && (success =? total) then BulkBackupRunStatusSuccess
  else if (0 <? success) || (0 <? skipped) then BulkBackupRunStatusPartial
  else BulkBackupRunStatusFailed.

Definition all_terminal (items : list BulkBackupRunItem) : Prop := Forall (λ i, bulkRunItemTerminal (bi_Status i) = true) items.

(** A finished run: its status is the verdict on its items, and only a cancelled one leaves items open. *)
Definition settled (row : RunRow) (items : list BulkBackupRunItem) : Prop :=
  (∃ cancelled, (cancelled = true → flag_of row = true) ∧ status_of row = verdict cancelled items) ∧
  (flag_of row = true ∨ all_terminal items).

(** ** The invariant of the tables *)

Record Inv (d : BulkDB) : Prop := {
  inv_run_id r row : bk_runs d !! r = Some row → br_ID (rr_run row) = r;
  inv_item id i : bk_items d !! id = Some i → bi_ID i = id ∧ is_Some (bk_runs d !! bi_RunID i);
  inv_job j job : bk_jobs d !! j = Some job → bj_ID job = j;
  inv_ref id i j : bk_items d !! id = Some i → bi_BackupJobID i = Some j → ∃ job, bk_jobs d !! j = Some job ∧ bj_DeviceID job = bi_DeviceID i;
  inv_pausing r row : bk_runs d !! r = Some row → status_of row = BulkBackupRunStatusPausing → flag_of row = false;
  inv_settled r row : bk_runs d !! r = Some row → bulkRunTerminal (status_of row) = true → settled row (items_of r d);
  inv_active r r' row row' : bk_runs d !! r = Some row → bk_runs d !! r' = Some row' →
    run_active (status_of row) = true → run_active (status_of row') = true → r = r' }.

(** ** What a statement of goroutine [t] may do *)

(** A run that stays. *)
Record row_step (t : string) (now : Time) (items items' : list BulkBackupRunItem) (row row' : RunRow) : Prop := {
  rs_id : br_ID (rr_run row') = br_ID (rr_run row);
  rs_owner : rr_owner row' = rr_owner row ∨
    ((rr_owner row' = t ∨ rr_owner row' = "") ∧ (rr_owner row = "" ∨ rr_owner row = t ∨ lease_after now (rr_lease row) = false));
  rs_terminal : bulkRunTerminal (status_of row) = true → status_of row' = status_of row ∧ flag_of row' = flag_of row;
  rs_working : rr_owner row ≠ t → run_resumable (status_of row) = true → run_resumable (status_of row') = true;
  rs_flag : rr_owner row ≠ t → flag_of row = true → flag_of row' = true;
  rs_counters : rr_owner row ≠ t → counters row' = counters row ∨ counters row' = counts items;
  rs_pausing : status_of row' = BulkBackupRunStatusPausing → flag_of row' = false;
  rs_settled : bulkRunTerminal (status_of row') = true → bulkRunTerminal (status_of row) = false → settled row' items' }.

(** The lease of [t] on run [r], in force at [now], on a run that is worked on. *)
Definition in_force (t : string) (now : Time) (d : BulkDB) (r : UUID) : Prop :=
  ∃ row, bk_runs d !! r = Some row ∧ rr_owner row = t ∧ t ≠ ""%string ∧ lease_after now (rr_lease row) = true ∧ run_resumable (status_of row) = true.

(** An item that stays: only the holder of the lease changes it, and never once it is settled. *)
Record item_step (t : string) (now : Time) (d : BulkDB) (i i' : BulkBackupRunItem) : Prop := {
  is_id : bi_ID i' = bi_ID i ∧ bi_RunID i' = bi_RunID i ∧ bi_DeviceID i' = bi_DeviceID i;
  is_fenced : same_item i i' ∨ (bulkRunItemTerminal (bi_Status i) = false ∧ in_force t now d (bi_RunID i)) }.

(** A whole statement. *)
Record db_step (t : string) (now : Time) (d d' : BulkDB) : Prop := {
  ds_run r row : bk_runs d !! r = Some row → ∃ row', bk_runs d' !! r = Some row' ∧ row_step t now (items_of r d) (items_of r d') row row';
  ds_new_run r row' : bk_runs d' !! r = Some row' → bk_runs d !! r = None →
    rr_owner row' = ""%string ∧ br_ID (rr_run row') = r ∧ bulkRunTerminal (status_of row') = false ∧
    status_of row' ≠ BulkBackupRunStatusPausing ∧
    (∀ r0 row0, bk_runs d !! r0 = Some row0 → run_active (status_of row0) = false) ∧
    (∀ r1 row1, bk_runs d' !! r1 = Some row1 → bk_runs d !! r1 = None → r1 = r);
  ds_item id i : bk_items d !! id = Some i → ∃ i', bk_items d' !! id = Some i' ∧ item_step t now d i i';
  ds_new_item id i' : bk_items d' !! id = Some i' → bk_items d !! id = None →
    bi_ID i' = id ∧ bk_runs d !! bi_RunID i' = None ∧ is_Some (bk_runs d' !! bi_RunID i');
  ds_job j job : bk_jobs d' !! j = Some job → bj_ID job = j;
  ds_ref id i' j : bk_items d' !! id = Some i' → bi_BackupJobID i' = Some j → ∃ job, bk_jobs d' !! j = Some job ∧ bj_DeviceID job = bi_DeviceID i' }.

(** ** What the others may rely on *)

Definition holds (o : string) (r : UUID) (d : BulkDB) : Prop := ∃ row, bk_runs d !! r = Some row ∧ rr_owner row = o.

(** The items of run [r] on both sides, up to references to deleted jobs. *)
Definition items_kept (r : UUID) (d d' : BulkDB) : Prop :=
  (∀ id i, bk_items d !! id = Some i → bi_RunID i = r → ∃ i', bk_items d' !! id = Some i' ∧ same_item i i') ∧
  (∀ id i', bk_items d' !! id = Some i' → bi_RunID i' = r → ∃ i, bk_items d !! id = Some i ∧ same_item i i').

Definition run_kept (r : UUID) (d d' : BulkDB) (row row' : RunRow) : Prop :=
  (run_resumable (status_of row) = true → run_resumable (status_of row') = true) ∧
  (flag_of row = true → flag_of row' = true) ∧
  (counters row = counts (items_of r d) → counters row' = counts (items_of r d')).

(** While [o] holds the lease of a run, nobody else touches its items, and it stays worked on. *)
Definition rely_on (o : string) (r : UUID) (d d' : BulkDB) : Prop :=
  ∀ row', bk_runs d' !! r = Some row' → rr_owner row' = o → ∃ row, bk_runs d !! r = Some row ∧ rr_owner row = o ∧ items_kept r d d' ∧ run_kept r d d' row row'.
Definition rely (o : string) (d d' : BulkDB) : Prop := o ≠ ""%string → ∀ r, rely_on o r d d'.

(** For every goroutine: what is settled stays so. *)
Record Final (d d' : BulkDB) : Prop := {
  fi_run r row : bk_runs d !! r = Some row → ∃ row', bk_runs d' !! r = Some row' ∧
    (bulkRunTerminal (status_of row) = true → status_of row' = status_of row);
  fi_item id i : bk_items d !! id = Some i → ∃ i', bk_items d' !! id = Some i' ∧ bi_RunID i' = bi_RunID i ∧ bi_DeviceID i' = bi_DeviceID i ∧
    (bulkRunItemTerminal (bi_Status i) = true → same_item i i') ∧
    (∀ row, bk_runs d !! bi_RunID i = Some row → run_resumable (status_of row) = false → same_item i i');
  fi_new id i' : bk_items d' !! id = Some i' → bk_items d !! id = None → bk_runs d !! bi_RunID i' = None }.

(** ** Counting is up to references *)

Lemma same_item_refl i : same_item i i.
Proof. by left. Qed.
Lemma same_item_trans i j k : same_item i j → same_item j k → same_item i k.
Proof. intros [->| ->] [->| ->]; [by left|by right..]. Qed.
Lemma same_item_status i j : same_item i j → bi_Status j = bi_Status i ∧ bi_RunID j = bi_RunID i ∧ bi_ID j = bi_ID i ∧ bi_DeviceID j = bi_DeviceID i.
Proof. by intros [->| ->]. Qed.
#[export] Hint Resolve same_item_refl same_item_trans : theia.

Lemma items_kept_refl r d : items_kept r d d.
Proof. split; eauto with theia. Qed.
Lemma items_kept_trans r d d1 d2 : items_kept r d d1 → items_kept r d1 d2 → items_kept r d d2.
Proof.
  intros [H1 H2] [H3 H4]. split.
  - intros id i Hi Hr. destruct (H1 id i Hi Hr) as (i1 & Hi1 & S1). destruct (H3 id i1 Hi1) as (i2 & Hi2 & S2); [|eauto with theia].
    by rewrite (proj1 (proj2 (same_item_status _ _ S1))).
  - intros id i Hi Hr. destruct (H4 id i Hi Hr) as (i1 & Hi1 & S1). destruct (H2 id i1 Hi1) as (i2 & Hi2 & S2); [|eauto with theia].
    by rewrite <- (proj1 (proj2 (same_item_status _ _ S1))).
Qed.

(** The statuses of the items of a run, as a map. *)
Definition statuses (r : UUID) (d : BulkDB) : gmap UUID BulkBackupRunItemStatus := bi_Status <$> filter (λ p, bi_RunID p.2 = r) (bk_items d).

Lemma items_kept_statuses r d d' : items_kept r d d' → statuses r d' = statuses r d.
Proof.
  intros [H1 H2]. apply map_eq. intros id. unfold statuses. rewrite !lookup_fmap. apply option_eq. intros s. rewrite !fmap_Some. split.
  - intros (i & [Hi Hr]%map_lookup_filter_Some & ->). simpl in Hr. destruct (H2 id i Hi Hr) as (j & Hj & S).
    destruct (same_item_status _ _ S) as (E1 & E2 & _). exists j. split; [|done]. apply map_lookup_filter_Some. split; [done|]. simpl. congruence.
  - intros (i & [Hi Hr]%map_lookup_filter_Some & ->). simpl in Hr. destruct (H1 id i Hi Hr) as (j & Hj & S).
    destruct (same_item_status _ _ S) as (E1 & E2 & _). exists j. split; [|done]. apply map_lookup_filter_Some. split; [done|]. simpl. congruence.
Qed.

Lemma items_of_statuses r d : bi_Status <$> items_of r d ≡ₚ values (statuses r d).
Proof. unfold items_of, statuses, values. rewrite map_to_list_fmap, <- !list_fmap_compose. done. Qed.

Lemma count_status_fmap P l : count_status P l = Z.of_nat (length (filter (λ s, P s = true) (bi_Status <$> l))).
Proof. unfold count_status. f_equal. induction l as [|i l IH]; [done|]. rewrite fmap_cons, !filter_cons. destruct (decide _); simpl; by rewrite IH. Qed.

Lemma count_status_perm P l l' : bi_Status <$> l ≡ₚ bi_Status <$> l' → count_status P l' = count_status P l.
Proof. intros E. rewrite !count_status_fmap. f_equal. apply Permutation_length. by rewrite E. Qed.

Lemma counts_perm l l' : bi_Status <$> l ≡ₚ bi_Status <$> l' → counts l' = counts l.
Proof.
  intros E. unfold counts. rewrite !(count_status_perm _ l l' E).
  apply Permutation_length in E. rewrite !length_fmap in E. by rewrite E.
Qed.

Lemma all_terminal_statuses l : all_terminal l ↔ Forall (λ s, bulkRunItemTerminal s = true) (bi_Status <$> l).
Proof. by rewrite Forall_fmap. Qed.

Lemma all_terminal_perm l l' : bi_Status <$> l ≡ₚ bi_Status <$> l' → all_terminal l → all_terminal l'.
Proof. intros E. rewrite !all_terminal_statuses. by rewrite E. Qed.

Lemma items_kept_perm r d d' : items_kept r d d' → bi_Status <$> items_of r d ≡ₚ bi_Status <$> items_of r d'.
Proof. intros H. by rewrite !items_of_statuses, (items_kept_statuses r d d' H). Qed.

Lemma items_kept_counts r d d' : items_kept r d d' → counts (items_of r d') = counts (items_of r d).
Proof. intros H. by apply counts_perm, items_kept_perm. Qed.
Lemma items_kept_terminal r d d' : items_kept r d d' → all_terminal (items_of r d) → all_terminal (items_of r d').
Proof. intros H. by apply all_terminal_perm, items_kept_perm. Qed.
Lemma items_kept_settled r d d' row row' :
  items_kept r d d' → status_of row' = status_of row → flag_of row' = flag_of row → settled row (items_of r d) → settled row' (items_of r d').
Proof.
  intros H E1 E2 [(c & Hc & Hv) Ht]. split.
  - exists c. rewrite E1, E2. split; [done|]. rewrite Hv. unfold verdict. by rewrite (items_kept_counts r d d' H).
  - rewrite E2. destruct Ht as [?|?]; [by left|right]. by eapply items_kept_terminal.
Qed.

Lemma elem_of_items_of r d i : Inv d → i ∈ items_of r d ↔ bk_items d !! bi_ID i = Some i ∧ bi_RunID i = r.
Proof.
  intros HI. unfold items_of, values. rewrite list_elem_of_fmap. split.
  - intros ([id j] & -> & Hj). simpl. apply elem_of_map_to_list, map_lookup_filter_Some in Hj as [Hj Hr]. simpl in Hr.
    by rewrite (proj1 (inv_item d HI id j Hj)).
  - intros [Hi Hr]. exists (bi_ID i, i). split; [done|]. by apply elem_of_map_to_list, map_lookup_filter_Some.
Qed.

(** ** Consequences of a step *)

Lemma step_items_kept t now d d' r row :
  Inv d → db_step t now d d' → bk_runs d !! r = Some row →
  (rr_owner row ≠ t ∨ run_resumable (status_of row) = false) → items_kept r d d'.
Proof.
  intros HI H Hr Ho. assert (Hin : ¬ in_force t now d r) by (intros (row2 & Hr2 & ? & _ & _ & Hres); destruct Ho; simplify_eq; congruence). split.
  - intros id i Hi Er. destruct (ds_item _ _ _ _ H id i Hi) as (i' & Hi' & S). exists i'. split; [done|].
    destruct (is_fenced _ _ _ _ _ S) as [?|[_ Hf]]; [done|]. by rewrite Er in Hf.
  - intros id i' Hi' Er. destruct (bk_items d !! id) as [i|] eqn:Hi.
    + destruct (ds_item _ _ _ _ H id i Hi) as (i2 & Hi2 & S). simplify_eq. exists i. split; [done|].
      destruct (is_fenced _ _ _ _ _ S) as [?|[_ Hf]]; [done|]. by rewrite <- (proj1 (proj2 (is_id _ _ _ _ _ S))) in Hf.
    + destruct (ds_new_item _ _ _ _ H id i' Hi' Hi) as (_ & Hn & _). rewrite Er in Hn. congruence.
Qed.

Lemma step_rely t now d d' o : Inv d → db_step t now d d' → o ≠ t → rely o d d'.
Proof.
  intros HI H Hot Ho r row' Hr' Ho'. destruct (bk_runs d !! r) as [row|] eqn:Hr; cycle 1.
  { destruct (ds_new_run _ _ _ _ H r row' Hr' Hr) as (E & _). congruence. }
  destruct (ds_run _ _ _ _ H r row Hr) as (row2 & Hr2 & S). simplify_eq.
  assert (Eo : rr_owner row = rr_owner row') by (destruct (rs_owner _ _ _ _ _ _ S) as [?|[[?|?] _]]; congruence).
  assert (Hk : items_kept r d d') by (eapply step_items_kept; eauto; left; congruence).
  exists row. split_and!; [done|done|done|]. split_and!.
  - intros. eapply (rs_working _ _ _ _ _ _ S); congruence.
  - intros. eapply (rs_flag _ _ _ _ _ _ S); congruence.
  - rewrite (items_kept_counts r d d' Hk). intros Ec. destruct (rs_counters _ _ _ _ _ _ S) as [E|E]; congruence.
Qed.

Lemma terminal_not_resumable s : bulkRunTerminal s = true → run_resumable s = false.
Proof. by destruct s. Qed.
Lemma active_not_terminal s : run_active s = negb (bulkRunTerminal s).
Proof. by destruct s. Qed.

Lemma step_settled t now d d' r row' : Inv d → db_step t now d d' → bk_runs d' !! r = Some row' → bulkRunTerminal (status_of row') = true → settled row' (items_of r d').
Proof.
  intros HI H Hr' Ht. destruct (bk_runs d !! r) as [row|] eqn:Hr; cycle 1.
  { destruct (ds_new_run _ _ _ _ H r row' Hr' Hr) as (_ & _ & E & _). congruence. }
  destruct (ds_run _ _ _ _ H r row Hr) as (row2 & Hr2 & S). simplify_eq.
  destruct (bulkRunTerminal (status_of row)) eqn:E; [|by apply (rs_settled _ _ _ _ _ _ S)].
  destruct (rs_terminal _ _ _ _ _ _ S E) as [E1 E2].
  eapply items_kept_settled; [|done|done|by eapply inv_settled]. eapply step_items_kept; eauto. right. by apply terminal_not_resumable.
Qed.

(** A run active after the step was active before, or is the only new one. *)
Lemma step_was_active t now d d' r row' :
  db_step t now d d' → bk_runs d' !! r = Some row' → run_active (status_of row') = true →
  (∃ row, bk_runs d !! r = Some row ∧ run_active (status_of row) = true) ∨
  (bk_runs d !! r = None ∧ (∀ r0 row0, bk_runs d !! r0 = Some row0 → run_active (status_of row0) = false) ∧
   ∀ r1 row1, bk_runs d' !! r1 = Some row1 → bk_runs d !! r1 = None → r1 = r).
Proof.
  intros H Hr' Ha. destruct (bk_runs d !! r) as [row|] eqn:Hr; [left|right].
  - destruct (ds_run _ _ _ _ H r row Hr) as (row2 & Hr2 & S). simplify_eq. exists row. split; [done|].
    rewrite active_not_terminal in *. apply negb_true_iff in Ha. apply negb_true_iff. destruct (bulkRunTerminal (status_of row)) eqn:E; [|done].
    destruct (rs_terminal _ _ _ _ _ _ S E) as [E1 _]. congruence.
  - destruct (ds_new_run _ _ _ _ H r row' Hr' Hr) as (_ & _ & _ & _ & ? & ?). done.
Qed.

Lemma db_step_inv t now d d' : Inv d → db_step t now d d' → Inv d'.
Proof.
  intros HI H. split.
  - intros r row' Hr'. destruct (bk_runs d !! r) as [row|] eqn:Hr; [|by destruct (ds_new_run _ _ _ _ H r row' Hr' Hr) as (_ & E & _)].
    destruct (ds_run _ _ _ _ H r row Hr) as (row2 & Hr2 & S). simplify_eq. rewrite (rs_id _ _ _ _ _ _ S). by eapply inv_run_id.
  - intros id i' Hi'. destruct (bk_items d !! id) as [i|] eqn:Hi; [|destruct (ds_new_item _ _ _ _ H id i' Hi' Hi) as (? & _ & ?); done].
    destruct (ds_item _ _ _ _ H id i Hi) as (i2 & Hi2 & S). simplify_eq. destruct (is_id _ _ _ _ _ S) as (-> & -> & _).
    destruct (inv_item d HI id i Hi) as [E [row Hr]]. split; [done|]. destruct (ds_run _ _ _ _ H _ row Hr) as (row' & -> & _). done.
  - apply (ds_job _ _ _ _ H).
  - apply (ds_ref _ _ _ _ H).
  - intros r row' Hr' Hp. destruct (bk_runs d !! r) as [row|] eqn:Hr; [|by destruct (ds_new_run _ _ _ _ H r row' Hr' Hr) as (_ & _ & _ & E & _)].
    destruct (ds_run _ _ _ _ H r row Hr) as (row2 & Hr2 & S). simplify_eq. by apply (rs_pausing _ _ _ _ _ _ S).
  - intros. by eapply step_settled.
  - intros r r' row row' Hr Hr' Ha Ha'.
    destruct (step_was_active _ _ _ _ _ _ H Hr Ha) as [(row0 & H1 & A1)|(N1 & F1 & U1)]; destruct (step_was_active _ _ _ _ _ _ H Hr' Ha') as [(row0' & H2 & A2)|(N2 & F2 & U2)].
    + by eapply inv_active.
    + rewrite (F2 _ _ H1) in A1. done.
    + rewrite (F1 _ _ H2) in A2. done.
    + symmetry. eauto.
Qed.

Lemma step_final t now d d' : Inv d → db_step t now d d' → Final d d'.
Proof.
  intros HI H. split.
  - intros r row Hr. destruct (ds_run _ _ _ _ H r row Hr) as (row' & Hr' & S). exists row'. split; [done|]. intros E. by apply (rs_terminal _ _ _ _ _ _ S).
  - intros id i Hi. destruct (ds_item _ _ _ _ H id i Hi) as (i' & Hi' & S). destruct (is_id _ _ _ _ _ S) as (_ & E1 & E2).
    exists i'. split_and!; [done|done|done|..].
    + intros E. destruct (is_fenced _ _ _ _ _ S) as [?|[? _]]; [done|congruence].
    + intros row Hr E. destruct (is_fenced _ _ _ _ _ S) as [?|[_ (row2 & Hr2 & _ & _ & _ & Hres)]]; [done|]. simplify_eq. congruence.
  - intros id i' Hi' Hi. by destruct (ds_new_item _ _ _ _ H id i' Hi' Hi) as (_ & ? & _).
Qed.

(** ** Rely is a preorder *)

Lemma run_kept_refl r d row : run_kept r d d row row.
Proof. done. Qed.
Lemma run_kept_trans r d d1 d2 row row1 row2 : run_kept r d d1 row row1 → run_kept r d1 d2 row1 row2 → run_kept r d d2 row row2.
Proof. intros (?&?&?) (?&?&?). split_and!; auto. Qed.
Lemma rely_on_refl o r d : rely_on o r d d.
Proof. intros row Hr Ho. exists row. split_and!; [done|done|apply items_kept_refl|apply run_kept_refl]. Qed.
Lemma rely_on_trans o r d d1 d2 : rely_on o r d d1 → rely_on o r d1 d2 → rely_on o r d d2.
Proof.
  intros H1 H2 row2 Hr2 Ho2. destruct (H2 row2 Hr2 Ho2) as (row1 & Hr1 & Ho1 & K1 & R1). destruct (H1 row1 Hr1 Ho1) as (row & Hr & Ho & K & R).
  exists row. split_and!; [done|done|by eapply items_kept_trans|by eapply run_kept_trans].
Qed.
Lemma rely_refl o d : rely o d d.
Proof. intros _ r. apply rely_on_refl. Qed.
Lemma rely_trans o d d1 d2 : rely o d d1 → rely o d1 d2 → rely o d d2.
Proof. intros H1 H2 Ho r. eapply rely_on_trans; eauto. Qed.

(** ** Programs under interference *)

(** From tables [d], goroutine [t] running [p] only takes steps it may take, and [Q] holds of what it
    returns; others interfere before each statement, and each statement may fail before or after
    its effect. *)
Fixpoint safe {A} (t : string) (p : prog A) (Q : A → BulkDB → Prop) (d : BulkDB) : Prop :=
  match p with
  | Ret a => Q a d
  | Sql f k => ∀ d1 now, rely t d d1 → Inv d1 →
      db_step t now d1 (f now d1).1 ∧ safe t (k (f now d1).2) Q (f now d1).1 ∧
      ∀ e, safe t (k (Err e)) Q d1 ∧ safe t (k (Err e)) Q (f now d1).1
  | Ask q k => ∀ r, safe t (k r) Q d
  | Go _ k => safe t k Q d
  end.

Lemma safe_bind {A B} t (p : prog A) (h : A → prog B) Q d : safe t p (λ a, safe t (h a) Q) d → safe t (pbind p h) Q d.
Proof.
  revert d. induction p as [a|C f k IH|q k IH|g k IH]; intros d; simpl; [done|..].
  - intros H d1 now Hr HI. destruct (H d1 now Hr HI) as (H1 & H2 & H3). split_and!; [done|by apply IH|]. intros e. destruct (H3 e). split; by apply IH.
  - intros H r. apply IH, H.
  - apply IH.
Qed.

Lemma safe_weaken {A} t (p : prog A) (Q Q' : A → BulkDB → Prop) d : (∀ a d, Q a d → Q' a d) → safe t p Q d → safe t p Q' d.
Proof.
  intros HQ. revert d. induction p as [a|C f k IH|q k IH|g k IH]; intros d; simpl; [apply HQ|..].
  - intros H d1 now Hr HI. destruct (H d1 now Hr HI) as (H1 & H2 & H3). split_and!; [done|by apply IH|]. intros e. destruct (H3 e). split; by apply IH.
  - intros H r. apply IH, H.
  - apply IH.
Qed.

(** Other goroutines do not disturb a goroutine between its statements. *)
Lemma safe_rely {A} t (p : prog A) d d1 : rely t d d1 → safe t p (λ _ _, True) d → safe t p (λ _ _, True) d1.
Proof.
  revert d d1. induction p as [a|C f k IH|q k IH|g k IH]; intros d d1 Hr; simpl; [done|..].
  - intros H d2 now Hr2 HI. apply H; [|done]. by eapply rely_trans.
  - intros H r. by eapply IH.
  - by eapply IH.
Qed.
