(* ===== verification/BulkStmts.v ===== *)
(** * The statements of the repository, one goroutine at a time

    Each statement is a step its goroutine may take ([db_step]): unconditionally for the requests,
    and under what a processor knows while it holds the lease for the writes of the processor.
    Also here: that knowledge, and why other goroutines do not falsify it. *)

From S2P Require Import Prelude GoLib Domain BulkData BulkRepo BulkService BulkJobs BulkLogic.

(** ** Steps that neither add nor remove runs and items *)

Lemma row_step_refl t now d r row items items' : Inv d → bk_runs d !! r = Some row → row_step t now items items' row row.
Proof. intros HI Hr. split; try done; [by left|by left| |congruence]. intros. by eapply inv_pausing. Qed.

Lemma item_step_refl t now d i : item_step t now d i i.
Proof. split; [done|]. left. apply same_item_refl. Qed.

Lemma step_same_dom t now d d' (g : UUID → RunRow → RunRow) (f : BulkBackupRunItem → BulkBackupRunItem) :
  (∀ r, bk_runs d' !! r = g r <$> bk_runs d !! r) →
  (∀ id, bk_items d' !! id = f <$> bk_items d !! id) →
  (∀ r row, bk_runs d !! r = Some row → row_step t now (items_of r d) (items_of r d') row (g r row)) →
  (∀ id i, bk_items d !! id = Some i → item_step t now d i (f i)) →
  (∀ j job, bk_jobs d' !! j = Some job → bj_ID job = j) →
  (∀ id i j, bk_items d !! id = Some i → bi_BackupJobID (f i) = Some j → ∃ job, bk_jobs d' !! j = Some job ∧ bj_DeviceID job = bi_DeviceID (f i)) →
  db_step t now d d'.
Proof.
  intros Hg Hf Hrow Hitem Hjob Href. split.
  - intros r row Hr. exists (g r row). split; [by rewrite Hg, Hr|by apply Hrow].
  - intros r row' Hr' Hr. rewrite Hg, Hr in Hr'. done.
  - intros id i Hi. exists (f i). split; [by rewrite Hf, Hi|by eapply Hitem].
  - intros id i' Hi' Hi. rewrite Hf, Hi in Hi'. done.
  - done.
  - intros id i' j Hi' Hj. rewrite Hf in Hi'. apply fmap_Some in Hi' as (i & Hi & ->). by eapply Href.
Qed.

Lemma step_refl t now d : Inv d → db_step t now d d.
Proof.
  intros HI. apply (step_same_dom t now d d (λ _ row, row) (λ i, i)).
  - intros r. by destruct (_ !! r).
  - intros id. by destruct (_ !! id).
  - intros r row Hr. by eapply row_step_refl.
  - intros. apply item_step_refl.
  - apply (inv_job d HI).
  - apply (inv_ref d HI).
Qed.
#[export] Hint Resolve step_refl : theia.

(** ** Updates of one run *)

Lemma step_update_run t now d r guard set :
  Inv d →
  (∀ row, bk_runs d !! r = Some row → guard row = true → row_step t now (items_of r d) (items_of r d) row (set row)) →
  db_step t now d (update_run r guard set now d).1.
Proof.
  intros HI Hset. unfold update_run. destruct (bk_runs d !! r) as [row|] eqn:Hr; [|by eauto with theia]. destruct (guard row) eqn:G; [|by eauto with theia].
  apply (step_same_dom t now d _ (λ r' row', if decide (r' = r) then set row' else row') (λ i, i)); simpl.
  - intros r'. destruct (decide (r' = r)) as [->|]; [by rewrite lookup_insert_eq, Hr|]. rewrite lookup_insert_ne by done. by destruct (_ !! r').
  - intros id. by destruct (_ !! id).
  - intros r' row' Hr'. destruct (decide (r' = r)) as [->|]; [|by eapply row_step_refl]. simplify_eq. by apply Hset.
  - intros. apply item_step_refl.
  - apply (inv_job d HI).
  - apply (inv_ref d HI).
Qed.

(** A request changes the status of an unfinished run only, and leaves its lease and counters. *)
Lemma step_request t now d r guard set :
  Inv d →
  (∀ row, bk_runs d !! r = Some row → guard row = true → bulkRunTerminal (status_of row) = false) →
  (∀ row, guard row = true → br_ID (rr_run (set row)) = br_ID (rr_run row) ∧ rr_owner (set row) = rr_owner row ∧
     run_resumable (status_of (set row)) = true ∧ (flag_of row = true → flag_of (set row) = true) ∧ counters (set row) = counters row ∧
     (status_of (set row) = BulkBackupRunStatusPausing → flag_of (set row) = false)) →
  db_step t now d (update_run r guard set now d).1.
Proof.
  intros HI Ht Hs. apply step_update_run; [done|]. intros row Hr G. specialize (Ht row Hr G). destruct (Hs row G) as (E1 & E2 & E3 & E4 & E5 & E6).
  split; try done; [by left|congruence|by left|]. intros E. by rewrite (terminal_not_resumable _ E) in E3.
Qed.

(** The status the guard tests, put in for the row's. *)
Ltac request_step :=
  intros HI; apply step_request; [done|intros row _ G|intros row G]; unfold has_status, not_cancelled, status_of, flag_of in *; to_prop;
  repeat match goal with E : br_Status (rr_run _) = _ |- _ => rewrite ?E; revert E end; intros; [try done|split_and!; simpl; try done; try congruence].

Lemma step_pause t now d r : Inv d → db_step t now d (RequestBulkRunPause r now d).1.
Proof. request_step. Qed.

Lemma step_resume t now d r s : s ∈ [BulkBackupRunStatusPaused; BulkBackupRunStatusPausing] → Inv d →
  db_step t now d (update_run r (λ row, has_status s row && not_cancelled row) (set_status BulkBackupRunStatusRunning) now d).1.
Proof. intros Hs. request_step. by destruct s; set_solver. Qed.

Lemma step_cancel_paused t now d r : Inv d →
  db_step t now d (update_run r (has_status BulkBackupRunStatusPaused) (λ row, request_cancel (set_status BulkBackupRunStatusCancelling row)) now d).1.
Proof. request_step. Qed.

Lemma step_cancel_working t now d r : Inv d →
  db_step t now d (update_run r (λ row, run_resumable (br_Status (rr_run row)))
      (λ row, request_cancel (if has_status BulkBackupRunStatusRunning row || has_status BulkBackupRunStatusPausing row
                              then set_status BulkBackupRunStatusCancelling row else row)) now d).1.
Proof.
  intros HI. apply step_request; [done|intros row _|intros row]; unfold has_status, status_of, flag_of; intros G.
  - by destruct (br_Status (rr_run row)).
  - unfold counters. by destruct (br_Status (rr_run row)) eqn:E; simpl; rewrite ?E.
Qed.

(** Only the lease changes hands. *)
Lemma row_step_lease t now d r row row' items items' :
  Inv d → bk_runs d !! r = Some row → rr_run row' = rr_run row →
  (rr_owner row' = rr_owner row ∨
   ((rr_owner row' = t ∨ rr_owner row' = ""%string) ∧ (rr_owner row = ""%string ∨ rr_owner row = t ∨ lease_after now (rr_lease row) = false))) →
  row_step t now items items' row row'.
Proof.
  intros HI Hr E Ho. split; unfold status_of, flag_of, counters; rewrite ?E; try done; [by left|by eapply inv_pausing|congruence].
Qed.

Lemma step_acquire t now d r until : Inv d → db_step t now d (TryAcquireBulkRunProcessor r t until now d).1.
Proof.
  intros HI. apply step_update_run; [done|]. intros row Hr G. apply andb_true_iff in G as [G1 G2]. eapply row_step_lease; [done..|].
  right. split; [by left|]. apply orb_true_iff in G2 as [G2|G2]; [left; by apply String.eqb_eq|right; right].
  destruct (rr_lease row) as [l|]; [|done]. simpl. apply Z.ltb_lt in G2. apply Z.ltb_ge. lia.
Qed.

Lemma step_refresh t now d r o until : Inv d → db_step t now d (RefreshBulkRunProcessorContext r o until now d).1.
Proof.
  intros HI. unfold RefreshBulkRunProcessorContext. set (set := λ row : RunRow, row <| rr_lease := Some until |>).
  assert (H : db_step t now d (update_run r (λ row, String.eqb (rr_owner row) o && lease_after now (rr_lease row)) set now d).1).
  { apply step_update_run; [done|]. intros row Hr _. eapply row_step_lease; [done..|]. by left. }
  destruct (update_run _ _ _ _ _) as [d' [n|e]]; simpl in *; [by destruct (n =? 0)|done].
Qed.

Lemma step_release t now d r : Inv d → db_step t now d (ReleaseBulkRunProcessor r t now d).1.
Proof.
  intros HI. apply step_update_run; [done|]. intros row Hr G. apply String.eqb_eq in G. eapply row_step_lease; [done..|].
  right. split; [by right|]. right. by left.
Qed.

Lemma step_count t now d r : Inv d → db_step t now d (bulkCountersSQL r now d).1.
Proof.
  intros HI. apply step_update_run; [done|]. intros row Hr _. split; try done; [by left|by right|by apply (inv_pausing d HI r row)|].
  intros T T'. change (bulkRunTerminal (status_of row) = true) in T. congruence.
Qed.

(** ** The scope of a processor *)

Lemma lock_held r t now d :
  t ≠ ""%string → lockProcessor (ForProcessor r t) r now d = None →
  ∃ row, bk_runs d !! r = Some row ∧ rr_owner row = t ∧ lease_after now (rr_lease row) = true.
Proof.
  intros Ht. unfold lockProcessor. simpl. rewrite (proj2 (String.eqb_neq t "") Ht), Z.eqb_refl. simpl.
  destruct (bk_runs d !! r) as [row|]; [|done]. destruct (_ && _) eqn:E; [|done]. intros _. apply andb_true_iff in E as [E1 E2].
  exists row. split_and!; [done|by apply String.eqb_eq|done].
Qed.

Lemma lock_other r r' t now d : t ≠ ""%string → lockProcessor (ForProcessor r t) r' now d = None → r' = r.
Proof.
  intros Ht. unfold lockProcessor. simpl. rewrite (proj2 (String.eqb_neq t "") Ht). simpl. destruct (r' =? r) eqn:E; [|done]. intros _. by apply Z.eqb_eq.
Qed.

Lemma step_scoped {A} t repo r (f : Stmt A) now d :
  Inv d → (lockProcessor repo r now d = None → db_step t now d (f now d).1) → db_step t now d (execProcessorMutation repo r f now d).1.
Proof. intros HI Hf. unfold execProcessorMutation. destruct (lockProcessor _ _ _ _); [by apply step_refl|by apply Hf]. Qed.

Lemma step_update_run_paused r t now d run :
  t ≠ ""%string → br_Status run = BulkBackupRunStatusPaused → Inv d → db_step t now d (update_run_stmt (ForProcessor r t) run now d).1.
Proof.
  intros Ht Es HI. apply step_scoped; [done|]. intros L. pose proof (lock_other _ _ _ _ _ Ht L) as E. rewrite E in L |- *.
  destruct (lock_held _ _ _ _ Ht L) as (row & Hr & Ho & _). apply step_update_run; [done|]. intros row' Hr' G. simplify_eq.
  unfold has_status in G. rewrite Es in G. apply orb_true_iff in G. split; try done; unfold status_of, flag_of in *; simpl; rewrite ?Es; try done; [by left|].
  intros T. destruct G as [G|G]; [by rewrite T in G|]. apply bool_decide_eq_true_1 in G. by rewrite G in T.
Qed.

Lemma step_finish r t now d status at_ :
  t ≠ ""%string → Inv d →
  (∀ row, bk_runs d !! r = Some row → rr_owner row = t →
     bulkRunTerminal status = true ∧ (∃ c, (c = true → flag_of row = true) ∧ status = verdict c (items_of r d)) ∧ (flag_of row = true ∨ all_terminal (items_of r d))) →
  db_step t now d (FinishBulkRun (ForProcessor r t) r status at_ now d).1.
Proof.
  intros Ht HI H. apply step_scoped; [done|]. intros L. destruct (lock_held _ _ _ _ Ht L) as (row & Hr & Ho & _).
  destruct (H row Hr Ho) as (T & (c & Hc & Ev) & Ha). apply step_update_run; [done|]. intros row' Hr' G. simplify_eq. apply negb_true_iff in G.
  split; try done; unfold status_of, flag_of in *; simpl; try congruence; [by left|by intros E; rewrite E in T|].
  intros _ _. split; [by exists c|done].
Qed.

(** ** What a processor knows while it holds the lease *)

Definition while_held (t : string) (r : UUID) (P : RunRow → BulkDB → Prop) (d : BulkDB) : Prop :=
  ∀ row, bk_runs d !! r = Some row → rr_owner row = t → P row d.

Class Stable (r : UUID) (P : RunRow → BulkDB → Prop) : Prop :=
  stable d d' row row' : items_kept r d d' → run_kept r d d' row row' → P row d → P row' d'.

Lemma while_held_rely t r P `{!Stable r P} d d' : rely_on t r d d' → while_held t r P d → while_held t r P d'.
Proof. intros Hr Hw row' Hr' Ho'. destruct (Hr row' Hr' Ho') as (row & Hrow & Ho & K & R). eapply stable; eauto. Qed.

Lemma while_held_mono t r (P P' : RunRow → BulkDB → Prop) d : (∀ row, P row d → P' row d) → while_held t r P d → while_held t r P' d.
Proof. intros H Hw row Hr Ho. eauto. Qed.

Lemma while_held_and t r P P' d : while_held t r P d → while_held t r P' d → while_held t r (λ row d, P row d ∧ P' row d) d.
Proof. intros H H' row Hr Ho. split; [by apply H|by apply H']. Qed.

Definition nothing : RunRow → BulkDB → Prop := λ _ _, True.
Definition working : RunRow → BulkDB → Prop := λ row _, run_resumable (status_of row) = true.
Definition flagged : RunRow → BulkDB → Prop := λ row _, flag_of row = true.
Definition counted (r : UUID) : RunRow → BulkDB → Prop := λ row d, counters row = counts (items_of r d).
Definition tallied (r : UUID) (c : Z * Z * Z * Z * Z) : RunRow → BulkDB → Prop := λ _ d, counts (items_of r d) = c.
Definition closed (r : UUID) : RunRow → BulkDB → Prop := λ _ d, all_terminal (items_of r d).
(** These items are unfinished. *)
Definition open (r : UUID) (ids : list UUID) : RunRow → BulkDB → Prop :=
  λ _ d, ∀ id, id ∈ ids → ∃ i, bk_items d !! id = Some i ∧ bi_RunID i = r ∧ bulkRunItemTerminal (bi_Status i) = false.

#[export] Instance nothing_stable r : Stable r nothing.
Proof. done. Qed.
#[export] Instance working_stable r : Stable r working.
Proof. intros d d' row row' _ (H & _). apply H. Qed.
#[export] Instance flagged_stable r : Stable r flagged.
Proof. intros d d' row row' _ (_ & H & _). apply H. Qed.
#[export] Instance counted_stable r : Stable r (counted r).
Proof. intros d d' row row' _ (_ & _ & H). apply H. Qed.
#[export] Instance tallied_stable r c : Stable r (tallied r c).
Proof. intros d d' row row' K _. unfold tallied. by rewrite (items_kept_counts r d d' K). Qed.
#[export] Instance closed_stable r : Stable r (closed r).
Proof. intros d d' row row' K _. by apply items_kept_terminal. Qed.
#[export] Instance open_stable r ids : Stable r (open r ids).
Proof.
  intros d d' row row' K _ H id Hid. destruct (H id Hid) as (i & Hi & Er & Et). destruct (proj1 K id i Hi Er) as (i' & Hi' & S).
  destruct (same_item_status _ _ S) as (E1 & E2 & _). exists i'. split_and!; [done|congruence|congruence].
Qed.
#[export] Instance and_stable r P P' `{!Stable r P, !Stable r P'} : Stable r (λ row d, P row d ∧ P' row d).
Proof. intros d d' row row' K R [H H']. split; eapply stable; eauto. Qed.
#[export] Instance impl_stable r (b : bool) P `{!Stable r P} : Stable r (λ row d, b = true → P row d).
Proof. intros d d' row row' K R H Hb. eapply stable; eauto. Qed.

(** Own statements that leave the items alone and only renew or recount. *)
Lemma quiet_update_run t r guard set now d :
  (∀ row, rr_owner (set row) = rr_owner row ∧ status_of (set row) = status_of row ∧ flag_of (set row) = flag_of row ∧
          (counters (set row) = counters row ∨ counters (set row) = counts (items_of r d))) →
  rely_on t r d (update_run r guard set now d).1.
Proof.
  intros Hs. unfold update_run. destruct (bk_runs d !! r) as [row|] eqn:Hr; [|apply rely_on_refl]. destruct (guard row); [|apply rely_on_refl].
  destruct (Hs row) as (E1 & E2 & E3 & E4). intros row' Hr' Ho. simpl in Hr'. rewrite lookup_insert_eq in Hr'. simplify_eq.
  exists row. split_and!; [done|done|..]; [apply (items_kept_refl r d)|]. unfold run_kept. rewrite E2, E3. split_and!; [done|done|].
  intros Ec. destruct E4 as [E4|E4]; rewrite E4; [rewrite Ec|]; done.
Qed.

Lemma quiet_count t r now d : rely_on t r d (bulkCountersSQL r now d).1.
Proof. apply quiet_update_run. intros row. split_and!; [done|done|done|by right]. Qed.

Lemma quiet_refresh t r o until now d : rely_on t r d (RefreshBulkRunProcessorContext r o until now d).1.
Proof.
  unfold RefreshBulkRunProcessorContext. set (set := λ row : RunRow, row <| rr_lease := Some until |>). set (g := λ row : RunRow, _).
  assert (H : rely_on t r d (update_run r g set now d).1) by (apply quiet_update_run; intros row; split_and!; [done|done|done|by left]).
  destruct (update_run _ _ _ _ _) as [d' [n|e]]; simpl in *; [by destruct (n =? 0)|done].
Qed.

Lemma quiet_scoped {A} t r repo r' (f : Stmt A) now d : rely_on t r d (f now d).1 → rely_on t r d (execProcessorMutation repo r' f now d).1.
Proof. intros H. unfold execProcessorMutation. destruct (lockProcessor _ _ _ _); [apply rely_on_refl|done]. Qed.

(** The recount establishes [counted]. *)
Lemma count_counted t r repo now d n : (execProcessorMutation repo r (bulkCountersSQL r) now d).2 = Ok n →
  while_held t r (counted r) (execProcessorMutation repo r (bulkCountersSQL r) now d).1.
Proof.
  unfold execProcessorMutation, bulkCountersSQL, update_run. destruct (lockProcessor _ _ _ _); [done|].
  destruct (bk_runs d !! r) as [row|] eqn:Hr; intros _ row' Hr' Ho; simpl in *; [|congruence]. rewrite lookup_insert_eq in Hr'. by simplify_eq.
Qed.

(** * The statements on items and jobs

    The writes of a processor on the items of its run, the statements on jobs, and the creation of
    a run, each as a step of its goroutine, with what the processor knows afterwards. *)


(** ** One item *)

Lemma step_update_item t now d id guard set :
  Inv d →
  (∀ i, bk_items d !! id = Some i → guard i = true →
     item_step t now d i (set i) ∧ ∀ j, bi_BackupJobID (set i) = Some j → ∃ job, bk_jobs d !! j = Some job ∧ bj_DeviceID job = bi_DeviceID (set i)) →
  db_step t now d (update_item id guard set now d).1.
Proof.
  intros HI Hset. unfold update_item. destruct (bk_items d !! id) as [i|] eqn:Hi; [|by eauto with theia]. destruct (guard i) eqn:G; [|by eauto with theia].
  destruct (Hset i eq_refl G) as [H1 H2].
  apply (step_same_dom t now d _ (λ _ row, row) (λ i', if bi_ID i' =? id then set i' else i')); simpl.
  - intros r. by destruct (_ !! r).
  - intros id'. destruct (decide (id' = id)) as [->|]; [rewrite lookup_insert_eq, Hi; simpl; by rewrite (proj1 (inv_item d HI id i Hi)), Z.eqb_refl|].
    rewrite lookup_insert_ne by done. destruct (bk_items d !! id') as [i'|] eqn:Hi'; [|done]. simpl. rewrite (proj1 (inv_item d HI id' i' Hi')).
    by rewrite (proj2 (Z.eqb_neq id' id)).
  - intros r row Hr. by eapply row_step_refl.
  - intros id' i' Hi'. rewrite (proj1 (inv_item d HI id' i' Hi')). destruct (id' =? id) eqn:E; [|apply item_step_refl].
    apply Z.eqb_eq in E. by simplify_eq.
  - apply (inv_job d HI).
  - intros id' i' j Hi'. rewrite (proj1 (inv_item d HI id' i' Hi')). destruct (id' =? id) eqn:E; [|by apply (inv_ref d HI id')].
    apply Z.eqb_eq in E. simplify_eq. apply H2.
Qed.

(** The lock of a processor that knows its run is worked on. *)
Lemma lock_in_force r t now d P :
  t ≠ ""%string → while_held t r (λ row d, working row d ∧ P row d) d → lockProcessor (ForProcessor r t) r now d = None →
  in_force t now d r ∧ ∃ row, bk_runs d !! r = Some row ∧ rr_owner row = t ∧ P row d.
Proof.
  intros Ht Hw L. destruct (lock_held _ _ _ _ Ht L) as (row & Hr & Ho & Hl). destruct (Hw row Hr Ho) as [Hwork HP].
  split; [|by exists row]. exists row. by split_and!.
Qed.

Lemma step_claim r t now d id clock P :
  t ≠ ""%string → Inv d → while_held t r (λ row d, working row d ∧ P row d) d → db_step t now d (claim_stmt (ForProcessor r t) r id clock now d).1.
Proof.
  intros Ht HI Hw. apply step_scoped; [done|]. intros L. destruct (lock_in_force _ _ _ _ _ Ht Hw L) as [Hf _].
  apply step_update_item; [done|]. intros i Hi G. to_prop. split; [|done]. split; [done|]. right. rewrite H0. by subst r.
Qed.

(** Items other than one of the list stay as they are under an update of that one. *)
Lemma open_update_item r ids row d id guard set now :
  id ∉ ids → open r ids row d → open r ids row (update_item id guard set now d).1.
Proof.
  intros Hid H id' Hid'. destruct (H id' Hid') as (i & Hi & E). exists i. split; [|done]. unfold update_item.
  destruct (bk_items d !! id) as [j|]; [|done]. destruct (guard j); [|done]. simpl. rewrite lookup_insert_ne; [done|]. by intros ->.
Qed.

Lemma update_item_runs id guard set now d : bk_runs (update_item id guard set now d).1 = bk_runs d.
Proof. unfold update_item. destruct (bk_items d !! id) as [i|]; [|done]. by destruct (guard i). Qed.

Lemma while_held_runs t r P P' d d' :
  bk_runs d' = bk_runs d → (∀ row, bk_runs d !! r = Some row → rr_owner row = t → P row d → P' row d') → while_held t r P d → while_held t r P' d'.
Proof. intros E H Hw row Hr Ho. rewrite E in Hr. by apply H, Hw. Qed.

Lemma exec_runs {A} repo r (f : Stmt A) now d : bk_runs (f now d).1 = bk_runs d → bk_runs (execProcessorMutation repo r f now d).1 = bk_runs d.
Proof. intros E. unfold execProcessorMutation. by destruct (lockProcessor _ _ _ _). Qed.

(** A claim adds to what is known to be open, or leaves it. *)
Lemma claim_keeps r t now d id clock ids :
  id ∉ ids → while_held t r (λ row d, working row d ∧ open r ids row d) d →
  while_held t r (λ row d, working row d ∧ open r ids row d) (claim_stmt (ForProcessor r t) r id clock now d).1.
Proof.
  intros Hid. apply while_held_runs; [apply exec_runs, update_item_runs|]. intros row _ _ [Hw Ho]. split; [done|].
  unfold claim_stmt, execProcessorMutation. destruct (lockProcessor _ _ _ _); [done|]. by apply open_update_item.
Qed.

Lemma claim_opens r t now d id clock ids n :
  id ∉ ids → while_held t r (λ row d, working row d ∧ open r ids row d) d →
  (claim_stmt (ForProcessor r t) r id clock now d).2 = Ok n → n ≠ 0 →
  while_held t r (λ row d, working row d ∧ open r (id :: ids) row d) (claim_stmt (ForProcessor r t) r id clock now d).1.
Proof.
  intros Hid Hw. pose proof (claim_keeps r t now d id clock ids Hid Hw) as Hk. revert Hk.
  unfold claim_stmt, execProcessorMutation. destruct (lockProcessor _ _ _ _); [done|]. unfold update_item.
  destruct (bk_items d !! id) as [i|] eqn:Hi; [|by intros _ [= <-]]. destruct (_ && _) eqn:G; [|by intros _ [= <-]]. intros Hk _ _.
  eapply while_held_runs; [done| |exact Hk]. intros row _ _ [Hwk Ho]. split; [done|]. intros id' [->|Hid']%elem_of_cons; [|by apply Ho].
  to_prop. eexists. split; [apply lookup_insert_eq|]. by subst r.
Qed.

(** ** Completing an item *)

Lemma update_item_stmt_cases r t item now d :
  (update_item_stmt (ForProcessor r t) item now d).1 = d ∨
  (lockProcessor (ForProcessor r t) (bi_RunID item) now d = None ∧ known_job d (bi_BackupJobID item) = true ∧
   (update_item_stmt (ForProcessor r t) item now d).1 = (update_item (bi_ID item) (λ _, true) (write_item item) now d).1).
Proof.
  unfold update_item_stmt, execProcessorMutation. destruct (lockProcessor _ _ _ _) eqn:L; [by left|].
  unfold update_item. destruct (bk_items d !! bi_ID item); [|by left]. simpl. destruct (known_job _ _); [|by left]. by right.
Qed.

Lemma step_complete r t now d item ids :
  t ≠ ""%string → Inv d → bi_RunID item = r → bi_BackupJobID item = None →
  while_held t r (λ row d, working row d ∧ open r (bi_ID item :: ids) row d) d →
  db_step t now d (update_item_stmt (ForProcessor r t) item now d).1.
Proof.
  intros Ht HI Er Ej Hw. destruct (update_item_stmt_cases r t item now d) as [->|(L & _ & ->)]; [by apply step_refl|]. rewrite Er in L.
  destruct (lock_in_force _ _ _ _ _ Ht Hw L) as [Hf (row & _ & _ & Ho)]. apply step_update_item; [done|]. intros i Hi _.
  destruct (Ho (bi_ID item)) as (i2 & Hi2 & E1 & E2); [by left|]. simplify_eq. split; [|by simpl; rewrite Ej].
  split; [done|]. right. by rewrite E1.
Qed.

Lemma complete_keeps r t now d item ids :
  bi_ID item ∉ ids → while_held t r (λ row d, working row d ∧ open r (bi_ID item :: ids) row d) d →
  while_held t r (λ row d, working row d ∧ open r ids row d) (update_item_stmt (ForProcessor r t) item now d).1.
Proof.
  intros Hid Hw. assert (Hd : while_held t r (λ row d, working row d ∧ open r ids row d) d).
  { eapply while_held_mono; [|exact Hw]. intros row [H1 H2]. split; [done|]. intros id Hin. apply H2. by right. }
  destruct (update_item_stmt_cases r t item now d) as [->|(_ & _ & ->)]; [done|]. eapply while_held_runs; [apply update_item_runs| |exact Hd].
  intros row _ _ [H1 H2]. split; [done|]. by apply open_update_item.
Qed.

(** ** The job of an item *)

Lemma create_job_cases repo item job clock now d :
  (CreateBulkRunJob repo item job clock now d).1 = d ∨
  (lockProcessor repo (bi_RunID item) now d = None ∧ bk_jobs d !! bj_ID job = None ∧
   ∃ i, bk_items d !! bi_ID item = Some i ∧ bi_RunID i = bi_RunID item ∧ bi_DeviceID i = bj_DeviceID job ∧
     bi_Status i = BulkBackupRunItemStatusActive ∧ bi_BackupJobID i = None ∧
     (CreateBulkRunJob repo item job clock now d).1 =
       d <| bk_jobs := <[bj_ID job := job <| bj_CreatedAt := clock |>]> (bk_jobs d) |>
         <| bk_items := <[bi_ID item := i <| bi_BackupJobID := Some (bj_ID job) |> <| bi_DeviceName := bi_DeviceName item |> <| bi_UpdatedAt := clock |>]> (bk_items d) |>).
Proof.
  unfold CreateBulkRunJob. destruct (lockProcessor _ _ _ _) eqn:L; [by left|]. case_bool_decide as Hj; [by left|].
  unfold update_item. simpl. destruct (bk_items d !! bi_ID item) as [i|] eqn:Hi; [|by left]. destruct (_ && _) eqn:G; [|by left]. simpl.
  right. split; [done|]. split; [by apply eq_None_not_Some|]. to_prop. exists i. by split_and!.
Qed.

Lemma step_create_job r t now d item job clock P :
  t ≠ ""%string → Inv d → while_held t r (λ row d, working row d ∧ P row d) d →
  db_step t now d (CreateBulkRunJob (ForProcessor r t) item job clock now d).1.
Proof.
  intros Ht HI Hw. destruct (create_job_cases (ForProcessor r t) item job clock now d) as [->|(L & Hn & i & Hi & Er & Ed & Es & Ej & ->)]; [by apply step_refl|].
  pose proof (lock_other _ _ _ _ _ Ht L) as Eq. rewrite Eq in L. destruct (lock_in_force _ _ _ _ _ Ht Hw L) as [Hf _].
  set (set := λ i : BulkBackupRunItem, i <| bi_BackupJobID := Some (bj_ID job) |> <| bi_DeviceName := bi_DeviceName item |> <| bi_UpdatedAt := clock |>).
  apply (step_same_dom t now d _ (λ _ row, row) (λ i', if bi_ID i' =? bi_ID item then set i' else i')); simpl.
  - intros r'. by destruct (_ !! r').
  - intros id'. destruct (decide (id' = bi_ID item)) as [->|]; [rewrite lookup_insert_eq, Hi; simpl; by rewrite (proj1 (inv_item d HI _ i Hi)), Z.eqb_refl|].
    rewrite lookup_insert_ne by done. destruct (bk_items d !! id') as [i'|] eqn:Hi'; [|done]. simpl. rewrite (proj1 (inv_item d HI id' i' Hi')).
    by rewrite (proj2 (Z.eqb_neq id' _)).
  - intros r' row Hr. by eapply row_step_refl.
  - intros id' i' Hi'. rewrite (proj1 (inv_item d HI id' i' Hi')). destruct (id' =? bi_ID item) eqn:E; [|apply item_step_refl].
    apply Z.eqb_eq in E. simplify_eq. split; [done|]. right. rewrite Er. by rewrite Es.
  - intros j job'. destruct (decide (j = bj_ID job)) as [->|]; [rewrite lookup_insert_eq; by intros [= <-]|]. rewrite lookup_insert_ne by done. apply (inv_job d HI).
  - intros id' i' j Hi'. rewrite (proj1 (inv_item d HI id' i' Hi')). destruct (id' =? bi_ID item) eqn:E.
    + apply Z.eqb_eq in E. simplify_eq. intros [= <-]. eexists. split; [apply lookup_insert_eq|done].
    + intros Hj. destruct (inv_ref d HI id' i' j Hi' Hj) as (job' & Hjob & Edev). exists job'. rewrite lookup_insert_ne; [done|]. intros <-. congruence.
Qed.

Lemma create_job_keeps r t now d item job clock ids :
  while_held t r (λ row d, working row d ∧ open r ids row d) d →
  while_held t r (λ row d, working row d ∧ open r ids row d) (CreateBulkRunJob (ForProcessor r t) item job clock now d).1.
Proof.
  intros Hw. destruct (create_job_cases (ForProcessor r t) item job clock now d) as [->|(_ & _ & i & Hi & _ & _ & Es & _ & ->)]; [done|].
  eapply (while_held_runs _ _ _ _ d); [done| |exact Hw]. intros row _ _ [H1 H2]. split; [done|]. intros id Hid. destruct (H2 id Hid) as (i' & Hi' & E1 & E2). simpl.
  destruct (decide (id = bi_ID item)) as [->|]; [|by exists i'; rewrite lookup_insert_ne]. simplify_eq. eexists. split; [apply lookup_insert_eq|]. done.
Qed.

(** * The larger transactions

    Reconciling a batch with its jobs, recovering an interrupted run, deleting and updating jobs,
    and creating a run, each as a step of its goroutine. *)


(** ** Reconciling *)

Lemma reconcile_item_kept now d r ids i :
  bi_ID (reconcile_item now d r ids i) = bi_ID i ∧ bi_RunID (reconcile_item now d r ids i) = bi_RunID i ∧
  bi_DeviceID (reconcile_item now d r ids i) = bi_DeviceID i ∧ bi_BackupJobID (reconcile_item now d r ids i) = bi_BackupJobID i.
Proof. unfold reconcile_item. by destruct (reconciles d r ids i) as [[s reason]|]. Qed.

Lemma reconciles_open d r ids i x : reconciles d r ids i = Some x → bi_RunID i = r ∧ bulkRunItemTerminal (bi_Status i) = false.
Proof.
  unfold reconciles, in_batch. destruct (_ && _) eqn:G; [|done]. to_prop. intros _. split; [done|]. by destruct (bi_Status i).
Qed.

(** What the transaction leaves: the tables as they were, or the batch reconciled and perhaps recounted. *)
Lemma reconcile_cases repo r ids now d :
  (ReconcileBulkRunBatchContext repo r ids now d).1 = d ∨
  (lockProcessor repo r now d = None ∧ ∃ changed : bool,
   let d1 := update_items (reconcile_item now d r ids) d in
   (ReconcileBulkRunBatchContext repo r ids now d).1 = if changed then (bulkCountersSQL r now d1).1 else d1).
Proof.
  unfold ReconcileBulkRunBatchContext. destruct ids as [|id ids]; [by left|]. destruct (lockProcessor _ _ _ _) eqn:L; [by left|].
  cbv zeta. destruct (negb _); [by left|]. right. split; [done|]. by eexists.
Qed.

Lemma recount_tables (changed : bool) r now d row :
  bk_runs d !! r = Some row →
  (if changed then (bulkCountersSQL r now d).1 else d) = d <| bk_runs := if changed then <[r := count_run (items_of r d) row]> (bk_runs d) else bk_runs d |>.
Proof. intros Hr. destruct changed; [|by destruct d]. unfold bulkCountersSQL, update_run. by rewrite Hr. Qed.

Lemma step_reconcile r t now d ids P :
  t ≠ ""%string → Inv d → while_held t r (λ row d, working row d ∧ P row d) d →
  db_step t now d (ReconcileBulkRunBatchContext (ForProcessor r t) r ids now d).1.
Proof.
  intros Ht HI Hw. destruct (reconcile_cases (ForProcessor r t) r ids now d) as [->|(L & changed & ->)]; [by apply step_refl|].
  destruct (lock_in_force _ _ _ _ _ Ht Hw L) as [Hf (row & Hr & Ho & _)]. set (d1 := update_items _ d). rewrite (recount_tables changed r now d1 row Hr).
  apply (step_same_dom t now d _ (λ r' row', if decide (r' = r) then (if changed then count_run (items_of r d1) row' else row') else row') (reconcile_item now d r ids)).
  - intros r'. simpl. destruct changed; simpl; [|case_decide; by destruct (bk_runs d !! r')].
    destruct (decide (r' = r)) as [->|]; [by rewrite lookup_insert_eq, Hr|]. rewrite lookup_insert_ne by done. by destruct (bk_runs d !! r').
  - intros id. apply lookup_fmap.
  - intros r' row' Hr'. destruct (decide (r' = r)) as [->|]; [|by eapply row_step_refl]. destruct changed; [|by eapply row_step_refl]. simplify_eq.
    split; try done; [by left|by apply (inv_pausing d HI r row)|]. intros T T'. change (bulkRunTerminal (status_of row) = true) in T. congruence.
  - intros id i Hi. destruct (reconcile_item_kept now d r ids i) as (E1 & E2 & E3 & _). split; [done|].
    unfold reconcile_item. destruct (reconciles d r ids i) as [[s reason]|] eqn:E; [|by left; left]. right. destruct (reconciles_open _ _ _ _ _ E) as [-> ?]. done.
  - apply (inv_job d HI).
  - intros id i j Hi Hj. destruct (reconcile_item_kept now d r ids i) as (_ & _ & -> & E). rewrite E in Hj. by apply (inv_ref d HI id i j).
Qed.

Lemma reconcile_keeps r t now d ids P :
  while_held t r (λ row d, working row d ∧ P row d) d → while_held t r working (ReconcileBulkRunBatchContext (ForProcessor r t) r ids now d).1.
Proof.
  intros Hw. assert (Hw' : while_held t r working d) by (eapply while_held_mono; [|exact Hw]; by intros row []).
  destruct (reconcile_cases (ForProcessor r t) r ids now d) as [->|(_ & changed & ->)]; [done|]. set (d1 := update_items _ d).
  assert (H1 : while_held t r working d1) by (intros row Hr; by apply Hw'). destruct changed; [|done].
  eapply while_held_rely; [apply _|apply quiet_count|done].
Qed.

(** ** Recovering *)

Lemma recover_run_kept row : br_ID (rr_run (recover_run row)) = br_ID (rr_run row) ∧ rr_owner (recover_run row) = rr_owner row ∧
  counters (recover_run row) = counters row ∧ status_of (recover_run row) ≠ BulkBackupRunStatusPausing ∧
  (bulkRunTerminal (status_of row) = true → recover_run row = row) ∧ (bulkRunTerminal (status_of (recover_run row)) = true → bulkRunTerminal (status_of row) = true).
Proof. unfold recover_run, has_status. case_bool_decide as E; split_and!; try done; unfold status_of; rewrite ?E; done. Qed.

Lemma step_recover r t now d P :
  t ≠ ""%string → Inv d → while_held t r (λ row d, working row d ∧ P row d) d → db_step t now d (RecoverBulkRun (ForProcessor r t) r now d).1.
Proof.
  intros Ht HI Hw. unfold RecoverBulkRun. simpl (processorOwner _). rewrite (proj2 (String.eqb_neq t "") Ht).
  destruct (lockProcessor _ _ _ _) eqn:L; [by apply step_refl|]. destruct (lock_in_force _ _ _ _ _ Ht Hw L) as [Hf (row & Hr & Ho & _)].
  unfold update_run. simpl. rewrite Hr. simpl.
  apply (step_same_dom t now d _ (λ r' row', if decide (r' = r) then recover_run row' else row') (reset_item now r)); simpl.
  - intros r'. destruct (decide (r' = r)) as [->|]; [by rewrite lookup_insert_eq, Hr|]. rewrite lookup_insert_ne by done. by destruct (bk_runs d !! r').
  - intros id. by rewrite lookup_fmap.
  - intros r' row' Hr'. destruct (decide (r' = r)) as [->|]; [|by eapply row_step_refl]. simplify_eq.
    destruct (recover_run_kept row) as (E1 & E2 & E3 & E4 & E5 & E6). split; try done; [by left|by intros T; rewrite E5|].
    intros T T'. rewrite E6 in T'; done.
  - intros id i Hi. unfold reset_item, unfinished_of. destruct (_ && _) eqn:G; [|apply item_step_refl]. to_prop. split; [done|]. right. by subst r.
  - intros j job. rewrite map_lookup_imap. intros (job0 & Hj & [= <-])%bind_Some. unfold interrupt_job. destruct (_ && _); by apply (inv_job d HI j job0).
  - intros id i j Hi Hj. assert (bi_BackupJobID i = Some j ∧ bi_DeviceID (reset_item now r i) = bi_DeviceID i) as [Hj' ->].
    { revert Hj. unfold reset_item. by destruct (unfinished_of r i). }
    destruct (inv_ref d HI id i j Hi Hj') as (job & Hjob & Ed). rewrite map_lookup_imap, Hjob. simpl. eexists. split; [done|].
    unfold interrupt_job. by destruct (_ && _).
Qed.

(** ** Jobs *)

Lemma step_jobs t now d jobs (f : BulkBackupRunItem → BulkBackupRunItem) :
  Inv d → (∀ i, f i = i ∨ f i = i <| bi_BackupJobID := None |>) → (∀ j job, jobs !! j = Some job → bj_ID job = j) →
  (∀ id i j job, bk_items d !! id = Some i → bi_BackupJobID (f i) = Some j → bk_jobs d !! j = Some job → ∃ job', jobs !! j = Some job' ∧ bj_DeviceID job' = bj_DeviceID job) →
  db_step t now d (d <| bk_jobs := jobs |> <| bk_items := f <$> bk_items d |>).
Proof.
  intros HI Hf Hjob Href. apply (step_same_dom t now d _ (λ _ row, row) f); simpl.
  - intros r. by destruct (_ !! r).
  - intros id. apply lookup_fmap.
  - intros r row Hr. by eapply row_step_refl.
  - intros id i Hi. split; [by destruct (Hf i) as [->| ->]|]. left. apply Hf.
  - done.
  - intros id i j Hi Hj. assert (Hij : bi_BackupJobID i = Some j) by (destruct (Hf i) as [E|E]; rewrite E in Hj; done).
    destruct (inv_ref d HI id i j Hi Hij) as (job & Hjb & Ed). destruct (Href id i j job Hi Hj Hjb) as (job' & H1 & H2).
    exists job'. split; [done|]. rewrite H2, Ed. by destruct (Hf i) as [->| ->].
Qed.

Lemma unreference_same gone i : unreference gone i = i ∨ unreference gone i = i <| bi_BackupJobID := None |>.
Proof. unfold unreference. destruct (bi_BackupJobID i) as [j|]; [|by left]. destruct (gone j); [by right|by left]. Qed.

Lemma unreference_ref gone i j : bi_BackupJobID (unreference gone i) = Some j → gone j = false.
Proof. unfold unreference. destruct (bi_BackupJobID i) as [j'|] eqn:Ej; [|congruence]. destruct (gone j') eqn:G; [done|]. congruence. Qed.

Lemma step_delete_jobs t now d P : Inv d → db_step t now d (delete_jobs P d).
Proof.
  intros HI. apply step_jobs; [done|apply unreference_same|..].
  - intros j job [Hj _]%map_lookup_filter_Some. by apply (inv_job d HI).
  - intros id i j job Hi Hj Hjob. exists job. split; [|done]. apply map_lookup_filter_Some. split; [done|]. simpl.
    apply unreference_ref in Hj. by rewrite Hjob in Hj.
Qed.

Lemma step_set_jobs t now d jobs :
  Inv d → (∀ j job, jobs !! j = Some job → bj_ID job = j) →
  (∀ j job, bk_jobs d !! j = Some job → ∃ job', jobs !! j = Some job' ∧ bj_DeviceID job' = bj_DeviceID job) →
  db_step t now d (d <| bk_jobs := jobs |>).
Proof.
  intros HI H1 H2. assert (d <| bk_jobs := jobs |> = d <| bk_jobs := jobs |> <| bk_items := id <$> bk_items d |>) as -> by (rewrite map_fmap_id; by destruct d).
  apply step_jobs; [done|by left|done|]. intros. by eapply H2.
Qed.

Lemma step_job_update t now d job : Inv d → db_step t now d (BackupJob_Update job now d).1.
Proof.
  intros HI. unfold BackupJob_Update. destruct (bk_jobs d !! bj_ID job) as [j|] eqn:E; [|by apply step_refl]. simpl. apply step_set_jobs; [done|..].
  - intros id job'. destruct (decide (id = bj_ID job)) as [->|]; [rewrite lookup_insert_eq; intros [= <-]; by apply (inv_job d HI _ j)|].
    rewrite lookup_insert_ne by done. apply (inv_job d HI).
  - intros id job' Hj. destruct (decide (id = bj_ID job)) as [->|]; [rewrite lookup_insert_eq; simplify_eq; by eexists|]. rewrite lookup_insert_ne by done. by eexists.
Qed.

Lemma step_job_create t now d clock fresh job : Inv d → db_step t now d (BackupJob_Create clock fresh job now d).1.
Proof.
  intros HI. unfold BackupJob_Create. set (nid := (if bj_ID job =? uuid_Nil then fresh else bj_ID job)). case_bool_decide as E; [by apply step_refl|]. simpl. apply step_set_jobs; [done|..].
  - intros id' job'. destruct (decide (id' = nid)) as [->|]; [rewrite lookup_insert_eq; by intros [= <-]|]. rewrite lookup_insert_ne by done. apply (inv_job d HI).
  - intros id' job' Hj. rewrite lookup_insert_ne; [by eexists|]. intros <-. by apply E.
Qed.

Lemma step_job_delete t now d id : Inv d → db_step t now d (BackupJob_Delete id now d).1.
Proof. intros HI. unfold BackupJob_Delete. destruct (bk_jobs d !! id); [by apply step_delete_jobs|by apply step_refl]. Qed.

(** ** Creating a run *)

Lemma insert_items_lookup m new m' :
  insert_items m new = Some m' →
  (∀ id i, m !! id = Some i → m' !! id = Some i) ∧ (∀ id i, m' !! id = Some i → m !! id = None → i ∈ new ∧ bi_ID i = id).
Proof.
  revert m. induction new as [|n new IH]; simpl; intros m; [intros [= <-]; split; [done|congruence]|].
  unfold insert_item. destruct (m !! bi_ID n) eqn:En; [done|]. destruct (existsb _ _); [done|]. intros H. destruct (IH _ H) as [H1 H2]. split.
  - intros id i Hi. apply H1. rewrite lookup_insert_ne; [done|]. intros <-. congruence.
  - intros id i Hi Hn. destruct (decide (id = bi_ID n)) as [->|Hne].
    + rewrite (H1 (bi_ID n) n) in Hi; [|apply lookup_insert_eq]. simplify_eq. split; [by left|done].
    + destruct (H2 id i Hi) as [? ?]; [by rewrite lookup_insert_ne|]. split; [by right|done].
Qed.

Lemma default_item_kept clock fresh r i :
  bi_RunID (default_item clock fresh r i) = r ∧ bi_BackupJobID (default_item clock fresh r i) = bi_BackupJobID i ∧
  bi_DeviceID (default_item clock fresh r i) = bi_DeviceID i.
Proof. unfold default_item. cbv zeta. by repeat (destruct (bi_ID _ =? _) || destruct (Time_IsZero _)). Qed.

Lemma default_run_kept clock fresh run n :
  br_Status (default_run clock fresh run n) = br_Status run ∧ br_CancelRequested (default_run clock fresh run n) = br_CancelRequested run.
Proof. unfold default_run. cbv zeta. destruct (br_ID run =? _), (br_BatchSize _ <=? 0), (Time_IsZero _), (br_StartedAt _); done. Qed.

#[local] Arguments default_run : simpl never.
#[local] Arguments default_item : simpl never.

Lemma step_create_run t now d clock fresh run items :
  br_Status run = BulkBackupRunStatusRunning → Forall (λ i, bi_BackupJobID i = None) items → Inv d →
  db_step t now d (CreateRun clock fresh run items now d).1.
Proof.
  intros Es Hitems HI. unfold CreateRun. destruct (default_run_kept clock (fresh O) run (length items)) as [Es' _].
  revert Es'. generalize (default_run clock (fresh O) run (length items)). intros run' Es'. rewrite Es in Es'. cbv zeta.
  case_bool_decide as Hid; [by apply step_refl|]. rewrite Es'. simpl.
  destruct (existsb _ (values (bk_runs d))) eqn:Ha; [by apply step_refl|]. destruct (negb _); [by apply step_refl|].
  destruct (insert_items _ _) as [rows|] eqn:Hrows; [|by apply step_refl]. destruct (insert_items_lookup _ _ _ Hrows) as [H1 H2].
  assert (Hnone : bk_runs d !! br_ID run' = None) by by apply eq_None_not_Some.
  assert (Hnew : ∀ id i, rows !! id = Some i → bk_items d !! id = None → bi_ID i = id ∧ bi_RunID i = br_ID run' ∧ bi_BackupJobID i = None).
  { intros id i Hi Hn. destruct (H2 id i Hi Hn) as [Hin Eid]. apply elem_of_lookup_imap in Hin as (k & x & -> & Hx).
    destruct (default_item_kept (br_CreatedAt run') (fresh (S k)) (br_ID run') x) as (E1 & E2 & _). split; [done|]. split; [done|].
    rewrite E2. eapply (proj1 (Forall_lookup _ _) Hitems). exact Hx. }
  split; simpl.
  - intros r row Hr. exists row. split; [rewrite lookup_insert_ne; [done|]; intros <-; congruence|]. by eapply row_step_refl.
  - intros r row'. destruct (decide (r = br_ID run')) as [->|]; [|rewrite lookup_insert_ne by done; congruence]. rewrite lookup_insert_eq. intros [= <-] _.
    unfold status_of. simpl. rewrite Es'. split_and!; try done.
    + intros r0 row0 Hr0. destruct (run_active (status_of row0)) eqn:A; [|done]. exfalso. apply not_true_iff_false in Ha. apply Ha, existsb_exists.
      exists row0. split; [|done]. apply list_elem_of_In, list_elem_of_fmap. exists (r0, row0). split; [done|]. by apply elem_of_map_to_list.
    + intros r1 row1. destruct (decide (r1 = br_ID run')) as [->|]; [done|]. rewrite lookup_insert_ne by done. congruence.
  - intros id i Hi. exists i. split; [by apply H1|apply item_step_refl].
  - intros id i Hi Hn. destruct (Hnew id i Hi Hn) as (E1 & E2 & _). rewrite E2. split_and!; [done|done|]. by rewrite lookup_insert_eq.
  - apply (inv_job d HI).
  - intros id i j Hi Hj. destruct (bk_items d !! id) as [i0|] eqn:Hi0.
    + rewrite (H1 id i0 Hi0) in Hi. simplify_eq. by eapply inv_ref.
    + destruct (Hnew id i Hi Hi0) as (_ & _ & E). congruence.
Qed.
