(* ===== verification/BulkSafe.v ===== *)
(** * Every goroutine of the backup service keeps to its steps

    The requests write only what any goroutine may write.  A processor writes under what it learned
    from its own reads: each fact it uses can only be falsified by someone who takes the lease, and
    then its writes are refused. *)

From S2P Require Import Prelude GoLib Domain BulkData BulkRepo BulkService BulkJobs BulkLogic BulkStmts.
Open Scope bulk_scope.

#[local] Arguments pbind : simpl never.
#[local] Arguments sql : simpl never.
#[local] Arguments ask : simpl never.
#[local] Arguments go : simpl never.

(** ** Rules *)

Lemma safe_ask t q (Q : reply q → BulkDB → Prop) d : (∀ r, Q r d) → safe t (ask q) Q d.
Proof. done. Qed.
Lemma safe_go t g (Q : unit → BulkDB → Prop) d : Q tt d → safe t (go g) Q d.
Proof. done. Qed.

(** A statement under knowledge that holds while the lease is held. *)
Lemma safe_sql_held {A} t r P `{!Stable r P} (f : Stmt A) (Q : result A → BulkDB → Prop) d :
  t ≠ ""%string → while_held t r P d →
  (∀ d1 now, Inv d1 → while_held t r P d1 →
     db_step t now d1 (f now d1).1 ∧ Q (f now d1).2 (f now d1).1 ∧ ∀ e, Q (Err e) d1 ∧ Q (Err e) (f now d1).1) →
  safe t (sql f) Q d.
Proof. intros Ht HP H d1 now Hr HI. apply H; [done|]. eapply while_held_rely; [done|by apply (Hr Ht)|done]. Qed.

(** A statement that leaves what is known alone: a read, a renewal, a recount. *)
Lemma safe_sql_quiet {A} t r P `{!Stable r P} (f : Stmt A) (Q : result A → BulkDB → Prop) d :
  t ≠ ""%string → while_held t r P d →
  (∀ d1 now, Inv d1 → db_step t now d1 (f now d1).1 ∧ rely_on t r d1 (f now d1).1) →
  (∀ d1 now, Inv d1 → while_held t r P d1 → while_held t r P (f now d1).1 → Q (f now d1).2 (f now d1).1) →
  (∀ e d1, while_held t r P d1 → Q (Err e) d1) → safe t (sql f) Q d.
Proof.
  intros Ht HP Hf HQ HE. eapply safe_sql_held; [done|done|done|]. intros d1 now HI H1. destruct (Hf d1 now HI) as [Hs Hq].
  assert (H2 : while_held t r P (f now d1).1) by (eapply while_held_rely; eauto). split_and!; [done|by apply HQ|]. intros e. split; by apply HE.
Qed.

Lemma safe_read {A} t r P `{!Stable r P} (f : Stmt A) (Q : result A → BulkDB → Prop) d :
  t ≠ ""%string → while_held t r P d → (∀ now d, (f now d).1 = d) →
  (∀ d1 now, Inv d1 → while_held t r P d1 → Q (f now d1).2 d1) → (∀ e d1, while_held t r P d1 → Q (Err e) d1) → safe t (sql f) Q d.
Proof.
  intros Ht HP Hf HQ HE. eapply safe_sql_quiet; [done|done|done|..|done].
  - intros d1 now HI. rewrite Hf. split; [by apply step_refl|apply rely_on_refl].
  - intros d1 now HI H1 _. rewrite Hf. by apply HQ.
Qed.

(** A program that is safe whatever is known. *)
Definition always {A} (t : string) (p : prog A) : Prop := ∀ d, safe t p (λ _ _, True) d.

Lemma always_ret {A} t (a : A) : always t (Ret a).
Proof. done. Qed.
Lemma always_ask t q : always t (ask q).
Proof. done. Qed.
Lemma always_go t g : always t (go g).
Proof. done. Qed.
Lemma always_bind {A B} t (p : prog A) (h : A → prog B) : always t p → (∀ a, always t (h a)) → always t (pbind p h).
Proof. intros Hp Hh d. apply safe_bind. eapply safe_weaken; [|apply Hp]. intros a d1 _. apply Hh. Qed.
Lemma always_sql {A} t (f : Stmt A) : (∀ now d, Inv d → db_step t now d (f now d).1) → always t (sql f).
Proof. intros H d d1 now _ HI. split_and!; [by apply H|done|done]. Qed.
Lemma always_read {A} t (f : Stmt A) : (∀ now d, (f now d).1 = d) → always t (sql f).
Proof. intros H. apply always_sql. intros now d HI. rewrite H. by apply step_refl. Qed.
Lemma always_pfor {A} t (l : list A) body : (∀ x, always t (body x)) → always t (pfor l body).
Proof. intros H. induction l as [|x l IH]; [apply always_ret|]. apply always_bind; [apply H|done]. Qed.

Create HintDb bulk.
#[export] Hint Resolve always_ret always_ask always_go always_bind always_pfor : bulk.
#[export] Hint Extern 3 (always _ (sql _)) => apply always_read; done : bulk.
#[export] Hint Extern 4 (always _ (sql (update_run _ _ _))) => apply always_sql; intros; auto using step_cancel_paused, step_cancel_working with theia : bulk.
#[export] Hint Extern 5 (always _ (match ?x with _ => _ end)) => destruct x : bulk.
#[export] Hint Extern 1 (always _ (ask _)) => apply always_ask : bulk.
Ltac go_always := eauto 20 with bulk.

(** ** Requests *)

Lemma always_with_items t r : always t (with_items r).
Proof. unfold with_items. destruct r as [[run|]|e]; go_always. Qed.
#[export] Hint Resolve always_with_items : bulk.

Lemma always_GetRun t id : always t (GetRun id).
Proof. unfold GetRun. go_always. Qed.
Lemma always_GetLatestRun t : always t GetLatestRun.
Proof. unfold GetLatestRun. go_always. Qed.
Lemma always_GetActiveRun t : always t GetActiveRun.
Proof. unfold GetActiveRun. go_always. Qed.
#[export] Hint Resolve always_GetRun always_GetLatestRun always_GetActiveRun : bulk.

Lemma always_fill_items t runs : always t (fill_items runs).
Proof.
  induction runs as [|run runs IH]; simpl; [go_always|]. apply always_bind; [go_always|]. intros [items|e]; [|go_always].
  apply always_bind; [done|]. intros [rs|e]; go_always.
Qed.
Lemma always_ListResumableRuns t : always t ListResumableRuns.
Proof. unfold ListResumableRuns. apply always_bind; [go_always|]. intros [runs|e]; [apply always_fill_items|go_always]. Qed.

Lemma always_hydrate t run : always t (hydrateBulkBackupRunFileTotals run).
Proof. destruct run as [run|]; simpl; [|go_always]. apply always_bind; [go_always|]. intros r. destruct r; cbv zeta; go_always. Qed.
#[export] Hint Resolve always_hydrate : bulk.

Lemma always_get t id : always t (getBulkBackupRunWithFileTotals id).
Proof. unfold getBulkBackupRunWithFileTotals. apply always_bind; [go_always|]. intros [r|e]; go_always. Qed.
#[export] Hint Resolve always_get : bulk.

Lemma always_context {A} t (p : prog (result A)) : always t p → always t (in_context p).
Proof. intros H. unfold in_context. apply always_bind; [go_always|]. intros [e|]; go_always. Qed.

Lemma always_fetch t ids : always t (fetch_devices ids).
Proof.
  induction ids as [|id ids IH]; simpl; [go_always|]. apply always_bind; [go_always|]. intros [e|]; [go_always|].
  apply always_bind; [go_always|]. intros [dev|e]; [|destruct (String.eqb _ _); go_always]. apply always_bind; [done|]. intros [ds|e]; go_always.
Qed.
Lemma always_devices t ids : always t (bulkBackupRunDevices ids).
Proof.
  unfold bulkBackupRunDevices. destruct ids; [|apply always_fetch]. apply always_bind; [go_always|]. intros [e|]; go_always.
Qed.

Lemma newItems_no_job t r now devices d : safe t (newItems r now devices) (λ items _, Forall (λ i, bi_BackupJobID i = None) items) d.
Proof.
  revert d. induction devices as [|dev devices IH]; intros d; [by constructor|]. cbn [newItems]. apply safe_bind, safe_ask. intros id.
  apply safe_bind. eapply safe_weaken; [|apply IH]. intros items d1 H. by constructor.
Qed.

Lemma always_recalculate t id : always t (RecalculateRunCounters NewBulkBackupRunRepo id).
Proof.
  unfold RecalculateRunCounters. apply always_bind; [|intros [n|e]; go_always]. apply always_sql. intros now d HI. apply step_scoped; [done|].
  intros _. by apply step_count.
Qed.
#[export] Hint Resolve always_recalculate : bulk.

Lemma always_created t fresh run items now :
  br_Status run = BulkBackupRunStatusRunning → Forall (λ i, bi_BackupJobID i = None) items → always t (sql (CreateRun now fresh run items)).
Proof. intros Es Hi. apply always_sql. intros. by apply step_create_run. Qed.

Lemma always_Start t fresh ids by_ : always t (StartBulkBackupRun fresh ids by_).
Proof.
  unfold StartBulkBackupRun. apply always_bind; [go_always|]. intros [[run|]|e]; [|clear|go_always].
  { apply always_bind; [go_always|]. intros [r|e]; go_always. }
  apply always_bind; [apply always_devices|]. intros [devices|e]; [|go_always]. apply always_bind; [go_always|]. intros now.
  apply always_bind; [go_always|]. intros id d. apply safe_bind. eapply safe_weaken; [|apply newItems_no_job].
  intros items d1 Hitems. apply always_bind; [by apply always_created|]. clear. intros [run|e].
  - apply always_bind; [go_always|]. intros [r|e]; [|go_always]. apply always_bind; [go_always|]. intros _. apply always_bind; [go_always|]. intros [r'|e]; go_always.
  - destruct (isBulkBackupRunActiveConstraintError e); [|go_always]. apply always_bind; [go_always|]. intros [[run|]|e']; [|go_always..].
    apply always_bind; [go_always|]. intros [r|e']; go_always.
Qed.

Lemma always_Cancel t id : always t (CancelBulkBackupRun id).
Proof.
  apply always_context, always_bind; [go_always|]. intros [[run|]|e]; [|go_always..]. apply always_bind.
  - unfold RequestBulkRunCancel. apply always_bind; [apply always_sql; intros; by apply step_cancel_paused|]. intros [n|e]; [|go_always].
    destruct (0 <? n); [go_always|]. apply always_bind; [apply always_sql; intros; by apply step_cancel_working|]. intros [m|e]; go_always.
  - intros [[]|e]; [| |go_always]; apply always_bind; go_always.
Qed.

Lemma always_Pause t id : always t (PauseBulkBackupRun id).
Proof.
  apply always_context, always_bind; [go_always|]. intros [[run|]|e]; [|go_always..].
  apply always_bind; [apply always_sql; intros; by apply step_pause|]. intros [n|e]; go_always.
Qed.

Lemma always_Resume t id : always t (ResumeBulkBackupRun id).
Proof.
  apply always_context, always_bind; [go_always|]. intros [[run|]|e]; [|go_always..]. apply always_bind.
  - unfold RequestBulkRunResume. apply always_bind; [apply always_sql; intros; apply step_resume; [by repeat constructor|done]|]. intros [n|e]; [|go_always].
    destruct (0 <? n); [go_always|]. apply always_bind; [apply always_sql; intros; apply step_resume; [by repeat constructor|done]|]. intros [m|e]; go_always.
  - intros [[]|e]; [| |go_always]; apply always_bind; go_always.
Qed.

Lemma always_startup t : always t ResumeBulkBackupRuns.
Proof.
  unfold ResumeBulkBackupRuns. apply always_bind; [apply always_ListResumableRuns|]. intros [runs|e]; [|go_always].
  induction runs as [|run runs IH]; simpl; [go_always|]. apply always_bind; [go_always|]. intros [e|]; [go_always|]. by apply always_bind; [go_always|].
Qed.

(** ** Jobs *)

Lemma always_updateJobStatus t id s e : always t (updateJobStatus id s e).
Proof.
  unfold updateJobStatus. apply always_bind; [go_always|]. intros [[job|]|e']; [|go_always..]. apply always_sql. intros. by apply step_job_update.
Qed.
Lemma always_failJob t id e : always t (failJob id e).
Proof. unfold failJob. apply always_bind; [apply always_updateJobStatus|go_always]. Qed.
#[export] Hint Resolve always_updateJobStatus always_failJob : bulk.

Lemma always_backup_context t dev job : always t (runFullBackupContext dev job).
Proof.
  unfold runFullBackupContext. apply always_bind; [go_always|]. intros [e|]; [go_always|]. apply always_bind; [go_always|]. intros [u|e]; [|go_always].
  apply always_bind; [go_always|]. intros [w|e]; go_always.
Qed.
Lemma always_backup t dev job : always t (runFullBackup dev job).
Proof. unfold runFullBackup. apply always_bind; [go_always|]. intros [e|]; [go_always|apply always_backup_context]. Qed.

Lemma always_trigger t dev : always t (TriggerBackup dev).
Proof.
  unfold TriggerBackup. apply always_bind; [go_always|]. intros [e|]; [go_always|]. apply always_bind; [go_always|]. intros [device|e]; [|go_always].
  apply always_bind; [go_always|]. intros [profile|e]; [|go_always]. apply always_bind; [go_always|]. intros [|]; simpl; [|go_always].
  apply always_bind; [go_always|]. intros [e|]; [go_always|]. apply always_bind; [go_always|]. intros id. apply always_bind; [go_always|]. intros now.
  apply always_bind; [apply always_sql; intros; by apply step_job_create|]. intros [u|e]; go_always.
Qed.

Lemma always_delete t id : always t (DeleteBackupJob id).
Proof.
  apply always_context, always_bind; [go_always|]. intros [[job|]|e]; [|go_always..]. destruct (_ || _); [go_always|].
  apply always_bind; [go_always|]. intros [[]|e]; [go_always| |go_always]. apply always_bind; [go_always|]. intros [e|]; [go_always|].
  apply always_context, always_sql. intros. by apply step_job_delete.
Qed.

Lemma always_ignoring {A} t (p : prog A) : always t p → always t (ignoring p).
Proof. intros H. apply always_bind; go_always. Qed.

Lemma always_request t r : always t (request_prog r).
Proof.
  destruct r; cbn [request_prog]; try apply always_ignoring.
  - apply always_Start.
  - apply always_Cancel.
  - apply always_Pause.
  - apply always_Resume.
  - apply always_context. go_always.
  - apply always_context, always_bind; [go_always|]. intros [r|e]; go_always.
  - apply always_startup.
  - apply always_trigger.
  - apply always_delete.
  - apply always_sql. intros. by apply step_delete_jobs.
  - apply always_sql. intros. by apply step_delete_jobs.
Qed.
