(* ===== verification/BulkProcessor.v ===== *)
(** * The processor of a bulk run keeps to its steps

    Every write of [processBulkBackupRun] is one the holder of the lease may make: the items it
    completes are unfinished, and the status it finishes with is the verdict on the items. *)

From S2P Require Import Prelude GoLib Domain BulkData BulkRepo BulkService BulkJobs BulkLogic BulkStmts BulkSafe.
Open Scope bulk_scope.

#[local] Arguments pbind : simpl never.
#[local] Arguments sql : simpl never.
#[local] Arguments ask : simpl never.
#[local] Arguments go : simpl never.

Section processor.
Context (t : string) (r : UUID) (Ht : t ≠ ""%string).
Local Abbreviation repo := (ForProcessor r t).

(** What the processor works under: the run is worked on, these items are unfinished, and perhaps the cancellation is on record. *)
Definition at_work (flag : bool) (ids : list UUID) : RunRow → BulkDB → Prop :=
  λ row d, (working row d ∧ open r ids row d) ∧ (flag = true → flagged row d).
#[export] Instance at_work_stable flag ids : Stable r (at_work flag ids).
Proof. unfold at_work. apply _. Qed.

Lemma at_work_sub flag ids ids' d : ids' ⊆ ids → while_held t r (at_work flag ids) d → while_held t r (at_work flag ids') d.
Proof. intros Hs. apply while_held_mono. intros row [[H1 H2] H3]. split; [|done]. split; [done|]. intros id Hid. by apply H2, Hs. Qed.

Lemma at_work_split flag ids d : while_held t r (at_work flag ids) d ↔
  while_held t r (λ row d, working row d ∧ open r ids row d) d ∧ while_held t r (λ row d, flag = true → flagged row d) d.
Proof.
  split; [intros H; split; (eapply while_held_mono; [|exact H]); by intros row []|]. intros [H1 H2] row Hr Ho. split; [by apply H1|by apply H2].
Qed.

(** Runs are left alone, so is the mark. *)
Lemma flag_runs flag d d' : bk_runs d' = bk_runs d → while_held t r (λ row d, flag = true → flagged row d) d → while_held t r (λ row d, flag = true → flagged row d) d'.
Proof. intros E H row Hr. rewrite E in Hr. by apply H. Qed.

(** ** Reading the run *)

Definition cnt (run : BulkBackupRun) : Z * Z * Z * Z * Z :=
  (br_TotalCount run, br_SuccessCount run, br_FailedCount run, br_SkippedCount run, br_CancelledCount run).
Definition unfinished_ids (items : list BulkBackupRunItem) : list UUID := bi_ID <$> filter (λ i, bulkRunItemTerminal (bi_Status i) = false) items.

Definition items_ok (items : list BulkBackupRunItem) : Prop := NoDup (bi_ID <$> items) ∧ Forall (λ i, bi_RunID i = r) items.
(** What the list says of the table. *)
Definition items_seen (items : list BulkBackupRunItem) : RunRow → BulkDB → Prop :=
  λ row d, open r (unfinished_ids items) row d ∧ (forallb (λ i, bulkRunItemTerminal (bi_Status i)) items = true → closed r row d).
#[export] Instance items_seen_stable items : Stable r (items_seen items).
Proof. unfold items_seen. apply _. Qed.

Lemma listed_ok d : Inv d → items_ok (merge_sort item_le (items_of r d)) ∧ ∀ row, items_seen (merge_sort item_le (items_of r d)) row d.
Proof.
  intros HI. pose proof (merge_sort_Permutation item_le (items_of r d)) as Hp. set (l := merge_sort _ _) in *. split.
  - split.
    + rewrite Hp. unfold items_of, values. rewrite <- list_fmap_compose. set (m := filter _ _).
      assert (Hids : Forall (λ p, (bi_ID ∘ snd) p = fst p) (map_to_list m)).
      { apply Forall_forall. intros [id i] Hin. apply elem_of_map_to_list, map_lookup_filter_Some in Hin as [Hin _]. by destruct (inv_item d HI id i Hin). }
      rewrite (proj1 (Forall_fmap_ext _ _ _) Hids). apply NoDup_fst_map_to_list.
    + rewrite Forall_forall. intros i Hi. rewrite Hp in Hi. by apply (elem_of_items_of r d i HI) in Hi as [_ ?].
  - intros row. split.
    + intros id Hid. unfold unfinished_ids in Hid. apply list_elem_of_fmap in Hid as (i & -> & [Hn Hi]%list_elem_of_filter). rewrite Hp in Hi.
      apply (elem_of_items_of r d i HI) in Hi as [Hi Er]. by exists i.
    + intros Hall. unfold closed, all_terminal. rewrite <- Hp. rewrite Forall_forall. intros i Hi.
      rewrite forallb_forall in Hall. apply Hall. by apply list_elem_of_In.
Qed.

Lemma getrun_spec P (K : BulkBackupRun → RunRow → BulkDB → Prop) `{!Stable r P, !∀ run, Stable r (K run)} d :
  (∀ row d, P row d → K (rr_run row) row d) → while_held t r P d →
  safe t (GetRun r) (λ res d, while_held t r P d ∧
    match res with
    | Ok (Some run) => ∃ run0 items, run = run0 <| br_Items := items |> ∧ br_ID run0 = r ∧ items_ok items ∧
                         while_held t r (λ row d, K run0 row d ∧ items_seen items row d) d
    | _ => True
    end) d.
Proof.
  intros HK HP. apply safe_bind. eapply (safe_read t r P); [done|done|done|..].
  - intros d1 now HI H1. cbn [snd select_run]. destruct (bk_runs d1 !! r) as [row|] eqn:Hr; cbn [fmap option_fmap option_map with_items]; [|done].
    pose proof (inv_run_id d1 HI r row Hr) as Eid. rewrite Eid. apply safe_bind.
    assert (Hk : while_held t r (λ row d, P row d ∧ K (rr_run row) row d) d1) by (eapply while_held_mono; [|exact H1]; auto).
    assert (Hk' : while_held t r (λ row' d, P row' d ∧ K (rr_run row) row' d) d1) by (intros row' Hr' Ho; assert (row' = row) as -> by congruence; by apply Hk).
    eapply (safe_read t r (λ row' d, P row' d ∧ K (rr_run row) row' d)); [done|done|done|..].
    + intros d2 now2 HI2 H2. destruct (listed_ok d2 HI2) as [Hok Hseen]. simpl. split; [eapply while_held_mono; [|exact H2]; by intros ? []|].
      eexists _, _. split_and!; [done|done|done|]. eapply while_held_mono; [|exact H2]. intros row' [_ ?]. split; [done|apply Hseen].
    + intros e d2 H2. simpl. split; [|done]. eapply while_held_mono; [|exact H2]. by intros ? [].
  - intros e d1 H1. by split.
Qed.

(** ** Renewals and recounts *)

Lemma recalc_spec P `{!Stable r P} d :
  while_held t r P d → safe t (recalculateBulkRunCounters repo r) (λ _, while_held t r P) d.
Proof.
  intros HP. apply safe_bind, safe_bind. eapply (safe_sql_quiet t r P); [done|done|..].
  - intros d1 now HI. split; [apply step_scoped; [done|]; intros _; by apply step_count|apply quiet_scoped, quiet_count].
  - intros d1 now HI _ H2. destruct (execProcessorMutation _ _ _ _ _).2 as [n|e]; [|done]. eapply safe_weaken; [|eapply (getrun_spec P (λ _, P)); [by intros|exact H2]].
    intros res d2 [H _]. done.
  - done.
Qed.

Lemma renew_spec P `{!Stable r P} owner d : while_held t r P d → safe t (refreshBulkRunProcessor r owner) (λ _, while_held t r P) d.
Proof.
  intros HP. unfold refreshBulkRunProcessor. destruct (String.eqb owner ""); [done|]. apply safe_bind, safe_ask. intros now0.
  eapply (safe_sql_quiet t r P); [done|done|..|done|done].
  intros d1 now HI. split; [by apply step_refresh|apply quiet_refresh].
Qed.

(** ** Completing items *)

Lemma complete_spec flag item status reason ids d :
  bi_RunID item = r → bi_ID item ∉ ids → while_held t r (at_work flag (bi_ID item :: ids)) d →
  safe t (complete repo item status reason) (λ _, while_held t r (at_work flag ids)) d.
Proof.
  intros Er Hid HP. apply safe_bind, safe_bind, safe_ask. intros now. apply safe_bind. set (done_item := completed_item _ _ _ _ _).
  assert (HU : ∀ it, bi_RunID it = r → bi_ID it = bi_ID item → bi_BackupJobID it = None →
    safe t (sql (update_item_stmt repo it)) (λ _, while_held t r (at_work flag ids)) d).
  { intros it E1 E2 E3. eapply (safe_sql_held t r (at_work flag (bi_ID item :: ids))); [done|done|].
    intros d1 now1 HI Hw. rewrite <- E2 in Hid, Hw. pose proof (proj1 (at_work_split _ _ _) Hw) as [Hw1 Hw2].
    assert (H2 : while_held t r (at_work flag ids) (update_item_stmt repo it now1 d1).1).
    { apply at_work_split. split; [by apply complete_keeps|]. eapply flag_runs; [|exact Hw2].
      destruct (update_item_stmt_cases r t it now1 d1) as [->|(_ & _ & ->)]; [done|apply update_item_runs]. }
    split_and!; [by eapply step_complete|done|]. intros e. split; [|done]. eapply at_work_sub; [|exact Hw]. set_solver. }
  assert (HU' : safe t (UpdateRunItem repo done_item) (λ _, while_held t r (at_work flag ids)) d).
  { unfold UpdateRunItem. destruct (Time_IsZero _); [apply safe_bind, safe_ask; intros now2|]; by apply HU. }
  eapply safe_weaken; [|exact HU']. intros [u|e] d1 H1; [|done]. apply safe_bind. rewrite Er. eapply safe_weaken; [|by apply (recalc_spec (at_work flag ids))]. done.
Qed.

(** ** Loops that collect *)

Lemma safe_pcollect {A B} (body : A → prog (option B)) (I : list A → list B → BulkDB → Prop) :
  (∀ x rest acc d, I (x :: rest) acc d → safe t (body x) (λ o, I rest (acc ++ option_list o)) d) →
  ∀ l acc d, I l acc d → safe t (pcollect l body) (λ bs, I [] (acc ++ bs)) d.
Proof.
  intros Hb l. induction l as [|x l IH]; intros acc d HI; cbn [pcollect].
  - simpl. by rewrite app_nil_r.
  - apply safe_bind. eapply safe_weaken; [|apply Hb; exact HI]. intros o d1 H1. apply safe_bind. eapply safe_weaken; [|apply IH; exact H1].
    intros bs d2 H2. simpl. destruct o; simpl in *; by rewrite <- app_assoc in H2.
Qed.

(** ** A batch *)

Definition item_ids (l : list BulkBackupRunItem) : list UUID := bi_ID <$> l.

(** The items still to claim, and those claimed. *)
Definition claiming (rest acc : list BulkBackupRunItem) (d : BulkDB) : Prop :=
  NoDup (item_ids acc ++ item_ids rest) ∧ Forall (λ i, bi_RunID i = r) (rest ++ acc) ∧ while_held t r (at_work false (item_ids acc)) d.

Lemma claim_body item rest acc d :
  claiming (item :: rest) acc d →
  safe t (let* res := ClaimBulkRunItem repo (bi_RunID item) (bi_ID item) in Ret (match res with Ok o => o | Err _ => None end)) (λ o, claiming rest (acc ++ option_list o)) d.
Proof.
  intros (Hnd & Hrun & HP). apply safe_bind. unfold item_ids in Hnd. rewrite fmap_cons in Hnd. simpl in Hrun. apply Forall_cons in Hrun as [Er Hrun].
  assert (Hid : bi_ID item ∉ item_ids acc) by (apply NoDup_app in Hnd as (_ & H & _); intros Hin; apply (H _ Hin); by left).
  assert (Hskip : ∀ d, while_held t r (at_work false (item_ids acc)) d → claiming rest (acc ++ option_list (@None BulkBackupRunItem)) d).
  { intros d' Hw. simpl. rewrite app_nil_r. split_and!; [|done|done]. eapply sublist_NoDup; [exact Hnd|]. apply sublist_app; [done|]. by apply sublist_cons. }
  unfold ClaimBulkRunItem. apply safe_bind, safe_ask. intros now. apply safe_bind. rewrite Er.
  eapply (safe_sql_held t r (at_work false (item_ids acc))); [done|done|]. intros d1 now1 HI Hw. pose proof (proj1 (at_work_split _ _ _) Hw) as [Hw1 Hw2].
  assert (Hk : while_held t r (at_work false (item_ids acc)) (claim_stmt repo r (bi_ID item) now now1 d1).1).
  { apply at_work_split. split; [by apply claim_keeps|]. eapply flag_runs; [|exact Hw2]. apply exec_runs, update_item_runs. }
  split_and!; [by eapply step_claim| |by intros e; split; apply Hskip].
  destruct (claim_stmt repo r (bi_ID item) now now1 d1).2 as [n|e] eqn:En; [|by apply Hskip]. destruct (n =? 0) eqn:E0; [by apply Hskip|]. apply Z.eqb_neq in E0.
  pose proof (claim_opens r t now1 d1 (bi_ID item) now (item_ids acc) n Hid Hw1 En E0) as Hopen. apply safe_bind.
  assert (Hk2 : while_held t r (at_work false (bi_ID item :: item_ids acc)) (claim_stmt repo r (bi_ID item) now now1 d1).1) by (apply at_work_split; by split).
  eapply (safe_read t r (at_work false (bi_ID item :: item_ids acc))); [done|done|done|..].
  - intros d2 now2 HI2 Hw'. simpl. destruct (bk_items d2 !! bi_ID item) as [i|] eqn:Hi; [|apply Hskip; eapply at_work_sub; [|exact Hw']; set_solver].
    destruct (bi_RunID i =? r) eqn:Ei; [|apply Hskip; eapply at_work_sub; [|exact Hw']; set_solver]. apply Z.eqb_eq in Ei.
    destruct (inv_item d2 HI2 _ i Hi) as [Eid _]. unfold claiming, item_ids. simpl. rewrite fmap_app. simpl. rewrite Eid, <- app_assoc. simpl.
    split_and!; [done|rewrite app_assoc; apply Forall_app; split; [done|by constructor]|].
    eapply at_work_sub; [|exact Hw']. set_solver.
  - intros e d2 Hw'. apply Hskip. eapply at_work_sub; [|exact Hw']. set_solver.
Qed.

Lemma claim_spec items d :
  items_ok items → while_held t r (at_work false []) d →
  safe t (claimBulkRunBatch repo items) (λ claimed d, claiming [] claimed d) d.
Proof.
  intros [Hnd Hrun] HP. apply safe_bind. eapply safe_weaken; [|apply (safe_pcollect _ claiming claim_body items [])].
  - intros claimed d1 H1. simpl in H1. apply safe_bind. destruct claimed as [|i claimed]; [done|].
    destruct H1 as (Hn & Hr & Hw). assert (bi_RunID i = r) as -> by (by inversion Hr). eapply safe_weaken; [|apply (recalc_spec (at_work false (item_ids (i :: claimed)))); exact Hw].
    intros u d2 H2. by split_and!.
  - unfold claiming. rewrite app_nil_r. by split_and!.
Qed.

(** The claimed items still to check, and the candidates. *)
Definition checking (rest : list BulkBackupRunItem) (acc : list (BulkBackupRunItem * queuedDeviceBackup)) (d : BulkDB) : Prop :=
  NoDup (item_ids acc.*1 ++ item_ids rest) ∧ Forall (λ i, bi_RunID i = r) (rest ++ acc.*1) ∧
  while_held t r (at_work false (item_ids acc.*1 ++ item_ids rest)) d.

Lemma checking_done item rest acc status reason d :
  checking (item :: rest) acc d → ∀ item', bi_ID item' = bi_ID item → bi_RunID item' = bi_RunID item →
  safe t (let* _ := complete repo item' status reason in Ret None) (λ o, checking rest (acc ++ option_list o)) d.
Proof.
  intros (Hnd & Hrun & HP) item' E1 E2. unfold item_ids in Hnd, HP. rewrite fmap_cons in Hnd, HP. simpl in Hrun. apply Forall_cons in Hrun as [Er Hrun].
  apply safe_bind. eapply safe_weaken; [|apply (complete_spec false _ _ _ (item_ids acc.*1 ++ item_ids rest)); [congruence| |]].
  - intros u d1 H1. simpl. rewrite app_nil_r. split_and!; [|done|done]. eapply sublist_NoDup; [exact Hnd|]. apply sublist_app; [done|]. by apply sublist_cons.
  - rewrite E1. unfold item_ids. apply NoDup_app in Hnd as (_ & H & [H' _]%NoDup_cons). rewrite elem_of_app. intros [Hin|Hin]; [|done].
    apply (H _ Hin). by left.
  - rewrite E1. eapply at_work_sub; [|exact HP]. unfold item_ids. set_solver.
Qed.

Lemma check_body item rest acc d : checking (item :: rest) acc d → safe t (check_item repo item) (λ o, checking rest (acc ++ option_list o)) d.
Proof.
  intros H. apply safe_bind, safe_ask. intros [device|e]; [|by apply (checking_done item)].
  destruct (String.eqb _ _); [by apply (checking_done item)|]. apply safe_bind, safe_ask. intros [profile|e]; [|by apply (checking_done item)].
  apply safe_bind, safe_ask. intros [|]; cbn [negb]; [|by apply (checking_done item)].
  destruct H as (Hnd & Hrun & HP). cbn [safe option_list]. unfold checking, item_ids in *. rewrite fmap_cons in Hnd, HP. rewrite !fmap_app. simpl. rewrite <- !app_assoc. simpl.
  split_and!; [done| |done]. apply Forall_app. apply Forall_cons in Hrun as [Er Hrun]. apply Forall_app in Hrun as [H1 H2]. split; [done|]. apply Forall_app. by split; [|constructor].
Qed.

Lemma reachability_length backups d : safe t (checkBulkBackupReachability backups) (λ rs d', length rs = length backups ∧ d' = d) d.
Proof.
  induction backups as [|b backups IH]; cbn [checkBulkBackupReachability]; [done|]. apply safe_bind, safe_ask. intros x. apply safe_bind. eapply safe_weaken; [|exact IH].
  intros rs d' [E1 E2]. simpl. split; [congruence|done].
Qed.

(** The candidates still to queue. *)
Definition queueing (rest : list ((BulkBackupRunItem * queuedDeviceBackup) * option string)) (acc : list (queuedDeviceBackup * UUID)) (d : BulkDB) : Prop :=
  NoDup (item_ids rest.*1.*1) ∧ Forall (λ i, bi_RunID i = r) rest.*1.*1 ∧ Forall (λ p, p.2 = r) acc ∧ while_held t r (at_work false (item_ids rest.*1.*1)) d.

Lemma queueing_done item backup u rest acc status reason d :
  queueing (((item, backup), u) :: rest) acc d → ∀ item', bi_ID item' = bi_ID item → bi_RunID item' = bi_RunID item →
  safe t (let* _ := complete repo item' status reason in Ret None) (λ o, queueing rest (acc ++ option_list o)) d.
Proof.
  intros (Hnd & Hrun & Hacc & HP) item' E1 E2. unfold item_ids in Hnd, HP. simpl in Hnd, Hrun, HP. apply NoDup_cons in Hnd as [Hid Hnd]. apply Forall_cons in Hrun as [Er Hrun].
  apply safe_bind. eapply safe_weaken; [|apply (complete_spec false _ _ _ (item_ids rest.*1.*1)); [congruence|by rewrite E1|by rewrite E1]].
  intros u' d1 H1. simpl. rewrite app_nil_r. by split_and!.
Qed.

Lemma queue_body c rest acc d : queueing (c :: rest) acc d → safe t (queue_item repo c) (λ o, queueing rest (acc ++ option_list o)) d.
Proof.
  destruct c as [[item backup] [e|]]; intros H; unfold queue_item; [by apply (queueing_done item backup (Some e))|].
  apply safe_bind, safe_ask. intros id. apply safe_bind, safe_ask. intros now. cbv zeta. apply safe_bind, safe_ask. intros clock. apply safe_bind.
  set (item' := item <| bi_Status := _ |> <| bi_UpdatedAt := _ |> <| bi_CompletedAt := _ |>).
  destruct H as (Hnd & Hrun & Hacc & HP). set (ids := item_ids (((item, backup), None) :: rest).*1.*1) in *.
  eapply (safe_sql_held t r (at_work false ids)); [done|done|]. intros d1 now1 HI Hw. pose proof (proj1 (at_work_split _ _ _) Hw) as [Hw1 Hw2].
  set (job := mkJob _ _ _ _ _). assert (Hk : while_held t r (at_work false ids) (CreateBulkRunJob repo item' job clock now1 d1).1).
  { apply at_work_split. split; [by apply create_job_keeps|]. eapply flag_runs; [|exact Hw2].
    destruct (create_job_cases repo item' job clock now1 d1) as [->|(_ & _ & i & _ & _ & _ & _ & _ & ->)]; done. }
  assert (Hfail : ∀ e d, while_held t r (at_work false ids) d →
    safe t (let* _ := complete repo item' BulkBackupRunItemStatusFailed (String.append "failed to create or attach job: " e) in Ret None) (λ o, queueing rest (acc ++ option_list o)) d).
  { intros e d' Hd. apply (queueing_done item backup None); [|done|done]. by split_and!. }
  split_and!; [by eapply step_create_job| |by intros e; split; apply Hfail].
  destruct (CreateBulkRunJob repo item' job clock now1 d1).2 as [u|e]; [|by apply Hfail]. simpl.
  unfold ids, item_ids in *. simpl in *. apply NoDup_cons in Hnd as [Hid Hnd]. apply Forall_cons in Hrun as [Er Hrun]. split_and!; [done|done| |].
  - apply Forall_app. by split; [|constructor].
  - eapply at_work_sub; [|exact Hk]. set_solver.
Qed.

Lemma prepare_spec items d :
  items_ok items → while_held t r (at_work false []) d → safe t (prepareBulkRunBatch repo items) (λ _, while_held t r (at_work false [])) d.
Proof.
  intros Hok HP. apply safe_bind. eapply safe_weaken; [|by apply claim_spec]. intros claimed d1 (Hnd & Hrun & Hw). rewrite app_nil_r in Hnd. simpl in Hrun.
  apply safe_bind. eapply safe_weaken; [|apply (safe_pcollect _ checking check_body claimed []); by split_and!; rewrite ?app_nil_r].
  intros cands d2 (Hnd2 & Hrun2 & Hw2). simpl in *. rewrite app_nil_r in Hnd2, Hw2.
  apply safe_bind. eapply safe_weaken; [|apply reachability_length]. intros reach d3 [El ->]. rewrite length_fmap in El.
  assert (Ez : (zip cands reach).*1 = cands) by (apply fst_zip; lia).
  apply safe_bind. eapply safe_weaken; [|apply (safe_pcollect _ queueing queue_body (zip cands reach) []); unfold queueing; rewrite Ez; by split_and!].
  intros queued d4 (_ & _ & Hq & Hw4). simpl in *. apply safe_bind.
  destruct (last queued) as [[b id]|] eqn:El2; [|done]. assert (id = r) as -> by (apply last_Some_elem_of in El2; rewrite Forall_forall in Hq; by apply (Hq (b, id))).
  destruct (r =? uuid_Nil); [done|]. eapply safe_weaken; [|by apply (recalc_spec (at_work false []))]. done.
Qed.
End processor.

(** * The whole service keeps to its steps

    The loop of the processor, its start and its release; then every interleaving of goroutines:
    in every reachable state the tables satisfy their invariant, and every step is one the goroutine
    that makes it may take. *)

Open Scope bulk_scope.

#[local] Arguments pbind : simpl never.
#[local] Arguments sql : simpl never.
#[local] Arguments ask : simpl never.
#[local] Arguments go : simpl never.

Section processor.
Context (t : string) (r : UUID) (Ht : t ≠ ""%string).
Local Abbreviation repo := (ForProcessor r t).

Lemma at_work_working flag ids d : while_held t r (at_work r flag ids) d → while_held t r (λ row d, working row d ∧ nothing row d) d.
Proof. apply while_held_mono. by intros row [[? _] _]. Qed.

(** ** Waiting *)

Lemma wait_spec ticks ids owner next d :
  while_held t r working d → safe t (wait_loop repo ticks r ids owner next) (λ _ _, True) d.
Proof.
  revert next d. induction ticks as [|ticks IH]; intros next d HP; cbn [wait_loop]; [done|].
  apply safe_bind, safe_ask. intros [e|]; [done|]. apply safe_bind, safe_ask. intros now. apply safe_bind.
  assert (Hnext : safe t (if now <? next then Ret (Ok next) else let? _u := refreshBulkRunProcessor r owner in
      let* now := ask QNow in Ret (Ok (now + bulkBackupRunProcessorLeaseTTL / 3))) (λ _, while_held t r working) d).
  { destruct (now <? next); [done|]. apply safe_bind. eapply safe_weaken; [|by apply (renew_spec t r Ht working)].
    intros [u|e] d1 H1; [|done]. apply safe_bind, safe_ask. intros now1. exact H1. }
  eapply safe_weaken; [|exact Hnext]. intros [n|e] d1 H1; [|done]. apply safe_bind.
  eapply (safe_sql_held t r working); [done|done|]. intros d2 now2 HI Hw.
  assert (Hw' : while_held t r (λ row d, working row d ∧ nothing row d) d2) by (eapply while_held_mono; [|exact Hw]; done).
  pose proof (reconcile_keeps r t now2 d2 ids _ Hw') as Hk. split_and!; [by eapply step_reconcile| |done].
  destruct (ReconcileBulkRunBatchContext repo r ids now2 d2).2 as [[]|e]; [done|by apply IH|done].
Qed.

(** ** Cancelling *)

Lemma unfinished_cons i l : unfinished_ids (i :: l) = if bulkRunItemTerminal (bi_Status i) then unfinished_ids l else bi_ID i :: unfinished_ids l.
Proof. unfold unfinished_ids. rewrite filter_cons. case_decide as E; rewrite ?E; [done|]. by destruct (bulkRunItemTerminal _). Qed.

Lemma unfinished_sub l : unfinished_ids l ⊆ bi_ID <$> l.
Proof. intros id (i & -> & [_ Hi]%list_elem_of_filter)%list_elem_of_fmap. by apply list_elem_of_fmap_2. Qed.

Lemma cancel_spec items d :
  items_ok r items → while_held t r (at_work r true (unfinished_ids items)) d →
  safe t (cancelPendingBulkRunItems repo r items) (λ _, while_held t r (at_work r true [])) d.
Proof.
  intros Hok HP. apply safe_bind. eapply (safe_weaken _ _ (λ _, while_held t r (at_work r true []))).
  { intros u d1 H1. by apply (recalc_spec t r Ht (at_work r true [])). }
  revert d HP. induction items as [|i items IH]; intros d HP; cbn [pfor]; [done|]. destruct Hok as [Hnd Hrun]. simpl in Hnd.
  apply NoDup_cons in Hnd as [Hid Hnd]. apply Forall_cons in Hrun as [Er Hrun]. specialize (IH (conj Hnd Hrun)). apply safe_bind.
  rewrite unfinished_cons in HP. destruct (bulkRunItemTerminal (bi_Status i)) eqn:E; simpl; [by apply IH|]. destruct (_ || _).
  - apply IH. eapply at_work_sub; [|exact HP]. set_solver.
  - eapply safe_weaken; [|apply (complete_spec t r Ht true i _ _ (unfinished_ids items)); [done| |exact HP]].
    + intros u d1 H1. by apply IH.
    + intros Hin. by apply Hid, unfinished_sub.
Qed.

(** ** Finishing *)

Definition finishable : RunRow → BulkDB → Prop := λ row d, flagged row d ∨ closed r row d.
#[export] Instance finishable_stable : Stable r finishable.
Proof. intros d d' row row' K R [H|H]; [left|right]; eapply stable; eauto. Qed.

Lemma final_status_verdict run items : cnt run = counts items → final_status run = verdict (br_CancelRequested run) items.
Proof. unfold cnt, final_status, verdict. intros <-. done. Qed.
Lemma final_status_terminal run : bulkRunTerminal (final_status run) = true.
Proof. unfold final_status. by repeat (case_match; try done). Qed.

(** What the finishing read knows. *)
Definition tallied_run (run : BulkBackupRun) : RunRow → BulkDB → Prop :=
  λ row d, (finishable row d ∧ tallied r (cnt run) row d) ∧ (br_CancelRequested run = true → flagged row d).
#[export] Instance tallied_run_stable run : Stable r (tallied_run run).
Proof. unfold tallied_run. apply _. Qed.

Lemma finish_spec d : while_held t r finishable d → safe t (finishBulkBackupRun repo r) (λ _ _, True) d.
Proof.
  intros HP. apply safe_bind, safe_bind. eapply (safe_sql_held t r finishable); [done|done|]. intros d1 now HI Hw.
  assert (Hs : db_step t now d1 (execProcessorMutation repo r (bulkCountersSQL r) now d1).1) by (apply step_scoped; [done|]; intros _; by apply step_count).
  assert (Hk : while_held t r finishable (execProcessorMutation repo r (bulkCountersSQL r) now d1).1) by (eapply while_held_rely; [apply _|apply quiet_scoped, quiet_count|done]).
  split_and!; [done| |done]. destruct (execProcessorMutation repo r (bulkCountersSQL r) now d1).2 as [n|e] eqn:En; [|done].
  pose proof (count_counted t r _ _ _ _ En) as Hc. eapply safe_weaken; [|eapply (getrun_spec t r Ht (λ row d, finishable row d ∧ counted r row d) tallied_run)].
  - intros [[run|]|e] d2 [_ H2]; [|done..]. destruct H2 as (run0 & items & -> & Eid & Hok & H2). apply safe_bind, safe_ask. intros at_. apply safe_bind.
    eapply (safe_sql_held t r (tallied_run run0)); [done|eapply while_held_mono; [|exact H2]; by intros row []|]. intros d3 now3 HI3 Hw3.
    split_and!; [|done|done]. apply step_finish; [done|done|]. intros row Hr Ho. destruct (Hw3 row Hr Ho) as [[Hf Ht3] Hfl].
    split; [apply final_status_terminal|]. split; [|exact Hf]. exists (br_CancelRequested run0). split; [exact Hfl|]. transitivity (final_status run0); [done|]. by apply final_status_verdict.
  - intros row d2 [H2 H3]. split; [split; [done|]|by intros E]. unfold tallied. by rewrite <- H3.
  - by apply while_held_and.
Qed.

(** ** The loop *)

(** What a round learns from its read of the run. *)
Definition seen_run (run : BulkBackupRun) : RunRow → BulkDB → Prop :=
  λ row d, (run_resumable (br_Status run) = true → working row d) ∧ (br_CancelRequested run = true → flagged row d).
#[export] Instance seen_run_stable run : Stable r (seen_run run).
Proof. unfold seen_run. apply _. Qed.

Lemma read_spec P `{!Stable r P} d :
  while_held t r P d →
  safe t (GetRun r) (λ res d, while_held t r P d ∧
    match res with
    | Ok (Some run) => br_ID run = r ∧ items_ok r (br_Items run) ∧
        (run_resumable (br_Status run) = true → while_held t r (at_work r (br_CancelRequested run) (unfinished_ids (br_Items run))) d) ∧
        (forallb (λ i, bulkRunItemTerminal (bi_Status i)) (br_Items run) = true → while_held t r (closed r) d)
    | _ => True
    end) d.
Proof.
  intros HP. eapply safe_weaken; [|eapply (getrun_spec t r Ht P seen_run); [|exact HP]; by intros].
  intros [[run|]|e] d1 [H1 H2]; [|done..]. split; [done|]. destruct H2 as (run0 & items & -> & Eid & Hok & H2).
  cbn -[at_work unfinished_ids items_ok]. split_and!; [done|done|..].
  - intros Hres. eapply while_held_mono; [|exact H2]. intros row [[Hw Hf] [Ho _]]. split; [split; [by apply Hw|done]|done].
  - intros Hall. eapply while_held_mono; [|exact H2]. intros row [_ [_ Hc]]. by apply Hc.
Qed.

Lemma next_batch_ok items n : items_ok r items → items_ok r (nextBulkRunBatch items n).
Proof.
  intros [Hnd Hrun]. unfold nextBulkRunBatch. set (l := filter _ _).
  assert (Hs : sublist (take (Z.to_nat (if n <=? 0 then defaultBulkBackupRunBatchSize else n)) l) items).
  { etransitivity; [apply sublist_take|apply sublist_filter]. }
  split; [eapply sublist_NoDup; [exact Hnd|by apply fmap_sublist]|]. rewrite Forall_forall in *. intros i Hi. apply Hrun. eapply elem_of_sublist; eauto.
Qed.

Lemma next_batch_nil items n : nextBulkRunBatch items n = [] → forallb (λ i, bulkRunItemTerminal (bi_Status i)) items = true.
Proof.
  unfold nextBulkRunBatch. set (m := if n <=? 0 then _ else _). assert (Hm : (0 < Z.to_nat m)%nat) by (unfold m; destruct (n <=? 0) eqn:E; [vm_compute; lia|lia]).
  intros Hn. apply forallb_forall. intros i Hi. apply not_false_iff_true. intros E.
  assert (Hin : i ∈ filter (λ i, bulkRunItemTerminal (bi_Status i) = false) items) by (apply list_elem_of_filter; split; [done|by apply list_elem_of_In]).
  destruct (filter _ items) as [|j l]; [by apply not_elem_of_nil in Hin|]. destruct (Z.to_nat m); [lia|done].
Qed.

Lemma process_spec fuel d : safe t (processAcquiredBulkRun repo fuel r t) (λ _ _, True) d.
Proof.
  revert d. induction fuel as [|fuel IH]; intros d; cbn [processAcquiredBulkRun]; [done|]. apply safe_bind.
  eapply safe_weaken; [|by apply (renew_spec t r Ht nothing)]. intros [u|e] d1 _; [|done]. apply safe_bind.
  eapply safe_weaken; [|by apply (read_spec nothing)]. intros [[run|]|e] d2 [_ H2]; [|done..]. destruct H2 as (Eid & Hok & Hwork & Hclosed). rewrite Eid.
  destruct (bulkRunTerminal (br_Status run)) eqn:Et; [done|]. case_bool_decide as Ep; [done|]. case_bool_decide as Epp.
  { apply safe_bind. eapply safe_weaken; [|by apply (read_spec nothing)]. intros [[latest|]|e] d3 [_ H3]; [|by apply IH|done].
    destruct (negb _); [by apply IH|]. apply safe_bind, safe_bind. eapply (safe_sql_held t r nothing); [done|done|]. intros d4 now HI _.
    split_and!; [by apply step_update_run_paused| |done]. destruct (update_run_stmt _ _ _ _).2 as [n|e]; [|done]. destruct (n =? 0); [|done].
    apply safe_bind. eapply safe_weaken; [|by apply always_GetRun]. by intros [[x|]|e] ? _. }
  assert (Hres : run_resumable (br_Status run) = true) by (destruct (br_Status run); done). specialize (Hwork Hres).
  destruct (br_CancelRequested run) eqn:Ec.
  - apply safe_bind. eapply safe_weaken; [|by apply cancel_spec]. intros u' d3 H3. apply safe_bind. eapply safe_weaken; [|by apply (read_spec (at_work r true []))].
    intros [[again|]|e] d4 [H4 _]; [|done..]. destruct (runningBulkRunItems (br_Items again)) as [|i active].
    + apply safe_bind. eapply safe_weaken; [|apply finish_spec; eapply while_held_mono; [|exact H4]; intros row [_ Hf]; left; by apply Hf]. done.
    + apply safe_bind, safe_bind, safe_ask. intros now. eapply safe_weaken; [|apply wait_spec; eapply while_held_mono; [|exact H4]; by intros row [[] _]].
      intros [x|e] d5 _; [apply IH|done].
  - destruct (nextBulkRunBatch (br_Items run) (br_BatchSize run)) as [|i items] eqn:En.
    + apply safe_bind. eapply safe_weaken; [|apply finish_spec; eapply while_held_mono; [|apply Hclosed; by eapply next_batch_nil]; intros row Hf; by right]. done.
    + apply safe_bind. eapply safe_weaken; [|apply (prepare_spec t r Ht); [rewrite <- En; by apply next_batch_ok|eapply at_work_sub; [|exact Hwork]; set_solver]].
      intros queued d3 H3. apply safe_bind. assert (Hgo : safe t (startBulkBackupWorkers queued) (λ _, while_held t r (at_work r false [])) d3).
      { clear -H3. unfold startBulkBackupWorkers. induction queued as [|b queued IHq]; cbn [pfor]; [done|]. apply safe_bind, safe_go. exact (IHq H3). }
      eapply safe_weaken; [|exact Hgo]. intros u' d4 H4. apply safe_bind, safe_bind, safe_ask. intros now.
      eapply safe_weaken; [|apply wait_spec; eapply while_held_mono; [|exact H4]; by intros row [[] _]]. intros [x|e] d5 _; [apply IH|done].
Qed.

(** The lease is only taken on a run that is worked on. *)
Lemma acquired_working until now d n :
  (TryAcquireBulkRunProcessor r t until now d).2 = Ok n → n ≠ 0 → while_held t r (λ row d, working row d ∧ nothing row d) (TryAcquireBulkRunProcessor r t until now d).1.
Proof.
  unfold TryAcquireBulkRunProcessor, update_run. destruct (bk_runs d !! r) as [row|] eqn:Hr; [|by intros [= <-]]. destruct (_ && _) eqn:G; [|by intros [= <-]].
  intros _ _ row' Hr' _. simpl in Hr'. rewrite lookup_insert_eq in Hr'. simplify_eq. to_prop. by split.
Qed.

Lemma processor_safe fuel recover : always t (processBulkBackupRun fuel t r recover).
Proof.
  intros d. apply safe_bind, safe_ask. intros now0. apply safe_bind. intros d1 now Hr HI. split_and!; [by apply step_acquire| |done].
  destruct (TryAcquireBulkRunProcessor r t _ now d1).2 as [n|e] eqn:En; [|done]. cbn [safe]. destruct (n =? 0) eqn:E0; [done|]. apply Z.eqb_neq in E0.
  pose proof (acquired_working _ _ _ _ En E0) as Hw. apply safe_bind. eapply (safe_weaken _ _ (λ _ _, True)).
  - intros u d2 _. apply safe_bind. eapply (safe_weaken _ _ (λ _ _, True)).
    + intros ended d3 _. destruct ended; [|done]. apply always_bind; [|intros; apply always_ret]. apply always_sql. intros. by apply step_release.
    + destruct u; [apply process_spec|done].
  - destruct recover; [|done]. eapply safe_sql_held; [|done|exact Hw|]; [apply _|]. intros d2 now2 HI2 Hw2. split_and!; [by eapply step_recover|done|done].
Qed.
End processor.
