(* ===== verification/BulkTheorems.v ===== *)
(** * Bulk backup runs: what holds in every interleaving

    Any number of requests, processors and workers, of any number of instances, with statements
    that fail before or after their effect and goroutines that die at any point. *)

From S2P Require Import Prelude GoLib Domain BulkData BulkRepo BulkService BulkJobs BulkLogic BulkStmts BulkSafe BulkProcessor.

(** ** The invariant of the system *)

Record sys_inv (s : sys) : Prop := {
  si_db : Inv (sy_db s);
  si_safe i tid p : sy_threads s !! i = Some (tid, p) → safe tid p (λ _ _, True) (sy_db s);
  si_used i tid p : sy_threads s !! i = Some (tid, p) → tid ≠ ""%string → tid ∈ sy_used s;
  si_alone i j tid p q : sy_threads s !! i = Some (tid, p) → sy_threads s !! j = Some (tid, q) → tid ≠ ""%string → i = j }.

Lemma sys_inv_0 : sys_inv sys0.
Proof. split; [split|..]; try done; intros *; rewrite ?lookup_empty; try done; by intros []. Qed.

(** One node of a goroutine is a step it may take, and leaves it safe. *)
Lemma step_prog_safe tid p d now o answers d' p' g :
  Inv d → safe tid p (λ _ _, True) d → step_prog d p now o answers = Some (d', p', g) →
  db_step tid now d d' ∧ safe tid p' (λ _ _, True) d'.
Proof.
  intros HI Hs. destruct p as [a|B f k|q k|g' k]; simpl; [done|..].
  - destruct (Hs d now (rely_refl tid d) HI) as (H1 & H2 & H3). destruct (f now d) as [d1 r1]. simpl in *.
    destruct o; intros [= <- <- _]; split; try done; [by apply step_refl|apply H3|apply H3].
  - intros [= <- <- _]. split; [by apply step_refl|apply Hs].
  - intros [= <- <- _]. split; [by apply step_refl|apply Hs].
Qed.

Lemma task_safe fuel owner g : owner ≠ ""%string → always owner (task_prog fuel owner g).
Proof. intros Ho. destruct g as [id recover|[] b]; simpl; [by apply processor_safe|apply always_backup_context|apply always_backup]. Qed.

(** The goroutines of the next state: one moved on, the others as they were. *)
Lemma threads_moved (l : list thread) i tid p p' new j tid' q :
  l !! i = Some (tid, p) → (<[i := (tid, p')]> l ++ new) !! j = Some (tid', q) →
  (j = i ∧ tid' = tid ∧ q = p') ∨ (j ≠ i ∧ l !! j = Some (tid', q)) ∨ (length l ≤ j)%nat ∧ new !! (j - length l)%nat = Some (tid', q).
Proof.
  intros Hi [Hj|[Hlen Hj]]%lookup_app_Some; [|right; right; by rewrite length_insert in *].
  destruct (decide (j = i)) as [->|Hne]; [left|right; left; by rewrite list_lookup_insert_ne in Hj].
  rewrite list_lookup_insert_eq in Hj by (by eapply lookup_lt_Some). by simplify_eq.
Qed.

(** The same, when at most one goroutine with an unused name is added. *)
Lemma moved_inv s i tid p p' d new :
  sys_inv s → sy_threads s !! i = Some (tid, p) → safe tid p' (λ _ _, True) d → Inv d →
  (∀ o, o ≠ tid → rely o (sy_db s) d) →
  (∀ o q, new = Some (o, q) → o ≠ ""%string ∧ o ∉ sy_used s ∧ always o q) →
  sys_inv (mkSys d (<[i := (tid, p')]> (sy_threads s) ++ option_list new) (match new with Some (o, _) => {[o]} ∪ sy_used s | None => sy_used s end)).
Proof.
  intros HS Hi Hs HI Hr Hnew.
  assert (Hn : ∀ j tid' q, option_list new !! j = Some (tid', q) → j = O ∧ new = Some (tid', q)) by (destruct new as [[o q]|]; intros [|j] ??; simpl; by intros [= <- <-]).
  assert (Hused : ∀ o, o ∈ sy_used s → o ∈ match new with Some (o, _) => {[o]} ∪ sy_used s | None => sy_used s end) by (destruct new as [[??]|]; set_solver).
  split; simpl; [done|..].
  - intros j tid' q [(-> & -> & ->)|[[Hne Hj]|[_ [_ E]%Hn]]]%(threads_moved _ _ _ p); [done| | |done].
    + assert (Hsafe : safe tid' q (λ _ _, True) (sy_db s)) by (by eapply si_safe).
      destruct (decide (tid' = tid)) as [E|Ht]; [|by eapply safe_rely; [apply Hr|]].
      destruct (decide (tid' = ""%string)) as [E'|Ho]; [|subst tid'; destruct Hne; by eapply si_alone]. eapply safe_rely; [|exact Hsafe]. by intros [].
    + by apply (Hnew _ _ E).
  - intros j tid' q Hj Ho. apply (threads_moved _ _ _ p) in Hj as [(_ & -> & _)|[[_ Hj]|[_ [_ E]%Hn]]]; [by eapply Hused, si_used|by eapply Hused, si_used| |done].
    rewrite E. set_solver.
  - intros j k tid' q q' Hj Hk Ho. apply (threads_moved _ _ _ p) in Hj; [|done]. apply (threads_moved _ _ _ p) in Hk; [|done].
    assert (Hold : ∀ i0 q0 q1, sy_threads s !! i0 = Some (tid', q0) → new = Some (tid', q1) → False).
    { intros i0 q0 q1 H0 E. apply (proj1 (proj2 (Hnew _ _ E))). by eapply si_used. }
    destruct Hj as [(-> & Et & _)|[[_ Hj]|[Hlj [Ej E]%Hn]]], Hk as [(-> & Et' & _)|[[_ Hk]|[Hlk [Ek E']%Hn]]]; try (subst tid'); try done; try lia;
      try (by eapply si_alone); exfalso; eauto.
Qed.

(** The goroutine and the instant behind a step of the tables. *)
Lemma exec_step s c s' : sys_inv s → exec c s = Some s' →
  sys_inv s' ∧ match c with
  | CStep i now _ _ _ _ => ∃ tid p, sy_threads s !! i = Some (tid, p) ∧ db_step tid now (sy_db s) (sy_db s')
  | _ => sy_db s' = sy_db s
  end.
Proof.
  intros HS. destruct c as [i now o answers owner fuel|rq|i]; simpl.
  - destruct (sy_threads s !! i) as [[tid p]|] eqn:Hi; [|done]. destruct (step_prog _ _ _ _ _) as [[[d p'] g]|] eqn:E; [|done].
    destruct (step_prog_safe _ _ _ _ _ _ _ _ _ (si_db s HS) (si_safe s HS i tid p Hi) E) as [Hs Hp].
    assert (HI : Inv d) by (eapply db_step_inv; [apply HS|done]). assert (Hr : ∀ o, o ≠ tid → rely o (sy_db s) d) by (intros; eapply step_rely; [apply HS|done|done]).
    destruct g as [g|].
    + destruct (String.eqb owner "") eqn:E1; [done|]. apply String.eqb_neq in E1. case_bool_decide as E2; [done|]. simpl. intros [= <-]. split; [|by eauto].
      apply (moved_inv s i tid p p' d (Some (owner, task_prog fuel owner g))); try done. intros o' q [= <- <-]. split_and!; [done|done|]. by apply task_safe.
    + intros [= <-]. split; [|by eauto]. pose proof (moved_inv s i tid p p' d None HS Hi Hp HI Hr) as H. simpl in H. rewrite app_nil_r in H. by apply H.
  - intros [= <-]. split; [|done]. split; simpl; [apply HS|..].
    + intros j tid p [Hj|[_ Hj]]%lookup_app_Some; [by eapply si_safe|]. apply list_lookup_singleton_Some in Hj as [_ [= <- <-]]. apply always_request.
    + intros j tid p [Hj|[_ Hj]]%lookup_app_Some; [by eapply si_used|]. by apply list_lookup_singleton_Some in Hj as [_ [= <- <-]].
    + intros j k tid p q [Hj|[_ Hj]]%lookup_app_Some [Hk|[_ Hk]]%lookup_app_Some Ho; [by eapply si_alone|..].
      * by apply list_lookup_singleton_Some in Hk as [_ [= <- <-]].
      * by apply list_lookup_singleton_Some in Hj as [_ [= <- <-]].
      * by apply list_lookup_singleton_Some in Hj as [_ [= <- <-]].
  - intros [= <-]. split; [|done]. assert (Hd : ∀ j x, delete i (sy_threads s) !! j = Some x → ∃ j', sy_threads s !! j' = Some x ∧ j' = if decide (j < i)%nat then j else S j).
    { intros j x Hj. exists (if decide (j < i)%nat then j else S j). split; [|done]. case_decide; [by rewrite list_lookup_delete_lt in Hj|]. rewrite list_lookup_delete_ge in Hj by lia. done. }
    split; simpl; [apply HS|..].
    + intros j tid p (j' & Hj & _)%Hd. by eapply si_safe.
    + intros j tid p (j' & Hj & _)%Hd. by eapply si_used.
    + intros j k tid p q (j' & Hj & Ej)%Hd (k' & Hk & Ek)%Hd Ho. assert (j' = k') by (by eapply si_alone). repeat case_decide; lia.
Qed.

Lemma bulk_reachable_inv s : reachable s → sys_inv s.
Proof. apply rtc_ind_r; [apply sys_inv_0|]. intros s1 s2 _ (c & Hc) HS. by apply (exec_step s1 c s2 HS Hc). Qed.

(** ** What finished runs say *)

Lemma count_status_pos P l : 0 <? count_status P l = true ↔ ∃ i, i ∈ l ∧ P (bi_Status i) = true.
Proof.
  unfold count_status. rewrite Z.ltb_lt. split.
  - intros H. destruct (filter _ l) as [|i k] eqn:E; [simpl in H; lia|]. exists i.
    assert (Hi : i ∈ filter (λ i, P (bi_Status i) = true) l) by (rewrite E; by left). by apply list_elem_of_filter in Hi as [??].
  - intros (i & Hi & HP). assert (Hin : i ∈ filter (λ i, P (bi_Status i) = true) l) by by apply list_elem_of_filter.
    destruct (filter _ l); [by apply not_elem_of_nil in Hin|]. simpl. lia.
Qed.

Lemma count_status_zero P l i : 0 <? count_status P l = false → i ∈ l → P (bi_Status i) = false.
Proof. intros H Hi. destruct (P (bi_Status i)) eqn:E; [|done]. rewrite <- H. symmetry. apply count_status_pos. eauto. Qed.

Lemma count_status_all P l : count_status P l =? Z.of_nat (length l) = true → Forall (λ i, P (bi_Status i) = true) l.
Proof.
  unfold count_status. rewrite Z.eqb_eq, Nat2Z.inj_iff. induction l as [|i l IH]; [by constructor|]. rewrite filter_cons. case_decide as E; simpl; intros H.
  - constructor; [done|]. apply IH. lia.
  - exfalso. pose proof (length_filter (λ i, P (bi_Status i) = true) l). lia.
Qed.

Lemma is_item_status_true s t : is_item_status s t = true ↔ t = s.
Proof. unfold is_item_status. apply bool_decide_eq_true. Qed.

(** What each final status says of the items. *)
Definition truthful (status : BulkBackupRunStatus) (items : list BulkBackupRunItem) : Prop :=
  match status with
  | BulkBackupRunStatusSuccess => items ≠ [] ∧ ∀ i, i ∈ items → bi_Status i = BulkBackupRunItemStatusSuccess
  | BulkBackupRunStatusFailed => ∀ i, i ∈ items → bi_Status i ∉ [BulkBackupRunItemStatusSuccess; BulkBackupRunItemStatusSkipped; BulkBackupRunItemStatusCancelled]
  | BulkBackupRunStatusCancelled => ∀ i, i ∈ items → bi_Status i ∉ [BulkBackupRunItemStatusSuccess; BulkBackupRunItemStatusFailed; BulkBackupRunItemStatusSkipped]
  | BulkBackupRunStatusPartial => ∃ i, i ∈ items ∧ bi_Status i ∈ [BulkBackupRunItemStatusSuccess; BulkBackupRunItemStatusFailed; BulkBackupRunItemStatusSkipped]
  | _ => True
  end.

Lemma some_status s l (x : list BulkBackupRunItemStatus) : 0 <? count_status (is_item_status s) l = true → s ∈ x → ∃ i, i ∈ l ∧ bi_Status i ∈ x.
Proof. intros (i & Hi & E%is_item_status_true)%count_status_pos Hs. exists i. by rewrite E. Qed.

Lemma no_status s l i : 0 <? count_status (is_item_status s) l = false → i ∈ l → bi_Status i ≠ s.
Proof. intros H Hi E. apply (count_status_zero _ _ _ H) in Hi. by rewrite (proj2 (is_item_status_true s (bi_Status i)) E) in Hi. Qed.

Lemma verdict_truthful c items : truthful (verdict c items) items.
Proof.
  unfold verdict, counts. cbv beta iota. destruct (c || _) eqn:Ec.
  - clear Ec c. destruct (_ || _) eqn:E; simpl.
    + apply orb_true_iff in E as [[E|E]%orb_true_iff|E]; (eapply some_status; [exact E|]); by repeat constructor.
    + apply orb_false_iff in E as [[E1 E2]%orb_false_iff E3]. intros i Hi. pose proof (no_status _ _ i E1 Hi). pose proof (no_status _ _ i E2 Hi). pose proof (no_status _ _ i E3 Hi). set_solver.
  - apply orb_false_iff in Ec as [_ Ec]. destruct (_ && _) eqn:E; simpl.
    + apply andb_true_iff in E as [E1 E2]. split; [by intros ->|]. intros i Hi. apply count_status_all in E2. rewrite Forall_forall in E2. by apply is_item_status_true, E2.
    + destruct (_ || _) eqn:E'; simpl.
      * apply orb_true_iff in E' as [E'|E']; (eapply some_status; [exact E'|]); by repeat constructor.
      * apply orb_false_iff in E' as [E1 E2]. intros i Hi. pose proof (no_status _ _ i E1 Hi). pose proof (no_status _ _ i E2 Hi). pose proof (no_status _ _ i Ec Hi). set_solver.
Qed.

(** ** Claims *)

(** C10: In every interleaving of requests, processors and backup workers of any number of
    instances, with statements that fail before or after their effect and goroutines that die at
    any point, the tables of bulk runs stay consistent: at most one run is active, every item
    belongs to a run, every job reference names a job of the item's device, a pausing run is not
    marked as cancelled, and the status of a finished run is the verdict on its items. *)
Theorem bulk_tables_consistent s : reachable s → Inv (sy_db s).
Proof. intros H. by apply si_db, bulk_reachable_inv. Qed.

(** C35: The final status of a bulk run is truthful in every reachable state: success means that
    there were devices and each was backed up, failed that none was backed up, skipped or
    cancelled, cancelled that none was finished otherwise, partial that some device was; and a
    finished run that nobody cancelled has settled every device. *)
Theorem finished_run_truthful s r row :
  reachable s → bk_runs (sy_db s) !! r = Some row → bulkRunTerminal (status_of row) = true →
  truthful (status_of row) (items_of r (sy_db s)) ∧ (flag_of row = false → all_terminal (items_of r (sy_db s))).
Proof.
  intros H Hr Ht. destruct (inv_settled _ (si_db s (bulk_reachable_inv s H)) r row Hr Ht) as [(c & _ & ->) Ha]. split; [apply verdict_truthful|].
  intros E. destruct Ha as [Ha|Ha]; [congruence|done].
Qed.

(** C20: What a bulk run has settled stays settled: no step of any goroutine removes a run or an
    item, changes the status of a finished run, changes an item that has its outcome, or touches
    an item of a run that is paused or finished; only the reference to a deleted job is cleared. *)
Theorem bulk_outcomes_final s s' : reachable s → step s s' → Final (sy_db s) (sy_db s').
Proof.
  intros H (c & Hc). pose proof (bulk_reachable_inv s H) as HS. destruct (exec_step s c s' HS Hc) as [_ Hd]. destruct c as [i now o answers owner fuel|rq|i].
  - destruct Hd as (tid & p & _ & Hd). eapply step_final; [apply HS|done].
  - rewrite Hd. eapply (step_final ""%string 0); [apply HS|]. apply step_refl, HS.
  - rewrite Hd. eapply (step_final ""%string 0); [apply HS|]. apply step_refl, HS.
Qed.

(** C15: The lease fences a bulk run: a goroutine that changes an item (beyond a cleared job
    reference) holds the lease of its run, in force at that instant, on a run that is running,
    pausing or cancelling; and a lease changes hands only to the goroutine that takes it, from its
    own, from nobody's or from one that has run out, so a stale processor never writes. *)
Theorem lease_fences s i now o answers owner fuel s' tid p :
  reachable s → exec (CStep i now o answers owner fuel) s = Some s' → sy_threads s !! i = Some (tid, p) →
  (∀ id it it', bk_items (sy_db s) !! id = Some it → bk_items (sy_db s') !! id = Some it' → ¬ same_item it it' → in_force tid now (sy_db s) (bi_RunID it)) ∧
  (∀ r row row', bk_runs (sy_db s) !! r = Some row → bk_runs (sy_db s') !! r = Some row' → rr_owner row' ≠ rr_owner row →
     (rr_owner row' = tid ∨ rr_owner row' = ""%string) ∧ (rr_owner row = ""%string ∨ rr_owner row = tid ∨ lease_after now (rr_lease row) = false)).
Proof.
  intros H Hc Hi. destruct (exec_step s _ s' (bulk_reachable_inv s H) Hc) as [_ (tid' & p' & Hi' & Hd)]. simplify_eq. split.
  - intros id it it' H1 H2 Hn. destruct (ds_item _ _ _ _ Hd id it H1) as (it2 & H2' & S). simplify_eq. by destruct (is_fenced _ _ _ _ _ S) as [?|[_ ?]].
  - intros r row row' H1 H2 Hn. destruct (ds_run _ _ _ _ Hd r row H1) as (row2 & H2' & S). simplify_eq. by destruct (rs_owner _ _ _ _ _ _ S) as [?|?].
Qed.
