(* ===== verification/BulkLive.v ===== *)
(** * A bulk run completes

    The processor alone with the backup workers: no other request, no failing statement, and the
    backups of a batch over before its deadline.  Then the run is finished within as many rounds
    as it has unfinished items, whatever the inventory, the credentials and the network say of its
    devices. *)

From S2P Require Import Prelude GoLib Domain BulkData BulkRepo BulkService BulkJobs BulkLogic BulkStmts BulkSafe BulkProcessor.
Open Scope bulk_scope.

(** What surrounds the processor at its [n]-th node: the clock of the database, the answers, and what
    the workers did to the jobs just before. *)
Record surroundings := { sr_now : nat → Time; sr_answers : nat → ∀ q, reply q; sr_jobs : nat → gmap UUID BackupJob → gmap UUID BackupJob }.

Definition worked (w : surroundings) (n : nat) (d : BulkDB) : BulkDB := d <| bk_jobs := sr_jobs w n (bk_jobs d) |>.

Fixpoint alone {A} (w : surroundings) (p : prog A) (n : nat) (d : BulkDB) : A * nat * BulkDB :=
  match p with
  | Ret a => (a, n, d)
  | Sql f k => let '(d2, r) := f (sr_now w n) (worked w n d) in alone w (k r) (S n) d2
  | Ask q k => alone w (k (sr_answers w n q)) (S n) d
  | Go _ k => alone w k (S n) d
  end.

(** The lease lasts, the deadline of a batch is not reached, and the workers have finished their jobs. *)
Record favourable (w : surroundings) : Prop := {
  fa_lease m n : sr_now w n < sr_answers w m QNow + bulkBackupRunProcessorLeaseTTL;
  fa_tick n : sr_answers w n QTick = None;
  fa_kept n jobs j job : jobs !! j = Some job → ∃ job', sr_jobs w n jobs !! j = Some job' ∧ bj_DeviceID job' = bj_DeviceID job;
  fa_ids n jobs j job : (∀ j job, jobs !! j = Some job → bj_ID job = j) → sr_jobs w n jobs !! j = Some job → bj_ID job = j;
  fa_done n jobs j job : sr_jobs w n jobs !! j = Some job → bj_Status job = BackupStatusSuccess ∨ bj_Status job = BackupStatusFailed }.

Lemma alone_bind {A B} w (p : prog A) (h : A → prog B) n d : alone w (pbind p h) n d = let '(a, n1, d1) := alone w p n d in alone w (h a) n1 d1.
Proof. revert n d. induction p as [a|C f k IH|q k IH|g k IH]; intros n d; cbn [alone pbind]; [done|..]; [destruct (f _ _)|..]; apply IH. Qed.

#[local] Arguments pbind : simpl never.
#[local] Arguments sql : simpl never.
#[local] Arguments ask : simpl never.
#[local] Arguments go : simpl never.

Section live.
Context (w : surroundings) (Hfav : favourable w) (t : string) (r : UUID) (Ht : t ≠ ""%string).
Local Abbreviation repo := (ForProcessor r t).

(** ** Safety carries over *)

Lemma worked_step n d : Inv d → db_step ""%string 0 d (worked w n d).
Proof.
  intros HI. apply step_set_jobs; [done|..].
  - intros j job Hj. eapply fa_ids; [done| |exact Hj]. apply (inv_job d HI).
  - intros j job Hj. by apply fa_kept.
Qed.

Lemma alone_safe {A} (p : prog A) Q n d : Inv d → safe t p Q d → let '(a, _, d') := alone w p n d in Inv d' ∧ Q a d'.
Proof.
  revert n d. induction p as [a|C f k IH|q k IH|g k IH]; intros n d HI Hs; cbn [alone]; [done|..].
  - pose proof (worked_step n d HI) as Hstep. pose proof (db_step_inv _ _ _ _ HI Hstep) as HI1.
    destruct (Hs (worked w n d) (sr_now w n)) as (H1 & H2 & _); [eapply step_rely; [done|exact Hstep|done]|done|].
    pose proof (db_step_inv _ _ _ _ HI1 H1) as HI2. destruct (f _ _) as [d2 x]. by apply IH.
  - apply IH; [done|]. apply Hs.
  - by apply IH.
Qed.

(** ** Progress *)

(** The processor is at work on a running run, with a lease that lasts. *)
Definition at_it (d : BulkDB) : Prop :=
  ∃ row L, bk_runs d !! r = Some row ∧ rr_owner row = t ∧ rr_lease row = Some L ∧ (∀ n, sr_now w n < L) ∧
    status_of row = BulkBackupRunStatusRunning ∧ flag_of row = false.

(** Items are not lost, do not reopen, and are not put back. *)
Definition item_on (i i' : BulkBackupRunItem) : Prop :=
  bi_RunID i' = bi_RunID i ∧ (bulkRunItemTerminal (bi_Status i) = true → bulkRunItemTerminal (bi_Status i') = true) ∧
  (bi_Status i ≠ BulkBackupRunItemStatusChecking → bi_Status i' ≠ BulkBackupRunItemStatusChecking).
Definition onward (d d' : BulkDB) : Prop :=
  (∀ id i, bk_items d !! id = Some i → ∃ i', bk_items d' !! id = Some i' ∧ item_on i i') ∧
  (∀ id, is_Some (bk_items d' !! id) → is_Some (bk_items d !! id)).

Lemma item_on_refl i : item_on i i.
Proof. done. Qed.
Lemma onward_refl d : onward d d.
Proof. split; [|done]. intros id i Hi. exists i. split; [done|apply item_on_refl]. Qed.
Lemma onward_items d d' : bk_items d' = bk_items d → onward d d'.
Proof. intros E. split; rewrite E; [|done]. apply onward_refl. Qed.
Lemma onward_trans d d1 d2 : onward d d1 → onward d1 d2 → onward d d2.
Proof.
  intros [H1 H1'] [H2 H2']. split; [|auto]. intros id i Hi. destruct (H1 id i Hi) as (i1 & Hi1 & E1 & T1 & C1). destruct (H2 id i1 Hi1) as (i2 & Hi2 & E2 & T2 & C2).
  exists i2. split; [done|]. split_and!; [congruence|auto|auto].
Qed.

Definition keeps_on (d d' : BulkDB) : Prop := at_it d' ∧ onward d d'.
Lemma keeps_on_refl d : at_it d → keeps_on d d.
Proof. intros H. split; [done|apply onward_refl]. Qed.

(** A program that keeps the processor at it. *)
Definition steady {A} (p : prog A) : Prop := ∀ n d, at_it d → let '(_, _, d') := alone w p n d in keeps_on d d'.

Lemma steady_ret {A} (a : A) : steady (Ret a).
Proof. intros n d H. by apply keeps_on_refl. Qed.
Lemma steady_ask q : steady (ask q).
Proof. intros n d H. by apply keeps_on_refl. Qed.
Lemma steady_go g : steady (go g).
Proof. intros n d H. by apply keeps_on_refl. Qed.
Lemma steady_bind {A B} (p : prog A) (h : A → prog B) : steady p → (∀ a, steady (h a)) → steady (pbind p h).
Proof.
  intros Hp Hh n d H. rewrite alone_bind. specialize (Hp n d H). destruct (alone w p n d) as [[a n1] d1]. destruct Hp as [H1 O1].
  specialize (Hh a n1 d1 H1). destruct (alone w (h a) n1 d1) as [[b n2] d2]. destruct Hh as [H2 O2]. split; [done|by eapply onward_trans].
Qed.
Lemma steady_sql {A} (f : Stmt A) : (∀ n d, at_it d → keeps_on d (f (sr_now w n) d).1) → steady (sql f).
Proof.
  intros Hf n d H. unfold sql. cbn [alone]. specialize (Hf n (worked w n d) H). destruct (f _ _) as [d2 x]. cbn in *.
  destruct Hf as [H2 [O1 O2]]. exact (conj H2 (conj O1 O2)).
Qed.
Lemma steady_read {A} (f : Stmt A) : (∀ now d, (f now d).1 = d) → steady (sql f).
Proof. intros Hf. apply steady_sql. intros n d H. rewrite Hf. by apply keeps_on_refl. Qed.
Lemma steady_pfor {A} (l : list A) body : (∀ x, steady (body x)) → steady (pfor l body).
Proof. intros H. induction l; [apply steady_ret|]. by apply steady_bind. Qed.
Lemma steady_pcollect {A B} (l : list A) (body : A → prog (option B)) : (∀ x, steady (body x)) → steady (pcollect l body).
Proof. intros H. induction l; [apply steady_ret|]. apply steady_bind; [done|]. intros o. apply steady_bind; [done|]. intros. apply steady_ret. Qed.

(** ** Statements *)

Lemma at_it_lock d n : at_it d → lockProcessor repo r (sr_now w n) d = None.
Proof.
  intros (row & L & Hr & Ho & El & HL & _). unfold lockProcessor. simpl. rewrite (proj2 (String.eqb_neq t "") Ht), Z.eqb_refl. simpl.
  rewrite Hr, Ho, String.eqb_refl, El. simpl. by rewrite (proj2 (Z.ltb_lt _ _) (HL n)).
Qed.

Lemma at_it_update_run n d guard set : at_it d →
  (∀ row, rr_owner (set row) = rr_owner row ∧ rr_run (set row) = rr_run row ∧ (rr_lease (set row) = rr_lease row ∨ ∃ L, rr_lease (set row) = Some L ∧ ∀ n, sr_now w n < L) ∨
          rr_owner (set row) = rr_owner row ∧ rr_lease (set row) = rr_lease row ∧ status_of (set row) = status_of row ∧ flag_of (set row) = flag_of row) →
  keeps_on d (update_run r guard set n d).1.
Proof.
  intros (row & L & Hr & Ho & El & HL & Es & Ef) Hset. unfold update_run. rewrite Hr. destruct (guard row); [|apply keeps_on_refl; by exists row, L].
  split; [|by apply onward_items]. destruct (Hset row) as [(E1 & E2 & E3)|(E1 & E2 & E3 & E4)].
  - destruct E3 as [E3|(L' & E3 & HL')]; [exists (set row), L|exists (set row), L']; simpl; rewrite lookup_insert_eq; unfold status_of, flag_of; rewrite E2; split_and!; try done; congruence.
  - exists (set row), L. simpl. rewrite lookup_insert_eq. split_and!; try done; congruence.
Qed.

Lemma at_it_runs d d' : bk_runs d' = bk_runs d → at_it d → at_it d'.
Proof. intros E (row & L & H). exists row, L. by rewrite E. Qed.

Lemma onward_update_item id guard set now d : (∀ i, guard i = true → item_on i (set i)) → onward d (update_item id guard set now d).1.
Proof.
  intros Hset. unfold update_item. destruct (bk_items d !! id) as [i|] eqn:Hi; [|apply onward_refl]. destruct (guard i) eqn:G; [|apply onward_refl]. simpl. split.
  - intros id' i' Hi'. simpl. destruct (decide (id' = id)) as [->|]; [|by exists i'; rewrite lookup_insert_ne]. assert (i' = i) as -> by congruence. exists (set i). rewrite lookup_insert_eq. eauto.
  - intros id'. simpl. destruct (decide (id' = id)) as [->|]; [by rewrite Hi|by rewrite lookup_insert_ne].
Qed.

Lemma steady_claim runID id : steady (ClaimBulkRunItem repo runID id).
Proof.
  apply steady_bind; [apply steady_ask|]. intros now. apply steady_bind.
  - apply steady_sql. intros n d H. split; [eapply at_it_runs; [apply exec_runs, update_item_runs|done]|].
    unfold claim_stmt, execProcessorMutation. destruct (lockProcessor _ _ _ _); [apply onward_refl|]. apply onward_update_item.
    intros i [_ G%bool_decide_eq_true_1]%andb_true_iff. by split_and!; rewrite ?G.
  - intros [k|e]; [|apply steady_ret]. destruct (k =? 0); [apply steady_ret|]. apply steady_bind; [by apply steady_read|]. intros [i|e]; apply steady_ret.
Qed.

Lemma steady_GetRun id : steady (GetRun id).
Proof.
  apply steady_bind; [by apply steady_read|]. intros [[run|]|e]; cbn [with_items]; [|apply steady_ret..]. apply steady_bind; [by apply steady_read|]. intros [l|e]; apply steady_ret.
Qed.

Lemma steady_count id : steady (sql (execProcessorMutation repo id (bulkCountersSQL id))).
Proof.
  apply steady_sql. intros n d H. unfold execProcessorMutation. destruct (lockProcessor repo id _ d) eqn:L; [by apply keeps_on_refl|]. rewrite (lock_other _ _ _ _ _ Ht L).
  apply at_it_update_run; [done|]. intros row. by right.
Qed.

Lemma steady_recalc id : steady (recalculateBulkRunCounters repo id).
Proof.
  apply steady_bind; [|intros; apply steady_ret]. apply steady_bind; [apply steady_count|]. intros [x|e]; [apply steady_GetRun|apply steady_ret].
Qed.

Lemma steady_refresh : steady (refreshBulkRunProcessor r t).
Proof.
  unfold refreshBulkRunProcessor. destruct (String.eqb t ""); [apply steady_ret|]. intros n d H. rewrite alone_bind. unfold ask. cbn [alone].
  apply (steady_sql (RefreshBulkRunProcessorContext r t (sr_answers w n QNow + bulkBackupRunProcessorLeaseTTL))); [|done]. clear d H. intros m d H.
  unfold RefreshBulkRunProcessorContext. set (set := λ row : RunRow, row <| rr_lease := _ |>). set (g := λ row : RunRow, _).
  assert (Hk : keeps_on d (update_run r g set (sr_now w m) d).1).
  { apply at_it_update_run; [done|]. intros row. left. split_and!; [done|done|]. right. eexists. split; [done|]. intros k. by apply fa_lease. }
  destruct (update_run _ _ _ _ _) as [d' [x|e]]; simpl in *; [by destruct (x =? 0)|done].
Qed.

Lemma steady_complete item status reason : bulkRunItemTerminal status = true → steady (complete repo item status reason).
Proof.
  intros Et. apply steady_bind; [|intros; apply steady_ret]. apply steady_bind; [apply steady_ask|]. intros now. apply steady_bind.
  - assert (H : ∀ it, bulkRunItemTerminal (bi_Status it) = true → steady (sql (update_item_stmt repo it))).
    { intros it Eit. apply steady_sql. intros n d H. destruct (update_item_stmt_cases r t it (sr_now w n) d) as [->|(_ & _ & ->)]; [by apply keeps_on_refl|].
      split; [eapply at_it_runs; [apply update_item_runs|done]|]. apply onward_update_item. intros i _. split_and!; [done|done|]. intros _ E. simpl in E. by rewrite E in Eit. }
    unfold UpdateRunItem. destruct (Time_IsZero _); [apply steady_bind; [apply steady_ask|]; intros|]; by apply H.
  - intros [u|e]; [|apply steady_ret]. apply steady_bind; [apply steady_recalc|]. intros. apply steady_ret.
Qed.

Lemma steady_claims items : steady (claimBulkRunBatch repo items).
Proof.
  apply steady_bind; [apply steady_pcollect; intros; apply steady_bind; [apply steady_claim|intros; apply steady_ret]|]. intros claimed.
  apply steady_bind; [|intros; apply steady_ret]. destruct claimed; [apply steady_ret|apply steady_recalc].
Qed.

Lemma steady_then_none {A} (p : prog unit) : steady p → steady (pbind p (λ _, Ret (@None A))).
Proof. intros H. apply steady_bind; [done|]. intros. apply steady_ret. Qed.

Lemma steady_check item : steady (check_item repo item).
Proof.
  apply steady_bind; [apply steady_ask|]. intros [dev|e]; [|by apply steady_then_none, steady_complete].
  destruct (String.eqb _ _); [by apply steady_then_none, steady_complete|]. apply steady_bind; [apply steady_ask|].
  intros [p|e]; [|by apply steady_then_none, steady_complete]. apply steady_bind; [apply steady_ask|]. intros [|]; cbn [negb]; [apply steady_ret|].
  by apply steady_then_none, steady_complete.
Qed.

Lemma steady_reach l : steady (checkBulkBackupReachability l).
Proof.
  induction l as [|b l IH]; cbn [checkBulkBackupReachability]; [apply steady_ret|]. apply steady_bind; [apply steady_ask|]. intros x. apply steady_bind; [done|]. intros. apply steady_ret.
Qed.

Lemma steady_queue c : steady (queue_item repo c).
Proof.
  destruct c as [[item backup] [e|]]; unfold queue_item; [by apply steady_then_none, steady_complete|].
  apply steady_bind; [apply steady_ask|]. intros id. apply steady_bind; [apply steady_ask|]. intros now. cbv zeta. apply steady_bind; [apply steady_ask|]. intros clock.
  apply steady_bind; [|intros [u|e]; [apply steady_ret|by apply steady_then_none, steady_complete]].
  apply steady_sql. intros n d H. set (item' := item <| bi_Status := _ |> <| bi_UpdatedAt := _ |> <| bi_CompletedAt := _ |>). set (job := mkJob _ _ _ _ _).
  destruct (create_job_cases repo item' job clock (sr_now w n) d) as [->|(_ & _ & i & Hi & _ & _ & Es & _ & ->)]; [by apply keeps_on_refl|].
  split; [by eapply at_it_runs|]. split; simpl.
  - intros id' i' Hi'. destruct (decide (id' = bi_ID item)) as [->|]; [|exists i'; rewrite lookup_insert_ne; [by split|done]]. simpl in Hi. simplify_eq.
    eexists. split; [apply lookup_insert_eq|]. split_and!; [done|done|]. intros _. simpl. by rewrite Es.
  - intros id'. change (bi_ID item') with (bi_ID item) in Hi. destruct (decide (id' = bi_ID item)) as [->|]; [by rewrite Hi|by rewrite lookup_insert_ne].
Qed.

Lemma steady_after_claims items n d :
  at_it d → let '(_, _, d') := alone w (prepareBulkRunBatch repo items) n d in
  keeps_on d d' ∧ onward (alone w (claimBulkRunBatch repo items) n d).2 d'.
Proof.
  intros H. unfold prepareBulkRunBatch. rewrite alone_bind. pose proof (steady_claims items n d H) as Hc. destruct (alone w (claimBulkRunBatch repo items) n d) as [[claimed n1] d1]. simpl.
  destruct Hc as [H1 O1].
  assert (Hrest : steady (let* candidates := pcollect claimed (check_item repo) in let* reachability := checkBulkBackupReachability (snd <$> candidates) in
    let* queued := pcollect (zip candidates reachability) (queue_item repo) in
    let* _ := match last queued with Some (_, runID) => if runID =? uuid_Nil then Ret tt else recalculateBulkRunCounters repo runID | None => Ret tt end in Ret (fst <$> queued))).
  { apply steady_bind; [apply steady_pcollect, steady_check|]. intros cands. apply steady_bind; [apply steady_reach|]. intros reach.
    apply steady_bind; [apply steady_pcollect, steady_queue|]. intros queued. apply steady_bind; [|intros; apply steady_ret].
    destruct (last queued) as [[b id]|]; [|apply steady_ret]. destruct (id =? uuid_Nil); [apply steady_ret|apply steady_recalc]. }
  specialize (Hrest n1 d1 H1). destruct (alone w _ n1 d1) as [[x n2] d2]. destruct Hrest as [H2 O2]. split; [|done]. split; [done|by eapply onward_trans].
Qed.

(** ** After the claims nothing of the batch waits to be checked *)

Definition underway (ids : list UUID) (d : BulkDB) : Prop :=
  ∀ id, id ∈ ids → ∃ i, bk_items d !! id = Some i ∧ bi_RunID i = r ∧ bi_Status i ≠ BulkBackupRunItemStatusChecking.
Definition present (ids : list UUID) (d : BulkDB) : Prop := ∀ id, id ∈ ids → ∃ i, bk_items d !! id = Some i ∧ bi_RunID i = r.

Lemma underway_onward ids d d' : onward d d' → underway ids d → underway ids d'.
Proof. intros [H _] Hu id Hid. destruct (Hu id Hid) as (i & Hi & Er & Es). destruct (H id i Hi) as (i' & Hi' & E1 & _ & E3). exists i'. split_and!; [done|congruence|auto]. Qed.
Lemma present_onward ids d d' : onward d d' → present ids d → present ids d'.
Proof. intros [H _] Hu id Hid. destruct (Hu id Hid) as (i & Hi & Er). destruct (H id i Hi) as (i' & Hi' & E1 & _). exists i'. split; [done|congruence]. Qed.

Lemma claim_underway id n d : at_it d → present [id] d → underway [id] (alone w (ClaimBulkRunItem repo r id) n d).2.
Proof.
  intros H Hp. unfold ClaimBulkRunItem. rewrite alone_bind. unfold ask. cbn [alone]. rewrite alone_bind. unfold sql at 1. cbn [alone].
  set (d1 := worked w (S n) d). destruct (Hp id) as (i & Hi & Er); [by left|].
  assert (Hu : underway [id] (claim_stmt repo r id (sr_answers w n QNow) (sr_now w (S n)) d1).1).
  { unfold claim_stmt, execProcessorMutation. rewrite at_it_lock by (by eapply (at_it_runs d)). unfold update_item. change (bk_items d1) with (bk_items d). rewrite Hi.
    rewrite Er, Z.eqb_refl. simpl. intros id' ->%list_elem_of_singleton. case_bool_decide as E; simpl; [rewrite lookup_insert_eq; by eexists|]. by exists i. }
  destruct (claim_stmt _ _ _ _ _ _) as [d2 [k|e]]; cbn [alone fst snd] in *; [|done]. destruct (k =? 0); [done|]. rewrite alone_bind. unfold sql. cbn [alone fst snd].
  destruct (bk_items (worked w (S (S n)) d2) !! id) as [j|]; [destruct (bi_RunID j =? r)|]; cbn [alone snd]; exact Hu.
Qed.

Lemma claims_underway items n d :
  at_it d → Forall (λ i, bi_RunID i = r) items → present (bi_ID <$> items) d → underway (bi_ID <$> items) (alone w (claimBulkRunBatch repo items) n d).2.
Proof.
  intros H Hr Hp. unfold claimBulkRunBatch. rewrite alone_bind.
  set (body := λ item, let* res := ClaimBulkRunItem repo (bi_RunID item) (bi_ID item) in Ret (match res with Ok o => o | Err _ => None end)).
  assert (Hb : ∀ x, steady (body x)) by (intros x; apply steady_bind; [apply steady_claim|intros; apply steady_ret]).
  assert (Hc : underway (bi_ID <$> items) (alone w (pcollect items body) n d).2).
  { revert n d H Hp. induction Hr as [|x items Ex Hr IH]; intros n d H Hp; [by intros id Hid%not_elem_of_nil|]. cbn [pcollect]. rewrite alone_bind.
    pose proof (Hb x n d H) as Hsx. assert (Hx : underway [bi_ID x] (alone w (body x) n d).2).
    { unfold body. rewrite alone_bind, Ex. pose proof (claim_underway (bi_ID x) n d H) as Hu. destruct (alone w (ClaimBulkRunItem _ _ _) n d) as [[a n1] d1]. cbn [alone snd] in *.
      apply Hu. intros id ->%list_elem_of_singleton. apply Hp. by left. }
    destruct (alone w (body x) n d) as [[o n1] d1]. destruct Hsx as [H1 O1]. rewrite alone_bind.
    pose proof (steady_pcollect items body Hb n1 d1 H1) as Hs2. specialize (IH n1 d1 H1). destruct (alone w (pcollect items body) n1 d1) as [[bs n2] d2]. destruct Hs2 as [H2 O2].
    cbn [alone snd] in *. intros id [->|Hid]%elem_of_cons; [eapply underway_onward; [exact O2|exact Hx|by left]|]. apply IH; [|done].
    eapply present_onward; [exact O1|]. intros id' Hid'. apply Hp. by right. }
  pose proof (steady_pcollect items body Hb n d H) as Hs. destruct (alone w (pcollect items body) n d) as [[claimed n1] d1]. destruct Hs as [H1 O1]. rewrite alone_bind.
  assert (Hm : steady (match claimed with i :: _ => recalculateBulkRunCounters repo (bi_RunID i) | [] => Ret tt end)) by (destruct claimed; [apply steady_ret|apply steady_recalc]).
  specialize (Hm n1 d1 H1). destruct (alone w _ n1 d1) as [[u n2] d2]. destruct Hm as [H2 O2]. cbn [alone snd] in *. by eapply underway_onward.
Qed.

(** ** Reads and renewals succeed *)

Lemma refresh_ok n d : at_it d → (alone w (refreshBulkRunProcessor r t) n d).1.1 = Ok tt.
Proof.
  intros (row & L & Hr & Ho & El & HL & _). unfold refreshBulkRunProcessor. rewrite (proj2 (String.eqb_neq t "") Ht), alone_bind. unfold ask, sql. cbn [alone].
  unfold RefreshBulkRunProcessorContext, update_run. change (bk_runs (worked w (S n) d)) with (bk_runs d). rewrite Hr, Ho, String.eqb_refl, El. simpl.
  by rewrite (proj2 (Z.ltb_lt _ _) (HL _)).
Qed.

Lemma refresh_items n d : bk_items (alone w (refreshBulkRunProcessor r t) n d).2 = bk_items d.
Proof.
  unfold refreshBulkRunProcessor. destruct (String.eqb t ""); [done|]. rewrite alone_bind. unfold ask, sql. cbn [alone]. unfold RefreshBulkRunProcessorContext, update_run.
  destruct (bk_runs _ !! r) as [row|]; [|done]. by destruct (_ && _).
Qed.

Definition same_tables (d d' : BulkDB) : Prop := bk_runs d' = bk_runs d ∧ bk_items d' = bk_items d.

Lemma getrun_ok n d : Inv d → at_it d → ∃ run n' d', alone w (GetRun r) n d = (Ok (Some run), n', d') ∧ same_tables d d' ∧
  br_ID run = r ∧ br_Status run = BulkBackupRunStatusRunning ∧ br_CancelRequested run = false ∧ br_Items run = merge_sort item_le (items_of r d).
Proof.
  intros HI (row & L & Hr & Ho & El & HL & Es & Ef). unfold GetRun. rewrite alone_bind. unfold sql at 1. cbn [alone select_run].
  change (bk_runs (worked w n d)) with (bk_runs d). rewrite Hr. cbn [fmap option_fmap option_map with_items]. rewrite (inv_run_id d HI r row Hr), alone_bind. unfold sql. cbn [alone ListRunItems].
  eexists _, _, _. split; [reflexivity|]. unfold status_of, flag_of in *. split; [by split|]. split_and!; [by apply (inv_run_id d HI)|done|done|done].
Qed.

Lemma alone_inv {A} (p : prog A) n d : Inv d → always t p → Inv (alone w p n d).2.
Proof. intros HI Hp. pose proof (alone_safe p _ n d HI (Hp d)) as H. destruct (alone w p n d) as [[a n'] d']. by destruct H. Qed.

Lemma at_it_working d : at_it d → while_held t r (at_work r false []) d.
Proof.
  intros (row & L & Hr & Ho & El & HL & Es & Ef) row' Hr' Ho'. simplify_eq. split; [|done]. split; [|by intros id Hid%not_elem_of_nil]. unfold working. by rewrite Es.
Qed.

(** ** Reconciling ends the batch *)

Definition over (ids : list UUID) (d : BulkDB) : Prop := ∀ id, id ∈ ids → ∃ i, bk_items d !! id = Some i ∧ bi_RunID i = r ∧ bulkRunItemTerminal (bi_Status i) = true.

Lemma reconcile_ends n d ids id i :
  bk_items d !! id = Some i → id ∈ ids → bi_ID i = id → bi_RunID i = r → bi_Status i ≠ BulkBackupRunItemStatusChecking →
  bulkRunItemTerminal (bi_Status (reconcile_item (sr_now w n) (worked w n d) r ids i)) = true.
Proof.
  intros Hi Hid Ei Er Ec. unfold reconcile_item, reconciles, in_batch. rewrite Er, Z.eqb_refl. assert (existsb (Z.eqb (bi_ID i)) ids = true) as ->.
  { apply existsb_exists. exists id. split; [by apply list_elem_of_In|]. rewrite Ei. apply Z.eqb_refl. }
  simpl. destruct (item_in_progress (bi_Status i)) eqn:Ep; [|by destruct (bi_Status i)].
  assert (Hn : ∃ s e, next_item (worked w n d) i = Some (s, e) ∧ bulkRunItemTerminal s = true).
  { unfold next_item. destruct (bi_BackupJobID i) as [j|]; simpl; [|by eexists _, _]. destruct (sr_jobs w n (bk_jobs d) !! j) as [job|] eqn:Hj; [|by eexists _, _].
    destruct (fa_done w Hfav _ _ _ _ Hj) as [E|E]; rewrite E; by eexists _, _. }
  destruct Hn as (s & e & -> & Es). case_bool_decide as E; [by rewrite E|done].
Qed.

Lemma item_ids_nodup (m : gmap UUID BulkBackupRunItem) : (∀ id i, m !! id = Some i → bi_ID i = id) → NoDup (bi_ID <$> values m).
Proof.
  intros H. unfold values. rewrite <- list_fmap_compose. assert (E : (bi_ID ∘ snd) <$> map_to_list m = (map_to_list m).*1).
  { apply list_fmap_ext. intros k [id i] Hp. simpl. apply H, elem_of_map_to_list. by eapply list_elem_of_lookup_2. }
  rewrite E. apply NoDup_fst_map_to_list.
Qed.

Lemma batch_ids d ids : (∀ id i, bk_items d !! id = Some i → bi_ID i = id) → NoDup ids → present ids d →
  bi_ID <$> filter (λ i, in_batch r ids i = true) (values (bk_items d)) ≡ₚ ids.
Proof.
  intros Hids Hnd Hp. apply NoDup_Permutation; [|done|].
  { eapply sublist_NoDup; [by apply item_ids_nodup|]. apply fmap_sublist, sublist_filter. }
  intros id. rewrite list_elem_of_fmap. split.
  - intros (i & -> & [Hb _]%list_elem_of_filter). unfold in_batch in Hb. apply andb_true_iff in Hb as [_ (x & Hx & E%Z.eqb_eq)%existsb_exists]. rewrite E. by apply list_elem_of_In.
  - intros Hid. destruct (Hp id Hid) as (i & Hi & Er). pose proof (Hids id i Hi) as Ei. exists i. split; [done|]. apply list_elem_of_filter. split.
    + unfold in_batch. rewrite Er, Z.eqb_refl. simpl. apply existsb_exists. exists id. split; [by apply list_elem_of_In|]. rewrite Ei. apply Z.eqb_refl.
    + unfold values. apply list_elem_of_fmap. exists (id, i). split; [done|]. by apply elem_of_map_to_list.
Qed.

Lemma recount_items (changed : bool) now d : bk_items (if changed then (bulkCountersSQL r now d).1 else d) = bk_items d.
Proof. destruct changed; [|done]. unfold bulkCountersSQL, update_run. by destruct (bk_runs d !! r). Qed.
Lemma recount_at_it (changed : bool) n d : at_it d → at_it (if changed then (bulkCountersSQL r (sr_now w n) d).1 else d).
Proof. intros H. destruct changed; [|done]. apply (at_it_update_run (sr_now w n)); [done|]. intros row. by right. Qed.

Lemma reconcile_finishes n d ids : Inv d → at_it d → ids ≠ [] → NoDup ids → underway ids d →
  let '(d', res) := ReconcileBulkRunBatchContext repo r ids (sr_now w n) (worked w n d) in res = Ok true ∧ keeps_on d d' ∧ over ids d'.
Proof.
  intros HI H Hne Hnd Hu. unfold ReconcileBulkRunBatchContext. destruct ids as [|id0 ids0]; [done|]. set (ids := id0 :: ids0) in *.
  rewrite at_it_lock by (by eapply (at_it_runs d)). cbv zeta. set (changed := existsb _ _). set (d1 := update_items _ _). set (d2 := if changed then _ else d1).
  assert (Ei : bk_items d2 = reconcile_item (sr_now w n) (worked w n d) r ids <$> bk_items d) by (unfold d2; by rewrite recount_items).
  assert (Hids : ∀ id i, bk_items d2 !! id = Some i → bi_ID i = id).
  { intros id i. rewrite Ei, lookup_fmap. intros (j & Hj & ->)%fmap_Some. rewrite (proj1 (reconcile_item_kept _ _ _ _ _)). by apply (inv_item d HI). }
  assert (Ho : over ids d2).
  { intros id Hid. destruct (Hu id Hid) as (i & Hi & Er & Ec). rewrite Ei, lookup_fmap, Hi. eexists. split; [done|]. split.
    - by rewrite (proj1 (proj2 (reconcile_item_kept _ _ _ _ _))).
    - apply (reconcile_ends n d ids id); try done. by apply (inv_item d HI). }
  assert (Hp : present ids d2) by (intros id Hid; destruct (Ho id Hid) as (i & Hi & Er & _); by exists i).
  pose proof (batch_ids d2 ids Hids Hnd Hp) as Hb. set (batch := filter _ (values (bk_items d2))) in *. pose proof (Permutation_length Hb) as El. rewrite length_fmap in El.
  rewrite El, Z.eqb_refl. cbn [negb]. split_and!; [|split|done].
  - do 2 f_equal. apply Z.eqb_eq. unfold count_status. destruct (filter (λ i, negb (bulkRunItemTerminal (bi_Status i)) = true) batch) as [|i l] eqn:Ef; [done|]. exfalso.
    assert (Hin : i ∈ filter (λ i, negb (bulkRunItemTerminal (bi_Status i)) = true) batch) by (rewrite Ef; by left). apply list_elem_of_filter in Hin as [Tn Hin].
    assert (bi_ID i ∈ ids) as Hid by (rewrite <- Hb; by apply list_elem_of_fmap_2).
    destruct (Ho _ Hid) as (j & Hj & _ & Tj). apply list_elem_of_filter in Hin as [_ Hin]. unfold values in Hin. apply list_elem_of_fmap in Hin as ([id i'] & -> & Hin).
    apply elem_of_map_to_list in Hin. simpl in *. rewrite (Hids _ _ Hin) in Hj. simplify_eq. by rewrite Tj in Tn.
  - apply recount_at_it. by eapply (at_it_runs d).
  - split; rewrite Ei.
    + intros id i Hi. rewrite lookup_fmap, Hi. eexists. split; [done|]. split_and!; [by rewrite (proj1 (proj2 (reconcile_item_kept _ _ _ _ _)))|..]; unfold reconcile_item;
        destruct (reconciles _ r ids i) as [[s e]|] eqn:E; try done; destruct (reconciles_open _ _ _ _ _ E) as [_ ET]; [congruence|].
      intros _. simpl. unfold reconciles in E. destruct (_ && _); [|done]. unfold next_item in E. repeat case_match; simplify_eq; done.
    + intros id. rewrite lookup_fmap. by destruct (bk_items d !! id).
Qed.

(** ** Waiting for a batch *)

Lemma renew_keeps next now n d : Inv d → at_it d →
  let '(res, _, d') := alone w (if now <? next then Ret (Ok next) else let? _u := refreshBulkRunProcessor r t in
      let* now := ask QNow in Ret (Ok (now + bulkBackupRunProcessorLeaseTTL / 3))) n d in
  (∃ x, res = Ok x) ∧ Inv d' ∧ keeps_on d d'.
Proof.
  intros HI H. destruct (now <? next); [cbn [alone]; split_and!; [by eexists|done|by apply keeps_on_refl]|]. rewrite alone_bind.
  pose proof (refresh_ok n d H) as Hok. pose proof (steady_refresh n d H) as Hs. pose proof (alone_safe _ _ n d HI (renew_spec t r Ht nothing t d (λ _ _ _, I))) as Hi.
  destruct (alone w (refreshBulkRunProcessor r t) n d) as [[x n1] d1]. simpl in Hok. subst x. destruct Hi. cbn. split; [by eexists|done].
Qed.

Lemma wait_ok k n next d ids : Inv d → at_it d → ids ≠ [] → NoDup ids → underway ids d →
  let '(res, _, d') := alone w (wait_loop repo (S k) r ids t next) n d in res = Ok tt ∧ keeps_on d d' ∧ over ids d'.
Proof.
  intros HI H Hne Hnd Hu. cbn [wait_loop]. rewrite alone_bind. unfold ask at 1. cbn [alone]. rewrite (fa_tick w Hfav), alone_bind. unfold ask at 1. cbn [alone]. rewrite alone_bind.
  pose proof (renew_keeps next (sr_answers w (S n) QNow) (S (S n)) d HI H) as Hr. destruct (alone w _ (S (S n)) d) as [[res n1] d1]. destruct Hr as ([next' ->] & HI1 & H1 & O1).
  rewrite alone_bind. unfold sql. cbn [alone]. pose proof (reconcile_finishes n1 d1 ids HI1 H1 Hne Hnd (underway_onward _ _ _ O1 Hu)) as Hrec.
  destruct (ReconcileBulkRunBatchContext _ _ _ _ _) as [d2 res]. destruct Hrec as (-> & [H2 O2] & Ho). cbn [alone].
  split_and!; [done|split; [done|by eapply onward_trans]|done].
Qed.

Lemma wait_finishes batch n d : Inv d → at_it d → batch ≠ [] → NoDup (bi_ID <$> batch) → underway (bi_ID <$> batch) d →
  let '(res, _, d') := alone w (waitForBulkRunBatch repo r batch t) n d in res = Ok tt ∧ Inv d' ∧ keeps_on d d' ∧ over (bi_ID <$> batch) d'.
Proof.
  intros HI H Hne Hnd Hu. unfold waitForBulkRunBatch. rewrite alone_bind. unfold ask. cbn [alone].
  assert (Hb : ∃ k, batch_ticks batch = S k).
  { unfold batch_ticks, batch_deadline, defaultBulkBackupWorkerCount. exists (pred (batch_ticks batch)). unfold batch_ticks, batch_deadline, defaultBulkBackupWorkerCount.
    set (q := _ / 4). assert (0 <= q) by (apply Z.div_pos; lia). assert (1 <= (q * (5 * Minute) + Minute) / (500 * Millisecond)) by (apply Z.div_le_lower_bound; unfold Minute, Second, Millisecond; lia). lia. }
  destruct Hb as [k ->]. set (next := sr_answers w n QNow).
  pose proof (alone_safe _ _ (S n) d HI (wait_spec t r Ht (S k) (bi_ID <$> batch) t next d (while_held_mono _ _ _ working _ (λ row Hw, proj1 (proj1 Hw)) (at_it_working d H)))) as HI'.
  pose proof (wait_ok k (S n) next d (bi_ID <$> batch) HI H) as Hw. destruct (alone w (wait_loop _ _ _ _ _ _) (S n) d) as [[res n'] d'].
  destruct HI' as [HI' _]. destruct Hw as (-> & Hk & Ho); [by destruct batch|done|done|]. done.
Qed.

(** ** Rounds get through the items *)

Definition unfinished (d : BulkDB) : gset UUID := dom (filter (λ p, bi_RunID p.2 = r ∧ bulkRunItemTerminal (bi_Status p.2) = false) (bk_items d)).

Lemma elem_of_unfinished d id : id ∈ unfinished d ↔ ∃ i, bk_items d !! id = Some i ∧ bi_RunID i = r ∧ bulkRunItemTerminal (bi_Status i) = false.
Proof.
  unfold unfinished. rewrite elem_of_dom. split.
  - intros [i [Hi E]%map_lookup_filter_Some]. by exists i.
  - intros (i & Hi & E). exists i. by apply map_lookup_filter_Some.
Qed.

Lemma round_shrinks d d' ids : onward d d' → over ids d' → (∀ id, id ∈ ids → id ∈ unfinished d) → ids ≠ [] → (size (unfinished d') < size (unfinished d))%nat.
Proof.
  intros [O1 O2] Ho Hin Hne. apply subset_size. split.
  - intros id (i' & Hi' & Er & Et)%elem_of_unfinished. destruct (O2 id) as [i Hi]; [by rewrite Hi'|]. destruct (O1 id i Hi) as (i2 & Hi2 & E1 & T1 & _). simplify_eq.
    apply elem_of_unfinished. exists i. split; [done|]. split; [congruence|]. destruct (bulkRunItemTerminal (bi_Status i)); [|done]. by rewrite T1 in Et.
  - intros Hsub. destruct ids as [|id ids]; [done|]. pose proof (Hsub id (Hin id ltac:(by left))) as (i & Hi & _ & Et)%elem_of_unfinished.
    destruct (Ho id) as (i2 & Hi2 & _ & Et2); [by left|]. congruence.
Qed.

(** ** Finishing *)

Definition finished (d : BulkDB) : Prop := ∃ row, bk_runs d !! r = Some row ∧ rr_owner row = t ∧ bulkRunTerminal (status_of row) = true ∧ flag_of row = false.

Lemma count_ok n d : at_it d → ∃ d' k, alone w (sql (execProcessorMutation repo r (bulkCountersSQL r))) n d = (Ok k, S n, d').
Proof.
  intros H. unfold sql. cbn [alone]. unfold execProcessorMutation. rewrite at_it_lock by (by eapply (at_it_runs d)). unfold bulkCountersSQL, update_run.
  destruct (bk_runs _ !! r) as [row|]; by eexists _, _.
Qed.

Lemma finish_ok n d : Inv d → at_it d → finished (alone w (finishBulkBackupRun repo r) n d).2.
Proof.
  intros HI H. unfold finishBulkBackupRun. rewrite alone_bind. unfold RecalculateRunCounters. rewrite alone_bind.
  destruct (count_ok n d H) as (d1 & k & E1). pose proof (steady_count r n d H) as Hs.
  assert (HI1 : Inv d1). { pose proof (alone_inv (sql (execProcessorMutation repo r (bulkCountersSQL r))) n d HI) as Hi. rewrite E1 in Hi. apply Hi.
    apply always_sql. intros. apply step_scoped; [done|]. intros _. by apply step_count. }
  rewrite E1 in Hs |- *. destruct Hs as [H1 _]. destruct (getrun_ok (S n) d1 HI1 H1) as (run & n2 & d2 & -> & [E2 _] & _). rewrite alone_bind. unfold ask. cbn [alone].
  rewrite alone_bind. unfold sql. cbn [alone].
  assert (H2 : at_it (worked w (S n2) d2)) by (by eapply (at_it_runs d1)). unfold FinishBulkRun, execProcessorMutation. rewrite at_it_lock by done.
  destruct H2 as (row & L & Hr & Ho & El & HL & Es & Ef). unfold update_run. rewrite Hr. unfold status_of in Es. rewrite Es. cbn. eexists. split; [apply lookup_insert_eq|].
  split_and!; [done|apply final_status_terminal|done].
Qed.

(** ** The loop *)

Lemma steady_workers queued : steady (startBulkBackupWorkers queued).
Proof. apply steady_pfor. intros. apply steady_go. Qed.
Lemma workers_same queued n d : (alone w (startBulkBackupWorkers queued) n d).2 = d.
Proof. revert n. induction queued as [|b queued IH]; intros n; [done|]. unfold startBulkBackupWorkers. cbn [pfor]. rewrite alone_bind. unfold go. cbn [alone]. apply IH. Qed.

Lemma batch_unfinished d batch size : Inv d → batch = nextBulkRunBatch (merge_sort item_le (items_of r d)) size →
  ∀ id, id ∈ bi_ID <$> batch → id ∈ unfinished d.
Proof.
  intros HI -> id (i & -> & Hi)%list_elem_of_fmap. unfold nextBulkRunBatch in Hi. eapply elem_of_sublist in Hi; [|apply sublist_take]. apply list_elem_of_filter in Hi as [Et Hi].
  rewrite (merge_sort_Permutation item_le) in Hi. apply (elem_of_items_of r d i HI) in Hi as [Hi Er]. apply elem_of_unfinished. by exists i.
Qed.

(** One round over a batch: it is over, and the run goes on. *)
Lemma round_ok batch n d : Inv d → at_it d → batch ≠ [] → items_ok r batch → (∀ id, id ∈ bi_ID <$> batch → id ∈ unfinished d) →
  let '(res, _, d') := alone w (let* queued := prepareBulkRunBatch repo batch in let* _ := startBulkBackupWorkers queued in waitForBulkRunBatch repo r batch t) n d in
  res = Ok tt ∧ Inv d' ∧ at_it d' ∧ (size (unfinished d') < size (unfinished d))%nat.
Proof.
  intros HI H Hne Hok Hin. rewrite alone_bind. pose proof (alone_safe _ _ n d HI (prepare_spec t r Ht batch d Hok (at_it_working d H))) as HI1.
  assert (Hp : present (bi_ID <$> batch) d) by (intros id Hid; destruct (proj1 (elem_of_unfinished d id) (Hin id Hid)) as (i & Hi & Er & _); by exists i).
  pose proof (claims_underway batch n d H (proj2 Hok) Hp) as Hu. pose proof (steady_after_claims batch n d H) as Hs.
  destruct (alone w (prepareBulkRunBatch repo batch) n d) as [[queued n1] d1]. destruct HI1 as [HI1 _]. destruct Hs as [[H1 O1] Oc].
  rewrite alone_bind. pose proof (workers_same queued n1 d1) as E. destruct (alone w (startBulkBackupWorkers queued) n1 d1) as [[u n2] d2]. simpl in E. subst d2.
  pose proof (wait_finishes batch n2 d1 HI1 H1 Hne (proj1 Hok) (underway_onward _ _ _ Oc Hu)) as Hw. destruct (alone w (waitForBulkRunBatch repo r batch t) n2 d1) as [[res n3] d3].
  destruct Hw as (-> & HI3 & [H3 O3] & Ho). split_and!; [done|done|done|]. eapply (round_shrinks d d3 (bi_ID <$> batch)); [by eapply onward_trans|done|done|by destruct batch].
Qed.

Lemma process_completes fuel n d : Inv d → at_it d → (size (unfinished d) < fuel)%nat →
  let '(ended, _, d') := alone w (processAcquiredBulkRun repo fuel r t) n d in ended = true ∧ finished d'.
Proof.
  revert n d. induction fuel as [|fuel IH]; intros n d HI H Hf; [lia|]. cbn [processAcquiredBulkRun]. rewrite alone_bind.
  pose proof (refresh_ok n d H) as Hr. pose proof (steady_refresh n d H) as Hs. pose proof (alone_safe _ _ n d HI (renew_spec t r Ht nothing t d (λ _ _ _, I))) as HI1.
  pose proof (refresh_items n d) as Ei. destruct (alone w (refreshBulkRunProcessor r t) n d) as [[x n1] d1]. simpl in Hr, Ei. subst x. destruct HI1 as [HI1 _]. destruct Hs as [H1 _]. rewrite alone_bind.
  destruct (getrun_ok n1 d1 HI1 H1) as (run & n2 & d2 & Eg & [E2 E2'] & Eid & Es & Ec & El). pose proof (alone_inv (GetRun r) n1 d1 HI1 (always_GetRun t r)) as HI2.
  rewrite Eg in HI2 |- *. simpl in HI2. rewrite Es, Ec, Eid. cbn [bulkRunTerminal]. rewrite !bool_decide_eq_false_2 by done.
  assert (H2 : at_it d2) by (by eapply at_it_runs). assert (Eu : unfinished d2 = unfinished d) by (unfold unfinished; congruence).
  assert (El2 : items_of r d1 = items_of r d2) by (unfold items_of; congruence). rewrite El, El2. destruct (listed_ok r d2 HI2) as [Hok _].
  destruct (nextBulkRunBatch (merge_sort item_le (items_of r d2)) (br_BatchSize run)) as [|i items] eqn:En.
  - rewrite alone_bind. pose proof (finish_ok n2 d2 HI2 H2) as Hfin. by destruct (alone w (finishBulkBackupRun repo r) n2 d2) as [[u n3] d3].
  - assert (Hokb : items_ok r (i :: items)) by (rewrite <- En; by apply next_batch_ok).
    pose proof (round_ok (i :: items) n2 d2 HI2 H2 ltac:(done) Hokb (batch_unfinished d2 _ _ HI2 (eq_sym En))) as Hround. rewrite alone_bind in Hround. rewrite alone_bind.
    destruct (alone w (prepareBulkRunBatch repo (i :: items)) n2 d2) as [[queued n3] d3]. rewrite alone_bind in Hround. rewrite alone_bind.
    destruct (alone w (startBulkBackupWorkers queued) n3 d3) as [[u n4] d4]. rewrite alone_bind.
    destruct (alone w (waitForBulkRunBatch repo r (i :: items) t) n4 d4) as [[res n5] d5]. destruct Hround as (-> & HI5 & H5 & Hlt).
    apply IH; [done|done|]. rewrite Eu in Hlt. lia.
Qed.
End live.

(** ** The processor *)

Lemma acquire_ok w t r n d row : favourable w → bk_runs d !! r = Some row → status_of row = BulkBackupRunStatusRunning → flag_of row = false → rr_owner row = ""%string →
  ∃ d' n', alone w (let* now := ask QNow in sql (TryAcquireBulkRunProcessor r t (now + bulkBackupRunProcessorLeaseTTL))) n d = (Ok 1, n', d') ∧ at_it w t r d' ∧ bk_items d' = bk_items d.
Proof.
  intros Hfav Hr Es Ef Eo. rewrite alone_bind. unfold ask, sql. cbn [alone]. unfold TryAcquireBulkRunProcessor, update_run. change (bk_runs (worked w (S n) d)) with (bk_runs d).
  rewrite Hr. unfold status_of in Es. rewrite Es, Eo. cbn. eexists _, _. split; [done|]. split; [|done]. eexists _, _. cbn. split; [apply lookup_insert_eq|].
  split_and!; [done|done| |done|done]. intros k. by apply fa_lease.
Qed.

Lemma release_ok w t r n d : t ≠ ""%string → finished t r d → ∃ row n' d' k, alone w (sql (ReleaseBulkRunProcessor r t)) n d = (Ok k, n', d') ∧
  bk_runs d' !! r = Some row ∧ rr_owner row = ""%string ∧ bulkRunTerminal (status_of row) = true ∧ flag_of row = false.
Proof.
  intros Ht (row & Hr & Ho & Et & Ef). unfold sql. cbn [alone]. unfold ReleaseBulkRunProcessor, update_run. change (bk_runs (worked w n d)) with (bk_runs d). rewrite Hr, Ho, String.eqb_refl.
  eexists _, _, _, _. split; [done|]. cbn. split; [apply lookup_insert_eq|]. done.
Qed.

