(* ===== verification/BulkDemo.v ===== *)
(** * Bulk backup runs: executions

    Concrete interleavings: a run over two devices that completes, the witnesses of the theorems,
    and races that leave a run without a processor. *)

From S2P Require Import Prelude GoLib Domain BulkData BulkRepo BulkService BulkJobs BulkLogic BulkTheorems BulkLive.

(** ** Driving goroutines *)

Definition demo_device (id : UUID) : BackupDevice :=
  {| bd_device := {| dev_ID := id; dev_Hostname := ""; dev_SysName := "sw"; dev_IP := "10.0.0.1";
       dev_SNMPCredentials := dev_SNMPCredentials zeroDevice; dev_DeviceType := "switch"; dev_PollClass := ""; dev_PollIntervalOverride := None;
       dev_PollingEnabled := None; dev_Status := "up"; dev_Managed := true; dev_Interfaces := []; dev_Addresses := []; dev_ProbePorts := [];
       dev_AreaIDs := []; dev_MetricsSource := ""; dev_TopologyDiscoveryMode := ""; dev_TopologyBootstrapState := "" |};
     bd_tags := ∅; bd_vendor := "mikrotik" |}.

(** At step [n] the clock and the next identifier are [n]; everything else succeeds. *)
Definition demo_answers (n : Z) (q : question) : reply q :=
  match q return reply q with
  | QNow | QUUID => n
  | QContext | QTick | QReachable _ _ | QSlot | QDeviceLock _ | QDeletable _ => None
  | QDevices => Ok [demo_device 1; demo_device 2]
  | QDevice id => Ok (demo_device id)
  | QProfile _ => Ok {| cp_Port := 22 |}
  | QSupported _ => true
  | QTotals _ => Ok ∅
  | QExports _ => Ok ""%string
  end.

Definition demo_step (o : outcome) (i : nat) (n : Z) : choice := CStep i n o (demo_answers n) (String.append "processor-" (Itoa n)) 5.

(** Goroutine [i] takes at most [k] steps, from step [n] on. *)
Fixpoint drive (k i : nat) (n : Z) (s : sys) : sys :=
  match k with
  | O => s
  | S k => match exec (demo_step Done i n) s with Some s' => drive k i (n + 1) s' | None => s end
  end.

Lemma drive_reachable k i n s : reachable s → reachable (drive k i n s).
Proof.
  revert n s. induction k as [|k IH]; intros n s H; cbn [drive]; [done|]. destruct (exec (demo_step Done i n) s) as [s'|] eqn:E; [|done]. apply IH. eapply rtc_r; [exact H|]. by eexists.
Qed.

Definition ask_for (r : request) (s : sys) : sys := default s (exec (CRequest r) s).
Lemma ask_for_reachable r s : reachable s → reachable (ask_for r s).
Proof. intros H. eapply rtc_r; [exact H|]. by exists (CRequest r). Qed.

Definition dies (i : nat) (s : sys) : sys := default s (exec (CDie i) s).
Lemma dies_reachable i s : reachable s → reachable (dies i s).
Proof. intros H. eapply rtc_r; [exact H|]. by exists (CDie i). Qed.

Definition fails (i : nat) (n : Z) (s : sys) : sys := default s (exec (demo_step Fault i n) s).
Lemma fails_reachable i n s : reachable s → reachable (fails i n s).
Proof. intros H. unfold fails. destruct (exec (demo_step Fault i n) s) as [s'|] eqn:E; [|done]. eapply rtc_r; [exact H|]. by eexists. Qed.

(** A state is reachable by the way it is built. *)
Ltac driven :=
  match goal with
  | |- reachable (drive ?k ?i ?n ?s) => apply (drive_reachable k i n s); driven
  | |- reachable (ask_for ?r ?s) => apply (ask_for_reachable r s); driven
  | |- reachable (dies ?i ?s) => apply (dies_reachable i s); driven
  | |- reachable (fails ?i ?n ?s) => apply (fails_reachable i n s); driven
  | |- reachable sys0 => exact (rtc_refl step sys0)
  | |- reachable ?s => unfold s; driven
  end.

(** What the tables show of a run: its status, the cancellation mark, the owner of its lease, and the statuses of its items. *)
Definition shown (r : UUID) (s : sys) : option (BulkBackupRunStatus * bool * string) * list BulkBackupRunItemStatus :=
  ((λ row, (status_of row, flag_of row, rr_owner row)) <$> bk_runs (sy_db s) !! r, bi_Status <$> merge_sort item_le (items_of r (sy_db s))).

(** A goroutine that has ended. *)
Definition ended (i : nat) (s : sys) : bool := match sy_threads s !! i with Some (_, Ret _) => true | _ => false end.
Definition all_ended (s : sys) : bool := forallb (λ th : thread, match th.2 with Ret _ => true | _ => false end) (sy_threads s).

Definition demo0 : sys := ask_for (RStart (λ n, 900 + Z.of_nat n) [] "ops") sys0.
Definition demo_started : sys := drive 60 0 1 demo0.

Lemma demo_started_reachable : reachable demo_started.
Proof. driven. Qed.

(** ** A run over two devices *)

(** The processor queues both, two workers back them up, the processor finishes the run. *)
Definition demo_queued : sys := drive 40 1 100 demo_started.
Definition demo_backed : sys := drive 20 3 300 (drive 20 2 200 demo_queued).
Definition demo_done : sys := drive 100 1 400 demo_backed.

Lemma demo_done_reachable : reachable demo_done.
Proof. driven. Qed.

Example demo_done_shown : shown 5 demo_done = (Some (BulkBackupRunStatusSuccess, false, ""%string), [BulkBackupRunItemStatusSuccess; BulkBackupRunItemStatusSuccess]) ∧ all_ended demo_done = true.
Proof. vm_compute. by split. Qed.

(** ** Races *)

(** A pause is requested, and the processor has read it twice. *)
Definition pausing : sys := drive 20 2 100 (ask_for (RPause 5) demo_started).
Definition pause_read : sys := drive 8 1 120 pausing.

(** A cancellation between that read and the write of the pause: the run is paused and marked as cancelled, and nobody works on it. *)
Definition lost_cancel : sys := drive 30 1 200 (drive 30 3 150 (ask_for (RCancel 5) pause_read)).
Example lost_cancel_shown : shown 5 lost_cancel = (Some (BulkBackupRunStatusPaused, true, ""%string), [BulkBackupRunItemStatusChecking; BulkBackupRunItemStatusChecking]) ∧ all_ended lost_cancel = true.
Proof. vm_compute. by split. Qed.

(** A resumption there is overwritten. *)
Definition lost_resume : sys := drive 30 1 200 (drive 30 3 150 (ask_for (RResume 5) pause_read)).
Example lost_resume_shown : (shown 5 lost_resume).1 = Some (BulkBackupRunStatusPaused, false, ""%string) ∧ all_ended lost_resume = true.
Proof. vm_compute. by split. Qed.

(** A resumption between the write of the pause and the release: its processor finds the lease taken. *)
Definition late_resume : sys := drive 30 1 300 (drive 30 4 200 (drive 30 3 150 (ask_for (RResume 5) (drive 9 1 120 pausing)))).
Example late_resume_shown : (shown 5 late_resume).1 = Some (BulkBackupRunStatusRunning, false, ""%string) ∧ all_ended late_resume = true.
Proof. vm_compute. by split. Qed.

(** A restart within the lease of the processor that died: the run is running, and nobody works on it. *)
Definition restarted : sys := drive 30 1 150 (drive 30 0 120 (ask_for RStartup (dies 0 (dies 0 (drive 10 1 100 demo_started))))).
Example restarted_shown : (shown 5 restarted).1 = Some (BulkBackupRunStatusRunning, false, "processor-12"%string) ∧ all_ended restarted = true.
Proof. vm_compute. by split. Qed.

(** A cancellation during which one write fails: the run is finished with an item still to be checked. *)
Definition cancel_fault : sys := drive 60 1 200 (fails 1 150 (drive 7 1 100 (drive 30 2 60 (ask_for (RCancel 5) demo_started)))).
Example cancel_fault_shown : shown 5 cancel_fault = (Some (BulkBackupRunStatusCancelled, true, ""%string), [BulkBackupRunItemStatusChecking; BulkBackupRunItemStatusCancelled]) ∧ all_ended cancel_fault = true.
Proof. vm_compute. by split. Qed.

Lemma demo_races_reachable : Forall reachable [lost_cancel; lost_resume; late_resume; restarted; cancel_fault].
Proof. repeat (apply Forall_cons_2; [driven|]). apply Forall_nil_2. Qed.

(** ** Witnesses *)

Definition demo_row (s : sys) : RunRow := default (mkRow (newRun 0 "" 0) "" None) (bk_runs (sy_db s) !! 5).

Lemma bulk_tables_consistent_witness : Inv (sy_db demo_done).
Proof. apply bulk_tables_consistent. exact demo_done_reachable. Defined.

Lemma finished_run_truthful_witness :
  truthful BulkBackupRunStatusSuccess (items_of 5 (sy_db demo_done)) ∧ all_terminal (items_of 5 (sy_db demo_done)).
Proof.
  destruct (finished_run_truthful demo_done 5 (demo_row demo_done)) as [H1 H2]; [exact demo_done_reachable|vm_compute; reflexivity|vm_compute; reflexivity|].
  split; [|apply H2; vm_compute; reflexivity]. assert (E : status_of (demo_row demo_done) = BulkBackupRunStatusSuccess) by (vm_compute; reflexivity). rewrite E in H1. exact H1.
Defined.

(** The claim of the first item, and the state after it. *)
Definition demo_claiming : sys := drive 7 1 100 demo_started.
Definition demo_claimed : sys := default demo_claiming (exec (demo_step Done 1 107) demo_claiming).

Lemma demo_claim : exec (demo_step Done 1 107) demo_claiming = Some demo_claimed.
Proof.
  assert (H : (match exec (demo_step Done 1 107) demo_claiming with Some _ => true | None => false end) = true) by (vm_compute; reflexivity).
  unfold demo_claimed. revert H. destruct (exec (demo_step Done 1 107) demo_claiming) as [s|]; [reflexivity|discriminate].
Qed.

Lemma bulk_outcomes_final_witness : Final (sy_db demo_claiming) (sy_db demo_claimed).
Proof. apply bulk_outcomes_final; [apply (drive_reachable 7 1 100), demo_started_reachable|]. exists (demo_step Done 1 107). exact demo_claim. Defined.

Definition demo_thread (s : sys) : string * prog unit := default (""%string, Ret tt) (sy_threads s !! 1%nat).
Definition demo_item (s : sys) (id : UUID) : BulkBackupRunItem := default (newItem 0 0 0 (demo_device 0)) (bk_items (sy_db s) !! id).

Lemma demo_worker : sy_threads demo_claiming !! 1%nat = Some ((demo_thread demo_claiming).1, (demo_thread demo_claiming).2).
Proof.
  assert (H : (match sy_threads demo_claiming !! 1%nat with Some _ => true | None => false end) = true) by (vm_compute; reflexivity).
  unfold demo_thread. revert H. destruct (sy_threads demo_claiming !! 1%nat) as [[t p]|]; [reflexivity|discriminate].
Qed.

Lemma lease_fences_witness :
  in_force (demo_thread demo_claiming).1 107 (sy_db demo_claiming) 5 ∧ bi_Status (demo_item demo_claimed 6) = BulkBackupRunItemStatusActive.
Proof.
  split; [|vm_compute; reflexivity].
  destruct (lease_fences demo_claiming 1 107 Done (demo_answers 107) (String.append "processor-" (Itoa 107)) 5 demo_claimed (demo_thread demo_claiming).1 (demo_thread demo_claiming).2) as [H _];
    [apply (drive_reachable 7 1 100), demo_started_reachable|exact demo_claim|exact demo_worker|].
  assert (E : bi_RunID (demo_item demo_claiming 6) = 5) by (vm_compute; reflexivity). rewrite <- E.
  apply (H 6 (demo_item demo_claiming 6) (demo_item demo_claimed 6)); [vm_compute; reflexivity..|]. intros [E'|E']; apply (f_equal bi_Status) in E'; vm_compute in E'; discriminate E'.
Defined.

(** Workers that back everything up, and a processor nothing disturbs. *)
Definition demo_surroundings : surroundings :=
  {| sr_now := λ _, 0; sr_answers := λ n, demo_answers (Z.of_nat n); sr_jobs := λ _ jobs, (λ j, j <| bj_Status := BackupStatusSuccess |>) <$> jobs |}.
Lemma demo_favourable : favourable demo_surroundings.
Proof.
  split; simpl.
  - intros m n. unfold bulkBackupRunProcessorLeaseTTL, Minute, Second. lia.
  - done.
  - intros n jobs j job Hj. eexists. by rewrite lookup_fmap, Hj.
  - intros n jobs j job H. rewrite lookup_fmap. intros (x & Hx & ->)%fmap_Some. by apply (H j x).
  - intros n jobs j job. rewrite lookup_fmap. intros (x & Hx & ->)%fmap_Some. by left.
Qed.


Example demo_completes : let '(_, _, d') := alone demo_surroundings (processBulkBackupRun 3 "p" 5 false) 0 (sy_db demo_started) in (status_of <$> bk_runs d' !! 5) = Some BulkBackupRunStatusSuccess.
Proof. vm_compute. reflexivity. Qed.
