(* ===== verification/CanvasMap.v ===== *)
(** * Saved canvas maps

    [internal/domain/canvas_map.go] and the pure part of [internal/service/canvasmap]
    ([projection.go], [add_device_plan.go], [visual.go], [area.go]): what a filter selects of the
    topology, the membership a saved map keeps of it, and what a membership shows. *)

From S2P Require Import Prelude GoLib GoText Domain Addresses Runtime.

(** ** Data *)

(** [CanvasMapFilter]; [Tags] and [DeviceIDs] are empty where the code may have [nil]. *)
Record CanvasMapFilter := mkFilter {
  mf_AreaID : option UUID;
  mf_DeviceIDs : list UUID;
  mf_IncludeCrossAreaLinks : bool;
  mf_IncludeGhostDevices : bool;
  mf_Tags : gmap string string }.
#[export] Instance upd_mf_AreaID : Update mf_AreaID := λ v r, mkFilter v (mf_DeviceIDs r) (mf_IncludeCrossAreaLinks r) (mf_IncludeGhostDevices r) (mf_Tags r).

Inductive CanvasMapDeviceRole := CanvasMapDeviceRoleBase | CanvasMapDeviceRoleGhost.
#[export] Instance CanvasMapDeviceRole_eq_dec : EqDecision CanvasMapDeviceRole. Proof. solve_decision. Defined.

Record CanvasMapDeviceMembership := mkMember {
  mm_DeviceID : UUID;
  mm_Role : CanvasMapDeviceRole;
  mm_AreaIDs : list UUID;
  mm_VisualColor : option string }.
#[export] Instance upd_mm_DeviceID : Update mm_DeviceID := λ v r, mkMember v (mm_Role r) (mm_AreaIDs r) (mm_VisualColor r).

Record CanvasMapAreaMembership := mkArea { ma_AreaID : UUID; ma_Name : string; ma_Description : string; ma_Color : string }.
#[export] Instance CanvasMapAreaMembership_eq_dec : EqDecision CanvasMapAreaMembership. Proof. solve_decision. Defined.

Record CanvasMapMembership := mkMembership {
  ms_Devices : list CanvasMapDeviceMembership;
  ms_LinkIDs : list UUID;
  ms_Areas : list CanvasMapAreaMembership }.
#[export] Instance upd_ms_LinkIDs : Update ms_LinkIDs := λ v r, mkMembership (ms_Devices r) v (ms_Areas r).

(** The fields of a saved map its readers use; [cm_FilterJSON] is the stored text. *)
Record CanvasMap := mkCanvasMap {
  cm_ID : UUID; cm_Name : string; cm_Description : string; cm_SourceAreaID : option UUID; cm_FilterJSON : string;
  cm_IsDefault : bool; cm_MembershipMaterialized : bool; cm_DeviceCount : Z; cm_LinkCount : Z; cm_PositionCount : Z; cm_CreatedAt : Time; cm_UpdatedAt : Time }.

Record DevicePosition := mkPosition { dp_DeviceID : UUID; dp_X : float64; dp_Y : float64; dp_Pinned : bool; dp_UpdatedAt : Time }.
#[export] Instance upd_dp_DeviceID : Update dp_DeviceID := λ v r, mkPosition v (dp_X r) (dp_Y r) (dp_Pinned r) (dp_UpdatedAt r).

(** [domain.Area] and [AreaWithCount] *)
Record Area := { ar_ID : UUID; ar_Name : string; ar_Description : string; ar_Color : string }.
Record AreaWithCount := { ac_Area : Area; ac_DeviceCount : Z }.

(** A device with its tags, the one field of [domain.Device] only this package reads. *)
Record MapDevice := mkMapDevice { md_device : Device; md_Tags : gmap string string }.
Definition md_ID (d : MapDevice) : UUID := dev_ID (md_device d).
Definition md_AreaIDs (d : MapDevice) : list UUID := dev_AreaIDs (md_device d).

(** [device.AreaIDs = ids] *)
Definition with_AreaIDs (ids : list UUID) (m : MapDevice) : MapDevice :=
  let d := md_device m in
  mkMapDevice {| dev_ID := dev_ID d; dev_Hostname := dev_Hostname d; dev_SysName := dev_SysName d; dev_IP := dev_IP d;
     dev_SNMPCredentials := dev_SNMPCredentials d; dev_DeviceType := dev_DeviceType d;
     dev_PollClass := dev_PollClass d; dev_PollIntervalOverride := dev_PollIntervalOverride d;
     dev_PollingEnabled := dev_PollingEnabled d; dev_Status := dev_Status d; dev_Managed := dev_Managed d;
     dev_Interfaces := dev_Interfaces d; dev_Addresses := dev_Addresses d; dev_ProbePorts := dev_ProbePorts d;
     dev_AreaIDs := ids; dev_MetricsSource := dev_MetricsSource d;
     dev_TopologyDiscoveryMode := dev_TopologyDiscoveryMode d;
     dev_TopologyBootstrapState := dev_TopologyBootstrapState d |} (md_Tags m).

Record TopologyProjection := { tp_Devices : list MapDevice; tp_Links : list Link; tp_GhostDevices : list MapDevice }.

Record TopologyResponsePlan := mkPlan {
  rp_Devices : list MapDevice; rp_Links : list Link; rp_Positions : list DevicePosition; rp_Areas : list AreaWithCount;
  rp_VisualColors : gmap UUID string; rp_DeviceCount : Z; rp_LinkCount : Z; rp_PositionCount : Z }.

Record CreatePlan := {
  pc_Filter : CanvasMapFilter; pc_PersistedSourceAreaID : option UUID; pc_SourceMapID : option UUID; pc_CreateEmptyMembership : bool }.

(** ** Filters *)

Definition MaterializationFilter (mf : CanvasMapFilter) (sourceAreaID : option UUID) : CanvasMapFilter :=
  match mf_AreaID mf, sourceAreaID with
  | None, Some a => mf <| mf_AreaID := Some a |>
  | _, _ => mf
  end.

Definition emptyFilter : CanvasMapFilter := mkFilter None [] false false ∅.

(** [ParseCanvasMapFilter]; [json_filter] is the decoder of [encoding/json] with the defaults for absent collections. *)
Definition ParseCanvasMapFilter (json_filter : string → option CanvasMapFilter) (raw : string) : option CanvasMapFilter :=
  if String.eqb (TrimSpace raw) "" then Some emptyFilter else json_filter raw.

Definition ProjectionFilterForMap (json_filter : string → option CanvasMapFilter) (canvasMap : CanvasMap) : CanvasMapFilter :=
  let mf := match ParseCanvasMapFilter json_filter (cm_FilterJSON canvasMap) with Some f => f | None => emptyFilter end in
  MaterializationFilter mf (cm_SourceAreaID canvasMap).

Definition ShouldCreateEmptyMembership (mf : CanvasMapFilter) (sourceAreaID : option UUID) : bool :=
  bool_decide (sourceAreaID = None) && bool_decide (mf_AreaID mf = None) &&
  bool_decide (mf_DeviceIDs mf = []) && bool_decide (mf_Tags mf = ∅).

Definition PlanCreate (mf : CanvasMapFilter) (sourceAreaID sourceMapID : option UUID) : CreatePlan :=
  {| pc_Filter := MaterializationFilter mf sourceAreaID;
     pc_PersistedSourceAreaID := match sourceMapID with Some _ => None | None => sourceAreaID end;
     pc_SourceMapID := sourceMapID;
     pc_CreateEmptyMembership := ShouldCreateEmptyMembership mf sourceAreaID |}.

Definition ErrDefaultMapDelete : string := "cannot delete default canvas map".
Definition ValidateDelete (canvasMap : CanvasMap) : result unit := if cm_IsDefault canvasMap then Err ErrDefaultMapDelete else Ok tt.

(** ** What a filter selects *)

Definition deviceHasArea (device : MapDevice) (areaID : UUID) : bool := existsb (Z.eqb areaID) (md_AreaIDs device).

(** The loop over the tags stops at the first that is absent or different. *)
Definition deviceMatchesTags (device : MapDevice) (tags : gmap string string) : bool :=
  forallb (λ '(key, expected), match md_Tags device !! key with Some actual => String.eqb actual expected | None => false end) (map_to_list tags).

Definition baseDevice (mf : CanvasMapFilter) (device : MapDevice) : bool :=
  (match mf_DeviceIDs mf with
   | _ :: _ => bool_decide (md_ID device ∈ (list_to_set (mf_DeviceIDs mf) : gset UUID))
   | [] => match mf_AreaID mf with Some a => deviceHasArea device a | None => true end
   end) && deviceMatchesTags device (mf_Tags mf).

Definition deviceIDSet (devices : list MapDevice) : gset UUID := list_to_set (md_ID <$> devices).

(** Whether a link is shown: its ends are known, and both, or one for cross-area links, are base devices. *)
Definition includeLink (mf : CanvasMapFilter) (known base : gset UUID) (link : Link) : bool :=
  bool_decide (lk_SourceDeviceID link ∈ known) && bool_decide (lk_TargetDeviceID link ∈ known) &&
  ((bool_decide (lk_SourceDeviceID link ∈ base) && bool_decide (lk_TargetDeviceID link ∈ base)) ||
   (mf_IncludeCrossAreaLinks mf && (bool_decide (lk_SourceDeviceID link ∈ base) || bool_decide (lk_TargetDeviceID link ∈ base)))).

(** The ends of the included links outside the base. *)
Definition add_ghosts (base : gset UUID) (ghosts : gset UUID) (link : Link) : gset UUID :=
  let s := lk_SourceDeviceID link in
  let t := lk_TargetDeviceID link in
  let ghosts := if bool_decide (s ∈ base) && negb (bool_decide (t ∈ base)) then {[t]} ∪ ghosts else ghosts in
  if bool_decide (t ∈ base) && negb (bool_decide (s ∈ base)) then {[s]} ∪ ghosts else ghosts.

Definition ProjectTopologyForFilter (devices : list MapDevice) (links : list Link) (mf : CanvasMapFilter) : TopologyProjection :=
  let known := deviceIDSet devices in
  let baseDevices := filter (λ d, baseDevice mf d = true) devices in
  let base := deviceIDSet baseDevices in
  let shown := filter (λ l, includeLink mf known base l = true) links in
  let ghosts := if mf_IncludeGhostDevices mf then foldl (add_ghosts base) ∅ shown else ∅ in
  {| tp_Devices := baseDevices; tp_Links := shown;
     tp_GhostDevices := filter (λ d, md_ID d ∉ base ∧ md_ID d ∈ ghosts) devices |}.

(** ** Memberships *)

Definition filterDeviceAreaIDs (areaIDs : list UUID) (included : gset UUID) : list UUID := filter (λ a, a ∈ included) areaIDs.

(** The areas the base devices are in, or the area of the filter. *)
Definition includedAreas (baseDevices : list MapDevice) (mf : CanvasMapFilter) : gset UUID :=
  match mf_AreaID mf with Some a => {[a]} | None => list_to_set (baseDevices ≫= md_AreaIDs) end.

Definition areasForMembership (areas : list AreaWithCount) (baseDevices : list MapDevice) (mf : CanvasMapFilter) : list AreaWithCount :=
  filter (λ a, ar_ID (ac_Area a) ∈ includedAreas baseDevices mf) areas.
Definition areaSnapshotsForMembership (areas : list CanvasMapAreaMembership) (baseDevices : list MapDevice) (mf : CanvasMapFilter) : list CanvasMapAreaMembership :=
  filter (λ a, ma_AreaID a ∈ includedAreas baseDevices mf) areas.
Definition areaWithCountIDSet (areas : list AreaWithCount) : gset UUID := list_to_set ((λ a, ar_ID (ac_Area a)) <$> areas).
Definition areaSnapshotIDSet (areas : list CanvasMapAreaMembership) : gset UUID := list_to_set (ma_AreaID <$> areas).

Definition AreasToMembership (areas : list Area) : list CanvasMapAreaMembership :=
  (λ a, mkArea (ar_ID a) (ar_Name a) (ar_Description a) (ar_Color a)) <$> areas.
Definition AreasWithCountToMembership (areas : list AreaWithCount) : list CanvasMapAreaMembership := AreasToMembership (ac_Area <$> areas).

(** The rows of a projection: base devices with the included areas, ghosts without. *)
Definition projection_members (included : gset UUID) (projection : TopologyProjection) : list CanvasMapDeviceMembership :=
  ((λ d, mkMember (md_ID d) CanvasMapDeviceRoleBase (filterDeviceAreaIDs (md_AreaIDs d) included) None) <$> tp_Devices projection) ++
  ((λ d, mkMember (md_ID d) CanvasMapDeviceRoleGhost [] None) <$> tp_GhostDevices projection).

Definition MaterializeMembership (devices : list MapDevice) (links : list Link) (areas : list AreaWithCount) (mf : CanvasMapFilter) : CanvasMapMembership :=
  let projection := ProjectTopologyForFilter devices links mf in
  let areaMemberships := areasForMembership areas (tp_Devices projection) mf in
  mkMembership (projection_members (areaWithCountIDSet areaMemberships) projection) (lk_ID <$> tp_Links projection) (AreasWithCountToMembership areaMemberships).

(** What a membership shows of a topology. *)
Definition member_roles (members : list CanvasMapDeviceMembership) : gmap UUID CanvasMapDeviceRole :=
  foldl (λ m d, <[mm_DeviceID d := mm_Role d]> m) ∅ members.
Definition member_areas (members : list CanvasMapDeviceMembership) : gmap UUID (list UUID) :=
  foldl (λ m d, <[mm_DeviceID d := mm_AreaIDs d]> m) ∅ members.

Definition ProjectTopologyForMembership (devices : list MapDevice) (links : list Link) (membership : CanvasMapMembership) : TopologyProjection :=
  let roles := member_roles (ms_Devices membership) in
  let areas := member_areas (ms_Devices membership) in
  let linkIDs : gset UUID := list_to_set (ms_LinkIDs membership) in
  let show := λ d, with_AreaIDs (default [] (areas !! md_ID d)) d in
  {| tp_Devices := show <$> filter (λ d, roles !! md_ID d ≠ None ∧ roles !! md_ID d ≠ Some CanvasMapDeviceRoleGhost) devices;
     tp_Links := filter (λ l, lk_ID l ∈ linkIDs ∧ roles !! lk_SourceDeviceID l ≠ None ∧ roles !! lk_TargetDeviceID l ≠ None) links;
     tp_GhostDevices := show <$> filter (λ d, roles !! md_ID d = Some CanvasMapDeviceRoleGhost) devices |}.

Definition MaterializeMembershipFromSourceMap (devices : list MapDevice) (links : list Link) (sourceMembership : CanvasMapMembership)
    (areas : list CanvasMapAreaMembership) (mf : CanvasMapFilter) : CanvasMapMembership :=
  let sourceProjection := ProjectTopologyForMembership devices links sourceMembership in
  let sourceDevices := tp_Devices sourceProjection ++ tp_GhostDevices sourceProjection in
  let projection := ProjectTopologyForFilter sourceDevices (tp_Links sourceProjection) mf in
  let areaMemberships := areaSnapshotsForMembership areas (tp_Devices projection) mf in
  mkMembership (projection_members (areaSnapshotIDSet areaMemberships) projection) (lk_ID <$> tp_Links projection) areaMemberships.

(** ** Positions *)

Definition FilterPositionsForDevices (positions : list DevicePosition) (devices : list MapDevice) : list DevicePosition :=
  filter (λ p, dp_DeviceID p ∈ deviceIDSet devices) positions.
Definition memberIDSet (members : list CanvasMapDeviceMembership) : gset UUID := list_to_set (mm_DeviceID <$> members).
Definition FilterPositionsForMemberDevices (positions : list DevicePosition) (devices : list CanvasMapDeviceMembership) : list DevicePosition :=
  filter (λ p, dp_DeviceID p ∈ memberIDSet devices) positions.

Record SourceMapMaterializationPlan := { sm_Membership : CanvasMapMembership; sm_Positions : list DevicePosition; sm_ShouldSavePositions : bool }.

Definition PlanSourceMapMaterialization (devices : list MapDevice) (links : list Link) (sourceMembership : CanvasMapMembership)
    (fallbackAreas : list AreaWithCount) (mf : CanvasMapFilter) (sourcePositions : list DevicePosition) : SourceMapMaterializationPlan :=
  let areaSnapshots := match ms_Areas sourceMembership with [] => AreasWithCountToMembership fallbackAreas | l => l end in
  let membership := MaterializeMembershipFromSourceMap devices links sourceMembership areaSnapshots mf in
  let positions := FilterPositionsForMemberDevices sourcePositions (ms_Devices membership) in
  {| sm_Membership := membership; sm_Positions := positions; sm_ShouldSavePositions := negb (bool_decide (length positions = 0%nat)) |}.

Definition ShouldCopyDefaultPositions (mapID defaultMapID : UUID) : bool := negb (mapID =? defaultMapID).
Definition DefaultPositionCandidates (defaultPositions legacyPositions : list DevicePosition) : list DevicePosition :=
  match defaultPositions with [] => legacyPositions | l => l end.

Record DefaultPositionCopyPlan := { cp_ShouldSave : bool; cp_Positions : list DevicePosition }.
Definition PlanDefaultPositionCopy (mapID defaultMapID : UUID) (defaultPositions legacyPositions : list DevicePosition)
    (devices : list CanvasMapDeviceMembership) : DefaultPositionCopyPlan :=
  if negb (ShouldCopyDefaultPositions mapID defaultMapID) then {| cp_ShouldSave := false; cp_Positions := [] |}
  else
    let positions := FilterPositionsForMemberDevices (DefaultPositionCandidates defaultPositions legacyPositions) devices in
    {| cp_ShouldSave := negb (bool_decide (length positions = 0%nat)); cp_Positions := positions |}.

(** ** The response *)

Definition areaDeviceCount (areaID : UUID) (devices : list MapDevice) : Z :=
  Z.of_nat (length (filter (λ d, deviceHasArea d areaID = true) devices)).

Definition AreaMembershipToAreas (areas : list CanvasMapAreaMembership) (baseDevices : list MapDevice) : list AreaWithCount :=
  (λ a, {| ac_Area := {| ar_ID := ma_AreaID a; ar_Name := ma_Name a; ar_Description := ma_Description a; ar_Color := ma_Color a |};
           ac_DeviceCount := areaDeviceCount (ma_AreaID a) baseDevices |}) <$> areas.

Definition VisualColorsByDeviceID (members : list CanvasMapDeviceMembership) : gmap UUID string :=
  foldl (λ m d, match mm_VisualColor d with Some c => <[mm_DeviceID d := c]> m | None => m end) ∅ members.

Definition BuildMaterializedTopologyResponsePlan (membership : CanvasMapMembership) (devices : list MapDevice) (links : list Link)
    (positions : list DevicePosition) : TopologyResponsePlan :=
  let projection := ProjectTopologyForMembership devices links membership in
  let displayDevices := tp_Devices projection ++ tp_GhostDevices projection in
  let projectedPositions := FilterPositionsForDevices positions displayDevices in
  mkPlan displayDevices (tp_Links projection) projectedPositions (AreaMembershipToAreas (ms_Areas membership) (tp_Devices projection))
    (VisualColorsByDeviceID (ms_Devices membership)) (Z.of_nat (length (tp_Devices projection))) (Z.of_nat (length (tp_Links projection)))
    (Z.of_nat (length projectedPositions)).

Definition EmptyTopologyResponsePlan : TopologyResponsePlan := mkPlan [] [] [] [] ∅ 0 0 0.

(** ** Adding a device *)

Definition MembershipDeviceIDs (devices : list CanvasMapDeviceMembership) : list UUID := mm_DeviceID <$> devices.

Definition BaseDeviceMembership (device : MapDevice) : CanvasMapDeviceMembership :=
  mkMember (md_ID device) CanvasMapDeviceRoleBase (md_AreaIDs device) None.

Definition MemberByDeviceID (membership : CanvasMapMembership) (deviceID : UUID) : option CanvasMapDeviceMembership :=
  snd <$> list_find (λ m, mm_DeviceID m = deviceID) (ms_Devices membership).

Definition add_link_id (base : gset UUID) (acc : gset UUID * list UUID) (link : Link) : gset UUID * list UUID :=
  let '(seen, ids) := acc in
  if bool_decide (lk_SourceDeviceID link ∈ base) && bool_decide (lk_TargetDeviceID link ∈ base) && negb (bool_decide (lk_ID link ∈ seen))
  then ({[lk_ID link]} ∪ seen, ids ++ [lk_ID link]) else acc.
Definition ConnectedBaseLinkIDs (deviceID : UUID) (membership : CanvasMapMembership) (links : list Link) : list UUID :=
  let bases : gset UUID := {[deviceID]} ∪ list_to_set (mm_DeviceID <$> filter (λ m, mm_Role m = CanvasMapDeviceRoleBase) (ms_Devices membership)) in
  (foldl (add_link_id bases) (∅, []) links).2.

Definition MissingLinkIDs (existing candidates : list UUID) : list UUID :=
  filter (λ id, id ∉ (list_to_set existing : gset UUID)) candidates.

Definition ErrDeviceAlreadyInCanvasMap : string := "device already exists in this map".

(** [DuplicateDeviceAddressMessage]; quoting with %q is the identity on the addresses in question. *)
Definition DuplicateDeviceAddressMessage (address : string) : string :=
  let address := TrimSpace address in
  if String.eqb address "" then "a device with that address already exists in this map"
  else ("a device with IP/host " +:+ address +:+ " already exists in this map")%string.

Section addresses.
Context (unicode_lower : string → string).

Definition NormalizeDeviceAddress (address : string) : string := ToLower unicode_lower (TrimSpace address).

(** The normalized addresses of one member. *)
Definition existing_addresses (device : MapDevice) : gset string :=
  list_to_set (filter (λ a, a ≠ ""%string) (NormalizeDeviceAddress <$> DeviceAddressValues unicode_lower (md_device device))).

(** The first address of the candidate the member has. *)
Definition shared_address (candidates : list string) (existing : gset string) : option string :=
  snd <$> list_find (λ a, NormalizeDeviceAddress a ≠ ""%string ∧ NormalizeDeviceAddress a ∈ existing) candidates.

Fixpoint duplicate_loop (device : MapDevice) (candidates : list string) (existing : list MapDevice) : string :=
  match existing with
  | [] => ""
  | e :: rest =>
    if md_ID e =? md_ID device then duplicate_loop device candidates rest
    else match shared_address candidates (existing_addresses e) with
         | Some a => TrimSpace a
         | None => duplicate_loop device candidates rest
         end
  end.
Definition DuplicateDeviceAddress (device : MapDevice) (existing : list MapDevice) : string :=
  duplicate_loop device (DeviceAddressValues unicode_lower (md_device device)) existing.

Record AddDeviceMembershipPlan := { ap_Device : CanvasMapDeviceMembership; ap_LinkIDs : list UUID; ap_Areas : list CanvasMapAreaMembership }.

Definition PlanAddDeviceMembership (device : MapDevice) (membership : CanvasMapMembership) (memberDevices : list MapDevice)
    (connectedLinks : list Link) (areas : list CanvasMapAreaMembership) (includeConnectedLinks : bool) : result AddDeviceMembershipPlan :=
  match MemberByDeviceID membership (md_ID device) with
  | Some member =>
    if negb includeConnectedLinks then Err ErrDeviceAlreadyInCanvasMap
    else
      let missing := MissingLinkIDs (ms_LinkIDs membership) (ConnectedBaseLinkIDs (md_ID device) membership connectedLinks) in
      match missing with
      | [] => Err ErrDeviceAlreadyInCanvasMap
      | _ => Ok {| ap_Device := member; ap_LinkIDs := missing; ap_Areas := ms_Areas membership |}
      end
  | None =>
    let address := DuplicateDeviceAddress device memberDevices in
    if negb (String.eqb address "") then Err (DuplicateDeviceAddressMessage address)
    else Ok {| ap_Device := BaseDeviceMembership device;
               ap_LinkIDs := if includeConnectedLinks then ConnectedBaseLinkIDs (md_ID device) membership connectedLinks else [];
               ap_Areas := areas |}
  end.
End addresses.

(** ** Visual colors and areas *)

Definition ErrInvalidVisualColor : string := "invalid visual_color format (must be #RRGGBB)".
Definition ErrVisualColorRequiresVirtualDevice : string := "visual_color is only supported for virtual devices".

Definition hex_byte (b : Z) : bool := ((48 <=? b) && (b <=? 57)) || ((97 <=? b) && (b <=? 102)) || ((65 <=? b) && (b <=? 70)).
Definition isHexRGBColor (color : string) : bool :=
  match bytes_of color with
  | b :: rest => (b =? 35) && (length rest =? 6)%nat && forallb hex_byte rest
  | [] => false
  end.

(** [strings.ToUpper] on the text of a color *)
Definition upper_byte (b : Z) : Z := if (97 <=? b) && (b <=? 122) then b - 32 else b.
Definition ToUpper_color (s : string) : string := string_of (upper_byte <$> bytes_of s).

Definition NormalizeVisualColor (raw : option string) : result (option string) :=
  match raw with
  | None => Ok None
  | Some raw =>
    let color := TrimSpace raw in
    if String.eqb color "" then Ok None
    else if negb (isHexRGBColor color) then Err ErrInvalidVisualColor
    else Ok (Some (ToUpper_color color))
  end.

Definition ValidateVisualColorDevice (device : MapDevice) : result unit :=
  if negb (String.eqb (dev_DeviceType (md_device device)) DeviceTypeVirtual) then Err ErrVisualColorRequiresVirtualDevice else Ok tt.

Definition AreaMembershipFromInput (name description color : string) : result CanvasMapAreaMembership :=
  let normalizedName := TrimSpace name in
  if String.eqb normalizedName "" then Err "name is required"
  else if (100 <? length (bytes_of normalizedName))%nat then Err "area name too long (max 100 characters)"
  else
    let normalizedColor := TrimSpace color in
    let normalizedColor := if String.eqb normalizedColor "" then "#00E676" else normalizedColor in
    let b := bytes_of normalizedColor in
    if negb (bool_decide (head b = Some 35)) || negb (length b =? 7)%nat then Err "invalid color format (must be #RRGGBB)"
    else Ok (mkArea uuid_Nil normalizedName (TrimSpace description) normalizedColor).
