(* ===== verification/MapStore.v ===== *)
(** * The tables of devices, links, areas and saved maps

    [internal/repository/postgres]: the tables the saved maps live in, with the keys and the cascades
    of [migrations/000001], [000010]-[000015], [000023] and [000026], and a small language of
    transactions over them.  A transaction is atomic: it commits what it wrote or leaves the tables
    as they were.  Columns nobody reads ([added_at] of members and links, [assigned_at]) are left out,
    and waypoints are kept as the numbers their JSON text stands for. *)

From S2P Require Import Prelude GoLib GoText Domain Addresses Runtime CanvasMap.

(** ** Rows *)

(** [domain.Link] with the protocol that discovered it. *)
Record LinkRow := mkLinkRow {
  ln_Link : Link;
  ln_Protocol : string;
  ln_UpdatedAt : Time }.
Record MapRow := mkMapRow {
  mr_Name : string;
  mr_Description : string;
  mr_SourceAreaID : option UUID;
  mr_FilterJSON : string;
  mr_IsDefault : bool;
  mr_Materialized : bool;
  mr_CreatedAt : Time;
  mr_UpdatedAt : Time }.
#[export] Instance upd_mr_SourceAreaID : Update mr_SourceAreaID := λ v r, mkMapRow (mr_Name r) (mr_Description r) v (mr_FilterJSON r) (mr_IsDefault r) (mr_Materialized r) (mr_CreatedAt r) (mr_UpdatedAt r).
#[export] Instance upd_mr_IsDefault : Update mr_IsDefault := λ v r, mkMapRow (mr_Name r) (mr_Description r) (mr_SourceAreaID r) (mr_FilterJSON r) v (mr_Materialized r) (mr_CreatedAt r) (mr_UpdatedAt r).
#[export] Instance upd_mr_Materialized : Update mr_Materialized := λ v r, mkMapRow (mr_Name r) (mr_Description r) (mr_SourceAreaID r) (mr_FilterJSON r) (mr_IsDefault r) v (mr_CreatedAt r) (mr_UpdatedAt r).
#[export] Instance upd_mr_UpdatedAt : Update mr_UpdatedAt := λ v r, mkMapRow (mr_Name r) (mr_Description r) (mr_SourceAreaID r) (mr_FilterJSON r) (mr_IsDefault r) (mr_Materialized r) (mr_CreatedAt r) v.
Record MemberRow := mkMemberRow { me_Role : CanvasMapDeviceRole; me_VisualColor : option string }.
Record MapAreaRow := mkMapAreaRow { mw_Name : string; mw_Description : string; mw_Color : string; mw_AddedAt : Time }.
Record PositionRow := mkPositionRow { po_X : float64; po_Y : float64; po_Pinned : bool; po_UpdatedAt : Time }.
Record CanvasPoint := mkPoint { pt_X : float64; pt_Y : float64 }.
Record RouteRow := mkRouteRow { ro_Version : Z; ro_Waypoints : list CanvasPoint; ro_UpdatedAt : Time }.

(** A device row holds what [devices], [device_addresses] and [interfaces] hold of a device; its
    areas are in [device_areas].  Rows of a map are keyed by the map first. *)
Record MapDB := mkMapDB {
  t_devices : gmap UUID MapDevice;
  t_device_areas : gset (UUID * UUID);
  t_areas : gmap UUID Area;
  t_links : gmap UUID LinkRow;
  t_device_positions : gmap UUID PositionRow;
  t_maps : gmap UUID MapRow;
  t_map_devices : gmap (UUID * UUID) MemberRow;
  t_map_device_areas : gset (UUID * UUID * UUID);
  t_map_links : gset (UUID * UUID);
  t_map_areas : gmap (UUID * UUID) MapAreaRow;
  t_map_positions : gmap (UUID * UUID) PositionRow;
  t_map_link_routes : gmap (UUID * UUID) RouteRow }.
#[export] Instance upd_t_devices : Update t_devices := λ v r, mkMapDB v (t_device_areas r) (t_areas r) (t_links r) (t_device_positions r) (t_maps r) (t_map_devices r) (t_map_device_areas r) (t_map_links r) (t_map_areas r) (t_map_positions r) (t_map_link_routes r).
#[export] Instance upd_t_device_areas : Update t_device_areas := λ v r, mkMapDB (t_devices r) v (t_areas r) (t_links r) (t_device_positions r) (t_maps r) (t_map_devices r) (t_map_device_areas r) (t_map_links r) (t_map_areas r) (t_map_positions r) (t_map_link_routes r).
#[export] Instance upd_t_areas : Update t_areas := λ v r, mkMapDB (t_devices r) (t_device_areas r) v (t_links r) (t_device_positions r) (t_maps r) (t_map_devices r) (t_map_device_areas r) (t_map_links r) (t_map_areas r) (t_map_positions r) (t_map_link_routes r).
#[export] Instance upd_t_links : Update t_links := λ v r, mkMapDB (t_devices r) (t_device_areas r) (t_areas r) v (t_device_positions r) (t_maps r) (t_map_devices r) (t_map_device_areas r) (t_map_links r) (t_map_areas r) (t_map_positions r) (t_map_link_routes r).
#[export] Instance upd_t_device_positions : Update t_device_positions := λ v r, mkMapDB (t_devices r) (t_device_areas r) (t_areas r) (t_links r) v (t_maps r) (t_map_devices r) (t_map_device_areas r) (t_map_links r) (t_map_areas r) (t_map_positions r) (t_map_link_routes r).
#[export] Instance upd_t_maps : Update t_maps := λ v r, mkMapDB (t_devices r) (t_device_areas r) (t_areas r) (t_links r) (t_device_positions r) v (t_map_devices r) (t_map_device_areas r) (t_map_links r) (t_map_areas r) (t_map_positions r) (t_map_link_routes r).
#[export] Instance upd_t_map_devices : Update t_map_devices := λ v r, mkMapDB (t_devices r) (t_device_areas r) (t_areas r) (t_links r) (t_device_positions r) (t_maps r) v (t_map_device_areas r) (t_map_links r) (t_map_areas r) (t_map_positions r) (t_map_link_routes r).
#[export] Instance upd_t_map_device_areas : Update t_map_device_areas := λ v r, mkMapDB (t_devices r) (t_device_areas r) (t_areas r) (t_links r) (t_device_positions r) (t_maps r) (t_map_devices r) v (t_map_links r) (t_map_areas r) (t_map_positions r) (t_map_link_routes r).
#[export] Instance upd_t_map_links : Update t_map_links := λ v r, mkMapDB (t_devices r) (t_device_areas r) (t_areas r) (t_links r) (t_device_positions r) (t_maps r) (t_map_devices r) (t_map_device_areas r) v (t_map_areas r) (t_map_positions r) (t_map_link_routes r).
#[export] Instance upd_t_map_areas : Update t_map_areas := λ v r, mkMapDB (t_devices r) (t_device_areas r) (t_areas r) (t_links r) (t_device_positions r) (t_maps r) (t_map_devices r) (t_map_device_areas r) (t_map_links r) v (t_map_positions r) (t_map_link_routes r).
#[export] Instance upd_t_map_positions : Update t_map_positions := λ v r, mkMapDB (t_devices r) (t_device_areas r) (t_areas r) (t_links r) (t_device_positions r) (t_maps r) (t_map_devices r) (t_map_device_areas r) (t_map_links r) (t_map_areas r) v (t_map_link_routes r).
#[export] Instance upd_t_map_link_routes : Update t_map_link_routes := λ v r, mkMapDB (t_devices r) (t_device_areas r) (t_areas r) (t_links r) (t_device_positions r) (t_maps r) (t_map_devices r) (t_map_device_areas r) (t_map_links r) (t_map_areas r) (t_map_positions r) v.

(** What the database decides about text: how it sorts, and [lower(btrim(ip))]. *)
Class Database := { collate : string → string → bool; ip_key : string → string }.

(** ** Transactions *)

Definition Tx (A : Type) : Type := MapDB → result (A * MapDB).
Definition tx_ret {A} (a : A) : Tx A := λ d, Ok (a, d).
Definition tx_fail {A} (msg : string) : Tx A := λ _, Err msg.
Definition tx_bind {A B} (p : Tx A) (q : A → Tx B) : Tx B := λ d, match p d with Ok (a, d') => q a d' | Err e => Err e end.
Definition tx_read {A} (f : MapDB → A) : Tx A := λ d, Ok (f d, d).
Definition tx_write (f : MapDB → MapDB) : Tx unit := λ d, Ok (tt, f d).
(** Fails with the message when the test holds. *)
Definition tx_reject (test : MapDB → bool) (msg : string) : Tx unit := λ d, if test d then Err msg else Ok (tt, d).
Definition tx_lift {A} (r : result A) : Tx A := λ d, match r with Ok a => Ok (a, d) | Err e => Err e end.

Declare Scope store_scope.
Delimit Scope store_scope with store.
Notation "'let*' x := p 'in' q" := (tx_bind p (λ x, q)) (at level 200, x pattern, p at level 100, q at level 200) : store_scope.
Notation "p ;; q" := (tx_bind p (λ _, q)) (at level 100, q at level 200, right associativity) : store_scope.
Open Scope store_scope.

Fixpoint tx_each {X} (f : X → Tx unit) (l : list X) : Tx unit :=
  match l with
  | [] => tx_ret tt
  | x :: l => f x ;; tx_each f l
  end.

(** A call of a repository: the tables afterwards and what it returned. *)
Definition Op (A : Type) : Type := MapDB → MapDB * result A.
Definition run {A} (t : Tx A) : Op A := λ d, match t d with Ok (a, d') => (d', Ok a) | Err e => (d, Err e) end.
Definition op_ret {A} (r : result A) : Op A := λ d, (d, r).
Definition op_bind {A B} (p : Op A) (q : A → Op B) : Op B := λ d, match p d with (d', Ok a) => q a d' | (d', Err e) => (d', Err e) end.
Notation "'let+' x := p 'in' q" := (op_bind p (λ x, q)) (at level 200, x pattern, p at level 100, q at level 200) : store_scope.

(** ** Statements *)

Definition pk_violation : string := "duplicate key value violates unique constraint".
Definition fk_violation : string := "insert or update violates foreign key constraint".

(** A row of a table, with the constraint checks of [INSERT]. *)
Definition insert_row {K A} `{Countable K} (t : MapDB → gmap K A) `{!Update t} (k : K) (a : A) : Tx unit :=
  tx_reject (λ d, bool_decide (is_Some (t d !! k))) pk_violation ;;
  tx_write (λ d, d <| t := <[k := a]> (t d) |>).
(** [ON CONFLICT DO NOTHING] *)
Definition insert_missing {K A} `{Countable K} (t : MapDB → gmap K A) `{!Update t} (k : K) (a : A) : Tx unit :=
  tx_write (λ d, d <| t := match t d !! k with Some _ => t d | None => <[k := a]> (t d) end |>).
Definition references {K A} `{Countable K} (t : MapDB → gmap K A) (k : K) : Tx unit :=
  tx_reject (λ d, negb (bool_decide (is_Some (t d !! k)))) fk_violation.

(** ** Reads in the order of the queries *)

Definition id_le {A} (x y : UUID * A) : Prop := x.1 <= y.1.
#[export] Instance id_le_dec {A} : RelDecision (@id_le A) := λ x y, decide (x.1 <= y.1).

(** [WHERE map_id = ? ORDER BY id] *)
Definition rows_of {A} (m : UUID) (t : gmap (UUID * UUID) A) : list (UUID * A) :=
  merge_sort id_le ((λ e : UUID * UUID * A, (e.1.2, e.2)) <$> filter (λ e : UUID * UUID * A, e.1.1 = m) (map_to_list t)).
Definition ids_of (m : UUID) (s : gset (UUID * UUID)) : list UUID :=
  merge_sort Z.le (snd <$> filter (λ e : UUID * UUID, e.1 = m) (elements s)).
Definition count_of {A} (m : UUID) (t : gmap (UUID * UUID) A) : Z := Z.of_nat (length (filter (λ e : UUID * UUID * A, e.1.1 = m) (map_to_list t))).

(** ** Deleting with the cascades of the schema *)

Definition drop_map {A} (m : UUID) (t : gmap (UUID * UUID) A) : gmap (UUID * UUID) A := filter (λ e : UUID * UUID * A, e.1.1 ≠ m) t.

(** Rows of [canvas_map_devices] going away take their area assignments with them. *)
Definition delete_members (gone : UUID * UUID → bool) (d : MapDB) : MapDB :=
  d <| t_map_devices := filter (λ e : UUID * UUID * MemberRow, gone e.1 = false) (t_map_devices d) |>
    <| t_map_device_areas := filter (λ e : UUID * UUID * UUID, gone e.1 = false) (t_map_device_areas d) |>.
(** Rows of [canvas_map_areas] as well. *)
Definition delete_map_areas (gone : UUID * UUID → bool) (d : MapDB) : MapDB :=
  d <| t_map_areas := filter (λ e : UUID * UUID * MapAreaRow, gone e.1 = false) (t_map_areas d) |>
    <| t_map_device_areas := filter (λ e : UUID * UUID * UUID, gone (e.1.1, e.2) = false) (t_map_device_areas d) |>.
Definition delete_links (gone : UUID → LinkRow → bool) (d : MapDB) : MapDB :=
  let out := λ id, match t_links d !! id with Some l => gone id l | None => false end in
  d <| t_links := filter (λ e : UUID * LinkRow, gone e.1 e.2 = false) (t_links d) |>
    <| t_map_links := filter (λ e : UUID * UUID, out e.2 = false) (t_map_links d) |>
    <| t_map_link_routes := filter (λ e : UUID * UUID * RouteRow, out e.1.2 = false) (t_map_link_routes d) |>.
Definition delete_map (m : UUID) (d : MapDB) : MapDB :=
  let d := delete_map_areas (λ k, k.1 =? m) (delete_members (λ k, k.1 =? m) d) in
  d <| t_maps := delete m (t_maps d) |>
    <| t_map_links := filter (λ e : UUID * UUID, e.1 ≠ m) (t_map_links d) |>
    <| t_map_positions := drop_map m (t_map_positions d) |>
    <| t_map_link_routes := drop_map m (t_map_link_routes d) |>.
Definition link_end (id : UUID) (l : Link) : bool := (lk_SourceDeviceID l =? id) || (lk_TargetDeviceID l =? id).
Definition delete_device (id : UUID) (d : MapDB) : MapDB :=
  let d := delete_links (λ _ l, link_end id (ln_Link l)) (delete_members (λ k, k.2 =? id) d) in
  d <| t_devices := delete id (t_devices d) |>
    <| t_device_areas := filter (λ e : UUID * UUID, e.1 ≠ id) (t_device_areas d) |>
    <| t_device_positions := delete id (t_device_positions d) |>
    <| t_map_positions := filter (λ e : UUID * UUID * PositionRow, e.1.2 ≠ id) (t_map_positions d) |>.
Definition delete_area (id : UUID) (d : MapDB) : MapDB :=
  d <| t_areas := delete id (t_areas d) |>
    <| t_device_areas := filter (λ e : UUID * UUID, e.2 ≠ id) (t_device_areas d) |>
    <| t_maps := (λ r, if bool_decide (mr_SourceAreaID r = Some id) then r <| mr_SourceAreaID := None |> else r) <$> t_maps d |>.

(** ** Devices *)

Section devices.
Context `{Database}.

Definition is_virtual (m : MapDevice) : bool := String.eqb (dev_DeviceType (md_device m)) DeviceTypeVirtual.
Definition ip_of (m : MapDevice) : string := ip_key (dev_IP (md_device m)).

(** [idx_devices_ip] and [devices_ip_physical_virtual_excl]: an address is used by one physical
    device or by virtual devices only. *)
Definition ip_conflict (a b : MapDevice) : bool :=
  negb (String.eqb (ip_of a) "") && String.eqb (ip_of a) (ip_of b) && negb (is_virtual a && is_virtual b).
Definition ip_taken (id : UUID) (m : MapDevice) (d : MapDB) : bool :=
  existsb (λ '(id', m'), negb (id' =? id) && ip_conflict m m') (map_to_list (t_devices d)).

(** A device with the areas of [device_areas], in the order of their ids. *)
Definition area_ids (d : MapDB) (id : UUID) : list UUID := ids_of id (t_device_areas d).
Definition hydrated (d : MapDB) (m : MapDevice) : MapDevice := with_AreaIDs (area_ids d (md_ID m)) m.

(** [ORDER BY hostname]; the order of equal names is left open by the query, here it is that of the ids. *)
Definition device_le (a b : MapDevice) : Prop :=
  let ha := dev_Hostname (md_device a) in
  let hb := dev_Hostname (md_device b) in
  if collate ha hb then (if collate hb ha then md_ID a <= md_ID b else True) else False.
#[export] Instance device_le_dec : RelDecision device_le.
Proof. intros a b. unfold device_le. destruct (collate _ _); [destruct (collate _ _)|]; apply _. Defined.

Definition DeviceRepo_GetAll (d : MapDB) : list MapDevice := merge_sort device_le (hydrated d <$> (map_to_list (t_devices d)).*2).
Definition DeviceRepo_GetByIDs (ids : list UUID) (d : MapDB) : list MapDevice := filter (λ m, md_ID m ∈ ids) (DeviceRepo_GetAll d).
Definition DeviceRepo_GetByID (id : UUID) (d : MapDB) : result MapDevice :=
  match t_devices d !! id with Some m => Ok (hydrated d m) | None => Err ("device not found: " +:+ uuid_String id)%string end.
Definition DeviceRepo_Delete (id : UUID) : Tx unit :=
  tx_reject (λ d, negb (bool_decide (is_Some (t_devices d !! id)))) ("device not found: " +:+ uuid_String id) ;;
  tx_write (delete_device id).

(** What the other writers of [devices] do to a row: it is there afterwards under the same id, with the given areas. *)
Definition put_device (m : MapDevice) (areas : gset UUID) : Tx unit :=
  tx_reject (ip_taken (md_ID m) m) pk_violation ;;
  tx_reject (λ d, negb (bool_decide (set_Forall (λ a, is_Some (t_areas d !! a)) areas))) fk_violation ;;
  tx_write (λ d, d <| t_devices := <[md_ID m := m]> (t_devices d) |>
                   <| t_device_areas := set_map (λ a, (md_ID m, a)) areas ∪ filter (λ e : UUID * UUID, e.1 ≠ md_ID m) (t_device_areas d) |>).

(** [normalizeTopologyDevices] on one device *)
Definition topology_device (m : MapDevice) : MapDevice :=
  let d := (NormalizeVirtualDevice (md_device m)).1 in
  mkMapDevice {| dev_ID := dev_ID d; dev_Hostname := dev_Hostname d; dev_SysName := dev_SysName d; dev_IP := dev_IP d;
     dev_SNMPCredentials := dev_SNMPCredentials d; dev_DeviceType := dev_DeviceType d;
     dev_PollClass := dev_PollClass d; dev_PollIntervalOverride := dev_PollIntervalOverride d;
     dev_PollingEnabled := Some (DevicePollingEnabled d); dev_Status := dev_Status d; dev_Managed := dev_Managed d;
     dev_Interfaces := dev_Interfaces d; dev_Addresses := dev_Addresses d; dev_ProbePorts := dev_ProbePorts d;
     dev_AreaIDs := dev_AreaIDs d; dev_MetricsSource := dev_MetricsSource d;
     dev_TopologyDiscoveryMode := NormalizeTopologyDiscoveryMode (dev_TopologyDiscoveryMode d) TopologyDiscoveryModeInherit;
     dev_TopologyBootstrapState := NormalizeTopologyBootstrapState (dev_TopologyBootstrapState d) |} (md_Tags m).

(** What [GetByIDsForTopology] leaves out of a row: the credentials and the probe ports. *)
Definition topology_row (m : MapDevice) : MapDevice :=
  let d := md_device m in
  mkMapDevice {| dev_ID := dev_ID d; dev_Hostname := dev_Hostname d; dev_SysName := dev_SysName d; dev_IP := dev_IP d;
     dev_SNMPCredentials := dev_SNMPCredentials zeroDevice; dev_DeviceType := dev_DeviceType d;
     dev_PollClass := dev_PollClass d; dev_PollIntervalOverride := dev_PollIntervalOverride d;
     dev_PollingEnabled := dev_PollingEnabled d; dev_Status := dev_Status d; dev_Managed := dev_Managed d;
     dev_Interfaces := dev_Interfaces d; dev_Addresses := dev_Addresses d; dev_ProbePorts := [];
     dev_AreaIDs := dev_AreaIDs d; dev_MetricsSource := dev_MetricsSource d;
     dev_TopologyDiscoveryMode := dev_TopologyDiscoveryMode d;
     dev_TopologyBootstrapState := dev_TopologyBootstrapState d |} (md_Tags m).
Definition DeviceRepo_GetByIDsForTopology (ids : list UUID) (d : MapDB) : list MapDevice := topology_row <$> DeviceRepo_GetByIDs ids d.

(** [DeviceService]: [GetDevice], [GetAllDevices], [GetDevicesByIDs], [GetTopologyDevicesByIDs] *)
Definition DeviceService_GetDevice (id : UUID) (d : MapDB) : result MapDevice := let! m := DeviceRepo_GetByID id d in Ok (topology_device m).
Definition DeviceService_GetAllDevices (d : MapDB) : list MapDevice := topology_device <$> DeviceRepo_GetAll d.
Definition DeviceService_GetDevicesByIDs (ids : list UUID) (d : MapDB) : list MapDevice := topology_device <$> DeviceRepo_GetByIDs ids d.
Definition DeviceService_GetTopologyDevicesByIDs (ids : list UUID) (d : MapDB) : list MapDevice := topology_device <$> DeviceRepo_GetByIDsForTopology ids d.
End devices.

(** ** Areas *)

Section areas.
Context `{Database}.

Definition area_name_taken (id : UUID) (name : string) (d : MapDB) : bool :=
  existsb (λ '(id', a), negb (id' =? id) && String.eqb (ar_Name a) name) (map_to_list (t_areas d)).

(** [AreaRepo]; [new] is the id [uuid.New] draws for an area without one. *)
Definition AreaRepo_Create (new : UUID) (area : Area) : Tx UUID :=
  let id := if ar_ID area =? uuid_Nil then new else ar_ID area in
  tx_reject (area_name_taken id (ar_Name area)) pk_violation ;;
  insert_row t_areas id {| ar_ID := id; ar_Name := ar_Name area; ar_Description := ar_Description area; ar_Color := ar_Color area |} ;;
  tx_ret id.
Definition AreaRepo_GetByID (id : UUID) (d : MapDB) : result Area :=
  match t_areas d !! id with Some a => Ok a | None => Err "area not found" end.
Definition area_le (a b : Area) : Prop :=
  if collate (ar_Name a) (ar_Name b) then (if collate (ar_Name b) (ar_Name a) then ar_ID a <= ar_ID b else True) else False.
#[export] Instance area_le_dec : RelDecision area_le.
Proof. intros a b. unfold area_le. destruct (collate _ _); [destruct (collate _ _)|]; apply _. Defined.
Definition AreaRepo_GetAll (d : MapDB) : list Area := merge_sort area_le (map_to_list (t_areas d)).*2.
Definition AreaRepo_GetAllWithDeviceCount (d : MapDB) : list AreaWithCount :=
  (λ a, {| ac_Area := a; ac_DeviceCount := Z.of_nat (size (filter (λ e : UUID * UUID, e.2 = ar_ID a) (t_device_areas d))) |}) <$> AreaRepo_GetAll d.
Definition AreaRepo_Update (area : Area) : Tx unit :=
  tx_reject (λ d, negb (bool_decide (is_Some (t_areas d !! ar_ID area)))) ("area not found: " +:+ uuid_String (ar_ID area)) ;;
  tx_reject (area_name_taken (ar_ID area) (ar_Name area)) pk_violation ;;
  tx_write (λ d, d <| t_areas := <[ar_ID area := area]> (t_areas d) |>).
Definition AreaRepo_Delete (id : UUID) : Tx unit :=
  tx_reject (λ d, negb (bool_decide (is_Some (t_areas d !! id)))) ("area not found: " +:+ uuid_String id) ;;
  tx_write (delete_area id).
End areas.

(** ** Positions of the canvas before there were maps *)

Definition read_position (id : UUID) (p : PositionRow) : DevicePosition := mkPosition id (po_X p) (po_Y p) (po_Pinned p) (po_UpdatedAt p).
Definition position_row (now : Time) (p : DevicePosition) : PositionRow :=
  mkPositionRow (dp_X p) (dp_Y p) (dp_Pinned p) (if Time_IsZero (dp_UpdatedAt p) then now else dp_UpdatedAt p).
Definition PositionRepo_GetAll (d : MapDB) : list DevicePosition :=
  (λ e, read_position e.1 e.2) <$> merge_sort id_le (map_to_list (t_device_positions d)).
Definition PositionRepo_SaveAll (now : Time) (positions : list DevicePosition) : Tx unit :=
  tx_each (λ p, tx_reject (λ _, dp_DeviceID p =? uuid_Nil) "position device_id is required" ;;
                references t_devices (dp_DeviceID p) ;;
                tx_write (λ d, d <| t_device_positions := <[dp_DeviceID p := position_row now p]> (t_device_positions d) |>)) positions.
Definition PositionRepo_DeleteByDeviceID (deviceID : UUID) : Tx unit :=
  tx_reject (λ d, negb (bool_decide (is_Some (t_device_positions d !! deviceID)))) ("position not found for device: " +:+ uuid_String deviceID) ;;
  tx_write (λ d, d <| t_device_positions := delete deviceID (t_device_positions d) |>).

(** ** Reading links *)

(** [ORDER BY created_at]; the order of links created at the same instant is left open by the query. *)
Definition link_le (a b : Link) : Prop := lk_CreatedAt a < lk_CreatedAt b ∨ lk_CreatedAt a = lk_CreatedAt b ∧ lk_ID a <= lk_ID b.
#[export] Instance link_le_dec : RelDecision link_le.
Proof. intros a b. unfold link_le. apply _. Defined.
Definition row_le (a b : LinkRow) : Prop := link_le (ln_Link a) (ln_Link b).
#[export] Instance row_le_dec : RelDecision row_le.
Proof. intros a b. unfold row_le. apply _. Defined.

Definition link_rows (d : MapDB) : list LinkRow := merge_sort row_le (map_to_list (t_links d)).*2.
Definition LinkRepo_GetAll (d : MapDB) : list Link := ln_Link <$> link_rows d.
Definition LinkRepo_GetByIDs (ids : list UUID) (d : MapDB) : list Link := filter (λ l, lk_ID l ∈ ids) (LinkRepo_GetAll d).
Definition LinkRepo_GetByDeviceID (deviceID : UUID) (d : MapDB) : list Link := filter (λ l, link_end deviceID l = true) (LinkRepo_GetAll d).
Definition LinkRepo_GetByID (id : UUID) (d : MapDB) : result Link :=
  match t_links d !! id with Some l => Ok (ln_Link l) | None => Err ("link not found: " +:+ uuid_String id)%string end.
