(* ===== verification/CanvasRepo.v ===== *)
(** * The repositories of saved maps

    [internal/repository/postgres/canvas_map_*.go] over the tables of [MapStore]: each method is a
    transaction, or a transaction followed by the read of the row it wrote.  [now] is what
    [time.Now] or [NOW()] gives and [new] what [uuid.New] draws. *)

From S2P Require Import Prelude GoLib GoText Domain Addresses Runtime Password CanvasMap MapStore.
Open Scope store_scope.

(** The JSON text of a filter as the column gives it back, and its decoding. *)
Class FilterJSON := { filter_json : CanvasMapFilter → string; json_filter : string → option CanvasMapFilter }.

(** ** Validation *)

Definition CanvasMapNameMaxLength : nat := 80.
Definition CanvasMapDescriptionMaxLength : nat := 500.

Definition ValidateCanvasMapName (name : string) : result unit :=
  if String.eqb (TrimSpace name) "" then Err "map name is required"
  else if (CanvasMapNameMaxLength <? length (runes name))%nat then Err "map name must be 80 characters or fewer"
  else Ok tt.
Definition ValidateCanvasMapDescription (description : string) : result unit :=
  if (CanvasMapDescriptionMaxLength <? length (runes description))%nat then Err "map description must be 500 characters or fewer" else Ok tt.

(** [canonicalCanvasMapDeviceIDs]: sorted, equal neighbours merged. *)
Fixpoint merge_equal (l : list UUID) : list UUID :=
  match l with
  | a :: (b :: _) as rest => if a =? b then merge_equal rest else a :: merge_equal rest
  | l => l
  end.
Definition canonicalCanvasMapDeviceIDs (ids : list UUID) : list UUID := merge_equal (merge_sort Z.le ids).
Definition CanonicalCanvasMapFilterJSON `{FilterJSON} (mf : CanvasMapFilter) : string :=
  filter_json (mkFilter (mf_AreaID mf) (canonicalCanvasMapDeviceIDs (mf_DeviceIDs mf)) (mf_IncludeCrossAreaLinks mf) (mf_IncludeGhostDevices mf) (mf_Tags mf)).

(** The check of a sorted list: no nil, no two equal neighbours. *)
Fixpoint check_sorted (label : string) (previous : option UUID) (l : list UUID) : result unit :=
  match l with
  | [] => Ok tt
  | id :: l =>
    if id =? uuid_Nil then Err ("canvas map " +:+ label +:+ " is required")%string
    else if bool_decide (previous = Some id) then Err ("duplicate canvas map " +:+ label +:+ ": " +:+ uuid_String id)%string
    else check_sorted label (Some id) l
  end.
Definition validateCanvasMapUUIDList (ids : list UUID) (label : string) : result (list UUID) :=
  match ids with
  | [] => Ok []
  | _ => let canonical := merge_sort Z.le ids in
         let! _ := check_sorted label None canonical in Ok canonical
  end.

Fixpoint validate_members (seen : gset UUID) (devices : list CanvasMapDeviceMembership) : result unit :=
  match devices with
  | [] => Ok tt
  | m :: devices =>
    let id := mm_DeviceID m in
    if id =? uuid_Nil then Err "canvas map membership device_id is required"
    else if bool_decide (id ∈ seen) then Err ("duplicate canvas map device membership: " +:+ uuid_String id)%string
    else let! _ := validateCanvasMapUUIDList (mm_AreaIDs m) "device area_id" in validate_members ({[id]} ∪ seen) devices
  end.
Fixpoint validate_ids (what : string) (seen : gset UUID) (ids : list UUID) : result unit :=
  match ids with
  | [] => Ok tt
  | id :: ids =>
    if id =? uuid_Nil then Err ("canvas map membership " +:+ what +:+ "_id is required")%string
    else if bool_decide (id ∈ seen) then Err ("duplicate canvas map " +:+ what +:+ " membership: " +:+ uuid_String id)%string
    else validate_ids what ({[id]} ∪ seen) ids
  end.
(** Every area of a device is an area of the membership: the first that is not is named. *)
Definition stray_area (membership : CanvasMapMembership) : option UUID :=
  let areas : gset UUID := list_to_set (ma_AreaID <$> ms_Areas membership) in
  head (filter (λ a, a ∉ areas) (ms_Devices membership ≫= mm_AreaIDs)).
Definition validateCanvasMapMembership (membership : CanvasMapMembership) : result unit :=
  let! _ := validate_members ∅ (ms_Devices membership) in
  let! _ := validate_ids "link" ∅ (ms_LinkIDs membership) in
  let! _ := validate_ids "area" ∅ (ma_AreaID <$> ms_Areas membership) in
  match stray_area membership with
  | Some a => Err ("canvas map device area " +:+ uuid_String a +:+ " is not present in area membership")%string
  | None => Ok tt
  end.

(** ** Reading maps *)

Definition read_map (d : MapDB) (id : UUID) (r : MapRow) : CanvasMap :=
  mkCanvasMap id (mr_Name r) (mr_Description r) (mr_SourceAreaID r) (mr_FilterJSON r) (mr_IsDefault r) (mr_Materialized r)
    (count_of id (t_map_devices d)) (Z.of_nat (length (ids_of id (t_map_links d)))) (count_of id (t_map_positions d)) (mr_CreatedAt r) (mr_UpdatedAt r).

Definition required (id : UUID) (what : string) : result unit := if id =? uuid_Nil then Err (what +:+ " is required")%string else Ok tt.
Definition canvas_map_not_found (id : UUID) : string := ("canvas map not found: " +:+ uuid_String id)%string.

Definition scan_map (id : UUID) (d : MapDB) : result CanvasMap :=
  match t_maps d !! id with Some r => Ok (read_map d id r) | None => Err "canvas map not found" end.
Definition GetByID (id : UUID) (d : MapDB) : result CanvasMap := let! _ := required id "canvas map id" in scan_map id d.
Definition GetDefault (d : MapDB) : result CanvasMap :=
  match filter (λ e : UUID * MapRow, mr_IsDefault e.2 = true) (map_to_list (t_maps d)) with
  | (id, r) :: _ => Ok (read_map d id r)
  | [] => Err "canvas map not found"
  end.

(** [ORDER BY is_default DESC, name ASC, id ASC] *)
Definition map_le `{Database} (a b : CanvasMap) : Prop :=
  if cm_IsDefault a then (if cm_IsDefault b then collate (cm_Name a) (cm_Name b) = true ∧ (collate (cm_Name b) (cm_Name a) = true → cm_ID a <= cm_ID b) else True)
  else if cm_IsDefault b then False
  else collate (cm_Name a) (cm_Name b) = true ∧ (collate (cm_Name b) (cm_Name a) = true → cm_ID a <= cm_ID b).
#[export] Instance map_le_dec `{Database} : RelDecision map_le.
Proof. intros a b. unfold map_le. destruct (cm_IsDefault a), (cm_IsDefault b); apply _. Defined.
Definition List_maps `{Database} (d : MapDB) : list CanvasMap := merge_sort map_le ((λ e, read_map d e.1 e.2) <$> map_to_list (t_maps d)).

Definition read_op {A} (f : MapDB → result A) : Op A := λ d, (d, f d).

(** ** Lifecycle *)

Definition lockCanvasMap (id : UUID) : Tx unit := tx_reject (λ d, negb (bool_decide (is_Some (t_maps d !! id)))) (canvas_map_not_found id).
Definition ensureCanvasMapExists (id : UUID) (d : MapDB) : result unit := if bool_decide (is_Some (t_maps d !! id)) then Ok tt else Err (canvas_map_not_found id).
Definition alter_map (id : UUID) (f : MapRow → MapRow) : Tx unit := tx_write (λ d, d <| t_maps := alter f id (t_maps d) |>).
Definition touch (now : Time) (id : UUID) : Tx unit := alter_map id (λ r, r <| mr_UpdatedAt := now |>).

(** [idx_canvas_maps_default] *)
Definition has_default (d : MapDB) : bool := existsb (λ e : UUID * MapRow, mr_IsDefault e.2) (map_to_list (t_maps d)).
(** [source_area_id REFERENCES areas(id)] *)
Definition references_area (area : option UUID) : Tx unit := match area with Some a => references t_areas a | None => tx_ret tt end.
Definition insert_map (id : UUID) (r : MapRow) : Tx unit :=
  references_area (mr_SourceAreaID r) ;;
  tx_reject (λ d, mr_IsDefault r && has_default d) pk_violation ;;
  insert_row t_maps id r.

Record CanvasMapCreate := { nc_Name : string; nc_Description : string; nc_SourceAreaID : option UUID; nc_Filter : CanvasMapFilter; nc_IsDefault : bool }.
Record CanvasMapUpdate := { nu_Name : option string; nu_Description : option string; nu_SourceAreaID : option UUID; nu_SourceAreaIDSet : bool; nu_Filter : option CanvasMapFilter }.

Definition Create `{FilterJSON} (new : UUID) (now : Time) (input : CanvasMapCreate) : Op CanvasMap :=
  let+ _ := op_ret (ValidateCanvasMapName (nc_Name input)) in
  let+ _ := op_ret (ValidateCanvasMapDescription (nc_Description input)) in
  let+ _ := run (insert_map new (mkMapRow (nc_Name input) (nc_Description input) (nc_SourceAreaID input) (CanonicalCanvasMapFilterJSON (nc_Filter input))
                                    (nc_IsDefault input) false now now)) in
  read_op (GetByID new).

(** An optional field that is checked when it is given. *)
Definition checked (check : string → result unit) (given : option string) (current : string) : result string :=
  match given with None => Ok current | Some s => let! _ := check s in Ok s end.

Definition Update_tx (now : Time) (id : UUID) (name description : string) (source : option UUID) (json : string) : Tx unit :=
  lockCanvasMap id ;; references_area source ;;
  alter_map id (λ r, mkMapRow name description source json (mr_IsDefault r) (mr_Materialized r) (mr_CreatedAt r) now).
Definition Update_map `{FilterJSON} (now : Time) (id : UUID) (input : CanvasMapUpdate) : Op CanvasMap :=
  let+ current := read_op (GetByID id) in
  let+ name := op_ret (checked ValidateCanvasMapName (nu_Name input) (cm_Name current)) in
  let+ description := op_ret (checked ValidateCanvasMapDescription (nu_Description input) (cm_Description current)) in
  let source := if nu_SourceAreaIDSet input then nu_SourceAreaID input else cm_SourceAreaID current in
  let json := match nu_Filter input with Some mf => CanonicalCanvasMapFilterJSON mf | None => cm_FilterJSON current end in
  let+ _ := run (Update_tx now id name description source json) in
  read_op (GetByID id).

Definition SetPrimary_tx (now : Time) (id : UUID) : Tx unit :=
  lockCanvasMap id ;;
  tx_write (λ d, d <| t_maps := (λ r, if mr_IsDefault r then r <| mr_IsDefault := false |> <| mr_UpdatedAt := now |> else r) <$> t_maps d |>) ;;
  alter_map id (λ r, r <| mr_IsDefault := true |> <| mr_UpdatedAt := now |>).
Definition SetPrimary (now : Time) (id : UUID) : Op CanvasMap :=
  let+ _ := op_ret (required id "canvas map id") in
  let+ _ := run (SetPrimary_tx now id) in
  read_op (GetByID id).

Definition Delete_tx (id : UUID) : Tx bool :=
  let* rows := tx_read (λ d, match t_maps d !! id with Some r => negb (mr_IsDefault r) | None => false end) in
  tx_write (λ d, if rows then delete_map id d else d) ;;
  tx_ret rows.
Definition Delete (id : UUID) : Op unit :=
  let+ deleted := run (Delete_tx id) in
  if deleted then op_ret (Ok tt)
  else
    let+ canvasMap := read_op (GetByID id) in
    if cm_IsDefault canvasMap then op_ret (Err ErrDefaultMapDelete) else op_ret (Err (canvas_map_not_found id)).

(** The rows of one map again under another. *)
Definition copy_rows {A} (source copy : UUID) (t : gmap (UUID * UUID) A) : gmap (UUID * UUID) A :=
  list_to_map ((λ e, ((copy, e.1), e.2)) <$> rows_of source t) ∪ t.
Definition copy_ids (source copy : UUID) (s : gset (UUID * UUID)) : gset (UUID * UUID) := list_to_set (pair copy <$> ids_of source s) ∪ s.

(** The areas of the base members of a map, in the global catalogue. *)
Definition base_members (m : UUID) (d : MapDB) : list UUID := fst <$> filter (λ e : UUID * MemberRow, me_Role e.2 = CanvasMapDeviceRoleBase) (rows_of m (t_map_devices d)).
Definition backfillCanvasMapAreasFromMemberDevices (now : Time) (mapID : UUID) : Tx unit :=
  let* ids := tx_read (λ d, remove_dups (merge_sort Z.le (base_members mapID d ≫= area_ids d))) in
  tx_each (λ a, let* area := tx_read (λ d, t_areas d !! a) in
                match area with
                | Some area => insert_missing t_map_areas (mapID, a) (mkMapAreaRow (ar_Name area) (ar_Description area) (ar_Color area) now)
                | None => tx_ret tt
                end) ids.
Definition backfillCanvasMapDeviceAreasFromMemberDevices (mapID : UUID) : Tx unit :=
  tx_write (λ d, d <| t_map_device_areas :=
    list_to_set (base_members mapID d ≫= λ id, (λ a, (mapID, id, a)) <$> filter (λ a, is_Some (t_map_areas d !! (mapID, a))) (area_ids d id)) ∪ t_map_device_areas d |>).
Definition device_areas_of (m : UUID) (d : MapDB) : gset (UUID * UUID * UUID) := filter (λ e, e.1.1 = m) (t_map_device_areas d).

Definition Duplicate_tx (new : UUID) (now : Time) (id : UUID) (name : string) : Tx unit :=
  let* found := tx_read (scan_map id) in
  let* source := tx_lift found in
  insert_map new (mkMapRow name (cm_Description source) (cm_SourceAreaID source) (cm_FilterJSON source) false (cm_MembershipMaterialized source) now now) ;;
  tx_write (λ d, d <| t_map_positions := copy_rows id new (t_map_positions d) |>) ;;
  tx_write (λ d, d <| t_map_devices := copy_rows id new (t_map_devices d) |>) ;;
  tx_write (λ d, d <| t_map_links := copy_ids id new (t_map_links d) |>) ;;
  tx_write (λ d, d <| t_map_link_routes :=
    list_to_map ((λ e, ((new, e.1), e.2)) <$> filter (λ e : UUID * RouteRow, (new, e.1) ∈ t_map_links d) (rows_of id (t_map_link_routes d))) ∪ t_map_link_routes d |>) ;;
  tx_write (λ d, d <| t_map_areas := copy_rows id new (t_map_areas d) |>) ;;
  let* areaCount := tx_read (λ d, count_of new (t_map_areas d)) in
  (if areaCount =? 0 then backfillCanvasMapAreasFromMemberDevices now new else tx_ret tt) ;;
  tx_write (λ d, d <| t_map_device_areas := set_map (λ e : UUID * UUID * UUID, (new, e.1.2, e.2)) (device_areas_of id d) ∪ t_map_device_areas d |>) ;;
  let* deviceAreaCount := tx_read (λ d, size (device_areas_of new d)) in
  if (deviceAreaCount =? 0)%nat then backfillCanvasMapDeviceAreasFromMemberDevices new else tx_ret tt.
Definition Duplicate (new : UUID) (now : Time) (id : UUID) (name : string) : Op CanvasMap :=
  let+ _ := op_ret (ValidateCanvasMapName name) in
  let+ _ := run (Duplicate_tx new now id name) in
  read_op (GetByID new).

(** ** Membership *)

Definition GetMembershipForExistingMap (id : UUID) (d : MapDB) : CanvasMapMembership :=
  let areas := λ dev, merge_sort Z.le (snd <$> filter (λ e : UUID * UUID * UUID, e.1 = (id, dev)) (elements (t_map_device_areas d))) in
  mkMembership ((λ e, mkMember e.1 (me_Role e.2) (areas e.1) (me_VisualColor e.2)) <$> rows_of id (t_map_devices d))
    (ids_of id (t_map_links d))
    ((λ e, mkArea e.1 (mw_Name e.2) (mw_Description e.2) (mw_Color e.2)) <$> rows_of id (t_map_areas d)).
Definition GetMembership (id : UUID) (d : MapDB) : result CanvasMapMembership :=
  let! _ := required id "canvas map id" in
  let! _ := ensureCanvasMapExists id d in
  Ok (GetMembershipForExistingMap id d).

Definition ListMemberDeviceIDs (d : MapDB) : list UUID :=
  merge_sort Z.le (elements (set_map snd (dom (t_map_devices d)) : gset UUID)).

Definition insert_member (id : UUID) (m : CanvasMapDeviceMembership) : Tx unit :=
  references t_maps id ;; references t_devices (mm_DeviceID m) ;;
  insert_row t_map_devices (id, mm_DeviceID m) (mkMemberRow (mm_Role m) (mm_VisualColor m)).
Definition insert_map_link (strict : bool) (id linkID : UUID) : Tx unit :=
  references t_maps id ;; references t_links linkID ;;
  tx_reject (λ d, strict && bool_decide ((id, linkID) ∈ t_map_links d)) pk_violation ;;
  tx_write (λ d, d <| t_map_links := {[(id, linkID)]} ∪ t_map_links d |>).
Definition area_row (now : Time) (a : CanvasMapAreaMembership) : MapAreaRow := mkMapAreaRow (ma_Name a) (ma_Description a) (ma_Color a) now.
Definition insert_map_area (now : Time) (id : UUID) (a : CanvasMapAreaMembership) : Tx unit :=
  references t_maps id ;; insert_row t_map_areas (id, ma_AreaID a) (area_row now a).
Definition insert_device_area (id dev area : UUID) : Tx unit :=
  references t_map_devices (id, dev) ;; references t_map_areas (id, area) ;;
  tx_write (λ d, d <| t_map_device_areas := {[(id, dev, area)]} ∪ t_map_device_areas d |>).

Definition insertCanvasMapDeviceAreas (mapID : UUID) (devices : list CanvasMapDeviceMembership) : Tx unit :=
  tx_each (λ m, let* areaIDs := tx_lift (validateCanvasMapUUIDList (mm_AreaIDs m) "device area_id") in
                tx_each (insert_device_area mapID (mm_DeviceID m)) areaIDs) devices.

Definition clear_device_areas (mapID deviceID : UUID) : Tx unit :=
  tx_write (λ d, d <| t_map_device_areas := filter (λ e : UUID * UUID * UUID, e.1 ≠ (mapID, deviceID)) (t_map_device_areas d) |>).

Definition pruneCanvasMapPositionsForMembership (mapID : UUID) (devices : list CanvasMapDeviceMembership) : Tx unit :=
  tx_write (λ d, d <| t_map_positions := filter (λ e : UUID * UUID * PositionRow, e.1.1 ≠ mapID ∨ e.1.2 ∈ (mm_DeviceID <$> devices)) (t_map_positions d) |>).
Definition pruneCanvasMapLinkRoutesForMembership (mapID : UUID) : Tx unit :=
  tx_write (λ d, d <| t_map_link_routes := filter (λ e : UUID * UUID * RouteRow, e.1.1 ≠ mapID ∨ e.1 ∈ t_map_links d) (t_map_link_routes d) |>).

Definition clear_membership (id : UUID) : Tx unit :=
  tx_write (λ d, d <| t_map_device_areas := filter (λ e : UUID * UUID * UUID, e.1.1 ≠ id) (t_map_device_areas d) |>) ;;
  tx_write (delete_members (λ k, k.1 =? id)) ;;
  tx_write (λ d, d <| t_map_links := filter (λ e : UUID * UUID, e.1 ≠ id) (t_map_links d) |>) ;;
  tx_write (delete_map_areas (λ k, k.1 =? id)).
Definition materialized (now : Time) (id : UUID) : Tx unit := alter_map id (λ r, r <| mr_Materialized := true |> <| mr_UpdatedAt := now |>).

(** The rows of a map replaced by those of a membership. *)
Definition write_membership (now : Time) (id : UUID) (membership : CanvasMapMembership) : Tx unit :=
  clear_membership id ;;
  tx_each (insert_member id) (ms_Devices membership) ;;
  tx_each (insert_map_link true id) (ms_LinkIDs membership) ;;
  tx_each (insert_map_area now id) (ms_Areas membership) ;;
  insertCanvasMapDeviceAreas id (ms_Devices membership) ;;
  pruneCanvasMapPositionsForMembership id (ms_Devices membership) ;;
  pruneCanvasMapLinkRoutesForMembership id ;;
  materialized now id.
Definition ReplaceMembership (now : Time) (id : UUID) (membership : CanvasMapMembership) : Tx unit :=
  tx_lift (required id "canvas map id") ;;
  tx_lift (validateCanvasMapMembership membership) ;;
  lockCanvasMap id ;;
  write_membership now id membership.

(** [ON CONFLICT DO UPDATE SET role = excluded.role, visual_color = COALESCE(excluded.visual_color, ..)] *)
Definition upsert_member (id : UUID) (m : CanvasMapDeviceMembership) : Tx unit :=
  references t_maps id ;; references t_devices (mm_DeviceID m) ;;
  tx_write (λ d, let old := t_map_devices d !! (id, mm_DeviceID m) in
    let color := match mm_VisualColor m with Some c => Some c | None => old ≫= me_VisualColor end in
    d <| t_map_devices := <[(id, mm_DeviceID m) := mkMemberRow (mm_Role m) color]> (t_map_devices d) |>).

Definition AddDeviceMembership (now : Time) (id : UUID) (device : CanvasMapDeviceMembership) (linkIDs : list UUID) (areas : list CanvasMapAreaMembership) : Tx unit :=
  tx_lift (required id "canvas map id") ;;
  tx_lift (required (mm_DeviceID device) "device id") ;;
  tx_lift (validateCanvasMapMembership (mkMembership [device] linkIDs areas)) ;;
  lockCanvasMap id ;;
  upsert_member id device ;;
  tx_each (insert_map_link false id) linkIDs ;;
  tx_each (λ a, references t_maps id ;; insert_missing t_map_areas (id, ma_AreaID a) (area_row now a)) areas ;;
  clear_device_areas id (mm_DeviceID device) ;;
  insertCanvasMapDeviceAreas id [device] ;;
  materialized now id.

Definition UpdateDeviceAreaMemberships (now : Time) (id : UUID) (deviceIDs areaIDs : list UUID) : Tx unit :=
  tx_lift (required id "canvas map id") ;;
  let* devices := tx_lift (validateCanvasMapUUIDList deviceIDs "device_id") in
  tx_reject (λ _, bool_decide (devices = [])) "at least one device_id is required" ;;
  let* areas := tx_lift (validateCanvasMapUUIDList areaIDs "area_id") in
  lockCanvasMap id ;;
  tx_each (λ dev, tx_reject (λ d, negb (bool_decide (is_Some (t_map_devices d !! (id, dev)))))
                    ("canvas map device " +:+ uuid_String dev +:+ " is not a member of map " +:+ uuid_String id)) devices ;;
  tx_each (λ a, tx_reject (λ d, negb (bool_decide (is_Some (t_map_areas d !! (id, a)))))
                  ("canvas map area " +:+ uuid_String a +:+ " is not a member of map " +:+ uuid_String id)) areas ;;
  tx_each (clear_device_areas id) devices ;;
  tx_each (λ dev, tx_each (insert_device_area id dev) areas) devices ;;
  touch now id.

Definition UpdateDeviceVisualColor (now : Time) (id deviceID : UUID) (color : option string) : Tx unit :=
  tx_lift (required id "canvas map id") ;;
  tx_lift (required deviceID "device id") ;;
  lockCanvasMap id ;;
  tx_reject (λ d, negb (bool_decide (is_Some (t_map_devices d !! (id, deviceID)))))
    ("canvas map device " +:+ uuid_String deviceID +:+ " is not a member of map " +:+ uuid_String id) ;;
  tx_write (λ d, d <| t_map_devices := alter (λ r, mkMemberRow (me_Role r) color) (id, deviceID) (t_map_devices d) |>) ;;
  touch now id.

Definition ends_at (d : MapDB) (deviceID linkID : UUID) : bool := match t_links d !! linkID with Some l => link_end deviceID (ln_Link l) | None => false end.
Definition RemoveDevice (now : Time) (id deviceID : UUID) : Tx unit :=
  tx_lift (required id "canvas map id") ;;
  tx_lift (required deviceID "device id") ;;
  lockCanvasMap id ;;
  tx_write (delete_members (λ k, bool_decide (k = (id, deviceID)))) ;;
  tx_write (λ d, d <| t_map_positions := delete (id, deviceID) (t_map_positions d) |>) ;;
  tx_write (λ d, d <| t_map_links := filter (λ e : UUID * UUID,
    negb ((e.1 =? id) && ends_at d deviceID e.2) = true) (t_map_links d) |>) ;;
  pruneCanvasMapLinkRoutesForMembership id ;;
  touch now id.

Definition RemoveLink (now : Time) (id linkID : UUID) : Tx unit :=
  tx_lift (required id "canvas map id") ;;
  tx_lift (required linkID "link id") ;;
  lockCanvasMap id ;;
  tx_write (λ d, d <| t_map_links := t_map_links d ∖ {[(id, linkID)]} |>) ;;
  pruneCanvasMapLinkRoutesForMembership id ;;
  touch now id.

(** ** Areas of a map *)

Definition area_with_count (id : UUID) (d : MapDB) (area : UUID) (r : MapAreaRow) : AreaWithCount :=
  let base := λ e : UUID * UUID * UUID, match t_map_devices d !! e.1 with Some m => bool_decide (me_Role m = CanvasMapDeviceRoleBase) | None => false end in
  {| ac_Area := {| ar_ID := area; ar_Name := mw_Name r; ar_Description := mw_Description r; ar_Color := mw_Color r |};
     ac_DeviceCount := Z.of_nat (size (filter (λ e, (e.1.1 =? id) && (e.2 =? area) && base e = true) (t_map_device_areas d))) |}.
Definition getCanvasMapArea (mapID areaID : UUID) (d : MapDB) : result AreaWithCount :=
  match t_map_areas d !! (mapID, areaID) with Some r => Ok (area_with_count mapID d areaID r) | None => Err "canvas map area not found" end.

(** [ORDER BY name ASC, area_id ASC] *)
Definition area_count_le `{Database} (a b : AreaWithCount) : Prop := area_le (ac_Area a) (ac_Area b).
#[export] Instance area_count_le_dec `{Database} : RelDecision area_count_le.
Proof. intros a b. unfold area_count_le. apply _. Defined.
Definition ListAreas `{Database} (id : UUID) (d : MapDB) : result (list AreaWithCount) :=
  let! _ := required id "canvas map id" in
  let! _ := ensureCanvasMapExists id d in
  Ok (merge_sort area_count_le ((λ e, area_with_count id d e.1 e.2) <$> rows_of id (t_map_areas d))).

Definition ensureCanvasMapAreaNameAvailable (mapID areaID : UUID) (name : string) : Tx unit :=
  tx_reject (λ d, existsb (λ e : UUID * MapAreaRow, negb (e.1 =? areaID) && String.eqb (mw_Name e.2) name) (rows_of mapID (t_map_areas d)))
    ("canvas map area name already exists: " +:+ name).

Definition CreateArea (new : UUID) (now : Time) (id : UUID) (area : CanvasMapAreaMembership) : Tx AreaWithCount :=
  tx_lift (required id "canvas map id") ;;
  let areaID := if ma_AreaID area =? uuid_Nil then new else ma_AreaID area in
  lockCanvasMap id ;;
  ensureCanvasMapAreaNameAvailable id areaID (ma_Name area) ;;
  insert_map_area now id (mkArea areaID (ma_Name area) (ma_Description area) (ma_Color area)) ;;
  touch now id ;;
  let* created := tx_read (getCanvasMapArea id areaID) in
  tx_lift created.

Definition canvas_map_area_not_found (areaID : UUID) : string := ("canvas map area not found: " +:+ uuid_String areaID)%string.
Definition UpdateArea (now : Time) (id areaID : UUID) (area : CanvasMapAreaMembership) : Tx AreaWithCount :=
  tx_lift (required id "canvas map id") ;;
  tx_lift (required areaID "canvas map area id") ;;
  lockCanvasMap id ;;
  ensureCanvasMapAreaNameAvailable id areaID (ma_Name area) ;;
  tx_reject (λ d, negb (bool_decide (is_Some (t_map_areas d !! (id, areaID))))) (canvas_map_area_not_found areaID) ;;
  tx_write (λ d, d <| t_map_areas := alter (λ r, mkMapAreaRow (ma_Name area) (ma_Description area) (ma_Color area) (mw_AddedAt r)) (id, areaID) (t_map_areas d) |>) ;;
  touch now id ;;
  let* updated := tx_read (getCanvasMapArea id areaID) in
  tx_lift updated.

Definition DeleteArea (now : Time) (id areaID : UUID) : Tx unit :=
  tx_lift (required id "canvas map id") ;;
  tx_lift (required areaID "canvas map area id") ;;
  lockCanvasMap id ;;
  tx_reject (λ d, negb (bool_decide (is_Some (t_map_areas d !! (id, areaID))))) (canvas_map_area_not_found areaID) ;;
  tx_write (delete_map_areas (λ k, bool_decide (k = (id, areaID)))) ;;
  touch now id.

(** ** Positions *)

Definition GetAllForMap (mapID : UUID) (d : MapDB) : result (list DevicePosition) :=
  let! _ := required mapID "canvas map id" in
  Ok ((λ e, read_position e.1 e.2) <$> rows_of mapID (t_map_positions d)).

(** The loop looks each device up once; looking it up again gives the same answer. *)
Definition rejectCanvasMapNonMemberPositions (mapID : UUID) (positions : list DevicePosition) : Tx unit :=
  let* row := tx_read (λ d, t_maps d !! mapID) in
  match row with
  | None => tx_fail "checking canvas map materialization: sql: no rows in result set"
  | Some r =>
    if negb (mr_Materialized r) then tx_ret tt
    else tx_each (λ p, tx_reject (λ d, negb (dp_DeviceID p =? uuid_Nil) && negb (bool_decide (is_Some (t_map_devices d !! (mapID, dp_DeviceID p)))))
                         ("device " +:+ uuid_String (dp_DeviceID p) +:+ " is not a member of canvas map " +:+ uuid_String mapID)) positions
  end.

Definition SaveAllForMap (now : Time) (mapID : UUID) (positions : list DevicePosition) : Tx unit :=
  tx_lift (required mapID "canvas map id") ;;
  match positions with
  | [] => tx_ret tt
  | _ =>
    rejectCanvasMapNonMemberPositions mapID positions ;;
    tx_each (λ p, tx_reject (λ _, dp_DeviceID p =? uuid_Nil) "canvas map position device_id is required" ;;
                  references t_maps mapID ;; references t_devices (dp_DeviceID p) ;;
                  tx_write (λ d, d <| t_map_positions := <[(mapID, dp_DeviceID p) := position_row now p]> (t_map_positions d) |>)) positions
  end.

Definition DeleteByDeviceID (deviceID : UUID) : Tx unit :=
  tx_lift (required deviceID "device id") ;;
  tx_write (λ d, d <| t_map_positions := filter (λ e : UUID * UUID * PositionRow, e.1.2 ≠ deviceID) (t_map_positions d) |>).

(** ** Routes of links *)

Definition CanvasMapLinkRouteVersion : Z := 1.
Definition CanvasMapLinkRouteMaxWaypoints : nat := 16.
Record CanvasMapLinkRoute := mkRoute { rl_LinkID : UUID; rl_Version : Z; rl_Waypoints : list CanvasPoint; rl_UpdatedAt : Time }.
Definition ErrCanvasMapLinkRouteNotMember : string := "link is not a member of the canvas map".

Definition infinite (f : float64) : bool := f64_is_nan f || f64_is_inf f.
Fixpoint validate_waypoints (i : nat) (l : list CanvasPoint) : result unit :=
  match l with
  | [] => Ok tt
  | p :: l =>
    if infinite (pt_X p) then Err ("waypoints[" +:+ Itoa (Z.of_nat i) +:+ "].x must be finite")%string
    else if infinite (pt_Y p) then Err ("waypoints[" +:+ Itoa (Z.of_nat i) +:+ "].y must be finite")%string
    else validate_waypoints (S i) l
  end.
Definition ValidateCanvasMapLinkRoute (route : CanvasMapLinkRoute) : result unit :=
  if rl_LinkID route =? uuid_Nil then Err "link_id is required"
  else if negb (rl_Version route =? CanvasMapLinkRouteVersion) then Err "version must be 1"
  else if (length (rl_Waypoints route) <? 1)%nat || (CanvasMapLinkRouteMaxWaypoints <? length (rl_Waypoints route))%nat then Err "waypoints must contain between 1 and 16 points"
  else validate_waypoints 0 (rl_Waypoints route).

(** Reading validates the stored rows again; the first that is not valid fails the read. *)
Fixpoint scan_routes (l : list (UUID * RouteRow)) : result (list CanvasMapLinkRoute) :=
  match l with
  | [] => Ok []
  | (id, r) :: l =>
    let route := mkRoute id (ro_Version r) (ro_Waypoints r) (ro_UpdatedAt r) in
    let! _ := ValidateCanvasMapLinkRoute route in
    let! routes := scan_routes l in
    Ok (route :: routes)
  end.
Definition GetAllRoutesForMap (mapID : UUID) (d : MapDB) : result (list CanvasMapLinkRoute) :=
  let! _ := required mapID "canvas map id" in
  scan_routes (rows_of mapID (t_map_link_routes d)).

Definition lockCanvasMapForLinkRoute (mapID : UUID) : Tx unit := lockCanvasMap mapID.
Definition lockCanvasMapLinkMembership (mapID linkID : UUID) : Tx unit :=
  tx_reject (λ d, negb (bool_decide ((mapID, linkID) ∈ t_map_links d)))
    ("link " +:+ uuid_String linkID +:+ " on canvas map " +:+ uuid_String mapID +:+ ": " +:+ ErrCanvasMapLinkRouteNotMember).

Definition UpsertForMap (now : Time) (mapID : UUID) (route : CanvasMapLinkRoute) : Tx CanvasMapLinkRoute :=
  tx_lift (required mapID "canvas map id") ;;
  tx_lift (ValidateCanvasMapLinkRoute route) ;;
  lockCanvasMapForLinkRoute mapID ;;
  lockCanvasMapLinkMembership mapID (rl_LinkID route) ;;
  tx_write (λ d, d <| t_map_link_routes := <[(mapID, rl_LinkID route) := mkRouteRow (rl_Version route) (rl_Waypoints route) now]> (t_map_link_routes d) |>) ;;
  tx_ret (mkRoute (rl_LinkID route) (rl_Version route) (rl_Waypoints route) now).
Definition DeleteForMap (mapID linkID : UUID) : Tx unit :=
  tx_lift (required mapID "canvas map id") ;;
  tx_lift (required linkID "link id") ;;
  lockCanvasMapForLinkRoute mapID ;;
  lockCanvasMapLinkMembership mapID linkID ;;
  tx_write (λ d, d <| t_map_link_routes := delete (mapID, linkID) (t_map_link_routes d) |>).

(** ** Isolating shared virtual devices *)

(** What [uuid.NewString] and [gen_random_uuid] draw for a device, a link and an address that is cloned. *)
Record CloneIDs := { new_device : UUID → UUID; new_link : UUID → UUID; new_address : UUID → UUID }.

Section isolate.
Context `{Database} (ids : CloneIDs) (now : Time) (mapID : UUID).

(** Members of the map that are virtual and on another map too. *)
Definition shared_virtual (d : MapDB) (id : UUID) : bool :=
  match t_devices d !! id with
  | Some m => is_virtual m && existsb (λ e : UUID * UUID * MemberRow, (e.1.2 =? id) && negb (e.1.1 =? mapID)) (map_to_list (t_map_devices d))
  | None => false
  end.
Definition clone_candidates (d : MapDB) : list UUID := filter (λ id, shared_virtual d id = true) (rows_of mapID (t_map_devices d)).*1.

(** The copy of a device: another id, no metrics source, addresses of its own, no interfaces. *)
Definition clone_device (m : MapDevice) : MapDevice :=
  let d := md_device m in
  let id := new_device ids (dev_ID d) in
  mkMapDevice {| dev_ID := id; dev_Hostname := dev_Hostname d; dev_SysName := dev_SysName d; dev_IP := dev_IP d;
     dev_SNMPCredentials := dev_SNMPCredentials d; dev_DeviceType := dev_DeviceType d;
     dev_PollClass := dev_PollClass d; dev_PollIntervalOverride := dev_PollIntervalOverride d;
     dev_PollingEnabled := dev_PollingEnabled d; dev_Status := dev_Status d; dev_Managed := dev_Managed d;
     dev_Interfaces := [];
     dev_Addresses := (λ a, {| addr_ID := new_address ids (addr_ID a); addr_DeviceID := id; addr_Address := addr_Address a; addr_Label := addr_Label a;
        addr_Role := addr_Role a; addr_IsPrimary := addr_IsPrimary a; addr_Priority := addr_Priority a; addr_ProbePorts := addr_ProbePorts a |}) <$> dev_Addresses d;
     dev_ProbePorts := dev_ProbePorts d; dev_AreaIDs := []; dev_MetricsSource := MetricsSourceNone;
     dev_TopologyDiscoveryMode := dev_TopologyDiscoveryMode d;
     dev_TopologyBootstrapState := dev_TopologyBootstrapState d |} (md_Tags m).

Definition insert_device (m : MapDevice) : Tx unit := tx_reject (ip_taken (md_ID m) m) pk_violation ;; insert_row t_devices (md_ID m) m.

(** [UPDATE .. SET id = new WHERE id = old] *)
Definition rename_key {A} (old new : UUID * UUID) (t : gmap (UUID * UUID) A) : gmap (UUID * UUID) A :=
  match t !! old with Some r => <[new := r]> (delete old t) | None => t end.

Definition rename_id (old new : UUID * UUID) (s : gset (UUID * UUID)) : gset (UUID * UUID) :=
  if bool_decide (old ∈ s) then {[new]} ∪ s ∖ {[old]} else s.

(** The area assignments and the position go over to the clone, the member is deleted. *)
Definition clone_places (old : UUID) : Tx unit :=
  let new := new_device ids old in
  tx_write (λ d, d <| t_map_device_areas :=
    set_map (λ e : UUID * UUID * UUID, (mapID, new, e.2)) (filter (λ e : UUID * UUID * UUID, e.1 = (mapID, old)) (t_map_device_areas d)) ∪ t_map_device_areas d |>) ;;
  tx_write (λ d, d <| t_map_positions := rename_key (mapID, old) (mapID, new) (t_map_positions d) |>) ;;
  tx_write (delete_members (λ k, bool_decide (k = (mapID, old)))).
Definition clone_row (old : UUID) : Tx unit :=
  let* row := tx_read (λ d, t_devices d !! old) in
  match row with Some m => insert_device (clone_device m) | None => tx_ret tt end.
Definition clone_membership (old : UUID) : Tx unit :=
  let* member := tx_read (λ d, t_map_devices d !! (mapID, old)) in
  match member with Some r => insert_row t_map_devices (mapID, new_device ids old) r | None => tx_ret tt end.
Definition clone_member (old : UUID) : Tx unit := clone_row old ;; clone_membership old ;; clone_places old.

(** [UNIQUE(source_device_id, source_if_name, target_device_id, target_if_name)] *)
Definition same_ends (a b : Link) : bool :=
  (lk_SourceDeviceID a =? lk_SourceDeviceID b) && String.eqb (lk_SourceIfName a) (lk_SourceIfName b) &&
  (lk_TargetDeviceID a =? lk_TargetDeviceID b) && String.eqb (lk_TargetIfName a) (lk_TargetIfName b).
Definition link_taken (l : Link) (d : MapDB) : bool :=
  existsb (λ e : UUID * LinkRow, negb (e.1 =? lk_ID l) && same_ends l (ln_Link e.2)) (map_to_list (t_links d)).
Definition insert_link (row : LinkRow) : Tx unit :=
  let l := ln_Link row in
  references t_devices (lk_SourceDeviceID l) ;; references t_devices (lk_TargetDeviceID l) ;;
  tx_reject (link_taken l) pk_violation ;;
  insert_row t_links (lk_ID l) row.

Definition remapped (clones : list UUID) (id : UUID) : UUID := if bool_decide (id ∈ clones) then new_device ids id else id.
Definition clone_link (clones : list UUID) (linkID : UUID) : Tx unit :=
  let* row := tx_read (λ d, t_links d !! linkID) in
  match row with
  | None => tx_ret tt
  | Some row =>
    let l := ln_Link row in
    if negb (bool_decide (lk_SourceDeviceID l ∈ clones) || bool_decide (lk_TargetDeviceID l ∈ clones)) then tx_ret tt
    else
      let new := new_link ids linkID in
      insert_link (mkLinkRow {| lk_ID := new; lk_SourceDeviceID := remapped clones (lk_SourceDeviceID l); lk_SourceIfName := lk_SourceIfName l;
        lk_TargetDeviceID := remapped clones (lk_TargetDeviceID l); lk_TargetIfName := lk_TargetIfName l; lk_CreatedAt := now |} (ln_Protocol row) now) ;;
      tx_write (λ d, d <| t_map_links := rename_id (mapID, linkID) (mapID, new) (t_map_links d) |>) ;;
      tx_write (λ d, d <| t_map_link_routes := rename_key (mapID, linkID) (mapID, new) (t_map_link_routes d) |>)
  end.

(** The clones are made in the order of their ids; the code takes the order of a Go map. *)
Definition IsolateVirtualDevices : Tx unit :=
  lockCanvasMap mapID ;;
  let* clones := tx_read clone_candidates in
  match clones with
  | [] => tx_ret tt
  | _ =>
    tx_each clone_member clones ;;
    let* links := tx_read (λ d, ids_of mapID (t_map_links d)) in
    tx_each (clone_link clones) links ;;
    touch now mapID
  end.
End isolate.

(** ** Migrations of the saved maps at start

    [migrations.go] on a database with all its tables; the projection is the loops of the source. *)

Definition canvasMapMigrationDeviceMatches (mf : CanvasMapFilter) (device : MapDevice) : bool :=
  let selected : gset UUID := list_to_set (mf_DeviceIDs mf) in
  (if negb (bool_decide (selected = ∅)) then bool_decide (md_ID device ∈ selected)
   else match mf_AreaID mf with Some a => existsb (λ b, b =? a) (md_AreaIDs device) | None => true end) &&
  forallb (λ '(key, expected), match md_Tags device !! key with Some actual => String.eqb actual expected | None => false end) (map_to_list (mf_Tags mf)).

(** Known devices, base devices and the projection so far. *)
Definition migration_device (mf : CanvasMapFilter) (acc : gset UUID * gset UUID * list MapDevice) (device : MapDevice) : gset UUID * gset UUID * list MapDevice :=
  let '(known, base, devices) := acc in
  if canvasMapMigrationDeviceMatches mf device then ({[md_ID device]} ∪ known, {[md_ID device]} ∪ base, devices ++ [device])
  else ({[md_ID device]} ∪ known, base, devices).
(** The links so far and the ghosts they need. *)
Definition migration_link (mf : CanvasMapFilter) (known base : gset UUID) (acc : list Link * gset UUID) (link : Link) : list Link * gset UUID :=
  let '(links, ghosts) := acc in
  let s := lk_SourceDeviceID link in
  let t := lk_TargetDeviceID link in
  if negb (bool_decide (s ∈ known)) || negb (bool_decide (t ∈ known)) then acc
  else
    let include := bool_decide (s ∈ base) && bool_decide (t ∈ base) in
    let include := if mf_IncludeCrossAreaLinks mf && (bool_decide (s ∈ base) || bool_decide (t ∈ base)) then true else include in
    if negb include then acc
    else if negb (mf_IncludeGhostDevices mf) then (links ++ [link], ghosts)
    else
      let ghosts := if bool_decide (s ∈ base) && negb (bool_decide (t ∈ base)) then {[t]} ∪ ghosts else ghosts in
      let ghosts := if bool_decide (t ∈ base) && negb (bool_decide (s ∈ base)) then {[s]} ∪ ghosts else ghosts in
      (links ++ [link], ghosts).
Definition migration_ghost (base ghosts : gset UUID) (acc : list MapDevice) (device : MapDevice) : list MapDevice :=
  if bool_decide (md_ID device ∈ base) then acc else if bool_decide (md_ID device ∈ ghosts) then acc ++ [device] else acc.

Definition projectCanvasMapMigrationTopology (devices : list MapDevice) (links : list Link) (mf : CanvasMapFilter) : TopologyProjection :=
  let '(known, base, baseDevices) := foldl (migration_device mf) (∅, ∅, []) devices in
  let '(shown, ghosts) := foldl (migration_link mf known base) ([], ∅) links in
  {| tp_Devices := baseDevices; tp_Links := shown;
     tp_GhostDevices := if mf_IncludeGhostDevices mf && negb (bool_decide (ghosts = ∅)) then foldl (migration_ghost base ghosts) [] devices else [] |}.

Definition canvasMapMigrationAreasForMembership (areas : list AreaWithCount) (baseDevices : list MapDevice) (mf : CanvasMapFilter) : list AreaWithCount :=
  let included : gset UUID := match mf_AreaID mf with Some a => {[a]} | None => foldl (λ s d, foldl (λ s a, {[a]} ∪ s) s (md_AreaIDs d)) ∅ baseDevices end in
  foldl (λ out a, if bool_decide (ar_ID (ac_Area a) ∈ included) then out ++ [a] else out) [] areas.
Definition canvasMapMigrationFilterDeviceAreaIDs (areaIDs : list UUID) (included : gset UUID) : list UUID :=
  foldl (λ out a, if bool_decide (a ∈ included) then out ++ [a] else out) [] areaIDs.

Definition materializeCanvasMapMigrationMembership (devices : list MapDevice) (links : list Link) (areas : list AreaWithCount) (mf : CanvasMapFilter) : CanvasMapMembership :=
  let projection := projectCanvasMapMigrationTopology devices links mf in
  let areaMemberships := canvasMapMigrationAreasForMembership areas (tp_Devices projection) mf in
  let included : gset UUID := foldl (λ s a, {[ar_ID (ac_Area a)]} ∪ s) ∅ areaMemberships in
  let base := foldl (λ out d, out ++ [mkMember (md_ID d) CanvasMapDeviceRoleBase (canvasMapMigrationFilterDeviceAreaIDs (md_AreaIDs d) included) None]) [] (tp_Devices projection) in
  let members := foldl (λ out d, out ++ [mkMember (md_ID d) CanvasMapDeviceRoleGhost [] None]) base (tp_GhostDevices projection) in
  mkMembership members (foldl (λ out l, out ++ [lk_ID l]) [] (tp_Links projection))
    (foldl (λ out a, let a := ac_Area a in out ++ [mkArea (ar_ID a) (ar_Name a) (ar_Description a) (ar_Color a)]) [] areaMemberships).

(** Only the id, the areas and the tags of a device are read here. *)
Definition canvasMapMigrationDevices (d : MapDB) : list MapDevice :=
  (λ e : UUID * MapDevice, with_AreaIDs (area_ids d e.1) (mkMapDevice
    {| dev_ID := e.1; dev_Hostname := ""; dev_SysName := ""; dev_IP := ""; dev_SNMPCredentials := dev_SNMPCredentials zeroDevice; dev_DeviceType := "";
       dev_PollClass := ""; dev_PollIntervalOverride := None; dev_PollingEnabled := None; dev_Status := ""; dev_Managed := false; dev_Interfaces := [];
       dev_Addresses := []; dev_ProbePorts := []; dev_AreaIDs := []; dev_MetricsSource := ""; dev_TopologyDiscoveryMode := ""; dev_TopologyBootstrapState := "" |}
    (md_Tags e.2))) <$> merge_sort id_le (map_to_list (t_devices d)).
Definition canvasMapMigrationLinks (d : MapDB) : list Link := (λ e, ln_Link e.2) <$> merge_sort id_le (map_to_list (t_links d)).
Definition canvasMapMigrationAreas (d : MapDB) : list AreaWithCount := (λ e, {| ac_Area := e.2; ac_DeviceCount := 0 |}) <$> merge_sort id_le (map_to_list (t_areas d)).
Definition migration_filter `{FilterJSON} (r : MapRow) : CanvasMapFilter :=
  let mf := match ParseCanvasMapFilter json_filter (mr_FilterJSON r) with Some mf => mf | None => emptyFilter end in
  match mf_AreaID mf, mr_SourceAreaID r with None, Some a => mf <| mf_AreaID := Some a |> | _, _ => mf end.
Definition unmaterializedCanvasMapsForMigration `{FilterJSON} (d : MapDB) : list (UUID * CanvasMapFilter) :=
  (λ e, (e.1, migration_filter e.2)) <$> merge_sort id_le (filter (λ e : UUID * MapRow, mr_Materialized e.2 = false) (map_to_list (t_maps d))).

Definition migrateCanvasMapMemberships `{FilterJSON} (now : Time) : Tx unit :=
  let* maps := tx_read unmaterializedCanvasMapsForMigration in
  let* devices := tx_read canvasMapMigrationDevices in
  let* links := tx_read canvasMapMigrationLinks in
  let* areas := tx_read canvasMapMigrationAreas in
  tx_each (λ e : UUID * CanvasMapFilter, write_membership now e.1 (materializeCanvasMapMigrationMembership devices links areas e.2)) maps.

(** Legacy positions where the map has none, of members only once the map is materialized. *)
Definition migrate_positions (id : UUID) (done : bool) : Tx unit :=
  tx_write (λ d, d <| t_map_positions := t_map_positions d ∪
    list_to_map ((λ e : UUID * PositionRow, ((id, e.1), e.2)) <$> filter (λ e : UUID * PositionRow, done = false ∨ is_Some (t_map_devices d !! (id, e.1))) (map_to_list (t_device_positions d))) |>).
(** Every device, link and area goes on the default map. *)
Definition migrate_default_members (now : Time) (id : UUID) : Tx unit :=
  tx_write (λ d, d <| t_map_devices := t_map_devices d ∪ list_to_map ((λ e : UUID * MapDevice, ((id, e.1), mkMemberRow CanvasMapDeviceRoleBase None)) <$> map_to_list (t_devices d)) |>) ;;
  tx_write (λ d, d <| t_map_links := t_map_links d ∪ set_map (pair id) (dom (t_links d)) |>) ;;
  tx_write (λ d, d <| t_map_areas := t_map_areas d ∪ list_to_map ((λ e : UUID * Area, ((id, e.1), mkMapAreaRow (ar_Name e.2) (ar_Description e.2) (ar_Color e.2) now)) <$> map_to_list (t_areas d)) |>) ;;
  materialized now id.
Definition find_default (d : MapDB) : option (UUID * MapRow) := head (filter (λ e : UUID * MapRow, mr_IsDefault e.2 = true) (map_to_list (t_maps d))).
Definition migrateDefaultCanvasMap (new : UUID) (now : Time) : Tx unit :=
  let* found := tx_read find_default in
  match found with
  | Some (id, r) => migrate_positions id (mr_Materialized r) ;; if mr_Materialized r then tx_ret tt else migrate_default_members now id
  | None => insert_map new (mkMapRow "Default" "Global canvas layout" None "{}" true false now now) ;; migrate_positions new false ;; migrate_default_members now new
  end.

Definition migrateCanvasMapDeviceAreaMemberships : Tx unit :=
  tx_write (λ d, d <| t_map_device_areas := t_map_device_areas d ∪
    list_to_set (map_to_list (t_map_devices d) ≫= λ e : UUID * UUID * MemberRow,
      if bool_decide (me_Role e.2 = CanvasMapDeviceRoleBase)
      then (λ a, (e.1.1, e.1.2, a)) <$> filter (λ a, is_Some (t_map_areas d !! (e.1.1, a))) (area_ids d e.1.2) else []) |>).

(** The part of [RunMigrations] about maps. *)
Definition migrate_maps `{FilterJSON} (new : UUID) (now : Time) : Op unit :=
  let+ _ := run (migrateDefaultCanvasMap new now) in
  let+ _ := run (migrateCanvasMapMemberships now) in
  run migrateCanvasMapDeviceAreaMemberships.
