(* ===== verification/LinkStore.v ===== *)
(** * The repository of links

    [internal/repository/postgres/link_repo.go] and [PhysicalInterfaceAnchor] of
    [internal/domain/link.go] over the tables of [MapStore]: manual links and the links discovery
    reports, which are merged with the row of the same cable and put on the maps both ends are on.
    The change events of the repository are those of [DeviceCacheSync]. *)

From S2P Require Import Prelude GoLib GoText Domain Addresses Runtime CanvasMap MapStore CanvasRepo.
From Stdlib Require Import String.
From stdpp Require Import base strings.
Open Scope store_scope.
Open Scope Z_scope.

(** ** Interface names *)

Definition has_digit (l : bytes) : bool := existsb (λ b, (48 <=? b) && (b <=? 57)) l.
Definition virtualHints : list string :=
  ["vlan"; "vrf"; "vpn"; "bridge"; "br-"; "bond"; "loopback"; "lo"; "gre"; "eoip"; "wg"; "wireguard"; "pppoe"; "ppp"; "sstp"; "ovpn";
   "l2tp"; "vxlan"; "veth"; "tap"; "tun"]%string.
Definition physicalPatterns : list string :=
  ["ether"; "eth"; "sfp-sfpplus"; "sfp"; "qsfp"; "ens"; "eno"; "enp"; "gigabitethernet"; "tengigabitethernet"; "fastethernet"; "ge-"; "xe-"; "et-"]%string.
Definition shortPrefixes : list string := ["gi"; "te"; "fo"; "port"]%string.

Definition anchor_byte (b : Z) : bool := ((97 <=? b) && (b <=? 122)) || ((48 <=? b) && (b <=? 57)) || (b =? 45) || (b =? 47).
Fixpoint take_while (p : Z → bool) (l : bytes) : bytes := match l with b :: r => if p b then b :: take_while p r else [] | [] => [] end.
(** The text from the pattern on, up to a byte no interface name has, without [- /] at its ends. *)
Definition anchor_from (normalized pattern : string) : option bytes :=
  match String.index 0 pattern normalized with
  | None => None
  | Some i =>
    let anchor := trim_set [45; 32; 47] (take_while anchor_byte (drop i (bytes_of normalized))) in
    if has_digit anchor then Some anchor else None
  end.
Fixpoint first_anchor (normalized : string) (patterns : list string) : option bytes :=
  match patterns with
  | [] => None
  | p :: patterns => match anchor_from normalized p with Some a => Some a | None => first_anchor normalized patterns end
  end.

Section names.
Context (unicode_lower : string → string).

Definition normalizeInterfaceName (name : string) : string := ToLower unicode_lower (TrimSpace name).
Definition PhysicalInterfaceAnchor (name : string) : string :=
  let normalized := normalizeInterfaceName name in
  if String.eqb normalized "" then ""
  else if existsb (Contains normalized) virtualHints then ""
  else match first_anchor normalized physicalPatterns with
  | Some anchor => string_of anchor
  | None => if existsb (λ p, String.prefix p normalized && has_digit (bytes_of normalized)) shortPrefixes then normalized else ""
  end.

(** How well a stored name fits an observed one; [None] when it does not. *)
Definition sameDirectionInterfaceScore (existing incoming : string) : option Z :=
  if String.eqb existing incoming then Some (if String.eqb existing "" then 1 else 3)
  else if String.eqb existing "" || String.eqb incoming "" then Some 0
  else None.
Definition compatibleInterfaceScore (existing incoming : string) : option Z :=
  if String.eqb existing "" || String.eqb incoming "" then Some 0
  else if String.eqb (normalizeInterfaceName existing) (normalizeInterfaceName incoming) then Some 3
  else
    let existingAnchor := PhysicalInterfaceAnchor existing in
    if negb (String.eqb existingAnchor "") && String.eqb existingAnchor (PhysicalInterfaceAnchor incoming) then Some 2 else None.

(** ** The row of the same cable *)

Definition add_scores (a b : option Z) : option Z := match a, b with Some a, Some b => Some (a + b) | _, _ => None end.

(** The candidates in order of creation: the best so far with its score, and whether another is as good. *)
Definition see_candidate (score : LinkRow → option Z) (acc : option (LinkRow * Z) * bool) (c : LinkRow) : option (LinkRow * Z) * bool :=
  match score c with
  | None => acc
  | Some n =>
    match acc.1 with
    | None => (Some (c, n), false)
    | Some (_, best) => if best <? n then (Some (c, n), false) else if n =? best then (acc.1, true) else acc
    end
  end.
Definition best_match (score : LinkRow → option Z) (rows : list LinkRow) : option LinkRow :=
  let '(best, ambiguous) := foldl (see_candidate score) (None, false) rows in
  if ambiguous then None else fst <$> best.

Definition rows_between (source target : UUID) (d : MapDB) : list LinkRow :=
  filter (λ r, lk_SourceDeviceID (ln_Link r) = source ∧ lk_TargetDeviceID (ln_Link r) = target) (link_rows d).

Definition same_score (link : Link) (r : LinkRow) : option Z :=
  add_scores (sameDirectionInterfaceScore (lk_SourceIfName (ln_Link r)) (lk_SourceIfName link))
             (sameDirectionInterfaceScore (lk_TargetIfName (ln_Link r)) (lk_TargetIfName link)).
Definition reverse_score (link : Link) (r : LinkRow) : option Z :=
  add_scores (compatibleInterfaceScore (lk_SourceIfName (ln_Link r)) (lk_TargetIfName link))
             (compatibleInterfaceScore (lk_TargetIfName (ln_Link r)) (lk_SourceIfName link)).

Definition findBestSameDirectionLinkMatch (link : Link) (d : MapDB) : option LinkRow :=
  best_match (same_score link) (rows_between (lk_SourceDeviceID link) (lk_TargetDeviceID link) d).
Definition findBestReverseLinkMatch (link : Link) (d : MapDB) : option LinkRow :=
  best_match (reverse_score link) (rows_between (lk_TargetDeviceID link) (lk_SourceDeviceID link) d).

Definition shouldReorientReverseLink (reverse link : Link) : bool :=
  String.eqb (lk_SourceIfName reverse) "" && negb (String.eqb (lk_SourceIfName link) "") && String.eqb (lk_TargetIfName link) "".

(** The first of the links between the two devices, in either direction, that names the same interfaces; a migrated
    browser link has none to compare. *)
Definition equivalent_link (migration : bool) (link r : Link) : bool :=
  if migration
  then ((lk_SourceDeviceID r =? lk_SourceDeviceID link) && (lk_TargetDeviceID r =? lk_TargetDeviceID link)) ||
       ((lk_SourceDeviceID r =? lk_TargetDeviceID link) && (lk_TargetDeviceID r =? lk_SourceDeviceID link))
  else same_ends r link ||
       ((lk_SourceDeviceID r =? lk_TargetDeviceID link) && String.eqb (lk_SourceIfName r) (lk_TargetIfName link) &&
        (lk_TargetDeviceID r =? lk_SourceDeviceID link) && String.eqb (lk_TargetIfName r) (lk_SourceIfName link)).
Definition findManualCreateEquivalentLink (link : Link) (migration : bool) (d : MapDB) : option LinkRow :=
  head (filter (λ r, equivalent_link migration link (ln_Link r) = true) (link_rows d)).

(** ** The maps both ends are on *)

Definition role_is_base (r : MemberRow) : bool := bool_decide (me_Role r = CanvasMapDeviceRoleBase).
Definition shows_both_ends (link : Link) (d : MapDB) (m : UUID) : bool :=
  match t_maps d !! m, t_map_devices d !! (m, lk_SourceDeviceID link), t_map_devices d !! (m, lk_TargetDeviceID link) with
  | Some r, Some s, Some t => mr_Materialized r && (role_is_base s || role_is_base t)
  | _, _, _ => false
  end.
Definition addLinkToMaterializedBaseEndpointMaps (now : Time) (link : Link) : Tx bool :=
  let* maps := tx_read (λ d, filter (λ m, shows_both_ends link d m = true ∧ (m, lk_ID link) ∉ t_map_links d) (map_to_list (t_maps d)).*1) in
  match maps with
  | [] => tx_ret false
  | _ =>
    tx_write (λ d, d <| t_map_links := list_to_set ((λ m, (m, lk_ID link)) <$> maps) ∪ t_map_links d |>) ;;
    tx_write (λ d, d <| t_maps := map_imap (λ m r, Some (if bool_decide ((m, lk_ID link) ∈ t_map_links d) then r <| mr_UpdatedAt := now |> else r)) (t_maps d) |>) ;;
    tx_ret true
  end.

(** ** Writing links *)

Definition with_id (id : UUID) (l : Link) : Link :=
  {| lk_ID := id; lk_SourceDeviceID := lk_SourceDeviceID l; lk_SourceIfName := lk_SourceIfName l; lk_TargetDeviceID := lk_TargetDeviceID l;
     lk_TargetIfName := lk_TargetIfName l; lk_CreatedAt := lk_CreatedAt l |}.
Definition with_interfaces (source target : string) (l : Link) : Link :=
  {| lk_ID := lk_ID l; lk_SourceDeviceID := lk_SourceDeviceID l; lk_SourceIfName := source; lk_TargetDeviceID := lk_TargetDeviceID l;
     lk_TargetIfName := target; lk_CreatedAt := lk_CreatedAt l |}.
(** The columns of a new row: an id is drawn where there is none, both instants are [now]. *)
Definition created_link (new : UUID) (now : Time) (row : LinkRow) : LinkRow :=
  let l := ln_Link row in
  mkLinkRow {| lk_ID := if lk_ID l =? uuid_Nil then new else lk_ID l; lk_SourceDeviceID := lk_SourceDeviceID l; lk_SourceIfName := lk_SourceIfName l;
     lk_TargetDeviceID := lk_TargetDeviceID l; lk_TargetIfName := lk_TargetIfName l; lk_CreatedAt := now |} (ln_Protocol row) now.
Definition update_link (row : LinkRow) : Tx unit :=
  tx_reject (link_taken (ln_Link row)) pk_violation ;;
  tx_write (λ d, d <| t_links := <[lk_ID (ln_Link row) := row]> (t_links d) |>).

Definition LinkRepo_Create (new : UUID) (now : Time) (row : LinkRow) : Tx LinkRow :=
  let row := created_link new now row in
  insert_link row ;; tx_ret row.
Definition LinkRepo_Update (now : Time) (link : Link) : Tx unit :=
  let* found := tx_read (λ d, t_links d !! lk_ID link) in
  match found with
  | None => tx_fail ("link not found: " +:+ uuid_String (lk_ID link))
  | Some r => update_link (mkLinkRow (with_interfaces (lk_SourceIfName link) (lk_TargetIfName link) (ln_Link r)) (ln_Protocol r) now)
  end.
Definition LinkRepo_Delete (id : UUID) : Tx unit :=
  tx_reject (λ d, negb (bool_decide (is_Some (t_links d !! id)))) ("link not found: " +:+ uuid_String id) ;;
  tx_write (delete_links (λ id' _, id' =? id)).

Definition CreateManualIdempotent (new : UUID) (now : Time) (row : LinkRow) (migration : bool) : Tx (LinkRow * bool) :=
  let* existing := tx_read (findManualCreateEquivalentLink (ln_Link row) migration) in
  match existing with
  | Some existing => let* _ := addLinkToMaterializedBaseEndpointMaps now (ln_Link existing) in tx_ret (existing, false)
  | None =>
    let row := created_link new now row in
    insert_link row ;;
    let* _ := addLinkToMaterializedBaseEndpointMaps now (ln_Link row) in
    tx_ret (row, true)
  end.

Inductive LinkUpsertKind := LinkUpsertKindCreated | LinkUpsertKindEnriched | LinkUpsertKindReoriented | LinkUpsertKindUpdated | LinkUpsertKindNoop.
Record LinkUpsertResult := mkUpsert { lu_Created : bool; lu_Changed : bool; lu_Kind : LinkUpsertKind }.

(** [if old == "" && new != "" { old = new }] *)
Definition filled (old new : string) : string := if String.eqb old "" && negb (String.eqb new "") then new else old.

(** The stored row [r] with the names [source] and [target] and the protocol observed now. *)
Definition merge_link (now : Time) (link : Link) (protocol : string) (r : LinkRow) (source target : string) : Tx LinkUpsertResult :=
  let portsChanged := negb (String.eqb source (lk_SourceIfName (ln_Link r))) || negb (String.eqb target (lk_TargetIfName (ln_Link r))) in
  let protocolChanged := negb (String.eqb (ln_Protocol r) protocol) in
  let link := with_id (lk_ID (ln_Link r)) link in
  if negb portsChanged && negb protocolChanged
  then let* membershipChanged := addLinkToMaterializedBaseEndpointMaps now link in
       tx_ret (mkUpsert false membershipChanged LinkUpsertKindNoop)
  else
    update_link (mkLinkRow (with_interfaces source target (ln_Link r)) protocol now) ;;
    let* _ := addLinkToMaterializedBaseEndpointMaps now link in
    tx_ret (mkUpsert false true (if portsChanged then LinkUpsertKindEnriched else LinkUpsertKindUpdated)).

(** The row takes the direction and the names of the observation. *)
Definition reorient_link (now : Time) (link : Link) (protocol : string) (r : LinkRow) : Tx LinkUpsertResult :=
  let link := with_id (lk_ID (ln_Link r)) link in
  update_link (mkLinkRow {| lk_ID := lk_ID link; lk_SourceDeviceID := lk_SourceDeviceID link; lk_SourceIfName := lk_SourceIfName link;
    lk_TargetDeviceID := lk_TargetDeviceID link; lk_TargetIfName := lk_TargetIfName link; lk_CreatedAt := lk_CreatedAt (ln_Link r) |} protocol now) ;;
  let* _ := addLinkToMaterializedBaseEndpointMaps now link in
  tx_ret (mkUpsert false true LinkUpsertKindReoriented).

Definition UpsertDetailed (new : UUID) (now : Time) (row : LinkRow) : Tx LinkUpsertResult :=
  let link := ln_Link row in
  let protocol := ln_Protocol row in
  let* sameDirection := tx_read (findBestSameDirectionLinkMatch link) in
  match sameDirection with
  | Some r => merge_link now link protocol r (filled (lk_SourceIfName (ln_Link r)) (lk_SourceIfName link)) (filled (lk_TargetIfName (ln_Link r)) (lk_TargetIfName link))
  | None =>
    let* reverse := tx_read (findBestReverseLinkMatch link) in
    match reverse with
    | Some r =>
      if shouldReorientReverseLink (ln_Link r) link then reorient_link now link protocol r
      else merge_link now link protocol r (filled (lk_SourceIfName (ln_Link r)) (lk_TargetIfName link)) (filled (lk_TargetIfName (ln_Link r)) (lk_SourceIfName link))
    | None =>
      let row := created_link new now row in
      insert_link row ;;
      let* _ := addLinkToMaterializedBaseEndpointMaps now (ln_Link row) in
      tx_ret (mkUpsert true true LinkUpsertKindCreated)
    end
  end.
Definition Upsert (new : UUID) (now : Time) (row : LinkRow) : Tx bool := let* r := UpsertDetailed new now row in tx_ret (lu_Created r).
End names.
