(* ===== verification/CanvasService.v ===== *)
(** * Saved maps: workflows and handlers

    [internal/service/canvasmap] ([materialization.go], [source_map_materialization.go],
    [default_position_copy.go], [add_device_workflow.go], [topology_load.go]) over the repositories of
    [CanvasRepo], and the handlers of [internal/api/canvas_map_handler.go] from the decoded request to
    the status and the message of the reply.  A workflow is a sequence of repository calls: an error
    ends it and leaves what the earlier calls committed. *)

From S2P Require Import Prelude GoLib GoText Domain Addresses Runtime CanvasMap MapStore CanvasRepo.
Open Scope store_scope.

Section workflows.
Context `{Database} `{FilterJSON} (unicode_lower : string → string).

(** [wrap..Error]: the stage before the error. *)
Definition staged {A} (stage : string) (p : Op A) : Op A :=
  λ d, match p d with (d', Err e) => (d', Err (stage +:+ ": " +:+ e)%string) | (d', Ok a) => (d', Ok a) end.
Definition look {A} (f : MapDB → A) : Op A := λ d, (d, Ok (f d)).

Definition ReplaceMaterializedMembership (now : Time) (mapID : UUID) (mf : CanvasMapFilter) : Op unit :=
  let+ devices := look DeviceService_GetAllDevices in
  let+ links := look LinkRepo_GetAll in
  let+ areas := look AreaRepo_GetAllWithDeviceCount in
  staged "replace" (run (ReplaceMembership now mapID (MaterializeMembership devices links areas mf))).

Definition LoadLinksByIDs (ids : list UUID) (d : MapDB) : list Link := match ids with [] => [] | _ => LinkRepo_GetByIDs ids d end.

Definition ReplaceMaterializedMembershipFromSourceMap (now : Time) (mapID sourceMapID : UUID) (mf : CanvasMapFilter) : Op unit :=
  let+ sourceMembership := staged "membership" (read_op (GetMembership sourceMapID)) in
  let+ devices := look (DeviceService_GetDevicesByIDs (MembershipDeviceIDs (ms_Devices sourceMembership))) in
  let+ links := look (LoadLinksByIDs (ms_LinkIDs sourceMembership)) in
  let+ fallbackAreas := look (λ d, match ms_Areas sourceMembership with [] => AreaRepo_GetAllWithDeviceCount d | _ => [] end) in
  let+ _ := staged "replace" (run (ReplaceMembership now mapID (sm_Membership (PlanSourceMapMaterialization devices links sourceMembership fallbackAreas mf [])))) in
  let+ sourcePositions := staged "positions" (read_op (GetAllForMap sourceMapID)) in
  let plan := PlanSourceMapMaterialization devices links sourceMembership fallbackAreas mf sourcePositions in
  if sm_ShouldSavePositions plan then staged "save_positions" (run (SaveAllForMap now mapID (sm_Positions plan))) else op_ret (Ok tt).

(** [hasLegacy] is [deps.LegacyPositions != nil]. *)
Definition CopyDefaultPositionsForMaterializedMembership (hasLegacy : bool) (now : Time) (mapID : UUID) : Op unit :=
  let+ defaultMap := staged "default_map" (read_op GetDefault) in
  if negb (ShouldCopyDefaultPositions mapID (cm_ID defaultMap)) then op_ret (Ok tt)
  else
    let+ membership := staged "membership" (read_op (GetMembership mapID)) in
    let+ sourcePositions := staged "positions" (read_op (GetAllForMap (cm_ID defaultMap))) in
    let+ legacyPositions := look (λ d, if bool_decide (sourcePositions = []) && hasLegacy then PositionRepo_GetAll d else []) in
    let plan := PlanDefaultPositionCopy mapID (cm_ID defaultMap) sourcePositions legacyPositions (ms_Devices membership) in
    if negb (cp_ShouldSave plan) then op_ret (Ok tt) else staged "save_positions" (run (SaveAllForMap now mapID (cp_Positions plan))).

(** [AreaMembershipsForDevice]: the first area that is not found ends it. *)
Fixpoint load_areas (d : MapDB) (ids : list UUID) : result (list Area) :=
  match ids with
  | [] => Ok []
  | a :: ids => let! area := AreaRepo_GetByID a d in let! areas := load_areas d ids in Ok (area :: areas)
  end.
Definition AreaMembershipsForDevice (device : MapDevice) (d : MapDB) : result (list CanvasMapAreaMembership) :=
  let! areas := load_areas d (md_AreaIDs device) in Ok (AreasToMembership areas).

Definition AddDeviceToMaterializedMembership (now : Time) (mapID deviceID : UUID) (includeConnectedLinks : bool) : Op unit :=
  let+ device := staged "device" (read_op (DeviceService_GetDevice deviceID)) in
  let+ membership := staged "membership" (read_op (GetMembership mapID)) in
  let existingMember := bool_decide (is_Some (MemberByDeviceID membership deviceID)) in
  let checked := negb existingMember && negb (String.eqb (NormalizeDeviceAddress unicode_lower (dev_IP (md_device device))) "") in
  let+ memberDevices := look (λ d, if checked then DeviceService_GetDevicesByIDs (MembershipDeviceIDs (ms_Devices membership)) d else []) in
  let+ _ := op_ret (if checked then PlanAddDeviceMembership unicode_lower device membership memberDevices [] [] false
                    else Ok {| ap_Device := BaseDeviceMembership device; ap_LinkIDs := []; ap_Areas := [] |}) in
  let+ links := look (λ d, if includeConnectedLinks then LinkRepo_GetByDeviceID deviceID d else []) in
  let+ areas := staged "areas" (read_op (λ d, if existingMember then Ok [] else AreaMembershipsForDevice device d)) in
  let+ plan := op_ret (PlanAddDeviceMembership unicode_lower device membership memberDevices links areas includeConnectedLinks) in
  staged "persist" (run (AddDeviceMembership now mapID (ap_Device plan) (ap_LinkIDs plan) (ap_Areas plan))).

(** [LoadTopologyForMap] of a map read before, and [LoadTopology], with the device service the handler passes them. *)
Definition LoadTopologyForMap (canvasMap : CanvasMap) (d : MapDB) : result (CanvasMap * TopologyResponsePlan) :=
  if negb (cm_MembershipMaterialized canvasMap) then Ok (canvasMap, EmptyTopologyResponsePlan)
  else
    let! positions := GetAllForMap (cm_ID canvasMap) d in
    let membership := GetMembershipForExistingMap (cm_ID canvasMap) d in
    let devices := DeviceService_GetTopologyDevicesByIDs (MembershipDeviceIDs (ms_Devices membership)) d in
    let links := LoadLinksByIDs (ms_LinkIDs membership) d in
    Ok (canvasMap, BuildMaterializedTopologyResponsePlan membership devices links positions).
Definition LoadTopology (mapID : UUID) (d : MapDB) : result (CanvasMap * TopologyResponsePlan) :=
  let! canvasMap := GetByID mapID d in LoadTopologyForMap canvasMap d.

(** ** Replies *)

Definition Handler (A : Type) : Type := MapDB → MapDB * (A + Z * string).
Definition h_bind {A B} (p : Handler A) (q : A → Handler B) : Handler B := λ d, match p d with (d', inl a) => q a d' | (d', inr e) => (d', inr e) end.
Definition h_ret {A} (a : A) : Handler A := λ d, (d, inl a).
(** [writeError] *)
Definition h_error {A} (status : Z) (message : string) : Handler A := λ d, (d, inr (status, message)).
Definition h_try {A} (p : Op A) (on_error : string → Z * string) : Handler A :=
  λ d, match p d with (d', Ok a) => (d', inl a) | (d', Err e) => (d', inr (on_error e)) end.
Notation "'let-' x := p 'in' q" := (h_bind p (λ x, q)) (at level 200, x pattern, p at level 100, q at level 200).

Definition StatusBadRequest : Z := 400.
Definition StatusNotFound : Z := 404.
Definition StatusConflict : Z := 409.
Definition StatusInternalServerError : Z := 500.
Definition says (e text : string) : bool := Contains (ToLower unicode_lower e) text.
Definition isCanvasMapNotFoundError (e : string) : bool := says e "canvas map not found".
Definition isAreaNotFoundError (e : string) : bool := says e "area not found".
Definition isLinkNotFoundError (e : string) : bool := says e "link not found".
Definition isCanvasMapConflictError (e : string) : bool := existsb (says e) ["unique constraint"; "duplicate key"; "constraint failed"; "already exists"]%string.
Definition isCanvasMapValidationError (e : string) : bool :=
  existsb (says e) ["map name"; "map description"; "canvas map filter"; "device_id"; "area_id"; "not a member"]%string.

Definition writeMapRepoMutationError (e : string) : Z * string :=
  if isCanvasMapConflictError e then (StatusConflict, "canvas map conflict"%string)
  else if isCanvasMapValidationError e then (StatusBadRequest, e)
  else (StatusInternalServerError, "failed to mutate canvas map"%string).
Definition notFoundOr (otherwise : string → Z * string) (e : string) : Z * string :=
  if isCanvasMapNotFoundError e then (StatusNotFound, "canvas map not found"%string) else otherwise e.
Definition failed (message e : string) : Z * string := (StatusInternalServerError, message).
Definition writeCanvasMapAreaMutationError (e : string) : Z * string :=
  if isCanvasMapNotFoundError e || isAreaNotFoundError e then (StatusNotFound, e)
  else if isCanvasMapConflictError e then (StatusConflict, "an area with that name already exists"%string)
  else if isCanvasMapValidationError e then (StatusBadRequest, e)
  else (StatusInternalServerError, "failed to mutate canvas map area"%string).
Definition writeCanvasMapLinkRouteMutationError (operation e : string) : Z * string :=
  if Contains e ErrCanvasMapLinkRouteNotMember then (StatusBadRequest, ErrCanvasMapLinkRouteNotMember)
  else if isCanvasMapNotFoundError e then (StatusNotFound, "canvas map not found"%string)
  else if isLinkNotFoundError e then (StatusNotFound, "link not found"%string)
  else (StatusInternalServerError, ("failed to " +:+ operation +:+ " canvas map link route")%string).

(** The stage of an error and what follows it; the messages of the stages that only read are not distinguished. *)
Definition without_stage (stage e : string) : option string :=
  if String.prefix (stage +:+ ": ") e then Some (TrimPrefix e (stage +:+ ": ")) else None.
Definition writeCanvasMapMaterializationError (e : string) : Z * string :=
  match without_stage "replace" e with Some e => writeMapRepoMutationError e | None => failed "failed to materialize canvas map membership" e end.
Definition writeCanvasMapSourceMapMaterializationError (e : string) : Z * string :=
  match without_stage "replace" e with
  | Some e => writeMapRepoMutationError e
  | None => match without_stage "membership" e with
            | Some e => failed "failed to load source map membership" e
            | None => failed "failed to copy source map positions" e
            end
  end.
Definition writeCanvasMapDefaultPositionCopyError (e : string) : Z * string :=
  if bool_decide (is_Some (without_stage "default_map" e)) then failed "failed to load default canvas map" e
  else if bool_decide (is_Some (without_stage "membership" e)) then failed "failed to load materialized canvas map membership" e
  else if bool_decide (is_Some (without_stage "positions" e)) then failed "failed to load default canvas map positions" e
  else failed "failed to copy default canvas map positions" e.
Definition writeCanvasMapAddDeviceWorkflowError (e : string) : Z * string :=
  match without_stage "device" e, without_stage "membership" e, without_stage "areas" e, without_stage "persist" e with
  | Some _, _, _, _ => (StatusNotFound, "canvas map device not found"%string)
  | _, Some e, _, _ => failed "failed to load canvas map membership" e
  | _, _, Some e, _ => failed "failed to load canvas map device areas" e
  | _, _, _, Some e => writeMapRepoMutationError e
  | None, None, None, None => (StatusConflict, e)
  end.

(** ** Handlers *)

Definition loadMapFromRequest (mapID : UUID) : Handler CanvasMap := h_try (read_op (GetByID mapID)) (notFoundOr (failed "failed to load canvas map")).
Definition check (r : result unit) : Handler unit := h_try (op_ret r) (λ e, (StatusBadRequest, e)).
Definition isolateCanvasMapVirtualDevices (ids : CloneIDs) (now : Time) (mapID : UUID) : Op unit := run (IsolateVirtualDevices ids now mapID).

(** [validateSourceMapID], [validateSourceAreaID] and [validateCreateSourceAreaID] once the ids are parsed. *)
Definition validateSourceMapID (source : option UUID) : Handler unit :=
  match source with
  | None => h_ret tt
  | Some m => let- _ := h_try (read_op (GetByID m)) (λ e, if isCanvasMapNotFoundError e then (StatusBadRequest, "unknown source_map_id"%string) else failed "failed to load source map" e) in h_ret tt
  end.
Definition validateSourceAreaID (area : option UUID) : Handler unit :=
  match area with
  | None => h_ret tt
  | Some a => let- _ := h_try (read_op (AreaRepo_GetByID a)) (λ e, if isAreaNotFoundError e then (StatusBadRequest, "unknown source_area_id"%string) else failed "failed to load source area" e) in h_ret tt
  end.
Definition validateCreateSourceAreaID (area sourceMapID : option UUID) : Handler unit :=
  match area, sourceMapID with
  | None, _ => h_ret tt
  | Some _, None => validateSourceAreaID area
  | Some a, Some m =>
    let- membership := h_try (read_op (GetMembership m)) (failed "failed to load source map membership") in
    if existsb (λ s, ma_AreaID s =? a) (ms_Areas membership) then h_ret tt else h_error StatusBadRequest "unknown source_area_id"
  end.

Record CreateRequest := { rq_Name : string; rq_Description : string; rq_SourceAreaID : option UUID; rq_SourceMapID : option UUID; rq_Filter : CanvasMapFilter }.

Definition HandleCreate (hasLegacy : bool) (ids : CloneIDs) (new : UUID) (now : Time) (req : CreateRequest) : Handler CanvasMap :=
  let- _ := check (ValidateCanvasMapName (rq_Name req)) in
  let- _ := check (ValidateCanvasMapDescription (rq_Description req)) in
  let- _ := validateSourceMapID (rq_SourceMapID req) in
  let- _ := validateCreateSourceAreaID (rq_SourceAreaID req) (rq_SourceMapID req) in
  let plan := PlanCreate (rq_Filter req) (rq_SourceAreaID req) (rq_SourceMapID req) in
  let- canvasMap := h_try (Create new now {| nc_Name := rq_Name req; nc_Description := rq_Description req; nc_SourceAreaID := pc_PersistedSourceAreaID plan;
                                             nc_Filter := pc_Filter plan; nc_IsDefault := false |}) writeMapRepoMutationError in
  let id := cm_ID canvasMap in
  let- _ := (if pc_CreateEmptyMembership plan then h_try (run (ReplaceMembership now id (mkMembership [] [] []))) writeMapRepoMutationError
             else match pc_SourceMapID plan with
             | Some source => h_try (ReplaceMaterializedMembershipFromSourceMap now id source (pc_Filter plan)) writeCanvasMapSourceMapMaterializationError
             | None =>
               let- _ := h_try (ReplaceMaterializedMembership now id (pc_Filter plan)) writeCanvasMapMaterializationError in
               h_try (CopyDefaultPositionsForMaterializedMembership hasLegacy now id) writeCanvasMapDefaultPositionCopyError
             end) in
  let- _ := h_try (isolateCanvasMapVirtualDevices ids now id) (failed "failed to isolate canvas map virtual devices") in
  h_try (read_op (GetByID id)) (failed "failed to load materialized canvas map").

(** [rp_SourceAreaID]: absent, [null] or an area. *)
Record PatchRequest := { rp_Name : option string; rp_Description : option string; rp_SourceAreaID : option (option UUID); rp_Filter : option CanvasMapFilter }.
Definition given (f : string → result unit) (s : option string) : result unit := match s with Some s => f s | None => Ok tt end.

Definition HandlePatch (ids : CloneIDs) (now : Time) (mapID : UUID) (req : PatchRequest) : Handler CanvasMap :=
  let- canvasMap := loadMapFromRequest mapID in
  let- _ := check (given ValidateCanvasMapName (rp_Name req)) in
  let- _ := check (given ValidateCanvasMapDescription (rp_Description req)) in
  let- _ := validateSourceAreaID (default None (rp_SourceAreaID req)) in
  let set := bool_decide (is_Some (rp_SourceAreaID req)) in
  let source := match rp_SourceAreaID req with Some a => a | None => cm_SourceAreaID canvasMap end in
  let- updated := h_try (Update_map now (cm_ID canvasMap) {| nu_Name := rp_Name req; nu_Description := rp_Description req; nu_SourceAreaID := source;
                                                              nu_SourceAreaIDSet := set; nu_Filter := rp_Filter req |}) (notFoundOr writeMapRepoMutationError) in
  let- updated := (if bool_decide (is_Some (rp_Filter req)) || set
                   then let- _ := h_try (ReplaceMaterializedMembership now (cm_ID updated) (ProjectionFilterForMap json_filter updated)) writeCanvasMapMaterializationError in
                        h_try (read_op (GetByID (cm_ID updated))) (failed "failed to load materialized canvas map")
                   else h_ret updated) in
  let- _ := h_try (isolateCanvasMapVirtualDevices ids now (cm_ID updated)) (failed "failed to isolate canvas map virtual devices") in
  h_ret updated.

Definition HandleDelete (mapID : UUID) : Handler unit :=
  let- canvasMap := loadMapFromRequest mapID in
  let- _ := h_try (op_ret (ValidateDelete canvasMap)) (λ e, (StatusConflict, e)) in
  h_try (Delete (cm_ID canvasMap)) (notFoundOr writeMapRepoMutationError).

Definition HandleDuplicate (ids : CloneIDs) (new : UUID) (now : Time) (mapID : UUID) (name : string) : Handler CanvasMap :=
  let- canvasMap := loadMapFromRequest mapID in
  let- _ := check (ValidateCanvasMapName name) in
  let- duplicate := h_try (Duplicate new now (cm_ID canvasMap) name) (notFoundOr writeMapRepoMutationError) in
  let- _ := h_try (isolateCanvasMapVirtualDevices ids now (cm_ID duplicate)) (failed "failed to isolate duplicated virtual devices") in
  h_try (read_op (GetByID (cm_ID duplicate))) (failed "failed to load duplicated canvas map").

Definition HandleSetPrimary (now : Time) (mapID : UUID) : Handler CanvasMap :=
  let- canvasMap := loadMapFromRequest mapID in
  h_try (SetPrimary now (cm_ID canvasMap)) (notFoundOr writeMapRepoMutationError).

Definition HandleRemoveDevice (now : Time) (mapID deviceID : UUID) : Handler unit :=
  let- canvasMap := loadMapFromRequest mapID in
  h_try (run (RemoveDevice now (cm_ID canvasMap) deviceID)) (notFoundOr writeMapRepoMutationError).

Definition HandleAddDevice (ids : CloneIDs) (now : Time) (mapID deviceID : UUID) (includeConnectedLinks : option bool) : Handler CanvasMap :=
  let- canvasMap := loadMapFromRequest mapID in
  let- _ := h_try (AddDeviceToMaterializedMembership now (cm_ID canvasMap) deviceID (default true includeConnectedLinks)) writeCanvasMapAddDeviceWorkflowError in
  let- _ := h_try (isolateCanvasMapVirtualDevices ids now (cm_ID canvasMap)) (failed "failed to isolate canvas map virtual devices") in
  h_try (read_op (GetByID (cm_ID canvasMap))) (failed "failed to load updated canvas map").

(** [visual_color] is absent, [null] or a text. *)
Definition HandlePatchDevice (now : Time) (mapID deviceID : UUID) (visualColor : option (option string)) : Handler CanvasMap :=
  let- canvasMap := loadMapFromRequest mapID in
  match visualColor with
  | None => h_error StatusBadRequest "visual_color is required"
  | Some value =>
    let- color := h_try (op_ret (NormalizeVisualColor value)) (λ e, (StatusBadRequest, e)) in
    let- device := h_try (read_op (DeviceService_GetDevice deviceID)) (λ _, (StatusNotFound, "canvas map device not found"%string)) in
    let- _ := check (ValidateVisualColorDevice device) in
    let- _ := h_try (run (UpdateDeviceVisualColor now (cm_ID canvasMap) deviceID color)) writeMapRepoMutationError in
    h_try (read_op (GetByID (cm_ID canvasMap))) (failed "failed to load updated canvas map")
  end.

Definition HandleListAreas (mapID : UUID) : Handler (list AreaWithCount) :=
  let- canvasMap := loadMapFromRequest mapID in
  h_try (read_op (ListAreas (cm_ID canvasMap))) (failed "failed to list canvas map areas").
Definition HandleCreateArea (new : UUID) (now : Time) (mapID : UUID) (name description color : string) : Handler AreaWithCount :=
  let- canvasMap := loadMapFromRequest mapID in
  let- area := h_try (op_ret (AreaMembershipFromInput name description color)) (λ e, (StatusBadRequest, e)) in
  h_try (run (CreateArea new now (cm_ID canvasMap) area)) writeCanvasMapAreaMutationError.
Definition HandleUpdateArea (now : Time) (mapID areaID : UUID) (name description color : string) : Handler AreaWithCount :=
  let- canvasMap := loadMapFromRequest mapID in
  let- area := h_try (op_ret (AreaMembershipFromInput name description color)) (λ e, (StatusBadRequest, e)) in
  h_try (run (UpdateArea now (cm_ID canvasMap) areaID area)) writeCanvasMapAreaMutationError.
Definition HandleDeleteArea (now : Time) (mapID areaID : UUID) : Handler unit :=
  let- canvasMap := loadMapFromRequest mapID in
  h_try (run (DeleteArea now (cm_ID canvasMap) areaID)) writeCanvasMapAreaMutationError.
Definition HandleUpdateDeviceAreas (now : Time) (mapID : UUID) (deviceIDs areaIDs : list UUID) : Handler CanvasMap :=
  let- canvasMap := loadMapFromRequest mapID in
  let- _ := h_try (run (UpdateDeviceAreaMemberships now (cm_ID canvasMap) deviceIDs areaIDs)) writeMapRepoMutationError in
  h_try (read_op (GetByID (cm_ID canvasMap))) (failed "failed to load updated canvas map").

Definition HandleListPositions (mapID : UUID) : Handler (list DevicePosition) :=
  let- canvasMap := loadMapFromRequest mapID in
  h_try (read_op (GetAllForMap (cm_ID canvasMap))) (failed "failed to list canvas map positions").
Fixpoint check_coordinates (l : list DevicePosition) : result unit :=
  match l with
  | [] => Ok tt
  | p :: l => if infinite (dp_X p) || infinite (dp_Y p)
              then Err ("invalid coordinate for device " +:+ uuid_String (dp_DeviceID p) +:+ ": NaN and Infinity are not allowed")%string
              else check_coordinates l
  end.
Definition unknown_device (known : list MapDevice) (l : list DevicePosition) : result unit :=
  match filter (λ p, dp_DeviceID p ∉ (md_ID <$> known)) l with
  | [] => Ok tt
  | p :: _ => Err ("unknown device_id: " +:+ uuid_String (dp_DeviceID p))%string
  end.
Definition HandleSavePositions (now : Time) (mapID : UUID) (positions : list DevicePosition) : Handler Z :=
  let- canvasMap := loadMapFromRequest mapID in
  let- _ := check (check_coordinates positions) in
  let- known := h_try (look (DeviceService_GetTopologyDevicesByIDs (dp_DeviceID <$> positions))) (failed "failed to list devices") in
  let- _ := check (unknown_device known positions) in
  let- _ := h_try (run (SaveAllForMap now (cm_ID canvasMap) positions)) (failed "failed to save canvas map positions") in
  h_ret (Z.of_nat (length positions)).

Definition loadLinkForRoute (linkID : UUID) : Handler Link :=
  h_try (read_op (LinkRepo_GetByID linkID)) (λ e, if isLinkNotFoundError e then (StatusNotFound, "link not found"%string) else failed "failed to load link" e).
Definition HandleSaveLinkRoute (now : Time) (mapID linkID : UUID) (version : Z) (waypoints : list CanvasPoint) : Handler CanvasMapLinkRoute :=
  let- _ := loadMapFromRequest mapID in
  let- _ := loadLinkForRoute linkID in
  let route := mkRoute linkID version waypoints 0 in
  let- _ := check (ValidateCanvasMapLinkRoute route) in
  h_try (run (UpsertForMap now mapID route)) (writeCanvasMapLinkRouteMutationError "save").
Definition HandleDeleteLinkRoute (mapID linkID : UUID) : Handler unit :=
  let- _ := loadMapFromRequest mapID in
  let- _ := loadLinkForRoute linkID in
  h_try (run (DeleteForMap mapID linkID)) (writeCanvasMapLinkRouteMutationError "delete").

(** [buildMapTopologyResponse] up to its JSON: the counts of the map are those of what is shown, the routes those of the links shown. *)
Definition shown_map (m : CanvasMap) (p : TopologyResponsePlan) : CanvasMap :=
  mkCanvasMap (cm_ID m) (cm_Name m) (cm_Description m) (cm_SourceAreaID m) (cm_FilterJSON m) (cm_IsDefault m) (cm_MembershipMaterialized m)
    (rp_DeviceCount p) (rp_LinkCount p) (rp_PositionCount p) (cm_CreatedAt m) (cm_UpdatedAt m).
Definition buildMapTopologyResponse (mapID : UUID) : Handler (CanvasMap * TopologyResponsePlan * list CanvasMapLinkRoute) :=
  let- canvasMap := loadMapFromRequest mapID in
  let- loaded := h_try (read_op (LoadTopologyForMap canvasMap)) (failed "failed to load canvas map topology") in
  let plan := loaded.2 in
  let- routes := (match rp_Links plan with
                  | [] => h_ret []
                  | _ => h_try (read_op (GetAllRoutesForMap (cm_ID canvasMap))) (failed "failed to list canvas map link routes")
                  end) in
  h_ret (shown_map loaded.1 plan, plan, filter (λ r, rl_LinkID r ∈ (lk_ID <$> rp_Links plan)) routes).
End workflows.
