(* ===== verification/CanvasInv.v ===== *)
(** * The tables of saved maps stay consistent

    What every transaction over the tables of [MapStore] preserves: keys and references, one default
    map, and routes only for the links a map has. *)

From S2P Require Import Prelude GoLib GoText Domain Addresses Runtime CanvasMap MapStore CanvasRepo LinkStore CanvasService.
Open Scope store_scope.

(** ** Reads *)

Lemma elem_of_rows_of {A} (m : UUID) (t : gmap (UUID * UUID) A) x a : (x, a) ∈ rows_of m t ↔ t !! (m, x) = Some a.
Proof.
  unfold rows_of. rewrite (merge_sort_Permutation id_le), list_elem_of_fmap. split.
  - intros ([[m' x'] a'] & [= -> ->] & [Hm Hk]%list_elem_of_filter). cbn in Hm. subst. by apply elem_of_map_to_list in Hk.
  - intros Hk. exists (m, x, a). split; [done|]. apply list_elem_of_filter. split; [done|]. by apply elem_of_map_to_list.
Qed.
Lemma elem_of_ids_of (m : UUID) (s : gset (UUID * UUID)) x : x ∈ ids_of m s ↔ (m, x) ∈ s.
Proof.
  unfold ids_of. rewrite (merge_sort_Permutation Z.le), list_elem_of_fmap. split.
  - intros ([m' x'] & -> & [Hm Hk]%list_elem_of_filter). cbn in *. subst. by apply elem_of_elements in Hk.
  - intros Hk. exists (m, x). split; [done|]. apply list_elem_of_filter. split; [done|]. by apply elem_of_elements.
Qed.
Lemma NoDup_rows_of {A} (m : UUID) (t : gmap (UUID * UUID) A) : NoDup (rows_of m t).*1.
Proof.
  unfold rows_of. rewrite (fmap_Permutation fst _ _ (merge_sort_Permutation id_le _)), <- list_fmap_compose.
  apply NoDup_fmap_2_strong.
  - intros [[m1 x1] a1] [[m2 x2] a2] [E1 H1]%list_elem_of_filter [E2 H2]%list_elem_of_filter. cbn in *. intros ->. subst.
    apply elem_of_map_to_list in H1, H2. congruence.
  - apply NoDup_filter, NoDup_map_to_list.
Qed.
Lemma NoDup_ids_of (m : UUID) (s : gset (UUID * UUID)) : NoDup (ids_of m s).
Proof.
  unfold ids_of. rewrite (merge_sort_Permutation Z.le). apply NoDup_fmap_2_strong.
  - intros [m1 x1] [m2 x2] [E1 _]%list_elem_of_filter [E2 _]%list_elem_of_filter. cbn in *. congruence.
  - apply NoDup_filter, NoDup_elements.
Qed.

Lemma lookup_copied {A} (c : UUID) (l : list (UUID * A)) (t : gmap (UUID * UUID) A) (k : UUID * UUID) :
  NoDup l.*1 → (list_to_map ((λ e, ((c, e.1), e.2)) <$> l) ∪ t) !! k =
  match (if k.1 =? c then snd <$> list_find (λ e, e.1 = k.2) l else None) with Some (_, a) => Some a | None => t !! k end.
Proof.
  intros Hn. rewrite lookup_union. destruct k as [m x]. cbn.
  assert (Hl : (list_to_map ((λ e : UUID * A, ((c, e.1), e.2)) <$> l) : gmap (UUID * UUID) A) !! (m, x) = (if m =? c then (λ r, r.2.2) <$> list_find (λ e, e.1 = x) l else None)).
  { induction l as [|[y a] l IH]; cbn; [by destruct (m =? c)|]. inversion Hn as [|? ? Hy Hl]; subst. specialize (IH Hl).
    destruct (m =? c) eqn:Ec; to_prop; [subst|].
    - destruct (decide (y = x)) as [->|Hne]; [by rewrite lookup_insert_eq|].
      rewrite lookup_insert_ne by congruence. rewrite IH. by destruct (list_find _ l) as [[]|].
    - rewrite lookup_insert_ne by congruence. done. }
  rewrite Hl. destruct (m =? c); [|cbn; by rewrite (left_id_L None _)].
  destruct (list_find _ l) as [[i [y a]]|]; cbn; [|by rewrite (left_id_L None _)]. by destruct (t !! (m, x)).
Qed.

Lemma lookup_copy_rows {A} (s c : UUID) (t : gmap (UUID * UUID) A) (m x : UUID) :
  copy_rows s c t !! (m, x) = if m =? c then (match t !! (s, x) with Some a => Some a | None => t !! (m, x) end) else t !! (m, x).
Proof.
  unfold copy_rows. rewrite lookup_copied by apply NoDup_rows_of. cbn. destruct (m =? c) eqn:Ec; [|done].
  destruct (list_find (λ e, e.1 = x) (rows_of s t)) as [[i [y a]]|] eqn:Ef; cbn.
  - apply list_find_Some in Ef as (Hi & Hy & _). cbn in Hy. subst y. apply list_elem_of_lookup_2, elem_of_rows_of in Hi. by rewrite Hi.
  - destruct (t !! (s, x)) as [a|] eqn:Ea; [|done]. apply elem_of_rows_of in Ea. apply list_find_None in Ef. rewrite Forall_forall in Ef. by destruct (Ef _ Ea).
Qed.
Lemma elem_of_copy_ids (s c : UUID) (t : gset (UUID * UUID)) (m x : UUID) : (m, x) ∈ copy_ids s c t ↔ m = c ∧ (s, x) ∈ t ∨ (m, x) ∈ t.
Proof.
  unfold copy_ids. rewrite elem_of_union, elem_of_list_to_set, list_elem_of_fmap. setoid_rewrite elem_of_ids_of. naive_solver.
Qed.

(** ** Reasoning about transactions *)

Definition wp {A} (t : Tx A) (Q : A → MapDB → Prop) (d : MapDB) : Prop := match t d with Ok (a, d') => Q a d' | Err _ => True end.
(** [P] before a transaction gives [P] after it, when it commits. *)
Definition keeps {A} (P : MapDB → Prop) (t : Tx A) : Prop := ∀ d, P d → wp t (λ _, P) d.

Lemma wp_bind {A B} (p : Tx A) (q : A → Tx B) Q d : wp p (λ a, wp (q a) Q) d → wp (tx_bind p q) Q d.
Proof. unfold wp, tx_bind. by destruct (p d) as [[a d']|]. Qed.
Lemma wp_mono {A} (t : Tx A) (Q R : A → MapDB → Prop) d : wp t Q d → (∀ a d', Q a d' → R a d') → wp t R d.
Proof. unfold wp. destruct (t d) as [[a d']|]; auto. Qed.
Lemma wp_reject test msg (Q : unit → MapDB → Prop) d : (test d = false → Q tt d) → wp (tx_reject test msg) Q d.
Proof. unfold wp, tx_reject. destruct (test d); auto. Qed.
Lemma wp_write f (Q : unit → MapDB → Prop) d : Q tt (f d) → wp (tx_write f) Q d.
Proof. done. Qed.
Lemma wp_read {A} (f : MapDB → A) (Q : A → MapDB → Prop) d : Q (f d) d → wp (tx_read f) Q d.
Proof. done. Qed.
Lemma wp_ret {A} (a : A) (Q : A → MapDB → Prop) d : Q a d → wp (tx_ret a) Q d.
Proof. done. Qed.
Lemma wp_lift {A} (r : result A) (Q : A → MapDB → Prop) d : (∀ a, r = Ok a → Q a d) → wp (tx_lift r) Q d.
Proof. unfold wp, tx_lift. destruct r; auto. Qed.
Lemma wp_references {K A} `{Countable K} (t : MapDB → gmap K A) k (Q : unit → MapDB → Prop) d : (is_Some (t d !! k) → Q tt d) → wp (references t k) Q d.
Proof. intros HQ. apply wp_reject. intros E. to_prop. auto. Qed.

Lemma keeps_wp {A} P (t : Tx A) (Q : A → MapDB → Prop) d : keeps P t → P d → (∀ a d', P d' → Q a d') → wp t Q d.
Proof. intros Hk Hd HQ. eapply wp_mono; [by apply Hk|auto]. Qed.
Lemma tx_keeps_bind {A B} P (p : Tx A) (q : A → Tx B) : keeps P p → (∀ a, keeps P (q a)) → keeps P (tx_bind p q).
Proof. intros Hp Hq d Hd. apply wp_bind. eapply keeps_wp; [done..|]. intros a d' Hd'. by apply Hq. Qed.
Lemma keeps_each {X} P (f : X → Tx unit) l : (∀ x, x ∈ l → keeps P (f x)) → keeps P (tx_each f l).
Proof.
  induction l as [|x l IH]; intros Hf; [by intros d Hd|]. apply tx_keeps_bind; [apply Hf; left|]. intros _. apply IH. intros y Hy. apply Hf. by right.
Qed.
Lemma keeps_read {A} P (f : MapDB → A) : keeps P (tx_read f).
Proof. by intros d Hd. Qed.
Lemma tx_keeps_ret {A} P (a : A) : keeps P (tx_ret a).
Proof. by intros d Hd. Qed.
Lemma keeps_lift {A} P (r : result A) : keeps P (tx_lift r).
Proof. intros d Hd. by apply wp_lift. Qed.
Lemma keeps_reject P test msg : keeps P (tx_reject test msg).
Proof. intros d Hd. by apply wp_reject. Qed.
Lemma tx_keeps_fail {A} P msg : keeps P (tx_fail msg : Tx A).
Proof. by intros d Hd. Qed.
Lemma keeps_write P f : (∀ d, P d → P (f d)) → keeps P (tx_write f).
Proof. intros Hf d Hd. by apply wp_write, Hf. Qed.
#[export] Hint Resolve keeps_read tx_keeps_ret keeps_lift keeps_reject tx_keeps_fail : theia.

(** ** Consistency *)

Section consistent.
Context `{Database}.

Record store_ok (d : MapDB) : Prop := {
  ok_device : ∀ id m, t_devices d !! id = Some m → md_ID m = id ∧ id ≠ uuid_Nil;
  ok_device_ip : ∀ a b m n, t_devices d !! a = Some m → t_devices d !! b = Some n → a ≠ b → ip_conflict m n = false;
  ok_area : ∀ id a, t_areas d !! id = Some a → ar_ID a = id ∧ id ≠ uuid_Nil;
  ok_area_name : ∀ a b x y, t_areas d !! a = Some x → t_areas d !! b = Some y → a ≠ b → ar_Name x ≠ ar_Name y;
  ok_device_areas : ∀ dev a, (dev, a) ∈ t_device_areas d → is_Some (t_devices d !! dev) ∧ is_Some (t_areas d !! a);
  ok_link : ∀ id r, t_links d !! id = Some r →
    (lk_ID (ln_Link r) = id ∧ id ≠ uuid_Nil) ∧ is_Some (t_devices d !! lk_SourceDeviceID (ln_Link r)) ∧ is_Some (t_devices d !! lk_TargetDeviceID (ln_Link r));
  ok_link_unique : ∀ a b r s, t_links d !! a = Some r → t_links d !! b = Some s → a ≠ b → same_ends (ln_Link r) (ln_Link s) = false;
  ok_legacy : ∀ dev, is_Some (t_device_positions d !! dev) → is_Some (t_devices d !! dev);
  ok_source : ∀ m r a, t_maps d !! m = Some r → mr_SourceAreaID r = Some a → is_Some (t_areas d !! a);
  ok_default : ∀ m n r s, t_maps d !! m = Some r → t_maps d !! n = Some s → mr_IsDefault r = true → mr_IsDefault s = true → m = n;
  ok_member : ∀ m dev, is_Some (t_map_devices d !! (m, dev)) → is_Some (t_maps d !! m) ∧ is_Some (t_devices d !! dev);
  ok_map_link : ∀ m l, (m, l) ∈ t_map_links d → is_Some (t_maps d !! m) ∧ is_Some (t_links d !! l);
  ok_map_area : ∀ m a, is_Some (t_map_areas d !! (m, a)) → is_Some (t_maps d !! m);
  ok_device_area : ∀ m dev a, (m, dev, a) ∈ t_map_device_areas d → is_Some (t_map_devices d !! (m, dev)) ∧ is_Some (t_map_areas d !! (m, a));
  ok_position : ∀ m dev, is_Some (t_map_positions d !! (m, dev)) → is_Some (t_maps d !! m) ∧ is_Some (t_devices d !! dev);
  ok_route : ∀ m l, is_Some (t_map_link_routes d !! (m, l)) → is_Some (t_maps d !! m) ∧ is_Some (t_links d !! l) }.

Definition one_default (d : MapDB) : Prop := ∃ m r, t_maps d !! m = Some r ∧ mr_IsDefault r = true.
Definition route_ok (l : UUID) (r : RouteRow) : Prop := ValidateCanvasMapLinkRoute (mkRoute l (ro_Version r) (ro_Waypoints r) (ro_UpdatedAt r)) = Ok tt.
(** Routes are valid, and for links of their map; those of [hole] may be waiting to be pruned. *)
Definition routes_ok (hole : option UUID) (d : MapDB) : Prop :=
  ∀ m l r, t_map_link_routes d !! (m, l) = Some r → route_ok l r ∧ (hole = Some m ∨ (m, l) ∈ t_map_links d).

(** Consistent, up to the default map while it is being moved and the routes of one map while they are being pruned. *)
Record inv (dflt : bool) (hole : option UUID) (d : MapDB) : Prop := {
  inv_store : store_ok d;
  inv_default : dflt = true → one_default d;
  inv_routes : routes_ok hole d }.
Definition consistent : MapDB → Prop := inv true None.

Lemma inv_weaken dflt hole d : consistent d → inv dflt hole d.
Proof. intros [Hs Hd Hr]. split; [done|auto|]. intros m l r E. destruct (Hr m l r E) as [? [?|?]]; [done|auto]. Qed.

(** ** Statements

    Each lemma: the statement keeps the tables consistent when the rows it needs are there. *)

Ltac inv_cases := repeat match goal with
  | H : is_Some (<[_ := _]> _ !! _) |- _ => rewrite lookup_insert_is_Some in H; destruct H as [?|[? ?]]
  | H : _ = Some _ |- _ => apply lookup_insert_Some in H as [[? ?]|[? ?]]
  | H : _ ∈ {[_]} ∪ _ |- _ => apply elem_of_union in H as [?%elem_of_singleton|?]
  end; simplify_eq/=.
Ltac by_inv Hd := destruct Hd as [[] ? ?]; split; [split; cbn; try assumption|try done|try done]; unfold routes_ok, one_default in *; cbn in *.

Context (b : bool) (h : option UUID).
Implicit Types (d : MapDB) (dev l a : UUID).

Lemma put_member d m dev r : inv b h d → is_Some (t_maps d !! m) → is_Some (t_devices d !! dev) → inv b h (d <| t_map_devices := <[(m, dev) := r]> (t_map_devices d) |>).
Proof.
  intros Hd Hm Hv. by_inv Hd.
  - intros m' dev' E. inv_cases; eauto.
  - intros m' dev' a' E. destruct (ok_device_area0 _ _ _ E) as [? ?]. split; [|done]. rewrite lookup_insert_is_Some. destruct (decide ((m, dev) = (m', dev'))); auto.
Qed.
Lemma put_map_link d m l : inv b h d → is_Some (t_maps d !! m) → is_Some (t_links d !! l) → inv b h (d <| t_map_links := {[(m, l)]} ∪ t_map_links d |>).
Proof.
  intros Hd Hm Hv. by_inv Hd.
  - intros m' l' E. inv_cases; eauto.
  - intros m' l' r E. destruct (inv_routes0 _ _ _ E) as [? [?|?]]; split; auto. right. set_solver.
Qed.
Lemma put_map_area d m a r : inv b h d → is_Some (t_maps d !! m) → inv b h (d <| t_map_areas := <[(m, a) := r]> (t_map_areas d) |>).
Proof.
  intros Hd Hm. by_inv Hd.
  - intros m' a' E. inv_cases; eauto.
  - intros m' dev' a' E. destruct (ok_device_area0 _ _ _ E) as [? ?]. split; [done|]. rewrite lookup_insert_is_Some. destruct (decide ((m, a) = (m', a'))); auto.
Qed.
Lemma put_device_area d m dev a : inv b h d → is_Some (t_map_devices d !! (m, dev)) → is_Some (t_map_areas d !! (m, a)) →
  inv b h (d <| t_map_device_areas := {[(m, dev, a)]} ∪ t_map_device_areas d |>).
Proof. intros Hd Hm Hv. by_inv Hd. intros m' dev' a' E. inv_cases; eauto. Qed.
Lemma fewer_device_areas d s : inv b h d → s ⊆ t_map_device_areas d → inv b h (d <| t_map_device_areas := s |>).
Proof. intros Hd Hs. by_inv Hd. eauto. Qed.
Lemma put_position d m dev r : inv b h d → is_Some (t_maps d !! m) → is_Some (t_devices d !! dev) → inv b h (d <| t_map_positions := <[(m, dev) := r]> (t_map_positions d) |>).
Proof. intros Hd Hm Hv. by_inv Hd. intros m' dev' E. inv_cases; eauto. Qed.
Lemma fewer_positions d t : inv b h d → t ⊆ t_map_positions d → inv b h (d <| t_map_positions := t |>).
Proof. intros Hd Hs. by_inv Hd. intros m dev [r E]. eapply lookup_weaken in E; [|done]. eauto. Qed.
Lemma put_route d m l r : inv b h d → (m, l) ∈ t_map_links d → route_ok l r → inv b h (d <| t_map_link_routes := <[(m, l) := r]> (t_map_link_routes d) |>).
Proof.
  intros Hd Hm Hv. by_inv Hd; intros m' l'.
  - intros E. inv_cases; [by apply ok_map_link0|by apply ok_route0].
  - intros r' E. inv_cases; [auto|by apply inv_routes0].
Qed.
Lemma fewer_routes d t : inv b h d → t ⊆ t_map_link_routes d → inv b h (d <| t_map_link_routes := t |>).
Proof. intros Hd Hs. by_inv Hd; intros m dev; [intros [r E]|intros r E]; (eapply lookup_weaken in E; [|done]); eauto. Qed.
Lemma put_legacy_position d dev r : inv b h d → is_Some (t_devices d !! dev) → inv b h (d <| t_device_positions := <[dev := r]> (t_device_positions d) |>).
Proof. intros Hd Hv. by_inv Hd. intros dev' E. inv_cases; eauto. Qed.
Lemma fewer_legacy_positions d t : inv b h d → t ⊆ t_device_positions d → inv b h (d <| t_device_positions := t |>).
Proof. intros Hd Hs. by_inv Hd. intros dev [r E]. eapply lookup_weaken in E; [|done]. eauto. Qed.
Lemma alter_is_insert {A} (f : A → A) (k : UUID * UUID) (t : gmap (UUID * UUID) A) :
  alter f k t = match t !! k with Some r => <[k := f r]> t | None => t end.
Proof.
  apply map_eq. intros k'. destruct (decide (k = k')) as [<-|].
  - rewrite lookup_alter_eq. destruct (t !! k) eqn:E; [by rewrite lookup_insert_eq|by rewrite E].
  - rewrite lookup_alter_ne by done. destruct (t !! k); [by rewrite lookup_insert_ne|done].
Qed.
Lemma alter_member d m dev f : inv b h d → inv b h (d <| t_map_devices := alter f (m, dev) (t_map_devices d) |>).
Proof.
  intros Hd. rewrite alter_is_insert. destruct (t_map_devices d !! (m, dev)) eqn:E; [|by destruct d].
  destruct (ok_member d (inv_store _ _ _ Hd) m dev); [by rewrite E|]. by apply put_member.
Qed.
Lemma alter_map_area d m a f : inv b h d → inv b h (d <| t_map_areas := alter f (m, a) (t_map_areas d) |>).
Proof.
  intros Hd. rewrite alter_is_insert. destruct (t_map_areas d !! (m, a)) eqn:E; [|by destruct d].
  pose proof (ok_map_area d (inv_store _ _ _ Hd) m a ltac:(by rewrite E)). by apply put_map_area.
Qed.
(** Rows of a map altered without touching what others refer to. *)
Lemma alter_map_ok d m f : inv b h d → (∀ r, mr_IsDefault (f r) = mr_IsDefault r) →
  (∀ r a, t_maps d !! m = Some r → mr_SourceAreaID (f r) = Some a → is_Some (t_areas d !! a)) → inv b h (d <| t_maps := alter f m (t_maps d) |>).
Proof.
  intros Hd Hf Ha.
  assert (Hsome : ∀ n, is_Some (t_maps d !! n) → is_Some (alter f m (t_maps d) !! n)).
  { intros n [r E]. destruct (decide (m = n)) as [<-|]; [rewrite lookup_alter_eq, E; cbn; eauto|by rewrite lookup_alter_ne, E]. }
  assert (Hback : ∀ n r, alter f m (t_maps d) !! n = Some r → ∃ r0, t_maps d !! n = Some r0 ∧ mr_IsDefault r = mr_IsDefault r0 ∧
    (mr_SourceAreaID r = mr_SourceAreaID r0 ∨ n = m ∧ r = f r0)).
  { intros n r. destruct (decide (m = n)) as [<-|]; [|rewrite lookup_alter_ne by done; eauto 6]. rewrite lookup_alter_eq, fmap_Some. intros (r0 & E & ->). exists r0. auto. }
  by_inv Hd.
  - intros n r a (r0 & E & _ & [Es|[-> ->]])%Hback Hs; [|by eapply Ha]. rewrite Es in Hs. eauto.
  - intros n n' r r' (r0 & E & Ed & _)%Hback (r1 & E1 & Ed1 & _)%Hback. rewrite Ed, Ed1. eauto.
  - intros n dev E. destruct (ok_member0 _ _ E). auto.
  - intros n l E. destruct (ok_map_link0 _ _ E). auto.
  - intros n a E. eauto.
  - intros n dev E. destruct (ok_position0 _ _ E). auto.
  - intros n l E. destruct (ok_route0 _ _ E). auto.
  - intros ->. destruct inv_default0 as (n & r & E & Ed); [done|]. exists n.
    destruct (decide (m = n)) as [<-|]; [|rewrite lookup_alter_ne by done; eauto]. exists (f r). by rewrite lookup_alter_eq, E, Hf.
Qed.
Lemma touched d m now : inv b h d → inv b h (d <| t_maps := alter (λ r, r <| mr_UpdatedAt := now |>) m (t_maps d) |>).
Proof. intros Hd. apply alter_map_ok; [done|done|]. intros r a E Es. by eapply (ok_source d (inv_store _ _ _ Hd)). Qed.

Lemma filter_key {A} (P : UUID * UUID * A → Prop) `{!∀ x, Decision (P x)} (t : gmap (UUID * UUID) A) k :
  is_Some (filter P t !! k) ↔ ∃ x, t !! k = Some x ∧ P (k, x).
Proof. unfold is_Some. setoid_rewrite map_lookup_filter_Some. naive_solver. Qed.
Lemma filter_set (P : UUID * UUID * UUID → Prop) `{!∀ x, Decision (P x)} (s : gset (UUID * UUID * UUID)) : filter P s ⊆ s.
Proof. set_solver. Qed.

Lemma delete_members_ok d gone : inv b h d → inv b h (delete_members gone d).
Proof.
  intros Hd. by_inv Hd.
  - intros m dev (x & E & _)%filter_key. eauto.
  - intros m dev a [Hg E]%elem_of_filter. destruct (ok_device_area0 _ _ _ E) as [[x Ex] ?]. split; [|done]. apply filter_key. eauto.
Qed.
Lemma delete_map_areas_ok d gone : inv b h d → inv b h (delete_map_areas gone d).
Proof.
  intros Hd. by_inv Hd.
  - intros m a (x & E & _)%filter_key. eauto.
  - intros m dev a [Hg E]%elem_of_filter. destruct (ok_device_area0 _ _ _ E) as [? [x Ex]]. split; [done|]. apply filter_key. eauto.
Qed.
Lemma fewer_map_links d s : inv b h d → s ⊆ t_map_links d → (∀ m l, (m, l) ∈ t_map_links d → (m, l) ∉ s → h = Some m) → inv b h (d <| t_map_links := s |>).
Proof.
  intros Hd Hs Hh. by_inv Hd; [by eauto|]. intros m l r E. destruct (inv_routes0 _ _ _ E) as [? [?|Hl]]; split; auto.
  destruct (decide ((m, l) ∈ s)); [by right|left; eauto].
Qed.
Lemma delete_links_ok d gone : inv b h d → inv b h (delete_links gone d).
Proof.
  intros Hd.
  assert (Hl : ∀ l, is_Some (t_links d !! l) → match t_links d !! l with Some r => gone l r | None => false end = false →
    is_Some (filter (λ e : UUID * LinkRow, gone e.1 e.2 = false) (t_links d) !! l)).
  { intros l [r E]. rewrite E. intros Hg. exists r. by apply map_lookup_filter_Some. }
  by_inv Hd.
  - intros id r [E _]%map_lookup_filter_Some. eauto.
  - intros x y r s [E _]%map_lookup_filter_Some [E' _]%map_lookup_filter_Some. eauto.
  - intros m l [Hg E]%elem_of_filter. destruct (ok_map_link0 _ _ E). auto.
  - intros m l (x & E & Hg)%filter_key. destruct (ok_route0 m l); [eauto|]. auto.
  - intros m l r [E Hg]%map_lookup_filter_Some. destruct (inv_routes0 _ _ _ E) as [? [?|Hl']]; split; auto. right. apply elem_of_filter. auto.
Qed.
Lemma delete_map_ok d m : inv b h d → (∀ r, t_maps d !! m = Some r → mr_IsDefault r = false) → inv b h (delete_map m d).
Proof.
  intros Hd Hm. apply (delete_members_ok d (λ k, k.1 =? m)), (delete_map_areas_ok _ (λ k, k.1 =? m)) in Hd. unfold delete_map.
  set (d1 := delete_map_areas _ _) in *. replace (t_maps d) with (t_maps d1) in Hm by done.
  assert (Hk : ∀ n, is_Some (t_maps d1 !! n) → n ≠ m → is_Some (delete m (t_maps d1) !! n)) by (intros n Hn Hne; by rewrite lookup_delete_ne).
  assert (Hdev : ∀ n x, is_Some (t_map_devices d1 !! (n, x)) → n ≠ m).
  { intros n x (r & _ & Hg)%filter_key. cbn in Hg. by to_prop. }
  assert (Har : ∀ n x, is_Some (t_map_areas d1 !! (n, x)) → n ≠ m).
  { intros n x (r & _ & Hg)%filter_key. cbn in Hg. by to_prop. }
  clearbody d1. by_inv Hd.
  - intros n r a [_ E]%lookup_delete_Some. eauto.
  - intros n n' r r' [_ E]%lookup_delete_Some [_ E']%lookup_delete_Some. eauto.
  - intros n dev E. destruct (ok_member0 _ _ E). eauto.
  - intros n l [Hn E]%elem_of_filter. destruct (ok_map_link0 _ _ E). auto.
  - intros n a E. eauto.
  - intros n dev (x & E & Hn)%filter_key. destruct (ok_position0 n dev); [eauto|]. auto.
  - intros n l (x & E & Hn)%filter_key. destruct (ok_route0 n l); [eauto|]. auto.
  - intros Hb. destruct (inv_default0 Hb) as (n & r & E & Ed). exists n, r. split; [|done]. apply lookup_delete_Some. split; [|done].
    intros <-. rewrite (Hm _ E) in Ed. done.
  - intros n l r [E Hn]%map_lookup_filter_Some. destruct (inv_routes0 _ _ _ E) as [? [?|?]]; split; auto. right. apply elem_of_filter. auto.
Qed.
Lemma delete_device_ok d id : inv b h d → inv b h (delete_device id d).
Proof.
  intros Hd. apply (delete_members_ok d (λ k, k.2 =? id)), (delete_links_ok _ (λ _ r, link_end id (ln_Link r))) in Hd. unfold delete_device.
  set (d1 := delete_links _ _) in *.
  assert (Hk : ∀ x, is_Some (t_devices d1 !! x) → x ≠ id → is_Some (delete id (t_devices d1) !! x)) by (intros n Hn Hne; by rewrite lookup_delete_ne).
  assert (Hdev : ∀ n x, is_Some (t_map_devices d1 !! (n, x)) → x ≠ id).
  { intros n x (r & _ & Hg)%filter_key. cbn in Hg. by to_prop. }
  assert (Hl : ∀ l r, t_links d1 !! l = Some r → lk_SourceDeviceID (ln_Link r) ≠ id ∧ lk_TargetDeviceID (ln_Link r) ≠ id).
  { intros l r [_ Hg]%map_lookup_filter_Some. cbn in Hg. unfold link_end in Hg. by to_prop. }
  clearbody d1. by_inv Hd.
  - intros x m [_ E]%lookup_delete_Some. eauto.
  - intros x y m n [_ E]%lookup_delete_Some [_ E']%lookup_delete_Some. eauto.
  - intros dev a [Hn E]%elem_of_filter. destruct (ok_device_areas0 _ _ E). auto.
  - intros l r E. destruct (ok_link0 _ _ E) as (? & ? & ?), (Hl _ _ E). auto.
  - intros dev (x & E)%lookup_delete_is_Some. eauto.
  - intros n dev E. destruct (ok_member0 _ _ E). eauto.
  - intros n dev (x & E & Hn)%filter_key. destruct (ok_position0 n dev); [eauto|]. auto.
Qed.
Lemma delete_area_ok d id : inv b h d → inv b h (delete_area id d).
Proof.
  intros Hd. unfold delete_area.
  set (f := λ r : MapRow, if bool_decide (mr_SourceAreaID r = Some id) then r <| mr_SourceAreaID := None |> else r).
  assert (Hf : ∀ r, mr_IsDefault (f r) = mr_IsDefault r) by (intros r; unfold f; by destruct (bool_decide _)).
  assert (Hs : ∀ n, is_Some (t_maps d !! n) → is_Some ((f <$> t_maps d) !! n)) by (intros n Hn; by rewrite lookup_fmap, fmap_is_Some).
  assert (Hk : ∀ x, is_Some (t_areas d !! x) → x ≠ id → is_Some (delete id (t_areas d) !! x)) by (intros n Hn Hne; by rewrite lookup_delete_ne).
  by_inv Hd.
  - intros x a [_ E]%lookup_delete_Some. eauto.
  - intros x y m n [_ E]%lookup_delete_Some [_ E']%lookup_delete_Some. eauto.
  - intros dev a [Hn E]%elem_of_filter. destruct (ok_device_areas0 _ _ E). auto.
  - intros m r a. rewrite lookup_fmap, fmap_Some. intros (r0 & E & ->). unfold f. case_bool_decide as Eb; [done|]. intros Ea. apply Hk; [eauto|congruence].
  - intros m n r s. rewrite !lookup_fmap, !fmap_Some. intros (r0 & E & ->) (s0 & E' & ->). rewrite !Hf. eauto.
  - intros n dev E. destruct (ok_member0 _ _ E). auto.
  - intros n l E. destruct (ok_map_link0 _ _ E). auto.
  - intros n a E. eauto.
  - intros n dev E. destruct (ok_position0 _ _ E). auto.
  - intros n l E. destruct (ok_route0 _ _ E). auto.
  - intros Hb. destruct (inv_default0 Hb) as (n & r & E & Ed). exists n, (f r). rewrite lookup_fmap, E, Hf. done.
Qed.

Lemma ip_conflict_sym x y : ip_conflict x y = ip_conflict y x.
Proof.
  unfold ip_conflict. rewrite (String.eqb_sym (ip_of x) (ip_of y)), (andb_comm (is_virtual x)).
  destruct (String.eqb_spec (ip_of y) (ip_of x)) as [E|]; [by rewrite E|by rewrite !andb_false_r].
Qed.
Lemma ip_taken_false id m d : ip_taken id m d = false ↔ ∀ id' m', t_devices d !! id' = Some m' → id' ≠ id → ip_conflict m m' = false.
Proof.
  unfold ip_taken. rewrite <- not_true_iff_false, existsb_exists. setoid_rewrite <- list_elem_of_In. split.
  - intros Hn id' m' E Hne. destruct (ip_conflict m m') eqn:Ec; [|done]. destruct Hn. exists (id', m'). rewrite elem_of_map_to_list. split; [done|].
    rewrite (proj2 (Z.eqb_neq _ _) Hne). done.
  - intros Hf ([id' m'] & E%elem_of_map_to_list & Hb). to_prop. by rewrite (Hf _ _ E) in H1.
Qed.
Lemma put_device_row d m s : inv b h d → md_ID m ≠ uuid_Nil → ip_taken (md_ID m) m d = false →
  (∀ dev a, (dev, a) ∈ s → (dev = md_ID m ∨ is_Some (t_devices d !! dev)) ∧ is_Some (t_areas d !! a)) →
  inv b h (d <| t_devices := <[md_ID m := m]> (t_devices d) |> <| t_device_areas := s |>).
Proof.
  intros Hd Hn Hip Hs. rewrite ip_taken_false in Hip.
  assert (Hk : ∀ x, is_Some (t_devices d !! x) → is_Some (<[md_ID m := m]> (t_devices d) !! x)).
  { intros x Hx. rewrite lookup_insert_is_Some. destruct (decide (md_ID m = x)); auto. }
  by_inv Hd.
  - intros id m' E. inv_cases; [auto|by apply ok_device0].
  - intros x y m1 m2 E1 E2 Hne. apply lookup_insert_Some in E1 as [[E1 <-]|[E1 E1']], E2 as [[E2 <-]|[E2 E2']]; subst.
    + done.
    + by apply (Hip y).
    + rewrite ip_conflict_sym. by apply (Hip x).
    + by apply (ok_device_ip0 x y).
  - intros dev a (Hdev & Ha)%Hs. split; [|done]. destruct Hdev as [->|?]; [|auto]. rewrite lookup_insert_eq. eauto.
  - intros l r E. destruct (ok_link0 _ _ E) as (? & ? & ?). auto.
  - intros dev E. eauto.
  - intros n dev E. destruct (ok_member0 _ _ E). auto.
  - intros n dev E. destruct (ok_position0 _ _ E). auto.
Qed.
Lemma area_name_taken_false id name d : area_name_taken id name d = false ↔ ∀ id' x, t_areas d !! id' = Some x → id' ≠ id → ar_Name x ≠ name.
Proof.
  unfold area_name_taken. rewrite <- not_true_iff_false, existsb_exists. setoid_rewrite <- list_elem_of_In. split.
  - intros Hn id' m' E Hne Ec. destruct Hn. exists (id', m'). rewrite elem_of_map_to_list. split; [done|].
    rewrite (proj2 (Z.eqb_neq _ _) Hne), (proj2 (String.eqb_eq _ _) Ec). done.
  - intros Hf ([id' m'] & E%elem_of_map_to_list & Hb). to_prop. apply String.eqb_eq in H1. by apply (Hf _ _ E).
Qed.
Lemma put_area d x : inv b h d → ar_ID x ≠ uuid_Nil → area_name_taken (ar_ID x) (ar_Name x) d = false → inv b h (d <| t_areas := <[ar_ID x := x]> (t_areas d) |>).
Proof.
  intros Hd Hn Hip. rewrite area_name_taken_false in Hip.
  assert (Hk : ∀ y, is_Some (t_areas d !! y) → is_Some (<[ar_ID x := x]> (t_areas d) !! y)).
  { intros y Hy. rewrite lookup_insert_is_Some. destruct (decide (ar_ID x = y)); auto. }
  by_inv Hd.
  - intros id m' E. inv_cases; [auto|by apply ok_area0].
  - intros y z m1 m2 E1 E2 Hne. apply lookup_insert_Some in E1 as [[E1 <-]|[E1 E1']], E2 as [[E2 <-]|[E2 E2']]; subst.
    + done.
    + intros E. by apply (Hip z m2).
    + by apply (Hip y m1).
    + by apply (ok_area_name0 y z).
  - intros dev a E. destruct (ok_device_areas0 _ _ E). auto.
  - intros m r a E Es. eauto.
Qed.
Lemma same_ends_spec x y : same_ends x y = true ↔ lk_SourceDeviceID x = lk_SourceDeviceID y ∧ lk_SourceIfName x = lk_SourceIfName y ∧
  lk_TargetDeviceID x = lk_TargetDeviceID y ∧ lk_TargetIfName x = lk_TargetIfName y.
Proof. unfold same_ends. rewrite !andb_true_iff, !Z.eqb_eq, !String.eqb_eq. tauto. Qed.
Lemma same_ends_sym x y : same_ends x y = same_ends y x.
Proof. apply eq_true_iff_eq. rewrite !same_ends_spec. naive_solver. Qed.
Lemma link_taken_false x d : link_taken x d = false ↔ ∀ id r, t_links d !! id = Some r → id ≠ lk_ID x → same_ends x (ln_Link r) = false.
Proof.
  unfold link_taken. rewrite <- not_true_iff_false, existsb_exists. setoid_rewrite <- list_elem_of_In. split.
  - intros Hn id' m' E Hne. destruct (same_ends x (ln_Link m')) eqn:Ec; [|done]. destruct Hn. exists (id', m'). rewrite elem_of_map_to_list. split; [done|].
    cbn. rewrite (proj2 (Z.eqb_neq _ _) Hne). done.
  - intros Hf ([id' m'] & E%elem_of_map_to_list & Hb). cbn in Hb. to_prop. by rewrite (Hf _ _ E) in H1.
Qed.
Lemma put_link d r : inv b h d → lk_ID (ln_Link r) ≠ uuid_Nil → link_taken (ln_Link r) d = false →
  is_Some (t_devices d !! lk_SourceDeviceID (ln_Link r)) → is_Some (t_devices d !! lk_TargetDeviceID (ln_Link r)) →
  inv b h (d <| t_links := <[lk_ID (ln_Link r) := r]> (t_links d) |>).
Proof.
  intros Hd Hn Hip Hs Ht. rewrite link_taken_false in Hip.
  assert (Hk : ∀ y, is_Some (t_links d !! y) → is_Some (<[lk_ID (ln_Link r) := r]> (t_links d) !! y)).
  { intros y Hy. rewrite lookup_insert_is_Some. destruct (decide (lk_ID (ln_Link r) = y)); auto. }
  by_inv Hd.
  - intros id m' E. inv_cases; [auto|by apply ok_link0].
  - intros y z m1 m2 E1 E2 Hne. apply lookup_insert_Some in E1 as [[E1 <-]|[E1 E1']], E2 as [[E2 <-]|[E2 E2']]; subst.
    + done.
    + by apply (Hip z).
    + rewrite same_ends_sym. by apply (Hip y).
    + by apply (ok_link_unique0 y z).
  - intros m l E. destruct (ok_map_link0 _ _ E). auto.
  - intros m l E. destruct (ok_route0 _ _ E). auto.
Qed.

(** Whole tables replaced: what the new rows refer to has to be there, and what others refer to has to stay. *)
Lemma set_maps d t : inv b h d → (∀ m, is_Some (t_maps d !! m) → is_Some (t !! m)) →
  (∀ m r a, t !! m = Some r → mr_SourceAreaID r = Some a → is_Some (t_areas d !! a)) →
  (∀ m n r s, t !! m = Some r → t !! n = Some s → mr_IsDefault r = true → mr_IsDefault s = true → m = n) →
  (b = true → ∃ m r, t !! m = Some r ∧ mr_IsDefault r = true) → inv b h (d <| t_maps := t |>).
Proof.
  intros Hd Hk Hs Hu Ho. by_inv Hd.
  - intros n dev E. destruct (ok_member0 _ _ E). auto.
  - intros n l E. destruct (ok_map_link0 _ _ E). auto.
  - intros n a E. eauto.
  - intros n dev E. destruct (ok_position0 _ _ E). auto.
  - intros n l E. destruct (ok_route0 _ _ E). auto.
Qed.
Lemma set_positions d t : inv b h d → (∀ m dev, is_Some (t !! (m, dev)) → is_Some (t_maps d !! m) ∧ is_Some (t_devices d !! dev)) → inv b h (d <| t_map_positions := t |>).
Proof. intros Hd Hk. by_inv Hd. Qed.
Lemma set_members d t : inv b h d → (∀ m dev, is_Some (t !! (m, dev)) → is_Some (t_maps d !! m) ∧ is_Some (t_devices d !! dev)) →
  (∀ k, is_Some (t_map_devices d !! k) → is_Some (t !! k)) → inv b h (d <| t_map_devices := t |>).
Proof. intros Hd Hk Ho. by_inv Hd. intros m dev a E. destruct (ok_device_area0 _ _ _ E). auto. Qed.
Lemma set_map_areas d t : inv b h d → (∀ m a, is_Some (t !! (m, a)) → is_Some (t_maps d !! m)) →
  (∀ k, is_Some (t_map_areas d !! k) → is_Some (t !! k)) → inv b h (d <| t_map_areas := t |>).
Proof. intros Hd Hk Ho. by_inv Hd. intros m dev a E. destruct (ok_device_area0 _ _ _ E). auto. Qed.
Lemma set_map_links d s : inv b h d → (∀ m l, (m, l) ∈ s → is_Some (t_maps d !! m) ∧ is_Some (t_links d !! l)) → t_map_links d ⊆ s → inv b h (d <| t_map_links := s |>).
Proof. intros Hd Hk Ho. by_inv Hd. intros m l r E. destruct (inv_routes0 _ _ _ E) as [? [?|?]]; auto. Qed.
Lemma set_device_areas d s : inv b h d → (∀ m dev a, (m, dev, a) ∈ s → is_Some (t_map_devices d !! (m, dev)) ∧ is_Some (t_map_areas d !! (m, a))) →
  inv b h (d <| t_map_device_areas := s |>).
Proof. intros Hd Hk. by_inv Hd. Qed.
Lemma set_routes d t : inv b h d → (∀ m l r, t !! (m, l) = Some r → route_ok l r ∧ (m, l) ∈ t_map_links d) → inv b h (d <| t_map_link_routes := t |>).
Proof.
  intros Hd Hk. by_inv Hd.
  - intros m l [r E]. destruct (Hk _ _ _ E). eauto.
  - intros m l r E. destruct (Hk _ _ _ E). auto.
Qed.
Lemma has_default_false d : has_default d = false ↔ ∀ m r, t_maps d !! m = Some r → mr_IsDefault r = false.
Proof.
  unfold has_default. rewrite <- not_true_iff_false, existsb_exists. setoid_rewrite <- list_elem_of_In. split.
  - intros Hn m r E. destruct (mr_IsDefault r) eqn:Ed; [|done]. destruct Hn. exists (m, r). by rewrite elem_of_map_to_list.
  - intros Hf ([m r] & E%elem_of_map_to_list & Hb). cbn in Hb. by rewrite (Hf _ _ E) in Hb.
Qed.
Lemma put_map d m r : inv b h d → t_maps d !! m = None → (∀ a, mr_SourceAreaID r = Some a → is_Some (t_areas d !! a)) →
  mr_IsDefault r && has_default d = false → inv b h (d <| t_maps := <[m := r]> (t_maps d) |>).
Proof.
  intros Hd Hn Ha Hu. apply set_maps; [done|..].
  - intros n Hs. rewrite lookup_insert_is_Some. destruct (decide (m = n)); auto.
  - intros n r' a E. apply lookup_insert_Some in E as [[-> <-]|[_ E]]; [auto|]. by apply (ok_source d (inv_store _ _ _ Hd) n).
  - intros x y r1 r2 E1 E2 D1 D2. apply andb_false_iff in Hu.
    apply lookup_insert_Some in E1 as [[-> <-]|[_ E1]], E2 as [[-> <-]|[_ E2]].
    + done.
    + destruct Hu as [Hu|Hu]; [congruence|]. rewrite has_default_false in Hu. by rewrite (Hu _ _ E2) in D2.
    + destruct Hu as [Hu|Hu]; [congruence|]. rewrite has_default_false in Hu. by rewrite (Hu _ _ E1) in D1.
    + by apply (ok_default d (inv_store _ _ _ Hd) x y r1 r2).
  - intros Hb. destruct (inv_default _ _ _ Hd Hb) as (n & r' & E & D). exists n, r'. split; [|done]. rewrite lookup_insert_ne; [done|congruence].
Qed.
End consistent.

(** ** Transactions *)

(** One step of a transaction at a time. *)
Ltac wp_step := lazymatch goal with
  | |- wp (tx_bind _ _) _ _ => apply wp_bind
  | |- wp (references _ _) _ _ => apply wp_references; intros ?
  | |- wp (tx_reject _ _) _ _ => apply wp_reject; intros ?
  | |- wp (tx_write _) _ _ => apply wp_write
  | |- wp (tx_read _) _ _ => apply wp_read
  | |- wp (tx_ret _) _ _ => apply wp_ret
  | |- wp (tx_lift _) _ _ => apply wp_lift; intros ? ?
  end.
Ltac wp_steps := repeat wp_step.

Section membership.
Context `{Database} (b : bool) (h : option UUID).
Abbreviation kept := (keeps (inv b h)).

Lemma keeps_insert_member id r : kept (insert_member id r).
Proof. intros d Hd. unfold insert_member, insert_row. wp_steps. by apply put_member. Qed.
Lemma keeps_upsert_member id r : kept (upsert_member id r).
Proof. intros d Hd. unfold upsert_member. wp_steps. by apply put_member. Qed.
Lemma keeps_insert_map_link strict id l : kept (insert_map_link strict id l).
Proof. intros d Hd. unfold insert_map_link. wp_steps. by apply put_map_link. Qed.
Lemma keeps_insert_map_area now id a : kept (insert_map_area now id a).
Proof. intros d Hd. unfold insert_map_area, insert_row. wp_steps. by apply put_map_area. Qed.
Lemma keeps_missing_area id k r : kept (references t_maps id ;; insert_missing t_map_areas (id, k) r).
Proof. intros d Hd. unfold insert_missing. wp_steps. destruct (t_map_areas d !! (id, k)); [by destruct d|by apply put_map_area]. Qed.
Lemma keeps_insert_device_area id dev a : kept (insert_device_area id dev a).
Proof. intros d Hd. unfold insert_device_area. wp_steps. by apply put_device_area. Qed.
Lemma keeps_device_areas id devices : kept (insertCanvasMapDeviceAreas id devices).
Proof.
  apply keeps_each. intros m _. apply tx_keeps_bind; [apply keeps_lift|]. intros ids. apply keeps_each. intros a _. apply keeps_insert_device_area.
Qed.
Lemma keeps_clear_device_areas id dev : kept (clear_device_areas id dev).
Proof. apply keeps_write. intros d Hd. apply fewer_device_areas; [done|]. set_solver. Qed.
Lemma keeps_prune_positions id devices : kept (pruneCanvasMapPositionsForMembership id devices).
Proof. apply keeps_write. intros d Hd. apply fewer_positions; [done|]. apply map_filter_subseteq. Qed.
Lemma keeps_touch now id : kept (touch now id).
Proof. apply keeps_write. intros d Hd. by apply touched. Qed.
Lemma keeps_materialized now id : kept (materialized now id).
Proof.
  apply keeps_write. intros d Hd. apply alter_map_ok; [done|done|]. intros r a E Es. by eapply (ok_source d (inv_store _ _ _ Hd)).
Qed.
Lemma keeps_delete_members gone : kept (tx_write (delete_members gone)).
Proof. apply keeps_write. intros d Hd. by apply delete_members_ok. Qed.
Lemma keeps_delete_map_areas gone : kept (tx_write (delete_map_areas gone)).
Proof. apply keeps_write. intros d Hd. by apply delete_map_areas_ok. Qed.

(** Pruning the routes of a map closes the hole. *)
Lemma prune_routes_closes id d : inv b (Some id) d → wp (pruneCanvasMapLinkRoutesForMembership id) (λ _, inv b None) d.
Proof.
  intros Hd. apply wp_write.
  assert (Hf : inv b (Some id) (d <| t_map_link_routes := filter (λ e : UUID * UUID * RouteRow, e.1.1 ≠ id ∨ e.1 ∈ t_map_links d) (t_map_link_routes d) |>)).
  { apply fewer_routes; [done|]. apply map_filter_subseteq. }
  split; [apply Hf|apply Hf|]. intros m l r E. pose proof (inv_routes _ _ _ Hf _ _ _ E) as [Hr Hl]. split; [done|]. right.
  cbn in E. apply map_lookup_filter_Some in E as [_ Hp]. cbn in *. destruct Hl as [[= ->]|?]; [|done]. by destruct Hp.
Qed.
End membership.
#[export] Hint Resolve keeps_insert_member keeps_upsert_member keeps_insert_map_link keeps_insert_map_area keeps_missing_area keeps_insert_device_area
  keeps_device_areas keeps_clear_device_areas keeps_prune_positions keeps_touch keeps_materialized keeps_delete_members keeps_delete_map_areas : theia.

(** A sequence of steps each of which keeps the tables consistent. *)
Ltac keeps_steps := repeat match goal with
  | |- ∀ _, _ => intros ?
  | |- keeps _ _ => solve [eauto 2 with theia]
  | |- keeps _ (tx_bind _ _) => apply tx_keeps_bind
  | |- keeps _ (tx_each _ _) => apply keeps_each
  | |- keeps _ (match ?x with _ => _ end) => destruct x
  end.

(** The next step keeps what [Hd] says. *)
Ltac wp_keep Hd := apply wp_bind; match type of Hd with ?P ?d => apply (keeps_wp P _ _ d) end; [|exact Hd|clear Hd; intros ? ? Hd].

Section repositories.
Context `{Database} `{FilterJSON}.

Lemma keeps_clear_membership b id : keeps (inv b (Some id)) (clear_membership id).
Proof.
  unfold clear_membership. keeps_steps.
  - apply keeps_write. intros d Hd. apply fewer_device_areas; [done|]. set_solver.
  - apply keeps_write. intros d Hd. apply fewer_map_links; [done|set_solver|]. intros m l Hl Hn. destruct (decide (m = id)) as [->|]; [done|]. destruct Hn. by apply elem_of_filter.
Qed.

Lemma write_membership_ok now id ms : keeps consistent (write_membership now id ms).
Proof.
  intros d Hd. apply (inv_weaken true (Some id)) in Hd. unfold write_membership.
  wp_keep Hd; [by apply keeps_clear_membership|]. do 5 (wp_keep Hd; [keeps_steps|]).
  apply wp_bind. eapply wp_mono; [by apply prune_routes_closes|]. intros ? ? Hd2. by apply keeps_materialized.
Qed.
Lemma ReplaceMembership_ok now id ms : keeps consistent (ReplaceMembership now id ms).
Proof. unfold ReplaceMembership, lockCanvasMap. keeps_steps. apply write_membership_ok. Qed.
Lemma AddDeviceMembership_ok now id m ls areas : keeps consistent (AddDeviceMembership now id m ls areas).
Proof. unfold AddDeviceMembership, lockCanvasMap. keeps_steps. Qed.
Lemma UpdateDeviceAreaMemberships_ok now id devs areas : keeps consistent (UpdateDeviceAreaMemberships now id devs areas).
Proof. unfold UpdateDeviceAreaMemberships, lockCanvasMap. keeps_steps. Qed.

Lemma UpdateDeviceVisualColor_ok now id dev color : keeps consistent (UpdateDeviceVisualColor now id dev color).
Proof. unfold UpdateDeviceVisualColor, lockCanvasMap. keeps_steps. apply keeps_write. intros d Hd. by apply alter_member. Qed.

(** Removing links and pruning their routes. *)
Lemma drop_map_links now id s d : consistent d → s ⊆ t_map_links d → (∀ m l, (m, l) ∈ t_map_links d → (m, l) ∉ s → m = id) →
  wp (pruneCanvasMapLinkRoutesForMembership id ;; touch now id) (λ _, consistent) (d <| t_map_links := s |>).
Proof.
  intros Hd Hs Hm. apply wp_bind. eapply wp_mono.
  - apply (prune_routes_closes true id). apply fewer_map_links; [by apply inv_weaken|done|]. intros m l Hl Hn. by rewrite (Hm _ _ Hl Hn).
  - intros ? ? Hd2. by apply keeps_touch.
Qed.
Lemma RemoveDevice_ok now id dev : keeps consistent (RemoveDevice now id dev).
Proof.
  unfold RemoveDevice, lockCanvasMap. do 4 (apply tx_keeps_bind; [solve [keeps_steps]|intros ?]). apply tx_keeps_bind; [|intros ?].
  - apply keeps_write. intros d Hd. apply fewer_positions; [done|]. apply delete_subseteq.
  - intros d Hd. apply wp_bind, wp_write. apply drop_map_links; [done|set_solver|]. intros m l Hl Hn.
    destruct (decide (m = id)) as [->|Hne]; [done|]. destruct Hn. apply elem_of_filter. cbn. by rewrite (proj2 (Z.eqb_neq _ _) Hne).
Qed.
Lemma RemoveLink_ok now id l : keeps consistent (RemoveLink now id l).
Proof.
  unfold RemoveLink, lockCanvasMap. do 3 (apply tx_keeps_bind; [solve [keeps_steps]|intros ?]). intros d Hd. apply wp_bind, wp_write. apply drop_map_links; [done|set_solver|].
  intros m l' Hl Hn. apply not_elem_of_difference in Hn as [?|[= -> _]%elem_of_singleton]; done.
Qed.

Lemma CreateArea_ok new now id a : keeps consistent (CreateArea new now id a).
Proof. unfold CreateArea, lockCanvasMap, ensureCanvasMapAreaNameAvailable. keeps_steps. Qed.
Lemma UpdateArea_ok now id a x : keeps consistent (UpdateArea now id a x).
Proof.
  unfold UpdateArea, lockCanvasMap, ensureCanvasMapAreaNameAvailable. keeps_steps. apply keeps_write. intros d Hd. by apply alter_map_area.
Qed.
Lemma DeleteArea_ok now id a : keeps consistent (DeleteArea now id a).
Proof. unfold DeleteArea, lockCanvasMap. keeps_steps. Qed.

Lemma SaveAllForMap_ok now id ps : keeps consistent (SaveAllForMap now id ps).
Proof.
  unfold SaveAllForMap, rejectCanvasMapNonMemberPositions. apply tx_keeps_bind; [keeps_steps|intros ?]. destruct ps as [|p ps]; [keeps_steps|].
  apply tx_keeps_bind; [keeps_steps|intros ?]. apply keeps_each. intros q _ d Hd. wp_steps. by apply put_position.
Qed.
Lemma DeleteByDeviceID_ok dev : keeps consistent (DeleteByDeviceID dev).
Proof. unfold DeleteByDeviceID. keeps_steps. apply keeps_write. intros d Hd. apply fewer_positions; [done|]. apply map_filter_subseteq. Qed.
Lemma PositionRepo_SaveAll_ok now ps : keeps consistent (PositionRepo_SaveAll now ps).
Proof.
  apply keeps_each. intros q _ d Hd. wp_steps. by apply put_legacy_position.
Qed.
Lemma PositionRepo_DeleteByDeviceID_ok dev : keeps consistent (PositionRepo_DeleteByDeviceID dev).
Proof. unfold PositionRepo_DeleteByDeviceID. keeps_steps. apply keeps_write. intros d Hd. apply fewer_legacy_positions; [done|]. apply delete_subseteq. Qed.

Lemma UpsertForMap_ok now id r : keeps consistent (UpsertForMap now id r).
Proof.
  intros d Hd. unfold UpsertForMap, lockCanvasMapForLinkRoute, lockCanvasMap, lockCanvasMapLinkMembership. wp_steps. to_prop.
  destruct a0. by apply put_route.
Qed.
Lemma DeleteForMap_ok id l : keeps consistent (DeleteForMap id l).
Proof.
  unfold DeleteForMap, lockCanvasMapForLinkRoute, lockCanvasMap, lockCanvasMapLinkMembership. keeps_steps. apply keeps_write. intros d Hd.
  apply fewer_routes; [done|]. apply delete_subseteq.
Qed.

Lemma wp_insert_map m r (Q : unit → MapDB → Prop) b h d : inv b h d →
  (∀ d', t_maps d !! m = None → d' = d <| t_maps := <[m := r]> (t_maps d) |> → inv b h d' → Q tt d') → wp (insert_map m r) Q d.
Proof.
  intros Hd HQ. unfold insert_map, references_area, insert_row. apply wp_bind.
  assert (Hrest : (∀ a, mr_SourceAreaID r = Some a → is_Some (t_areas d !! a)) → wp (tx_reject (λ d, mr_IsDefault r && has_default d) pk_violation ;;
    tx_reject (λ d, bool_decide (is_Some (t_maps d !! m))) pk_violation ;; tx_write (λ d, d <| t_maps := <[m := r]> (t_maps d) |>)) Q d).
  { intros Ha. wp_steps. to_prop. apply eq_None_not_Some in H2. apply HQ; [done|done|]. by apply put_map. }
  destruct (mr_SourceAreaID r) as [a|]; wp_step; apply Hrest; naive_solver.
Qed.
Lemma insert_map_ok b h m r : keeps (inv b h) (insert_map m r).
Proof. intros d Hd. by apply (wp_insert_map m r _ b h). Qed.

Lemma SetPrimary_tx_ok now id : keeps consistent (SetPrimary_tx now id).
Proof.
  intros d Hd. unfold SetPrimary_tx, lockCanvasMap, alter_map. wp_steps. to_prop. destruct H1 as [r0 E0]. cbn.
  set (t := alter _ id _). change (consistent (d <| t_maps := t |>)).
  assert (Hl : ∀ m r, t !! m = Some r → ∃ r1, t_maps d !! m = Some r1 ∧ mr_SourceAreaID r = mr_SourceAreaID r1 ∧ (mr_IsDefault r = true → m = id)).
  { intros m r. unfold t. destruct (decide (id = m)) as [<-|Hne].
    - rewrite lookup_alter_eq, lookup_fmap, E0. intros [= <-]. exists r0. split; [done|]. by destruct (mr_IsDefault r0).
    - rewrite lookup_alter_ne, lookup_fmap, fmap_Some by done. intros (r1 & E & ->). exists r1. split; [done|]. destruct (mr_IsDefault r1) eqn:E1; (split; [done|]); cbn; congruence. }
  apply set_maps; [done|..].
  - intros m Hm. unfold t. destruct (decide (id = m)) as [<-|Hne]; [by rewrite lookup_alter_eq, fmap_is_Some, lookup_fmap, fmap_is_Some|].
    rewrite lookup_alter_ne by done. by rewrite lookup_fmap, fmap_is_Some.
  - intros m r a (r1 & E & -> & _)%Hl. by apply (ok_source d (inv_store _ _ _ Hd) m).
  - intros m n r s (? & _ & _ & Hm)%Hl (? & _ & _ & Hn)%Hl ? ?. by rewrite Hm, Hn.
  - intros _. eexists id, _. unfold t. by rewrite lookup_alter_eq, lookup_fmap, E0.
Qed.
Lemma Delete_tx_ok id : keeps consistent (Delete_tx id).
Proof.
  intros d Hd. unfold Delete_tx. wp_steps. destruct (t_maps d !! id) as [r|] eqn:E; [|done]. destruct (mr_IsDefault r) eqn:Ed; [done|]. cbn.
  apply delete_map_ok; [done|]. congruence.
Qed.
Lemma Update_tx_ok now id name description source json : keeps consistent (Update_tx now id name description source json).
Proof.
  intros d Hd. unfold Update_tx, lockCanvasMap, references_area, alter_map. wp_steps. destruct source as [a|]; wp_steps; (apply alter_map_ok; [done|done|]); cbn; naive_solver.
Qed.

(** ** Duplicating a map *)

(** The copy is there, with the members and the areas of the source where these are copied already. *)
Record copying (members areas : bool) (id new : UUID) (d : MapDB) : Prop := {
  cg_inv : consistent d;
  cg_ne : id ≠ new;
  cg_map : is_Some (t_maps d !! new);
  cg_members : members = true → ∀ dev, is_Some (t_map_devices d !! (id, dev)) → is_Some (t_map_devices d !! (new, dev));
  cg_areas : areas = true → ∀ a, is_Some (t_map_areas d !! (id, a)) → is_Some (t_map_areas d !! (new, a)) }.

Lemma copy_rows_is_Some {A} (id new : UUID) (t : gmap (UUID * UUID) A) m x :
  is_Some (copy_rows id new t !! (m, x)) → m = new ∧ is_Some (t !! (id, x)) ∨ is_Some (t !! (m, x)).
Proof. rewrite lookup_copy_rows. destruct (m =? new) eqn:E; to_prop; [|auto]. destruct (t !! (id, x)) eqn:E'; eauto. Qed.
Lemma copy_rows_old {A} (id new : UUID) (t : gmap (UUID * UUID) A) k : is_Some (t !! k) → is_Some (copy_rows id new t !! k).
Proof. destruct k as [m x]. rewrite lookup_copy_rows. destruct (m =? new), (t !! (id, x)); eauto. Qed.
Lemma copy_rows_new {A} (id new : UUID) (t : gmap (UUID * UUID) A) x : id ≠ new → is_Some (copy_rows id new t !! (id, x)) → is_Some (copy_rows id new t !! (new, x)).
Proof.
  intros Hne. rewrite !lookup_copy_rows, (proj2 (Z.eqb_neq id new) Hne), Z.eqb_refl. by destruct (t !! (id, x)).
Qed.

Lemma copy_positions ms as_ id new : keeps (copying ms as_ id new) (tx_write (λ d, d <| t_map_positions := copy_rows id new (t_map_positions d) |>)).
Proof.
  apply keeps_write. intros d []. split; try done. apply set_positions; [done|].
  intros m dev [[-> E]|E]%copy_rows_is_Some; destruct (ok_position _ (inv_store _ _ _ cg_inv0) _ _ E); auto.
Qed.
Lemma copy_members id new d : copying false false id new d → copying true false id new (d <| t_map_devices := copy_rows id new (t_map_devices d) |>).
Proof.
  intros []. split; try done.
  - apply set_members; [done| |by apply copy_rows_old].
    intros m dev [[-> E]|E]%copy_rows_is_Some; destruct (ok_member _ (inv_store _ _ _ cg_inv0) _ _ E); auto.
  - intros _ dev. cbn. by apply copy_rows_new.
Qed.
Lemma copy_links ms as_ id new : keeps (copying ms as_ id new) (tx_write (λ d, d <| t_map_links := copy_ids id new (t_map_links d) |>)).
Proof.
  apply keeps_write. intros d []. split; try done. apply set_map_links; [done| |].
  - intros m l [[-> E]|E]%elem_of_copy_ids; destruct (ok_map_link _ (inv_store _ _ _ cg_inv0) _ _ E); auto.
  - intros [m l] Hl. apply elem_of_copy_ids. auto.
Qed.
Lemma copy_routes ms as_ id new : keeps (copying ms as_ id new) (tx_write (λ d, d <| t_map_link_routes :=
    list_to_map ((λ e, ((new, e.1), e.2)) <$> filter (λ e : UUID * RouteRow, (new, e.1) ∈ t_map_links d) (rows_of id (t_map_link_routes d))) ∪ t_map_link_routes d |>)).
Proof.
  apply keeps_write. intros d []. split; try done. apply set_routes; [done|].
  intros m l r. rewrite lookup_copied by (eapply sublist_NoDup; [apply (NoDup_rows_of id (t_map_link_routes d))|apply fmap_sublist, sublist_filter]). cbn.
  pose proof (inv_routes _ _ _ cg_inv0) as Hr. destruct (m =? new) eqn:Em; to_prop.
  - destruct (list_find _ _) as [[i [x r']]|] eqn:Ef; cbn.
    + apply list_find_Some in Ef as (Hi & Hx & _). cbn in Hx. subst. intros [= <-]. apply list_elem_of_lookup_2, list_elem_of_filter in Hi as [Hn Hi].
      apply elem_of_rows_of in Hi. destruct (Hr _ _ _ Hi). auto.
    + intros E. destruct (Hr _ _ _ E) as [? [?|?]]; done.
  - intros E. destruct (Hr _ _ _ E) as [? [?|?]]; done.
Qed.
Lemma copy_areas id new d : copying true false id new d → copying true true id new (d <| t_map_areas := copy_rows id new (t_map_areas d) |>).
Proof.
  intros []. split; try done.
  - apply set_map_areas; [done| |by apply copy_rows_old].
    intros m dev [[-> E]|E]%copy_rows_is_Some; [done|]. by apply (ok_map_area _ (inv_store _ _ _ cg_inv0) _ _ E).
  - intros _ a. cbn. by apply copy_rows_new.
Qed.
Lemma backfill_areas now id new : keeps (copying true true id new) (backfillCanvasMapAreasFromMemberDevices now new).
Proof.
  unfold backfillCanvasMapAreasFromMemberDevices. apply tx_keeps_bind; [apply keeps_read|intros ids]. apply keeps_each. intros a _.
  apply tx_keeps_bind; [apply keeps_read|intros [x|]; [|apply tx_keeps_ret]]. apply keeps_write. intros d [].
  destruct (t_map_areas d !! (new, a)) eqn:E; [by destruct d|]. split; try done; [by apply put_map_area|].
  intros _ a' Ha. cbn in *. rewrite lookup_insert_is_Some in Ha |- *. destruct (decide ((new, a) = (new, a'))); [auto|].
  right. split; [done|]. destruct Ha as [[= ? ?]|[_ ?]]; [congruence|auto].
Qed.
Lemma elem_of_base_members m d x : x ∈ base_members m d ↔ ∃ r, t_map_devices d !! (m, x) = Some r ∧ me_Role r = CanvasMapDeviceRoleBase.
Proof.
  unfold base_members. rewrite list_elem_of_fmap. split.
  - intros ([y r] & -> & [Hr Hy]%list_elem_of_filter). apply elem_of_rows_of in Hy. eauto.
  - intros (r & E & Hr). exists (x, r). split; [done|]. apply list_elem_of_filter. split; [done|]. by apply elem_of_rows_of.
Qed.
Lemma backfill_device_areas b h new : keeps (inv b h) (backfillCanvasMapDeviceAreasFromMemberDevices new).
Proof.
  apply keeps_write. intros d Hd. apply set_device_areas; [done|]. intros m dev a [E|E]%elem_of_union.
  - apply elem_of_list_to_set, list_elem_of_bind in E as (x & E & (r & Er & _)%elem_of_base_members).
    apply list_elem_of_fmap in E as (a' & [= -> -> ->] & [Ha _]%list_elem_of_filter). split; [by rewrite Er|done].
  - by apply (ok_device_area _ (inv_store _ _ _ Hd)).
Qed.
Lemma copy_device_areas id new : keeps (copying true true id new) (tx_write (λ d, d <| t_map_device_areas :=
  set_map (λ e : UUID * UUID * UUID, (new, e.1.2, e.2)) (device_areas_of id d) ∪ t_map_device_areas d |>)).
Proof.
  apply keeps_write. intros d []. split; try done. apply set_device_areas; [done|]. intros m dev a [E|E]%elem_of_union.
  - apply elem_of_map in E as ([[m' dev'] a'] & [= -> -> ->] & [Em E]%elem_of_filter). cbn in Em. subst m'.
    destruct (ok_device_area _ (inv_store _ _ _ cg_inv0) _ _ _ E). auto.
  - by apply (ok_device_area _ (inv_store _ _ _ cg_inv0)).
Qed.

Lemma Duplicate_tx_ok new now id name : keeps consistent (Duplicate_tx new now id name).
Proof.
  intros d Hd. unfold Duplicate_tx. wp_step. wp_step. wp_step. wp_step. wp_step. unfold scan_map in *.
  destruct (t_maps d !! id) as [r|] eqn:Er; [|done]. apply (wp_insert_map new _ _ true None); [done|]. intros d1 Hn -> Hd1.
  assert (Hc : copying false false id new (d <| t_maps := <[new := mkMapRow name (cm_Description a) (cm_SourceAreaID a) (cm_FilterJSON a) false (cm_MembershipMaterialized a) now now]> (t_maps d) |>)).
  { split; try done; [congruence|]. cbn. rewrite lookup_insert_eq. eauto. }
  clear Hd Hd1. wp_keep Hc; [apply copy_positions|]. wp_step. wp_step. apply copy_members in Hc.
  wp_keep Hc; [apply copy_links|]. wp_keep Hc; [apply copy_routes|]. wp_step. wp_step. apply copy_areas in Hc.
  wp_step. wp_step. wp_keep Hc; [destruct (_ =? 0); [apply backfill_areas|apply tx_keeps_ret]|].
  wp_keep Hc; [apply copy_device_areas|]. wp_step. wp_step. destruct (_ =? 0)%nat; [by apply backfill_device_areas, Hc|apply Hc].
Qed.
End repositories.

(** ** Isolating virtual devices *)

Section isolation.
Context `{Database} (ids : CloneIDs) (now : Time) (mapID : UUID).
Hypothesis new_device_drawn : ∀ x, new_device ids x ≠ uuid_Nil.
Hypothesis new_link_drawn : ∀ x, new_link ids x ≠ uuid_Nil.

Lemma wp_insert_device b h m (Q : unit → MapDB → Prop) d : inv b h d → md_ID m ≠ uuid_Nil →
  (t_devices d !! md_ID m = None → ip_taken (md_ID m) m d = false → inv b h (d <| t_devices := <[md_ID m := m]> (t_devices d) |>) →
   Q tt (d <| t_devices := <[md_ID m := m]> (t_devices d) |>)) → wp (insert_device m) Q d.
Proof.
  intros Hd Hn HQ. unfold insert_device, insert_row. wp_steps. to_prop. apply HQ; [by apply eq_None_not_Some|done|].
  apply (put_device_row b h d m (t_device_areas d)); [done..|]. intros dev a E. destruct (ok_device_areas _ (inv_store _ _ _ Hd) _ _ E). auto.
Qed.
Lemma md_ID_clone m : md_ID (clone_device ids m) = new_device ids (md_ID m).
Proof. done. Qed.

Lemma rename_is_Some {A} (old new k : UUID * UUID) (t : gmap (UUID * UUID) A) :
  is_Some (rename_key old new t !! k) → k = new ∧ is_Some (t !! old) ∨ is_Some (t !! k).
Proof.
  unfold rename_key. destruct (t !! old) as [r|] eqn:E; [|auto]. rewrite lookup_insert_is_Some. intros [<-|[Hne Hs]]; [eauto|].
  apply lookup_delete_is_Some in Hs as [_ ?]. auto.
Qed.

(** The device and its clone, and the members as far as they are cloned. *)
Record cloning (member : bool) b h (old : UUID) (d : MapDB) : Prop := {
  cl_inv : inv b h d;
  cl_device : is_Some (t_devices d !! old) → is_Some (t_devices d !! new_device ids old);
  cl_member : member = true → is_Some (t_map_devices d !! (mapID, old)) → is_Some (t_map_devices d !! (mapID, new_device ids old)) }.

Lemma wp_clone_row b h old d : inv b h d → wp (clone_row ids old) (λ _, cloning false b h old) d.
Proof.
  intros Hd. unfold clone_row. wp_step. wp_step. destruct (t_devices d !! old) as [m|] eqn:Em.
  - destruct (ok_device _ (inv_store _ _ _ Hd) _ _ Em) as [Hid _]. eapply wp_insert_device; [exact Hd|by rewrite md_ID_clone|].
    intros _ _ Hi. split; [done| |done]. intros _. rewrite md_ID_clone, Hid. cbn. rewrite lookup_insert_eq. eauto.
  - wp_step. split; [done| |done]. rewrite Em. by intros [].
Qed.
Lemma wp_clone_membership b h old d : cloning false b h old d → wp (clone_membership ids mapID old) (λ _, cloning true b h old) d.
Proof.
  intros [Hd Hdev _]. unfold clone_membership. wp_step. wp_step. destruct (t_map_devices d !! (mapID, old)) as [r|] eqn:Er.
  - unfold insert_row. wp_steps. destruct (ok_member _ (inv_store _ _ _ Hd) mapID old) as [Hm Ho]; [by rewrite Er|].
    split; [by apply put_member; auto|done|]. intros _ _. cbn. rewrite lookup_insert_eq. eauto.
  - wp_step. split; [done..|]. rewrite Er. by intros _ [].
Qed.
Lemma wp_clone_places b h old d : cloning true b h old d → wp (clone_places ids mapID old) (λ _, inv b h) d.
Proof.
  intros [Hd Hdev Hmem]. unfold clone_places. wp_steps. apply delete_members_ok. apply set_positions; [apply set_device_areas; [done|]|].
  - intros m dev a [E|E]%elem_of_union; [|by apply (ok_device_area _ (inv_store _ _ _ Hd))].
    apply elem_of_map in E as ([[m' dev'] a'] & [= -> -> ->] & [Em E]%elem_of_filter). cbn in Em. injection Em as -> ->.
    destruct (ok_device_area _ (inv_store _ _ _ Hd) _ _ _ E). auto.
  - intros m dev [[[= -> ->] E]|E]%rename_is_Some; destruct (ok_position _ (inv_store _ _ _ Hd) _ _ E); auto.
Qed.
Lemma keeps_clone_member b h old : keeps (inv b h) (clone_member ids mapID old).
Proof.
  intros d Hd. unfold clone_member. wp_step. eapply wp_mono; [by apply wp_clone_row|]. intros ? d1 H1. cbn in H1.
  wp_step. eapply wp_mono; [by apply wp_clone_membership|]. intros ? d2 H2. by apply wp_clone_places.
Qed.

Lemma wp_insert_link b h r (Q : unit → MapDB → Prop) d : inv b h d → lk_ID (ln_Link r) ≠ uuid_Nil →
  (t_links d !! lk_ID (ln_Link r) = None → inv b h (d <| t_links := <[lk_ID (ln_Link r) := r]> (t_links d) |>) →
   Q tt (d <| t_links := <[lk_ID (ln_Link r) := r]> (t_links d) |>)) → wp (insert_link r) Q d.
Proof.
  intros Hd Hn HQ. unfold insert_link, insert_row. wp_steps. to_prop. apply HQ; [by apply eq_None_not_Some|]. by apply put_link.
Qed.
Lemma route_ok_link l l' r : route_ok l r → l' ≠ uuid_Nil → route_ok l' r.
Proof.
  unfold route_ok, ValidateCanvasMapLinkRoute. cbn. intros Hr Hn. rewrite (proj2 (Z.eqb_neq _ _) Hn). by destruct (l =? uuid_Nil).
Qed.
Lemma rename_lookup {A} (old new k : UUID * UUID) (t : gmap (UUID * UUID) A) r :
  rename_key old new t !! k = Some r → k = new ∧ t !! old = Some r ∨ (k ≠ old ∨ t !! old = None) ∧ t !! k = Some r.
Proof.
  unfold rename_key. destruct (t !! old) as [r'|] eqn:E; [|auto]. intros [[<- <-]|[Hne Hs]]%lookup_insert_Some; [auto|].
  apply lookup_delete_Some in Hs as [? ?]. auto.
Qed.
Lemma keeps_clone_link b clones l : keeps (inv b None) (clone_link ids now mapID clones l).
Proof.
  intros d Hd. unfold clone_link. wp_step. wp_step. destruct (t_links d !! l) as [row|] eqn:El; [|by wp_step].
  destruct (negb _); [by wp_step|]. wp_step. eapply wp_insert_link; [done|by cbn|]. cbn. intros Hfresh Hi. wp_steps.
  set (d1 := d <| t_links := _ |>) in *. change (t_map_links d1) with (t_map_links d). unfold rename_id. case_bool_decide as Hin.
  - assert (Hl : ∀ m x, (m, x) ∈ t_map_links d → (m, x) ≠ (mapID, l) → (m, x) ∈ {[(mapID, new_link ids l)]} ∪ t_map_links d ∖ {[(mapID, l)]}) by set_solver.
    destruct (ok_map_link _ (inv_store _ _ _ Hi) mapID l Hin) as [Hm _].
    assert (Hnew : is_Some (t_links d1 !! new_link ids l)) by (cbn; rewrite lookup_insert_eq; eauto). split; [|apply Hi|].
    + destruct Hi as [[] ? ?]. split; try assumption; cbn.
      * intros m x [[= -> ->]%elem_of_singleton|[E _]%elem_of_difference]%elem_of_union; [done|]. eauto.
      * intros m x [[[= -> ->] E]|E]%rename_is_Some; [done|eauto].
    + intros m x r. cbn. intros [[[= -> ->] E]|[Hne E]]%rename_lookup; destruct (inv_routes _ _ _ Hd _ _ _ E) as [Hr [?|Hx]]; try done.
      * split; [|right; set_solver]. by eapply route_ok_link.
      * split; [done|]. right. apply Hl; [done|]. intros [= -> ->]. by destruct Hne as [?|?]; [|congruence].
  - assert (Hnr : t_map_link_routes d !! (mapID, l) = None).
    { apply eq_None_not_Some. intros [r E]. by destruct (inv_routes _ _ _ Hd _ _ _ E) as [_ [?|?]]. }
    unfold rename_key. cbn. by rewrite Hnr.
Qed.
Lemma IsolateVirtualDevices_ok : keeps consistent (IsolateVirtualDevices ids now mapID).
Proof.
  unfold IsolateVirtualDevices, lockCanvasMap. keeps_steps; [by apply keeps_clone_member|by apply keeps_clone_link].
Qed.
End isolation.
