(* ===== verification/CanvasSafe.v ===== *)
(** * Everything that touches the saved maps keeps them consistent

    Links, devices, areas, the migrations at start and the handlers: from the first start on, whatever
    is asked for in whatever order, the tables satisfy [consistent]. *)

From S2P Require Import Prelude GoLib GoText Domain Addresses Runtime CanvasMap MapStore CanvasRepo LinkStore CanvasService CanvasInv.
Open Scope store_scope.

(** ** The rows of links *)

Section links.
Context `{Database} (unicode_lower : string → string).

Lemma elem_of_link_rows d r : store_ok d → r ∈ link_rows d ↔ t_links d !! lk_ID (ln_Link r) = Some r.
Proof.
  intros Hd. unfold link_rows. rewrite (merge_sort_Permutation row_le), list_elem_of_fmap. split.
  - intros ([id r'] & -> & E%elem_of_map_to_list). cbn. by destruct (ok_link d Hd _ _ E) as [[-> _] _].
  - intros E. exists (lk_ID (ln_Link r), r). split; [done|]. by apply elem_of_map_to_list.
Qed.
Lemma NoDup_link_rows d : store_ok d → NoDup (link_rows d).
Proof.
  intros Hd. unfold link_rows. rewrite (merge_sort_Permutation row_le). apply NoDup_fmap_2_strong; [|apply NoDup_map_to_list].
  intros [x r] [y s] Hx Hy Er. apply elem_of_map_to_list in Hx, Hy. cbn in Er. subst s.
  destruct (ok_link d Hd _ _ Hx) as [[<- _] _], (ok_link d Hd _ _ Hy) as [[<- _] _]. done.
Qed.

(** The fold keeps a candidate of the list, with its score. *)
Lemma best_match_elem score rows r : best_match score rows = Some r → r ∈ rows ∧ ∃ n, score r = Some n.
Proof.
  unfold best_match. assert (Hf : ∀ acc, (∀ c n, acc.1 = Some (c, n) → c ∈ rows ∧ score c = Some n) → ∀ l, (∀ c, c ∈ l → c ∈ rows) →
    ∀ c n, (foldl (see_candidate score) acc l).1 = Some (c, n) → c ∈ rows ∧ score c = Some n).
  { intros acc Ha l. revert acc Ha. induction l as [|x l IH]; intros acc Ha Hl; [done|]. cbn. apply IH; [|intros c Hc; apply Hl; by right].
    unfold see_candidate. destruct (score x) as [k|] eqn:Ek; [|done]. destruct acc.1 as [[c0 n0]|] eqn:Ea.
    - destruct (n0 <? k); [intros c n [= <- <-]; split; [apply Hl; by left|done]|]. destruct (k =? n0); cbn; intros c n E; apply Ha; congruence.
    - intros c n [= <- <-]. split; [apply Hl; by left|done]. }
  specialize (Hf (None, false) ltac:(done) rows ltac:(auto)). destruct (foldl _ _ rows) as [best amb]. cbn in Hf. destruct amb; [done|].
  destruct best as [[c n]|]; [|done]. intros [= <-]. destruct (Hf c n); eauto.
Qed.
Lemma best_between score s t d r : store_ok d → best_match score (rows_between s t d) = Some r →
  t_links d !! lk_ID (ln_Link r) = Some r ∧ lk_SourceDeviceID (ln_Link r) = s ∧ lk_TargetDeviceID (ln_Link r) = t.
Proof.
  intros Hd [Hr _]%best_match_elem. apply list_elem_of_filter in Hr as [[Es Et] Hr]. by rewrite elem_of_link_rows in Hr.
Qed.

(** ** Putting a link on maps *)

Lemma shows_both_ends_map l d m : shows_both_ends l d m = true → is_Some (t_maps d !! m).
Proof. unfold shows_both_ends. destruct (t_maps d !! m); [eauto|done]. Qed.

Lemma add_link_maps_ok b h now l d : inv b h d → is_Some (t_links d !! lk_ID l) → wp (addLinkToMaterializedBaseEndpointMaps now l) (λ _, inv b h) d.
Proof.
  intros Hd Hl. unfold addLinkToMaterializedBaseEndpointMaps. wp_step. wp_step.
  set (maps := filter _ _). assert (Hm : ∀ m, m ∈ maps → is_Some (t_maps d !! m)).
  { intros m [[Hs _] _]%list_elem_of_filter. by eapply shows_both_ends_map. }
  clearbody maps. assert (Hw : wp (tx_write (λ d, d <| t_map_links := list_to_set ((λ m, (m, lk_ID l)) <$> maps) ∪ t_map_links d |>) ;;
    tx_write (λ d, d <| t_maps := map_imap (λ m r, Some (if bool_decide ((m, lk_ID l) ∈ t_map_links d) then r <| mr_UpdatedAt := now |> else r)) (t_maps d) |>) ;;
    tx_ret true) (λ _, inv b h) d); [|by destruct maps]. wp_steps.
  set (s := _ ∪ t_map_links d). assert (Hd1 : inv b h (d <| t_map_links := s |>)).
  { apply set_map_links; [done| |set_solver]. intros m x [E|E]%elem_of_union; [|by apply (ok_map_link _ (inv_store _ _ _ Hd))].
    apply elem_of_list_to_set, list_elem_of_fmap in E as (m' & [= -> ->] & E). auto. }
  set (f := λ (m : UUID) (r : MapRow), _). change (t_maps (d <| t_map_links := s |>)) with (t_maps d) in *.
  assert (Hf : ∀ m r, map_imap f (t_maps d) !! m = Some r → ∃ r0, t_maps d !! m = Some r0 ∧ mr_SourceAreaID r = mr_SourceAreaID r0 ∧ mr_IsDefault r = mr_IsDefault r0).
  { intros m r. rewrite map_lookup_imap, bind_Some. intros (r0 & E & Ef). exists r0. split; [done|]. unfold f in Ef. injection Ef as <-. by destruct (bool_decide _). }
  assert (Hg : ∀ m r, t_maps d !! m = Some r → ∃ r', map_imap f (t_maps d) !! m = Some r' ∧ mr_IsDefault r' = mr_IsDefault r).
  { intros m r E. rewrite map_lookup_imap, E. cbn. unfold f. eexists. split; [done|]. by destruct (bool_decide _). }
  apply set_maps; [done|..].
  - intros m [r E]. destruct (Hg _ _ E) as (r' & -> & _). eauto.
  - intros m r a (r0 & E & -> & _)%Hf. by apply (ok_source _ (inv_store _ _ _ Hd) m).
  - intros m n r1 r2 (r0 & E & _ & ->)%Hf (r0' & E' & _ & ->)%Hf. by apply (ok_default _ (inv_store _ _ _ Hd) m n r0 r0').
  - intros Hb. destruct (inv_default _ _ _ Hd Hb) as (m & r & E & Ed). destruct (Hg _ _ E) as (r' & E' & Ed'). exists m, r'. by rewrite Ed'.
Qed.

Lemma wp_update_link b h r0 r (Q : unit → MapDB → Prop) d : inv b h d → t_links d !! lk_ID (ln_Link r) = Some r0 →
  is_Some (t_devices d !! lk_SourceDeviceID (ln_Link r)) → is_Some (t_devices d !! lk_TargetDeviceID (ln_Link r)) →
  (link_taken (ln_Link r) d = false → inv b h (d <| t_links := <[lk_ID (ln_Link r) := r]> (t_links d) |>) → Q tt (d <| t_links := <[lk_ID (ln_Link r) := r]> (t_links d) |>)) →
  wp (update_link r) Q d.
Proof.
  intros Hd E Hs Ht HQ. unfold update_link. wp_steps. apply HQ; [done|]. apply put_link; try done.
  by destruct (ok_link _ (inv_store _ _ _ Hd) _ _ E) as [[_ ?] _].
Qed.

Lemma merge_link_ok b h now l p r s t d : inv b h d → t_links d !! lk_ID (ln_Link r) = Some r → wp (merge_link now l p r s t) (λ _, inv b h) d.
Proof.
  intros Hd E. unfold merge_link. destruct (ok_link _ (inv_store _ _ _ Hd) _ _ E) as (_ & Hs & Ht). destruct (_ && _).
  - wp_step. eapply wp_mono; [by apply add_link_maps_ok; [|cbn; rewrite E; eauto]|]. intros ? ? ?. by wp_step.
  - wp_step. eapply (wp_update_link b h r); [done..|]. cbn. intros _ Hi. wp_step. eapply wp_mono; [apply add_link_maps_ok; [done|]|by intros ? ? ?; wp_step].
    cbn. rewrite lookup_insert_eq. eauto.
Qed.

Lemma created_link_id new now row : new ≠ uuid_Nil → lk_ID (ln_Link (created_link new now row)) ≠ uuid_Nil.
Proof. unfold created_link. cbn. destruct (_ =? uuid_Nil) eqn:E; to_prop; done. Qed.

Lemma UpsertDetailed_ok new now row : new ≠ uuid_Nil → keeps consistent (UpsertDetailed unicode_lower new now row).
Proof.
  intros Hn d Hd. pose proof (inv_store _ _ _ Hd) as Hok. unfold UpsertDetailed. wp_step. wp_step. destruct (findBestSameDirectionLinkMatch _ d) as [r|] eqn:Es.
  { apply best_between in Es as (E & _ & _); [|done]. by apply merge_link_ok. }
  wp_step. wp_step. destruct (findBestReverseLinkMatch _ _ d) as [r|] eqn:Er.
  - apply best_between in Er as (E & Hs & Ht); [|done]. destruct (shouldReorientReverseLink _ _); [|by apply merge_link_ok].
    destruct (ok_link _ Hok _ _ E) as (_ & Hds & Hdt). rewrite Hs in Hds. rewrite Ht in Hdt.
    unfold reorient_link. wp_step. eapply (wp_update_link true None r); [done..|]. cbn. intros _ Hi.
    wp_step. eapply wp_mono; [apply add_link_maps_ok; [done|]|by intros ? ? ?; wp_step]. cbn. rewrite lookup_insert_eq. eauto.
  - wp_step. eapply wp_insert_link; [done|by apply created_link_id|]. intros _ Hi. wp_step.
    eapply wp_mono; [apply add_link_maps_ok; [done|]|by intros ? ? ?; wp_step]. cbn. rewrite lookup_insert_eq. eauto.
Qed.
Lemma CreateManualIdempotent_ok new now row mig : new ≠ uuid_Nil → keeps consistent (CreateManualIdempotent new now row mig).
Proof.
  intros Hn d Hd. unfold CreateManualIdempotent. wp_step. wp_step. destruct (findManualCreateEquivalentLink _ _ d) as [r|] eqn:Ef.
  - wp_step. eapply wp_mono; [apply add_link_maps_ok; [done|]|by intros ? ? ?; wp_step].
    unfold findManualCreateEquivalentLink in Ef. apply head_Some_elem_of, list_elem_of_filter in Ef as [_ Hr].
    rewrite elem_of_link_rows in Hr by apply (inv_store _ _ _ Hd). rewrite Hr. eauto.
  - wp_step. eapply wp_insert_link; [done|by apply created_link_id|]. intros _ Hi. wp_step.
    eapply wp_mono; [apply add_link_maps_ok; [done|]|by intros ? ? ?; wp_step]. cbn. rewrite lookup_insert_eq. eauto.
Qed.
Lemma LinkRepo_Create_ok new now row : new ≠ uuid_Nil → keeps consistent (LinkRepo_Create new now row).
Proof. intros Hn d Hd. unfold LinkRepo_Create. wp_step. eapply wp_insert_link; [done|by apply created_link_id|]. intros _ Hi. by wp_step. Qed.
Lemma LinkRepo_Update_ok now l : keeps consistent (LinkRepo_Update now l).
Proof.
  intros d Hd. unfold LinkRepo_Update. wp_step. wp_step. destruct (t_links d !! lk_ID l) as [r|] eqn:E; [|done].
  destruct (ok_link _ (inv_store _ _ _ Hd) _ _ E) as ([Hid _] & Hs & Ht). eapply (wp_update_link true None r); [done|by cbn; rewrite Hid|done..].
Qed.
Lemma LinkRepo_Delete_ok id : keeps consistent (LinkRepo_Delete id).
Proof. unfold LinkRepo_Delete. keeps_steps. apply keeps_write. intros d Hd. by apply delete_links_ok. Qed.
End links.

(** ** Devices, areas and the migrations *)

Section others.
Context `{Database} `{FilterJSON}.

Lemma put_device_ok m areas : md_ID m ≠ uuid_Nil → keeps consistent (put_device m areas).
Proof.
  intros Hn d Hd. unfold put_device. wp_steps. to_prop. apply put_device_row; [done..|]. intros dev a [E|E]%elem_of_union.
  - apply elem_of_map in E as (a' & [= -> ->] & Ha). split; [by left|]. naive_solver.
  - apply elem_of_filter in E as [_ E]. destruct (ok_device_areas _ (inv_store _ _ _ Hd) _ _ E). auto.
Qed.
Lemma DeviceRepo_Delete_ok id : keeps consistent (DeviceRepo_Delete id).
Proof. unfold DeviceRepo_Delete. keeps_steps. apply keeps_write. intros d Hd. by apply delete_device_ok. Qed.
Lemma AreaRepo_Create_ok new x : new ≠ uuid_Nil → keeps consistent (AreaRepo_Create new x).
Proof.
  intros Hn d Hd. unfold AreaRepo_Create, insert_row. wp_steps. destruct (ar_ID x =? uuid_Nil) eqn:E; to_prop.
  - by apply (put_area true None d {| ar_ID := new |}).
  - by apply (put_area true None d {| ar_ID := ar_ID x |}).
Qed.
Lemma AreaRepo_Update_ok x : keeps consistent (AreaRepo_Update x).
Proof. intros d Hd. unfold AreaRepo_Update. wp_steps. to_prop. destruct H1 as [y E]. apply put_area; [done| |done]. by apply (ok_area _ (inv_store _ _ _ Hd) _ _ E). Qed.
Lemma AreaRepo_Delete_ok id : keeps consistent (AreaRepo_Delete id).
Proof. unfold AreaRepo_Delete. keeps_steps. apply keeps_write. intros d Hd. by apply delete_area_ok. Qed.

(** A table with rows added where there were none. *)
Lemma union_is_Some {A B} (f : B → (UUID * UUID) * A) (l : list B) (t : gmap (UUID * UUID) A) k :
  is_Some ((t ∪ list_to_map (f <$> l)) !! k) → is_Some (t !! k) ∨ ∃ x, x ∈ l ∧ (f x).1 = k.
Proof.
  rewrite lookup_union_is_Some. intros [?|[a E%elem_of_list_to_map_2]]; [auto|]. apply list_elem_of_fmap in E as (x & E & Hx). right. exists x. by rewrite <- E.
Qed.
Lemma union_old {A} (u t : gmap (UUID * UUID) A) k : is_Some (t !! k) → is_Some ((t ∪ u) !! k).
Proof. rewrite lookup_union_is_Some. auto. Qed.

(** Consistent, with the map that is being filled. *)
Definition with_map (id : UUID) (d : MapDB) : Prop := consistent d ∧ is_Some (t_maps d !! id).
Lemma migrate_positions_ok id done : keeps (with_map id) (migrate_positions id done).
Proof.
  apply keeps_write. intros d [Hd Hm]. split; [|done]. apply set_positions; [done|].
  intros m dev [E|([x p] & Hx & [= -> ->])]%union_is_Some; [by apply (ok_position _ (inv_store _ _ _ Hd))|].
  apply list_elem_of_filter in Hx as [_ Hx%elem_of_map_to_list]. split; [done|]. apply (ok_legacy _ (inv_store _ _ _ Hd)). eauto.
Qed.
Lemma migrate_default_members_ok now id d : with_map id d → wp (migrate_default_members now id) (λ _, consistent) d.
Proof.
  intros Hd. unfold migrate_default_members. wp_keep Hd; [|wp_keep Hd; [|wp_keep Hd; [|by apply keeps_materialized, Hd]]];
    apply keeps_write; intros d1 [H1 Hm1]; (split; [|done]).
  - apply set_members; [done| |by intros k; apply union_old]. intros m dev [E|([x p] & Hx & [= -> ->])]%union_is_Some; [by apply (ok_member _ (inv_store _ _ _ H1))|].
    apply elem_of_map_to_list in Hx. eauto.
  - apply set_map_links; [done| |set_solver]. intros m l [E|(x & [= -> ->] & Hx%elem_of_dom)%elem_of_map]%elem_of_union; [by apply (ok_map_link _ (inv_store _ _ _ H1))|done].
  - apply set_map_areas; [done| |by intros k; apply union_old].
    intros m a' [E|([x p] & Hx & [= -> ->])]%union_is_Some; [by apply (ok_map_area _ (inv_store _ _ _ H1) _ _ E)|done].
Qed.
Lemma migrateDefaultCanvasMap_ok new now d : inv false None d → wp (migrateDefaultCanvasMap new now) (λ _, consistent) d.
Proof.
  intros Hd. unfold migrateDefaultCanvasMap. wp_step. wp_step. unfold find_default. destruct (head _) as [[id r]|] eqn:Ef.
  - apply head_Some_elem_of, list_elem_of_filter in Ef as [Hr E%elem_of_map_to_list]. cbn in Hr.
    assert (Hm : with_map id d). { destruct Hd as [Hs _ Hrt]. split; [|eauto]. split; [done| |done]. intros _. by exists id, r. }
    wp_keep Hm; [apply migrate_positions_ok|]. destruct (mr_Materialized r); [apply Hm|by apply migrate_default_members_ok].
  - wp_step. eapply wp_insert_map; [exact Hd|]. intros d' _ -> [Hs _ Hrt].
    set (d1 := d <| t_maps := _ |>) in *. assert (Hm : with_map new d1).
    { split; [|cbn; rewrite lookup_insert_eq; eauto]. split; [done| |done]. intros _. eexists new, _. cbn. by rewrite lookup_insert_eq. }
    clearbody d1. wp_keep Hm; [apply migrate_positions_ok|by apply migrate_default_members_ok].
Qed.
Lemma migrateCanvasMapMemberships_ok now : keeps consistent (migrateCanvasMapMemberships now).
Proof. unfold migrateCanvasMapMemberships. keeps_steps. apply write_membership_ok. Qed.
Lemma migrateCanvasMapDeviceAreaMemberships_ok : keeps consistent migrateCanvasMapDeviceAreaMemberships.
Proof.
  apply keeps_write. intros d Hd. apply set_device_areas; [done|]. intros m dev a [E|E]%elem_of_union; [by apply (ok_device_area _ (inv_store _ _ _ Hd))|].
  apply elem_of_list_to_set, list_elem_of_bind in E as ([[m' x] r] & E & Hr%elem_of_map_to_list). case_bool_decide; [|by apply elem_of_nil in E].
  apply list_elem_of_fmap in E as (a' & [= -> -> ->] & [Ha _]%list_elem_of_filter). cbn in *. split; [by rewrite Hr|done].
Qed.
End others.

(** ** Requests *)

Definition op_keeps {A} (P : MapDB → Prop) (p : Op A) : Prop := ∀ d, P d → P (p d).1.
Definition h_keeps {A} (P : MapDB → Prop) (p : Handler A) : Prop := ∀ d, P d → P (p d).1.

Lemma op_keeps_run {A} P (t : Tx A) : keeps P t → op_keeps P (run t).
Proof. intros Ht d Hd. specialize (Ht d Hd). unfold run, wp in *. by destruct (t d) as [[a d']|]. Qed.
Lemma op_keeps_bind {A B} P (p : Op A) (q : A → Op B) : op_keeps P p → (∀ a, op_keeps P (q a)) → op_keeps P (op_bind p q).
Proof. intros Hp Hq d Hd. specialize (Hp d Hd). unfold op_bind. destruct (p d) as [d' [a|]]; [by apply Hq|done]. Qed.
Lemma op_keeps_read {A} P (f : MapDB → result A) : op_keeps P (read_op f).
Proof. by intros d. Qed.
Lemma op_keeps_ret {A} P (r : result A) : op_keeps P (op_ret r).
Proof. by intros d. Qed.
Lemma op_keeps_look {A} P (f : MapDB → A) : op_keeps P (look f).
Proof. by intros d. Qed.
Lemma op_keeps_staged {A} P stage (p : Op A) : op_keeps P p → op_keeps P (staged stage p).
Proof. intros Hp d Hd. specialize (Hp d Hd). unfold staged. by destruct (p d) as [d' [a|]]. Qed.
Lemma h_keeps_bind {A B} P (p : Handler A) (q : A → Handler B) : h_keeps P p → (∀ a, h_keeps P (q a)) → h_keeps P (h_bind p q).
Proof. intros Hp Hq d Hd. specialize (Hp d Hd). unfold h_bind. destruct (p d) as [d' [a|]]; [by apply Hq|done]. Qed.
Lemma h_keeps_try {A} P (p : Op A) e : op_keeps P p → h_keeps P (h_try p e).
Proof. intros Hp d Hd. specialize (Hp d Hd). unfold h_try. by destruct (p d) as [d' [a|]]. Qed.
Lemma h_keeps_ret {A} P (a : A) : h_keeps P (h_ret a).
Proof. by intros d. Qed.
Lemma h_keeps_error {A} P s m : h_keeps P (h_error s m : Handler A).
Proof. by intros d. Qed.
#[export] Hint Resolve op_keeps_read op_keeps_ret op_keeps_look h_keeps_ret h_keeps_error : theia.

(** Everything asked of the saved maps and of the tables they refer to; ids and instants drawn on the way are part of the request. *)
Inductive Request :=
| RStart (new : UUID) (now : Time)
| RCreate (legacy : bool) (ids : CloneIDs) (new : UUID) (now : Time) (req : CreateRequest)
| RPatch (ids : CloneIDs) (now : Time) (map : UUID) (req : PatchRequest)
| RDelete (map : UUID)
| RDuplicate (ids : CloneIDs) (new : UUID) (now : Time) (map : UUID) (name : string)
| RSetPrimary (now : Time) (map : UUID)
| RAddDevice (ids : CloneIDs) (now : Time) (map device : UUID) (links : option bool)
| RRemoveDevice (now : Time) (map device : UUID)
| RPatchDevice (now : Time) (map device : UUID) (color : option (option string))
| RCreateArea (new : UUID) (now : Time) (map : UUID) (name description color : string)
| RUpdateArea (now : Time) (map area : UUID) (name description color : string)
| RDeleteArea (now : Time) (map area : UUID)
| RUpdateDeviceAreas (now : Time) (map : UUID) (devices areas : list UUID)
| RSavePositions (now : Time) (map : UUID) (positions : list DevicePosition)
| RSaveLinkRoute (now : Time) (map link : UUID) (version : Z) (waypoints : list CanvasPoint)
| RDeleteLinkRoute (map link : UUID)
| RRemoveLink (now : Time) (map link : UUID)
| RManualLink (new : UUID) (now : Time) (row : LinkRow) (migration : bool)
| RDiscoveredLink (new : UUID) (now : Time) (row : LinkRow)
| RCreateLink (new : UUID) (now : Time) (row : LinkRow)
| RUpdateLink (now : Time) (link : Link)
| RDeleteLink (link : UUID)
| RPutDevice (device : MapDevice) (areas : gset UUID)
| RDeleteDevice (device : UUID)
| RForgetPositions (device : UUID)
| RSaveLegacyPositions (now : Time) (positions : list DevicePosition)
| RForgetLegacyPosition (device : UUID)
| RNewArea (new : UUID) (area : Area)
| REditArea (area : Area)
| RDropArea (area : UUID).

Section requests.
Context `{Database} `{FilterJSON} (unicode_lower : string → string).

Definition serve (r : Request) (d : MapDB) : MapDB :=
  match r with
  | RStart new now => (migrate_maps new now d).1
  | RCreate legacy ids new now req => (HandleCreate unicode_lower legacy ids new now req d).1
  | RPatch ids now m req => (HandlePatch unicode_lower ids now m req d).1
  | RDelete m => (HandleDelete unicode_lower m d).1
  | RDuplicate ids new now m name => (HandleDuplicate unicode_lower ids new now m name d).1
  | RSetPrimary now m => (HandleSetPrimary unicode_lower now m d).1
  | RAddDevice ids now m dev links => (HandleAddDevice unicode_lower ids now m dev links d).1
  | RRemoveDevice now m dev => (HandleRemoveDevice unicode_lower now m dev d).1
  | RPatchDevice now m dev color => (HandlePatchDevice unicode_lower now m dev color d).1
  | RCreateArea new now m name description color => (HandleCreateArea unicode_lower new now m name description color d).1
  | RUpdateArea now m a name description color => (HandleUpdateArea unicode_lower now m a name description color d).1
  | RDeleteArea now m a => (HandleDeleteArea unicode_lower now m a d).1
  | RUpdateDeviceAreas now m devs areas => (HandleUpdateDeviceAreas unicode_lower now m devs areas d).1
  | RSavePositions now m ps => (HandleSavePositions unicode_lower now m ps d).1
  | RSaveLinkRoute now m l v ps => (HandleSaveLinkRoute unicode_lower now m l v ps d).1
  | RDeleteLinkRoute m l => (HandleDeleteLinkRoute unicode_lower m l d).1
  | RRemoveLink now m l => (run (RemoveLink now m l) d).1
  | RManualLink new now row mig => (run (CreateManualIdempotent new now row mig) d).1
  | RDiscoveredLink new now row => (run (UpsertDetailed unicode_lower new now row) d).1
  | RCreateLink new now row => (run (LinkRepo_Create new now row) d).1
  | RUpdateLink now l => (run (LinkRepo_Update now l) d).1
  | RDeleteLink l => (run (LinkRepo_Delete l) d).1
  | RPutDevice m areas => (run (put_device m areas) d).1
  | RDeleteDevice dev => (run (DeviceRepo_Delete dev) d).1
  | RForgetPositions dev => (run (DeleteByDeviceID dev) d).1
  | RSaveLegacyPositions now ps => (run (PositionRepo_SaveAll now ps) d).1
  | RForgetLegacyPosition dev => (run (PositionRepo_DeleteByDeviceID dev) d).1
  | RNewArea new a => (run (AreaRepo_Create new a) d).1
  | REditArea a => (run (AreaRepo_Update a) d).1
  | RDropArea a => (run (AreaRepo_Delete a) d).1
  end.

(** A drawn id is never the nil one, and a device is stored under an id. *)
Definition clones_drawn (ids : CloneIDs) : Prop := (∀ x, new_device ids x ≠ uuid_Nil) ∧ ∀ x, new_link ids x ≠ uuid_Nil.
Definition drawn (r : Request) : Prop :=
  match r with
  | RManualLink new _ _ _ | RDiscoveredLink new _ _ | RCreateLink new _ _ | RNewArea new _ => new ≠ uuid_Nil
  | RCreate _ ids _ _ _ | RPatch ids _ _ _ | RDuplicate ids _ _ _ _ | RAddDevice ids _ _ _ _ => clones_drawn ids
  | RPutDevice m _ => md_ID m ≠ uuid_Nil
  | _ => True
  end.

Ltac h_steps := repeat match goal with
  | |- ∀ _, _ => intros ?
  | |- h_keeps _ _ => solve [eauto 2 with theia]
  | |- op_keeps _ _ => solve [eauto 2 with theia]
  | |- h_keeps _ (h_bind _ _) => apply h_keeps_bind
  | |- h_keeps _ (h_try _ _) => apply h_keeps_try
  | |- h_keeps _ (match ?x with _ => _ end) => destruct x
  | |- op_keeps _ (op_bind _ _) => apply op_keeps_bind
  | |- op_keeps _ (staged _ _) => apply op_keeps_staged
  | |- op_keeps _ (run _) => apply op_keeps_run
  | |- op_keeps _ (match ?x with _ => _ end) => destruct x
  end.
Ltac h_start := unfold loadMapFromRequest, check, validateSourceMapID, validateCreateSourceAreaID, validateSourceAreaID, loadLinkForRoute, isolateCanvasMapVirtualDevices.

Lemma ReplaceMaterializedMembership_ok now m mf : op_keeps consistent (ReplaceMaterializedMembership now m mf).
Proof. unfold ReplaceMaterializedMembership. h_steps. apply ReplaceMembership_ok. Qed.
Lemma ReplaceFromSourceMap_ok now m s mf : op_keeps consistent (ReplaceMaterializedMembershipFromSourceMap now m s mf).
Proof. unfold ReplaceMaterializedMembershipFromSourceMap. cbv zeta. h_steps; [apply ReplaceMembership_ok|apply SaveAllForMap_ok]. Qed.
Lemma CopyDefaultPositions_ok legacy now m : op_keeps consistent (CopyDefaultPositionsForMaterializedMembership legacy now m).
Proof. unfold CopyDefaultPositionsForMaterializedMembership. cbv zeta. h_steps. apply SaveAllForMap_ok. Qed.
Lemma AddDeviceWorkflow_ok now m dev links : op_keeps consistent (AddDeviceToMaterializedMembership unicode_lower now m dev links).
Proof. unfold AddDeviceToMaterializedMembership. cbv zeta. h_steps. apply AddDeviceMembership_ok. Qed.
Hint Resolve ReplaceMaterializedMembership_ok ReplaceFromSourceMap_ok CopyDefaultPositions_ok AddDeviceWorkflow_ok ReplaceMembership_ok insert_map_ok
  Update_tx_ok SetPrimary_tx_ok Delete_tx_ok Duplicate_tx_ok RemoveDevice_ok RemoveLink_ok UpdateDeviceVisualColor_ok UpdateDeviceAreaMemberships_ok
  CreateArea_ok UpdateArea_ok DeleteArea_ok SaveAllForMap_ok UpsertForMap_ok DeleteForMap_ok DeleteByDeviceID_ok PositionRepo_SaveAll_ok
  PositionRepo_DeleteByDeviceID_ok : theia.

Lemma isolate_keeps ids now m : clones_drawn ids → op_keeps consistent (run (IsolateVirtualDevices ids now m)).
Proof. intros [Hd Hl]. apply op_keeps_run. by apply IsolateVirtualDevices_ok. Qed.

Lemma migrate_rest_ok now : op_keeps consistent (op_bind (run (migrateCanvasMapMemberships now)) (λ _, run migrateCanvasMapDeviceAreaMemberships)).
Proof. h_steps; [apply migrateCanvasMapMemberships_ok|apply migrateCanvasMapDeviceAreaMemberships_ok]. Qed.
(** A start on tables that may lack a default map, when its first migration commits. *)
Lemma migrate_maps_first new now d d' : inv false None d → run (migrateDefaultCanvasMap new now) d = (d', Ok tt) → consistent (migrate_maps new now d).1.
Proof.
  intros Hd E. unfold migrate_maps, op_bind at 1. rewrite E. apply (migrate_rest_ok now).
  pose proof (migrateDefaultCanvasMap_ok new now d Hd) as H1. unfold wp, run in *. destruct (migrateDefaultCanvasMap new now d) as [[a d1]|]; naive_solver.
Qed.
Lemma migrate_maps_ok new now d : consistent d → consistent (migrate_maps new now d).1.
Proof.
  apply (op_keeps_bind consistent (run (migrateDefaultCanvasMap new now))); [|intros []; apply migrate_rest_ok].
  apply op_keeps_run. intros d' Hd'. by apply migrateDefaultCanvasMap_ok, inv_weaken.
Qed.

Lemma serve_ok r d : drawn r → consistent d → consistent (serve r d).
Proof.
  intros Hr Hd. destruct r; cbn [serve]; cbn in Hr; revert d Hd;
    try match goal with
    | |- ∀ d, _ → consistent (migrate_maps _ _ _).1 => apply migrate_maps_ok
    | |- ∀ d, _ → consistent (run ?t _).1 => apply (op_keeps_run consistent t)
    | |- ∀ d, _ → consistent (?p _).1 => change (h_keeps consistent p); unfold HandleCreate, HandlePatch, HandleDelete, HandleDuplicate, HandleSetPrimary,
      HandleAddDevice, HandleRemoveDevice, HandlePatchDevice, HandleCreateArea, HandleUpdateArea, HandleDeleteArea, HandleUpdateDeviceAreas, HandleSavePositions, HandleSaveLinkRoute, HandleDeleteLinkRoute, Create, Update_map, Delete, Duplicate, SetPrimary; h_start; cbv zeta; h_steps end;
    try solve [eauto 2 with theia]; try by apply isolate_keeps.
  1-4: by destruct Hr; apply IsolateVirtualDevices_ok.
  - by apply CreateManualIdempotent_ok.
  - by apply UpsertDetailed_ok.
  - by apply LinkRepo_Create_ok.
  - apply LinkRepo_Update_ok.
  - apply LinkRepo_Delete_ok.
  - by apply put_device_ok.
  - apply DeviceRepo_Delete_ok.
  - by apply AreaRepo_Create_ok.
  - apply AreaRepo_Update_ok.
  - apply AreaRepo_Delete_ok.
Qed.

(** The tables of a database nothing was stored in. *)
Definition no_rows : MapDB := mkMapDB ∅ ∅ ∅ ∅ ∅ ∅ ∅ ∅ ∅ ∅ ∅ ∅.
Definition requests (d : MapDB) (rs : list Request) : MapDB := foldl (λ d r, serve r d) d rs.
Lemma requests_ok rs d : Forall drawn rs → consistent d → consistent (requests d rs).
Proof. revert d. induction rs as [|r rs IH]; intros d Hr Hd; [done|]. inversion Hr; subst. apply IH; [done|]. by apply serve_ok. Qed.
Lemma no_rows_ok : inv false None no_rows.
Proof. split; [split|done|]; cbn; unfold routes_ok; cbn; intros *; rewrite ?lookup_empty, ?is_Some_alt, ?elem_of_empty; try done; set_solver. Qed.

Lemma started_ok new now : consistent (serve (RStart new now) no_rows).
Proof. cbn [serve]. eapply migrate_maps_first; [apply no_rows_ok|reflexivity]. Qed.

(** C7: after a first start on an empty database, whatever is asked of the saved maps, the links, the devices and the areas, in
    any order, failures included, the tables are consistent: every reference leads to a row, links and default maps are unique, exactly
    one map is the default, and every drawn route is valid and for a link of its map. *)
Theorem maps_consistent new now rs : Forall drawn rs → consistent (requests no_rows (RStart new now :: rs)).
Proof.
  intros Hr. apply (requests_ok rs); [done|]. apply started_ok.
Qed.
End requests.
