(* ===== verification/LinkTheorems.v ===== *)
(** * Rediscovering a link changes nothing

    [UpsertDetailed] of [internal/repository/postgres/link_repo.go] picks the row of an observed cable
    by scores.  Here: what it picks, and that an observation seen again finds the row it was stored in
    and leaves every table as it is. *)

From S2P Require Import Prelude GoLib GoText Domain Addresses Runtime CanvasMap MapStore CanvasRepo LinkStore CanvasService CanvasInv CanvasSafe.
Open Scope store_scope.

(** ** The row of the best score *)

#[export] Instance Link_eq_dec : EqDecision Link.
Proof. solve_decision. Defined.
#[export] Instance LinkRow_eq_dec : EqDecision LinkRow.
Proof. solve_decision. Defined.

(** A candidate with a score no other candidate reaches. *)
Definition strictly_best (score : LinkRow → option Z) (rows : list LinkRow) (r : LinkRow) : Prop :=
  r ∈ rows ∧ ∃ n, score r = Some n ∧ ∀ c k, c ∈ rows → c ≠ r → score c = Some k → k < n.

(** What the scan knows of the candidates it has seen. *)
Definition scanned (score : LinkRow → option Z) (l : list LinkRow) (acc : option (LinkRow * Z) * bool) : Prop :=
  match acc.1 with
  | None => acc.2 = false ∧ ∀ x, x ∈ l → score x = None
  | Some (c, n) => c ∈ l ∧ score c = Some n ∧ (∀ x k, x ∈ l → score x = Some k → k <= n) ∧
                   if acc.2 then ∃ x, x ∈ l ∧ x ≠ c ∧ score x = Some n else ∀ x k, x ∈ l → x ≠ c → score x = Some k → k < n
  end.
Lemma scan score l : NoDup l → scanned score l (foldl (see_candidate score) (None, false) l).
Proof.
  induction l as [|x l IH] using rev_ind; intros Hn; [by split; [|intros ? ?%elem_of_nil]|].
  apply NoDup_app in Hn as (Hl & Hx & _). specialize (IH Hl). assert (Hxl : x ∉ l) by (intros E; apply (Hx _ E); by left). clear Hx.
  rewrite foldl_snoc. destruct (foldl _ _ l) as [best amb]. unfold scanned, see_candidate in *. cbn [fst snd] in *.
  assert (Hin : ∀ y, y ∈ l ++ [x] ↔ y ∈ l ∨ y = x) by (intros y; rewrite elem_of_app, list_elem_of_singleton; done).
  destruct (score x) as [k|] eqn:Ek; destruct best as [[c n]|]; cbn [fst snd].
  - destruct IH as (Hc & Es & Hle & Ha). assert (Hxc : x ≠ c) by (by intros ->). destruct (n <? k) eqn:E1; to_prop; cbn [fst snd].
    { split; [apply Hin; by right|]. split; [done|]. split.
      - intros y j [Hy| ->]%Hin E; [specialize (Hle y j Hy E)|simplify_eq]; lia.
      - intros y j [Hy| ->]%Hin ? E; [specialize (Hle y j Hy E); lia|done]. }
    destruct (k =? n) eqn:E2; to_prop; cbn [fst snd]; (split; [apply Hin; by left|]); (split; [done|]); split.
    + intros y j [Hy| ->]%Hin E; [eauto|]. simplify_eq. lia.
    + exists x. split; [apply Hin; by right|]. split; [done|congruence].
    + intros y j [Hy| ->]%Hin E; [eauto|]. simplify_eq. lia.
    + destruct amb; [destruct Ha as (y & ? & ? & ?); exists y; split; [apply Hin; by left|done]|]. intros y j [Hy| ->]%Hin ? E; [eauto|]. simplify_eq. lia.
  - destruct IH as [-> Hno]. split; [apply Hin; by right|]. split; [done|]. split.
    + intros y j [Hy| ->]%Hin E; [by rewrite (Hno y Hy) in E|]. simplify_eq. lia.
    + intros y j [Hy| ->]%Hin ? E; [by rewrite (Hno y Hy) in E|done].
  - destruct IH as (Hc & Es & Hle & Ha). split; [apply Hin; by left|]. split; [done|]. split; [intros y j [Hy| ->]%Hin E; [eauto|congruence]|].
    destruct amb; [destruct Ha as (y & ? & ? & ?); exists y; split; [apply Hin; by left|done]|]. intros y j [Hy| ->]%Hin ? E; [eauto|congruence].
  - destruct IH as [-> Hno]. split; [done|]. intros y [Hy| ->]%Hin; auto.
Qed.
Lemma best_match_iff score rows r : NoDup rows → best_match score rows = Some r ↔ strictly_best score rows r.
Proof.
  intros Hn. pose proof (scan score rows Hn) as Hs. unfold best_match, strictly_best. destruct (foldl _ _ rows) as [[[c n]|] amb]; unfold scanned in Hs; cbn in *.
  - destruct Hs as (Hc & Es & Hle & Ha). split.
    + destruct amb; [done|]. intros [= <-]. split; [done|]. exists n. eauto.
    + intros (Hr & k & Ek & Hb). destruct (decide (c = r)) as [->|Hne].
      * destruct amb; [|done]. destruct Ha as (x & Hx & Hne & E). specialize (Hb x n Hx Hne E). simplify_eq. lia.
      * specialize (Hb c n Hc Hne Es). specialize (Hle r k Hr Ek). lia.
  - destruct Hs as [-> Hno]. split; [done|]. intros (Hr & k & Ek & _). by rewrite (Hno r Hr) in Ek.
Qed.
Lemma best_match_ext score rows rows' : NoDup rows → NoDup rows' → (∀ x, x ∈ rows ↔ x ∈ rows') → best_match score rows = best_match score rows'.
Proof.
  intros H1 H2 E. apply option_eq. intros r. rewrite !best_match_iff by done. unfold strictly_best. by setoid_rewrite E.
Qed.

(** ** Links on maps *)

Definition settled (l : Link) (d : MapDB) : Prop := ∀ m, shows_both_ends l d m = true → (m, lk_ID l) ∈ t_map_links d.

Lemma add_settled now l d : settled l d → addLinkToMaterializedBaseEndpointMaps now l d = Ok (false, d).
Proof.
  intros Hs. unfold addLinkToMaterializedBaseEndpointMaps, tx_bind, tx_read. set (maps := filter _ _). assert (maps = []) as ->; [|done].
  apply elem_of_nil_inv. intros m [[Hm Hn] _]%list_elem_of_filter. by apply Hn, Hs.
Qed.
Lemma add_settles now l d : wp (addLinkToMaterializedBaseEndpointMaps now l) (λ _ d', t_links d' = t_links d ∧ settled l d') d.
Proof.
  unfold addLinkToMaterializedBaseEndpointMaps. wp_step. wp_step. set (maps := filter _ _).
  assert (Hm : ∀ m, shows_both_ends l d m = true → m ∈ maps ∨ (m, lk_ID l) ∈ t_map_links d).
  { intros m Hs. destruct (decide ((m, lk_ID l) ∈ t_map_links d)); [by right|left]. apply list_elem_of_filter. split; [done|].
    destruct (shows_both_ends_map _ _ _ Hs) as [r E]. apply list_elem_of_fmap. exists (m, r). split; [done|]. by apply elem_of_map_to_list. }
  clearbody maps. destruct maps as [|m0 maps']; [wp_step; split; [done|]; intros m Hs; by destruct (Hm m Hs) as [E%elem_of_nil|]|].
  set (maps := m0 :: maps') in *. clearbody maps. wp_steps. split; [done|]. intros m Hs. cbn.
  apply elem_of_union. destruct (Hm m) as [E|E]; [|left; apply elem_of_list_to_set, list_elem_of_fmap; by exists m|by right].
  revert Hs. unfold shows_both_ends. cbn. rewrite map_lookup_imap. destruct (t_maps d !! m) as [r|]; [|done]. cbn. by destruct (bool_decide _).
Qed.
Lemma settled_with l l' d : lk_ID l = lk_ID l' → lk_SourceDeviceID l = lk_SourceDeviceID l' → lk_TargetDeviceID l = lk_TargetDeviceID l' → settled l d → settled l' d.
Proof. unfold settled, shows_both_ends. by intros -> -> ->. Qed.

(** ** Scores *)

Section scores.
Context (unicode_lower : string → string).

(** A name filled in from the observation fits it at least as well as before, and filling again changes nothing. *)
Lemma filled_filled a b : filled (filled a b) b = filled a b.
Proof. unfold filled. destruct (String.eqb a "" && negb (String.eqb b "")) eqn:E; [by destruct (String.eqb b "")|by rewrite E]. Qed.
Lemma filled_same a b n : sameDirectionInterfaceScore a b = Some n → ∃ k, sameDirectionInterfaceScore (filled a b) b = Some k ∧ n <= k.
Proof.
  intros E. unfold filled. destruct (String.eqb a "" && negb (String.eqb b "")) eqn:Ef; [|eauto with lia].
  apply andb_true_iff in Ef as [Ea Eb]. apply negb_true_iff in Eb. unfold sameDirectionInterfaceScore in *. rewrite String.eqb_refl, Eb.
  exists 3. split; [done|]. repeat case_match; simplify_eq; lia.
Qed.
Lemma filled_compatible a b n : compatibleInterfaceScore unicode_lower a b = Some n → ∃ k, compatibleInterfaceScore unicode_lower (filled a b) b = Some k ∧ n <= k.
Proof.
  intros E. unfold filled. destruct (String.eqb a "" && negb (String.eqb b "")) eqn:Ef; [|eauto with lia].
  apply andb_true_iff in Ef as [Ea Eb]. apply negb_true_iff in Eb. unfold compatibleInterfaceScore in *. rewrite Ea in E. cbn in E. injection E as <-.
  rewrite Eb, String.eqb_refl. cbn. eauto with lia.
Qed.
(** Only the observed name itself reaches the best score. *)
Lemma same_exact a : ∃ n, sameDirectionInterfaceScore a a = Some n ∧ ∀ b k, sameDirectionInterfaceScore b a = Some k → k <= n ∧ (k = n → b = a).
Proof.
  unfold sameDirectionInterfaceScore. rewrite String.eqb_refl. eexists. split; [done|]. intros b k.
  destruct (String.eqb_spec b a) as [->|Hne]; [intros [= <-]; split; [lia|done]|]. destruct (_ || _); [|done]. intros [= <-]. destruct (String.eqb a ""); split; lia.
Qed.
End scores.

(** ** The second time *)

Section again.
Context `{Database} (unicode_lower : string → string).

Lemma elem_of_rows_between s t d r : store_ok d →
  r ∈ rows_between s t d ↔ t_links d !! lk_ID (ln_Link r) = Some r ∧ lk_SourceDeviceID (ln_Link r) = s ∧ lk_TargetDeviceID (ln_Link r) = t.
Proof. intros Hd. unfold rows_between. rewrite list_elem_of_filter, elem_of_link_rows by done. naive_solver. Qed.
Lemma NoDup_rows_between s t d : store_ok d → NoDup (rows_between s t d).
Proof. intros Hd. by apply NoDup_filter, NoDup_link_rows. Qed.

(** A row with the observed names is the best match, whatever else there is. *)
Lemma exact_best d link r : store_ok d → t_links d !! lk_ID (ln_Link r) = Some r → same_ends (ln_Link r) link = true →
  strictly_best (same_score link) (rows_between (lk_SourceDeviceID link) (lk_TargetDeviceID link) d) r.
Proof.
  intros Hd E (Hs & Hsi & Ht & Hti)%same_ends_spec. split; [by apply elem_of_rows_between|].
  destruct (same_exact (lk_SourceIfName link)) as (n1 & E1 & M1), (same_exact (lk_TargetIfName link)) as (n2 & E2 & M2).
  exists (n1 + n2). unfold same_score. split; [by rewrite Hsi, Hti, E1, E2|].
  intros c k (Ec & Es & Et)%elem_of_rows_between Hne Hk; [|done].
  destruct (sameDirectionInterfaceScore (lk_SourceIfName (ln_Link c)) _) as [k1|] eqn:K1; [|done].
  destruct (sameDirectionInterfaceScore (lk_TargetIfName (ln_Link c)) _) as [k2|] eqn:K2; [|done]. injection Hk as <-.
  destruct (M1 _ _ K1) as [L1 X1], (M2 _ _ K2) as [L2 X2]. destruct (decide (k1 = n1 ∧ k2 = n2)) as [[? ?]|]; [exfalso|lia].
  assert (Hid : lk_ID (ln_Link c) ≠ lk_ID (ln_Link r)) by (intros Hid; rewrite Hid, E in Ec; congruence).
  pose proof (ok_link_unique d Hd _ _ _ _ Ec E Hid) as Hu. apply not_true_iff_false in Hu. apply Hu, same_ends_spec. rewrite X1, X2 by done. by rewrite Hsi, Hti, Hs, Ht.
Qed.
(** A best match that only fits better stays the best. *)
Lemma better_best score s t d d' r r' n : store_ok d → store_ok d' → strictly_best score (rows_between s t d) r →
  t_links d' = <[lk_ID (ln_Link r) := r']> (t_links d) → lk_ID (ln_Link r') = lk_ID (ln_Link r) →
  lk_SourceDeviceID (ln_Link r') = s → lk_TargetDeviceID (ln_Link r') = t → score r = Some n → (∃ k, score r' = Some k ∧ n <= k) →
  strictly_best score (rows_between s t d') r'.
Proof.
  intros Hd Hd' (Hr & n' & En & Hb) E Hid Hs Ht Es (k & Ek & Hle). simplify_eq. split.
  { apply elem_of_rows_between; [done|]. by rewrite E, Hid, lookup_insert_eq. }
  exists k. split; [done|]. intros c j (Ec & Hcs & Hct)%elem_of_rows_between Hne Hj; [|done]. rewrite E in Ec.
  destruct (decide (lk_ID (ln_Link c) = lk_ID (ln_Link r))) as [Hc|Hc]; [rewrite Hc, lookup_insert_eq in Ec; congruence|].
  rewrite lookup_insert_ne in Ec by done. assert (c ∈ rows_between (lk_SourceDeviceID (ln_Link r')) (lk_TargetDeviceID (ln_Link r')) d) as Hin by by apply elem_of_rows_between.
  assert (j < n') by (apply (Hb c); [done|congruence|done]). lia.
Qed.

Lemma merge_nothing now link p r d : ln_Protocol r = p → settled (with_id (lk_ID (ln_Link r)) link) d →
  merge_link now link p r (lk_SourceIfName (ln_Link r)) (lk_TargetIfName (ln_Link r)) d = Ok (mkUpsert false false LinkUpsertKindNoop, d).
Proof. intros <- Hs. unfold merge_link. rewrite !String.eqb_refl. cbn. unfold tx_bind. by rewrite add_settled. Qed.

Lemma again_same new now row d r : store_ok d → strictly_best (same_score (ln_Link row)) (rows_between (lk_SourceDeviceID (ln_Link row)) (lk_TargetDeviceID (ln_Link row)) d) r →
  filled (lk_SourceIfName (ln_Link r)) (lk_SourceIfName (ln_Link row)) = lk_SourceIfName (ln_Link r) →
  filled (lk_TargetIfName (ln_Link r)) (lk_TargetIfName (ln_Link row)) = lk_TargetIfName (ln_Link r) →
  ln_Protocol r = ln_Protocol row → settled (with_id (lk_ID (ln_Link r)) (ln_Link row)) d →
  UpsertDetailed unicode_lower new now row d = Ok (mkUpsert false false LinkUpsertKindNoop, d).
Proof.
  intros Hd Hb Hs Ht Hp Hm. apply best_match_iff in Hb; [|by apply NoDup_rows_between]. unfold UpsertDetailed, tx_bind at 1, tx_read at 1.
  unfold findBestSameDirectionLinkMatch. rewrite Hb, Hs, Ht. by apply merge_nothing.
Qed.
Lemma again_reverse new now row d r : store_ok d → findBestSameDirectionLinkMatch (ln_Link row) d = None →
  strictly_best (reverse_score unicode_lower (ln_Link row)) (rows_between (lk_TargetDeviceID (ln_Link row)) (lk_SourceDeviceID (ln_Link row)) d) r →
  shouldReorientReverseLink (ln_Link r) (ln_Link row) = false →
  filled (lk_SourceIfName (ln_Link r)) (lk_TargetIfName (ln_Link row)) = lk_SourceIfName (ln_Link r) →
  filled (lk_TargetIfName (ln_Link r)) (lk_SourceIfName (ln_Link row)) = lk_TargetIfName (ln_Link r) →
  ln_Protocol r = ln_Protocol row → settled (with_id (lk_ID (ln_Link r)) (ln_Link row)) d →
  UpsertDetailed unicode_lower new now row d = Ok (mkUpsert false false LinkUpsertKindNoop, d).
Proof.
  intros Hd Hn Hb Ho Hs Ht Hp Hm. apply best_match_iff in Hb; [|by apply NoDup_rows_between]. unfold UpsertDetailed, tx_bind at 1, tx_read at 1.
  rewrite Hn. unfold tx_bind at 1, tx_read at 1, findBestReverseLinkMatch. rewrite Hb, Ho, Hs, Ht. by apply merge_nothing.
Qed.

(** What a merged row is afterwards, and that the link is then on every map it belongs to. *)
Lemma merge_links now link p r s t d : t_links d !! lk_ID (ln_Link r) = Some r → wp (merge_link now link p r s t) (λ _ d', ∃ r',
  t_links d' = <[lk_ID (ln_Link r) := r']> (t_links d) ∧ ln_Link r' = with_interfaces s t (ln_Link r) ∧ ln_Protocol r' = p ∧
  settled (with_id (lk_ID (ln_Link r)) link) d') d.
Proof.
  intros E. unfold merge_link. destruct (negb _ && negb _) eqn:Ec.
  - apply andb_true_iff in Ec as [Ep Epr]. apply negb_true_iff, orb_false_iff in Ep as [Es Et]. rewrite negb_false_iff, String.eqb_eq in Es, Et.
    rewrite negb_involutive, String.eqb_eq in Epr. wp_step. eapply wp_mono; [apply add_settles|]. intros b d' [El Hs]. wp_step. exists r.
    rewrite El, insert_id by done. split; [done|]. split; [|done]. rewrite Es, Et. by destruct (ln_Link r).
  - wp_step. unfold update_link. wp_steps. eapply wp_mono; [apply add_settles|]. intros b d' [El Hs]. wp_step. eexists. rewrite El. done.
Qed.

Lemma wp_keeping {A} (t : Tx A) P (Q : A → MapDB → Prop) d : keeps P t → P d → wp t (λ a d', P d' → Q a d') d → wp t Q d.
Proof. intros Hk Hd. specialize (Hk d Hd). unfold wp in *. destruct (t d) as [[a d']|]; auto. Qed.

(** After a row was written with the observed names. *)
Lemma again_written new' now' row d r : store_ok d → t_links d !! lk_ID (ln_Link r) = Some r → same_ends (ln_Link r) (ln_Link row) = true → ln_Protocol r = ln_Protocol row →
  settled (with_id (lk_ID (ln_Link r)) (ln_Link row)) d → UpsertDetailed unicode_lower new' now' row d = Ok (mkUpsert false false LinkUpsertKindNoop, d).
Proof.
  intros Hd E Hs Hp Hm. eapply again_same; [done|by apply exact_best|..]; [| |done..]; apply same_ends_spec in Hs as (_ & Hsi & _ & Hti); rewrite ?Hsi, ?Hti;
    unfold filled; by destruct (String.eqb _ "").
Qed.

Lemma filled_score f a b c e n : (∀ x y n, f x y = Some n → ∃ k, f (filled x y) y = Some k ∧ n <= k) →
  add_scores (f a b) (f c e) = Some n → ∃ k, add_scores (f (filled a b) b) (f (filled c e) e) = Some k ∧ n <= k.
Proof.
  intros Hf Hn. destruct (f a b) as [k1|] eqn:E1, (f c e) as [k2|] eqn:E2; try done. injection Hn as <-.
  destruct (Hf _ _ _ E1) as (j1 & -> & ?), (Hf _ _ _ E2) as (j2 & -> & ?). exists (j1 + j2). split; [done|lia].
Qed.

Lemma upsert_again new new' now now' row d : new ≠ uuid_Nil → consistent d → lk_SourceDeviceID (ln_Link row) ≠ lk_TargetDeviceID (ln_Link row) →
  wp (UpsertDetailed unicode_lower new now row) (λ _ d', UpsertDetailed unicode_lower new' now' row d' = Ok (mkUpsert false false LinkUpsertKindNoop, d')) d.
Proof.
  intros Hnew Hc Hne. eapply wp_keeping; [by apply (UpsertDetailed_ok unicode_lower new now row)|done|]. pose proof (inv_store _ _ _ Hc) as Hd. clear Hc.
  unfold UpsertDetailed at 1. set (link := ln_Link row) in *. wp_step. wp_step. destruct (findBestSameDirectionLinkMatch link d) as [r|] eqn:Es.
  { apply best_match_iff in Es; [|by apply NoDup_rows_between]. pose proof Es as ((E & Hs & Ht)%elem_of_rows_between & n & En & _); [|done].
    eapply wp_mono; [by apply merge_links|]. intros a d' (r' & El & Er & Hp & Hm) [Hd' _ _].
    eapply again_same; [done| | | |done|by rewrite Er]; [|rewrite Er; apply filled_filled..].
    eapply better_best; [exact Hd|done|exact Es|done|by rewrite Er..|exact En|]. unfold same_score in *. rewrite Er. cbn.
    eapply filled_score; [|exact En]. apply filled_same. }
  wp_step. wp_step. destruct (findBestReverseLinkMatch _ link d) as [r|] eqn:Er0.
  - apply best_match_iff in Er0; [|by apply NoDup_rows_between]. pose proof Er0 as ((E & Hs & Ht)%elem_of_rows_between & n & En & _); [|done].
    destruct (shouldReorientReverseLink _ _) eqn:Eo.
    + unfold reorient_link, update_link. wp_steps. eapply wp_mono; [apply add_settles|]. intros b d' [El Hm]. wp_step. intros [Hd' _ _]. cbn in El.
      match type of El with _ = <[_ := ?r']> _ => apply (again_written _ _ _ _ r' Hd') end; [by rewrite El, lookup_insert_eq|by apply same_ends_spec|done|done].
    + eapply wp_mono; [by apply merge_links|]. intros a d' (r' & El & Er & Hp & Hm) [Hd' _ _].
      eapply again_reverse; [done| | | | | |done|by rewrite Er]; [..|rewrite Er; apply filled_filled|rewrite Er; apply filled_filled].
      * rewrite <- Es. apply best_match_ext; [by apply NoDup_rows_between..|]. intros x. rewrite !elem_of_rows_between, El by done.
        destruct (decide (lk_ID (ln_Link x) = lk_ID (ln_Link r))) as [Ex|Ex]; [|by rewrite lookup_insert_ne]. rewrite Ex, lookup_insert_eq, E.
        split; intros ([= <-] & X & _); destruct Hne; [rewrite Er in X; cbn in X|]; change (ln_Link row) with link in X; congruence.
      * eapply better_best; [exact Hd|done|exact Er0|done|by rewrite Er..|exact En|]. unfold reverse_score in *. rewrite Er. cbn.
        eapply filled_score; [|exact En]. apply filled_compatible.
      * rewrite Er. change (ln_Link row) with link. clear -Eo. clearbody link. revert Eo. unfold shouldReorientReverseLink, filled. cbn.
        destruct (String.eqb (lk_SourceIfName (ln_Link r)) "") eqn:Er, (String.eqb (lk_TargetIfName link) "") eqn:Et; cbn; rewrite ?Er, ?Et, ?andb_false_r; auto.
  - unfold insert_link, insert_row. wp_steps. eapply wp_mono; [apply add_settles|]. intros b d' [El Hm]. wp_step. intros [Hd' _ _]. cbn in El.
    match type of El with _ = <[_ := ?r']> _ => apply (again_written _ _ _ _ r' Hd') end; [by rewrite El, lookup_insert_eq|by apply same_ends_spec|done|].
    eapply settled_with, Hm; done.
Qed.

(** C23: a link observation between two devices that was stored, as a new row, in the row of the same cable, in either direction, or
    by turning that row around, is found again when it is reported again: nothing is created or changed, in the links or on any map. *)
Theorem rediscovery_idempotent new new' now now' row d d' res : new ≠ uuid_Nil → consistent d →
  lk_SourceDeviceID (ln_Link row) ≠ lk_TargetDeviceID (ln_Link row) → UpsertDetailed unicode_lower new now row d = Ok (res, d') →
  UpsertDetailed unicode_lower new' now' row d' = Ok (mkUpsert false false LinkUpsertKindNoop, d').
Proof. intros Hn Hd Hne E. pose proof (upsert_again new new' now now' row d Hn Hd Hne) as Hw. unfold wp in Hw. by rewrite E in Hw. Qed.
End again.
