(* ===== verification/CanvasTheorems.v ===== *)
(** * What saved maps show

    A membership that is stored is the one read back, and a map that is materialized from a filter
    shows what the filter selects of the topology ([internal/service/canvasmap] over
    [internal/repository/postgres]).  Isolating a map gives it virtual devices of its own, and the
    migration at start materializes as the service does. *)

From S2P Require Import Prelude GoLib GoText Domain Addresses Runtime CanvasMap MapStore CanvasRepo LinkStore CanvasService CanvasInv CanvasSafe.
Open Scope store_scope.

(** ** What the validation of a membership means *)

Lemma check_sorted_ok label prev l : StronglySorted Z.le l →
  check_sorted label prev l = Ok tt ↔ NoDup l ∧ uuid_Nil ∉ l ∧ ∀ p, prev = Some p → head l ≠ Some p.
Proof.
  intros Hs. revert prev. induction Hs as [|x l Hs IH Hx]; intros prev; cbn.
  { split; [intros _; repeat split; [apply NoDup_nil_2|apply not_elem_of_nil|done]|done]. }
  rewrite NoDup_cons, not_elem_of_cons. rewrite Forall_forall in Hx. destruct (x =? uuid_Nil) eqn:En; to_prop.
  { split; [done|]. intros (_ & [? _] & _). congruence. }
  destruct (bool_decide (prev = Some x)) eqn:Ep; to_prop; [split; [done|]; intros (_ & _ & Hp); by destruct (Hp x)|].
  rewrite IH. split.
  - intros (Hn & Hnil & Hh). repeat split; [|done|congruence|done|intros p -> [= ->]; done].
    intros Hin. destruct l as [|y l]; [by apply elem_of_nil in Hin|]. assert (y ≠ x) by (intros ->; by apply (Hh x)).
    apply elem_of_cons in Hin as [->|Hin]; [done|]. inversion Hs as [|? ? _ Hy]; subst. rewrite Forall_forall in Hy.
    specialize (Hy _ Hin). specialize (Hx y ltac:(left)). lia.
  - intros ([Hxl Hn] & [_ Hnil] & Hp). repeat split; [done..|]. intros p [= <-] Hh. apply Hxl. by apply head_Some_elem_of.
Qed.
Lemma sorted_ids l : StronglySorted Z.le (merge_sort Z.le l).
Proof. apply StronglySorted_merge_sort; apply _. Qed.
Lemma validateCanvasMapUUIDList_ok l label : (∃ s, validateCanvasMapUUIDList l label = Ok s) ↔ NoDup l ∧ uuid_Nil ∉ l.
Proof.
  unfold validateCanvasMapUUIDList. destruct l as [|x l]; [split; [intros _; split; [apply NoDup_nil_2|apply not_elem_of_nil]|eauto]|].
  pose proof (check_sorted_ok label None (merge_sort Z.le (x :: l)) (sorted_ids _)) as Hc.
  rewrite (merge_sort_Permutation Z.le (x :: l)) in Hc at 2 3. destruct (check_sorted _ _ _) as [[]|]; cbn; split; try naive_solver.
Qed.
Lemma validateCanvasMapUUIDList_val l label s : validateCanvasMapUUIDList l label = Ok s → s = merge_sort Z.le l.
Proof. unfold validateCanvasMapUUIDList. destruct l; [by intros [= <-]|]. by destruct (check_sorted _ _ _); intros [= <-]. Qed.

Lemma validate_ids_ok what seen l : validate_ids what seen l = Ok tt ↔ NoDup l ∧ uuid_Nil ∉ l ∧ ∀ x, x ∈ l → x ∉ seen.
Proof.
  revert seen. induction l as [|x l IH]; intros seen; cbn.
  { split; [intros _; repeat split; [apply NoDup_nil_2|apply not_elem_of_nil|by intros ? ?%elem_of_nil]|done]. }
  rewrite NoDup_cons, not_elem_of_cons. destruct (x =? uuid_Nil) eqn:En; to_prop; [split; [done|]; intros (_ & [? _] & _); congruence|].
  destruct (bool_decide (x ∈ seen)) eqn:Es; to_prop; [split; [done|]; intros (_ & _ & Hs); by destruct (Hs x); [left|]|]. rewrite IH.
  split; intros Hl; repeat split; set_solver.
Qed.
Lemma validate_members_ok seen l : validate_members seen l = Ok tt ↔
  NoDup (mm_DeviceID <$> l) ∧ (∀ m, m ∈ l → mm_DeviceID m ≠ uuid_Nil ∧ mm_DeviceID m ∉ seen ∧ NoDup (mm_AreaIDs m) ∧ uuid_Nil ∉ mm_AreaIDs m).
Proof.
  revert seen. induction l as [|x l IH]; intros seen; cbn.
  { split; [intros _; split; [apply NoDup_nil_2|by intros ? ?%elem_of_nil]|done]. }
  rewrite NoDup_cons. destruct (mm_DeviceID x =? uuid_Nil) eqn:En; to_prop; [split; [done|]; intros (_ & Hm); by destruct (Hm x ltac:(left))|].
  destruct (bool_decide (_ ∈ seen)) eqn:Es; to_prop; [split; [done|]; intros (_ & Hm); by destruct (Hm x ltac:(left)) as (_ & ? & _)|].
  pose proof (validateCanvasMapUUIDList_ok (mm_AreaIDs x) "device area_id") as Hv. destruct (validateCanvasMapUUIDList _ _) as [s|e]; cbn.
  - destruct Hv as [Hv _]. specialize (Hv ltac:(eauto)). rewrite IH. split.
    + intros (Hn & Hm). split; [split; [|done]|].
      * intros (y & Ey & Hy)%list_elem_of_fmap. destruct (Hm y Hy) as (_ & Hs & _). set_solver.
      * intros m [->|Hin]%elem_of_cons; [naive_solver|]. destruct (Hm m Hin) as (? & ? & ?). set_solver.
    + intros ([Hx Hn] & Hm). split; [done|]. intros m Hin. destruct (Hm m) as (? & ? & ? & ?); [by right|]. repeat split; try done.
      intros [E%elem_of_singleton|?]%elem_of_union; [|done]. apply Hx. rewrite <- E. apply list_elem_of_fmap. eauto.
  - split; [done|]. intros (_ & Hm). destruct (Hm x ltac:(left)) as (_ & _ & ? & ?). destruct Hv as [_ Hv]. by destruct Hv as [? [=]].
Qed.
Lemma stray_area_ok ms : stray_area ms = None ↔ ∀ m a, m ∈ ms_Devices ms → a ∈ mm_AreaIDs m → a ∈ (ma_AreaID <$> ms_Areas ms).
Proof.
  unfold stray_area. rewrite head_None. split.
  - intros E m a Hm Ha. destruct (decide (a ∈ (ma_AreaID <$> ms_Areas ms))) as [|Hn]; [done|].
    assert (Hin : a ∈ filter (λ a, a ∉ (list_to_set (ma_AreaID <$> ms_Areas ms) : gset UUID)) (ms_Devices ms ≫= mm_AreaIDs)).
    { apply list_elem_of_filter. split; [by rewrite elem_of_list_to_set|]. apply list_elem_of_bind. eauto. }
    rewrite E in Hin. by apply elem_of_nil in Hin.
  - intros Ha. apply elem_of_nil_inv. intros a [Hn (m & Hin & Hm)%list_elem_of_bind]%list_elem_of_filter. rewrite elem_of_list_to_set in Hn. naive_solver.
Qed.

(** The fields of a valid membership. *)
Record valid_membership (ms : CanvasMapMembership) : Prop := {
  vm_devices : NoDup (mm_DeviceID <$> ms_Devices ms);
  vm_device : ∀ m, m ∈ ms_Devices ms → mm_DeviceID m ≠ uuid_Nil ∧ NoDup (mm_AreaIDs m) ∧ uuid_Nil ∉ mm_AreaIDs m;
  vm_links : NoDup (ms_LinkIDs ms);
  vm_link : uuid_Nil ∉ ms_LinkIDs ms;
  vm_areas : NoDup (ma_AreaID <$> ms_Areas ms);
  vm_area : uuid_Nil ∉ ma_AreaID <$> ms_Areas ms;
  vm_stray : ∀ m a, m ∈ ms_Devices ms → a ∈ mm_AreaIDs m → a ∈ (ma_AreaID <$> ms_Areas ms) }.
Lemma validate_ok ms : validateCanvasMapMembership ms = Ok tt ↔ valid_membership ms.
Proof.
  unfold validateCanvasMapMembership. pose proof (validate_members_ok ∅ (ms_Devices ms)) as H1. pose proof (validate_ids_ok "link" ∅ (ms_LinkIDs ms)) as H2.
  pose proof (validate_ids_ok "area" ∅ (ma_AreaID <$> ms_Areas ms)) as H3. pose proof (stray_area_ok ms) as H4.
  split.
  - destruct (validate_members _ _) as [[]|]; [|done]. destruct (validate_ids "link" _ _) as [[]|]; [|done]. cbn. destruct (validate_ids "area" _ _) as [[]|]; [|done]. cbn.
    destruct (stray_area ms); [done|]. intros _. destruct H1 as [H1 _], H2 as [H2 _], H3 as [H3 _], H4 as [H4 _].
    destruct H1 as [? Hm], H2 as (? & ? & _), H3 as (? & ? & _); try done. split; try done; [|by apply H4]. intros m Hin. destruct (Hm m Hin) as (? & _ & ? & ?). done.
  - intros []. destruct H1 as [_ ->]; [|split; [done|]; intros m Hin; destruct (vm_device0 m Hin) as (? & ? & ?); repeat split; try done; apply not_elem_of_empty].
    destruct H2 as [_ ->]; [|repeat split; try done; intros; apply not_elem_of_empty]. destruct H3 as [_ ->]; [|repeat split; try done; intros; apply not_elem_of_empty].
    destruct H4 as [_ ->]; [done|]. done.
Qed.

(** ** Storing a membership *)

Definition member_row (m : CanvasMapDeviceMembership) : MemberRow := mkMemberRow (mm_Role m) (mm_VisualColor m).
Definition member_rows (id : UUID) (l : list CanvasMapDeviceMembership) : gmap (UUID * UUID) MemberRow :=
  list_to_map ((λ m, ((id, mm_DeviceID m), member_row m)) <$> l).
Definition area_rows (now : Time) (id : UUID) (l : list CanvasMapAreaMembership) : gmap (UUID * UUID) MapAreaRow :=
  list_to_map ((λ a, ((id, ma_AreaID a), area_row now a)) <$> l).
Definition device_area_rows (id : UUID) (l : list CanvasMapDeviceMembership) : gset (UUID * UUID * UUID) :=
  list_to_set (l ≫= λ m, (λ a, (id, mm_DeviceID m, a)) <$> mm_AreaIDs m).

Lemma MapDB_eta (d : MapDB) : mkMapDB (t_devices d) (t_device_areas d) (t_areas d) (t_links d) (t_device_positions d) (t_maps d) (t_map_devices d)
  (t_map_device_areas d) (t_map_links d) (t_map_areas d) (t_map_positions d) (t_map_link_routes d) = d.
Proof. by destruct d. Qed.

Lemma MapDB_ext (d e : MapDB) : t_devices d = t_devices e → t_device_areas d = t_device_areas e → t_areas d = t_areas e → t_links d = t_links e →
  t_device_positions d = t_device_positions e → t_maps d = t_maps e → t_map_devices d = t_map_devices e → t_map_device_areas d = t_map_device_areas e →
  t_map_links d = t_map_links e → t_map_areas d = t_map_areas e → t_map_positions d = t_map_positions e → t_map_link_routes d = t_map_link_routes e → d = e.
Proof. destruct d, e. cbn. by intros -> -> -> -> -> -> -> -> -> -> -> ->. Qed.

Lemma references_there {K A} `{Countable K} (t : MapDB → gmap K A) k d : is_Some (t d !! k) → references t k d = Ok (tt, d).
Proof. intros Hk. unfold references, tx_reject. by rewrite bool_decide_true. Qed.

(** A table with one more row and then those of a list. *)
Lemma rows_cons {A B} (key : A → UUID * UUID) (row : A → B) (x : A) (l : list A) (t : gmap (UUID * UUID) B) : (∀ y, y ∈ l → key y ≠ key x) →
  list_to_map ((λ y, (key y, row y)) <$> x :: l) ∪ t = list_to_map ((λ y, (key y, row y)) <$> l) ∪ <[key x := row x]> t.
Proof.
  intros Hx. cbn. rewrite <- insert_union_l, insert_union_r; [done|]. apply not_elem_of_list_to_map_1.
  intros (? & E & (y & -> & Hin)%list_elem_of_fmap)%list_elem_of_fmap. by apply (Hx y Hin).
Qed.
Lemma NoDup_head {A B} (f : A → B) x l : NoDup (f <$> x :: l) → (∀ y, y ∈ l → f y ≠ f x) ∧ NoDup (f <$> l).
Proof. cbn. intros [Hx Hn]%NoDup_cons. split; [|done]. intros y Hy E. apply Hx. rewrite <- E. apply list_elem_of_fmap. eauto. Qed.

Lemma insert_row_runs {K A} `{Countable K} (t : MapDB → gmap K A) `{!Update t} k a d : t d !! k = None → insert_row t k a d = Ok (tt, d <| t := <[k := a]> (t d) |>).
Proof. intros E. unfold insert_row, tx_bind, tx_reject, tx_write. rewrite bool_decide_false; [done|]. rewrite E. by intros [? ?]. Qed.
Lemma insert_members_runs id l d : is_Some (t_maps d !! id) → (∀ m, m ∈ l → is_Some (t_devices d !! mm_DeviceID m)) → NoDup (mm_DeviceID <$> l) →
  (∀ m, m ∈ l → t_map_devices d !! (id, mm_DeviceID m) = None) →
  tx_each (insert_member id) l d = Ok (tt, d <| t_map_devices := member_rows id l ∪ t_map_devices d |>).
Proof.
  revert d. induction l as [|m l IH]; intros d Hid Hdev Hn Hnew.
  { cbn. unfold tx_ret, member_rows. cbn. rewrite (left_id_L ∅ (∪)). unfold upd, upd_t_map_devices. by rewrite MapDB_eta. }
  apply NoDup_head in Hn as [Hm Hn]. unfold member_rows. rewrite rows_cons by (intros y Hy [= E]; by apply (Hm y)).
  cbn [tx_each]. unfold insert_member at 1, insert_row, tx_bind at 1. unfold tx_bind at 1. rewrite references_there by done.
  unfold tx_bind at 1. rewrite references_there by (apply Hdev; left). unfold tx_bind at 1, tx_reject, tx_write.
  rewrite bool_decide_false by (rewrite Hnew by left; by intros [? ?]). rewrite IH; [done|done|..]; cbn.
  - intros m' Hin. apply Hdev. by right.
  - done.
  - intros m' Hin. rewrite lookup_insert_ne; [apply Hnew; by right|]. intros [= E]. by apply (Hm m' Hin).
Qed.
Lemma insert_map_areas_runs now id l d : is_Some (t_maps d !! id) → NoDup (ma_AreaID <$> l) → (∀ a, a ∈ l → t_map_areas d !! (id, ma_AreaID a) = None) →
  tx_each (insert_map_area now id) l d = Ok (tt, d <| t_map_areas := area_rows now id l ∪ t_map_areas d |>).
Proof.
  revert d. induction l as [|a l IH]; intros d Hid Hn Hnew.
  { cbn. unfold tx_ret, area_rows. cbn. rewrite (left_id_L ∅ (∪)). unfold upd, upd_t_map_areas. by rewrite MapDB_eta. }
  apply NoDup_head in Hn as [Hm Hn]. unfold area_rows. rewrite rows_cons by (intros y Hy [= E]; by apply (Hm y)).
  cbn [tx_each]. unfold insert_map_area at 1, insert_row, tx_bind at 1. unfold tx_bind at 1. rewrite references_there by done.
  unfold tx_bind at 1, tx_reject, tx_write. rewrite bool_decide_false by (rewrite Hnew by left; by intros [? ?]). rewrite IH; [done|done|done|]; cbn.
  intros m' Hin. rewrite lookup_insert_ne; [apply Hnew; by right|]. intros [= E]. by apply (Hm m' Hin).
Qed.
Lemma insert_map_links_runs id l d : is_Some (t_maps d !! id) → (∀ x, x ∈ l → is_Some (t_links d !! x)) → NoDup l → (∀ x, x ∈ l → (id, x) ∉ t_map_links d) →
  tx_each (insert_map_link true id) l d = Ok (tt, d <| t_map_links := list_to_set (pair id <$> l) ∪ t_map_links d |>).
Proof.
  revert d. induction l as [|x l IH]; intros d Hid Hl Hn Hnew.
  { cbn. unfold tx_ret. rewrite (left_id_L ∅ (∪)). unfold upd, upd_t_map_links. by rewrite MapDB_eta. }
  apply NoDup_cons in Hn as [Hx Hn]. cbn [tx_each]. unfold insert_map_link at 1, tx_bind at 1. unfold tx_bind at 1. rewrite references_there by done.
  unfold tx_bind at 1. rewrite references_there by (apply Hl; left). unfold tx_bind at 1, tx_reject, tx_write. rewrite bool_decide_false by (apply Hnew; left).
  cbn [andb]. rewrite IH; [|done|..]; cbn.
  - replace ({[(id, x)]} ∪ list_to_set (pair id <$> l) ∪ t_map_links d) with (list_to_set (pair id <$> l) ∪ ({[(id, x)]} ∪ t_map_links d)); [done|]. set_solver.
  - intros y Hy. apply Hl. by right.
  - done.
  - intros y Hy [[= E]%elem_of_singleton|Hin]%elem_of_union; [by subst|]. eapply Hnew; [by right|done].
Qed.
Lemma insert_areas_of_runs id dev l d : is_Some (t_map_devices d !! (id, dev)) → (∀ a, a ∈ l → is_Some (t_map_areas d !! (id, a))) →
  tx_each (insert_device_area id dev) l d = Ok (tt, d <| t_map_device_areas := list_to_set ((λ a, (id, dev, a)) <$> l) ∪ t_map_device_areas d |>).
Proof.
  revert d. induction l as [|a l IH]; intros d Hid Ha.
  { cbn. unfold tx_ret. rewrite (left_id_L ∅ (∪)). unfold upd, upd_t_map_device_areas. by rewrite MapDB_eta. }
  cbn [tx_each]. unfold insert_device_area at 1, tx_bind at 1. unfold tx_bind at 1. rewrite references_there by done.
  unfold tx_bind at 1. rewrite references_there by (apply Ha; left). unfold tx_write. rewrite IH; [|done|]; cbn.
  - replace ({[(id, dev, a)]} ∪ list_to_set ((λ a, (id, dev, a)) <$> l) ∪ t_map_device_areas d) with (list_to_set ((λ a, (id, dev, a)) <$> l) ∪ ({[(id, dev, a)]} ∪ t_map_device_areas d)); [done|]. set_solver.
  - intros y Hy. apply Ha. by right.
Qed.
Lemma insert_device_areas_runs id l d : (∀ m, m ∈ l → is_Some (t_map_devices d !! (id, mm_DeviceID m)) ∧ NoDup (mm_AreaIDs m) ∧ uuid_Nil ∉ mm_AreaIDs m) →
  (∀ m a, m ∈ l → a ∈ mm_AreaIDs m → is_Some (t_map_areas d !! (id, a))) →
  insertCanvasMapDeviceAreas id l d = Ok (tt, d <| t_map_device_areas := device_area_rows id l ∪ t_map_device_areas d |>).
Proof.
  unfold insertCanvasMapDeviceAreas. revert d. induction l as [|m l IH]; intros d Hm Ha.
  { cbn. unfold tx_ret, device_area_rows. cbn. rewrite (left_id_L ∅ (∪)). unfold upd, upd_t_map_device_areas. by rewrite MapDB_eta. }
  destruct (Hm m ltac:(left)) as (Hdev & Hn & Hnil). cbn [tx_each]. destruct (validateCanvasMapUUIDList_ok (mm_AreaIDs m) "device area_id") as [_ [s Es]]; [done|].
  unfold tx_bind at 1. unfold tx_bind at 1. rewrite Es. cbn [tx_lift]. apply validateCanvasMapUUIDList_val in Es as ->.
  rewrite insert_areas_of_runs; [|done|]; cbn.
  - rewrite IH; cbn; [|intros m' Hin; apply Hm; by right|intros m' a Hin; apply Ha; by right].
    match goal with |- Ok (tt, ?x) = Ok (tt, ?y) => assert (t_map_device_areas x = t_map_device_areas y) as E end; [cbn|unfold upd, upd_t_map_device_areas in *; cbn in *; by rewrite E].
    unfold device_area_rows. cbn. rewrite list_to_set_app_L. rewrite (list_to_set_perm_L _ _ (fmap_Permutation (λ a, (id, mm_DeviceID m, a)) _ _ (merge_sort_Permutation Z.le (mm_AreaIDs m)))). set_solver.
  - intros a. rewrite (merge_sort_Permutation Z.le). intros Hin. apply (Ha m); [left|done].
Qed.

(** The tables with the rows of one map replaced. *)
Definition elsewhere {A} (id : UUID) (t : gmap (UUID * UUID) A) : gmap (UUID * UUID) A := filter (λ e : UUID * UUID * A, (e.1.1 =? id) = false) t.
Definition replaced (now : Time) (id : UUID) (ms : CanvasMapMembership) (d : MapDB) : MapDB :=
  let links := list_to_set (pair id <$> ms_LinkIDs ms) ∪ filter (λ e : UUID * UUID, e.1 ≠ id) (t_map_links d) in
  mkMapDB (t_devices d) (t_device_areas d) (t_areas d) (t_links d) (t_device_positions d)
    (alter (λ r, r <| mr_Materialized := true |> <| mr_UpdatedAt := now |>) id (t_maps d))
    (member_rows id (ms_Devices ms) ∪ elsewhere id (t_map_devices d))
    (device_area_rows id (ms_Devices ms) ∪ filter (λ e : UUID * UUID * UUID, e.1.1 ≠ id) (t_map_device_areas d))
    links
    (area_rows now id (ms_Areas ms) ∪ elsewhere id (t_map_areas d))
    (filter (λ e : UUID * UUID * PositionRow, e.1.1 ≠ id ∨ e.1.2 ∈ (mm_DeviceID <$> ms_Devices ms)) (t_map_positions d))
    (filter (λ e : UUID * UUID * RouteRow, e.1.1 ≠ id ∨ e.1 ∈ links) (t_map_link_routes d)).

Lemma elsewhere_here {A} (id x : UUID) (t : gmap (UUID * UUID) A) : elsewhere id t !! (id, x) = None.
Proof. apply map_lookup_filter_None. right. intros a _. cbn. by rewrite Z.eqb_refl. Qed.
Lemma elsewhere_other {A} (id m x : UUID) (t : gmap (UUID * UUID) A) : m ≠ id → elsewhere id t !! (m, x) = t !! (m, x).
Proof. intros Hm. apply option_eq. intros a. unfold elsewhere. rewrite map_lookup_filter_Some. cbn. rewrite Z.eqb_neq. tauto. Qed.
Lemma lookup_rows_here {A B} (f : A → UUID) (row : A → B) (id x : UUID) (l : list A) b : NoDup (f <$> l) →
  (list_to_map ((λ y, ((id, f y), row y)) <$> l) : gmap (UUID * UUID) B) !! (id, x) = Some b ↔ ∃ y, y ∈ l ∧ f y = x ∧ row y = b.
Proof.
  intros Hn. rewrite <- elem_of_list_to_map.
  - rewrite list_elem_of_fmap. split; [intros (y & [= -> ->] & Hy); eauto|intros (y & Hy & <- & <-); eauto].
  - rewrite <- list_fmap_compose. change (NoDup (pair id ∘ f <$> l)). rewrite (list_fmap_compose f (pair id) l). by apply (NoDup_fmap_2 (pair id)).
Qed.
Lemma lookup_rows_other {A B} (f : A → UUID) (row : A → B) (id m x : UUID) (l : list A) : m ≠ id →
  (list_to_map ((λ y, ((id, f y), row y)) <$> l) : gmap (UUID * UUID) B) !! (m, x) = None.
Proof. intros Hm. apply not_elem_of_list_to_map_1. intros (? & E & (y & -> & _)%list_elem_of_fmap)%list_elem_of_fmap. cbn in E. congruence. Qed.

Lemma write_membership_runs now id ms d : is_Some (t_maps d !! id) → valid_membership ms → (∀ m, m ∈ ms_Devices ms → is_Some (t_devices d !! mm_DeviceID m)) →
  (∀ l, l ∈ ms_LinkIDs ms → is_Some (t_links d !! l)) → write_membership now id ms d = Ok (tt, replaced now id ms d).
Proof.
  intros Hid [] Hdev Hlink. unfold write_membership, clear_membership. unfold tx_bind at 1. unfold tx_bind at 1, tx_write at 1. unfold tx_bind at 1, tx_write at 1.
  unfold tx_bind at 1, tx_write at 1. unfold tx_write at 1. set (d0 := delete_map_areas _ _).
  assert (E0 : d0 = mkMapDB (t_devices d) (t_device_areas d) (t_areas d) (t_links d) (t_device_positions d) (t_maps d) (elsewhere id (t_map_devices d))
    (filter (λ e : UUID * UUID * UUID, e.1.1 ≠ id) (t_map_device_areas d)) (filter (λ e : UUID * UUID, e.1 ≠ id) (t_map_links d)) (elsewhere id (t_map_areas d))
    (t_map_positions d) (t_map_link_routes d)).
  { apply MapDB_ext; try reflexivity. apply set_eq. intros [[m x] a]. cbn. rewrite !elem_of_filter. cbn. rewrite Z.eqb_neq. tauto. }
  clearbody d0. subst d0. unfold tx_bind at 1. rewrite insert_members_runs; [|done..|intros; apply elsewhere_here].
  unfold tx_bind at 1. rewrite insert_map_links_runs; [|done..|intros x _ [? _]%elem_of_filter; done].
  unfold tx_bind at 1. rewrite insert_map_areas_runs; [|done..|intros; apply elsewhere_here].
  unfold tx_bind at 1. rewrite insert_device_areas_runs; cbn.
  - unfold pruneCanvasMapPositionsForMembership, pruneCanvasMapLinkRoutesForMembership, materialized, alter_map, tx_bind, tx_write. cbn. done.
  - intros m Hm. destruct (vm_device0 m Hm) as (_ & Hn & Hnil). split; [|done]. rewrite lookup_union_is_Some. left. exists (member_row m).
    unfold member_rows. apply lookup_rows_here; eauto.
  - intros m a Hm Ha. rewrite lookup_union_is_Some. left. specialize (vm_stray0 m a Hm Ha) as (x & -> & Hx)%list_elem_of_fmap. exists (area_row now x).
    unfold area_rows. apply lookup_rows_here; eauto.
Qed.
Lemma ReplaceMembership_runs now id ms d : is_Some (t_maps d !! id) → id ≠ uuid_Nil → valid_membership ms →
  (∀ m, m ∈ ms_Devices ms → is_Some (t_devices d !! mm_DeviceID m)) → (∀ l, l ∈ ms_LinkIDs ms → is_Some (t_links d !! l)) →
  run (ReplaceMembership now id ms) d = (replaced now id ms d, Ok tt).
Proof.
  intros Hid Hnil Hv Hdev Hlink. unfold run, ReplaceMembership, required. rewrite (proj2 (Z.eqb_neq _ _) Hnil). rewrite (proj2 (validate_ok ms) Hv).
  unfold tx_lift, lockCanvasMap, tx_reject. unfold tx_bind at 1. unfold tx_bind at 1. unfold tx_bind at 1. rewrite bool_decide_true by done. cbn [negb]. by rewrite write_membership_runs.
Qed.

(** ** Reading it back *)

(** The rows of a map are the same in both. *)
Record same_map (m : UUID) (d d' : MapDB) : Prop := {
  sm_map : t_maps d' !! m = t_maps d !! m;
  sm_members : ∀ x, t_map_devices d' !! (m, x) = t_map_devices d !! (m, x);
  sm_links : ∀ x, (m, x) ∈ t_map_links d' ↔ (m, x) ∈ t_map_links d;
  sm_areas : ∀ x, t_map_areas d' !! (m, x) = t_map_areas d !! (m, x);
  sm_device_areas : ∀ x a, (m, x, a) ∈ t_map_device_areas d' ↔ (m, x, a) ∈ t_map_device_areas d;
  sm_positions : ∀ x, t_map_positions d' !! (m, x) = t_map_positions d !! (m, x);
  sm_routes : ∀ x, t_map_link_routes d' !! (m, x) = t_map_link_routes d !! (m, x) }.

Lemma filter_kept {A} (P : UUID * UUID * A → Prop) `{!∀ x, Decision (P x)} (t : gmap (UUID * UUID) A) k : (∀ a, P (k, a)) → filter P t !! k = t !! k.
Proof. intros HP. apply option_eq. intros a. rewrite map_lookup_filter_Some. naive_solver. Qed.

Lemma elem_of_device_area_rows id l m x a : (m, x, a) ∈ device_area_rows id l ↔ m = id ∧ ∃ y, y ∈ l ∧ mm_DeviceID y = x ∧ a ∈ mm_AreaIDs y.
Proof.
  unfold device_area_rows. rewrite elem_of_list_to_set, list_elem_of_bind. setoid_rewrite list_elem_of_fmap. naive_solver.
Qed.

Lemma replaced_others now id ms d m : m ≠ id → same_map m d (replaced now id ms d).
Proof.
  intros Hm. split; cbn; intros *.
  - by apply lookup_alter_ne.
  - unfold member_rows. rewrite lookup_union, lookup_rows_other, (left_id_L None _) by done. by apply elsewhere_other.
  - rewrite elem_of_union, elem_of_list_to_set, list_elem_of_fmap, elem_of_filter. cbn. naive_solver.
  - unfold area_rows. rewrite lookup_union, lookup_rows_other, (left_id_L None _) by done. by apply elsewhere_other.
  - rewrite elem_of_union, elem_of_device_area_rows, elem_of_filter. cbn. naive_solver.
  - apply filter_kept. cbn. auto.
  - apply filter_kept. cbn. auto.
Qed.

Section replaced.
Context (now : Time) (id : UUID) (ms : CanvasMapMembership) (d : MapDB) (Hv : valid_membership ms).

Lemma replaced_member x r : t_map_devices (replaced now id ms d) !! (id, x) = Some r ↔ ∃ m, m ∈ ms_Devices ms ∧ mm_DeviceID m = x ∧ member_row m = r.
Proof.
  cbn. rewrite lookup_union, elsewhere_here, (right_id_L None _). unfold member_rows. apply lookup_rows_here, Hv.
Qed.
Lemma replaced_link x : (id, x) ∈ t_map_links (replaced now id ms d) ↔ x ∈ ms_LinkIDs ms.
Proof. cbn. rewrite elem_of_union, elem_of_list_to_set, list_elem_of_fmap, elem_of_filter. cbn. naive_solver. Qed.
Lemma replaced_area x r : t_map_areas (replaced now id ms d) !! (id, x) = Some r ↔ ∃ a, a ∈ ms_Areas ms ∧ ma_AreaID a = x ∧ area_row now a = r.
Proof. cbn. rewrite lookup_union, elsewhere_here, (right_id_L None _). unfold area_rows. apply lookup_rows_here, Hv. Qed.
Lemma replaced_device_area x a : (id, x, a) ∈ t_map_device_areas (replaced now id ms d) ↔ ∃ m, m ∈ ms_Devices ms ∧ mm_DeviceID m = x ∧ a ∈ mm_AreaIDs m.
Proof. cbn. rewrite elem_of_union, elem_of_device_area_rows, elem_of_filter. cbn. naive_solver. Qed.

(** A member as it is stored: the areas in the order of their ids. *)
Definition stored (m : CanvasMapDeviceMembership) : CanvasMapDeviceMembership := mkMember (mm_DeviceID m) (mm_Role m) (merge_sort Z.le (mm_AreaIDs m)) (mm_VisualColor m).

Lemma same_id (m m' : CanvasMapDeviceMembership) : m ∈ ms_Devices ms → m' ∈ ms_Devices ms → mm_DeviceID m = mm_DeviceID m' → m = m'.
Proof.
  intros [i Hi]%list_elem_of_lookup_1 [j Hj]%list_elem_of_lookup_1 E. assert (i = j) as <-; [|congruence].
  apply (NoDup_lookup (mm_DeviceID <$> ms_Devices ms) i j (mm_DeviceID m) (vm_devices _ Hv)); rewrite list_lookup_fmap; [by rewrite Hi|by rewrite Hj, E].
Qed.
Lemma areas_read_back m : m ∈ ms_Devices ms →
  merge_sort Z.le (snd <$> filter (λ e : UUID * UUID * UUID, e.1 = (id, mm_DeviceID m)) (elements (t_map_device_areas (replaced now id ms d)))) = merge_sort Z.le (mm_AreaIDs m).
Proof.
  intros Hm. apply (StronglySorted_unique Z.le); [apply sorted_ids..|]. rewrite !(merge_sort_Permutation Z.le). apply NoDup_Permutation.
  - apply NoDup_fmap_2_strong; [|apply NoDup_filter, NoDup_elements]. intros [k1 a1] [k2 a2] [E1 _]%list_elem_of_filter [E2 _]%list_elem_of_filter. cbn in *. congruence.
  - apply (vm_device _ Hv m Hm).
  - intros a. rewrite list_elem_of_fmap. split.
    + intros ([k a'] & -> & [E Ha]%list_elem_of_filter). cbn in E. subst k. apply elem_of_elements, replaced_device_area in Ha as (m' & Hm' & E & Ha).
      by rewrite <- (same_id m' m).
    + intros Ha. exists (id, mm_DeviceID m, a). split; [done|]. apply list_elem_of_filter. split; [done|]. apply elem_of_elements, replaced_device_area. eauto.
Qed.

Lemma members_read_back : ms_Devices (GetMembershipForExistingMap id (replaced now id ms d)) ≡ₚ stored <$> ms_Devices ms.
Proof.
  cbn [GetMembershipForExistingMap ms_Devices]. apply NoDup_Permutation.
  - apply (NoDup_fmap_1 mm_DeviceID). rewrite <- list_fmap_compose. apply (NoDup_rows_of id (t_map_devices (replaced now id ms d))).
  - apply (NoDup_fmap_1 mm_DeviceID). rewrite <- list_fmap_compose. apply Hv.
  - intros m. rewrite !list_elem_of_fmap. split.
    + intros ([x r] & -> & (m' & Hm & <- & <-)%elem_of_rows_of%replaced_member). exists m'. split; [|done]. cbn [fst snd]. by rewrite areas_read_back.
    + intros (m' & -> & Hm). exists (mm_DeviceID m', member_row m'). split; [cbn [fst snd]; by rewrite areas_read_back|]. apply elem_of_rows_of, replaced_member. eauto.
Qed.
Lemma links_read_back : ms_LinkIDs (GetMembershipForExistingMap id (replaced now id ms d)) ≡ₚ ms_LinkIDs ms.
Proof. apply NoDup_Permutation; [apply NoDup_ids_of|apply Hv|]. intros x. by rewrite <- replaced_link, <- elem_of_ids_of. Qed.
Lemma areas_of_map_read_back : ms_Areas (GetMembershipForExistingMap id (replaced now id ms d)) ≡ₚ ms_Areas ms.
Proof.
  cbn [GetMembershipForExistingMap ms_Areas]. apply NoDup_Permutation.
  - apply (NoDup_fmap_1 ma_AreaID). rewrite <- list_fmap_compose. apply (NoDup_rows_of id (t_map_areas (replaced now id ms d))).
  - apply (NoDup_fmap_1 ma_AreaID), Hv.
  - intros a. rewrite list_elem_of_fmap. split.
    + intros ([x r] & -> & (a' & Ha & <- & <-)%elem_of_rows_of%replaced_area). by destruct a'.
    + intros Ha. exists (ma_AreaID a, area_row now a). split; [by destruct a|]. apply elem_of_rows_of, replaced_area. eauto.
Qed.
End replaced.

(** C25: a membership that passes the checks and refers to stored devices and links is stored, reading the map gives it back (the
    areas of a device in the order of their ids, the rows in that of the queries), and no row of another map has changed. *)
Theorem membership_read_back now id ms d : is_Some (t_maps d !! id) → id ≠ uuid_Nil → validateCanvasMapMembership ms = Ok tt →
  (∀ m, m ∈ ms_Devices ms → is_Some (t_devices d !! mm_DeviceID m)) → (∀ l, l ∈ ms_LinkIDs ms → is_Some (t_links d !! l)) →
  ∃ d' got, run (ReplaceMembership now id ms) d = (d', Ok tt) ∧ GetMembership id d' = Ok got ∧
    ms_Devices got ≡ₚ stored <$> ms_Devices ms ∧ ms_LinkIDs got ≡ₚ ms_LinkIDs ms ∧ ms_Areas got ≡ₚ ms_Areas ms ∧ ∀ m, m ≠ id → same_map m d d'.
Proof.
  intros Hid Hnil Hv%validate_ok Hdev Hlink. exists (replaced now id ms d), (GetMembershipForExistingMap id (replaced now id ms d)).
  split; [by apply ReplaceMembership_runs|]. split.
  { unfold GetMembership, required, ensureCanvasMapExists. rewrite (proj2 (Z.eqb_neq _ _) Hnil). cbn. by rewrite bool_decide_true by (by rewrite lookup_alter_is_Some). }
  split; [by apply members_read_back|]. split; [by apply links_read_back|]. split; [by apply areas_of_map_read_back|]. intros m Hm. by apply replaced_others.
Qed.

(** ** The rows of the topology *)

Lemma filter_in {A} (P Q : A → Prop) `{!∀ x, Decision (P x)} `{!∀ x, Decision (Q x)} (l : list A) : (∀ x, x ∈ l → P x ↔ Q x) → filter P l = filter Q l.
Proof.
  induction l as [|x l IH]; intros E; [done|]. rewrite !filter_cons, IH by (intros; apply E; by right). specialize (E x ltac:(left)).
  destruct (decide (P x)), (decide (Q x)); tauto.
Qed.
Lemma filter_fmap {A B} (f : A → B) (P : B → Prop) `{!∀ x, Decision (P x)} (l : list A) : filter P (f <$> l) = f <$> filter (λ x, P (f x)) l.
Proof. induction l as [|x l IH]; [done|]. rewrite fmap_cons, !filter_cons, IH. by destruct (decide (P (f x))). Qed.
Lemma filter_sorted (P : UUID → Prop) `{!∀ x, Decision (P x)} (l : list UUID) : StronglySorted Z.le l → StronglySorted Z.le (filter P l).
Proof.
  induction 1 as [|x l Hs IH Hx]; [by apply SSorted_nil|]. rewrite filter_cons. destruct (decide (P x)); [|done]. apply SSorted_cons; [done|].
  rewrite Forall_forall in *. intros y [_ Hy]%list_elem_of_filter. auto.
Qed.
Lemma NoDup_by {A B} (f : A → B) (l : list A) x y : NoDup (f <$> l) → x ∈ l → y ∈ l → f x = f y → x = y.
Proof.
  intros Hn [i Hi]%list_elem_of_lookup_1 [j Hj]%list_elem_of_lookup_1 E. assert (i = j) as <-; [|congruence].
  apply (NoDup_lookup (f <$> l) i j (f x) Hn); rewrite list_lookup_fmap; [by rewrite Hi|by rewrite Hj, E].
Qed.
Lemma NoDup_filter_by {A B} (f : A → B) (P : A → Prop) `{!∀ x, Decision (P x)} (l : list A) : NoDup (f <$> l) → NoDup (f <$> filter P l).
Proof. intros Hn. eapply sublist_NoDup; [exact Hn|]. apply fmap_sublist, sublist_filter. Qed.

Section topology.
Context `{Database} (d : MapDB) (Hd : store_ok d).

Lemma normalized_same x : dev_ID (NormalizeVirtualDevice x).1 = dev_ID x ∧ dev_AreaIDs (NormalizeVirtualDevice x).1 = dev_AreaIDs x.
Proof. unfold NormalizeVirtualDevice. repeat (case_match; simplify_eq/=); done. Qed.
Lemma md_ID_topology m : md_ID (topology_device m) = md_ID m.
Proof. apply (normalized_same (md_device m)). Qed.
Lemma md_AreaIDs_topology m : md_AreaIDs (topology_device m) = md_AreaIDs m.
Proof. apply (normalized_same (md_device m)). Qed.

Lemma elem_of_devices m : m ∈ DeviceService_GetAllDevices d → is_Some (t_devices d !! md_ID m) ∧ md_ID m ≠ uuid_Nil ∧ md_AreaIDs m = area_ids d (md_ID m).
Proof.
  unfold DeviceService_GetAllDevices, DeviceRepo_GetAll. intros (m0 & -> & Hm)%list_elem_of_fmap. rewrite (merge_sort_Permutation device_le) in Hm.
  apply list_elem_of_fmap in Hm as (m1 & -> & ([id m2] & -> & E%elem_of_map_to_list)%list_elem_of_fmap). cbn [snd].
  rewrite md_AreaIDs_topology, md_ID_topology. destruct (ok_device d Hd _ _ E) as [<- Hn]. change (md_ID (hydrated d m2)) with (md_ID m2). split; [by rewrite E|done].
Qed.
Lemma NoDup_devices : NoDup (md_ID <$> DeviceService_GetAllDevices d).
Proof.
  unfold DeviceService_GetAllDevices, DeviceRepo_GetAll. rewrite <- list_fmap_compose.
  rewrite (list_fmap_ext (md_ID ∘ topology_device) md_ID _ ltac:(intros; apply md_ID_topology)).
  rewrite (fmap_Permutation md_ID _ _ (merge_sort_Permutation device_le _)), <- list_fmap_compose. change (NoDup (md_ID <$> (map_to_list (t_devices d)).*2)).
  rewrite <- list_fmap_compose. apply NoDup_fmap_2_strong; [|apply NoDup_map_to_list]. intros [x m] [y n] Hx%elem_of_map_to_list Hy%elem_of_map_to_list. cbn. intros E.
  destruct (ok_device d Hd _ _ Hx) as [Hm _], (ok_device d Hd _ _ Hy) as [Hn _]. congruence.
Qed.
Lemma devices_by_ids ids : DeviceService_GetDevicesByIDs ids d = filter (λ m, md_ID m ∈ ids) (DeviceService_GetAllDevices d).
Proof.
  unfold DeviceService_GetDevicesByIDs, DeviceRepo_GetByIDs, DeviceService_GetAllDevices. rewrite filter_fmap. f_equal. apply filter_in. intros m _. by rewrite md_ID_topology.
Qed.
Lemma topology_row_commutes m : topology_device (topology_row m) = topology_row (topology_device m).
Proof.
  unfold topology_device, topology_row, NormalizeVirtualDevice, IsVirtualNoIPDevice. cbn. destruct (negb (String.eqb _ DeviceTypeVirtual)); [done|].
  destruct (negb (String.eqb _ MetricsSourceNone)); cbn; by destruct (_ && _).
Qed.
Lemma topology_devices_by_ids ids : DeviceService_GetTopologyDevicesByIDs ids d = topology_row <$> DeviceService_GetDevicesByIDs ids d.
Proof.
  unfold DeviceService_GetTopologyDevicesByIDs, DeviceRepo_GetByIDsForTopology, DeviceService_GetDevicesByIDs. rewrite <- !list_fmap_compose. apply list_fmap_ext.
  intros i m _. apply topology_row_commutes.
Qed.
Lemma area_ids_ok x : NoDup (area_ids d x) ∧ uuid_Nil ∉ area_ids d x ∧ StronglySorted Z.le (area_ids d x).
Proof.
  split; [apply NoDup_ids_of|]. split; [|apply sorted_ids]. intros E%elem_of_ids_of. destruct (ok_device_areas d Hd _ _ E) as [_ [a Ea]].
  by destruct (ok_area d Hd _ _ Ea).
Qed.
Lemma elem_of_links l : l ∈ LinkRepo_GetAll d → is_Some (t_links d !! lk_ID l) ∧ lk_ID l ≠ uuid_Nil.
Proof.
  intros (r & -> & Hr)%list_elem_of_fmap. rewrite elem_of_link_rows in Hr by done. rewrite Hr. split; [eauto|]. by destruct (ok_link d Hd _ _ Hr) as [[_ ?] _].
Qed.
Lemma NoDup_links : NoDup (lk_ID <$> LinkRepo_GetAll d).
Proof.
  unfold LinkRepo_GetAll. rewrite <- list_fmap_compose. apply NoDup_fmap_2_strong; [|by apply NoDup_link_rows]. intros r s Hr Hs. cbn. intros E.
  rewrite elem_of_link_rows in Hr, Hs by done. congruence.
Qed.
Lemma areas_ok : NoDup ((λ a, ar_ID (ac_Area a)) <$> AreaRepo_GetAllWithDeviceCount d) ∧ ∀ a, a ∈ AreaRepo_GetAllWithDeviceCount d → ar_ID (ac_Area a) ≠ uuid_Nil.
Proof.
  unfold AreaRepo_GetAllWithDeviceCount, AreaRepo_GetAll. split.
  - rewrite <- list_fmap_compose. change (NoDup (ar_ID <$> merge_sort area_le (map_to_list (t_areas d)).*2)).
    rewrite (fmap_Permutation ar_ID _ _ (merge_sort_Permutation area_le _)), <- list_fmap_compose. apply NoDup_fmap_2_strong; [|apply NoDup_map_to_list].
    intros [x m] [y n] Hx%elem_of_map_to_list Hy%elem_of_map_to_list. cbn. intros E. destruct (ok_area d Hd _ _ Hx) as [Hm _], (ok_area d Hd _ _ Hy) as [Hn _]. congruence.
  - intros a (x & -> & Hx)%list_elem_of_fmap. rewrite (merge_sort_Permutation area_le) in Hx. apply list_elem_of_fmap in Hx as ([y z] & -> & E%elem_of_map_to_list). cbn.
    by destruct (ok_area d Hd _ _ E) as [-> ?].
Qed.
End topology.

(** ** Materializing *)

Lemma elem_of_projection_members included p m : m ∈ projection_members included p ↔
  (∃ x, x ∈ tp_Devices p ∧ m = mkMember (md_ID x) CanvasMapDeviceRoleBase (filterDeviceAreaIDs (md_AreaIDs x) included) None) ∨
  (∃ x, x ∈ tp_GhostDevices p ∧ m = mkMember (md_ID x) CanvasMapDeviceRoleGhost [] None).
Proof. unfold projection_members. rewrite elem_of_app, !list_elem_of_fmap. naive_solver. Qed.
Lemma elem_of_deviceIDSet x l : x ∈ deviceIDSet l ↔ ∃ m, m ∈ l ∧ md_ID m = x.
Proof. unfold deviceIDSet. rewrite elem_of_list_to_set, list_elem_of_fmap. naive_solver. Qed.
Lemma ghosts_apart devices links mf x : x ∈ tp_GhostDevices (ProjectTopologyForFilter devices links mf) →
  x ∈ devices ∧ ∀ y, y ∈ tp_Devices (ProjectTopologyForFilter devices links mf) → md_ID y ≠ md_ID x.
Proof.
  intros [[Hb _] Hx]%list_elem_of_filter. split; [done|]. intros y Hy E. apply Hb, elem_of_deviceIDSet. eauto.
Qed.
Lemma NoDup_projection devices links mf : NoDup (md_ID <$> devices) →
  NoDup (md_ID <$> (tp_Devices (ProjectTopologyForFilter devices links mf) ++ tp_GhostDevices (ProjectTopologyForFilter devices links mf))).
Proof.
  intros Hn. rewrite fmap_app. apply NoDup_app. split; [by apply NoDup_filter_by|]. split; [|by apply NoDup_filter_by].
  intros x (y & -> & Hy)%list_elem_of_fmap (z & E & [_ Hz]%ghosts_apart)%list_elem_of_fmap. by apply (Hz y).
Qed.

Lemma materialize_valid devices links areas mf : NoDup (md_ID <$> devices) →
  (∀ x, x ∈ devices → md_ID x ≠ uuid_Nil ∧ NoDup (md_AreaIDs x) ∧ uuid_Nil ∉ md_AreaIDs x) →
  NoDup (lk_ID <$> links) → (∀ l, l ∈ links → lk_ID l ≠ uuid_Nil) →
  NoDup ((λ a, ar_ID (ac_Area a)) <$> areas) → (∀ a, a ∈ areas → ar_ID (ac_Area a) ≠ uuid_Nil) →
  valid_membership (MaterializeMembership devices links areas mf).
Proof.
  intros Hn Hdev Hln Hl Han Ha. set (p := ProjectTopologyForFilter devices links mf).
  assert (Hbase : ∀ x, x ∈ tp_Devices p → x ∈ devices) by (by intros x [_ Hx]%list_elem_of_filter).
  assert (Hghost : ∀ x, x ∈ tp_GhostDevices p → x ∈ devices) by (by intros x [Hx _]%ghosts_apart).
  split; unfold MaterializeMembership; fold p; cbn [ms_Devices ms_LinkIDs ms_Areas].
  - unfold projection_members. rewrite fmap_app, <- !list_fmap_compose. change (NoDup ((md_ID <$> tp_Devices p) ++ (md_ID <$> tp_GhostDevices p))).
    rewrite <- fmap_app. by apply NoDup_projection.
  - intros m [(x & Hx & ->)|(x & Hx & ->)]%elem_of_projection_members; cbn.
    + destruct (Hdev x (Hbase x Hx)) as (? & Hna & ?). split; [done|]. split; [by apply NoDup_filter|]. intros [_ ?]%list_elem_of_filter. done.
    + destruct (Hdev x (Hghost x Hx)) as (? & _). split; [done|]. split; [apply NoDup_nil_2|apply not_elem_of_nil].
  - by apply NoDup_filter_by.
  - intros (l & E & [_ Hin]%list_elem_of_filter)%list_elem_of_fmap. by apply (Hl l).
  - unfold AreasWithCountToMembership, AreasToMembership. rewrite <- !list_fmap_compose. by apply (NoDup_filter_by (λ a, ar_ID (ac_Area a))).
  - intros (a & E & Hin)%list_elem_of_fmap. apply list_elem_of_fmap in Hin as (b & -> & (c & -> & [_ Hc]%list_elem_of_filter)%list_elem_of_fmap). by apply (Ha c).
  - intros m a [(x & Hx & ->)|(x & Hx & ->)]%elem_of_projection_members; cbn; [|by intros ?%elem_of_nil]. intros [Hin _]%list_elem_of_filter.
    unfold areaWithCountIDSet in Hin. apply elem_of_list_to_set, list_elem_of_fmap in Hin as (c & -> & Hc).
    unfold AreasWithCountToMembership, AreasToMembership. rewrite <- !list_fmap_compose. apply list_elem_of_fmap. by exists c.
Qed.

(** The maps the loop over the members builds. *)
Lemma member_map {B} (f : CanvasMapDeviceMembership → B) (l : list CanvasMapDeviceMembership) x r : NoDup (mm_DeviceID <$> l) →
  foldl (λ (t : gmap UUID B) m, <[mm_DeviceID m := f m]> t) ∅ l !! x = Some r ↔ ∃ m, m ∈ l ∧ mm_DeviceID m = x ∧ f m = r.
Proof.
  induction l as [|m l IH] using rev_ind; intros Hn; [cbn; rewrite lookup_empty; split; [done|]; by intros (? & ?%elem_of_nil & _)|].
  rewrite foldl_snoc, lookup_insert_Some. rewrite fmap_app in Hn. apply NoDup_app in Hn as (Hl & Hm & _). rewrite (IH Hl). setoid_rewrite elem_of_app. setoid_rewrite list_elem_of_singleton.
  split; [naive_solver|]. intros (y & [Hy| ->] & <- & <-); [|by left]. right. split; [|eauto]. intros E. apply (Hm (mm_DeviceID y)); [apply list_elem_of_fmap; eauto|].
  rewrite <- E. apply list_elem_of_fmap. exists m. split; [done|by left].
Qed.

Section materialized.
Context `{Database} (now : Time) (id : UUID) (mf : CanvasMapFilter) (d : MapDB) (Hd : store_ok d).
Let devices := DeviceService_GetAllDevices d.
Let links := LinkRepo_GetAll d.
Let p := ProjectTopologyForFilter devices links mf.
Let areas := areaWithCountIDSet (areasForMembership (AreaRepo_GetAllWithDeviceCount d) (tp_Devices p) mf).
Let ms := MaterializeMembership devices links (AreaRepo_GetAllWithDeviceCount d) mf.
Let got := GetMembershipForExistingMap id (replaced now id ms d).

Lemma materialized_valid : valid_membership ms.
Proof.
  apply materialize_valid; [by apply NoDup_devices| |by apply NoDup_links|intros l Hl; by apply (elem_of_links d Hd)|apply (areas_ok d Hd)..].
  intros x Hx. destruct (elem_of_devices d Hd x Hx) as (_ & Hn & ->). split; [done|]. by destruct (area_ids_ok d Hd (md_ID x)) as (? & ? & _).
Qed.
Let Hv := materialized_valid.
Lemma base_known x : x ∈ tp_Devices p → x ∈ devices.
Proof. by intros [_ Hx]%list_elem_of_filter. Qed.
Lemma ghost_known x : x ∈ tp_GhostDevices p → x ∈ devices.
Proof. by intros [Hx _]%ghosts_apart. Qed.
Lemma materialized_known m : m ∈ ms_Devices ms → is_Some (t_devices d !! mm_DeviceID m).
Proof. intros [(x & Hx & ->)|(x & Hx & ->)]%elem_of_projection_members; apply (elem_of_devices d Hd); [by apply base_known|by apply ghost_known]. Qed.
Lemma materialized_links l : l ∈ ms_LinkIDs ms → is_Some (t_links d !! l).
Proof. intros (x & -> & [_ Hx]%list_elem_of_filter)%list_elem_of_fmap. by apply (elem_of_links d Hd). Qed.

Lemma got_NoDup : NoDup (mm_DeviceID <$> ms_Devices got).
Proof.
  unfold got. rewrite (fmap_Permutation mm_DeviceID _ _ (members_read_back now id ms d Hv)), <- list_fmap_compose. apply Hv.
Qed.
Lemma elem_of_got m : m ∈ ms_Devices got ↔ ∃ m0, m = stored m0 ∧ m0 ∈ ms_Devices ms.
Proof. unfold got. by rewrite (members_read_back now id ms d Hv), list_elem_of_fmap. Qed.

Lemma role_of x r : member_roles (ms_Devices got) !! x = Some r ↔ ∃ m, m ∈ ms_Devices ms ∧ mm_DeviceID m = x ∧ mm_Role m = r.
Proof.
  unfold member_roles. rewrite member_map by apply got_NoDup. setoid_rewrite elem_of_got. split.
  - intros (m & (m0 & -> & Hm) & <- & <-). eauto.
  - intros (m & Hm & <- & <-). exists (stored m). eauto.
Qed.
Lemma areas_of x l : member_areas (ms_Devices got) !! x = Some l ↔ ∃ m, m ∈ ms_Devices ms ∧ mm_DeviceID m = x ∧ merge_sort Z.le (mm_AreaIDs m) = l.
Proof.
  unfold member_areas. rewrite member_map by apply got_NoDup. setoid_rewrite elem_of_got. split.
  - intros (m & (m0 & -> & Hm) & <- & <-). eauto.
  - intros (m & Hm & <- & <-). exists (stored m). eauto.
Qed.
Lemma role_base x : member_roles (ms_Devices got) !! x = Some CanvasMapDeviceRoleBase ↔ x ∈ deviceIDSet (tp_Devices p).
Proof.
  rewrite role_of, elem_of_deviceIDSet. split.
  - intros (m & [(y & Hy & ->)|(y & Hy & ->)]%elem_of_projection_members & <- & Hr); [eauto|done].
  - intros (y & Hy & <-). eexists. split; [apply elem_of_projection_members; left; eauto|done].
Qed.
Lemma role_ghost x : member_roles (ms_Devices got) !! x = Some CanvasMapDeviceRoleGhost ↔ x ∈ deviceIDSet (tp_GhostDevices p).
Proof.
  rewrite role_of, elem_of_deviceIDSet. split.
  - intros (m & [(y & Hy & ->)|(y & Hy & ->)]%elem_of_projection_members & <- & Hr); [done|eauto].
  - intros (y & Hy & <-). eexists. split; [apply elem_of_projection_members; right; eauto|done].
Qed.
Lemma role_some x : member_roles (ms_Devices got) !! x ≠ None ↔ x ∈ deviceIDSet (tp_Devices p ++ tp_GhostDevices p).
Proof.
  unfold deviceIDSet. rewrite fmap_app, list_to_set_app, elem_of_union. fold (deviceIDSet (tp_Devices p)) (deviceIDSet (tp_GhostDevices p)). rewrite <- role_base, <- role_ghost.
  destruct (member_roles _ !! x) as [[]|]; naive_solver.
Qed.
Lemma got_ids x : x ∈ MembershipDeviceIDs (ms_Devices got) ↔ x ∈ deviceIDSet (tp_Devices p ++ tp_GhostDevices p).
Proof.
  rewrite <- role_some, not_eq_None_Some. unfold MembershipDeviceIDs. rewrite list_elem_of_fmap. unfold is_Some. setoid_rewrite role_of. setoid_rewrite elem_of_got. split.
  - intros (m & -> & (m0 & -> & Hm)). cbn. eauto.
  - intros (r & m & Hm & <- & _). exists (stored m). eauto.
Qed.
(** Only the devices of the projection have the ids of its sets. *)
Lemma in_projection (l : list MapDevice) x : (∀ y, y ∈ l → y ∈ devices) → x ∈ devices → md_ID x ∈ deviceIDSet l ↔ x ∈ l.
Proof.
  intros Hl Hx. rewrite elem_of_deviceIDSet. split; [|eauto]. intros (y & Hy & E). by rewrite <- (NoDup_by md_ID devices y x (NoDup_devices d Hd) (Hl y Hy) Hx E).
Qed.
Lemma elem_of_base x : x ∈ tp_Devices p ↔ x ∈ devices ∧ baseDevice mf x = true.
Proof. unfold p, ProjectTopologyForFilter. cbn [tp_Devices]. rewrite list_elem_of_filter. tauto. Qed.
Lemma shown_base : filter (λ x, member_roles (ms_Devices got) !! md_ID x ≠ None ∧ member_roles (ms_Devices got) !! md_ID x ≠ Some CanvasMapDeviceRoleGhost)
  (filter (λ x, md_ID x ∈ MembershipDeviceIDs (ms_Devices got)) devices) = tp_Devices p.
Proof.
  rewrite list_filter_filter. unfold p, ProjectTopologyForFilter. cbn [tp_Devices]. apply filter_in. intros x Hx.
  transitivity (x ∈ tp_Devices p); [|rewrite elem_of_base; tauto]. rewrite <- (in_projection _ _ base_known Hx), <- role_base, got_ids, <- role_some.
  destruct (member_roles _ !! md_ID x) as [[]|]; naive_solver.
Qed.
Lemma shown_ghosts : filter (λ x, member_roles (ms_Devices got) !! md_ID x = Some CanvasMapDeviceRoleGhost)
  (filter (λ x, md_ID x ∈ MembershipDeviceIDs (ms_Devices got)) devices) = tp_GhostDevices p.
Proof.
  rewrite list_filter_filter. unfold p at 1, ProjectTopologyForFilter. cbn [tp_GhostDevices]. apply filter_in. intros x Hx.
  transitivity (x ∈ tp_GhostDevices p).
  - rewrite <- (in_projection _ _ ghost_known Hx), <- role_ghost, got_ids, <- role_some. destruct (member_roles _ !! md_ID x) as [[]|]; naive_solver.
  - unfold p at 1, ProjectTopologyForFilter. cbn [tp_GhostDevices]. rewrite list_elem_of_filter. tauto.
Qed.
Lemma shown_links : filter (λ l, lk_ID l ∈ (list_to_set (ms_LinkIDs got) : gset UUID) ∧ member_roles (ms_Devices got) !! lk_SourceDeviceID l ≠ None ∧
    member_roles (ms_Devices got) !! lk_TargetDeviceID l ≠ None) (LoadLinksByIDs (ms_LinkIDs got) d) =
  filter (λ l, lk_SourceDeviceID l ∈ deviceIDSet (tp_Devices p ++ tp_GhostDevices p) ∧ lk_TargetDeviceID l ∈ deviceIDSet (tp_Devices p ++ tp_GhostDevices p)) (tp_Links p).
Proof.
  assert (Hids : ∀ l, l ∈ links → lk_ID l ∈ ms_LinkIDs got ↔ l ∈ tp_Links p).
  { intros l Hl. unfold got. rewrite (links_read_back now id ms d Hv). unfold ms, MaterializeMembership. cbn [ms_LinkIDs]. fold p. rewrite list_elem_of_fmap. split; [|eauto].
    intros (k & E & Hk). pose proof Hk as [_ Hk']%list_elem_of_filter. by rewrite (NoDup_by lk_ID links l k (NoDup_links d Hd) Hl Hk' E). }
  assert (Hload : LoadLinksByIDs (ms_LinkIDs got) d = filter (λ l, lk_ID l ∈ ms_LinkIDs got) links).
  { unfold LoadLinksByIDs, LinkRepo_GetByIDs. destruct (ms_LinkIDs got) eqn:E; [|done]. symmetry. apply elem_of_nil_inv. by intros x [?%elem_of_nil _]%list_elem_of_filter. }
  rewrite Hload, list_filter_filter. change (tp_Links p) with (filter (λ l, includeLink mf (deviceIDSet devices) (deviceIDSet (tp_Devices p)) l = true) links) in *.
  rewrite list_filter_filter. apply filter_in. intros l Hl. rewrite elem_of_list_to_set, !role_some, (Hids l Hl), list_elem_of_filter. tauto.
Qed.
Lemma shown_areas x : x ∈ tp_Devices p → default [] (member_areas (ms_Devices got) !! md_ID x) = filterDeviceAreaIDs (md_AreaIDs x) areas.
Proof.
  intros Hx. rewrite (proj2 (areas_of (md_ID x) (filterDeviceAreaIDs (md_AreaIDs x) areas))); [done|].
  eexists. split; [apply elem_of_projection_members; left; exists x; split; [exact Hx|done]|]. split; [done|]. cbn [mm_AreaIDs].
  apply (StronglySorted_unique Z.le); [apply sorted_ids| |by rewrite (merge_sort_Permutation Z.le)].
  destruct (elem_of_devices d Hd x (base_known x Hx)) as (_ & _ & ->). destruct (area_ids_ok d Hd (md_ID x)) as (_ & _ & Hs).
  by apply filter_sorted.
Qed.
Lemma shown_no_areas x : x ∈ tp_GhostDevices p → default [] (member_areas (ms_Devices got) !! md_ID x) = [].
Proof.
  intros Hx. rewrite (proj2 (areas_of (md_ID x) [])); [done|].
  eexists. split; [apply elem_of_projection_members; right; exists x; split; [exact Hx|done]|]. done.
Qed.
End materialized.

Lemma LoadTopology_runs `{Database} id d r : t_maps d !! id = Some r → mr_Materialized r = true → id ≠ uuid_Nil →
  let got := GetMembershipForExistingMap id d in
  LoadTopology id d = Ok (read_map d id r, BuildMaterializedTopologyResponsePlan got (DeviceService_GetTopologyDevicesByIDs (MembershipDeviceIDs (ms_Devices got)) d)
    (LoadLinksByIDs (ms_LinkIDs got) d) ((λ e, read_position e.1 e.2) <$> rows_of id (t_map_positions d))).
Proof.
  intros E Hm Hnil. cbv zeta. unfold LoadTopology, LoadTopologyForMap, GetByID, GetAllForMap, required, scan_map. rewrite (proj2 (Z.eqb_neq _ _) Hnil).
  unfold result_bind at 2. rewrite E. unfold result_bind at 1. cbn [read_map cm_MembershipMaterialized cm_ID]. rewrite Hm. cbn [negb].
  by rewrite (proj2 (Z.eqb_neq _ _) Hnil).
Qed.

(** C36: on consistent tables, materializing a map from a filter succeeds, and what is then loaded for the map is what the filter
    selects of the topology: its base devices with those of their areas that are on the map, then the ghosts without areas, in the
    order of the device list, both without credentials and probe ports, and the selected links whose ends are both shown; no row of another map has changed. *)
Theorem materialized_view `{Database} now id mf d : consistent d → is_Some (t_maps d !! id) → id ≠ uuid_Nil →
  let p := ProjectTopologyForFilter (DeviceService_GetAllDevices d) (LinkRepo_GetAll d) mf in
  let shown := deviceIDSet (tp_Devices p ++ tp_GhostDevices p) in
  let areas := areaWithCountIDSet (areasForMembership (AreaRepo_GetAllWithDeviceCount d) (tp_Devices p) mf) in
  ∃ d' m plan, ReplaceMaterializedMembership now id mf d = (d', Ok tt) ∧ LoadTopology id d' = Ok (m, plan) ∧
    rp_Devices plan = ((λ x, with_AreaIDs (filterDeviceAreaIDs (md_AreaIDs x) areas) (topology_row x)) <$> tp_Devices p) ++
      ((λ x, with_AreaIDs [] (topology_row x)) <$> tp_GhostDevices p) ∧
    rp_Links plan = filter (λ l, lk_SourceDeviceID l ∈ shown ∧ lk_TargetDeviceID l ∈ shown) (tp_Links p) ∧
    rp_DeviceCount plan = Z.of_nat (length (tp_Devices p)) ∧ ∀ o, o ≠ id → same_map o d d'.
Proof.
  intros [Hd _ _] Hid Hnil. cbv zeta. set (ms := MaterializeMembership (DeviceService_GetAllDevices d) (LinkRepo_GetAll d) (AreaRepo_GetAllWithDeviceCount d) mf).
  set (got := GetMembershipForExistingMap id (replaced now id ms d)).
  destruct Hid as [r Hid]. exists (replaced now id ms d). eexists. eexists. split.
  { unfold ReplaceMaterializedMembership, op_bind, look, staged. fold ms. rewrite ReplaceMembership_runs; [done|by rewrite Hid|done|by apply materialized_valid|..];
      intros x Hx; [by eapply materialized_known|by eapply materialized_links]. }
  split; [eapply LoadTopology_runs; [cbn; by rewrite lookup_alter_eq, Hid|done|done]|]. fold got.
  change (DeviceService_GetTopologyDevicesByIDs (MembershipDeviceIDs (ms_Devices got)) (replaced now id ms d)) with (DeviceService_GetTopologyDevicesByIDs (MembershipDeviceIDs (ms_Devices got)) d).
  change (LoadLinksByIDs (ms_LinkIDs got) (replaced now id ms d)) with (LoadLinksByIDs (ms_LinkIDs got) d).
  rewrite topology_devices_by_ids, devices_by_ids. unfold BuildMaterializedTopologyResponsePlan, ProjectTopologyForMembership.
  cbn [rp_Devices rp_Links rp_DeviceCount tp_Devices tp_Links tp_GhostDevices]. rewrite !filter_fmap. change (λ x, md_ID (topology_row x)) with md_ID.
  unfold got, ms. rewrite shown_base, shown_ghosts, shown_links by done. split; [|split; [done|split; [by rewrite !length_fmap|intros o Ho; by apply replaced_others]]].
  rewrite <- !list_fmap_compose. f_equal; apply list_fmap_ext; intros i x Hx%list_elem_of_lookup_2; cbn [compose]; change (md_ID (topology_row x)) with (md_ID x);
    [by rewrite shown_areas|by rewrite shown_no_areas].
Qed.

(** ** Isolating shared virtual devices *)

(** What the keys of one map hold after those of [done] have been given new ids. *)
Record moved {B} (mapID : UUID) (f : UUID → UUID) (none : B) (done : list UUID) (T0 T : UUID * UUID → B) : Prop := {
  mv_other : ∀ m x, m ≠ mapID → T (m, x) = T0 (m, x);
  mv_new : ∀ o, o ∈ done → T (mapID, f o) = T0 (mapID, o);
  mv_old : ∀ o, o ∈ done → T (mapID, o) = none;
  mv_same : ∀ x, x ∉ done → (∀ o, o ∈ done → x ≠ f o) → T (mapID, x) = T0 (mapID, x) }.
Lemma moved_nil {B} mapID f (none : B) T0 : moved mapID f none [] T0 T0.
Proof. split; try done; by intros ? ?%elem_of_nil. Qed.
Lemma moved_snoc {B} mapID f (none : B) done o T0 T T' : moved mapID f none done T0 T → o ∉ done → f o ∉ done → f o ≠ o → (∀ x, x ∈ done → f x ≠ f o ∧ f x ≠ o) →
  T' (mapID, o) = none → T' (mapID, f o) = T (mapID, o) → (∀ k, k ≠ (mapID, o) → k ≠ (mapID, f o) → T' k = T k) → moved mapID f none (done ++ [o]) T0 T'.
Proof.
  intros [] Ho Hfo Hne Hf Ho' Hnew Hrest. split.
  - intros m x Hm. rewrite Hrest by congruence. auto.
  - intros x [Hx| ->%list_elem_of_singleton]%elem_of_app.
    + destruct (Hf x Hx) as [H1 H2]. rewrite Hrest by congruence. auto.
    + rewrite Hnew. apply mv_same0; [done|]. intros x Hx E. by destruct (Hf x Hx).
  - intros x [Hx| ->%list_elem_of_singleton]%elem_of_app; [|done]. rewrite Hrest; [auto|congruence|]. intros [= ->]. done.
  - intros x Hx Hnx. rewrite elem_of_app, list_elem_of_singleton in Hx. rewrite Hrest; [| |].
    + apply mv_same0; [tauto|]. intros y Hy. apply Hnx. rewrite elem_of_app. auto.
    + intros [= ->]. tauto.
    + intros [= ->]. apply (Hnx o); [|done]. apply elem_of_app. right. by left.
Qed.

Definition areas_at (s : gset (UUID * UUID * UUID)) (k : UUID * UUID) : gset UUID := set_map snd (filter (λ e : UUID * UUID * UUID, e.1 = k) s).
Lemma elem_of_areas_at s k a : a ∈ areas_at s k ↔ (k, a) ∈ s.
Proof. unfold areas_at. rewrite elem_of_map. setoid_rewrite elem_of_filter. split; [intros ([k' a'] & -> & E & Hin); cbn in *; by subst|]. intros Hin. by exists (k, a). Qed.

Lemma rename_key_at {A} (old new : UUID * UUID) (t : gmap (UUID * UUID) A) : old ≠ new → t !! new = None →
  rename_key old new t !! old = None ∧ rename_key old new t !! new = t !! old ∧ ∀ k, k ≠ old → k ≠ new → rename_key old new t !! k = t !! k.
Proof.
  intros Hne Hn. unfold rename_key. destruct (t !! old) as [r|] eqn:E; [|by rewrite Hn].
  rewrite lookup_insert_ne, lookup_delete_eq, lookup_insert_eq by done. repeat split. intros k H1 H2. by rewrite lookup_insert_ne, lookup_delete_ne.
Qed.
Lemma rename_id_at (old new : UUID * UUID) (s : gset (UUID * UUID)) : old ≠ new → new ∉ s →
  bool_decide (old ∈ rename_id old new s) = false ∧ bool_decide (new ∈ rename_id old new s) = bool_decide (old ∈ s) ∧
  ∀ k, k ≠ old → k ≠ new → bool_decide (k ∈ rename_id old new s) = bool_decide (k ∈ s).
Proof.
  intros Hne Hn. unfold rename_id. destruct (decide (old ∈ s)) as [E|E].
  - rewrite (bool_decide_true (old ∈ s)) by done. repeat split; [apply bool_decide_eq_false|apply bool_decide_eq_true|intros k H1 H2; apply bool_decide_ext]; set_solver.
  - rewrite !(bool_decide_false (old ∈ s)) by done. by rewrite !(bool_decide_false (new ∈ s)).
Qed.

(** The ids drawn for clones are new ones. *)
Record fresh_clones (ids : CloneIDs) (d : MapDB) : Prop := {
  fc_drawn : clones_drawn ids;
  fc_device : ∀ x, is_Some (t_devices d !! x) → t_devices d !! new_device ids x = None;
  fc_device_inj : ∀ x y, is_Some (t_devices d !! x) → is_Some (t_devices d !! y) → new_device ids x = new_device ids y → x = y;
  fc_link : ∀ x, is_Some (t_links d !! x) → t_links d !! new_link ids x = None;
  fc_link_inj : ∀ x y, is_Some (t_links d !! x) → is_Some (t_links d !! y) → new_link ids x = new_link ids y → x = y }.

Section isolating.
Context `{Database} (ids : CloneIDs) (now : Time) (mapID : UUID) (d0 : MapDB) (Hc : consistent d0) (Hf : fresh_clones ids d0).
Let clones := clone_candidates mapID d0.
Let Hs := inv_store _ _ _ Hc.

Lemma clone_is o : o ∈ clones → ∃ m r, t_devices d0 !! o = Some m ∧ is_virtual m = true ∧ t_map_devices d0 !! (mapID, o) = Some r.
Proof.
  unfold clones, clone_candidates. intros [Hv Ho]%list_elem_of_filter. apply list_elem_of_fmap in Ho as ([x r] & -> & Hr%elem_of_rows_of). cbn in *.
  unfold shared_virtual in Hv. destruct (t_devices d0 !! x) as [m|] eqn:Em; [|done]. apply andb_true_iff in Hv as [Hv _]. eauto.
Qed.
Lemma clone_device_there o : o ∈ clones → is_Some (t_devices d0 !! o).
Proof. intros (m & r & -> & _)%clone_is. eauto. Qed.
Lemma NoDup_clones : NoDup clones.
Proof. apply NoDup_filter, NoDup_rows_of. Qed.
(** A new id is none of those the old tables know. *)
Lemma new_apart o x : is_Some (t_devices d0 !! o) → is_Some (t_devices d0 !! x) → new_device ids o ≠ x.
Proof. intros Ho [m Hx] <-. by rewrite (fc_device _ _ Hf o Ho) in Hx. Qed.

Record cloned (done : list UUID) (d : MapDB) : Prop := {
  cd_ok : consistent d;
  cd_known : ∀ o, o ∈ done → is_Some (t_devices d0 !! o);
  cd_devices : t_devices d0 ⊆ t_devices d;
  cd_clones : ∀ o, o ∈ done → is_Some (t_devices d !! new_device ids o);
  cd_fresh : ∀ o, is_Some (t_devices d0 !! o) → o ∉ done → t_devices d !! new_device ids o = None;
  cd_members : moved mapID (new_device ids) None done (λ k, t_map_devices d0 !! k) (λ k, t_map_devices d !! k);
  cd_positions : moved mapID (new_device ids) None done (λ k, t_map_positions d0 !! k) (λ k, t_map_positions d !! k);
  cd_areas : moved mapID (new_device ids) ∅ done (areas_at (t_map_device_areas d0)) (areas_at (t_map_device_areas d));
  cd_links : t_links d = t_links d0;
  cd_maps : t_maps d = t_maps d0;
  cd_map_links : t_map_links d = t_map_links d0;
  cd_map_areas : t_map_areas d = t_map_areas d0;
  cd_routes : t_map_link_routes d = t_map_link_routes d0 }.

Lemma ip_conflict_clone m m' : ip_conflict (clone_device ids m) m' = ip_conflict m m'.
Proof. done. Qed.

Lemma moved_untouched {B} done (T0 T : UUID * UUID → B) none o : moved mapID (new_device ids) none done T0 T → (∀ x, x ∈ done → is_Some (t_devices d0 !! x)) →
  is_Some (t_devices d0 !! o) → o ∉ done → T (mapID, o) = T0 (mapID, o) ∧ T (mapID, new_device ids o) = T0 (mapID, new_device ids o).
Proof.
  intros [] Hk Ho Hn. split; apply mv_same0; [done| | |].
  - intros x Hx E. by apply (new_apart x o (Hk x Hx) Ho).
  - intros Hx. by apply (new_apart o _ Ho (Hk _ Hx)).
  - intros x Hx E. apply Hn. by rewrite (fc_device_inj _ _ Hf o x Ho (Hk x Hx) E).
Qed.
Lemma nothing_new : (∀ o, is_Some (t_devices d0 !! o) → t_map_devices d0 !! (mapID, new_device ids o) = None ∧ t_map_positions d0 !! (mapID, new_device ids o) = None ∧
  areas_at (t_map_device_areas d0) (mapID, new_device ids o) = ∅).
Proof.
  intros o Ho. pose proof (fc_device _ _ Hf o Ho) as Hn. assert (Hm : t_map_devices d0 !! (mapID, new_device ids o) = None).
  { apply eq_None_not_Some. intros [_ [? E]]%(ok_member _ Hs). congruence. }
  split; [done|]. split.
  - apply eq_None_not_Some. intros [_ [? E]]%(ok_position _ Hs). congruence.
  - apply set_eq. intros a. rewrite elem_of_areas_at. split; [|set_solver]. intros [[? E] _]%(ok_device_area _ Hs). congruence.
Qed.

(** One member: its clone is inserted and takes its place on the map. *)
Lemma clone_member_runs o done d : cloned done d → o ∈ clones → o ∉ done → ∃ d', clone_member ids mapID o d = Ok (tt, d') ∧ cloned (done ++ [o]) d'.
Proof.
  intros Hj Ho Hn. destruct (clone_is o Ho) as (m & r & Em & Hv & Er). assert (Hko : is_Some (t_devices d0 !! o)) by (by rewrite Em).
  destruct Hj. assert (Emd : t_devices d !! o = Some m) by (by eapply lookup_weaken). destruct (ok_device _ Hs _ _ Em) as [Hid _].
  pose proof (cd_fresh0 o Hko Hn) as Hfresh. destruct (nothing_new o Hko) as (Hnm & Hnp & Hna).
  destruct (moved_untouched _ _ _ _ o cd_members0 cd_known0 Hko Hn) as [M1 M2]. destruct (moved_untouched _ _ _ _ o cd_positions0 cd_known0 Hko Hn) as [P1 P2].
  destruct (moved_untouched _ _ _ _ o cd_areas0 cd_known0 Hko Hn) as [A1 A2]. rewrite Er in M1. rewrite Hnm in M2. rewrite Hnp in P2. rewrite Hna in A2.
  assert (Hip : ip_taken (md_ID (clone_device ids m)) (clone_device ids m) d = false).
  { apply ip_taken_false. intros id' m' E' Hne. rewrite ip_conflict_clone. destruct (decide (o = id')) as [<-|Ho'].
    - rewrite Emd in E'. injection E' as <-. unfold ip_conflict. rewrite Hv. by rewrite andb_false_r.
    - by apply (ok_device_ip _ (inv_store _ _ _ cd_ok0) o id'). }
  assert (Hapart : ∀ x, x ∈ done → new_device ids x ≠ new_device ids o ∧ new_device ids x ≠ o).
  { intros x Hx. split; [|by apply new_apart; auto]. intros E. apply Hn. by rewrite <- (fc_device_inj _ _ Hf x o (cd_known0 x Hx) Hko E). }
  assert (Hself : new_device ids o ≠ o) by (by apply new_apart). assert (Hnd : new_device ids o ∉ done) by (intros Hx; by apply (new_apart o _ Hko (cd_known0 _ Hx))).
  set (d' := (d <| t_devices := <[new_device ids o := clone_device ids m]> (t_devices d) |> <| t_map_devices := <[(mapID, new_device ids o) := r]> (t_map_devices d) |>)).
  assert (E : clone_member ids mapID o d = clone_places ids mapID o d').
  { unfold clone_member. unfold tx_bind at 1. unfold clone_row, tx_bind at 1, tx_read. rewrite Emd. unfold insert_device, tx_bind at 1, tx_reject. rewrite Hip.
    change (md_ID (clone_device ids m)) with (new_device ids (md_ID m)). rewrite Hid, insert_row_runs by exact Hfresh.
    unfold clone_membership, tx_bind at 1. unfold tx_bind at 1, tx_read. cbn [t_map_devices]. change (t_map_devices (d <| t_devices := _ |>)) with (t_map_devices d). rewrite M1.
    by rewrite insert_row_runs by exact M2. }
  pose proof (keeps_clone_member ids mapID (proj1 (fc_drawn _ _ Hf)) true None o d cd_ok0) as Hk. unfold wp in Hk. rewrite E in Hk |- *.
  unfold clone_places, tx_bind, tx_write in *. eexists. split; [reflexivity|]. split; try done.
  - intros x [Hx| ->%list_elem_of_singleton]%elem_of_app; auto.
  - cbn. etrans; [exact cd_devices0|]. by apply insert_subseteq.
  - intros x [Hx| ->%list_elem_of_singleton]%elem_of_app; cbn; [|rewrite lookup_insert_eq; eauto]. rewrite lookup_insert_is_Some. destruct (Hapart x Hx). right. split; [congruence|auto].
  - intros x Hx Hxd. rewrite elem_of_app, list_elem_of_singleton in Hxd. cbn. rewrite lookup_insert_ne; [apply cd_fresh0; tauto|]. intros E'.
    destruct Hxd. right. by rewrite (fc_device_inj _ _ Hf o x Hko Hx E').
  - eapply moved_snoc; [exact cd_members0|done..| | |].
    + cbn. apply map_lookup_filter_None. right. intros ? _. cbn. by rewrite bool_decide_true.
    + cbn. rewrite M1. apply map_lookup_filter_Some. rewrite lookup_insert_eq. split; [done|]. cbn. apply bool_decide_false. congruence.
    + intros k H1 H2. cbn. rewrite filter_kept by (intros; cbn; by apply bool_decide_false). by rewrite lookup_insert_ne.
  - destruct (rename_key_at (mapID, o) (mapID, new_device ids o) (t_map_positions d)) as (R1 & R2 & R3); [congruence|done|].
    eapply moved_snoc; [exact cd_positions0|done..].
  - eapply moved_snoc; [exact cd_areas0|done..| | |]; [apply set_eq; intros a; rewrite !elem_of_areas_at..|intros k H1 H2; apply set_eq; intros a; rewrite !elem_of_areas_at]; cbn.
    + rewrite elem_of_filter. cbn. rewrite bool_decide_true by done. set_solver.
    + rewrite elem_of_filter, elem_of_union, elem_of_map. cbn. rewrite bool_decide_false by congruence.
      assert ((mapID, new_device ids o, a) ∉ t_map_device_areas d) by (rewrite <- elem_of_areas_at, A2; set_solver). split.
      * intros (_ & [([k' a'] & [= ->] & [Hk' Hin]%elem_of_filter)|?]); [cbn in *; by subst|done].
      * intros Hin. split; [done|]. left. exists (mapID, o, a). split; [done|]. apply elem_of_filter. done.
    + rewrite elem_of_filter, elem_of_union, elem_of_map. cbn. rewrite bool_decide_false by done. split; [|auto]. intros (_ & [([k' a'] & [= -> ->] & _)|?]); done.
Qed.
Lemma clone_members_run todo done d : cloned done d → NoDup (done ++ todo) → (∀ o, o ∈ todo → o ∈ clones) →
  ∃ d', tx_each (clone_member ids mapID) todo d = Ok (tt, d') ∧ cloned (done ++ todo) d'.
Proof.
  revert done d. induction todo as [|o todo IH]; intros done d Hj Hn Hin; [rewrite app_nil_r; by exists d|].
  destruct (clone_member_runs o done d Hj) as (d1 & E1 & H1); [apply Hin; left|intros Ho; apply NoDup_app in Hn as (_ & Hx & _); apply (Hx o Ho); left|].
  replace (done ++ o :: todo) with ((done ++ [o]) ++ todo) in * by (by rewrite <- app_assoc).
  destruct (IH _ _ H1 Hn) as (d' & E' & H'); [intros x Hx; apply Hin; by right|]. exists d'. split; [|done]. cbn [tx_each]. unfold tx_bind. by rewrite E1.
Qed.

(** *** Links *)

Definition touches (l : Link) : bool := bool_decide (lk_SourceDeviceID l ∈ clones) || bool_decide (lk_TargetDeviceID l ∈ clones).
Definition touched (id : UUID) : bool := match t_links d0 !! id with Some r => touches (ln_Link r) | None => false end.
Definition cloned_link (r : LinkRow) : LinkRow :=
  let l := ln_Link r in
  mkLinkRow {| lk_ID := new_link ids (lk_ID l); lk_SourceDeviceID := remapped ids clones (lk_SourceDeviceID l); lk_SourceIfName := lk_SourceIfName l;
    lk_TargetDeviceID := remapped ids clones (lk_TargetDeviceID l); lk_TargetIfName := lk_TargetIfName l; lk_CreatedAt := now |} (ln_Protocol r) now.

Record relinked (d1 : MapDB) (done : list UUID) (d : MapDB) : Prop := {
  kl_ok : consistent d;
  kl_known : ∀ l, l ∈ done → is_Some (t_links d0 !! l);
  kl_devices : t_devices d = t_devices d1;
  kl_members : t_map_devices d = t_map_devices d1;
  kl_positions : t_map_positions d = t_map_positions d1;
  kl_areas : t_map_device_areas d = t_map_device_areas d1;
  kl_maps : t_maps d = t_maps d1;
  kl_map_areas : t_map_areas d = t_map_areas d1;
  kl_links : t_links d0 ⊆ t_links d;
  kl_clones : ∀ l r, l ∈ done → t_links d0 !! l = Some r → touches (ln_Link r) = true → t_links d !! new_link ids l = Some (cloned_link r);
  kl_only : ∀ k r, t_links d !! k = Some r → t_links d0 !! k = Some r ∨
    ∃ l r0, l ∈ done ∧ t_links d0 !! l = Some r0 ∧ touches (ln_Link r0) = true ∧ k = new_link ids l ∧ r = cloned_link r0;
  kl_map_links : moved mapID (new_link ids) false (filter (λ l, touched l = true) done) (λ k, bool_decide (k ∈ t_map_links d0)) (λ k, bool_decide (k ∈ t_map_links d));
  kl_routes : moved mapID (new_link ids) None (filter (λ l, touched l = true) done) (λ k, t_map_link_routes d0 !! k) (λ k, t_map_link_routes d !! k) }.

Lemma remapped_inj x y : is_Some (t_devices d0 !! x) → is_Some (t_devices d0 !! y) → remapped ids clones x = remapped ids clones y → x = y.
Proof.
  intros Hx Hy. unfold remapped. do 2 case_bool_decide; intros E; [by apply (fc_device_inj _ _ Hf)| | |done].
  - by destruct (new_apart x y Hx Hy).
  - by destruct (new_apart y x Hy Hx).
Qed.
Lemma remapped_clone x : x ∈ clones → t_devices d0 !! remapped ids clones x = None.
Proof. intros Hx. unfold remapped. rewrite bool_decide_true by done. by apply (fc_device _ _ Hf), clone_device_there. Qed.
Lemma remapped_there d1 x : cloned clones d1 → is_Some (t_devices d0 !! x) → is_Some (t_devices d1 !! remapped ids clones x).
Proof.
  intros [] [m Hx]. unfold remapped. case_bool_decide; [by apply cd_clones0|]. eapply lookup_weaken in Hx; [|exact cd_devices0]. eauto.
Qed.
Lemma ends_there l r : t_links d0 !! l = Some r → lk_ID (ln_Link r) = l ∧ is_Some (t_devices d0 !! lk_SourceDeviceID (ln_Link r)) ∧ is_Some (t_devices d0 !! lk_TargetDeviceID (ln_Link r)).
Proof. intros E. by destruct (ok_link _ Hs _ _ E) as ([? _] & ? & ?). Qed.

(** The ends of a cloned link are taken by no other link. *)
Lemma cloned_link_free d1 done d l r : relinked d1 done d → l ∉ done → t_links d0 !! l = Some r → touches (ln_Link r) = true → link_taken (ln_Link (cloned_link r)) d = false.
Proof.
  intros Hj Hn El Ht. destruct Hj. destruct (ends_there _ _ El) as (Hid & Hsrc & Htgt). apply link_taken_false. intros k r' Ek Hk.
  destruct (same_ends _ _) eqn:E; [exfalso|done]. apply same_ends_spec in E as (E1 & E2 & E3 & E4). cbn in E1, E2, E3, E4.
  destruct (kl_only0 _ _ Ek) as [E0|(l' & r0 & Hl' & E0 & _ & -> & ->)].
  - destruct (ends_there _ _ E0) as (_ & [m1 Hs1] & [m2 Hs2]). unfold touches in Ht. rewrite orb_true_iff, !bool_decide_eq_true in Ht.
    destruct Ht as [Ht%remapped_clone|Ht%remapped_clone]; congruence.
  - destruct (ends_there _ _ E0) as (_ & Hs0 & Ht0). cbn in *. apply remapped_inj in E1, E3; try done. assert (l ≠ l') as Hne by (by intros ->).
    pose proof (ok_link_unique _ Hs _ _ _ _ El E0 Hne) as Hu. apply not_true_iff_false in Hu. by apply Hu, same_ends_spec.
Qed.
Lemma new_link_apart l x : is_Some (t_links d0 !! l) → is_Some (t_links d0 !! x) → new_link ids l ≠ x.
Proof. intros Hl [m Hx] <-. by rewrite (fc_link _ _ Hf l Hl) in Hx. Qed.
Lemma touched_known l : touched l = true → is_Some (t_links d0 !! l).
Proof. unfold touched. destruct (t_links d0 !! l); [eauto|done]. Qed.

Lemma new_link_free d1 done d l : relinked d1 done d → is_Some (t_links d0 !! l) → l ∉ done → t_links d !! new_link ids l = None.
Proof.
  intros [] Hkl Hn. apply eq_None_not_Some. intros [rk Hk]. destruct (kl_only0 _ _ Hk) as [E|(l' & r0 & Hl' & E0 & _ & Ek & _)].
  - by rewrite (fc_link _ _ Hf l Hkl) in E.
  - apply Hn. by rewrite (fc_link_inj _ _ Hf l l' Hkl ltac:(by rewrite E0) Ek).
Qed.
(** What cloning a link that ends at a clone writes. *)
Lemma clone_link_writes d1 done d l r : cloned clones d1 → relinked d1 done d → l ∉ done → t_links d0 !! l = Some r → touches (ln_Link r) = true →
  clone_link ids now mapID clones l d = Ok (tt, d <| t_links := <[new_link ids l := cloned_link r]> (t_links d) |>
    <| t_map_links := rename_id (mapID, l) (mapID, new_link ids l) (t_map_links d) |>
    <| t_map_link_routes := rename_key (mapID, l) (mapID, new_link ids l) (t_map_link_routes d) |>).
Proof.
  intros H1 Hj Hn El Et. pose proof (cloned_link_free d1 done d l r Hj Hn El Et) as Hfree. pose proof (new_link_free d1 done d l Hj ltac:(by rewrite El) Hn) as Hnew. destruct Hj.
  destruct (ends_there _ _ El) as (Hid & Hsrc & Htgt). assert (Ed : t_links d !! l = Some r) by (by eapply lookup_weaken).
  unfold clone_link, tx_bind at 1, tx_read. rewrite Ed. fold (touches (ln_Link r)). rewrite Et. cbn [negb]. unfold tx_bind at 1.
  unfold insert_link, tx_bind at 1. rewrite references_there by (rewrite kl_devices0; by apply remapped_there). unfold tx_bind at 1.
  rewrite references_there by (rewrite kl_devices0; by apply remapped_there). unfold tx_bind at 1, tx_reject. unfold cloned_link in Hfree |- *. cbn [ln_Link lk_ID] in Hfree |- *. rewrite Hid in Hfree |- *.
  rewrite Hfree. by rewrite insert_row_runs by exact Hnew.
Qed.
Lemma clone_link_skips d1 done d l r : relinked d1 done d → t_links d0 !! l = Some r → touches (ln_Link r) = false → clone_link ids now mapID clones l d = Ok (tt, d).
Proof.
  intros [] El Et. unfold clone_link, tx_bind at 1, tx_read. rewrite (lookup_weaken _ _ _ _ El kl_links0). fold (touches (ln_Link r)). by rewrite Et.
Qed.
Lemma skip_link d1 l done d r : relinked d1 done d → t_links d0 !! l = Some r → touches (ln_Link r) = false → relinked d1 (done ++ [l]) d.
Proof.
  intros [] El Et. assert (Hfilter : filter (λ l, touched l = true) (done ++ [l]) = filter (λ l, touched l = true) done).
  { rewrite filter_app, filter_cons, decide_False, filter_nil, app_nil_r; [done|]. unfold touched. rewrite El, Et. done. }
  split; try done; [..|by rewrite Hfilter|by rewrite Hfilter].
  - intros x [Hx| ->%list_elem_of_singleton]%elem_of_app; [auto|by rewrite El].
  - intros x rx [Hx| ->%list_elem_of_singleton]%elem_of_app Ex Htx; [by apply kl_clones0|congruence].
  - intros k rk Hk. destruct (kl_only0 k rk Hk) as [?|(l' & r0 & Hl' & ?)]; [by left|right]. exists l', r0. rewrite elem_of_app. naive_solver.
Qed.

Lemma clone_link_runs d1 l done d : cloned clones d1 → relinked d1 done d → is_Some (t_links d0 !! l) → l ∉ done →
  ∃ d', clone_link ids now mapID clones l d = Ok (tt, d') ∧ relinked d1 (done ++ [l]) d'.
Proof.
  intros H1 Hj Hkl Hn. pose proof Hkl as [r El]. destruct (touches (ln_Link r)) eqn:Et; [|exists d; split; [by eapply clone_link_skips|by eapply skip_link]].
  pose proof (new_link_free d1 done d l Hj Hkl Hn) as Hnew. pose proof (clone_link_writes d1 done d l r H1 Hj Hn El Et) as E. destruct Hj.
  pose proof (keeps_clone_link ids now mapID (proj1 (fc_drawn _ _ Hf)) (proj2 (fc_drawn _ _ Hf)) true clones l d kl_ok0) as Hk. unfold wp in Hk. rewrite E in Hk.
  eexists. split; [exact E|]. set (moving := filter (λ l, touched l = true) done) in *.
  assert (Hml : (mapID, new_link ids l) ∉ t_map_links d0) by (intros [_ [? Ex]]%(ok_map_link _ Hs); by rewrite (fc_link _ _ Hf l Hkl) in Ex).
  assert (Hmr : t_map_link_routes d0 !! (mapID, new_link ids l) = None) by (apply eq_None_not_Some; intros [_ [? Ex]]%(ok_route _ Hs); by rewrite (fc_link _ _ Hf l Hkl) in Ex).
  assert (Hfilter : filter (λ l, touched l = true) (done ++ [l]) = moving ++ [l]).
  { rewrite filter_app. f_equal. rewrite filter_cons, decide_True, filter_nil; [done|]. unfold touched. by rewrite El. }
  assert (Hapart : ∀ x, x ∈ done → new_link ids x ≠ new_link ids l ∧ new_link ids x ≠ l).
  { intros x Hx. split; [|by apply new_link_apart; auto]. intros Ex. apply Hn. by rewrite <- (fc_link_inj _ _ Hf x l (kl_known0 x Hx) Hkl Ex). }
  assert (Hmoving : ∀ x, x ∈ moving → new_link ids x ≠ new_link ids l ∧ new_link ids x ≠ l) by (intros x [_ Hx]%list_elem_of_filter; auto).
  assert (Hself : new_link ids l ≠ l) by (by apply new_link_apart). assert (Hnf : l ∉ moving) by (by intros [_ ?]%list_elem_of_filter).
  assert (Hnf' : new_link ids l ∉ moving) by (intros [_ Hx]%list_elem_of_filter; by apply (new_link_apart l _ Hkl (kl_known0 _ Hx))).
  split; try done.
  - intros x [Hx| ->%list_elem_of_singleton]%elem_of_app; auto.
  - cbn. etrans; [exact kl_links0|]. by apply insert_subseteq.
  - intros x rx [Hx| ->%list_elem_of_singleton]%elem_of_app Ex Htx; cbn; [|rewrite lookup_insert_eq; congruence].
    destruct (Hapart x Hx). rewrite lookup_insert_ne by done. by apply kl_clones0.
  - intros k rk. cbn. intros [[<- <-]|[Hne Hk']]%lookup_insert_Some.
    + right. exists l, r. rewrite elem_of_app. split; [right; by left|done].
    + destruct (kl_only0 k rk Hk') as [?|(l' & r0 & Hl' & ?)]; [by left|right]. exists l', r0. rewrite elem_of_app. naive_solver.
  - rewrite Hfilter. destruct (rename_id_at (mapID, l) (mapID, new_link ids l) (t_map_links d)) as (R1 & R2 & R3); [congruence| |eapply moved_snoc; [exact kl_map_links0|done..]].
    apply (bool_decide_eq_false_1 ((mapID, new_link ids l) ∈ t_map_links d)). rewrite (mv_same _ _ _ _ _ _ kl_map_links0); [by apply bool_decide_eq_false|done|].
    intros x Hx Eq. by destruct (Hmoving x Hx).
  - rewrite Hfilter. destruct (rename_key_at (mapID, l) (mapID, new_link ids l) (t_map_link_routes d)) as (R1 & R2 & R3); [congruence| |eapply moved_snoc; [exact kl_routes0|done..]].
    rewrite (mv_same _ _ _ _ _ _ kl_routes0); [done|done|]. intros x Hx Eq. by destruct (Hmoving x Hx).
Qed.
Lemma clone_links_run d1 todo done d : cloned clones d1 → relinked d1 done d → NoDup (done ++ todo) → (∀ l, l ∈ todo → is_Some (t_links d0 !! l)) →
  ∃ d', tx_each (clone_link ids now mapID clones) todo d = Ok (tt, d') ∧ relinked d1 (done ++ todo) d'.
Proof.
  intros H1. revert done d. induction todo as [|l todo IH]; intros done d Hj Hn Hin; [rewrite app_nil_r; by exists d|].
  destruct (clone_link_runs d1 l done d H1 Hj) as (d2 & E2 & H2); [apply Hin; left|intros Ho; apply NoDup_app in Hn as (_ & Hx & _); apply (Hx l Ho); left|].
  replace (done ++ l :: todo) with ((done ++ [l]) ++ todo) in * by (by rewrite <- app_assoc).
  destruct (IH _ _ H2 Hn) as (d' & E' & H'); [intros x Hx; apply Hin; by right|]. exists d'. split; [|done]. cbn [tx_each]. unfold tx_bind. by rewrite E2.
Qed.

(** *** The map afterwards *)

Lemma cloned_start : cloned [] d0.
Proof. split; try done; try apply moved_nil; try by intros ? ?%elem_of_nil. intros o Ho _. by apply (fc_device _ _ Hf). Qed.
Lemma relinked_start d1 : cloned clones d1 → relinked d1 [] d1.
Proof.
  intros []. split; try done; try by intros ? ?%elem_of_nil.
  - by rewrite cd_links0.
  - intros l r ?%elem_of_nil. done.
  - intros k r E. left. congruence.
  - rewrite cd_map_links0. apply moved_nil.
  - rewrite cd_routes0. apply moved_nil.
Qed.

Lemma moved_remapped {B} (T0 T : UUID * UUID → B) none x : moved mapID (new_device ids) none clones T0 T → is_Some (t_devices d0 !! x) → T (mapID, remapped ids clones x) = T0 (mapID, x).
Proof.
  intros [] Hx. unfold remapped. case_bool_decide; [by apply mv_new0|]. apply mv_same0; [done|]. intros o Ho E. by apply (new_apart o x (clone_device_there o Ho) Hx).
Qed.
(** A member on another map too was there before, under the same id. *)
Lemma nothing_shared d1 d : cloned clones d1 → t_devices d = t_devices d1 → t_map_devices d = t_map_devices d1 → clone_candidates mapID d = [].
Proof.
  intros [] Ed Em. apply elem_of_nil_inv. intros x [Hv Hx]%list_elem_of_filter. apply list_elem_of_fmap in Hx as ([x' r] & -> & Hr%elem_of_rows_of). cbn in Hv, Hr. rewrite Em in Hr.
  unfold shared_virtual in Hv. rewrite Ed, Em in Hv. destruct (t_devices d1 !! x') as [m|] eqn:Ex; [|done]. apply andb_true_iff in Hv as [Hv He].
  apply existsb_exists in He as ([[o y] ro] & Ho%list_elem_of_In%elem_of_map_to_list & Ey). cbn in Ey. apply andb_true_iff in Ey as [Ey Eo]. apply negb_true_iff in Eo. to_prop. subst y.
  assert (E0 : t_map_devices d0 !! (o, x') = Some ro) by (rewrite <- Ho; symmetry; by apply (mv_other _ _ _ _ _ _ cd_members0)).
  destruct (ok_member _ Hs o x') as [_ [m0 Ed0]]; [by rewrite E0|].
  destruct (decide (x' ∈ clones)) as [Hc'|Hc']; [by rewrite (mv_old _ _ _ _ _ _ cd_members0 x' Hc') in Hr|].
  apply Hc'. unfold clones, clone_candidates. apply list_elem_of_filter. split.
  - unfold shared_virtual. rewrite Ed0. rewrite (lookup_weaken _ _ _ _ Ed0 cd_devices0) in Ex. injection Ex as ->. rewrite Hv. apply existsb_exists.
    exists ((o, x'), ro). split; [by apply list_elem_of_In, elem_of_map_to_list|]. cbn. rewrite Z.eqb_refl. by rewrite (proj2 (Z.eqb_neq _ _) Eo).
  - apply list_elem_of_fmap. exists (x', r). split; [done|]. apply elem_of_rows_of. rewrite <- Hr. symmetry. apply (mv_same _ _ _ _ _ _ cd_members0); [done|].
    intros y Hy E. apply (new_apart y x' (clone_device_there y Hy)); [by rewrite Ed0|done].
Qed.
Lemma isolated_others d1 done d m : cloned clones d1 → relinked d1 done d → m ≠ mapID → same_map m d0 d.
Proof.
  intros [] [] Hm. split; intros *.
  - congruence.
  - rewrite kl_members0. by apply (mv_other _ _ _ _ _ _ cd_members0).
  - rewrite <- (bool_decide_eq_true ((m, x) ∈ t_map_links d)), <- (bool_decide_eq_true ((m, x) ∈ t_map_links d0)). apply eq_iff_eq_true.
    by apply (mv_other _ _ _ _ _ _ kl_map_links0).
  - congruence.
  - rewrite kl_areas0, <- !elem_of_areas_at. by rewrite (mv_other _ _ _ _ _ _ cd_areas0).
  - rewrite kl_positions0. by apply (mv_other _ _ _ _ _ _ cd_positions0).
  - by apply (mv_other _ _ _ _ _ _ kl_routes0).
Qed.
Lemma isolated_link d1 done d l r : relinked d1 done d → l ∈ done → (mapID, l) ∈ t_map_links d0 → t_links d0 !! l = Some r →
  ∃ l' r', (mapID, l') ∈ t_map_links d ∧ t_links d !! l' = Some r' ∧ lk_SourceDeviceID (ln_Link r') = remapped ids clones (lk_SourceDeviceID (ln_Link r)) ∧
    lk_TargetDeviceID (ln_Link r') = remapped ids clones (lk_TargetDeviceID (ln_Link r)) ∧ t_map_link_routes d !! (mapID, l') = t_map_link_routes d0 !! (mapID, l).
Proof.
  intros [] Hl Hm El. destruct (touches (ln_Link r)) eqn:Et.
  - assert (Hd' : l ∈ filter (λ l, touched l = true) done) by (apply list_elem_of_filter; split; [unfold touched; by rewrite El|done]).
    exists (new_link ids l), (cloned_link r). split; [|split; [by apply kl_clones0|]].
    + apply (bool_decide_eq_true (_ ∈ _)). etrans; [by apply (mv_new _ _ _ _ _ _ kl_map_links0)|]. by apply bool_decide_eq_true.
    + split; [done|]. split; [done|]. by apply (mv_new _ _ _ _ _ _ kl_routes0).
  - assert (Hd' : l ∉ filter (λ l, touched l = true) done) by (intros [Ht _]%list_elem_of_filter; unfold touched in Ht; rewrite El in Ht; congruence).
    assert (Hnew : ∀ o, o ∈ filter (λ l, touched l = true) done → l ≠ new_link ids o).
    { intros o [Ho _]%list_elem_of_filter E. apply (new_link_apart o l (touched_known o Ho)); [by rewrite El|done]. }
    unfold touches in Et. apply orb_false_iff in Et as [Es Et]. to_prop. exists l, r. split; [|split; [by eapply lookup_weaken|]].
    + apply (bool_decide_eq_true (_ ∈ _)). etrans; [by apply (mv_same _ _ _ _ _ _ kl_map_links0)|]. by apply bool_decide_eq_true.
    + unfold remapped. rewrite !bool_decide_false by done. split; [done|]. split; [done|]. by apply (mv_same _ _ _ _ _ _ kl_routes0).
Qed.
End isolating.

Lemma same_map_touch m d d' mapID (f : MapRow → MapRow) : m ≠ mapID → same_map m d d' → same_map m d (d' <| t_maps := alter f mapID (t_maps d') |>).
Proof. intros Hm []. split; try done. cbn. by rewrite lookup_alter_ne. Qed.
Lemma no_clones `{Database} ids now mapID d : is_Some (t_maps d !! mapID) → clone_candidates mapID d = [] → IsolateVirtualDevices ids now mapID d = Ok (tt, d).
Proof. intros Hm E. unfold IsolateVirtualDevices, lockCanvasMap, tx_bind, tx_reject, tx_read. rewrite bool_decide_true by done. cbn [negb]. by rewrite E. Qed.

(** C33: on consistent tables and with new ids, isolating a map succeeds: afterwards no virtual device of the map is on another
    map, so isolating again changes nothing; every other map, device and link is as it was; each member keeps its role, color, areas
    and position, under the id of its clone if it has one, and each link of the map leads to the members that stand for its ends,
    with its route. *)
Theorem virtual_devices_isolated `{Database} ids now mapID d : consistent d → is_Some (t_maps d !! mapID) → fresh_clones ids d →
  let rename := remapped ids (clone_candidates mapID d) in
  ∃ d', run (IsolateVirtualDevices ids now mapID) d = (d', Ok tt) ∧
    clone_candidates mapID d' = [] ∧ (∀ ids' now', run (IsolateVirtualDevices ids' now' mapID) d' = (d', Ok tt)) ∧
    (∀ m, m ≠ mapID → same_map m d d') ∧ t_devices d ⊆ t_devices d' ∧ t_links d ⊆ t_links d' ∧
    (∀ x, is_Some (t_devices d !! x) → t_map_devices d' !! (mapID, rename x) = t_map_devices d !! (mapID, x) ∧
      t_map_positions d' !! (mapID, rename x) = t_map_positions d !! (mapID, x) ∧
      areas_at (t_map_device_areas d') (mapID, rename x) = areas_at (t_map_device_areas d) (mapID, x)) ∧
    ∀ l r, (mapID, l) ∈ t_map_links d → t_links d !! l = Some r → ∃ l' r', (mapID, l') ∈ t_map_links d' ∧ t_links d' !! l' = Some r' ∧
      lk_SourceDeviceID (ln_Link r') = rename (lk_SourceDeviceID (ln_Link r)) ∧ lk_TargetDeviceID (ln_Link r') = rename (lk_TargetDeviceID (ln_Link r)) ∧
      t_map_link_routes d' !! (mapID, l') = t_map_link_routes d !! (mapID, l).
Proof.
  intros Hc Hm Hf. cbv zeta. destruct (decide (clone_candidates mapID d = [])) as [E0|E0].
  { exists d. unfold run. rewrite !no_clones by done. setoid_rewrite no_clones; [|done..]. rewrite E0. split; [done|]. split; [done|]. split; [done|]. split; [by intros|]. split; [done|].
    split; [done|]. split; [done|]. intros l r Hl E. by exists l, r. }
  destruct (clone_members_run ids mapID d Hc Hf (clone_candidates mapID d) [] d) as (d1 & E1 & H1); [by apply cloned_start|apply NoDup_clones|done|].
  cbn [app] in H1. set (links := ids_of mapID (t_map_links d1)).
  destruct (clone_links_run ids now mapID d Hc Hf d1 links [] d1 H1) as (d2 & E2 & H2); [by apply relinked_start|apply NoDup_ids_of| |].
  { intros l Hl%elem_of_ids_of. rewrite (cd_map_links _ _ _ _ _ H1) in Hl. by apply (ok_map_link _ (inv_store _ _ _ Hc) mapID). }
  cbn [app] in H2. set (d3 := d2 <| t_maps := alter (λ r, r <| mr_UpdatedAt := now |>) mapID (t_maps d2) |>).
  assert (E : IsolateVirtualDevices ids now mapID d = Ok (tt, d3)).
  { unfold IsolateVirtualDevices, lockCanvasMap. unfold tx_bind at 1, tx_reject. rewrite bool_decide_true by done. cbn [negb]. unfold tx_bind at 1, tx_read.
    destruct (clone_candidates mapID d) as [|c cs] eqn:Ec; [done|]. unfold tx_bind at 1. rewrite E1. unfold tx_bind at 1. fold links. unfold tx_bind at 1. by rewrite E2. }
  pose proof (kl_devices _ _ _ _ _ _ _ H2) as Ed. pose proof (kl_members _ _ _ _ _ _ _ H2) as Em.
  assert (Hnone : clone_candidates mapID d3 = []) by (by apply (nothing_shared ids mapID d Hc Hf d1)).
  assert (Hm3 : is_Some (t_maps d3 !! mapID)) by (cbn; by rewrite lookup_alter_is_Some, (kl_maps _ _ _ _ _ _ _ H2), (cd_maps _ _ _ _ _ H1)).
  exists d3. unfold run. rewrite E. split; [done|]. split; [done|]. split; [intros ids' now'; by rewrite no_clones|].
  split; [intros m Hne; apply same_map_touch; [done|]; by eapply isolated_others|].
  split; [cbn; rewrite Ed; by eapply cd_devices|]. split; [exact (kl_links _ _ _ _ _ _ _ H2)|]. split.
  - intros x Hx. cbn. rewrite Em, (kl_positions _ _ _ _ _ _ _ H2), (kl_areas _ _ _ _ _ _ _ H2).
    split; [|split]; [by apply (moved_remapped ids mapID d Hf _ _ _ x (cd_members _ _ _ _ _ H1))|by apply (moved_remapped ids mapID d Hf _ _ _ x (cd_positions _ _ _ _ _ H1))|
      by apply (moved_remapped ids mapID d Hf _ _ _ x (cd_areas _ _ _ _ _ H1))].
  - intros l r Hl El. eapply (isolated_link ids now mapID d Hf d1 links d2 l r H2); [|done|done]. apply elem_of_ids_of. by rewrite (cd_map_links _ _ _ _ _ H1).
Qed.

(** ** The projection of the migration *)

Lemma foldl_keep {A} (P : A → Prop) `{!∀ x, Decision (P x)} (l acc : list A) : foldl (λ out x, if bool_decide (P x) then out ++ [x] else out) acc l = acc ++ filter P l.
Proof.
  revert acc. induction l as [|x l IH]; intros acc; [by rewrite app_nil_r|]. cbn [foldl]. rewrite IH, filter_cons.
  destruct (decide (P x)) as [Hx|Hx]; [rewrite (bool_decide_true _ Hx)|by rewrite (bool_decide_false _ Hx)]. by rewrite <- app_assoc.
Qed.
Lemma foldl_map {A B} (f : A → B) (l : list A) acc : foldl (λ out x, out ++ [f x]) acc l = acc ++ (f <$> l).
Proof. revert acc. induction l as [|x l IH]; intros acc; [by rewrite app_nil_r|]. cbn [foldl]. rewrite IH. by rewrite <- app_assoc. Qed.
Lemma foldl_add {A} (f : A → UUID) (l : list A) (s : gset UUID) : foldl (λ s x, {[f x]} ∪ s) s l = list_to_set (f <$> l) ∪ s.
Proof. revert s. induction l as [|x l IH]; intros s; cbn; [by rewrite (left_id_L ∅ (∪))|]. rewrite IH. set_solver. Qed.
Lemma foldl_add_all {A} (f : A → list UUID) (l : list A) (s : gset UUID) : foldl (λ s x, foldl (λ s a, {[a]} ∪ s) s (f x)) s l = list_to_set (l ≫= f) ∪ s.
Proof.
  revert s. induction l as [|x l IH]; intros s; cbn; [by rewrite (left_id_L ∅ (∪))|]. rewrite IH. rewrite (foldl_add (λ a, a) (f x) s), list_fmap_id, list_to_set_app_L. set_solver.
Qed.

Lemma migration_matches mf x : canvasMapMigrationDeviceMatches mf x = baseDevice mf x.
Proof.
  unfold canvasMapMigrationDeviceMatches, baseDevice, deviceMatchesTags, deviceHasArea. f_equal. destruct (mf_DeviceIDs mf) as [|y l].
  - rewrite (bool_decide_true (list_to_set [] = ∅)) by done. cbn [negb]. destruct (mf_AreaID mf) as [a|]; [|done]. induction (md_AreaIDs x) as [|b l IH]; cbn; [done|]. by rewrite IH, Z.eqb_sym.
  - rewrite (bool_decide_false (list_to_set (y :: l) = ∅)); [done|]. cbn. set_solver.
Qed.
Lemma migration_devices mf l known base acc : foldl (migration_device mf) (known, base, acc) l =
  (deviceIDSet l ∪ known, deviceIDSet (filter (λ x, baseDevice mf x = true) l) ∪ base, acc ++ filter (λ x, baseDevice mf x = true) l).
Proof.
  revert known base acc. induction l as [|x l IH]; intros known base acc; [unfold deviceIDSet; cbn; by rewrite !(left_id_L ∅ (∪)), app_nil_r|].
  cbn [foldl]. unfold migration_device at 2. rewrite migration_matches, filter_cons. destruct (baseDevice mf x) eqn:E; rewrite IH.
  - rewrite decide_True by done. unfold deviceIDSet. cbn. rewrite <- app_assoc. f_equal; f_equal; set_solver.
  - rewrite decide_False by done. unfold deviceIDSet. cbn. f_equal; f_equal; set_solver.
Qed.
Lemma migration_links mf known base l acc ghosts : foldl (migration_link mf known base) (acc, ghosts) l =
  (acc ++ filter (λ x, includeLink mf known base x = true) l, if mf_IncludeGhostDevices mf then foldl (add_ghosts base) ghosts (filter (λ x, includeLink mf known base x = true) l) else ghosts).
Proof.
  revert acc ghosts. induction l as [|x l IH]; intros acc ghosts; [cbn; rewrite app_nil_r; by destruct (mf_IncludeGhostDevices mf)|].
  cbn [foldl]. assert (E : migration_link mf known base (acc, ghosts) x =
    if includeLink mf known base x then (acc ++ [x], if mf_IncludeGhostDevices mf then add_ghosts base ghosts x else ghosts) else (acc, ghosts)).
  { unfold migration_link, includeLink, add_ghosts. destruct (bool_decide (_ ∈ known)), (bool_decide (lk_TargetDeviceID x ∈ known)); try done. cbn [negb orb andb].
    destruct (mf_IncludeCrossAreaLinks mf), (bool_decide (lk_SourceDeviceID x ∈ base)), (bool_decide (lk_TargetDeviceID x ∈ base)), (mf_IncludeGhostDevices mf); done. }
  rewrite E, filter_cons. destruct (includeLink mf known base x); rewrite IH; [|by rewrite decide_False]. rewrite decide_True by done. cbn [foldl]. rewrite <- app_assoc.
  by destruct (mf_IncludeGhostDevices mf).
Qed.
Lemma migration_ghosts base ghosts l acc : foldl (migration_ghost base ghosts) acc l = acc ++ filter (λ x, md_ID x ∉ base ∧ md_ID x ∈ ghosts) l.
Proof.
  rewrite <- foldl_keep. revert acc. induction l as [|x l IH]; intros acc; [done|]. cbn [foldl]. rewrite IH. f_equal. unfold migration_ghost.
  repeat case_bool_decide; try done; tauto.
Qed.
Lemma migration_projection devices links mf : projectCanvasMapMigrationTopology devices links mf = ProjectTopologyForFilter devices links mf.
Proof.
  unfold projectCanvasMapMigrationTopology, ProjectTopologyForFilter. rewrite migration_devices, !(right_id_L ∅ (∪)). cbn [app]. rewrite migration_links. cbn [app]. f_equal.
  destruct (mf_IncludeGhostDevices mf); cbn [andb].
  - case_bool_decide as E; cbn [negb]; [|by rewrite migration_ghosts]. symmetry. apply elem_of_nil_inv. intros x [[_ Hx] _]%list_elem_of_filter. rewrite E in Hx. set_solver.
  - symmetry. apply elem_of_nil_inv. intros x [[_ Hx] _]%list_elem_of_filter. set_solver.
Qed.

(** the migration at start materializes the same membership from a filter as the service does. *)
Theorem migration_materializes_alike devices links areas mf :
  materializeCanvasMapMigrationMembership devices links areas mf = MaterializeMembership devices links areas mf.
Proof.
  unfold materializeCanvasMapMigrationMembership, MaterializeMembership. rewrite migration_projection. set (p := ProjectTopologyForFilter devices links mf).
  assert (Ea : canvasMapMigrationAreasForMembership areas (tp_Devices p) mf = areasForMembership areas (tp_Devices p) mf).
  { unfold canvasMapMigrationAreasForMembership, areasForMembership, includedAreas. rewrite (foldl_keep (λ a, ar_ID (ac_Area a) ∈ _)). cbn [app].
    destruct (mf_AreaID mf); [done|]. by rewrite foldl_add_all, (right_id_L ∅ (∪)). }
  rewrite Ea. unfold projection_members, areaWithCountIDSet, AreasWithCountToMembership, AreasToMembership. rewrite foldl_add, (right_id_L ∅ (∪)), !foldl_map. cbn [app].
  f_equal; [|by rewrite <- list_fmap_compose]. f_equal. apply list_fmap_ext. intros i x _. f_equal. unfold canvasMapMigrationFilterDeviceAreaIDs, filterDeviceAreaIDs. by rewrite (foldl_keep (λ a, a ∈ _)).
Qed.
