(* ===== verification/CanvasDemo.v ===== *)
(** * Saved maps, computed

    A small network with two saved maps, asked for step by step, and the theorems about saved maps and
    links applied to it. *)

From S2P Require Import Prelude GoLib GoText Domain Addresses Runtime CanvasMap MapStore CanvasRepo LinkStore CanvasService CanvasInv CanvasSafe LinkTheorems CanvasTheorems.
Open Scope store_scope.

#[local] Instance demo_database : Database := {| collate := String.leb; ip_key := λ s, s |}.
#[local] Instance demo_json : FilterJSON := {| filter_json := λ _, "{}"%string; json_filter := λ _, Some emptyFilter |}.
Definition lower (s : string) : string := s.

Definition demo_device (id : UUID) (name type ip : string) : MapDevice :=
  mkMapDevice {| dev_ID := id; dev_Hostname := name; dev_SysName := name; dev_IP := ip; dev_SNMPCredentials := dev_SNMPCredentials zeroDevice; dev_DeviceType := type;
    dev_PollClass := ""; dev_PollIntervalOverride := None; dev_PollingEnabled := None; dev_Status := ""; dev_Managed := true; dev_Interfaces := [];
    dev_Addresses := []; dev_ProbePorts := []; dev_AreaIDs := []; dev_MetricsSource := ""; dev_TopologyDiscoveryMode := ""; dev_TopologyBootstrapState := "" |} ∅.
Definition demo_link (source : UUID) (port : string) (target : UUID) (far : string) : LinkRow :=
  mkLinkRow {| lk_ID := uuid_Nil; lk_SourceDeviceID := source; lk_SourceIfName := port; lk_TargetDeviceID := target; lk_TargetIfName := far; lk_CreatedAt := 0 |} "lldp" 0.

(** Ids of clones, apart from those of the demo. *)
Definition far_id (base : Z) (x : UUID) : UUID := base + 2 * Z.abs x + (if x <? 0 then 1 else 0).
Definition demo_ids : CloneIDs := {| new_device := far_id 1000; new_link := far_id 3000; new_address := far_id 5000 |}.
Definition demo_ids2 : CloneIDs := {| new_device := far_id 10000; new_link := far_id 13000; new_address := far_id 15000 |}.

(** The switch, the cloud it is connected to, and the links between them, with the router as a ghost. *)
Definition switch_filter : CanvasMapFilter := mkFilter None [2; 3] true true ∅.

Definition demo_requests : list Request :=
  [ RNewArea 50 {| ar_ID := uuid_Nil; ar_Name := "Core"; ar_Description := ""; ar_Color := "#00E676" |};
    RPutDevice (demo_device 1 "router" "router" "10.0.0.1") {[50]};
    RPutDevice (demo_device 2 "switch" "switch" "10.0.0.2") {[50]};
    RPutDevice (demo_device 3 "cloud" DeviceTypeVirtual "") ∅;
    RDiscoveredLink 20 5 (demo_link 1 "ether1" 2 "");
    RDiscoveredLink 21 6 (demo_link 2 "ether2" 1 "ether1");
    RManualLink 22 7 (demo_link 2 "ether3" 3 "") false;
    RCreate false demo_ids 100 10 {| rq_Name := "Site"; rq_Description := ""; rq_SourceAreaID := None; rq_SourceMapID := None; rq_Filter := switch_filter |};
    RSaveLinkRoute 12 100 22 1 [mkPoint (f64_of_Z 10) (f64_of_Z 20)];
    RDuplicate demo_ids 101 15 100 "Copy" ].
Definition demo : MapDB := requests lower no_rows (RStart 90 1 :: demo_requests).

(** Both observations of the first cable are in one row; the copy of the map has its own cloud and its own link to it. *)
Example demo_links : merge_sort Z.le (elements (dom (t_links demo))) = [20; 22; 3044].
Proof. vm_compute. reflexivity. Qed.
Example demo_members : ids_of 100 (dom (t_map_devices demo)) = [1; 2; 3] ∧ ids_of 101 (dom (t_map_devices demo)) = [1; 2; 1006] ∧ ids_of 90 (dom (t_map_devices demo)) = [].
Proof. vm_compute. auto. Qed.
Example demo_ghost : (me_Role <$> t_map_devices demo !! (100, 1)) = Some CanvasMapDeviceRoleGhost ∧ (me_Role <$> t_map_devices demo !! (101, 2)) = Some CanvasMapDeviceRoleBase.
Proof. vm_compute. auto. Qed.
Example demo_copy : merge_sort Z.le (ids_of 101 (t_map_links demo)) = [20; 3044] ∧ merge_sort Z.le (elements (set_map snd (dom (t_map_link_routes demo)) : gset UUID)) = [22; 3044].
Proof. vm_compute. auto. Qed.

Lemma far_id_drawn base x : 0 < base → far_id base x ≠ uuid_Nil.
Proof. unfold far_id, uuid_Nil. destruct (x <? 0); lia. Qed.
Lemma far_id_inj base x y : far_id base x = far_id base y → x = y.
Proof. unfold far_id. destruct (x <? 0) eqn:Ex, (y <? 0) eqn:Ey; to_prop; lia. Qed.
Lemma demo_drawn : Forall drawn demo_requests.
Proof.
  unfold demo_requests. repeat apply Forall_cons_2; try apply Forall_nil_2; cbn [drawn]; try exact I; try (split; intros x; by apply far_id_drawn); discriminate.
Qed.
Lemma demo_ok : consistent demo.
Proof.
  apply (requests_ok lower demo_requests (serve lower (RStart 90 1) no_rows)); [apply demo_drawn|apply started_ok].
Qed.

Lemma maps_consistent_witness : Forall drawn demo_requests ∧ consistent demo.
Proof. split; [apply demo_drawn|]. apply (maps_consistent lower 90 1 demo_requests), demo_drawn. Defined.

(** A cable seen from the other side, with a port name that was not known. *)
Lemma rediscovery_idempotent_witness : ∃ res d', UpsertDetailed lower 30 40 (demo_link 3 "uplink" 2 "ether3") demo = Ok (res, d') ∧ lu_Kind res = LinkUpsertKindEnriched ∧
  UpsertDetailed lower 31 50 (demo_link 3 "uplink" 2 "ether3") d' = Ok (mkUpsert false false LinkUpsertKindNoop, d').
Proof.
  destruct (UpsertDetailed lower 30 40 (demo_link 3 "uplink" 2 "ether3") demo) as [[res d']|e] eqn:E; [|by vm_compute in E].
  exists res, d'. split; [exact eq_refl|]. split; [by vm_compute in E; injection E as <- _|].
  apply (rediscovery_idempotent lower 30 31 40 50 (demo_link 3 "uplink" 2 "ether3") demo d' res); [by vm_compute|apply demo_ok|by vm_compute|exact E].
Defined.

Definition demo_membership : CanvasMapMembership :=
  mkMembership [mkMember 2 CanvasMapDeviceRoleBase [60; 50] None; mkMember 3 CanvasMapDeviceRoleGhost [] (Some "#FFFFFF"%string)] [22] [mkArea 60 "Edge" "" "#00E676"; mkArea 50 "Core" "" "#00E676"].
Lemma membership_read_back_witness : ∃ d' got, run (ReplaceMembership 70 100 demo_membership) demo = (d', Ok tt) ∧ GetMembership 100 d' = Ok got ∧
  ms_Devices got ≡ₚ [mkMember 2 CanvasMapDeviceRoleBase [50; 60] None; mkMember 3 CanvasMapDeviceRoleGhost [] (Some "#FFFFFF"%string)].
Proof.
  destruct (membership_read_back 70 100 demo_membership demo) as (d' & got & E & Eg & Hd & _); [vm_compute; eauto|discriminate|vm_compute; reflexivity| | |].
  - intros m [->|[->|[]%elem_of_nil]%elem_of_cons]%elem_of_cons; vm_compute; eauto.
  - intros l ->%list_elem_of_singleton. vm_compute. eauto.
  - exists d', got. split; [exact E|]. split; [exact Eg|]. exact Hd.
Defined.

(** The map of the copy again from the filter: it shows the switch and the cloud of the original, and as ghosts what else the switch is linked to, the other cloud and the router. *)
Lemma materialized_view_witness : ∃ d' m plan, ReplaceMaterializedMembership 80 101 switch_filter demo = (d', Ok tt) ∧ LoadTopology 101 d' = Ok (m, plan) ∧
  (md_ID <$> rp_Devices plan) = [3; 2; 1006; 1] ∧ (lk_ID <$> rp_Links plan) = [20; 22; 3044].
Proof.
  destruct (materialized_view 80 101 switch_filter demo) as (d' & m & plan & E & El & Ed & Ek & _); [apply demo_ok|vm_compute; eauto|discriminate|].
  exists d', m, plan. split; [exact E|]. split; [exact El|]. split; [rewrite Ed; vm_compute; reflexivity|rewrite Ek; vm_compute; reflexivity].
Defined.

(** The cloud is on both maps then. *)
Definition shared_demo : MapDB := (ReplaceMaterializedMembership 80 101 switch_filter demo).1.
Lemma shared_demo_ok : consistent shared_demo.
Proof. apply (ReplaceMaterializedMembership_ok 80 101 switch_filter demo), demo_ok. Qed.
Lemma shared_demo_fresh : fresh_clones demo_ids2 shared_demo.
Proof.
  assert (Hd : map_Forall (λ x _, t_devices shared_demo !! new_device demo_ids2 x = None) (t_devices shared_demo)).
  { apply (bool_decide_eq_true (map_Forall (λ x _, t_devices shared_demo !! new_device demo_ids2 x = None) (t_devices shared_demo))). vm_compute. reflexivity. }
  assert (Hl : map_Forall (λ x _, t_links shared_demo !! new_link demo_ids2 x = None) (t_links shared_demo)).
  { apply (bool_decide_eq_true (map_Forall (λ x _, t_links shared_demo !! new_link demo_ids2 x = None) (t_links shared_demo))). vm_compute. reflexivity. }
  split; [split; intros x; by apply far_id_drawn|intros x [m Hx]; by apply (Hd x m)|intros x y _ _; apply far_id_inj|intros x [m Hx]; by apply (Hl x m)|intros x y _ _; apply far_id_inj].
Qed.
Lemma virtual_devices_isolated_witness : clone_candidates 101 shared_demo = [3] ∧ ∃ d', run (IsolateVirtualDevices demo_ids2 85 101) shared_demo = (d', Ok tt) ∧
  clone_candidates 101 d' = [] ∧ same_map 100 shared_demo d' ∧ t_map_devices d' !! (101, new_device demo_ids2 3) = t_map_devices shared_demo !! (101, 3).
Proof.
  split; [by vm_compute|]. destruct (virtual_devices_isolated demo_ids2 85 101 shared_demo) as (d' & E & Hn & _ & Hs & _ & _ & Hm & _);
    [apply shared_demo_ok|vm_compute; eauto|apply shared_demo_fresh|].
  exists d'. split; [exact E|]. split; [exact Hn|]. split; [apply Hs; discriminate|]. assert (H3 : is_Some (t_devices shared_demo !! 3)) by (vm_compute; eauto). destruct (Hm 3 H3) as [E3 _].
  assert (Er : remapped demo_ids2 (clone_candidates 101 shared_demo) 3 = new_device demo_ids2 3) by (vm_compute; reflexivity). rewrite Er in E3. exact E3.
Defined.
